(* ===== verification/_CoqProject ===== *)
-Q . S2P
Prelude.v
Conn.v
ConnTable.v
ConnTableFacts.v
ConnTableOps.v
ConnTableProps.v
ConnTableClaims.v
Reassembly.v
StreamSafe.v
Framer.v
FramerFacts.v
FramerData.v
Decode.v
PgFrame.v
MyFrame.v
Registry.v
FramerProps.v
PgStream.v
Pipeline.v
PipelineFacts.v
Proto.v
Decimal.v
PgConn.v
PgQuery.v
Pg.v
PgFacts.v
PgPrepFacts.v
PgRefine.v
PgOps.v
PgHandler.v
PgClaims.v
PgBatch.v
PgProps.v
PgMain.v
PgStmt.v
PgLabels.v
Hist.v
MetReg.v
MetRegHeap.v
MetRegRun.v
MetRegClaims.v
NormRoute.v
NormRouteProps.v
NormS3.v
HttpWire.v
HttpFrame.v
HttpSafe.v
HttpRefine.v
HttpMsg.v
Http.v
HttpHandler.v
NormSql.v
NormSqlProps.v
NormSqlClaims.v
Metrics.v
MetricsClaims.v
MyConn.v
MyQuery.v
My.v
MyOps.v
MyReply.v
MyHandler.v
MyClaims.v
MyExchange.v
MyStmt.v
MyOpaque.v
RedisFrame.v
RedisRefine.v
RedisResp.v
RedisClaims.v
RedisSafe.v
NormRedisTab.v
NormRedis.v
RedisArgv.v
RedisConn.v
Redis.v
RedisHandler.v
RedisReports.v
RedisHandlerClaims.v
Pbuf.v
