(* ===== verification/Prelude.v ===== *)
(** * latkit: a verification of the agent's userspace core

    latkit attaches eBPF probes to a database's sockets and turns the captured
    bytes into per-query latency metrics.  The kernel side emits ring-buffer
    records; userspace decodes them ([agent/decode.c]), finds the connection
    ([agent/conn_table.c]), reassembles protocol messages ([agent/reassembly.c],
    with a vtable of framing hooks per protocol), hands them to a protocol handler
    ([proto/...]) which reports sessions, queries and transactions, whose texts are
    normalised ([norm/...]) and whose timings are aggregated ([metrics/...]) and
    exported ([export/...]).  The path [agent/pipeline.c] composes the first three.

    ** Files, and the code under src/src they model

    - [Prelude]: record update, machine integers, flags, byte lists, tactics, hints.
    - [Conn]: the shared structures (events, connection entry, per-direction frame,
      messages, the vtable and sink records) of [bpf/latkit.h], [conn_table.h],
      [reassembly.h], [proto.h].
    - [ConnTable]: all of [agent/conn_table.c] as a heap of nodes with intrusive hash
      and LRU links; [ConnTableFacts], [ConnTableOps], [ConnTableProps],
      [ConnTableClaims] prove the representation invariant and the refinement of a
      bounded LRU cache.
    - [Reassembly]: all of [agent/reassembly.c]; [Framer] states what a protocol's
      hooks promise ([FramerLaws]) and what a consumer promises ([SinkLaws]);
      [FramerFacts], [FramerData], [FramerProps] prove the machine
      against these two interfaces.
    - [Decode]: [agent/decode.c].  [PgFrame], [MyFrame]: the vtables of
      [proto/pg/pg_frame.c] and [proto/my/my_frame.c] and their instances of
      [FramerLaws].  [Registry]: [proto/registry.c].  [PgStream]: the framer on
      well-formed PostgreSQL streams.
    - [Pipeline], [PipelineFacts]: [agent/pipeline.c].
    - [Proto]: the handler base of [proto/proto.h].
    - [PgConn], [PgQuery], [Pg]: all of the PostgreSQL
      handler ([proto/pg/*]); [PgRefine] is its specification, a batch machine
      over lists without ring, cache or allocator; [PgFacts], [PgPrepFacts],
      [PgRefine], [PgOps], [PgHandler] prove invariant and refinement; [PgClaims],
      [PgBatch], [PgProps], [PgMain], [PgStmt], [PgLabels] derive its properties.
    - [NormSql]: [norm/norm_sql.c]; [NormSqlProps], [NormSqlClaims].
    - [Pbuf]: [export/pbuf.c].
    - [Hist]: [metrics/hist.c].
    - [MyConn], [MyQuery], [My]: all of the MySQL handler
      ([proto/my/*]); [MyOps], [MyReply], [MyHandler] prove its
      invariant and what each packet may report; [MyClaims], [MyExchange], [MyStmt],
      [MyOpaque] derive its properties.
    - [RedisFrame]: the RESP stream framer ([proto/redis/redis_wire.h],
      [redis_frame.c]); [RedisRefine] states its specification, a machine fed byte by byte
      without chunks, slabs or states of its own, and proves the refinement; [RedisResp]
      is the grammar of values, [RedisClaims] what follows for whole streams, [RedisSafe]
      the bounds.
    - [NormRedisTab], [NormRedis]: the command table and [norm/norm_redis.c];
      [NormRedis] proves the searches.  [RedisArgv]: the argument
      readers and the display mask of [redis_frame.c].  [Decimal]: printed numbers.
    - [RedisConn], [Redis]: all of the Redis handler ([proto/redis/redis.h], [redis.c]);
      [RedisHandler] states its specification, a queue machine over lists, and proves
      the refinement; [RedisReports] and [RedisHandlerClaims] derive what it reports.
    - [MetReg]: the series registry ([metrics/registry.c]) but for its two printing walks;
      [MetRegHeap] proves its hash tables, recency list and series heap, [MetRegRun] every
      operation against the invariant and the reference dictionary, [MetRegClaims] the
      properties.  [Metrics], [MetricsClaims]: the facade ([metrics/metrics.c]) over it.
    - [HttpWire], [HttpFrame]: the HTTP/1.x wire readers and stream framer
      ([proto/http/http_wire.h], [http_frame.c]); [HttpSafe] proves the bounds,
      [HttpRefine] a byte-by-byte machine and the refinement, [HttpMsg] the grammar of
      messages and what follows for whole conversations.  [StreamSafe] is what the two
      stream framers' proofs share: segments and holes, and what a consumer of a stream
      promises ([StreamSink]).
    - [Http]: all of the HTTP handler ([proto/http/http.c], [http_req.c], [http_resp.c],
      [http_route.c], the state of [http.h]) with the S3 dialect over it
      ([proto/s3/s3_wire.h], [s3_dialect.c]); [HttpHandler] states its specification, a
      queue machine over a list, and proves the refinement for every dialect that does not
      look at buffer capacities ([CapBlind], with both dialects as instances).
    - [NormRoute], [NormRouteProps]: the route templater and the query redactor
      ([norm/norm_route.c], [norm_redact.c]) against a template computed from the list of
      path segments and query fields.  [NormS3]: [norm/norm_s3.c].
    ** How the code is represented

    A w-bit integer is a [Z] in range with its wrap-around written out; a pointer
    and its length are one list of bytes; state is passed explicitly; a loop that is
    not structural runs on fuel.  [None] in the connection table and the framer
    stands for a wild dereference or an exhausted fuel, and the safety theorems show
    it never happens.  Allocation failure is an input: a list of outcomes consumed by
    the allocations, and every theorem that does not say otherwise holds for any such
    list.  Callbacks (handlers under the framer, the sink above a handler, the table's
    destroy hook) are function parameters with a threaded context.

    ** What is proved

    - Connection table: no wild access, termination, a bounded LRU cache keyed by
      cookie, exact sweep and teardown, exact loss accounting up to the 32-bit wrap.
    - Message framer (PostgreSQL, MySQL): every event sequence returns, within slab and
      pool bounds; framing does not depend on where the capture cuts a stream in sync; a
      PostgreSQL stream past the startup phase, cut anywhere, comes out as it went in with
      the times of its first bytes; a hole inside a body costs that body only.
    - Decoder and pipeline: records round trip; the composed path is safe for these two
      protocols, its TLS gauge exact, and ciphertext never reaches a handler.
    - PostgreSQL handler: safe on any traffic under any allocator; refines the batch
      machine; FIFO attribution of replies, error recovery, transactions, the
      statement cache as a finite map, silence across a loss, indifference to
      payload, decoded row counts and labels.
    - SQL normaliser: equal to its list specification; blind to literals, case, white
      space and the length of value lists.
    - Protobuf writer: documents parse back; failure is sticky.  Histograms:
      cumulative counts are exact.
    - MySQL handler: safe on any traffic under any allocator; every report runs from
      its own command to its own terminator; resultset exchanges and prepared
      statements are measured exactly; authentication data, parameters and rows are
      not observed.
    - Redis framer: refines the byte machine on every capture the machine can follow;
      RESP values come out as they were written, wherever the stream is cut; a hole in a
      payload costs its bytes only; every field of the state in the range of its type on any input.
    - Redis handler: refines the queue machine; pipelines are answered in order with
      their depth; labels move on accepted replies; transactions are reported once.
      The classifier (for subcommands that fit its key buffer) and the error names equal linear scans of their tables; a captured
      AUTH is displayed without its arguments (one cut short is not: a finding).
    - Metric registry: the dictionary refines a bounded LRU list with two-knock admission;
      probes, evictions and sizing end, for a dictionary of at most 2^29 entries (the
      command line allows 2^20); cardinality is bounded; evictions lose no figure and
      every sum over the series equals what was observed; the flat arrays are touched within
      their extents.
    - Metric facade: what the handlers report is what the registry counts, per protocol.
    - HTTP framer: refines the byte machine on every capture without holes; a conversation
      comes out message by message as it was written, wherever it is cut; every array and
      counter bounded on any bytes and holes.
    - HTTP handler, plain and S3: refines the queue machine (memory available), so requests
      and responses are paired first in first out and the ring is exact; four runs and
      inputs on which the code departs from its comments are proved beside it (findings).
    - Routes, redaction, S3: the templater equals its reference template, the map file
      parses back, no control byte or unnamed query value reaches a label; exactly the
      credential-shaped values are hidden; an S3 operation is its row of the table.

    ** Fuel and bounds

    The framer's loops get fuel linear in the chunk ([FramerFacts] proves it enough);
    hash-chain and LRU walks get the size of the heap, free and sweep loops the number
    of entries; the lexer the length of its input, each iteration consuming a byte
    ([NormSqlProps.lex_fuel]); a varint has at most ten bytes; ring and cache walks are
    bounded by the ring's and cache's capacities.  The RESP and HTTP loops get twice the
    chunk and two ([RedisSafe] and [HttpSafe] prove they never run out), a binary search the size of its
    range, the drop and freeze loops the number of units in flight.

    ** Not modelled

    The eBPF programs ([bpf/latkit.bpf.c]: their records are the input here), the
    agent's command line, epoll loop, libbpf attachment and ELF readers, the socket and
    HTTP code of the exporters, text dumps (printing), the text and OTLP documents printed from the registry, and
    the scalars read from /proc.
    XXH3, vendored, is the parameter of the SQL digest, the command
    fingerprint, the route and the S3 operation.  Stream-framed
    protocols enter the framer of [Reassembly] through the stream hooks of the vtable,
    parameters of [Registry]; the Redis and HTTP ones are [RedisFrame]'s and [HttpFrame]'s. *)
From stdpp Require Import base list gmap.
From Stdlib Require Import ZArith Lia.
#[local] Open Scope Z_scope.

(** * Record update

    [r <| f := v |>] is the C assignment [r.f = v], [r <| f ::= g |>] the
    read-modify-write [r.f = g(r.f)].  A record becomes updatable by declaring
    its eta-expansion as an instance of [Updatable]. *)
Class Updatable (R : Type) := eta_of : R -> R.
#[global] Hint Mode Updatable ! : typeclass_instances.
Class FieldSetter {R E : Type} (fld : R -> E) := upd : (E -> E) -> R -> R.
#[global] Hint Mode FieldSetter + + + : typeclass_instances.
Arguments upd {R E} fld {_} _ _ /.

#[global] Hint Extern 1 (@FieldSetter ?R ?E ?fld) =>
  (let inst := constr:(_ : Updatable R) in
   let body := eval red in inst in
   match eval pattern fld in body with
   | ?k _ => exact (fun g r => k (fun r' => g (fld r')) r)
   end) : typeclass_instances.

Declare Scope latkit_scope.
Delimit Scope latkit_scope with lk.
#[global] Open Scope latkit_scope.

Notation "r <| f := v |>" := (upd f (fun _ => v) r)
  (at level 11, left associativity, f at level 9, v at level 200) : latkit_scope.
Notation "r <| f ::= g |>" := (upd f g r)
  (at level 11, left associativity, f at level 9, g at level 200) : latkit_scope.

(** * Machine integers: a w-bit unsigned value is a [Z] in [0, 2^w) *)
Definition u8 (x : Z) : Z := x mod 2 ^ 8.
Definition u16 (x : Z) : Z := x mod 2 ^ 16.
Definition u32 (x : Z) : Z := x mod 2 ^ 32.
Definition u64 (x : Z) : Z := x mod 2 ^ 64.
(** [x++] on a 64-bit counter. *)
Definition inc64 (x : Z) : Z := u64 (x + 1).

Definition is_byte (b : Z) : bool := (0 <=? b) && (b <? 256).
Definition bytes_ok (l : list Z) : Prop := Forall (fun b => 0 <= b < 256) l.

(** * Flag words *)
Definition has_flag (w f : Z) : bool := negb (Z.land w f =? 0).
Definition set_flag (w f : Z) : Z := Z.lor w f.
Definition clr_flag (w f : Z) : Z := Z.ldiff w f.

(** * Lists indexed by [Z] (C buffers with a length) *)
Definition zlen {A} (l : list A) : Z := Z.of_nat (length l).
Definition ztake {A} (n : Z) (l : list A) : list A := take (Z.to_nat n) l.
Definition zdrop {A} (n : Z) (l : list A) : list A := drop (Z.to_nat n) l.
(** [p[i]] of a byte buffer; reads past the end are the caller's obligation. *)
Definition znth (l : list Z) (i : Z) : Z := nth (Z.to_nat i) l 0.

(** * Multi-byte integers on the wire *)
Definition be16 (p : list Z) : Z := Z.lor (Z.shiftl (znth p 0) 8) (znth p 1).
Definition be32 (p : list Z) : Z :=
  Z.lor (Z.lor (Z.lor (Z.shiftl (znth p 0) 24) (Z.shiftl (znth p 1) 16)) (Z.shiftl (znth p 2) 8))
        (znth p 3).
Definition le24 (p : list Z) : Z :=
  Z.lor (Z.lor (Z.shiftl (znth p 2) 16) (Z.shiftl (znth p 1) 8)) (znth p 0).
Definition le32 (p : list Z) : Z :=
  Z.lor (Z.lor (Z.lor (Z.shiftl (znth p 3) 24) (Z.shiftl (znth p 2) 16)) (Z.shiftl (znth p 1) 8))
        (znth p 0).
Definition put_be32 (x : Z) : list Z :=
  [x / 2 ^ 24 mod 256; x / 2 ^ 16 mod 256; x / 2 ^ 8 mod 256; x mod 256].
Definition put_le24 (x : Z) : list Z := [x mod 256; x / 2 ^ 8 mod 256; x / 2 ^ 16 mod 256].

(** * Tactics *)
Ltac zify_mod := Z.div_mod_to_equations.
Ltac mlia := unfold u8, u16, u32, u64, inc64 in *; zify_mod; lia.
Ltac blia := rewrite ?Z.leb_le, ?Z.ltb_lt, ?Z.leb_gt, ?Z.ltb_ge, ?Z.eqb_eq, ?Z.eqb_neq in *; lia.
(** Evaluate [p[k]] for a literal index of a literal buffer. *)
Ltac cbn_znth :=
  unfold znth;
  repeat match goal with
  | |- context [Z.to_nat ?k] =>
      lazymatch k with
      | Z0 => change (Z.to_nat k) with 0%nat
      | Zpos ?q => let v := eval vm_compute in (Z.to_nat k) in change (Z.to_nat k) with v
      end
  end; cbn [nth].
(** Case split on the scrutinee of the outermost [if]/[match] of the goal. *)
Ltac case_scrut :=
  match goal with
  | |- context [if ?b then _ else _] => let E := fresh "E" in destruct b eqn:E
  | |- context [match ?x with _ => _ end] => let E := fresh "E" in destruct x eqn:E
  end.
(** Turn boolean comparisons in the context into propositions. *)
Ltac bool_hyps :=
  repeat match goal with
  | H : (_ <=? _) = true |- _ => apply Z.leb_le in H
  | H : (_ <=? _) = false |- _ => apply Z.leb_gt in H
  | H : (_ <? _) = true |- _ => apply Z.ltb_lt in H
  | H : (_ <? _) = false |- _ => apply Z.ltb_ge in H
  | H : (_ =? _) = true |- _ => apply Z.eqb_eq in H
  | H : (_ =? _) = false |- _ => apply Z.eqb_neq in H
  | H : (_ && _)%bool = true |- _ => apply andb_true_iff in H as [? ?]
  | H : (_ || _)%bool = false |- _ => apply orb_false_iff in H as [? ?]
  | H : negb _ = true |- _ => apply negb_true_iff in H
  | H : negb _ = false |- _ => apply negb_false_iff in H
  end.

Create HintDb lk discriminated.
Create Rewrite HintDb lk_len.

(** * Lemmas on machine integers *)
Lemma u8_range x : 0 <= u8 x < 2 ^ 8. Proof. apply Z.mod_pos_bound; lia. Qed.
Lemma u16_range x : 0 <= u16 x < 2 ^ 16. Proof. apply Z.mod_pos_bound; lia. Qed.
Lemma u32_range x : 0 <= u32 x < 2 ^ 32. Proof. apply Z.mod_pos_bound; lia. Qed.
Lemma u64_range x : 0 <= u64 x < 2 ^ 64. Proof. apply Z.mod_pos_bound; lia. Qed.
Lemma u8_small x : 0 <= x < 2 ^ 8 -> u8 x = x. Proof. apply Z.mod_small. Qed.
Lemma u16_small x : 0 <= x < 2 ^ 16 -> u16 x = x. Proof. apply Z.mod_small. Qed.
Lemma u32_small x : 0 <= x < 2 ^ 32 -> u32 x = x. Proof. apply Z.mod_small. Qed.
Lemma u64_small x : 0 <= x < 2 ^ 64 -> u64 x = x. Proof. apply Z.mod_small. Qed.
Lemma u64_idem_add x y : u64 (u64 x + y) = u64 (x + y).
Proof. unfold u64. apply Zplus_mod_idemp_l. Qed.
#[export] Hint Resolve u8_range u16_range u32_range u64_range : lk.

Lemma u64_add x y : u64 (u64 x + u64 y) = u64 (x + y).
Proof. unfold u64. by rewrite <- Zplus_mod. Qed.

(** * Lemmas on flag words *)
Lemma has_flag_set w a b : has_flag (set_flag w a) b = has_flag w b || has_flag a b.
Proof.
  unfold has_flag, set_flag. rewrite Z.land_lor_distr_l.
  destruct (Z.land w b =? 0) eqn:E1, (Z.land a b =? 0) eqn:E2; cbn; bool_hyps.
  - by rewrite E1, E2.
  - rewrite E1, Z.lor_0_l. apply negb_true_iff, Z.eqb_neq. done.
  - rewrite E2, Z.lor_0_r. apply negb_true_iff, Z.eqb_neq. done.
  - apply negb_true_iff, Z.eqb_neq. intros [? ?]%Z.lor_eq_0_iff. done.
Qed.

Lemma has_flag_clr_ne w a b : Z.land a b = 0 -> has_flag (clr_flag w a) b = has_flag w b.
Proof.
  intros H. unfold has_flag, clr_flag. f_equal. f_equal.
  rewrite Z.ldiff_land, <- Z.land_assoc. f_equal.
  apply Z.bits_inj'. intros n Hn. rewrite Z.land_spec, Z.lnot_spec by done.
  assert (Z.testbit (Z.land a b) n = false) as H' by (rewrite H; apply Z.bits_0).
  rewrite Z.land_spec in H'. destruct (Z.testbit a n), (Z.testbit b n); done.
Qed.

Lemma has_flag_clr_eq w a : has_flag (clr_flag w a) a = false.
Proof.
  unfold has_flag, clr_flag. apply negb_false_iff, Z.eqb_eq, Z.bits_inj'. intros n Hn.
  rewrite Z.land_spec, Z.ldiff_spec, Z.bits_0.
  destruct (Z.testbit w n), (Z.testbit a n); done.
Qed.

Lemma has_flag_set_eq w a : a <> 0 -> has_flag (set_flag w a) a = true.
Proof.
  intros H. rewrite has_flag_set. unfold has_flag at 2.
  rewrite Z.land_diag. apply orb_true_iff. right. by apply negb_true_iff, Z.eqb_neq.
Qed.

Lemma has_flag_lor w a b : has_flag w (Z.lor a b) = has_flag w a || has_flag w b.
Proof.
  unfold has_flag. rewrite Z.land_lor_distr_r.
  destruct (Z.land w a =? 0) eqn:E1, (Z.land w b =? 0) eqn:E2; cbn; bool_hyps.
  - by rewrite E1, E2.
  - rewrite E1, Z.lor_0_l. apply negb_true_iff, Z.eqb_neq. done.
  - rewrite E2, Z.lor_0_r. apply negb_true_iff, Z.eqb_neq. done.
  - apply negb_true_iff, Z.eqb_neq. intros [? ?]%Z.lor_eq_0_iff. done.
Qed.

(** * Lemmas on [Z]-indexed lists *)
Section zlists.
Context {A : Type}.
Implicit Types l k : list A.

Lemma zlen_nonneg l : 0 <= zlen l. Proof. unfold zlen. lia. Qed.
Lemma zlen_nil : zlen (@nil A) = 0. Proof. done. Qed.
Lemma zlen_cons x l : zlen (x :: l) = zlen l + 1. Proof. unfold zlen. cbn. lia. Qed.
Lemma zlen_app l k : zlen (l ++ k) = zlen l + zlen k.
Proof. unfold zlen. rewrite length_app. lia. Qed.
Lemma zlen_ztake n l : 0 <= n -> zlen (ztake n l) = Z.min n (zlen l).
Proof. intros. unfold zlen, ztake. rewrite length_take. lia. Qed.
Lemma zlen_zdrop n l : 0 <= n -> zlen (zdrop n l) = Z.max 0 (zlen l - n).
Proof. intros. unfold zlen, zdrop. rewrite length_drop. lia. Qed.
Lemma zlen_0 l : zlen l = 0 -> l = [].
Proof. destruct l; [done|]. rewrite zlen_cons. pose proof (zlen_nonneg l). lia. Qed.
Lemma ztake_zdrop n l : ztake n l ++ zdrop n l = l. Proof. apply take_drop. Qed.
Lemma ztake_all n l : zlen l <= n -> ztake n l = l.
Proof. unfold zlen, ztake. intros. apply take_ge. lia. Qed.
Lemma zdrop_all n l : zlen l <= n -> zdrop n l = [].
Proof. unfold zlen, zdrop. intros. apply drop_ge. lia. Qed.
Lemma ztake_0 n l : n <= 0 -> ztake n l = [].
Proof. intros. unfold ztake. replace (Z.to_nat n) with 0%nat by lia. done. Qed.
Lemma zdrop_0 n l : n <= 0 -> zdrop n l = l.
Proof. intros. unfold zdrop. replace (Z.to_nat n) with 0%nat by lia. done. Qed.
Lemma ztake_app_le n l k : n <= zlen l -> ztake n (l ++ k) = ztake n l.
Proof. unfold zlen, ztake. intros. rewrite take_app_le by lia. done. Qed.
Lemma zdrop_app_le n l k : n <= zlen l -> zdrop n (l ++ k) = zdrop n l ++ k.
Proof. unfold zlen, zdrop. intros. rewrite drop_app_le by lia. done. Qed.
Lemma ztake_app_ge n l k : zlen l <= n -> ztake n (l ++ k) = l ++ ztake (n - zlen l) k.
Proof. unfold zlen, ztake. intros. rewrite take_app_ge by lia. do 2 f_equal. lia. Qed.
Lemma zdrop_app_ge n l k : zlen l <= n -> zdrop n (l ++ k) = zdrop (n - zlen l) k.
Proof. unfold zlen, zdrop. intros. rewrite drop_app_ge by lia. f_equal. lia. Qed.
Lemma ztake_cons n x l : 0 < n -> ztake n (x :: l) = x :: ztake (n - 1) l.
Proof.
  intros. unfold ztake. replace (Z.to_nat n) with (S (Z.to_nat (n - 1))) by lia. done.
Qed.
Lemma zdrop_cons n x l : 0 < n -> zdrop n (x :: l) = zdrop (n - 1) l.
Proof.
  intros. unfold zdrop. replace (Z.to_nat n) with (S (Z.to_nat (n - 1))) by lia. done.
Qed.
Lemma zdrop_zdrop m n l : 0 <= m -> 0 <= n -> zdrop m (zdrop n l) = zdrop (n + m) l.
Proof. intros. unfold zdrop. rewrite drop_drop. f_equal. lia. Qed.
End zlists.
#[export] Hint Rewrite @zlen_nil @zlen_cons @zlen_app : lk_len.

Lemma znth_zdrop (p : list Z) i b q : zdrop i p = b :: q -> 0 <= i -> znth p i = b /\ i < zlen p /\ zdrop (i + 1) p = q.
Proof.
  intros E Hi. assert (i < zlen p) as Hl. { destruct (Z.lt_ge_cases i (zlen p)); [done|]. rewrite zdrop_all in E by lia. done. }
  split; [|split; [done|]].
  - unfold znth, zdrop in *. rewrite <- (Nat.add_0_r (Z.to_nat i)), nth_lookup, <- lookup_drop, E. done.
  - rewrite <- zdrop_zdrop, E by lia. by rewrite zdrop_cons by lia.
Qed.
Lemma zdrop_at (p : list Z) i : 0 <= i < zlen p -> zdrop i p = znth p i :: zdrop (i + 1) p.
Proof.
  intros Hi. destruct (zdrop i p) as [|b q] eqn:E.
  - apply (f_equal zlen) in E. rewrite zlen_zdrop in E by lia. change (zlen []) with 0 in E. lia.
  - destruct (znth_zdrop p i b q E ltac:(lia)) as (-> & _ & ->). done.
Qed.
Lemma ztake_snoc (p : list Z) cur i : 0 <= cur <= i -> i < zlen p ->
  ztake (i + 1 - cur) (zdrop cur p) = ztake (i - cur) (zdrop cur p) ++ [znth p i].
Proof.
  intros Hc Hi. assert (zdrop (i - cur) (zdrop cur p) = znth p i :: zdrop (i + 1) p) as E.
  { rewrite zdrop_zdrop by lia. replace (cur + (i - cur)) with i by lia. apply zdrop_at. lia. }
  rewrite <- (ztake_zdrop (i - cur) (zdrop cur p)) at 1. rewrite E.
  assert (zlen (ztake (i - cur) (zdrop cur p)) = i - cur) as El by (rewrite zlen_ztake, zlen_zdrop by lia; lia).
  rewrite ztake_app_ge by lia. f_equal. rewrite El. rewrite ztake_cons by lia. by rewrite ztake_0 by lia.
Qed.
Lemma ztake_prefix (n : Z) (a b : list Z) : 0 <= n ->
  ztake n (a ++ b) = ztake n a ++ ztake (n - zlen (ztake n a)) b.
Proof.
  intros Hn. destruct (Z.le_gt_cases (zlen a) n).
  - rewrite ztake_app_ge by done. by rewrite (ztake_all n a) by done.
  - rewrite ztake_app_le by lia. rewrite zlen_ztake by lia. rewrite (ztake_0 (n - _) b) by lia. by rewrite app_nil_r.
Qed.
Lemma ztake_ztake (m n : Z) (l : list Z) : ztake m (ztake n l) = ztake (Z.min m n) l.
Proof. unfold ztake. rewrite take_take. f_equal. lia. Qed.
Lemma ztake_add (m k : Z) (l : list Z) : 0 <= m -> 0 <= k -> ztake (m + k) l = ztake m l ++ ztake k (zdrop m l).
Proof.
  intros Hm Hk. rewrite <- (ztake_zdrop m l) at 1. destruct (Z.le_gt_cases m (zlen l)) as [Hl|Hl].
  - rewrite ztake_app_ge by (rewrite zlen_ztake by done; lia). rewrite zlen_ztake by done. do 2 f_equal. lia.
  - rewrite (zdrop_all m) by lia. rewrite !app_nil_r, (ztake_all m l) by lia. by rewrite (ztake_all (m + k)), (ztake_all k []), app_nil_r by (done || lia).
Qed.

(** * Cursors

    A cursor into a span of bytes is the list of the bytes from it on. *)
Section cursors.
Implicit Types (p q s : list Z) (c : Z).
(** [while (i < n && f(p[i])) i++;]: the bytes passed over and the rest. *)
Fixpoint span (f : Z -> bool) p : list Z * list Z :=
  match p with
  | [] => ([], [])
  | c :: q => if f c then let '(a, b) := span f q in (c :: a, b) else ([], p)
  end.
Definition until (stop : Z) : Z -> bool := fun c => negb (c =? stop).
(** [i++] past the byte the scan stopped at, if it stopped. *)
Definition past p : list Z := match p with [] => [] | _ :: p => p end.
(** [!memcmp] on spans of equal length. *)
Definition same (a b : list Z) : bool := bool_decide (a = b).

Definition stops (f : Z -> bool) q : Prop := match q with [] => True | c :: _ => f c = false end.
Lemma span_spec f p : p = (span f p).1 ++ (span f p).2 /\ Forall (fun c => f c = true) (span f p).1 /\ stops f (span f p).2.
Proof.
  induction p as [|c p (E & Ha & Hb)]; [done|]. cbn [span]. destruct (f c) eqn:Ef; [|done].
  destruct (span f p) as [a b]. cbn in *. subst p. split; [done|]. split; [by constructor|done].
Qed.
Lemma span_app f a b : Forall (fun c => f c = true) a -> stops f b -> span f (a ++ b) = (a, b).
Proof.
  induction 1 as [|c a Hc _ IH]; intros Hb; cbn [app span].
  - destruct b as [|c b]; [done|]. cbn in *. by rewrite Hb.
  - rewrite Hc, IH by done. done.
Qed.
Lemma span_len f p : (length (span f p).2 <= length p)%nat.
Proof. destruct (span_spec f p) as (E & _). rewrite E at 2. rewrite length_app. lia. Qed.
Lemma past_len p : (length (past p) <= pred (length p))%nat.
Proof. by destruct p. Qed.
Lemma same_eq a b : same a b = true <-> a = b.
Proof. apply bool_decide_eq_true. Qed.

Lemma until_ne stop s : Forall (fun x => until stop x = true) s <-> Forall (fun x => x <> stop) s.
Proof. apply Forall_iff. intros x. unfold until. by destruct (Z.eqb_spec x stop). Qed.
End cursors.

Lemma bytes_ok_nil : bytes_ok []. Proof. by apply Forall_nil. Qed.
Lemma bytes_ok_dec l : forallb is_byte l = true -> bytes_ok l.
Proof.
  intros H. apply Forall_forall. intros b Hb%list_elem_of_In. rewrite forallb_forall in H. apply H in Hb.
  unfold is_byte in Hb. lia.
Qed.
(** Bounds and byte-ness of closed data, by evaluation. *)
Ltac concrete :=
  repeat apply Forall_cons_2; try apply Forall_nil_2;
  repeat match goal with |- _ /\ _ => split | |- ?P => progress hnf; match goal with |- _ /\ _ => split end end;
  first [apply Z.leb_le; vm_compute; reflexivity | apply Z.ltb_lt; vm_compute; reflexivity
        | apply bytes_ok_dec; reflexivity | vm_compute; reflexivity].
Lemma bytes_ok_app l k : bytes_ok (l ++ k) <-> bytes_ok l /\ bytes_ok k.
Proof. apply Forall_app. Qed.
Lemma bytes_ok_take n l : bytes_ok l -> bytes_ok (ztake n l).
Proof. apply Forall_take. Qed.
Lemma bytes_ok_drop n l : bytes_ok l -> bytes_ok (zdrop n l).
Proof. apply Forall_drop. Qed.
#[export] Hint Resolve bytes_ok_nil bytes_ok_take bytes_ok_drop : lk.

Lemma znth_range l i : bytes_ok l -> 0 <= znth l i < 256.
Proof.
  intros H. unfold znth. destruct (Nat.lt_ge_cases (Z.to_nat i) (length l)) as [Hi|Hi].
  - apply (Forall_forall (fun b => 0 <= b < 256)) with (l := l) (x := nth (Z.to_nat i) l 0) in H;
      [done|]. apply list_elem_of_In, nth_In. done.
  - rewrite nth_overflow by done. lia.
Qed.

(** * Wire integers *)
Lemma lor_shiftl_add a b n :
  0 <= n -> 0 <= b < 2 ^ n -> Z.lor (Z.shiftl a n) b = a * 2 ^ n + b.
Proof.
  intros Hn Hb. rewrite Z.shiftl_mul_pow2 by done.
  assert (Z.land (a * 2 ^ n) b = 0) as Hd.
  { apply Z.bits_inj'. intros m Hm. rewrite Z.land_spec, Z.bits_0.
    destruct (Z.lt_ge_cases m n); [by rewrite Z.mul_pow2_bits_low|].
    assert (Z.testbit b m = false) as ->; [|apply andb_false_r].
    apply Z.testbit_false; [done|]. rewrite Z.div_small; [done|].
    split; [lia|]. apply Z.lt_le_trans with (2 ^ n); [lia|apply Z.pow_le_mono_r; lia]. }
  rewrite <- Z.lxor_lor, <- Z.add_nocarry_lxor; done.
Qed.

Lemma lor_shiftl_shiftl a b n m :
  0 <= m <= n -> Z.lor (Z.shiftl a n) (Z.shiftl b m) = Z.shiftl (Z.lor (Z.shiftl a (n - m)) b) m.
Proof.
  intros H. rewrite Z.shiftl_lor, Z.shiftl_shiftl by lia. do 2 f_equal. lia.
Qed.

Lemma be32_sum p : bytes_ok p ->
  be32 p = znth p 0 * 2 ^ 24 + znth p 1 * 2 ^ 16 + znth p 2 * 2 ^ 8 + znth p 3.
Proof.
  intros H. pose proof (znth_range p 0 H). pose proof (znth_range p 1 H).
  pose proof (znth_range p 2 H). pose proof (znth_range p 3 H). unfold be32.
  rewrite lor_shiftl_shiftl, lor_shiftl_shiftl by lia.
  change (24 - 16) with 8. change (16 - 8) with 8.
  rewrite !lor_shiftl_add; lia.
Qed.

Lemma le24_sum p : bytes_ok p -> le24 p = znth p 2 * 2 ^ 16 + znth p 1 * 2 ^ 8 + znth p 0.
Proof.
  intros H. pose proof (znth_range p 0 H). pose proof (znth_range p 1 H).
  pose proof (znth_range p 2 H). unfold le24.
  rewrite lor_shiftl_shiftl by lia. change (16 - 8) with 8. rewrite !lor_shiftl_add; lia.
Qed.

Lemma be32_range p : bytes_ok p -> 0 <= be32 p < 2 ^ 32.
Proof.
  intros H. rewrite be32_sum by done. pose proof (znth_range p 0 H).
  pose proof (znth_range p 1 H). pose proof (znth_range p 2 H). pose proof (znth_range p 3 H). lia.
Qed.
Lemma le24_range p : bytes_ok p -> 0 <= le24 p < 2 ^ 24.
Proof.
  intros H. rewrite le24_sum by done. pose proof (znth_range p 0 H).
  pose proof (znth_range p 1 H). pose proof (znth_range p 2 H). lia.
Qed.

Lemma put_be32_ok x : bytes_ok (put_be32 x).
Proof. unfold put_be32. repeat constructor; apply Z.mod_pos_bound; lia. Qed.
Lemma put_le24_ok x : bytes_ok (put_le24 x).
Proof. unfold put_le24. repeat constructor; apply Z.mod_pos_bound; lia. Qed.
#[export] Hint Resolve put_be32_ok put_le24_ok be32_range le24_range : lk.

Lemma div_split a n : 0 < n -> a / (256 * n) = a / n / 256.
Proof. intros. rewrite Z.div_div by lia. f_equal. lia. Qed.

Lemma be32_put x : 0 <= x < 2 ^ 32 -> be32 (put_be32 x) = x.
Proof.
  intros. rewrite be32_sum by apply put_be32_ok. unfold put_be32. cbn_znth.
  change (2 ^ 24) with (256 * (256 * 256)). change (2 ^ 16) with (256 * 256).
  change (2 ^ 8) with 256. rewrite !div_split by lia. zify_mod. lia.
Qed.
Lemma le24_put x : 0 <= x < 2 ^ 24 -> le24 (put_le24 x) = x.
Proof.
  intros. rewrite le24_sum by apply put_le24_ok. unfold put_le24. cbn_znth.
  change (2 ^ 16) with (256 * 256). change (2 ^ 8) with 256. rewrite !div_split by lia.
  zify_mod. lia.
Qed.
