(* ===== verification/Conn.v ===== *)
(** Shared data model: the ringbuf event structures of [bpf/latkit.h], the
    per-connection entry and per-direction framer state of
    [agent/conn_table.h], the framer's message and sink types of
    [agent/reassembly.h] and the protocol vtable of [proto/proto.h].

    Two representation choices are used everywhere below.
    - A pointer/length pair is one list: [lk_frame.hdr]/[hdr_len] is [f_hdr],
      the nullable slab [buf] with [buf_len] is [f_buf : option (list Z)], and
      [lk_msg.body]/[body_cap] is [m_body].
    - [f] in the C hooks always aliases [&c->frame[dir]]; the model keeps only
      the connection and reads/writes the direction's frame through it, so a
      hook that reaches the other direction (MySQL's [pre_emit]) aliases as the
      C code does. *)
From stdpp Require Import base list.
From S2P Require Import Prelude.
#[local] Open Scope Z_scope.

(** ** Events ([bpf/latkit.h]) *)
Definition LK_EV_DATA := 0.
Definition LK_EV_CONN_OPEN := 1.
Definition LK_EV_CONN_CLOSE := 2.
Definition LK_F_SYNTHETIC := 4.
Definition LK_F_DECRYPTED := 8.

Inductive lk_dir := LK_DIR_SEND | LK_DIR_RECV.
#[global] Instance lk_dir_eq_dec : EqDecision lk_dir.
Proof. solve_decision. Defined.

Record lk_tuple := Tuple {
  t_family : Z; t_netns : Z; t_saddr : list Z; t_daddr : list Z; t_sport : Z; t_dport : Z }.
(** The zeroed tuple of a lazily created entry. *)
Definition tuple0 : lk_tuple := Tuple 0 0 [] [] 0 0.

Record lk_ev_hdr := EvHdr {
  h_conn_id : Z; h_ts_ns : Z; h_seq : Z; h_type : Z; h_dir : Z; h_flags : Z }.
Record lk_ev_conn := EvConn {
  ec_hdr : lk_ev_hdr; ec_tuple : lk_tuple; ec_pid : Z; ec_conn_dropped : Z }.
(** [ed_cap_len] is the kernel-written length; [ed_payload] the bytes the record really holds. *)
Record lk_ev_data := EvData {
  ed_hdr : lk_ev_hdr; ed_total_len : Z; ed_off : Z; ed_cap_len : Z; ed_payload : list Z }.

(** ** Connection flags ([agent/conn_table.h]) *)
Definition LK_CONN_SYNTHETIC := 1.
Definition LK_CONN_TLS := 2.
Definition LK_CONN_SSL_REPLY := 4.
Definition LK_CONN_CANCEL := 8.
Definition LK_CONN_REPLICATION := 16.
Definition LK_CONN_CAP_HEADERS := 32.
Definition LK_CONN_IGNORE := 64.
Definition LK_CONN_COMPRESS_PENDING := 128.

(** ** Per-direction framer state ([struct lk_frame]) *)
Inductive lk_frame_state := LK_FR_HEADER | LK_FR_BODY | LK_FR_SKIP | LK_FR_DIRTY.
#[global] Instance lk_frame_state_eq_dec : EqDecision lk_frame_state.
Proof. solve_decision. Defined.

Record lk_frame := Frame {
  f_st : lk_frame_state;
  f_skip_left : Z;
  f_call_pos : Z;
  f_call_total : Z;
  f_msg_ts : Z;
  f_msg_len : Z;
  f_body_len : Z;
  f_body_total : Z;
  f_msg_type : Z;
  f_msg_cont : bool;
  f_prefix_closed : bool;
  f_msg_seq : Z;
  f_msg_seq0 : bool;
  f_startup_done : bool;
  f_after_resync : bool;
  f_resync_matched : Z;
  f_hdr : list Z;
  f_buf : option (list Z) }.
#[global] Instance lk_frame_upd : Updatable lk_frame := fun f =>
  Frame (f_st f) (f_skip_left f) (f_call_pos f) (f_call_total f) (f_msg_ts f) (f_msg_len f)
        (f_body_len f) (f_body_total f) (f_msg_type f) (f_msg_cont f) (f_prefix_closed f)
        (f_msg_seq f) (f_msg_seq0 f) (f_startup_done f) (f_after_resync f) (f_resync_matched f)
        (f_hdr f) (f_buf f).
(** [memset(f, 0, sizeof *f)] / calloc. *)
Definition frame0 : lk_frame :=
  Frame LK_FR_HEADER 0 0 0 0 0 0 0 0 false false 0 false false false 0 [] None.
Definition hdr_len (f : lk_frame) : Z := zlen (f_hdr f).
Definition buf_bytes (f : lk_frame) : list Z := default [] (f_buf f).
Definition buf_len (f : lk_frame) : Z := zlen (buf_bytes f).

(** ** Protocols are the objects of [lk_proto_registry] *)
Inductive proto_id := PROTO_PG | PROTO_MY | PROTO_HTTP | PROTO_S3 | PROTO_REDIS.
#[global] Instance proto_id_eq_dec : EqDecision proto_id.
Proof. solve_decision. Defined.
Definition LK_PROTO_F_STREAM := 1.

(** ** Connection entry ([struct lk_conn], without the intrusive links, which
    live in [ConnTable]).  [P] is the protocol handler's [proto_state], [F] the
    stream framer's [frame_state]. *)
Record lk_conn (P F : Type) := Conn {
  c_cookie : Z;
  c_tuple : lk_tuple;
  c_ops : option proto_id;
  c_flags : Z;
  c_last_seq : Z;
  c_dropped : Z;
  c_tls_last_seq : Z;
  c_tls_dropped : Z;
  c_tls_seq_seen : bool;
  c_last_activity_ns : Z;
  c_send : lk_frame;
  c_recv : lk_frame;
  c_proto_state : option P;
  c_frame_state : option F }.
Arguments Conn {P F}.
Arguments c_cookie {P F}. Arguments c_tuple {P F}. Arguments c_ops {P F}.
Arguments c_flags {P F}. Arguments c_last_seq {P F}. Arguments c_dropped {P F}.
Arguments c_tls_last_seq {P F}. Arguments c_tls_dropped {P F}.
Arguments c_tls_seq_seen {P F}. Arguments c_last_activity_ns {P F}.
Arguments c_send {P F}. Arguments c_recv {P F}.
Arguments c_proto_state {P F}. Arguments c_frame_state {P F}.
#[global] Instance lk_conn_upd P F : Updatable (lk_conn P F) := fun c =>
  Conn (c_cookie c) (c_tuple c) (c_ops c) (c_flags c) (c_last_seq c) (c_dropped c)
       (c_tls_last_seq c) (c_tls_dropped c) (c_tls_seq_seen c) (c_last_activity_ns c)
       (c_send c) (c_recv c) (c_proto_state c) (c_frame_state c).
(** A calloc'ed entry. *)
Definition conn0 {P F} (cookie : Z) : lk_conn P F :=
  Conn cookie tuple0 None 0 0 0 0 0 false 0 frame0 frame0 None None.

(** [c->frame[dir]] as an lvalue. *)
Definition frame {P F} (c : lk_conn P F) (d : lk_dir) : lk_frame :=
  match d with LK_DIR_SEND => c_send c | LK_DIR_RECV => c_recv c end.
Definition set_frame {P F} (c : lk_conn P F) (d : lk_dir) (f : lk_frame) : lk_conn P F :=
  match d with
  | LK_DIR_SEND => c <| c_send := f |>
  | LK_DIR_RECV => c <| c_recv := f |>
  end.
Definition upd_frame {P F} (c : lk_conn P F) (d : lk_dir) (g : lk_frame -> lk_frame) :=
  set_frame c d (g (frame c d)).

(** ** Messages ([struct lk_msg]) *)
Definition LK_MSG_BODY_MAX := 16384.
Definition LK_REASM_POOL_MAX := 64.
Definition LK_MSG_BODY_TRUNC := 1.
Definition LK_MSG_AFTER_RESYNC := 2.
Definition LK_MSG_STARTUP := 4.
Record lk_msg := Msg {
  m_ts_ns : Z; m_type : Z; m_flags : Z; m_len : Z; m_body : list Z }.
#[global] Instance lk_msg_upd : Updatable lk_msg := fun m =>
  Msg (m_ts_ns m) (m_type m) (m_flags m) (m_len m) (m_body m).
#[global] Instance lk_msg_eq_dec : EqDecision lk_msg.
Proof. solve_decision. Defined.
Definition m_body_cap (m : lk_msg) : Z := zlen (m_body m).

(** ** Framer counters ([struct lk_reasm_stats]) *)
Record lk_reasm_stats := RStats {
  rs_msgs : Z; rs_msgs_trunc : Z; rs_holes : Z; rs_hole_bytes : Z; rs_bad_len : Z;
  rs_hdr_holes : Z; rs_off_anomalies : Z; rs_resyncs : Z; rs_tls_conns : Z }.
#[global] Instance lk_reasm_stats_upd : Updatable lk_reasm_stats := fun s =>
  RStats (rs_msgs s) (rs_msgs_trunc s) (rs_holes s) (rs_hole_bytes s) (rs_bad_len s)
         (rs_hdr_holes s) (rs_off_anomalies s) (rs_resyncs s) (rs_tls_conns s).
Definition rstats0 : lk_reasm_stats := RStats 0 0 0 0 0 0 0 0 0.

(** ** Framer -> consumer contract ([struct lk_msg_sink]).  [S] is what the
    [ctx] pointer owns; a callback may also write the connection ([proto_state],
    flags).  A NULL callback is [None]. *)
Record lk_msg_sink (S P F : Type) := Sink {
  on_msg : option (S -> lk_conn P F -> lk_dir -> lk_msg -> S * lk_conn P F);
  on_conn_close : option (S -> lk_conn P F -> S * lk_conn P F);
  on_resync : option (S -> lk_conn P F -> lk_dir -> S * lk_conn P F) }.
Arguments Sink {S P F}. Arguments on_msg {S P F}.
Arguments on_conn_close {S P F}. Arguments on_resync {S P F}.

(** ** The framer object ([struct lk_reasm]).  The pool is its occupancy
    [r_pool_n]: the slabs in it are interchangeable and their contents dead.
    [r_oom] is the environment: the outcome of the next [malloc] calls, [true]
    for NULL, success once the list is exhausted. *)
Record lk_reasm (S P F : Type) := Reasm {
  r_ctx : S;
  r_sink : lk_msg_sink S P F;
  r_st : lk_reasm_stats;
  r_pool_n : Z;
  r_oom : list bool }.
Arguments Reasm {S P F}. Arguments r_ctx {S P F}. Arguments r_sink {S P F}.
Arguments r_st {S P F}. Arguments r_pool_n {S P F}. Arguments r_oom {S P F}.
#[global] Instance lk_reasm_upd S P F : Updatable (lk_reasm S P F) := fun r =>
  Reasm (r_ctx r) (r_sink r) (r_st r) (r_pool_n r) (r_oom r).

(** ** The protocol vtable ([struct lk_proto_ops]), the framing half of it *)
Record lk_proto_ops (S P F : Type) := ProtoOps {
  po_flags : Z;
  hdr_size : lk_conn P F -> lk_dir -> Z;
  parse_hdr : lk_conn P F -> lk_dir -> bool * lk_conn P F;
  pre_emit : lk_conn P F -> lk_dir -> lk_msg -> lk_conn P F * lk_msg;
  (** [true]: go on with the remaining bytes, [false]: discard the rest of the chunk *)
  intercept_bytes : option (lk_reasm S P F -> lk_conn P F -> lk_dir -> list Z -> Z ->
                            bool * lk_reasm S P F * lk_conn P F * list Z);
  intercept_hole : option (lk_reasm S P F -> lk_conn P F -> lk_dir ->
                           bool * lk_reasm S P F * lk_conn P F);
  (** bytes consumed, anchor found *)
  resync_scan : lk_conn P F -> lk_dir -> list Z -> Z * bool * lk_conn P F;
  resync_boundary : lk_conn P F -> lk_dir -> lk_ev_data -> Z -> bool;
  stream_bytes : lk_reasm S P F -> lk_conn P F -> lk_dir -> list Z -> Z ->
                 lk_reasm S P F * lk_conn P F;
  stream_hole : lk_reasm S P F -> lk_conn P F -> lk_dir -> Z -> lk_reasm S P F * lk_conn P F }.
Arguments ProtoOps {S P F}. Arguments po_flags {S P F}. Arguments hdr_size {S P F}.
Arguments parse_hdr {S P F}. Arguments pre_emit {S P F}. Arguments intercept_bytes {S P F}.
Arguments intercept_hole {S P F}. Arguments resync_scan {S P F}.
Arguments resync_boundary {S P F}. Arguments stream_bytes {S P F}.
Arguments stream_hole {S P F}.

(** ** Frame access lemmas *)
Section access.
Context {P F : Type}.
Implicit Types c : lk_conn P F.

Lemma frame_set_eq c d f : frame (set_frame c d f) d = f.
Proof. by destruct d. Qed.
Lemma frame_set_ne c d d' f : d <> d' -> frame (set_frame c d f) d' = frame c d'.
Proof. by destruct d, d'. Qed.
Lemma set_frame_flags c d f : c_flags (set_frame c d f) = c_flags c.
Proof. by destruct d. Qed.
Lemma set_frame_ops c d f : c_ops (set_frame c d f) = c_ops c.
Proof. by destruct d. Qed.
Lemma set_frame_cookie c d f : c_cookie (set_frame c d f) = c_cookie c.
Proof. by destruct d. Qed.
Lemma set_frame_set c d f g : set_frame (set_frame c d f) d g = set_frame c d g.
Proof. by destruct d. Qed.
Lemma set_frame_id c d : set_frame c d (frame c d) = c.
Proof. by destruct c, d. Qed.
End access.
Create Rewrite HintDb lk_frame.
#[export] Hint Rewrite @frame_set_eq @set_frame_flags @set_frame_ops @set_frame_cookie
  @set_frame_set @set_frame_id : lk_frame.
