(* ===== verification/ConnTable.v ===== *)
(** The connection table, [agent/conn_table.c]: cookie -> entry, chained hash
    plus an intrusive LRU list.

    The C code is a pointer structure, and the model keeps it one: [t_heap] maps
    the addresses of live entries to nodes carrying the three intrusive links,
    [calloc] picks an address that is not live, [free] removes it.  Every
    operation runs in the [option] monad; [None] is a NULL or dangling
    dereference, or a loop that did not finish.  [ConnTableFacts] shows that
    none of it happens. *)
From stdpp Require Import base list option gmap.
From S2P Require Import Prelude Conn.
#[local] Open Scope Z_scope.

Abbreviation loc := positive.

Record lk_conn_table_stats := CtStats {
  ts_created : Z; ts_closed : Z; ts_evicted_lru : Z; ts_evicted_idle : Z; ts_seq_gaps : Z;
  ts_lost_events : Z; ts_tls_socket_dropped : Z; ts_tls_opened : Z; ts_tls_active : Z;
  ts_active : Z }.
#[global] Instance ct_stats_upd : Updatable lk_conn_table_stats := fun s =>
  CtStats (ts_created s) (ts_closed s) (ts_evicted_lru s) (ts_evicted_idle s) (ts_seq_gaps s)
    (ts_lost_events s) (ts_tls_socket_dropped s) (ts_tls_opened s) (ts_tls_active s) (ts_active s).
Definition ct_stats0 : lk_conn_table_stats := CtStats 0 0 0 0 0 0 0 0 0 0.

(** [struct lk_port_proto] *)
Record lk_port_proto := PortProto { pp_port : Z; pp_ops : proto_id }.

(** The entry with its intrusive links. *)
Record node (P F : Type) := Node {
  n_conn : lk_conn P F; n_hnext : option loc; n_prev : option loc; n_next : option loc }.
Arguments Node {P F}. Arguments n_conn {P F}. Arguments n_hnext {P F}.
Arguments n_prev {P F}. Arguments n_next {P F}.
#[global] Instance node_upd P F : Updatable (node P F) := fun n =>
  Node (n_conn n) (n_hnext n) (n_prev n) (n_next n).

(** [struct lk_conn_table]; [t_ctx] is what the destroy hook's context owns. *)
Record lk_conn_table (S P F : Type) := Table {
  t_heap : gmap loc (node P F);
  t_bucket : list (option loc);
  t_nbuckets : Z;
  t_max_conns : Z;
  t_idle_timeout_ns : Z;
  t_lru_head : option loc;
  t_lru_tail : option loc;
  t_on_destroy : option (S -> lk_conn P F -> S * lk_conn P F);
  t_ctx : S;
  t_protos : list lk_port_proto;
  t_proto_dflt : option proto_id;
  t_st : lk_conn_table_stats;
  t_oom : list bool }.
Arguments Table {S P F}. Arguments t_heap {S P F}. Arguments t_bucket {S P F}.
Arguments t_nbuckets {S P F}. Arguments t_max_conns {S P F}.
Arguments t_idle_timeout_ns {S P F}. Arguments t_lru_head {S P F}.
Arguments t_lru_tail {S P F}. Arguments t_on_destroy {S P F}. Arguments t_ctx {S P F}.
Arguments t_protos {S P F}. Arguments t_proto_dflt {S P F}. Arguments t_st {S P F}.
Arguments t_oom {S P F}.
#[global] Instance table_upd S P F : Updatable (lk_conn_table S P F) := fun t =>
  Table (t_heap t) (t_bucket t) (t_nbuckets t) (t_max_conns t) (t_idle_timeout_ns t)
    (t_lru_head t) (t_lru_tail t) (t_on_destroy t) (t_ctx t) (t_protos t) (t_proto_dflt t)
    (t_st t) (t_oom t).

Section ConnTable.
Context {S P F : Type}.
Abbreviation conn := (lk_conn P F).
Abbreviation table := (lk_conn_table S P F).
Abbreviation heap := (gmap loc (node P F)).
Implicit Types (t : table) (h : heap) (c l : loc).

(** [p->field = ...] through a live pointer. *)
Definition store h (l : loc) (f : node P F -> node P F) : option heap :=
  n ← h !! l; Some (<[l := f n]> h).
Definition upd_conn t (c : loc) (g : conn -> conn) : option table :=
  h ← store (t_heap t) c (fun n => n <| n_conn ::= g |>); Some (t <| t_heap := h |>).
Definition conn_at t (c : loc) : option conn := n_conn <$> t_heap t !! c.
Definition ct_bump t (g : lk_conn_table_stats -> lk_conn_table_stats) : table := t <| t_st ::= g |>.

Definition resolve_proto t (tuple : option lk_tuple) : option proto_id :=
  match tuple with
  | Some tu =>
      match find (fun pp => pp_port pp =? t_sport tu) (t_protos t) with
      | Some pp => Some (pp_ops pp)
      | None => t_proto_dflt t
      end
  | None => t_proto_dflt t
  end.

Definition hash_index (nbuckets cookie : Z) : nat :=
  Z.to_nat (Z.land (Z.shiftr (u64 (cookie * 0x9E3779B97F4A7C15)) 32) (nbuckets - 1)).

(** ** LRU list *)
Definition lru_unlink t (c : loc) : option table :=
  n ← t_heap t !! c;
  t ← (match n_prev n with
       | Some p => h ← store (t_heap t) p (fun m => m <| n_next := n_next n |>);
                   Some (t <| t_heap := h |>)
       | None => Some (t <| t_lru_head := n_next n |>)
       end);
  t ← (match n_next n with
       | Some s => h ← store (t_heap t) s (fun m => m <| n_prev := n_prev n |>);
                   Some (t <| t_heap := h |>)
       | None => Some (t <| t_lru_tail := n_prev n |>)
       end);
  h ← store (t_heap t) c (fun m => m <| n_prev := None |> <| n_next := None |>);
  Some (t <| t_heap := h |>).

Definition lru_push_front t (c : loc) : option table :=
  h ← store (t_heap t) c (fun m => m <| n_prev := None |> <| n_next := t_lru_head t |>);
  h ← (match t_lru_head t with
       | Some x => store h x (fun m => m <| n_prev := Some c |>)
       | None => Some h
       end);
  Some (t <| t_heap := h |> <| t_lru_head := Some c |>
          <| t_lru_tail := match t_lru_tail t with Some x => Some x | None => Some c end |>).

(** ** Hash chains *)
Fixpoint chain_find (fuel : nat) h (c : option loc) (cookie : Z) : option (option loc) :=
  match c, fuel with
  | None, _ => Some None
  | Some _, O => None
  | Some l, Datatypes.S fuel =>
      n ← h !! l;
      if c_cookie (n_conn n) =? cookie then Some (Some l) else chain_find fuel h (n_hnext n) cookie
  end.

Definition lookup t (cookie : Z) : option (option loc) :=
  b ← t_bucket t !! hash_index (t_nbuckets t) cookie;
  chain_find (size (t_heap t)) (t_heap t) b cookie.

(** [struct lk_conn **slot]: a bucket, or the [hnext] field of an entry. *)
Inductive slot := SBucket (i : nat) | SNext (l : loc).
Definition read_slot t (s : slot) : option (option loc) :=
  match s with
  | SBucket i => t_bucket t !! i
  | SNext l => n_hnext <$> t_heap t !! l
  end.
Definition write_slot t (s : slot) (v : option loc) : option table :=
  match s with
  | SBucket i => Some (t <| t_bucket ::= <[i := v]> |>)
  | SNext l => h ← store (t_heap t) l (fun n => n <| n_hnext := v |>); Some (t <| t_heap := h |>)
  end.
(** [for (slot = ...; *slot != c; slot = &( *slot)->hnext);] *)
Fixpoint find_slot (fuel : nat) t (s : slot) (c : loc) : option slot :=
  v ← read_slot t s;
  match v, fuel with
  | None, _ => None
  | Some l, O => if decide (l = c) then Some s else None
  | Some l, Datatypes.S fuel => if decide (l = c) then Some s else find_slot fuel t (SNext l) c
  end.

Definition destroy t (c : loc) : option table :=
  n ← t_heap t !! c;
  t ← (match t_on_destroy t with
       | Some fn => let '(ctx, cn) := fn (t_ctx t) (n_conn n) in
                    upd_conn (t <| t_ctx := ctx |>) c (fun _ => cn)
       | None => Some t
       end);
  n ← t_heap t !! c;
  s ← find_slot (size (t_heap t)) t
        (SBucket (hash_index (t_nbuckets t) (c_cookie (n_conn n)))) c;
  t ← write_slot t s (n_hnext n);
  t ← lru_unlink t c;
  n ← t_heap t !! c;
  let t := if has_flag (c_flags (n_conn n)) LK_CONN_TLS
           then ct_bump t (fun s => s <| ts_tls_active ::= fun x => u32 (x - 1) |>) else t in
  Some (ct_bump (t <| t_heap ::= delete c |>) (fun s => s <| ts_active ::= fun x => u32 (x - 1) |>)).

Definition mark_dirty (c : conn) : conn :=
  let dirty f := f <| f_st := LK_FR_DIRTY |> <| f_resync_matched := 0 |> in
  c <| c_send ::= dirty |> <| c_recv ::= dirty |>.

(** [lru_unlink(t, c); lru_push_front(t, c);] *)
Definition lru_front t (c : loc) : option table := t ← lru_unlink t c; lru_push_front t c.

(** The connection's half of [touch]: the events lost before [seq], and the entry after. *)
Definition touch_conn (c : conn) (seq ts_ns : Z) : Z * conn :=
  let next := u32 (c_last_seq c + 1) in
  let '(lost, c) :=
    if next <? seq
    then let lost := u32 (seq - next) in
         (lost, mark_dirty (c <| c_dropped ::= fun x => u32 (x + lost) |>))
    else (0, c) in
  let c := if c_last_seq c <? seq then c <| c_last_seq := seq |> else c in
  (lost, c <| c_last_activity_ns := ts_ns |>).

Definition count_gap t (gap : bool) (lost : Z) : table :=
  if gap then ct_bump t (fun s => s <| ts_seq_gaps ::= inc64 |>
                                   <| ts_lost_events ::= fun x => u64 (x + lost) |>) else t.

Definition touch t (c : loc) (seq ts_ns : Z) : option (Z * table) :=
  cn ← conn_at t c;
  let '(lost, cn') := touch_conn cn seq ts_ns in
  let t := count_gap t (u32 (c_last_seq cn + 1) <? seq) lost in
  t ← upd_conn t c (fun _ => cn');
  t ← lru_front t c;
  Some (lost, t).

Definition calloc t : bool * table :=
  match t_oom t with
  | [] => (true, t)
  | fails :: rest => (negb fails, t <| t_oom := rest |>)
  end.

Definition create t (cookie seq ts_ns : Z) : option (option loc * table) :=
  t ← (match t_lru_tail t with
       | Some tail =>
           if t_max_conns t <=? ts_active (t_st t)
           then t ← destroy t tail; Some (ct_bump t (fun s => s <| ts_evicted_lru ::= inc64 |>))
           else Some t
       | None => Some t
       end);
  let '(ok, t) := calloc t in
  if negb ok then Some (None, t)
  else
    let l := fresh (dom (t_heap t)) in
    let i := hash_index (t_nbuckets t) cookie in
    let cn := conn0 cookie <| c_last_seq := seq |> <| c_last_activity_ns := ts_ns |> in
    b ← t_bucket t !! i;
    let t := t <| t_heap ::= <[l := Node cn b None None]> |> in
    t ← write_slot t (SBucket i) (Some l);
    t ← lru_push_front t l;
    Some (Some l, ct_bump t (fun s => s <| ts_created ::= inc64 |>
                                       <| ts_active ::= fun x => u32 (x + 1) |>)).

(** ** Entry points: the entry (or NULL), [*lost], the table *)
Definition lk_conn_table_open t (cookie seq ts_ns : Z) (tuple : lk_tuple) (synthetic : bool) :
    option (option loc * Z * table) :=
  o ← lookup t cookie;
  match o with
  | Some c => '(lost, t) ← touch t c seq ts_ns; Some (Some c, lost, t)
  | None =>
      '(r, t) ← create t cookie seq ts_ns;
      match r with
      | None => Some (None, 0, t)
      | Some c =>
          t ← upd_conn t c (fun cn => cn <| c_tuple := tuple |>
                                       <| c_ops := resolve_proto t (Some tuple) |>);
          t ← (if synthetic
               then upd_conn t c (fun cn => mark_dirty
                      (cn <| c_flags ::= fun w => set_flag w LK_CONN_SYNTHETIC |>))
               else Some t);
          Some (Some c, 0, t)
      end
  end.

Definition lk_conn_table_data t (cookie seq ts_ns : Z) : option (option loc * Z * table) :=
  o ← lookup t cookie;
  match o with
  | Some c => '(lost, t) ← touch t c seq ts_ns; Some (Some c, lost, t)
  | None =>
      '(r, t) ← create t cookie seq ts_ns;
      match r with
      | None => Some (None, 0, t)
      | Some c =>
          t ← upd_conn t c (fun cn => mark_dirty (cn <| c_ops := t_proto_dflt t |>));
          Some (Some c, 0, t)
      end
  end.

Definition touch_tls_conn (c : conn) (seq ts_ns : Z) : Z * conn :=
  let next := u32 (c_tls_last_seq c + 1) in
  let '(lost, c) :=
    if negb (c_tls_seq_seen c)
    then (0, c <| c_tls_seq_seen := true |> <| c_tls_last_seq := seq |>)
    else if next <? seq
    then let lost := u32 (seq - next) in
         (lost, mark_dirty (c <| c_tls_dropped ::= fun x => u32 (x + lost) |>))
    else (0, c) in
  let c := if c_tls_last_seq c <? seq then c <| c_tls_last_seq := seq |> else c in
  (lost, c <| c_last_activity_ns := ts_ns |>).

Definition touch_tls t (c : loc) (seq ts_ns : Z) : option (Z * table) :=
  cn ← conn_at t c;
  let '(lost, cn') := touch_tls_conn cn seq ts_ns in
  let t := count_gap t (c_tls_seq_seen cn && (u32 (c_tls_last_seq cn + 1) <? seq)) lost in
  t ← upd_conn t c (fun _ => cn');
  t ← lru_front t c;
  Some (lost, t).

Definition lk_conn_table_peek t (cookie : Z) : option (option loc) := lookup t cookie.

Definition lk_conn_table_data_decrypted t (cookie seq ts_ns : Z) :
    option (option loc * Z * table) :=
  o ← lookup t cookie;
  match o with
  | Some c => '(lost, t) ← touch_tls t c seq ts_ns; Some (Some c, lost, t)
  | None =>
      '(r, t) ← create t cookie seq ts_ns;
      match r with
      | None => Some (None, 0, t)
      | Some c =>
          t ← upd_conn t c (fun cn => mark_dirty
                (cn <| c_ops := t_proto_dflt t |> <| c_tls_seq_seen := true |>
                    <| c_tls_last_seq := seq |>));
          Some (Some c, 0, t)
      end
  end.

Definition tls_drop_conn (seq ts_ns : Z) (c : conn) : conn :=
  (if c_last_seq c <? seq then c <| c_last_seq := seq |> else c) <| c_last_activity_ns := ts_ns |>.

Definition lk_conn_table_note_tls_drop t (c : loc) (seq ts_ns : Z) : option table :=
  let t := ct_bump t (fun s => s <| ts_tls_socket_dropped ::= inc64 |>) in
  t ← upd_conn t c (tls_drop_conn seq ts_ns);
  lru_front t c.

Definition lk_conn_table_note_tls_open t : table :=
  ct_bump t (fun s => s <| ts_tls_opened ::= inc64 |> <| ts_tls_active ::= fun x => u32 (x + 1) |>).

Definition lk_conn_tls_reset_framing (c : conn) (midstream : bool) : conn :=
  let c := c <| c_frame_state := None |> <| c_send := frame0 |> <| c_recv := frame0 |> in
  if midstream then mark_dirty c else c.

Definition lk_conn_table_close t (cookie seq ts_ns : Z) : option (Z * table) :=
  o ← lookup t cookie;
  match o with
  | None => Some (0, t)
  | Some c =>
      '(lost, t) ← touch t c seq ts_ns;
      t ← destroy t c;
      Some (lost, ct_bump t (fun s => s <| ts_closed ::= inc64 |>))
  end.

Fixpoint sweep_loop (fuel : nat) t (now_ns evicted : Z) : option (Z * table) :=
  match t_lru_tail t with
  | None => Some (evicted, t)
  | Some c =>
      cn ← conn_at t c;
      if u64 (c_last_activity_ns cn + t_idle_timeout_ns t) <=? now_ns then
        match fuel with
        | O => None
        | Datatypes.S fuel =>
            t ← destroy t c;
            sweep_loop fuel (ct_bump t (fun s => s <| ts_evicted_idle ::= inc64 |>)) now_ns
                       (u32 (evicted + 1))
        end
      else Some (evicted, t)
  end.
Definition lk_conn_table_sweep t (now_ns : Z) : option (Z * table) :=
  sweep_loop (size (t_heap t)) t now_ns 0.

(** [while (nbuckets < max_conns / 16) nbuckets <<= 1;] *)
Fixpoint grow_buckets (fuel : nat) (nb target : Z) : option Z :=
  if nb <? target then
    match fuel with O => None | Datatypes.S fuel => grow_buckets fuel (u32 (Z.shiftl nb 1)) target end
  else Some nb.

(** [lk_conn_table_new]: NULL when a calloc fails; [oom] the calloc outcomes to come. *)
Definition lk_conn_table_new (ctx : S) (max_conns idle_timeout_ns : Z) (oom : list bool) :
    option (option table) :=
  let max := if max_conns =? 0 then 1 else max_conns in
  nb ← grow_buckets 32 64 (max / 16);
  let t := Table ∅ (repeat None (Z.to_nat nb)) nb max idle_timeout_ns None None None ctx [] None
                 ct_stats0 oom in
  let '(ok1, t) := calloc t in
  let '(ok2, t) := if ok1 then calloc t else (false, t) in
  Some (if ok2 then Some t else None).

Definition lk_conn_table_on_destroy t fn (ctx : S) : table := t <| t_on_destroy := fn |> <| t_ctx := ctx |>.
Definition lk_conn_table_set_protos t (map : list lk_port_proto) (dflt : option proto_id) : table :=
  t <| t_protos := map |> <| t_proto_dflt := dflt |>.

Fixpoint free_loop (fuel : nat) t : option table :=
  match t_lru_head t, fuel with
  | None, _ => Some t
  | Some _, O => None
  | Some c, Datatypes.S fuel => t ← destroy t c; free_loop fuel t
  end.
Definition lk_conn_table_free t : option table := free_loop (size (t_heap t)) t.
End ConnTable.
