(* ===== verification/ConnTableFacts.v ===== *)
(** The connection table's pointer structure is sound: representation
    invariant, memory safety and termination of every operation. *)
From stdpp Require Import base list option gmap.
From S2P Require Import Prelude Conn ConnTable.
#[local] Open Scope Z_scope.

(** ** Doubly linked segments over the map of (prev, next) links *)
Abbreviation linkmap := (gmap loc (option loc * option loc)).

Definition hd_or (ls : list loc) (nx : option loc) : option loc :=
  match ls with [] => nx | x :: _ => Some x end.
Fixpoint last_or (p : option loc) (ls : list loc) : option loc :=
  match ls with [] => p | x :: xs => last_or (Some x) xs end.
Fixpoint seg (L : linkmap) (p : option loc) (ls : list loc) (nx : option loc) : Prop :=
  match ls with
  | [] => True
  | x :: xs => L !! x = Some (p, hd_or xs nx) /\ seg L (Some x) xs nx
  end.

Definition set_next (v : option loc) (x : option loc) (L : linkmap) : linkmap :=
  match x with Some x => alter (fun pn => (pn.1, v)) x L | None => L end.
Definition set_prev (v : option loc) (x : option loc) (L : linkmap) : linkmap :=
  match x with Some x => alter (fun pn => (v, pn.2)) x L | None => L end.

Lemma hd_or_app l1 l2 nx : hd_or (l1 ++ l2) nx = hd_or l1 (hd_or l2 nx).
Proof. by destruct l1. Qed.
Lemma last_or_app p l1 l2 : last_or p (l1 ++ l2) = last_or (last_or p l1) l2.
Proof. revert p. by induction l1; cbn. Qed.
Lemma last_or_snoc p l x : last_or p (l ++ [x]) = Some x.
Proof. by rewrite last_or_app. Qed.
Lemma last_or_cons p x l : last_or p (x :: l) = Some (default x (last_or None l)).
Proof.
  destruct l as [|y l _] using rev_ind; [done|]. rewrite app_comm_cons, !last_or_snoc. done.
Qed.

Lemma seg_app L p l1 l2 nx :
  seg L p (l1 ++ l2) nx <-> seg L p l1 (hd_or l2 nx) /\ seg L (last_or p l1) l2 nx.
Proof.
  revert p. induction l1 as [|x l1 IH]; intros p; cbn; [tauto|].
  rewrite IH, hd_or_app. tauto.
Qed.

Lemma seg_alter_out L f y p ls nx : y ∉ ls -> seg (alter f y L) p ls nx <-> seg L p ls nx.
Proof.
  revert p. induction ls as [|x ls IH]; intros p Hy; cbn; [done|].
  apply not_elem_of_cons in Hy as [Hne Hy]. rewrite lookup_alter_ne by done. by rewrite IH.
Qed.
Lemma seg_insert_out L v y p ls nx : y ∉ ls -> seg (<[y := v]> L) p ls nx <-> seg L p ls nx.
Proof.
  revert p. induction ls as [|x ls IH]; intros p Hy; cbn; [done|].
  apply not_elem_of_cons in Hy as [Hne Hy]. rewrite lookup_insert_ne by done. by rewrite IH.
Qed.
Lemma seg_delete_out L y p ls nx : y ∉ ls -> seg (delete y L) p ls nx <-> seg L p ls nx.
Proof.
  revert p. induction ls as [|x ls IH]; intros p Hy; cbn; [done|].
  apply not_elem_of_cons in Hy as [Hne Hy]. rewrite lookup_delete_ne by done. by rewrite IH.
Qed.

Lemma seg_set_next L p l v nx :
  NoDup l -> seg L p l nx -> seg (set_next v (last_or None l) L) p l v.
Proof.
  destruct l as [|x l _] using rev_ind; [done|]. rewrite last_or_snoc.
  intros [_ [Hx _]]%NoDup_app [H1 H2]%seg_app. apply seg_app. cbn in *. destruct H2 as [H2 _].
  split; [|split; [|done]].
  - apply seg_alter_out; [|done]. intros Hi. specialize (Hx _ Hi). set_solver.
  - by rewrite lookup_alter_eq, H2.
Qed.
Lemma seg_set_prev L p l v nx :
  NoDup l -> seg L p l nx -> seg (set_prev v (hd_or l None) L) v l nx.
Proof.
  destruct l as [|x l]; [done|]. cbn. intros [Hx _]%NoDup_cons [H1 H2].
  split; [by rewrite lookup_alter_eq, H1|]. by apply seg_alter_out.
Qed.

Lemma seg_unlink L l1 c l2 :
  NoDup (l1 ++ c :: l2) -> seg L None (l1 ++ c :: l2) None ->
  L !! c = Some (last_or None l1, hd_or l2 None) /\
  seg (set_prev (last_or None l1) (hd_or l2 None) (set_next (hd_or l2 None) (last_or None l1) L))
      None (l1 ++ l2) None.
Proof.
  intros Hnd [H1 [Hc H2]]%seg_app. split; [done|].
  apply NoDup_app in Hnd as (Hn1 & Hd & [Hc2 Hn2]%NoDup_cons).
  apply seg_app. split.
  - apply seg_set_next with (v := hd_or l2 None) in H1; [|done].
    destruct l2 as [|s l2]; cbn in *; [done|]. apply seg_alter_out; [|done].
    intros Hi. apply (Hd _ Hi). set_solver.
  - apply seg_set_prev with (Some c); [done|].
    destruct l1 as [|x l1 _] using rev_ind; cbn; [done|]. rewrite last_or_snoc. cbn.
    apply seg_alter_out; [|done]. intros Hi. apply (Hd x); set_solver.
Qed.

Lemma seg_push L ls c :
  NoDup (c :: ls) -> seg L None ls None -> L !! c = Some (None, hd_or ls None) ->
  seg (set_prev (Some c) (hd_or ls None) L) None (c :: ls) None.
Proof.
  intros [Hc Hn]%NoDup_cons Hs HL. cbn. split; [|by apply seg_set_prev with None].
  destruct ls as [|x ls]; cbn; [done|]. rewrite lookup_alter_ne; [done|]. set_solver.
Qed.

(** ** The representation invariant *)
Section Rep.
Context {S P F : Type}.
Abbreviation conn := (lk_conn P F).
Abbreviation table := (lk_conn_table S P F).
Abbreviation heap := (gmap loc (node P F)).
Implicit Types (t : table) (h : heap) (l c : loc) (ls ch : list loc).

(** The two halves of a node: LRU links, and payload with the hash link. *)
Definition links h : linkmap := (fun n => (n_prev n, n_next n)) <$> h.
Abbreviation bodymap := (gmap loc (conn * option loc)).
Definition body h : bodymap := (fun n => (n_conn n, n_hnext n)) <$> h.

Lemma heap_ext h h' : links h = links h' -> body h = body h' -> h = h'.
Proof.
  intros Hl Hb. apply map_eq. intros i. apply (f_equal (.!! i)) in Hl, Hb.
  unfold links, body in *. rewrite !lookup_fmap in *.
  destruct (h !! i) as [[]|], (h' !! i) as [[]|]; cbn in *; by simplify_eq.
Qed.

Lemma store_some h l f : is_Some (h !! l) -> store h l f = Some (alter f l h).
Proof.
  intros [n Hn]. unfold store. rewrite Hn. cbn. f_equal. apply map_eq. intros i.
  destruct (decide (i = l)) as [->|]; [by rewrite lookup_insert_eq, lookup_alter_eq, Hn|].
  by rewrite lookup_insert_ne, lookup_alter_ne.
Qed.

Lemma alter_fmap {A B} (g : A -> B) (f : A -> A) (f' : B -> B) l (m : gmap loc A) :
  (forall a, g (f a) = f' (g a)) -> g <$> alter f l m = alter f' l (g <$> m).
Proof.
  intros Hg. apply map_eq. intros i. rewrite lookup_fmap.
  destruct (decide (i = l)) as [->|]; [|by rewrite !lookup_alter_ne, lookup_fmap].
  rewrite !lookup_alter_eq, lookup_fmap. destruct (m !! l); cbn; [by rewrite Hg|done].
Qed.
Lemma alter_same {A} (l : loc) (m : gmap loc A) : alter (fun a => a) l m = m.
Proof.
  apply map_eq. intros i. destruct (decide (i = l)) as [->|]; [|by rewrite lookup_alter_ne].
  rewrite lookup_alter_eq. by destruct (m !! l).
Qed.

Lemma links_next h l v : links (alter (fun n => n <| n_next := v |>) l h) = set_next v (Some l) (links h).
Proof. by apply alter_fmap. Qed.
Lemma links_prev h l v : links (alter (fun n => n <| n_prev := v |>) l h) = set_prev v (Some l) (links h).
Proof. by apply alter_fmap. Qed.
Lemma links_conn h l g : links (alter (fun n => n <| n_conn ::= g |>) l h) = links h.
Proof. unfold links. rewrite (alter_fmap _ _ (fun a => a)) by done. apply alter_same. Qed.
Lemma links_hnext h l v : links (alter (fun n => n <| n_hnext := v |>) l h) = links h.
Proof. unfold links. rewrite (alter_fmap _ _ (fun a => a)) by done. apply alter_same. Qed.
Lemma body_links h l f :
  (forall n, n_conn (f n) = n_conn n /\ n_hnext (f n) = n_hnext n) -> body (alter f l h) = body h.
Proof.
  intros Hf. unfold body. rewrite (alter_fmap _ _ (fun a => a)); [apply alter_same|].
  intros n. by destruct (Hf n) as [-> ->].
Qed.
Lemma lookup_links h l n : h !! l = Some n -> links h !! l = Some (n_prev n, n_next n).
Proof. intros H. unfold links. by rewrite lookup_fmap, H. Qed.
Lemma lookup_body h l n : h !! l = Some n -> body h !! l = Some (n_conn n, n_hnext n).
Proof. intros H. unfold body. by rewrite lookup_fmap, H. Qed.
Lemma links_is_Some h l : is_Some (links h !! l) <-> is_Some (h !! l).
Proof. unfold links. by rewrite lookup_fmap, fmap_is_Some. Qed.
Lemma body_is_Some h l : is_Some (body h !! l) <-> is_Some (h !! l).
Proof. unfold body. by rewrite lookup_fmap, fmap_is_Some. Qed.

(** Singly linked hash chains, from [b] to [m]. *)
Fixpoint lseg (B : bodymap) (b : option loc) ch (m : option loc) : Prop :=
  match ch with
  | [] => b = m
  | x :: ch => b = Some x /\ exists cn hn, B !! x = Some (cn, hn) /\ lseg B hn ch m
  end.
Abbreviation chain B b ch := (lseg B b ch None).

Definition in_bucket (nb : Z) (B : bodymap) (i : nat) l : Prop :=
  exists cn hn, B !! l = Some (cn, hn) /\ hash_index nb (c_cookie cn) = i.

(** The hash half: every bucket heads a chain of exactly its entries. *)
Record hash_rep (nb : Z) (bucket : list (option loc)) (B : bodymap) : Prop := HashRep {
  hr_nb : exists k, 0 <= k /\ nb = 2 ^ k;
  hr_len : length bucket = Z.to_nat nb;
  hr_chain i b : bucket !! i = Some b ->
    exists ch, chain B b ch /\ NoDup ch /\ forall l, l ∈ ch <-> in_bucket nb B i l;
  hr_inj l l' cn hn cn' hn' : B !! l = Some (cn, hn) -> B !! l' = Some (cn', hn') ->
    c_cookie cn = c_cookie cn' -> l = l' }.

(** The LRU half: [ls] lists the live entries, most recent first. *)
Record lru_rep (hd tl : option loc) (L : linkmap) ls : Prop := LruRep {
  lr_seg : seg L None ls None;
  lr_head : hd = hd_or ls None;
  lr_tail : tl = last_or None ls;
  lr_nodup : NoDup ls;
  lr_dom l : l ∈ ls <-> is_Some (L !! l) }.

Record rep t ls : Prop := Rep {
  rp_hash : hash_rep (t_nbuckets t) (t_bucket t) (body (t_heap t));
  rp_lru : lru_rep (t_lru_head t) (t_lru_tail t) (links (t_heap t)) ls;
  rp_active : ts_active (t_st t) = zlen ls;
  rp_max : 1 <= t_max_conns t < 2 ^ 32;
  rp_bound : zlen ls <= t_max_conns t }.

(** What the operations never change. *)
Definition same_cfg t t' : Prop :=
  t_nbuckets t' = t_nbuckets t /\ t_max_conns t' = t_max_conns t /\
  t_idle_timeout_ns t' = t_idle_timeout_ns t /\ t_on_destroy t' = t_on_destroy t /\
  t_protos t' = t_protos t /\ t_proto_dflt t' = t_proto_dflt t.
#[global] Instance same_cfg_pre : PreOrder same_cfg.
Proof. split; [done|]. intros ? ? ? (?&?&?&?&?&?) (?&?&?&?&?&?). split_and!; congruence. Qed.

(** Nothing but the LRU links (and the two list heads) changed. *)
Definition lru_only t t' : Prop :=
  same_cfg t t' /\ body (t_heap t') = body (t_heap t) /\ t_bucket t' = t_bucket t /\
  t_ctx t' = t_ctx t /\ t_st t' = t_st t /\ t_oom t' = t_oom t.
#[global] Instance lru_only_pre : PreOrder lru_only.
Proof.
  split; [done|]. intros ? ? ? (?&?&?&?&?&?) (?&?&?&?&?&?).
  split; [etrans; eassumption|]. split_and!; congruence.
Qed.

Lemma hash_index_lt nb cookie : (exists k, 0 <= k /\ nb = 2 ^ k) -> (hash_index nb cookie < Z.to_nat nb)%nat.
Proof.
  intros (k & Hk & ->). unfold hash_index. rewrite Z.sub_1_r, <- Z.ones_equiv, Z.land_ones by done.
  pose proof (Z.mod_pos_bound (Z.shiftr (u64 (cookie * 0x9E3779B97F4A7C15)) 32) (2 ^ k) ltac:(lia)). lia.
Qed.

Lemma body_conn_at t l cn : conn_at t l = Some cn <-> exists hn, body (t_heap t) !! l = Some (cn, hn).
Proof.
  unfold conn_at, body. rewrite lookup_fmap. destruct (t_heap t !! l) as [[]|]; cbn; naive_solver.
Qed.

Lemma chain_length B b ch h : body h = B -> chain B b ch -> NoDup ch -> (length ch <= size h)%nat.
Proof.
  intros <- Hc Hnd. rewrite <- size_dom, <- (size_list_to_set (C:=gset loc)) by done.
  apply subseteq_size. intros x Hx%elem_of_list_to_set. apply elem_of_dom, body_is_Some.
  revert b Hc. clear Hnd. induction Hx as [x ch|x y ch _ IH]; intros b (_ & cn & hn & HB & Hc); eauto.
Qed.

(** ** LRU operations *)
Lemma last_or_elem ls x : last_or None ls = Some x -> x ∈ ls.
Proof.
  destruct ls as [|y ls _] using rev_ind; [done|]. rewrite last_or_snoc. intros [= ->]. set_solver.
Qed.
Lemma hd_or_elem ls x : hd_or ls None = Some x -> x ∈ ls.
Proof. destruct ls; cbn; [done|]. intros [= ->]. set_solver. Qed.

Lemma lru_only_heap t t' :
  same_cfg t t' -> body (t_heap t') = body (t_heap t) -> t_bucket t' = t_bucket t ->
  t_ctx t' = t_ctx t -> t_st t' = t_st t -> t_oom t' = t_oom t -> lru_only t t'.
Proof. unfold lru_only. by intros; split_and!. Qed.

(** The two neighbour updates of [lru_unlink]. *)
Lemma unlink_next t p v :
  (forall x, p = Some x -> is_Some (t_heap t !! x)) ->
  exists t', match p with
      | Some x => h ← store (t_heap t) x (fun m => m <| n_next := v |>); Some (t <| t_heap := h |>)
      | None => Some (t <| t_lru_head := v |>)
      end = Some t' /\ lru_only t t' /\ links (t_heap t') = set_next v p (links (t_heap t)) /\
    t_lru_head t' = match p with Some _ => t_lru_head t | None => v end /\ t_lru_tail t' = t_lru_tail t.
Proof.
  intros Hp. destruct p as [x|]; [|by eexists]. rewrite store_some by auto. cbn [mbind option_bind]. eexists. split; [done|].
  split; [|split_and!; [apply links_next|done..]]. apply lru_only_heap; try done. by apply body_links.
Qed.
Lemma unlink_prev t p v :
  (forall x, p = Some x -> is_Some (t_heap t !! x)) ->
  exists t', match p with
      | Some x => h ← store (t_heap t) x (fun m => m <| n_prev := v |>); Some (t <| t_heap := h |>)
      | None => Some (t <| t_lru_tail := v |>)
      end = Some t' /\ lru_only t t' /\ links (t_heap t') = set_prev v p (links (t_heap t)) /\
    t_lru_head t' = t_lru_head t /\ t_lru_tail t' = match p with Some _ => t_lru_tail t | None => v end.
Proof.
  intros Hp. destruct p as [x|]; [|by eexists]. rewrite store_some by auto. cbn [mbind option_bind]. eexists. split; [done|].
  split; [|split_and!; [apply links_prev|done..]]. apply lru_only_heap; try done. by apply body_links.
Qed.

Lemma lru_only_dom t t' l : lru_only t t' -> is_Some (t_heap t' !! l) <-> is_Some (t_heap t !! l).
Proof. intros (_ & HB & _). by rewrite <- !body_is_Some, HB. Qed.

Lemma lru_unlink_spec t (l1 l2 : list loc) c :
  lru_rep (t_lru_head t) (t_lru_tail t) (links (t_heap t)) (l1 ++ c :: l2) ->
  exists t', lru_unlink t c = Some t' /\ lru_only t t' /\
    seg (links (t_heap t')) None (l1 ++ l2) None /\
    t_lru_head t' = hd_or (l1 ++ l2) None /\ t_lru_tail t' = last_or None (l1 ++ l2).
Proof.
  intros [Hs Hh Ht Hnd Hdom]. destruct (seg_unlink _ _ _ _ Hnd Hs) as [HLc Hseg].
  assert (forall l, l ∈ l1 ++ c :: l2 -> is_Some (t_heap t !! l)) as Hin
    by (intros l ?; by apply links_is_Some, Hdom).
  destruct (Hin c) as [n Hn]; [set_solver|]. pose proof (lookup_links _ _ _ Hn) as Hl.
  rewrite HLc in Hl. injection Hl as Hp Hx. unfold lru_unlink. rewrite Hn. cbn [mbind option_bind].
  rewrite <- Hp, <- Hx.
  destruct (unlink_next t (last_or None l1) (hd_or l2 None)) as (t1 & -> & Ho1 & HL1 & Hh1 & Ht1).
  { intros x Ex%last_or_elem. apply Hin. set_solver. }
  cbn [mbind option_bind].
  destruct (unlink_prev t1 (hd_or l2 None) (last_or None l1)) as (t2 & -> & Ho2 & HL2 & Hh2 & Ht2).
  { intros x Ex%hd_or_elem. apply (lru_only_dom t), Hin; [done|]. set_solver. }
  cbn [mbind option_bind]. rewrite store_some.
  2:{ apply (lru_only_dom t1), (lru_only_dom t); by eauto. }
  cbn [mbind option_bind]. eexists. split; [done|]. split_and!.
  - trans t2; [by trans t1|]. apply lru_only_heap; try done. by apply body_links.
  - cbn [t_heap upd]. unfold links at 1. rewrite (alter_fmap _ _ (fun _ => (None, None))) by done.
    apply seg_alter_out; [|change (seg (links (t_heap t2)) None (l1 ++ l2) None); by rewrite HL2, HL1].
    apply NoDup_app in Hnd as (_ & Hd & [? _]%NoDup_cons). intros [Hi|Hi]%elem_of_app; [|done].
    apply (Hd c Hi). set_solver.
  - cbn [t_lru_head upd]. rewrite Hh2, Hh1, hd_or_app, Hh, hd_or_app. by destruct l1 as [|? ?] using rev_ind;
      rewrite ?last_or_snoc, ?hd_or_app; [|destruct l1].
  - cbn [t_lru_tail upd]. rewrite Ht2, Ht1, Ht, !last_or_app. by destruct l2.
Qed.

Lemma lru_push_spec t c ls :
  seg (links (t_heap t)) None ls None -> t_lru_head t = hd_or ls None ->
  t_lru_tail t = last_or None ls -> NoDup (c :: ls) -> is_Some (t_heap t !! c) ->
  (forall l, l ∈ ls -> is_Some (t_heap t !! l)) ->
  exists t', lru_push_front t c = Some t' /\ lru_only t t' /\
    seg (links (t_heap t')) None (c :: ls) None /\
    t_lru_head t' = Some c /\ t_lru_tail t' = last_or None (c :: ls).
Proof.
  intros Hs Hh Ht Hnd Hc Hin. pose proof Hnd as [Hcl _]%NoDup_cons.
  unfold lru_push_front. rewrite store_some by done. cbn [mbind option_bind]. rewrite Hh.
  set (h1 := alter _ c (t_heap t)).
  assert (links h1 = alter (fun _ => (None, hd_or ls None)) c (links (t_heap t))) as HL1
    by by apply alter_fmap.
  assert (body h1 = body (t_heap t)) as HB1 by by apply body_links.
  assert (exists h2, match hd_or ls None with
       | Some x => store h1 x (fun m => m <| n_prev := Some c |>) | None => Some h1 end = Some h2 /\
       links h2 = set_prev (Some c) (hd_or ls None) (links h1) /\ body h2 = body h1)
    as (h2 & -> & HL2 & HB2).
  { destruct (hd_or ls None) as [x|] eqn:E; [|by eexists]. rewrite store_some.
    - eexists. split; [done|]. split; [apply links_prev|by apply body_links].
    - apply body_is_Some. rewrite HB1. by apply body_is_Some, Hin, hd_or_elem. }
  cbn [mbind option_bind]. eexists. split; [done|]. split_and!.
  - apply lru_only_heap; try done. cbn [t_heap upd]. congruence.
  - cbn [t_heap upd]. rewrite HL2. apply seg_push; [done|rewrite HL1; by apply seg_alter_out|].
    apply links_is_Some in Hc as [pn Hc]. by rewrite HL1, lookup_alter_eq, Hc.
  - done.
  - cbn [t_lru_tail upd]. rewrite Ht, last_or_cons. by destruct (last_or None ls).
Qed.

Lemma lru_front_spec t (l1 l2 : list loc) c :
  lru_rep (t_lru_head t) (t_lru_tail t) (links (t_heap t)) (l1 ++ c :: l2) ->
  exists t', lru_front t c = Some t' /\ lru_only t t' /\
    lru_rep (t_lru_head t') (t_lru_tail t') (links (t_heap t')) (c :: l1 ++ l2).
Proof.
  intros Hr. destruct (lru_unlink_spec t l1 l2 c Hr) as (t1 & E1 & Ho1 & Hs1 & Hh1 & Ht1).
  destruct Hr as [Hs Hh Ht Hnd Hdom].
  assert (NoDup (c :: l1 ++ l2)) as Hnd' by by rewrite Permutation_middle.
  assert (forall l, l ∈ c :: l1 ++ l2 <-> is_Some (t_heap t1 !! l)) as Hin1.
  { intros l. by rewrite (lru_only_dom t t1), <- links_is_Some, <- Hdom, Permutation_middle. }
  destruct (lru_push_spec t1 c (l1 ++ l2) Hs1 Hh1 Ht1 Hnd') as (t2 & E2 & Ho2 & Hs2 & Hh2 & Ht2).
  { apply Hin1. set_solver. }
  { intros l Hl. apply Hin1. set_solver. }
  exists t2. unfold lru_front. rewrite E1. cbn. split; [done|]. split; [by trans t1|].
  split; try done. intros l. by rewrite links_is_Some, (lru_only_dom t1 t2), Hin1.
Qed.

(** ** Hash chains *)
Definition set_hnext (v : option loc) (x : option loc) (B : bodymap) : bodymap :=
  match x with Some x => alter (fun e => (e.1, v)) x B | None => B end.

Lemma lseg_app B b m (ch1 ch2 : list loc) :
  lseg B b (ch1 ++ ch2) m <-> exists k, lseg B b ch1 k /\ lseg B k ch2 m.
Proof.
  revert b. induction ch1 as [|x ch1 IH]; intros b; cbn; [naive_solver|].
  setoid_rewrite IH. naive_solver.
Qed.
Lemma lseg_ext B B' b ch m : (forall x, x ∈ ch -> B' !! x = B !! x) -> lseg B b ch m -> lseg B' b ch m.
Proof.
  revert b. induction ch as [|x ch IH]; intros b He; cbn; [done|].
  intros (-> & cn & hn & HB & Hl). split; [done|]. exists cn, hn. rewrite He by set_solver.
  split; [done|]. apply IH; [|done]. intros; apply He; set_solver.
Qed.
Lemma lseg_elem B b ch m l : lseg B b ch m -> l ∈ ch -> is_Some (B !! l).
Proof.
  intros Hc Hl. revert b Hc. induction Hl as [x ch|x y ch _ IH]; intros b (_ & cn & hn & HB & Hc); eauto.
Qed.

(** Dropping [c] from its chain: relink the predecessor, or the bucket. *)
Lemma chain_remove B b cn hn (ch1 ch2 : list loc) c :
  NoDup (ch1 ++ c :: ch2) -> chain B b (ch1 ++ c :: ch2) -> B !! c = Some (cn, hn) ->
  chain (set_hnext hn (last_or None ch1) B) (match ch1 with [] => hn | _ => b end) (ch1 ++ ch2).
Proof.
  intros Hnd (k & H1 & -> & cn' & hn' & HB & H2)%lseg_app Hc.
  assert (cn' = cn /\ hn' = hn) as [-> ->] by (split; congruence).
  destruct ch1 as [|p ch1 _] using rev_ind; [done|]. rewrite last_or_snoc.
  apply lseg_app in H1 as (k & H1 & -> & cnp & hnp & HBp & ->).
  apply NoDup_app in Hnd as (Hnd1 & Hd & [Hc2 Hnd2]%NoDup_cons).
  apply NoDup_app in Hnd1 as (_ & Hp & _).
  replace (match ch1 ++ [p] with [] => hn | _ => b end) with b by by destruct ch1.
  apply lseg_app. exists hn. split.
  - apply lseg_app. exists (Some p). split.
    + apply lseg_ext with B; [|done]. intros x Hx. cbn. rewrite lookup_alter_ne; [done|].
      intros ->. apply (Hp x Hx). set_solver.
    + split; [done|]. exists cnp, hn. cbn. by rewrite lookup_alter_eq, HBp.
  - apply lseg_ext with B; [|done]. intros x Hx. cbn. rewrite lookup_alter_ne; [done|].
    intros ->. apply (Hd x); set_solver.
Qed.

Lemma set_hnext_cookie v x B l i nb : in_bucket nb (set_hnext v x B) i l <-> in_bucket nb B i l.
Proof.
  destruct x as [x|]; [|done]. unfold in_bucket. cbn. destruct (decide (l = x)) as [->|Hne].
  - rewrite lookup_alter_eq. destruct (B !! x) as [[cn hn]|]; cbn; naive_solver.
  - by rewrite lookup_alter_ne.
Qed.

Lemma in_bucket_delete nb B i l c : in_bucket nb (delete c B) i l <-> in_bucket nb B i l /\ l <> c.
Proof.
  unfold in_bucket. setoid_rewrite lookup_delete_Some. naive_solver.
Qed.

Lemma bucket_slot (bucket : list (option loc)) i j v b :
  <[i := v]> bucket !! j = Some b -> (i = j /\ b = v) \/ (i <> j /\ bucket !! j = Some b).
Proof.
  destruct (decide (i = j)) as [->|]; [|rewrite list_lookup_insert_ne by done; auto].
  intros [(? & ? & ?)|(? & ?)]%list_lookup_insert_Some; naive_solver.
Qed.

Lemma hash_remove nb bucket B c cn hn b (ch1 ch2 : list loc) (i := hash_index nb (c_cookie cn)) :
  hash_rep nb bucket B -> B !! c = Some (cn, hn) -> bucket !! i = Some b ->
  chain B b (ch1 ++ c :: ch2) -> NoDup (ch1 ++ c :: ch2) ->
  (forall l, l ∈ ch1 ++ c :: ch2 <-> in_bucket nb B i l) ->
  hash_rep nb (match ch1 with [] => <[i := hn]> bucket | _ => bucket end)
           (delete c (set_hnext hn (last_or None ch1) B)).
Proof.
  intros [Hnb Hlen Hch Hinj] Hc Hb Hchain Hnd Hin. split; [done| | |].
  - destruct ch1; [by rewrite length_insert|done].
  - intros j b' Hj.
    assert (i = j /\ b' = match ch1 with [] => hn | _ => b end \/ i <> j /\ bucket !! j = Some b')
      as [[<- ->]|[Hne Hj']].
    { destruct ch1; [by apply bucket_slot in Hj|]. destruct (decide (i = j)) as [<-|]; [|auto].
      left. split; [done|congruence]. }
    + exists (ch1 ++ ch2). split_and!.
      * apply lseg_ext with (set_hnext hn (last_or None ch1) B); [|by eapply chain_remove].
        intros x Hx. apply lookup_delete_ne. intros <-.
        rewrite <- Permutation_middle in Hnd. apply NoDup_cons in Hnd as [? _]. done.
      * rewrite <- Permutation_middle in Hnd. by apply NoDup_cons in Hnd as [_ ?].
      * intros l. rewrite in_bucket_delete, set_hnext_cookie, <- Hin.
        rewrite <- Permutation_middle in Hnd |- *. apply NoDup_cons in Hnd as [? _].
        rewrite elem_of_cons. split; [|by intros [[->|?] ?]]. intros Hl. split; [by right|by intros ->].
    + destruct (Hch j b' Hj') as (ch & Hl & Hndc & Hinc).
      assert (forall x, x ∈ ch -> x ∉ ch1 ++ c :: ch2) as Hdisj.
      { intros x (cx & hx & Hx & Ex)%Hinc (cx' & hx' & Hx' & Ex')%Hin.
        rewrite Hx in Hx'. injection Hx' as <- <-. congruence. }
      exists ch. split_and!; [|done|].
      * apply lseg_ext with B; [|done]. intros x Hx. specialize (Hdisj x Hx).
        apply not_elem_of_app in Hdisj as [Hd1 [Hd2 _]%not_elem_of_cons].
        rewrite lookup_delete_ne by done. destruct (last_or None ch1) as [p|] eqn:Ep; [|done].
        apply last_or_elem in Ep. cbn. rewrite lookup_alter_ne; [done|]. by intros ->.
      * intros l. rewrite in_bucket_delete, set_hnext_cookie, <- Hinc. split; [|tauto].
        intros Hl'. split; [done|]. intros ->. apply (Hdisj c Hl'). apply elem_of_app. right. left.
  - assert (forall l cn hn', delete c (set_hnext hn (last_or None ch1) B) !! l = Some (cn, hn') ->
        exists hn'', B !! l = Some (cn, hn'')) as Hback.
    { intros l cl hl [_ Hl]%lookup_delete_Some. destruct (last_or None ch1) as [p|]; [|eauto].
      cbn in Hl. apply lookup_alter_Some in Hl as [(-> & [c0 h0] & ? & [= -> _])|[_ ?]]; eauto. }
    intros l l' cl hl cl' hl' [? ?]%Hback [? ?]%Hback. eauto.
Qed.
End Rep.
