(* ===== verification/ConnTableOps.v ===== *)
(** Every table operation preserves the representation invariant, and acts on
    the recency-ordered list of entries it represents as a bounded LRU cache
    keyed by cookie ([AbsTable]). *)
From stdpp Require Import base list option gmap.
From S2P Require Import Prelude Conn ConnTable ConnTableFacts.
#[local] Open Scope Z_scope.

(** The destroy hook may release what the entry owns, not re-key it. *)
Class HookLaws {S P F} (fn : S -> lk_conn P F -> S * lk_conn P F) := {
  hook_cookie s c : c_cookie (fn s c).2 = c_cookie c;
  hook_flags s c : c_flags (fn s c).2 = c_flags c }.

Section Ops.
Context {S P F : Type}.
Abbreviation conn := (lk_conn P F).
Abbreviation table := (lk_conn_table S P F).
Implicit Types (t : table) (l : loc) (ls ch : list loc).

Definition hook_ok t : Prop :=
  match t_on_destroy t with Some fn => HookLaws fn | None => True end.

Lemma rep_conn t ls l : rep t ls -> l ∈ ls <-> exists cn, conn_at t l = Some cn.
Proof.
  intros [_ [] _ _ _]. rewrite lr_dom, links_is_Some. unfold conn_at, is_Some.
  destruct (t_heap t !! l); cbn; naive_solver.
Qed.

Lemma rep_split t ls l : rep t ls -> l ∈ ls -> exists l1 l2 : list loc, ls = l1 ++ l :: l2.
Proof. intros _. apply list_elem_of_split. Qed.

(** ** Lookup *)
Lemma chain_find_spec fuel h b ch cookie :
  lseg (P:=P) (F:=F) (body h) b ch None -> (length ch <= fuel)%nat ->
  exists o, chain_find fuel h b cookie = Some o /\
    match o with
    | Some l => l ∈ ch /\ exists cn hn, body h !! l = Some (cn, hn) /\ c_cookie cn = cookie
    | None => forall l cn hn, l ∈ ch -> body h !! l = Some (cn, hn) -> c_cookie cn <> cookie
    end.
Proof.
  revert b ch. induction fuel as [|fuel IH]; intros b [|x ch] Hc Hlen; cbn in *; try lia.
  1,2: subst b; exists None; split; [done|]; intros ? ? ? Hn; by apply not_elem_of_nil in Hn.
  destruct Hc as (-> & cn & hn & HB & Hc). pose proof HB as HB'.
  unfold body in HB. rewrite lookup_fmap in HB. destruct (h !! x) as [n|]; [|done]. cbn in *. simplify_eq.
  destruct (Z.eqb_spec (c_cookie (n_conn n)) cookie) as [E|E].
  - exists (Some x). split; [done|]. split; [left|]. eauto.
  - destruct (IH _ _ Hc) as (o & -> & Ho); [lia|]. exists o. split; [done|]. destruct o as [l|].
    + destruct Ho as [? ?]. split; [by right|done].
    + intros l cn hn [->|Hl]%elem_of_cons Hb; [congruence|eauto].
Qed.

Lemma lookup_spec t ls cookie :
  rep t ls ->
  exists o, lookup t cookie = Some o /\
    match o with
    | Some l => l ∈ ls /\ exists cn, conn_at t l = Some cn /\ c_cookie cn = cookie
    | None => forall l cn, conn_at t l = Some cn -> c_cookie cn <> cookie
    end.
Proof.
  intros Hr. pose proof Hr as [[Hnb Hlen Hch _] _ _ _ _]. unfold lookup.
  pose proof (hash_index_lt (t_nbuckets t) cookie Hnb) as Hi. rewrite <- Hlen in Hi.
  apply lookup_lt_is_Some in Hi as [b Hb]. rewrite Hb. cbn.
  destruct (Hch _ _ Hb) as (ch & Hc & Hnd & Hin).
  destruct (chain_find_spec (size (t_heap t)) (t_heap t) b ch cookie Hc) as (o & -> & Ho).
  { by eapply chain_length. }
  exists o. split; [done|]. destruct o as [l|].
  - destruct Ho as (Hl & cn & hn & HB & Hk). split; [|exists cn; split; [|done]].
    + eapply rep_conn; [done|]. exists cn. apply body_conn_at. eauto.
    + apply body_conn_at. eauto.
  - intros l cn [hn HB]%body_conn_at Hk. refine (Ho l cn hn _ HB Hk). apply Hin. exists cn, hn.
    by rewrite Hk.
Qed.

(** ** Writing an entry *)
Definition put_body (cn : conn) (l : loc) (B : gmap loc (conn * option loc)) :=
  alter (fun e => (cn, e.2)) l B.

Lemma hash_put nb bucket B l (cn cn0 : conn) hn :
  hash_rep nb bucket B -> B !! l = Some (cn0, hn) -> c_cookie cn = c_cookie cn0 ->
  hash_rep nb bucket (put_body cn l B).
Proof.
  intros [Hnb Hlen Hch Hinj] Hl Hk.
  assert (forall x c' h', put_body cn l B !! x = Some (c', h') ->
    exists c'', B !! x = Some (c'', h') /\ c_cookie c'' = c_cookie c') as Hback.
  { intros x c' h' Hx. unfold put_body in Hx. destruct (decide (x = l)) as [->|].
    - rewrite lookup_alter_eq, Hl in Hx. cbn in Hx. simplify_eq. eauto.
    - rewrite lookup_alter_ne in Hx by done. eauto. }
  assert (forall x c' h', B !! x = Some (c', h') ->
    exists c'', put_body cn l B !! x = Some (c'', h') /\ c_cookie c'' = c_cookie c') as Hfwd.
  { intros x c' h' Hx. unfold put_body. destruct (decide (x = l)) as [->|].
    - rewrite lookup_alter_eq, Hl. cbn. simplify_eq. eauto.
    - rewrite lookup_alter_ne by done. eauto. }
  split; [done|done| |].
  - intros i b Hb. destruct (Hch i b Hb) as (ch & Hc & Hnd & Hin). exists ch. split_and!; [|done|].
    + clear Hin Hnd Hb. revert b Hc. induction ch as [|x ch IH]; intros b; cbn; [done|].
      intros (-> & c' & h' & Hx & Hc). split; [done|]. apply Hfwd in Hx as (c'' & Hx & _).
      exists c'', h'. auto.
    + intros x. rewrite Hin. split.
      * intros (c' & h' & Hx & <-). apply Hfwd in Hx as (c'' & Hx & E). exists c'', h'. by rewrite E.
      * intros (c' & h' & Hx & <-). apply Hback in Hx as (c'' & Hx & E). exists c'', h'. by rewrite E.
  - intros x y cx hx cy hy (c1 & Hx & E1)%Hback (c2 & Hy & E2)%Hback E. eapply Hinj; eauto. congruence.
Qed.

(** [t'] differs from [t] in the contents of entry [l] (and bookkeeping) only. *)
Definition put_conn t t' l (cn : conn) : Prop :=
  same_cfg t t' /\ conn_at t' l = Some cn /\ forall x, x <> l -> conn_at t' x = conn_at t x.

Lemma upd_conn_spec t ls l (cn : conn) g :
  rep t ls -> conn_at t l = Some cn -> c_cookie (g cn) = c_cookie cn ->
  exists t', upd_conn t l g = Some t' /\ rep t' ls /\ put_conn t t' l (g cn) /\
    t_st t' = t_st t /\ t_ctx t' = t_ctx t /\ t_oom t' = t_oom t.
Proof.
  intros [Hh Hlru Ha Hm Hb] Hc Hk. unfold upd_conn. unfold conn_at in Hc.
  destruct (t_heap t !! l) as [n|] eqn:En; [|done]. cbn in Hc. simplify_eq.
  rewrite store_some by eauto. cbn [mbind option_bind]. pose proof (lookup_body _ _ _ En) as Hl.
  set (h1 := alter _ l (t_heap t)).
  assert (links h1 = links (t_heap t)) as HL by apply links_conn.
  assert (body h1 = put_body (g (n_conn n)) l (body (t_heap t))) as HB.
  { unfold body at 1. subst h1. rewrite (alter_fmap _ _ (fun e => (g e.1, e.2))) by done.
    apply map_eq. intros i. unfold put_body. destruct (decide (i = l)) as [->|].
    - rewrite !lookup_alter_eq. unfold body in *. by rewrite Hl.
    - by rewrite !lookup_alter_ne. }
  eexists. split; [done|]. split_and!; try done.
  - split; try done; cbn [t_heap upd t_nbuckets t_bucket t_lru_head t_lru_tail].
    + rewrite HB. by eapply hash_put.
    + by rewrite HL.
  - split_and!; try done; unfold conn_at; cbn [t_heap upd]; subst h1.
    + rewrite lookup_alter_eq, En. done.
    + intros x Hx. by rewrite lookup_alter_ne.
Qed.

(** ** Destroying an entry *)
Definition slot_of (s : slot) ch : slot := match last_or None ch with Some p => SNext p | None => s end.

Lemma find_slot_spec fuel t s b (ch1 ch2 : list loc) l :
  read_slot t s = Some b -> lseg (body (t_heap t)) b (ch1 ++ l :: ch2) None ->
  NoDup (ch1 ++ l :: ch2) -> (length ch1 <= fuel)%nat ->
  find_slot fuel t s l = Some (slot_of s ch1).
Proof.
  revert fuel s b. induction ch1 as [|x ch1 IH]; intros fuel s b Hs Hc Hnd Hf; cbn in *.
  - destruct Hc as [-> _]. destruct fuel; cbn; rewrite Hs; cbn; by rewrite decide_True.
  - destruct Hc as (-> & cn & hn & HB & Hc). apply NoDup_cons in Hnd as [Hx Hnd].
    destruct fuel as [|fuel]; [lia|]. cbn. rewrite Hs. cbn. rewrite decide_False by set_solver.
    rewrite (IH fuel (SNext x) hn); [|cbn|done..|lia].
    + unfold slot_of. rewrite last_or_cons. by destruct (last_or None ch1).
    + unfold body in HB. rewrite lookup_fmap in HB. destruct (t_heap t !! x); cbn in *; by simplify_eq.
Qed.

Lemma write_slot_spec t i ch1 (v : option loc) :
  (forall p, last_or None ch1 = Some p -> is_Some (t_heap t !! p)) ->
  exists t', write_slot t (slot_of (SBucket i) ch1) v = Some t' /\ same_cfg t t' /\
    links (t_heap t') = links (t_heap t) /\
    body (t_heap t') = set_hnext v (last_or None ch1) (body (t_heap t)) /\
    t_bucket t' = match ch1 with [] => <[i := v]> (t_bucket t) | _ => t_bucket t end /\
    t_lru_head t' = t_lru_head t /\ t_lru_tail t' = t_lru_tail t /\
    t_st t' = t_st t /\ t_ctx t' = t_ctx t /\ t_oom t' = t_oom t.
Proof.
  intros Hp. unfold slot_of. destruct ch1 as [|x ch1 _] using rev_ind; [by eexists|].
  rewrite last_or_snoc in *. cbn [write_slot]. rewrite store_some by auto. cbn [mbind option_bind].
  eexists. split; [done|]. split_and!; try done.
  - apply links_hnext.
  - by apply alter_fmap.
  - by destruct ch1.
Qed.

(** What [destroy] leaves of the other entries. *)
Definition dropped t t' l : Prop :=
  same_cfg t t' /\ conn_at t' l = None /\ (forall x, x <> l -> conn_at t' x = conn_at t x) /\
  t_oom t' = t_oom t.

(** What the hook makes of its context. *)
Definition hook_ctx t (cn : conn) : S :=
  match t_on_destroy t with Some fn => (fn (t_ctx t) cn).1 | None => t_ctx t end.

Lemma hook_spec t ls l (cn : conn) :
  rep t ls -> hook_ok t -> conn_at t l = Some cn ->
  exists t' cn', match t_on_destroy t with
      | Some fn => let '(ctx, cn') := fn (t_ctx t) cn in upd_conn (t <| t_ctx := ctx |>) l (fun _ => cn')
      | None => Some t
      end = Some t' /\ rep t' ls /\ put_conn t t' l cn' /\ c_cookie cn' = c_cookie cn /\
    c_flags cn' = c_flags cn /\ t_st t' = t_st t /\ t_oom t' = t_oom t /\ t_ctx t' = hook_ctx t cn.
Proof.
  intros Hr Hk Hc. unfold hook_ok, hook_ctx in *. destruct (t_on_destroy t) as [fn|] eqn:Efn.
  - destruct (fn (t_ctx t) cn) as [ctx cn'] eqn:E.
    pose proof (hook_cookie (t_ctx t) cn) as H1. pose proof (hook_flags (t_ctx t) cn) as H2.
    rewrite E in H1, H2. cbn in H1, H2.
    destruct (upd_conn_spec (t <| t_ctx := ctx |>) ls l cn (fun _ => cn')) as (t' & -> & Hr' & Hp & Hst & Hctx & Ho); try done.
    { by destruct Hr. }
    exists t', cn'. by split_and!.
  - exists t, cn. split_and!; try done.
Qed.

Lemma rep_chain_split t ls l (cn : conn) hn :
  rep t ls -> body (t_heap t) !! l = Some (cn, hn) ->
  exists b ch1 ch2, t_bucket t !! hash_index (t_nbuckets t) (c_cookie cn) = Some b /\
    lseg (body (t_heap t)) b (ch1 ++ l :: ch2) None /\ NoDup (ch1 ++ l :: ch2) /\
    (length ch1 <= size (t_heap t))%nat /\
    forall x, x ∈ ch1 ++ l :: ch2 <->
      in_bucket (t_nbuckets t) (body (t_heap t)) (hash_index (t_nbuckets t) (c_cookie cn)) x.
Proof.
  intros [[Hnb Hlen Hch Hinj] _ _ _ _] HB.
  pose proof (hash_index_lt (t_nbuckets t) (c_cookie cn) Hnb) as Hi. rewrite <- Hlen in Hi.
  apply lookup_lt_is_Some in Hi as [b Hb]. destruct (Hch _ _ Hb) as (ch & Hc & Hnd & Hin).
  destruct (list_elem_of_split ch l) as (ch1 & ch2 & ->). { apply Hin. by exists cn, hn. }
  exists b, ch1, ch2. split_and!; try done.
  pose proof (chain_length _ _ _ _ eq_refl Hc Hnd) as Hl. rewrite length_app in Hl. lia.
Qed.

Lemma set_hnext_conn v p (B : gmap loc (conn * option loc)) x cn :
  (exists hn, set_hnext v p B !! x = Some (cn, hn)) <-> exists hn, B !! x = Some (cn, hn).
Proof.
  destruct p as [p|]; [|done]. cbn. destruct (decide (x = p)) as [->|]; [|by rewrite lookup_alter_ne].
  rewrite lookup_alter_eq. destruct (B !! p) as [[]|]; cbn; naive_solver.
Qed.

(** Unlinking from both structures, before the memory goes. *)
Lemma detach_spec t (l1 l2 : list loc) l n :
  rep t (l1 ++ l :: l2) -> t_heap t !! l = Some n ->
  exists t', (s ← find_slot (size (t_heap t)) t
                (SBucket (hash_index (t_nbuckets t) (c_cookie (n_conn n)))) l;
              t ← write_slot t s (n_hnext n); lru_unlink t l) = Some t' /\
    same_cfg t t' /\ t_st t' = t_st t /\ t_ctx t' = t_ctx t /\ t_oom t' = t_oom t /\
    (forall x, conn_at t' x = conn_at t x) /\
    hash_rep (t_nbuckets t') (t_bucket t') (delete l (body (t_heap t'))) /\
    lru_rep (t_lru_head t') (t_lru_tail t') (delete l (links (t_heap t'))) (l1 ++ l2).
Proof.
  intros Hr Hn. pose proof (lookup_body _ _ _ Hn) as HB.
  destruct (rep_chain_split t _ l _ _ Hr HB) as (b & ch1 & ch2 & Hb & Hch & Hnd & Hlen & Hin).
  rewrite (find_slot_spec _ t (SBucket _) b ch1 ch2 l Hb Hch Hnd Hlen). cbn [mbind option_bind].
  destruct (write_slot_spec t (hash_index (t_nbuckets t) (c_cookie (n_conn n))) ch1 (n_hnext n))
    as (t2 & -> & Hcfg2 & HL2 & HB2 & Hbk2 & Hh2 & Ht2 & Hst2 & Hctx2 & Ho2).
  { intros p Hp%last_or_elem. apply body_is_Some. eapply lseg_elem; [exact Hch|].
    apply elem_of_app. by left. }
  cbn [mbind option_bind]. destruct Hr as [Hhash Hlru Hact Hmax Hbd].
  rewrite <- HL2, <- Hh2, <- Ht2 in Hlru.
  destruct (lru_unlink_spec t2 l1 l2 l Hlru) as (t3 & -> & Hon3 & Hs3 & Hh3 & Ht3).
  pose proof Hon3 as (Hcfg3 & HB3 & Hbk3 & Hctx3 & Hst3 & Ho3).
  exists t3. split; [done|]. split; [by trans t2|]. do 3 (split; [congruence|]). split; [|split].
  - intros x. apply option_eq. intros cn. rewrite !body_conn_at, HB3, HB2.
    apply set_hnext_conn.
  - rewrite HB3, HB2, Hbk3, Hbk2. destruct Hcfg3 as [-> _], Hcfg2 as [-> _].
    by eapply hash_remove.
  - destruct Hlru as [_ _ _ Hnd' Hdom]. rewrite <- Permutation_middle in Hnd'.
    apply NoDup_cons in Hnd' as [Hl Hnd']. split; try done; [by apply seg_delete_out|].
    intros x. specialize (Hdom x). rewrite <- Permutation_middle, elem_of_cons in Hdom.
    rewrite links_is_Some, <- (lru_only_dom t2 t3), <- links_is_Some in Hdom by done.
    destruct (decide (x = l)) as [->|]; [rewrite lookup_delete_eq|rewrite lookup_delete_ne by done].
    + split; [done|by intros []].
    + rewrite <- Hdom. tauto.
Qed.

Lemma destroy_spec t (l1 l2 : list loc) l (cn : conn) :
  rep t (l1 ++ l :: l2) -> hook_ok t -> conn_at t l = Some cn ->
  exists t', destroy t l = Some t' /\ rep t' (l1 ++ l2) /\ dropped t t' l /\ t_ctx t' = hook_ctx t cn /\
    t_st t' = t_st t <| ts_active ::= fun x => u32 (x - 1) |>
      <| ts_tls_active ::= fun x => if has_flag (c_flags cn) LK_CONN_TLS then u32 (x - 1) else x |>.
Proof.
  intros Hr Hk Hc. unfold destroy. pose proof Hc as Hc0. unfold conn_at in Hc0.
  destruct (t_heap t !! l) as [n|] eqn:En; [|done]. cbn in Hc0. injection Hc0 as Hc0. cbn [mbind option_bind].
  rewrite Hc0. destruct (hook_spec t _ l cn Hr Hk Hc) as (t1 & cn' & -> & Hr1 & Hp1 & Hck & Hfl & Hst1 & Ho1 & Hx1').
  destruct Hp1 as (Hcfg1 & Hl1 & Hx1). cbn [mbind option_bind]. pose proof Hl1 as Hl1'. unfold conn_at in Hl1'.
  destruct (t_heap t1 !! l) as [n1|] eqn:En1; [|done]. cbn [mbind option_bind].
  destruct (detach_spec t1 l1 l2 l n1 Hr1 En1) as (t3 & E3 & Hcfg3 & Hst3 & Hctx3 & Ho3 & Hc3 & Hhash & Hlru).
  destruct (find_slot _ t1 _ l) as [sl|]; [|done]. cbn [mbind option_bind] in E3 |- *.
  destruct (write_slot t1 sl _) as [t2|]; [|done]. cbn [mbind option_bind] in E3 |- *. rewrite E3.
  cbn [mbind option_bind]. specialize (Hc3 l) as Hc3l. rewrite Hl1 in Hc3l. unfold conn_at in Hc3l.
  destruct (t_heap t3 !! l) as [n3|] eqn:En3; [|done]. cbn in Hc3l. injection Hc3l as Hc3l. cbn [mbind option_bind].
  rewrite Hc3l, Hfl. destruct Hr as [_ _ Hact Hmax Hbd]. rewrite zlen_app, zlen_cons in Hact, Hbd.
  pose proof (zlen_nonneg l1). pose proof (zlen_nonneg l2).
  destruct Hcfg1 as (E1&E2&E3'&E4&E5&E6), Hcfg3 as (D1&D2&D3&D4&D5&D6).
  eexists. split; [done|]. split; [|split; [|split]].
  - destruct (has_flag (c_flags cn) LK_CONN_TLS); split; cbn; rewrite ?Hst3, ?Hst1, ?D2, ?E2, ?zlen_app;
      unfold body, links; rewrite ?fmap_delete; try done; try lia; rewrite Hact, u32_small; lia.
  - unfold dropped, same_cfg, conn_at.
    destruct (has_flag (c_flags cn) LK_CONN_TLS); (split_and!; cbn; try congruence;
      [by rewrite lookup_delete_eq|intros x Hx; rewrite lookup_delete_ne by done;
       transitivity (conn_at t1 x); [apply Hc3|by apply Hx1]]).
  - destruct (has_flag (c_flags cn) LK_CONN_TLS); cbn; congruence.
  - destruct (has_flag (c_flags cn) LK_CONN_TLS); cbn; rewrite Hst3, Hst1; by destruct (t_st t).
Qed.

(** ** The entries in recency order *)
Definition view t ls : list conn := omap (conn_at t) ls.

Lemma view_ext t t' ls : (forall x, x ∈ ls -> conn_at t' x = conn_at t x) -> view t' ls = view t ls.
Proof.
  induction ls as [|x ls IH]; intros H; [done|]. cbn. rewrite H by left.
  change (omap (conn_at t') ls) with (view t' ls). rewrite IH; [done|]. intros y Hy. apply H. by right.
Qed.
Lemma view_app t (l1 l2 : list loc) : view t (l1 ++ l2) = view t l1 ++ view t l2.
Proof. apply omap_app. Qed.
Lemma view_cons t l ls cn : conn_at t l = Some cn -> view t (l :: ls) = cn :: view t ls.
Proof. intros H. cbn. by rewrite H. Qed.
Lemma view_elem t ls cn : cn ∈ view t ls <-> exists l, l ∈ ls /\ conn_at t l = Some cn.
Proof. apply list_elem_of_omap. Qed.

Lemma view_length t ls : rep t ls -> zlen (view t ls) = zlen ls.
Proof.
  intros Hr. assert (forall l, l ∈ ls -> is_Some (conn_at t l)) as Hin
    by (intros l Hl; by apply (rep_conn t ls l Hr)).
  clear Hr. induction ls as [|x ls IH]; [done|]. destruct (Hin x) as [cn Hc]; [left|].
  rewrite (view_cons _ _ _ cn Hc), !zlen_cons, IH; [done|]. intros y Hy. apply Hin. by right.
Qed.

Lemma rep_inj t ls l l' cn cn' :
  rep t ls -> conn_at t l = Some cn -> conn_at t l' = Some cn' -> c_cookie cn = c_cookie cn' -> l = l'.
Proof. intros [[] _ _ _ _] [h Hl]%body_conn_at [h' Hl']%body_conn_at. eauto. Qed.

Definition keyed (cookie : Z) (c : conn) : bool := c_cookie c =? cookie.
Definition a_remove (cookie : Z) (l : list conn) : list conn := List.filter (fun c => negb (keyed cookie c)) l.

Lemma find_view t ls l cn :
  rep t ls -> conn_at t l = Some cn -> List.find (keyed (c_cookie cn)) (view t ls) = Some cn.
Proof.
  intros Hr Hc. destruct (List.find _ _) as [c'|] eqn:E.
  - apply find_some in E as [Hin%list_elem_of_In Hk]. unfold keyed in Hk.
    apply view_elem in Hin as (l' & _ & Hc'). assert (l' = l) as -> by (eapply rep_inj; eauto; lia). congruence.
  - assert (In cn (view t ls)) as Hin.
    { apply list_elem_of_In, view_elem. exists l. split; [|done]. eapply rep_conn; eauto. }
    apply (find_none _ _ E) in Hin. unfold keyed in Hin. lia.
Qed.
Lemma find_view_none t ls cookie :
  (forall l cn, conn_at t l = Some cn -> c_cookie cn <> cookie) ->
  List.find (keyed cookie) (view t ls) = None.
Proof.
  intros H. destruct (List.find _ _) as [c'|] eqn:E; [|done].
  apply find_some in E as [Hin%list_elem_of_In Hk]. unfold keyed in Hk.
  apply view_elem in Hin as (l' & _ & Hc'). apply H in Hc'. lia.
Qed.

Lemma remove_view t (l1 l2 : list loc) l cn :
  rep t (l1 ++ l :: l2) -> conn_at t l = Some cn ->
  a_remove (c_cookie cn) (view t (l1 ++ l :: l2)) = view t (l1 ++ l2).
Proof.
  intros Hr Hc. assert (forall ls, l ∉ ls -> a_remove (c_cookie cn) (view t ls) = view t ls) as Hid.
  { induction ls as [|x ls IH]; intros Hl; [done|]. apply not_elem_of_cons in Hl as [Hx Hl].
    unfold view. cbn. destruct (conn_at t x) as [cx|] eqn:Ex; [|by apply IH]. cbn.
    replace (keyed (c_cookie cn) cx) with false.
    - cbn. f_equal. by apply IH.
    - symmetry. unfold keyed. apply Z.eqb_neq. intros Ek. apply Hx. eapply rep_inj; eauto. }
  pose proof (lr_nodup _ _ _ _ (rp_lru _ _ Hr)) as Hnd. rewrite <- Permutation_middle in Hnd.
  apply NoDup_cons in Hnd as [[Hn1 Hn2]%not_elem_of_app _].
  rewrite !view_app, (view_cons _ _ _ cn Hc). unfold a_remove. rewrite List.filter_app. cbn.
  unfold keyed at 2. rewrite Z.eqb_refl. cbn. f_equal; by apply Hid.
Qed.

(** The TLS gauge counts the entries carrying LK_CONN_TLS. *)
Definition is_tls (c : conn) : bool := has_flag (c_flags c) LK_CONN_TLS.
Definition tls_count (l : list conn) : Z := zlen (List.filter is_tls l).
Definition tls_exact t ls : Prop := ts_tls_active (t_st t) = tls_count (view t ls).

Lemma tls_count_cons c (l : list conn) : tls_count (c :: l) = (if is_tls c then 1 else 0) + tls_count l.
Proof. unfold tls_count. cbn. destruct (is_tls c); [rewrite zlen_cons|]; lia. Qed.
Lemma tls_count_app (l1 l2 : list conn) : tls_count (l1 ++ l2) = tls_count l1 + tls_count l2.
Proof. unfold tls_count. by rewrite List.filter_app, zlen_app. Qed.
Lemma tls_count_bound (l : list conn) : 0 <= tls_count l <= zlen l.
Proof.
  induction l as [|c l IH]; [done|]. rewrite tls_count_cons, zlen_cons. destruct (is_tls c); lia.
Qed.

(** Dropping an entry, with the gauge maintained. *)
Lemma tls_exact_drop t t' (l1 l2 : list loc) l cn :
  rep t (l1 ++ l :: l2) -> conn_at t l = Some cn -> view t' (l1 ++ l2) = view t (l1 ++ l2) ->
  ts_tls_active (t_st t') = (if is_tls cn then u32 (ts_tls_active (t_st t) - 1) else ts_tls_active (t_st t)) ->
  tls_exact t (l1 ++ l :: l2) -> tls_exact t' (l1 ++ l2).
Proof.
  intros Hr Hc Hv Hst. unfold tls_exact. rewrite Hst, Hv, !view_app, (view_cons _ _ _ cn Hc).
  rewrite !tls_count_app, tls_count_cons. pose proof Hr as [_ _ _ Hm Hb]. rewrite <- (view_length _ _ Hr) in Hb.
  rewrite view_app, (view_cons _ _ _ cn Hc), zlen_app, zlen_cons in Hb.
  pose proof (tls_count_bound (view t l1)). pose proof (tls_count_bound (view t l2)).
  intros ->. destruct (is_tls cn); [rewrite u32_small|]; lia.
Qed.

(** ** Rewriting an entry and moving it to the front *)
Lemma bump_rep t ls f : rep t ls -> (forall s, ts_active (f s) = ts_active s) -> rep (ct_bump t f) ls.
Proof. intros [] Hf. split; cbn; try done. by rewrite Hf. Qed.

Lemma refresh_spec t (l1 l2 : list loc) l cn g :
  rep t (l1 ++ l :: l2) -> conn_at t l = Some cn -> c_cookie (g cn) = c_cookie cn ->
  exists t', (t ← upd_conn t l g; lru_front t l) = Some t' /\ rep t' (l :: l1 ++ l2) /\ same_cfg t t' /\
    conn_at t' l = Some (g cn) /\ view t' (l :: l1 ++ l2) = g cn :: view t (l1 ++ l2) /\
    t_st t' = t_st t /\ t_ctx t' = t_ctx t /\ t_oom t' = t_oom t.
Proof.
  intros Hr Hc Hk. destruct (upd_conn_spec t _ l cn g Hr Hc Hk) as (t1 & -> & Hr1 & (Hcfg & Hl & Hx) & Hst & Hctx & Ho).
  cbn [mbind option_bind]. destruct (lru_front_spec t1 l1 l2 l (rp_lru _ _ Hr1)) as (t2 & -> & Hon & Hlru).
  pose proof Hon as (Hcfg2 & HB2 & Hbk2 & Hctx2 & Hst2 & Ho2).
  assert (forall x, conn_at t2 x = conn_at t1 x) as Hc2.
  { intros x. apply option_eq. intros c'. by rewrite !body_conn_at, HB2. }
  exists t2. split; [done|]. split; [|split; [by trans t1|split; [by rewrite Hc2|split; [|split_and!; congruence]]]].
  - destruct Hr1 as [Hh _ Ha Hm Hb]. destruct Hcfg2 as (E1 & E2 & _).
    rewrite zlen_app, zlen_cons in Ha, Hb.
    split; rewrite ?HB2, ?Hbk2, ?E1, ?E2, ?Hst2, ?zlen_cons, ?zlen_app; try done; lia.
  - rewrite (view_cons _ _ _ (g cn)) by by rewrite Hc2. f_equal. apply view_ext. intros x Hxin.
    rewrite Hc2. apply Hx. intros ->. pose proof (lr_nodup _ _ _ _ (rp_lru _ _ Hr)) as Hnd.
    rewrite <- Permutation_middle in Hnd. by apply NoDup_cons in Hnd as [? _].
Qed.

(** ** Creating an entry *)
Lemma hash_insert nb bucket B l (cn : conn) b (i := hash_index nb (c_cookie cn)) :
  hash_rep nb bucket B -> B !! l = None -> bucket !! i = Some b ->
  (forall x cx hx, B !! x = Some (cx, hx) -> c_cookie cx <> c_cookie cn) ->
  hash_rep nb (<[i := Some l]> bucket) (<[l := (cn, b)]> B).
Proof.
  intros [Hnb Hlen Hch Hinj] Hl Hb Hnew.
  assert (forall j x, in_bucket nb (<[l := (cn, b)]> B) j x <-> x = l /\ j = i \/ in_bucket nb B j x) as Hib.
  { intros j x. unfold in_bucket. destruct (decide (x = l)) as [->|].
    - rewrite lookup_insert_eq, Hl. split; [intros (? & ? & [= <- <-] & <-); by left|].
      intros [[_ ->]|(? & ? & ? & _)]; [by exists cn, b|done].
    - rewrite lookup_insert_ne by done. split; [by right|by intros [[? _]|?]]. }
  assert (forall b' ch, lseg B b' ch None -> lseg (<[l := (cn, b)]> B) b' ch None /\ l ∉ ch) as Hkeep.
  { intros b' ch Hc. assert (l ∉ ch) as Hn.
    { intros Hin. destruct (lseg_elem _ _ _ _ _ Hc Hin) as [? ?]. congruence. }
    split; [|done]. eapply lseg_ext; [|done]. intros x Hx. apply lookup_insert_ne. by intros ->. }
  split; [done|by rewrite length_insert| |].
  - intros j b' [[<- ->]|[Hne Hj]]%bucket_slot.
    + destruct (Hch _ _ Hb) as (ch & Hc & Hnd & Hin). apply Hkeep in Hc as [Hc Hn]. exists (l :: ch). split_and!.
      * cbn. split; [done|]. exists cn, b. by rewrite lookup_insert_eq.
      * by apply NoDup_cons.
      * intros x. rewrite Hib, elem_of_cons, Hin. split; [intros [?|?]; auto|intros [[? _]|?]; auto].
    + destruct (Hch _ _ Hj) as (ch & Hc & Hnd & Hin). apply Hkeep in Hc as [Hc Hn]. exists ch. split_and!; try done.
      intros x. rewrite Hib, Hin. split; [by right|by intros [[_ ?]|?]].
  - intros x y cx hx cy hy Hx Hy E. destruct (decide (x = l)) as [->|], (decide (y = l)) as [->|];
      rewrite ?lookup_insert_eq, ?lookup_insert_ne in Hx by done;
      rewrite ?lookup_insert_eq, ?lookup_insert_ne in Hy by done; simplify_eq; try done.
    + by apply Hnew in Hy.
    + by apply Hnew in Hx.
    + eauto.
Qed.

Definition new_conn (cookie seq ts_ns : Z) : conn :=
  conn0 cookie <| c_last_seq := seq |> <| c_last_activity_ns := ts_ns |>.
Definition a_evict (max : Z) (l : list conn) : list conn := if max <=? zlen l then removelast l else l.
Definition calloc_ok t : bool := match t_oom t with [] => true | fails :: _ => negb fails end.

(** The ceiling. *)
Lemma evict_spec t ls :
  rep t ls -> hook_ok t ->
  exists t' ls', match t_lru_tail t with
      | Some tail =>
          if t_max_conns t <=? ts_active (t_st t)
          then t ← destroy t tail; Some (ct_bump t (fun s => s <| ts_evicted_lru ::= inc64 |>))
          else Some t
      | None => Some t
      end = Some t' /\ rep t' ls' /\ same_cfg t t' /\ zlen ls' < t_max_conns t /\
    view t' ls' = a_evict (t_max_conns t) (view t ls) /\
    (forall x cn, conn_at t' x = Some cn -> conn_at t x = Some cn) /\ t_oom t' = t_oom t /\
    (tls_exact t ls -> tls_exact t' ls').
Proof.
  intros Hr Hk. pose proof Hr as [_ [_ _ Htl _ _] Hact Hmax Hbd].
  unfold a_evict. rewrite (view_length _ _ Hr). rewrite Htl, Hact.
  destruct ls as [|tl l1 _] using rev_ind.
  { exists t, []. cbn -[Z.leb]. destruct (Z.leb_spec (t_max_conns t) (zlen (@nil loc))) as [H|H]; [|by split_and!].
    change (zlen (@nil loc)) with 0 in H. lia. }
  rewrite last_or_snoc. destruct (Z.leb_spec (t_max_conns t) (zlen (l1 ++ [tl]))) as [Hge|Hlt]; [|by exists t, (l1 ++ [tl])].
  destruct (proj1 (rep_conn t _ tl Hr)) as [cn Hc]; [apply elem_of_app; right; left|].
  destruct (destroy_spec t l1 [] tl cn Hr Hk Hc) as (t1 & -> & Hr1 & (Hcfg & Hd & Hx & Ho) & _ & Hst).
  cbn [mbind option_bind]. rewrite app_nil_r in Hr1. eexists _, l1. split; [done|].
  split; [by apply bump_rep|]. split; [done|]. split.
  { rewrite zlen_app, zlen_cons, zlen_nil in Hbd. lia. }
  assert (tl ∉ l1) as Hnin.
  { pose proof (lr_nodup _ _ _ _ (rp_lru _ _ Hr)) as (_ & Hnd & _)%NoDup_app. intros Hin.
    apply (Hnd tl Hin). left. }
  split_and!; [|intros x cx Hcx; rewrite <- Hx; [done|]; intros ->; unfold conn_at in *; cbn in *; congruence|done|].
  - rewrite view_app, (view_cons _ _ _ cn Hc). change (view t []) with (@nil conn). rewrite removelast_last.
    apply view_ext. intros x Hxin. apply Hx. by intros ->.
  - intros He. rewrite <- (app_nil_r l1). apply (tls_exact_drop t _ l1 [] tl cn Hr Hc); [|cbn; by rewrite Hst|done].
    rewrite app_nil_r. apply view_ext. intros x Hxin. apply Hx. by intros ->.
Qed.

(** Allocating the node and linking it into both structures. *)
Lemma insert_spec t ls (cn : conn) (l := fresh (dom (t_heap t)))
    (i := hash_index (t_nbuckets t) (c_cookie cn)) :
  rep t ls -> zlen ls < t_max_conns t ->
  (forall x cx, conn_at t x = Some cx -> c_cookie cx <> c_cookie cn) ->
  exists t', (b ← t_bucket t !! i;
              t ← write_slot (t <| t_heap ::= <[l := Node cn b None None]> |>) (SBucket i) (Some l);
              t ← lru_push_front t l;
              Some (Some l, ct_bump t (fun s => s <| ts_created ::= inc64 |>
                                                  <| ts_active ::= fun x => u32 (x + 1) |>)))
    = Some (Some l, t') /\ rep t' (l :: ls) /\ same_cfg t t' /\ conn_at t' l = Some cn /\
    view t' (l :: ls) = cn :: view t ls /\ t_oom t' = t_oom t /\
    ts_tls_active (t_st t') = ts_tls_active (t_st t).
Proof.
  intros [Hh Hlru Hact Hmax Hbd] Hlt Hnew. pose proof Hh as [Hnb Hlen _ _].
  pose proof (hash_index_lt (t_nbuckets t) (c_cookie cn) Hnb) as Hi. rewrite <- Hlen in Hi.
  apply lookup_lt_is_Some in Hi as [b Hb]. fold i in Hb. rewrite Hb. cbn [mbind option_bind write_slot].
  assert (t_heap t !! l = None) as Hl by (apply not_elem_of_dom, is_fresh).
  set (h1 := <[l := Node cn b None None]> (t_heap t)).
  set (t1 := t <| t_heap ::= <[l := Node cn b None None]> |> <| t_bucket ::= <[i := Some l]> |>).
  change (t <| t_heap ::= _ |> <| t_bucket ::= _ |>) with t1.
  assert (links h1 = <[l := (None, None)]> (links (t_heap t))) as HL by (unfold links; subst h1; by rewrite fmap_insert).
  assert (body h1 = <[l := (cn, b)]> (body (t_heap t))) as HB by (unfold body; subst h1; by rewrite fmap_insert).
  pose proof Hlru as [Hs Hhd Htl Hnd Hdom].
  assert (l ∉ ls) as Hnl. { rewrite Hdom, links_is_Some, Hl. by intros []. }
  destruct (lru_push_spec t1 l ls) as (t2 & -> & Hon & Hs2 & Hh2 & Ht2); cbn [t1 t_heap t_lru_head t_lru_tail upd];
    try done; fold h1.
  { rewrite HL. by apply seg_insert_out. }
  { by apply NoDup_cons. }
  { subst h1. rewrite lookup_insert_eq. by eexists. }
  { intros x Hx. subst h1. rewrite lookup_insert_ne by (by intros ->). by apply links_is_Some, Hdom. }
  pose proof Hon as (Hcfg & HB2 & Hbk2 & Hctx2 & Hst2 & Ho2). change (t_heap t1) with h1 in HB2. cbn [mbind option_bind].
  assert (forall x, x <> l -> conn_at t2 x = conn_at t x) as Hx.
  { intros x Hx. apply option_eq. intros c'. rewrite !body_conn_at, HB2, HB. by rewrite lookup_insert_ne. }
  assert (conn_at t2 l = Some cn) as Hcl by (apply body_conn_at; rewrite HB2, HB, lookup_insert_eq; eauto).
  eexists. split; [done|]. split_and!; try done.
  - destruct Hcfg as (E1 & E2 & _). pose proof (zlen_nonneg ls).
    split; cbn [t_heap t_bucket t_nbuckets t_lru_head t_lru_tail t_st t_max_conns ts_active ct_bump upd].
    + rewrite HB2, HB, Hbk2, E1. apply hash_insert; try done.
      { unfold body. by rewrite lookup_fmap, Hl. }
      intros x cx hx Hx'. apply (Hnew x). apply body_conn_at. eauto.
    + split; try done; [by apply NoDup_cons|]. intros x.
      rewrite links_is_Some, (lru_only_dom t1 t2) by done. change (t_heap t1) with h1.
      rewrite <- links_is_Some, HL, elem_of_cons, Hdom. rewrite lookup_insert_is_Some.
      destruct (decide (l = x)) as [Ex|Ex].
      * split; [by left|intros _; by left].
      * split; [intros [?|?]; [congruence|by right]|intros [?|[_ ?]]; [done|by right]].
    + rewrite Hst2, zlen_cons. cbn. rewrite Hact, u32_small; lia.
    + rewrite E2. done.
    + rewrite E2, zlen_cons. cbn. lia.
  - rewrite (view_cons _ _ _ cn) by done. f_equal. apply view_ext. intros x Hxin.
    apply Hx. by intros ->.
  - cbn. by rewrite Hst2.
Qed.

Lemma create_spec t ls cookie seq ts :
  rep t ls -> hook_ok t -> (forall l cn, conn_at t l = Some cn -> c_cookie cn <> cookie) ->
  exists r t' ls', create t cookie seq ts = Some (r, t') /\ rep t' ls' /\ same_cfg t t' /\
    t_oom t' = tail (t_oom t) /\ (tls_exact t ls -> tls_exact t' ls') /\
    if calloc_ok t then exists l, r = Some l /\ conn_at t' l = Some (new_conn cookie seq ts) /\ l ∈ ls' /\
        view t' ls' = new_conn cookie seq ts :: a_evict (t_max_conns t) (view t ls)
    else r = None /\ view t' ls' = a_evict (t_max_conns t) (view t ls).
Proof.
  intros Hr Hk Hnew. destruct (evict_spec t ls Hr Hk) as (t1 & l1 & E1 & Hr1 & Hcfg1 & Hlt & Hv1 & Hsub & Ho1 & Htls1).
  unfold create. rewrite E1. cbn [mbind option_bind]. unfold calloc, calloc_ok. rewrite Ho1.
  set (ok := match t_oom t with [] => true | f :: _ => negb f end).
  set (t1' := match t_oom t with [] => t1 | _ :: rest => t1 <| t_oom := rest |> end).
  replace (match t_oom t with [] => (true, t1) | f :: rest => (negb f, t1 <| t_oom := rest |>) end)
    with (ok, t1') by (subst ok t1'; by destruct (t_oom t)).
  assert (rep t1' l1 /\ same_cfg t t1' /\ view t1' l1 = view t1 l1 /\ t_heap t1' = t_heap t1 /\ t_st t1' = t_st t1 /\ t_oom t1' = tail (t_oom t))
    as (Hr1' & Hcfg1' & Hv1' & Hh1' & Hst1' & Ho1').
  { subst t1'. destruct (t_oom t); (split_and!; try done; by destruct Hr1). }
  clearbody ok t1'. destruct ok; cbn [negb]; [|exists None, t1', l1; unfold tls_exact in *; rewrite Hv1', Hst1'; by split_and!].
  destruct (insert_spec t1' l1 (new_conn cookie seq ts) Hr1') as (t2 & E2 & Hr2 & Hcfg2 & Hc2 & Hv2 & Ho2 & Htls2).
  { by destruct Hcfg1' as (_ & -> & _). }
  { intros x cx Hx. apply (Hnew x), Hsub. unfold conn_at in *. by rewrite Hh1' in Hx. }
  eexists _, t2, _. split; [exact E2|]. split_and!; [done|by trans t1'|congruence| |].
  { intros He%Htls1. unfold tls_exact in *. by rewrite Htls2, Hst1', Hv2, Hv1', tls_count_cons. }
  eexists. split_and!; [done|done|left|]. by rewrite Hv2, Hv1', Hv1.
Qed.
End Ops.
