(* ===== verification/ConnTableProps.v ===== *)
(** The table's contract: a bounded LRU cache of connections keyed by cookie.

    [AbsTable] gives each operation's meaning on the recency-ordered list of
    entries; the theorems say the pointer code computes it, never dereferences
    a NULL or freed pointer, and always terminates. *)
From stdpp Require Import base list option gmap.
From S2P Require Import Prelude Conn ConnTable ConnTableFacts ConnTableOps.
#[local] Open Scope Z_scope.

Module AbsTable.
Section Abs.
Context {P F : Type}.
Abbreviation conn := (lk_conn P F).
Implicit Types (c : conn) (l : list conn).

(** Entries, most recently touched first. *)
Definition a_touch (cookie : Z) (c : conn) l : list conn := c :: a_remove cookie l.

(** An event on [cookie]: the entry (if any), the events lost, the entries after.
    [touch] rewrites a known entry, [fresh] a new one; [ok] is calloc's outcome. *)
Definition a_event (max : Z) (ok : bool) (cookie : Z) (touch : conn -> Z * conn) (fresh : conn) l :
    option conn * Z * list conn :=
  match List.find (keyed cookie) l with
  | Some c => let '(lost, c) := touch c in (Some c, lost, a_touch cookie c l)
  | None => if ok then (Some fresh, 0, fresh :: a_evict max l) else (None, 0, a_evict max l)
  end.

Definition a_close (cookie : Z) (seq ts : Z) l : Z * list conn :=
  match List.find (keyed cookie) l with
  | Some c => ((touch_conn c seq ts).1, a_remove cookie l)
  | None => (0, l)
  end.

(** The idle sweep drops the longest idle tail. *)
Definition idle (timeout now : Z) (c : conn) : bool := u64 (c_last_activity_ns c + timeout) <=? now.
Fixpoint drop_while {A} (f : A -> bool) (l : list A) : list A :=
  match l with [] => [] | x :: l => if f x then drop_while f l else x :: l end.
Definition a_sweep (timeout now : Z) l : list conn := rev (drop_while (idle timeout now) (rev l)).
End Abs.
End AbsTable.
Import AbsTable.

Section Props.
Context {S P F : Type}.
Abbreviation conn := (lk_conn P F).
Abbreviation table := (lk_conn_table S P F).
Implicit Types (t : table) (l : loc) (ls : list loc).

Lemma touch_conn_id (c : conn) seq ts :
  c_cookie (touch_conn c seq ts).2 = c_cookie c /\ c_flags (touch_conn c seq ts).2 = c_flags c.
Proof. unfold touch_conn. destruct (u32 _ <? seq); cbn; by destruct (_ <? seq). Qed.
Lemma touch_tls_id (c : conn) seq ts :
  c_cookie (touch_tls_conn c seq ts).2 = c_cookie c /\ c_flags (touch_tls_conn c seq ts).2 = c_flags c.
Proof.
  unfold touch_tls_conn. destruct (negb _); [|destruct (u32 _ <? seq)]; cbn; by destruct (_ <? seq).
Qed.

(** The common tail of [touch] and [touch_tls]. *)
Lemma touch_gen t (l1 l2 : list loc) l cn cn' gap lost :
  rep t (l1 ++ l :: l2) -> conn_at t l = Some cn -> c_cookie cn' = c_cookie cn -> c_flags cn' = c_flags cn ->
  exists t', (t ← upd_conn (count_gap t gap lost) l (fun _ => cn'); t ← lru_front t l; Some (lost, t)) =
      Some (lost, t') /\ rep t' (l :: l1 ++ l2) /\ same_cfg t t' /\ conn_at t' l = Some cn' /\
    view t' (l :: l1 ++ l2) = cn' :: view t (l1 ++ l2) /\ t_oom t' = t_oom t /\ t_ctx t' = t_ctx t /\
    (tls_exact t (l1 ++ l :: l2) -> tls_exact t' (l :: l1 ++ l2)).
Proof.
  intros Hr Hc Hk Hfl. set (t1 := count_gap t gap lost).
  assert (rep t1 (l1 ++ l :: l2) /\ same_cfg t t1 /\ t_heap t1 = t_heap t /\ t_oom t1 = t_oom t /\
    t_ctx t1 = t_ctx t /\ ts_tls_active (t_st t1) = ts_tls_active (t_st t)) as (Hr1 & Hcfg & Hh & Ho & Hx & Htls).
  { subst t1. unfold count_gap. destruct gap; [|done]. split; [by apply bump_rep|done]. }
  assert (forall x, conn_at t1 x = conn_at t x) as Hca by (intros; unfold conn_at; by rewrite Hh).
  destruct (refresh_spec t1 l1 l2 l cn (fun _ => cn') Hr1)
    as (t2 & E2 & Hr2 & Hcfg2 & Hc2 & Hv2 & Hst2 & Hctx2 & Ho2); [by rewrite Hca|done|].
  destruct (upd_conn t1 l _) as [t1'|]; [|done]. cbn [mbind option_bind] in E2 |- *. rewrite E2.
  cbn [mbind option_bind]. exists t2. split; [done|].
  assert (view t1 (l1 ++ l2) = view t (l1 ++ l2)) as Hv by (apply view_ext; intros; apply Hca).
  split_and!; [done|by trans t1|done|by rewrite Hv2, Hv|congruence|congruence|].
  unfold tls_exact. rewrite Hv2, Hst2, Htls, Hv, !view_app, (view_cons _ _ _ cn Hc).
  rewrite tls_count_cons, !tls_count_app, tls_count_cons. unfold is_tls. rewrite Hfl. lia.
Qed.

Lemma touch_spec t (l1 l2 : list loc) l cn seq ts :
  rep t (l1 ++ l :: l2) -> conn_at t l = Some cn ->
  exists t', touch t l seq ts = Some ((touch_conn cn seq ts).1, t') /\ rep t' (l :: l1 ++ l2) /\
    same_cfg t t' /\ conn_at t' l = Some (touch_conn cn seq ts).2 /\
    view t' (l :: l1 ++ l2) = (touch_conn cn seq ts).2 :: view t (l1 ++ l2) /\ t_oom t' = t_oom t /\
    t_ctx t' = t_ctx t /\ (tls_exact t (l1 ++ l :: l2) -> tls_exact t' (l :: l1 ++ l2)).
Proof.
  intros Hr Hc. unfold touch. rewrite Hc. cbn [mbind option_bind].
  destruct (touch_conn_id cn seq ts) as [Hk Hfl]. destruct (touch_conn cn seq ts) as [lost cn'].
  by apply (touch_gen t l1 l2 l cn cn').
Qed.
Lemma touch_tls_spec t (l1 l2 : list loc) l cn seq ts :
  rep t (l1 ++ l :: l2) -> conn_at t l = Some cn ->
  exists t', touch_tls t l seq ts = Some ((touch_tls_conn cn seq ts).1, t') /\ rep t' (l :: l1 ++ l2) /\
    same_cfg t t' /\ conn_at t' l = Some (touch_tls_conn cn seq ts).2 /\
    view t' (l :: l1 ++ l2) = (touch_tls_conn cn seq ts).2 :: view t (l1 ++ l2) /\ t_oom t' = t_oom t /\
    t_ctx t' = t_ctx t /\ (tls_exact t (l1 ++ l :: l2) -> tls_exact t' (l :: l1 ++ l2)).
Proof.
  intros Hr Hc. unfold touch_tls. rewrite Hc. cbn [mbind option_bind].
  destruct (touch_tls_id cn seq ts) as [Hk Hfl]. destruct (touch_tls_conn cn seq ts) as [lost cn'].
  by apply (touch_gen t l1 l2 l cn cn').
Qed.

(** A fresh entry is initialised in place. *)
Lemma init_spec t ls l cn (g : conn -> conn) :
  rep t ls -> conn_at t l = Some cn -> c_cookie (g cn) = c_cookie cn ->
  forall rest, view t ls = cn :: rest ->
  exists t', upd_conn t l g = Some t' /\ rep t' ls /\ same_cfg t t' /\ conn_at t' l = Some (g cn) /\
    view t' ls = g cn :: rest /\ t_oom t' = t_oom t /\
    (is_tls (g cn) = is_tls cn -> tls_exact t ls -> tls_exact t' ls).
Proof.
  intros Hr Hc Hk rest Hv. destruct (upd_conn_spec t ls l cn g Hr Hc Hk)
    as (t' & E & Hr' & (Hcfg & Hl & Hx) & Hst & _ & Ho).
  exists t'. split; [done|].
  cut (view t' ls = g cn :: rest).
  { intros Hv'. split_and!; try done. unfold tls_exact. rewrite Hst, Hv', Hv, !tls_count_cons. by intros ->. }
  assert (l ∈ ls) as Hin by (eapply rep_conn; eauto).
  destruct ls as [|y ls]; [by apply not_elem_of_nil in Hin|].
  destruct (proj1 (rep_conn _ _ y Hr)) as [cy Hy]; [left|]. rewrite (view_cons _ _ _ cy Hy) in Hv.
  injection Hv as -> Hv. assert (y = l) as -> by (eapply (rep_inj t); [exact Hr|exact Hy|exact Hc|done]). rewrite (view_cons _ _ _ _ Hl).
  f_equal. rewrite <- Hv. apply view_ext. intros x Hxin. apply Hx. intros ->.
  pose proof (lr_nodup _ _ _ _ (rp_lru _ _ Hr)) as [? _]%NoDup_cons. done.
Qed.

(** One event of any kind against the table. *)
Section Event.
Context (cookie seq ts : Z).

Lemma event_spec t ls (tch : table -> loc -> option (Z * table)) (tconn : conn -> Z * conn)
    (ini : table -> loc -> option table) (g : conn -> conn) :
  rep t ls -> hook_ok t ->
  (forall t (l1 l2 : list loc) l cn, rep t (l1 ++ l :: l2) -> conn_at t l = Some cn ->
    exists t', tch t l = Some ((tconn cn).1, t') /\ rep t' (l :: l1 ++ l2) /\ same_cfg t t' /\
      conn_at t' l = Some (tconn cn).2 /\ view t' (l :: l1 ++ l2) = (tconn cn).2 :: view t (l1 ++ l2) /\
      t_oom t' = t_oom t /\ t_ctx t' = t_ctx t /\
      (tls_exact t (l1 ++ l :: l2) -> tls_exact t' (l :: l1 ++ l2))) ->
  (forall t1 ls1 l rest, same_cfg t t1 -> rep t1 ls1 -> conn_at t1 l = Some (new_conn cookie seq ts) ->
    view t1 ls1 = new_conn cookie seq ts :: rest ->
    exists t', ini t1 l = Some t' /\ rep t' ls1 /\ same_cfg t1 t' /\
      conn_at t' l = Some (g (new_conn cookie seq ts)) /\ view t' ls1 = g (new_conn cookie seq ts) :: rest /\
      (tls_exact t1 ls1 -> tls_exact t' ls1)) ->
  exists r lost t' ls',
    (o ← lookup t cookie;
     match o with
     | Some c => '(lost, t) ← tch t c; Some (Some c, lost, t)
     | None => '(r, t) ← create t cookie seq ts;
               match r with
               | None => Some (None, 0, t)
               | Some c => t ← ini t c; Some (Some c, 0, t)
               end
     end) = Some (r, lost, t') /\ rep t' ls' /\ same_cfg t t' /\ (tls_exact t ls -> tls_exact t' ls') /\
    (forall c, r = Some c -> is_Some (conn_at t' c)) /\
    (r ≫= conn_at t', lost, view t' ls') =
      a_event (t_max_conns t) (calloc_ok t) cookie tconn (g (new_conn cookie seq ts)) (view t ls).
Proof.
  intros Hr Hk Htch Hini. destruct (lookup_spec t ls cookie Hr) as (o & -> & Ho). cbn [mbind option_bind].
  unfold a_event. destruct o as [l|].
  - destruct Ho as (Hin & cn & Hc & <-). rewrite (find_view t ls l cn Hr Hc).
    destruct (rep_split t ls l Hr Hin) as (l1 & l2 & ->).
    destruct (Htch t l1 l2 l cn Hr Hc) as (t' & -> & Hr' & Hcfg & Hc' & Hv' & _ & _ & Hx'). cbn [mbind option_bind].
    exists (Some l), (tconn cn).1, t', (l :: l1 ++ l2). split_and!; [done..|intros c [= <-]; eauto|].
    destruct (tconn cn) as [lost cn'] eqn:E. cbn [fst snd] in *. cbn [mbind option_bind]. rewrite Hc', Hv'.
    unfold a_touch. by rewrite (remove_view t l1 l2 l cn Hr Hc).
  - rewrite (find_view_none t ls cookie Ho).
    destruct (create_spec t ls cookie seq ts Hr Hk Ho) as (r & t1 & ls1 & -> & Hr1 & Hcfg1 & Ho1 & Hx1 & Hcase).
    cbn [mbind option_bind]. destruct (calloc_ok t).
    + destruct Hcase as (l & -> & Hc & Hin & Hv).
      destruct (Hini t1 ls1 l _ Hcfg1 Hr1 Hc Hv) as (t2 & -> & Hr2 & Hcfg2 & Hc2 & Hv2 & Hx2). cbn [mbind option_bind].
      exists (Some l), 0, t2, ls1. split_and!; [done..|by trans t1|auto|intros c [= <-]; eauto|].
      cbn [mbind option_bind]. by rewrite Hc2, Hv2.
    + destruct Hcase as [-> Hv]. exists None, 0, t1, ls1. cbn. by rewrite Hv.
Qed.
End Event.

(** The three event entry points, by kind. *)
Inductive ct_event := CtOpen (tuple : lk_tuple) (synthetic : bool) | CtData | CtDecrypted.
Definition ct_step (e : ct_event) t (cookie seq ts : Z) : option (option loc * Z * table) :=
  match e with
  | CtOpen tuple synthetic => lk_conn_table_open t cookie seq ts tuple synthetic
  | CtData => lk_conn_table_data t cookie seq ts
  | CtDecrypted => lk_conn_table_data_decrypted t cookie seq ts
  end.
(** How each kind updates a known entry and initialises an unknown one. *)
Definition ct_touch (e : ct_event) (seq ts : Z) (c : conn) : Z * conn :=
  match e with CtDecrypted => touch_tls_conn c seq ts | _ => touch_conn c seq ts end.
Definition ct_fresh (e : ct_event) t (cookie seq ts : Z) : conn :=
  let c := new_conn cookie seq ts in
  match e with
  | CtOpen tuple synthetic =>
      let c := c <| c_tuple := tuple |> <| c_ops := resolve_proto t (Some tuple) |> in
      if synthetic then mark_dirty (c <| c_flags := LK_CONN_SYNTHETIC |>) else c
  | CtData => mark_dirty (c <| c_ops := t_proto_dflt t |>)
  | CtDecrypted => mark_dirty (c <| c_ops := t_proto_dflt t |> <| c_tls_seq_seen := true |>
                                 <| c_tls_last_seq := seq |>)
  end.

Lemma resolve_same t t' tu : same_cfg t t' -> resolve_proto t' tu = resolve_proto t tu.
Proof. intros (_ & _ & _ & _ & Hp & Hd). unfold resolve_proto. by rewrite Hp, Hd. Qed.

(** The stores on a fresh entry. *)
Definition ini_tuple (tuple : lk_tuple) (ops : option proto_id) (c : conn) : conn :=
  c <| c_tuple := tuple |> <| c_ops := ops |>.
Definition ini_syn (c : conn) : conn :=
  mark_dirty (c <| c_flags ::= fun w => set_flag w LK_CONN_SYNTHETIC |>).
Definition ini_data (ops : option proto_id) (c : conn) : conn := mark_dirty (c <| c_ops := ops |>).
Definition ini_tls (ops : option proto_id) (seq : Z) (c : conn) : conn :=
  mark_dirty (c <| c_ops := ops |> <| c_tls_seq_seen := true |> <| c_tls_last_seq := seq |>).

Lemma ct_step_ok e t ls cookie seq ts :
  rep t ls -> hook_ok t ->
  exists r lost t' ls', ct_step e t cookie seq ts = Some (r, lost, t') /\ rep t' ls' /\ same_cfg t t' /\
    (tls_exact t ls -> tls_exact t' ls') /\ (forall c, r = Some c -> is_Some (conn_at t' c)) /\
    (r ≫= conn_at t', lost, view t' ls') =
      a_event (t_max_conns t) (calloc_ok t) cookie (ct_touch e seq ts) (ct_fresh e t cookie seq ts) (view t ls).
Proof.
  intros Hr Hk. destruct e as [tuple syn| |]; cbn [ct_step ct_touch ct_fresh].
  - set (tu := ini_tuple tuple (resolve_proto t (Some tuple))).
    destruct (event_spec cookie seq ts t ls (fun t l => touch t l seq ts) (fun c => touch_conn c seq ts)
      (fun t l => t ← upd_conn t l (ini_tuple tuple (resolve_proto t (Some tuple)));
                  if syn then upd_conn t l ini_syn else Some t)
      (fun c => if syn then ini_syn (tu c) else tu c) Hr Hk) as (r & lost & t' & ls' & E & H).
    + intros; by apply touch_spec.
    + intros t1 ls1 l rest Hcfg Hr1 Hc Hv. rewrite (resolve_same t t1) by done. fold tu.
      destruct (init_spec t1 ls1 l _ tu Hr1 Hc ltac:(reflexivity) _ Hv)
        as (t2 & -> & Hr2 & Hcfg2 & Hc2 & Hv2 & _ & Hx2). cbn [mbind option_bind]. specialize (Hx2 eq_refl).
      destruct syn; [|by exists t2].
      destruct (init_spec t2 ls1 l _ ini_syn Hr2 Hc2 ltac:(reflexivity) _ Hv2)
        as (t3 & -> & Hr3 & Hcfg3 & Hc3 & Hv3 & _ & Hx3). specialize (Hx3 eq_refl).
      exists t3. split_and!; [done..|by trans t2|done|done|auto].
    + exists r, lost, t', ls'. split; [|by destruct syn]. rewrite <- E. unfold lk_conn_table_open.
      destruct (lookup t cookie) as [[l|]|]; cbn [mbind option_bind]; [done| |done].
      destruct (create t cookie seq ts) as [[[l|] t1]|]; cbn [mbind option_bind]; [|done..].
      change (fun cn : conn => cn <| c_tuple := tuple |> <| c_ops := resolve_proto t1 (Some tuple) |>)
        with (ini_tuple tuple (resolve_proto t1 (Some tuple))).
      by destruct (upd_conn t1 l _).
  - apply (event_spec cookie seq ts t ls (fun t l => touch t l seq ts) (fun c => touch_conn c seq ts)
      (fun t l => upd_conn t l (ini_data (t_proto_dflt t))) (ini_data (t_proto_dflt t)) Hr Hk);
      [intros; by apply touch_spec|].
    intros t1 ls1 l rest (_&_&_&_&_&Hd) Hr1 Hc Hv. rewrite <- Hd.
    destruct (init_spec t1 ls1 l _ (ini_data (t_proto_dflt t1)) Hr1 Hc ltac:(reflexivity) _ Hv)
      as (t2 & E & ? & ? & ? & ? & _ & Hx). specialize (Hx eq_refl). by exists t2.
  - apply (event_spec cookie seq ts t ls (fun t l => touch_tls t l seq ts) (fun c => touch_tls_conn c seq ts)
      (fun t l => upd_conn t l (ini_tls (t_proto_dflt t) seq)) (ini_tls (t_proto_dflt t) seq) Hr Hk);
      [intros; by apply touch_tls_spec|].
    intros t1 ls1 l rest (_&_&_&_&_&Hd) Hr1 Hc Hv. rewrite <- Hd.
    destruct (init_spec t1 ls1 l _ (ini_tls (t_proto_dflt t1) seq) Hr1 Hc ltac:(reflexivity) _ Hv)
      as (t2 & E & ? & ? & ? & ? & _ & Hx). specialize (Hx eq_refl). by exists t2.
Qed.

Lemma close_ok t ls cookie seq ts :
  rep t ls -> hook_ok t ->
  exists lost t' ls', lk_conn_table_close t cookie seq ts = Some (lost, t') /\ rep t' ls' /\ same_cfg t t' /\
    (tls_exact t ls -> tls_exact t' ls') /\ (lost, view t' ls') = a_close cookie seq ts (view t ls).
Proof.
  intros Hr Hk. unfold lk_conn_table_close. destruct (lookup_spec t ls cookie Hr) as (o & -> & Ho).
  cbn [mbind option_bind]. unfold a_close. destruct o as [l|].
  - destruct Ho as (Hin & cn & Hc & <-). rewrite (find_view t ls l cn Hr Hc).
    destruct (rep_split t ls l Hr Hin) as (l1 & l2 & ->).
    destruct (touch_spec t l1 l2 l cn seq ts Hr Hc) as (t1 & -> & Hr1 & Hcfg1 & Hc1 & Hv1 & Ho1 & Hx1 & He1).
    cbn [mbind option_bind].
    assert (hook_ok t1) as Hk1 by (unfold hook_ok; by destruct Hcfg1 as (_ & _ & _ & -> & _)).
    destruct (destroy_spec t1 [] (l1 ++ l2) l _ Hr1 Hk1 Hc1) as (t2 & -> & Hr2 & (Hcfg2 & Hn & Hx & _) & _ & Hst2).
    cbn [mbind option_bind]. eexists _, _, (l1 ++ l2). split; [done|]. split; [by apply bump_rep|].
    split; [by trans t1|].
    assert (view t2 (l1 ++ l2) = view t1 (l1 ++ l2)) as Hv2.
    { pose proof (lr_nodup _ _ _ _ (rp_lru _ _ Hr1)) as [Hnl _]%NoDup_cons.
      apply view_ext. intros x Hxin. apply Hx. by intros ->. }
    split; [intros He%He1; by apply (tls_exact_drop t1 _ [] (l1 ++ l2) l _ Hr1 Hc1); [exact Hv2|cbn; by rewrite Hst2|]|]. f_equal. rewrite (remove_view t l1 l2 l cn Hr Hc).
    pose proof (lr_nodup _ _ _ _ (rp_lru _ _ Hr1)) as [Hnl _]%NoDup_cons.
    rewrite (view_cons _ _ _ _ Hc1) in Hv1. injection Hv1 as Hv1. rewrite <- Hv1.
    apply view_ext. intros x Hxin. apply Hx. by intros ->.
  - rewrite (find_view_none t ls cookie Ho). by exists 0, t, ls.
Qed.

(** ** The idle sweep *)
Lemma a_sweep_snoc timeout now (l : list conn) c :
  a_sweep timeout now (l ++ [c]) = if idle timeout now c then a_sweep timeout now l else l ++ [c].
Proof.
  unfold a_sweep. rewrite rev_app_distr. cbn. destruct (idle timeout now c); [done|].
  cbn. by rewrite rev_involutive.
Qed.

Lemma rep_size t ls : rep t ls -> size (t_heap t) = length ls.
Proof.
  intros [_ [_ _ _ Hnd Hdom] _ _ _]. rewrite <- size_dom, <- (size_list_to_set (C:=gset loc) ls Hnd).
  f_equal. apply set_eq. intros x. by rewrite elem_of_dom, elem_of_list_to_set, Hdom, links_is_Some.
Qed.

Lemma sweep_loop_ok now ls : forall fuel t ev,
  rep t ls -> hook_ok t -> (length ls <= fuel)%nat -> 0 <= ev -> ev + zlen ls < 2 ^ 32 ->
  exists t' ls', sweep_loop fuel t now ev = Some (ev + (zlen ls - zlen ls'), t') /\ rep t' ls' /\ same_cfg t t' /\
    view t' ls' = a_sweep (t_idle_timeout_ns t) now (view t ls).
Proof.
  induction ls as [|tl l1 IH] using rev_ind; intros fuel t ev Hr Hk Hf Hev Hlim.
  - exists t, []. rewrite Z.sub_diag, Z.add_0_r. split; [|done].
    destruct fuel; cbn; by rewrite (lr_tail _ _ _ _ (rp_lru _ _ Hr)).
  - pose proof (lr_tail _ _ _ _ (rp_lru _ _ Hr)) as Htl. rewrite last_or_snoc in Htl.
    destruct (proj1 (rep_conn t _ tl Hr)) as [cn Hc]; [apply elem_of_app; right; left|].
    rewrite view_app, (view_cons _ _ _ cn Hc). change (view t []) with (@nil conn). rewrite a_sweep_snoc.
    rewrite length_app in Hf. cbn in Hf. destruct fuel as [|fuel]; [lia|]. cbn [sweep_loop].
    rewrite Htl, Hc. cbn [mbind option_bind].
    change (u64 (c_last_activity_ns cn + t_idle_timeout_ns t) <=? now) with (idle (t_idle_timeout_ns t) now cn).
    destruct (idle _ now cn).
    + destruct (destroy_spec t l1 [] tl cn Hr Hk Hc) as (t1 & -> & Hr1 & (Hcfg1 & Hn & Hx & _) & _).
      rewrite app_nil_r in Hr1. cbn [mbind option_bind]. rewrite zlen_app, zlen_cons, zlen_nil in *.
      pose proof (zlen_nonneg l1). rewrite u32_small by lia.
      destruct (IH fuel (ct_bump t1 (fun s => s <| ts_evicted_idle ::= inc64 |>)) (ev + 1))
        as (t2 & ls2 & E2 & Hr2 & Hcfg2 & Hv2).
      { by apply bump_rep. }
      { unfold hook_ok. cbn. by destruct Hcfg1 as (_ & _ & _ & -> & _). }
      { lia. } { lia. } { lia. }
      exists t2, ls2. rewrite E2. split_and!; [do 2 f_equal; lia|done|etrans; [exact Hcfg1|exact Hcfg2]|].
      rewrite Hv2. cbn [t_idle_timeout_ns ct_bump upd]. destruct Hcfg1 as (_ & _ & -> & _). f_equal.
      apply view_ext. intros x Hxin. apply Hx. intros ->.
      pose proof (lr_nodup _ _ _ _ (rp_lru _ _ Hr)) as (_ & Hnd & _)%NoDup_app. apply (Hnd _ Hxin). left.
    + exists t, (l1 ++ [tl]). rewrite Z.sub_diag, Z.add_0_r. split_and!; [done..|].
      by rewrite view_app, (view_cons _ _ _ cn Hc).
Qed.

(** ** Whole runs *)
Inductive ct_op :=
  | OpEvent (e : ct_event) (cookie seq ts : Z)
  | OpClose (cookie seq ts : Z)
  | OpSweep (now : Z).
Definition run_op (t : table) (op : ct_op) : option table :=
  match op with
  | OpEvent e cookie seq ts => snd <$> ct_step e t cookie seq ts
  | OpClose cookie seq ts => snd <$> lk_conn_table_close t cookie seq ts
  | OpSweep now => snd <$> lk_conn_table_sweep t now
  end.
Fixpoint run_ops (ops : list ct_op) t : option table :=
  match ops with [] => Some t | op :: ops => t ← run_op t op; run_ops ops t end.

Lemma sweep_ok t ls now :
  rep t ls -> hook_ok t ->
  exists t' ls', lk_conn_table_sweep t now = Some (zlen ls - zlen ls', t') /\ rep t' ls' /\ same_cfg t t' /\
    view t' ls' = a_sweep (t_idle_timeout_ns t) now (view t ls).
Proof.
  intros Hr Hk. unfold lk_conn_table_sweep. rewrite (rep_size _ _ Hr). pose proof Hr as [_ _ _ Hmax Hbd].
  destruct (sweep_loop_ok now ls (length ls) t 0 Hr Hk) as (t' & ls' & E & ?); [lia|lia|lia|].
  exists t', ls'. rewrite E. split; [do 2 f_equal; lia|done].
Qed.

Lemma hook_same t t' : same_cfg t t' -> hook_ok t -> hook_ok t'.
Proof. intros (_ & _ & _ & H & _). unfold hook_ok. by rewrite H. Qed.

Lemma run_op_ok t ls op :
  rep t ls -> hook_ok t -> exists t' ls', run_op t op = Some t' /\ rep t' ls' /\ same_cfg t t'.
Proof.
  intros Hr Hk. destruct op as [e cookie seq ts|cookie seq ts|now]; cbn [run_op].
  - destruct (ct_step_ok e t ls cookie seq ts Hr Hk) as (r & lost & t' & ls' & -> & ? & ? & _). by exists t', ls'.
  - destruct (close_ok t ls cookie seq ts Hr Hk) as (lost & t' & ls' & -> & ? & ? & _). by exists t', ls'.
  - destruct (sweep_ok t ls now Hr Hk) as (t' & ls' & -> & ? & ? & _). by exists t', ls'.
Qed.

Lemma run_ops_ok ops : forall t ls,
  rep t ls -> hook_ok t -> exists t' ls', run_ops ops t = Some t' /\ rep t' ls' /\ same_cfg t t'.
Proof.
  induction ops as [|op ops IH]; intros t ls Hr Hk; [by exists t, ls|].
  destruct (run_op_ok t ls op Hr Hk) as (t1 & ls1 & E & Hr1 & Hc1). cbn [run_ops]. rewrite E.
  cbn [mbind option_bind]. destruct (IH t1 ls1 Hr1 (hook_same _ _ Hc1 Hk)) as (t2 & ls2 & -> & Hr2 & Hc2).
  exists t2, ls2. split_and!; [done..|by trans t1].
Qed.

(** ** A new table *)
Lemma grow_buckets_ok fuel k target :
  0 <= k -> k + Z.of_nat fuel <= 31 -> target <= 2 ^ (k + Z.of_nat fuel) ->
  exists k', 0 <= k' /\ grow_buckets fuel (2 ^ k) target = Some (2 ^ k').
Proof.
  revert k. induction fuel as [|fuel IH]; intros k Hk Hf Ht; cbn [grow_buckets].
  - rewrite Z.add_0_r in Ht. destruct (Z.ltb_spec (2 ^ k) target); [lia|]. by exists k.
  - destruct (Z.ltb_spec (2 ^ k) target); [|by exists k].
    assert (2 ^ (k + 1) <= 2 ^ 31) as Hp by (apply Z.pow_le_mono_r; lia).
    replace (u32 (Z.shiftl (2 ^ k) 1)) with (2 ^ (k + 1)).
    + apply IH; [lia|lia|]. by replace (k + 1 + Z.of_nat fuel) with (k + Z.of_nat (Datatypes.S fuel)) by lia.
    + rewrite Z.shiftl_mul_pow2 by lia. rewrite u32_small; [rewrite Z.pow_add_r by lia; lia|].
      rewrite Z.pow_add_r in Hp by lia. pose proof (Z.pow_nonneg 2 k). lia.
Qed.

Lemma grow_fuel_mono fuel fuel' nb target r :
  (fuel <= fuel')%nat -> grow_buckets fuel nb target = Some r -> grow_buckets fuel' nb target = Some r.
Proof.
  revert fuel' nb. induction fuel as [|fuel IH]; intros fuel' nb Hle; destruct fuel' as [|fuel']; try lia;
    cbn [grow_buckets]; destruct (nb <? target); try done. apply IH. lia.
Qed.

Lemma new_ok (ctx : S) max idle oom :
  0 <= max < 2 ^ 32 ->
  exists o, lk_conn_table_new (P:=P) (F:=F) ctx max idle oom = Some o /\
    forall t, o = Some t -> rep t [] /\ t_on_destroy t = None /\ t_max_conns t = Z.max 1 max /\ t_st t = ct_stats0.
Proof.
  intros Hmax. unfold lk_conn_table_new. set (m := if max =? 0 then 1 else max).
  assert (m = Z.max 1 max) as Hm by (subst m; destruct (Z.eqb_spec max 0); lia).
  destruct (grow_buckets_ok 25 6 (m / 16)) as (k & Hk & E); [lia|lia| |].
  { change (6 + Z.of_nat 25) with 31. assert (m / 16 <= m) by (apply Z.div_le_upper_bound; lia).
    assert (m < 2 ^ 32) by lia. assert (m / 16 < 2 ^ 28); [|lia]. apply Z.div_lt_upper_bound; lia. }
  change (2 ^ 6) with 64 in E. apply (grow_fuel_mono _ 32) in E; [|lia]. rewrite E. cbn [mbind option_bind].
  set (t0 x := Table ∅ (repeat None (Z.to_nat (2 ^ k))) (2 ^ k) m idle None None None ctx [] None ct_stats0 x
    : table). change (Table _ _ _ _ _ _ _ _ _ _ _ _ _) with (t0 oom).
  assert (forall x, rep (t0 x) [] /\ t_on_destroy (t0 x) = None /\ t_max_conns (t0 x) = Z.max 1 max /\
    t_st (t0 x) = ct_stats0) as Hr0.
  { intros x. split_and!; [|done..]. split; cbn -[Z.pow].
    - split; [by exists k|by rewrite repeat_length| |].
      + intros i b Hb. apply list_elem_of_lookup_2, list_elem_of_In, repeat_spec in Hb as ->.
        exists []. split_and!; [done|constructor|]. intros l. split; [by intros ?%not_elem_of_nil|].
        by intros (? & ? & ? & _).
      + done.
    - split; try done; [constructor|]. intros l. split; [by intros ?%not_elem_of_nil|by intros []].
    - done.
    - rewrite Hm. lia.
    - rewrite Hm. unfold zlen. cbn. lia. }
  assert (forall x, t_oom (t0 x) = x) as Ho by done.
  assert (forall x y, t0 x <| t_oom := y |> = t0 y) as Hoy by done.
  clearbody t0. unfold calloc. rewrite Ho.
  destruct oom as [|[] [|[] oom]]; cbn [negb]; rewrite ?Ho, ?Hoy; cbn [negb]; rewrite ?Hoy, ?Ho;
    cbn [negb]; rewrite ?Hoy; (eexists; split; [done|]; intros t [= <-]; apply Hr0).
Qed.
End Props.
