(* ===== verification/ConnTableClaims.v ===== *)
(** The claims about the connection table, with the teardown and the loss
    accounting they rest on. *)
From stdpp Require Import base list option gmap.
From S2P Require Import Prelude Conn ConnTable ConnTableFacts ConnTableOps ConnTableProps.
Import AbsTable.
#[local] Open Scope Z_scope.

Section Claims.
Context {S P F : Type}.
Abbreviation conn := (lk_conn P F).
Abbreviation table := (lk_conn_table S P F).
Implicit Types (t : table) (c : conn) (ls : list loc).

(** ** Teardown *)
Definition hook_run t (l : list conn) : S :=
  match t_on_destroy t with
  | Some fn => fold_left (fun s c => (fn s c).1) l (t_ctx t)
  | None => t_ctx t
  end.

Lemma free_loop_ok ls : forall fuel t,
  rep t ls -> hook_ok t -> (length ls <= fuel)%nat ->
  exists t', free_loop fuel t = Some t' /\ rep t' [] /\ t_ctx t' = hook_run t (view t ls).
Proof.
  induction ls as [|l ls IH]; intros fuel t Hr Hk Hf; pose proof (lr_head _ _ _ _ (rp_lru _ _ Hr)) as Hh; cbn in Hh.
  - exists t. split; [destruct fuel; cbn; by rewrite Hh|]. split; [done|]. unfold hook_run. by destruct (t_on_destroy t).
  - cbn in Hf. destruct fuel as [|fuel]; [lia|]. cbn [free_loop]. rewrite Hh.
    destruct (proj1 (rep_conn t _ l Hr)) as [cn Hc]; [left|].
    destruct (destroy_spec t [] ls l cn Hr Hk Hc) as (t1 & -> & Hr1 & (Hcfg & Hn & Hx & _) & Hctx & _).
    cbn [mbind option_bind]. destruct (IH fuel t1 Hr1 (hook_same _ _ Hcfg Hk)) as (t2 & E & Hr2 & Hc2); [lia|].
    exists t2. split; [done|]. split; [done|]. rewrite Hc2, (view_cons _ _ _ cn Hc).
    pose proof (lr_nodup _ _ _ _ (rp_lru _ _ Hr)) as [Hnl _]%NoDup_cons.
    rewrite (view_ext t t1) by (intros x Hxin; apply Hx; by intros ->).
    unfold hook_run, hook_ctx in *. destruct Hcfg as (_ & _ & _ & -> & _).
    rewrite Hctx. by destruct (t_on_destroy t).
Qed.

(** ** Sequence accounting *)
Fixpoint increasing (s : Z) (l : list Z) : Prop :=
  match l with [] => True | x :: l => s < x < 2 ^ 32 /\ increasing x l end.
Fixpoint touch_run (c : conn) (ts : Z) (seqs : list Z) : Z * conn :=
  match seqs with
  | [] => (0, c)
  | s :: seqs => let '(lost, c) := touch_conn c s ts in
                 let '(lost', c) := touch_run c ts seqs in (lost + lost', c)
  end.
Definition frames_dirty (c : conn) : Prop := forall d, f_st (frame c d) = LK_FR_DIRTY.

Lemma touch_conn_forward c s ts :
  0 <= c_last_seq c < s -> s < 2 ^ 32 ->
  (touch_conn c s ts).1 = s - c_last_seq c - 1 /\ c_last_seq (touch_conn c s ts).2 = s /\
  (s = c_last_seq c + 1 -> forall d, frame (touch_conn c s ts).2 d = frame c d) /\
  (s <> c_last_seq c + 1 \/ frames_dirty c -> frames_dirty (touch_conn c s ts).2).
Proof.
  intros Hs Hlt. unfold touch_conn, frames_dirty. rewrite (u32_small (c_last_seq c + 1)) by lia.
  destruct (Z.ltb_spec (c_last_seq c + 1) s) as [Hgap|Hgap]; cbn [fst snd].
  - assert (forall g, c_last_seq (mark_dirty (c <| c_dropped ::= g |>)) = c_last_seq c) as Hls by done.
    rewrite Hls. rewrite (u32_small (s - _)) by lia. destruct (Z.ltb_spec (c_last_seq c) s); [|lia]. cbn [fst snd].
    split_and!; [lia|done|lia|]. intros _ []; done.
  - destruct (Z.ltb_spec (c_last_seq c) s); [|lia]. cbn [fst snd]. split_and!; [lia|done|by intros _ []|].
    intros [?|Hd] d; [lia|]. specialize (Hd d). by destruct d.
Qed.

Lemma touch_run_ok ts seqs : forall c,
  0 <= c_last_seq c -> increasing (c_last_seq c) seqs ->
  (touch_run c ts seqs).1 = List.last seqs (c_last_seq c) - c_last_seq c - zlen seqs /\
  c_last_seq (touch_run c ts seqs).2 = List.last seqs (c_last_seq c) /\
  0 <= (touch_run c ts seqs).1 /\
  (frames_dirty c \/ 0 < (touch_run c ts seqs).1 -> frames_dirty (touch_run c ts seqs).2) /\
  ((touch_run c ts seqs).1 = 0 -> forall d, frame (touch_run c ts seqs).2 d = frame c d).
Proof.
  induction seqs as [|s seqs IH]; intros c Hs Hi.
  - cbn. change (zlen []) with 0. split_and!; [lia|done|lia|intros [?|?]; [done|lia]|done].
  - destruct Hi as [Hlt Hi]. destruct (touch_conn_forward c s ts) as (E1 & E2 & E3 & E4); [lia..|].
    cbn [touch_run]. destruct (touch_conn c s ts) as [lost c1]. cbn [fst snd] in *.
    destruct (IH c1) as (F1 & F2 & F3 & F4 & F5); [lia|by rewrite E2|].
    destruct (touch_run c1 ts seqs) as [lost' c2]. cbn [fst snd] in *.
    assert (List.last (s :: seqs) (c_last_seq c) = List.last seqs s) as ->.
    { clear. generalize (c_last_seq c) as d. revert s. induction seqs as [|x seqs IH]; intros s d; [done|].
      change (List.last (x :: seqs) d = List.last (x :: seqs) s). by rewrite !IH. }
    rewrite E2 in *. rewrite zlen_cons. split_and!; [lia|done|lia| |].
    + intros [Hd|Hp]; apply F4; [by left; apply E4; right|].
      destruct (Z.eq_dec lost 0); [right; lia|left; apply E4; left; lia].
    + intros Hz d. rewrite F5 by lia. apply E3. lia.
Qed.

(** ** Idle entries under a monotonic clock *)
(** Most recently active first. *)
Fixpoint by_activity (l : list conn) : Prop :=
  match l with
  | [] => True
  | c :: l => Forall (fun c' => c_last_activity_ns c' <= c_last_activity_ns c) l /\ by_activity l
  end.

Lemma by_activity_snoc l c :
  by_activity (l ++ [c]) -> by_activity l /\ Forall (fun c' => c_last_activity_ns c <= c_last_activity_ns c') l.
Proof.
  induction l as [|x l IH]; cbn; [by split|]. intros [Hf Hb]. apply Forall_app in Hf as [Hf Hc].
  destruct (IH Hb) as [? ?]. inversion Hc; subst. split; [done|]. by constructor.
Qed.

Lemma a_sweep_filter timeout now (l : list conn) :
  by_activity l -> Forall (fun c => c_last_activity_ns c + timeout < 2 ^ 64) l ->
  Forall (fun c => 0 <= c_last_activity_ns c) l -> 0 <= timeout ->
  a_sweep timeout now l = List.filter (fun c => negb (idle timeout now c)) l.
Proof.
  intros Hb Hr Hn Ht. induction l as [|c l IH] using rev_ind; [done|].
  apply by_activity_snoc in Hb as [Hb Hmax]. apply Forall_app in Hr as [Hr Hrc], Hn as [Hn Hnc].
  inversion Hrc as [|? ? Hrc' _]; subst. inversion Hnc as [|? ? Hnc' _]; subst.
  rewrite a_sweep_snoc, List.filter_app. cbn. destruct (idle timeout now c) eqn:E; cbn; [by rewrite app_nil_r, IH|].
  f_equal. unfold idle in E. rewrite u64_small in E by lia. apply Z.leb_gt in E.
  clear IH Hb. induction l as [|x l IHl]; [done|].
  inversion Hmax as [|? ? Hx ?]; inversion Hr as [|? ? Hxr ?]; inversion Hn as [|? ? Hxn ?]; subst. cbn.
  unfold idle at 1. rewrite u64_small by lia. destruct (Z.leb_spec (c_last_activity_ns x + timeout) now); [lia|].
  cbn. f_equal. by apply IHl.
Qed.

Lemma view_nodup t ls : rep t ls -> NoDup (c_cookie <$> view t ls).
Proof.
  intros Hr. pose proof (lr_nodup _ _ _ _ (rp_lru _ _ Hr)) as Hnd.
  assert (forall l l' cn cn', conn_at t l = Some cn -> conn_at t l' = Some cn' ->
    c_cookie cn = c_cookie cn' -> l = l') as Hinj by (intros; by eapply (rep_inj t ls)).
  clear Hr. induction ls as [|x ls IH]; [constructor|]. apply NoDup_cons in Hnd as [Hx Hnd].
  unfold view. cbn. destruct (conn_at t x) as [cx|] eqn:Ex; [|by apply IH]. cbn. apply NoDup_cons.
  split; [|by apply IH]. intros (c' & Hk & Hc')%list_elem_of_fmap.
  apply list_elem_of_omap in Hc' as (y & Hy & Hcy). apply Hx. by rewrite (Hinj x y cx c').
Qed.

(** C22: Memory safety and the ceiling.  On a new table with any destroy hook,
    any sequence of OPEN, DATA, decrypted-DATA, CLOSE events and idle sweeps,
    with any allocation failures, runs to completion (no NULL or dangling
    dereference, every chain walk and eviction loop ends); the table then holds
    [active] entries with pairwise distinct cookies, at most [max_conns] (at
    least 1) of them. *)
Theorem conn_table_safe ctx0 ctx fn max idle_ns oom (t0 : table) protos dflt ops :
  0 <= max < 2 ^ 32 -> HookLaws fn -> lk_conn_table_new ctx0 max idle_ns oom = Some (Some t0) ->
  exists t ls, run_ops ops (lk_conn_table_set_protos (lk_conn_table_on_destroy t0 (Some fn) ctx) protos dflt) = Some t /\
    rep t ls /\ ts_active (t_st t) = zlen (view t ls) /\ zlen (view t ls) <= Z.max 1 max /\
    NoDup (c_cookie <$> view t ls).
Proof.
  intros Hmax Hfn E. destruct (new_ok (P:=P) (F:=F) ctx0 max idle_ns oom Hmax) as (o & E' & Ho).
  rewrite E in E'. simplify_eq. destruct (Ho t0 eq_refl) as (Hr & _ & Hm & _).
  set (t1 := lk_conn_table_set_protos _ _ _).
  assert (rep t1 []) as Hr1 by by destruct Hr.
  destruct (run_ops_ok ops t1 [] Hr1) as (t & ls & Er & Hrt & Hcfg); [exact Hfn|].
  exists t, ls. split_and!; [done|done| | |].
  - rewrite (view_length _ _ Hrt). apply Hrt.
  - rewrite (view_length _ _ Hrt). destruct Hrt. destruct Hcfg as (_ & Hc & _). cbn in Hc. lia.
  - by eapply view_nodup.
Qed.

(** C23: Refinement.  OPEN, DATA and decrypted-DATA events act on the
    recency-ordered entries as a bounded LRU cache keyed by cookie: a known
    entry is updated by the seq-gap detector and moved to the front; an unknown
    one is created in its initial state at the front, the least recently used
    entry leaving first when the table is full; a failed allocation only costs
    the eviction.  The entry handed back and the loss reported are the
    specification's. *)
Theorem conn_table_event_refines e t ls cookie seq ts :
  rep t ls -> hook_ok t ->
  exists r lost t' ls', ct_step e t cookie seq ts = Some (r, lost, t') /\ rep t' ls' /\ same_cfg t t' /\
    (r ≫= conn_at t', lost, view t' ls') =
      a_event (t_max_conns t) (calloc_ok t) cookie (ct_touch e seq ts) (ct_fresh e t cookie seq ts) (view t ls).
Proof.
  intros Hr Hk. destruct (ct_step_ok e t ls cookie seq ts Hr Hk) as (r & lost & t' & ls' & ? & ? & ? & _ & _ & ?).
  by exists r, lost, t', ls'.
Qed.

(** CLOSE removes exactly the entry of its cookie, after running the gap
    detector on it, and leaves the others in their order; an unknown cookie
    changes nothing. *)
Theorem conn_table_close_refines t ls cookie seq ts :
  rep t ls -> hook_ok t ->
  exists lost t' ls', lk_conn_table_close t cookie seq ts = Some (lost, t') /\ rep t' ls' /\ same_cfg t t' /\
    (lost, view t' ls') = a_close cookie seq ts (view t ls).
Proof.
  intros Hr Hk. destruct (close_ok t ls cookie seq ts Hr Hk) as (lost & t' & ls' & ? & ? & ? & _ & ?).
  by exists lost, t', ls'.
Qed.

(** The idle sweep is exact.  When the entries' activity times follow the
    recency order (events arrive with a monotonic clock), the tail walk evicts
    every entry idle for the timeout and no other, and returns how many. *)
Theorem conn_table_sweep_exact t ls now :
  rep t ls -> hook_ok t -> by_activity (view t ls) -> 0 <= t_idle_timeout_ns t ->
  Forall (fun c => 0 <= c_last_activity_ns c /\ c_last_activity_ns c + t_idle_timeout_ns t < 2 ^ 64) (view t ls) ->
  exists n t' ls', lk_conn_table_sweep t now = Some (n, t') /\ rep t' ls' /\
    view t' ls' = List.filter (fun c => negb (idle (t_idle_timeout_ns t) now c)) (view t ls) /\
    n = zlen (view t ls) - zlen (view t' ls').
Proof.
  intros Hr Hk Hb Ht Hf. destruct (sweep_ok t ls now Hr Hk) as (t' & ls' & E & Hr' & Hcfg & Hv).
  exists (zlen ls - zlen ls'), t', ls'. split_and!; [done|done| |by rewrite !view_length].
  rewrite Hv. apply a_sweep_filter; try done; eapply Forall_impl; try exact Hf; naive_solver.
Qed.

(** C40: Teardown leaks nothing: [lk_conn_table_free] empties the heap and the
    destroy hook has run on every entry, once each, most recent first. *)
Theorem conn_table_free_complete t ls :
  rep t ls -> hook_ok t ->
  exists t', lk_conn_table_free t = Some t' /\ t_heap t' = ∅ /\ t_ctx t' = hook_run t (view t ls).
Proof.
  intros Hr Hk. unfold lk_conn_table_free. rewrite (rep_size _ _ Hr).
  destruct (free_loop_ok ls (length ls) t Hr Hk) as (t' & -> & Hr' & Hc); [done|].
  exists t'. split_and!; [done| |done]. apply map_size_empty_inv. by rewrite (rep_size _ _ Hr').
Qed.

(** Loss accounting.  Over any run of in-order events on a connection the
    gap detector reports exactly the number of sequence numbers that were
    skipped, marks both directions dirty if there was at least one, and leaves
    the framing alone if there was none. *)
Theorem seq_loss_exact c ts seqs :
  0 <= c_last_seq c -> increasing (c_last_seq c) seqs ->
  let '(lost, c') := touch_run c ts seqs in
  lost = List.last seqs (c_last_seq c) - c_last_seq c - zlen seqs /\
  (0 < lost -> frames_dirty c') /\ (lost = 0 -> forall d, frame c' d = frame c d).
Proof.
  intros Hs Hi. destruct (touch_run_ok ts seqs c Hs Hi) as (E1 & _ & _ & E4 & E5).
  destruct (touch_run c ts seqs) as [lost c']. cbn in *. split_and!; auto.
Qed.

(** The detector does not survive the wrap of the 32-bit sequence number:
    once [last_seq] is 2^32 - 1, every further event with a nonzero number is
    reported as a loss of that many events and dirties both directions, and the
    baseline never moves again. *)
Theorem seq_wrap_stuck c seq ts :
  c_last_seq c = 2 ^ 32 - 1 -> 0 < seq < 2 ^ 32 - 1 ->
  (touch_conn c seq ts).1 = seq /\ frames_dirty (touch_conn c seq ts).2 /\
  c_last_seq (touch_conn c seq ts).2 = 2 ^ 32 - 1.
Proof.
  intros Hl Hs. unfold touch_conn. rewrite Hl. change (u32 (2 ^ 32 - 1 + 1)) with 0.
  destruct (Z.ltb_spec 0 seq); [|lia]. cbn [fst snd].
  assert (forall g, c_last_seq (mark_dirty (c <| c_dropped ::= g |>)) = c_last_seq c) as Hls by done.
  rewrite Hls, Hl. destruct (Z.ltb_spec (2 ^ 32 - 1) seq); [lia|]. cbn [fst snd].
  split_and!; [rewrite Z.sub_0_r; apply u32_small; lia|by intros []|done].
Qed.
End Claims.

(** ** Witnesses: a table of two slots holding one connection *)
Definition ex_hook (s : nat) (c : lk_conn unit unit) : nat * lk_conn unit unit := (Datatypes.S s, c).
#[local] Instance ex_hook_laws : HookLaws ex_hook.
Proof. by split. Qed.
Abbreviation ex_tbl := (lk_conn_table nat unit unit).
Definition ex_new : ex_tbl := Eval vm_compute in
  match lk_conn_table_new 0%nat 2 10 [] with Some (Some t) => t | _ =>
    Table ∅ [] 0 0 0 None None None 0%nat [] None ct_stats0 [] end.
Definition ex_entry : lk_conn unit unit := mark_dirty (new_conn 7 1 100 <| c_ops := None |>).

Lemma ex_one : exists (t : ex_tbl) ls, rep t ls /\ hook_ok t /\ t_idle_timeout_ns t = 10 /\
  t_on_destroy t = Some ex_hook /\ t_ctx t = 0%nat /\ view t ls = [ex_entry].
Proof.
  destruct (new_ok (S:=nat) (P:=unit) (F:=unit) 0%nat 2 10 [] ltac:(lia)) as (o & E & Ho).
  assert (o = Some ex_new) as -> by (vm_compute in E; by injection E as <-).
  destruct (Ho ex_new eq_refl) as (Hr & _ & _ & _).
  set (t1 := lk_conn_table_on_destroy ex_new (Some ex_hook) 0%nat).
  assert (rep t1 []) as Hr1 by by destruct Hr.
  destruct (ct_step_ok CtData t1 [] 7 1 100 Hr1 ex_hook_laws) as (r & lost & t' & ls' & E' & Hr' & Hcfg & _ & _ & Hv).
  exists t', ls'. pose proof Hcfg as (_ & _ & Hi & Hd & _).
  injection Hv as _ _ Hv. split_and!; [done|by apply (hook_same _ _ Hcfg)|by rewrite Hi|by rewrite Hd| |done].
  vm_compute in E'. injection E' as _ _ <-. done.
Qed.

Lemma conn_table_safe_witness :
  exists (t : ex_tbl) ls,
    run_ops [OpEvent CtData 7 1 100; OpEvent CtData 8 1 101; OpEvent CtDecrypted 9 5 102; OpClose 8 2 103; OpSweep 120]
      (lk_conn_table_set_protos (lk_conn_table_on_destroy ex_new (Some ex_hook) 0%nat) [] None) = Some t /\
    rep t ls /\ ts_active (t_st t) = zlen (view t ls) /\ zlen (view t ls) <= Z.max 1 2 /\
    NoDup (c_cookie <$> view t ls).
Proof.
  apply (conn_table_safe 0%nat 0%nat ex_hook 2 10 [] ex_new); [lia|apply ex_hook_laws|vm_compute; reflexivity].
Defined.

Lemma conn_table_event_refines_witness :
  exists (t : ex_tbl) ls, view t ls = [ex_entry] /\
    exists r lost t' ls', ct_step CtData t 7 5 200 = Some (r, lost, t') /\ rep t' ls' /\ same_cfg t t' /\
      (r ≫= conn_at t', lost, view t' ls') =
        a_event (t_max_conns t) (calloc_ok t) 7 (ct_touch CtData 5 200) (ct_fresh CtData t 7 5 200) (view t ls).
Proof.
  destruct ex_one as (t & ls & Hr & Hk & _ & _ & _ & Hv). exists t, ls. split; [exact Hv|].
  apply (conn_table_event_refines CtData t ls 7 5 200 Hr Hk).
Defined.

Lemma conn_table_close_refines_witness :
  exists (t : ex_tbl) ls, view t ls = [ex_entry] /\
    exists lost t' ls', lk_conn_table_close t 7 2 200 = Some (lost, t') /\ rep t' ls' /\ same_cfg t t' /\
      (lost, view t' ls') = a_close 7 2 200 (view t ls).
Proof.
  destruct ex_one as (t & ls & Hr & Hk & _ & _ & _ & Hv). exists t, ls. split; [exact Hv|].
  apply (conn_table_close_refines t ls 7 2 200 Hr Hk).
Defined.

Lemma conn_table_sweep_exact_witness :
  exists (t : ex_tbl) ls, view t ls = [ex_entry] /\
    exists n t' ls', lk_conn_table_sweep t 110 = Some (n, t') /\ rep t' ls' /\
      view t' ls' = List.filter (fun c => negb (idle (t_idle_timeout_ns t) 110 c)) (view t ls) /\
      n = zlen (view t ls) - zlen (view t' ls').
Proof.
  destruct ex_one as (t & ls & Hr & Hk & Hi & _ & _ & Hv). exists t, ls. split; [exact Hv|].
  apply (conn_table_sweep_exact t ls 110 Hr Hk); rewrite ?Hv, ?Hi; [split; [constructor|exact I]|lia|].
  constructor; [vm_compute; split; congruence|constructor].
Defined.

Lemma conn_table_free_complete_witness :
  exists (t : ex_tbl) ls, view t ls = [ex_entry] /\
    exists t', lk_conn_table_free t = Some t' /\ t_heap t' = ∅ /\ t_ctx t' = hook_run t (view t ls).
Proof.
  destruct ex_one as (t & ls & Hr & Hk & _ & _ & _ & Hv). exists t, ls. split; [exact Hv|].
  apply (conn_table_free_complete t ls Hr Hk).
Defined.

Lemma seq_loss_exact_witness :
  let '(lost, c') := touch_run ex_entry 200 [2; 5; 6] in
  lost = 6 - 1 - 3 /\ (0 < lost -> frames_dirty c') /\ (lost = 0 -> forall d, frame c' d = frame ex_entry d).
Proof.
  apply (seq_loss_exact ex_entry 200 [2; 5; 6]); [vm_compute; congruence|].
  cbn. lia.
Defined.

Lemma seq_wrap_stuck_witness :
  let c := ex_entry <| c_last_seq := 2 ^ 32 - 1 |> in
  (touch_conn c 5 200).1 = 5 /\ frames_dirty (touch_conn c 5 200).2 /\
  c_last_seq (touch_conn c 5 200).2 = 2 ^ 32 - 1.
Proof.
  apply (seq_wrap_stuck (ex_entry <| c_last_seq := 2 ^ 32 - 1 |>) 5 200); [reflexivity|lia].
Defined.
