(* ===== verification/Reassembly.v ===== *)
(** The streaming framer, [agent/reassembly.c]: chunk arithmetic, holes, the
    HEADER/BODY/SKIP/DIRTY machine, the body-slab pool and the counters.

    The machine's [while] loops run on fuel; [FramerFacts] proves that the
    fuel given here is always enough. *)
From stdpp Require Import base list option.
From S2P Require Import Prelude Conn.
#[local] Open Scope Z_scope.

Section Reassembly.
Context {S P F : Type}.
Abbreviation reasm := (lk_reasm S P F).
Abbreviation conn := (lk_conn P F).
Abbreviation ops := (lk_proto_ops S P F).
(** [lk_proto_registry]: what the [ops] pointers point at. *)
Variable vtable : proto_id -> ops.
Implicit Types (r : reasm) (c : conn) (d : lk_dir) (p : list Z) (o : ops).

(** Resolve (and pin) the connection's protocol; NULL frames as PG. *)
Definition conn_ops c : ops * conn :=
  match c_ops c with
  | Some id => (vtable id, c)
  | None => (vtable PROTO_PG, c <| c_ops := Some PROTO_PG |>)
  end.

Definition lk_reasm_init (ctx : S) (sink : lk_msg_sink S P F) (oom : list bool) : reasm :=
  Reasm ctx sink rstats0 0 oom.

Definition lk_reasm_free r : reasm := r <| r_pool_n := 0 |>.

(** ** Slab freelist *)
Definition malloc r : bool * reasm :=
  match r_oom r with
  | [] => (true, r)
  | fails :: rest => (negb fails, r <| r_oom := rest |>)
  end.

Definition buf_get r : bool * reasm :=
  if negb (r_pool_n r =? 0) then (true, r <| r_pool_n := r_pool_n r - 1 |>) else malloc r.

Definition buf_put r (buf : option (list Z)) : reasm :=
  match buf with
  | None => r
  | Some _ =>
      if r_pool_n r <? LK_REASM_POOL_MAX then r <| r_pool_n := r_pool_n r + 1 |> else r
  end.

Definition bump r (cnt : lk_reasm_stats -> lk_reasm_stats) : reasm := r <| r_st ::= cnt |>.

(** ** Message boundary, loss of sync, resync *)
Definition msg_reset r c d : reasm * conn :=
  let f := frame c d in
  (buf_put r (f_buf f),
   set_frame c d (f <| f_buf := None |> <| f_hdr := [] |> <| f_body_len := 0 |>
                    <| f_msg_cont := false |> <| f_prefix_closed := false |>
                    <| f_st := LK_FR_HEADER |>)).

Definition go_dirty r c d (cnt : lk_reasm_stats -> lk_reasm_stats) : reasm * conn :=
  let r := bump r cnt in
  let '(r, c) := msg_reset r c d in
  (r, upd_frame c d (fun f => f <| f_skip_left := 0 |> <| f_resync_matched := 0 |>
                                <| f_st := LK_FR_DIRTY |>)).

Definition do_resync r c d : reasm * conn :=
  let '(r, c) := msg_reset r c d in
  let c := upd_frame c d (fun f => f <| f_skip_left := 0 |> <| f_resync_matched := 0 |>
                                     <| f_after_resync := true |> <| f_startup_done := true |>) in
  let r := bump r (fun s => s <| rs_resyncs ::= inc64 |>) in
  match on_resync (r_sink r) with
  | Some cb => let '(ctx, c) := cb (r_ctx r) c d in (r <| r_ctx := ctx |>, c)
  | None => (r, c)
  end.

(** Deliver to the sink. *)
Definition deliver r c d (m : lk_msg) : reasm * conn :=
  match on_msg (r_sink r) with
  | Some cb => let '(ctx, c) := cb (r_ctx r) c d m in (r <| r_ctx := ctx |>, c)
  | None => (r, c)
  end.

(** Stamp LK_MSG_AFTER_RESYNC when one is pending on the direction. *)
Definition stamp_resync c d (m : lk_msg) : conn * lk_msg :=
  if f_after_resync (frame c d)
  then (upd_frame c d (fun f => f <| f_after_resync := false |>),
        m <| m_flags := set_flag (m_flags m) LK_MSG_AFTER_RESYNC |>)
  else (c, m).

(** Stream-framing entry points (the protocol assembled the message itself). *)
Definition lk_reasm_emit r c d (m : lk_msg) : reasm * conn :=
  let '(c, m) := stamp_resync c d m in
  let r := if has_flag (m_flags m) LK_MSG_BODY_TRUNC
           then bump r (fun s => s <| rs_msgs_trunc ::= inc64 |>) else r in
  let r := bump r (fun s => s <| rs_msgs ::= inc64 |>) in
  deliver r c d m.

Definition lk_reasm_resync r c d : reasm * conn := do_resync r c d.
Definition lk_reasm_buf_get r : bool * reasm := buf_get r.
Definition lk_reasm_buf_put r (buf : option (list Z)) : reasm := buf_put r buf.

Definition emit r o c d (body : list Z) : reasm * conn :=
  let f := frame c d in
  let m := Msg (f_msg_ts f) (f_msg_type f) 0 (f_msg_len f) body in
  let '(c, m) := pre_emit o c d m in
  let '(c, m) := stamp_resync c d m in
  let '(r, m) :=
    if zlen body <? f_body_total (frame c d)
    then (bump r (fun s => s <| rs_msgs_trunc ::= inc64 |>),
          m <| m_flags := set_flag (m_flags m) LK_MSG_BODY_TRUNC |>)
    else (r, m) in
  let r := bump r (fun s => s <| rs_msgs ::= inc64 |>) in
  deliver r c d m.

Definition body_target (f : lk_frame) : Z :=
  if f_body_len f <? LK_MSG_BODY_MAX then f_body_len f else LK_MSG_BODY_MAX.

Definition BLIND : Z := Z.lor LK_CONN_TLS LK_CONN_IGNORE.

Definition went_blind r c (entry_flags : Z) : bool * reasm :=
  if has_flag entry_flags BLIND || negb (has_flag (c_flags c) BLIND) then (false, r)
  else (true, if has_flag (c_flags c) LK_CONN_TLS
              then bump r (fun s => s <| rs_tls_conns ::= inc64 |>) else r).

(** ** The byte machine.  One iteration of the [while (n > 0)] loop either goes
    round again with the unconsumed bytes or returns.  [abort] tells the two
    kinds of return apart: [false] when the chunk is used up (the machine waits
    for more input), [true] when the rest of the chunk is discarded (corrupt
    header, connection gone blind). *)
Inductive step_result :=
  | Again (r : reasm) (c : conn) (p : list Z)
  | Return (r : reasm) (c : conn) (abort : bool).

Definition finish_blind r c p (entry_flags : Z) : step_result :=
  let '(blind, r) := went_blind r c entry_flags in
  if blind then Return r c true else Again r c p.

(** Accumulate header bytes; the first byte of the first header dates the message. *)
Definition hdr_accum (f : lk_frame) (ts : Z) (q : list Z) : lk_frame :=
  (if (hdr_len f =? 0) && negb (f_msg_cont f) then f <| f_msg_ts := ts |> else f)
    <| f_hdr ::= fun h => h ++ q |>.

(** The header is complete. *)
Definition header_done r o c d p (entry_flags : Z) : step_result :=
  let '(ok, c) := parse_hdr o c d in
  if negb ok then
    let '(r, c) := go_dirty r c d (fun s => s <| rs_bad_len ::= inc64 |>) in Return r c true
  else if f_body_len (frame c d) =? 0 then
    let '(r, c) := emit r o c d (buf_bytes (frame c d)) in
    let '(r, c) := msg_reset r c d in
    finish_blind r c p entry_flags
  else Again r (upd_frame c d (fun f => f <| f_st := LK_FR_BODY |>)) p.

Definition header_step r o c d p (ts entry_flags : Z) : step_result :=
  let size := hdr_size o c d in
  let take := Z.min (u32 (size - hdr_len (frame c d))) (zlen p) in
  let c := upd_frame c d (fun f => hdr_accum f ts (ztake take p)) in
  let p := zdrop take p in
  if hdr_len (frame c d) <? size then Return r c false
  else header_done r o c d p entry_flags.

(** [if (!f->buf) f->buf = buf_get(r);] *)
Definition ensure_buf r c d : reasm * conn :=
  match f_buf (frame c d) with
  | Some _ => (r, c)
  | None =>
      let '(ok, r) := buf_get r in
      (r, if ok then upd_frame c d (fun f => f <| f_buf := Some [] |>) else c)
  end.

Definition buf_append c d (q : list Z) : conn :=
  upd_frame c d (fun f => f <| f_buf ::= fmap (fun b => b ++ q) |>).

Definition enter_skip c d (skip : Z) : conn :=
  if skip =? 0 then c
  else upd_frame c d (fun f => f <| f_st := LK_FR_SKIP |> <| f_skip_left := skip |>).

(** This fragment's body is accounted for: [rem] bytes of [p] complete the
    prefix, the rest of the body is an arithmetic skip. *)
Definition body_finish r o c d p (target rem entry_flags : Z) : step_result :=
  let f := frame c d in
  let skip := u64 (f_body_len f - (if f_prefix_closed f then 0 else target)) in
  if f_msg_cont f then
    let '(r, c) := if rem =? 0 then (r, c) else ensure_buf r c d in
    let c := if rem =? 0 then c else buf_append c d (ztake rem p) in
    let c := upd_frame c d (fun f => f <| f_prefix_closed := true |> <| f_hdr := [] |>
                                       <| f_st := LK_FR_HEADER |>) in
    Again r (enter_skip c d skip) (zdrop rem p)
  else
    let body := match f_buf f with
                | Some b => b ++ ztake rem p
                | None => ztake target p
                end in
    let '(r, c) := emit r o c d body in
    let '(r, c) := msg_reset r c d in
    finish_blind r (enter_skip c d skip) (zdrop rem p) entry_flags.

Definition body_step r o c d p (entry_flags : Z) : step_result :=
  let f := frame c d in
  let target := if f_prefix_closed f then buf_len f else body_target f in
  let rem := u32 (target - buf_len f) in
  if zlen p <? rem then
    let '(r, c) := ensure_buf r c d in
    match f_buf (frame c d) with
    | Some _ => Return r (buf_append c d p) false
    | None => body_finish r o c d p (buf_len f + zlen p) (zlen p) entry_flags
    end
  else body_finish r o c d p target rem entry_flags.

Definition skip_step r c d p : step_result :=
  let f := frame c d in
  let take := Z.min (f_skip_left f) (zlen p) in
  let left := f_skip_left f - take in
  let f := f <| f_skip_left := left |> in
  Again r (set_frame c d (if left =? 0 then f <| f_st := LK_FR_HEADER |> else f)) (zdrop take p).

Definition dirty_step r o c d p : step_result :=
  let '(used, found, c) := resync_scan o c d p in
  let p := zdrop used p in
  if negb found then Return r c false
  else let '(r, c) := do_resync r c d in Again r c p.

Definition frame_step r o c d p (ts entry_flags : Z) : step_result :=
  match f_st (frame c d) with
  | LK_FR_HEADER => header_step r o c d p ts entry_flags
  | LK_FR_BODY => body_step r o c d p entry_flags
  | LK_FR_SKIP => skip_step r c d p
  | LK_FR_DIRTY => dirty_step r o c d p
  end.

Fixpoint frame_loop (fuel : nat) r o c d p (ts entry_flags : Z) : option (reasm * conn * bool) :=
  match p, fuel with
  | [], _ => Some (r, c, false)
  | _, O => None
  | _, Datatypes.S fuel =>
      match frame_step r o c d p ts entry_flags with
      | Again r c p => frame_loop fuel r o c d p ts entry_flags
      | Return r c abort => Some (r, c, abort)
      end
  end.

(** Two iterations per byte (a BODY step may consume nothing) and a spare. *)
Definition loop_fuel (p : list Z) : nat := (2 * length p + 1)%nat.

Definition lk_frame_bytes r c d p (ts : Z) : option (reasm * conn) :=
  let '(o, c) := conn_ops c in
  let entry_flags := c_flags c in
  if has_flag (po_flags o) LK_PROTO_F_STREAM then
    Some (match p with [] => (r, c) | _ => stream_bytes o r c d p ts end)
  else
    let '(go, r, c, p) :=
      match intercept_bytes o, p with
      | Some ib, _ :: _ => ib r c d p ts
      | _, _ => (true, r, c, p)
      end in
    if go then fst <$> frame_loop (loop_fuel p) r o c d p ts entry_flags else Some (r, c).

(** ** The hole machine *)
Definition hole_body r o c d (n entry_flags : Z) : bool * reasm * conn * Z :=
  let f := frame c d in
  let rem := u64 (f_body_len f - (if f_prefix_closed f then 0 else buf_len f)) in
  let take := if rem <? n then rem else n in
  let n := n - take in
  if f_msg_cont f then
    let c := upd_frame c d (fun f => f <| f_prefix_closed := true |> <| f_hdr := [] |>
                                       <| f_st := LK_FR_HEADER |>) in
    (true, r, if take <? rem then enter_skip c d (rem - take) else c, n)
  else
    let '(r, c) := emit r o c d (buf_bytes f) in
    let '(r, c) := msg_reset r c d in
    let c := if take <? rem then enter_skip c d (rem - take) else c in
    let '(blind, r) := went_blind r c entry_flags in
    (negb blind, r, c, n).

Fixpoint hole_loop (fuel : nat) r o c d (n entry_flags : Z) : option (reasm * conn) :=
  if n =? 0 then Some (r, c)
  else match fuel with
  | O => None
  | Datatypes.S fuel =>
      match f_st (frame c d) with
      | LK_FR_HEADER => Some (go_dirty r c d (fun s => s <| rs_hdr_holes ::= inc64 |>))
      | LK_FR_BODY =>
          let '(go, r, c, n) := hole_body r o c d n entry_flags in
          if go then hole_loop fuel r o c d n entry_flags else Some (r, c)
      | LK_FR_SKIP =>
          let f := frame c d in
          let take := Z.min (f_skip_left f) n in
          let left := f_skip_left f - take in
          let f := f <| f_skip_left := left |> in
          let c := set_frame c d (if left =? 0 then f <| f_st := LK_FR_HEADER |> else f) in
          hole_loop fuel r o c d (n - take) entry_flags
      | LK_FR_DIRTY => Some (r, c)
      end
  end.

(** BODY, SKIP, HEADER: three iterations at most, whatever the hole's size. *)
Definition hole_fuel : nat := 3.

Definition count_hole r (n : Z) : reasm :=
  bump r (fun s => s <| rs_holes ::= inc64 |> <| rs_hole_bytes ::= fun b => u64 (b + n) |>).

Definition lk_frame_hole r c d (n : Z) : option (reasm * conn) :=
  let '(o, c) := conn_ops c in
  let entry_flags := c_flags c in
  if n =? 0 then Some (r, c)
  else if has_flag (po_flags o) LK_PROTO_F_STREAM then
    Some (stream_hole o (count_hole r n) c d n)
  else
    let '(hit, r, c) := match intercept_hole o with
                        | Some ih => ih r c d
                        | None => (false, r, c)
                        end in
    if hit then Some (go_dirty r c d (fun s => s <| rs_hdr_holes ::= inc64 |>))
    else match f_st (frame c d) with
         | LK_FR_DIRTY => Some (r, upd_frame c d (fun f => f <| f_resync_matched := 0 |>))
         | _ => hole_loop hole_fuel (count_hole r n) o c d n entry_flags
         end.

(** ** The chunk layer *)

(** A new call ([off == 0]) turns the under-captured tail of the previous one
    into a hole; a mid-call chunk with no call in progress adopts the call. *)
Definition call_begin r c d (off total : Z) : option (reasm * conn) :=
  let f := frame c d in
  if off =? 0 then
    '(r, c) ← (if f_call_pos f <? f_call_total f
               then lk_frame_hole r c d (f_call_total f - f_call_pos f)
               else Some (r, c));
    Some (r, upd_frame c d (fun f => f <| f_call_total := total |> <| f_call_pos := 0 |>))
  else if f_call_total f =? 0 then
    Some (r, upd_frame c d (fun f => f <| f_call_total := total |> <| f_call_pos := 0 |>))
  else Some (r, c).

(** Chunk arithmetic: an anomaly dirties, a missing interval is a hole. *)
Definition call_check r c d (off total cap_len : Z) : option (reasm * conn) :=
  let f := frame c d in
  if negb (total =? f_call_total f) || (off <? f_call_pos f) || (total <? off + cap_len) then
    let '(r, c) := match f_st f with
                   | LK_FR_DIRTY => (r, c)
                   | _ => go_dirty r c d (fun s => s <| rs_off_anomalies ::= inc64 |>)
                   end in
    Some (r, upd_frame c d (fun f => f <| f_call_total := total |> <| f_call_pos := off |>))
  else if f_call_pos f <? off then
    '(r, c) ← lk_frame_hole r c d (off - f_call_pos f);
    Some (r, upd_frame c d (fun f => f <| f_call_pos := off |>))
  else Some (r, c).

Definition call_end c d (off cap_len : Z) : conn :=
  upd_frame c d (fun f =>
    let pos := u32 (off + cap_len) in
    if f_call_total f <=? pos then f <| f_call_total := 0 |> <| f_call_pos := 0 |>
    else f <| f_call_pos := pos |>).

Definition lk_reasm_data r c d (ev : lk_ev_data) (cap_len : Z) : option (reasm * conn) :=
  let '(o, c) := conn_ops c in
  let total := ed_total_len ev in
  let off := ed_off ev in
  let decrypted := has_flag (h_flags (ed_hdr ev)) LK_F_DECRYPTED in
  if has_flag (c_flags c) (Z.lor LK_CONN_CANCEL LK_CONN_IGNORE) then Some (r, c)
  else if has_flag (c_flags c) LK_CONN_TLS && negb decrypted then Some (r, c)
  else
    '(r, c) ← call_begin r c d off total;
    '(r, c) ← call_check r c d off total cap_len;
    let '(r, c) :=
      match f_st (frame c d) with
      | LK_FR_DIRTY =>
          if negb (has_flag (po_flags o) LK_PROTO_F_STREAM) && resync_boundary o c d ev cap_len
          then do_resync r c d else (r, c)
      | _ => (r, c)
      end in
    '(r, c) ← (if cap_len =? 0 then Some (r, c)
               else lk_frame_bytes r c d (ztake cap_len (ed_payload ev))
                                   (h_ts_ns (ed_hdr ev)));
    Some (r, call_end c d off cap_len).

End Reassembly.
Arguments Again {S P F}. Arguments Return {S P F}.
