(* ===== verification/StreamSafe.v ===== *)
(** What the byte-stream framers (Redis, HTTP) share: the events of a capture, consumers
    that leave the framing state alone, and what the framer's services then preserve. *)
From stdpp Require Import base list option.
From S2P Require Import Prelude Conn Reassembly.
#[local] Open Scope Z_scope.

(** ** What the capture delivers *)
Inductive seg := Seg (ts : Z) (bytes : list Z) | Gap (n : Z).
Definition wide (e : lk_dir * seg) : Prop := match e.2 with Seg _ _ => True | Gap n => 0 <= n end.
Definition other (d : lk_dir) : lk_dir := match d with LK_DIR_SEND => LK_DIR_RECV | LK_DIR_RECV => LK_DIR_SEND end.

(** A consumer that leaves the framing state to the framer. *)
Class StreamSink {S P F} (k : lk_msg_sink S P F) := {
  law_stream_msg cb s c d m : on_msg k = Some cb ->
    c_frame_state (cb s c d m).2 = c_frame_state c /\ forall d', frame (cb s c d m).2 d' = frame c d';
  law_stream_resync cb s c d : on_resync k = Some cb ->
    c_frame_state (cb s c d).2 = c_frame_state c /\ forall d', frame (cb s c d).2 d' = frame c d' }.

Section Services.
Context {S P F : Type} (k : lk_msg_sink S P F) {SS : StreamSink k} (d : lk_dir).
Implicit Types (r : lk_reasm S P F) (c : lk_conn P F).
(** The consumer is [k] and the freelist is bounded. *)
Definition okr r : Prop := r_sink r = k /\ 0 <= r_pool_n r <= LK_REASM_POOL_MAX.
Lemma okr_bump r g : okr r -> okr (bump r g).
Proof. by intros [? ?]. Qed.
Lemma okr_malloc r : okr r -> okr (malloc r).2.
Proof. intros [H1 H2]. unfold malloc. by destruct (r_oom r). Qed.
Lemma okr_get r : okr r -> okr (buf_get r).2.
Proof.
  intros [H1 H2]. unfold buf_get. destruct (Z.eqb_spec (r_pool_n r) 0); cbn [negb]; [by apply okr_malloc|]. split; [done|]. cbn. lia.
Qed.
Lemma okr_put r b : okr r -> okr (buf_put r b).
Proof. intros [H1 H2]. unfold buf_put. destruct b; [|done]. destruct (Z.ltb_spec (r_pool_n r) LK_REASM_POOL_MAX); [|done]. split; [done|]. cbn. lia. Qed.

(** Emitting changes nothing of the framing but the pending resync mark. *)
Lemma emit_frames r c m : okr r -> exists r' c' b, lk_reasm_emit r c d m = (r', c') /\ okr r' /\ c_frame_state c' = c_frame_state c /\
  frame c' d = frame c d <| f_after_resync := b |> /\ frame c' (other d) = frame c (other d).
Proof.
  intros Hr. unfold lk_reasm_emit. set (b := f_after_resync (frame c d)).
  assert (exists c1 m1, stamp_resync c d m = (c1, m1) /\ c_frame_state c1 = c_frame_state c /\ frame c1 d = frame c d <| f_after_resync := false |> /\ frame c1 (other d) = frame c (other d)) as (c1 & m1 & -> & E1 & E2 & E3).
  { unfold stamp_resync. fold b. destruct b eqn:Eb; eexists _, _; (split; [reflexivity|]); [unfold other; by destruct d|]. split; [done|]. split; [|done]. subst b. destruct (frame c d). cbn in *. by subst. }
  set (r1 := bump _ _). assert (okr r1) as Hr1 by (subst r1; apply okr_bump; destruct (has_flag _ _); [by apply okr_bump|done]). clearbody r1. unfold deliver.
  destruct (on_msg (r_sink r1)) as [cb|] eqn:Ek; [|by exists r1, c1, false]. rewrite (proj1 Hr1) in Ek. destruct (law_stream_msg cb (r_ctx r1) c1 d m1 Ek) as [L1 L2].
  destruct (cb (r_ctx r1) c1 d m1) as [s c2]. exists (r1 <| r_ctx := s |>), c2, false. cbn [snd] in *. rewrite !L2. split; [done|]. split; [done|]. split; [congruence|done].
Qed.
(** A resync drops the open message. *)
Definition resynced (f : lk_frame) : lk_frame :=
  f <| f_buf := None |> <| f_hdr := [] |> <| f_body_len := 0 |> <| f_msg_cont := false |> <| f_prefix_closed := false |>
    <| f_st := LK_FR_HEADER |> <| f_skip_left := 0 |> <| f_resync_matched := 0 |> <| f_after_resync := true |> <| f_startup_done := true |>.
Lemma resync_frames r c : okr r -> exists r' c', lk_reasm_resync r c d = (r', c') /\ okr r' /\ c_frame_state c' = c_frame_state c /\
  frame c' d = resynced (frame c d) /\ frame c' (other d) = frame c (other d).
Proof.
  intros Hr. unfold lk_reasm_resync, do_resync, msg_reset. set (r0 := bump _ _). assert (okr r0) as H0 by apply okr_bump, okr_put, Hr.
  set (c0 := upd_frame _ d _).
  assert (c_frame_state c0 = c_frame_state c /\ frame c0 (other d) = frame c (other d) /\ frame c0 d = resynced (frame c d)) as (E1 & E2 & E3).
  { subst c0. unfold other. split; [by destruct d|]. split; by destruct d. }
  clearbody r0 c0. destruct (on_resync (r_sink r0)) as [cb|] eqn:Ek; [|by exists r0, c0]. rewrite (proj1 H0) in Ek.
  destruct (law_stream_resync cb (r_ctx r0) c0 d Ek) as [L1 L2]. destruct (cb (r_ctx r0) c0 d) as [s c2]. exists (r0 <| r_ctx := s |>), c2. cbn [snd] in *. rewrite !L2, L1. done.
Qed.
End Services.
