(* ===== verification/Framer.v ===== *)
(** What the framer asks of a protocol and of a sink, and the well-formedness
    invariant of the per-direction state.

    [FramerLaws] is the contract written in prose above [struct lk_proto_ops]
    ([proto/proto.h]); [PgFrame] and [MyFrame] discharge it.  [SinkLaws] says a
    consumer never touches the framing state it is handed. *)
From stdpp Require Import base list option.
From S2P Require Import Prelude Conn Reassembly.
#[local] Open Scope Z_scope.

(** ** Frame relations *)

(** [f'] is [f] after callbacks ran on it: framing may only have finished the
    startup phase and consumed the pending resync mark. *)
Definition quiet (f f' : lk_frame) : Prop :=
  exists a e, f' = f <| f_startup_done ::= orb a |> <| f_after_resync ::= andb e |>.

(** No message is being assembled, except mid-glue, where the prefix is pinned. *)
Definition boundary (f : lk_frame) : Prop :=
  f_prefix_closed f = f_msg_cont f /\ (f_msg_cont f = false -> f_buf f = None).

Definition st_wf (size : Z) (f : lk_frame) : Prop :=
  match f_st f with
  | LK_FR_HEADER => hdr_len f < size /\ boundary f
  | LK_FR_BODY => 0 < f_body_len f /\ (f_prefix_closed f = false -> buf_len f < body_target f)
  | LK_FR_SKIP => 0 < f_skip_left f /\ f_hdr f = [] /\ boundary f
  | LK_FR_DIRTY => True
  end.

(** State-independent bounds; [frame_wf] adds what the current state promises. *)
Record frame_base (f : lk_frame) : Prop := FrameBase {
  wf_hdr : bytes_ok (f_hdr f);
  wf_buf : bytes_ok (buf_bytes f);
  wf_buf_max : buf_len f <= LK_MSG_BODY_MAX;
  wf_body_len : 0 <= f_body_len f < 2 ^ 32;
  wf_skip_left : 0 <= f_skip_left f;
  wf_matched : 0 <= f_resync_matched f <= 5;
  wf_call_pos : 0 <= f_call_pos f < 2 ^ 32;
  wf_call_total : 0 <= f_call_total f < 2 ^ 32 }.
Definition frame_wf (size : Z) (f : lk_frame) : Prop := frame_base f /\ st_wf size f.

Definition startup_touch {P F} (c : lk_conn P F) (fl : Z) (a b : bool) : lk_conn P F :=
  c <| c_flags := fl |> <| c_send ::= fun f => f <| f_startup_done ::= orb a |> |>
    <| c_recv ::= fun f => f <| f_startup_done ::= orb b |> |>.

Definition with_frames {P F} (c : lk_conn P F) (fs fr : lk_frame) : lk_conn P F :=
  c <| c_send := fs |> <| c_recv := fr |>.

Definition with_buf {P F} (c : lk_conn P F) (d : lk_dir) (b : option (list Z)) : lk_conn P F :=
  upd_frame c d (fun f => f <| f_buf := b |>).

(** Framing never re-keys a connection, reassigns its protocol or turns a TLS
    connection back into a plaintext one. *)
Definition same_id {P F} (c c' : lk_conn P F) : Prop :=
  c_ops c' = c_ops c /\ c_cookie c' = c_cookie c /\
  (has_flag (c_flags c) LK_CONN_TLS = true -> has_flag (c_flags c') LK_CONN_TLS = true).
#[global] Instance same_id_pre {P F} : PreOrder (same_id (P:=P) (F:=F)).
Proof. split; [done|]. intros ? ? ? (?&?&?) (?&?&?). split_and!; [congruence..|auto]. Qed.
Lemma same_id_frame {P F} (c : lk_conn P F) d f : same_id c (set_frame c d f).
Proof. by destruct d. Qed.
(** A property of the identity, maintained by framing. *)
Class Stable {S P F} (K : lk_msg_sink S P F -> lk_conn P F -> Prop) :=
  stable k c c' : same_id c c' -> K k c -> K k c'.
Definition proto_is {S P F} (id : proto_id) (k : lk_msg_sink S P F) (c : lk_conn P F) : Prop :=
  c_ops c = Some id.
#[global] Instance proto_is_stable {S P F} id : Stable (proto_is (S:=S) (P:=P) (F:=F) id).
Proof. intros k c c' (H & _). unfold proto_is. by rewrite H. Qed.

(** ** The consumer's side: callbacks do not read or write the frames, and do
    not change the identity *)
Class SinkLaws {S P F} (k : lk_msg_sink S P F) := {
  law_on_msg cb s c d m fs fr :
    on_msg k = Some cb ->
    cb s (with_frames c fs fr) d m = ((cb s c d m).1, with_frames (cb s c d m).2 fs fr);
  law_on_msg_id cb s c d m : on_msg k = Some cb -> same_id c (cb s c d m).2;
  law_on_resync cb s c d fs fr :
    on_resync k = Some cb ->
    cb s (with_frames c fs fr) d = ((cb s c d).1, with_frames (cb s c d).2 fs fr);
  law_on_resync_id cb s c d : on_resync k = Some cb -> same_id c (cb s c d).2
}.

(** What an operation leaves alone in the framer object. *)
Definition same_env {S P F} (r r' : lk_reasm S P F) : Prop :=
  r_sink r' = r_sink r /\ r_pool_n r' = r_pool_n r /\ r_oom r' = r_oom r.

(** ** The protocol's side of the contract *)
Class FramerLaws {S P F} (o : lk_proto_ops S P F) := {
  law_hdr_size_range c d : 1 <= hdr_size o c d <= 8;
  law_hdr_size_ext c c' d :
    f_startup_done (frame c d) = f_startup_done (frame c' d) -> hdr_size o c d = hdr_size o c' d;
  law_hdr_size_mono c c' d :
    (f_startup_done (frame c d) = true -> f_startup_done (frame c' d) = true) ->
    hdr_size o c d <= hdr_size o c' d;
  (** [parse_hdr] writes only the message fields of its own direction. *)
  law_parse_hdr c d ok c' :
    parse_hdr o c d = (ok, c') -> bytes_ok (f_hdr (frame c d)) ->
    exists ty ln bl bt sq s0 mc, 0 <= bl < 2 ^ 32 /\
      c' = set_frame c d (frame c d <| f_msg_type := ty |> <| f_msg_len := ln |>
             <| f_body_len := if ok then bl else f_body_len (frame c d) |>
             <| f_body_total := bt |> <| f_msg_seq := sq |> <| f_msg_seq0 := s0 |>
             <| f_msg_cont := mc |>);
  (** [pre_emit] may set connection flags, finish the startup phase and retype
      or flag the message; it does not see the body buffer. *)
  law_pre_emit c d m c' m' :
    pre_emit o c d m = (c', m') ->
    exists fl a b ty mf, (has_flag (c_flags c) LK_CONN_TLS = true -> has_flag fl LK_CONN_TLS = true) /\
      c' = startup_touch c fl a b /\ m' = m <| m_type := ty |> <| m_flags := mf |>;
  law_pre_emit_buf c d b m :
    pre_emit o (with_buf c d b) d m =
      (with_buf (pre_emit o c d m).1 d b, (pre_emit o c d m).2);
  (** [resync_scan] is a left-to-right automaton on [f_resync_matched]; a hit
      consumes at least the byte that completes it. *)
  law_scan c d p used found c' :
    resync_scan o c d p = (used, found, c') -> 0 <= f_resync_matched (frame c d) <= 5 ->
    0 <= used <= zlen p /\ (found = true -> 0 < used) /\ (found = false -> used = zlen p) /\
    exists k, 0 <= k <= 5 /\ c' = upd_frame c d (fun f => f <| f_resync_matched := k |>);
  law_scan_app_hit c d p q used c' :
    resync_scan o c d p = (used, true, c') -> resync_scan o c d (p ++ q) = (used, true, c');
  law_scan_app_miss c d p q used c' :
    resync_scan o c d p = (used, false, c') ->
    resync_scan o c d (p ++ q) =
      (zlen p + (resync_scan o c' d q).1.1, (resync_scan o c' d q).1.2, (resync_scan o c' d q).2);
  (** The intercept hooks leave the frames alone and consume from the front. *)
  law_intercept ib r c d p ts go r' c' p' :
    intercept_bytes o = Some ib -> SinkLaws (r_sink r) -> ib r c d p ts = (go, r', c', p') ->
    same_env r r' /\ same_id c c' /\ (forall d', frame c' d' = frame c d') /\
    exists n, p' = zdrop n p;
  law_intercept_hole ih r c d hit r' c' :
    intercept_hole o = Some ih -> ih r c d = (hit, r', c') ->
    r' = r /\ same_id c c' /\ forall d', frame c' d' = frame c d'
}.

Section Wf.
Context {S P F : Type}.
Definition conn_wf (o : lk_proto_ops S P F) (c : lk_conn P F) : Prop :=
  forall d, frame_wf (hdr_size o c d) (frame c d).
Definition pool_wf (r : lk_reasm S P F) : Prop := 0 <= r_pool_n r <= LK_REASM_POOL_MAX.
End Wf.

(** ** [quiet] facts *)
Lemma quiet_refl f : quiet f f.
Proof. exists false, true. by destruct f. Qed.
Lemma quiet_trans f g h : quiet f g -> quiet g h -> quiet f h.
Proof.
  intros (a & e & ->) (a' & e' & ->). exists (a' || a), (e' && e). destruct f; cbn.
  by rewrite <- orb_assoc, <- andb_assoc.
Qed.
#[global] Instance quiet_preorder : PreOrder quiet.
Proof. split; [exact quiet_refl|exact quiet_trans]. Qed.
#[export] Hint Resolve quiet_refl quiet_trans : lk.

Lemma quiet_startup f g : quiet f g -> f_startup_done f = true -> f_startup_done g = true.
Proof. intros (a & e & ->) H; cbn. rewrite H. apply orb_true_r. Qed.

Lemma frame_base_quiet f g : quiet f g -> frame_base f -> frame_base g.
Proof. by intros (a & e & ->) []. Qed.

Lemma frame_base_st f s : frame_base f -> frame_base (f <| f_st := s |>).
Proof. by intros []. Qed.

Lemma frame_base_skip f k : frame_base f -> 0 <= k -> frame_base (f <| f_skip_left := k |>).
Proof. by intros []; split. Qed.

Lemma frame_base_buf f b :
  frame_base f -> bytes_ok (default [] b) -> zlen (default [] b) <= LK_MSG_BODY_MAX ->
  frame_base (f <| f_buf := b |>).
Proof. by intros []; split. Qed.

Lemma frame_wf_quiet size size' f g :
  quiet f g -> size <= size' -> frame_wf size f -> frame_wf size' g.
Proof.
  intros Hq Hle [Hb Hst]. split; [by eapply frame_base_quiet|]. destruct Hq as (a & e & ->).
  unfold st_wf, hdr_len in *; cbn. destruct (f_st f); [destruct Hst; split; [lia|done]|done..].
Qed.

(** Expose the projections of updated frames to [lia]. *)
Ltac fr_cbn :=
  unfold st_wf, boundary, buf_len, buf_bytes, hdr_len, body_target, LK_MSG_BODY_MAX in *;
  cbn -[Z.pow zlen] in *; autorewrite with lk_len in *.

(** The frame [msg_reset] leaves behind, entering a skip of [skip] bytes. *)
Definition reset_frame (f : lk_frame) : lk_frame :=
  f <| f_buf := None |> <| f_hdr := [] |> <| f_body_len := 0 |> <| f_msg_cont := false |>
    <| f_prefix_closed := false |> <| f_st := LK_FR_HEADER |>.
Definition skip_frame (skip : Z) (f : lk_frame) : lk_frame :=
  if skip =? 0 then f else f <| f_st := LK_FR_SKIP |> <| f_skip_left := skip |>.

Lemma reset_frame_wf size skip f :
  1 <= size -> 0 <= skip -> frame_base f -> frame_wf size (skip_frame skip (reset_frame f)).
Proof.
  intros Hs Hskip []. unfold skip_frame, reset_frame.
  destruct (Z.eqb_spec skip 0); split; try split; fr_cbn; try done; try apply bytes_ok_nil; try lia;
    repeat split; done || lia.
Qed.
