(* ===== verification/FramerFacts.v ===== *)
(** The framer's invariant and the termination of its loops, for every
    protocol that satisfies [FramerLaws]. *)
From stdpp Require Import base list option.
From S2P Require Import Prelude Conn Reassembly Framer.
#[local] Open Scope Z_scope.

Section FramerFacts.
Context {S P F : Type} (o : lk_proto_ops S P F) {FL : FramerLaws o}.
Abbreviation reasm := (lk_reasm S P F).
Abbreviation conn := (lk_conn P F).
(** What is known of the connection's identity. *)
Context (K : lk_msg_sink S P F -> conn -> Prop) {SK : Stable K}.
Implicit Types (r : reasm) (c : conn) (d : lk_dir) (p : list Z).

Lemma same_env_refl r : same_env r r. Proof. done. Qed.
Lemma same_env_trans r1 r2 r3 : same_env r1 r2 -> same_env r2 r3 -> same_env r1 r3.
Proof. intros (?&?&?) (?&?&?). repeat split; congruence. Qed.
Lemma bump_env r cnt : same_env r (bump r cnt). Proof. done. Qed.
#[local] Hint Resolve same_env_refl bump_env : lk.

Definition all_quiet c c' : Prop :=
  same_id c c' /\ forall d, quiet (frame c d) (frame c' d).

Lemma with_frames_id c : with_frames c (c_send c) (c_recv c) = c.
Proof. by destruct c. Qed.

Lemma on_msg_frames (k : lk_msg_sink S P F) cb s c d m d' :
  SinkLaws k -> on_msg k = Some cb -> frame (cb s c d m).2 d' = frame c d'.
Proof.
  intros SL E. pose proof (law_on_msg cb s c d m (c_send c) (c_recv c) E) as L.
  rewrite with_frames_id in L. rewrite L. by destruct d'.
Qed.
Lemma on_resync_frames (k : lk_msg_sink S P F) cb s c d d' :
  SinkLaws k -> on_resync k = Some cb -> frame (cb s c d).2 d' = frame c d'.
Proof.
  intros SL E. pose proof (law_on_resync cb s c d (c_send c) (c_recv c) E) as L.
  rewrite with_frames_id in L. rewrite L. by destruct d'.
Qed.

Lemma deliver_spec r c d m :
  SinkLaws (r_sink r) ->
  same_env r (deliver r c d m).1 /\ same_id c (deliver r c d m).2 /\
  forall d', frame (deliver r c d m).2 d' = frame c d'.
Proof.
  intros SL. unfold deliver. destruct (on_msg (r_sink r)) as [cb|] eqn:E; [|done].
  pose proof (fun d' => on_msg_frames _ cb (r_ctx r) c d m d' SL E).
  pose proof (law_on_msg_id cb (r_ctx r) c d m E).
  by destruct (cb (r_ctx r) c d m).
Qed.

Lemma buf_put_env r b :
  r_sink (buf_put r b) = r_sink r /\ r_oom (buf_put r b) = r_oom r /\ r_ctx (buf_put r b) = r_ctx r /\
  r_st (buf_put r b) = r_st r /\ (pool_wf r -> pool_wf (buf_put r b)).
Proof.
  unfold buf_put, pool_wf. destruct b; [|done].
  destruct (Z.ltb_spec (r_pool_n r) LK_REASM_POOL_MAX); cbn; repeat split; lia.
Qed.

Definition resynced_frame (f : lk_frame) : lk_frame :=
  reset_frame f <| f_skip_left := 0 |> <| f_resync_matched := 0 |> <| f_after_resync := true |>
    <| f_startup_done := true |>.

Lemma do_resync_spec r c d :
  SinkLaws (r_sink r) ->
  let '(r', c') := do_resync r c d in
  r_sink r' = r_sink r /\ r_oom r' = r_oom r /\ (pool_wf r -> pool_wf r') /\
  same_id c c' /\
  (forall d', d' <> d -> frame c' d' = frame c d') /\ frame c' d = resynced_frame (frame c d).
Proof.
  intros SL. unfold do_resync, msg_reset.
  destruct (buf_put_env r (f_buf (frame c d))) as (Hk & Ho & Hx & _ & Hp).
  set (r1 := buf_put r _) in *. cbn. rewrite Hk.
  assert (forall c1 : conn, c1 = upd_frame (set_frame c d (reset_frame (frame c d))) d
            (fun f => f <| f_skip_left := 0 |> <| f_resync_matched := 0 |>
               <| f_after_resync := true |> <| f_startup_done := true |>) ->
          same_id c c1 /\ (forall d', d' <> d -> frame c1 d' = frame c d') /\
          frame c1 d = resynced_frame (frame c d)) as Hc.
  { intros c1 ->. unfold upd_frame. rewrite !frame_set_eq. split_and!; try done; [by rewrite set_frame_set; apply same_id_frame|].
    intros d' Hd. by rewrite set_frame_set, frame_set_ne by done. }
  specialize (Hc _ eq_refl) as (Hops & Hne & Heq). unfold reset_frame in Hops, Hne, Heq.
  cbn in Hops, Hne, Heq.
  destruct (on_resync (r_sink r)) as [cb|] eqn:E; [|done].
  match goal with |- context [cb ?s ?c1 d] =>
    pose proof (fun d' => on_resync_frames _ cb s c1 d d' SL E) as Hf;
    pose proof (law_on_resync_id cb s c1 d E) as Ho'; destruct (cb s c1 d) end.
  cbn [fst snd] in *. split_and!; try done; [by etrans|intros d' Hd|]; rewrite Hf; [by apply Hne|done].
Qed.

Lemma stamp_resync_quiet c d m : all_quiet c (stamp_resync c d m).1.
Proof.
  unfold stamp_resync, upd_frame. destruct (f_after_resync (frame c d)); [|done].
  cbn. split; [apply same_id_frame|]. intros d'. destruct (decide (d' = d)) as [->|Hd].
  - rewrite frame_set_eq. exists false, false. by destruct (frame c d).
  - by rewrite frame_set_ne.
Qed.

Lemma touch_quiet c fl a b :
  (has_flag (c_flags c) LK_CONN_TLS = true -> has_flag fl LK_CONN_TLS = true) ->
  all_quiet c (startup_touch c fl a b).
Proof.
  intros Hfl. split; [done|]. intros d. exists (match d with LK_DIR_SEND => a | LK_DIR_RECV => b end), true.
  by destruct c as [??????????[][]??], d.
Qed.

Lemma all_quiet_trans c1 c2 c3 : all_quiet c1 c2 -> all_quiet c2 c3 -> all_quiet c1 c3.
Proof. intros [? H1] [? H2]. split; [by trans c2|]. intros d. by transitivity (frame c2 d). Qed.

Lemma emit_spec r c d body :
  SinkLaws (r_sink r) ->
  let '(r', c') := emit r o c d body in same_env r r' /\ all_quiet c c'.
Proof.
  intros SL. unfold emit. destruct (pre_emit o c d _) as [c1 m1] eqn:E1.
  apply law_pre_emit in E1 as (fl & a & b & ty & mf & Hfl & -> & ->).
  pose proof (stamp_resync_quiet (startup_touch c fl a b) d
    (Msg (f_msg_ts (frame c d)) (f_msg_type (frame c d)) 0 (f_msg_len (frame c d)) body
       <| m_type := ty |> <| m_flags := mf |>)) as Hq.
  destruct (stamp_resync _ _ _) as [c2 m2]. cbn in Hq.
  assert (all_quiet c c2) as Hq2 by (eapply all_quiet_trans; [by apply touch_quiet|done]).
  destruct (_ <? _);
    match goal with |- context [deliver ?r1 c2 d ?m3] =>
      pose proof (deliver_spec r1 c2 d m3 SL) as (He & Ho & Hf); destruct (deliver r1 c2 d m3) end;
    cbn in *; destruct Hq2 as [Ho2 Hq2];
    (split; [exact He|split; [by trans c2|intros d'; rewrite Hf; apply Hq2]]).
Qed.

Definition dirty_frame (f : lk_frame) : lk_frame :=
  reset_frame f <| f_skip_left := 0 |> <| f_resync_matched := 0 |> <| f_st := LK_FR_DIRTY |>.

Lemma go_dirty_spec r c d cnt :
  let '(r', c') := go_dirty r c d cnt in
  r_sink r' = r_sink r /\ r_oom r' = r_oom r /\ (pool_wf r -> pool_wf r') /\
  c' = set_frame c d (dirty_frame (frame c d)).
Proof.
  unfold go_dirty, msg_reset. destruct (buf_put_env (bump r cnt) (f_buf (frame c d))) as (?&?&_&_&?).
  split_and!; try done. unfold upd_frame. by rewrite frame_set_eq, set_frame_set.
Qed.

Lemma msg_reset_spec r c d :
  let '(r', c') := msg_reset r c d in
  r_sink r' = r_sink r /\ r_oom r' = r_oom r /\ r_ctx r' = r_ctx r /\ r_st r' = r_st r /\
  (pool_wf r -> pool_wf r') /\ c' = set_frame c d (reset_frame (frame c d)).
Proof. unfold msg_reset. destruct (buf_put_env r (f_buf (frame c d))) as (?&?&?&?&?). done. Qed.

Lemma conn_wf_upd c c' d :
  conn_wf o c -> (forall d', d' <> d -> quiet (frame c d') (frame c' d')) ->
  frame_wf (hdr_size o c' d) (frame c' d) -> conn_wf o c'.
Proof.
  intros Hwf Hne Hd d'. destruct (decide (d' = d)) as [->|Hn]; [done|].
  eapply frame_wf_quiet; [by apply Hne| |apply Hwf].
  apply law_hdr_size_mono, quiet_startup. by apply Hne.
Qed.

Lemma conn_wf_set c d f :
  conn_wf o c -> frame_wf (hdr_size o (set_frame c d f) d) f -> conn_wf o (set_frame c d f).
Proof.
  intros Hwf Hf. eapply conn_wf_upd; [done| |by rewrite frame_set_eq].
  intros d' Hn. by rewrite frame_set_ne.
Qed.

Lemma conn_wf_quiet c c' : conn_wf o c -> all_quiet c c' -> conn_wf o c'.
Proof.
  intros Hwf [_ Hq] d. eapply frame_wf_quiet; [apply Hq| |apply Hwf].
  apply law_hdr_size_mono, quiet_startup, Hq.
Qed.

Lemma dirty_frame_wf size f : frame_base f -> frame_wf size (dirty_frame f).
Proof.
  intros []. unfold dirty_frame, reset_frame.
  split; try split; fr_cbn; try done; try apply bytes_ok_nil; lia.
Qed.

(** The state a step hands over, and the weaker condition that holds of
    direction [d] while a step is rebuilding it. *)
Definition state_wf r c : Prop :=
  SinkLaws (r_sink r) /\ pool_wf r /\ K (r_sink r) c /\ conn_wf o c.
Definition mid_wf r c d : Prop :=
  SinkLaws (r_sink r) /\ pool_wf r /\ K (r_sink r) c /\ frame_base (frame c d) /\
  forall d', d' <> d -> frame_wf (hdr_size o c d') (frame c d').
Definition in_body c d : nat := match f_st (frame c d) with LK_FR_BODY => 1 | _ => 0 end.
Definition step_ok d (n : nat) (res : step_result (S:=S) (P:=P) (F:=F)) : Prop :=
  match res with
  | Again r c p => state_wf r c /\ bytes_ok p /\ (2 * length p + in_body c d < n)%nat
  | Return r c _ => state_wf r c
  end.

Lemma state_mid r c d : state_wf r c -> mid_wf r c d.
Proof. intros (? & ? & ? & Hwf). split_and!; [done..|apply Hwf|intros d' _; apply Hwf]. Qed.

Lemma mid_base r c d : mid_wf r c d -> frame_base (frame c d).
Proof. by intros (_ & _ & _ & ? & _). Qed.

Lemma mid_wf_set r c d f : mid_wf r c d -> frame_base f -> mid_wf r (set_frame c d f) d.
Proof.
  intros (? & ? & ? & _ & Hne) Hf. split_and!; try done.
  - by eapply stable; [apply same_id_frame|].
  - by rewrite frame_set_eq.
  - intros d' Hd. rewrite frame_set_ne by done. rewrite (law_hdr_size_ext (o:=o) _ c d');
      [by apply Hne|by rewrite frame_set_ne].
Qed.

Lemma mid_wf_close r c d f :
  mid_wf r c d -> frame_wf (hdr_size o (set_frame c d f) d) f -> state_wf r (set_frame c d f).
Proof.
  intros (? & ? & ? & _ & Hne) Hf. split_and!; try done; [by eapply stable; [apply same_id_frame|]|]. intros d'.
  destruct (decide (d' = d)) as [->|Hd]; [by rewrite frame_set_eq|].
  rewrite frame_set_ne by done. rewrite (law_hdr_size_ext (o:=o) _ c d');
    [by apply Hne|by rewrite frame_set_ne].
Qed.

Lemma mid_wf_close_any r c d f :
  mid_wf r c d -> (forall size, 1 <= size -> frame_wf size f) -> state_wf r (set_frame c d f).
Proof. intros Hm Hf. apply mid_wf_close; [done|]. apply Hf, law_hdr_size_range. Qed.

Lemma mid_wf_env r r' c d :
  r_sink r' = r_sink r -> (pool_wf r -> pool_wf r') -> mid_wf r c d -> mid_wf r' c d.
Proof. intros Hk Hp (? & ? & ? & ? & ?). split_and!; auto; by rewrite Hk. Qed.

Lemma go_dirty_wf r c d cnt :
  mid_wf r c d -> let '(r', c') := go_dirty r c d cnt in state_wf r' c'.
Proof.
  intros Hm. pose proof (go_dirty_spec r c d cnt) as H.
  destruct (go_dirty r c d cnt) as [r' c']. destruct H as (Hk & _ & Hp' & ->).
  apply mid_wf_close; [by apply (mid_wf_env r)|]. by apply dirty_frame_wf, (mid_base r).
Qed.

(** Back to a message boundary, possibly skipping the rest of a body. *)
Lemma reset_skip_wf r c d skip :
  mid_wf r c d -> 0 <= skip ->
  let '(r', c') := msg_reset r c d in
  state_wf r' (enter_skip c' d skip) /\ in_body (enter_skip c' d skip) d = 0%nat.
Proof.
  intros Hm Hs. pose proof (msg_reset_spec r c d) as H.
  destruct (msg_reset r c d) as [r' c']. destruct H as (Hk & _ & _ & _ & Hp' & ->).
  assert (enter_skip (set_frame c d (reset_frame (frame c d))) d skip =
          set_frame c d (skip_frame skip (reset_frame (frame c d)))) as ->.
  { unfold enter_skip, upd_frame, skip_frame. destruct (skip =? 0); [done|].
    by rewrite frame_set_eq, set_frame_set. }
  split.
  - apply mid_wf_close; [by apply (mid_wf_env r)|]. apply reset_frame_wf; [|done|by apply (mid_base r)].
    apply law_hdr_size_range.
  - unfold in_body, skip_frame. rewrite frame_set_eq. by destruct (skip =? 0).
Qed.

Lemma finish_blind_ok d n r c p ef :
  state_wf r c -> bytes_ok p -> (2 * length p + in_body c d < n)%nat ->
  step_ok d n (finish_blind r c p ef).
Proof.
  intros (SL & Hp & HK & Hwf) Hb Hn. unfold finish_blind, went_blind.
  destruct (_ || _); [done|]. cbn. by destruct (has_flag (c_flags c) LK_CONN_TLS).
Qed.

Lemma emit_mid r c d body :
  mid_wf r c d -> let '(r', c') := emit r o c d body in mid_wf r' c' d.
Proof.
  intros (SL & Hp & HK & Hb & Hne). pose proof (emit_spec r c d body SL) as He.
  destruct (emit r o c d body) as [r1 c1]. destruct He as ((Hk & Hpn & Ho) & Hops & Hq).
  split_and!; [by rewrite Hk|unfold pool_wf; by rewrite Hpn|rewrite Hk; by eapply stable|eapply frame_base_quiet; [apply Hq|done]|].
  intros d' Hd. eapply frame_wf_quiet; [apply Hq| |by apply Hne].
  apply law_hdr_size_mono, quiet_startup, Hq.
Qed.

(** A message is delivered and the direction returns to a boundary. *)
Lemma emit_reset_ok r c d body skip p ef n :
  mid_wf r c d -> 0 <= skip -> bytes_ok p -> (2 * length p < n)%nat ->
  step_ok d n (let '(r, c) := emit r o c d body in
               let '(r, c) := msg_reset r c d in
               finish_blind r (enter_skip c d skip) p ef).
Proof.
  intros Hm Hs Hb Hn. pose proof (emit_mid r c d body Hm) as Hm1.
  destruct (emit r o c d body) as [r1 c1].
  pose proof (reset_skip_wf r1 c1 d skip Hm1 Hs) as Hr.
  destruct (msg_reset r1 c1 d) as [r2 c2]. destruct Hr as [Hw2 Hib].
  apply finish_blind_ok; [done..|]. rewrite Hib. lia.
Qed.

Lemma hdr_accum_fields f ts q :
  f_st (hdr_accum f ts q) = f_st f /\ f_startup_done (hdr_accum f ts q) = f_startup_done f /\
  f_hdr (hdr_accum f ts q) = f_hdr f ++ q /\ f_prefix_closed (hdr_accum f ts q) = f_prefix_closed f /\
  f_msg_cont (hdr_accum f ts q) = f_msg_cont f /\ f_buf (hdr_accum f ts q) = f_buf f.
Proof. unfold hdr_accum. by destruct (_ && _). Qed.

Lemma hdr_accum_base f ts q : frame_base f -> bytes_ok q -> frame_base (hdr_accum f ts q).
Proof.
  intros [] Hq. unfold hdr_accum. assert (bytes_ok (f_hdr f ++ q)) by by apply bytes_ok_app.
  by destruct (_ && _); split.
Qed.

Lemma length_zdrop_lt {A} n (l : list A) :
  0 < n -> l <> [] -> (length (zdrop n l) < length l)%nat.
Proof. intros Hn Hl. unfold zdrop. rewrite length_drop. destruct l; [done|]. cbn. lia. Qed.
Lemma length_zdrop_le {A} n (l : list A) : (length (zdrop n l) <= length l)%nat.
Proof. unfold zdrop. rewrite length_drop. lia. Qed.
Lemma zlen_pos {A} (l : list A) : l <> [] -> 0 < zlen l.
Proof. destruct l; [done|]. rewrite zlen_cons. pose proof (zlen_nonneg l). lia. Qed.

(** A HEADER step, with the width-32 subtraction resolved by the invariant. *)
Lemma header_step_eq r c d p ts ef :
  conn_wf o c -> f_st (frame c d) = LK_FR_HEADER ->
  let need := hdr_size o c d - hdr_len (frame c d) in
  1 <= need <= 8 /\
  header_step r o c d p ts ef =
    if zlen p <? need then Return r (set_frame c d (hdr_accum (frame c d) ts p)) false
    else header_done r o (set_frame c d (hdr_accum (frame c d) ts (ztake need p))) d
           (zdrop need p) ef.
Proof.
  intros Hwf Hst need. destruct (Hwf d) as [_ Hfs]. unfold st_wf in Hfs. rewrite Hst in Hfs.
  destruct Hfs as [Hhl _]. pose proof (law_hdr_size_range (o:=o) c d).
  assert (0 <= hdr_len (frame c d)) by apply zlen_nonneg. split; [lia|].
  unfold header_step. rewrite u32_small by lia. fold need. unfold upd_frame. rewrite frame_set_eq.
  set (tk := Z.min need (zlen p)). unfold hdr_len.
  destruct (hdr_accum_fields (frame c d) ts (ztake tk p)) as (_ & _ & -> & _).
  pose proof (zlen_nonneg p). rewrite zlen_app, zlen_ztake by lia. fold (hdr_len (frame c d)).
  destruct (Z.ltb_spec (zlen p) need).
  - replace tk with (zlen p) by lia. rewrite (ztake_all (zlen p) p) by lia.
    destruct (Z.ltb_spec (hdr_len (frame c d) + Z.min (zlen p) (zlen p)) (hdr_size o c d)); [done|lia].
  - replace tk with need by lia.
    destruct (Z.ltb_spec (hdr_len (frame c d) + Z.min need (zlen p)) (hdr_size o c d)); [lia|done].
Qed.

Lemma header_step_ok r c d p ts ef :
  state_wf r c -> bytes_ok p -> p <> [] -> f_st (frame c d) = LK_FR_HEADER ->
  step_ok d (2 * length p) (header_step r o c d p ts ef).
Proof.
  intros Hw Hb Hne Hst. pose proof Hw as (SL & Hp & HK & Hwf).
  destruct (header_step_eq r c d p ts ef Hwf Hst) as [Hneed ->]. set (need := _ - _) in *.
  set (f := frame c d) in *. destruct (Hwf d) as [Hfb Hfs]. fold f in Hfb, Hfs.
  unfold st_wf in Hfs. rewrite Hst in Hfs. destruct Hfs as [Hhl Hbd].
  assert (forall q, bytes_ok q -> frame_base (hdr_accum f ts q)) as Hacc
    by (intros; by apply hdr_accum_base).
  destruct (Z.ltb_spec (zlen p) need) as [Hlt|Hge].
  - destruct (hdr_accum_fields f ts p) as (Hst1 & Hsu1 & Hh1 & Hpc1 & Hmc1 & Hb1).
    cbn. apply mid_wf_close; [by apply state_mid|]. split; [by apply Hacc|]. unfold st_wf, boundary.
    rewrite (law_hdr_size_ext (o:=o) _ c d) by by rewrite frame_set_eq.
    rewrite Hst1, Hst, Hpc1, Hmc1, Hb1. unfold hdr_len. rewrite Hh1, zlen_app. fold (hdr_len f).
    split; [lia|done].
  - destruct (hdr_accum_fields f ts (ztake need p)) as (Hst1 & Hsu1 & Hh1 & Hpc1 & Hmc1 & Hb1).
    pose proof (Hacc (ztake need p) ltac:(auto with lk)) as Hf1.
    set (f1 := hdr_accum f ts (ztake need p)) in *. clearbody f1.
    assert (2 * length (zdrop need p) + 1 < 2 * length p)%nat
      by (pose proof (length_zdrop_lt need p ltac:(lia) Hne); lia).
    unfold header_done. destruct (parse_hdr o (set_frame c d f1) d) as [ok c2] eqn:Ep.
    apply law_parse_hdr in Ep as (ty & ln & bl & bt & sq & s0 & mc & Hbl & ->);
      [|rewrite frame_set_eq; apply Hf1]. rewrite set_frame_set, frame_set_eq.
    set (f2 := f1 <| f_msg_type := ty |> <| f_msg_len := ln |> <| f_body_len := _ |>
      <| f_body_total := bt |> <| f_msg_seq := sq |> <| f_msg_seq0 := s0 |> <| f_msg_cont := mc |>).
    assert (frame_base f2) as Hf2 by (destruct Hf1; split; cbn; try done; by destruct ok).
    assert (mid_wf r (set_frame c d f2) d) as Hm2 by by apply mid_wf_set; [apply state_mid|].
    destruct ok; cbn [negb].
    + rewrite frame_set_eq. destruct (Z.eqb_spec (f_body_len f2) 0) as [Hz|Hnz].
      * pose proof (emit_reset_ok r (set_frame c d f2) d (buf_bytes f2) 0 (zdrop need p) ef
          (2 * length p) Hm2) as He.
        specialize (He ltac:(done) ltac:(auto with lk) ltac:(lia)).
        destruct (emit r o _ d _) as [r3 c3], (msg_reset r3 c3 d). done.
      * cbn [step_ok]. unfold upd_frame. rewrite frame_set_eq, set_frame_set.
        split_and!; [|auto with lk|unfold in_body; rewrite frame_set_eq; cbn; lia].
        apply mid_wf_close; [by apply state_mid|]. split; [by apply frame_base_st|].
        split; [cbn in *; lia|]. cbn. intros Hpc. rewrite Hpc1 in Hpc.
        destruct Hbd as [Hbd1 Hbd2]. unfold buf_len, buf_bytes, body_target. cbn.
        rewrite Hb1, Hbd2 by congruence. cbn -[zlen]. rewrite zlen_nil. cbn in Hnz.
        unfold LK_MSG_BODY_MAX. destruct (_ <? _); lia.
    + pose proof (go_dirty_wf r (set_frame c d f2) d (fun s => s <| rs_bad_len ::= inc64 |>) Hm2).
      by destruct (go_dirty _ _ _ _).
Qed.

Lemma with_buf_id c d : with_buf c d (f_buf (frame c d)) = c.
Proof. unfold with_buf, upd_frame. by destruct c as [??????????[][]??], d. Qed.

Lemma buf_get_spec r :
  let '(ok, r') := buf_get r in
  r_sink r' = r_sink r /\ r_ctx r' = r_ctx r /\ r_st r' = r_st r /\ (pool_wf r -> pool_wf r') /\
  (r_oom r = [] -> ok = true /\ r_oom r' = []).
Proof.
  unfold buf_get, malloc, pool_wf. destruct (Z.eqb_spec (r_pool_n r) 0); cbn.
  - destruct (r_oom r) as [|[] oom] eqn:Eo; cbn; split_and!; naive_solver.
  - split_and!; try done. lia.
Qed.

(** [ensure_buf] only fills an absent slab pointer, within the pool bound. *)
Lemma ensure_buf_spec r c d :
  let '(r', c') := ensure_buf r c d in
  r_sink r' = r_sink r /\ r_ctx r' = r_ctx r /\ r_st r' = r_st r /\ (pool_wf r -> pool_wf r') /\
  (r_oom r = [] -> r_oom r' = []) /\
  exists b, c' = with_buf c d b /\ default [] b = buf_bytes (frame c d) /\
            (r_oom r = [] -> b = Some (buf_bytes (frame c d))).
Proof.
  unfold ensure_buf, buf_bytes. pose proof (with_buf_id c d) as Hid.
  destruct (f_buf (frame c d)) as [b|] eqn:E.
  - split_and!; try done. by exists (Some b).
  - pose proof (buf_get_spec r) as Hg. destruct (buf_get r) as [ok r'].
    destruct Hg as (?&?&?&?&Ho). split_and!; try done; [by intros [_ ?]%Ho|].
    destruct ok; [by exists (Some [])|]. exists None. split_and!; try done. by intros [? _]%Ho.
Qed.

Lemma mid_wf_with_buf r r' c d b :
  r_sink r' = r_sink r -> (pool_wf r -> pool_wf r') ->
  bytes_ok (default [] b) -> zlen (default [] b) <= LK_MSG_BODY_MAX ->
  mid_wf r c d -> mid_wf r' (with_buf c d b) d.
Proof.
  intros Hk Hp Hb Hl Hm. apply (mid_wf_env r); [done..|]. apply mid_wf_set; [done|].
  apply frame_base_buf; [by apply (mid_base r)|done..].
Qed.

Lemma frame_with_buf c d b : frame (with_buf c d b) d = frame c d <| f_buf := b |>.
Proof. unfold with_buf, upd_frame. by rewrite frame_set_eq. Qed.

Lemma buf_append_eq c d q :
  buf_append c d q = with_buf c d ((fun b => b ++ q) <$> f_buf (frame c d)).
Proof. done. Qed.

(** The fragment ends mid-glue: the prefix is pinned and a header follows. *)
Lemma pin_prefix_ok r c d skip p n :
  mid_wf r c d -> f_msg_cont (frame c d) = true -> 0 <= skip -> bytes_ok p ->
  (2 * length p < n)%nat ->
  step_ok d n (Again r (enter_skip (upd_frame c d (fun f => f <| f_prefix_closed := true |>
     <| f_hdr := [] |> <| f_st := LK_FR_HEADER |>)) d skip) p).
Proof.
  intros Hm Hmc Hs Hb Hn.
  assert (forall f, enter_skip (set_frame c d f) d skip = set_frame c d (skip_frame skip f)) as E.
  { intros f. unfold enter_skip, upd_frame, skip_frame. destruct (skip =? 0); [done|].
    by rewrite frame_set_eq, set_frame_set. }
  unfold upd_frame. rewrite E. cbn [step_ok]. split_and!; [|done|].
  - apply mid_wf_close_any; [done|]. intros size ?. destruct (mid_base _ _ _ Hm). unfold skip_frame.
    destruct (Z.eqb_spec skip 0); split; try split; fr_cbn; try done;
      try apply bytes_ok_nil; rewrite ?Hmc; repeat split; done || lia.
  - unfold in_body, skip_frame. rewrite frame_set_eq. destruct (skip =? 0); cbn; lia.
Qed.

Lemma body_finish_ok r c d p target rem ef n :
  mid_wf r c d -> bytes_ok p -> 0 <= rem -> buf_len (frame c d) + rem <= LK_MSG_BODY_MAX ->
  (2 * length p < n)%nat -> step_ok d n (body_finish r o c d p target rem ef).
Proof.
  intros Hm Hb Hrem Hmax Hn. unfold body_finish. set (skip := u64 _).
  assert (0 <= skip) by apply u64_range. pose proof (length_zdrop_le rem p).
  destruct (f_msg_cont (frame c d)) eqn:Hmc.
  - destruct (Z.eqb_spec rem 0); [apply pin_prefix_ok; auto with lk; lia|].
    pose proof (ensure_buf_spec r c d) as He. destruct (ensure_buf r c d) as [r1 c1].
    destruct He as (Hk & _ & _ & Hp & _ & b & -> & Hbb & _).
    rewrite buf_append_eq, frame_with_buf. cbn [f_buf upd].
    replace (with_buf (with_buf c d b) d ((fun b => b ++ ztake rem p) <$> b)) with
      (with_buf c d ((fun b => b ++ ztake rem p) <$> b)).
    2:{ unfold with_buf, upd_frame. by rewrite frame_set_eq, set_frame_set. }
    destruct (mid_base _ _ _ Hm).
    assert (bytes_ok (default [] ((fun b => b ++ ztake rem p) <$> b)) /\
            zlen (default [] ((fun b => b ++ ztake rem p) <$> b)) <= LK_MSG_BODY_MAX) as [? ?].
    { unfold buf_len in *. rewrite <- Hbb in *. destruct b as [b|]; cbn -[zlen] in *;
        [|split; [apply bytes_ok_nil|rewrite zlen_nil; unfold LK_MSG_BODY_MAX; lia]].
      rewrite bytes_ok_app, zlen_app, zlen_ztake by done. split; [|lia]. auto with lk. }
    apply pin_prefix_ok; auto with lk; [by apply (mid_wf_with_buf r)|by rewrite frame_with_buf|lia].
  - apply emit_reset_ok; auto with lk. lia.
Qed.

Lemma body_step_ok r c d p ef :
  state_wf r c -> bytes_ok p -> f_st (frame c d) = LK_FR_BODY ->
  step_ok d (2 * length p + 1) (body_step r o c d p ef).
Proof.
  intros Hw Hb Hst. pose proof (state_mid _ _ d Hw) as Hm. unfold body_step.
  destruct Hw as (_ & _ & _ & Hwf). destruct (Hwf d) as [Hfb Hfs]. unfold st_wf in Hfs.
  rewrite Hst in Hfs. destruct Hfs as [Hbl Hpc]. set (f := frame c d) in *.
  assert (0 <= buf_len f) by apply zlen_nonneg. destruct Hfb.
  assert (body_target f <= LK_MSG_BODY_MAX) as Hbt
    by (unfold body_target; destruct (Z.ltb_spec (f_body_len f) LK_MSG_BODY_MAX); lia).
  destruct (f_prefix_closed f) eqn:Epc.
  - rewrite Z.sub_diag. change (u32 0) with 0. pose proof (zlen_nonneg p).
    destruct (Z.ltb_spec (zlen p) 0); [lia|]. apply body_finish_ok; try done; fold f; lia.
  - specialize (Hpc eq_refl). unfold LK_MSG_BODY_MAX in *. rewrite u32_small by lia.
    destruct (Z.ltb_spec (zlen p) (body_target f - buf_len f)) as [Hlt|Hge].
    + pose proof (ensure_buf_spec r c d) as He. destruct (ensure_buf r c d) as [r1 c1].
      destruct He as (Hk & _ & _ & Hp & _ & b & -> & Hbb & _). rewrite frame_with_buf. cbn [f_buf upd].
      assert (mid_wf r1 (with_buf c d b) d) as Hm1.
      { apply (mid_wf_with_buf r); rewrite ?Hbb; done. }
      destruct b as [b|]; cbn in Hbb.
      * cbn [step_ok]. rewrite buf_append_eq. rewrite frame_with_buf. cbn [f_buf upd fmap].
        unfold with_buf, upd_frame at 1. apply mid_wf_close; [done|]. unfold upd_frame.
        rewrite frame_set_eq. fold f. subst b.
        assert (bytes_ok (buf_bytes f ++ p)) by by apply bytes_ok_app.
        assert (zlen (buf_bytes f ++ p) < body_target f) by (rewrite zlen_app; unfold buf_len in *; lia).
        split; [apply frame_base_buf; [by split|done|change (zlen (buf_bytes f ++ p) <= 16384); lia]|].
        unfold st_wf. cbn. rewrite Hst. split; [done|]. intros _. exact H1.
      * pose proof (zlen_nonneg p). apply body_finish_ok; try done; try lia.
        rewrite frame_with_buf. unfold buf_len at 1; cbn -[zlen]. rewrite zlen_nil.
        unfold LK_MSG_BODY_MAX. lia.
    + apply body_finish_ok; try done; fold f; unfold LK_MSG_BODY_MAX; lia.
Qed.

Lemma skip_frame_wf size f take :
  1 <= size -> frame_wf size f -> f_st f = LK_FR_SKIP -> 0 <= take <= f_skip_left f ->
  let left := f_skip_left f - take in
  frame_wf size (if left =? 0 then f <| f_skip_left := left |> <| f_st := LK_FR_HEADER |>
                 else f <| f_skip_left := left |>).
Proof.
  intros Hs [Hbase Hst] Est Ht left. unfold st_wf in Hst. rewrite Est in Hst.
  assert (frame_base (f <| f_skip_left := left |>)) by (apply frame_base_skip; [done|lia]).
  destruct Hst as (Hpos & Hh & Hb).
  destruct (Z.eqb_spec left 0); (split; [by try apply frame_base_st|]).
  - unfold st_wf, hdr_len; cbn -[zlen]. rewrite Hh, zlen_nil. split; [lia|done].
  - unfold st_wf; cbn. rewrite Est. split_and!; [lia|done..].
Qed.

Lemma skip_step_ok r c d p :
  state_wf r c -> bytes_ok p -> p <> [] -> f_st (frame c d) = LK_FR_SKIP ->
  step_ok d (2 * length p) (skip_step r c d p).
Proof.
  intros Hw Hb Hne Hst. pose proof Hw as (_ & _ & _ & Hwf). unfold skip_step.
  destruct (Hwf d) as [[] Hs]. unfold st_wf in Hs. rewrite Hst in Hs. destruct Hs as (Hpos & _ & _).
  pose proof (zlen_pos p Hne). set (take := Z.min _ _).
  pose proof (length_zdrop_lt take p ltac:(lia) Hne).
  cbn [step_ok]. split_and!; [|auto with lk|].
  - apply mid_wf_close; [by apply state_mid|]. apply skip_frame_wf; try done; [|  |lia].
    + apply law_hdr_size_range.
    + rewrite (law_hdr_size_ext (o:=o) _ c d); [apply Hwf|]. rewrite frame_set_eq. by destruct (_ =? 0).
  - unfold in_body. rewrite frame_set_eq. destruct (_ =? 0); cbn; rewrite ?Hst; lia.
Qed.

Lemma resynced_frame_wf size f : 1 <= size -> frame_base f -> frame_wf size (resynced_frame f).
Proof.
  intros Hs []. unfold resynced_frame, reset_frame.
  split; try split; fr_cbn; try done; try apply bytes_ok_nil; repeat split; done || lia.
Qed.

Lemma do_resync_wf r c d :
  mid_wf r c d -> let '(r', c') := do_resync r c d in
  state_wf r' c' /\ f_st (frame c' d) = LK_FR_HEADER /\ (r_oom r = [] -> r_oom r' = []).
Proof.
  intros (SL & Hp & HK & Hb & Hne). pose proof (do_resync_spec r c d SL) as Hd.
  destruct (do_resync r c d) as [r' c']. destruct Hd as (Hk & Ho & Hp' & Hops & Hoth & Hfr).
  split; [|split; [by rewrite Hfr|congruence]].
  split_and!; [by rewrite Hk|auto|rewrite Hk; by eapply stable|]. intros d'. destruct (decide (d' = d)) as [->|Hn].
  - rewrite Hfr. apply resynced_frame_wf; [apply law_hdr_size_range|done].
  - rewrite Hoth by done. rewrite (law_hdr_size_ext (o:=o) _ c d'); [by apply Hne|].
    by rewrite Hoth.
Qed.

Lemma dirty_step_ok r c d p :
  state_wf r c -> bytes_ok p -> p <> [] -> f_st (frame c d) = LK_FR_DIRTY ->
  step_ok d (2 * length p) (dirty_step r o c d p).
Proof.
  intros Hw Hb Hne Hst. pose proof (state_mid _ _ d Hw) as Hm. unfold dirty_step.
  destruct Hw as (SL & Hp & HK & Hwf). destruct (Hwf d) as [Hfb _]. pose proof Hfb as [].
  destruct (resync_scan o c d p) as [[used found] c1] eqn:Es.
  apply law_scan in Es as (Hu & Hf & _ & k & Hk & ->); [|done].
  assert (frame_base (frame c d <| f_resync_matched := k |>)) as Hb1 by by split.
  destruct found; cbn [negb].
  - pose proof (do_resync_wf r _ d (mid_wf_set r c d _ Hm Hb1)) as Hr. unfold upd_frame.
    destruct (do_resync r _ d) as [r' c']. destruct Hr as (Hw' & Hst' & _).
    specialize (Hf eq_refl). pose proof (length_zdrop_lt used p Hf Hne).
    cbn [step_ok]. split_and!; [done|auto with lk|]. unfold in_body. rewrite Hst'. lia.
  - cbn [step_ok]. apply mid_wf_close; [done|]. split; [done|]. unfold st_wf; cbn. by rewrite Hst.
Qed.

Lemma frame_step_ok r c d p ts ef :
  state_wf r c -> bytes_ok p -> p <> [] ->
  step_ok d (2 * length p + in_body c d) (frame_step r o c d p ts ef).
Proof.
  intros Hw Hb Hne. unfold frame_step, in_body. destruct (f_st (frame c d)) eqn:Hst;
    rewrite ?Nat.add_0_r.
  - by apply header_step_ok.
  - by apply body_step_ok.
  - by apply skip_step_ok.
  - by apply dirty_step_ok.
Qed.

(** The byte loop returns within its fuel and keeps the invariant. *)
Lemma frame_loop_total fuel r c d p ts ef :
  state_wf r c -> bytes_ok p -> (2 * length p + in_body c d <= fuel)%nat ->
  exists r' c' a, frame_loop fuel r o c d p ts ef = Some (r', c', a) /\ state_wf r' c'.
Proof.
  revert r c p. induction fuel as [|fuel IH]; intros r c p Hw Hb Hn.
  - destruct p; cbn in *; [eauto|lia].
  - destruct p as [|x p]; [cbn; eauto|]. set (q := x :: p) in *.
    pose proof (frame_step_ok r c d q ts ef Hw Hb ltac:(done)) as Hs.
    change (frame_loop (Datatypes.S fuel) r o c d q ts ef) with
      (match frame_step r o c d q ts ef with
       | Again r c p => frame_loop fuel r o c d p ts ef
       | Return r c abort => Some (r, c, abort) end).
    destruct (frame_step r o c d q ts ef) as [r1 c1 p1|r1 c1 a]; cbn [step_ok] in Hs; [|eauto].
    destruct Hs as (Hw1 & Hb1 & Hlt). apply IH; [done..|lia].
Qed.

(** ** Holes *)
Lemma hole_body_ok r c d n ef :
  mid_wf r c d -> 0 < n ->
  let '(go, r', c', n') := hole_body r o c d n ef in
  state_wf r' c' /\ 0 <= n' /\
  (n' = 0 \/ f_st (frame c' d) = LK_FR_HEADER) /\ in_body c' d = 0%nat.
Proof.
  intros Hm Hn. unfold hole_body. set (rem := u64 _). assert (0 <= rem) by apply u64_range.
  set (take := if rem <? n then rem else n). assert (0 <= take <= n /\ take <= rem) as [Ht Htr]
    by (unfold take; destruct (Z.ltb_spec rem n); lia).
  assert (n - take = 0 \/ take = rem) as Hor by (unfold take; destruct (Z.ltb_spec rem n); lia).
  assert (forall c1 : conn, (if take <? rem then enter_skip c1 d (rem - take) else c1) =
                     enter_skip c1 d (rem - take)) as Esk.
  { intros c1. destruct (Z.ltb_spec take rem); [done|]. unfold enter_skip.
    destruct (Z.eqb_spec (rem - take) 0); [done|lia]. }
  destruct (f_msg_cont (frame c d)) eqn:Hmc.
  - rewrite Esk. pose proof (pin_prefix_ok r c d (rem - take) [] 1 Hm Hmc ltac:(lia)
      bytes_ok_nil ltac:(cbn; lia)) as (Hw & _ & Hib). split_and!; [done|lia| |lia].
    destruct Hor as [?|Hor]; [by left|right]. rewrite Hor, Z.sub_diag. unfold enter_skip, upd_frame; cbn.
    by rewrite frame_set_eq.
  - pose proof (emit_mid r c d (buf_bytes (frame c d)) Hm) as Hm1.
    destruct (emit r o c d _) as [r1 c1].
    pose proof (reset_skip_wf r1 c1 d (rem - take) Hm1 ltac:(lia)) as Hr.
    pose proof (msg_reset_spec r1 c1 d) as Hsp.
    destruct (msg_reset r1 c1 d) as [r2 c2]. destruct Hr as [Hw2 Hib]. rewrite Esk.
    assert (n - take = 0 \/ f_st (frame (enter_skip c2 d (rem - take)) d) = LK_FR_HEADER) as Hh.
    { destruct Hor as [?|Hor]; [by left|right]. rewrite Hor, Z.sub_diag. unfold enter_skip; cbn.
      destruct Hsp as (_&_&_&_&_&->). by rewrite frame_set_eq. }
    assert (0 <= n - take) by lia. unfold went_blind. destruct (_ || _); [done|].
    by destruct (has_flag _ LK_CONN_TLS).
Qed.

Lemma hole_loop_S fuel r c d n ef :
  hole_loop (Datatypes.S fuel) r o c d n ef =
  if n =? 0 then Some (r, c)
  else match f_st (frame c d) with
      | LK_FR_HEADER => Some (go_dirty r c d (fun s => s <| rs_hdr_holes ::= inc64 |>))
      | LK_FR_BODY =>
          let '(go, r, c, n) := hole_body r o c d n ef in
          if go then hole_loop fuel r o c d n ef else Some (r, c)
      | LK_FR_SKIP =>
          let f := frame c d in
          let take := Z.min (f_skip_left f) n in
          let left := f_skip_left f - take in
          let f := f <| f_skip_left := left |> in
          let c := set_frame c d (if left =? 0 then f <| f_st := LK_FR_HEADER |> else f) in
          hole_loop fuel r o c d (n - take) ef
      | LK_FR_DIRTY => Some (r, c)
      end.
Proof. done. Qed.

Lemma hole_loop_total r c d n ef fuel :
  state_wf r c -> 0 <= n -> (hole_fuel <= fuel)%nat ->
  exists r' c', hole_loop fuel r o c d n ef = Some (r', c') /\ state_wf r' c'.
Proof.
  intros Hw Hn Hf. unfold hole_fuel in Hf. destruct fuel as [|[|[|fuel]]]; try lia.
  assert (forall fuel r c n, state_wf r c -> f_st (frame c d) = LK_FR_HEADER ->
    exists r' c', hole_loop (Datatypes.S fuel) r o c d n ef = Some (r', c') /\ state_wf r' c') as Hhdr.
  { intros fu r0 c0 n0 Hw0 Hst. rewrite hole_loop_S; cbv zeta. rewrite Hst.
    destruct (n0 =? 0); [eauto|].
    pose proof (go_dirty_wf r0 c0 d (fun s => s <| rs_hdr_holes ::= inc64 |>) (state_mid _ _ _ Hw0)).
    destruct (go_dirty _ _ _ _). eauto. }
  assert (forall fuel r c n, state_wf r c -> f_st (frame c d) = LK_FR_SKIP -> 0 <= n ->
    exists r' c', hole_loop (Datatypes.S (Datatypes.S fuel)) r o c d n ef = Some (r', c') /\
                  state_wf r' c') as Hskip.
  { intros fu r0 c0 n0 Hw0 Hst Hn0. rewrite hole_loop_S; cbv zeta. rewrite Hst.
    destruct (Z.eqb_spec n0 0); [eauto|].
    pose proof Hw0 as (_ & _ & _ & Hwf). destruct (Hwf d) as [[] Hs].
    unfold st_wf in Hs; rewrite Hst in Hs. destruct Hs as (Hpos & _ & _).
    set (take := Z.min _ _). set (c1 := set_frame c0 d _).
    assert (state_wf r0 c1) as Hw1.
    { apply mid_wf_close; [by apply state_mid|]. apply skip_frame_wf; try done; [| |lia].
      - apply law_hdr_size_range.
      - rewrite (law_hdr_size_ext (o:=o) _ c0 d); [apply Hwf|]. rewrite frame_set_eq.
        by destruct (_ =? 0). }
    destruct (Z.eq_dec take n0) as [E|E]; [rewrite E, Z.sub_diag; cbn; eauto|].
    apply Hhdr; [done|]. subst c1. rewrite frame_set_eq.
    replace (f_skip_left (frame c0 d) - take) with 0 by lia. done. }
  destruct (f_st (frame c d)) eqn:Hst.
  - by apply Hhdr.
  - rewrite hole_loop_S; cbv zeta. destruct (Z.eqb_spec n 0); [eauto|]. rewrite Hst.
    pose proof (hole_body_ok r c d n ef (state_mid _ _ _ Hw) ltac:(lia)) as Hb.
    destruct (hole_body r o c d n ef) as [[[go r1] c1] n1]. destruct Hb as (Hw1 & Hn1 & Hor & _).
    destruct go; [|eauto]. destruct Hor as [->|Hh]; [cbn; eauto|by apply Hhdr].
  - by apply Hskip.
  - rewrite hole_loop_S, Hst. destruct (n =? 0); eauto.
Qed.
End FramerFacts.
