(* ===== verification/FramerData.v ===== *)
(** Framing does not depend on where the capture cuts the stream: feeding
    [p ++ q] is feeding [p] and then [q], for every lawful protocol.

    The chunk layer: [lk_frame_bytes], [lk_frame_hole] and [lk_reasm_data]
    return and keep the framer's invariant on every event. *)
From stdpp Require Import base list option.
From S2P Require Import Prelude Conn Reassembly Framer FramerFacts.
#[local] Open Scope Z_scope.

Section FramerChunk.
Section Chunk.
Context {S P F : Type} (o : lk_proto_ops S P F) {FL : FramerLaws o}
  (K : lk_msg_sink S P F -> lk_conn P F -> Prop) {SK : Stable K}.
Abbreviation reasm := (lk_reasm S P F).
Abbreviation conn := (lk_conn P F).
Implicit Types (r : reasm) (c : conn) (d : lk_dir) (p q : list Z).

(** Same consumer state and counters; the slab pools may differ in occupancy,
    and neither allocator fails. *)
Record req r r' : Prop := Req {
  req_ctx : r_ctx r = r_ctx r';
  req_sink : r_sink r = r_sink r';
  req_st : r_st r = r_st r';
  req_oom : r_oom r = [];
  req_oom' : r_oom r' = [] }.

Lemma req_refl r : r_oom r = [] -> req r r. Proof. done. Qed.
Lemma req_sym r r' : req r r' -> req r' r. Proof. by intros []. Qed.
Lemma req_trans r1 r2 r3 : req r1 r2 -> req r2 r3 -> req r1 r3.
Proof. intros [] []. split; congruence. Qed.
Lemma bump_req r r' cnt : req r r' -> req (bump r cnt) (bump r' cnt).
Proof. intros []. split; cbn; congruence. Qed.
Lemma buf_put_req r r' b b' : req r r' -> req (buf_put r b) (buf_put r' b').
Proof. intros []. unfold buf_put. destruct b, b'; repeat case_match; by split. Qed.
Lemma ctx_req r r' s : req r r' -> req (r <| r_ctx := s |>) (r' <| r_ctx := s |>).
Proof. by intros []. Qed.

(** Results equal up to [req]. *)
Definition rc_req (x y : reasm * conn) : Prop := req x.1 y.1 /\ x.2 = y.2.
Definition res_req (x y : step_result (S:=S) (P:=P) (F:=F)) : Prop :=
  match x, y with
  | Again r c p, Again r' c' p' => req r r' /\ c = c' /\ p = p'
  | Return r c a, Return r' c' a' => req r r' /\ c = c' /\ a = a'
  | _, _ => False
  end.

Lemma rc_reqE x y :
  rc_req x y -> exists r r' c, x = (r, c) /\ y = (r', c) /\ req r r'.
Proof. destruct x as [r c], y as [r' c']. intros [? ?]. cbn in *; subst. by eexists _, _, _. Qed.

Lemma deliver_req r r' c d m : req r r' -> rc_req (deliver r c d m) (deliver r' c d m).
Proof.
  intros H. pose proof H as []. unfold deliver. rewrite <- req_sink0, <- req_ctx0.
  destruct (on_msg (r_sink r)); [|done]. destruct (_ (r_ctx r) c d m). split; [by apply ctx_req|done].
Qed.

Lemma emit_req r r' c d body : req r r' -> rc_req (emit r o c d body) (emit r' o c d body).
Proof.
  intros H. unfold emit. destruct (pre_emit o c d _) as [c1 m1], (stamp_resync c1 d m1) as [c2 m2].
  destruct (_ <? _); apply deliver_req; auto using bump_req.
Qed.

Lemma msg_reset_req r r' c d : req r r' -> rc_req (msg_reset r c d) (msg_reset r' c d).
Proof. intros H. split; [by apply buf_put_req|done]. Qed.

Lemma go_dirty_req r r' c d cnt : req r r' -> rc_req (go_dirty r c d cnt) (go_dirty r' c d cnt).
Proof.
  intros H. unfold go_dirty, msg_reset. split; [|done]. cbn. by apply buf_put_req, bump_req.
Qed.

Lemma do_resync_req r r' c d : req r r' -> rc_req (do_resync r c d) (do_resync r' c d).
Proof.
  intros H. unfold do_resync, msg_reset.
  set (r1 := bump (buf_put r _) _). set (r1' := bump (buf_put r' _) _).
  assert (req r1 r1') as H1 by by apply bump_req, buf_put_req.
  pose proof H1 as []. rewrite <- req_sink0, <- req_ctx0.
  destruct (on_resync (r_sink r1)); [|done]. destruct (_ (r_ctx r1) _ d). split; [by apply ctx_req|done].
Qed.

Lemma ensure_buf_req r r' c d : req r r' -> rc_req (ensure_buf r c d) (ensure_buf r' c d).
Proof.
  intros H. pose proof H as []. unfold ensure_buf. destruct (f_buf (frame c d)); [done|].
  unfold buf_get, malloc. rewrite req_oom0, req_oom'0. destruct (negb _), (negb _); cbn; (split; [by split|done]).
Qed.

Lemma finish_blind_req r r' c p ef :
  req r r' -> res_req (finish_blind r c p ef) (finish_blind r' c p ef).
Proof.
  intros H. unfold finish_blind, went_blind. destruct (_ || _); [done|].
  destruct (has_flag _ LK_CONN_TLS); cbn; auto using bump_req.
Qed.

Lemma body_finish_req r r' c d p t rm ef :
  req r r' -> res_req (body_finish r o c d p t rm ef) (body_finish r' o c d p t rm ef).
Proof.
  intros H. unfold body_finish. destruct (f_msg_cont (frame c d)).
  - destruct (rm =? 0); [done|].
    by destruct (rc_reqE _ _ (ensure_buf_req r r' c d H)) as (r1 & r1' & c1 & -> & -> & H1).
  - match goal with |- context [emit r o c d ?b] =>
      destruct (rc_reqE _ _ (emit_req r r' c d b H)) as (r1 & r1' & c1 & -> & -> & H1) end.
    destruct (rc_reqE _ _ (msg_reset_req r1 r1' c1 d H1)) as (r2 & r2' & c2 & -> & -> & H2).
    by apply finish_blind_req.
Qed.

Lemma step_req r r' c d p ts ef :
  req r r' -> res_req (frame_step r o c d p ts ef) (frame_step r' o c d p ts ef).
Proof.
  intros H. unfold frame_step. destruct (f_st (frame c d)).
  - unfold header_step. destruct (_ <? _); [done|]. unfold header_done. destruct (parse_hdr o _ d) as [ok c1].
    destruct ok; cbn [negb].
    + destruct (_ =? 0); [|done].
      destruct (rc_reqE _ _ (emit_req r r' c1 d (buf_bytes (frame c1 d)) H))
        as (r2 & r2' & c2 & -> & -> & H2).
      destruct (rc_reqE _ _ (msg_reset_req r2 r2' c2 d H2)) as (r3 & r3' & c3 & -> & -> & H3).
      by apply finish_blind_req.
    + match goal with |- context [go_dirty r c1 d ?k] =>
        by destruct (rc_reqE _ _ (go_dirty_req r r' c1 d k H)) as (r2 & r2' & c2 & -> & -> & H2) end.
  - unfold body_step. destruct (_ <? _); [|by apply body_finish_req].
    destruct (rc_reqE _ _ (ensure_buf_req r r' c d H)) as (r1 & r1' & c1 & -> & -> & H1).
    destruct (f_buf (frame c1 d)); [done|]. by apply body_finish_req.
  - done.
  - unfold dirty_step. destruct (resync_scan o c d p) as [[u f] c1]. destruct f; cbn [negb]; [|done].
    by destruct (rc_reqE _ _ (do_resync_req r r' c1 d H)) as (r1 & r1' & c2 & -> & -> & H1).
Qed.

(** ** The loop as a relation *)
Inductive runs d (ts ef : Z) : reasm -> conn -> list Z -> reasm * conn * bool -> Prop :=
  | runs_nil r c : runs d ts ef r c [] (r, c, false)
  | runs_again r c p r' c' p' x : p <> [] ->
      frame_step r o c d p ts ef = Again r' c' p' -> runs d ts ef r' c' p' x -> runs d ts ef r c p x
  | runs_return r c p r' c' a : p <> [] ->
      frame_step r o c d p ts ef = Return r' c' a -> runs d ts ef r c p (r', c', a).

Lemma loop_runs fuel r c d p ts ef x :
  frame_loop fuel r o c d p ts ef = Some x -> runs d ts ef r c p x.
Proof.
  revert r c p. induction fuel as [|fuel IH]; intros r c p H; destruct p as [|b p]; cbn in H;
    simplify_eq; try constructor.
  destruct (frame_step r o c d (b :: p) ts ef) eqn:E; simplify_eq.
  - eapply runs_again; eauto.
  - eapply runs_return; eauto.
Qed.

Lemma runs_det d ts ef r c p x y : runs d ts ef r c p x -> runs d ts ef r c p y -> x = y.
Proof.
  intros H. revert y. induction H as [|r c p r1 c1 p1 x Hne E _ IH|r c p r1 c1 a Hne E];
    intros y Hy; inversion Hy as [|? ? ? ? ? ? ? ? E' Hy'|? ? ? ? ? ? ? E']; subst; try done;
    rewrite E in E'; simplify_eq; auto.
Qed.

Lemma runs_req d ts ef r c p x r' :
  runs d ts ef r' c p x -> req r r' -> r_oom r' = [] ->
  exists r2, runs d ts ef r c p (r2, x.1.2, x.2) /\ req r2 x.1.1.
Proof.
  intros H. revert r. induction H as [r' c|r' c p r1 c1 p1 x Hne E _ IH|r' c p r1 c1 a Hne E];
    intros r Hr Ho; cbn.
  - exists r. split; [constructor|done].
  - pose proof (step_req r r' c d p ts ef Hr) as Hs. rewrite E in Hs.
    destruct (frame_step r o c d p ts ef) as [r2 c2 p2|] eqn:E2; [|done].
    destruct Hs as (Hs & -> & ->). destruct (IH r2 Hs) as (r3 & ? & ?); [apply Hs|].
    exists r3. split; [|done]. eapply runs_again; eauto.
  - pose proof (step_req r r' c d p ts ef Hr) as Hs. rewrite E in Hs.
    destruct (frame_step r o c d p ts ef) as [|r2 c2 a2] eqn:E2; [done|].
    destruct Hs as (Hs & -> & ->). exists r2. split; [|done]. by eapply runs_return.
Qed.

(** ** The body buffer is invisible to callbacks *)
Lemma with_buf_frames c d b :
  with_buf c d b = with_frames c
    (match d with LK_DIR_SEND => c_send c <| f_buf := b |> | _ => c_send c end)
    (match d with LK_DIR_RECV => c_recv c <| f_buf := b |> | _ => c_recv c end).
Proof. by destruct c, d. Qed.

Lemma deliver_buf r c d b m :
  SinkLaws (r_sink r) ->
  deliver r (with_buf c d b) d m = ((deliver r c d m).1, with_buf (deliver r c d m).2 d b).
Proof.
  intros SL. destruct (deliver_spec r c d m SL) as (_ & _ & Hf).
  pose proof (Hf LK_DIR_SEND) as Hs. pose proof (Hf LK_DIR_RECV) as Hr. cbn [frame] in Hs, Hr.
  rewrite (with_buf_frames (deliver r c d m).2 d b), Hs, Hr. clear Hf Hs Hr.
  rewrite with_buf_frames. unfold deliver. destruct (on_msg (r_sink r)) as [cb|] eqn:E; [|done].
  rewrite (law_on_msg cb _ _ _ _ _ _ E). by destruct (cb (r_ctx r) c d m).
Qed.

Lemma stamp_resync_buf c d b m :
  stamp_resync (with_buf c d b) d m = (with_buf (stamp_resync c d m).1 d b, (stamp_resync c d m).2).
Proof.
  unfold stamp_resync. rewrite frame_with_buf. cbn [f_after_resync upd].
  destruct (f_after_resync (frame c d)); by destruct d.
Qed.

Lemma emit_buf r c d b body :
  SinkLaws (r_sink r) ->
  emit r o (with_buf c d b) d body = ((emit r o c d body).1, with_buf (emit r o c d body).2 d b).
Proof.
  intros SL. unfold emit. rewrite frame_with_buf. cbn [f_msg_ts f_msg_type f_msg_len upd].
  rewrite law_pre_emit_buf. destruct (pre_emit o c d _) as [c1 m1]; cbn [fst snd].
  rewrite stamp_resync_buf. destruct (stamp_resync c1 d m1) as [c2 m2]; cbn [fst snd].
  rewrite frame_with_buf. cbn [f_body_total upd].
  destruct (_ <? _); apply deliver_buf; done.
Qed.

Lemma msg_reset_buf r r' c d b : req r r' -> rc_req (msg_reset r (with_buf c d b) d) (msg_reset r' c d).
Proof.
  intros H. unfold msg_reset. split; cbn [fst snd]; [by apply buf_put_req|].
  rewrite frame_with_buf. unfold with_buf, upd_frame. by rewrite set_frame_set.
Qed.

(** ** One step on [p ++ q] against a step on [p] *)
Lemma body_finish_prefix r c d p q t rm ef :
  0 <= rm <= zlen p -> (f_buf (frame c d) = None -> t <= zlen p) ->
  body_finish r o c d (p ++ q) t rm ef =
  match body_finish r o c d p t rm ef with
  | Again r c p' => Again r c (p' ++ q)
  | Return r c a => Return r c a
  end.
Proof.
  intros Hrm Ht. unfold body_finish. rewrite ztake_app_le, zdrop_app_le by lia.
  destruct (f_msg_cont (frame c d)).
  - destruct (rm =? 0); [done|]. by destruct (ensure_buf r c d).
  - replace (match f_buf (frame c d) with Some b => b ++ ztake rm p | None => ztake t (p ++ q) end)
      with (match f_buf (frame c d) with Some b => b ++ ztake rm p | None => ztake t p end).
    2:{ destruct (f_buf _); [done|]. by rewrite ztake_app_le by auto. }
    destruct (emit r o c d _) as [r1 c1], (msg_reset r1 c1 d) as [r2 c2].
    unfold finish_blind. destruct (went_blind _ _ _) as [[] ?]; done.
Qed.

(** [p] was spilled into the slab; the rest of the body arrives in [q]. *)
Lemma body_finish_merge r r1 c d p q t rm ef :
  SinkLaws (r_sink r) -> req r r1 -> 0 <= zlen p < rm ->
  (f_buf (frame c d) = None -> t = rm) ->
  res_req (body_finish r o c d (p ++ q) t rm ef)
    (body_finish r1 o (with_buf c d (Some (buf_bytes (frame c d) ++ p))) d q t (rm - zlen p) ef).
Proof.
  intros SL Hr Hp Ht. unfold body_finish. rewrite frame_with_buf.
  cbn [f_msg_cont f_body_len f_prefix_closed f_buf upd].
  rewrite ztake_app_ge, zdrop_app_ge by lia.
  destruct (Z.eqb_spec rm 0); [lia|]. destruct (Z.eqb_spec (rm - zlen p) 0); [lia|].
  destruct (f_msg_cont (frame c d)).
  - pose proof (ensure_buf_spec r c d) as He. destruct (ensure_buf r c d) as [r2 c2].
    destruct He as (Hk & Hx & Hs & _ & Ho & b & -> & _ & Hb). pose proof Hr as [].
    unfold ensure_buf. rewrite frame_with_buf. cbn [f_buf upd].
    rewrite !buf_append_eq, !frame_with_buf. cbn [f_buf upd]. rewrite Hb by done. cbn [fmap option_fmap option_map].
    split_and!; [split; try congruence; by apply Ho| |done].
    unfold with_buf, upd_frame. rewrite !frame_set_eq, !set_frame_set. by rewrite app_assoc.
  - replace (match f_buf (frame c d) with Some b => b ++ p ++ ztake (rm - zlen p) q
             | None => ztake t (p ++ q) end)
      with ((buf_bytes (frame c d) ++ p) ++ ztake (rm - zlen p) q).
    2:{ unfold buf_bytes. destruct (f_buf (frame c d)); cbn; [by rewrite app_assoc|].
        rewrite Ht by done. by rewrite ztake_app_ge by lia. }
    set (body := (buf_bytes (frame c d) ++ p) ++ _).
    rewrite emit_buf by by destruct Hr as [_ <- _ _ _].
    destruct (rc_reqE _ _ (emit_req r r1 c d body Hr)) as (r2 & r2' & c2 & -> & -> & H2).
    cbn [fst snd].
    destruct (rc_reqE _ _ (msg_reset_buf _ _ c2 d (Some (buf_bytes (frame c d) ++ p))
      (req_sym _ _ H2))) as (r3' & r3 & c3 & -> & -> & H3).
    by apply finish_blind_req, req_sym.
Qed.

Lemma hdr_accum_app f ts p q :
  p <> [] -> hdr_accum (hdr_accum f ts p) ts q = hdr_accum f ts (p ++ q).
Proof.
  intros Hp. unfold hdr_accum at 1. destruct (hdr_accum_fields f ts p) as (_ & _ & Hh & _).
  unfold hdr_len. rewrite Hh, zlen_app. pose proof (zlen_pos p Hp). pose proof (zlen_nonneg (f_hdr f)).
  destruct (Z.eqb_spec (zlen (f_hdr f) + zlen p) 0); [lia|]. cbn [andb].
  unfold hdr_accum. destruct (_ && _); cbn; by rewrite app_assoc.
Qed.

Definition step_app_spec r c d p q ts ef : Prop :=
  match frame_step r o c d p ts ef with
  | Return r1 c1 true => frame_step r o c d (p ++ q) ts ef = Return r1 c1 true
  | Return r1 c1 false =>
      res_req (frame_step r o c d (p ++ q) ts ef) (frame_step r1 o c1 d q ts ef)
  | Again r1 c1 p1 =>
      frame_step r o c d (p ++ q) ts ef = Again r1 c1 (p1 ++ q) \/
      p1 = [] /\ frame_step r o c d (p ++ q) ts ef = frame_step r1 o c1 d q ts ef
  end.

Lemma res_req_refl r x :
  match x with Again r0 _ _ | Return r0 _ _ => r_oom r0 = [] end -> res_req x x.
Proof. by destruct x. Qed.

(** The tail of the header step carries unread bytes through untouched. *)
Lemma header_done_app r c d p q ef :
  header_done r o c d (p ++ q) ef =
  match header_done r o c d p ef with
  | Again r c p' => Again r c (p' ++ q)
  | Return r c a => Return r c a
  end.
Proof.
  unfold header_done. destruct (parse_hdr o c d) as [[] c1]; cbn [negb].
  - destruct (_ =? 0); [|done]. destruct (emit _ _ _ _ _) as [r2 c2], (msg_reset r2 c2 d) as [r3 c3].
    unfold finish_blind. by destruct (went_blind _ _ _) as [[] ?].
  - by destruct (go_dirty _ _ _ _).
Qed.

Lemma header_done_abort r c d p ef r1 c1 a :
  header_done r o c d p ef = Return r1 c1 a -> a = true.
Proof.
  unfold header_done. destruct (parse_hdr o c d) as [[] c2]; cbn [negb].
  - destruct (_ =? 0); [|done]. destruct (emit _ _ _ _ _) as [r2 c3], (msg_reset r2 c3 d) as [r3 c4].
    unfold finish_blind. destruct (went_blind _ _ _) as [[] ?]; naive_solver.
  - destruct (go_dirty _ _ _ _); naive_solver.
Qed.

Lemma header_app r c d p q ts ef :
  state_wf o K r c -> r_oom r = [] -> bytes_ok p -> p <> [] -> f_st (frame c d) = LK_FR_HEADER ->
  (forall x, res_req (frame_step r o c d x ts ef) (frame_step r o c d x ts ef)) ->
  step_app_spec r c d p q ts ef.
Proof.
  intros Hw Ho Hb Hp Hst Hrefl. unfold step_app_spec.
  pose proof (header_step_ok o K r c d p ts ef Hw Hb Hp Hst) as Hok.
  assert (forall x, frame_step r o c d x ts ef = header_step r o c d x ts ef) as Est
    by (intros; unfold frame_step; by rewrite Hst).
  specialize (Hrefl (p ++ q)). rewrite !Est in *. pose proof Hw as (_ & _ & _ & Hwf).
  destruct (header_step_eq o r c d p ts ef Hwf Hst) as [Hneed Ep]. rewrite Ep in *. clear Ep.
  destruct (header_step_eq o r c d (p ++ q) ts ef Hwf Hst) as [_ Epq].
  set (need := hdr_size o c d - hdr_len (frame c d)) in *.
  pose proof (zlen_nonneg q). pose proof (zlen_pos p Hp). rewrite zlen_app in Epq.
  destruct (Z.ltb_spec (zlen p) need) as [Hlt|Hge].
  - set (c1 := set_frame c d (hdr_accum (frame c d) ts p)) in *. destruct Hok as (_ & _ & _ & Hwf1).
    assert (frame c1 d = hdr_accum (frame c d) ts p) as Hf1 by apply frame_set_eq.
    destruct (hdr_accum_fields (frame c d) ts p) as (Hst1 & Hsu1 & Hh1 & _).
    rewrite <- Hf1 in Hst1, Hsu1, Hh1. rewrite Hst in Hst1.
    assert (frame_step r o c1 d q ts ef = header_step r o c1 d q ts ef) as ->
      by (unfold frame_step; by rewrite Hst1).
    destruct (header_step_eq o r c1 d q ts ef Hwf1 Hst1) as [_ ->].
    rewrite (law_hdr_size_ext (o:=o) c1 c d) by done. unfold hdr_len. rewrite Hh1, zlen_app.
    fold (hdr_len (frame c d)).
    replace (hdr_size o c d - (hdr_len (frame c d) + zlen p)) with (need - zlen p) by lia.
    assert (forall x, set_frame c1 d (hdr_accum (frame c1 d) ts x) =
                      set_frame c d (hdr_accum (frame c d) ts (p ++ x))) as Hc.
    { intros x. rewrite Hf1, hdr_accum_app by done. subst c1. by rewrite set_frame_set. }
    rewrite !Hc, <- (ztake_app_ge need p q), <- (zdrop_app_ge need p q) by lia.
    rewrite Epq in *. destruct (Z.ltb_spec (zlen p + zlen q) need),
      (Z.ltb_spec (zlen q) (need - zlen p)); try lia; done.
  - rewrite Epq. destruct (Z.ltb_spec (zlen p + zlen q) need); [lia|].
    rewrite ztake_app_le, zdrop_app_le by lia. rewrite header_done_app.
    destruct (header_done _ _ _ _ _ _) as [| ? ? []] eqn:E; [by left|done|].
    by apply header_done_abort in E.
Qed.

Lemma body_finish_abort r c d p t rm ef r1 c1 a :
  body_finish r o c d p t rm ef = Return r1 c1 a -> a = true.
Proof.
  unfold body_finish. destruct (f_msg_cont _).
  - destruct (rm =? 0); [done|]. by destruct (ensure_buf r c d).
  - destruct (emit _ _ _ _ _) as [r2 c3], (msg_reset r2 c3 d) as [r3 c4].
    unfold finish_blind. destruct (went_blind _ _ _) as [[] ?]; naive_solver.
Qed.

Lemma body_app r c d p q ts ef :
  state_wf o K r c -> r_oom r = [] -> f_st (frame c d) = LK_FR_BODY -> step_app_spec r c d p q ts ef.
Proof.
  intros (SL & _ & _ & Hwf) Ho Hst. unfold step_app_spec.
  assert (forall x, frame_step r o c d x ts ef = body_step r o c d x ef) as Est
    by (intros; unfold frame_step; by rewrite Hst).
  rewrite !Est. destruct (Hwf d) as [[] Hfs]. unfold st_wf in Hfs. rewrite Hst in Hfs.
  destruct Hfs as [Hbl Hpc]. set (f := frame c d) in *.
  assert (0 <= buf_len f) by apply zlen_nonneg. pose proof (zlen_nonneg p). pose proof (zlen_nonneg q).
  assert (body_target f <= LK_MSG_BODY_MAX) as Hbt
    by (unfold body_target; destruct (Z.ltb_spec (f_body_len f) LK_MSG_BODY_MAX); lia).
  unfold LK_MSG_BODY_MAX in *. unfold body_step. fold f.
  set (target := if f_prefix_closed f then buf_len f else body_target f).
  assert (0 <= target - buf_len f <= 16384) as Hrem.
  { subst target. destruct (f_prefix_closed f); [lia|]. specialize (Hpc eq_refl). lia. }
  rewrite u32_small by lia. set (rem := target - buf_len f) in *.
  assert (f_buf f = None -> target = rem) as Hnone.
  { intros E. subst rem. unfold buf_len, buf_bytes. rewrite E. cbn -[zlen]. rewrite zlen_nil. lia. }
  rewrite zlen_app. destruct (Z.ltb_spec (zlen p) rem) as [Hlt|Hge].
  - pose proof (ensure_buf_spec r c d) as He. destruct (ensure_buf r c d) as [r1 c1].
    destruct He as (Hk & Hx & Hs & _ & Ho1 & b & -> & _ & Hb). specialize (Ho1 Ho).
    rewrite (Hb Ho). fold f. rewrite frame_with_buf. cbn [f_buf upd].
    rewrite !buf_append_eq, frame_with_buf. cbn [f_buf upd fmap option_fmap option_map].
    assert (forall x y, with_buf (with_buf c d x) d y = with_buf c d y) as Hww
      by (intros; unfold with_buf, upd_frame; by rewrite frame_set_eq, set_frame_set).
    rewrite !Hww. set (c2 := with_buf c d (Some (buf_bytes f ++ p))).
    assert (frame c2 d = f <| f_buf := Some (buf_bytes f ++ p) |>) as Hf2 by apply frame_with_buf.
    assert (frame_step r1 o c2 d q ts ef = body_step r1 o c2 d q ef) as ->
      by (unfold frame_step; rewrite Hf2; cbn; by rewrite Hst).
    unfold body_step. rewrite Hf2.
    change (f_prefix_closed (f <| f_buf := Some (buf_bytes f ++ p) |>)) with (f_prefix_closed f).
    assert (f_prefix_closed f = false) as Epc.
    { destruct (f_prefix_closed f) eqn:E; [|done]. subst rem target. lia. }
    assert (rem = body_target f - buf_len f) as Hrm by (subst rem target; by rewrite Epc).
    rewrite Epc. assert (target = body_target f) as Htg by (subst target; by rewrite Epc).
    clearbody rem target.
    change (body_target (f <| f_buf := Some (buf_bytes f ++ p) |>)) with (body_target f). rewrite <- Htg.
    replace (buf_len (f <| f_buf := Some (buf_bytes f ++ p) |>)) with (buf_len f + zlen p)
      by (symmetry; apply zlen_app).
    replace (target - (buf_len f + zlen p)) with (rem - zlen p) by lia.
    rewrite u32_small by lia.
    destruct (Z.ltb_spec (zlen p + zlen q) rem), (Z.ltb_spec (zlen q) (rem - zlen p)); try lia.
    + unfold ensure_buf. rewrite Hf2. cbn [f_buf upd]. rewrite Hf2. cbn [f_buf upd].
      split_and!; [by apply req_refl| |done]. rewrite buf_append_eq, Hf2.
      cbn [f_buf upd fmap option_fmap option_map]. subst c2. by rewrite Hww, app_assoc.
    + apply body_finish_merge; [done| |lia|done]. split; congruence.
  - destruct (Z.ltb_spec (zlen p + zlen q) rem); [lia|].
    rewrite body_finish_prefix; [|lia|intros E; rewrite Hnone by done; lia].
    destruct (body_finish _ _ _ _ _ _ _ _) as [| ? ? []] eqn:E; [by left|done|].
    by apply body_finish_abort in E.
Qed.

Lemma skip_app r c d p q ts ef :
  f_st (frame c d) = LK_FR_SKIP -> step_app_spec r c d p q ts ef.
Proof.
  intros Hst. unfold step_app_spec.
  assert (forall x, frame_step r o c d x ts ef = skip_step r c d x) as Est
    by (intros; unfold frame_step; by rewrite Hst).
  rewrite !Est. unfold skip_step. cbn [f_skip_left upd]. set (f := frame c d) in *.
  pose proof (zlen_nonneg p). pose proof (zlen_nonneg q). rewrite zlen_app.
  destruct (Z.le_gt_cases (f_skip_left f) (zlen p)) as [Hle|Hgt].
  - left. rewrite !Z.min_l by lia. by rewrite zdrop_app_le by lia.
  - right. rewrite (Z.min_r _ (zlen p)) by lia. split; [by apply zdrop_all|].
    destruct (Z.eqb_spec (f_skip_left f - zlen p) 0); [lia|].
    unfold frame_step. rewrite frame_set_eq. cbn [f_st f_skip_left upd]. rewrite Hst.
    unfold skip_step. rewrite frame_set_eq. cbn [f_skip_left upd].
    replace (Z.min (f_skip_left f) (zlen p + zlen q)) with
      (zlen p + Z.min (f_skip_left f - zlen p) (zlen q)) by lia.
    rewrite zdrop_app_ge by lia. rewrite set_frame_set.
    replace (zlen p + Z.min (f_skip_left f - zlen p) (zlen q) - zlen p) with
      (Z.min (f_skip_left f - zlen p) (zlen q)) by lia.
    replace (f_skip_left f - (zlen p + Z.min (f_skip_left f - zlen p) (zlen q))) with
      (f_skip_left f - zlen p - Z.min (f_skip_left f - zlen p) (zlen q)) by lia. done.
Qed.

Lemma dirty_app r c d p q ts ef :
  state_wf o K r c -> f_st (frame c d) = LK_FR_DIRTY ->
  (forall x, res_req (frame_step r o c d x ts ef) (frame_step r o c d x ts ef)) ->
  step_app_spec r c d p q ts ef.
Proof.
  intros (_ & _ & _ & Hwf) Hst Hrefl. unfold step_app_spec. specialize (Hrefl (p ++ q)).
  assert (forall x, frame_step r o c d x ts ef = dirty_step r o c d x) as Est
    by (intros; unfold frame_step; by rewrite Hst).
  rewrite !Est in *. unfold dirty_step in *. destruct (Hwf d) as [[] _].
  destruct (resync_scan o c d p) as [[used found] c1] eqn:E.
  pose proof (law_scan (o:=o) _ _ _ _ _ _ E wf_matched) as (Hu & _ & Hall & k & Hk & Hc1).
  destruct found; cbn [negb].
  - rewrite (law_scan_app_hit _ _ _ q _ _ E). cbn [negb]. destruct (do_resync r c1 d). left.
    by rewrite zdrop_app_le by lia.
  - rewrite (law_scan_app_miss _ _ _ q _ _ E) in *. unfold frame_step.
    replace (f_st (frame c1 d)) with LK_FR_DIRTY
      by (rewrite Hc1; unfold upd_frame; rewrite frame_set_eq; cbn; by rewrite Hst).
    unfold dirty_step. destruct (resync_scan o c1 d q) as [[u f] c2] eqn:E2. cbn [fst snd] in *.
    assert (0 <= u) as Hu2.
    { eapply law_scan in E2 as (? & _); [lia|]. rewrite Hc1. unfold upd_frame. rewrite frame_set_eq.
      cbn. lia. }
    rewrite zdrop_app_ge in * by lia.
    replace (zlen p + u - zlen p) with u in * by lia. done.
Qed.

Lemma step_app r c d p q ts ef :
  state_wf o K r c -> r_oom r = [] -> bytes_ok p -> p <> [] -> step_app_spec r c d p q ts ef.
Proof.
  intros Hw Ho Hb Hp.
  assert (forall x, res_req (frame_step r o c d x ts ef) (frame_step r o c d x ts ef)) as Hrefl
    by (intros; by apply step_req, req_refl).
  destruct (f_st (frame c d)) eqn:Hst.
  - by apply header_app.
  - by apply body_app.
  - by apply skip_app.
  - by apply dirty_app.
Qed.

Lemma step_oom r c d p ts ef :
  r_oom r = [] ->
  match frame_step r o c d p ts ef with Again r1 _ _ | Return r1 _ _ => r_oom r1 = [] end.
Proof.
  intros Ho. pose proof (step_req r r c d p ts ef (req_refl r Ho)) as H.
  destruct (frame_step r o c d p ts ef); by destruct H as [[] _].
Qed.

(** ** The run on [p ++ q] is the run on [p] followed by the run on [q] *)
Lemma runs_app d ts ef r c p q x y :
  runs d ts ef r c p x -> x.2 = false -> runs d ts ef x.1.1 x.1.2 q y ->
  state_wf o K r c -> r_oom r = [] -> bytes_ok p ->
  exists r2, runs d ts ef r c (p ++ q) (r2, y.1.2, y.2) /\ req r2 y.1.1.
Proof.
  intros H. induction H as [r c|r c p r1 c1 p1 x Hne E Hr IH|r c p r1 c1 a Hne E];
    cbn [fst snd]; intros Hx Hq Hw Ho Hb.
  - by apply runs_req with r; [|apply req_refl|].
  - pose proof (step_app r c d p q ts ef Hw Ho Hb Hne) as Ha.
    pose proof (step_oom r c d p ts ef Ho) as Ho1.
    pose proof (frame_step_ok o K r c d p ts ef Hw Hb Hne) as Hok.
    unfold step_app_spec in Ha. rewrite E in Ha, Ho1, Hok. destruct Hok as (Hw1 & Hb1 & _).
    destruct (IH Hx Hq Hw1 Ho1 Hb1) as (r2 & Hr2 & Heq).
    assert (p ++ q <> []) by (destruct p; done).
    destruct Ha as [Ha|[-> Ha]]; [exists r2; split; [by eapply runs_again|done]|].
    cbn [app] in Hr2. exists r2. split; [|done].
    inversion Hr2 as [|? ? ? ? ? ? ? ? Eq Hr3|? ? ? ? ? ? ? Eq]; subst.
    + rewrite app_nil_r. eapply runs_again; [done|exact E|]. constructor.
    + rewrite Eq in Ha. by eapply runs_again.
    + rewrite Eq in Ha. by eapply runs_return.
  - subst a. pose proof (step_app r c d p q ts ef Hw Ho Hb Hne) as Ha.
    pose proof (step_oom r c d p ts ef Ho) as Ho1.
    unfold step_app_spec in Ha. rewrite E in Ha, Ho1.
    assert (p ++ q <> []) by (destruct p; done).
    inversion Hq as [|? ? ? r3 c3 p3 ? ? Eq Hr3|? ? ? r3 c3 a3 ? Eq]; subst; cbn [fst snd].
    + rewrite app_nil_r. exists r1. split; [by eapply runs_return|by apply req_refl].
    + rewrite Eq in Ha. destruct (frame_step r o c d (p ++ q) ts ef) as [r4 c4 p4|] eqn:E4; [|done].
      destruct Ha as (Ha & -> & ->). pose proof Ha as [].
      destruct (runs_req d ts ef r4 c3 p3 y r3 Hr3 Ha) as (r5 & ? & ?); [done|].
      exists r5. split; [by eapply runs_again|done].
    + rewrite Eq in Ha. destruct (frame_step r o c d (p ++ q) ts ef) as [|r4 c4 a4] eqn:E4; [done|].
      destruct Ha as (Ha & -> & ->). exists r4. split; [by eapply runs_return|done].
Qed.

(** The flags at the call's entry matter only through their blind bits. *)
Lemma step_ef r c d p ts ef ef' :
  has_flag ef BLIND = has_flag ef' BLIND ->
  frame_step r o c d p ts ef = frame_step r o c d p ts ef'.
Proof.
  intros H. unfold frame_step, header_step, header_done, body_step, body_finish, finish_blind,
    went_blind. by rewrite H.
Qed.

Lemma runs_ef d ts ef ef' r c p x :
  has_flag ef BLIND = has_flag ef' BLIND -> runs d ts ef r c p x -> runs d ts ef' r c p x.
Proof.
  intros He. induction 1 as [|? ? ? ? ? ? ? ? E|? ? ? ? ? ? ? E]; [constructor|..];
    rewrite (step_ef _ _ _ _ _ _ _ He) in E; [by eapply runs_again|by eapply runs_return].
Qed.

(** A run that discards input has lost sync or gone blind. *)
Definition lost c d (ef : Z) : Prop :=
  f_st (frame c d) = LK_FR_DIRTY \/ has_flag ef BLIND = false /\ has_flag (c_flags c) BLIND = true.

Lemma finish_blind_lost r c d p ef r1 c1 :
  finish_blind r c p ef = Return r1 c1 true -> lost c1 d ef.
Proof.
  unfold finish_blind, went_blind. destruct (has_flag ef BLIND) eqn:?; [done|].
  destruct (has_flag (c_flags c) BLIND) eqn:?; [|done]. cbn. intros [= _ <-]. by right.
Qed.

Lemma step_lost r c d p ts ef r1 c1 : frame_step r o c d p ts ef = Return r1 c1 true -> lost c1 d ef.
Proof.
  unfold frame_step. destruct (f_st (frame c d)).
  - unfold header_step, header_done. destruct (_ <? _); [done|]. destruct (parse_hdr _ _ _) as [[] c2]; cbn [negb].
    + destruct (_ =? 0); [|done]. destruct (emit _ _ _ _ _) as [r2 c3], (msg_reset r2 c3 d) as [r3 c4].
      apply finish_blind_lost.
    + unfold go_dirty, msg_reset. intros [= _ <-]. left. unfold upd_frame. by rewrite frame_set_eq.
  - assert (forall r c t rm, body_finish r o c d p t rm ef = Return r1 c1 true -> lost c1 d ef) as Hbf.
    { intros r' c' t rm. unfold body_finish. destruct (f_msg_cont _).
      - destruct (rm =? 0); [done|]. by destruct (ensure_buf r' c' d).
      - destruct (emit _ _ _ _ _) as [r2 c3], (msg_reset r2 c3 d) as [r3 c4]. apply finish_blind_lost. }
    unfold body_step. destruct (_ <? _); [|apply Hbf]. destruct (ensure_buf r c d) as [r2 c2].
    destruct (f_buf _); [done|apply Hbf].
  - done.
  - unfold dirty_step. destruct (resync_scan _ _ _ _) as [[u []] c2]; [|done]. by destruct (do_resync _ _ _).
Qed.

Lemma runs_lost d ts ef r c p r1 c1 : runs d ts ef r c p (r1, c1, true) -> lost c1 d ef.
Proof.
  remember (r1, c1, true) as x eqn:Ex. induction 1; simplify_eq; [by auto|by eapply step_lost].
Qed.

Theorem loop_app r c d p q ts ef r1 c1 a ef' r2 c2 b :
  state_wf o K r c -> r_oom r = [] -> bytes_ok p -> bytes_ok q ->
  frame_loop (loop_fuel p) r o c d p ts ef = Some (r1, c1, a) -> ~ lost c1 d ef ->
  has_flag ef' BLIND = has_flag ef BLIND ->
  frame_loop (loop_fuel q) r1 o c1 d q ts ef' = Some (r2, c2, b) ->
  exists r2', frame_loop (loop_fuel (p ++ q)) r o c d (p ++ q) ts ef = Some (r2', c2, b) /\ req r2' r2.
Proof.
  intros Hw Ho Hp Hq E1 Hl He E2. apply loop_runs in E1, E2. apply (runs_ef _ _ _ _ _ _ _ _ He) in E2.
  assert (a = false) as -> by (destruct a; [by apply runs_lost in E1|done]).
  destruct (runs_app _ _ _ _ _ _ _ _ _ E1 eq_refl E2 Hw Ho Hp) as (r2' & Hr & Heq).
  destruct (frame_loop_total o K (loop_fuel (p ++ q)) r c d (p ++ q) ts ef Hw) as (r3 & c3 & a3 & E3 & _).
  - by apply Forall_app.
  - unfold loop_fuel, in_body. destruct (f_st _); lia.
  - exists r2'. split; [|done]. pose proof (loop_runs _ _ _ _ _ _ _ _ E3) as Hr3.
    rewrite E3. f_equal. by eapply runs_det.
Qed.
End Chunk.
End FramerChunk.

(** The protocol a connection frames as ([conn_ops]). *)
Definition proto_of {P F} (c : lk_conn P F) : proto_id := default PROTO_PG (c_ops c).
Definition message_framed {S P F} (o : lk_proto_ops S P F) : Prop :=
  has_flag (po_flags o) LK_PROTO_F_STREAM = false.

(** A decoded data event: u32 fields, [cap_len] within the payload. *)
Definition ev_ok (ev : lk_ev_data) (cap_len : Z) : Prop :=
  0 <= ed_off ev < 2 ^ 32 /\ 0 <= ed_total_len ev < 2 ^ 32 /\
  0 <= cap_len <= zlen (ed_payload ev) /\ bytes_ok (ed_payload ev).

Section FramerData.
Context {S P F : Type} (vtable : proto_id -> lk_proto_ops S P F).
Abbreviation reasm := (lk_reasm S P F).
Abbreviation conn := (lk_conn P F).
Implicit Types (r : reasm) (c : conn) (d : lk_dir) (p : list Z).

Definition framer_wf r c : Prop :=
  SinkLaws (r_sink r) /\ pool_wf r /\ conn_wf (vtable (proto_of c)) c.

Definition pinned c : conn := c <| c_ops := Some (proto_of c) |>.

Lemma conn_ops_pinned c : conn_ops vtable c = (vtable (proto_of c), pinned c).
Proof. unfold conn_ops, pinned, proto_of. by destruct c as [?? [] ??????????? ]. Qed.

Section Lawful.
Context (id : proto_id) {FL : FramerLaws (vtable id)} (MF : message_framed (vtable id)).
Context (K : lk_msg_sink S P F -> conn -> Prop) {SK : Stable K}
  (HK : forall k c, K k c -> c_ops c = Some id).
Abbreviation o := (vtable id).
Abbreviation swf := (state_wf o K).

Lemma swf_proto r c : swf r c -> proto_of c = id.
Proof. intros (_ & _ & H%HK & _). unfold proto_of. by rewrite H. Qed.
Lemma swf_pinned r c : swf r c -> pinned c = c.
Proof.
  intros (_ & _ & H%HK & _). unfold pinned, proto_of. rewrite H. destruct c; cbn in *. by subst.
Qed.
Lemma swf_conn_ops r c : swf r c -> conn_ops vtable c = (o, c).
Proof. intros H. rewrite conn_ops_pinned, (swf_proto _ _ H), (swf_pinned _ _ H). done. Qed.

Lemma framer_swf r c : proto_of c = id -> framer_wf r c -> K (r_sink r) (pinned c) -> swf r (pinned c).
Proof.
  intros Hid (SL & Hp & Hwf) Hk. rewrite Hid in Hwf. split_and!; [done..|].
  intros d. rewrite (law_hdr_size_ext (o:=o) _ c d); [|by destruct d]. pose proof (Hwf d).
  by destruct d.
Qed.
Lemma swf_framer r c : swf r c -> framer_wf r c.
Proof.
  intros H. pose proof (swf_proto _ _ H) as Hid. destruct H as (?&?&?&?).
  split_and!; [done..|by rewrite Hid].
Qed.

(** Writing the chunk-arithmetic fields keeps the invariant. *)
Definition set_call (tot pos : Z) (f : lk_frame) : lk_frame :=
  f <| f_call_total := tot |> <| f_call_pos := pos |>.
Lemma set_call_wf size f t q :
  0 <= t < 2 ^ 32 -> 0 <= q < 2 ^ 32 -> frame_wf size f -> frame_wf size (set_call t q f).
Proof. intros Ht Hq [[] Hst]. split; [by split|done]. Qed.
Lemma set_call_swf r c d t q :
  0 <= t < 2 ^ 32 -> 0 <= q < 2 ^ 32 -> swf r c -> swf r (upd_frame c d (set_call t q)).
Proof.
  intros Ht Hq Hw. apply (mid_wf_close o K); [by apply state_mid|].
  rewrite (law_hdr_size_ext (o:=o) _ c d) by by rewrite frame_set_eq.
  apply set_call_wf; [done..|]. apply Hw.
Qed.

Lemma frame_bytes_ok r c d p ts :
  swf r c -> bytes_ok p ->
  exists r' c', lk_frame_bytes vtable r c d p ts = Some (r', c') /\ swf r' c'.
Proof.
  intros Hw Hb. unfold lk_frame_bytes. rewrite (swf_conn_ops _ _ Hw), MF.
  assert (forall r1 (c1 : conn) p1, swf r1 c1 -> bytes_ok p1 -> exists r' c',
    fst <$> frame_loop (loop_fuel p1) r1 o c1 d p1 ts (c_flags c) = Some (r', c') /\ swf r' c') as Hl.
  { intros r1 c1 p1 Hw1 Hb1.
    destruct (frame_loop_total o K (loop_fuel p1) r1 c1 d p1 ts (c_flags c) Hw1 Hb1)
      as (r' & c' & a & -> & Hw'); [|by exists r', c'].
    unfold loop_fuel, in_body. destruct (f_st _); lia. }
  destruct (intercept_bytes o) as [ib|] eqn:Ei; [|by apply Hl].
  destruct p as [|b p]; [by apply Hl|].
  destruct (ib r c d (b :: p) ts) as [[[go r1] c1] p1] eqn:E.
  eapply law_intercept in E as ((Hk & Hpn & Ho) & Hops & Hfr & n & ->); [|done|apply Hw].
  assert (swf r1 c1) as Hw1.
  { destruct Hw as (SL & Hp & HKc & Hwf). split_and!; [by rewrite Hk|unfold pool_wf; by rewrite Hpn
      |rewrite Hk; by eapply stable|]. intros d'. rewrite Hfr. rewrite (law_hdr_size_ext (o:=o) _ c d'); [apply Hwf|].
    by rewrite Hfr. }
  destruct go; [|by exists r1, c1]. apply Hl; auto with lk.
Qed.

Lemma frame_hole_ok r c d n :
  swf r c -> 0 <= n -> exists r' c', lk_frame_hole vtable r c d n = Some (r', c') /\ swf r' c'.
Proof.
  intros Hw Hn. unfold lk_frame_hole. rewrite (swf_conn_ops _ _ Hw), MF.
  destruct (n =? 0); [by exists r, c|].
  assert (exists hit r1 c1, match intercept_hole o with Some ih => ih r c d
            | None => (false, r, c) end = (hit, r1, c1) /\ swf r1 c1) as (hit & r1 & c1 & -> & Hw1).
  { destruct (intercept_hole o) as [ih|] eqn:Ei; [|by eexists _, _, _].
    destruct (ih r c d) as [[hit r1] c1] eqn:E.
    eapply law_intercept_hole in E as (-> & Hops & Hfr); [|done].
    exists hit, r, c1. split; [done|]. destruct Hw as (SL & Hp & HKc & Hwf).
    split_and!; [done..|by eapply stable|]. intros d'. rewrite Hfr.
    rewrite (law_hdr_size_ext (o:=o) _ c d'); [apply Hwf|]. by rewrite Hfr. }
  destruct hit.
  { pose proof (go_dirty_wf o K r1 c1 d (fun s => s <| rs_hdr_holes ::= inc64 |>)
      (state_mid _ _ _ _ _ Hw1)). destruct (go_dirty _ _ _ _). eauto. }
  pose proof (hole_loop_total o K (count_hole r1 n) c1 d n (c_flags c) hole_fuel Hw1 Hn
    ltac:(done)) as Hl.
  destruct (f_st (frame c1 d)) eqn:Hst; try exact Hl.
  eexists _, _. split; [done|]. apply (mid_wf_close o K); [by apply state_mid|].
  rewrite (law_hdr_size_ext (o:=o) _ c1 d) by by rewrite frame_set_eq.
  destruct Hw1 as (_ & _ & _ & Hwf). destruct (Hwf d) as [[] Hs]. split; [by split|].
  unfold st_wf; cbn. by rewrite Hst.
Qed.

Lemma call_begin_ok r c d off total :
  swf r c -> 0 <= total < 2 ^ 32 ->
  exists r' c', call_begin vtable r c d off total = Some (r', c') /\ swf r' c'.
Proof.
  intros Hw Ht. unfold call_begin. change (fun f => f <| f_call_total := total |>
    <| f_call_pos := 0 |>) with (set_call total 0).
  destruct (off =? 0).
  - destruct (Z.ltb_spec (f_call_pos (frame c d)) (f_call_total (frame c d))).
    + destruct (frame_hole_ok r c d (f_call_total (frame c d) - f_call_pos (frame c d)) Hw
        ltac:(lia)) as (r1 & c1 & -> & Hw1). cbn.
      eexists _, _. split; [done|]. by apply set_call_swf.
    + cbn. eexists _, _. split; [done|]. by apply set_call_swf.
  - destruct (_ =? 0); [|by exists r, c].
    eexists _, _. split; [done|]. by apply set_call_swf.
Qed.

Lemma call_check_ok r c d off total cap :
  swf r c -> 0 <= total < 2 ^ 32 -> 0 <= off < 2 ^ 32 ->
  exists r' c', call_check vtable r c d off total cap = Some (r', c') /\ swf r' c'.
Proof.
  intros Hw Ht Ho. unfold call_check. change (fun f => f <| f_call_total := total |>
    <| f_call_pos := off |>) with (set_call total off).
  destruct (_ || _ || _) eqn:Ea.
  - assert (exists r1 c1, match f_st (frame c d) with LK_FR_DIRTY => (r, c)
              | _ => go_dirty r c d (fun s => s <| rs_off_anomalies ::= inc64 |>) end = (r1, c1) /\
              swf r1 c1) as (r1 & c1 & -> & Hw1).
    { pose proof (go_dirty_wf o K r c d (fun s => s <| rs_off_anomalies ::= inc64 |>)
        (state_mid _ _ _ _ _ Hw)). destruct (go_dirty _ _ _ _). destruct (f_st _); eauto. }
    eexists _, _. split; [done|]. by apply set_call_swf.
  - destruct (Z.ltb_spec (f_call_pos (frame c d)) off); [|by exists r, c].
    destruct (frame_hole_ok r c d (off - f_call_pos (frame c d)) Hw ltac:(lia))
      as (r1 & c1 & -> & Hw1). cbn. eexists _, _. split; [done|].
    apply (mid_wf_close o K); [by apply state_mid|].
    rewrite (law_hdr_size_ext (o:=o) _ c1 d) by by rewrite frame_set_eq.
    destruct Hw1 as (_ & _ & _ & Hwf). destruct (Hwf d) as [[] Hs]. split; [by split|done].
Qed.

Lemma call_end_swf r c d off cap : swf r c -> swf r (call_end c d off cap).
Proof.
  intros Hw. unfold call_end. pose proof (u32_range (off + cap)).
  pose proof Hw as (_ & _ & _ & Hwf). destruct (Hwf d) as [[] Hs].
  apply (mid_wf_close o K); [by apply state_mid|]. cbv zeta.
  rewrite (law_hdr_size_ext (o:=o) _ c d) by (rewrite frame_set_eq; by destruct (_ <=? _)).
  destruct (_ <=? _); (split; [by split; cbn; try done; lia|done]).
Qed.

Lemma reasm_data_ok r c d ev cap :
  swf r c -> ev_ok ev cap ->
  exists r' c', lk_reasm_data vtable r c d ev cap = Some (r', c') /\ swf r' c'.
Proof.
  intros Hw (Hoff & Htot & Hcap & Hb). unfold lk_reasm_data. rewrite (swf_conn_ops _ _ Hw), MF.
  destruct (has_flag _ (Z.lor _ _)); [by exists r, c|].
  destruct (has_flag _ LK_CONN_TLS && _); [by exists r, c|].
  destruct (call_begin_ok r c d (ed_off ev) (ed_total_len ev) Hw Htot) as (r1 & c1 & -> & Hw1).
  cbn -[do_resync lk_frame_bytes].
  destruct (call_check_ok r1 c1 d (ed_off ev) (ed_total_len ev) cap Hw1 Htot Hoff)
    as (r2 & c2 & -> & Hw2). cbn -[do_resync lk_frame_bytes].
  assert (exists r3 c3, match f_st (frame c2 d) with
      | LK_FR_DIRTY => if resync_boundary o c2 d ev cap then do_resync r2 c2 d else (r2, c2)
      | _ => (r2, c2) end = (r3, c3) /\ swf r3 c3) as (r3 & c3 & -> & Hw3).
  { pose proof (do_resync_wf o K r2 c2 d (state_mid _ _ _ _ _ Hw2)) as Hd.
    destruct (do_resync r2 c2 d) as [r3 c3]. destruct Hd as (Hd & _).
    destruct (f_st _); [by eexists _, _..|]. destruct (resync_boundary _ _ _ _ _); by eexists _, _. }
  destruct (cap =? 0); cbn -[lk_frame_bytes].
  - eexists _, _. split; [done|]. by apply call_end_swf.
  - destruct (frame_bytes_ok r3 c3 d (ztake cap (ed_payload ev)) (h_ts_ns (ed_hdr ev)) Hw3)
      as (r4 & c4 & -> & Hw4); [auto with lk|]. cbn. eexists _, _. split; [done|].
    by apply call_end_swf.
Qed.
End Lawful.
End FramerData.
