(* ===== verification/Decode.v ===== *)
(** Ringbuf record decoder, [agent/decode.c], over the record layout of
    [bpf/latkit.h] (x86-64: little endian, natural alignment). *)
From stdpp Require Import base list.
From S2P Require Import Prelude Conn FramerData.
#[local] Open Scope Z_scope.

(** ** Little-endian fields *)
Fixpoint le_val (l : list Z) : Z := match l with [] => 0 | b :: l => b + 256 * le_val l end.
Fixpoint le_put (n : nat) (x : Z) : list Z :=
  match n with O => [] | Datatypes.S n => x mod 256 :: le_put n (x / 256) end.
(** The [n]-byte field at offset [off]. *)
Definition field (p : list Z) (off n : Z) : Z := le_val (ztake n (zdrop off p)).

Definition sizeof_hdr := 24.
Definition sizeof_conn := 80.
Definition sizeof_data := 40.

Definition get_hdr (p : list Z) : lk_ev_hdr :=
  EvHdr (field p 0 8) (field p 8 8) (field p 16 4) (field p 20 1) (field p 21 1) (field p 22 2).
Definition get_tuple (p : list Z) : lk_tuple :=
  Tuple (field p 0 1) (field p 4 4) (ztake 16 (zdrop 8 p)) (ztake 16 (zdrop 24 p))
        (field p 40 2) (field p 42 2).
Definition get_conn (p : list Z) : lk_ev_conn :=
  EvConn (get_hdr p) (get_tuple (zdrop 24 p)) (field p 68 4) (field p 72 4).
Definition get_data (p : list Z) : lk_ev_data :=
  EvData (get_hdr p) (field p 24 4) (field p 28 4) (field p 32 4) (zdrop 40 p).

(** ** [lk_ev_decode] *)
Inductive lk_decode_status := LK_DEC_CONN | LK_DEC_DATA | LK_DEC_SHORT | LK_DEC_UNKNOWN.
#[global] Instance lk_decode_status_eq_dec : EqDecision lk_decode_status.
Proof. solve_decision. Defined.

(** [struct lk_ev_view]: NULL pointers are [None]. *)
Record lk_ev_view := EvView {
  v_hdr : option lk_ev_hdr; v_conn : option lk_ev_conn; v_data : option lk_ev_data;
  v_cap_len : Z }.

Definition lk_ev_decode (buf : list Z) : lk_decode_status * lk_ev_view :=
  let size := zlen buf in
  if size <? sizeof_hdr then (LK_DEC_SHORT, EvView None None None 0)
  else
    let hdr := get_hdr buf in
    let none := EvView (Some hdr) None None 0 in
    if (h_type hdr =? LK_EV_CONN_OPEN) || (h_type hdr =? LK_EV_CONN_CLOSE) then
      if size <? sizeof_conn then (LK_DEC_SHORT, none)
      else (LK_DEC_CONN, EvView (Some hdr) (Some (get_conn buf)) None 0)
    else if h_type hdr =? LK_EV_DATA then
      if size <? sizeof_data then (LK_DEC_SHORT, none)
      else if 1 <? h_dir hdr then (LK_DEC_UNKNOWN, none)
      else
        let d := get_data buf in
        let cap := if size - sizeof_data <? ed_cap_len d then size - sizeof_data else ed_cap_len d in
        (LK_DEC_DATA, EvView (Some hdr) None (Some d) cap)
    else (LK_DEC_UNKNOWN, none).

(** The direction a decoded data event indexes [lk_conn.frame] with. *)
Definition dir_of (h : lk_ev_hdr) : lk_dir := if h_dir h =? 0 then LK_DIR_SEND else LK_DIR_RECV.

(** ** Facts *)
Lemma le_val_range l : bytes_ok l -> 0 <= le_val l < 256 ^ zlen l.
Proof.
  induction 1 as [|b l Hb _ IH]; [done|]. rewrite zlen_cons, Z.pow_add_r by (pose proof (zlen_nonneg l); lia).
  cbn [le_val]. lia.
Qed.
Lemma le_val_put n x : 0 <= x < 256 ^ Z.of_nat n -> le_val (le_put n x) = x.
Proof.
  revert x. induction n as [|n IH]; intros x Hx; cbn -[Z.mul].
  - change (256 ^ Z.of_nat 0) with 1 in Hx. lia.
  - rewrite Nat2Z.inj_succ, Z.pow_succ_r in Hx by lia. rewrite IH.
    + pose proof (Z.div_mod x 256). lia.
    + split; [apply Z.div_pos; lia|]. apply Z.div_lt_upper_bound; lia.
Qed.
Lemma le_put_ok n x : bytes_ok (le_put n x).
Proof.
  revert x. induction n as [|n IH]; intros x; [apply bytes_ok_nil|].
  apply Forall_cons_2; [apply Z.mod_pos_bound; lia|apply IH].
Qed.
Lemma zlen_le_put n x : zlen (le_put n x) = Z.of_nat n.
Proof. revert x. induction n as [|n IH]; intros x; cbn -[zlen]; [done|]. rewrite zlen_cons, IH. lia. Qed.

Lemma field_range p off n : bytes_ok p -> 0 <= n -> 0 <= field p off n < 256 ^ n.
Proof.
  intros Hp Hn. unfold field. pose proof (le_val_range (ztake n (zdrop off p)) ltac:(auto with lk)) as H.
  pose proof (zlen_ztake n (zdrop off p) Hn). pose proof (zlen_nonneg (ztake n (zdrop off p))).
  assert (256 ^ zlen (ztake n (zdrop off p)) <= 256 ^ n) by (apply Z.pow_le_mono_r; lia). lia.
Qed.

(** Reading fields off a concatenation of fields. *)
Lemma field_skip p q off n : off >= zlen p -> field (p ++ q) off n = field q (off - zlen p) n.
Proof. intros H. unfold field. by rewrite zdrop_app_ge by lia. Qed.
Lemma field_hit k x q : 0 <= x < 256 ^ Z.of_nat k -> field (le_put k x ++ q) 0 (Z.of_nat k) = x.
Proof.
  intros Hx. unfold field. rewrite zdrop_0 by lia. rewrite ztake_app_le by (rewrite zlen_le_put; lia).
  rewrite ztake_all by (rewrite zlen_le_put; lia). by apply le_val_put.
Qed.

(** A decoded data event is one the framer accepts: its fields are u32 and the
    payload bytes it may read are inside the record. *)
Lemma decode_data_ok buf v :
  bytes_ok buf -> lk_ev_decode buf = (LK_DEC_DATA, v) ->
  exists h d, v_hdr v = Some h /\ v_data v = Some d /\ ed_hdr d = h /\ h_type h = LK_EV_DATA /\
    0 <= h_dir h <= 1 /\ 0 <= h_seq h < 2 ^ 32 /\ ev_ok d (v_cap_len v).
Proof.
  intros Hb H. unfold lk_ev_decode in H. cbv zeta in H.
  destruct (Z.ltb_spec (zlen buf) sizeof_hdr); [done|]. destruct (_ || _); [by destruct (_ <? _)|].
  destruct (Z.eqb_spec (h_type (get_hdr buf)) LK_EV_DATA); [|done].
  destruct (Z.ltb_spec (zlen buf) sizeof_data); [done|].
  destruct (Z.ltb_spec 1 (h_dir (get_hdr buf))) as [|Hd]; [done|]. injection H as <-. cbn [v_hdr v_data v_cap_len].
  exists (get_hdr buf), (get_data buf). unfold sizeof_data in *.
  pose proof (field_range buf 24 4 Hb). pose proof (field_range buf 28 4 Hb).
  pose proof (field_range buf 32 4 Hb). pose proof (field_range buf 16 4 Hb).
  pose proof (field_range buf 21 1 Hb). change (256 ^ 4) with (2 ^ 32) in *.
  split_and!; try done; try (cbn [get_hdr h_dir h_seq] in *; lia).
  unfold ev_ok, get_data. cbn [ed_off ed_total_len ed_payload ed_cap_len]. rewrite zlen_zdrop by lia.
  split_and!; try lia; [destruct (_ <? _) eqn:?; lia..|auto with lk].
Qed.

(** ** The producer's layout: what [bpf/latkit.bpf.c] writes *)
Definition put_hdr (h : lk_ev_hdr) : list Z :=
  le_put 8 (h_conn_id h) ++ le_put 8 (h_ts_ns h) ++ le_put 4 (h_seq h) ++ le_put 1 (h_type h) ++
  le_put 1 (h_dir h) ++ le_put 2 (h_flags h).
Definition put_data (d : lk_ev_data) : list Z :=
  put_hdr (ed_hdr d) ++ le_put 4 (ed_total_len d) ++ le_put 4 (ed_off d) ++ le_put 4 (ed_cap_len d) ++
  le_put 4 0 ++ ed_payload d.
Definition hdr_ok (h : lk_ev_hdr) : Prop :=
  0 <= h_conn_id h < 2 ^ 64 /\ 0 <= h_ts_ns h < 2 ^ 64 /\ 0 <= h_seq h < 2 ^ 32 /\
  0 <= h_type h < 2 ^ 8 /\ 0 <= h_dir h < 2 ^ 8 /\ 0 <= h_flags h < 2 ^ 16.

Lemma zlen_put_hdr h : zlen (put_hdr h) = 24.
Proof. unfold put_hdr. rewrite !zlen_app, !zlen_le_put. lia. Qed.

Ltac field_go :=
  repeat first
    [ rewrite field_skip by (rewrite ?zlen_app, ?zlen_put_hdr, ?zlen_le_put; lia);
      rewrite ?zlen_put_hdr, ?zlen_le_put;
      match goal with |- context [field _ ?o _] => let v := eval vm_compute in o in change o with v end ].

Ltac field_done := match goal with |- field (le_put ?k _ ++ _) 0 _ = _ => by apply (field_hit k) end.

Lemma get_put_hdr h q : hdr_ok h -> get_hdr (put_hdr h ++ q) = h.
Proof.
  intros (?&?&?&?&?&?). unfold get_hdr, put_hdr. rewrite <- !app_assoc.
  destruct h as [id ts seq ty dir fl]; cbn [h_conn_id h_ts_ns h_seq h_type h_dir h_flags] in *.
  f_equal; field_go; field_done.
Qed.

(** Round trip of a captured data record: decoding what the kernel side
    lays out gives back the header, lengths, offset and payload, with the
    readable length clamped to the bytes the record really holds. *)
Theorem decode_data_roundtrip d :
  hdr_ok (ed_hdr d) -> h_type (ed_hdr d) = LK_EV_DATA -> h_dir (ed_hdr d) <= 1 ->
  0 <= ed_total_len d < 2 ^ 32 -> 0 <= ed_off d < 2 ^ 32 -> 0 <= ed_cap_len d < 2 ^ 32 ->
  lk_ev_decode (put_data d) =
    (LK_DEC_DATA, EvView (Some (ed_hdr d)) None (Some d) (Z.min (ed_cap_len d) (zlen (ed_payload d)))).
Proof.
  intros Hh Hty Hdir Ht Ho Hc. unfold lk_ev_decode.
  assert (get_hdr (put_data d) = ed_hdr d) as E by by apply get_put_hdr.
  assert (zlen (put_data d) = 40 + zlen (ed_payload d)) as Hl.
  { unfold put_data. rewrite !zlen_app, zlen_put_hdr, !zlen_le_put. lia. }
  assert (get_data (put_data d) = d) as Ed.
  { unfold get_data. rewrite E. unfold put_data. destruct d as [h tl off cl pl]; cbn [ed_hdr ed_total_len ed_off ed_cap_len ed_payload] in *.
    f_equal; field_go; field_done. }
  rewrite Hl, E, Ed, Hty. unfold sizeof_hdr, sizeof_data, LK_EV_DATA, LK_EV_CONN_OPEN, LK_EV_CONN_CLOSE.
  pose proof (zlen_nonneg (ed_payload d)). cbn [Z.eqb orb].
  destruct (Z.ltb_spec (40 + zlen (ed_payload d)) 24); [lia|].
  destruct (Z.ltb_spec (40 + zlen (ed_payload d)) 40); [lia|].
  destruct (Z.ltb_spec 1 (h_dir (ed_hdr d))); [lia|]. do 2 f_equal.
  destruct (Z.ltb_spec (40 + zlen (ed_payload d) - 40) (ed_cap_len d)); lia.
Qed.

Lemma decode_data_roundtrip_witness :
  lk_ev_decode (put_data (EvData (EvHdr 7 1000 3 LK_EV_DATA 1 0) 9 0 4 [1; 2; 3])) =
  (LK_DEC_DATA, EvView (Some (EvHdr 7 1000 3 LK_EV_DATA 1 0)) None
     (Some (EvData (EvHdr 7 1000 3 LK_EV_DATA 1 0) 9 0 4 [1; 2; 3])) 3).
Proof.
  apply (decode_data_roundtrip (EvData (EvHdr 7 1000 3 LK_EV_DATA 1 0) 9 0 4 [1; 2; 3]));
    [unfold hdr_ok; concrete|reflexivity|concrete..].
Defined.
