(* ===== verification/PgFrame.v ===== *)
(** PostgreSQL v3 framing behind the vtable, [proto/pg/pg_frame.c]. *)
From stdpp Require Import base list.
From S2P Require Import Prelude Conn Reassembly Framer FramerFacts.
#[local] Open Scope Z_scope.

(** Startup codes ([agent/reassembly.h]). *)
Definition LK_PG_PROTO_V3 := 0x00030000.
Definition LK_PG_CANCEL_REQUEST := 80877102.
Definition LK_PG_SSL_REQUEST := 80877103.
Definition LK_PG_GSSENC_REQUEST := 80877104.
Definition LK_PG_MSG_LEN_MAX := 2 ^ 30.

(** Only the frontend stream starts in startup framing. *)
Definition in_startup (f : lk_frame) (d : lk_dir) : bool :=
  match d with LK_DIR_RECV => negb (f_startup_done f) | LK_DIR_SEND => false end.

(** [resync_pat]: 'Z' 00 00 00 05. *)
Definition resync_pat (i : Z) : Z :=
  if i =? 0 then 90 else if i <? 4 then 0 else 5.
Definition ch_Z := 90.
Definition is_status (b : Z) : bool := (b =? 73) || (b =? 84) || (b =? 69). (* I T E *)

(** One byte of the anchor scan: the new match length, or [None] on a hit. *)
Definition resync_byte (matched b : Z) : option Z :=
  if matched <? 5 then
    Some (if b =? resync_pat matched then matched + 1 else if b =? ch_Z then 1 else 0)
  else if is_status b then None
  else Some (if b =? ch_Z then 1 else 0).

Fixpoint pg_scan (matched : Z) (p : list Z) : Z * bool * Z :=
  match p with
  | [] => (0, false, matched)
  | b :: p =>
      match resync_byte matched b with
      | None => (1, true, matched)
      | Some m => let '(used, found, m) := pg_scan m p in (used + 1, found, m)
      end
  end.

(** "QPBESXCDFHdcfp" *)
Definition fe_types : list Z := [81; 80; 66; 69; 83; 88; 67; 68; 70; 72; 100; 99; 102; 112].
Definition fe_type_ok (b : Z) : bool := negb (b =? 0) && existsb (Z.eqb b) fe_types.

Section PgFrame.
Context {S P F : Type}.
Implicit Types (r : lk_reasm S P F) (c : lk_conn P F) (d : lk_dir).

Definition pg_hdr_size c d : Z := if in_startup (frame c d) d then 4 else 5.

Definition pg_parse_hdr c d : bool * lk_conn P F :=
  let f := frame c d in
  let startup := in_startup f d in
  let len := be32 (zdrop (if startup then 0 else 1) (f_hdr f)) in
  if (len <? (if startup then 8 else 4)) || (LK_PG_MSG_LEN_MAX <? len) then (false, c)
  else (true, set_frame c d (f <| f_msg_type := if startup then 0 else znth (f_hdr f) 0 |>
                               <| f_msg_len := len |> <| f_body_len := len - 4 |>
                               <| f_body_total := len - 4 |>)).

Definition pg_pre_emit c d (m : lk_msg) : lk_conn P F * lk_msg :=
  if negb (in_startup (frame c d) d) then (c, m)
  else
    let m := m <| m_flags := set_flag (m_flags m) LK_MSG_STARTUP |> in
    if m_body_cap m <? 4 then (c, m)
    else
      let code := be32 (m_body m) in
      if code =? LK_PG_PROTO_V3 then (upd_frame c d (fun f => f <| f_startup_done := true |>), m)
      else if (code =? LK_PG_SSL_REQUEST) || (code =? LK_PG_GSSENC_REQUEST) then
        (c <| c_flags ::= fun w => set_flag w LK_CONN_SSL_REPLY |>, m)
      else if code =? LK_PG_CANCEL_REQUEST then
        (c <| c_flags ::= fun w => set_flag w LK_CONN_CANCEL |>, m)
      else (c, m).

Definition pg_intercept_bytes r c d (p : list Z) (ts : Z) :
    bool * lk_reasm S P F * lk_conn P F * list Z :=
  match d, p with
  | LK_DIR_SEND, b :: p' =>
      if negb (has_flag (c_flags c) LK_CONN_SSL_REPLY) then (true, r, c, p)
      else
        let m := Msg ts b 0 0 [] in
        let c := c <| c_flags ::= fun w => clr_flag w LK_CONN_SSL_REPLY |> in
        let r := bump r (fun s => s <| rs_msgs ::= inc64 |>) in
        let '(r, c) := deliver r c LK_DIR_SEND m in
        if (b =? 83) || (b =? 71) then (* 'S' / 'G' *)
          (false, bump r (fun s => s <| rs_tls_conns ::= inc64 |>),
           c <| c_flags ::= fun w => set_flag w LK_CONN_TLS |>, p')
        else (true, r, c, p')
  | _, _ => (true, r, c, p)
  end.

Definition pg_intercept_hole r c d : bool * lk_reasm S P F * lk_conn P F :=
  match d with
  | LK_DIR_SEND =>
      if negb (has_flag (c_flags c) LK_CONN_SSL_REPLY) then (false, r, c)
      else (true, r, c <| c_flags ::= fun w => clr_flag w LK_CONN_SSL_REPLY |>)
  | LK_DIR_RECV => (false, r, c)
  end.

Definition pg_resync_scan c d (p : list Z) : Z * bool * lk_conn P F :=
  match d with
  | LK_DIR_RECV => (zlen p, false, c)
  | LK_DIR_SEND =>
      let '(used, found, m) := pg_scan (f_resync_matched (frame c d)) p in
      (used, found, upd_frame c d (fun f => f <| f_resync_matched := m |>))
  end.

Definition pg_resync_boundary c d (ev : lk_ev_data) (cap_len : Z) : bool :=
  match d with
  | LK_DIR_SEND => false
  | LK_DIR_RECV =>
      if negb (ed_off ev =? 0) || (cap_len <? 5) || negb (fe_type_ok (znth (ed_payload ev) 0))
      then false
      else let len := be32 (zdrop 1 (ed_payload ev)) in
           (4 <=? len) && (len <=? LK_PG_MSG_LEN_MAX)
  end.

(** The stream hooks are NULL in this entry and never called ([po_flags] = 0). *)
Definition lk_proto_pg_ops : lk_proto_ops S P F :=
  ProtoOps 0 pg_hdr_size pg_parse_hdr pg_pre_emit (Some pg_intercept_bytes)
           (Some pg_intercept_hole) pg_resync_scan pg_resync_boundary
           (fun r c _ _ _ => (r, c)) (fun r c _ _ => (r, c)).
End PgFrame.

(** ** The anchor scan *)
Lemma resync_byte_range m b m' :
  0 <= m <= 5 -> resync_byte m b = Some m' -> 0 <= m' <= 5.
Proof. unfold resync_byte. repeat case_match; intros; simplify_eq; bool_hyps; lia. Qed.

Lemma pg_scan_spec m p used found m' :
  0 <= m <= 5 -> pg_scan m p = (used, found, m') ->
  0 <= used <= zlen p /\ (found = true -> 0 < used) /\ (found = false -> used = zlen p) /\
  0 <= m' <= 5.
Proof.
  revert m used. induction p as [|b p IH]; intros m used Hm H; cbn in H; [by simplify_eq|].
  rewrite zlen_cons. pose proof (zlen_nonneg p).
  destruct (resync_byte m b) as [m1|] eqn:E; [|simplify_eq; split_and!; done || lia].
  apply resync_byte_range in E; [|done]. destruct (pg_scan m1 p) as [[u f] m2] eqn:E2. simplify_eq.
  apply IH in E2 as (? & ? & Hf & ?); [|done]. split_and!; try lia. intros Hff. specialize (Hf Hff). lia.
Qed.

Lemma pg_scan_app m p q :
  pg_scan m (p ++ q) =
  if (pg_scan m p).1.2 then pg_scan m p
  else let '(u, f, m') := pg_scan (pg_scan m p).2 q in (zlen p + u, f, m').
Proof.
  revert m. induction p as [|b p IH]; intros m.
  - rewrite app_nil_l. cbn. by destruct (pg_scan m q) as [[??]?].
  - cbn. destruct (resync_byte m b) as [m1|]; [|done]. rewrite IH.
    destruct (pg_scan m1 p) as [[u f] m2]; cbn. destruct f; [done|]. rewrite zlen_cons.
    destruct (pg_scan m2 q) as [[??]?]. do 2 f_equal. lia.
Qed.

(** ** PostgreSQL satisfies the framer's contract *)
Section Laws.
Context {S P F : Type}.

Lemma in_startup_ext f g d :
  f_startup_done f = f_startup_done g -> in_startup f d = in_startup g d.
Proof. unfold in_startup. by intros ->. Qed.

(** Clearing the reply flag and setting the TLS one keep the identity. *)
Lemma clr_reply_id (c : lk_conn P F) :
  same_id c (c <| c_flags ::= fun w => clr_flag w LK_CONN_SSL_REPLY |>).
Proof. split_and!; try done. cbn. by rewrite has_flag_clr_ne. Qed.
Lemma set_tls_id (c : lk_conn P F) :
  same_id c (c <| c_flags ::= fun w => set_flag w LK_CONN_TLS |>).
Proof. split_and!; try done. cbn. intros _. by apply has_flag_set_eq. Qed.

#[global] Instance pg_laws : FramerLaws (lk_proto_pg_ops (S:=S) (P:=P) (F:=F)).
Proof.
  split; cbn -[be32 with_buf Z.pow].
  - intros. unfold pg_hdr_size. destruct (in_startup _ _); lia.
  - intros c c' d H. unfold pg_hdr_size. by rewrite (in_startup_ext _ (frame c' d)).
  - intros c c' d H. unfold pg_hdr_size, in_startup. destruct d; [lia|].
    destruct (f_startup_done (frame c _)), (f_startup_done (frame c' _)); cbn; try lia.
  - intros c d ok c' H Hb. unfold pg_parse_hdr in H.
    set (su := in_startup (frame c d) d) in *.
    set (len := be32 (zdrop (if su then 0 else 1) (f_hdr (frame c d)))) in *.
    destruct (_ || _) eqn:E; simplify_eq.
    + exists (f_msg_type (frame c' d)), (f_msg_len (frame c' d)), 0, (f_body_total (frame c' d)),
        (f_msg_seq (frame c' d)), (f_msg_seq0 (frame c' d)), (f_msg_cont (frame c' d)).
      split; [lia|]. rewrite <- (set_frame_id c' d) at 1. f_equal. by destruct (frame c' d).
    + bool_hyps. unfold LK_PG_MSG_LEN_MAX in *.
      eexists _, _, (len - 4), (len - 4), (f_msg_seq (frame c d)), (f_msg_seq0 (frame c d)),
        (f_msg_cont (frame c d)). split; [destruct su; lia|]. done.
  - intros c d m c' m' H. unfold pg_pre_emit in H.
    assert (forall c0 : lk_conn P F, c0 = startup_touch c0 (c_flags c0) false false) as Ht
      by (intros [??????????[][]??]; done).
    assert (m = m <| m_type := m_type m |> <| m_flags := m_flags m |>) as Hmm by by destruct m.
    assert (forall x, has_flag (c_flags c) LK_CONN_TLS = true ->
      has_flag (set_flag (c_flags c) x) LK_CONN_TLS = true) as Hfl
      by (intros x; rewrite has_flag_set; by intros ->).
    destruct (negb _) eqn:E1; [simplify_eq; by eexists _, _, _, _, _|].
    destruct (_ <? 4); [simplify_eq; eexists _, _, _, (m_type m), _; by split_and!; [|apply Ht|]|].
    repeat case_match; simplify_eq.
    + destruct d; [done|]. exists (c_flags c), false, true, (m_type m). eexists. split_and!; [done| |done].
      by destruct c as [??????????[][]??].
    + exists (set_flag (c_flags c) LK_CONN_SSL_REPLY), false, false, (m_type m). eexists. split_and!; [apply Hfl| |done].
      by destruct c as [??????????[][]??].
    + exists (set_flag (c_flags c) LK_CONN_CANCEL), false, false, (m_type m). eexists. split_and!; [apply Hfl| |done].
      by destruct c as [??????????[][]??].
    + eexists _, _, _, (m_type m), _; by split_and!; [|apply Ht|].
  - intros c d b m. unfold pg_pre_emit. rewrite frame_with_buf. cbn -[be32].
    rewrite (in_startup_ext _ (frame c d)) by done. destruct (negb _); [done|].
    destruct (_ <? 4); [done|]. repeat case_match; destruct d; done.
  - intros c d p used found c' H Hm. unfold pg_resync_scan in H. destruct d; simplify_eq.
    + destruct (pg_scan _ p) as [[u f] m] eqn:E. simplify_eq.
      apply pg_scan_spec in E as (? & ? & ? & ?); [|done]. split_and!; try done; try lia. by exists m.
    + pose proof (zlen_nonneg p). split_and!; try done; try lia. exists (f_resync_matched (c_recv c')).
      split; [done|]. by destruct c' as [??????????[][]??].
  - intros c d p q used c' H. unfold pg_resync_scan in *. destruct d; simplify_eq.
    rewrite pg_scan_app. destruct (pg_scan _ p) as [[u f] m] eqn:E. by simplify_eq/=.
  - intros c d p q used c' H. unfold pg_resync_scan in *. destruct d; simplify_eq.
    + rewrite pg_scan_app. destruct (pg_scan _ p) as [[u f] m] eqn:E. simplify_eq/=.
      destruct (pg_scan m q) as [[??]?]. done.
    + by rewrite zlen_app.
  - intros ib r c d p ts go r' c' p' Hib SL H. simplify_eq. unfold pg_intercept_bytes in H.
    destruct d; [|simplify_eq; split_and!; try done; by exists 0].
    destruct p as [|b p]; [simplify_eq; split_and!; try done; by exists 0|].
    destruct (negb _); [simplify_eq; split_and!; try done; by exists 0|].
    match type of H with context [deliver ?r1 ?c1 ?d1 ?m1] =>
      pose proof (deliver_spec r1 c1 d1 m1 SL) as (He & Ho & Hf); destruct (deliver r1 c1 d1 m1) as [r1' c1'] end.
    cbn [fst snd] in He, Ho, Hf. assert (same_id c c1') as Hid by (etrans; [apply clr_reply_id|exact Ho]).
    assert (exists n, p = zdrop n (b :: p)) by by exists 1. clear Ho.
    destruct (_ || _); simplify_eq; (split; [exact He|split; [|split]]); try done.
    + etrans; [exact Hid|apply set_tls_id].
  - intros ih r c d hit r' c' Hih H. simplify_eq. unfold pg_intercept_hole in H.
    destruct d; [|by simplify_eq]. destruct (negb _); simplify_eq; [done|].
    split; [done|]. split; [apply clr_reply_id|done].
Qed.
End Laws.
