(* ===== verification/MyFrame.v ===== *)
(** MySQL classic-protocol framing behind the vtable, [proto/my/my_frame.c]. *)
From stdpp Require Import base list.
From S2P Require Import Prelude Conn Reassembly Framer FramerFacts.
#[local] Open Scope Z_scope.

Definition MY_CLIENT_COMPRESS := 0x00000020.
Definition MY_CLIENT_SSL := 0x00000800.
Definition MY_CLIENT_ZSTD := 0x04000000.
Definition MY_PKT_MAX := 0xFFFFFF.

(** Command bytes acceptable as a frontend resync anchor. *)
Definition my_cmds : list Z :=
  [0x01; 0x02; 0x03; 0x04; 0x09; 0x0a; 0x0d; 0x0e; 0x11; 0x12; 0x15; 0x16; 0x17; 0x18; 0x19;
   0x1a; 0x1b; 0x1c; 0x1e; 0x1f; 0xfa].
Definition my_cmd_ok (b : Z) : bool := existsb (Z.eqb b) my_cmds.

Section MyFrame.
Context {S P F : Type}.
Implicit Types (r : lk_reasm S P F) (c : lk_conn P F) (d : lk_dir).

Definition my_hdr_size c d : Z := 4.

Definition my_parse_hdr c d : bool * lk_conn P F :=
  let f := frame c d in
  let len := le24 (f_hdr f) in
  let seq := znth (f_hdr f) 3 in
  if f_msg_cont f then
    if negb (seq =? f_msg_seq f) then (false, c)
    else
      let sum := u32 (f_body_total f + len) in
      let total := if sum <? f_body_total f then 2 ^ 32 - 1 else sum in
      (true, set_frame c d (f <| f_msg_seq := u8 (seq + 1) |> <| f_msg_cont := len =? MY_PKT_MAX |>
                              <| f_body_len := len |> <| f_body_total := total |>
                              <| f_msg_len := total |>))
  else
    (true, set_frame c d (f <| f_msg_type := 0 |> <| f_msg_seq0 := seq =? 0 |>
                            <| f_msg_seq := u8 (seq + 1) |> <| f_msg_cont := len =? MY_PKT_MAX |>
                            <| f_body_len := len |> <| f_body_total := len |>
                            <| f_msg_len := len |>)).

(** [if (c->flags & PENDING) c->flags |= IGNORE;] *)
Definition compress_flip c : lk_conn P F :=
  if has_flag (c_flags c) LK_CONN_COMPRESS_PENDING
  then c <| c_flags ::= fun w => set_flag w LK_CONN_IGNORE |> else c.

(** The first frontend packet: client capability flags at offset 0. *)
Definition my_handshake c (m : lk_msg) : lk_conn P F :=
  let done c := upd_frame c LK_DIR_RECV (fun f => f <| f_startup_done := true |>) in
  if m_body_cap m <? 4 then done c
  else
    let caps := le32 (m_body m) in
    if has_flag caps MY_CLIENT_SSL && negb (has_flag (c_flags c) LK_CONN_TLS)
    then c <| c_flags ::= fun w => set_flag w LK_CONN_TLS |>
    else if has_flag caps (Z.lor MY_CLIENT_COMPRESS MY_CLIENT_ZSTD)
    then done (c <| c_flags ::= fun w => set_flag w LK_CONN_COMPRESS_PENDING |>)
    else done c.

Definition my_pre_emit c d (m : lk_msg) : lk_conn P F * lk_msg :=
  let c :=
    match d with
    | LK_DIR_RECV =>
        if f_startup_done (frame c d) && f_msg_seq0 (frame c d)
        then compress_flip (upd_frame c LK_DIR_SEND (fun f => f <| f_startup_done := true |>))
        else c
    | LK_DIR_SEND => c
    end in
  let m := if negb (f_startup_done (frame c LK_DIR_SEND))
           then m <| m_flags := set_flag (m_flags m) LK_MSG_STARTUP |> else m in
  match d with
  | LK_DIR_RECV =>
      if negb (f_startup_done (frame c d)) then (my_handshake c m, m)
      else if f_msg_seq0 (frame c d) && negb (m_body_cap m =? 0)
      then (c, m <| m_type := znth (m_body m) 0 |>)
      else (c, m)
  | LK_DIR_SEND =>
      if negb (f_startup_done (frame c d)) && negb (m_body_cap m =? 0) &&
         (znth (m_body m) 0 =? 0)
      then (compress_flip (upd_frame c d (fun f => f <| f_startup_done := true |>)), m)
      else (c, m)
  end.

Definition my_resync_scan c d (p : list Z) : Z * bool * lk_conn P F := (zlen p, false, c).

Definition my_resync_boundary c d (ev : lk_ev_data) (cap_len : Z) : bool :=
  if negb (ed_off ev =? 0) || (cap_len <? 4) then false
  else
    let len := le24 (ed_payload ev) in
    match d with
    | LK_DIR_RECV =>
        (znth (ed_payload ev) 3 =? 0) && (1 <=? len) && (5 <=? cap_len) &&
        my_cmd_ok (znth (ed_payload ev) 4)
    | LK_DIR_SEND => (znth (ed_payload ev) 3 =? 1) && (1 <=? len) && (len <? MY_PKT_MAX)
    end.

(** No intercept hooks; the stream hooks are NULL and never called ([po_flags] = 0). *)
Definition lk_proto_my_ops : lk_proto_ops S P F :=
  ProtoOps 0 my_hdr_size my_parse_hdr my_pre_emit None None my_resync_scan my_resync_boundary
           (fun r c _ _ _ => (r, c)) (fun r c _ _ => (r, c)).
End MyFrame.

(** ** MySQL satisfies the framer's contract *)
Section Laws.
Context {S P F : Type}.
Implicit Types c : lk_conn P F.

(** [startup_touch] as a relation closed under composition: what [my_pre_emit] may do. *)
Definition touches c c' : Prop := exists fl a b,
  (has_flag (c_flags c) LK_CONN_TLS = true -> has_flag fl LK_CONN_TLS = true) /\
  c' = startup_touch c fl a b.
Lemma touches_refl c : touches c c.
Proof. exists (c_flags c), false, false. split; [done|]. by destruct c as [??????????[][]??]. Qed.
Lemma touches_trans c1 c2 c3 : touches c1 c2 -> touches c2 c3 -> touches c1 c3.
Proof.
  intros (fl & a & b & H1 & ->) (fl' & a' & b' & H2 & ->). exists fl', (a' || a), (b' || b).
  split; [auto|].
  destruct c1 as [??????????[][]??]; unfold startup_touch; cbn. by rewrite <- !orb_assoc.
Qed.
Lemma touches_flags c x : touches c (c <| c_flags ::= fun w => set_flag w x |>).
Proof.
  exists (set_flag (c_flags c) x), false, false. split; [rewrite has_flag_set; by intros ->|].
  by destruct c as [??????????[][]??].
Qed.
Lemma touches_startup c d : touches c (upd_frame c d (fun f => f <| f_startup_done := true |>)).
Proof.
  exists (c_flags c), (match d with LK_DIR_SEND => true | _ => false end),
    (match d with LK_DIR_RECV => true | _ => false end).
  split; [done|]. by destruct c as [??????????[][]??], d.
Qed.
Lemma touches_compress c : touches c (compress_flip c).
Proof. unfold compress_flip. destruct (has_flag _ _); [apply touches_flags|apply touches_refl]. Qed.
Lemma touches_handshake c m : touches c (my_handshake c m).
Proof.
  unfold my_handshake. repeat case_match; try apply touches_startup; [apply touches_flags|].
  eapply touches_trans; [apply touches_flags|apply touches_startup].
Qed.
#[local] Hint Resolve touches_refl touches_startup touches_compress touches_handshake : lk.

Lemma my_pre_emit_touches c d m :
  touches c (my_pre_emit c d m).1 /\
  exists ty mf, (my_pre_emit c d m).2 = m <| m_type := ty |> <| m_flags := mf |>.
Proof.
  assert (forall fl, m <| m_flags := fl |> = m <| m_type := m_type m |> <| m_flags := fl |>) as Hm
    by by destruct m.
  assert (m = m <| m_type := m_type m |> <| m_flags := m_flags m |>) as Hm0 by by destruct m.
  unfold my_pre_emit. set (c1 := match d with LK_DIR_SEND => c | _ => _ end).
  assert (touches c c1) as H1.
  { subst c1. destruct d; [apply touches_refl|]. destruct (_ && _); [|apply touches_refl].
    eapply touches_trans; [apply touches_startup|apply touches_compress]. }
  clearbody c1. set (m1 := if negb _ then _ else m).
  assert (exists ty mf, m1 = m <| m_type := ty |> <| m_flags := mf |>) as (ty & mf & E)
    by (subst m1; destruct (negb _); eauto).
  clearbody m1. subst m1.
  assert (touches c (compress_flip (upd_frame c1 d (fun f => f <| f_startup_done := true |>)))) as H2.
  { eapply touches_trans; [done|]. eapply touches_trans; [apply touches_startup|apply touches_compress]. }
  destruct d; repeat case_match; cbn; (split; [|by eexists _, _]);
    eauto using touches_trans with lk.
Qed.

Lemma compress_flip_buf c d b : compress_flip (with_buf c d b) = with_buf (compress_flip c) d b.
Proof. unfold compress_flip. destruct d; cbn; by destruct (has_flag _ _). Qed.
Lemma startup_buf c d d' b :
  upd_frame (with_buf c d b) d' (fun f => f <| f_startup_done := true |>) =
  with_buf (upd_frame c d' (fun f => f <| f_startup_done := true |>)) d b.
Proof. by destruct d, d'. Qed.
Lemma handshake_buf c d b m : my_handshake (with_buf c d b) m = with_buf (my_handshake c m) d b.
Proof.
  unfold my_handshake. rewrite !startup_buf.
  destruct (m_body_cap m <? 4); [done|]. replace (c_flags (with_buf c d b)) with (c_flags c) by by destruct d.
  destruct (_ && _); [by destruct d|]. destruct (has_flag _ _); [|done]. by destruct d.
Qed.
Lemma startup_with_buf c d d' b :
  f_startup_done (frame (with_buf c d b) d') = f_startup_done (frame c d').
Proof. by destruct d, d'. Qed.
Lemma seq0_with_buf c d d' b : f_msg_seq0 (frame (with_buf c d b) d') = f_msg_seq0 (frame c d').
Proof. by destruct d, d'. Qed.

Lemma my_parse_law c d ok c' :
  my_parse_hdr c d = (ok, c') -> bytes_ok (f_hdr (frame c d)) ->
  exists ty ln bl bt sq s0 mc, 0 <= bl < 2 ^ 32 /\
    c' = set_frame c d (frame c d <| f_msg_type := ty |> <| f_msg_len := ln |>
           <| f_body_len := if ok then bl else f_body_len (frame c d) |>
           <| f_body_total := bt |> <| f_msg_seq := sq |> <| f_msg_seq0 := s0 |>
           <| f_msg_cont := mc |>).
Proof.
  intros H Hb. unfold my_parse_hdr in H.
  pose proof (le24_range _ Hb) as Hl. cbv zeta in H.
  generalize dependent (le24 (f_hdr (frame c d))). intros len H Hl.
  destruct (f_msg_cont (frame c d)) eqn:Emc.
  - destruct (negb _); simplify_eq.
    + exists (f_msg_type (frame c' d)), (f_msg_len (frame c' d)), 0, (f_body_total (frame c' d)),
        (f_msg_seq (frame c' d)), (f_msg_seq0 (frame c' d)), (f_msg_cont (frame c' d)).
      split; [lia|]. rewrite <- (set_frame_id c' d) at 1. f_equal. by destruct (frame c' d).
    + match goal with |- context [if ?b then 2 ^ 32 - 1 else ?s] =>
        set (total := if b then 2 ^ 32 - 1 else s) end.
      exists (f_msg_type (frame c d)), total, len, total, (u8 (znth (f_hdr (frame c d)) 3 + 1)),
        (f_msg_seq0 (frame c d)), (len =? MY_PKT_MAX). split; [lia|]. reflexivity.
  - simplify_eq. exists 0, len, len, len, (u8 (znth (f_hdr (frame c d)) 3 + 1)),
      (znth (f_hdr (frame c d)) 3 =? 0), (len =? MY_PKT_MAX). split; [lia|]. reflexivity.
Qed.

Lemma my_pre_emit_buf c d b m :
  my_pre_emit (with_buf c d b) d m =
    (with_buf (my_pre_emit c d m).1 d b, (my_pre_emit c d m).2).
Proof.
  unfold my_pre_emit. rewrite !startup_with_buf, !seq0_with_buf. destruct d.
  - rewrite startup_with_buf, startup_buf, compress_flip_buf. by destruct (_ && _ && _).
  - destruct (_ && f_msg_seq0 (frame c _)) eqn:E.
    + rewrite startup_buf, compress_flip_buf, !startup_with_buf, !seq0_with_buf, handshake_buf.
      destruct (negb (f_startup_done (frame _ LK_DIR_RECV))); [reflexivity|].
      destruct (f_msg_seq0 (frame _ LK_DIR_RECV) && negb _); reflexivity.
    + rewrite !startup_with_buf, !seq0_with_buf, handshake_buf.
      destruct (negb (f_startup_done (frame _ LK_DIR_RECV))); [reflexivity|].
      destruct (f_msg_seq0 (frame _ LK_DIR_RECV) && negb _); reflexivity.
Qed.

Lemma my_scan_law c d p used found c' :
  my_resync_scan c d p = (used, found, c') -> 0 <= f_resync_matched (frame c d) <= 5 ->
  0 <= used <= zlen p /\ (found = true -> 0 < used) /\ (found = false -> used = zlen p) /\
  exists k, 0 <= k <= 5 /\ c' = upd_frame c d (fun f => f <| f_resync_matched := k |>).
Proof.
  intros H Hm. unfold my_resync_scan in H. simplify_eq.
  pose proof (zlen_nonneg p). split_and!; try done; try lia.
  exists (f_resync_matched (frame c' d)). split; [done|]. by destruct c' as [??????????[][]??], d.
Qed.

#[global] Instance my_laws : FramerLaws (lk_proto_my_ops (S:=S) (P:=P) (F:=F)).
Proof.
  split.
  - intros. change (1 <= 4 <= 8). lia.
  - reflexivity.
  - intros. change (4 <= 4). lia.
  - exact my_parse_law.
  - intros c d m c' m' H. change (my_pre_emit c d m = (c', m')) in H.
    destruct (my_pre_emit_touches c d m) as [(fl & a & b & Hfl & Ht) (ty & mf & Hm)].
    rewrite H in Ht, Hm. cbn in Ht, Hm. subst. by exists fl, a, b, ty, mf.
  - exact my_pre_emit_buf.
  - exact my_scan_law.
  - intros c d p q used c' H. discriminate H.
  - intros c d p q used c' H. change (my_resync_scan c d p = (used, false, c')) in H.
    change (my_resync_scan c d (p ++ q) = (zlen p + zlen q, false, c')).
    unfold my_resync_scan in *. simplify_eq. by rewrite zlen_app.
  - discriminate.
  - discriminate.
Qed.
End Laws.
