(* ===== verification/Registry.v ===== *)
(** The protocol registry ([proto/registry.c]): which vtable an [ops] pointer
    names.  The stream-framed protocols (HTTP, S3, Redis) are an argument. *)
From stdpp Require Import base list option.
From S2P Require Import Prelude Conn Reassembly Framer FramerFacts FramerData PgFrame MyFrame.
#[local] Open Scope Z_scope.

Section Registry.
Context {S P F : Type} (stream : proto_id -> lk_proto_ops S P F).

Definition registry (id : proto_id) : lk_proto_ops S P F :=
  match id with
  | PROTO_PG => lk_proto_pg_ops
  | PROTO_MY => lk_proto_my_ops
  | _ => stream id
  end.

(** The message-framed protocols. *)
Definition framed (id : proto_id) : bool :=
  match id with PROTO_PG | PROTO_MY => true | _ => false end.

Lemma registry_laws id : framed id = true -> FramerLaws (registry id).
Proof. destruct id; try done; intros _; [apply pg_laws|apply my_laws]. Qed.
Lemma registry_framed id : framed id = true -> message_framed (registry id).
Proof. by destruct id. Qed.

Lemma frame0_wf size : 0 < size -> frame_wf size frame0.
Proof. intros. split; [split; try done; apply bytes_ok_nil|]. by split. Qed.

Lemma conn_init_wf id cookie : framed id = true ->
  conn_wf (registry id) (conn0 cookie : lk_conn P F).
Proof.
  intros Hf d. pose proof (law_hdr_size_range (FramerLaws:=registry_laws id Hf) (conn0 cookie) d).
  assert (frame (conn0 cookie : lk_conn P F) d = frame0) as -> by by destruct d.
  apply frame0_wf. lia.
Qed.

(** A fresh framer over a fresh connection satisfies the invariant. *)
Lemma framer_init_wf id cookie ctx (k : lk_msg_sink S P F) oom :
  framed id = true -> SinkLaws k ->
  framer_wf registry (lk_reasm_init ctx k oom) (conn0 cookie <| c_ops := Some id |>).
Proof.
  intros Hf SL. split_and!; [done|done|]. cbn. intros d.
  rewrite (law_hdr_size_ext (FramerLaws:=registry_laws id Hf) _ (conn0 cookie) d) by by destruct d.
  pose proof (conn_init_wf id cookie Hf d). by destruct d.
Qed.
End Registry.
