(* ===== verification/FramerProps.v ===== *)
(** The framer as a whole: safety of every event sequence, and independence of
    the chunking. *)
From stdpp Require Import base list option.
From S2P Require Import Prelude Conn Reassembly Framer FramerFacts FramerData PgFrame MyFrame Registry.
#[local] Open Scope Z_scope.

Section Props.
Context {S P F : Type} (stream : proto_id -> lk_proto_ops S P F).
Abbreviation vt := (registry stream).
Implicit Types (r : lk_reasm S P F) (c : lk_conn P F) (d : lk_dir).

(** A captured event: direction, data event and its [cap_len]. *)
Definition event : Type := lk_dir * lk_ev_data * Z.
Fixpoint feed (evs : list event) r c : option (lk_reasm S P F * lk_conn P F) :=
  match evs with
  | [] => Some (r, c)
  | (d, ev, cap) :: evs => '(r, c) ← lk_reasm_data vt r c d ev cap; feed evs r c
  end.

Lemma feed_ok id evs r c :
  framed id = true -> state_wf (vt id) (proto_is id) r c -> Forall (fun e => ev_ok e.1.2 e.2) evs ->
  exists r' c', feed evs r c = Some (r', c') /\ state_wf (vt id) (proto_is id) r' c'.
Proof.
  intros Hid Hw Hev. revert r c Hw. induction Hev as [|[[d ev] cap] evs He _ IH]; intros r c Hw.
  { by exists r, c. }
  destruct (reasm_data_ok vt id (FL:=registry_laws stream id Hid) (registry_framed stream id Hid)
    (proto_is id) (fun _ _ H => H) r c d ev cap Hw He) as (r1 & c1 & E & Hw1).
  cbn [feed]. rewrite E. cbn. by apply IH.
Qed.

(** C5: Safety of the message framer.  From a fresh connection of PostgreSQL or MySQL (the
    protocols framed message by message; the byte-stream framers have theorems of their
    own), whatever the agent captured, in whatever order and with whatever
    truncation, gaps and allocation failures, every [lk_reasm_data] call
    returns (the byte and hole loops terminate within their fuel), no body slab
    ever holds more than LK_MSG_BODY_MAX bytes, the freelist never more than
    LK_REASM_POOL_MAX slabs, and the well-formedness invariant holds. *)
Theorem framer_safe id cookie ctx (k : lk_msg_sink S P F) oom evs :
  framed id = true -> SinkLaws k -> Forall (fun e : event => ev_ok e.1.2 e.2) evs ->
  exists r c, feed evs (lk_reasm_init ctx k oom) (conn0 cookie <| c_ops := Some id |>) = Some (r, c) /\
    framer_wf vt r c /\ proto_of c = id /\ 0 <= r_pool_n r <= LK_REASM_POOL_MAX /\
    forall d, buf_len (frame c d) <= LK_MSG_BODY_MAX.
Proof.
  intros Hid SL Hev.
  destruct (feed_ok id evs (lk_reasm_init ctx k oom) (conn0 cookie <| c_ops := Some id |>) Hid)
    as (r & c & E & Hw); [|done|].
  - exact (framer_swf vt id (FL:=registry_laws stream id Hid) (proto_is id) (lk_reasm_init ctx k oom)
      (conn0 cookie <| c_ops := Some id |>) eq_refl (framer_init_wf stream id cookie ctx k oom Hid SL) eq_refl).
  - exists r, c. pose proof (swf_framer vt id (proto_is id) (fun _ _ H => H) _ _ Hw) as Hf. pose proof Hw as (_ & Hp & _ & Hc).
    split_and!; [done..|by apply (swf_proto vt id (proto_is id) (fun _ _ H => H) r c)|apply Hp|apply Hp|]. intros d. apply (Hc d).
Qed.

(** No intercept is pending on the direction. *)
Definition no_intercept (o : lk_proto_ops S P F) c d : Prop :=
  match intercept_bytes o with
  | None => True
  | Some ib => forall r b p ts, ib r c d (b :: p) ts = (true, r, c, b :: p)
  end.

Lemma frame_bytes_loop id r c d p ts :
  framed id = true -> state_wf (vt id) (proto_is id) r c -> no_intercept (vt id) c d ->
  lk_frame_bytes vt r c d p ts = fst <$> frame_loop (loop_fuel p) r (vt id) c d p ts (c_flags c).
Proof.
  intros Hid Hw Hi. unfold lk_frame_bytes.
  rewrite (swf_conn_ops vt id (proto_is id) (fun _ _ H => H) _ _ Hw), (registry_framed stream id Hid).
  unfold no_intercept in Hi. destruct (intercept_bytes (vt id)); [|done].
  destruct p; [done|]. by rewrite Hi.
Qed.

(** Chunk independence of the PostgreSQL and MySQL framer.  With memory available
    and no intercepted reply pending before either piece, feeding [p] and then [q] is
    feeding [p ++ q] when [p] leaves the direction in sync and does not turn the connection
    TLS or ignored (where the rest of a chunk is discarded): same connection state, same
    messages delivered, same counters; only the slab freelist may be populated
    differently. *)
Theorem frame_bytes_chunks id r c d p q ts r1 c1 r2 c2 :
  framed id = true -> state_wf (vt id) (proto_is id) r c -> r_oom r = [] -> bytes_ok p -> bytes_ok q ->
  no_intercept (vt id) c d -> lk_frame_bytes vt r c d p ts = Some (r1, c1) ->
  f_st (frame c1 d) <> LK_FR_DIRTY -> has_flag (c_flags c1) BLIND = has_flag (c_flags c) BLIND ->
  no_intercept (vt id) c1 d -> lk_frame_bytes vt r1 c1 d q ts = Some (r2, c2) ->
  exists r2', lk_frame_bytes vt r c d (p ++ q) ts = Some (r2', c2) /\
    r_ctx r2' = r_ctx r2 /\ r_st r2' = r_st r2.
Proof.
  intros Hid Hw Ho Hp Hq Hi E1 Hd Hbl Hi1 E2.
  pose proof (registry_laws stream id Hid) as FL.
  destruct (frame_bytes_ok vt id (registry_framed stream id Hid) (proto_is id) (fun _ _ H => H) r c d p ts Hw Hp) as (r1' & c1' & E & Hw1).
  rewrite E1 in E. simplify_eq.
  rewrite (frame_bytes_loop id) in E1, E2 |- * by done.
  destruct (frame_loop (loop_fuel p) _ _ _ _ _ _ _) as [[[r1 c1] a]|] eqn:L1; [|done]. cbn in E1. simplify_eq.
  destruct (frame_loop (loop_fuel q) _ _ _ _ _ _ _) as [[[r3 c3] b]|] eqn:L2; [|done]. cbn in E2. simplify_eq.
  destruct (fun Hl => loop_app (vt id) (proto_is id) r c d p q ts _ _ _ _ _ _ _ _ Hw Ho Hp Hq L1 Hl Hbl L2)
    as (r2' & -> & []); [|by exists r2'].
  intros [?|[? ?]]; congruence.
Qed.
End Props.

(** ** Witnesses: a MySQL connection with no consumer, a COM_PING packet *)
Definition ex_sink : lk_msg_sink unit unit unit := Sink None None None.
#[local] Instance ex_sink_laws : SinkLaws ex_sink.
Proof. by split. Qed.
Definition ex_ev (off total : Z) (p : list Z) : lk_ev_data :=
  EvData (EvHdr 1 7 0 LK_EV_DATA 1 0) total off (zlen p) p.

Lemma framer_safe_witness :
  exists r c, feed (fun _ => lk_proto_my_ops) [(LK_DIR_RECV, ex_ev 0 9 [1; 0; 0; 0], 4); (LK_DIR_RECV, ex_ev 6 9 [255], 1)]
      (lk_reasm_init tt ex_sink [true]) (conn0 1 <| c_ops := Some PROTO_MY |>) = Some (r, c) /\
    framer_wf (registry (fun _ => lk_proto_my_ops)) r c /\ proto_of c = PROTO_MY /\
    0 <= r_pool_n r <= LK_REASM_POOL_MAX /\ forall d, buf_len (frame c d) <= LK_MSG_BODY_MAX.
Proof.
  apply (framer_safe (fun _ => lk_proto_my_ops)); [reflexivity|apply ex_sink_laws|].
  concrete.
Defined.

Abbreviation ex_vt := (registry (fun _ => lk_proto_my_ops (S:=unit) (P:=unit) (F:=unit))).
Definition ex_my_r : lk_reasm unit unit unit := lk_reasm_init tt ex_sink [].
Definition ex_my_c : lk_conn unit unit := conn0 1 <| c_ops := Some PROTO_MY |>.
Definition ex_my_1 := Eval vm_compute in
  default (ex_my_r, ex_my_c) (lk_frame_bytes ex_vt ex_my_r ex_my_c LK_DIR_SEND [3; 0; 0; 1; 9] 7).
Definition ex_my_2 := Eval vm_compute in
  default ex_my_1 (lk_frame_bytes ex_vt ex_my_1.1 ex_my_1.2 LK_DIR_SEND [9; 9; 1; 0] 7).

Lemma frame_bytes_chunks_witness :
  exists r2', lk_frame_bytes ex_vt ex_my_r ex_my_c LK_DIR_SEND ([3; 0; 0; 1; 9] ++ [9; 9; 1; 0]) 7 =
      Some (r2', ex_my_2.2) /\
    r_ctx r2' = r_ctx ex_my_2.1 /\ r_st r2' = r_st ex_my_2.1.
Proof.
  apply (frame_bytes_chunks (fun _ => lk_proto_my_ops) PROTO_MY ex_my_r ex_my_c LK_DIR_SEND
    [3; 0; 0; 1; 9] [9; 9; 1; 0] 7 ex_my_1.1 ex_my_1.2 ex_my_2.1 ex_my_2.2); try (vm_compute; reflexivity).
  - exact (framer_swf ex_vt PROTO_MY (proto_is PROTO_MY) ex_my_r ex_my_c eq_refl
      (framer_init_wf (fun _ => lk_proto_my_ops) PROTO_MY 1 tt ex_sink [] eq_refl ex_sink_laws) eq_refl).
  - concrete.
  - concrete.
  - vm_compute. discriminate.
Defined.
