(* ===== verification/PgStream.v ===== *)
(** The PostgreSQL framer on well-formed streams: encoded messages come out of
    the byte machine as they went in, and a capture hole inside a body costs
    that body and nothing else. *)
From stdpp Require Import base list option.
From S2P Require Import Prelude Conn Reassembly Framer FramerFacts FramerData PgFrame MyFrame Registry.
#[local] Open Scope Z_scope.

(** A sink that records what it is given. *)
Abbreviation log := (list (lk_dir * lk_msg)).
Definition recorder {P F} : lk_msg_sink log P F :=
  Sink (Some (fun s c d m => (s ++ [(d, m)], c))) None None.
#[global] Instance recorder_laws {P F} : SinkLaws (recorder (P:=P) (F:=F)).
Proof. split; unfold recorder; cbn; intros; simplify_eq; done. Qed.

(** The wire format: type byte, length (itself included), body. *)
Definition pg_hdr (m : Z * list Z) : list Z := m.1 :: put_be32 (zlen m.2 + 4).
Definition pg_enc (m : Z * list Z) : list Z := pg_hdr m ++ m.2.
Definition pg_stream (ms : list (Z * list Z)) : list Z := concat (map pg_enc ms).
Definition pg_msg_ok (m : Z * list Z) : Prop :=
  0 <= m.1 < 256 /\ bytes_ok m.2 /\ zlen m.2 + 4 <= LK_PG_MSG_LEN_MAX.
(** What the consumer is handed, [cap] body bytes having been captured. *)
Definition pg_delivered (ts cap : Z) (m : Z * list Z) : lk_msg :=
  Msg ts m.1 (if cap <? zlen m.2 then LK_MSG_BODY_TRUNC else 0) (zlen m.2 + 4) (ztake cap m.2).
Definition pg_out (ts : Z) (m : Z * list Z) : lk_msg :=
  pg_delivered ts (Z.min (zlen m.2) LK_MSG_BODY_MAX) m.

(** The messages of a stream whose bytes carry the times [T]: each has that of its first byte. *)
Fixpoint pg_timed (T : list Z) (ms : list (Z * list Z)) : list lk_msg :=
  match ms with
  | [] => []
  | m :: ms => pg_out (hd 0 T) m :: pg_timed (drop (length (pg_enc m)) T) ms
  end.
Definition stamps (chunks : list (Z * list Z)) : list Z := concat (map (fun ch => replicate (length ch.2) ch.1) chunks).

Section PgStream.
Context {P F : Type}.
Abbreviation reasm := (lk_reasm log P F).
Abbreviation conn := (lk_conn P F).
Abbreviation o := (lk_proto_pg_ops (S:=log) (P:=P) (F:=F)).
Implicit Types (r : reasm) (c : conn) (d : lk_dir) (ts ef : Z).

(** A direction between two messages, past the startup phase. *)
Record pg_ready c d : Prop := PgReady {
  rd_st : f_st (frame c d) = LK_FR_HEADER;
  rd_hdr : f_hdr (frame c d) = [];
  rd_buf : f_buf (frame c d) = None;
  rd_cont : f_msg_cont (frame c d) = false;
  rd_closed : f_prefix_closed (frame c d) = false;
  rd_after : f_after_resync (frame c d) = false;
  rd_startup : in_startup (frame c d) d = false }.

(** Inside the body of [m], [k] bytes of it captured. *)
Record pg_inside c d ts (m : Z * list Z) (k : Z) : Prop := PgInside {
  in_st : f_st (frame c d) = LK_FR_BODY;
  in_buf : buf_bytes (frame c d) = ztake k m.2;
  in_unbuf : f_buf (frame c d) = None -> k = 0;
  in_len : f_body_len (frame c d) = zlen m.2;
  in_total : f_body_total (frame c d) = zlen m.2;
  in_msg_len : f_msg_len (frame c d) = zlen m.2 + 4;
  in_type : f_msg_type (frame c d) = m.1;
  in_ts : f_msg_ts (frame c d) = ts;
  in_cont : f_msg_cont (frame c d) = false;
  in_closed : f_prefix_closed (frame c d) = false;
  in_after : f_after_resync (frame c d) = false;
  in_startup' : in_startup (frame c d) d = false }.

(** One delivery to the recorder. *)
Definition delivered r r1 d (m : lk_msg) : Prop :=
  r_ctx r1 = r_ctx r ++ [(d, m)] /\ r_sink r1 = r_sink r.

Lemma pg_emit r c d body :
  r_sink r = recorder -> in_startup (frame c d) d = false -> f_after_resync (frame c d) = false ->
  exists r1, emit r o c d body = (r1, c) /\
    delivered r r1 d (Msg (f_msg_ts (frame c d)) (f_msg_type (frame c d))
      (if zlen body <? f_body_total (frame c d) then LK_MSG_BODY_TRUNC else 0)
      (f_msg_len (frame c d)) body).
Proof.
  intros Hr Hs Ha. unfold emit, pre_emit, stamp_resync, deliver; cbn [lk_proto_pg_ops].
  unfold pg_pre_emit. rewrite Hs. cbn [negb]. rewrite Ha.
  destruct (_ <? _); cbn [r_sink bump upd]; rewrite Hr; cbn; eexists; split; try done; by split.
Qed.

Lemma pg_reset_ready r c d r1 c1 :
  msg_reset r c d = (r1, c1) -> f_after_resync (frame c d) = false ->
  in_startup (frame c d) d = false ->
  pg_ready c1 d /\ c1 = set_frame c d (reset_frame (frame c d)) /\
  r_ctx r1 = r_ctx r /\ r_sink r1 = r_sink r.
Proof.
  intros [= <- <-] Ha Hs. split_and!.
  - split; rewrite frame_set_eq; try done.
  - done.
  - unfold buf_put. by repeat case_match.
  - unfold buf_put. by repeat case_match.
Qed.

(** Inside the header of [m], [h] bytes of it seen, the first at [ts0]. *)
Record pg_heading c d ts0 (m : Z * list Z) (h : Z) : Prop := PgHeading {
  hd_st : f_st (frame c d) = LK_FR_HEADER;
  hd_hdr : f_hdr (frame c d) = ztake h (pg_hdr m);
  hd_ts : h <> 0 -> f_msg_ts (frame c d) = ts0;
  hd_buf : f_buf (frame c d) = None;
  hd_cont : f_msg_cont (frame c d) = false;
  hd_closed : f_prefix_closed (frame c d) = false;
  hd_after : f_after_resync (frame c d) = false;
  hd_startup : in_startup (frame c d) d = false;
  hd_range : 0 <= h < 5 }.
Lemma pg_ready_heading c d ts0 m : pg_ready c d -> pg_heading c d ts0 m 0.
Proof. by intros []. Qed.
Lemma hdr_accum_heading c d ts ts0 m h p :
  pg_heading c d ts0 m h -> (h = 0 -> ts = ts0) ->
  hdr_accum (frame c d) ts p = frame c d <| f_msg_ts := ts0 |> <| f_hdr := ztake h (pg_hdr m) ++ p |>.
Proof.
  intros [] E. unfold hdr_accum, hdr_len. rewrite hd_hdr0, hd_cont0, zlen_ztake by lia.
  change (zlen (pg_hdr m)) with 5. rewrite Z.min_l, andb_true_r by lia.
  destruct (frame c d). cbn in *. subst. destruct (Z.eqb_spec h 0); cbn; f_equal; auto.
Qed.
(** What is missing of the header and [rest]. *)
Lemma pg_head_size c d ts0 m h : pg_heading c d ts0 m h -> u32 (hdr_size o c d - hdr_len (frame c d)) = 5 - h /\ hdr_size o c d = 5.
Proof.
  intros []. cbn [hdr_size lk_proto_pg_ops]. unfold pg_hdr_size, hdr_len. rewrite hd_startup0, hd_hdr0, zlen_ztake by lia.
  change (zlen (pg_hdr m)) with 5. by rewrite Z.min_l, u32_small by lia.
Qed.

Lemma finish_live r c p ef : c_flags c = ef -> finish_blind r c p ef = Again r c p.
Proof. intros <-. unfold finish_blind, went_blind. by destruct (has_flag _ _). Qed.

(** The rest of the header of [m]. *)
Lemma pg_header_rest r c d ts ts0 m h rest :
  pg_heading c d ts0 m h -> (h = 0 -> ts = ts0) -> pg_msg_ok m -> r_sink r = recorder ->
  exists r1 c1, frame_step r o c d (zdrop h (pg_hdr m) ++ rest) ts (c_flags c) =
      Again r1 c1 rest /\ c_flags c1 = c_flags c /\ c_ops c1 = c_ops c /\ r_sink r1 = recorder /\
    (m.2 = [] -> pg_ready c1 d /\ delivered r r1 d (pg_out ts0 m)) /\
    (m.2 <> [] -> pg_inside c1 d ts0 m 0 /\ r1 = r).
Proof.
  intros Hh Hts (Hty & Hb & Hl) Hr. unfold frame_step. rewrite (hd_st _ _ _ _ _ Hh). unfold header_step.
  destruct (pg_head_size c d ts0 m h Hh) as [-> ->]. pose proof (hd_range _ _ _ _ _ Hh) as Hh5.
  unfold LK_PG_MSG_LEN_MAX in Hl. pose proof (zlen_nonneg m.2). set (p := pg_hdr m).
  assert (zlen p = 5) as Hp by done. assert (zlen (zdrop h p) = 5 - h) as Hzp by (rewrite zlen_zdrop; lia).
  rewrite zlen_app, Hzp, Z.min_l by (pose proof (zlen_nonneg rest); lia).
  rewrite (ztake_app_le (5 - h)), (zdrop_app_le (5 - h)), (ztake_all (5 - h)), (zdrop_all (5 - h)), app_nil_l by lia.
  unfold upd_frame. rewrite frame_set_eq, (hdr_accum_heading c d ts ts0 m h) by done.
  fold p. rewrite ztake_zdrop. pose proof Hh as []. set (f0 := frame c d <| f_msg_ts := ts0 |> <| f_hdr := p |>).
  unfold hdr_len. change (f_hdr f0) with p. rewrite Hp. change (5 <? 5) with false. cbv iota.
  unfold header_done. cbn [parse_hdr lk_proto_pg_ops]. unfold pg_parse_hdr. rewrite frame_set_eq.
  change (f_hdr f0) with p. rewrite (in_startup_ext f0 (frame c d)) by done.
  rewrite hd_startup0. change (zdrop 1 p) with (put_be32 (zlen m.2 + 4)). rewrite be32_put by lia.
  replace ((zlen m.2 + 4 <? 4) || (LK_PG_MSG_LEN_MAX <? zlen m.2 + 4)) with false
    by (symmetry; apply orb_false_iff; unfold LK_PG_MSG_LEN_MAX; blia).
  cbv iota. cbn [negb]. rewrite set_frame_set, frame_set_eq.
  replace (zlen m.2 + 4 - 4) with (zlen m.2) by lia.
  match goal with |- context [set_frame c d ?f] => set (f1 := f) end.
  change (f_body_len f1) with (zlen m.2).
  destruct (Z.eqb_spec (zlen m.2) 0) as [Hz|Hnz].
  - assert (m.2 = []) as Hm by (destruct m.2; [done|rewrite zlen_cons in Hz; pose proof (zlen_nonneg l); lia]).
    destruct (pg_emit r (set_frame c d f1) d (buf_bytes f1) Hr)
      as (r2 & -> & Hd); [by rewrite frame_set_eq..|].
    destruct (msg_reset r2 _ d) as [r3 c3] eqn:E.
    apply pg_reset_ready in E as (Hrd & -> & Hc & Hk); [|by rewrite frame_set_eq..].
    destruct Hd as [Hd1 Hd2]. rewrite frame_set_eq in Hd1.
    rewrite finish_live by by rewrite !set_frame_flags.
    eexists _, _. split; [done|]. rewrite !set_frame_flags, !set_frame_ops. split_and!; try done; [congruence|].
    intros _. split; [done|]. split; [|congruence]. rewrite Hc, Hd1. unfold pg_out, pg_delivered, buf_bytes.
    subst f1; cbn. by rewrite Hm, hd_buf0.
  - unfold upd_frame. rewrite frame_set_eq, set_frame_set. eexists _, _. split; [done|].
    rewrite !set_frame_flags, !set_frame_ops. split_and!; try done.
    { intros E. by rewrite E in Hnz. }
    intros _. split; [|done]. split; rewrite !frame_set_eq; subst f1; cbn; try done.
    unfold buf_bytes; cbn. by rewrite hd_buf0.
Qed.

Lemma pg_header r c d ts m rest :
  pg_ready c d -> pg_msg_ok m -> r_sink r = recorder ->
  exists r1 c1, frame_step r o c d (m.1 :: put_be32 (zlen m.2 + 4) ++ rest) ts (c_flags c) =
      Again r1 c1 rest /\ c_flags c1 = c_flags c /\ c_ops c1 = c_ops c /\ r_sink r1 = recorder /\
    (m.2 = [] -> pg_ready c1 d /\ delivered r r1 d (pg_out ts m)) /\
    (m.2 <> [] -> pg_inside c1 d ts m 0 /\ r1 = r).
Proof.
  intros Hrd Hm Hr. exact (pg_header_rest r c d ts ts m 0 rest (pg_ready_heading c d ts m Hrd) (fun _ => eq_refl) Hm Hr).
Qed.

(** Between messages, [s] bytes of an already delivered body still to come. *)
Definition pg_after c d (s : Z) : Prop :=
  if s =? 0 then pg_ready c d
  else exists c0, pg_ready c0 d /\ c = enter_skip c0 d s.

Definition same_conn c c1 : Prop := c_flags c1 = c_flags c /\ c_ops c1 = c_ops c.
Lemma same_conn_set c d f : same_conn c (set_frame c d f).
Proof. by destruct d. Qed.
#[local] Instance same_conn_pre : PreOrder same_conn.
Proof. split; [done|]. intros ? ? ? [] []. split; congruence. Qed.

Lemma enter_skip_after c d s :
  pg_ready c d -> pg_after (enter_skip c d s) d s /\ same_conn c (enter_skip c d s).
Proof.
  intros H. unfold pg_after. destruct (Z.eqb_spec s 0) as [->|E]; [done|].
  split; [by exists c|]. unfold enter_skip. destruct (Z.eqb_spec s 0); [done|].
  by apply same_conn_set.
Qed.

Lemma pg_emit_reset r c d ts m k cap :
  pg_inside c d ts m k -> r_sink r = recorder -> 0 <= cap <= zlen m.2 ->
  exists r0 c0 r1 c1, emit r o c d (ztake cap m.2) = (r0, c0) /\ msg_reset r0 c0 d = (r1, c1) /\
    pg_ready c1 d /\ same_conn c c1 /\ delivered r r1 d (pg_delivered ts cap m).
Proof.
  intros [] Hr Hcap.
  destruct (pg_emit r c d (ztake cap m.2) Hr in_startup'0 in_after0) as (r0 & E0 & H1 & H2).
  destruct (msg_reset r0 c d) as [r1 c1] eqn:E1. pose proof E1 as E2.
  apply pg_reset_ready in E2 as (Hrd & -> & Hc & Hk); [|done..].
  exists r0, c, r1, (set_frame c d (reset_frame (frame c d))).
  split_and!; [done..|apply same_conn_set|split; [|congruence]].
  rewrite Hc, H1. unfold pg_delivered. rewrite in_total0, in_msg_len0, in_type0, in_ts0.
  rewrite zlen_ztake, Z.min_l by lia. done.
Qed.

Lemma skip_step_all r c d p rest ts ef :
  f_st (frame c d) = LK_FR_SKIP -> f_skip_left (frame c d) = zlen p ->
  frame_step r o c d (p ++ rest) ts ef =
  Again r (upd_frame c d (fun f => f <| f_skip_left := 0 |> <| f_st := LK_FR_HEADER |>)) rest.
Proof.
  intros Hst Hs. unfold frame_step. rewrite Hst. unfold skip_step. rewrite Hs, zlen_app.
  pose proof (zlen_nonneg rest). rewrite Z.min_l, Z.sub_diag, Z.eqb_refl by lia.
  rewrite zdrop_app_ge, zdrop_0 by lia. done.
Qed.

Lemma skip_step_part r c d p ts ef :
  f_st (frame c d) = LK_FR_SKIP -> zlen p < f_skip_left (frame c d) ->
  frame_step r o c d p ts ef =
  Again r (upd_frame c d (fun f => f <| f_skip_left := f_skip_left f - zlen p |>)) [].
Proof.
  intros Hst Hs. unfold frame_step. rewrite Hst. unfold skip_step. rewrite Z.min_r by lia.
  destruct (Z.eqb_spec (f_skip_left (frame c d) - zlen p) 0); [lia|].
  by rewrite zdrop_all by lia.
Qed.

Lemma skip_after r c d s p rest ts ef :
  pg_after c d s -> s = zlen p ->
  exists c1, pg_ready c1 d /\ same_conn c c1 /\
    forall x, runs o d ts ef r c1 rest x -> runs o d ts ef r c (p ++ rest) x.
Proof.
  unfold pg_after. intros H Hs. destruct (Z.eqb_spec s 0) as [E|E].
  - exists c. split; [done|]. split; [done|]. rewrite (zlen_0 p) by lia. done.
  - destruct H as (c0 & Hrd & ->). unfold enter_skip. destruct (Z.eqb_spec s 0); [done|].
    exists (upd_frame (upd_frame c0 d (fun f => f <| f_st := LK_FR_SKIP |> <| f_skip_left := s |>)) d
             (fun f => f <| f_skip_left := 0 |> <| f_st := LK_FR_HEADER |>)).
    destruct Hrd. split; [|split].
    + by split; unfold upd_frame; rewrite !frame_set_eq.
    + unfold upd_frame. rewrite set_frame_set. split; by rewrite !set_frame_flags || rewrite !set_frame_ops.
    + intros x Hx. eapply runs_again; [intros En; apply (f_equal zlen) in En;
        rewrite zlen_app, zlen_nil in En; pose proof (zlen_nonneg p); pose proof (zlen_nonneg rest); lia| |exact Hx].
      apply skip_step_all; unfold upd_frame; by rewrite frame_set_eq.
Qed.

(** The bytes that complete the captured prefix of a body. *)
Lemma pg_body_step r c d ts m k p ts' (t := Z.min (zlen m.2) LK_MSG_BODY_MAX) :
  pg_inside c d ts m k -> r_sink r = recorder -> 0 <= k < t -> zlen m.2 + 4 <= LK_PG_MSG_LEN_MAX ->
  t - k <= zlen p -> ztake (t - k) p = ztake (t - k) (zdrop k m.2) ->
  exists r1 c1, frame_step r o c d p ts' (c_flags c) =
      Again r1 (enter_skip c1 d (zlen m.2 - t)) (zdrop (t - k) p) /\
    pg_ready c1 d /\ same_conn c c1 /\ delivered r r1 d (pg_out ts m).
Proof.
  intros Hin Hr Hk Hl Hp Ht.
  destruct (pg_emit_reset r c d ts m k t Hin Hr ltac:(lia)) as (r0 & c0 & r1 & c1 & E0 & E1 & Hrd & Hsc & Hdl).
  exists r1, c1. split; [|done]. unfold frame_step. destruct Hin. rewrite in_st0. unfold body_step.
  assert (body_target (frame c d) = t) as ->.
  { unfold body_target, t, LK_MSG_BODY_MAX in *. rewrite in_len0.
    destruct (Z.ltb_spec (zlen m.2) 16384); lia. }
  assert (buf_len (frame c d) = k) as -> by (unfold buf_len; rewrite in_buf0, zlen_ztake; lia).
  unfold LK_PG_MSG_LEN_MAX, LK_MSG_BODY_MAX in *. rewrite in_closed0, u32_small by lia.
  destruct (Z.ltb_spec (zlen p) (t - k)); [lia|]. unfold body_finish.
  rewrite in_cont0, in_closed0, in_len0, u64_small, Ht by lia.
  replace (match f_buf (frame c d) with Some b => b ++ ztake (t - k) (zdrop k m.2) | None => ztake t p end)
    with (ztake t m.2).
  2:{ destruct (f_buf (frame c d)) as [b|] eqn:Eb.
      - unfold buf_bytes in in_buf0. rewrite Eb in in_buf0. cbn in in_buf0. subst b.
        rewrite <- (ztake_zdrop k m.2) at 1. rewrite ztake_app_ge by (rewrite zlen_ztake; lia).
        rewrite zlen_ztake, Z.min_l by lia. done.
      - rewrite in_unbuf0, Z.sub_0_r, zdrop_0 in Ht by done || lia. by rewrite Ht. }
  rewrite E0, E1. apply finish_live.
  destruct (enter_skip_after c1 d (zlen m.2 - t) Hrd) as [_ [Hf2 _]]. by destruct Hsc as [<- _].
Qed.

(** The rest of a body, [k] bytes of which were captured, and what follows. *)
Lemma pg_body r c d ts m k rest ts' :
  pg_inside c d ts m k -> r_sink r = recorder -> 0 <= k < Z.min (zlen m.2) LK_MSG_BODY_MAX ->
  zlen m.2 + 4 <= LK_PG_MSG_LEN_MAX ->
  exists r1 c1, pg_ready c1 d /\ same_conn c c1 /\ delivered r r1 d (pg_out ts m) /\
    forall x, runs o d ts' (c_flags c) r1 c1 rest x ->
              runs o d ts' (c_flags c) r c (zdrop k m.2 ++ rest) x.
Proof.
  intros Hin Hr Hk Hl. set (t := Z.min (zlen m.2) LK_MSG_BODY_MAX) in *.
  assert (zlen (zdrop k m.2) = zlen m.2 - k) as Hzk by (rewrite zlen_zdrop by lia; lia).
  pose proof (zlen_nonneg rest).
  destruct (pg_body_step r c d ts m k (zdrop k m.2 ++ rest) ts' Hin Hr Hk Hl)
    as (r1 & c1 & E & Hrd & Hsc & Hdl); [rewrite zlen_app; lia|by rewrite ztake_app_le by lia|].
  fold t in E. rewrite zdrop_app_le, zdrop_zdrop in E by lia. replace (k + (t - k)) with t in E by lia.
  destruct (enter_skip_after c1 d (zlen m.2 - t) Hrd) as [Ha Hsc2].
  destruct (skip_after r1 _ d _ (zdrop t m.2) rest ts' (c_flags c) Ha) as (c2 & Hrd2 & Hsc3 & Hruns).
  { rewrite zlen_zdrop by lia. lia. }
  exists r1, c2. split; [done|]. split; [by do 2 etrans|]. split; [done|]. intros x Hx.
  eapply runs_again; [|exact E|by apply Hruns].
  intros En. apply (f_equal zlen) in En. rewrite zlen_app, zlen_nil in En. lia.
Qed.

Lemma pg_one r c d ts m rest :
  pg_ready c d -> pg_msg_ok m -> r_sink r = recorder ->
  exists r1 c1, pg_ready c1 d /\ same_conn c c1 /\ delivered r r1 d (pg_out ts m) /\
    forall x, runs o d ts (c_flags c) r1 c1 rest x ->
              runs o d ts (c_flags c) r c (pg_enc m ++ rest) x.
Proof.
  intros Hrd Hm Hr. unfold pg_enc. cbn [app]. rewrite <- app_assoc.
  destruct (pg_header r c d ts m (m.2 ++ rest) Hrd Hm Hr) as (r1 & c1 & E & Hf & Hops & Hk & Hnil & Hcons).
  destruct (decide (m.2 = [])) as [Em|Em].
  - destruct (Hnil Em) as [Hrd1 Hd]. exists r1, c1. split; [done|]. split; [done|]. split; [done|].
    intros x Hx. eapply runs_again; [done|exact E|]. by rewrite Em.
  - destruct (Hcons Em) as [Hin ->]. destruct Hm as (_ & _ & Hl).
    destruct (pg_body r c1 d ts m 0 rest ts Hin Hr) as (r2 & c2 & Hrd2 & Hsc & Hd & Hruns); [|done|].
    { pose proof (zlen_pos m.2 Em). unfold LK_MSG_BODY_MAX. lia. }
    exists r2, c2. split; [done|]. split; [by trans c1|]. split; [done|]. intros x Hx.
    eapply runs_again; [done|exact E|]. rewrite Hf in Hruns. exact (Hruns x Hx).
Qed.

Lemma pg_many c d ts ms : forall r,
  pg_ready c d -> Forall pg_msg_ok ms -> r_sink r = recorder ->
  exists r1 c1, runs o d ts (c_flags c) r c (pg_stream ms) (r1, c1, false) /\
    pg_ready c1 d /\ same_conn c c1 /\ r_sink r1 = recorder /\
    r_ctx r1 = r_ctx r ++ map (fun m => (d, pg_out ts m)) ms.
Proof.
  revert c. induction ms as [|m ms IH]; intros c r Hrd Hms Hr.
  - exists r, c. split; [constructor|]. split_and!; [done..|]. cbn. by rewrite app_nil_r.
  - inversion Hms as [|? ? Hm Hms']; subst.
    destruct (pg_one r c d ts m (pg_stream ms) Hrd Hm Hr) as (r1 & c1 & Hrd1 & Hsc & [Hd Hk] & Hruns).
    destruct (IH c1 r1 Hrd1 Hms') as (r2 & c2 & Hr2 & Hrd2 & Hsc2 & Hk2 & Hd2); [congruence|].
    exists r2, c2. destruct Hsc as [Hfl Hop]. rewrite Hfl in Hr2.
    split; [by apply Hruns|]. split_and!; [done|split; destruct Hsc2; congruence|done|].
    rewrite Hd2, Hd. cbn. by rewrite <- app_assoc.
Qed.

(** More of a body, spilled into a slab. *)
Lemma pg_body_more r c d ts m k n ts' :
  pg_inside c d ts m k -> r_oom r = [] -> 0 <= k -> 0 < n -> k + n < Z.min (zlen m.2) LK_MSG_BODY_MAX ->
  exists r1 c1, frame_step r o c d (ztake n (zdrop k m.2)) ts' (c_flags c) = Return r1 c1 false /\
    pg_inside c1 d ts m (k + n) /\ same_conn c c1 /\ r_ctx r1 = r_ctx r /\ r_sink r1 = r_sink r.
Proof.
  intros Hin Ho Hk Hn Hkn. unfold LK_MSG_BODY_MAX in Hkn. pose proof Hin as [].
  unfold frame_step. rewrite in_st0. unfold body_step. rewrite in_closed0.
  assert (buf_len (frame c d) = k) as -> by (unfold buf_len; rewrite in_buf0, zlen_ztake; lia).
  assert (k + n < body_target (frame c d) <= 16384) as Hb.
  { unfold body_target, LK_MSG_BODY_MAX. rewrite in_len0. destruct (Z.ltb_spec (zlen m.2) 16384); lia. }
  rewrite u32_small by lia. rewrite zlen_ztake, zlen_zdrop, Z.min_l by lia.
  destruct (Z.ltb_spec n (body_target (frame c d) - k)); [|lia].
  pose proof (ensure_buf_spec r c d) as He. destruct (ensure_buf r c d) as [r1 c1].
  destruct He as (Hk1 & Hx & _ & _ & _ & b & -> & _ & Hb1). rewrite (Hb1 Ho).
  rewrite frame_with_buf. cbn [f_buf upd]. rewrite buf_append_eq, frame_with_buf.
  cbn [f_buf upd fmap option_fmap option_map]. rewrite in_buf0, <- ztake_add by lia.
  eexists _, _. split; [done|]. split_and!; [|by destruct d|done..].
  split; rewrite ?frame_with_buf; try done.
Qed.
Lemma pg_body_part r c d ts m k ts' :
  pg_inside c d ts m 0 -> r_oom r = [] -> 0 < k < Z.min (zlen m.2) LK_MSG_BODY_MAX ->
  exists r1 c1, frame_step r o c d (ztake k m.2) ts' (c_flags c) = Return r1 c1 false /\
    pg_inside c1 d ts m k /\ same_conn c c1 /\ r_ctx r1 = r_ctx r /\ r_sink r1 = r_sink r.
Proof. intros Hin Ho Hk. by apply (pg_body_more r c d ts m 0 k ts' Hin Ho); lia. Qed.

(** Part of a skipped tail. *)
Lemma skip_part r c d s p ts ef :
  pg_ready c d -> zlen p < s ->
  exists c1, runs o d ts ef r (enter_skip c d s) p (r, c1, false) /\ pg_after c1 d (s - zlen p) /\
    same_conn c c1.
Proof.
  intros Hrd Hs. pose proof (zlen_nonneg p). destruct (enter_skip_after c d s Hrd) as [Ha Hsc].
  destruct p as [|b p].
  { exists (enter_skip c d s). rewrite zlen_nil, Z.sub_0_r. split; [constructor|done]. }
  set (q := b :: p) in *. exists (enter_skip c d (s - zlen q)).
  destruct (enter_skip_after c d (s - zlen q) Hrd). split; [|done].
  eapply runs_again; [done| |constructor]. unfold enter_skip.
  destruct (Z.eqb_spec s 0); [lia|]. destruct (Z.eqb_spec (s - zlen q) 0); [lia|].
  rewrite skip_step_part; [|unfold upd_frame; rewrite ?frame_set_eq; cbn [f_st f_skip_left upd]; done || lia..].
  unfold upd_frame. by rewrite !frame_set_eq, !set_frame_set.
Qed.

(** The header and [k] captured bytes of the body. *)
Lemma pg_part r c d ts m k :
  pg_ready c d -> pg_msg_ok m -> r_sink r = recorder -> r_oom r = [] -> 0 <= k < zlen m.2 ->
  exists r1 c1, runs o d ts (c_flags c) r c (m.1 :: put_be32 (zlen m.2 + 4) ++ ztake k m.2) (r1, c1, false) /\
    same_conn c c1 /\ r_sink r1 = recorder /\
    (k < LK_MSG_BODY_MAX -> pg_inside c1 d ts m k /\ r_ctx r1 = r_ctx r) /\
    (LK_MSG_BODY_MAX <= k -> pg_after c1 d (zlen m.2 - k) /\ delivered r r1 d (pg_out ts m)).
Proof.
  intros Hrd Hm Hr Ho Hk.
  destruct (pg_header r c d ts m (ztake k m.2) Hrd Hm Hr) as (r1 & c1 & E & Hf & Hops & Hk1 & _ & Hcons).
  assert (m.2 <> []) as Hne.
  { intros E0. apply (f_equal zlen) in E0. change (zlen m.2 = 0) in E0. lia. }
  destruct (Hcons Hne) as [Hin ->]. clear Hcons.
  destruct Hm as (_ & _ & Hl). unfold LK_PG_MSG_LEN_MAX in Hl.
  destruct (Z.lt_ge_cases k LK_MSG_BODY_MAX) as [Hlt|Hge].
  - destruct (Z.eq_dec k 0) as [->|Hk0].
    { exists r, c1. split; [|by split_and!].
      eapply runs_again; [done|exact E|]. rewrite ztake_0 by lia. constructor. }
    destruct (pg_body_part r c1 d ts m k ts Hin Ho) as (r2 & c2 & E2 & Hin2 & Hsc & Hc2 & Hk2); [lia|].
    exists r2, c2. rewrite Hf in E2. split_and!; [|by destruct Hsc; split; congruence|congruence|done|lia].
    eapply runs_again; [done|exact E|]. eapply runs_return; [|exact E2].
    intros En. apply (f_equal zlen) in En. rewrite zlen_ztake, zlen_nil in En; lia.
  - set (t := Z.min (zlen m.2) LK_MSG_BODY_MAX). unfold LK_MSG_BODY_MAX in *.
    destruct (pg_body_step r c1 d ts m 0 (ztake k m.2) ts Hin Hr) as (r2 & c2 & E2 & Hrd2 & Hsc & Hdl);
      unfold LK_MSG_BODY_MAX, LK_PG_MSG_LEN_MAX; [lia|lia| | |].
    { rewrite zlen_ztake; lia. }
    { rewrite zdrop_0 by lia. unfold ztake. rewrite take_take. f_equal. lia. }
    unfold LK_MSG_BODY_MAX in E2. rewrite Z.min_r, Z.sub_0_r in E2 by lia.
    destruct (skip_part r2 c2 d (zlen m.2 - 16384) (zdrop 16384 (ztake k m.2)) ts (c_flags c) Hrd2)
      as (c3 & Hr3 & Ha & Hsc3).
    { rewrite zlen_zdrop, zlen_ztake by lia. lia. }
    exists r2, c3. rewrite Hf in E2. split; [|split; [|split; [|split; [lia|]]]].
    + eapply runs_again; [done|exact E|]. eapply runs_again; [|exact E2|exact Hr3].
      intros En. apply (f_equal zlen) in En. rewrite zlen_ztake, zlen_nil in En; lia.
    + destruct Hsc, Hsc3. split; congruence.
    + destruct Hdl. congruence.
    + intros _. split; [|done]. rewrite zlen_zdrop, zlen_ztake in Ha by lia.
      replace (zlen m.2 - k) with (zlen m.2 - 16384 - Z.max 0 (k `min` zlen m.2 - 16384)) by lia. done.
Qed.

(** More of a header. *)
Lemma pg_header_more r c d ts ts0 m h n :
  pg_heading c d ts0 m h -> (h = 0 -> ts = ts0) -> 0 < n -> h + n < 5 ->
  exists c1, frame_step r o c d (ztake n (zdrop h (pg_hdr m))) ts (c_flags c) = Return r c1 false /\
    pg_heading c1 d ts0 m (h + n) /\ same_conn c c1.
Proof.
  intros Hh Hts Hn Hhn. unfold frame_step. rewrite (hd_st _ _ _ _ _ Hh). unfold header_step.
  destruct (pg_head_size c d ts0 m h Hh) as [-> ->]. pose proof (hd_range _ _ _ _ _ Hh) as Hh5.
  assert (zlen (zdrop h (pg_hdr m)) = 5 - h) as Hz by (rewrite zlen_zdrop by lia; change (zlen (pg_hdr m)) with 5; lia).
  rewrite zlen_ztake, Hz, ztake_ztake by lia. replace ((5 - h) `min` (n `min` (5 - h)) `min` n) with n by lia.
  unfold upd_frame. rewrite frame_set_eq, (hdr_accum_heading c d ts ts0 m h), <- ztake_add by done || lia.
  unfold hdr_len. cbn [f_hdr upd]. rewrite zlen_ztake by lia. change (zlen (pg_hdr m)) with 5.
  destruct (Z.ltb_spec ((h + n) `min` 5) 5); [|lia]. eexists. split; [done|]. split; [|apply same_conn_set].
  pose proof Hh as []. split; rewrite ?frame_set_eq; try done. lia.
Qed.

(** ** Cut anywhere *)
(** Where the direction is in the stream: in a header, in a body to capture, or in the
    uncaptured rest [l] of a delivered body (between two messages when it is empty). *)
Inductive pg_pos := Heading (ts : Z) (m : Z * list Z) (h : Z) | Inside (ts : Z) (m : Z * list Z) (k : Z) | Skipping (l : list Z).
Definition tail_of (x : pg_pos) : list Z :=
  match x with Heading _ m h => zdrop h (pg_enc m) | Inside _ m k => zdrop k m.2 | Skipping l => l end.
Definition due (x : pg_pos) : list lk_msg :=
  match x with Heading ts m _ | Inside ts m _ => [pg_out ts m] | Skipping _ => [] end.
Definition at_pos c d (x : pg_pos) : Prop :=
  match x with
  | Heading ts m h => pg_heading c d ts m h /\ pg_msg_ok m /\ h <> 0
  | Inside ts m k => pg_inside c d ts m k /\ pg_msg_ok m /\ 0 <= k < Z.min (zlen m.2) LK_MSG_BODY_MAX
  | Skipping l => pg_after c d (zlen l)
  end.
(** One iteration inside a message takes a non-empty [p0] of what is left of it. *)
Definition advances r c d x (p : list Z) (res : step_result) : Prop :=
  exists r1 c1 x1 p0 p1 out, (res = Again r1 c1 p1 \/ res = Return r1 c1 false /\ p1 = []) /\ p = p0 ++ p1 /\ p0 <> [] /\
    at_pos c1 d x1 /\ same_conn c c1 /\ r_sink r1 = recorder /\ tail_of x = p0 ++ tail_of x1 /\
    due x = out ++ due x1 /\ r_ctx r1 = r_ctx r ++ map (pair d) out.
Lemma prefix_cases (p q l rest : list Z) : p ++ q = l ++ rest ->
  (zlen p < zlen l /\ p = ztake (zlen p) l) \/ (zlen l <= zlen p /\ p = l ++ zdrop (zlen l) p).
Proof.
  intros E. destruct (Z.lt_ge_cases (zlen p) (zlen l)) as [H|H]; [left|right]; (split; [lia|]).
  - apply (f_equal (ztake (zlen p))) in E. rewrite ztake_app_le, ztake_app_le, (ztake_all _ p) in E by lia. done.
  - apply (f_equal (ztake (zlen l))) in E. rewrite ztake_app_le, ztake_app_le, (ztake_all _ l) in E by lia. rewrite <- E at 1. by rewrite ztake_zdrop.
Qed.

Lemma heading_advances r c d ts ts0 m h p q rest :
  pg_heading c d ts0 m h -> pg_msg_ok m -> (h = 0 -> ts = ts0) -> r_sink r = recorder -> p <> [] -> p ++ q = zdrop h (pg_enc m) ++ rest ->
  advances r c d (Heading ts0 m h) p (frame_step r o c d p ts (c_flags c)).
Proof.
  intros Hh Hm Hts Hr Hp E. pose proof (hd_range _ _ _ _ _ Hh) as Hh5. set (l := zdrop h (pg_hdr m)).
  assert (zlen l = 5 - h) as Hl by (unfold l; rewrite zlen_zdrop by lia; change (zlen (pg_hdr m)) with 5; lia).
  assert (zdrop h (pg_enc m) = l ++ m.2) as El by (unfold pg_enc; apply zdrop_app_le; change (zlen (pg_hdr m)) with 5; lia).
  rewrite El, <- app_assoc in E. destruct (prefix_cases _ _ _ _ E) as [[Hlt Ep]|[Hge Ep]].
  - pose proof (zlen_pos p Hp). destruct (pg_header_more r c d ts ts0 m h (zlen p) Hh Hts) as (c1 & E1 & H1 & H2); [lia..|].
    fold l in E1. rewrite <- Ep in E1. exists r, c1, (Heading ts0 m (h + zlen p)), p, [], []. split; [by right|]. rewrite app_nil_r.
    split; [done|]. split; [done|]. split; [split; [done|]; split; [done|lia]|]. split; [done|]. split; [done|]. split; [|by rewrite app_nil_r].
    cbn [tail_of]. rewrite <- zdrop_zdrop, El, zdrop_app_le, app_assoc by lia. f_equal. rewrite Ep at 1. by rewrite ztake_zdrop.
  - destruct (pg_header_rest r c d ts ts0 m h (zdrop (zlen l) p) Hh Hts Hm Hr) as (r1 & c1 & E1 & H1 & H2 & H3 & H4 & H5).
    fold l in E1. rewrite <- Ep in E1. assert (l <> []) as Hne by (intros ->; change (zlen []) with 0 in Hl; lia).
    destruct (decide (m.2 = [])) as [Em|Em].
    + destruct (H4 Em) as [H6 [H7 _]]. exists r1, c1, (Skipping []), l, (zdrop (zlen l) p), [pg_out ts0 m]. split; [by left|].
      split_and!; try done. cbn [tail_of]. by rewrite El, Em.
    + destruct (H5 Em) as [H6 ->]. exists r, c1, (Inside ts0 m 0), l, (zdrop (zlen l) p), []. split; [by left|].
      pose proof (zlen_pos m.2 Em). cbn [at_pos]. unfold LK_MSG_BODY_MAX. split_and!; try done; [lia|by rewrite app_nil_r].
Qed.
Lemma inside_advances r c d ts ts0 m k p q rest :
  at_pos c d (Inside ts0 m k) -> r_sink r = recorder -> r_oom r = [] -> p <> [] -> p ++ q = zdrop k m.2 ++ rest ->
  advances r c d (Inside ts0 m k) p (frame_step r o c d p ts (c_flags c)).
Proof.
  intros (Hin & Hm & Hk) Hr Ho Hp E. set (t := Z.min (zlen m.2) LK_MSG_BODY_MAX) in *. pose proof (zlen_pos p Hp).
  assert (zdrop k m.2 = ztake (t - k) (zdrop k m.2) ++ zdrop t m.2) as El.
  { rewrite <- (ztake_zdrop (t - k) (zdrop k m.2)) at 1. rewrite zdrop_zdrop by lia. by replace (k + (t - k)) with t by lia. }
  set (l := ztake (t - k) (zdrop k m.2)) in *. assert (zlen l = t - k) as Hl by (unfold l; rewrite zlen_ztake, zlen_zdrop; lia).
  rewrite El, <- app_assoc in E. destruct (prefix_cases _ _ _ _ E) as [[Hlt Ep]|[Hge Ep]].
  - destruct (pg_body_more r c d ts0 m k (zlen p) ts Hin Ho) as (r1 & c1 & E1 & H1 & H2 & H3 & H4); [lia..|].
    assert (ztake (zlen p) (zdrop k m.2) = p) as Ep' by (rewrite El, ztake_app_le by lia; done). rewrite Ep' in E1.
    exists r1, c1, (Inside ts0 m (k + zlen p)), p, [], []. split; [by right|]. rewrite app_nil_r. cbn [at_pos]. fold t. split_and!; try done; [lia|lia|congruence| |by rewrite app_nil_r].
    cbn [tail_of]. rewrite <- zdrop_zdrop by lia. rewrite <- Ep' at 1. by rewrite ztake_zdrop.
  - destruct Hm as (Hm1 & Hm2 & Hm3). destruct (pg_body_step r c d ts0 m k p ts Hin Hr Hk Hm3) as (r1 & c1 & E1 & H1 & H2 & H3 & H4);
      [fold t; lia|fold t l; rewrite Ep, ztake_app_le, ztake_all by lia; done|]. fold t in E1. rewrite <- Hl in E1.
    destruct (enter_skip_after c1 d (zlen m.2 - t) H1) as [H5 H6].
    exists r1, (enter_skip c1 d (zlen m.2 - t)), (Skipping (zdrop t m.2)), l, (zdrop (zlen l) p), [pg_out ts0 m]. split; [by left|].
    split; [done|]. split; [intros E0; rewrite E0 in Hl; change (zlen []) with 0 in Hl; lia|].
    split; [cbn [at_pos]; rewrite zlen_zdrop, Z.max_r by lia; done|]. split; [by trans c1|]. split; [congruence|done].
Qed.
Lemma enter_skip_at c d s : s <> 0 -> f_st (frame (enter_skip c d s) d) = LK_FR_SKIP /\ f_skip_left (frame (enter_skip c d s) d) = s.
Proof. intros Hs. unfold enter_skip. destruct (Z.eqb_spec s 0); [done|]. unfold upd_frame. by rewrite frame_set_eq. Qed.
Lemma skipping_advances r c d ts l p q rest :
  at_pos c d (Skipping l) -> r_sink r = recorder -> l <> [] -> p <> [] -> p ++ q = l ++ rest ->
  advances r c d (Skipping l) p (frame_step r o c d p ts (c_flags c)).
Proof.
  intros Ha Hr Hl Hp E. pose proof (zlen_pos l Hl). pose proof (zlen_pos p Hp). cbn [at_pos] in Ha. unfold pg_after in Ha. destruct (Z.eqb_spec (zlen l) 0); [lia|].
  destruct Ha as (c0 & Hrd & ->). destruct (enter_skip_at c0 d (zlen l) ltac:(lia)) as [Hst Hsk].
  destruct (prefix_cases _ _ _ _ E) as [[Hlt Ep]|[Hge Ep]].
  - assert (frame_step r o (enter_skip c0 d (zlen l)) d p ts (c_flags (enter_skip c0 d (zlen l))) = Again r (enter_skip c0 d (zlen l - zlen p)) []) as E1.
    { rewrite skip_step_part by (done || lia). unfold enter_skip. destruct (Z.eqb_spec (zlen l) 0); [lia|]. destruct (Z.eqb_spec (zlen l - zlen p) 0); [lia|]. unfold upd_frame. by rewrite !frame_set_eq, !set_frame_set. }
    destruct (enter_skip_after c0 d (zlen l) Hrd) as [_ S1], (enter_skip_after c0 d (zlen l - zlen p) Hrd) as [A2 S2].
    exists r, (enter_skip c0 d (zlen l - zlen p)), (Skipping (zdrop (zlen p) l)), p, [], []. split; [by left|]. rewrite app_nil_r. split; [done|]. split; [done|]. split; [|split; [|split; [done|split; [|split; [done|]]]]].
    + cbn [at_pos]. rewrite zlen_zdrop, Z.max_r by lia. done.
    + destruct S1, S2. split; congruence.
    + cbn [tail_of]. rewrite Ep at 1. by rewrite ztake_zdrop.
    + by rewrite app_nil_r.
  - pose proof (skip_step_all r (enter_skip c0 d (zlen l)) d l (zdrop (zlen l) p) ts (c_flags (enter_skip c0 d (zlen l))) Hst Hsk) as E1. rewrite <- Ep in E1.
    eexists r, _, (Skipping []), l, (zdrop (zlen l) p), []. split; [left; exact E1|]. split_and!; try done; [|by destruct d..|cbn; by rewrite app_nil_r|by rewrite app_nil_r].
    destruct Hrd. unfold enter_skip. destruct (Z.eqb_spec (zlen l) 0); [lia|]. by split; unfold upd_frame; rewrite !frame_set_eq.
Qed.

(** What is still to be delivered when the bytes to come carry the times [T]. *)
Definition owed x (T : list Z) (ms : list (Z * list Z)) : list lk_msg := due x ++ pg_timed (drop (length (tail_of x)) T) ms.
Lemma pos_advances r c d ts x ms p q :
  at_pos c d x -> Forall pg_msg_ok ms -> r_sink r = recorder -> r_oom r = [] -> p <> [] -> p ++ q = tail_of x ++ pg_stream ms ->
  exists x' ms', advances r c d x' p (frame_step r o c d p ts (c_flags c)) /\ Forall pg_msg_ok ms' /\ tail_of x ++ pg_stream ms = tail_of x' ++ pg_stream ms' /\
    forall T, owed x (ts :: T) ms = owed x' (ts :: T) ms'.
Proof.
  intros Ha Hms Hr Ho Hp E. destruct x as [ts0 m h|ts0 m k|l].
  - destruct Ha as (Hh & Hm & H0). exists (Heading ts0 m h), ms. split; [by eapply heading_advances|done].
  - exists (Inside ts0 m k), ms. split; [by eapply inside_advances|done].
  - destruct l as [|b l]; [|exists (Skipping (b :: l)), ms; split; [by eapply skipping_advances|done]].
    destruct ms as [|m ms]; [by apply app_nil in E as [? _]|]. inversion Hms as [|? ? Hm Hms']; subst.
    exists (Heading ts m 0), ms. split; [|done]. cbn [at_pos] in Ha. eapply heading_advances; try done; [by apply pg_ready_heading|].
    cbn [tail_of] in E |- *. exact E.
Qed.
Lemma owed_advance x x1 ts n T ms : (length (tail_of x) = n + length (tail_of x1))%nat -> forall out, due x = out ++ due x1 ->
  owed x (replicate n ts ++ T) ms = out ++ owed x1 T ms.
Proof.
  intros Hn out Hd. unfold owed. rewrite Hd, <- app_assoc. do 3 f_equal. rewrite drop_app_ge, length_replicate by (rewrite length_replicate; lia). f_equal. lia.
Qed.
(** A chunk that is a prefix of what is to come. *)
Lemma pg_chunk d ts n : forall r c x ms p q,
  (length p <= n)%nat -> at_pos c d x -> Forall pg_msg_ok ms -> r_sink r = recorder -> r_oom r = [] -> p ++ q = tail_of x ++ pg_stream ms ->
  exists r1 c1 x1 ms1 out, runs o d ts (c_flags c) r c p (r1, c1, false) /\ at_pos c1 d x1 /\ Forall pg_msg_ok ms1 /\ same_conn c c1 /\
    r_sink r1 = recorder /\ r_oom r1 = [] /\ q = tail_of x1 ++ pg_stream ms1 /\ r_ctx r1 = r_ctx r ++ map (pair d) out /\
    forall T, owed x (replicate (length p) ts ++ T) ms = out ++ owed x1 T ms1.
Proof.
  induction n as [|n IH]; intros r c x ms p q Hn Ha Hms Hr Ho E; destruct (decide (p = [])) as [->|Hp].
  1, 3: exists r, c, x, ms, []; split; [constructor|]; split_and!; try done; by rewrite app_nil_r.
  { destruct p; [done|]. cbn in Hn. lia. }
  destruct (pos_advances r c d ts x ms p q Ha Hms Hr Ho Hp E) as (x' & ms' & (r1 & c1 & x1 & p0 & p1 & out & Hres & -> & H0 & Ha1 & Hsc & Hr1 & Hl & Hd & Hctx) & Hms' & Ex & Eo).
  pose proof (step_oom o r c d (p0 ++ p1) ts (c_flags c) Ho) as Ho1. assert (r_oom r1 = []) as Ho1' by (destruct Hres as [Hres|[Hres _]]; by rewrite Hres in Ho1).
  rewrite Ex, Hl, <- !app_assoc in E. apply app_inv_head in E.
  destruct (IH r1 c1 x1 ms' p1 q) as (r2 & c2 & x2 & ms2 & out2 & R2 & Ha2 & Hms2 & Hsc2 & Hr2 & Ho2 & Eq2 & Hctx2 & Eo2); [rewrite length_app in Hn; destruct p0; [done|]; cbn in Hn; lia|done..|].
  exists r2, c2, x2, ms2, (out ++ out2). split.
  { destruct Hres as [Hres|[Hres ->]]; [eapply runs_again; [done|exact Hres|]; by rewrite (proj1 Hsc) in R2|].
    inversion R2; subst; [|done..]. by eapply runs_return. }
  split; [done|]. split; [done|]. split; [by trans c1|]. split; [done|]. split; [done|]. split; [done|]. split; [by rewrite Hctx2, Hctx, map_app, app_assoc|].
  intros T. destruct p0 as [|b p0]; [done|]. rewrite length_app, replicate_add, <- app_assoc, <- app_assoc, <- Eo2. cbn [length replicate app]. rewrite Eo.
  change (ts :: replicate (length p0) ts ++ replicate (length p1) ts ++ T) with (replicate (length (b :: p0)) ts ++ replicate (length p1) ts ++ T).
  apply owed_advance; [by rewrite Hl, length_app|done].
Qed.


(** ** Holes *)
Lemma pg_hole_inside r c d ts m k n :
  pg_inside c d ts m k -> r_sink r = recorder -> 0 <= k < zlen m.2 -> 0 < n <= zlen m.2 - k ->
  zlen m.2 + 4 <= LK_PG_MSG_LEN_MAX ->
  exists r1 c1, hole_loop hole_fuel r o c d n (c_flags c) = Some (r1, c1) /\
    pg_after c1 d (zlen m.2 - k - n) /\ same_conn c c1 /\ delivered r r1 d (pg_delivered ts k m).
Proof.
  intros Hin Hr Hk Hn Hl. unfold LK_PG_MSG_LEN_MAX in Hl.
  destruct (pg_emit_reset r c d ts m k k Hin Hr ltac:(lia))
    as (r0 & c0 & r1 & c1 & E0 & E1 & Hrd & Hsc & Hdl).
  destruct (enter_skip_after c1 d (zlen m.2 - k - n) Hrd) as [Ha Hsc2].
  exists r1, (enter_skip c1 d (zlen m.2 - k - n)). split; [|split; [done|split; [by trans c1|done]]].
  unfold hole_fuel. rewrite hole_loop_S. cbv zeta. destruct (Z.eqb_spec n 0); [lia|].
  destruct Hin. rewrite in_st0. unfold hole_body. rewrite in_cont0, in_closed0, in_len0, in_buf0.
  unfold buf_len. rewrite in_buf0, zlen_ztake, Z.min_l, u64_small by lia. rewrite E0, E1.
  replace (if zlen m.2 - k <? n then zlen m.2 - k else n) with n by (destruct (Z.ltb_spec (zlen m.2 - k) n); lia).
  replace (if n <? zlen m.2 - k then enter_skip c1 d (zlen m.2 - k - n) else c1)
    with (enter_skip c1 d (zlen m.2 - k - n)).
  2:{ destruct (Z.ltb_spec n (zlen m.2 - k)); [done|]. unfold enter_skip.
      destruct (Z.eqb_spec (zlen m.2 - k - n) 0); [done|lia]. }
  unfold went_blind. rewrite (proj1 Hsc2), (proj1 Hsc), orb_negb_r. cbn [negb].
  rewrite Z.sub_diag, hole_loop_S. done.
Qed.

Lemma pg_hole_skip r c d s n ef :
  pg_after c d s -> 0 < n <= s ->
  exists c1, hole_loop hole_fuel r o c d n ef = Some (r, c1) /\ pg_after c1 d (s - n) /\ same_conn c c1.
Proof.
  intros Ha Hn. unfold pg_after in Ha. destruct (Z.eqb_spec s 0); [lia|]. destruct Ha as (c0 & Hrd & ->).
  unfold hole_fuel. rewrite hole_loop_S. cbv zeta. destruct (Z.eqb_spec n 0); [lia|].
  assert (forall c, f_st (frame (enter_skip c d s) d) = LK_FR_SKIP /\
                    f_skip_left (frame (enter_skip c d s) d) = s) as Hes.
  { intros. unfold enter_skip. destruct (Z.eqb_spec s 0); [done|]. unfold upd_frame. by rewrite frame_set_eq. }
  destruct (Hes c0) as [-> ->]. rewrite Z.min_r, Z.sub_diag by lia. rewrite hole_loop_S. cbv zeta. cbn [Z.eqb].
  destruct (Z.eqb_spec (s - n) 0) as [E|E].
  - eexists. split; [done|]. split; [|by unfold enter_skip; destruct (s =? 0), d].
    rewrite E. unfold pg_after; cbn [Z.eqb]. unfold enter_skip. destruct (Z.eqb_spec s 0); [lia|].
    destruct Hrd. split; rewrite frame_set_eq; unfold upd_frame; rewrite ?frame_set_eq; done.
  - eexists. split; [done|]. split; [|by unfold enter_skip; destruct (s =? 0), d].
    unfold pg_after. destruct (Z.eqb_spec (s - n) 0); [lia|]. exists c0. split; [done|].
    unfold enter_skip. destruct (Z.eqb_spec s 0); [lia|]. destruct (Z.eqb_spec (s - n) 0); [lia|].
    unfold upd_frame. by rewrite frame_set_eq, set_frame_set.
Qed.

(** ** The chunk entry points *)
Section Entry.
Context (stream : proto_id -> lk_proto_ops log P F).
Abbreviation vt := (registry stream).
Abbreviation swf := (state_wf o (proto_is PROTO_PG)).

Lemma pg_bytes r c d p ts r1 c1 a :
  swf r c -> has_flag (c_flags c) LK_CONN_SSL_REPLY = false -> bytes_ok p ->
  runs o d ts (c_flags c) r c p (r1, c1, a) ->
  lk_frame_bytes vt r c d p ts = Some (r1, c1) /\ swf r1 c1.
Proof.
  intros Hw Hs Hb Hr.
  destruct (frame_bytes_ok vt PROTO_PG eq_refl (proto_is PROTO_PG) (fun _ _ H => H) r c d p ts Hw Hb) as (r' & c' & E & Hw').
  pose proof E as E'. unfold lk_frame_bytes in E.
  rewrite (swf_conn_ops vt PROTO_PG (proto_is PROTO_PG) (fun _ _ H => H) _ _ Hw) in E. cbn [registry lk_proto_pg_ops po_flags intercept_bytes] in E.
  change (has_flag 0 LK_PROTO_F_STREAM) with false in E. cbv iota in E.
  assert (forall b q, pg_intercept_bytes r c d (b :: q) ts = (true, r, c, b :: q)) as Hi.
  { intros. unfold pg_intercept_bytes. rewrite Hs. by destruct d. }
  replace (match p with [] => (true, r, c, p) | _ :: _ => pg_intercept_bytes r c d p ts end)
    with (true, r, c, p) in E by (destruct p; by rewrite ?Hi).
  destruct (frame_loop _ _ _ _ _ _ _ _) as [[[r2 c2] a2]|] eqn:El; [|done]. cbn in E. simplify_eq.
  apply loop_runs in El. pose proof (runs_det _ _ _ _ _ _ _ _ _ El Hr). by simplify_eq.
Qed.

Lemma pg_hole r c d n :
  swf r c -> has_flag (c_flags c) LK_CONN_SSL_REPLY = false -> 0 < n ->
  f_st (frame c d) <> LK_FR_DIRTY ->
  lk_frame_hole vt r c d n = hole_loop hole_fuel (count_hole r n) o c d n (c_flags c).
Proof.
  intros Hw Hs Hn Hd. unfold lk_frame_hole. rewrite (swf_conn_ops vt PROTO_PG (proto_is PROTO_PG) (fun _ _ H => H) _ _ Hw).
  destruct (Z.eqb_spec n 0); [lia|]. cbn [registry lk_proto_pg_ops po_flags intercept_hole].
  change (has_flag 0 LK_PROTO_F_STREAM) with false. cbv iota.
  assert (pg_intercept_hole r c d = (false, r, c)) as ->
    by (unfold pg_intercept_hole; rewrite Hs; by destruct d).
  by destruct (f_st (frame c d)).
Qed.

Lemma pg_enc_ok m : pg_msg_ok m -> bytes_ok (pg_enc m).
Proof.
  intros (? & ? & ?). unfold pg_enc. apply Forall_cons_2; [done|]. apply bytes_ok_app. auto with lk.
Qed.
Lemma pg_stream_ok ms : Forall pg_msg_ok ms -> bytes_ok (pg_stream ms).
Proof.
  induction 1 as [|m ms Hm _ IH]; [apply bytes_ok_nil|]. apply bytes_ok_app. by auto using pg_enc_ok.
Qed.

(** The message of which the capture saw the header and [k] body bytes, then a hole. *)
Lemma pg_part_hole r c d ts m k n :
  pg_ready c d -> pg_msg_ok m -> r_sink r = recorder -> r_oom r = [] -> 0 <= k -> 0 < n ->
  k + n <= zlen m.2 ->
  exists r1 c1 r2 c2,
    runs o d ts (c_flags c) r c (ztake (5 + k) (pg_enc m)) (r1, c1, false) /\
    f_st (frame c1 d) <> LK_FR_DIRTY /\ same_conn c c1 /\
    hole_loop hole_fuel (count_hole r1 n) o c1 d n (c_flags c1) = Some (r2, c2) /\
    pg_after c2 d (zlen m.2 - k - n) /\ same_conn c c2 /\
    delivered r r2 d (pg_delivered ts (Z.min k LK_MSG_BODY_MAX) m).
Proof.
  intros Hrd Hm Hr Ho Hk Hn Hkn.
  destruct (pg_part r c d ts m k Hrd Hm Hr Ho ltac:(lia)) as (r1 & c1 & Hruns & Hsc & Hk1 & Hlo & Hhi).
  assert (ztake (5 + k) (pg_enc m) = m.1 :: put_be32 (zlen m.2 + 4) ++ ztake k m.2) as ->.
  { unfold pg_enc. change (m.1 :: put_be32 (zlen m.2 + 4) ++ ztake k m.2) with (pg_hdr m ++ ztake k m.2).
    rewrite ztake_app_ge; change (zlen (pg_hdr m)) with 5; [|lia]. by replace (5 + k - 5) with k by lia. }
  destruct Hm as (_ & _ & Hl). exists r1, c1. unfold LK_MSG_BODY_MAX in *.
  destruct (Z.lt_ge_cases k 16384) as [Hlt|Hge].
  - destruct (Hlo Hlt) as [Hin Hctx].
    destruct (pg_hole_inside (count_hole r1 n) c1 d ts m k n Hin Hk1) as (r2 & c2 & E & Ha & Hs2 & Hd1 & Hd2); [lia..|].
    exists r2, c2. rewrite Z.min_l by lia. split_and!; [done|by destruct Hin as [-> _]|done|done|done|by trans c1|].
    split; [rewrite <- Hctx; exact Hd1|rewrite Hr, <- Hk1; exact Hd2].
  - destruct (Hhi Hge) as [Ha Hd].
    destruct (pg_hole_skip (count_hole r1 n) c1 d (zlen m.2 - k) n (c_flags c1) Ha) as (c2 & E & Ha2 & Hs2); [lia|].
    eexists _, c2. split_and!; [done| |done|exact E|done|by trans c1|].
    + unfold pg_after in Ha. destruct (Z.eqb_spec (zlen m.2 - k) 0); [lia|]. destruct Ha as (c0 & _ & ->).
      unfold enter_skip. destruct (Z.eqb_spec (zlen m.2 - k) 0); [lia|]. unfold upd_frame. by rewrite frame_set_eq.
    + destruct Hd as [Hd1 Hd2]. unfold pg_out, LK_MSG_BODY_MAX in Hd1.
      rewrite Z.min_r in Hd1 by lia. rewrite Z.min_r by lia. done.
Qed.

(** The chunks of a capture, each with its time, one call each. *)
Fixpoint pg_feed r c d (chunks : list (Z * list Z)) : option (reasm * conn) :=
  match chunks with
  | [] => Some (r, c)
  | ch :: chunks => '(r, c) ← lk_frame_bytes vt r c d ch.2 ch.1; pg_feed r c d chunks
  end.
(** At the end of the stream the direction is between two messages. *)
Lemma pos_end c d x ms : at_pos c d x -> tail_of x ++ pg_stream ms = [] -> x = Skipping [] /\ ms = [] /\ pg_ready c d.
Proof.
  intros Ha E. apply app_nil in E as [E1 E2]. assert (ms = []) as -> by by destruct ms. destruct x as [ts m h|ts m k|l]; cbn [tail_of] in E1; [| |by subst]; exfalso; apply (f_equal zlen) in E1.
  - destruct Ha as (Hh & _). pose proof (hd_range _ _ _ _ _ Hh). rewrite zlen_zdrop in E1 by lia. unfold pg_enc in E1. rewrite zlen_app in E1. change (zlen (pg_hdr m)) with 5 in E1. change (zlen (A:=Z) []) with 0 in E1. pose proof (zlen_nonneg m.2). lia.
  - destruct Ha as (_ & _ & Hk). rewrite zlen_zdrop in E1 by lia. change (zlen (A:=Z) []) with 0 in E1. unfold LK_MSG_BODY_MAX in Hk. lia.
Qed.
Lemma pg_feed_chunks d chunks : forall r c x ms,
  swf r c -> has_flag (c_flags c) LK_CONN_SSL_REPLY = false -> at_pos c d x -> Forall pg_msg_ok ms -> r_sink r = recorder -> r_oom r = [] ->
  bytes_ok (concat (map snd chunks)) -> concat (map snd chunks) = tail_of x ++ pg_stream ms ->
  exists r1 c1 x1 ms1, pg_feed r c d chunks = Some (r1, c1) /\ at_pos c1 d x1 /\ tail_of x1 ++ pg_stream ms1 = [] /\
    r_ctx r1 = r_ctx r ++ map (pair d) (owed x (stamps chunks) ms).
Proof.
  induction chunks as [|[ts p] chunks IH]; intros r c x ms Hw Hs Ha Hms Hr Ho Hb E; cbn [map concat snd] in *.
  - exists r, c, x, ms. split; [done|]. split; [done|]. split; [done|]. destruct (pos_end c d x ms Ha (eq_sym E)) as (-> & -> & _). by rewrite app_nil_r.
  - apply bytes_ok_app in Hb as [Hb1 Hb2].
    destruct (pg_chunk d ts (length p) r c x ms p (concat (map snd chunks)) ltac:(lia) Ha Hms Hr Ho E) as (r1 & c1 & x1 & ms1 & out & R & Ha1 & Hms1 & [Hf1 Hp1] & Hr1 & Ho1 & E1 & Hctx & Hout).
    destruct (pg_bytes r c d p ts r1 c1 false Hw Hs Hb1 R) as [E2 Hw1].
    destruct (IH r1 c1 x1 ms1 Hw1 ltac:(congruence) Ha1 Hms1 Hr1 Ho1 Hb2 E1) as (r2 & c2 & x2 & ms2 & E3 & Ha2 & E4 & Hctx2).
    exists r2, c2, x2, ms2. cbn [pg_feed fst snd]. rewrite E2. cbn [mbind option_bind]. split; [done|]. split; [done|]. split; [done|].
    rewrite Hctx2, Hctx, <- app_assoc, <- map_app. do 2 f_equal. unfold stamps. cbn [map concat fst snd]. by rewrite Hout.
Qed.

(** C2: Round trip.  Whatever list of PostgreSQL messages is written to a direction past
    the startup phase and between two messages, and however the capture cuts the bytes
    into chunks, inside headers and bodies included, the framer delivers exactly those
    messages, in order, once each, with their types, lengths and bodies (bodies above
    [LK_MSG_BODY_MAX] cut to it and flagged) and the time of the chunk that held their
    first byte, and ends between two messages; allocations succeed. *)
Theorem pg_stream_roundtrip r c d ms chunks :
  swf r c -> pg_ready c d -> r_sink r = recorder -> r_oom r = [] ->
  has_flag (c_flags c) LK_CONN_SSL_REPLY = false -> Forall pg_msg_ok ms -> concat (map snd chunks) = pg_stream ms ->
  exists r1 c1, pg_feed r c d chunks = Some (r1, c1) /\
    r_ctx r1 = r_ctx r ++ map (pair d) (pg_timed (stamps chunks) ms) /\ pg_ready c1 d.
Proof.
  intros Hw Hrd Hr Ho Hs Hms E. destruct (pg_feed_chunks d chunks r c (Skipping []) ms Hw Hs Hrd Hms Hr Ho) as (r1 & c1 & x1 & ms1 & E1 & Ha & E2 & Hctx);
    [rewrite E; by apply pg_stream_ok|done|]. exists r1, c1. split; [done|]. split; [exact Hctx|]. by apply (pos_end c1 d x1 ms1 Ha E2).
Qed.

(** A hole keeps sync.  When [n] bytes of a message's body are missing from
    the capture after its header and [k] body bytes were seen, the consumer gets
    that message once, cut to the [k] captured bytes and flagged truncated, and
    every message after it intact. *)
Theorem pg_hole_keeps_sync r c d ts m ms k n :
  swf r c -> pg_ready c d -> r_sink r = recorder -> r_oom r = [] ->
  has_flag (c_flags c) LK_CONN_SSL_REPLY = false -> Forall pg_msg_ok (m :: ms) ->
  0 <= k -> 0 < n -> k + n <= zlen m.2 ->
  exists r1 c1 r2 c2 r3 c3,
    lk_frame_bytes vt r c d (ztake (5 + k) (pg_enc m)) ts = Some (r1, c1) /\
    lk_frame_hole vt r1 c1 d n = Some (r2, c2) /\
    lk_frame_bytes vt r2 c2 d (zdrop (k + n) m.2 ++ pg_stream ms) ts = Some (r3, c3) /\
    r_ctx r3 = r_ctx r ++ (d, pg_delivered ts (Z.min k LK_MSG_BODY_MAX) m)
                       :: map (fun m => (d, pg_out ts m)) ms /\ pg_ready c3 d.
Proof.
  intros Hw Hrd Hr Ho Hs Hms Hk Hn Hkn. inversion Hms as [|? ? Hm Hms']; subst.
  destruct (pg_part_hole r c d ts m k n Hrd Hm Hr Ho Hk Hn Hkn)
    as (r1 & c1 & r2 & c2 & R1 & Hnd & [Hf1 Hp1] & E2 & Ha2 & [Hf2 Hp2] & Hd2 & Hk2).
  destruct (fun Hb => pg_bytes r c d _ ts _ _ _ Hw Hs Hb R1) as [E1 Hw1];
    [by apply bytes_ok_take, pg_enc_ok|].
  assert (lk_frame_hole vt r1 c1 d n = Some (r2, c2)) as E2' by (rewrite pg_hole; [done..|congruence|done|done]).
  destruct (frame_hole_ok vt PROTO_PG eq_refl (proto_is PROTO_PG) (fun _ _ H => H) r1 c1 d n Hw1 ltac:(lia)) as (r2' & c2' & E & Hw2).
  rewrite E2' in E. simplify_eq.
  destruct (skip_after r2' c2' d _ (zdrop (k + n) m.2) (pg_stream ms) ts (c_flags c2') Ha2)
    as (c3 & Hrd3 & [Hf3 _] & Hruns).
  { rewrite zlen_zdrop by lia. lia. }
  destruct (pg_many c3 d ts ms r2' Hrd3 Hms' ltac:(congruence)) as (r4 & c4 & R4 & Hrd4 & _ & _ & Hd4).
  rewrite Hf3 in R4. apply Hruns in R4.
  destruct (fun Hb => pg_bytes r2' c2' d _ ts _ _ _ Hw2 ltac:(congruence) Hb R4) as [E4 _].
  { apply bytes_ok_app. split; [apply bytes_ok_drop, Hm|by apply pg_stream_ok]. }
  exists r1, c1, r2', c2', r4, c4. split_and!; [done..| |done].
  rewrite Hd4, Hd2, <- app_assoc. done.
Qed.
End Entry.
End PgStream.

(** ** Witnesses: a backend stream of two messages, and one of 6 bytes with a
    4-byte hole in it. *)
Definition ex_vt : proto_id -> lk_proto_ops log unit unit := registry (fun _ => lk_proto_pg_ops).
Definition ex_reasm : lk_reasm log unit unit := lk_reasm_init [] recorder [].
Definition ex_conn : lk_conn unit unit := conn0 1 <| c_ops := Some PROTO_PG |>.

Lemma ex_swf : state_wf lk_proto_pg_ops (proto_is PROTO_PG) ex_reasm ex_conn.
Proof.
  pose proof (framer_swf ex_vt PROTO_PG (proto_is PROTO_PG) ex_reasm ex_conn eq_refl) as H. apply H; [|done].
  apply (framer_init_wf (fun _ => lk_proto_pg_ops)); [done|apply recorder_laws].
Qed.
Lemma ex_ready : pg_ready ex_conn LK_DIR_SEND.
Proof. done. Qed.

Definition ex_chunks : list (Z * list Z) := [(7, [90; 0; 0]); (8, [0; 5]); (9, [73; 73; 0; 0; 0; 4])].
Lemma pg_stream_roundtrip_witness :
  exists r1 c1, pg_feed (fun _ => lk_proto_pg_ops) ex_reasm ex_conn LK_DIR_SEND ex_chunks = Some (r1, c1) /\
    r_ctx r1 = [] ++ [(LK_DIR_SEND, Msg 7 90 0 5 [73]); (LK_DIR_SEND, Msg 9 73 0 4 [])] /\
    pg_ready c1 LK_DIR_SEND.
Proof.
  apply (pg_stream_roundtrip (fun _ => lk_proto_pg_ops) ex_reasm ex_conn LK_DIR_SEND
    [(90, [73]); (73, [])] ex_chunks); [exact ex_swf|exact ex_ready|reflexivity|reflexivity|reflexivity| |reflexivity].
  concrete.
Defined.

Lemma pg_hole_keeps_sync_witness :
  exists r1 c1 r2 c2 r3 c3,
    lk_frame_bytes ex_vt ex_reasm ex_conn LK_DIR_SEND [68; 0; 0; 0; 10; 1] 7 = Some (r1, c1) /\
    lk_frame_hole ex_vt r1 c1 LK_DIR_SEND 4 = Some (r2, c2) /\
    lk_frame_bytes ex_vt r2 c2 LK_DIR_SEND [6; 90; 0; 0; 0; 5; 73] 7 = Some (r3, c3) /\
    r_ctx r3 = [] ++ [(LK_DIR_SEND, Msg 7 68 LK_MSG_BODY_TRUNC 10 [1]);
                      (LK_DIR_SEND, Msg 7 90 0 5 [73])] /\ pg_ready c3 LK_DIR_SEND.
Proof.
  apply (pg_hole_keeps_sync (fun _ => lk_proto_pg_ops) ex_reasm ex_conn LK_DIR_SEND 7
    (68, [1; 2; 3; 4; 5; 6]) [(90, [73])] 1 4);
    [exact ex_swf|exact ex_ready|reflexivity..| |concrete|concrete|concrete].
  concrete.
Defined.
