(* ===== verification/Pipeline.v ===== *)
(** The event path, [agent/pipeline.c]: decode one ringbuf record and route it
    through the connection table and the framer.

    The framer's sink context is one object, reached both from the framer and
    from the table's destroy hook; it lives in [p_reasm], and a table operation
    borrows it for the time of the call ([with_conns]). *)
From stdpp Require Import base list option gmap.
From S2P Require Import Prelude Conn ConnTable Reassembly Decode.
#[local] Open Scope Z_scope.

Record lk_pipeline (S P F : Type) := Pipe {
  p_conns : lk_conn_table S P F; p_reasm : lk_reasm S P F }.
Arguments Pipe {S P F}. Arguments p_conns {S P F}. Arguments p_reasm {S P F}.
#[global] Instance pipe_upd S P F : Updatable (lk_pipeline S P F) := fun p =>
  Pipe (p_conns p) (p_reasm p).

(** [struct lk_pipeline_ev]; [pe_conn] is the entry's address. *)
Record lk_pipeline_ev := PipeEv {
  pe_status : lk_decode_status; pe_view : lk_ev_view; pe_conn : option loc; pe_lost : Z;
  pe_tls_now : bool; pe_tls_socket_dropped : bool; pe_decrypted_early : bool }.
#[global] Instance pipe_ev_upd : Updatable lk_pipeline_ev := fun e =>
  PipeEv (pe_status e) (pe_view e) (pe_conn e) (pe_lost e) (pe_tls_now e)
         (pe_tls_socket_dropped e) (pe_decrypted_early e).

Section Pipeline.
Context {S P F : Type} (vtable : proto_id -> lk_proto_ops S P F).
Abbreviation pipeline := (lk_pipeline S P F).
Abbreviation table := (lk_conn_table S P F).
Abbreviation conn := (lk_conn P F).
Implicit Types (p : pipeline) (t : table).

(** The table's removal hook forwards to the sink's close callback. *)
Definition pipeline_on_destroy (k : lk_msg_sink S P F) (s : S) (c : conn) : S * conn :=
  match on_conn_close k with Some cb => cb s c | None => (s, c) end.

(** Lend the sink context to the table. *)
Definition with_conns {A} p (op : table -> option (A * table)) : option (A * pipeline) :=
  '(a, t) ← op (p_conns p <| t_ctx := r_ctx (p_reasm p) |>);
  Some (a, Pipe t (p_reasm p <| r_ctx := t_ctx t |>)).

Definition lk_pipeline_init (ctx : S) (max_conns idle_timeout_ns : Z) (sink : lk_msg_sink S P F)
    (oom_t oom_r : list bool) : option (option pipeline) :=
  o ← lk_conn_table_new ctx max_conns idle_timeout_ns oom_t;
  Some (t ← o;
        Some (Pipe (lk_conn_table_on_destroy t (Some (pipeline_on_destroy sink)) ctx)
                   (lk_reasm_init ctx sink oom_r))).

Definition lk_pipeline_fini p : option pipeline :=
  '(_, p) ← with_conns p (fun t => t ← lk_conn_table_free t; Some (tt, t));
  Some (p <| p_reasm ::= lk_reasm_free |>).

(** [lk_reasm_data(&p->reasm, c, dir, data, cap_len)] on a table entry. *)
Definition frame_at p (c : loc) (dir : lk_dir) (ev : lk_ev_data) (cap_len : Z) : option pipeline :=
  cn ← conn_at (p_conns p) c;
  '(r, cn) ← lk_reasm_data vtable (p_reasm p) cn dir ev cap_len;
  t ← upd_conn (p_conns p) c (fun _ => cn);
  Some (Pipe t r).

Definition feed_conn p (h : lk_ev_hdr) (e : lk_ev_conn) (out : lk_pipeline_ev) :
    option (pipeline * lk_pipeline_ev) :=
  if h_type h =? LK_EV_CONN_CLOSE then
    '(lost, p) ← with_conns p (fun t => lk_conn_table_close t (h_conn_id h) (h_seq h) (h_ts_ns h));
    Some (p, out <| pe_lost := lost |>)
  else
    '(c, lost, p) ← with_conns p (fun t =>
       lk_conn_table_open t (h_conn_id h) (h_seq h) (h_ts_ns h) (ec_tuple e)
                          (has_flag (h_flags h) LK_F_SYNTHETIC));
    Some (p, out <| pe_conn := c |> <| pe_lost := lost |>).

(** Plaintext from an SSL uprobe. *)
Definition feed_decrypted p (h : lk_ev_hdr) (d : lk_ev_data) (cap_len : Z) (out : lk_pipeline_ev) :
    option (pipeline * lk_pipeline_ev) :=
  '(o, lost, p) ← with_conns p (fun t =>
     lk_conn_table_data_decrypted t (h_conn_id h) (h_seq h) (h_ts_ns h));
  let out := out <| pe_conn := o |> <| pe_lost := lost |> in
  match o with
  | None => Some (p, out)
  | Some c =>
      cn ← conn_at (p_conns p) c;
      let early := negb (has_flag (c_flags cn) LK_CONN_TLS) in
      p ← (if early then
             t ← upd_conn (p_conns p) c (fun cn => lk_conn_tls_reset_framing
                   (cn <| c_flags ::= fun w => set_flag w LK_CONN_TLS |>) true);
             Some (p <| p_conns := lk_conn_table_note_tls_open t |>)
           else Some p);
      p ← frame_at p c (dir_of h) d cap_len;
      Some (p, out <| pe_decrypted_early := early |>)
  end.

(** A plaintext socket event of a connection that is not TLS. *)
Definition feed_plain p (h : lk_ev_hdr) (d : lk_ev_data) (cap_len : Z) (out : lk_pipeline_ev) :
    option (pipeline * lk_pipeline_ev) :=
  '(o, lost, p) ← with_conns p (fun t =>
     lk_conn_table_data t (h_conn_id h) (h_seq h) (h_ts_ns h));
  let out := out <| pe_conn := o |> <| pe_lost := lost |> in
  match o with
  | None => Some (p, out)
  | Some c =>
      cn ← conn_at (p_conns p) c;
      let was_tls := has_flag (c_flags cn) LK_CONN_TLS in
      p ← frame_at p c (dir_of h) d cap_len;
      cn ← conn_at (p_conns p) c;
      let tls_now := negb was_tls && has_flag (c_flags cn) LK_CONN_TLS in
      p ← (if tls_now then
             t ← upd_conn (p_conns p) c (fun cn => lk_conn_tls_reset_framing cn false);
             Some (p <| p_conns := lk_conn_table_note_tls_open t |>)
           else Some p);
      Some (p, out <| pe_tls_now := tls_now |>)
  end.

Definition feed_data p (h : lk_ev_hdr) (d : lk_ev_data) (cap_len : Z) (out : lk_pipeline_ev) :
    option (pipeline * lk_pipeline_ev) :=
  let decrypted := has_flag (h_flags h) LK_F_DECRYPTED in
  o ← lk_conn_table_peek (p_conns p) (h_conn_id h);
  cipher ← (match o with
            | Some c => cn ← conn_at (p_conns p) c;
                        Some (if has_flag (c_flags cn) LK_CONN_TLS && negb decrypted
                              then Some c else None)
            | None => Some None
            end);
  match cipher with
  | Some c =>
      t ← lk_conn_table_note_tls_drop (p_conns p) c (h_seq h) (h_ts_ns h);
      Some (p <| p_conns := t |>, out <| pe_conn := Some c |> <| pe_tls_socket_dropped := true |>)
  | None => if decrypted then feed_decrypted p h d cap_len out else feed_plain p h d cap_len out
  end.

Definition lk_pipeline_feed p (data : list Z) : option (pipeline * lk_pipeline_ev) :=
  let '(status, v) := lk_ev_decode data in
  let out := PipeEv status v None 0 false false false in
  match status, v_hdr v, v_conn v, v_data v with
  | LK_DEC_CONN, Some h, Some e, _ => feed_conn p h e out
  | LK_DEC_DATA, Some h, _, Some d => feed_data p h d (v_cap_len v) out
  | _, _, _, _ => Some (p, out)
  end.
End Pipeline.
