(* ===== verification/PipelineFacts.v ===== *)
(** The event path end to end: any sequence of ringbuf records, well formed or
    not, is processed without a stuck state, within the memory bounds, and the
    TLS gauge is the number of TLS connections tracked. *)
From stdpp Require Import base list option gmap.
From S2P Require Import Prelude Conn ConnTable ConnTableFacts ConnTableOps ConnTableProps Reassembly Framer FramerFacts FramerData Decode PgFrame MyFrame Registry Pipeline.
Import AbsTable.
#[local] Open Scope Z_scope.

Section PipelineFacts.
Context {S P F : Type} (stream : proto_id -> lk_proto_ops S P F) (max_conns : Z).
Abbreviation vt := (registry stream).
Abbreviation pipeline := (lk_pipeline S P F).
Abbreviation table := (lk_conn_table S P F).
Abbreviation conn := (lk_conn P F).
Implicit Types (p : pipeline) (t : table) (c : conn) (ls : list loc) (l : loc).

(** An entry the framer accepts, of a message-framed protocol. *)
Definition entry_ok c : Prop := framed (proto_of c) = true /\ conn_wf (vt (proto_of c)) c.

Record pipe_base p ls : Prop := PipeBase {
  pb_rep : rep (p_conns p) ls;
  pb_hook : t_on_destroy (p_conns p) = Some (pipeline_on_destroy (r_sink (p_reasm p)));
  pb_sink : SinkLaws (r_sink (p_reasm p));
  pb_close : HookLaws (pipeline_on_destroy (r_sink (p_reasm p)));
  pb_pool : pool_wf (p_reasm p);
  pb_protos : Forall (fun pp => framed (pp_ops pp) = true) (t_protos (p_conns p));
  pb_dflt : framed (default PROTO_PG (t_proto_dflt (p_conns p))) = true;
  pb_entries : Forall entry_ok (view (p_conns p) ls);
  pb_max : t_max_conns (p_conns p) = max_conns }.
Definition pipe_wf p ls : Prop := pipe_base p ls /\ tls_exact (p_conns p) ls.

(** ** Entries stay well formed *)
Lemma frame_wf_dirty size size' f :
  frame_wf size f -> frame_wf size' (f <| f_st := LK_FR_DIRTY |> <| f_resync_matched := 0 |>).
Proof. intros [[] _]. split; [by split|done]. Qed.

Lemma entry_frames c c' :
  c_ops c' = c_ops c -> entry_ok c ->
  (forall d, f_startup_done (frame c' d) = f_startup_done (frame c d)) ->
  (forall d size, frame_wf size (frame c d) -> frame_wf size (frame c' d)) -> entry_ok c'.
Proof.
  intros Ho [Hf Hw] Hs Hd. unfold entry_ok, proto_of in *. rewrite Ho. split; [done|]. intros d.
  rewrite (law_hdr_size_ext (FramerLaws:=registry_laws stream _ Hf) c' c d (Hs d)). apply Hd, Hw.
Qed.

Lemma mark_dirty_ok c : entry_ok c -> entry_ok (mark_dirty c).
Proof.
  intros H. apply (entry_frames c); [done|done|by intros []|].
  intros [] size; apply frame_wf_dirty.
Qed.

Lemma entry_same c1 c2 :
  entry_ok c1 -> c_ops c2 = c_ops c1 -> c_send c2 = c_send c1 -> c_recv c2 = c_recv c1 -> entry_ok c2.
Proof.
  intros H1 Ho Hs Hr. apply (entry_frames c1); [done|done|intros []; cbn; congruence|].
  intros [] size; cbn; by rewrite ?Hs, ?Hr.
Qed.

Ltac entry c H :=
  first [ apply (entry_same c); [exact H|reflexivity..]
        | apply (entry_same (mark_dirty c)); [exact (mark_dirty_ok c H)|reflexivity..] ].

Lemma touch_ok c seq ts : entry_ok c -> entry_ok (touch_conn c seq ts).2.
Proof.
  intros H. unfold touch_conn. destruct (_ <? seq); cbn [fst snd]; destruct (_ <? seq); cbn [fst snd]; entry c H.
Qed.
Lemma touch_tls_ok c seq ts : entry_ok c -> entry_ok (touch_tls_conn c seq ts).2.
Proof.
  intros H. unfold touch_tls_conn. destruct (negb _); [|destruct (_ <? seq)]; cbn [fst snd];
    destruct (_ <? seq); cbn [fst snd]; entry c H.
Qed.

Lemma fresh_frames_ok c : framed (proto_of c) = true -> c_send c = frame0 -> c_recv c = frame0 -> entry_ok c.
Proof.
  intros Hf Hs Hr. split; [done|]. intros d.
  pose proof (law_hdr_size_range (FramerLaws:=registry_laws stream _ Hf) c d).
  destruct d; cbn; rewrite ?Hs, ?Hr; apply frame0_wf; lia.
Qed.

Lemma resolve_framed t tu :
  Forall (fun pp => framed (pp_ops pp) = true) (t_protos t) ->
  framed (default PROTO_PG (t_proto_dflt t)) = true ->
  framed (default PROTO_PG (resolve_proto t tu)) = true.
Proof.
  intros Hp Hd. unfold resolve_proto. destruct tu as [tu|]; [|done].
  destruct (find _ (t_protos t)) as [pp|] eqn:E; [|done]. apply find_some in E as [Hin _].
  apply list_elem_of_In in Hin. rewrite Forall_forall in Hp. by apply Hp.
Qed.

Lemma ct_fresh_ok e t cookie seq ts :
  Forall (fun pp => framed (pp_ops pp) = true) (t_protos t) ->
  framed (default PROTO_PG (t_proto_dflt t)) = true -> entry_ok (ct_fresh e t cookie seq ts).
Proof.
  intros Hp Hd. destruct e as [tuple syn| |]; cbn [ct_fresh].
  - pose proof (resolve_framed t (Some tuple) Hp Hd). destruct syn; [apply mark_dirty_ok|]; by apply fresh_frames_ok.
  - apply mark_dirty_ok. by apply fresh_frames_ok.
  - apply mark_dirty_ok. by apply fresh_frames_ok.
Qed.

Lemma removelast_incl {A} (l : list A) x : In x (removelast l) -> In x l.
Proof.
  induction l as [|y l IH]; [done|]. destruct l as [|z l]; [done|]. cbn [removelast].
  intros [->|?]; [by left|right; auto].
Qed.

Lemma a_event_ok max ok cookie touch fresh (l l' : list conn) r lost :
  a_event max ok cookie touch fresh l = (r, lost, l') -> Forall entry_ok l ->
  (forall c, entry_ok c -> entry_ok (touch c).2) -> entry_ok fresh -> Forall entry_ok l'.
Proof.
  intros E Hl Ht Hf. unfold a_event in E.
  assert (Forall entry_ok (a_evict max l)) as He.
  { unfold a_evict. destruct (_ <=? _); [|done]. apply Forall_forall. intros x Hx%list_elem_of_In%removelast_incl.
    rewrite Forall_forall in Hl. by apply Hl, list_elem_of_In. }
  destruct (List.find (keyed cookie) l) as [c|] eqn:Ef.
  - apply find_some in Ef as [Hin _]. destruct (touch c) as [lost' c'] eqn:Et. injection E as _ _ <-.
    unfold a_touch, a_remove. rewrite Forall_forall in Hl. apply Forall_cons_2.
    + pose proof (Ht c ltac:(by apply Hl, list_elem_of_In)) as H. by rewrite Et in H.
    + apply Forall_forall. intros x [Hx _]%list_elem_of_In%List.filter_In. by apply Hl, list_elem_of_In.
  - destruct ok; injection E as _ _ <-; [by apply Forall_cons_2|done].
Qed.

(** ** Table operations *)
Lemma rep_ctx t ls s : rep t ls -> rep (t <| t_ctx := s |>) ls.
Proof. by intros []. Qed.

Lemma base_hook p ls s : pipe_base p ls -> hook_ok (p_conns p <| t_ctx := s |>).
Proof. intros []. unfold hook_ok. cbn. by rewrite pb_hook0. Qed.

Lemma base_step p ls e cookie seq ts :
  pipe_wf p ls ->
  exists r lost p' ls', with_conns p (fun t => ct_step e t cookie seq ts) = Some (r, lost, p') /\
    pipe_wf p' ls' /\ (forall l, r = Some l -> is_Some (conn_at (p_conns p') l)).
Proof.
  intros [Hb Ht]. set (t1 := p_conns p <| t_ctx := r_ctx (p_reasm p) |>).
  assert (rep t1 ls) as Hr1 by apply rep_ctx, Hb.
  destruct (ct_step_ok e t1 ls cookie seq ts Hr1 (base_hook _ _ _ Hb)) as (r & lost & t' & ls' & E & Hr & Hcfg & Htls & Hsome & Hv).
  unfold with_conns. fold t1. rewrite E. cbn [mbind option_bind].
  exists r, lost. eexists _, ls'. split; [done|]. destruct Hb. destruct Hcfg as (?&?&?&Hh&Hp&Hd).
  split; [split; [split|]|]; cbn [p_conns p_reasm r_sink upd]; try done; try (etrans; [eassumption|exact pb_max0]).
  - by rewrite Hh.
  - by rewrite Hp.
  - by rewrite Hd.
  - eapply a_event_ok; [symmetry; exact Hv|exact pb_entries0| |by apply ct_fresh_ok].
    intros c Hc. destruct e; cbn [ct_touch]; [by apply touch_ok|by apply touch_ok|by apply touch_tls_ok].
  - by apply Htls.
Qed.

Lemma base_close p ls cookie seq ts :
  pipe_wf p ls ->
  exists lost p' ls', with_conns p (fun t => lk_conn_table_close t cookie seq ts) = Some (lost, p') /\ pipe_wf p' ls'.
Proof.
  intros [Hb Ht]. set (t1 := p_conns p <| t_ctx := r_ctx (p_reasm p) |>).
  assert (rep t1 ls) as Hr1 by apply rep_ctx, Hb.
  destruct (close_ok t1 ls cookie seq ts Hr1 (base_hook _ _ _ Hb)) as (lost & t' & ls' & E & Hr & Hcfg & Htls & Hv).
  unfold with_conns. fold t1. rewrite E. cbn [mbind option_bind].
  exists lost. eexists _, ls'. split; [done|]. destruct Hb. destruct Hcfg as (?&?&?&Hh&Hp&Hd).
  split; [split|]; cbn [p_conns p_reasm r_sink upd]; try done; try (etrans; [eassumption|exact pb_max0]).
  - by rewrite Hh.
  - by rewrite Hp.
  - by rewrite Hd.
  - unfold a_close in Hv. change (view t1 ls) with (view (p_conns p) ls) in Hv.
    destruct (List.find _ _); injection Hv as _ ->; [|done].
    unfold a_remove. apply Forall_forall. intros x [Hx _]%list_elem_of_In%List.filter_In.
    rewrite Forall_forall in pb_entries0. by apply pb_entries0, list_elem_of_In.
  - by apply Htls.
Qed.

(** Replacing one entry. *)
Lemma view_put t t' ls l cn cn' :
  rep t ls -> conn_at t l = Some cn -> put_conn t t' l cn' ->
  (Forall entry_ok (view t ls) -> entry_ok cn' -> Forall entry_ok (view t' ls)) /\
  tls_count (view t' ls) = tls_count (view t ls) - Z.b2z (is_tls cn) + Z.b2z (is_tls cn').
Proof.
  intros Hr Hc (_ & Hl & Hx). assert (l ∈ ls) as Hin by (eapply rep_conn; eauto).
  destruct (rep_split t ls l Hr Hin) as (l1 & l2 & ->).
  pose proof (lr_nodup _ _ _ _ (rp_lru _ _ Hr)) as Hnd. rewrite <- Permutation_middle in Hnd.
  apply NoDup_cons in Hnd as [[Hn1 Hn2]%not_elem_of_app _].
  assert (view t' l1 = view t l1) as E1 by (apply view_ext; intros x Hxin; apply Hx; by intros ->).
  assert (view t' l2 = view t l2) as E2 by (apply view_ext; intros x Hxin; apply Hx; by intros ->).
  rewrite !view_app, (view_cons _ _ _ _ Hc), (view_cons _ _ _ _ Hl), E1, E2. split.
  - intros [H1 H2]%Forall_app Hok. inversion H2; subst. apply Forall_app. split; [done|]. by constructor.
  - rewrite !tls_count_app, !tls_count_cons. unfold is_tls. destruct (has_flag (c_flags cn) _), (has_flag (c_flags cn') _); cbn; lia.
Qed.

Lemma base_put p ls l cn t' r' cn' :
  pipe_base p ls -> conn_at (p_conns p) l = Some cn -> put_conn (p_conns p) t' l cn' -> rep t' ls ->
  entry_ok cn' -> r_sink r' = r_sink (p_reasm p) -> pool_wf r' -> pipe_base (Pipe t' r') ls.
Proof.
  intros [] Hc Hput Hr Hok Hk Hp. destruct (view_put _ _ _ _ _ _ pb_rep0 Hc Hput) as [Hv _].
  destruct Hput as ((?&Hmx&?&Hh&Hpr&Hd) & _).
  split; cbn [p_conns p_reasm]; rewrite ?Hh, ?Hpr, ?Hd, ?Hk, ?Hmx; auto.
Qed.

Lemma entry_view p ls l cn : pipe_base p ls -> conn_at (p_conns p) l = Some cn -> entry_ok cn.
Proof.
  intros [] Hc. rewrite Forall_forall in pb_entries0. apply pb_entries0, view_elem. exists l.
  split; [eapply rep_conn; eauto|done].
Qed.

Lemma reasm_data_pinned r c d ev cap :
  lk_reasm_data vt r c d ev cap = lk_reasm_data vt r (pinned c) d ev cap.
Proof.
  unfold lk_reasm_data. rewrite !conn_ops_pinned. replace (proto_of (pinned c)) with (proto_of c) by done.
  by replace (pinned (pinned c)) with (pinned c).
Qed.

(** ** Framing an entry *)
Lemma frame_at_ok p ls l cn d ev cap :
  pipe_base p ls -> conn_at (p_conns p) l = Some cn -> ev_ok ev cap ->
  exists p' cn', frame_at vt p l d ev cap = Some p' /\ pipe_base p' ls /\ conn_at (p_conns p') l = Some cn' /\
    (is_tls cn = true -> is_tls cn' = true) /\ t_st (p_conns p') = t_st (p_conns p) /\
    tls_count (view (p_conns p') ls) = tls_count (view (p_conns p) ls) - Z.b2z (is_tls cn) + Z.b2z (is_tls cn').
Proof.
  intros Hb Hc Hev. destruct (entry_view p ls l cn Hb Hc) as [Hf Hw]. set (id := proto_of cn) in *.
  pose proof (registry_laws stream id Hf) as FL. pose proof Hb as [].
  set (K := fun (k : lk_msg_sink S P F) (c' : conn) => c_ops c' = Some id /\ k = r_sink (p_reasm p) /\ same_id (pinned cn) c').
  assert (Stable K) as SK.
  { intros k c1 c2 H12 (E & -> & H1). split_and!; [by destruct H12 as (-> & _)|done|by trans c1]. }
  assert (state_wf (vt id) K (p_reasm p) (pinned cn)) as Hsw.
  { apply (framer_swf vt id K (p_reasm p) cn eq_refl); [by split_and!|]. by split_and!. }
  destruct (reasm_data_ok vt id (registry_framed stream id Hf) K (fun k c H => proj1 H) (p_reasm p) (pinned cn) d ev cap Hsw Hev)
    as (r' & cn' & E & Hw').
  pose proof Hw' as (_ & Hp' & (Hops & Hk' & Hid) & Hcw).
  unfold frame_at. rewrite Hc. cbn [mbind option_bind]. rewrite reasm_data_pinned, E. cbn [mbind option_bind].
  destruct Hid as (Ho & Hck & Htls).
  destruct (upd_conn_spec (p_conns p) ls l cn (fun _ => cn') pb_rep0 Hc Hck) as (t' & -> & Hr' & Hput & Hst & _).
  cbn [mbind option_bind]. exists (Pipe t' r'), cn'. split; [done|]. split; [|split_and!].
  - eapply base_put; try done. split.
    + unfold proto_of. by rewrite Hops.
    + intros d'. unfold proto_of. rewrite Hops. apply Hcw.
  - by destruct Hput as (_ & ? & _).
  - exact Htls.
  - exact Hst.
  - by eapply view_put.
Qed.

(** ** Turning TLS *)
Lemma note_open_ok p ls t :
  pipe_base (p <| p_conns := t |>) ls -> ts_tls_active (t_st t) + 1 = tls_count (view t ls) ->
  pipe_wf (p <| p_conns := lk_conn_table_note_tls_open t |>) ls.
Proof.
  intros [] Ht. cbn [p_conns p_reasm upd] in *. split; [split; cbn [p_conns p_reasm upd]; try done; by apply bump_rep|].
  change (u32 (ts_tls_active (t_st t) + 1) = tls_count (view t ls)). rewrite Ht. apply u32_small. pose proof pb_rep0 as [_ _ _ Hm Hbd].
  pose proof (tls_count_bound (view t ls)). rewrite <- (view_length _ _ pb_rep0) in Hbd. lia.
Qed.

Lemma reset_entry_ok c mid : framed (proto_of c) = true -> entry_ok (lk_conn_tls_reset_framing c mid).
Proof. intros Hf. unfold lk_conn_tls_reset_framing. destruct mid; [apply mark_dirty_ok|]; by apply fresh_frames_ok. Qed.

(** Rewriting an entry with a fresh framing state. *)
Lemma base_reset p ls l cn g mid (c0 := g cn) :
  pipe_base p ls -> conn_at (p_conns p) l = Some cn -> c_ops c0 = c_ops cn -> c_cookie c0 = c_cookie cn ->
  exists t', upd_conn (p_conns p) l (fun c => lk_conn_tls_reset_framing (g c) mid) = Some t' /\
    pipe_base (p <| p_conns := t' |>) ls /\ t_st t' = t_st (p_conns p) /\
    conn_at t' l = Some (lk_conn_tls_reset_framing c0 mid) /\
    tls_count (view t' ls) = tls_count (view (p_conns p) ls) - Z.b2z (is_tls cn) + Z.b2z (is_tls c0).
Proof.
  intros Hb Hc Ho Hk. destruct (entry_view p ls l cn Hb Hc) as [Hf _]. pose proof Hb as [].
  assert (is_tls (lk_conn_tls_reset_framing c0 mid) = is_tls c0 /\
    c_cookie (lk_conn_tls_reset_framing c0 mid) = c_cookie cn) as [Et Ek].
  { unfold lk_conn_tls_reset_framing. by destruct mid. }
  destruct (upd_conn_spec (p_conns p) ls l cn (fun c => lk_conn_tls_reset_framing (g c) mid) pb_rep0 Hc Ek)
    as (t' & -> & Hr' & Hput & Hst & _).
  exists t'. split; [done|]. split_and!; [|done|by destruct Hput as (_ & ? & _)|].
  - change (p <| p_conns := t' |>) with (Pipe t' (p_reasm p)). eapply base_put; try done.
    apply reset_entry_ok. unfold proto_of in *. fold c0. by rewrite Ho.
  - destruct (view_put _ _ _ _ _ _ pb_rep0 Hc Hput) as [_ ->]. cbn beta. fold c0. by rewrite Et.
Qed.

Lemma feed_plain_ok p ls h ev cap out :
  pipe_wf p ls -> ev_ok ev cap ->
  exists p' out' ls', feed_plain vt p h ev cap out = Some (p', out') /\ pipe_wf p' ls'.
Proof.
  intros Hw Hev. unfold feed_plain.
  destruct (base_step p ls CtData (h_conn_id h) (h_seq h) (h_ts_ns h) Hw) as (r & lost & p1 & ls1 & E & Hw1 & Hs).
  cbn [ct_step] in E. rewrite E. cbn [mbind option_bind].
  destruct r as [l|]; [|by eexists _, _, ls1]. destruct (Hs l eq_refl) as [cn Hc]. rewrite Hc. cbn [mbind option_bind].
  destruct Hw1 as [Hb1 Ht1].
  destruct (frame_at_ok p1 ls1 l cn (dir_of h) ev cap Hb1 Hc Hev) as (p2 & cn2 & -> & Hb2 & Hc2 & Hmono & Hst & Hcnt).
  cbn [mbind option_bind]. rewrite Hc2. cbn [mbind option_bind].
  change (has_flag (c_flags cn) LK_CONN_TLS) with (is_tls cn). change (has_flag (c_flags cn2) LK_CONN_TLS) with (is_tls cn2).
  unfold tls_exact in Ht1.
  destruct (is_tls cn) eqn:E1; [rewrite (Hmono eq_refl) in *|]; cbn [negb andb].
  { eexists _, _, ls1. split; [done|]. split; [done|]. unfold tls_exact. rewrite Hst, Hcnt. cbn. lia. }
  destruct (is_tls cn2) eqn:E2.
  - destruct (base_reset p2 ls1 l cn2 (fun c => c) false Hb2 Hc2 eq_refl eq_refl) as (t' & -> & Hb3 & Hst3 & _ & Hcnt3).
    cbn [mbind option_bind]. eexists _, _, ls1. split; [done|]. apply note_open_ok; [done|].
    rewrite Hst3, Hst, Hcnt3, Hcnt, E2, Ht1. cbn. lia.
  - cbn [mbind option_bind]. eexists _, _, ls1. split; [done|]. split; [done|]. unfold tls_exact. rewrite Hst, Hcnt. cbn. lia.
Qed.

Definition turn_tls (c : conn) : conn := c <| c_flags ::= fun w => set_flag w LK_CONN_TLS |>.

Lemma feed_decrypted_ok p ls h ev cap out :
  pipe_wf p ls -> ev_ok ev cap ->
  exists p' out' ls', feed_decrypted vt p h ev cap out = Some (p', out') /\ pipe_wf p' ls'.
Proof.
  intros Hw Hev. unfold feed_decrypted.
  destruct (base_step p ls CtDecrypted (h_conn_id h) (h_seq h) (h_ts_ns h) Hw) as (r & lost & p1 & ls1 & E & Hw1 & Hs).
  cbn [ct_step] in E. rewrite E. cbn [mbind option_bind].
  destruct r as [l|]; [|by eexists _, _, ls1]. destruct (Hs l eq_refl) as [cn Hc]. rewrite Hc. cbn [mbind option_bind].
  change (has_flag (c_flags cn) LK_CONN_TLS) with (is_tls cn).
  set (early := negb (is_tls cn)).
  change (fun cn : conn => lk_conn_tls_reset_framing (cn <| c_flags ::= fun w => set_flag w LK_CONN_TLS |>) true)
    with (fun cn : conn => lk_conn_tls_reset_framing (turn_tls cn) true).
  assert (exists p2 cn2, (if early then
       t ← upd_conn (p_conns p1) l (fun cn => lk_conn_tls_reset_framing (turn_tls cn) true);
       Some (p1 <| p_conns := lk_conn_table_note_tls_open t |>) else Some p1) = Some p2 /\
     pipe_wf p2 ls1 /\ conn_at (p_conns p2) l = Some cn2 /\ is_tls cn2 = true) as (p2 & cn2 & -> & [Hb2 Ht2] & Hc2 & E2).
  { subst early. destruct (is_tls cn) eqn:E1; cbn [negb]; [by exists p1, cn|]. destruct Hw1 as [Hb1 Ht1].
    assert (is_tls (turn_tls cn) = true) as E2 by by apply has_flag_set_eq.
    destruct (base_reset p1 ls1 l cn turn_tls true Hb1 Hc
      ltac:(reflexivity) ltac:(reflexivity)) as (t' & -> & Hb3 & Hst3 & Hc3 & Hcnt3).
    cbn [mbind option_bind]. eexists _, _. split; [done|]. split_and!; [|exact Hc3|exact E2].
    apply note_open_ok; [done|]. rewrite Hst3, Hcnt3, E1, E2, Ht1. cbn. lia. }
  cbn [mbind option_bind].
  destruct (frame_at_ok p2 ls1 l cn2 (dir_of h) ev cap Hb2 Hc2 Hev) as (p3 & cn3 & -> & Hb3 & Hc3 & Hmono & Hst & Hcnt).
  cbn [mbind option_bind]. eexists _, _, ls1. split; [done|]. split; [done|]. unfold tls_exact in *.
  rewrite Hst, Hcnt, E2, (Hmono E2), Ht2. cbn. lia.
Qed.

Lemma tls_drop_ok p ls l cn seq ts :
  pipe_wf p ls -> conn_at (p_conns p) l = Some cn ->
  exists t' ls', lk_conn_table_note_tls_drop (p_conns p) l seq ts = Some t' /\ pipe_wf (p <| p_conns := t' |>) ls'.
Proof.
  intros [Hb Ht] Hc. pose proof Hb as []. unfold lk_conn_table_note_tls_drop.
  set (t1 := ct_bump (p_conns p) _). assert (rep t1 ls) as Hr1 by by apply bump_rep.
  assert (l ∈ ls) as Hin by (eapply rep_conn; eauto). destruct (rep_split t1 ls l Hr1 Hin) as (l1 & l2 & ->).
  assert (c_cookie (tls_drop_conn seq ts cn) = c_cookie cn /\ is_tls (tls_drop_conn seq ts cn) = is_tls cn) as [Ek Et].
  { unfold tls_drop_conn. by destruct (_ <? _). }
  destruct (refresh_spec t1 l1 l2 l cn (tls_drop_conn seq ts) Hr1 Hc Ek) as (t2 & E2 & Hr2 & Hcfg2 & Hc2 & Hv2 & Hst2 & _).
  exists t2, (l :: l1 ++ l2). split; [exact E2|]. change (view t1 (l1 ++ l2)) with (view (p_conns p) (l1 ++ l2)) in Hv2.
  rewrite view_app in pb_entries0. rewrite (view_cons (p_conns p) l l2 cn Hc) in pb_entries0.
  apply Forall_app in pb_entries0 as [He1 He2]. inversion He2 as [|? ? Hcn He2']; subst.
  destruct Hcfg2 as (?&?&?&Hh&Hp&Hd). cbn in Hh, Hp, Hd. split; [split|]; cbn [p_conns p_reasm upd]; try done; try (etrans; [eassumption|exact pb_max0]).
  - by rewrite Hh.
  - by rewrite Hp.
  - by rewrite Hd.
  - rewrite Hv2, view_app. apply Forall_cons_2; [|by apply Forall_app].
    unfold tls_drop_conn. destruct (_ <? _); by apply (entry_same cn).
  - unfold tls_exact in *. rewrite Hst2, Hv2. cbn. rewrite Ht, !view_app, (view_cons _ _ _ cn Hc).
    rewrite tls_count_cons, !tls_count_app, tls_count_cons, Et. lia.
Qed.

Lemma feed_data_ok p ls h ev cap out :
  pipe_wf p ls -> ev_ok ev cap ->
  exists p' out' ls', feed_data vt p h ev cap out = Some (p', out') /\ pipe_wf p' ls'.
Proof.
  intros Hw Hev. unfold feed_data, lk_conn_table_peek. pose proof Hw as [[] _].
  destruct (lookup_spec (p_conns p) ls (h_conn_id h) pb_rep0) as (o & -> & Ho). cbn [mbind option_bind].
  destruct o as [l|].
  - destruct Ho as (_ & cn & Hc & _). rewrite Hc. cbn [mbind option_bind].
    destruct (has_flag (c_flags cn) LK_CONN_TLS && negb (has_flag (h_flags h) LK_F_DECRYPTED)).
    + destruct (tls_drop_ok p ls l cn (h_seq h) (h_ts_ns h) Hw Hc) as (t' & ls' & -> & Hw').
      cbn [mbind option_bind]. by eexists _, _, ls'.
    + destruct (has_flag _ LK_F_DECRYPTED); [by apply (feed_decrypted_ok p ls)|by apply (feed_plain_ok p ls)].
  - cbn [mbind option_bind].
    destruct (has_flag _ LK_F_DECRYPTED); [by apply (feed_decrypted_ok p ls)|by apply (feed_plain_ok p ls)].
Qed.

Lemma pipeline_feed_ok p ls data :
  pipe_wf p ls -> bytes_ok data ->
  exists p' out ls', lk_pipeline_feed vt p data = Some (p', out) /\ pipe_wf p' ls'.
Proof.
  intros Hw Hb. unfold lk_pipeline_feed. destruct (lk_ev_decode data) as [st v] eqn:E.
  destruct st; try by eexists _, _, ls.
  - destruct (v_hdr v) as [h|], (v_conn v) as [e|]; try by eexists _, _, ls. unfold feed_conn.
    destruct (h_type h =? LK_EV_CONN_CLOSE).
    + destruct (base_close p ls (h_conn_id h) (h_seq h) (h_ts_ns h) Hw) as (lost & p' & ls' & -> & Hw').
      by eexists _, _, ls'.
    + destruct (base_step p ls (CtOpen (ec_tuple e) (has_flag (h_flags h) LK_F_SYNTHETIC))
        (h_conn_id h) (h_seq h) (h_ts_ns h) Hw) as (r & lost & p' & ls' & E' & Hw' & _).
      cbn [ct_step] in E'. rewrite E'. by eexists _, _, ls'.
  - destruct (decode_data_ok data v Hb E) as (h & ev & Hh & Hd & _ & _ & _ & _ & Hev). rewrite Hh, Hd.
    by apply (feed_data_ok p ls).
Qed.

(** ** Whole traces *)
Fixpoint feeds (recs : list (list Z)) p : option pipeline :=
  match recs with
  | [] => Some p
  | rec :: recs => '(p, _) ← lk_pipeline_feed vt p rec; feeds recs p
  end.

Lemma feeds_ok recs : forall p ls,
  pipe_wf p ls -> Forall bytes_ok recs -> exists p' ls', feeds recs p = Some p' /\ pipe_wf p' ls'.
Proof.
  induction recs as [|rec recs IH]; intros p ls Hw Hb; [by exists p, ls|].
  inversion Hb as [|? ? Hr Hrs]; subst. destruct (pipeline_feed_ok p ls rec Hw Hr) as (p1 & out & ls1 & E & Hw1).
  cbn [feeds]. rewrite E. cbn [mbind option_bind]. by eapply IH.
Qed.

Definition with_protos p protos dflt : pipeline :=
  p <| p_conns ::= fun t => lk_conn_table_set_protos t protos dflt |>.

Lemma init_ok ctx max idle sink oom_t oom_r p protos dflt :
  0 <= max < 2 ^ 32 -> max_conns = Z.max 1 max -> SinkLaws sink -> HookLaws (pipeline_on_destroy sink) ->
  Forall (fun pp => framed (pp_ops pp) = true) protos -> framed (default PROTO_PG dflt) = true ->
  lk_pipeline_init ctx max idle sink oom_t oom_r = Some (Some p) -> pipe_wf (with_protos p protos dflt) [].
Proof.
  intros Hmax Hm SL HL Hp Hd E. unfold lk_pipeline_init in E.
  destruct (new_ok (P:=P) (F:=F) ctx max idle oom_t Hmax) as (o & E' & Ho). rewrite E' in E. cbn in E.
  destruct o as [t|]; [|done]. cbn in E. injection E as <-. destruct (Ho t eq_refl) as (Hr & _ & Hmc & Hst).
  split; [split; cbn [with_protos p_conns p_reasm upd]; try done|].
  - by destruct Hr.
  - change (t_max_conns t = max_conns). congruence.
  - change (ts_tls_active (t_st t) = 0). by rewrite Hst.
Qed.
End PipelineFacts.

Section PipelineClaims.
Context {S P F : Type} (stream : proto_id -> lk_proto_ops S P F).
Implicit Types (p : lk_pipeline S P F) (c : lk_conn P F).

(** C36: The agent's event path for PostgreSQL and MySQL is safe on any input.  From a
    fresh pipeline whose ports and default map to these message-framed protocols, every sequence of ringbuf
    records (any bytes: short, unknown, corrupt, lossy or reordered) is
    processed to the end with any allocation failures; at that point the table
    holds at most [max_conns] entries, the TLS gauge equals the number of
    entries that turned TLS, every body slab is within LK_MSG_BODY_MAX and the
    slab freelist within LK_REASM_POOL_MAX. *)
Theorem pipeline_safe ctx max idle sink oom_t oom_r p0 protos dflt recs :
  0 <= max < 2 ^ 32 -> SinkLaws sink -> HookLaws (pipeline_on_destroy sink) ->
  Forall (fun pp => framed (pp_ops pp) = true) protos -> framed (default PROTO_PG dflt) = true ->
  lk_pipeline_init ctx max idle sink oom_t oom_r = Some (Some p0) -> Forall bytes_ok recs ->
  exists p ls, feeds stream recs (with_protos p0 protos dflt) = Some p /\ rep (p_conns p) ls /\
    zlen (view (p_conns p) ls) <= Z.max 1 max /\
    ts_tls_active (t_st (p_conns p)) = tls_count (view (p_conns p) ls) /\
    0 <= r_pool_n (p_reasm p) <= LK_REASM_POOL_MAX /\
    Forall (fun c => forall d, buf_len (frame c d) <= LK_MSG_BODY_MAX) (view (p_conns p) ls).
Proof.
  intros Hmax SL HL Hp Hd E Hrecs.
  pose proof (init_ok stream (Z.max 1 max) ctx max idle sink oom_t oom_r p0 protos dflt Hmax eq_refl SL HL Hp Hd E) as Hw0.
  destruct (feeds_ok stream (Z.max 1 max) recs _ [] Hw0 Hrecs) as (p & ls & E' & [[] Ht]).
  exists p, ls. split_and!; [done|done| |exact Ht|apply pb_pool0|apply pb_pool0|].
  - rewrite (view_length _ _ pb_rep0), <- pb_max0. apply pb_rep0.
  - eapply Forall_impl; [exact pb_entries0|]. intros c [_ Hw] d. apply (Hw d).
Qed.

(** Channel isolation.  Once a connection is TLS, a ciphertext socket event
    on it reaches neither the framer nor the loss detector: the framer object,
    the entry's framing state and its loss counters are unchanged and no loss is
    reported, whatever the event's sequence number and bytes. *)
Theorem ciphertext_isolated p ls h ev cap out l c :
  rep (p_conns p) ls -> conn_at (p_conns p) l = Some c -> c_cookie c = h_conn_id h ->
  has_flag (c_flags c) LK_CONN_TLS = true -> has_flag (h_flags h) LK_F_DECRYPTED = false ->
  exists p' out' c', feed_data (registry stream) p h ev cap out = Some (p', out') /\
    p_reasm p' = p_reasm p /\ conn_at (p_conns p') l = Some c' /\
    (forall d, frame c' d = frame c d) /\ c_dropped c' = c_dropped c /\ c_tls_dropped c' = c_tls_dropped c /\
    c_proto_state c' = c_proto_state c /\ pe_lost out' = pe_lost out /\ pe_tls_socket_dropped out' = true.
Proof.
  intros Hr Hc Hk Htls Hdec. unfold feed_data, lk_conn_table_peek.
  destruct (lookup_spec (p_conns p) ls (h_conn_id h) Hr) as (o & -> & Ho). cbn [mbind option_bind].
  destruct o as [l'|]; [|by destruct (Ho l c Hc)]. destruct Ho as (Hin & c1 & Hc1 & Hk1).
  assert (l' = l) as -> by (eapply (rep_inj (p_conns p)); [exact Hr|exact Hc1|exact Hc|congruence]).
  rewrite Hc. cbn [mbind option_bind]. rewrite Htls, Hdec. cbn [andb negb].
  unfold lk_conn_table_note_tls_drop. set (t1 := ct_bump (p_conns p) _).
  assert (rep t1 ls) as Hr1 by by apply bump_rep. destruct (rep_split t1 ls l Hr1 Hin) as (l1 & l2 & ->).
  destruct (refresh_spec t1 l1 l2 l c (tls_drop_conn (h_seq h) (h_ts_ns h)) Hr1 Hc) as (t2 & -> & _ & _ & Hc2 & _).
  { unfold tls_drop_conn. by destruct (_ <? _). }
  cbn [mbind option_bind]. eexists _, _, (tls_drop_conn (h_seq h) (h_ts_ns h) c). split; [done|].
  unfold tls_drop_conn in *. destruct (_ <? _); (split_and!; try done; by intros []).
Qed.
End PipelineClaims.

(** ** Witnesses: PostgreSQL and MySQL ports, no consumer *)
Definition ex_pipe_sink : lk_msg_sink unit unit unit := Sink None None None.
#[local] Instance ex_pipe_sink_laws : SinkLaws ex_pipe_sink.
Proof. by split. Qed.
#[local] Instance ex_pipe_hook_laws : HookLaws (pipeline_on_destroy ex_pipe_sink).
Proof. by split. Qed.
Definition ex_stream (id : proto_id) : lk_proto_ops unit unit unit := lk_proto_pg_ops.
Definition ex_pipe0 : lk_pipeline unit unit unit := Eval vm_compute in
  match lk_pipeline_init tt 4 1000 ex_pipe_sink [] [] with Some (Some p) => p | _ =>
    Pipe (Table ∅ [] 0 0 0 None None None tt [] None ct_stats0 []) (lk_reasm_init tt ex_pipe_sink []) end.
Definition ex_rec (cookie seq flags : Z) (pl : list Z) : list Z :=
  put_data (EvData (EvHdr cookie 1000 seq LK_EV_DATA 1 flags) (zlen pl) 0 (zlen pl) pl).

Lemma recs_ok_dec recs : forallb (forallb is_byte) recs = true -> Forall bytes_ok recs.
Proof. intros H. apply Forall_forall. intros l Hl%list_elem_of_In. rewrite forallb_forall in H. by apply bytes_ok_dec, H. Qed.

Lemma pipeline_safe_witness :
  exists p ls, feeds ex_stream [ex_rec 7 1 LK_F_DECRYPTED [81; 0; 0; 0; 5; 0]; [1; 2; 3]; ex_rec 7 9 0 [255; 255]]
      (with_protos ex_pipe0 [PortProto 3306 PROTO_MY] (Some PROTO_PG)) = Some p /\ rep (p_conns p) ls /\
    zlen (view (p_conns p) ls) <= Z.max 1 4 /\
    ts_tls_active (t_st (p_conns p)) = tls_count (view (p_conns p) ls) /\
    0 <= r_pool_n (p_reasm p) <= LK_REASM_POOL_MAX /\
    Forall (fun c => forall d, buf_len (frame c d) <= LK_MSG_BODY_MAX) (view (p_conns p) ls).
Proof.
  apply (pipeline_safe ex_stream tt 4 1000 ex_pipe_sink [] [] ex_pipe0); try (exact _).
  - concrete.
  - repeat constructor.
  - reflexivity.
  - vm_compute. reflexivity.
  - apply (recs_ok_dec); vm_compute; reflexivity.
Defined.

(** The pipeline after one decrypted record: connection 7, at address 1, is TLS. *)
Definition ex_pipe1 : lk_pipeline unit unit unit := Eval vm_compute in
  default ex_pipe0 (feeds ex_stream [ex_rec 7 1 LK_F_DECRYPTED [81; 0]] (with_protos ex_pipe0 [] None)).
Definition ex_tls_conn : lk_conn unit unit := Eval vm_compute in
  default (conn0 0) (conn_at (p_conns ex_pipe1) 1).

Definition ex_out : lk_pipeline_ev :=
  PipeEv LK_DEC_DATA (EvView None None None 2) None 0 false false false.

Lemma ciphertext_isolated_witness :
  exists p' out' c',
    feed_data (registry ex_stream) ex_pipe1 (EvHdr 7 2000 40 LK_EV_DATA 1 0)
      (EvData (EvHdr 7 2000 40 LK_EV_DATA 1 0) 2 0 2 [23; 3]) 2
      ex_out = Some (p', out') /\
    p_reasm p' = p_reasm ex_pipe1 /\ conn_at (p_conns p') 1 = Some c' /\
    (forall d, frame c' d = frame ex_tls_conn d) /\ c_dropped c' = c_dropped ex_tls_conn /\
    c_tls_dropped c' = c_tls_dropped ex_tls_conn /\ c_proto_state c' = c_proto_state ex_tls_conn /\
    pe_lost out' = pe_lost ex_out /\ pe_tls_socket_dropped out' = true.
Proof.
  destruct (feeds_ok ex_stream 4 [ex_rec 7 1 LK_F_DECRYPTED [81; 0]] (with_protos ex_pipe0 [] None) [])
    as (p & ls & E & [[Hr] _]).
  - apply (init_ok ex_stream 4 tt 4 1000 ex_pipe_sink [] []); try exact _;
      [concrete|reflexivity|constructor|reflexivity|vm_compute; reflexivity].
  - apply (recs_ok_dec); vm_compute; reflexivity.
  - assert (p = ex_pipe1) as -> by (vm_compute in E; injection E as <-; reflexivity).
    apply (ciphertext_isolated ex_stream ex_pipe1 ls _ _ _ _ 1 ex_tls_conn Hr); vm_compute; reflexivity.
Defined.
