(* ===== verification/Proto.v ===== *)
(** The handler base of [proto/proto.h]: what every protocol handler reports
    upward (sessions, query observations, transactions) and the counters it
    keeps.

    [lk_proto] is the handler object that is the [ctx] of the framer's sink; the
    upward sink's own [ctx] is the value [p_up] of a type [U] the callbacks
    thread.  [p_oom] is the allocator's environment, as in the framer: the
    outcome of the next allocations, [true] for NULL, success once exhausted. *)
From stdpp Require Import base list.
From Stdlib Require Import Ascii String.
From S2P Require Import Prelude Conn.
#[local] Open Scope Z_scope.

(** Character and string literals as bytes. *)
Definition ch (a : ascii) : Z := Z.of_N (N_of_ascii a).
Definition lit (s : string) : list Z := map ch (list_ascii_of_string s).
Arguments ch a%_char. Arguments lit s%_string.

(** A fixed [char dst[N]] field written by [memcpy(dst, src, n); dst[n] = 0]:
    the bytes after the terminator keep their old value. *)
Definition put_cstr (dst : list Z) (n : Z) (src : list Z) : list Z :=
  ztake n src ++ [0] ++ zdrop (n + 1) dst.
(** What a reader of the C string sees. *)
Fixpoint c_str (l : list Z) : list Z :=
  match l with [] => [] | b :: l => if b =? 0 then [] else b :: c_str l end.

Inductive lk_query_kind :=
  | LK_Q_SIMPLE | LK_Q_EXTENDED | LK_Q_FUNCTION | LK_Q_COPY_IN | LK_Q_COPY_OUT
  | LK_Q_CANCEL | LK_Q_REQUEST | LK_Q_COMMAND.
#[global] Instance lk_query_kind_eq_dec : EqDecision lk_query_kind.
Proof. solve_decision. Defined.

Definition LK_QO_ERROR := 1.
Definition LK_QO_TEXT_TRUNC := 2.
Definition LK_QO_NO_TEXT := 4.
Definition LK_QO_MULTI_STMT := 8.
Definition LK_QO_EMPTY := 16.
Definition LK_QO_SUSPENDED := 32.
Definition LK_QO_ABORTED := 64.
Definition LK_QO_PIPELINED := 128.
Definition LK_QO_CLIENT_ERR := 256.
Definition LK_QO_BODY_UNSEEN := 512.
Definition LK_QO_EXPECT_CONT := 1024.
Definition LK_QO_INTERNAL := 2048.
Definition LK_QO_QUEUED := 4096.
Definition LK_QO_BLOCKING := 8192.

(** Fixed-size label buffers, NUL-terminated. *)
Record lk_session := Session {
  s_user : list Z; s_database : list Z; s_app : list Z; s_server_version : list Z;
  s_complete : bool }.
#[global] Instance session_upd : Updatable lk_session := fun s =>
  Session (s_user s) (s_database s) (s_app s) (s_server_version s) (s_complete s).
Definition session0 : lk_session :=
  Session (replicate 64 0) (replicate 64 0) (replicate 64 0) (replicate 16 0) false.

Record lk_http_obs := HttpObs {
  ho_trace_id : option (list Z); ho_parent_id : option (list Z); ho_tracestate : option (list Z);
  ho_req_id : option (list Z); ho_obj_version : option (list Z); ho_ctype : option (list Z);
  ho_ts_interim_ns : Z; ho_trace_flags : Z; ho_version : Z }.
Record lk_redis_obs := RedisObs {
  ro_pipeline_depth : Z; ro_txn_size : Z; ro_argc : Z; ro_redirect : Z }.

(** A borrowed pointer/length pair is [option (list Z)], NULL being [None]. *)
Record lk_query_obs := Obs {
  o_ts_start_ns : Z; o_ts_req_done_ns : Z; o_ts_first_row_ns : Z; o_ts_complete_ns : Z;
  o_ts_ready_ns : Z; o_text : option (list Z); o_rows : Z; o_bytes : Z; o_bytes_in : Z;
  o_bytes_out : Z; o_obj_bytes : Z; o_op : option (list Z); o_route : option (list Z);
  o_route_fp : Z; o_err_name : option (list Z); o_http : option lk_http_obs;
  o_redis : option lk_redis_obs; o_sqlstate : list Z; o_err_code : Z; o_kind : lk_query_kind;
  o_txn_status : Z; o_flags : Z }.
#[global] Instance obs_upd : Updatable lk_query_obs := fun o =>
  Obs (o_ts_start_ns o) (o_ts_req_done_ns o) (o_ts_first_row_ns o) (o_ts_complete_ns o)
      (o_ts_ready_ns o) (o_text o) (o_rows o) (o_bytes o) (o_bytes_in o) (o_bytes_out o)
      (o_obj_bytes o) (o_op o) (o_route o) (o_route_fp o) (o_err_name o) (o_http o) (o_redis o)
      (o_sqlstate o) (o_err_code o) (o_kind o) (o_txn_status o) (o_flags o).
(** [{0}]; kind 0 is LK_Q_SIMPLE. *)
Definition obs0 : lk_query_obs :=
  Obs 0 0 0 0 0 None 0 0 0 0 0 None None 0 None None None (replicate 6 0) 0 LK_Q_SIMPLE 0 0.

Record lk_query_sink (U P F : Type) := QSink {
  on_query : option (U -> lk_conn P F -> lk_session -> lk_query_obs -> U);
  on_session : option (U -> lk_conn P F -> lk_session -> U);
  on_txn : option (U -> lk_conn P F -> Z -> Z -> Z -> U) }.
Arguments QSink {U P F}. Arguments on_query {U P F}. Arguments on_session {U P F}.
Arguments on_txn {U P F}.

Record lk_proto_stats := PStats {
  ps_msgs : Z; ps_startup_msgs : Z; ps_resyncs : Z; ps_conns : Z; ps_queries : Z;
  ps_errors_sql : Z; ps_parse_errors : Z; ps_unknown_msgs : Z; ps_units_dropped_resync : Z;
  ps_units_dropped_close : Z; ps_units_dropped_overflow : Z; ps_orphan_msgs : Z;
  ps_redirects : Z; ps_pushes : Z; ps_prep_evictions : Z; ps_sessions : Z;
  ps_replication_conns : Z; ps_monitor_conns : Z; ps_compressed_conns : Z; ps_blind_conns : Z;
  ps_blind_h2 : Z; ps_blind_upgrade : Z; ps_blind_connect : Z;
  ps_by_type : lk_dir -> Z -> Z }.
#[global] Instance pstats_upd : Updatable lk_proto_stats := fun s =>
  PStats (ps_msgs s) (ps_startup_msgs s) (ps_resyncs s) (ps_conns s) (ps_queries s)
    (ps_errors_sql s) (ps_parse_errors s) (ps_unknown_msgs s) (ps_units_dropped_resync s)
    (ps_units_dropped_close s) (ps_units_dropped_overflow s) (ps_orphan_msgs s)
    (ps_redirects s) (ps_pushes s) (ps_prep_evictions s) (ps_sessions s)
    (ps_replication_conns s) (ps_monitor_conns s) (ps_compressed_conns s) (ps_blind_conns s)
    (ps_blind_h2 s) (ps_blind_upgrade s) (ps_blind_connect s) (ps_by_type s).
Definition pstats0 : lk_proto_stats :=
  PStats 0 0 0 0 0 0 0 0 0 0 0 0 0 0 0 0 0 0 0 0 0 0 0 (fun _ _ => 0).
(** [st.by_type[dir][type]++] *)
Definition count_type (d : lk_dir) (ty : Z) (s : lk_proto_stats) : lk_proto_stats :=
  s <| ps_by_type ::= fun f d' ty' =>
         if bool_decide (d' = d) && (ty' =? ty) then inc64 (f d' ty') else f d' ty' |>.

Record lk_proto (U P F : Type) := Proto {
  p_out : lk_query_sink U P F; p_up : U; p_st : lk_proto_stats; p_oom : list bool }.
Arguments Proto {U P F}. Arguments p_out {U P F}. Arguments p_up {U P F}.
Arguments p_st {U P F}. Arguments p_oom {U P F}.
#[global] Instance proto_upd U P F : Updatable (lk_proto U P F) := fun p =>
  Proto (p_out p) (p_up p) (p_st p) (p_oom p).

(** One allocation: success and the remaining environment. *)
Definition alloc (oom : list bool) : bool * list bool :=
  match oom with [] => (true, []) | fail :: oom => (negb fail, oom) end.

Section Base.
Context {U P F : Type}.
Implicit Types (p : lk_proto U P F) (c : lk_conn P F).

Definition pbump p (g : lk_proto_stats -> lk_proto_stats) : lk_proto U P F := p <| p_st ::= g |>.

(** The three upward calls, guarded by the callback being installed. *)
Definition up_query p c (s : lk_session) (o : lk_query_obs) : lk_proto U P F :=
  match on_query (p_out p) with Some cb => p <| p_up ::= fun u => cb u c s o |> | None => p end.
Definition up_session p c (s : lk_session) : lk_proto U P F :=
  match on_session (p_out p) with Some cb => p <| p_up ::= fun u => cb u c s |> | None => p end.
Definition up_txn p c (start stop status : Z) : lk_proto U P F :=
  match on_txn (p_out p) with
  | Some cb => p <| p_up ::= fun u => cb u c start stop status |>
  | None => p
  end.

End Base.

(** A consumer of observations reads the connection's identity, not its framing
    buffers nor the handler's private state. *)
Class QuerySinkLaws {U P F} (k : lk_query_sink U P F) := {
  law_on_query cb u c fs fr s o : on_query k = Some cb -> cb u (c <| c_send := fs |> <| c_recv := fr |>) s o = cb u c s o;
  law_on_session cb u c fs fr s : on_session k = Some cb -> cb u (c <| c_send := fs |> <| c_recv := fr |>) s = cb u c s;
  law_on_txn cb u c fs fr a b z : on_txn k = Some cb -> cb u (c <| c_send := fs |> <| c_recv := fr |>) a b z = cb u c a b z
}.

Lemma c_str_nonul l : Forall (fun b => b <> 0) l -> c_str (l ++ [0]) = l.
Proof.
  induction 1 as [|b l Hb _ IH]; [done|]. cbn. rewrite IH.
  destruct (Z.eqb_spec b 0); [done|done].
Qed.

(** The terminator cuts the field at the copied bytes. *)
Lemma c_str_put dst n src :
  Forall (fun b => b <> 0) src -> c_str (put_cstr dst n src) = ztake n src.
Proof.
  intros H. unfold put_cstr. generalize (zdrop (n + 1) dst) as tl. intros tl.
  assert (Forall (fun b => b <> 0) (ztake n src)) as Ht by by apply Forall_take.
  revert Ht. generalize (ztake n src) as l. change ([0] ++ tl) with (0 :: tl).
  induction l as [|b l IH]; intros Ht; [done|].
  inversion Ht; subst. cbn. destruct (Z.eqb_spec b 0); [done|]. by rewrite IH.
Qed.

Lemma zlen_put_cstr dst n src :
  0 <= n -> n < zlen dst -> n <= zlen src -> zlen (put_cstr dst n src) = zlen dst.
Proof.
  intros. unfold put_cstr. rewrite !zlen_app, zlen_ztake, zlen_zdrop, zlen_cons by lia.
  change (zlen []) with 0. lia.
Qed.
