(* ===== verification/Decimal.v ===== *)
(** Decimal numerals as the protocols print them. *)
From Stdlib Require Import Ascii String.
From stdpp Require Import base list.
From S2P Require Import Prelude Conn Proto.
#[local] Open Scope Z_scope.

(** Decimal digits of [n], most significant first. *)
Fixpoint decimal (fuel : nat) (n : Z) : list Z :=
  match fuel with
  | O => []
  | S fuel => (if n <? 10 then [] else decimal fuel (n / 10)) ++ [ch "0" + n mod 10]
  end.
Definition show (n : Z) : list Z := decimal 20 n.

Definition digit (b : Z) : Prop := ch "0" <= b <= ch "9".
Lemma decimal_digits f : forall n, 0 <= n -> Forall digit (decimal f n).
Proof.
  induction f as [|f IH]; intros n Hn; cbn [decimal]; [done|]. apply Forall_app. split.
  - destruct (n <? 10); [done|]. apply IH. apply Z.div_pos; lia.
  - constructor; [|done]. pose proof (Z.mod_pos_bound n 10). unfold digit. change (ch "0") with 48. change (ch "9") with 57. lia.
Qed.
