(* ===== verification/PgConn.v ===== *)
(** Per-connection state of the PostgreSQL handler ([proto/pg/pg.h]) with the
    in-flight ring and the units' text ([pg_query.c], sections "ring" and
    "text").

    A pointer into the ring is an index counted from [head]; [own_text] with
    [own_len] is the list [u_own_text], [own_cap] stays a number.  The allocator
    environment is threaded where the C code calls [realloc]. *)
From stdpp Require Import base list.
From S2P Require Import Prelude Conn Proto.
#[local] Open Scope Z_scope.

(** ** The cursor

    The bounded read cursor over a message body, [proto/pg/pg_wire.h].

    [w_rest] is the range [p, end): a NULL body is the empty range.  Every getter
    returns whether it succeeded, the value and the advanced cursor; a failed one
    raises [w_overrun] and parks the cursor at the end. *)
Record pg_wire := Wire { w_rest : list Z; w_overrun : bool }.

Definition pg_wire_init (body : list Z) : pg_wire := Wire body false.
Definition pg_wire_ok (w : pg_wire) : bool := negb (w_overrun w).
Definition pg_wire_remaining (w : pg_wire) : Z := zlen (w_rest w).

Definition overrun : pg_wire := Wire [] true.

Definition pg_wire_get_u8 (w : pg_wire) : bool * Z * pg_wire :=
  if pg_wire_remaining w <? 1 then (false, 0, overrun)
  else (true, znth (w_rest w) 0, Wire (zdrop 1 (w_rest w)) (w_overrun w)).

Definition pg_wire_get_u16 (w : pg_wire) : bool * Z * pg_wire :=
  if pg_wire_remaining w <? 2 then (false, 0, overrun)
  else (true, be16 (w_rest w), Wire (zdrop 2 (w_rest w)) (w_overrun w)).

Definition pg_wire_get_u32 (w : pg_wire) : bool * Z * pg_wire :=
  if pg_wire_remaining w <? 4 then (false, 0, overrun)
  else (true, be32 (w_rest w), Wire (zdrop 4 (w_rest w)) (w_overrun w)).

Definition pg_wire_skip (w : pg_wire) (n : Z) : bool * pg_wire :=
  if pg_wire_remaining w <? n then (false, overrun)
  else (true, Wire (zdrop n (w_rest w)) (w_overrun w)).

(** [memchr(p, 0, avail)]: the bytes before the first NUL and those after it. *)
Fixpoint cut_nul (l : list Z) : option (list Z * list Z) :=
  match l with
  | [] => None
  | b :: l => if b =? 0 then Some ([], l)
              else match cut_nul l with Some (s, r) => Some (b :: s, r) | None => None end
  end.

Definition pg_wire_cstring (w : pg_wire) : bool * list Z * pg_wire :=
  match cut_nul (w_rest w) with
  | Some (s, r) => (true, s, Wire r (w_overrun w))
  | None => (false, w_rest w, overrun)
  end.

(** ** Facts *)
Lemma cut_nul_app s r : Forall (fun b => b <> 0) s -> cut_nul (s ++ 0 :: r) = Some (s, r).
Proof.
  induction 1 as [|b s Hb _ IH]; [done|]. cbn. rewrite IH. destruct (Z.eqb_spec b 0); [done|done].
Qed.

Lemma cut_nul_spec l s r : cut_nul l = Some (s, r) -> l = s ++ 0 :: r /\ Forall (fun b => b <> 0) s.
Proof.
  revert s r. induction l as [|b l IH]; intros s r H; [done|]. cbn in H.
  destruct (Z.eqb_spec b 0) as [->|Hb]; [by injection H as <- <-|].
  destruct (cut_nul l) as [[s' r']|]; [|done]. injection H as <- <-.
  destruct (IH s' r' eq_refl) as [-> ?]. split; [done|by constructor].
Qed.

Lemma cut_nul_none l : cut_nul l = None -> Forall (fun b => b <> 0) l.
Proof.
  induction l as [|b l IH]; intros H; [done|]. cbn in H.
  destruct (Z.eqb_spec b 0); [done|]. destruct (cut_nul l) as [[? ?]|]; [done|]. constructor; auto.
Qed.

Lemma cstring_hit s r o : Forall (fun b => b <> 0) s ->
  pg_wire_cstring (Wire (s ++ 0 :: r) o) = (true, s, Wire r o).
Proof. intros H. unfold pg_wire_cstring. cbn [w_rest w_overrun]. by rewrite cut_nul_app. Qed.

(** A cursor only moves forward, inside the body. *)
Lemma cstring_shrinks w ok s w' :
  pg_wire_cstring w = (ok, s, w') ->
  zlen s <= zlen (w_rest w) /\ zlen (w_rest w') <= zlen (w_rest w) /\
  (ok = true -> zlen (w_rest w') = zlen (w_rest w) - zlen s - 1).
Proof.
  unfold pg_wire_cstring. destruct (cut_nul (w_rest w)) as [[s' r]|] eqn:E; intros H; injection H as <- <- <-; cbn [w_rest overrun].
  - apply cut_nul_spec in E as [-> _]. rewrite zlen_app, zlen_cons. pose proof (zlen_nonneg s'). pose proof (zlen_nonneg r). lia.
  - change (zlen []) with 0. pose proof (zlen_nonneg (w_rest w)). split_and!; [lia|lia|done].
Qed.

Lemma get_u8_shrinks w ok b w' :
  pg_wire_get_u8 w = (ok, b, w') -> zlen (w_rest w') <= zlen (w_rest w) /\
  (ok = true -> zlen (w_rest w') = zlen (w_rest w) - 1).
Proof.
  unfold pg_wire_get_u8, pg_wire_remaining. destruct (Z.ltb_spec (zlen (w_rest w)) 1); intros E; injection E as <- <- <-; cbn [w_rest overrun].
  - change (zlen []) with 0. pose proof (zlen_nonneg (w_rest w)). split; [lia|done].
  - rewrite zlen_zdrop by lia. lia.
Qed.

Definition LK_PG_MAX_INFLIGHT := 64.
Definition LK_PG_PREP_CACHE := 256.

Inductive pg_phase :=
  | PG_PH_STARTUP | PG_PH_AUTH | PG_PH_READY | PG_PH_COPY_IN | PG_PH_COPY_OUT
  | PG_PH_SKIP_TO_SYNC | PG_PH_IGNORE.
#[global] Instance pg_phase_eq_dec : EqDecision pg_phase.
Proof. solve_decision. Defined.

Record pg_unit := Unit {
  u_ts_start_ns : Z; u_ts_first_row_ns : Z; u_ts_complete_ns : Z; u_rows : Z; u_bytes : Z;
  u_ncomplete : Z; u_kind : lk_query_kind; u_copy_kind : option lk_query_kind; u_flags : Z;
  u_sqlstate : list Z; u_prep_idx : Z; u_prep_gen : Z; u_own_text : list Z; u_own_cap : Z }.
#[global] Instance pg_unit_upd : Updatable pg_unit := fun u =>
  Unit (u_ts_start_ns u) (u_ts_first_row_ns u) (u_ts_complete_ns u) (u_rows u) (u_bytes u)
       (u_ncomplete u) (u_kind u) (u_copy_kind u) (u_flags u) (u_sqlstate u) (u_prep_idx u)
       (u_prep_gen u) (u_own_text u) (u_own_cap u).
(** A calloc'ed slot. *)
Definition unit0 : pg_unit := Unit 0 0 0 0 0 0 LK_Q_SIMPLE None 0 (replicate 6 0) 0 0 [] 0.

Record pg_prep := Prep {
  e_used : bool; e_trunc : bool; e_gen : Z; e_lru : Z; e_name : list Z; e_text : list Z;
  e_text_cap : Z }.
#[global] Instance pg_prep_upd : Updatable pg_prep := fun e =>
  Prep (e_used e) (e_trunc e) (e_gen e) (e_lru e) (e_name e) (e_text e) (e_text_cap e).
Definition prep0 : pg_prep := Prep false false 0 0 [] [] 0.

Record pg_prep_cache := PrepCache { k_e : list pg_prep; k_clock : Z; k_count : Z }.
#[global] Instance pg_prep_cache_upd : Updatable pg_prep_cache := fun k =>
  PrepCache (k_e k) (k_clock k) (k_count k).
Definition prep_cache0 : pg_prep_cache := PrepCache (replicate (Z.to_nat LK_PG_PREP_CACHE) prep0) 0 0.

Record pg_conn := PgConn {
  pc_phase : pg_phase; pc_session : lk_session; pc_msgs : Z;
  pc_ring : list pg_unit; pc_head : Z; pc_count : Z; pc_nclosed : Z;
  pc_lossy : bool; pc_degraded : bool;
  pc_prep : option pg_prep_cache;
  pc_txn_status : Z; pc_txn_start_ns : Z }.
#[global] Instance pg_conn_upd : Updatable pg_conn := fun c =>
  PgConn (pc_phase c) (pc_session c) (pc_msgs c) (pc_ring c) (pc_head c) (pc_count c)
         (pc_nclosed c) (pc_lossy c) (pc_degraded c) (pc_prep c) (pc_txn_status c)
         (pc_txn_start_ns c).
Definition pg_conn0 : pg_conn :=
  PgConn PG_PH_STARTUP session0 0 (replicate (Z.to_nat LK_PG_MAX_INFLIGHT) unit0) 0 0 0
         false false None 0 0.
Implicit Types (pc : pg_conn) (u : pg_unit) (e : pg_prep) (oom : list bool).

(** ** The ring: [pc->ring[(pc->head + i) % LK_PG_MAX_INFLIGHT]] *)
Definition ring_idx pc (i : Z) : nat := Z.to_nat ((pc_head pc + i) mod LK_PG_MAX_INFLIGHT).
Definition ring_at pc (i : Z) : pg_unit := nth (ring_idx pc i) (pc_ring pc) unit0.
Definition ring_upd pc (i : Z) (g : pg_unit -> pg_unit) : pg_conn :=
  pc <| pc_ring ::= alter g (ring_idx pc i) |>.

Definition unit_reset u : pg_unit :=
  unit0 <| u_own_cap := u_own_cap u |> <| u_prep_idx := -1 |>.

Definition add_flag (f : Z) u : pg_unit := u <| u_flags ::= fun w => set_flag w f |>.

(** [for (i = 0; i < n; i++) ring[head + i] = g(...)], from index [i]. *)
Fixpoint ring_for (n : nat) (i : Z) (g : pg_unit -> pg_unit) pc : pg_conn :=
  match n with
  | O => pc
  | S n => ring_for n (i + 1) g (ring_upd pc i g)
  end.

(** [None] when the unit cannot be opened; otherwise its index. *)
Definition ring_push (st : lk_proto_stats) pc : option Z * lk_proto_stats * pg_conn :=
  if pc_lossy pc || (LK_PG_MAX_INFLIGHT <=? pc_count pc) then
    (None, st <| ps_units_dropped_overflow ::= inc64 |>, pc <| pc_lossy := true |>)
  else
    let i := pc_count pc in
    let pc := pc <| pc_count ::= fun n => u32 (n + 1) |> in
    let pc := ring_upd pc i unit_reset in
    let pc := if 1 <? pc_count pc
              then ring_for (Z.to_nat (pc_count pc)) 0 (add_flag LK_QO_PIPELINED) pc else pc in
    (Some i, st, pc).

(** Returns how many units were dropped; the caller adds it to its counter. *)
Definition pg_query_drop_all pc : Z * pg_conn :=
  (pc_count pc,
   pc <| pc_head := 0 |> <| pc_count := 0 |> <| pc_nclosed := 0 |> <| pc_lossy := false |>).

(** ** Text *)
Definition own_grow u (n : Z) oom : bool * pg_unit * list bool :=
  if u_own_cap u <? n then
    let '(ok, oom) := alloc oom in
    if ok then (true, u <| u_own_cap := n |>, oom)
    else (false, add_flag LK_QO_NO_TEXT (u <| u_own_text := [] |>), oom)
  else (true, u, oom).

(** Drop one trailing NUL. *)
Definition chop_nul (l : list Z) : list Z :=
  if (0 <? zlen l) && (znth l (zlen l - 1) =? 0) then ztake (zlen l - 1) l else l.

Definition set_simple_text u (m : lk_msg) oom : pg_unit * list bool :=
  let n := if m_body_cap m <? LK_MSG_BODY_MAX then m_body_cap m else LK_MSG_BODY_MAX in
  let '(ok, u, oom) := own_grow u n oom in
  if negb ok then (u, oom)
  else (u <| u_own_text := chop_nul (ztake n (m_body m)) |>, oom).

Definition prep_at (k : pg_prep_cache) (slot : Z) : pg_prep := nth (Z.to_nat slot) (k_e k) prep0.

(** One unit of the rescue: copy the slot's text and detach. *)
Definition rescue_unit (slot : Z) e u oom : pg_unit * list bool :=
  if negb (u_prep_idx u =? slot) || negb (u_prep_gen u =? e_gen e) then (u, oom)
  else
    let '(u, oom) :=
      if 0 <? zlen (e_text e) then
        let '(ok, u, oom) := own_grow u (zlen (e_text e)) oom in
        (u <| u_own_text := if ok then e_text e else [] |>, oom)
      else (u <| u_own_text := [] |>, oom) in
    (u <| u_prep_idx := -1 |>, oom).

Fixpoint rescue_loop (n : nat) (i : Z) (slot : Z) e pc oom : pg_conn * list bool :=
  match n with
  | O => (pc, oom)
  | S n =>
      let '(u, oom) := rescue_unit slot e (ring_at pc i) oom in
      rescue_loop n (i + 1) slot e (ring_upd pc i (fun _ => u)) oom
  end.

(** [e] is [&pc->prep->e[slot]]. *)
Definition pg_query_rescue_refs pc (slot : Z) e oom : pg_conn * list bool :=
  rescue_loop (Z.to_nat (pc_count pc)) 0 slot e pc oom.

Definition fill_text pc u (o : lk_query_obs) : lk_query_obs :=
  if has_flag (u_flags u) LK_QO_NO_TEXT then o
  else
    match pc_prep pc with
    | Some k =>
        if 0 <=? u_prep_idx u then
          let e := prep_at k (u_prep_idx u) in
          if e_used e && (e_gen e =? u_prep_gen u) && negb (zlen (e_text e) =? 0)
          then o <| o_text := Some (e_text e) |> else o
        else if negb (zlen (u_own_text u) =? 0) then o <| o_text := Some (u_own_text u) |> else o
    | None => if negb (zlen (u_own_text u) =? 0) then o <| o_text := Some (u_own_text u) |> else o
    end.
