(* ===== verification/PgQuery.v ===== *)
(** The prepared-statement cache, [proto/pg/pg_prep.c].

    The query phase machine, [proto/pg/pg_query.c]: requests open units in the
    ring, replies drive and close them in FIFO order, ReadyForQuery emits the
    batch. *)
From Stdlib Require Import Ascii.
From stdpp Require Import base list.
From Stdlib Require Import Ascii String.
From S2P Require Import Prelude Conn Proto PgConn.
#[local] Open Scope Z_scope.

Section Prep.
Implicit Types (pc : pg_conn) (k : pg_prep_cache) (e : pg_prep) (oom : list bool) (m : lk_msg).

(** [for (i = from; ...) if (P(e[i])) return i; return -1] *)
Fixpoint find_slot_from (i : Z) (P : pg_prep -> bool) (l : list pg_prep) : Z :=
  match l with
  | [] => -1
  | e :: l => if P e then i else find_slot_from (i + 1) P l
  end.

Definition name_is (name : list Z) e : bool :=
  e_used e && (zlen (e_name e) =? zlen name) && bool_decide (e_name e = name).
Definition find_by_name k (name : list Z) : Z := find_slot_from 0 (name_is name) (k_e k).

Definition PREP_NAME_MAX := 63.

Definition fill_slot e (name text : list Z) (trunc : bool) (lru : Z) oom : pg_prep * list bool :=
  let n := if zlen name <? PREP_NAME_MAX then zlen name else PREP_NAME_MAX in
  let t := if zlen text <? LK_MSG_BODY_MAX then zlen text else LK_MSG_BODY_MAX in
  let e := e <| e_used := true |> <| e_trunc := trunc |> <| e_gen ::= fun g => u32 (g + 1) |>
             <| e_lru := lru |> <| e_name := ztake n name |> in
  if e_text_cap e <? t then
    let '(ok, oom) := alloc oom in
    if ok then (e <| e_text_cap := t |> <| e_text := ztake t text |>, oom)
    else (e <| e_text := [] |>, oom)
  else (e <| e_text := ztake t text |>, oom).

(** [lru = 0; for (i = 1; ...) if (e[i].lru < e[lru].lru) lru = i;] *)
Fixpoint lru_from (i best : Z) (best_lru : Z) (l : list pg_prep) : Z :=
  match l with
  | [] => best
  | e :: l => if e_lru e <? best_lru then lru_from (i + 1) i (e_lru e) l
              else lru_from (i + 1) best best_lru l
  end.
Definition lru_slot k : Z :=
  match k_e k with [] => 0 | e :: l => lru_from 1 0 (e_lru e) l end.

Definition pick_slot (st : lk_proto_stats) k : Z * lk_proto_stats * pg_prep_cache :=
  let free := find_slot_from 0 (fun e => negb (e_used e)) (k_e k) in
  if 0 <=? free then (free, st, k <| k_count ::= fun n => u32 (n + 1) |>)
  else (lru_slot k, st <| ps_prep_evictions ::= inc64 |>, k).

Definition prep_upd k (slot : Z) (g : pg_prep -> pg_prep) : pg_prep_cache :=
  k <| k_e ::= alter g (Z.to_nat slot) |>.

(** A closed statement: the text buffer is kept for reuse. *)
Definition clear_slot e : pg_prep :=
  e <| e_used := false |> <| e_gen ::= fun g => u32 (g + 1) |> <| e_name := [] |> <| e_text := [] |>.

Section Prep.
Context {U F : Type}.
Implicit Types p : lk_proto U pg_conn F.

(** [if (!pc->prep) pc->prep = calloc(...)] *)
Definition prep_get pc oom : option pg_prep_cache * list bool :=
  match pc_prep pc with
  | Some k => (Some k, oom)
  | None => let '(ok, oom) := alloc oom in (if ok then Some prep_cache0 else None, oom)
  end.

Definition pg_prep_parse p pc m : lk_proto U pg_conn F * pg_conn :=
  let '(ok, name, w) := pg_wire_cstring (pg_wire_init (m_body m)) in
  if negb ok then (p, pc)
  else
    let '(have_query, query, _) := pg_wire_cstring w in
    let trunc := negb have_query || has_flag (m_flags m) LK_MSG_BODY_TRUNC in
    let '(o, oom) := prep_get pc (p_oom p) in
    match o with
    | None => (p <| p_oom := oom |>, pc)
    | Some k =>
        let found := find_by_name k name in
        let '(slot, st, k) := if found <? 0 then pick_slot (p_st p) k else (found, p_st p, k) in
        let '(pc, oom) := pg_query_rescue_refs pc slot (prep_at k slot) oom in
        let clock := u64 (k_clock k + 1) in
        let '(e, oom) := fill_slot (prep_at k slot) name query trunc clock oom in
        let k := prep_upd (k <| k_clock := clock |>) slot (fun _ => e) in
        (p <| p_st := st |> <| p_oom := oom |>, pc <| pc_prep := Some k |>)
    end.

Definition pg_prep_close pc m oom : pg_conn * list bool :=
  let '(ok, kind, w) := pg_wire_get_u8 (pg_wire_init (m_body m)) in
  if negb ok || negb (kind =? ch "S") then (pc, oom)
  else
    let '(ok, name, _) := pg_wire_cstring w in
    match pc_prep pc with
    | Some k =>
        if negb ok then (pc, oom)
        else
          let slot := find_by_name k name in
          if slot <? 0 then (pc, oom)
          else
            let '(pc, oom) := pg_query_rescue_refs pc slot (prep_at k slot) oom in
            let k := prep_upd k slot clear_slot <| k_count := u32 (k_count k - 1) |> in
            (pc <| pc_prep := Some k |>, oom)
    | None => (pc, oom)
    end.

(** The slot with its generation and truncation flag, or [None] (-1). *)
Definition pg_prep_lookup pc (name : list Z) : option (Z * Z * bool) * pg_conn :=
  match pc_prep pc with
  | None => (None, pc)
  | Some k =>
      let slot := find_by_name k name in
      if slot <? 0 then (None, pc)
      else
        let clock := u64 (k_clock k + 1) in
        let k := prep_upd (k <| k_clock := clock |>) slot (fun e => e <| e_lru := clock |>) in
        let e := prep_at k slot in
        (Some (slot, e_gen e, e_trunc e), pc <| pc_prep := Some k |>)
  end.

Definition pg_prep_free pc : pg_conn := pc <| pc_prep := None |>.
End Prep.
End Prep.

Implicit Types (pc : pg_conn) (u : pg_unit) (m : lk_msg) (oom : list bool).

(** ** CommandComplete tag *)
Fixpoint take_while (P : Z -> bool) (l : list Z) : list Z :=
  match l with [] => [] | b :: l => if P b then b :: take_while P l else [] end.
Fixpoint drop_while (P : Z -> bool) (l : list Z) : list Z :=
  match l with [] => [] | b :: l' => if P b then drop_while P l' else l end.
Definition is_space (b : Z) : bool := b =? ch " ".
Definition not_space (b : Z) : bool := negb (is_space b).

Definition counted : list (list Z) :=
  [lit "SELECT"; lit "INSERT"; lit "UPDATE"; lit "DELETE"; lit "MERGE"; lit "FETCH"; lit "MOVE"; lit "COPY"].

(** [rows] over the digits of the last token; [None] on a non-digit. *)
Fixpoint tag_number (rows : Z) (l : list Z) : option Z :=
  match l with
  | [] => Some rows
  | b :: l => if (b <? ch "0") || (ch "9" <? b) then None
              else tag_number (u64 (rows * 10 + (b - ch "0"))) l
  end.
(** The token left of the trailing spaces: the index loops from the end of the
    tag are list scans of its reversal. *)
Definition last_token (tag : list Z) : list Z :=
  rev (take_while not_space (drop_while is_space (rev tag))).
Definition tag_rows (tag : list Z) : Z :=
  if negb (existsb (fun w => bool_decide (w = take_while not_space tag)) counted) then 0
  else default 0 (tag_number 0 (last_token tag)).

Definition unit_z_closed u : bool :=
  match u_kind u with LK_Q_SIMPLE | LK_Q_FUNCTION => true | _ => false end.

(** The index of the unit a reply addresses. *)
Definition current_unit pc : option Z :=
  if pc_count pc <=? pc_nclosed pc then None else Some (pc_nclosed pc).

Definition close_one pc : pg_conn := pc <| pc_nclosed ::= fun n => u32 (n + 1) |>.

Section Query.
Context {U F : Type}.
Abbreviation proto := (lk_proto U pg_conn F).
Implicit Types (p : proto) (c : lk_conn pg_conn F).

Definition corrupt p pc : proto * pg_conn :=
  (pbump p (fun s => s <| ps_parse_errors ::= inc64 |>), (pg_query_drop_all pc).2 <| pc_degraded := true |>).

Definition unit_obs pc u (ready_ns txn_status : Z) : lk_query_obs :=
  let o := obs0 <| o_ts_start_ns := u_ts_start_ns u |> <| o_ts_first_row_ns := u_ts_first_row_ns u |>
             <| o_ts_complete_ns := u_ts_complete_ns u |> <| o_ts_ready_ns := ready_ns |>
             <| o_rows := u_rows u |> <| o_bytes := u_bytes u |>
             <| o_kind := default (u_kind u) (u_copy_kind u) |> <| o_flags := u_flags u |>
             <| o_txn_status := txn_status |> in
  let o := fill_text pc u o in
  if has_flag (u_flags u) LK_QO_ERROR then o <| o_sqlstate := u_sqlstate u |> else o.

Definition emit_unit p c pc u (ready_ns txn_status : Z) : proto :=
  let o := unit_obs pc u ready_ns txn_status in
  let p := pbump p (fun s => s <| ps_queries ::= inc64 |>) in
  let p := if has_flag (u_flags u) LK_QO_ERROR
           then pbump p (fun s => s <| ps_errors_sql ::= inc64 |>) else p in
  up_query p c (pc_session pc) o.

(** ** Frontend *)
Definition ready_to_open pc : bool :=
  bool_decide (pc_phase pc = PG_PH_READY) && negb (pc_degraded pc).

Definition pg_query_simple p pc m : proto * pg_conn :=
  if negb (ready_to_open pc) then (p, pc)
  else
    let '(o, st, pc) := ring_push (p_st p) pc in
    let p := p <| p_st := st |> in
    match o with
    | None => (p, pc)
    | Some i =>
        let u := ring_at pc i <| u_kind := LK_Q_SIMPLE |> <| u_ts_start_ns := m_ts_ns m |> in
        let '(u, oom) := set_simple_text u m (p_oom p) in
        let u := if has_flag (m_flags m) LK_MSG_BODY_TRUNC then add_flag LK_QO_TEXT_TRUNC u else u in
        (p <| p_oom := oom |>, ring_upd pc i (fun _ => u))
    end.

(** The statement name of a Bind body: portal, then name. *)
Definition bind_stmt m : option (list Z) :=
  let '(_, _, w) := pg_wire_cstring (pg_wire_init (m_body m)) in
  let '(have_stmt, stmt, _) := pg_wire_cstring w in
  if have_stmt then Some stmt else None.

Definition pg_query_bind p pc m : proto * pg_conn :=
  if negb (ready_to_open pc) then (p, pc)
  else
    let stmt := bind_stmt m in
    let '(o, st, pc) := ring_push (p_st p) pc in
    let p := p <| p_st := st |> in
    match o with
    | None => (p, pc)
    | Some i =>
        let pc := ring_upd pc i (fun u => u <| u_kind := LK_Q_EXTENDED |> <| u_ts_start_ns := m_ts_ns m |>) in
        match stmt with
        | None => (p, ring_upd pc i (add_flag LK_QO_NO_TEXT))
        | Some name =>
            let '(hit, pc) := pg_prep_lookup pc name in
            match hit with
            | None => (p, ring_upd pc i (add_flag LK_QO_NO_TEXT))
            | Some (idx, gen, trunc) =>
                (p, ring_upd pc i (fun u =>
                      let u := u <| u_prep_idx := idx |> <| u_prep_gen := gen |> in
                      if trunc then add_flag LK_QO_TEXT_TRUNC u else u))
            end
        end
    end.

Definition pg_query_function p pc m : proto * pg_conn :=
  if negb (ready_to_open pc) then (p, pc)
  else
    let '(o, st, pc) := ring_push (p_st p) pc in
    let p := p <| p_st := st |> in
    match o with
    | None => (p, pc)
    | Some i =>
        (p, ring_upd pc i (fun u => add_flag LK_QO_NO_TEXT
              (u <| u_kind := LK_Q_FUNCTION |> <| u_ts_start_ns := m_ts_ns m |>)))
    end.

(** ** Backend replies *)
Definition pg_query_data_row pc m : pg_conn :=
  match current_unit pc with
  | Some i => ring_upd pc i (fun u =>
      if u_ts_first_row_ns u =? 0 then u <| u_ts_first_row_ns := m_ts_ns m |> else u)
  | None => pc
  end.

(** [if (!unit_z_closed(u)) pc->nclosed++] *)
Definition close_extended pc i : pg_conn :=
  if unit_z_closed (ring_at pc i) then pc else close_one pc.

Definition complete_unit m (rows : Z) u : pg_unit :=
  let u := u <| u_rows ::= fun r => u64 (r + rows) |> <| u_ts_complete_ns := m_ts_ns m |>
             <| u_ncomplete ::= fun n => u32 (n + 1) |> in
  if 1 <? u_ncomplete u then add_flag LK_QO_MULTI_STMT u else u.

Definition pg_query_complete p pc m : proto * pg_conn :=
  match current_unit pc with
  | None => (p, pc)
  | Some i =>
      let '(ok, tag, _) := pg_wire_cstring (pg_wire_init (m_body m)) in
      if negb ok && negb (has_flag (m_flags m) LK_MSG_BODY_TRUNC) then corrupt p pc
      else
        let pc := ring_upd pc i (complete_unit m (if ok then tag_rows tag else 0)) in
        (p, close_extended pc i)
  end.

Definition pg_query_empty pc m : pg_conn :=
  match current_unit pc with
  | None => pc
  | Some i =>
      let pc := ring_upd pc i (fun u => add_flag LK_QO_EMPTY u <| u_ts_complete_ns := m_ts_ns m |>
                                          <| u_ncomplete ::= fun n => u32 (n + 1) |>) in
      close_extended pc i
  end.

Definition pg_query_suspended pc m : pg_conn :=
  match current_unit pc with
  | None => pc
  | Some i =>
      close_one (ring_upd pc i (fun u => add_flag LK_QO_SUSPENDED u <| u_ts_complete_ns := m_ts_ns m |>
                                           <| u_ncomplete ::= fun n => u32 (n + 1) |>))
  end.

(** The field list of an ErrorResponse: (type byte, cstring) pairs; every pair
    consumes at least two bytes, so the body's length is enough fuel. *)
Fixpoint error_fields (fuel : nat) (w : pg_wire) (sqlstate : list Z) : list Z :=
  match fuel with
  | O => sqlstate
  | S fuel =>
      let '(ok, field, w) := pg_wire_get_u8 w in
      if negb ok || (field =? 0) then sqlstate
      else
        let '(ok, val, w) := pg_wire_cstring w in
        if negb ok then sqlstate
        else
          error_fields fuel w
            (if field =? ch "C"
             then put_cstr sqlstate (if zlen val <? 5 then zlen val else 5) val else sqlstate)
  end.
Definition error_sqlstate m (sqlstate : list Z) : list Z :=
  error_fields (List.length (m_body m)) (pg_wire_init (m_body m)) sqlstate.

Definition error_unit m u : pg_unit :=
  let u := add_flag LK_QO_ERROR (u <| u_sqlstate ::= error_sqlstate m |>) <| u_ts_complete_ns := m_ts_ns m |> in
  if u_ncomplete u =? 0 then u <| u_ncomplete := 1 |> else u.

Definition abort_unit u : pg_unit :=
  add_flag LK_QO_ABORTED u <| u_ts_complete_ns := 0 |> <| u_ts_first_row_ns := 0 |>.

(** [while (pc->nclosed < pc->count) { abort; pc->nclosed++; }] *)
Fixpoint abort_tail (fuel : nat) pc : pg_conn :=
  match fuel with
  | O => pc
  | S fuel =>
      if pc_nclosed pc <? pc_count pc
      then abort_tail fuel (close_one (ring_upd pc (pc_nclosed pc) abort_unit))
      else pc
  end.

Definition pg_query_error pc m : pg_conn :=
  match current_unit pc with
  | None => pc
  | Some i =>
      let pc := ring_upd pc i (error_unit m) in
      if unit_z_closed (ring_at pc i) then pc
      else abort_tail (Z.to_nat LK_PG_MAX_INFLIGHT) (close_one pc) <| pc_phase := PG_PH_SKIP_TO_SYNC |>
  end.

Definition pg_query_func_response pc m : pg_conn :=
  match current_unit pc with
  | Some i => ring_upd pc i (fun u => u <| u_ts_complete_ns := m_ts_ns m |>
                                        <| u_ncomplete ::= fun n => u32 (n + 1) |>)
  | None => pc
  end.

(** ** COPY *)
Definition pg_query_copy_begin pc (copy_kind : lk_query_kind) : pg_conn :=
  let o := current_unit pc in
  let pc := pc <| pc_phase := match copy_kind with LK_Q_COPY_IN => PG_PH_COPY_IN | _ => PG_PH_COPY_OUT end |> in
  match o with
  | Some i => ring_upd pc i (fun u => u <| u_copy_kind := Some copy_kind |>)
  | None => pc
  end.

Definition pg_query_copy_data pc m : pg_conn :=
  match current_unit pc with
  | Some i => ring_upd pc i (fun u => u <| u_bytes ::= fun b => u64 (b + m_len m) |>)
  | None => pc
  end.

Definition pg_query_copy_both p c pc : proto * lk_conn pg_conn F * pg_conn :=
  (pbump p (fun s => s <| ps_replication_conns ::= inc64 |>),
   c <| c_flags ::= fun w => set_flag w LK_CONN_REPLICATION |>,
   (pg_query_drop_all pc).2 <| pc_phase := PG_PH_IGNORE |>).

(** ** ReadyForQuery *)
(** The unit as it is emitted: a function call may have had no reply of its own. *)
Definition ready_unit m u : pg_unit :=
  if unit_z_closed u && (u_ts_complete_ns u =? 0) then u <| u_ts_complete_ns := m_ts_ns m |> else u.
Definition ready_ns m u : Z := if has_flag (u_flags u) LK_QO_ABORTED then 0 else m_ts_ns m.

Fixpoint ready_loop (n : nat) (i : Z) p c pc m (status : Z) : proto * pg_conn :=
  match n with
  | O => (p, pc)
  | S n =>
      if (i <? pc_nclosed pc) || unit_z_closed (ring_at pc i) then
        let pc := ring_upd pc i (ready_unit m) in
        let u := ring_at pc i in
        let p := emit_unit p c pc u (ready_ns m u) status in
        ready_loop n (i + 1) p c pc m status
      else ready_loop n (i + 1) p c pc m status
  end.

(** The transaction edge of a Z with a known status. *)
Definition track_txn p c pc m (status : Z) : proto * pg_conn :=
  if status =? 0 then (p, pc)
  else
    let prev := pc_txn_status pc in
    let open := (prev =? ch "T") || (prev =? ch "E") in
    let '(p, pc) :=
      if (status =? ch "T") && negb open then (p, pc <| pc_txn_start_ns := m_ts_ns m |>)
      else if (status =? ch "I") && open then (up_txn p c (pc_txn_start_ns pc) (m_ts_ns m) prev, pc)
      else (p, pc) in
    (p, pc <| pc_txn_status := status |>).

Definition leave_subphase pc : pg_conn :=
  match pc_phase pc with
  | PG_PH_SKIP_TO_SYNC | PG_PH_COPY_IN | PG_PH_COPY_OUT => pc <| pc_phase := PG_PH_READY |>
  | _ => pc
  end.

(** The batch is over: the ring resets and the boundary is clean. *)
Definition batch_done pc : pg_conn :=
  pc <| pc_head := 0 |> <| pc_count := 0 |> <| pc_nclosed := 0 |> <| pc_lossy := false |> <| pc_degraded := false |>.

Definition ready_status m : Z := let '(ok, sb, _) := pg_wire_get_u8 (pg_wire_init (m_body m)) in if ok then sb else 0.

Definition pg_query_ready p c pc m : proto * pg_conn :=
  let status := ready_status m in
  let '(p, pc) := if pc_lossy pc then (p, pc)
                  else ready_loop (Z.to_nat (pc_count pc)) 0 p c pc m status in
  track_txn p c (leave_subphase (batch_done pc)) m status.
End Query.
