(* ===== verification/Pg.v ===== *)
(** The PostgreSQL handler, [proto/pg/pg.c]: state allocation, dispatch by
    direction and type, and the sink it installs under the framer. *)
From Stdlib Require Import Ascii String.
From stdpp Require Import base list.
From S2P Require Import Prelude Conn PgFrame Proto PgConn PgQuery.
#[local] Open Scope Z_scope.

(** ** Sessions

    Startup, authentication and session labels, [proto/pg/pg_session.c]. *)
Section Labels.
Implicit Types (pc : pg_conn) (m : lk_msg) (s : lk_session).

(** [dst] is a fixed array of [zlen dst] bytes. *)
Definition copy_field (dst src : list Z) : list Z :=
  put_cstr dst (if zlen src <? zlen dst - 1 then zlen src else zlen dst - 1) src.
Definition key_is (key : list Z) (l : list Z) : bool :=
  (zlen key =? zlen l) && bool_decide (key = l).

Definition set_param s (key val : list Z) : lk_session :=
  if key_is key (lit "user") then s <| s_user ::= fun d => copy_field d val |>
  else if key_is key (lit "database") then s <| s_database ::= fun d => copy_field d val |>
  else if key_is key (lit "application_name") then s <| s_app ::= fun d => copy_field d val |>
  else s.

(** Every pair consumes at least two bytes: the remaining length is enough fuel. *)
Fixpoint parse_params (fuel : nat) s (w : pg_wire) : lk_session :=
  match fuel with
  | O => s
  | S fuel =>
      let '(ok, key, w) := pg_wire_cstring w in
      if negb ok || (zlen key =? 0) then s
      else
        let '(val_ok, val, w) := pg_wire_cstring w in
        let s := set_param s key val in
        if negb val_ok then s else parse_params fuel s w
  end.

Section Session.
Context {U F : Type}.
Abbreviation proto := (lk_proto U pg_conn F).
Implicit Types (p : proto) (c : lk_conn pg_conn F).

Definition emit_cancel p c pc : proto * pg_conn :=
  let p := pbump p (fun st => st <| ps_queries ::= inc64 |>) in
  (up_query p c (pc_session pc) (obs0 <| o_kind := LK_Q_CANCEL |>), pc <| pc_phase := PG_PH_IGNORE |>).

Definition pg_session_startup p c pc m : proto * pg_conn :=
  let '(ok, code, w) := pg_wire_get_u32 (pg_wire_init (m_body m)) in
  if negb ok then (p, pc)
  else if code =? LK_PG_PROTO_V3 then
    (p, pc <| pc_session ::= fun s => parse_params (List.length (w_rest w)) s w
                                      <| s_complete := negb (has_flag (m_flags m) LK_MSG_BODY_TRUNC) |> |>
           <| pc_phase := PG_PH_AUTH |>)
  else if code =? LK_PG_CANCEL_REQUEST then emit_cancel p c pc
  else (p, pc).

Definition pg_session_auth p c pc m : proto * pg_conn :=
  if negb (bool_decide (pc_phase pc = PG_PH_AUTH)) then (p, pc)
  else
    let '(ok, code, _) := pg_wire_get_u32 (pg_wire_init (m_body m)) in
    if negb ok || negb (code =? 0) then (p, pc)
    else
      let pc := pc <| pc_phase := PG_PH_READY |> in
      let p := pbump p (fun st => st <| ps_sessions ::= inc64 |>) in
      (up_session p c (pc_session pc), pc).
End Session.

Definition pg_session_param_status pc m : pg_conn :=
  let '(ok1, key, w) := pg_wire_cstring (pg_wire_init (m_body m)) in
  let '(ok2, val, _) := pg_wire_cstring w in
  if negb (ok1 && ok2) then pc
  else if key_is key (lit "server_version")
  then pc <| pc_session ::= fun s => s <| s_server_version ::= fun d => copy_field d val |> |> else pc.
End Labels.

Section Pg.
Context {U F : Type}.
Abbreviation proto := (lk_proto U pg_conn F).
Abbreviation conn := (lk_conn pg_conn F).
Implicit Types (p : proto) (c : conn) (pc : pg_conn) (m : lk_msg) (d : lk_dir).

Definition pg_conn_get p c : option pg_conn * proto * conn :=
  match c_proto_state c with
  | Some pc => (Some pc, p, c)
  | None =>
      let '(ok, oom) := alloc (p_oom p) in
      let p := p <| p_oom := oom |> in
      if negb ok then (None, p, c)
      else
        let pc := if has_flag (c_flags c) LK_CONN_SYNTHETIC
                  then pg_conn0 <| pc_phase := PG_PH_READY |> <| pc_degraded := true |>
                  else pg_conn0 <| pc_phase := PG_PH_STARTUP |> in
        (Some pc, pbump p (fun s => s <| ps_conns ::= inc64 |>), c <| c_proto_state := Some pc |>)
  end.

Definition unknown p : proto := pbump p (fun s => s <| ps_unknown_msgs ::= inc64 |>).
Definition type_in (ty : Z) (s : string) : bool := existsb (Z.eqb ty) (lit s).

Definition pg_frontend_msg p c pc m : proto * pg_conn :=
  let ty := m_type m in
  if bool_decide (pc_phase pc = PG_PH_IGNORE) then (p, pc)
  else if has_flag (m_flags m) LK_MSG_STARTUP then pg_session_startup p c pc m
  else if ty =? ch "Q" then pg_query_simple p pc m
  else if ty =? ch "P" then pg_prep_parse p pc m
  else if ty =? ch "B" then pg_query_bind p pc m
  else if ty =? ch "F" then pg_query_function p pc m
  else if ty =? ch "C" then
    let '(pc, oom) := pg_prep_close pc m (p_oom p) in (p <| p_oom := oom |>, pc)
  else if type_in ty "pEDSHX" then (p, pc)
  else if ty =? ch "d" then (p, pg_query_copy_data pc m)
  else if type_in ty "cf" then (p, pc)
  else (unknown p, pc).

Definition pg_backend_msg p c pc m : proto * conn * pg_conn :=
  let ty := m_type m in
  let keep '(p, pc) := (p, c, pc) in
  if bool_decide (pc_phase pc = PG_PH_IGNORE) then (p, c, pc)
  else if ty =? ch "R" then keep (pg_session_auth p c pc m)
  else if ty =? ch "S" then (p, c, pg_session_param_status pc m)
  else if ty =? ch "D" then (p, c, pg_query_data_row pc m)
  else if ty =? ch "C" then keep (pg_query_complete p pc m)
  else if ty =? ch "I" then (p, c, pg_query_empty pc m)
  else if ty =? ch "s" then (p, c, pg_query_suspended pc m)
  else if ty =? ch "E" then (p, c, pg_query_error pc m)
  else if ty =? ch "V" then (p, c, pg_query_func_response pc m)
  else if ty =? ch "Z" then keep (pg_query_ready p c pc m)
  else if type_in ty "Ttn123NAK" then (p, c, pc)
  else if ty =? ch "G" then (p, c, pg_query_copy_begin pc LK_Q_COPY_IN)
  else if ty =? ch "H" then (p, c, pg_query_copy_begin pc LK_Q_COPY_OUT)
  else if ty =? ch "d" then (p, c, pg_query_copy_data pc m)
  else if ty =? ch "c" then (p, c, pc)
  else if ty =? ch "W" then pg_query_copy_both p c pc
  else (unknown p, c, pc).

(** Write the state back through [c->proto_state]. *)
Definition put_state c pc : conn := c <| c_proto_state := Some pc |>.

Definition tally p d m : proto :=
  let p := pbump p (fun s => s <| ps_msgs ::= inc64 |>) in
  let p := if has_flag (m_flags m) LK_MSG_STARTUP
           then pbump p (fun s => s <| ps_startup_msgs ::= inc64 |>) else p in
  pbump p (count_type d (u8 (m_type m))).

Definition pg_on_msg p c d m : proto * conn :=
  let '(o, p, c) := pg_conn_get p c in
  let p := tally p d m in
  match o with
  | None => (p, c)
  | Some pc =>
      let pc := pc <| pc_msgs ::= inc64 |> in
      match d with
      | LK_DIR_RECV => let '(p, pc) := pg_frontend_msg p c pc m in (p, put_state c pc)
      | LK_DIR_SEND => let '(p, c, pc) := pg_backend_msg p c pc m in (p, put_state c pc)
      end
  end.

Definition resync_state pc : pg_conn :=
  leave_subphase ((pg_query_drop_all pc).2 <| pc_degraded := true |> <| pc_txn_status := 0 |>).

Definition pg_on_resync p c d : proto * conn :=
  let '(o, p, c) := pg_conn_get p c in
  let p := pbump p (fun s => s <| ps_resyncs ::= inc64 |>) in
  match o with
  | None => (p, c)
  | Some pc =>
      let p := pbump p (fun s => s <| ps_units_dropped_resync ::= fun n => u64 (n + pc_count pc) |>) in
      (p, put_state c (resync_state pc))
  end.

Definition pg_on_conn_close p c : proto * conn :=
  let p := match c_proto_state c with
           | Some pc => pbump p (fun s => s <| ps_units_dropped_close ::= fun n => u64 (n + pc_count pc) |>)
           | None => p
           end in
  (p, c <| c_proto_state := None |>).

(** The sink [lk_proto_pg_new] installs. *)
Definition pg_sink : lk_msg_sink proto pg_conn F :=
  Sink (Some pg_on_msg) (Some pg_on_conn_close) (Some pg_on_resync).
Definition lk_proto_pg_new (out : option (lk_query_sink U pg_conn F)) (up : U) (oom : list bool) : option proto :=
  let '(ok, oom) := alloc oom in
  if ok then Some (Proto (default (QSink None None None) out) up pstats0 oom) else None.
End Pg.
