(* ===== verification/PgFacts.v ===== *)
(** The invariant of the PostgreSQL handler's connection state: ring indices and
    buffers in bounds, the cache consistent, every in-flight unit's reference
    into the cache live. *)
From Stdlib Require Import Ascii String.
From stdpp Require Import base list.
From S2P Require Import Prelude Conn Proto PgFrame PgConn PgQuery Pg.
#[local] Open Scope Z_scope.
Implicit Types (pc : pg_conn) (u : pg_unit) (k : pg_prep_cache) (e : pg_prep) (m : lk_msg) (oom : list bool).

(** The units of the current batch, oldest first. *)
Definition view pc : list pg_unit := take (Z.to_nat (pc_count pc)) (pc_ring pc).

Record unit_wf u : Prop := UnitWf {
  uw_text : zlen (u_own_text u) <= u_own_cap u;
  uw_cap : 0 <= u_own_cap u <= LK_MSG_BODY_MAX;
  uw_sqlstate : zlen (u_sqlstate u) = 6 }.

Record prep_wf e : Prop := PrepWf {
  ew_text : zlen (e_text e) <= e_text_cap e;
  ew_cap : 0 <= e_text_cap e <= LK_MSG_BODY_MAX;
  ew_name : zlen (e_name e) <= PREP_NAME_MAX }.

Definition used_count (l : list pg_prep) : Z := zlen (List.filter e_used l).
Record cache_wf k : Prop := CacheWf {
  cw_len : length (k_e k) = 256%nat;
  cw_entries : Forall prep_wf (k_e k);
  cw_count : k_count k = used_count (k_e k) }.

(** A unit's text reference, if it has one, is to a live slot of the generation
    it saw at Bind. *)
Definition ref_ok (o : option pg_prep_cache) u : Prop :=
  u_prep_idx u = -1 \/
  exists k, o = Some k /\ 0 <= u_prep_idx u < LK_PG_PREP_CACHE /\
    e_used (prep_at k (u_prep_idx u)) = true /\ e_gen (prep_at k (u_prep_idx u)) = u_prep_gen u.

Record pg_wf pc : Prop := PgWf {
  pw_len : length (pc_ring pc) = 64%nat;
  pw_head : pc_head pc = 0;
  pw_closed : 0 <= pc_nclosed pc <= pc_count pc;
  pw_count : pc_count pc <= LK_PG_MAX_INFLIGHT;
  pw_units : Forall unit_wf (pc_ring pc);
  pw_prep : forall k, pc_prep pc = Some k -> cache_wf k;
  pw_refs : Forall (ref_ok (pc_prep pc)) (view pc) }.

(** ** The ring as a list *)
Section ring.
Variable pc : pg_conn.
Hypothesis W : pg_wf pc.

Lemma idx_lt i : 0 <= i < LK_PG_MAX_INFLIGHT -> ring_idx pc i = Z.to_nat i.
Proof. intros Hi. unfold ring_idx. rewrite (pw_head _ W), Z.add_0_l, Z.mod_small by done. done. Qed.

Lemma view_len : length (view pc) = Z.to_nat (pc_count pc).
Proof. destruct W. unfold view, LK_PG_MAX_INFLIGHT in *. rewrite length_take. lia. Qed.

Lemma ring_at_view i : 0 <= i < pc_count pc -> view pc !! Z.to_nat i = Some (ring_at pc i).
Proof.
  intros Hi. destruct W. unfold view, ring_at. rewrite idx_lt by lia. rewrite lookup_take_lt by lia.
  unfold LK_PG_MAX_INFLIGHT in *. destruct (lookup_lt_is_Some_2 (pc_ring pc) (Z.to_nat i)) as [u Hu]; [lia|].
  rewrite Hu. f_equal. symmetry. by apply nth_lookup_Some.
Qed.

Lemma view_upd i g : 0 <= i < LK_PG_MAX_INFLIGHT -> view (ring_upd pc i g) = alter g (Z.to_nat i) (view pc).
Proof.
  intros Hi. unfold view, ring_upd. cbn. rewrite idx_lt by done.
  generalize (Z.to_nat (pc_count pc)) as n. generalize (Z.to_nat i) as j.
  intros j. generalize (pc_ring pc) as l. clear. intros l n. revert j n.
  induction l as [|x l IH]; intros j n; [by destruct n|]. destruct n as [|n]; [by destruct j|].
  destruct j as [|j]; [done|]. cbn. f_equal. apply IH.
Qed.

Lemma upd_fields i g :
  pc_head (ring_upd pc i g) = pc_head pc /\ pc_count (ring_upd pc i g) = pc_count pc /\ pc_nclosed (ring_upd pc i g) = pc_nclosed pc /\
  pc_prep (ring_upd pc i g) = pc_prep pc /\ length (pc_ring (ring_upd pc i g)) = length (pc_ring pc).
Proof. split_and!; try done. apply length_alter. Qed.
End ring.

Lemma Forall_alter_in {A} (P : A -> Prop) g j (l : list A) :
  Forall P l -> (forall x, P x -> P (g x)) -> Forall P (alter g j l).
Proof. intros Hl Hg. apply Forall_alter; [done|]. intros x Hx ?. by apply Hg. Qed.

(** Updating a unit without touching its reference. *)
Definition keeps_ref (g : pg_unit -> pg_unit) : Prop :=
  forall u, u_prep_idx (g u) = u_prep_idx u /\ u_prep_gen (g u) = u_prep_gen u.
Definition keeps_wf (g : pg_unit -> pg_unit) : Prop := forall u, unit_wf u -> unit_wf (g u).

Lemma ref_keep o g u : keeps_ref g -> ref_ok o u -> ref_ok o (g u).
Proof. intros Hg. destruct (Hg u) as [E1 E2]. unfold ref_ok. by rewrite E1, E2. Qed.

Lemma upd_wf_gen pc i g :
  pg_wf pc -> 0 <= i < LK_PG_MAX_INFLIGHT -> keeps_wf g ->
  (forall u, unit_wf u -> ref_ok (pc_prep pc) u -> ref_ok (pc_prep pc) (g u)) -> pg_wf (ring_upd pc i g).
Proof.
  intros W Hi Hg Hr. destruct (upd_fields pc i g) as (E1 & E2 & E3 & E4 & E5). pose proof W as [].
  split; try (rewrite ?E1, ?E2, ?E3, ?E5; done).
  - apply Forall_alter_in; [done|exact Hg].
  - rewrite E4, view_upd by done. apply Forall_alter; [done|].
    intros x Hx Hr'. apply Hr; [|done]. eapply (Forall_lookup_1 unit_wf); [|exact Hx]. by apply Forall_take.
Qed.

Lemma upd_wf pc i g :
  pg_wf pc -> 0 <= i < LK_PG_MAX_INFLIGHT -> keeps_wf g -> keeps_ref g -> pg_wf (ring_upd pc i g).
Proof. intros W Hi Hg Hr. apply upd_wf_gen; try done. intros u _. by apply ref_keep. Qed.

Lemma at_wf pc i : pg_wf pc -> unit_wf (ring_at pc i).
Proof.
  intros []. unfold ring_at. destruct (nth_in_or_default (ring_idx pc i) (pc_ring pc) unit0) as [Hin| ->].
  - apply list_elem_of_In in Hin. by apply (Forall_forall unit_wf (pc_ring pc)).
  - split; concrete.
Qed.

Lemma at_ref pc i : pg_wf pc -> 0 <= i < pc_count pc -> ref_ok (pc_prep pc) (ring_at pc i).
Proof.
  intros W Hi. pose proof (ring_at_view pc W i Hi) as H. apply list_elem_of_lookup_2 in H.
  by apply (Forall_forall (ref_ok (pc_prep pc)) (view pc)); [apply W|].
Qed.

Lemma current_range pc i : pg_wf pc -> current_unit pc = Some i -> 0 <= i < pc_count pc /\ i = pc_nclosed pc.
Proof.
  intros []. unfold current_unit. destruct (Z.leb_spec (pc_count pc) (pc_nclosed pc)); [done|]. intros E; injection E as <-. lia.
Qed.

(** ** Loops over the ring: slots [i, i + n) are rewritten by [R] *)
Definition ring_rel (R : pg_unit -> pg_unit -> Prop) (i : Z) (n : nat) pc pc' : Prop :=
  exists l, pc' = pc <| pc_ring := l |> /\ length l = length (pc_ring pc) /\
    forall j : nat, (i <= Z.of_nat j < i + Z.of_nat n -> option_Forall2 R (pc_ring pc !! j) (l !! j)) /\
                    (~ i <= Z.of_nat j < i + Z.of_nat n -> l !! j = pc_ring pc !! j).

Lemma ring_rel_0 R i pc : ring_rel R i 0 pc pc.
Proof. exists (pc_ring pc). split_and!; [by destruct pc|done|]. intros j. split; [lia|done]. Qed.

Lemma ring_rel_step R i n pc pc' g :
  pc_head pc = 0 -> length (pc_ring pc) = 64%nat -> 0 <= i < LK_PG_MAX_INFLIGHT ->
  R (ring_at pc i) (g (ring_at pc i)) -> ring_rel R (i + 1) n (ring_upd pc i g) pc' -> ring_rel R i (S n) pc pc'.
Proof.
  intros Hh Hl Hi HR (l & -> & Hlen & Hj). exists l.
  assert (ring_idx pc i = Z.to_nat i) as Ei.
  { unfold ring_idx. rewrite Hh, Z.add_0_l, Z.mod_small by done. done. }
  unfold LK_PG_MAX_INFLIGHT in Hi. unfold ring_at in HR. rewrite Ei in HR.
  assert (pc_ring (ring_upd pc i g) = alter g (Z.to_nat i) (pc_ring pc)) as Er by (rewrite <- Ei; done).
  rewrite Er in *. rewrite length_alter in Hlen. split_and!; [by destruct pc|done|]. intros j.
  destruct (Hj j) as [Hin Hout]. destruct (decide (j = Z.to_nat i)) as [->|Hne].
  - split; [|lia]. intros _. rewrite Hout by lia. rewrite list_lookup_alter_eq.
    destruct (lookup_lt_is_Some_2 (pc_ring pc) (Z.to_nat i)) as [u Hu]; [lia|]. rewrite Hu.
    rewrite (nth_lookup_Some _ _ unit0 _ Hu) in HR. by constructor.
  - rewrite (list_lookup_alter_ne g (pc_ring pc) (Z.to_nat i) j) in Hin, Hout by done.
    split; intros H; [apply Hin|apply Hout]; lia.
Qed.

Lemma ring_for_rel g n : forall i pc, pc_head pc = 0 -> length (pc_ring pc) = 64%nat -> 0 <= i ->
  i + Z.of_nat n <= LK_PG_MAX_INFLIGHT -> ring_rel (fun u u' => u' = g u) i n pc (ring_for n i g pc).
Proof.
  induction n as [|n IH]; intros i pc Hh Hl Hi Hn; [apply ring_rel_0|]. cbn [ring_for].
  eapply ring_rel_step; [done|done|lia|reflexivity|]. apply IH; [done| |lia|lia].
  unfold ring_upd. cbn. by rewrite length_alter.
Qed.

Definition rescued (slot : Z) e (oom : list bool) u u' : Prop :=
  exists o, (oom = [] -> o = []) /\ u' = (rescue_unit slot e u o).1.

Lemma own_grow_nil u n : own_grow u n [] = (true, if u_own_cap u <? n then u <| u_own_cap := n |> else u, []).
Proof. unfold own_grow. by destruct (_ <? n). Qed.

Lemma rescue_unit_nil slot e u : (rescue_unit slot e u []).2 = [].
Proof.
  unfold rescue_unit. destruct (_ || _); [done|]. rewrite own_grow_nil.
  destruct (0 <? zlen (e_text e)); done.
Qed.

Lemma rescue_loop_rel slot e n : forall i pc oom oom0 pc' oom',
  rescue_loop n i slot e pc oom = (pc', oom') -> pc_head pc = 0 -> length (pc_ring pc) = 64%nat -> 0 <= i ->
  i + Z.of_nat n <= LK_PG_MAX_INFLIGHT -> (oom0 = [] -> oom = []) ->
  ring_rel (rescued slot e oom0) i n pc pc' /\ (oom0 = [] -> oom' = []).
Proof.
  induction n as [|n IH]; intros i pc oom oom0 pc' oom' E Hh Hl Hi Hn Ho; cbn [rescue_loop] in E.
  { injection E as <- <-. split; [apply ring_rel_0|done]. }
  destruct (rescue_unit slot e (ring_at pc i) oom) as [u o1] eqn:Eu.
  destruct (IH _ _ _ oom0 _ _ E) as [Hr Ho']; [done| |lia|lia| |].
  - unfold ring_upd. cbn. by rewrite length_alter.
  - intros H. specialize (Ho H). subst oom. pose proof (rescue_unit_nil slot e (ring_at pc i)) as E'. by rewrite Eu in E'.
  - split; [|done]. eapply ring_rel_step; [done|done|lia| |exact Hr].
    exists oom. split; [done|]. by rewrite Eu.
Qed.

Lemma ring_rel_view R pc pc' :
  pg_wf pc -> ring_rel R 0 (Z.to_nat (pc_count pc)) pc pc' -> Forall2 R (view pc) (view pc').
Proof.
  intros W (l & -> & Hl & Hj). pose proof W as []. unfold view. cbn. unfold LK_PG_MAX_INFLIGHT in *.
  apply Forall2_same_length_lookup_2; [rewrite !length_take; lia|].
  intros j x y. rewrite !lookup_take_Some. intros [Hx Hlt] [Hy _].
  destruct (Hj j) as [Hin _]. specialize (Hin ltac:(lia)). rewrite Hx, Hy in Hin. by inversion Hin.
Qed.

(** Every slot is either rewritten or untouched. *)
Lemma ring_rel_units R i n pc pc' :
  ring_rel R i n pc pc' -> (forall u u', unit_wf u -> R u u' -> unit_wf u') ->
  Forall unit_wf (pc_ring pc) -> Forall unit_wf (pc_ring pc').
Proof.
  intros (l & -> & Hl & Hj) HR Hu. cbn. apply Forall_lookup_2. intros j u' Hu'.
  destruct (Hj j) as [Hin Hout].
  destruct (decide (i <= Z.of_nat j < i + Z.of_nat n)) as [Hd|Hd].
  - specialize (Hin Hd). rewrite Hu' in Hin. inversion Hin as [u u'' HRu E|]; subst.
    eapply HR; [|exact HRu]. eapply (Forall_lookup_1 unit_wf); [exact Hu|by symmetry].
  - rewrite (Hout Hd) in Hu'. by eapply (Forall_lookup_1 unit_wf).
Qed.

(** ** The cache *)
Lemma prep_find_spec P l : forall i, 0 <= i ->
  (find_slot_from i P l = -1 /\ Forall (fun e => P e = false) l) \/
  (exists j e, find_slot_from i P l = i + Z.of_nat j /\ l !! j = Some e /\ P e = true).
Proof.
  induction l as [|e l IH]; intros i Hi; [by left|]. cbn [find_slot_from]. destruct (P e) eqn:E.
  - right. exists 0%nat, e. split_and!; [lia|done|done].
  - destruct (IH (i + 1)) as [[-> Hf]|(j & e' & -> & Hj & He')]; [lia| |].
    + left. split; [done|by constructor].
    + right. exists (S j), e'. split_and!; [lia|done|done].
Qed.

Lemma lru_from_range l : forall i best bl, 0 <= best < i ->
  0 <= lru_from i best bl l < i + zlen l.
Proof.
  induction l as [|e l IH]; intros i best bl Hb; cbn [lru_from]; [change (zlen []) with 0; lia|].
  rewrite zlen_cons. destruct (_ <? _).
  - destruct (IH (i + 1) i (e_lru e)); lia.
  - destruct (IH (i + 1) best bl); lia.
Qed.

Lemma used_count_cons e l : used_count (e :: l) = used_count l + Z.b2z (e_used e).
Proof. unfold used_count. cbn. destruct (e_used e); rewrite ?zlen_cons; cbn; lia. Qed.

Lemma used_count_alter g j l e : l !! j = Some e ->
  used_count (alter g j l) = used_count l - Z.b2z (e_used e) + Z.b2z (e_used (g e)).
Proof.
  revert j. induction l as [|x l IH]; intros j Hj; [done|]. destruct j as [|j].
  - injection Hj as ->. change (alter g 0%nat (e :: l)) with (g e :: l). rewrite !used_count_cons. lia.
  - change (alter g (S j) (x :: l)) with (x :: alter g j l). cbn in Hj. rewrite !used_count_cons, (IH j) by done. lia.
Qed.

Lemma used_count_full l : Forall (fun e => negb (e_used e) = false) l -> used_count l = zlen l.
Proof.
  induction 1 as [|e l He _ IH]; [done|]. rewrite used_count_cons, zlen_cons, IH.
  apply negb_false_iff in He. by rewrite He.
Qed.

Lemma used_count_range l : 0 <= used_count l <= zlen l.
Proof.
  induction l as [|e l IH]; [done|]. rewrite used_count_cons, zlen_cons. destruct (e_used e); cbn; lia.
Qed.

Definition slot_ok (slot : Z) : Prop := 0 <= slot < LK_PG_PREP_CACHE.

Lemma prep_at_lookup k slot : cache_wf k -> slot_ok slot -> k_e k !! Z.to_nat slot = Some (prep_at k slot).
Proof.
  intros W Hs. pose proof (cw_len _ W). unfold slot_ok, LK_PG_PREP_CACHE, prep_at in *.
  destruct (lookup_lt_is_Some_2 (k_e k) (Z.to_nat slot)) as [e He]; [lia|]. rewrite He. f_equal. symmetry. by apply nth_lookup_Some.
Qed.

Lemma prep_at_wf k slot : cache_wf k -> slot_ok slot -> prep_wf (prep_at k slot).
Proof. intros W Hs. eapply (Forall_lookup_1 prep_wf); [apply W|by apply prep_at_lookup]. Qed.

Lemma prep_at_upd k slot g s :
  cache_wf k -> slot_ok slot -> slot_ok s ->
  prep_at (prep_upd k slot g) s = if s =? slot then g (prep_at k slot) else prep_at k s.
Proof.
  intros W Hs Hs'. pose proof (prep_at_lookup k s W Hs') as H1. pose proof (prep_at_lookup k slot W Hs) as H2.
  unfold prep_at at 1. unfold prep_upd. cbn. destruct (Z.eqb_spec s slot) as [->|Hne].
  - apply nth_lookup_Some. rewrite list_lookup_alter_eq, H2. done.
  - apply nth_lookup_Some. rewrite list_lookup_alter_ne; [done|]. unfold slot_ok, LK_PG_PREP_CACHE in *. lia.
Qed.

(** Rewriting a slot, with the occupancy counter kept in step. *)
Lemma prep_upd_wf k slot g cnt clk :
  cache_wf k -> slot_ok slot -> prep_wf (g (prep_at k slot)) ->
  cnt = k_count k - Z.b2z (e_used (prep_at k slot)) + Z.b2z (e_used (g (prep_at k slot))) ->
  cache_wf (prep_upd k slot g <| k_count := cnt |> <| k_clock := clk |>).
Proof.
  intros W Hs Hg ->. pose proof (prep_at_lookup k slot W Hs) as He. pose proof W as []. split; cbn.
  - by rewrite length_alter.
  - apply Forall_alter; [done|]. intros x Hx _. rewrite He in Hx. by injection Hx as <-.
  - rewrite (used_count_alter _ _ _ _ He). by rewrite cw_count0.
Qed.

Lemma find_by_name_spec k name (s := find_by_name k name) :
  cache_wf k -> s < 0 \/ slot_ok s /\ e_used (prep_at k s) = true /\ e_name (prep_at k s) = name.
Proof.
  intros W. subst s. unfold find_by_name. destruct (prep_find_spec (name_is name) (k_e k) 0) as [[-> _]|(j & e & -> & Hj & He)]; [lia|by left|].
  right. unfold name_is in He. apply andb_true_iff in He as [He Hn]. apply andb_true_iff in He as [Hu _].
  apply bool_decide_eq_true in Hn. assert (slot_ok (0 + Z.of_nat j)) as Hs.
  { pose proof (lookup_lt_Some _ _ _ Hj). rewrite (cw_len _ W) in *. unfold slot_ok, LK_PG_PREP_CACHE. lia. }
  pose proof (prep_at_lookup k _ W Hs) as Hp. replace (Z.to_nat (0 + Z.of_nat j)) with j in Hp by lia.
  rewrite Hj in Hp. injection Hp as <-. done.
Qed.

Lemma fill_slot_wf e name text trunc lru oom e' oom' :
  fill_slot e name text trunc lru oom = (e', oom') -> prep_wf e ->
  prep_wf e' /\ e_used e' = true /\ e_gen e' = u32 (e_gen e + 1).
Proof.
  intros E []. unfold fill_slot in E.
  set (n := if zlen name <? PREP_NAME_MAX then zlen name else PREP_NAME_MAX) in E.
  set (t := if zlen text <? LK_MSG_BODY_MAX then zlen text else LK_MSG_BODY_MAX) in E.
  assert (0 <= n <= PREP_NAME_MAX).
  { subst n. pose proof (zlen_nonneg name). unfold PREP_NAME_MAX. destruct (Z.ltb_spec (zlen name) 63); lia. }
  assert (0 <= t <= LK_MSG_BODY_MAX /\ t <= zlen text).
  { subst t. pose proof (zlen_nonneg text). unfold LK_MSG_BODY_MAX. destruct (Z.ltb_spec (zlen text) 16384); lia. }
  assert (zlen (ztake n name) <= PREP_NAME_MAX) by (rewrite zlen_ztake; lia).
  assert (zlen (ztake t text) = t) by (rewrite zlen_ztake; lia).
  cbn [e_text_cap upd] in E. clearbody n t.
  destruct (Z.ltb_spec (e_text_cap e) t); [destruct (alloc oom) as [ok ?]; destruct ok|];
    injection E as <- <-; (split; [split; cbn -[zlen]; try change (zlen (@nil Z)) with 0; done || lia|done]).
Qed.
