(* ===== verification/PgPrepFacts.v ===== *)
(** The prepared-statement cache and the text of in-flight units: Parse and
    Close keep the invariant, and never change the text an in-flight unit will
    report. *)
From Stdlib Require Import Ascii String.
From stdpp Require Import base list.
From S2P Require Import Prelude Conn Proto PgFrame PgConn PgQuery Pg PgFacts.
#[local] Open Scope Z_scope.
Implicit Types (pc : pg_conn) (u : pg_unit) (k : pg_prep_cache) (e : pg_prep) (m : lk_msg) (oom : list bool).

(** ** Text by value *)
Definition nonempty (l : list Z) : option (list Z) := if zlen l =? 0 then None else Some l.
Definition unit_text (o : option pg_prep_cache) u : option (list Z) :=
  if has_flag (u_flags u) LK_QO_NO_TEXT then None
  else match o with
       | Some k =>
           if 0 <=? u_prep_idx u then
             let e := prep_at k (u_prep_idx u) in
             if e_used e && (e_gen e =? u_prep_gen u) then nonempty (e_text e) else None
           else nonempty (u_own_text u)
       | None => nonempty (u_own_text u)
       end.

Lemma fill_text_eq pc u o : o_text o = None -> fill_text pc u o = o <| o_text := unit_text (pc_prep pc) u |>.
Proof.
  intros Ho. assert (o <| o_text := None |> = o) as E by (destruct o; cbn in *; by subst).
  unfold fill_text, unit_text, nonempty. destruct (has_flag _ _); [by rewrite E|].
  destruct (pc_prep pc) as [k|]; [destruct (0 <=? _)|].
  - destruct (e_used _ && _); [|by rewrite E]. cbn [andb]. destruct (zlen _ =? 0); [by rewrite E|done].
  - destruct (zlen _ =? 0); [by rewrite E|done].
  - destruct (zlen _ =? 0); [by rewrite E|done].
Qed.

(** Everything a unit will report, its text by value. *)
Record aunit := AUnit {
  a_ts_start_ns : Z; a_ts_first_row_ns : Z; a_ts_complete_ns : Z; a_rows : Z; a_bytes : Z;
  a_ncomplete : Z; a_kind : lk_query_kind; a_copy_kind : option lk_query_kind; a_flags : Z;
  a_sqlstate : list Z; a_text : option (list Z) }.
#[global] Instance aunit_upd : Updatable aunit := fun a =>
  AUnit (a_ts_start_ns a) (a_ts_first_row_ns a) (a_ts_complete_ns a) (a_rows a) (a_bytes a)
        (a_ncomplete a) (a_kind a) (a_copy_kind a) (a_flags a) (a_sqlstate a) (a_text a).
Definition abs (o : option pg_prep_cache) u : aunit :=
  AUnit (u_ts_start_ns u) (u_ts_first_row_ns u) (u_ts_complete_ns u) (u_rows u) (u_bytes u)
        (u_ncomplete u) (u_kind u) (u_copy_kind u) (u_flags u) (u_sqlstate u) (unit_text o u).
Definition batch pc : list aunit := abs (pc_prep pc) <$> view pc.

(** ** Rescue *)
Lemma own_grow_wf u n oom ok u' oom' :
  own_grow u n oom = (ok, u', oom') -> unit_wf u -> 0 <= n <= LK_MSG_BODY_MAX ->
  unit_wf u' /\ (ok = true -> n <= u_own_cap u') /\ u_prep_idx u' = u_prep_idx u /\ u_prep_gen u' = u_prep_gen u.
Proof.
  intros E [] Hn. unfold own_grow in E. destruct (Z.ltb_spec (u_own_cap u) n).
  - destruct (alloc oom) as [[] o]; injection E as <- <- <-; 
      (split; [split; cbn -[zlen] in *; try change (zlen (@nil Z)) with 0; done || lia|split_and!; cbn; done || lia]).
  - injection E as <- <- <-. done.
Qed.

Lemma set_text_wf u t : unit_wf u -> zlen t <= u_own_cap u -> unit_wf (u <| u_own_text := t |>).
Proof. intros [] Ht. by split. Qed.

Lemma rescue_wf slot e u o : prep_wf e -> unit_wf u -> unit_wf (rescue_unit slot e u o).1.
Proof.
  intros [Ht [Hc1 Hc2] _] Hu. unfold rescue_unit. destruct (_ || _); [done|].
  assert (forall w, unit_wf w -> unit_wf (w <| u_prep_idx := -1 |>)) as Hidx by (by intros ? []).
  assert (0 <= u_own_cap u) by apply Hu.
  destruct (Z.ltb_spec 0 (zlen (e_text e))).
  - destruct (own_grow u (zlen (e_text e)) o) as [[ok u'] o'] eqn:E.
    destruct (own_grow_wf _ _ _ _ _ _ E Hu) as (Hu' & Hok & _ & _); [lia|]. apply Hidx, set_text_wf; [done|].
    destruct ok; [auto|]. change (zlen []) with 0. apply Hu'.
  - apply Hidx, set_text_wf; [done|]. done.
Qed.

(** The unit is detached from the slot or untouched. *)
Lemma rescue_ref slot e u o (u' := (rescue_unit slot e u o).1) :
  (u_prep_idx u = slot /\ u_prep_gen u = e_gen e /\ u_prep_idx u' = -1) \/
  (~ (u_prep_idx u = slot /\ u_prep_gen u = e_gen e) /\ u' = u).
Proof.
  subst u'. unfold rescue_unit. destruct (Z.eqb_spec (u_prep_idx u) slot), (Z.eqb_spec (u_prep_gen u) (e_gen e)); cbn [negb orb];
    try (right; split; [naive_solver|done]).
  left. split_and!; [done|done|]. destruct (0 <? _); [|done]. by destruct (own_grow _ _ _) as [[? ?] ?].
Qed.

(** With a working allocator a rescued unit reports the same text, whatever the
    slot holds next. *)
Lemma rescue_abs slot k k' u :
  slot_ok slot -> ref_ok (Some k) u -> (forall s, slot_ok s -> s <> slot -> prep_at k' s = prep_at k s) ->
  abs (Some k') (rescue_unit slot (prep_at k slot) u []).1 = abs (Some k) u.
Proof.
  intros Hs Hr Hk. unfold rescue_unit. destruct (Z.eqb_spec (u_prep_idx u) slot) as [Hi|Hi]; cbn [negb orb].
  - destruct Hr as [Hr|(k0 & Hk0 & Hlt & Hu & Hg)]; [unfold slot_ok in Hs; lia|]. injection Hk0 as <-. rewrite Hi in *.
    destruct (Z.eqb_spec (u_prep_gen u) (e_gen (prep_at k slot))); [|done]. cbn [negb].
    rewrite own_grow_nil. unfold abs, unit_text. rewrite Hi.
    destruct (Z.leb_spec 0 slot); [|lia]. rewrite Hu, Hg, Z.eqb_refl. cbn [andb]. unfold nonempty.
    pose proof (zlen_nonneg (e_text (prep_at k slot))).
    destruct (Z.ltb_spec 0 (zlen (e_text (prep_at k slot)))) as [Hz|Hz]; cbn [negb].
    + destruct (u_own_cap u <? _); cbn; destruct (zlen _ =? 0); done.
    + assert (zlen (e_text (prep_at k slot)) = 0) as -> by lia. done.
  - cbn [fst]. unfold abs, unit_text. destruct (Z.leb_spec 0 (u_prep_idx u)); [|done].
    rewrite Hk; [done| |done]. destruct Hr as [Hr|(? & _ & Hlt & _)]; [lia|done].
Qed.

Lemma rescued_batch slot k k' l1 l2 :
  slot_ok slot -> (forall s, slot_ok s -> s <> slot -> prep_at k' s = prep_at k s) ->
  Forall2 (rescued slot (prep_at k slot) []) l1 l2 -> Forall (ref_ok (Some k)) l1 ->
  abs (Some k') <$> l2 = abs (Some k) <$> l1.
Proof.
  intros Hs Hk. induction 1 as [|u u' la lb (o & Hor & ->) _ IH]; intros Hr; [done|].
  inversion Hr as [|? ? Hu Hr']; subst. rewrite !fmap_cons, (Hor eq_refl), (IH Hr').
  f_equal. by apply rescue_abs.
Qed.

Section Slot.
(** A slot about to change: the cache [k'] agrees with [k] on the others. *)
Context (pc pc1 : pg_conn) (k k' : pg_prep_cache) (slot : Z) (oom oom' : list bool).
Hypothesis W : pg_wf pc.
Hypothesis Hprep : pc_prep pc = Some k \/ pc_prep pc = None /\ k_e k = k_e prep_cache0.
Hypothesis Hk : cache_wf k.
Hypothesis Hk' : cache_wf k'.
Hypothesis Hslot : slot_ok slot.
Hypothesis Hother : forall s, slot_ok s -> s <> slot -> prep_at k' s = prep_at k s.
Hypothesis Hrun : pg_query_rescue_refs pc slot (prep_at k slot) oom = (pc1, oom').

Lemma slot_ref u : ref_ok (pc_prep pc) u -> ref_ok (Some k) u.
Proof.
  intros [?|(k0 & E & Hr)]; [by left|]. destruct Hprep as [Hp|[Hp _]]; rewrite Hp in E; [|done].
  injection E as <-. right. eauto.
Qed.

Lemma slot_abs u : ref_ok (pc_prep pc) u -> abs (Some k) u = abs (pc_prep pc) u.
Proof.
  intros Hr. destruct Hprep as [->|[Hp _]]; [done|]. rewrite Hp in *. unfold abs, unit_text.
  destruct Hr as [->|(? & E & _)]; [done|discriminate].
Qed.

Lemma slot_rel : ring_rel (rescued slot (prep_at k slot) oom) 0 (Z.to_nat (pc_count pc)) pc pc1 /\ (oom = [] -> oom' = []).
Proof.
  pose proof W as []. unfold pg_query_rescue_refs, LK_PG_MAX_INFLIGHT in *.
  eapply rescue_loop_rel; [exact Hrun|done|done|lia|unfold LK_PG_MAX_INFLIGHT; lia|done].
Qed.

Lemma slot_wf : pg_wf (pc1 <| pc_prep := Some k' |>).
Proof.
  destruct slot_rel as [Hrel _]. pose proof (ring_rel_view _ _ _ W Hrel) as Hv. pose proof (pw_refs _ W) as Hrefs. pose proof W as [].
  pose proof (ring_rel_units _ _ _ _ _ Hrel) as Hun. destruct Hrel as (l & -> & Hl & _).
  split; cbn; try done.
  - by rewrite Hl.
  - apply Hun; [|done]. intros u u' Hu (o & _ & ->). apply rescue_wf; [by apply prep_at_wf|done].
  - by intros ? [= <-].
  - change (view (pc <| pc_ring := l |> <| pc_prep := Some k' |>)) with (view (pc <| pc_ring := l |>)).
    apply Forall_lookup_2. intros j u' Hu'. destruct (Forall2_lookup_r _ _ _ _ _ Hv Hu') as (u & Hu & o & _ & ->).
    pose proof (slot_ref u (Forall_lookup_1 _ _ _ _ Hrefs Hu)) as Hr.
    destruct (rescue_ref slot (prep_at k slot) u o) as [(Hi & Hg & E)|[Hno ->]]; [by left|].
    destruct Hr as [Hr|(k0 & Hk0 & Hlt & Huse & Hgen)]; [by left|]. injection Hk0 as <-. right. exists k'.
    destruct (decide (u_prep_idx u = slot)) as [Heq|Hne].
    + exfalso. apply Hno. split; [done|]. by rewrite <- Hgen, Heq.
    + by rewrite Hother.
Qed.

Lemma slot_batch : oom = [] -> batch (pc1 <| pc_prep := Some k' |>) = batch pc /\ oom' = [].
Proof.
  intros Ho. destruct slot_rel as [Hrel Ho']. split; [|auto]. pose proof (ring_rel_view _ _ _ W Hrel) as Hv.
  pose proof (pw_refs _ W) as Hrefs. destruct Hrel as (l & -> & _ & _).
  rewrite Ho in Hv. etrans; [apply (rescued_batch slot k k' _ _ Hslot Hother Hv)|].
  - eapply Forall_impl; [exact Hrefs|exact slot_ref].
  - apply list_fmap_ext. intros i u Hu. apply slot_abs. exact (Forall_lookup_1 _ _ _ _ Hrefs Hu).
Qed.
End Slot.

(** ** Parse, Close, lookup *)
(** The control part of the state: everything but the ring slots and the cache. *)
Definition same_ctl pc pc' : Prop :=
  pc_phase pc' = pc_phase pc /\ pc_session pc' = pc_session pc /\ pc_count pc' = pc_count pc /\
  pc_nclosed pc' = pc_nclosed pc /\ pc_lossy pc' = pc_lossy pc /\ pc_degraded pc' = pc_degraded pc /\
  pc_txn_status pc' = pc_txn_status pc /\ pc_txn_start_ns pc' = pc_txn_start_ns pc.
#[global] Instance same_ctl_pre : PreOrder same_ctl.
Proof. split; [done|]. unfold same_ctl. intros ? ? ?. intuition congruence. Qed.

Lemma rescue_ctl pc slot e oom pc' oom' :
  pg_wf pc -> pg_query_rescue_refs pc slot e oom = (pc', oom') -> same_ctl pc pc'.
Proof.
  intros W E. pose proof W as []. unfold pg_query_rescue_refs, LK_PG_MAX_INFLIGHT in *.
  destruct (rescue_loop_rel slot e _ _ _ _ oom _ _ E) as [(l & -> & _) _]; try done; unfold LK_PG_MAX_INFLIGHT; lia.
Qed.

Lemma cache0_wf : cache_wf prep_cache0.
Proof. split; [reflexivity|apply Forall_replicate; by split|reflexivity]. Qed.

Lemma prep_get_spec pc oom k oom' :
  pg_wf pc -> prep_get pc oom = (Some k, oom') ->
  cache_wf k /\ (pc_prep pc = Some k \/ pc_prep pc = None /\ k_e k = k_e prep_cache0) /\ (oom = [] -> oom' = []).
Proof.
  intros W E. unfold prep_get in E. destruct (pc_prep pc) as [k0|] eqn:Ep.
  - injection E as <- <-. split_and!; [by apply (pw_prep _ W)|by left|done].
  - destruct (alloc oom) as [ok o] eqn:Ea. destruct ok; [|done]. injection E as <- <-.
    split_and!; [exact cache0_wf|by right|]. intros ->. by injection Ea.
Qed.

Lemma free_slot_spec k : cache_wf k ->
  let free := find_slot_from 0 (fun e => negb (e_used e)) (k_e k) in
  if 0 <=? free then slot_ok free /\ e_used (prep_at k free) = false
  else forall s, slot_ok s -> e_used (prep_at k s) = true.
Proof.
  intros W. cbv zeta. destruct (prep_find_spec (fun e => negb (e_used e)) (k_e k) 0) as [[-> Hf]|(j & e & -> & Hj & He)]; [lia| |].
  - cbn. intros s Hs. pose proof (Forall_lookup_1 _ _ _ _ Hf (prep_at_lookup k s W Hs)) as H. by apply negb_false_iff in H.
  - destruct (Z.leb_spec 0 (0 + Z.of_nat j)); [|lia]. assert (slot_ok (0 + Z.of_nat j)) as Hs.
    { pose proof (lookup_lt_Some _ _ _ Hj). rewrite (cw_len _ W) in *. unfold slot_ok, LK_PG_PREP_CACHE. lia. }
    split; [done|]. pose proof (prep_at_lookup k _ W Hs) as Hp. replace (Z.to_nat (0 + Z.of_nat j)) with j in Hp by lia.
    rewrite Hj in Hp. injection Hp as <-. by apply negb_true_iff.
Qed.

Lemma lru_slot_ok k : cache_wf k -> slot_ok (lru_slot k).
Proof.
  intros W. pose proof (cw_len _ W) as Hl. unfold lru_slot, slot_ok, LK_PG_PREP_CACHE. destruct (k_e k) as [|e l]; [done|].
  cbn in Hl. pose proof (lru_from_range l 1 0 (e_lru e)). unfold zlen in *. lia.
Qed.

(** The slot a Parse writes: it keeps the entries, and the counter anticipates
    the slot being occupied. *)
Lemma choose_slot_spec st k name slot st' k' (found := find_by_name k name) :
  cache_wf k -> (if found <? 0 then pick_slot st k else (found, st, k)) = (slot, st', k') ->
  slot_ok slot /\ k_e k' = k_e k /\ k_clock k' = k_clock k /\
  k_count k' = k_count k - Z.b2z (e_used (prep_at k slot)) + 1.
Proof.
  intros W E. subst found. destruct (find_by_name_spec k name W) as [Hn|(Hs & Hu & _)].
  - destruct (Z.ltb_spec (find_by_name k name) 0); [|lia]. unfold pick_slot in E. pose proof (free_slot_spec k W) as Hf. cbv zeta in Hf.
    destruct (0 <=? find_slot_from 0 _ (k_e k)) eqn:El; injection E as <- <- <-.
    + destruct Hf as [Hs Hu]. split_and!; [done|done|done|]. cbn. rewrite Hu. cbn. rewrite u32_small; [lia|].
      pose proof (used_count_range (k_e k)). rewrite (cw_count _ W). unfold zlen in *. rewrite (cw_len _ W) in *. lia.
    + split_and!; [by apply lru_slot_ok|done|done|]. rewrite Hf by by apply lru_slot_ok. cbn. lia.
  - destruct (Z.ltb_spec (find_by_name k name) 0); [unfold slot_ok in Hs; lia|]. injection E as <- <- <-. rewrite Hu. split_and!; [done..|cbn; lia].
Qed.

Lemma fill_slot_nil e name text trunc lru : (fill_slot e name text trunc lru []).2 = [].
Proof. unfold fill_slot. cbn [alloc]. by destruct (e_text_cap _ <? _). Qed.

Section Ops.
Context {U F : Type}.
Implicit Types p : lk_proto U pg_conn F.
(** The handler object but for counters and allocator. *)
Definition same_up p p' : Prop := p_out p' = p_out p /\ p_up p' = p_up p.

Lemma pg_prep_parse_ok p pc m p' pc' :
  pg_wf pc -> pg_prep_parse p pc m = (p', pc') ->
  pg_wf pc' /\ same_ctl pc pc' /\ same_up p p' /\ (p_oom p = [] -> batch pc' = batch pc /\ p_oom p' = []).
Proof.
  intros W E. unfold pg_prep_parse in E.
  destruct (pg_wire_cstring _) as [[ok name] w]. destruct ok; cbn [negb] in E; [|injection E as <- <-; done].
  destruct (pg_wire_cstring w) as [[hq query] w']. destruct (prep_get pc (p_oom p)) as [o oom1] eqn:Eg.
  destruct o as [k|]; [|injection E as <- <-; split_and!; try done].
  2: { intros Ho. split; [done|]. unfold prep_get in Eg. rewrite Ho in Eg. destruct (pc_prep pc); [done|]. cbn in Eg. discriminate. }
  destruct (prep_get_spec _ _ _ _ W Eg) as (Hk & Hp & Ho1).
  destruct (if _ <? 0 then _ else _) as [[slot st] k1] eqn:Es in E.
  destruct (choose_slot_spec _ _ _ _ _ _ Hk Es) as (Hs & He & Hcl & Hcnt).
  assert (forall s, prep_at k1 s = prep_at k s) as Hat by (intros s; unfold prep_at; by rewrite He).
  destruct (pg_query_rescue_refs pc slot (prep_at k1 slot) oom1) as [pc1 oom2] eqn:Er. rewrite Hat in *.
  destruct (fill_slot (prep_at k slot) name query _ _ oom2) as [e oom3] eqn:Ef. injection E as <- <-.
  destruct (fill_slot_wf _ _ _ _ _ _ _ _ Ef (prep_at_wf _ _ Hk Hs)) as (He' & Hu' & _).
  set (clk := u64 (k_clock k1 + 1)). set (k2 := prep_upd (k1 <| k_clock := clk |>) slot (fun _ => e)).
  assert (k2 = prep_upd k slot (fun _ => e) <| k_count := k_count k1 |> <| k_clock := clk |>) as Ek2.
  { subst k2. unfold prep_upd. cbn. by rewrite He. }
  assert (cache_wf k2) as Hk2. { rewrite Ek2. apply prep_upd_wf; [done|done|done|]. rewrite Hu', Hcnt. cbn. lia. }
  assert (forall s, slot_ok s -> s <> slot -> prep_at k2 s = prep_at k s) as Hoth.
  { intros s Hs' Hne. rewrite Ek2. change (prep_at (prep_upd k slot (fun _ => e)) s = prep_at k s).
    rewrite prep_at_upd by done. destruct (Z.eqb_spec s slot); done. }
  split; [by eapply slot_wf|]. split; [exact (rescue_ctl _ _ _ _ _ _ W Er)|]. split; [done|].
  intros Ho. destruct (slot_batch _ _ _ _ _ _ _ W Hp Hs Hoth Er (Ho1 Ho)) as [Hb ->]. split; [exact Hb|].
  pose proof (fill_slot_nil (prep_at k slot) name query (negb hq || has_flag (m_flags m) LK_MSG_BODY_TRUNC) clk) as En.
  subst clk. cbn. by rewrite Ef in En.
Qed.

Lemma pg_prep_close_ok pc m oom pc' oom' :
  pg_wf pc -> pg_prep_close pc m oom = (pc', oom') ->
  pg_wf pc' /\ same_ctl pc pc' /\ (oom = [] -> batch pc' = batch pc /\ oom' = []).
Proof.
  intros W E. unfold pg_prep_close in E.
  destruct (pg_wire_get_u8 _) as [[ok kind] w]. destruct (_ || _); [injection E as <- <-; done|].
  destruct (pg_wire_cstring w) as [[ok2 name] w']. destruct (pc_prep pc) as [k|] eqn:Ep; [|injection E as <- <-; done].
  destruct ok2; cbn [negb] in E; [|injection E as <- <-; done].
  pose proof (pw_prep _ W k Ep) as Hk. destruct (find_by_name_spec k name Hk) as [Hn|(Hs & Hu & _)].
  { destruct (Z.ltb_spec (find_by_name k name) 0); [|lia]. injection E as <- <-. done. }
  destruct (Z.ltb_spec (find_by_name k name) 0); [unfold slot_ok in Hs; lia|].
  set (slot := find_by_name k name) in *. clearbody slot.
  destruct (pg_query_rescue_refs pc slot (prep_at k slot) oom) as [pc1 oom1] eqn:Er. injection E as <- <-.
  set (k2 := prep_upd k slot clear_slot <| k_count := u32 (k_count k - 1) |>).
  assert (0 < k_count k < 2 ^ 32) as Hc.
  { rewrite (cw_count _ Hk). pose proof (used_count_range (k_e k)). unfold zlen in *. rewrite (cw_len _ Hk) in *.
    pose proof (used_count_alter clear_slot _ _ _ (prep_at_lookup k slot Hk Hs)) as Ha.
    pose proof (used_count_range (alter clear_slot (Z.to_nat slot) (k_e k))).
    rewrite Hu in Ha. change (e_used (clear_slot _)) with false in Ha. cbn [Z.b2z] in Ha. lia. }
  assert (cache_wf k2) as Hk2.
  { assert (k2 = prep_upd k slot clear_slot <| k_count := u32 (k_count k - 1) |> <| k_clock := k_clock k |>) as -> by done.
    apply prep_upd_wf; [done|done| |].
    - destruct (prep_at_wf k slot Hk Hs). split; cbn -[zlen]; try change (zlen (@nil Z)) with 0; unfold PREP_NAME_MAX; lia.
    - rewrite Hu, u32_small by lia. cbn. lia. }
  assert (forall s, slot_ok s -> s <> slot -> prep_at k2 s = prep_at k s) as Hoth.
  { intros s Hs' Hne. change (prep_at (prep_upd k slot clear_slot) s = prep_at k s).
    rewrite prep_at_upd by done. destruct (Z.eqb_spec s slot); done. }
  split; [exact (slot_wf pc pc1 k k2 slot oom oom1 W (or_introl Ep) Hk Hk2 Hs Hoth Er)|]. split; [exact (rescue_ctl _ _ _ _ _ _ W Er)|].
  intros Ho. by apply (slot_batch pc pc1 k k2 slot oom oom1 W (or_introl Ep) Hs Hoth Er).
Qed.
End Ops.
