(* ===== verification/PgRefine.v ===== *)
(** What the PostgreSQL handler promises: a batch machine over lists.

    A connection is a queue of query units, split into those a reply has closed
    and those still open, each carrying its text by value.  [pg_event] is a
    message reduced to its meaning; [sp_step] is the whole protocol logic: no
    ring, no indices, no cache references, no allocator.

    The ring and cache of the PostgreSQL handler implement this
    machine. *)
From Stdlib Require Import Ascii String.
From stdpp Require Import base list.
From S2P Require Import Prelude Conn PgFrame Proto PgConn PgQuery Pg PgFacts PgPrepFacts.
#[local] Open Scope Z_scope.

Section Spec.
Inductive pg_event :=
  (** requests *)
  | EvSimple (ts : Z) (text : option (list Z)) (trunc : bool)
  | EvBind (ts : Z) (stmt : option (option (list Z) * bool))
  | EvFunction (ts : Z)
  (** replies *)
  | EvRow (ts : Z)
  | EvComplete (ts rows : Z)
  | EvEmpty (ts : Z)
  | EvSuspended (ts : Z)
  | EvError (ts : Z) (sqlstate : list Z -> list Z)
  | EvFuncResponse (ts : Z)
  | EvCopyBegin (kind : lk_query_kind)
  | EvCopyData (len : Z)
  | EvCorrupt
  | EvReady (ts status : Z)
  (** session *)
  | EvStartup (s : lk_session -> lk_session)
  | EvParam (s : lk_session -> lk_session)
  | EvCancel
  | EvAuthOk
  | EvReplication
  | EvNone.

Inductive up_event :=
  | UpQuery (s : lk_session) (o : lk_query_obs)
  | UpSession (s : lk_session)
  | UpTxn (start stop status : Z).

Record astate := AState {
  a_phase : pg_phase; a_session : lk_session; a_closed : list aunit; a_open : list aunit;
  a_lossy : bool; a_degraded : bool; a_txn_status : Z; a_txn_start : Z }.
#[global] Instance astate_upd : Updatable astate := fun q =>
  AState (a_phase q) (a_session q) (a_closed q) (a_open q) (a_lossy q) (a_degraded q)
         (a_txn_status q) (a_txn_start q).
Implicit Types (q : astate) (a : aunit).

Definition a_add (f : Z) a : aunit := a <| a_flags ::= fun w => set_flag w f |>.
Definition a_z_closed a : bool :=
  match a_kind a with LK_Q_SIMPLE | LK_Q_FUNCTION => true | _ => false end.
Definition fresh_unit (kind : lk_query_kind) (ts : Z) (text : option (list Z)) (flags : Z) : aunit :=
  AUnit ts 0 0 0 0 0 kind None flags (replicate 6 0) text.

(** ** Requests *)
Definition sp_open q a : astate :=
  if negb (bool_decide (a_phase q = PG_PH_READY) && negb (a_degraded q)) then q
  else
    let n := zlen (a_closed q) + zlen (a_open q) in
    if a_lossy q || (LK_PG_MAX_INFLIGHT <=? n) then q <| a_lossy := true |>
    else
      let pip := if 0 <? n then a_add LK_QO_PIPELINED else id in
      q <| a_closed ::= map pip |> <| a_open := map pip (a_open q) ++ [pip a] |>.

(** ** Replies: they address the oldest open unit *)
Definition sp_reply q (g : aunit -> aunit) : astate :=
  match a_open q with [] => q | a :: r => q <| a_open := g a :: r |> end.
Definition sp_close q : astate :=
  match a_open q with [] => q | a :: r => q <| a_closed ::= fun l => l ++ [a] |> <| a_open := r |> end.
(** Close the unit unless it waits for ReadyForQuery. *)
Definition sp_finish q (g : aunit -> aunit) : astate :=
  let q := sp_reply q g in
  match a_open q with a :: _ => if a_z_closed a then q else sp_close q | [] => q end.
Definition sp_drop q : astate := q <| a_closed := [] |> <| a_open := [] |> <| a_lossy := false |>.

Definition a_count a : aunit := a <| a_ncomplete ::= fun n => u32 (n + 1) |>.
Definition a_done (ts : Z) a : aunit := a_count (a <| a_ts_complete_ns := ts |>).
Definition a_multi a : aunit := if 1 <? a_ncomplete a then a_add LK_QO_MULTI_STMT a else a.
Definition a_row (ts : Z) a : aunit :=
  if a_ts_first_row_ns a =? 0 then a <| a_ts_first_row_ns := ts |> else a.
Definition a_fail (ts : Z) (sqlstate : list Z -> list Z) a : aunit :=
  let a := a_add LK_QO_ERROR (a <| a_sqlstate ::= sqlstate |>) <| a_ts_complete_ns := ts |> in
  if a_ncomplete a =? 0 then a <| a_ncomplete := 1 |> else a.
Definition a_abort a : aunit :=
  a_add LK_QO_ABORTED a <| a_ts_complete_ns := 0 |> <| a_ts_first_row_ns := 0 |>.

(** An error closes its unit and, unless it waits for ReadyForQuery, aborts the
    rest of the batch. *)
Definition sp_error q (ts : Z) (sqlstate : list Z -> list Z) : astate :=
  match a_open q with
  | [] => q
  | a :: r =>
      let a := a_fail ts sqlstate a in
      if a_z_closed a then q <| a_open := a :: r |>
      else q <| a_closed ::= fun l => l ++ a :: map a_abort r |> <| a_open := [] |>
             <| a_phase := PG_PH_SKIP_TO_SYNC |>
  end.

(** ** ReadyForQuery *)
Definition a_obs a (ready status : Z) : lk_query_obs :=
  let o := obs0 <| o_ts_start_ns := a_ts_start_ns a |> <| o_ts_first_row_ns := a_ts_first_row_ns a |>
             <| o_ts_complete_ns := a_ts_complete_ns a |> <| o_ts_ready_ns := ready |>
             <| o_rows := a_rows a |> <| o_bytes := a_bytes a |>
             <| o_kind := default (a_kind a) (a_copy_kind a) |> <| o_flags := a_flags a |>
             <| o_txn_status := status |> <| o_text := a_text a |> in
  if has_flag (a_flags a) LK_QO_ERROR then o <| o_sqlstate := a_sqlstate a |> else o.

Definition a_ready (ts status : Z) a : lk_query_obs :=
  let a := if a_z_closed a && (a_ts_complete_ns a =? 0) then a <| a_ts_complete_ns := ts |> else a in
  a_obs a (if has_flag (a_flags a) LK_QO_ABORTED then 0 else ts) status.
(** The units ReadyForQuery reports, in order. *)
Definition sp_batch q : list aunit := a_closed q ++ List.filter a_z_closed (a_open q).

Definition sp_txn q (ts status : Z) : astate * list up_event :=
  if status =? 0 then (q, [])
  else
    let prev := a_txn_status q in
    let open := (prev =? ch "T") || (prev =? ch "E") in
    if (status =? ch "T") && negb open then (q <| a_txn_start := ts |> <| a_txn_status := status |>, [])
    else if (status =? ch "I") && open then (q <| a_txn_status := status |>, [UpTxn (a_txn_start q) ts prev])
    else (q <| a_txn_status := status |>, []).

Definition sp_leave q : astate :=
  match a_phase q with
  | PG_PH_SKIP_TO_SYNC | PG_PH_COPY_IN | PG_PH_COPY_OUT => q <| a_phase := PG_PH_READY |>
  | _ => q
  end.

Definition sp_ready q (ts status : Z) : astate * list up_event :=
  let obs := if a_lossy q then []
             else map (fun a => UpQuery (a_session q) (a_ready ts status a)) (sp_batch q) in
  let '(q, txn) := sp_txn (sp_leave (sp_drop q <| a_degraded := false |>)) ts status in
  (q, obs ++ txn).

Definition sp_step q (ev : pg_event) : astate * list up_event :=
  if bool_decide (a_phase q = PG_PH_IGNORE) then (q, [])
  else match ev with
  | EvSimple ts text trunc =>
      (sp_open q (fresh_unit LK_Q_SIMPLE ts text (if trunc then LK_QO_TEXT_TRUNC else 0)), [])
  | EvBind ts (Some (text, trunc)) =>
      (sp_open q (fresh_unit LK_Q_EXTENDED ts text (if trunc then LK_QO_TEXT_TRUNC else 0)), [])
  | EvBind ts None => (sp_open q (fresh_unit LK_Q_EXTENDED ts None LK_QO_NO_TEXT), [])
  | EvFunction ts => (sp_open q (fresh_unit LK_Q_FUNCTION ts None LK_QO_NO_TEXT), [])
  | EvRow ts => (sp_reply q (a_row ts), [])
  | EvComplete ts rows =>
      (sp_finish q (fun a => a_multi (a_done ts (a <| a_rows ::= fun r => u64 (r + rows) |>))), [])
  | EvEmpty ts => (sp_finish q (fun a => a_done ts (a_add LK_QO_EMPTY a)), [])
  | EvSuspended ts => (sp_close (sp_reply q (fun a => a_done ts (a_add LK_QO_SUSPENDED a))), [])
  | EvError ts sqlstate => (sp_error q ts sqlstate, [])
  | EvFuncResponse ts => (sp_reply q (a_done ts), [])
  | EvCopyBegin kind =>
      (sp_reply q (fun a => a <| a_copy_kind := Some kind |>)
         <| a_phase := match kind with LK_Q_COPY_IN => PG_PH_COPY_IN | _ => PG_PH_COPY_OUT end |>, [])
  | EvCopyData len => (sp_reply q (fun a => a <| a_bytes ::= fun b => u64 (b + len) |>), [])
  | EvCorrupt => (match a_open q with [] => q | _ => sp_drop q <| a_degraded := true |> end, [])
  | EvReady ts status => sp_ready q ts status
  | EvStartup s => (q <| a_session ::= s |> <| a_phase := PG_PH_AUTH |>, [])
  | EvParam s => (q <| a_session ::= s |>, [])
  | EvCancel => (q <| a_phase := PG_PH_IGNORE |>, [UpQuery (a_session q) (obs0 <| o_kind := LK_Q_CANCEL |>)])
  | EvAuthOk =>
      if bool_decide (a_phase q = PG_PH_AUTH)
      then (q <| a_phase := PG_PH_READY |>, [UpSession (a_session q)]) else (q, [])
  | EvReplication => (sp_drop q <| a_phase := PG_PH_IGNORE |>, [])
  | EvNone => (q, [])
  end.

Fixpoint sp_run q (evs : list pg_event) : astate * list up_event :=
  match evs with
  | [] => (q, [])
  | ev :: evs => let '(q, up) := sp_step q ev in
                 let '(q, up') := sp_run q evs in (q, up ++ up')
  end.

(** A resync: the batch is dropped and the connection waits for a clean boundary. *)
Definition sp_resync q : astate :=
  sp_leave (sp_drop q <| a_degraded := true |> <| a_txn_status := 0 |>).
End Spec.

Implicit Types (pc : pg_conn) (u : pg_unit) (k : pg_prep_cache) (e : pg_prep) (m : lk_msg) (q : astate) (a : aunit).

Definition absconn pc : astate :=
  AState (pc_phase pc) (pc_session pc) (take (Z.to_nat (pc_nclosed pc)) (batch pc))
    (drop (Z.to_nat (pc_nclosed pc)) (batch pc)) (pc_lossy pc) (pc_degraded pc) (pc_txn_status pc) (pc_txn_start_ns pc).

(** ** Unit transformers *)
Definition compat (o : option pg_prep_cache) (g : pg_unit -> pg_unit) (ag : aunit -> aunit) : Prop :=
  forall u, abs o (g u) = ag (abs o u).

Lemma unit_text_ext o u u' :
  u_prep_idx u' = u_prep_idx u -> u_prep_gen u' = u_prep_gen u -> u_own_text u' = u_own_text u ->
  has_flag (u_flags u') LK_QO_NO_TEXT = has_flag (u_flags u) LK_QO_NO_TEXT -> unit_text o u' = unit_text o u.
Proof. intros E1 E2 E3 E4. unfold unit_text. by rewrite E1, E2, E3, E4. Qed.

Lemma abs_add o f u : Z.land f LK_QO_NO_TEXT = 0 -> abs o (add_flag f u) = a_add f (abs o u).
Proof.
  intros Hf. unfold abs. rewrite (unit_text_ext o u (add_flag f u)); try done.
  cbn. rewrite has_flag_set. unfold has_flag at 2. rewrite Hf. by rewrite orb_false_r.
Qed.

(** A transformer that leaves flags and text alone. *)
Ltac abs_plain :=
  intros u; unfold abs; rewrite (unit_text_ext _ u); [reflexivity|reflexivity..].

Lemma c_row o ts : compat o (fun u => if u_ts_first_row_ns u =? 0 then u <| u_ts_first_row_ns := ts |> else u) (a_row ts).
Proof.
  intros u. unfold a_row. change (a_ts_first_row_ns (abs o u)) with (u_ts_first_row_ns u).
  destruct (_ =? 0); [|done]. unfold abs. by rewrite (unit_text_ext _ u).
Qed.

Definition done_unit (ts : Z) u : pg_unit := u <| u_ts_complete_ns := ts |> <| u_ncomplete ::= fun n => u32 (n + 1) |>.
Lemma c_done o ts : compat o (done_unit ts) (a_done ts).
Proof. abs_plain. Qed.

Lemma c_flag_done o ts f : Z.land f LK_QO_NO_TEXT = 0 ->
  compat o (fun u => done_unit ts (add_flag f u)) (fun a => a_done ts (a_add f a)).
Proof. intros Hf u. rewrite c_done. by rewrite abs_add. Qed.

Lemma c_complete o m rows :
  compat o (complete_unit m rows)
    (fun a => a_multi (a_done (m_ts_ns m) (a <| a_rows ::= fun r => u64 (r + rows) |>))).
Proof.
  intros u. unfold complete_unit.
  set (v := done_unit (m_ts_ns m) (u <| u_rows ::= fun r => u64 (r + rows) |>)).
  change (u <| u_rows ::= _ |> <| u_ts_complete_ns := _ |> <| u_ncomplete ::= _ |>) with v.
  assert (abs o v = a_done (m_ts_ns m) (abs o u <| a_rows ::= fun r => u64 (r + rows) |>)) as E.
  { subst v. unfold abs. rewrite (unit_text_ext _ u); [reflexivity|reflexivity..]. }
  rewrite <- E. unfold a_multi. change (a_ncomplete (abs o v)) with (u_ncomplete v).
  destruct (_ <? _); [by rewrite abs_add|done].
Qed.

Lemma c_error o m : compat o (error_unit m) (a_fail (m_ts_ns m) (error_sqlstate m)).
Proof.
  intros u. unfold error_unit, a_fail.
  set (v := add_flag LK_QO_ERROR _ <| u_ts_complete_ns := _ |>).
  assert (abs o v = a_add LK_QO_ERROR (abs o u <| a_sqlstate ::= error_sqlstate m |>) <| a_ts_complete_ns := m_ts_ns m |>) as E.
  { subst v. unfold abs. rewrite (unit_text_ext _ (add_flag LK_QO_ERROR u)); [|reflexivity..].
    pose proof (abs_add o LK_QO_ERROR u ltac:(done)) as E. unfold abs in E. injection E as ->. done. }
  rewrite <- E. change (a_ncomplete (abs o v)) with (u_ncomplete v).
  destruct (_ =? 0); [|done]. unfold abs. by rewrite (unit_text_ext _ v).
Qed.

Lemma c_abort o : compat o abort_unit a_abort.
Proof.
  intros u. unfold abort_unit, a_abort. rewrite <- abs_add by done. unfold abs.
  by rewrite (unit_text_ext _ (add_flag LK_QO_ABORTED u)).
Qed.

Lemma c_ready o m : compat o (ready_unit m)
  (fun a => if a_z_closed a && (a_ts_complete_ns a =? 0) then a <| a_ts_complete_ns := m_ts_ns m |> else a).
Proof.
  intros u. unfold ready_unit. change (a_z_closed (abs o u)) with (unit_z_closed u).
  change (a_ts_complete_ns (abs o u)) with (u_ts_complete_ns u).
  destruct (_ && _); [|done]. unfold abs. by rewrite (unit_text_ext _ u).
Qed.

Lemma unit_obs_abs pc u ready status : unit_obs pc u ready status = a_obs (abs (pc_prep pc) u) ready status.
Proof. unfold unit_obs, a_obs. by rewrite fill_text_eq. Qed.

(** ** The queue *)
Lemma take_alter_same {A} (f : A -> A) i (l : list A) : take i (alter f i l) = take i l.
Proof. revert i. induction l as [|x l IH]; intros [|i]; try done. cbn. f_equal. apply IH. Qed.
Lemma drop_alter_same {A} (f : A -> A) i (l : list A) :
  drop i (alter f i l) = match drop i l with [] => [] | x :: r => f x :: r end.
Proof. revert i. induction l as [|x l IH]; intros [|i]; try done. apply (IH i). Qed.
Lemma fmap_alter_compat {A B} (h : A -> B) g ag i (l : list A) :
  (forall x, h (g x) = ag (h x)) -> h <$> alter g i l = alter ag i (h <$> l).
Proof.
  intros H. revert i. induction l as [|x l IH]; intros [|i]; try done.
  - change (h (g x) :: (h <$> l) = ag (h x) :: (h <$> l)). by rewrite H.
  - change (h x :: (h <$> alter g i l) = h x :: alter ag i (h <$> l)). by rewrite IH.
Qed.

Lemma batch_upd pc i g ag :
  pg_wf pc -> 0 <= i < LK_PG_MAX_INFLIGHT -> compat (pc_prep pc) g ag ->
  batch (ring_upd pc i g) = alter ag (Z.to_nat i) (batch pc).
Proof.
  intros W Hi Hc. unfold batch. rewrite view_upd by done.
  change (pc_prep (ring_upd pc i g)) with (pc_prep pc). by apply fmap_alter_compat.
Qed.

Lemma batch_len pc : pg_wf pc -> zlen (batch pc) = pc_count pc.
Proof. intros W. unfold batch, zlen. rewrite length_fmap, view_len by done. pose proof (pw_closed _ W). lia. Qed.

Lemma open_len pc : pg_wf pc -> zlen (a_closed (absconn pc)) = pc_nclosed pc /\
  zlen (a_open (absconn pc)) = pc_count pc - pc_nclosed pc.
Proof.
  intros W. pose proof (pw_closed _ W). pose proof (batch_len pc W). unfold absconn. cbn [a_closed a_open].
  unfold zlen in *. rewrite length_take, length_drop. lia.
Qed.

Lemma current_open pc : pg_wf pc ->
  match current_unit pc with
  | None => a_open (absconn pc) = []
  | Some i => i = pc_nclosed pc /\ 0 <= i < pc_count pc /\ pc_count pc <= LK_PG_MAX_INFLIGHT /\
      exists r, a_open (absconn pc) = abs (pc_prep pc) (ring_at pc i) :: r
  end.
Proof.
  intros W. destruct (open_len pc W) as [_ Hlen]. pose proof W as []. unfold current_unit.
  destruct (Z.leb_spec (pc_count pc) (pc_nclosed pc)).
  - apply zlen_0. lia.
  - split_and!; [done|lia|lia|done|]. pose proof (ring_at_view pc W (pc_nclosed pc)) as Hv. specialize (Hv ltac:(lia)).
    exists (drop (S (Z.to_nat (pc_nclosed pc))) (batch pc)). cbn [absconn a_open]. apply drop_S.
    unfold batch. by rewrite list_lookup_fmap, Hv.
Qed.

Definition refines pc q : Prop := pg_wf pc /\ absconn pc = q.

(** A reply rewrites the oldest open unit. *)
Lemma reply_abs pc i g ag :
  pg_wf pc -> current_unit pc = Some i -> compat (pc_prep pc) g ag ->
  absconn (ring_upd pc i g) = sp_reply (absconn pc) ag.
Proof.
  intros W E Hc. pose proof (current_open pc W) as Ho. rewrite E in Ho. destruct Ho as (-> & Hi & Hmax & r & Ho).
  unfold absconn at 1. rewrite (batch_upd pc _ g ag) by (done || lia).
  change (pc_nclosed (ring_upd pc (pc_nclosed pc) g)) with (pc_nclosed pc).
  rewrite take_alter_same, drop_alter_same. unfold sp_reply. rewrite Ho.
  unfold absconn in Ho. cbn [a_open] in Ho. rewrite Ho. done.
Qed.

Lemma reply_none pc ag : pg_wf pc -> current_unit pc = None -> sp_reply (absconn pc) ag = absconn pc.
Proof. intros W E. pose proof (current_open pc W) as Ho. rewrite E in Ho. unfold sp_reply. by rewrite Ho. Qed.

Lemma reply_ok pc i g ag :
  pg_wf pc -> current_unit pc = Some i -> compat (pc_prep pc) g ag -> keeps_wf g -> keeps_ref g ->
  pg_wf (ring_upd pc i g) /\ absconn (ring_upd pc i g) = sp_reply (absconn pc) ag /\ current_unit (ring_upd pc i g) = Some i.
Proof.
  intros W E Hc Hw Hr. destruct (current_range pc i W E) as [Hi _]. pose proof (pw_count _ W).
  split_and!; [apply upd_wf; (done || lia)|by apply reply_abs|done].
Qed.

Lemma unit_close_ok pc i :
  pg_wf pc -> current_unit pc = Some i -> pg_wf (close_one pc) /\ absconn (close_one pc) = sp_close (absconn pc).
Proof.
  intros W E. pose proof (current_open pc W) as Ho. rewrite E in Ho. destruct Ho as (-> & Hi & Hmax & r & Ho).
  pose proof W as []. assert (u32 (pc_nclosed pc + 1) = pc_nclosed pc + 1) as E32.
  { apply u32_small. unfold LK_PG_MAX_INFLIGHT in *. lia. }
  split.
  - unfold close_one. split; try done. cbn. rewrite E32. lia.
  - unfold sp_close. rewrite Ho.
    change (absconn (close_one pc)) with (AState (pc_phase pc) (pc_session pc)
      (take (Z.to_nat (u32 (pc_nclosed pc + 1))) (batch pc)) (drop (Z.to_nat (u32 (pc_nclosed pc + 1))) (batch pc))
      (pc_lossy pc) (pc_degraded pc) (pc_txn_status pc) (pc_txn_start_ns pc)). rewrite E32.
    unfold absconn in Ho. cbn [a_open] in Ho.
    replace (Z.to_nat (pc_nclosed pc + 1)) with (S (Z.to_nat (pc_nclosed pc))) by lia.
    assert (batch pc !! Z.to_nat (pc_nclosed pc) = Some (abs (pc_prep pc) (ring_at pc (pc_nclosed pc)))) as Hl.
    { rewrite <- (Nat.add_0_r (Z.to_nat _)), <- lookup_drop, Ho. done. }
    rewrite (take_S_r _ _ _ Hl). f_equal. rewrite (drop_S _ _ _ Hl) in Ho. by injection Ho as ->.
Qed.

(** [close_extended] after a reply. *)
Lemma finish_ok pc i g ag :
  pg_wf pc -> current_unit pc = Some i -> compat (pc_prep pc) g ag -> keeps_wf g -> keeps_ref g ->
  pg_wf (close_extended (ring_upd pc i g) i) /\ absconn (close_extended (ring_upd pc i g) i) = sp_finish (absconn pc) ag.
Proof.
  intros W E Hc Hw Hr. destruct (reply_ok pc i g ag W E Hc Hw Hr) as (W1 & Ha & E1).
  pose proof (current_open _ W1) as Ho. rewrite E1 in Ho. destruct Ho as (_ & _ & _ & r & Ho).
  unfold sp_finish, close_extended. rewrite <- Ha, Ho.
  change (a_z_closed (abs _ ?u)) with (unit_z_closed u).
  destruct (unit_z_closed _); [done|]. by eapply unit_close_ok.
Qed.

Lemma finish_none pc ag : pg_wf pc -> current_unit pc = None -> sp_finish (absconn pc) ag = absconn pc.
Proof.
  intros W E. unfold sp_finish. rewrite reply_none by done. pose proof (current_open pc W) as Ho. rewrite E in Ho. by rewrite Ho.
Qed.

(** ** Opening a unit *)
Definition pip (pc : pg_conn) : pg_unit -> pg_unit :=
  if 0 <? pc_count pc then add_flag LK_QO_PIPELINED else id.

(** Enqueue before the pipelining flags: one more unit, in its reset state. *)
Definition push1 pc : pg_conn := ring_upd (pc <| pc_count ::= fun n => u32 (n + 1) |>) (pc_count pc) unit_reset.

Lemma unit_reset_wf : keeps_wf unit_reset.
Proof. intros u [? [? ?] ?]. split; cbn; try done. Qed.

Lemma push1_ok pc : pg_wf pc -> pc_count pc < LK_PG_MAX_INFLIGHT ->
  pg_wf (push1 pc) /\ pc_count (push1 pc) = pc_count pc + 1 /\
  view (push1 pc) = view pc ++ [unit_reset (ring_at pc (pc_count pc))].
Proof.
  intros W Hc. pose proof W as []. unfold LK_PG_MAX_INFLIGHT in *.
  assert (u32 (pc_count pc + 1) = pc_count pc + 1) as E32 by (apply u32_small; lia).
  assert (pc_count (push1 pc) = pc_count pc + 1) as Ec by exact E32.
  assert (pc_ring (push1 pc) = alter unit_reset (Z.to_nat (pc_count pc)) (pc_ring pc)) as Er.
  { change (pc_ring (push1 pc)) with (alter unit_reset (ring_idx pc (pc_count pc)) (pc_ring pc)).
    rewrite (idx_lt pc W) by (unfold LK_PG_MAX_INFLIGHT; lia). done. }
  assert (view (push1 pc) = view pc ++ [unit_reset (ring_at pc (pc_count pc))]) as Ev.
  { unfold view. rewrite Er, Ec. replace (Z.to_nat (pc_count pc + 1)) with (S (Z.to_nat (pc_count pc))) by lia.
    destruct (lookup_lt_is_Some_2 (pc_ring pc) (Z.to_nat (pc_count pc))) as [u Hu]; [lia|].
    rewrite (take_S_r _ _ (unit_reset u)) by (by rewrite list_lookup_alter_eq, Hu). rewrite take_alter_same.
    do 3 f_equal. unfold ring_at. rewrite (idx_lt pc W) by (unfold LK_PG_MAX_INFLIGHT; lia). symmetry. by apply nth_lookup_Some. }
  split_and!; [|done|done]. split; try done.
  - rewrite Er, length_alter. done.
  - rewrite Ec. change (pc_nclosed (push1 pc)) with (pc_nclosed pc). lia.
  - rewrite Ec. unfold LK_PG_MAX_INFLIGHT. lia.
  - rewrite Er. apply Forall_alter_in; [done|exact unit_reset_wf].
  - change (pc_prep (push1 pc)) with (pc_prep pc). rewrite Ev. apply Forall_app. split; [done|]. apply Forall_singleton. by left.
Qed.

Lemma Forall2_eq_map {A B} (g : A -> B) l l' : Forall2 (fun x y => y = g x) l l' -> l' = g <$> l.
Proof. induction 1 as [|x y l l' -> _ IH]; [done|]. by rewrite IH. Qed.

Lemma flag_wf f : keeps_wf (add_flag f).
Proof. by intros u []. Qed.
Lemma flag_ref f : keeps_ref (add_flag f).
Proof. done. Qed.

Lemma ring_for_ok pc g : pg_wf pc -> keeps_wf g -> keeps_ref g ->
  let pc' := ring_for (Z.to_nat (pc_count pc)) 0 g pc in
  pg_wf pc' /\ view pc' = g <$> view pc /\ exists l, pc' = pc <| pc_ring := l |>.
Proof.
  intros W Hw Hr pc'. pose proof W as []. unfold LK_PG_MAX_INFLIGHT in *.
  assert (ring_rel (fun u u' => u' = g u) 0 (Z.to_nat (pc_count pc)) pc pc') as Hrel.
  { apply ring_for_rel; [done|done|lia|unfold LK_PG_MAX_INFLIGHT; lia]. }
  pose proof (Forall2_eq_map _ _ _ (ring_rel_view _ _ _ W Hrel)) as Hv.
  assert (Forall unit_wf (pc_ring pc')) as Hu.
  { eapply ring_rel_units; [exact Hrel| |done]. intros u u' Hu ->. by apply Hw. }
  clearbody pc'. destruct Hrel as (l & -> & Hl & _). split_and!; [|done|by exists l].
  split; try done.
  - change (length l = 64%nat). congruence.
  - rewrite Hv. change (pc_prep (pc <| pc_ring := l |>)) with (pc_prep pc). apply Forall_fmap.
    eapply Forall_impl; [done|]. intros u. by apply ref_keep.
Qed.

Lemma ring_push_ok st pc : pg_wf pc ->
  let '(o, st', pc') := ring_push st pc in
  match o with
  | None => (pc_lossy pc || (LK_PG_MAX_INFLIGHT <=? pc_count pc)) = true /\ pc' = pc <| pc_lossy := true |>
  | Some i => (pc_lossy pc || (LK_PG_MAX_INFLIGHT <=? pc_count pc)) = false /\ i = pc_count pc /\ pg_wf pc' /\
      view pc' = (pip pc <$> view pc) ++ [pip pc (unit_reset (ring_at pc i))] /\
      exists l, pc' = pc <| pc_count := pc_count pc + 1 |> <| pc_ring := l |>
  end.
Proof.
  intros W. unfold ring_push. destruct (pc_lossy pc || _) eqn:E; [done|].
  apply orb_false_iff in E as [El Ec]. apply Z.leb_gt in Ec.
  destruct (push1_ok pc W Ec) as (W1 & Hc1 & Hv1). fold (push1 pc). rewrite Hc1.
  assert (exists l, push1 pc = pc <| pc_count := pc_count pc + 1 |> <| pc_ring := l |>) as (l1 & E1).
  { eexists. unfold push1, ring_upd. cbn. rewrite u32_small; [reflexivity|]. pose proof (pw_closed _ W). unfold LK_PG_MAX_INFLIGHT in *. lia. }
  split; [done|]. split; [done|]. unfold pip. pose proof (pw_closed _ W).
  destruct (Z.ltb_spec 1 (pc_count pc + 1)), (Z.ltb_spec 0 (pc_count pc)); try lia.
  - rewrite <- Hc1. destruct (ring_for_ok (push1 pc) (add_flag LK_QO_PIPELINED) W1 (flag_wf _) (flag_ref _)) as (W2 & Hv2 & l2 & E2).
    split; [done|]. split; [by rewrite Hv2, Hv1, fmap_app|]. exists l2. rewrite E2, E1. done.
  - split; [done|]. split; [|by exists l1]. rewrite Hv1. f_equal. by rewrite list_fmap_id.
Qed.

Definition a_pip (pc : pg_conn) : aunit -> aunit := if 0 <? pc_count pc then a_add LK_QO_PIPELINED else id.

Lemma alter_last {A} (g : A -> A) (l : list A) x n : length l = n -> alter g n (l ++ [x]) = l ++ [g x].
Proof. intros <-. induction l as [|y l IH]; [done|]. cbn. f_equal. exact IH. Qed.

(** The control fields of the abstraction. *)
Ltac abs_ctl pc :=
  change (a_phase (absconn pc)) with (pc_phase pc); change (a_degraded (absconn pc)) with (pc_degraded pc);
  change (a_lossy (absconn pc)) with (pc_lossy pc); change (a_session (absconn pc)) with (pc_session pc);
  change (a_txn_status (absconn pc)) with (pc_txn_status pc); change (a_txn_start (absconn pc)) with (pc_txn_start_ns pc).

(** A unit enqueued behind the batch is [sp_open]. *)
Lemma open_abs pc pc2 u a :
  pg_wf pc -> (pc_lossy pc || (LK_PG_MAX_INFLIGHT <=? pc_count pc)) = false -> ready_to_open pc = true ->
  pc_phase pc2 = pc_phase pc -> pc_session pc2 = pc_session pc -> pc_nclosed pc2 = pc_nclosed pc ->
  pc_lossy pc2 = pc_lossy pc -> pc_degraded pc2 = pc_degraded pc -> pc_txn_status pc2 = pc_txn_status pc ->
  pc_txn_start_ns pc2 = pc_txn_start_ns pc -> view pc2 = (pip pc <$> view pc) ++ [u] ->
  (forall v, unit_text (pc_prep pc2) v = unit_text (pc_prep pc) v) -> abs (pc_prep pc2) u = a_pip pc a ->
  absconn pc2 = sp_open (absconn pc) a.
Proof.
  intros W Hfull Hready E1 E2 E3 E4 E5 E6 E7 Hv Ht Hu.
  assert (batch pc2 = (a_pip pc <$> batch pc) ++ [a_pip pc a]) as Hb.
  { unfold batch. rewrite Hv, fmap_app, <- !list_fmap_compose. rewrite <- Hu. f_equal. apply list_fmap_ext. intros i v _.
    unfold abs, a_pip, pip. cbn [compose]. destruct (0 <? pc_count pc); [|cbn [id]; by rewrite Ht].
    pose proof (abs_add (pc_prep pc2) LK_QO_PIPELINED v ltac:(done)) as E. unfold abs in E. rewrite E. by rewrite Ht. }
  destruct (open_len pc W) as [Hl1 Hl2]. pose proof (pw_closed _ W). pose proof (batch_len pc W) as Hbl.
  unfold sp_open. abs_ctl pc. unfold ready_to_open in Hready. rewrite Hready. cbn [negb]. rewrite Hl1, Hl2.
  replace (pc_nclosed pc + (pc_count pc - pc_nclosed pc)) with (pc_count pc) by lia. rewrite Hfull.
  unfold absconn. cbn [a_closed a_open a_phase a_session a_lossy a_degraded a_txn_status a_txn_start upd].
  rewrite E1, E2, E3, E4, E5, E6, E7, Hb. fold (a_pip pc).
  change (map (a_pip pc)) with (fmap (M:=list) (a_pip pc)).
  assert (Z.to_nat (pc_nclosed pc) <= length (a_pip pc <$> batch pc))%nat as Hle.
  { rewrite length_fmap. unfold zlen in Hbl. lia. }
  f_equal; [by rewrite take_app_le, fmap_take|by rewrite drop_app_le, fmap_drop].
Qed.

Lemma open_blocked pc a : ready_to_open pc = false -> sp_open (absconn pc) a = absconn pc.
Proof. intros H. unfold sp_open. abs_ctl pc. unfold ready_to_open in H. by rewrite H. Qed.

Lemma open_lossy pc a : pg_wf pc -> ready_to_open pc = true ->
  (pc_lossy pc || (LK_PG_MAX_INFLIGHT <=? pc_count pc)) = true ->
  pg_wf (pc <| pc_lossy := true |>) /\ absconn (pc <| pc_lossy := true |>) = sp_open (absconn pc) a.
Proof.
  intros W Hr Hf. split; [by destruct W|]. destruct (open_len pc W) as [Hl1 Hl2].
  unfold sp_open. abs_ctl pc. unfold ready_to_open in Hr. rewrite Hr. cbn [negb].
  rewrite Hl1, Hl2. replace (pc_nclosed pc + (pc_count pc - pc_nclosed pc)) with (pc_count pc) by lia. by rewrite Hf.
Qed.

Section Open.
Context {U F : Type}.
Implicit Types p : lk_proto U pg_conn F.

(** The text a simple Query leaves in its unit. *)
Definition simple_text m : list Z :=
  chop_nul (ztake (if m_body_cap m <? LK_MSG_BODY_MAX then m_body_cap m else LK_MSG_BODY_MAX) (m_body m)).
Definition ev_simple m : pg_event :=
  EvSimple (m_ts_ns m) (nonempty (simple_text m)) (has_flag (m_flags m) LK_MSG_BODY_TRUNC).

Lemma set_simple_wf u m oom u' oom' :
  set_simple_text u m oom = (u', oom') -> unit_wf u -> u_prep_idx u = -1 -> unit_wf u' /\ u_prep_idx u' = -1.
Proof.
  intros E Hu Hi. unfold set_simple_text in E. set (n := if _ <? _ then _ else _) in E.
  assert (0 <= n <= LK_MSG_BODY_MAX).
  { subst n. unfold m_body_cap, LK_MSG_BODY_MAX. pose proof (zlen_nonneg (m_body m)). destruct (Z.ltb_spec (zlen (m_body m)) 16384); lia. }
  destruct (own_grow u n oom) as [[ok v] o] eqn:Eg. destruct (own_grow_wf _ _ _ _ _ _ Eg Hu ltac:(lia)) as (Hv & Hok & Hidx & _).
  destruct ok; cbn [negb] in E; injection E as <- <-; [|by rewrite Hidx]. split; [|by rewrite <- Hi, <- Hidx].
  apply set_text_wf; [done|]. specialize (Hok eq_refl). clearbody n.
  assert (zlen (chop_nul (ztake n (m_body m))) <= zlen (ztake n (m_body m))).
  { unfold chop_nul. destruct (_ && _); [|lia]. pose proof (zlen_nonneg (ztake n (m_body m))).
    destruct (Z.eq_dec (zlen (ztake n (m_body m))) 0) as [E0|E0]; [|rewrite zlen_ztake; lia].
    rewrite E0, (ztake_0 (0 - 1)) by lia. change (zlen []) with 0. lia. }
  rewrite zlen_ztake in * by lia. lia.
Qed.

Lemma set_simple_nil u m : exists cap, set_simple_text u m [] = (u <| u_own_cap := cap |> <| u_own_text := simple_text m |>, []).
Proof.
  unfold set_simple_text, simple_text. set (n := if _ <? _ then _ else _). clearbody n.
  rewrite own_grow_nil. cbn [negb]. destruct (_ <? _).
  - eexists. reflexivity.
  - exists (u_own_cap u). by destruct u.
Qed.
End Open.

(** ** Looking a statement up *)
Definition lookup_stmt (o : option pg_prep_cache) (name : list Z) : option (option (list Z) * bool) :=
  k ← o;
  let s := find_by_name k name in
  if s <? 0 then None else Some (nonempty (e_text (prep_at k s)), e_trunc (prep_at k s)).

Lemma nth_alter {A} (g : A -> A) n j (l : list A) d :
  nth n (alter g j l) d = if decide (n = j /\ (j < length l)%nat) then g (nth j l d) else nth n l d.
Proof.
  revert n j. induction l as [|x l IH]; intros n j.
  - destruct j; cbn; (destruct (decide _) as [[_ ?]|_]; [cbn in *; lia|done]).
  - destruct j as [|j], n as [|n]; cbn.
    + by rewrite decide_True by lia.
    + by rewrite decide_False by lia.
    + by rewrite decide_False by lia.
    + rewrite IH. destruct (decide (n = j /\ (j < length l)%nat)); [by rewrite decide_True by lia|by rewrite decide_False by lia].
Qed.

(** Stamping the LRU clock is invisible. *)
Definition stamp (clk : Z) e : pg_prep := e <| e_lru := clk |>.
Lemma stamp_at k slot clk clk' s (k' := prep_upd (k <| k_clock := clk' |>) slot (stamp clk)) :
  e_used (prep_at k' s) = e_used (prep_at k s) /\ e_gen (prep_at k' s) = e_gen (prep_at k s) /\
  e_text (prep_at k' s) = e_text (prep_at k s) /\ e_trunc (prep_at k' s) = e_trunc (prep_at k s).
Proof.
  subst k'. unfold prep_at, prep_upd. cbn [k_e upd]. change (fun r' => ?f r') with f. rewrite nth_alter.
  by destruct (decide _) as [[-> _]|_].
Qed.

Lemma stamp_wf pc k slot clk clk' (k' := prep_upd (k <| k_clock := clk' |>) slot (stamp clk)) :
  pg_wf pc -> pc_prep pc = Some k -> slot_ok slot ->
  pg_wf (pc <| pc_prep := Some k' |>) /\ forall v, unit_text (Some k') v = unit_text (Some k) v.
Proof.
  intros W Hk Hs. pose proof (pw_prep _ W k Hk) as Wk. pose proof (pw_refs _ W) as Hrefs.
  assert (forall v, ref_ok (Some k) v -> ref_ok (Some k') v) as Hr.
  { intros v [?|(k0 & E & Hi & Hu & Hg)]; [by left|]. injection E as <-. right. exists k'.
    destruct (stamp_at k slot clk clk' (u_prep_idx v)) as (E1 & E2 & _). fold k' in E1, E2. by rewrite E1, E2. }
  split.
  - destruct W. split; try done.
    + intros ? [= <-]. pose proof Wk as []. split.
      * change (length (alter (stamp clk) (Z.to_nat slot) (k_e k)) = 256%nat). by rewrite length_alter.
      * change (Forall prep_wf (alter (stamp clk) (Z.to_nat slot) (k_e k))). apply Forall_alter_in; [done|]. by intros e [].
      * change (k_count k = used_count (alter (stamp clk) (Z.to_nat slot) (k_e k))).
        rewrite (used_count_alter _ _ _ _ (prep_at_lookup k slot Wk Hs)). cbn. lia.
    + change (Forall (ref_ok (Some k')) (view pc)). rewrite Hk in Hrefs. eapply Forall_impl; [exact Hrefs|exact Hr].
  - intros v. unfold unit_text. destruct (stamp_at k slot clk clk' (u_prep_idx v)) as (E1 & E2 & E3 & _). fold k' in E1, E2, E3.
    by rewrite E1, E2, E3.
Qed.

Lemma pg_prep_lookup_ok pc name : pg_wf pc ->
  let '(hit, pc') := pg_prep_lookup pc name in
  match hit with
  | None => pc' = pc /\ lookup_stmt (pc_prep pc) name = None
  | Some (idx, gen, trunc) =>
      exists k', pc' = pc <| pc_prep := Some k' |> /\ pg_wf pc' /\ slot_ok idx /\
        (forall v, unit_text (Some k') v = unit_text (pc_prep pc) v) /\
        e_used (prep_at k' idx) = true /\ e_gen (prep_at k' idx) = gen /\
        lookup_stmt (pc_prep pc) name = Some (nonempty (e_text (prep_at k' idx)), trunc)
  end.
Proof.
  intros W. unfold pg_prep_lookup, lookup_stmt. destruct (pc_prep pc) as [k|] eqn:Ep; [|done]. cbn [mbind option_bind].
  pose proof (pw_prep _ W k Ep) as Wk. destruct (find_by_name_spec k name Wk) as [Hn|(Hs & Hu & _)].
  { destruct (Z.ltb_spec (find_by_name k name) 0); [done|lia]. }
  destruct (Z.ltb_spec (find_by_name k name) 0); [unfold slot_ok in Hs; lia|].
  set (slot := find_by_name k name) in *. clearbody slot. set (clk := u64 (k_clock k + 1)).
  change (fun e => e <| e_lru := clk |>) with (stamp clk). set (k' := prep_upd _ slot (stamp clk)).
  destruct (stamp_wf pc k slot clk clk W Ep Hs) as [W' Ht]. fold k' in W', Ht.
  destruct (stamp_at k slot clk clk slot) as (E1 & E2 & E3 & E4). fold k' in E1, E2, E3, E4.
  exists k'. split_and!; try done; [by rewrite E1|by rewrite E3, E4].
Qed.
