(* ===== verification/PgOps.v ===== *)
(** Each operation of the PostgreSQL query machine keeps the invariant under any
    allocator, and with a working one performs its step of the batch machine. *)
From Stdlib Require Import Ascii String.
From stdpp Require Import base list.
From S2P Require Import Prelude Conn Proto PgFrame PgConn PgQuery Pg PgFacts PgPrepFacts PgRefine.
#[local] Open Scope Z_scope.
Implicit Types (pc : pg_conn) (u : pg_unit) (m : lk_msg).

Section Open.
Context {U F : Type}.
Implicit Types p : lk_proto U pg_conn F.

(** The queue position of a new unit. *)
Lemma view_push pc1 n g u l : pg_wf pc1 -> 0 <= n < LK_PG_MAX_INFLIGHT -> view pc1 = l ++ [u] -> length l = Z.to_nat n ->
  view (ring_upd pc1 n g) = l ++ [g u].
Proof. intros W Hn Hv Hl. rewrite view_upd, Hv by done. by apply alter_last. Qed.

Lemma ring_at_push pc1 n u l : pg_wf pc1 -> 0 <= n < pc_count pc1 -> view pc1 = l ++ [u] -> length l = Z.to_nat n ->
  ring_at pc1 n = u.
Proof.
  intros W Hn Hv Hl. pose proof (ring_at_view pc1 W n Hn) as H. rewrite Hv, lookup_app_r, Hl, Nat.sub_diag in H by lia.
  by injection H as <-.
Qed.

Lemma pip_reset_wf pc u : unit_wf u -> unit_wf (pip pc (unit_reset u)) /\ u_prep_idx (pip pc (unit_reset u)) = -1.
Proof. intros H. unfold pip. destruct (0 <? _); (split; [by try apply flag_wf; apply unit_reset_wf|done]). Qed.

Lemma view_pip_len pc : pg_wf pc -> length (pip pc <$> view pc) = Z.to_nat (pc_count pc).
Proof. intros W. by rewrite length_fmap, view_len. Qed.

Lemma pg_query_simple_ok p pc m p' pc' :
  pg_wf pc -> pg_query_simple p pc m = (p', pc') ->
  pg_wf pc' /\ same_up p p' /\
  (p_oom p = [] -> p_oom p' = [] /\
     absconn pc' = sp_open (absconn pc) (fresh_unit LK_Q_SIMPLE (m_ts_ns m) (nonempty (simple_text m))
       (if has_flag (m_flags m) LK_MSG_BODY_TRUNC then LK_QO_TEXT_TRUNC else 0))).
Proof.
  intros W E. unfold pg_query_simple in E. destruct (ready_to_open pc) eqn:Er; cbn [negb] in E.
  2: { injection E as <- <-. split_and!; try done. intros Ho. split; [done|]. by rewrite open_blocked. }
  pose proof (ring_push_ok (p_st p) pc W) as Hp. destruct (ring_push (p_st p) pc) as [[o st] pc1].
  destruct o as [i|].
  2: { destruct Hp as [Hf ->]. injection E as <- <-. destruct (open_lossy pc (fresh_unit LK_Q_SIMPLE (m_ts_ns m)
         (nonempty (simple_text m)) (if has_flag (m_flags m) LK_MSG_BODY_TRUNC then LK_QO_TEXT_TRUNC else 0)) W Er Hf) as [W1 Ha].
       split; [done|]. split; [done|]. intros Ho. split; [exact Ho|exact Ha]. }
  destruct Hp as (Hf & -> & W1 & Hv & l & El). set (u0 := pip pc (unit_reset (ring_at pc (pc_count pc)))) in *.
  pose proof (pw_closed _ W) as Hcl. apply orb_false_iff in Hf as Hf'. destruct Hf' as [_ Hlt]. apply Z.leb_gt in Hlt.
  assert (ring_at pc1 (pc_count pc) = u0) as Hat.
  { eapply ring_at_push; [done| |exact Hv|by apply view_pip_len]. rewrite El. cbn. lia. }
  rewrite Hat in E. destruct (pip_reset_wf pc (ring_at pc (pc_count pc)) (at_wf _ _ W)) as [Wu0 Hi0]. fold u0 in Wu0, Hi0.
  set (u1 := u0 <| u_kind := LK_Q_SIMPLE |> <| u_ts_start_ns := m_ts_ns m |>) in *.
  assert (unit_wf u1) as Wu1 by by destruct Wu0.
  cbn [p_oom upd] in E. destruct (set_simple_text u1 m (p_oom p)) as [u2 oom2] eqn:Es.
  destruct (set_simple_wf u1 m _ u2 oom2 Es Wu1 Hi0) as [Wu2 Hi2].
  set (u3 := if has_flag (m_flags m) LK_MSG_BODY_TRUNC then add_flag LK_QO_TEXT_TRUNC u2 else u2) in *.
  assert (unit_wf u3 /\ u_prep_idx u3 = -1) as [Wu3 Hi3] by (subst u3; destruct (has_flag _ _); [split; [by apply flag_wf|exact Hi2]|split; [exact Wu2|exact Hi2]]).
  injection E as <- <-. split; [apply upd_wf_gen; [done|lia|by intros ? ?|by left]|]. split; [done|].
  intros Ho. destruct (set_simple_nil u1 m) as [cap Ecap]. rewrite Ho in Es. rewrite Ecap in Es. injection Es as E2 <-.
  split; [done|]. eapply (open_abs pc _ u3); try done; try (rewrite El; done).
  - by eapply (view_push pc1 (pc_count pc) (fun _ => u3)); [done|lia|exact Hv|apply view_pip_len].
  - assert (pc_prep pc1 = pc_prep pc) as Ep by (rewrite El; done).
    change (pc_prep (ring_upd pc1 _ _)) with (pc_prep pc1). rewrite Ep. subst u3. rewrite <- E2. subst u1 u0. unfold a_pip, pip, abs, unit_text.
    destruct (0 <? pc_count pc), (has_flag (m_flags m) LK_MSG_BODY_TRUNC), (pc_prep pc); reflexivity.
Qed.

Lemma pg_query_function_ok p pc m p' pc' :
  pg_wf pc -> pg_query_function p pc m = (p', pc') ->
  pg_wf pc' /\ same_up p p' /\ p_oom p' = p_oom p /\
  absconn pc' = sp_open (absconn pc) (fresh_unit LK_Q_FUNCTION (m_ts_ns m) None LK_QO_NO_TEXT).
Proof.
  intros W E. unfold pg_query_function in E. destruct (ready_to_open pc) eqn:Er; cbn [negb] in E.
  2: { injection E as <- <-. rewrite open_blocked by done. done. }
  pose proof (ring_push_ok (p_st p) pc W) as Hp. destruct (ring_push (p_st p) pc) as [[o st] pc1].
  destruct o as [i|].
  2: { destruct Hp as [Hf ->]. injection E as <- <-.
       destruct (open_lossy pc (fresh_unit LK_Q_FUNCTION (m_ts_ns m) None LK_QO_NO_TEXT) W Er Hf) as [W1 Ha]. done. }
  destruct Hp as (Hf & -> & W1 & Hv & l & El). injection E as <- <-.
  pose proof (pw_closed _ W) as Hcl. apply orb_false_iff in Hf as Hf'. destruct Hf' as [_ Hlt]. apply Z.leb_gt in Hlt.
  split; [apply upd_wf; [done|lia|by intros ? []|done]|]. split; [done|]. split; [done|].
  eapply (open_abs pc); try done; try (rewrite El; done).
  - by eapply (view_push pc1 (pc_count pc)); [done|lia|exact Hv|apply view_pip_len].
  - rewrite El. unfold a_pip, pip, abs, unit_text. destruct (0 <? pc_count pc); reflexivity.
Qed.

Definition ev_bind pc m : option (option (list Z) * bool) := bind_stmt m ≫= lookup_stmt (pc_prep pc).
Definition bound_unit pc m : aunit :=
  match ev_bind pc m with
  | Some (text, trunc) => fresh_unit LK_Q_EXTENDED (m_ts_ns m) text (if trunc then LK_QO_TEXT_TRUNC else 0)
  | None => fresh_unit LK_Q_EXTENDED (m_ts_ns m) None LK_QO_NO_TEXT
  end.

Lemma pg_query_bind_ok p pc m p' pc' :
  pg_wf pc -> pg_query_bind p pc m = (p', pc') ->
  pg_wf pc' /\ same_up p p' /\ p_oom p' = p_oom p /\ absconn pc' = sp_open (absconn pc) (bound_unit pc m).
Proof.
  intros W E. unfold pg_query_bind in E. destruct (ready_to_open pc) eqn:Er; cbn [negb] in E.
  2: { injection E as <- <-. rewrite open_blocked by done. done. }
  pose proof (ring_push_ok (p_st p) pc W) as Hp. destruct (ring_push (p_st p) pc) as [[o st] pc1].
  destruct o as [i|].
  2: { destruct Hp as [Hf ->]. injection E as <- <-. destruct (open_lossy pc (bound_unit pc m) W Er Hf) as [W1 Ha]. done. }
  destruct Hp as (Hf & -> & W1 & Hv & l & El).
  pose proof (pw_closed _ W) as Hcl. apply orb_false_iff in Hf as Hf'. destruct Hf' as [_ Hlt]. apply Z.leb_gt in Hlt.
  set (g := fun u => u <| u_kind := LK_Q_EXTENDED |> <| u_ts_start_ns := m_ts_ns m |>) in *.
  assert (pg_wf (ring_upd pc1 (pc_count pc) g)) as W2 by (apply upd_wf; [done|lia|by intros ? []|done]).
  pose proof (view_push pc1 (pc_count pc) g _ _ W1 ltac:(lia) Hv (view_pip_len pc W)) as Hv2.
  assert (pc_prep (ring_upd pc1 (pc_count pc) g) = pc_prep pc) as Ep2 by by rewrite El.
  assert (forall pc3, pg_wf pc3 -> (exists o, pc3 = ring_upd pc1 (pc_count pc) g <| pc_prep := o |>) ->
     forall h, pg_wf (ring_upd pc3 (pc_count pc) h) -> (forall v, unit_text (pc_prep pc3) v = unit_text (pc_prep pc) v) ->
     (abs (pc_prep pc3) (h (g (pip pc (unit_reset (ring_at pc (pc_count pc)))))) = a_pip pc (bound_unit pc m)) ->
     absconn (ring_upd pc3 (pc_count pc) h) = sp_open (absconn pc) (bound_unit pc m)) as Hfin.
  { intros pc3 W3 (o & E3) h _ Ht Ha. eapply (open_abs pc); try done; try (rewrite E3, El; done).
    eapply (view_push pc3 (pc_count pc) h); [done|lia|by rewrite E3|by apply view_pip_len]. }
  assert (exists o, ring_upd pc1 (pc_count pc) g = ring_upd pc1 (pc_count pc) g <| pc_prep := o |>) as Hself
    by (exists (pc_prep (ring_upd pc1 (pc_count pc) g)); by destruct (ring_upd pc1 (pc_count pc) g)).
  assert (ev_bind pc m = None -> let pc' := ring_upd (ring_upd pc1 (pc_count pc) g) (pc_count pc) (add_flag LK_QO_NO_TEXT) in
     pg_wf pc' /\ absconn pc' = sp_open (absconn pc) (bound_unit pc m)) as Hmiss.
  { intros Hev pc2. assert (pg_wf pc2) as Wp by (apply upd_wf; [done|lia|apply flag_wf|apply flag_ref]).
    split; [done|]. apply Hfin; [done|done|done|by rewrite Ep2|]. unfold bound_unit. rewrite Hev, Ep2.
    unfold a_pip, pip, abs, unit_text. destruct (0 <? pc_count pc); reflexivity. }
  unfold ev_bind in Hmiss. destruct (bind_stmt m) as [name|] eqn:Eb.
  2: { injection E as <- <-. destruct (Hmiss eq_refl). done. }
  cbn [mbind option_bind] in Hmiss.
  pose proof (pg_prep_lookup_ok _ name W2) as Hl. destruct (pg_prep_lookup _ name) as [hit pc3]. rewrite Ep2 in Hl.
  destruct hit as [[[idx gen] trunc]|].
  2: { destruct Hl as [-> Hn]. injection E as <- <-. destruct (Hmiss Hn). done. }
  destruct Hl as (k' & E3 & W3 & Hs & Ht & Hu & Hg & Hls). injection E as <- <-.
  assert (pc_prep pc3 = Some k') as Ep3 by by rewrite E3.
  set (h := fun u => _). assert (pg_wf (ring_upd pc3 (pc_count pc) h)) as Wp.
  { apply upd_wf_gen; [done|lia|by intros ? []; subst h; destruct trunc|].
    intros v _ _. right. exists k'. rewrite Ep3. subst h. cbn beta zeta. destruct trunc; done. }
  split; [done|]. split; [done|]. split; [done|]. apply Hfin; [done|by exists (Some k')|done|by rewrite Ep3|].
  rewrite Ep3. unfold bound_unit, ev_bind. rewrite Eb. cbn [mbind option_bind]. rewrite Hls.
  assert (0 <=? idx = true) as Hidx by (unfold slot_ok in Hs; lia).
  unfold a_pip, pip, abs, unit_text, h. destruct (0 <? pc_count pc), trunc; cbn -[prep_at]; rewrite Hidx, Hu, Hg, Z.eqb_refl; reflexivity.
Qed.
End Open.

(** ** Replies *)
Lemma error_fields_len fuel : forall w s, zlen s = 6 -> zlen (error_fields fuel w s) = 6.
Proof.
  induction fuel as [|fuel IH]; intros w s Hs; [done|]. cbn [error_fields].
  destruct (pg_wire_get_u8 w) as [[ok f] w1]. destruct (_ || _); [done|].
  destruct (pg_wire_cstring w1) as [[ok2 val] w2]. destruct (negb ok2); [done|]. apply IH.
  destruct (f =? ch "C"); [|done]. pose proof (zlen_nonneg val).
  destruct (Z.ltb_spec (zlen val) 5); rewrite zlen_put_cstr; lia.
Qed.

Lemma row_keeps ts (g := fun u => if u_ts_first_row_ns u =? 0 then u <| u_ts_first_row_ns := ts |> else u) :
  keeps_wf g /\ keeps_ref g.
Proof. split; intros u; subst g; cbn beta; [intros []|]; by destruct (_ =? 0). Qed.
Lemma done_keeps ts : keeps_wf (done_unit ts) /\ keeps_ref (done_unit ts).
Proof. split; [by intros u []|done]. Qed.
Lemma complete_keeps m rows : keeps_wf (complete_unit m rows) /\ keeps_ref (complete_unit m rows).
Proof.
  split; intros u; unfold complete_unit.
  - intros []. destruct (1 <? _); by split.
  - by destruct (1 <? _).
Qed.
Lemma error_keeps m : keeps_wf (error_unit m) /\ keeps_ref (error_unit m).
Proof.
  split; intros u; unfold error_unit.
  - intros [? ? Hs]. pose proof (error_fields_len (List.length (m_body m)) (pg_wire_init (m_body m)) _ Hs) as Hs'.
    destruct (_ =? 0); split; try done.
  - by destruct (_ =? 0).
Qed.
Lemma abort_keeps : keeps_wf abort_unit /\ keeps_ref abort_unit.
Proof. split; [by intros u []|done]. Qed.
Lemma ready_keeps m : keeps_wf (ready_unit m) /\ keeps_ref (ready_unit m).
Proof. split; intros u; unfold ready_unit; [intros []|]; by destruct (_ && _). Qed.

Lemma pg_query_data_row_ok pc m : pg_wf pc ->
  pg_wf (pg_query_data_row pc m) /\ absconn (pg_query_data_row pc m) = sp_reply (absconn pc) (a_row (m_ts_ns m)).
Proof.
  intros W. unfold pg_query_data_row. destruct (current_unit pc) as [i|] eqn:E; [|by rewrite reply_none].
  destruct (row_keeps (m_ts_ns m)). destruct (reply_ok pc i _ _ W E (c_row _ (m_ts_ns m))) as (? & ? & _); done.
Qed.

Lemma pg_query_complete_ok {U F} (p : lk_proto U pg_conn F) pc m p' pc' :
  pg_wf pc -> pg_query_complete p pc m = (p', pc') ->
  pg_wf pc' /\ same_up p p' /\ p_oom p' = p_oom p /\
  absconn pc' =
    (let '(ok, tag, _) := pg_wire_cstring (pg_wire_init (m_body m)) in
     if negb ok && negb (has_flag (m_flags m) LK_MSG_BODY_TRUNC)
     then match a_open (absconn pc) with [] => absconn pc | _ => sp_drop (absconn pc) <| a_degraded := true |> end
     else sp_finish (absconn pc) (fun a => a_multi (a_done (m_ts_ns m)
            (a <| a_rows ::= fun r => u64 (r + (if ok then tag_rows tag else 0)) |>)))).
Proof.
  intros W E. unfold pg_query_complete in E. destruct (pg_wire_cstring _) as [[ok tag] w].
  pose proof (current_open pc W) as Ho. destruct (current_unit pc) as [i|] eqn:Ec.
  2: { injection E as <- <-. rewrite Ho, finish_none by done. by destruct (_ && _). }
  destruct Ho as (_ & _ & _ & r & Ho). destruct (_ && _).
  - unfold corrupt in E. injection E as <- <-. rewrite Ho. split; [|done].
    destruct W. split; try done.
  - injection E as <- <-. destruct (complete_keeps m (if ok then tag_rows tag else 0)).
    destruct (finish_ok pc i _ _ W Ec (c_complete _ m (if ok then tag_rows tag else 0))); done.
Qed.

Lemma pg_query_empty_ok pc m : pg_wf pc ->
  pg_wf (pg_query_empty pc m) /\
  absconn (pg_query_empty pc m) = sp_finish (absconn pc) (fun a => a_done (m_ts_ns m) (a_add LK_QO_EMPTY a)).
Proof.
  intros W. unfold pg_query_empty. destruct (current_unit pc) as [i|] eqn:E; [|by rewrite finish_none].
  apply (finish_ok pc i); [done|done|by apply c_flag_done| |done]. by intros u [].
Qed.

Lemma pg_query_suspended_ok pc m : pg_wf pc ->
  pg_wf (pg_query_suspended pc m) /\
  absconn (pg_query_suspended pc m) = sp_close (sp_reply (absconn pc) (fun a => a_done (m_ts_ns m) (a_add LK_QO_SUSPENDED a))).
Proof.
  intros W. unfold pg_query_suspended. destruct (current_unit pc) as [i|] eqn:E.
  - destruct (reply_ok pc i _ _ W E (c_flag_done _ (m_ts_ns m) LK_QO_SUSPENDED eq_refl)) as (W1 & Ha & E1); [by intros u []|done|].
    destruct (unit_close_ok _ i W1 E1) as [W2 Ha2]. split; [exact W2|]. rewrite <- Ha. exact Ha2.
  - split; [done|]. rewrite reply_none by done. unfold sp_close. pose proof (current_open pc W) as Ho. rewrite E in Ho. by rewrite Ho.
Qed.

Lemma pg_query_func_response_ok pc m : pg_wf pc ->
  pg_wf (pg_query_func_response pc m) /\ absconn (pg_query_func_response pc m) = sp_reply (absconn pc) (a_done (m_ts_ns m)).
Proof.
  intros W. unfold pg_query_func_response. destruct (current_unit pc) as [i|] eqn:E; [|by rewrite reply_none].
  destruct (done_keeps (m_ts_ns m)). destruct (reply_ok pc i _ _ W E (c_done _ (m_ts_ns m))) as (? & ? & _); done.
Qed.

Lemma pg_query_copy_data_ok pc m : pg_wf pc ->
  pg_wf (pg_query_copy_data pc m) /\
  absconn (pg_query_copy_data pc m) = sp_reply (absconn pc) (fun a => a <| a_bytes ::= fun b => u64 (b + m_len m) |>).
Proof.
  intros W. unfold pg_query_copy_data. destruct (current_unit pc) as [i|] eqn:E; [|by rewrite reply_none].
  destruct (reply_ok pc i (fun u => u <| u_bytes ::= fun b => u64 (b + m_len m) |>)
    (fun a => a <| a_bytes ::= fun b => u64 (b + m_len m) |>) W E) as (? & ? & _); [abs_plain|by intros u []|done|done].
Qed.

Lemma pg_query_copy_begin_ok pc kind : pg_wf pc ->
  pg_wf (pg_query_copy_begin pc kind) /\
  absconn (pg_query_copy_begin pc kind) = sp_reply (absconn pc) (fun a => a <| a_copy_kind := Some kind |>)
    <| a_phase := match kind with LK_Q_COPY_IN => PG_PH_COPY_IN | _ => PG_PH_COPY_OUT end |>.
Proof.
  intros W. unfold pg_query_copy_begin. set (ph := match kind with LK_Q_COPY_IN => _ | _ => _ end). clearbody ph.
  destruct (current_unit pc) as [i|] eqn:E.
  - destruct (reply_ok pc i (fun u => u <| u_copy_kind := Some kind |>) (fun a => a <| a_copy_kind := Some kind |>) W E)
      as (W1 & Ha & _); [abs_plain|by intros u []|done|].
    change (ring_upd (pc <| pc_phase := ph |>) i ?g) with (ring_upd pc i g <| pc_phase := ph |>).
    split; [by destruct W1|]. rewrite <- Ha. done.
  - rewrite reply_none by done. split; [by destruct W|done].
Qed.

(** ** Errors *)
Lemma phase_wf pc ph : pg_wf pc -> pg_wf (pc <| pc_phase := ph |>).
Proof. by intros []. Qed.
Lemma phase_abs pc ph : absconn (pc <| pc_phase := ph |>) = absconn pc <| a_phase := ph |>.
Proof. done. Qed.

Lemma abort_tail_ok fuel : forall pc, pg_wf pc -> pc_count pc - pc_nclosed pc <= Z.of_nat fuel ->
  pg_wf (abort_tail fuel pc) /\
  absconn (abort_tail fuel pc) =
    absconn pc <| a_closed := a_closed (absconn pc) ++ map a_abort (a_open (absconn pc)) |> <| a_open := [] |>.
Proof.
  induction fuel as [|fuel IH]; intros pc W Hf; cbn [abort_tail]; pose proof (current_open pc W) as Ho; unfold current_unit in Ho.
  - destruct (Z.leb_spec (pc_count pc) (pc_nclosed pc)); [|lia]. split; [done|]. rewrite Ho. cbn [map]. rewrite app_nil_r.
    unfold absconn in *. cbn [a_open upd] in *. by rewrite Ho.
  - destruct (Z.leb_spec (pc_count pc) (pc_nclosed pc)), (Z.ltb_spec (pc_nclosed pc) (pc_count pc)); try lia.
    { split; [done|]. rewrite Ho. cbn [map]. rewrite app_nil_r. unfold absconn in *. cbn [a_open upd] in *. by rewrite Ho. }
    assert (current_unit pc = Some (pc_nclosed pc)) as E.
    { unfold current_unit. destruct (Z.leb_spec (pc_count pc) (pc_nclosed pc)); [lia|done]. }
    destruct abort_keeps as [Hw Hr]. destruct (reply_ok pc _ _ _ W E (c_abort _) Hw Hr) as (W1 & Ha1 & E1).
    destruct (unit_close_ok _ _ W1 E1) as [W2 Ha2]. set (pc2 := close_one (ring_upd pc (pc_nclosed pc) abort_unit)) in *.
    assert (pc_nclosed pc2 = pc_nclosed pc + 1 /\ pc_count pc2 = pc_count pc) as [En Ec].
    { split; [|done]. apply u32_small. pose proof (pw_closed _ W). pose proof (pw_count _ W). unfold LK_PG_MAX_INFLIGHT in *. lia. }
    destruct (IH pc2 W2) as [W3 Ha3]; [lia|]. split; [done|]. rewrite Ha3, Ha2, Ha1.
    destruct Ho as (_ & _ & _ & r & Ho). unfold sp_close, sp_reply. rewrite Ho. cbn [a_open a_closed upd map].
    by rewrite <- app_assoc.
Qed.

Lemma pg_query_error_ok pc m : pg_wf pc ->
  pg_wf (pg_query_error pc m) /\ absconn (pg_query_error pc m) = sp_error (absconn pc) (m_ts_ns m) (error_sqlstate m).
Proof.
  intros W. unfold pg_query_error. pose proof (current_open pc W) as Ho. destruct (current_unit pc) as [i|] eqn:E.
  2: { split; [done|]. unfold sp_error. by rewrite Ho. }
  destruct Ho as (-> & Hi & Hmax & r & Ho). destruct (error_keeps m) as [Hw Hr].
  destruct (reply_ok pc _ _ _ W E (c_error _ m) Hw Hr) as (W1 & Ha1 & E1).
  set (pc1 := ring_upd pc (pc_nclosed pc) (error_unit m)) in *.
  pose proof (current_open pc1 W1) as Ho1. rewrite E1 in Ho1. destruct Ho1 as (_ & _ & _ & r1 & Ho1).
  assert (abs (pc_prep pc1) (ring_at pc1 (pc_nclosed pc)) = a_fail (m_ts_ns m) (error_sqlstate m) (abs (pc_prep pc) (ring_at pc (pc_nclosed pc)))
          /\ r1 = r) as [Hu ->].
  { rewrite Ha1 in Ho1. unfold sp_reply in Ho1. rewrite Ho in Ho1. cbn [a_open upd] in Ho1. injection Ho1 as E2 E3. split; symmetry; [exact E2|exact E3]. }
  unfold sp_error. rewrite Ho.
  assert (a_z_closed (a_fail (m_ts_ns m) (error_sqlstate m) (abs (pc_prep pc) (ring_at pc (pc_nclosed pc)))) =
    unit_z_closed (ring_at pc1 (pc_nclosed pc))) as -> by (rewrite <- Hu; done). clear Hu.
  destruct (unit_z_closed _).
  - split; [done|]. rewrite Ha1. unfold sp_reply. by rewrite Ho.
  - destruct (unit_close_ok pc1 _ W1 E1) as [W2 Ha2].
    destruct (abort_tail_ok (Z.to_nat LK_PG_MAX_INFLIGHT) (close_one pc1) W2) as [W3 Ha3].
    { change (pc_count (close_one pc1)) with (pc_count pc). pose proof (pw_closed _ W2).
      change (Z.of_nat (Z.to_nat LK_PG_MAX_INFLIGHT)) with 64. unfold LK_PG_MAX_INFLIGHT in *. lia. }
    split; [by apply phase_wf|]. rewrite phase_abs.
    rewrite Ha3, Ha2, Ha1. unfold sp_close, sp_reply. rewrite Ho. cbn [a_open a_closed upd map].
    by rewrite <- app_assoc.
Qed.
