(* ===== verification/PgHandler.v ===== *)
(** The PostgreSQL handler as a whole: ReadyForQuery, dispatch, the refinement of
    a message to a step of the batch machine, and the laws the framer and the
    connection table ask of a sink. *)
From Stdlib Require Import Ascii String.
From stdpp Require Import base list.
From S2P Require Import Prelude Conn ConnTableFacts Framer Proto PgFrame PgConn PgQuery Pg PgFacts PgPrepFacts PgRefine PgOps.
#[local] Open Scope Z_scope.
Implicit Types (pc : pg_conn) (u : pg_unit) (m : lk_msg) (d : lk_dir).

Section Up.
Context {U F : Type}.
Implicit Types (p : lk_proto U pg_conn F) (c : lk_conn pg_conn F).

(** What the installed callbacks do with an upward event. *)
Definition up_apply (k : lk_query_sink U pg_conn F) c (up : U) (ev : up_event) : U :=
  match ev with
  | UpQuery s o => match on_query k with Some cb => cb up c s o | None => up end
  | UpSession s => match on_session k with Some cb => cb up c s | None => up end
  | UpTxn a b z => match on_txn k with Some cb => cb up c a b z | None => up end
  end.
Definition ups p c (evs : list up_event) : U := fold_left (up_apply (p_out p) c) evs (p_up p).

(** [p'] is [p] after reporting [evs]. *)
Definition reports p c (evs : list up_event) p' : Prop :=
  p_out p' = p_out p /\ p_oom p' = p_oom p /\ p_up p' = ups p c evs.

Lemma reports_nil p p' c : same_up p p' -> p_oom p' = p_oom p -> reports p c [] p'.
Proof. intros [? ?] ?. done. Qed.
Lemma reports_app p p1 p2 c l1 l2 : reports p c l1 p1 -> reports p1 c l2 p2 -> reports p c (l1 ++ l2) p2.
Proof.
  intros (E1 & E2 & E3) (E4 & E5 & E6). split_and!; [congruence|congruence|].
  rewrite E6. unfold ups. by rewrite E1, E3, fold_left_app.
Qed.
Lemma reports_pre p p0 p' c l : same_up p p0 -> p_oom p0 = p_oom p -> reports p0 c l p' -> reports p c l p'.
Proof. intros H1 H2 H3. exact (reports_app p p0 p' c [] l (reports_nil _ _ _ H1 H2) H3). Qed.

Lemma up_query_reports p c s o : reports p c [UpQuery s o] (up_query p c s o).
Proof. unfold reports, ups, up_query. cbn. by destruct (on_query (p_out p)). Qed.
Lemma up_session_reports p c s : reports p c [UpSession s] (up_session p c s).
Proof. unfold reports, ups, up_session. cbn. by destruct (on_session (p_out p)). Qed.
Lemma up_txn_reports p c a b z : reports p c [UpTxn a b z] (up_txn p c a b z).
Proof. unfold reports, ups, up_txn. cbn. by destruct (on_txn (p_out p)). Qed.

Lemma emit_unit_reports p c pc u ready status :
  reports p c [UpQuery (pc_session pc) (a_obs (abs (pc_prep pc) u) ready status)] (emit_unit p c pc u ready status).
Proof.
  unfold emit_unit. rewrite unit_obs_abs. set (p1 := if has_flag _ _ then _ else _).
  apply (reports_pre p p1); [subst p1; by destruct (has_flag _ _)..|]. apply up_query_reports.
Qed.

(** ** ReadyForQuery *)
(** The units reported, by position. *)
Fixpoint selected (i nclosed : Z) (l : list aunit) : list aunit :=
  match l with
  | [] => []
  | a :: l => (if (i <? nclosed) || a_z_closed a then [a] else []) ++ selected (i + 1) nclosed l
  end.

Lemma selected_closed l : forall i n, n <= i -> selected i n l = List.filter a_z_closed l.
Proof.
  induction l as [|a l IH]; intros i n H; [done|]. cbn. rewrite IH by lia.
  destruct (Z.ltb_spec i n); [lia|]. cbn. by destruct (a_z_closed a).
Qed.
Lemma selected_split l : forall i n, selected i (i + Z.of_nat n) l = take n l ++ List.filter a_z_closed (drop n l).
Proof.
  induction l as [|a l IH]; intros i n; [by rewrite take_nil, drop_nil|].
  destruct n as [|n]; [rewrite selected_closed by lia; done|]. cbn [selected take drop app].
  destruct (Z.ltb_spec i (i + Z.of_nat (S n))); [|lia]. cbn [orb app]. f_equal.
  rewrite <- (IH (i + 1) n). f_equal. lia.
Qed.

Lemma ready_loop_ok n : forall i p c pc m status p' pc',
  ready_loop n i p c pc m status = (p', pc') -> pg_wf pc -> 0 <= i -> i + Z.of_nat n = pc_count pc ->
  pg_wf pc' /\ same_ctl pc pc' /\ pc_prep pc' = pc_prep pc /\
  reports p c (map (fun a => UpQuery (pc_session pc) (a_ready (m_ts_ns m) status a))
                 (selected i (pc_nclosed pc) (drop (Z.to_nat i) (batch pc)))) p'.
Proof.
  induction n as [|n IH]; intros i p c pc m status p' pc' E W Hi Hn; cbn [ready_loop] in E.
  { injection E as <- <-. split_and!; try done. rewrite drop_ge; [done|].
    pose proof (batch_len pc W). unfold zlen in *. lia. }
  pose proof (pw_count _ W) as Hmax. pose proof (ring_at_view pc W i ltac:(lia)) as Hv.
  assert (batch pc !! Z.to_nat i = Some (abs (pc_prep pc) (ring_at pc i))) as Hb by (unfold batch; by rewrite list_lookup_fmap, Hv).
  rewrite (drop_S _ _ _ Hb). cbn [selected]. change (a_z_closed (abs _ (ring_at pc i))) with (unit_z_closed (ring_at pc i)).
  replace (S (Z.to_nat i)) with (Z.to_nat (i + 1)) by lia.
  destruct ((i <? pc_nclosed pc) || unit_z_closed (ring_at pc i)).
  2: { by apply (IH (i + 1)) in E; [|done|lia|lia]. }
  set (pc1 := ring_upd pc i (ready_unit m)) in *. destruct (ready_keeps m) as [Hw Hr].
  assert (pg_wf pc1) as W1 by (apply upd_wf; [done|lia|done|done]).
  pose proof (batch_upd pc i _ _ W ltac:(lia) (c_ready (pc_prep pc) m)) as Hb1. fold pc1 in Hb1.
  destruct (IH (i + 1) _ c pc1 m status p' pc' E W1 ltac:(lia) ltac:(change (pc_count pc1) with (pc_count pc); lia)) as (W' & Hc & Hp & Hrep).
  split; [done|]. split; [exact Hc|]. split; [exact Hp|].
  change (pc_session pc1) with (pc_session pc) in Hrep. change (pc_nclosed pc1) with (pc_nclosed pc) in Hrep.
  rewrite map_app. eapply reports_app; [|].
  2: { replace (drop (Z.to_nat (i + 1)) (batch pc)) with (drop (Z.to_nat (i + 1)) (batch pc1)); [exact Hrep|].
       rewrite Hb1, drop_alter. by rewrite decide_False by lia. }
  assert (abs (pc_prep pc1) (ring_at pc1 i) = (fun a => if a_z_closed a && (a_ts_complete_ns a =? 0) then a <| a_ts_complete_ns := m_ts_ns m |> else a)
    (abs (pc_prep pc) (ring_at pc i))) as Hu.
  { pose proof (ring_at_view pc1 W1 i ltac:(change (pc_count pc1) with (pc_count pc); lia)) as Hv1.
    assert (batch pc1 !! Z.to_nat i = Some (abs (pc_prep pc1) (ring_at pc1 i))) as Hb2 by (unfold batch; by rewrite list_lookup_fmap, Hv1).
    rewrite Hb1, list_lookup_alter_eq, Hb in Hb2. cbn [fmap option_fmap option_map] in Hb2. injection Hb2 as E2. symmetry. exact E2. }
  pose proof (emit_unit_reports p c pc1 (ring_at pc1 i) (ready_ns m (ring_at pc1 i)) status) as Hem.
  change (pc_session pc1) with (pc_session pc) in Hem.
  assert (ready_ns m (ring_at pc1 i) = if has_flag (a_flags (abs (pc_prep pc1) (ring_at pc1 i))) LK_QO_ABORTED then 0 else m_ts_ns m) as Hrn by done.
  assert (a_obs (abs (pc_prep pc1) (ring_at pc1 i)) (ready_ns m (ring_at pc1 i)) status =
    a_ready (m_ts_ns m) status (abs (pc_prep pc) (ring_at pc i))) as Eo by (rewrite Hrn, Hu; reflexivity).
  rewrite Eo in Hem. exact Hem.
Qed.

Lemma track_txn_ok p c pc m status p' pc' :
  track_txn p c pc m status = (p', pc') -> pg_wf pc ->
  pg_wf pc' /\ exists evs, sp_txn (absconn pc) (m_ts_ns m) status = (absconn pc', evs) /\ reports p c evs p'.
Proof.
  intros E W. unfold track_txn in E. unfold sp_txn. abs_ctl pc. destruct (status =? 0).
  { injection E as <- <-. split; [done|]. by exists []. }
  destruct ((status =? ch "T") && _).
  { injection E as <- <-. split; [by destruct W|]. by exists []. }
  destruct ((status =? ch "I") && _); injection E as <- <-; (split; [by destruct W|]).
  - eexists. split; [reflexivity|]. apply up_txn_reports.
  - by exists [].
Qed.

Lemma leave_ok pc : pg_wf pc -> pg_wf (leave_subphase pc) /\ absconn (leave_subphase pc) = sp_leave (absconn pc).
Proof.
  intros W. unfold leave_subphase, sp_leave. abs_ctl pc.
  destruct (pc_phase pc); try done; (split; [by apply phase_wf|apply phase_abs]).
Qed.

Lemma batch_done_abs pc pc1 : same_ctl pc pc1 ->
  absconn (batch_done pc1) = sp_drop (absconn pc) <| a_degraded := false |>.
Proof.
  intros (E1 & E2 & _ & _ & _ & _ & E7 & E8).
  change (AState (pc_phase pc1) (pc_session pc1) [] [] false false (pc_txn_status pc1) (pc_txn_start_ns pc1) =
          AState (pc_phase pc) (pc_session pc) [] [] false false (pc_txn_status pc) (pc_txn_start_ns pc)). congruence.
Qed.

Lemma pg_query_ready_ok p c pc m p' pc' :
  pg_query_ready p c pc m = (p', pc') -> pg_wf pc ->
  pg_wf pc' /\ exists evs, sp_ready (absconn pc) (m_ts_ns m) (ready_status m) = (absconn pc', evs) /\ reports p c evs p'.
Proof.
  intros E W. unfold pg_query_ready in E. set (status := ready_status m) in *. clearbody status.
  destruct (if pc_lossy pc then _ else _) as [p1 pc1] eqn:El in E.
  assert (pg_wf pc1 /\ same_ctl pc pc1 /\ reports p c (if a_lossy (absconn pc) then []
     else map (fun a => UpQuery (a_session (absconn pc)) (a_ready (m_ts_ns m) status a)) (sp_batch (absconn pc))) p1) as (W1 & Hc & Hrep).
  { abs_ctl pc. destruct (pc_lossy pc); [injection El as <- <-; split_and!; done|]. pose proof (pw_closed _ W).
    destruct (ready_loop_ok _ _ _ _ _ _ _ _ _ El W ltac:(lia) ltac:(lia)) as (W1 & Hc & _ & Hrep). split; [done|]. split; [done|].
    change (drop (Z.to_nat 0) (batch pc)) with (batch pc) in Hrep.
    pose proof (selected_split (batch pc) 0 (Z.to_nat (pc_nclosed pc))) as Hs. rewrite Z.add_0_l, Z2Nat.id in Hs by lia.
    rewrite Hs in Hrep. exact Hrep. }
  destruct (leave_ok (batch_done pc1)) as [W2 Ha2]; [by destruct W1|].
  rewrite (batch_done_abs pc pc1 Hc) in Ha2.
  destruct (track_txn_ok _ _ _ _ _ _ _ E W2) as (W' & evs & Ht & Hr). split; [done|].
  unfold sp_ready. rewrite <- Ha2, Ht. eexists. split; [reflexivity|]. by eapply reports_app.
Qed.
End Up.

(** ** Messages as events *)
Definition startup_event m : pg_event :=
  let '(ok, code, w) := pg_wire_get_u32 (pg_wire_init (m_body m)) in
  if negb ok then EvNone
  else if code =? LK_PG_PROTO_V3 then
    EvStartup (fun s => parse_params (List.length (w_rest w)) s w
                          <| s_complete := negb (has_flag (m_flags m) LK_MSG_BODY_TRUNC) |>)
  else if code =? LK_PG_CANCEL_REQUEST then EvCancel else EvNone.

Definition fe_event pc m : pg_event :=
  let ty := m_type m in
  if has_flag (m_flags m) LK_MSG_STARTUP then startup_event m
  else if ty =? ch "Q" then ev_simple m
  else if ty =? ch "B" then EvBind (m_ts_ns m) (ev_bind pc m)
  else if ty =? ch "F" then EvFunction (m_ts_ns m)
  else if ty =? ch "d" then EvCopyData (m_len m)
  else EvNone.

Definition auth_event m : pg_event :=
  let '(ok, code, _) := pg_wire_get_u32 (pg_wire_init (m_body m)) in
  if negb ok || negb (code =? 0) then EvNone else EvAuthOk.
Definition param_event m : pg_event :=
  let '(ok1, key, w) := pg_wire_cstring (pg_wire_init (m_body m)) in
  let '(ok2, val, _) := pg_wire_cstring w in
  if negb (ok1 && ok2) then EvNone
  else if key_is key (lit "server_version") then EvParam (fun s => s <| s_server_version ::= fun dst => copy_field dst val |>)
  else EvNone.
Definition complete_event m : pg_event :=
  let '(ok, tag, _) := pg_wire_cstring (pg_wire_init (m_body m)) in
  if negb ok && negb (has_flag (m_flags m) LK_MSG_BODY_TRUNC) then EvCorrupt
  else EvComplete (m_ts_ns m) (if ok then tag_rows tag else 0).

Definition be_event m : pg_event :=
  let ty := m_type m in
  if ty =? ch "R" then auth_event m
  else if ty =? ch "S" then param_event m
  else if ty =? ch "D" then EvRow (m_ts_ns m)
  else if ty =? ch "C" then complete_event m
  else if ty =? ch "I" then EvEmpty (m_ts_ns m)
  else if ty =? ch "s" then EvSuspended (m_ts_ns m)
  else if ty =? ch "E" then EvError (m_ts_ns m) (error_sqlstate m)
  else if ty =? ch "V" then EvFuncResponse (m_ts_ns m)
  else if ty =? ch "Z" then EvReady (m_ts_ns m) (ready_status m)
  else if ty =? ch "G" then EvCopyBegin LK_Q_COPY_IN
  else if ty =? ch "H" then EvCopyBegin LK_Q_COPY_OUT
  else if ty =? ch "d" then EvCopyData (m_len m)
  else if ty =? ch "W" then EvReplication
  else EvNone.

Definition msg_event pc d m : pg_event :=
  match d with LK_DIR_RECV => fe_event pc m | LK_DIR_SEND => be_event m end.

Section Dispatch.
Context {U F : Type}.
Implicit Types (p : lk_proto U pg_conn F) (c : lk_conn pg_conn F).

(** The step the state [pc'] and handler [p'] must have taken. *)
Definition stepped p c pc (ev : pg_event) p' pc' : Prop :=
  exists evs, sp_step (absconn pc) ev = (absconn pc', evs) /\ reports p c evs p'.

Lemma sp_active pc : pc_phase pc <> PG_PH_IGNORE ->
  bool_decide (a_phase (absconn pc) = PG_PH_IGNORE) = false.
Proof. intros H. by apply bool_decide_eq_false. Qed.

(** Unfold the machine's step in an active phase. *)
Ltac active Hph := unfold stepped, sp_step; rewrite (sp_active _ Hph).
Ltac quiet_step Hph := active Hph; exists []; split; [|by apply reports_nil].

Lemma session_abs pc g : absconn (pc <| pc_session ::= g |>) = absconn pc <| a_session ::= g |>.
Proof. done. Qed.
Lemma session_wf pc g : pg_wf pc -> pg_wf (pc <| pc_session ::= g |>).
Proof. by intros []. Qed.

Lemma pg_session_startup_ok p c pc m p' pc' :
  pg_session_startup p c pc m = (p', pc') -> pg_wf pc -> pc_phase pc <> PG_PH_IGNORE ->
  pg_wf pc' /\ stepped p c pc (startup_event m) p' pc'.
Proof.
  intros E W Hph. unfold pg_session_startup in E. unfold startup_event.
  destruct (pg_wire_get_u32 _) as [[ok code] w]. destruct (negb ok).
  { injection E as <- <-. split; [done|]. quiet_step Hph. done. }
  destruct (code =? LK_PG_PROTO_V3).
  { injection E as <- <-. split; [by destruct W|]. quiet_step Hph. reflexivity. }
  destruct (code =? LK_PG_CANCEL_REQUEST).
  - unfold emit_cancel in E. injection E as <- <-. split; [by destruct W|]. active Hph. eexists. split; [reflexivity|].
    eapply reports_pre; [| |apply up_query_reports]; done.
  - injection E as <- <-. split; [done|]. quiet_step Hph. done.
Qed.

Lemma pg_session_auth_ok p c pc m p' pc' :
  pg_session_auth p c pc m = (p', pc') -> pg_wf pc -> pc_phase pc <> PG_PH_IGNORE ->
  pg_wf pc' /\ stepped p c pc (auth_event m) p' pc'.
Proof.
  intros E W Hph. unfold pg_session_auth in E. unfold auth_event. destruct (pg_wire_get_u32 _) as [[ok code] w].
  destruct (bool_decide (pc_phase pc = PG_PH_AUTH)) eqn:Ea; cbn [negb] in E.
  2: { injection E as <- <-. split; [done|]. destruct (_ || _); quiet_step Hph; [done|]. abs_ctl pc. by rewrite Ea. }
  destruct (_ || _).
  { injection E as <- <-. split; [done|]. quiet_step Hph. done. }
  injection E as <- <-. split; [by destruct W|]. active Hph. abs_ctl pc. rewrite Ea. eexists. split; [reflexivity|].
  eapply reports_pre; [| |apply up_session_reports]; done.
Qed.

Lemma pg_session_param_ok p c pc m : pg_wf pc -> pc_phase pc <> PG_PH_IGNORE ->
  pg_wf (pg_session_param_status pc m) /\ stepped p c pc (param_event m) p (pg_session_param_status pc m).
Proof.
  intros W Hph. unfold pg_session_param_status, param_event.
  destruct (pg_wire_cstring _) as [[ok1 key] w]. destruct (pg_wire_cstring w) as [[ok2 val] w2].
  destruct (negb _); [split; [done|]; quiet_step Hph; done|]. destruct (key_is _ _).
  - split; [by apply session_wf|]. quiet_step Hph. done.
  - split; [done|]. quiet_step Hph. done.
Qed.

(** ** Frontend *)
Lemma batch_abs pc pc' : same_ctl pc pc' -> batch pc' = batch pc -> absconn pc' = absconn pc.
Proof. intros (E1 & E2 & E3 & E4 & E5 & E6 & E7 & E8) Eb. unfold absconn. congruence. Qed.

Lemma pg_frontend_ok p c pc m p' pc' :
  pg_frontend_msg p c pc m = (p', pc') -> pg_wf pc ->
  pg_wf pc' /\ p_out p' = p_out p /\ (p_oom p = [] -> stepped p c pc (fe_event pc m) p' pc').
Proof.
  intros E W. unfold pg_frontend_msg in E. destruct (bool_decide_reflect (pc_phase pc = PG_PH_IGNORE)) as [Hig|Hph].
  { injection E as <- <-. split; [done|]. split; [done|]. intros _. unfold stepped, sp_step. abs_ctl pc.
    rewrite bool_decide_eq_true_2 by done. by exists []. }
  unfold fe_event. destruct (has_flag _ LK_MSG_STARTUP).
  { destruct (pg_session_startup_ok _ _ _ _ _ _ E W Hph) as [W' Hs]. split; [done|]. split; [|done].
    by destruct Hs as (? & _ & ? & _). }
  destruct (Z.eqb_spec (m_type m) (ch "Q")) as [Et|_].
  { destruct (pg_query_simple_ok _ _ _ _ _ W E) as (W' & [? ?] & Hs). split; [done|]. split; [done|]. intros Ho.
    destruct (Hs Ho) as [Ho' Ha]. active Hph. exists []. split; [|apply reports_nil; [done|congruence]]. rewrite Ha. done. }
  destruct (Z.eqb_spec (m_type m) (ch "P")) as [Et|_].
  { destruct (pg_prep_parse_ok _ _ _ _ _ W E) as (W' & Hc & [? ?] & Hs). split; [done|]. split; [done|]. intros Ho.
    destruct (Hs Ho) as [Hb Ho']. rewrite Et. change (ch "P" =? ch "B") with false. change (ch "P" =? ch "F") with false.
    change (ch "P" =? ch "d") with false. active Hph. exists [].
    split; [by rewrite (batch_abs pc pc')|apply reports_nil; [done|congruence]]. }
  destruct (Z.eqb_spec (m_type m) (ch "B")) as [Et|_].
  { destruct (pg_query_bind_ok _ _ _ _ _ W E) as (W' & Hu & Ho & Ha). split; [done|]. split; [apply Hu|]. intros _.
    quiet_step Hph. rewrite Ha. unfold bound_unit. by destruct (ev_bind pc m) as [[? ?]|]. }
  destruct (Z.eqb_spec (m_type m) (ch "F")) as [Et|_].
  { destruct (pg_query_function_ok _ _ _ _ _ W E) as (W' & Hu & Ho & Ha). split; [done|]. split; [apply Hu|]. intros _.
    quiet_step Hph. by rewrite Ha. }
  destruct (Z.eqb_spec (m_type m) (ch "C")) as [Et|_].
  { destruct (pg_prep_close pc m (p_oom p)) as [pc1 oom1] eqn:Ec. injection E as <- <-.
    destruct (pg_prep_close_ok _ _ _ _ _ W Ec) as (W' & Hc & Hs). split; [done|]. split; [done|]. intros Ho.
    destruct (Hs Ho) as [Hb Ho']. rewrite Et. change (ch "C" =? ch "d") with false. active Hph. exists [].
    split; [by rewrite (batch_abs pc pc1)|apply reports_nil; [done|]]. cbn. congruence. }
  destruct (type_in (m_type m) "pEDSHX") eqn:Et.
  { injection E as <- <-. split; [done|]. split; [done|]. intros _.
    assert (m_type m =? ch "d" = false) as ->.
    { apply Z.eqb_neq. intros Ed. rewrite Ed in Et. vm_compute in Et. discriminate. }
    quiet_step Hph. done. }
  destruct (Z.eqb_spec (m_type m) (ch "d")) as [Ed|_].
  { injection E as <- <-. destruct (pg_query_copy_data_ok pc m W) as [W' Ha]. split; [done|]. split; [done|]. intros _.
    quiet_step Hph. by rewrite Ha. }
  destruct (type_in (m_type m) "cf"); injection E as <- <-; (split; [done|]; split; [done|]; intros _; quiet_step Hph; done).
Qed.

(** ** Backend *)
Lemma drop_all_ok pc : pg_wf pc -> pg_wf (pg_query_drop_all pc).2 /\ absconn (pg_query_drop_all pc).2 = sp_drop (absconn pc).
Proof. intros W. split; [by destruct W|done]. Qed.

(** A message type whose handling is one step of the machine with nothing
    reported: the state equation is [L]. *)
Ltac reply_case E Hph HW m t L :=
  let Et := fresh in destruct (Z.eqb_spec (m_type m) (ch t)) as [Et|_];
  [rewrite (HW _ Et) by done; injection E as <- <- <-; destruct L as [W' Ha];
   split; [exact W'|split; [quiet_step Hph; by rewrite Ha|done]]|].

Lemma pg_backend_ok p c pc m p' c' pc' :
  pg_backend_msg p c pc m = (p', c', pc') -> pg_wf pc ->
  pg_wf pc' /\ stepped p c pc (be_event m) p' pc' /\
  c' = (if bool_decide (pc_phase pc <> PG_PH_IGNORE /\ m_type m = ch "W")
        then c <| c_flags ::= fun w => set_flag w LK_CONN_REPLICATION |> else c).
Proof.
  intros E W. unfold pg_backend_msg in E. destruct (bool_decide_reflect (pc_phase pc = PG_PH_IGNORE)) as [Hig|Hph].
  { injection E as <- <- <-. split; [done|]. rewrite (bool_decide_eq_false_2 (_ /\ _)) by tauto. split; [|done].
    unfold stepped, sp_step. abs_ctl pc. rewrite bool_decide_eq_true_2 by done. by exists []. }
  assert (forall t, m_type m = t -> t <> ch "W" -> bool_decide (pc_phase pc <> PG_PH_IGNORE /\ m_type m = ch "W") = false) as HW.
  { intros t Et Hne. apply bool_decide_eq_false. intros [_ ?]. congruence. }
  unfold be_event.
  destruct (Z.eqb_spec (m_type m) (ch "R")) as [Et|_].
  { rewrite (HW _ Et) by done. destruct (pg_session_auth p c pc m) as [p1 pc1] eqn:Ea. injection E as <- <- <-.
    destruct (pg_session_auth_ok _ _ _ _ _ _ Ea W Hph). done. }
  destruct (Z.eqb_spec (m_type m) (ch "S")) as [Et|_].
  { rewrite (HW _ Et) by done. injection E as <- <- <-. destruct (pg_session_param_ok p c pc m W Hph). done. }
  reply_case E Hph HW m "D"%char (pg_query_data_row_ok pc m W).
  destruct (Z.eqb_spec (m_type m) (ch "C")) as [Et|_].
  { rewrite (HW _ Et) by done. destruct (pg_query_complete p pc m) as [p1 pc1] eqn:Ea. injection E as <- <- <-.
    destruct (pg_query_complete_ok _ _ _ _ _ W Ea) as (W' & Hu & Ho & Ha). split; [done|]. split; [|done].
    unfold complete_event. destruct (pg_wire_cstring _) as [[ok tag] w]. destruct (negb ok && _); quiet_step Hph; by rewrite Ha. }
  reply_case E Hph HW m "I"%char (pg_query_empty_ok pc m W).
  reply_case E Hph HW m "s"%char (pg_query_suspended_ok pc m W).
  reply_case E Hph HW m "E"%char (pg_query_error_ok pc m W).
  reply_case E Hph HW m "V"%char (pg_query_func_response_ok pc m W).
  destruct (Z.eqb_spec (m_type m) (ch "Z")) as [Et|_].
  { rewrite (HW _ Et) by done. destruct (pg_query_ready p c pc m) as [p1 pc1] eqn:Ea. injection E as <- <- <-.
    destruct (pg_query_ready_ok _ _ _ _ _ _ Ea W) as (W' & evs & Ht & Hr). split; [done|]. split; [|done].
    active Hph. exists evs. done. }
  destruct (type_in (m_type m) "Ttn123NAK") eqn:Et.
  { assert (forall t, type_in t "Ttn123NAK" = false -> m_type m =? t = false) as Hn.
    { intros t Ht. apply Z.eqb_neq. intros <-. congruence. }
    rewrite !Hn by reflexivity. rewrite (HW (m_type m) eq_refl) by (intros Hw; rewrite Hw in Et; vm_compute in Et; discriminate).
    injection E as <- <- <-. split; [done|]. split; [|done]. quiet_step Hph. done. }
  reply_case E Hph HW m "G"%char (pg_query_copy_begin_ok pc LK_Q_COPY_IN W).
  reply_case E Hph HW m "H"%char (pg_query_copy_begin_ok pc LK_Q_COPY_OUT W).
  reply_case E Hph HW m "d"%char (pg_query_copy_data_ok pc m W).
  destruct (Z.eqb_spec (m_type m) (ch "c")) as [Eg|_].
  { rewrite (HW _ Eg) by done. rewrite Eg. change (ch "c" =? ch "W") with false. injection E as <- <- <-.
    split; [done|]. split; [|done]. quiet_step Hph. done. }
  destruct (Z.eqb_spec (m_type m) (ch "W")) as [Ew|Hw].
  { rewrite bool_decide_eq_true_2 by done. unfold pg_query_copy_both in E. injection E as <- <- <-.
    split; [by destruct W|]. split; [|done]. quiet_step Hph. done. }
  rewrite bool_decide_eq_false_2 by tauto. injection E as <- <- <-. split; [done|]. split; [|done]. quiet_step Hph. done.
Qed.
End Dispatch.
