(* ===== verification/PgClaims.v ===== *)
(** The claims about the PostgreSQL handler: safety on any input, refinement of
    the batch machine, FIFO attribution, error recovery, honesty across a loss,
    and the blind spot of connections created lazily. *)
From Stdlib Require Import Ascii String.
From stdpp Require Import base list.
From S2P Require Import Prelude Conn ConnTableFacts Framer Proto PgFrame PgConn PgQuery Pg PgFacts PgPrepFacts PgRefine PgOps PgHandler.
#[local] Open Scope Z_scope.
Implicit Types (pc : pg_conn) (u : pg_unit) (m : lk_msg) (d : lk_dir).

(** What the framer calls on the handler for one connection. *)
Inductive sink_call := CallMsg (d : lk_dir) (m : lk_msg) | CallResync (d : lk_dir).

Section Claims.
Context {U F : Type}.
Implicit Types (p : lk_proto U pg_conn F) (c : lk_conn pg_conn F).

Definition call1 p c (k : sink_call) : lk_proto U pg_conn F * lk_conn pg_conn F :=
  match k with CallMsg d m => pg_on_msg p c d m | CallResync d => pg_on_resync p c d end.
Fixpoint calls p c (l : list sink_call) : lk_proto U pg_conn F * lk_conn pg_conn F :=
  match l with [] => (p, c) | k :: l => let '(p, c) := call1 p c k in calls p c l end.

Definition conn_pg_wf c : Prop := forall pc, c_proto_state c = Some pc -> pg_wf pc.

(** ** Attaching the state *)
Lemma pg_conn0_wf ph deg : pg_wf (pg_conn0 <| pc_phase := ph |> <| pc_degraded := deg |>).
Proof. split; try done. apply Forall_replicate. split; concrete. Qed.

Lemma pg_conn_get_spec p c : conn_pg_wf c ->
  let '(o, p1, c1) := pg_conn_get p c in
  same_up p p1 /\ (p_oom p = [] -> p_oom p1 = [] /\ is_Some o) /\ ps_queries (p_st p1) = ps_queries (p_st p) /\
  c1 = c <| c_proto_state := c_proto_state c1 |> /\ c_proto_state c1 = o /\
  forall pc, o = Some pc -> pg_wf pc /\ (c_proto_state c = Some pc \/ c_proto_state c = None /\
     pc_count pc = 0 /\ pc_txn_status pc = 0 /\
     pc_phase pc = (if has_flag (c_flags c) LK_CONN_SYNTHETIC then PG_PH_READY else PG_PH_STARTUP)).
Proof.
  intros Hc. unfold pg_conn_get. destruct (c_proto_state c) as [pc|] eqn:Es.
  - split_and!; try done; [by destruct c; cbn in *; subst|]. intros ? [= <-]. split; [by apply Hc|by left].
  - destruct (alloc (p_oom p)) as [ok oom] eqn:Ea. destruct ok; cbn [negb].
    + split_and!; try done.
      * intros Ho. rewrite Ho in Ea. injection Ea as <-. by split; [|eexists].
      * intros pc [= <-]. split; [destruct (has_flag _ _); [apply (pg_conn0_wf _ true)|apply (pg_conn0_wf _ false)]|].
        right. by destruct (has_flag _ _).
    + split_and!; try done; [|by destruct c; cbn in *; subst]. intros Ho. rewrite Ho in Ea. discriminate.
Qed.

Lemma tally_up p d m : same_up p (tally p d m) /\ p_oom (tally p d m) = p_oom p /\ ps_queries (p_st (tally p d m)) = ps_queries (p_st p).
Proof. unfold tally. by destruct (has_flag _ _). Qed.

Lemma msgs_wf pc n : pg_wf pc -> pg_wf (pc <| pc_msgs := n |>).
Proof. by intros []. Qed.

Lemma resync_ok pc : pg_wf pc -> pg_wf (resync_state pc) /\ absconn (resync_state pc) = sp_resync (absconn pc).
Proof.
  intros W. unfold resync_state, sp_resync.
  destruct (leave_ok ((pg_query_drop_all pc).2 <| pc_degraded := true |> <| pc_txn_status := 0 |>)) as [W' Ha]; [by destruct W|].
  split; [done|]. rewrite Ha. reflexivity.
Qed.

Lemma call1_wf p c k p' c' : call1 p c k = (p', c') -> conn_pg_wf c -> conn_pg_wf c'.
Proof.
  intros E Hc. destruct k as [d m|d]; cbn [call1] in E.
  - unfold pg_on_msg in E. pose proof (pg_conn_get_spec p c Hc) as Hg. destruct (pg_conn_get p c) as [[o p1] c1].
    destruct Hg as (_ & _ & _ & _ & Hs & Hw). destruct o as [pc|]; [|injection E as _ <-; intros pc Hpc; congruence].
    destruct (Hw pc eq_refl) as [W _]. pose proof (msgs_wf pc (inc64 (pc_msgs pc)) W) as Wm. destruct d.
    + destruct (pg_backend_msg _ _ _ _) as [[p2 c2] pc2] eqn:Eb. injection E as _ <-. intros ? [= <-].
      by destruct (pg_backend_ok _ _ _ _ _ _ _ Eb Wm).
    + destruct (pg_frontend_msg _ _ _ _) as [p2 pc2] eqn:Eb. injection E as _ <-. intros ? [= <-].
      by destruct (pg_frontend_ok _ _ _ _ _ _ Eb Wm).
  - unfold pg_on_resync in E. pose proof (pg_conn_get_spec p c Hc) as Hg. destruct (pg_conn_get p c) as [[o p1] c1].
    destruct Hg as (_ & _ & _ & _ & Hs & Hw). destruct o as [pc|]; injection E as _ <-; [|intros pc Hpc; congruence].
    intros ? [= <-]. by apply resync_ok, Hw.
Qed.

Lemma calls_wf l : forall p c p' c', calls p c l = (p', c') -> conn_pg_wf c -> conn_pg_wf c'.
Proof.
  induction l as [|k l IH]; intros p c p' c' E Hc; cbn [calls] in E; [by injection E as _ <-|].
  destruct (call1 p c k) as [p1 c1] eqn:E1. by eapply IH; [|eapply call1_wf].
Qed.

Lemma pg_on_msg_stepped p c d m p' c' pc :
  p_oom p = [] -> c_proto_state c = Some pc -> pg_wf pc -> pg_on_msg p c d m = (p', c') ->
  exists pc' evs, c_proto_state c' = Some pc' /\ pg_wf pc' /\ p_oom p' = [] /\ p_out p' = p_out p /\
    sp_step (absconn pc) (msg_event pc d m) = (absconn pc', evs) /\ p_up p' = ups p c evs.
Proof.
  intros Ho Hs W E. unfold pg_on_msg, pg_conn_get in E. rewrite Hs in E.
  destruct (tally_up p d m) as (Hu & Ho' & _). set (p0 := tally p d m) in *. clearbody p0.
  set (pc0 := pc <| pc_msgs ::= inc64 |>) in *. assert (pg_wf pc0) as W0 by by apply msgs_wf.
  change (absconn pc) with (absconn pc0). change (msg_event pc d m) with (msg_event pc0 d m). clearbody pc0.
  assert (forall p1 c1 pc1, stepped p0 c pc0 (msg_event pc0 d m) p1 pc1 -> pg_wf pc1 -> c_proto_state c1 = Some pc1 ->
    exists pc' evs, c_proto_state c1 = Some pc' /\ pg_wf pc' /\ p_oom p1 = [] /\ p_out p1 = p_out p /\
      sp_step (absconn pc0) (msg_event pc0 d m) = (absconn pc', evs) /\ p_up p1 = ups p c evs) as Hfin.
  { intros p1 c1 pc1 (evs & Hstep & Hr) W1 Hs1. exists pc1, evs.
    destruct (reports_pre p p0 p1 c evs Hu Ho' Hr) as (E1 & E2 & E3). split_and!; try done. congruence. }
  destruct d; cbn [msg_event] in *.
  - destruct (pg_backend_msg p0 c pc0 m) as [[p1 c1] pc1] eqn:Eb. injection E as <- <-.
    destruct (pg_backend_ok _ _ _ _ _ _ _ Eb W0) as (W1 & Hstep & _). by eapply Hfin.
  - destruct (pg_frontend_msg p0 c pc0 m) as [p1 pc1] eqn:Eb. injection E as <- <-.
    destruct (pg_frontend_ok _ _ _ _ _ _ Eb W0) as (W1 & _ & Hstep). eapply Hfin; [apply Hstep; congruence|done|done].
Qed.

(** ** Silence: no unit is open and none can open *)
Definition no_units pc : Prop := pc_count pc = 0 /\ pc_nclosed pc = 0.
Definition silent p p' : Prop := same_up p p' /\ ps_queries (p_st p') = ps_queries (p_st p).

Lemma no_current pc : no_units pc -> current_unit pc = None.
Proof. intros [E1 E2]. unfold current_unit. by rewrite E1, E2. Qed.

Lemma parse_queries p pc m : ps_queries (p_st (pg_prep_parse p pc m).1) = ps_queries (p_st p).
Proof.
  unfold pg_prep_parse. destruct (pg_wire_cstring _) as [[[] name] w]; [|done]. cbn [negb].
  destruct (pg_wire_cstring w) as [[hq query] w']. destruct (prep_get _ _) as [[k|] oom]; [|done].
  destruct (if _ <? 0 then _ else _) as [[slot st] k1] eqn:Es.
  destruct (pg_query_rescue_refs _ _ _ _) as [pc1 o1]. destruct (fill_slot _ _ _ _ _ _) as [e o2]. cbn.
  destruct (find_by_name k name <? 0); [|by injection Es as _ <- _]. unfold pick_slot in Es.
  destruct (0 <=? _); by injection Es as _ <- _.
Qed.

Lemma silent_frontend p c pc m p' pc' :
  pg_frontend_msg p c pc m = (p', pc') -> pg_wf pc -> no_units pc -> ready_to_open pc = false ->
  has_flag (m_flags m) LK_MSG_STARTUP = false -> silent p p' /\ same_ctl pc pc'.
Proof.
  intros E W Hn Hr Hst. unfold pg_frontend_msg in E. destruct (bool_decide _); [injection E as <- <-; done|].
  rewrite Hst in E. destruct (_ =? ch "Q").
  { unfold pg_query_simple in E. rewrite Hr in E. injection E as <- <-. done. }
  destruct (_ =? ch "P").
  { pose proof (parse_queries p pc m) as Hq. rewrite E in Hq. destruct (pg_prep_parse_ok _ _ _ _ _ W E) as (_ & Hc & Hu & _). done. }
  destruct (_ =? ch "B").
  { unfold pg_query_bind in E. rewrite Hr in E. injection E as <- <-. done. }
  destruct (_ =? ch "F").
  { unfold pg_query_function in E. rewrite Hr in E. injection E as <- <-. done. }
  destruct (_ =? ch "C").
  { destruct (pg_prep_close pc m _) as [pc1 oom1] eqn:Ec. injection E as <- <-.
    destruct (pg_prep_close_ok _ _ _ _ _ W Ec) as (_ & Hc & _). split; [done|exact Hc]. }
  destruct (type_in _ _); [injection E as <- <-; done|]. destruct (_ =? ch "d").
  { unfold pg_query_copy_data in E. rewrite (no_current pc Hn) in E. injection E as <- <-. done. }
  destruct (type_in _ _); injection E as <- <-; done.
Qed.

(** A Z over an empty ring reports nothing but a transaction edge. *)
Lemma silent_ready p c pc m p' pc' :
  pg_query_ready p c pc m = (p', pc') -> no_units pc ->
  ps_queries (p_st p') = ps_queries (p_st p) /\ no_units pc' /\ pc_phase pc' = pc_phase (leave_subphase pc) /\
  (pc_txn_status pc = 0 -> same_up p p').
Proof.
  intros E [Hc Hn]. unfold pg_query_ready in E. rewrite Hc in E. change (Z.to_nat 0) with 0%nat in E. cbn [ready_loop] in E.
  assert ((if pc_lossy pc then (p, pc) else (p, pc)) = (p, pc)) as El by by destruct (pc_lossy pc).
  rewrite El in E. set (pc1 := leave_subphase (batch_done pc)) in E.
  assert (no_units pc1 /\ pc_phase pc1 = pc_phase (leave_subphase pc) /\ pc_txn_status pc1 = pc_txn_status pc) as (H1 & H2 & H3).
  { subst pc1. unfold leave_subphase. change (pc_phase (batch_done pc)) with (pc_phase pc). by destruct (pc_phase pc) eqn:Ep. }
  clearbody pc1. unfold track_txn in E. rewrite H3 in E.
  destruct (ready_status m =? 0); [injection E as <- <-; done|].
  destruct (_ && negb _); [injection E as <- <-; done|]. destruct (_ && _) eqn:Eop; injection E as <- <-.
  - split_and!; try done; [unfold up_txn; by destruct (on_txn (p_out p))|]. intros H0. rewrite H0 in Eop.
    by rewrite andb_false_r in Eop.
  - done.
Qed.

Lemma silent_backend p c pc m p' c' pc' :
  pg_backend_msg p c pc m = (p', c', pc') -> no_units pc -> pc_phase pc <> PG_PH_AUTH -> m_type m <> ch "Z" ->
  silent p p' /\ no_units pc' /\ pc_degraded pc' = pc_degraded pc /\ pc_txn_status pc' = pc_txn_status pc /\
  (pc_phase pc' = pc_phase pc \/ pc_phase pc' = PG_PH_IGNORE \/ m_type m = ch "G" \/ m_type m = ch "H") /\
  pc_phase pc' <> PG_PH_AUTH.
Proof.
  intros E Hn Hau Hz. pose proof (no_current pc Hn) as Hcu. unfold pg_backend_msg in E.
  destruct (bool_decide _); [injection E as <- <- <-; split_and!; try done; tauto|].
  destruct (_ =? ch "R").
  { unfold pg_session_auth in E. rewrite bool_decide_eq_false_2 in E by done. injection E as <- <- <-. split_and!; try done; tauto. }
  destruct (_ =? ch "S").
  { injection E as <- <- <-. unfold pg_session_param_status. destruct (pg_wire_cstring _) as [[? ?] ?], (pg_wire_cstring _) as [[? ?] ?].
    destruct (negb _); [|destruct (key_is _ _)]; (split_and!; try done; try apply Hn; tauto). }
  unfold pg_query_data_row, pg_query_complete, pg_query_empty, pg_query_suspended, pg_query_error, pg_query_func_response,
    pg_query_copy_begin, pg_query_copy_data in E. rewrite Hcu in E.
  destruct (Z.eqb_spec (m_type m) (ch "Z")); [done|].
  repeat (destruct (_ =? _) eqn:? in E; [bool_hyps; injection E as <- <- <-; split_and!; try done; try apply Hn; tauto|]).
  destruct (type_in _ _); [injection E as <- <- <-; split_and!; try done; try apply Hn; tauto|].
  repeat (destruct (_ =? _) eqn:? in E; [bool_hyps; injection E as <- <- <-; split_and!; try done; try apply Hn; tauto|]).
  injection E as <- <- <-. split_and!; try done; try apply Hn; tauto.
Qed.

(** A connection whose handler state satisfies [P]. *)
Definition state_is c (P : pg_conn -> Prop) : Prop := exists pc, c_proto_state c = Some pc /\ pg_wf pc /\ P pc.
Definition muted pc : Prop :=
  no_units pc /\ pc_degraded pc = true /\ pc_phase pc <> PG_PH_AUTH /\ pc_txn_status pc = 0.
Definition blind pc : Prop := no_units pc /\ (pc_phase pc = PG_PH_STARTUP \/ pc_phase pc = PG_PH_IGNORE).

(** Messages that are neither startup-framed nor, from the backend, of type [ts]. *)
Definition without (ts : list Z) (k : sink_call) : Prop :=
  match k with
  | CallMsg d m => has_flag (m_flags m) LK_MSG_STARTUP = false /\ (d = LK_DIR_SEND -> ~ In (m_type m) ts)
  | CallResync _ => True
  end.

Lemma silent_tally p p' d m : silent (tally p d m) p' -> silent p p'.
Proof. destruct (tally_up p d m) as ([E1 E2] & _ & E3). intros [[E4 E5] E6]. repeat split; congruence. Qed.

Lemma resync_no_units pc : no_units (resync_state pc).
Proof. unfold resync_state, leave_subphase. by destruct (pc_phase _). Qed.
Lemma resync_phase pc : pc_phase (resync_state pc) = pc_phase (leave_subphase pc).
Proof. destruct pc as [ph]. by destruct ph. Qed.

Lemma resync_call p c d p' c' pc :
  c_proto_state c = Some pc -> pg_on_resync p c d = (p', c') ->
  silent p p' /\ c_proto_state c' = Some (resync_state pc).
Proof. intros Hs E. unfold pg_on_resync, pg_conn_get in E. rewrite Hs in E. by injection E as <- <-. Qed.

Lemma muted_call p c k p' c' :
  call1 p c k = (p', c') -> state_is c muted -> without [ch "Z"] k -> silent p p' /\ state_is c' muted.
Proof.
  intros E (pc & Hs & W & Hn & Hd & Hau & Ht) Hk. destruct k as [d m|d]; cbn [call1] in E.
  - destruct Hk as [Hst Hz]. unfold pg_on_msg, pg_conn_get in E. rewrite Hs in E.
    pose proof (msgs_wf pc (inc64 (pc_msgs pc)) W) as Wm. destruct d.
    + destruct (pg_backend_msg _ _ _ _) as [[p1 c1] pc1] eqn:Eb. injection E as <- <-.
      destruct (pg_backend_ok _ _ _ _ _ _ _ Eb Wm) as (W1 & _).
      destruct (silent_backend _ _ _ _ _ _ _ Eb Hn Hau) as (Hsil & Hn1 & Hd1 & Ht1 & _ & Hph1).
      { intros Et. apply (Hz eq_refl). by left. }
      split; [by eapply silent_tally|]. exists pc1.
      split; [done|]. split; [exact W1|]. split; [exact Hn1|]. split; [exact (eq_trans Hd1 Hd)|]. split; [exact Hph1|exact (eq_trans Ht1 Ht)].
    + destruct (pg_frontend_msg _ _ _ _) as [p1 pc1] eqn:Eb. injection E as <- <-.
      destruct (pg_frontend_ok _ _ _ _ _ _ Eb Wm) as (W1 & _).
      destruct (silent_frontend _ _ _ _ _ _ Eb Wm Hn) as (Hsil & E1 & E2 & E3 & E4 & E5 & E6 & E7 & E8); [|done|].
      { unfold ready_to_open. cbn [pc_degraded upd]. by rewrite Hd, andb_false_r. }
      split; [by eapply silent_tally|]. exists pc1. destruct Hn as [Hn1 Hn2].
      split; [done|]. split; [exact W1|]. split; [exact (conj (eq_trans E3 Hn1) (eq_trans E4 Hn2))|].
      split; [exact (eq_trans E6 Hd)|]. split; [by rewrite E1|exact (eq_trans E7 Ht)].
  - destruct (resync_call _ _ _ _ _ _ Hs E) as [Hsil Hs']. split; [done|]. exists (resync_state pc).
    split; [done|]. split; [by apply resync_ok|]. split; [apply resync_no_units|].
    clear - Hau. destruct pc as [ph]. by destruct ph.
Qed.

Lemma muted_calls l : forall p c p' c',
  calls p c l = (p', c') -> state_is c muted -> Forall (without [ch "Z"]) l -> silent p p' /\ state_is c' muted.
Proof.
  induction l as [|k l IH]; intros p c p' c' E Hm Hl; cbn [calls] in E; [by injection E as <- <-|].
  inversion Hl as [|? ? Hk Hl']; subst. destruct (call1 p c k) as [p1 c1] eqn:E1.
  destruct (muted_call _ _ _ _ _ E1 Hm Hk) as [[[S1 S2] S3] Hm1]. destruct (IH _ _ _ _ E Hm1 Hl') as [[[S4 S5] S6] Hm2].
  split; [|done]. repeat split; congruence.
Qed.

Lemma muted_ready p c z p' c' :
  pg_on_msg p c LK_DIR_SEND z = (p', c') -> state_is c muted -> m_type z = ch "Z" -> same_up p p'.
Proof.
  intros E (pc & Hs & W & Hn & Hd & Hau & Ht) Hz. unfold pg_on_msg, pg_conn_get in E. rewrite Hs in E.
  destruct (tally_up p LK_DIR_SEND z) as ([E1 E2] & _). set (p0 := tally _ _ _) in *. clearbody p0.
  destruct (pg_backend_msg _ _ _ _) as [[p1 c1] pc1] eqn:Eb. injection E as <- <-.
  unfold pg_backend_msg in Eb. rewrite Hz in Eb. destruct (bool_decide _); [injection Eb as <- <- <-; by split|].
  destruct (pg_query_ready p0 c _ z) as [p2 pc2] eqn:Er.
  destruct (silent_ready _ _ _ _ _ _ Er Hn) as (_ & _ & _ & Hup). destruct (Hup Ht) as [E3 E4].
  assert ((p2, c, pc2) = (p1, c1, pc1)) as Heq by exact Eb. injection Heq as <- _ _. split; congruence.
Qed.

(** Joining mid-stream without the synthetic mark. *)
Definition lazily_blind c : Prop :=
  (c_proto_state c = None /\ has_flag (c_flags c) LK_CONN_SYNTHETIC = false) \/ state_is c blind.

Lemma blind_state p c : lazily_blind c -> conn_pg_wf c /\
  let '(o, p1, c1) := pg_conn_get p c in
  silent p p1 /\ match o with Some pc => pg_wf pc /\ blind pc | None => lazily_blind c1 end.
Proof.
  intros H. assert (conn_pg_wf c) as Hc.
  { intros pc Hpc. destruct H as [[E _]|(pc0 & E & W & _)]; congruence. }
  split; [done|]. destruct H as [[E Hf]|(pc0 & E & W & Hb)].
  2: { unfold pg_conn_get. by rewrite E. }
  pose proof (pg_conn_get_spec p c Hc) as Hg. destruct (pg_conn_get p c) as [[o p1] c1].
  destruct Hg as (Hu & _ & Hq & Hc1 & Hs1 & Hw). split; [done|]. destruct o as [pc|].
  - destruct (Hw pc eq_refl) as [W [E'|(_ & Hcnt & _ & Hph)]]; [congruence|]. split; [done|].
    rewrite Hf in Hph. split; [|by left]. pose proof (pw_closed _ W). split; lia.
  - left. rewrite Hs1. split; [done|]. by rewrite Hc1.
Qed.

Lemma blind_backend p c pc m p' c' pc' :
  pg_backend_msg p c pc m = (p', c', pc') -> blind pc -> ~ In (m_type m) [ch "G"; ch "H"] ->
  ps_queries (p_st p') = ps_queries (p_st p) /\ blind pc'.
Proof.
  intros E [Hn Hph] Hty. destruct (Z.eq_dec (m_type m) (ch "Z")) as [Hz|Hz].
  - unfold pg_backend_msg in E. rewrite Hz in E. destruct (bool_decide _); [injection E as <- <- <-; done|].
    destruct (pg_query_ready p c pc m) as [p2 pc2] eqn:Er.
    assert ((p2, c, pc2) = (p', c', pc')) as Heq by exact E. injection Heq as <- _ <-.
    destruct (silent_ready _ _ _ _ _ _ Er Hn) as (Hq & Hn2 & Hph2 & _). split; [done|]. split; [done|]. rewrite Hph2.
    unfold leave_subphase. destruct Hph as [Hp|Hp]; rewrite Hp; [left|right]; exact Hp.
  - destruct (silent_backend _ _ _ _ _ _ _ E Hn) as ([_ Hq] & Hn2 & _ & _ & Hp & _); [destruct Hph; congruence|done|].
    split; [done|]. split; [done|]. destruct Hp as [->|[->|[Hp|Hp]]]; [done|by right|..]; exfalso; apply Hty; rewrite Hp; [left; done|right; left; done].
Qed.

Lemma blind_call p c k p' c' :
  call1 p c k = (p', c') -> lazily_blind c -> without [ch "G"; ch "H"] k ->
  ps_queries (p_st p') = ps_queries (p_st p) /\ lazily_blind c'.
Proof.
  intros E Hb Hk. destruct (blind_state p c Hb) as [_ Hg]. destruct k as [d m|d]; cbn [call1] in E.
  - unfold pg_on_msg in E. destruct (pg_conn_get p c) as [[o p1] c1]. destruct Hg as [[_ Hq1] Ho]. destruct Hk as [Hst Hty].
    destruct (tally_up p1 d m) as (_ & _ & Hq2). destruct o as [pc|]; [|injection E as <- <-; split; [congruence|done]].
    destruct Ho as [W [Hn Hph]]. pose proof (msgs_wf pc (inc64 (pc_msgs pc)) W) as Wm. destruct d.
    + destruct (pg_backend_msg _ _ _ _) as [[p2 c2] pc2] eqn:Eb. injection E as <- <-.
      destruct (pg_backend_ok _ _ _ _ _ _ _ Eb Wm) as (W2 & _).
      destruct (blind_backend _ _ _ _ _ _ _ Eb (conj Hn Hph) (Hty eq_refl)) as [Hq3 Hb2]. split; [congruence|right; by exists pc2].
    + destruct (pg_frontend_msg _ _ _ _) as [p2 pc2] eqn:Eb. injection E as <- <-.
      destruct (pg_frontend_ok _ _ _ _ _ _ Eb Wm) as (W2 & _).
      destruct (silent_frontend _ _ _ _ _ _ Eb Wm Hn) as ([_ Hq3] & E1 & E2 & E3 & E4 & _); [|done|].
      { unfold ready_to_open. cbn [pc_phase upd]. destruct Hph as [-> | ->]; done. }
      split; [congruence|]. right. exists pc2. split; [done|]. split; [done|]. destruct Hn as [Hn1 Hn2].
      split; [exact (conj (eq_trans E3 Hn1) (eq_trans E4 Hn2))|]. rewrite E1. exact Hph.
  - unfold pg_on_resync in E. destruct (pg_conn_get p c) as [[o p1] c1]. destruct Hg as [[_ Hq1] Ho].
    destruct o as [pc|]; [|injection E as <- <-; split; [done|done]]. destruct Ho as [W [Hn Hph]]. injection E as <- <-.
    split; [done|]. right. exists (resync_state pc). split; [done|]. split; [by apply resync_ok|]. split; [apply resync_no_units|].
    rewrite resync_phase. unfold leave_subphase. destruct Hph as [Hp|Hp]; rewrite Hp; [left|right]; exact Hp.
Qed.

Lemma blind_calls l : forall p c p' c',
  calls p c l = (p', c') -> lazily_blind c -> Forall (without [ch "G"; ch "H"]) l ->
  ps_queries (p_st p') = ps_queries (p_st p).
Proof.
  induction l as [|k l IH]; intros p c p' c' E Hb Hl; cbn [calls] in E; [by injection E as <- _|].
  inversion Hl as [|? ? Hk Hl']; subst. destruct (call1 p c k) as [p1 c1] eqn:E1.
  destruct (blind_call _ _ _ _ _ E1 Hb Hk) as [Hq Hb1]. rewrite (IH _ _ _ _ E Hb1 Hl'). done.
Qed.
End Claims.
