(* ===== verification/PgBatch.v ===== *)
(** A pipelined batch from Bind to ReadyForQuery: which observation each request
    gets, with and without an error in the batch. *)
From Stdlib Require Import Ascii String.
From stdpp Require Import base list.
From S2P Require Import Prelude Conn Proto PgFrame PgConn PgQuery Pg PgFacts PgPrepFacts PgRefine PgOps PgHandler PgClaims.
#[local] Open Scope Z_scope.
Implicit Types (pc : pg_conn) (u : pg_unit) (m : lk_msg) (a : aunit) (q : astate).

(** ** Batches of the abstract machine *)
Definition flagged (l : list aunit) : list aunit := if 1 <? zlen l then map (a_add LK_QO_PIPELINED) l else l.

Lemma a_add_idem f a : a_add f (a_add f a) = a_add f a.
Proof. unfold a_add, set_flag. cbn. by rewrite <- Z.lor_assoc, Z.lor_diag. Qed.

Lemma flagged_snoc us a :
  map (if 0 <? zlen us then a_add LK_QO_PIPELINED else id) (flagged us) ++
    [(if 0 <? zlen us then a_add LK_QO_PIPELINED else id) a] = flagged (us ++ [a]).
Proof.
  unfold flagged. rewrite zlen_app, zlen_cons. change (zlen []) with 0. pose proof (zlen_nonneg us).
  destruct us as [|x us]; [done|]. rewrite zlen_cons in *. pose proof (zlen_nonneg us).
  destruct (Z.ltb_spec 0 (zlen us + 1)), (Z.ltb_spec 1 (zlen us + 1 + (0 + 1))); try lia.
  rewrite map_app. f_equal. destruct (Z.ltb_spec 1 (zlen us + 1)); [|done].
  rewrite map_map. apply map_ext. intros b. apply a_add_idem.
Qed.

(** A clean boundary with [us] requested. *)
Definition requested q (us : list aunit) : Prop :=
  a_phase q = PG_PH_READY /\ a_degraded q = false /\ a_lossy q = false /\ a_closed q = [] /\ a_open q = flagged us.

Lemma zlen_flagged us : zlen (flagged us) = zlen us.
Proof. unfold flagged, zlen. destruct (1 <? _); [by rewrite length_map|done]. Qed.

Lemma sp_open_requested q us a : requested q us -> zlen us < LK_PG_MAX_INFLIGHT -> requested (sp_open q a) (us ++ [a]).
Proof.
  intros (E1 & E2 & E3 & E4 & E5) Hl. unfold sp_open. rewrite E1, E2, E3, E4, E5. rewrite bool_decide_eq_true_2 by done.
  cbn [negb andb]. change (zlen []) with 0. rewrite zlen_flagged, Z.add_0_l. destruct (Z.leb_spec LK_PG_MAX_INFLIGHT (zlen us)); [lia|].
  cbn [orb]. unfold requested. cbn [a_phase a_degraded a_lossy a_closed a_open upd map]. rewrite E1, E2, E3, E4. cbn [map].
  by rewrite flagged_snoc.
Qed.

(** Replies close the oldest open unit, one each. *)
Lemma sp_finish_cons q a r g :
  a_open q = a :: r -> a_z_closed (g a) = false ->
  sp_finish q g = q <| a_closed := a_closed q ++ [g a] |> <| a_open := r |>.
Proof. intros E Hz. unfold sp_finish, sp_reply, sp_close. rewrite E. cbn [a_open upd]. by rewrite Hz. Qed.

(** ** The handler over a batch *)
Lemma find_slot_alter P g j l : (forall e, P (g e) = P e) -> forall i, find_slot_from i P (alter g j l) = find_slot_from i P l.
Proof.
  intros H. revert j. induction l as [|e l IH]; intros j i; [done|]. destruct j as [|j].
  - change (alter g 0%nat (e :: l)) with (g e :: l). cbn. by rewrite H.
  - change (alter g (S j) (e :: l)) with (e :: alter g j l). cbn. by rewrite IH.
Qed.

Lemma lookup_keeps pc name pc' hit n : pg_prep_lookup pc name = (hit, pc') ->
  lookup_stmt (pc_prep pc') n = lookup_stmt (pc_prep pc) n.
Proof.
  unfold pg_prep_lookup. destruct (pc_prep pc) as [k|] eqn:Ep; [|intros E; injection E as _ <-; by rewrite Ep].
  destruct (find_by_name k name <? 0); [intros E; injection E as _ <-; by rewrite Ep|].
  set (clk := u64 (k_clock k + 1)). set (slot := find_by_name k name).
  change (fun e => e <| e_lru := clk |>) with (stamp clk). set (k' := prep_upd _ slot _). intros E. injection E as _ <-.
  unfold lookup_stmt. cbn [pc_prep mbind option_bind]. 
  assert (find_by_name k' n = find_by_name k n) as -> by (apply (find_slot_alter (name_is n) (stamp clk)); done).
  destruct (_ <? 0); [done|]. destruct (stamp_at k slot clk clk (find_by_name k n)) as (_ & _ & E3 & E4).
  fold k' in E3, E4. by rewrite E3, E4.
Qed.

Section Batch.
Context {F : Type}.
Implicit Types (p : lk_proto (list up_event) pg_conn F) (c : lk_conn pg_conn F).

(** A consumer that writes everything down. *)
Definition rec_sink : lk_query_sink (list up_event) pg_conn F :=
  QSink (Some (fun l _ s o => l ++ [UpQuery s o])) (Some (fun l _ s => l ++ [UpSession s]))
        (Some (fun l _ x y z => l ++ [UpTxn x y z])).

Lemma ups_rec p c evs : p_out p = rec_sink -> ups p c evs = p_up p ++ evs.
Proof.
  intros E. unfold ups. rewrite E. generalize (p_up p) as l. induction evs as [|ev evs IH]; intros l; [by rewrite app_nil_r|].
  cbn [fold_left]. rewrite IH. destruct ev; cbn; by rewrite <- app_assoc.
Qed.

Lemma bind_lookup p pc m p' pc' n : pg_query_bind p pc m = (p', pc') -> pg_wf pc ->
  lookup_stmt (pc_prep pc') n = lookup_stmt (pc_prep pc) n.
Proof.
  intros E W. unfold pg_query_bind in E. destruct (negb _); [injection E as _ <-; done|].
  pose proof (ring_push_ok (p_st p) pc W) as Hp. destruct (ring_push _ _) as [[[i|] st] pc1].
  2: { destruct Hp as [_ ->]. by injection E as _ <-. }
  destruct Hp as (_ & _ & _ & _ & l & El). assert (pc_prep pc1 = pc_prep pc) as Ep by by rewrite El.
  destruct (bind_stmt m) as [name|]; [|injection E as _ <-; by rewrite <- Ep].
  set (pc2 := ring_upd pc1 i _) in E. assert (pc_prep pc2 = pc_prep pc) as Ep2 by exact Ep. clearbody pc2.
  destruct (pg_prep_lookup pc2 name) as [hit pc3] eqn:El3. pose proof (lookup_keeps _ _ _ _ n El3) as Hk. rewrite Ep2 in Hk.
  destruct hit as [[[? ?] ?]|]; injection E as _ <-; exact Hk.
Qed.

(** One call, with the state it leaves. *)
Lemma on_msg_recv p c pc m : c_proto_state c = Some pc ->
  pg_on_msg p c LK_DIR_RECV m =
    let '(p, pc) := pg_frontend_msg (tally p LK_DIR_RECV m) c (pc <| pc_msgs ::= inc64 |>) m in (p, put_state c pc).
Proof. intros E. unfold pg_on_msg, pg_conn_get. by rewrite E. Qed.
Lemma on_msg_send p c pc m : c_proto_state c = Some pc ->
  pg_on_msg p c LK_DIR_SEND m =
    let '(p, c, pc) := pg_backend_msg (tally p LK_DIR_SEND m) c (pc <| pc_msgs ::= inc64 |>) m in (p, put_state c pc).
Proof. intros E. unfold pg_on_msg, pg_conn_get. by rewrite E. Qed.

Definition is_bind m : Prop := m_type m = ch "B" /\ has_flag (m_flags m) LK_MSG_STARTUP = false.

Lemma on_bind p c pc m us :
  c_proto_state c = Some pc -> pg_wf pc -> is_bind m -> requested (absconn pc) us -> zlen us < LK_PG_MAX_INFLIGHT ->
  exists p' pc', pg_on_msg p c LK_DIR_RECV m = (p', put_state c pc') /\ pg_wf pc' /\ same_up p p' /\
    requested (absconn pc') (us ++ [bound_unit pc m]) /\ (forall n, lookup_stmt (pc_prep pc') n = lookup_stmt (pc_prep pc) n) /\
    pc_session pc' = pc_session pc.
Proof.
  intros Hs W [Hty Hst] Hq Hl. rewrite (on_msg_recv p c pc m Hs). set (pc0 := pc <| pc_msgs ::= inc64 |>).
  assert (pg_wf pc0) as W0 by by apply msgs_wf. destruct (tally_up p LK_DIR_RECV m) as ([U1 U2] & _).
  set (p0 := tally p LK_DIR_RECV m) in *. clearbody p0.
  assert (pg_frontend_msg p0 c pc0 m = pg_query_bind p0 pc0 m) as ->.
  { unfold pg_frontend_msg. rewrite Hst, Hty. change (pc_phase pc0) with (a_phase (absconn pc)). by rewrite (proj1 Hq). }
  destruct (pg_query_bind p0 pc0 m) as [p1 pc1] eqn:Eb. destruct (pg_query_bind_ok _ _ _ _ _ W0 Eb) as (W1 & [U3 U4] & _ & Ha).
  exists p1, pc1. split; [done|]. split; [done|]. split; [split; congruence|].
  change (absconn pc0) with (absconn pc) in Ha. change (bound_unit pc0 m) with (bound_unit pc m) in Ha.
  split; [rewrite Ha; by apply sp_open_requested|]. split; [intros n; exact (bind_lookup _ _ _ _ _ n Eb W0)|].
  change (a_session (absconn pc1) = pc_session pc). rewrite Ha. unfold sp_open.
  destruct (negb _); [done|]. destruct (_ || _); done.
Qed.

Lemma on_binds bs : forall p c pc us,
  c_proto_state c = Some pc -> pg_wf pc -> Forall is_bind bs -> requested (absconn pc) us ->
  zlen us + zlen bs <= LK_PG_MAX_INFLIGHT ->
  exists p' c' pc', calls p c (map (CallMsg LK_DIR_RECV) bs) = (p', c') /\ c_proto_state c' = Some pc' /\ pg_wf pc' /\
    same_up p p' /\ requested (absconn pc') (us ++ map (bound_unit pc) bs) /\ pc_session pc' = pc_session pc.
Proof.
  induction bs as [|b bs IH]; intros p c pc us Hs W Hb Hq Hl.
  { exists p, c, pc. cbn. rewrite app_nil_r. done. }
  inversion Hb as [|? ? Hb1 Hb2]; subst. rewrite zlen_cons in Hl. pose proof (zlen_nonneg bs).
  destruct (on_bind p c pc b us Hs W Hb1 Hq ltac:(lia)) as (p1 & pc1 & E1 & W1 & [U1 U2] & Hq1 & Hk & Hse).
  destruct (IH p1 (put_state c pc1) pc1 (us ++ [bound_unit pc b]) eq_refl W1 Hb2 Hq1) as (p2 & c2 & pc2 & E2 & Hs2 & W2 & [U3 U4] & Hq2 & Hse2).
  { rewrite zlen_app, zlen_cons. change (zlen []) with 0. lia. }
  exists p2, c2, pc2. cbn [map calls call1]. rewrite E1. split; [done|]. split; [done|]. split; [done|]. split; [split; congruence|].
  split; [|congruence]. rewrite <- app_assoc in Hq2. cbn [map]. replace (map (bound_unit pc) bs) with (map (bound_unit pc1) bs); [done|].
  apply map_ext. intros m. unfold bound_unit, ev_bind. destruct (bind_stmt m) as [n|]; [|done]. cbn [mbind option_bind]. by rewrite Hk.
Qed.

Definition is_complete m : Prop := m_type m = ch "C" /\ (pg_wire_cstring (pg_wire_init (m_body m))).1.1 = true.
Definition msg_rows m : Z := tag_rows (pg_wire_cstring (pg_wire_init (m_body m))).1.2.
Definition completed m a : aunit := a_multi (a_done (m_ts_ns m) (a <| a_rows ::= fun r => u64 (r + msg_rows m) |>)).
Definition extended (a : aunit) : Prop := a_z_closed a = false.

Lemma completed_extended m a : extended a -> extended (completed m a).
Proof. intros H. unfold completed, a_multi. by destruct (1 <? _). Qed.

(** The state between requests and ReadyForQuery. *)
Definition replying pc (cl op : list aunit) : Prop :=
  pg_wf pc /\ pc_phase pc <> PG_PH_IGNORE /\ pc_lossy pc = false /\ a_closed (absconn pc) = cl /\ a_open (absconn pc) = op.

Lemma on_complete p c pc m a op cl :
  c_proto_state c = Some pc -> replying pc cl (a :: op) -> is_complete m -> extended a ->
  exists p' pc', pg_on_msg p c LK_DIR_SEND m = (p', put_state c pc') /\ same_up p p' /\
    replying pc' (cl ++ [completed m a]) op /\ pc_session pc' = pc_session pc.
Proof.
  intros Hs (W & Hph & Hlo & Hcl & Hop) [Hty Hok] Hx. rewrite (on_msg_send p c pc m Hs).
  destruct (tally_up p LK_DIR_SEND m) as ([U1 U2] & _). set (p0 := tally p LK_DIR_SEND m) in *. clearbody p0.
  set (pc0 := pc <| pc_msgs ::= inc64 |>). assert (pg_wf pc0) as W0 by by apply msgs_wf.
  assert (pg_backend_msg p0 c pc0 m = let '(p, pc) := pg_query_complete p0 pc0 m in (p, c, pc)) as ->.
  { unfold pg_backend_msg. rewrite Hty, bool_decide_eq_false_2 by done. done. }
  destruct (pg_query_complete p0 pc0 m) as [p1 pc1] eqn:Ec. destruct (pg_query_complete_ok _ _ _ _ _ W0 Ec) as (W1 & [U3 U4] & _ & Ha).
  destruct (pg_wire_cstring _) as [[ok tag] w] eqn:Ew. cbn in Hok. subst ok. cbn [negb andb] in Ha.
  assert (tag_rows tag = msg_rows m) as Er by (unfold msg_rows; by rewrite Ew). rewrite Er in Ha.
  change (absconn pc0) with (absconn pc) in Ha. rewrite (sp_finish_cons _ a op) in Ha; [|done|by apply completed_extended].
  exists p1, pc1. split; [done|]. split; [split; congruence|]. split; [|exact (f_equal a_session Ha)].
  split; [done|]. split; [rewrite (f_equal a_phase Ha : pc_phase pc1 = _); done|].
  split; [exact (eq_trans (f_equal a_lossy Ha) Hlo)|]. rewrite Ha. split; [by rewrite <- Hcl|done].
Qed.

Lemma on_completes cs : forall p c pc us cl,
  c_proto_state c = Some pc -> replying pc cl us -> Forall is_complete cs -> Forall extended us -> zlen cs <= zlen us ->
  exists p' c' pc', calls p c (map (CallMsg LK_DIR_SEND) cs) = (p', c') /\ c_proto_state c' = Some pc' /\ same_up p p' /\
    replying pc' (cl ++ zip_with completed cs us) (drop (length cs) us) /\ pc_session pc' = pc_session pc.
Proof.
  induction cs as [|m cs IH]; intros p c pc us cl Hs Hr Hc Hx Hl.
  { exists p, c, pc. cbn. rewrite app_nil_r. done. }
  rewrite zlen_cons in Hl. pose proof (zlen_nonneg cs). destruct us as [|a us]; [change (zlen []) with 0 in Hl; lia|]. rewrite zlen_cons in Hl.
  inversion Hc as [|? ? Hc1 Hc2]; inversion Hx as [|? ? Hx1 Hx2]; subst.
  destruct (on_complete p c pc m a us cl Hs Hr Hc1 Hx1) as (p1 & pc1 & E1 & [U1 U2] & Hr1 & Hse).
  destruct (IH p1 (put_state c pc1) pc1 us _ eq_refl Hr1 Hc2 Hx2 ltac:(lia)) as (p2 & c2 & pc2 & E2 & Hs2 & [U3 U4] & Hr2 & Hse2).
  exists p2, c2, pc2. cbn [map calls call1]. rewrite E1. split; [done|]. split; [done|]. split; [split; congruence|].
  split; [|congruence]. rewrite <- app_assoc in Hr2. exact Hr2.
Qed.

Definition is_error m : Prop := m_type m = ch "E".
Lemma on_error p c pc m a op cl :
  c_proto_state c = Some pc -> replying pc cl (a :: op) -> is_error m -> extended a ->
  exists p' pc', pg_on_msg p c LK_DIR_SEND m = (p', put_state c pc') /\ same_up p p' /\
    replying pc' (cl ++ a_fail (m_ts_ns m) (error_sqlstate m) a :: map a_abort op) [] /\ pc_session pc' = pc_session pc.
Proof.
  intros Hs (W & Hph & Hlo & Hcl & Hop) Hty Hx. rewrite (on_msg_send p c pc m Hs).
  destruct (tally_up p LK_DIR_SEND m) as ([U1 U2] & _). set (p0 := tally p LK_DIR_SEND m) in *. clearbody p0.
  set (pc0 := pc <| pc_msgs ::= inc64 |>). assert (pg_wf pc0) as W0 by by apply msgs_wf.
  assert (pg_backend_msg p0 c pc0 m = (p0, c, pg_query_error pc0 m)) as ->.
  { unfold pg_backend_msg. rewrite Hty, bool_decide_eq_false_2 by done. done. }
  destruct (pg_query_error_ok pc0 m W0) as [W1 Ha]. set (pc1 := pg_query_error pc0 m) in *. clearbody pc1.
  change (absconn pc0) with (absconn pc) in Ha. unfold sp_error in Ha. rewrite Hop in Ha.
  assert (a_z_closed (a_fail (m_ts_ns m) (error_sqlstate m) a) = false) as Hz by (unfold a_fail; by destruct (_ =? 0)).
  rewrite Hz in Ha. exists p0, pc1. split; [done|]. split; [done|]. split; [|exact (f_equal a_session Ha)].
  split; [done|]. split; [rewrite (f_equal a_phase Ha : pc_phase pc1 = _); done|].
  split; [exact (eq_trans (f_equal a_lossy Ha) Hlo)|]. rewrite Ha. split; [by rewrite <- Hcl|done].
Qed.

Definition is_ready m : Prop := m_type m = ch "Z".
Definition is_txn (ev : up_event) : Prop := match ev with UpTxn _ _ _ => True | _ => False end.

Lemma sp_txn_shape q ts status q' txn : sp_txn q ts status = (q', txn) ->
  Forall is_txn txn /\ a_degraded q' = a_degraded q /\ a_closed q' = a_closed q /\ a_open q' = a_open q.
Proof.
  intros E. unfold sp_txn in E. destruct (status =? 0); [injection E as <- <-; done|].
  destruct (_ && negb _); [injection E as <- <-; done|]. destruct (_ && _); injection E as <- <-; (split; [by repeat constructor|done]).
Qed.

Lemma on_ready p c pc m cl op :
  p_out p = rec_sink -> c_proto_state c = Some pc -> replying pc cl op -> Forall extended op -> is_ready m ->
  exists p' pc' txn, pg_on_msg p c LK_DIR_SEND m = (p', put_state c pc') /\
    p_up p' = p_up p ++ map (fun a => UpQuery (pc_session pc) (a_ready (m_ts_ns m) (ready_status m) a)) cl ++ txn /\
    Forall is_txn txn /\ pg_wf pc' /\ pc_count pc' = 0 /\ pc_degraded pc' = false.
Proof.
  intros Hrec Hs (W & Hph & Hlo & Hcl & Hop) Hx Hty. rewrite (on_msg_send p c pc m Hs).
  destruct (tally_up p LK_DIR_SEND m) as ([U1 U2] & _). set (p0 := tally p LK_DIR_SEND m) in *. clearbody p0.
  set (pc0 := pc <| pc_msgs ::= inc64 |>). assert (pg_wf pc0) as W0 by by apply msgs_wf.
  assert (pg_backend_msg p0 c pc0 m = let '(p, pc) := pg_query_ready p0 c pc0 m in (p, c, pc)) as ->.
  { unfold pg_backend_msg. rewrite Hty, bool_decide_eq_false_2 by done. done. }
  destruct (pg_query_ready p0 c pc0 m) as [p1 pc1] eqn:Er. destruct (pg_query_ready_ok _ _ _ _ _ _ Er W0) as (W1 & evs & Ht & Hr1 & _ & Hr3).
  rewrite (ups_rec p0) in Hr3 by congruence. change (absconn pc0) with (absconn pc) in Ht.
  unfold sp_ready in Ht. destruct (sp_txn _ _ _) as [q' txn] eqn:Etx. abs_ctl pc. injection Ht as Hq <-.
  change (a_lossy (absconn pc)) with (pc_lossy pc) in Hr3. rewrite Hlo in Hr3. unfold sp_batch in Hr3. rewrite Hcl, Hop in Hr3.
  assert (List.filter a_z_closed op = []) as Hf.
  { clear - Hx. induction Hx as [|a op Ha _ IH]; [done|]. cbn. by rewrite Ha. }
  rewrite Hf, app_nil_r in Hr3. exists p1, pc1, txn. split; [done|]. split; [by rewrite Hr3, U2|].
  assert (Forall is_txn txn /\ a_degraded q' = false /\ a_closed q' = [] /\ a_open q' = []) as (H1 & H2 & H3 & H4).
  { destruct (sp_txn_shape _ _ _ _ _ Etx) as (H1 & -> & -> & ->). split; [done|]. unfold sp_leave. by destruct (a_phase _). }
  split; [done|]. split; [done|]. rewrite Hq in *. split; [|exact H2].
  destruct (open_len pc1 W1) as [L1 L2]. rewrite H3 in L1. rewrite H4 in L2. change (zlen []) with 0 in *. lia.
Qed.
End Batch.
