(* ===== verification/PgProps.v ===== *)
(** The properties of the PostgreSQL handler. *)
From Stdlib Require Import Ascii String.
From stdpp Require Import base list.
From S2P Require Import Prelude Conn Proto PgFrame PgConn PgQuery Pg PgFacts PgPrepFacts PgRefine PgOps PgHandler PgClaims PgBatch.
#[local] Open Scope Z_scope.
Implicit Types (pc : pg_conn) (u : pg_unit) (m : lk_msg) (a : aunit) (q : astate).

(** ** What a Bind reports *)
(** The observation of a Bind before any reply: start time, statement text, flags. *)
Definition bind_obs pc (piped : bool) (b : lk_msg) : lk_query_obs :=
  let '(text, flags) := match ev_bind pc b with
                        | Some (t, trunc) => (t, if trunc then LK_QO_TEXT_TRUNC else 0)
                        | None => (None, LK_QO_NO_TEXT)
                        end in
  obs0 <| o_ts_start_ns := m_ts_ns b |> <| o_kind := LK_Q_EXTENDED |> <| o_text := text |>
       <| o_flags := if piped then set_flag flags LK_QO_PIPELINED else flags |>.
(** ... answered by the CommandComplete [k] and reported at the ReadyForQuery [z], *)
Definition ok_obs pc piped z b (k : lk_msg) : lk_query_obs :=
  bind_obs pc piped b <| o_ts_complete_ns := m_ts_ns k |> <| o_rows := msg_rows k |>
    <| o_ts_ready_ns := m_ts_ns z |> <| o_txn_status := ready_status z |>.
(** ... failed by the ErrorResponse [e], *)
Definition failed_obs pc piped z (e b : lk_msg) : lk_query_obs :=
  bind_obs pc piped b <| o_ts_complete_ns := m_ts_ns e |> <| o_ts_ready_ns := m_ts_ns z |>
    <| o_txn_status := ready_status z |> <| o_flags ::= fun w => set_flag w LK_QO_ERROR |>
    <| o_sqlstate := error_sqlstate e (replicate 6 0) |>.
(** ... or aborted by an earlier failure: no completion and no ready time. *)
Definition aborted_obs pc piped z b : lk_query_obs :=
  bind_obs pc piped b <| o_txn_status := ready_status z |> <| o_flags ::= fun w => set_flag w LK_QO_ABORTED |>.

Lemma tag_number_range l : forall r v, tag_number r l = Some v -> 0 <= r < 2 ^ 64 -> 0 <= v < 2 ^ 64.
Proof.
  induction l as [|b l IH]; intros r v E Hr; cbn [tag_number] in E; [by injection E as <-|].
  destruct (_ || _); [done|]. eapply IH; [exact E|]. apply u64_range.
Qed.
Lemma tag_rows_range tag : 0 <= tag_rows tag < 2 ^ 64.
Proof.
  unfold tag_rows. destruct (negb _); [lia|]. destruct (tag_number 0 _) as [v|] eqn:E; cbn [default]; [|lia].
  eapply tag_number_range; [exact E|lia].
Qed.

Definition batch_unit pc (piped : bool) b : aunit :=
  if piped then a_add LK_QO_PIPELINED (bound_unit pc b) else bound_unit pc b.

Lemma batch_unit_extended pc piped b : extended (batch_unit pc piped b).
Proof. unfold batch_unit, bound_unit. destruct piped, (ev_bind pc b) as [[? ?]|]; done. Qed.

Lemma flagged_binds pc bs : flagged (map (bound_unit pc) bs) = map (batch_unit pc (1 <? zlen bs)) bs.
Proof.
  unfold flagged. assert (zlen (map (bound_unit pc) bs) = zlen bs) as -> by (unfold zlen; by rewrite length_map).
  destruct (1 <? zlen bs); [by rewrite map_map|done].
Qed.

Lemma ready_ok pc piped z b k :
  a_ready (m_ts_ns z) (ready_status z) (completed k (batch_unit pc piped b)) = ok_obs pc piped z b k.
Proof.
  assert (u64 (0 + msg_rows k) = msg_rows k) as E by (apply u64_small, tag_rows_range).
  unfold a_ready, completed, ok_obs, bind_obs, batch_unit, bound_unit.
  destruct (ev_bind pc b) as [[t []]|], piped; cbn -[u64 msg_rows]; rewrite E; reflexivity.
Qed.
Lemma ready_failed pc piped z e b :
  a_ready (m_ts_ns z) (ready_status z) (a_fail (m_ts_ns e) (error_sqlstate e) (batch_unit pc piped b)) = failed_obs pc piped z e b.
Proof.
  unfold a_ready, failed_obs, bind_obs, batch_unit, bound_unit. destruct (ev_bind pc b) as [[t []]|], piped; reflexivity.
Qed.
Lemma ready_aborted pc piped z b :
  a_ready (m_ts_ns z) (ready_status z) (a_abort (batch_unit pc piped b)) = aborted_obs pc piped z b.
Proof.
  unfold a_ready, aborted_obs, bind_obs, batch_unit, bound_unit. destruct (ev_bind pc b) as [[t []]|], piped; reflexivity.
Qed.

Lemma map_zip_ready pc piped z s cs bs :
  map (fun a => UpQuery s (a_ready (m_ts_ns z) (ready_status z) a)) (zip_with completed cs (map (batch_unit pc piped) bs)) =
  zip_with (fun b k => UpQuery s (ok_obs pc piped z b k)) bs cs.
Proof.
  revert bs. induction cs as [|k cs IH]; intros [|b bs]; try done. cbn. f_equal; [|apply IH]. by rewrite <- ready_ok.
Qed.

(** At a clean boundary: authenticated, nothing in flight, no loss pending. *)
Definition clean pc : Prop :=
  pg_wf pc /\ pc_phase pc = PG_PH_READY /\ pc_degraded pc = false /\ pc_lossy pc = false /\ pc_count pc = 0.

Lemma clean_requested pc : clean pc -> requested (absconn pc) [].
Proof.
  intros (W & H1 & H2 & H3 & H4). destruct (open_len pc W) as [L1 L2]. pose proof (pw_closed _ W).
  split_and!; try done; apply zlen_0; lia.
Qed.

Lemma calls_app {U F} (p : lk_proto U pg_conn F) c l1 l2 :
  calls p c (l1 ++ l2) = let '(p, c) := calls p c l1 in calls p c l2.
Proof. revert p c. induction l1 as [|k l1 IH]; intros p c; [done|]. cbn. by destruct (call1 p c k). Qed.

Section Batch.
Context {F : Type}.
Implicit Types (p : lk_proto (list up_event) pg_conn F) (c : lk_conn pg_conn F).

(** A batch up to its replies. *)
Lemma batch_replied p c pc bs cs :
  c_proto_state c = Some pc -> clean pc -> Forall is_bind bs -> zlen bs <= LK_PG_MAX_INFLIGHT ->
  Forall is_complete cs -> zlen cs <= zlen bs ->
  exists p' c' pc', calls p c (map (CallMsg LK_DIR_RECV) bs ++ map (CallMsg LK_DIR_SEND) cs) = (p', c') /\
    c_proto_state c' = Some pc' /\ same_up p p' /\ pc_session pc' = pc_session pc /\
    replying pc' (zip_with completed cs (map (batch_unit pc (1 <? zlen bs)) bs))
             (map (batch_unit pc (1 <? zlen bs)) (drop (length cs) bs)).
Proof.
  intros Hs Hc Hb Hn Hk Hle. pose proof Hc as (W & _).
  destruct (on_binds bs p c pc [] Hs W Hb (clean_requested pc Hc)) as (p1 & c1 & pc1 & E1 & Hs1 & W1 & [U1 U2] & Hq & Hse).
  { change (zlen []) with 0. lia. }
  destruct Hq as (Q1 & Q2 & Q3 & Q4 & Q5). cbn [app] in Q5. rewrite flagged_binds in Q5.
  assert (Forall extended (map (batch_unit pc (1 <? zlen bs)) bs)) as Hx.
  { apply List.Forall_map, Forall_forall. intros b _. apply batch_unit_extended. }
  destruct (on_completes cs p1 c1 pc1 (map (batch_unit pc (1 <? zlen bs)) bs) [] Hs1) as (p2 & c2 & pc2 & E2 & Hs2 & [U3 U4] & Hr & Hse2); try done.
  { split; [done|]. split; [rewrite (Q1 : pc_phase pc1 = _); done|]. done. }
  { unfold zlen. rewrite length_map. exact Hle. }
  exists p2, c2, pc2. rewrite calls_app, E1. split; [done|]. split; [done|]. split; [split; congruence|]. split; [congruence|].
  rewrite <- skipn_map. exact Hr.
Qed.

(** C12: FIFO attribution.  A pipelined batch of up to 64 Binds, answered by
    CommandCompletes and closed by ReadyForQuery, reports exactly one
    observation per answered Bind, in order: the i-th Bind's own start time and
    statement text paired with the i-th reply's time and row count, ready at the
    Z; the Binds left unanswered report nothing, and the connection is back at a
    clean boundary. *)
Theorem pg_batch_fifo p c pc bs cs z :
  p_out p = rec_sink -> c_proto_state c = Some pc -> clean pc -> Forall is_bind bs -> zlen bs <= LK_PG_MAX_INFLIGHT ->
  Forall is_complete cs -> zlen cs <= zlen bs -> is_ready z ->
  exists p' c' pc' txn,
    calls p c (map (CallMsg LK_DIR_RECV) bs ++ map (CallMsg LK_DIR_SEND) cs ++ [CallMsg LK_DIR_SEND z]) = (p', c') /\
    p_up p' = p_up p ++ zip_with (fun b k => UpQuery (pc_session pc) (ok_obs pc (1 <? zlen bs) z b k)) bs cs ++ txn /\
    Forall is_txn txn /\ c_proto_state c' = Some pc' /\ pg_wf pc' /\ pc_count pc' = 0 /\ pc_degraded pc' = false.
Proof.
  intros Hrec Hs Hc Hb Hn Hk Hle Hz.
  destruct (batch_replied p c pc bs cs Hs Hc Hb Hn Hk Hle) as (p1 & c1 & pc1 & E1 & Hs1 & [U1 U2] & Hse & Hr).
  destruct (on_ready p1 c1 pc1 z _ _ ltac:(congruence) Hs1 Hr) as (p2 & pc2 & txn & E2 & Hup & Ht & W2 & Hc2 & Hd2); [|done|].
  { apply List.Forall_map, Forall_forall. intros b _. apply batch_unit_extended. }
  exists p2, (put_state c1 pc2), pc2, txn. rewrite app_assoc, calls_app, E1. cbn [calls call1]. rewrite E2.
  rewrite map_zip_ready, U2, Hse in Hup. done.
Qed.

(** C24: Error recovery.  If after some CommandCompletes the next reply of the
    batch is an ErrorResponse, the ReadyForQuery reports the completed Binds,
    then the failed one with its SQLSTATE, then every remaining one as aborted,
    without completion and ready times; no request of the batch is left out. *)
Theorem pg_error_aborts p c pc bs cs e z b_err rest :
  p_out p = rec_sink -> c_proto_state c = Some pc -> clean pc -> Forall is_bind bs -> zlen bs <= LK_PG_MAX_INFLIGHT ->
  Forall is_complete cs -> drop (length cs) bs = b_err :: rest -> is_error e -> is_ready z ->
  exists p' c' txn,
    calls p c (map (CallMsg LK_DIR_RECV) bs ++ map (CallMsg LK_DIR_SEND) cs ++
               [CallMsg LK_DIR_SEND e; CallMsg LK_DIR_SEND z]) = (p', c') /\
    p_up p' = p_up p ++
      zip_with (fun b k => UpQuery (pc_session pc) (ok_obs pc (1 <? zlen bs) z b k)) bs cs ++
      UpQuery (pc_session pc) (failed_obs pc (1 <? zlen bs) z e b_err) ::
      map (fun b => UpQuery (pc_session pc) (aborted_obs pc (1 <? zlen bs) z b)) rest ++ txn /\
    Forall is_txn txn.
Proof.
  intros Hrec Hs Hc Hb Hn Hk Hd He Hz.
  assert (zlen cs <= zlen bs) as Hle.
  { assert (length (drop (length cs) bs) = S (length rest)) as Hl by by rewrite Hd. rewrite length_drop in Hl. unfold zlen. lia. }
  destruct (batch_replied p c pc bs cs Hs Hc Hb Hn Hk Hle) as (p1 & c1 & pc1 & E1 & Hs1 & [U1 U2] & Hse & Hr).
  rewrite Hd in Hr. cbn [map] in Hr.
  destruct (on_error p1 c1 pc1 e _ _ _ Hs1 Hr He (batch_unit_extended _ _ _)) as (p2 & pc2 & E2 & [U3 U4] & Hr2 & Hse2).
  destruct (on_ready p2 (put_state c1 pc2) pc2 z _ _ ltac:(congruence) eq_refl Hr2 (Forall_nil_2 _) Hz) as (p3 & pc3 & txn & E3 & Hup & Ht & _).
  exists p3, (put_state (put_state c1 pc2) pc3), txn. rewrite app_assoc, calls_app, E1. cbn [calls call1]. rewrite E2, E3.
  split; [done|]. split; [|done]. rewrite map_app in Hup. cbn [map] in Hup.
  rewrite map_zip_ready, U4, U2, Hse2, Hse, ready_failed, !map_map in Hup. rewrite Hup, <- !app_assoc. cbn [app]. do 4 f_equal.
  apply map_ext. intros b. by rewrite ready_aborted.
Qed.
End Batch.

(** ** Transactions *)
Section Txn.
Context {F : Type}.
Implicit Types (p : lk_proto (list up_event) pg_conn F) (c : lk_conn pg_conn F).

(** Between queries, with the transaction state known to be [status] since [start]. *)
Definition txn_at pc (status start : Z) : Prop :=
  pg_wf pc /\ no_units pc /\ pc_phase pc = PG_PH_READY /\ pc_txn_status pc = status /\ pc_txn_start_ns pc = start.

Lemma on_z p c pc z status start :
  p_out p = rec_sink -> c_proto_state c = Some pc -> txn_at pc status start -> is_ready z -> ready_status z <> 0 ->
  exists p' pc', pg_on_msg p c LK_DIR_SEND z = (p', put_state c pc') /\ p_out p' = rec_sink /\
    let st := ready_status z in let open := (status =? ch "T") || (status =? ch "E") in
    if (st =? ch "T") && negb open then p_up p' = p_up p /\ txn_at pc' st (m_ts_ns z)
    else if (st =? ch "I") && open then p_up p' = p_up p ++ [UpTxn start (m_ts_ns z) status] /\ txn_at pc' st start
    else p_up p' = p_up p /\ txn_at pc' st start.
Proof.
  intros Hrec Hs (W & Hn & Hph & Hst & Hsta) Hty Hz. rewrite (on_msg_send p c pc z Hs).
  destruct (tally_up p LK_DIR_SEND z) as ([U1 U2] & _). set (p0 := tally p LK_DIR_SEND z) in *. clearbody p0.
  set (pc0 := pc <| pc_msgs ::= inc64 |>). assert (pg_wf pc0) as W0 by by apply msgs_wf.
  assert (pg_backend_msg p0 c pc0 z = let '(p, pc) := pg_query_ready p0 c pc0 z in (p, c, pc)) as ->.
  { unfold pg_backend_msg. rewrite Hty, bool_decide_eq_false_2 by (cbn; congruence). done. }
  destruct (pg_query_ready p0 c pc0 z) as [p1 pc1] eqn:Er.
  destruct (pg_query_ready_ok _ _ _ _ _ _ Er W0) as (W1 & evs & Ht & Hr1 & _ & Hr3).
  destruct (silent_ready _ _ _ _ _ _ Er Hn) as (_ & Hn1 & Hp1 & _).
  assert (pc_phase pc1 = PG_PH_READY) as Hph1 by (rewrite Hp1; unfold leave_subphase; change (pc_phase pc0) with (pc_phase pc); rewrite Hph; exact Hph).
  exists p1, pc1. split; [done|]. split; [congruence|]. rewrite (ups_rec p0) in Hr3 by congruence. rewrite U2 in Hr3.
  change (absconn pc0) with (absconn pc) in Ht. unfold sp_ready, sp_batch in Ht.
  assert (a_closed (absconn pc) = [] /\ a_open (absconn pc) = []) as [Ecl Eop].
  { destruct (open_len pc W) as [L1 L2], Hn. split; apply zlen_0; lia. }
  rewrite Ecl, Eop in Ht. cbn [app map List.filter] in Ht. replace (if a_lossy (absconn pc) then [] else []) with (@nil up_event) in Ht by by destruct (a_lossy _).
  unfold sp_leave in Ht. change (a_phase (sp_drop (absconn pc) <| a_degraded := false |>)) with (pc_phase pc) in Ht. rewrite Hph in Ht.
  unfold sp_txn in Ht. cbn [a_txn_status a_txn_start sp_drop upd] in Ht. change (a_txn_status (absconn pc)) with (pc_txn_status pc) in Ht.
  change (a_txn_start (absconn pc)) with (pc_txn_start_ns pc) in Ht. rewrite Hst, Hsta in Ht.
  destruct (Z.eqb_spec (ready_status z) 0); [done|]. cbv zeta. unfold txn_at.
  destruct ((ready_status z =? ch "T") && _); [|destruct ((ready_status z =? ch "I") && _)];
    apply pair_equal_spec in Ht as [Hq Hev]; subst evs; cbn [app] in Hr3; rewrite ?app_nil_r in Hr3; (split; [done|]); (split_and!; [done|done|done|..]);
    try exact (eq_sym (f_equal a_txn_status Hq)); exact (eq_sym (f_equal a_txn_start Hq)).
Qed.

Definition has_status (z : lk_msg) (ok : Z -> bool) : Prop := is_ready z /\ ok (ready_status z) = true.
Definition in_txn (st : Z) : bool := (st =? ch "T") || (st =? ch "E").

Lemma in_txn_stays p c pc z status start :
  p_out p = rec_sink -> c_proto_state c = Some pc -> txn_at pc status start -> in_txn status = true -> has_status z in_txn ->
  exists p' pc', pg_on_msg p c LK_DIR_SEND z = (p', put_state c pc') /\ p_out p' = rec_sink /\ p_up p' = p_up p /\
    txn_at pc' (ready_status z) start.
Proof.
  intros Hrec Hs Ht Hin [Hr Hst]. destruct (on_z p c pc z status start Hrec Hs Ht Hr) as (p1 & pc1 & E1 & Ho & H).
  { intros H0. rewrite H0 in Hst. discriminate. }
  exists p1, pc1. unfold in_txn in Hin. cbv zeta in H. rewrite Hin in H. rewrite andb_false_r in H.
  assert (ready_status z =? ch "I" = false) as Hi.
  { apply Z.eqb_neq. intros Hi. rewrite Hi in Hst. discriminate. }
  rewrite Hi in H. cbn [andb] in H. destruct H. done.
Qed.

Lemma in_txn_run zs : forall p c pc status start,
  p_out p = rec_sink -> c_proto_state c = Some pc -> txn_at pc status start -> in_txn status = true -> Forall (fun z => has_status z in_txn) zs ->
  exists p' c' pc', calls p c (map (CallMsg LK_DIR_SEND) zs) = (p', c') /\ c_proto_state c' = Some pc' /\ p_out p' = rec_sink /\
    p_up p' = p_up p /\ txn_at pc' (List.last (map ready_status zs) status) start /\ in_txn (List.last (map ready_status zs) status) = true.
Proof.
  induction zs as [|z zs IH]; intros p c pc status start Hrec Hs Ht Hin Hz; [by exists p, c, pc|].
  inversion Hz as [|? ? Hz1 Hz2]; subst.
  destruct (in_txn_stays p c pc z status start Hrec Hs Ht Hin Hz1) as (p1 & pc1 & E1 & Ho1 & Hu1 & Ht1).
  destruct (IH p1 (put_state c pc1) pc1 _ start Ho1 eq_refl Ht1 (proj2 Hz1) Hz2) as (p2 & c2 & pc2 & E2 & Hs2 & Ho2 & Hu2 & Ht2 & Hin2).
  assert (List.last (map ready_status (z :: zs)) status = List.last (map ready_status zs) (ready_status z)) as El.
  { cbn [map]. destruct (map ready_status zs) as [|x l]; [done|]. cbn [List.last]. clear. revert x. induction l as [|y l IH]; intros x; [done|]. apply IH. }
  exists p2, c2, pc2. rewrite El. cbn [map calls call1]. rewrite E1. split_and!; try done. congruence.
Qed.

(** Transaction spans.  A transaction that opens with a ReadyForQuery in
    status T, stays T or E over any number of batches and ends in status I is
    reported exactly once: from the Z that opened it to the Z that closed it,
    with the last status inside it. *)
Theorem pg_txn_span p c pc status start z0 zs z1 :
  p_out p = rec_sink -> c_proto_state c = Some pc -> txn_at pc status start -> in_txn status = false ->
  has_status z0 (Z.eqb (ch "T")) -> Forall (fun z => has_status z in_txn) zs -> has_status z1 (Z.eqb (ch "I")) ->
  exists p' c', calls p c (map (CallMsg LK_DIR_SEND) (z0 :: zs ++ [z1])) = (p', c') /\
    p_up p' = p_up p ++ [UpTxn (m_ts_ns z0) (m_ts_ns z1) (List.last (map ready_status zs) (ch "T"))].
Proof.
  intros Hrec Hs Ht Hout [Hr0 Hz0] Hzs [Hr1 Hz1]. apply Z.eqb_eq in Hz0, Hz1.
  destruct (on_z p c pc z0 status start Hrec Hs Ht Hr0) as (p1 & pc1 & E1 & Ho1 & H1); [rewrite <- Hz0; done|].
  cbv zeta in H1. unfold in_txn in Hout. rewrite Hout, <- Hz0, Z.eqb_refl in H1. destruct H1 as [Hu1 Ht1].
  destruct (in_txn_run zs p1 (put_state c pc1) pc1 (ch "T") (m_ts_ns z0) Ho1 eq_refl Ht1 eq_refl Hzs)
    as (p2 & c2 & pc2 & E2 & Hs2 & Ho2 & Hu2 & Ht2 & Hin2).
  destruct (on_z p2 c2 pc2 z1 _ _ Ho2 Hs2 Ht2 Hr1) as (p3 & pc3 & E3 & Ho3 & H3); [rewrite <- Hz1; done|].
  cbv zeta in H3. unfold in_txn in Hin2. rewrite Hin2, <- Hz1, andb_false_r in H3. cbn [andb] in H3. destruct H3 as [Hu3 _].
  exists p3, (put_state c2 pc3). cbn [map calls call1]. rewrite E1, map_app, calls_app, E2. cbn [map calls call1]. rewrite E3.
  split; [done|]. by rewrite Hu3, Hu2, Hu1.
Qed.

(** The transaction's start is wrong when its first ReadyForQuery already
    carries status E (a batch whose BEGIN succeeded and whose next statement
    failed): the span reported when it ends starts at whatever the previous
    transaction left behind, which on a fresh connection is time 0. *)
Theorem pg_txn_stale_start p c pc status start z0 z1 :
  p_out p = rec_sink -> c_proto_state c = Some pc -> txn_at pc status start -> in_txn status = false ->
  has_status z0 (Z.eqb (ch "E")) -> has_status z1 (Z.eqb (ch "I")) ->
  exists p' c', calls p c [CallMsg LK_DIR_SEND z0; CallMsg LK_DIR_SEND z1] = (p', c') /\
    p_up p' = p_up p ++ [UpTxn start (m_ts_ns z1) (ch "E")].
Proof.
  intros Hrec Hs Ht Hout [Hr0 Hz0] [Hr1 Hz1]. apply Z.eqb_eq in Hz0, Hz1.
  destruct (on_z p c pc z0 status start Hrec Hs Ht Hr0) as (p1 & pc1 & E1 & Ho1 & H1); [rewrite <- Hz0; done|].
  cbv zeta in H1. unfold in_txn in Hout. rewrite Hout, <- Hz0 in H1. destruct H1 as [Hu1 Ht1].
  destruct (on_z p1 (put_state c pc1) pc1 z1 _ _ Ho1 eq_refl Ht1 Hr1) as (p2 & pc2 & E2 & Ho2 & H2); [rewrite <- Hz1; done|].
  cbv zeta in H2. rewrite <- Hz1 in H2. destruct H2 as [Hu2 _].
  exists p2, (put_state (put_state c pc1) pc2). cbn [calls call1]. rewrite E1, E2. split; [done|]. by rewrite Hu2, Hu1.
Qed.
End Txn.

(** ** Witnesses *)
(** An authenticated connection between queries, and its handler. *)
Definition w_pc : pg_conn := pg_conn0 <| pc_phase := PG_PH_READY |> <| pc_degraded := false |>.
Definition w_conn : lk_conn pg_conn unit := conn0 1 <| c_proto_state := Some w_pc |>.
Definition w_proto : lk_proto (list up_event) pg_conn unit := Proto rec_sink [] pstats0 [].
Definition w_msg (ty : ascii) (ts : Z) (body : list Z) : lk_msg := Msg ts (ch ty) 0 (zlen body) body.
Definition w_bind ts := w_msg "B" ts [0; 0].
Definition w_complete ts := w_msg "C" ts (lit "SELECT 3" ++ [0]).
Definition w_ready (st : ascii) ts := w_msg "Z" ts [ch st].
Definition w_error ts := w_msg "E" ts (ch "C" :: lit "42P01" ++ [0; 0]).

Lemma w_clean : clean w_pc.
Proof. split; [apply (pg_conn0_wf PG_PH_READY false)|done]. Qed.

Lemma pg_batch_fifo_witness :
  exists p' c' pc' txn,
    calls w_proto w_conn (map (CallMsg LK_DIR_RECV) [w_bind 1; w_bind 2; w_bind 3] ++
      map (CallMsg LK_DIR_SEND) [w_complete 5; w_complete 6] ++ [CallMsg LK_DIR_SEND (w_ready "I" 9)]) = (p', c') /\
    p_up p' = [] ++ [UpQuery session0 (ok_obs w_pc true (w_ready "I" 9) (w_bind 1) (w_complete 5));
                     UpQuery session0 (ok_obs w_pc true (w_ready "I" 9) (w_bind 2) (w_complete 6))] ++ txn /\
    Forall is_txn txn /\ c_proto_state c' = Some pc' /\ pg_wf pc' /\ pc_count pc' = 0 /\ pc_degraded pc' = false.
Proof.
  apply (pg_batch_fifo w_proto w_conn w_pc [w_bind 1; w_bind 2; w_bind 3] [w_complete 5; w_complete 6] (w_ready "I" 9));
    [reflexivity|reflexivity|exact w_clean|repeat constructor|concrete|repeat constructor|concrete|reflexivity].
Defined.

Lemma pg_error_aborts_witness :
  exists p' c' txn,
    calls w_proto w_conn (map (CallMsg LK_DIR_RECV) [w_bind 1; w_bind 2; w_bind 3] ++
      map (CallMsg LK_DIR_SEND) [w_complete 5] ++ [CallMsg LK_DIR_SEND (w_error 6); CallMsg LK_DIR_SEND (w_ready "I" 9)]) = (p', c') /\
    p_up p' = [] ++ [UpQuery session0 (ok_obs w_pc true (w_ready "I" 9) (w_bind 1) (w_complete 5))] ++
      UpQuery session0 (failed_obs w_pc true (w_ready "I" 9) (w_error 6) (w_bind 2)) ::
      [UpQuery session0 (aborted_obs w_pc true (w_ready "I" 9) (w_bind 3))] ++ txn /\
    Forall is_txn txn.
Proof.
  apply (pg_error_aborts w_proto w_conn w_pc [w_bind 1; w_bind 2; w_bind 3] [w_complete 5] (w_error 6) (w_ready "I" 9) (w_bind 2) [w_bind 3]);
    [reflexivity|reflexivity|exact w_clean|repeat constructor|concrete|repeat constructor|reflexivity|reflexivity|reflexivity].
Defined.

Lemma w_txn_at : txn_at w_pc 0 0.
Proof. split; [apply (pg_conn0_wf PG_PH_READY false)|done]. Qed.

Lemma pg_txn_span_witness :
  exists p' c', calls w_proto w_conn (map (CallMsg LK_DIR_SEND) (w_ready "T" 10 :: [w_ready "T" 20; w_ready "E" 30] ++ [w_ready "I" 40])) = (p', c') /\
    p_up p' = [] ++ [UpTxn 10 40 (ch "E")].
Proof.
  apply (pg_txn_span w_proto w_conn w_pc 0 0 (w_ready "T" 10) [w_ready "T" 20; w_ready "E" 30] (w_ready "I" 40));
    [reflexivity|reflexivity|exact w_txn_at|reflexivity|done|repeat constructor|done].
Defined.

Lemma pg_txn_stale_start_witness :
  exists p' c', calls w_proto w_conn [CallMsg LK_DIR_SEND (w_ready "E" 30); CallMsg LK_DIR_SEND (w_ready "I" 40)] = (p', c') /\
    p_up p' = [] ++ [UpTxn 0 40 (ch "E")].
Proof.
  apply (pg_txn_stale_start w_proto w_conn w_pc 0 0 (w_ready "E" 30) (w_ready "I" 40));
    [reflexivity|reflexivity|exact w_txn_at|reflexivity|done|done].
Defined.
