(* ===== verification/PgMain.v ===== *)
(** The PostgreSQL handler on arbitrary traffic: safety, refinement of the batch
    machine, silence across a loss, and what it never looks at. *)
From Stdlib Require Import Ascii String.
From stdpp Require Import base list.
From S2P Require Import Prelude Conn Proto PgFrame PgConn PgQuery Pg PgFacts PgPrepFacts PgRefine PgOps PgHandler PgClaims PgBatch PgProps.
#[local] Open Scope Z_scope.
Implicit Types (pc : pg_conn) (u : pg_unit) (m : lk_msg) (d : lk_dir).

(** The batch machine on a framer call; a message's meaning depends on the
    statement cache, hence on [pc]. *)
Definition sp_call pc (k : sink_call) (q : astate) : astate * list up_event :=
  match k with
  | CallMsg d m => sp_step q (msg_event pc d m)
  | CallResync _ => (sp_resync q, [])
  end.

(** ** Payloads the handler must not read *)
(** Message types whose body the handler never opens: the password, Execute,
    Describe, Sync, Flush, Terminate, function calls and COPY data going in;
    rows, notices, descriptions, COPY data coming out. *)
Definition opaque_types d : list Z :=
  match d with LK_DIR_RECV => lit "pEDSHXFdcf" | LK_DIR_SEND => lit "DIsVTtn123NAKGHdcW" end.
(** Same message up to payload: the envelope is equal, and the bodies may differ
    when the type is opaque, or after the two names of a Bind. *)
Definition same_envelope m m' : Prop :=
  m_ts_ns m' = m_ts_ns m /\ m_type m' = m_type m /\ m_flags m' = m_flags m /\ m_len m' = m_len m.
Definition same_outline d m m' : Prop :=
  same_envelope m m' /\
  (m_body m' = m_body m \/
   has_flag (m_flags m) LK_MSG_STARTUP = false /\
   (In (m_type m) (opaque_types d) \/
    d = LK_DIR_RECV /\ m_type m = ch "B" /\ exists portal stmt params params',
      Forall (fun b => b <> 0) portal /\ Forall (fun b => b <> 0) stmt /\
      m_body m = portal ++ 0 :: stmt ++ 0 :: params /\ m_body m' = portal ++ 0 :: stmt ++ 0 :: params')).
Definition same_call (k k' : sink_call) : Prop :=
  match k, k' with
  | CallMsg d m, CallMsg d' m' => d' = d /\ same_outline d m m'
  | CallResync d, CallResync d' => d' = d
  | _, _ => False
  end.

Section Main.
Context {U F : Type}.
Implicit Types (p : lk_proto U pg_conn F) (c : lk_conn pg_conn F).

Lemma tally_same p d m m' : same_envelope m m' -> tally p d m' = tally p d m.
Proof. intros (_ & E1 & E2 & _). unfold tally. by rewrite E1, E2. Qed.

(** Two messages with the same outline are the same message to the dispatcher. *)
Lemma bind_same m m' portal stmt params params' :
  Forall (fun b => b <> 0) portal -> Forall (fun b => b <> 0) stmt ->
  m_body m = portal ++ 0 :: stmt ++ 0 :: params -> m_body m' = portal ++ 0 :: stmt ++ 0 :: params' ->
  bind_stmt m' = bind_stmt m.
Proof. intros H1 H2 E1 E2. unfold bind_stmt, pg_wire_init. by rewrite E1, E2, !cstring_hit. Qed.

Lemma opaque_not d ty a : In ty (opaque_types d) -> existsb (Z.eqb (ch a)) (opaque_types d) = false -> (ty =? ch a) = false.
Proof.
  intros Hin He. apply Z.eqb_neq. intros ->. apply not_true_iff_false in He. apply He, existsb_exists.
  exists (ch a). split; [done|apply Z.eqb_refl].
Qed.

Lemma frontend_same p c pc m m' : same_outline LK_DIR_RECV m m' -> pg_frontend_msg p c pc m' = pg_frontend_msg p c pc m.
Proof.
  intros [(E1 & E2 & E3 & E4) [E5|[Hs H]]].
  { destruct m, m'. cbn in *. by subst. }
  unfold pg_frontend_msg. rewrite E2, E3, Hs. unfold pg_query_function, pg_query_copy_data. rewrite E1, E4.
  destruct H as [Hin|(_ & Ht & portal & stmt & params & params' & Hp & Hq & B1 & B2)].
  - rewrite (opaque_not _ _ "Q" Hin eq_refl), (opaque_not _ _ "P" Hin eq_refl), (opaque_not _ _ "B" Hin eq_refl), (opaque_not _ _ "C" Hin eq_refl).
    reflexivity.
  - rewrite Ht. unfold pg_query_bind. rewrite E1, (bind_same m m' _ _ _ _ Hp Hq B1 B2). reflexivity.
Qed.

Lemma backend_same p c pc m m' : same_outline LK_DIR_SEND m m' -> pg_backend_msg p c pc m' = pg_backend_msg p c pc m.
Proof.
  intros [(E1 & E2 & E3 & E4) [E5|[Hs H]]].
  { destruct m, m'. cbn in *. by subst. }
  destruct H as [Hin|(Hd & _)]; [|done].
  unfold pg_backend_msg, pg_query_data_row, pg_query_empty, pg_query_suspended, pg_query_func_response, pg_query_copy_data. rewrite E1, E2, E4.
  rewrite (opaque_not _ _ "R" Hin eq_refl), (opaque_not _ _ "S" Hin eq_refl), (opaque_not _ _ "C" Hin eq_refl),
    (opaque_not _ _ "E" Hin eq_refl), (opaque_not _ _ "Z" Hin eq_refl). reflexivity.
Qed.

Lemma on_msg_same p c d m m' : same_outline d m m' -> pg_on_msg p c d m' = pg_on_msg p c d m.
Proof.
  intros H. unfold pg_on_msg. destruct (pg_conn_get p c) as [[o p1] c1]. rewrite (tally_same p1 d m m' (proj1 H)).
  destruct o as [pc|]; [|done]. destruct d; [by rewrite (backend_same _ _ _ _ _ H)|by rewrite (frontend_same _ _ _ _ _ H)].
Qed.

(** C7: Safety of the handler.  Whatever messages and resyncs the framer delivers,
    with whatever bodies, and whichever allocations fail, the connection's state
    stays well formed: at most 64 units in flight, closed ones before open ones,
    every copied text inside its buffer and at most 16 KiB, every statement
    reference of a unit to a live cache slot of the generation it saw. *)
Theorem pg_handler_safe p c l p' c' :
  conn_pg_wf c -> calls p c l = (p', c') ->
  forall pc, c_proto_state c' = Some pc ->
    0 <= pc_nclosed pc <= pc_count pc /\ pc_count pc <= LK_PG_MAX_INFLIGHT /\
    Forall (fun u => zlen (u_own_text u) <= u_own_cap u <= LK_MSG_BODY_MAX /\ zlen (u_sqlstate u) = 6) (pc_ring pc) /\
    Forall (ref_ok (pc_prep pc)) (view pc) /\ forall k, pc_prep pc = Some k -> cache_wf k.
Proof.
  intros Hc E pc Hs. pose proof (calls_wf l p c p' c' E Hc pc Hs) as W.
  split; [exact (pw_closed _ W)|]. split; [exact (pw_count _ W)|]. split; [|split; [exact (pw_refs _ W)|exact (pw_prep _ W)]].
  eapply Forall_impl; [exact (pw_units _ W)|]. intros u []. lia.
Qed.

(** C3: Refinement.  While allocations succeed, every framer call takes the
    handler's connection through exactly one step of the batch machine and calls
    the consumer with exactly the machine's reports, in order. *)
Theorem pg_handler_refines p c k p' c' pc :
  p_oom p = [] -> c_proto_state c = Some pc -> pg_wf pc -> call1 p c k = (p', c') ->
  exists pc' evs, c_proto_state c' = Some pc' /\ pg_wf pc' /\ p_oom p' = [] /\ p_out p' = p_out p /\
    sp_call pc k (absconn pc) = (absconn pc', evs) /\ p_up p' = ups p c evs.
Proof.
  intros Ho Hs W E. destruct k as [d m|d]; cbn [call1 sp_call] in *; [by eapply pg_on_msg_stepped|].
  unfold pg_on_resync, pg_conn_get in E. rewrite Hs in E. injection E as <- <-.
  destruct (resync_ok pc W) as [W' Ha]. exists (resync_state pc), []. rewrite Ha. done.
Qed.

(** C31: Silence across a loss.  On a connection the handler has attached to and that is
    not in the authentication phase, a resync, any messages and further resyncs after it
    with neither a ReadyForQuery nor a new startup message among them, and then the
    ReadyForQuery, report nothing: the consumer is left untouched.  (In the authentication
    phase that ReadyForQuery ends it and the session is reported.) *)
Theorem pg_loss_silent p c d l z p' c' :
  state_is c (fun pc => pc_phase pc <> PG_PH_AUTH) -> Forall (without [ch "Z"]) l -> m_type z = ch "Z" ->
  calls p c (CallResync d :: l ++ [CallMsg LK_DIR_SEND z]) = (p', c') -> p_up p' = p_up p.
Proof.
  intros (pc & Hs & W & Hau) Hl Hz E. cbn [calls call1] in E. destruct (pg_on_resync p c d) as [p1 c1] eqn:E1.
  destruct (resync_call _ _ _ _ _ _ Hs E1) as [[[_ U1] _] Hs1]. rewrite calls_app in E.
  destruct (calls p1 c1 l) as [p2 c2] eqn:E2. destruct (muted_calls l p1 c1 p2 c2 E2) as [[[_ U2] _] Hm]; [|done|].
  { exists (resync_state pc). split; [done|]. split; [by apply resync_ok|]. split; [apply resync_no_units|].
    clear - Hau. destruct pc as [ph]. by destruct ph. }
  cbn [calls call1] in E. destruct (pg_on_msg p2 c2 LK_DIR_SEND z) as [p3 c3] eqn:E3. injection E as <- <-.
  destruct (muted_ready _ _ _ _ _ E3 Hm Hz) as [_ U3]. congruence.
Qed.

(** C32: Noninterference.  The passwords, bind parameters, COPY payloads and row
    contents that cross the handler influence nothing: two runs whose messages
    differ only there end in the same handler and the same connection. *)
Theorem pg_payload_opaque p c l l' :
  Forall2 same_call l l' -> calls p c l' = calls p c l.
Proof.
  intros H. revert p c. induction H as [|k k' l l' Hk _ IH]; intros p c; [done|]. cbn [calls].
  replace (call1 p c k') with (call1 p c k); [destruct (call1 p c k); apply IH|].
  destruct k as [d m|d], k' as [d' m'|d']; [|done|done|by rewrite Hk].
  destruct Hk as [-> Ho]. cbn [call1]. by rewrite (on_msg_same p c d m m' Ho).
Qed.

(** A connection entry that the table recreated lazily (its OPEN was lost or
    it was evicted; no synthetic mark) yields no query at all, however many
    clean boundaries pass, until a startup message or a COPY response is seen. *)
Theorem pg_lazy_entry_blind p c l p' c' :
  c_proto_state c = None -> has_flag (c_flags c) LK_CONN_SYNTHETIC = false -> Forall (without [ch "G"; ch "H"]) l ->
  calls p c l = (p', c') -> ps_queries (p_st p') = ps_queries (p_st p).
Proof. intros Hs Hf Hl E. eapply blind_calls; [exact E|by left|exact Hl]. Qed.
End Main.

(** ** Witnesses *)
Lemma w_wf : conn_pg_wf w_conn.
Proof. intros pc [= <-]. apply w_clean. Qed.

Definition w_calls : list sink_call :=
  [CallMsg LK_DIR_RECV (w_msg "P" 1 [0; 65; 0]); CallMsg LK_DIR_RECV (w_bind 2); CallMsg LK_DIR_SEND (w_msg "C" 3 [1])].
Definition w_after : pg_conn := default w_pc (c_proto_state (calls (w_proto <| p_oom := [true; false; true] |>) w_conn w_calls).2).
Lemma pg_handler_safe_witness :
  0 <= pc_nclosed w_after <= pc_count w_after /\ pc_count w_after <= LK_PG_MAX_INFLIGHT /\
  Forall (fun u => zlen (u_own_text u) <= u_own_cap u <= LK_MSG_BODY_MAX /\ zlen (u_sqlstate u) = 6) (pc_ring w_after) /\
  Forall (ref_ok (pc_prep w_after)) (view w_after) /\ forall k, pc_prep w_after = Some k -> cache_wf k.
Proof.
  eapply (pg_handler_safe (w_proto <| p_oom := [true; false; true] |>) w_conn w_calls _ _ w_wf (surjective_pairing _)). vm_compute. reflexivity.
Defined.

Lemma pg_handler_refines_witness :
  exists pc' evs, c_proto_state (call1 w_proto w_conn (CallMsg LK_DIR_RECV (w_bind 2))).2 = Some pc' /\ pg_wf pc' /\
    p_oom (call1 w_proto w_conn (CallMsg LK_DIR_RECV (w_bind 2))).1 = [] /\
    p_out (call1 w_proto w_conn (CallMsg LK_DIR_RECV (w_bind 2))).1 = p_out w_proto /\
    sp_call w_pc (CallMsg LK_DIR_RECV (w_bind 2)) (absconn w_pc) = (absconn pc', evs) /\
    p_up (call1 w_proto w_conn (CallMsg LK_DIR_RECV (w_bind 2))).1 = ups w_proto w_conn evs.
Proof.
  apply (pg_handler_refines w_proto w_conn (CallMsg LK_DIR_RECV (w_bind 2)) _ _ w_pc);
    [reflexivity|reflexivity|exact (proj1 w_clean)|apply surjective_pairing].
Defined.

Lemma pg_loss_silent_witness :
  p_up (calls w_proto w_conn (CallResync LK_DIR_SEND :: [CallMsg LK_DIR_RECV (w_bind 2); CallMsg LK_DIR_SEND (w_complete 5)] ++
          [CallMsg LK_DIR_SEND (w_ready "I" 9)])).1 = [].
Proof.
  eapply (pg_loss_silent w_proto w_conn LK_DIR_SEND [CallMsg LK_DIR_RECV (w_bind 2); CallMsg LK_DIR_SEND (w_complete 5)] (w_ready "I" 9));
    [|repeat constructor; intros; cbn; intros []; done|reflexivity|apply surjective_pairing].
  exists w_pc. split; [reflexivity|]. split; [exact (proj1 w_clean)|discriminate].
Defined.

Lemma pg_payload_opaque_witness :
  calls w_proto w_conn [CallMsg LK_DIR_RECV (w_msg "p" 1 (lit "hunter2")); CallMsg LK_DIR_RECV (w_msg "B" 2 [0; 0; 7])] =
  calls w_proto w_conn [CallMsg LK_DIR_RECV (w_msg "p" 1 (lit "swordfi")); CallMsg LK_DIR_RECV (w_msg "B" 2 [0; 0; 9])].
Proof.
  apply pg_payload_opaque. constructor; [|constructor; [|constructor]].
  - split; [reflexivity|]. split; [repeat split|]. right. split; [reflexivity|]. left. left. reflexivity.
  - split; [reflexivity|]. split; [repeat split|]. right. split; [reflexivity|]. right.
    split; [reflexivity|]. split; [reflexivity|]. exists [], [], [9], [7]. repeat split; constructor.
Defined.

Lemma pg_lazy_entry_blind_witness :
  ps_queries (p_st (calls w_proto (conn0 5)
    [CallMsg LK_DIR_SEND (w_ready "I" 1); CallMsg LK_DIR_RECV (w_msg "Q" 2 (lit "SELECT 1")); CallMsg LK_DIR_SEND (w_complete 5);
     CallMsg LK_DIR_SEND (w_ready "I" 9)]).1) = 0.
Proof.
  eapply (pg_lazy_entry_blind w_proto (conn0 5)); [reflexivity|reflexivity| |apply surjective_pairing].
  repeat (constructor; [split; [reflexivity|intros _ [H|[H|H]]; done]|]). constructor.
Defined.
