(* ===== verification/PgStmt.v ===== *)
(** The prepared-statement cache as a finite map from names to texts: what Parse
    and Close mean for a later Bind, the statements in flight, and the aliasing of
    over-long names. *)
From Stdlib Require Import Ascii String.
From stdpp Require Import base list.
From S2P Require Import Prelude Conn Proto PgFrame PgConn PgQuery Pg PgFacts PgPrepFacts PgRefine PgOps PgHandler PgClaims PgBatch PgProps.
#[local] Open Scope Z_scope.
Implicit Types (pc : pg_conn) (m : lk_msg) (e : pg_prep) (l : list pg_prep) (name n : list Z).

Definition nonul (l : list Z) : Prop := Forall (fun b => b <> 0) l.

(** ** The cache as a dictionary *)
Definition dict l n : option (option (list Z) * bool) :=
  match List.find (name_is n) l with Some e => Some (nonempty (e_text e), e_trunc e) | None => None end.

Lemma find_slot_find P l d : forall i, 0 <= i ->
  match List.find P l with
  | Some e => i <= find_slot_from i P l /\ nth (Z.to_nat (find_slot_from i P l - i)) l d = e
  | None => find_slot_from i P l = -1
  end.
Proof.
  induction l as [|e l IH]; intros i Hi; [done|]. cbn [List.find find_slot_from]. destruct (P e).
  { split; [lia|]. by rewrite Z.sub_diag. }
  specialize (IH (i + 1) ltac:(lia)). destruct (List.find P l) as [e'|]; [|done]. destruct IH as [H1 H2]. split; [lia|].
  replace (Z.to_nat (find_slot_from (i + 1) P l - i)) with (S (Z.to_nat (find_slot_from (i + 1) P l - (i + 1)))) by lia. exact H2.
Qed.

Lemma lookup_dict k n : lookup_stmt (Some k) n = dict (k_e k) n.
Proof.
  unfold lookup_stmt, dict, find_by_name. cbn [mbind option_bind]. pose proof (find_slot_find (name_is n) (k_e k) prep0 0 ltac:(lia)) as H.
  destruct (List.find _ _) as [e|]; [|by rewrite H]. destruct H as [H1 H2]. rewrite Z.sub_0_r in H2. unfold prep_at. rewrite H2.
  destruct (Z.ltb_spec (find_slot_from 0 (name_is n) (k_e k)) 0); [lia|done].
Qed.

(** Overwriting one entry. *)
Lemma find_other P j e' l : P e' = false -> (forall e, l !! j = Some e -> P e = false) ->
  List.find P (alter (fun _ => e') j l) = List.find P l.
Proof.
  intros H1. revert j. induction l as [|e l IH]; intros j Hj; [by destruct j|]. destruct j as [|j].
  - change (alter (fun _ => e') 0%nat (e :: l)) with (e' :: l). cbn. by rewrite H1, (Hj e eq_refl).
  - change (alter (fun _ => e') (S j) (e :: l)) with (e :: alter (fun _ => e') j l). cbn. by rewrite IH.
Qed.
Lemma find_here P e' l : forall j, P e' = true -> (j < length l)%nat ->
  (forall i e, (i < j)%nat -> l !! i = Some e -> P e = false) ->
  List.find P (alter (fun _ => e') j l) = Some e'.
Proof.
  intros j H1. revert j. induction l as [|e l IH]; intros j Hj Hp; [cbn in Hj; lia|]. destruct j as [|j].
  - change (alter (fun _ => e') 0%nat (e :: l)) with (e' :: l). cbn. by rewrite H1.
  - change (alter (fun _ => e') (S j) (e :: l)) with (e :: alter (fun _ => e') j l). cbn. rewrite (Hp 0%nat e) by (done || lia).
    apply IH; [cbn in Hj; lia|]. intros i x Hi Hx. apply (Hp (S i) x); [lia|done].
Qed.
Lemma find_none P l : List.find P l = None -> forall i e, l !! i = Some e -> P e = false.
Proof. intros H i e He. eapply List.find_none; [exact H|]. apply list_elem_of_In. by eapply list_elem_of_lookup_2. Qed.

(** The first slot that matches, with nothing before it. *)
Lemma find_first P l : forall i, 0 <= i ->
  find_slot_from i P l = -1 /\ List.find P l = None \/
  exists j e, find_slot_from i P l = i + Z.of_nat j /\ l !! j = Some e /\ P e = true /\
    forall j' e', (j' < j)%nat -> l !! j' = Some e' -> P e' = false.
Proof.
  induction l as [|e l IH]; intros i Hi; [by left|]. cbn [find_slot_from List.find]. destruct (P e) eqn:E.
  - right. exists 0%nat, e. split_and!; [lia|done|done|]. intros. lia.
  - destruct (IH (i + 1)) as [[-> ->]|(j & e' & -> & Hj & He' & Hb)]; [lia|by left|].
    right. exists (S j), e'. split_and!; [lia|done|done|]. intros [|j'] x Hlt Hx; [by injection Hx as <-|]. apply (Hb j'); [lia|done].
Qed.

Lemma name_is_true n e : name_is n e = true <-> e_used e = true /\ e_name e = n.
Proof.
  unfold name_is. rewrite !andb_true_iff, bool_decide_eq_true, Z.eqb_eq. split; [tauto|]. intros [? ->]. done.
Qed.

(** Names are unique among the statements in use. *)
Definition uniq l : Prop :=
  forall i j e e', l !! i = Some e -> l !! j = Some e' -> e_used e = true -> e_used e' = true -> e_name e = e_name e' -> i = j.
Definition cache_list pc : list pg_prep := match pc_prep pc with Some k => k_e k | None => k_e prep_cache0 end.
(** A Parse of [name] evicts nothing: the name is known or a slot is free. *)
Definition room pc name : Prop :=
  is_Some (List.find (name_is name) (cache_list pc)) \/ exists e, In e (cache_list pc) /\ e_used e = false.

Lemma stmt_cache_list pc n : lookup_stmt (pc_prep pc) n = dict (cache_list pc) n.
Proof.
  unfold cache_list. destruct (pc_prep pc) as [k|]; [apply lookup_dict|]. unfold dict, prep_cache0. cbn [k_e].
  induction (Z.to_nat LK_PG_PREP_CACHE) as [|j IH]; [done|]. exact IH.
Qed.

(** What Parse does to the entries: one slot is rewritten, and it is the one
    already holding the name, else the first free one, else the oldest. *)
Lemma fill_slot_entry e name text trunc lru e' oom :
  fill_slot e name text trunc lru [] = (e', oom) -> zlen text <= LK_MSG_BODY_MAX ->
  e_used e' = true /\ e_name e' = ztake PREP_NAME_MAX name /\ e_text e' = text /\ e_trunc e' = trunc.
Proof.
  intros E Ht. unfold fill_slot in E. cbn [alloc] in E.
  assert (ztake (if zlen text <? LK_MSG_BODY_MAX then zlen text else LK_MSG_BODY_MAX) text = text) as Et.
  { apply ztake_all. destruct (Z.ltb_spec (zlen text) LK_MSG_BODY_MAX); lia. }
  assert (ztake (if zlen name <? PREP_NAME_MAX then zlen name else PREP_NAME_MAX) name = ztake PREP_NAME_MAX name) as En.
  { destruct (Z.ltb_spec (zlen name) PREP_NAME_MAX); [|done]. rewrite !ztake_all; [done|lia|lia]. }
  rewrite Et, En in E. destruct (e_text_cap _ <? _); injection E as <- <-; done.
Qed.

Lemma pick_spec st k name slot st' k' :
  (if find_by_name k name <? 0 then pick_slot st k else (find_by_name k name, st, k)) = (slot, st', k') ->
  (exists j e, slot = Z.of_nat j /\ k_e k !! j = Some e /\ name_is name e = true /\
     forall j' e', (j' < j)%nat -> k_e k !! j' = Some e' -> name_is name e' = false) \/
  List.find (name_is name) (k_e k) = None /\
    ((exists j e, slot = Z.of_nat j /\ k_e k !! j = Some e /\ e_used e = false) \/
     Forall (fun e => e_used e = true) (k_e k)).
Proof.
  intros E. unfold find_by_name in E. destruct (find_first (name_is name) (k_e k) 0 ltac:(lia)) as [[En Ef]|(j & e & Ej & Hj & He & Hb)].
  - right. split; [done|]. rewrite En in E. cbn in E. unfold pick_slot in E.
    destruct (prep_find_spec (fun e => negb (e_used e)) (k_e k) 0) as [[Ef' Hf]|(j & e & Ej & Hj & He)]; [lia| |].
    + right. eapply Forall_impl; [exact Hf|]. intros e. by intros ?%negb_false_iff.
    + left. rewrite Ej in E. destruct (Z.leb_spec 0 (0 + Z.of_nat j)); [|lia]. injection E as <- _ _.
      exists j, e. split_and!; [lia|done|by apply negb_true_iff].
  - left. rewrite Ej in E. destruct (Z.ltb_spec (0 + Z.of_nat j) 0); [lia|]. injection E as <- _ _. exists j, e. split_and!; [lia|done..].
Qed.

Section Stmt.
Context {U F : Type}.
Implicit Types p : lk_proto U pg_conn F.

Lemma parse_entries p pc m p' pc' name text rest :
  pg_wf pc -> p_oom p = [] -> m_body m = name ++ 0 :: text ++ 0 :: rest -> nonul name -> nonul text ->
  zlen text <= LK_MSG_BODY_MAX -> pg_prep_parse p pc m = (p', pc') ->
  exists slot e, cache_list pc' = alter (fun _ => e) (Z.to_nat slot) (cache_list pc) /\
    e_used e = true /\ e_name e = ztake PREP_NAME_MAX name /\ e_text e = text /\
    e_trunc e = has_flag (m_flags m) LK_MSG_BODY_TRUNC /\
    ((exists j e, slot = Z.of_nat j /\ cache_list pc !! j = Some e /\ name_is name e = true /\
        forall j' e', (j' < j)%nat -> cache_list pc !! j' = Some e' -> name_is name e' = false) \/
     List.find (name_is name) (cache_list pc) = None /\
       ((exists j e, slot = Z.of_nat j /\ cache_list pc !! j = Some e /\ e_used e = false) \/
        Forall (fun e => e_used e = true) (cache_list pc))).
Proof.
  intros W Ho Hb Hn Ht Hl E. unfold pg_prep_parse, pg_wire_init in E. rewrite Hb, !cstring_hit in E by done. cbn [negb] in E.
  rewrite Ho in E. assert (exists k, prep_get pc [] = (Some k, []) /\ k_e k = cache_list pc) as (k & Eg & Ek).
  { unfold prep_get, cache_list. destruct (pc_prep pc) as [k|]; by eexists. }
  rewrite Eg in E. destruct (if _ <? 0 then _ else _) as [[slot st] k1] eqn:Es in E.
  destruct (prep_get_spec _ _ _ _ W Eg) as (Hk & Hp & _).
  destruct (choose_slot_spec _ _ _ _ _ _ Hk Es) as (Hs & He & _).
  destruct (pg_query_rescue_refs pc slot (prep_at k1 slot) []) as [pc1 oom2] eqn:Er.
  assert (oom2 = []) as ->.
  { replace (prep_at k1 slot) with (prep_at k slot) in Er by (unfold prep_at; by rewrite He). by destruct (slot_rel _ _ _ _ _ _ W Er) as [_ ->]. }
  destruct (fill_slot (prep_at k1 slot) name text _ _ []) as [e oom3] eqn:Ef. injection E as _ <-.
  destruct (fill_slot_entry _ _ _ _ _ _ _ Ef Hl) as (E1 & E2 & E3 & E4).
  exists slot, e. split; [unfold cache_list at 1, prep_upd; cbn; by rewrite He, Ek|]. split_and!; [done..|].
  rewrite <- Ek. exact (pick_spec _ _ _ _ _ _ Es).
Qed.

Lemma dict_put l name e j slot n :
  slot = Z.of_nat j -> (j < length l)%nat -> e_used e = true -> e_name e = name ->
  (forall e', l !! j = Some e' -> e_used e' = true -> e_name e' = name) ->
  (forall i e', (i < j)%nat -> l !! i = Some e' -> name_is name e' = false) ->
  dict (alter (fun _ => e) (Z.to_nat slot) l) n =
    if decide (n = name) then Some (nonempty (e_text e), e_trunc e) else dict l n.
Proof.
  intros -> Hj Hu Hn Ho Hb. rewrite Nat2Z.id. unfold dict. destruct (decide _) as [->|Hne].
  - rewrite (find_here (name_is name) e l j); [done|by apply name_is_true|done|done].
  - rewrite (find_other (name_is n) j e l); [done| |].
    + apply not_true_iff_false. rewrite name_is_true. intros [_ ?]. congruence.
    + intros e' He'. apply not_true_iff_false. rewrite name_is_true. intros [Hu' ?]. specialize (Ho e' He' Hu'). congruence.
Qed.

Lemma cache_length pc : pg_wf pc -> length (cache_list pc) = 256%nat.
Proof. intros W. unfold cache_list. destruct (pc_prep pc) as [k|] eqn:E; [apply (pw_prep _ W k E)|done]. Qed.

Lemma uniq_put l j e name :
  uniq l -> e_name e = name ->
  (forall i e', i <> j -> l !! i = Some e' -> name_is name e' = false) -> uniq (alter (fun _ => e) j l).
Proof.
  intros Hu Hn Ho i i' x x' Hx Hx' Ux Ux' Heq.
  destruct (decide (i = j)) as [->|Hi], (decide (i' = j)) as [->|Hi']; try done.
  - rewrite list_lookup_alter_ne in Hx' by done. rewrite list_lookup_alter_eq in Hx.
    destruct (l !! j); [|done]. injection Hx as <-. specialize (Ho i' x' Hi' Hx'). apply not_true_iff_false in Ho.
    exfalso. apply Ho, name_is_true. split; [done|congruence].
  - rewrite list_lookup_alter_ne in Hx by done. rewrite list_lookup_alter_eq in Hx'.
    destruct (l !! j); [|done]. injection Hx' as <-. specialize (Ho i x Hi Hx). apply not_true_iff_false in Ho.
    exfalso. apply Ho, name_is_true. split; [done|congruence].
  - rewrite list_lookup_alter_ne in Hx by done. rewrite list_lookup_alter_ne in Hx' by done. by eapply Hu.
Qed.

(** Parse is map insertion.  A Parse that evicts nothing makes its own text
    what a Bind of that name finds, and changes no other name; every unit in
    flight keeps its text, even when it refers to the statement redefined. *)
Theorem pg_parse_defines p pc m p' pc' name text rest :
  pg_wf pc -> p_oom p = [] -> m_body m = name ++ 0 :: text ++ 0 :: rest -> nonul name -> nonul text ->
  zlen name <= PREP_NAME_MAX -> zlen text <= LK_MSG_BODY_MAX -> uniq (cache_list pc) -> room pc name ->
  pg_prep_parse p pc m = (p', pc') ->
  (forall n, lookup_stmt (pc_prep pc') n =
     if decide (n = name) then Some (nonempty text, has_flag (m_flags m) LK_MSG_BODY_TRUNC) else lookup_stmt (pc_prep pc) n) /\
  uniq (cache_list pc') /\ batch pc' = batch pc.
Proof.
  intros W Ho Hb Hn Ht Hl1 Hl2 Hu Hr E.
  destruct (parse_entries _ _ _ _ _ _ _ _ W Ho Hb Hn Ht Hl2 E) as (slot & e & Ec & E1 & E2 & <- & <- & Hs).
  rewrite ztake_all in E2 by done. split; [|split; [|by apply (pg_prep_parse_ok _ _ _ _ _ W E)]].
  - intros n. rewrite !stmt_cache_list, Ec. destruct Hs as [(j & e0 & -> & Hj & He & Hf)|[Hf [(j & e0 & -> & Hj & He)|Hfull]]].
    + apply (dict_put _ _ _ j); try done; [by eapply lookup_lt_Some|]. intros x Hx _. rewrite Hj in Hx. injection Hx as <-. by apply name_is_true in He as [_ ?].
    + apply (dict_put _ _ _ j); try done; [by eapply lookup_lt_Some| |].
      * intros x Hx ?. rewrite Hj in Hx. injection Hx as <-. congruence.
      * intros i x _ Hx. by eapply find_none.
    + exfalso. destruct Hr as [[x Hx]|(x & Hx & Hux)]; [congruence|]. rewrite List.Forall_forall in Hfull. specialize (Hfull x Hx). congruence.
  - rewrite Ec. destruct Hs as [(j & e0 & -> & Hj & He & Hf)|[Hf [(j & e0 & -> & Hj & He)|Hfull]]]; rewrite ?Nat2Z.id.
    + apply (uniq_put _ _ _ name); try done. intros i x Hi Hx. apply not_true_iff_false. rewrite name_is_true. intros [Ux Nx].
      apply name_is_true in He as [U0 N0]. apply Hi. apply (Hu i j x e0); congruence.
    + apply (uniq_put _ _ _ name); try done. intros i x _ Hx. by eapply find_none.
    + eapply uniq_put; [done|exact E2|]. intros i x _ Hx. by eapply find_none.
Qed.

(** What Close does to the entries: nothing, or the name's slot is cleared. *)
Lemma close_entries pc m pc' oom oom' name rest :
  m_body m = ch "S" :: name ++ 0 :: rest -> nonul name -> pg_prep_close pc m oom = (pc', oom') ->
  (pc_prep pc' = pc_prep pc /\ List.find (name_is name) (cache_list pc) = None) \/
  exists j e, cache_list pc !! j = Some e /\ name_is name e = true /\
    cache_list pc' = alter (fun _ => clear_slot e) j (cache_list pc).
Proof.
  intros Hb Hn E. unfold pg_prep_close, pg_wire_init, pg_wire_get_u8, pg_wire_remaining in E. rewrite Hb in E. cbn [w_rest w_overrun] in E.
  destruct (Z.ltb_spec (zlen (ch "S" :: name ++ 0 :: rest)) 1) as [Hlt|_]; [rewrite zlen_cons in Hlt; pose proof (zlen_nonneg (name ++ 0 :: rest)); lia|].
  change (znth (ch "S" :: name ++ 0 :: rest) 0) with (ch "S") in E. rewrite Z.eqb_refl in E. cbn [negb orb] in E.
  change (zdrop 1 (ch "S" :: name ++ 0 :: rest)) with (name ++ 0 :: rest) in E. rewrite cstring_hit in E by done. cbn [negb] in E.
  unfold cache_list. destruct (pc_prep pc) as [k|] eqn:Ep.
  2: { injection E as <- _. left. split; [done|]. unfold prep_cache0. cbn [k_e]. induction (Z.to_nat LK_PG_PREP_CACHE); [done|]. assumption. }
  destruct (find_first (name_is name) (k_e k) 0 ltac:(lia)) as [[En Ef]|(j & e & Ej & Hj & He & Hf)]; unfold find_by_name in E.
  { rewrite En in E. injection E as <- _. by left. }
  right. exists j, e. rewrite Ej in E. destruct (Z.ltb_spec (0 + Z.of_nat j) 0); [lia|].
  destruct (pg_query_rescue_refs _ _ _ _) as [pc1 oom1]. injection E as <- _. split; [done|]. split; [done|].
  cbn [pc_prep upd k_e prep_upd]. replace (Z.to_nat (0 + Z.of_nat j)) with j by lia.
  apply list_eq. intros i. destruct (decide (i = j)) as [->|]; [by rewrite !list_lookup_alter_eq, Hj|by rewrite !list_lookup_alter_ne].
Qed.

(** Close is map deletion: the name is gone, every other statement stays,
    and so does the text of every unit in flight. *)
Theorem pg_close_forgets pc m pc' oom' name rest :
  pg_wf pc -> m_body m = ch "S" :: name ++ 0 :: rest -> nonul name -> uniq (cache_list pc) ->
  pg_prep_close pc m [] = (pc', oom') ->
  (forall n, lookup_stmt (pc_prep pc') n = if decide (n = name) then None else lookup_stmt (pc_prep pc) n) /\
  uniq (cache_list pc') /\ batch pc' = batch pc.
Proof.
  intros W Hb Hn Hu E. assert (batch pc' = batch pc) as Hbt by by apply (pg_prep_close_ok _ _ _ _ _ W E).
  destruct (close_entries _ _ _ _ _ _ _ Hb Hn E) as [[Ep Ef]|(j & e & Hj & He & Ec)].
  { unfold cache_list. rewrite Ep. split; [|done]. intros n. destruct (decide _) as [->|]; [|done].
    rewrite stmt_cache_list. unfold dict. by rewrite Ef. }
  assert (forall i x, cache_list pc' !! i = Some x -> e_used x = true -> i <> j /\ cache_list pc !! i = Some x) as Hk.
  { intros i x Hx Ux. rewrite Ec in Hx. destruct (decide (i = j)) as [->|]; [|by rewrite list_lookup_alter_ne in Hx].
    rewrite list_lookup_alter_eq, Hj in Hx. injection Hx as <-. done. }
  apply name_is_true in He as [U0 N0]. split; [|split; [|done]].
  - intros n. rewrite !stmt_cache_list. unfold dict. destruct (decide (n = name)) as [->|Hne].
    + destruct (List.find (name_is name) (cache_list pc')) as [x|] eqn:Ex; [|done]. exfalso.
      apply List.find_some in Ex as [Hin Hx]. apply list_elem_of_In, list_elem_of_lookup in Hin as [i Hi].
      apply name_is_true in Hx as [Ux Nx]. destruct (Hk i x Hi Ux) as [Hij Hx]. apply Hij, (Hu i j x e); congruence.
    + rewrite Ec, find_other; [done|done|]. intros x Hx. rewrite Hj in Hx. injection Hx as <-.
      apply not_true_iff_false. rewrite name_is_true. intros [_ ?]. congruence.
  - intros i i' x x' Hx Hx' Ux Ux' Heq. apply (Hu i i' x x'); try done; by apply Hk.
Qed.

(** Over-long statement names alias.  After a Parse of a name longer than
    63 bytes on a fresh cache, a Bind of the different name made of its first 63
    bytes finds that text, while a Bind of the name itself finds none. *)
Theorem pg_long_name_alias p pc m p' pc' name text rest :
  pg_wf pc -> pc_prep pc = None -> p_oom p = [] -> m_body m = name ++ 0 :: text ++ 0 :: rest -> nonul name -> nonul text ->
  PREP_NAME_MAX < zlen name -> zlen text <= LK_MSG_BODY_MAX ->
  pg_prep_parse p pc m = (p', pc') ->
  lookup_stmt (pc_prep pc') (ztake PREP_NAME_MAX name) = Some (nonempty text, has_flag (m_flags m) LK_MSG_BODY_TRUNC) /\
  lookup_stmt (pc_prep pc') name = None /\ ztake PREP_NAME_MAX name <> name.
Proof.
  intros W Hp Ho Hb Hn Ht Hl1 Hl2 E.
  destruct (parse_entries _ _ _ _ _ _ _ _ W Ho Hb Hn Ht Hl2 E) as (slot & e & Ec & E1 & E2 & <- & <- & Hs).
  assert (forall j x, cache_list pc !! j = Some x -> e_used x = false) as Hun.
  { intros j x Hx. unfold cache_list in Hx. rewrite Hp in Hx. unfold prep_cache0 in Hx. cbn [k_e] in Hx.
    by apply lookup_replicate in Hx as [-> _]. }
  assert (ztake PREP_NAME_MAX name <> name) as Hne.
  { intros Heq. assert (zlen (ztake PREP_NAME_MAX name) = zlen name) as Hz by by rewrite Heq. rewrite zlen_ztake in Hz by done. lia. }
  assert (forall n', forall j x, cache_list pc !! j = Some x -> name_is n' x = false) as Hno.
  { intros n' j x Hx. unfold name_is. by rewrite (Hun j x Hx). }
  assert (exists j, slot = Z.of_nat j /\ (j < length (cache_list pc))%nat) as (j & -> & Hj).
  { destruct Hs as [(j & e0 & -> & Hj & He & _)|[_ [(j & e0 & -> & Hj & He)|Hfull]]].
    - exists j. split; [done|by eapply lookup_lt_Some].
    - exists j. split; [done|by eapply lookup_lt_Some].
    - rewrite List.Forall_forall in Hfull. destruct (cache_list pc) as [|x l] eqn:El; [by rewrite <- length_zero_iff_nil, cache_length in El|].
      specialize (Hfull x ltac:(by left)). specialize (Hun 0%nat x eq_refl). congruence. }
  rewrite !stmt_cache_list, Ec, !(dict_put _ (ztake PREP_NAME_MAX name) _ j); try done; try (intros; by eapply Hno).
  2, 3: intros x Hx Hux; rewrite (Hun j x Hx) in Hux; done.
  rewrite decide_True, decide_False by done. split; [done|]. split; [|done]. rewrite <- stmt_cache_list, Hp. done.
Qed.
End Stmt.

(** ** Witnesses *)
Definition w_parse ts (name text : list Z) := w_msg "P" ts (name ++ 0 :: text ++ [0; 0; 0]).

Lemma w_cache_uniq : uniq (cache_list w_pc).
Proof. intros i j e e' Hi _ Hu. exfalso. apply lookup_replicate in Hi as [-> _]. discriminate. Qed.

Lemma pg_parse_defines_witness :
  let pc' := (pg_prep_parse w_proto w_pc (w_parse 1 (lit "s1") (lit "SELECT 1"))).2 in
  (forall n, lookup_stmt (pc_prep pc') n =
     if decide (n = lit "s1") then Some (Some (lit "SELECT 1"), false) else lookup_stmt (pc_prep w_pc) n) /\
  uniq (cache_list pc') /\ batch pc' = batch w_pc.
Proof.
  eapply (pg_parse_defines w_proto w_pc (w_parse 1 (lit "s1") (lit "SELECT 1")) _ _ (lit "s1") (lit "SELECT 1") [0; 0]);
    [exact (proj1 w_clean)|reflexivity|reflexivity|repeat constructor; discriminate|repeat constructor; discriminate|concrete|concrete|
     exact w_cache_uniq| |apply surjective_pairing].
  right. exists prep0. split; [left|]; reflexivity.
Defined.

Lemma pg_close_forgets_witness :
  let pc' := (pg_prep_close w_pc (w_msg "C" 1 (ch "S" :: lit "s1" ++ [0])) []).1 in
  (forall n, lookup_stmt (pc_prep pc') n = if decide (n = lit "s1") then None else lookup_stmt (pc_prep w_pc) n) /\
  uniq (cache_list pc') /\ batch pc' = batch w_pc.
Proof.
  eapply (pg_close_forgets w_pc (w_msg "C" 1 (ch "S" :: lit "s1" ++ [0])) _ _ (lit "s1") []);
    [exact (proj1 w_clean)|reflexivity|repeat constructor; discriminate|exact w_cache_uniq|apply surjective_pairing].
Defined.

Definition w_long : list Z := replicate 64 (ch "a").
Lemma pg_long_name_alias_witness :
  let pc' := (pg_prep_parse w_proto w_pc (w_parse 1 w_long (lit "SELECT 1"))).2 in
  lookup_stmt (pc_prep pc') (ztake PREP_NAME_MAX w_long) = Some (Some (lit "SELECT 1"), false) /\
  lookup_stmt (pc_prep pc') w_long = None /\ ztake PREP_NAME_MAX w_long <> w_long.
Proof.
  eapply (pg_long_name_alias w_proto w_pc (w_parse 1 w_long (lit "SELECT 1")) _ _ w_long (lit "SELECT 1") [0; 0]);
    [exact (proj1 w_clean)|reflexivity|reflexivity|reflexivity|repeat constructor; discriminate|repeat constructor; discriminate|concrete|concrete|
     apply surjective_pairing].
Defined.
