(* ===== verification/PgLabels.v ===== *)
(** Row counts out of CommandComplete tags and session labels out of the startup
    packet: both are decoded exactly. *)
From Stdlib Require Import Ascii String.
From stdpp Require Import base list.
From S2P Require Import Prelude Conn Proto Decimal PgFrame PgConn PgQuery Pg PgFacts PgClaims PgStmt PgRefine PgBatch PgProps.
#[local] Open Scope Z_scope.
Implicit Types (pc : pg_conn) (m : lk_msg).

(** ** Row counts *)
Lemma tag_number_app r l1 l2 : tag_number r (l1 ++ l2) = tag_number r l1 ≫= fun r => tag_number r l2.
Proof. revert r. induction l1 as [|b l1 IH]; intros r; [done|]. cbn. destruct (_ || _); [done|]. apply IH. Qed.

Lemma tag_number_decimal f : forall n, 0 <= n < 2 ^ 64 -> n < 10 ^ Z.of_nat f -> tag_number 0 (decimal f n) = Some n.
Proof.
  induction f as [|f IH]; intros n Hn Hf; cbn [decimal]; [cbn in *; f_equal; lia|]. rewrite tag_number_app.
  pose proof (Z.mod_pos_bound n 10 ltac:(lia)). pose proof (Z.div_mod n 10 ltac:(lia)).
  assert (tag_number 0 (if n <? 10 then [] else decimal f (n / 10)) = Some (n / 10)) as ->.
  { destruct (Z.ltb_spec n 10); [cbn; f_equal; symmetry; apply Z.div_small; lia|]. apply IH; [lia|].
    rewrite Nat2Z.inj_succ, Z.pow_succ_r in Hf by lia. apply Z.div_lt_upper_bound; lia. }
  cbn [mbind option_bind tag_number]. change (ch "0") with 48. change (ch "9") with 57.
  destruct (Z.ltb_spec (48 + n mod 10) 48); [lia|]. destruct (Z.ltb_spec 57 (48 + n mod 10)); [lia|]. cbn [orb].
  f_equal. replace (n / 10 * 10 + (48 + n mod 10 - 48)) with n by lia. by apply u64_small.
Qed.

Lemma take_while_stop P l r : Forall (fun b => P b = true) l -> (forall b r', r = b :: r' -> P b = false) -> take_while P (l ++ r) = l.
Proof.
  intros Hl Hr. induction Hl as [|b l Hb _ IH]; cbn; [|by rewrite Hb, IH].
  destruct r as [|b r]; [done|]. cbn. by rewrite (Hr b r eq_refl).
Qed.
Lemma drop_while_id P l : (forall b r', l = b :: r' -> P b = false) -> drop_while P l = l.
Proof. destruct l as [|b l]; [done|]. intros H. cbn. by rewrite (H b l eq_refl). Qed.

Lemma digit_not_space b : digit b -> is_space b = false.
Proof. unfold digit, is_space. change (ch "0") with 48. change (ch " ") with 32. intros. apply Z.eqb_neq. lia. Qed.

(** Row counts.  The tag of a counting command, in PostgreSQL's form (verb,
    optional middle words such as INSERT's oid, and a decimal count), yields
    exactly that count, for every count a 64-bit counter can hold. *)
Theorem tag_rows_exact verb mid n :
  In verb counted -> (mid = [] \/ exists mid', mid = mid' ++ [ch " "]) -> 0 <= n < 2 ^ 64 ->
  tag_rows (verb ++ ch " " :: mid ++ show n) = n.
Proof.
  intros Hv Hmid Hn. unfold tag_rows.
  assert (Forall (fun b => not_space b = true) verb) as Hvs.
  { revert Hv. unfold counted. cbn [In]. intros Hv. repeat (destruct Hv as [<-|Hv]; [repeat constructor|]). done. }
  rewrite (take_while_stop not_space verb) by (done || by intros ? ? [= <- _]).
  assert (existsb (fun w => bool_decide (w = verb)) counted = true) as ->.
  { apply existsb_exists. exists verb. split; [done|by apply bool_decide_eq_true]. }
  cbn [negb]. assert (last_token (verb ++ ch " " :: mid ++ show n) = show n) as ->.
  { unfold last_token. assert (exists pre, verb ++ ch " " :: mid = pre ++ [ch " "]) as [pre Epre].
    { destruct Hmid as [->|[mid' ->]]; [by exists verb|]. exists (verb ++ ch " " :: mid'). by rewrite <- app_assoc. }
    assert (verb ++ ch " " :: mid ++ show n = pre ++ [ch " "] ++ show n) as ->.
    { change (ch " " :: mid ++ show n) with ((ch " " :: mid) ++ show n). by rewrite app_assoc, Epre, <- app_assoc. }
    rewrite !rev_app_distr. pose proof (decimal_digits 20 n ltac:(lia)) as Hd. fold (show n) in Hd.
    assert (Forall digit (rev (show n))) as Hr by by apply Forall_rev.
    rewrite drop_while_id.
    - rewrite <- app_assoc, take_while_stop; [by rewrite rev_involutive| |by intros ? ? [= <- _]].
      eapply Forall_impl; [exact Hr|]. intros b Hb. unfold not_space. by rewrite digit_not_space.
    - intros b r' E. destruct (rev (show n)) as [|d ds] eqn:Ed.
      + exfalso. apply (f_equal (@List.length Z)) in Ed. rewrite length_rev in Ed. unfold show in Ed. cbn [decimal] in Ed.
        rewrite length_app in Ed. cbn in Ed. lia.
      + injection E as <- _. inversion Hr; subst. by apply digit_not_space. }
  unfold show. rewrite tag_number_decimal; [done|done|]. lia.
Qed.

(** ** Startup parameters *)
Definition put_params (kvs : list (list Z * list Z)) : list Z :=
  flat_map (fun kv => kv.1 ++ 0 :: kv.2 ++ [0]) kvs ++ [0].
Definition startup_body (kvs : list (list Z * list Z)) : list Z := put_be32 LK_PG_PROTO_V3 ++ put_params kvs.
(** The last value given for a key. *)
Definition param (key : list Z) (kvs : list (list Z * list Z)) (d : list Z) : list Z :=
  fold_left (fun d kv => if decide (kv.1 = key) then kv.2 else d) kvs d.
Definition param_ok (kv : list Z * list Z) : Prop := nonul kv.1 /\ nonul kv.2 /\ kv.1 <> [].
Definition fields_ok (s : lk_session) : Prop :=
  zlen (s_user s) = 64 /\ zlen (s_database s) = 64 /\ zlen (s_app s) = 64 /\ zlen (s_server_version s) = 16.

Lemma key_is_true key l : key_is key l = true <-> key = l.
Proof. unfold key_is. rewrite andb_true_iff, Z.eqb_eq, bool_decide_eq_true. split; [tauto|]. by intros ->. Qed.

Lemma copy_field_ok dst src : 1 <= zlen dst -> nonul src ->
  c_str (copy_field dst src) = ztake (zlen dst - 1) src /\ zlen (copy_field dst src) = zlen dst.
Proof.
  intros Hd Hs. unfold copy_field. pose proof (zlen_nonneg src). destruct (Z.ltb_spec (zlen src) (zlen dst - 1)).
  - split; [rewrite c_str_put by done; rewrite !ztake_all; [done|lia|lia]|rewrite zlen_put_cstr; lia].
  - split; [by rewrite c_str_put|rewrite zlen_put_cstr; lia].
Qed.

(** One pair sets the field it names. *)
Lemma set_param_ok s kv : fields_ok s -> param_ok kv -> let s' := set_param s kv.1 kv.2 in
  fields_ok s' /\ s_server_version s' = s_server_version s /\
  c_str (s_user s') = (if decide (kv.1 = lit "user") then ztake 63 kv.2 else c_str (s_user s)) /\
  c_str (s_database s') = (if decide (kv.1 = lit "database") then ztake 63 kv.2 else c_str (s_database s)) /\
  c_str (s_app s') = (if decide (kv.1 = lit "application_name") then ztake 63 kv.2 else c_str (s_app s)).
Proof.
  intros (F1 & F2 & F3 & F4) (Hk & Hv & Hne). cbv zeta. unfold set_param. set (k := kv.1) in *. set (v := kv.2) in *.
  assert (forall l, key_is k l = bool_decide (k = l)) as Hki.
  { intros l. apply eq_true_iff_eq. by rewrite key_is_true, bool_decide_eq_true. }
  rewrite !Hki. unfold fields_ok. clearbody k v.
  destruct (decide (k = lit "user")) as [->|N1]; [|rewrite (bool_decide_eq_false_2 (k = lit "user")) by done;
    destruct (decide (k = lit "database")) as [->|N2]; [|rewrite (bool_decide_eq_false_2 (k = lit "database")) by done;
    destruct (decide (k = lit "application_name")) as [->|N3]; [|by rewrite bool_decide_eq_false_2]]];
    rewrite bool_decide_eq_true_2 by done; cbn [s_user s_database s_app s_server_version upd]; repeat rewrite decide_False by done.
  - destruct (copy_field_ok (s_user s) v) as [-> ->]; [lia|done|]. by rewrite F1.
  - destruct (copy_field_ok (s_database s) v) as [-> ->]; [lia|done|]. by rewrite F2.
  - destruct (copy_field_ok (s_app s) v) as [-> ->]; [lia|done|]. by rewrite F3.
Qed.

Lemma parse_params_run kvs : forall s fuel, Forall param_ok kvs -> (length (put_params kvs) <= fuel)%nat -> 
  parse_params fuel s (Wire (put_params kvs) false) = fold_left (fun s kv => set_param s kv.1 kv.2) kvs s.
Proof.
  induction kvs as [|[k v] kvs IH]; intros s fuel Hok Hf.
  { destruct fuel as [|fuel]; [cbn in Hf; lia|]. done. }
  inversion Hok as [|? ? (Hk & Hv & Hne) Hok']; subst. cbn [fst snd] in *.
  assert (put_params ((k, v) :: kvs) = k ++ 0 :: v ++ 0 :: put_params kvs) as E.
  { unfold put_params. cbn [flat_map fst snd]. rewrite <- !app_assoc. cbn [app]. by rewrite <- app_assoc. }
  rewrite E in *. destruct fuel as [|fuel]; [rewrite length_app in Hf; cbn in Hf; lia|].
  cbn [parse_params]. rewrite !cstring_hit by done. cbn [negb orb].
  destruct (Z.eqb_spec (zlen k) 0) as [H0|_]; [by apply zlen_0 in H0|]. cbn [fold_left fst snd]. apply IH; [done|].
  rewrite !length_app in Hf. cbn [length] in Hf. rewrite length_app in Hf. cbn [length] in Hf. lia.
Qed.

Lemma params_set kvs : forall s, Forall param_ok kvs -> fields_ok s -> let s' := fold_left (fun s kv => set_param s kv.1 kv.2) kvs s in
  fields_ok s' /\
  forall u d a, c_str (s_user s) = ztake 63 u -> c_str (s_database s) = ztake 63 d -> c_str (s_app s) = ztake 63 a ->
  c_str (s_user s') = ztake 63 (param (lit "user") kvs u) /\
  c_str (s_database s') = ztake 63 (param (lit "database") kvs d) /\
  c_str (s_app s') = ztake 63 (param (lit "application_name") kvs a).
Proof.
  induction kvs as [|kv kvs IH]; intros s Hok Hs; cbv zeta; [done|]. inversion Hok as [|? ? Hkv Hok']; subst.
  destruct (set_param_ok s kv Hs Hkv) as (Hs1 & _ & E1 & E2 & E3). destruct (IH _ Hok' Hs1) as [Hs2 Hf]. cbn [fold_left].
  split; [exact Hs2|]. intros u d a Eu Ed Ea. unfold param. cbn [fold_left].
  apply (Hf (if decide (kv.1 = lit "user") then kv.2 else u) (if decide (kv.1 = lit "database") then kv.2 else d)
            (if decide (kv.1 = lit "application_name") then kv.2 else a)).
  - rewrite E1. destruct (decide (kv.1 = lit "user")); [reflexivity|exact Eu].
  - rewrite E2. destruct (decide (kv.1 = lit "database")); [reflexivity|exact Ed].
  - rewrite E3. destruct (decide (kv.1 = lit "application_name")); [reflexivity|exact Ea].
Qed.

(** Session labels.  A complete startup packet sets the session's user,
    database and application name to the last value the client gave for each (its
    first 63 bytes; a key not given keeps the label), whatever the order of the
    pairs and whichever others it carries, marks the session complete and enters
    authentication; nothing is reported yet. *)
Theorem pg_startup_labels {U F} (p : lk_proto U pg_conn F) c pc m kvs user db app :
  m_body m = startup_body kvs -> Forall param_ok kvs -> has_flag (m_flags m) LK_MSG_BODY_TRUNC = false -> fields_ok (pc_session pc) ->
  c_str (s_user (pc_session pc)) = ztake 63 user -> c_str (s_database (pc_session pc)) = ztake 63 db ->
  c_str (s_app (pc_session pc)) = ztake 63 app ->
  exists s', pg_session_startup p c pc m = (p, pc <| pc_session := s' |> <| pc_phase := PG_PH_AUTH |>) /\
    c_str (s_user s') = ztake 63 (param (lit "user") kvs user) /\
    c_str (s_database s') = ztake 63 (param (lit "database") kvs db) /\
    c_str (s_app s') = ztake 63 (param (lit "application_name") kvs app) /\ s_complete s' = true.
Proof.
  intros Hb Hok Ht Hf Hu Hd Ha. unfold pg_session_startup.
  assert (pg_wire_get_u32 (pg_wire_init (m_body m)) = (true, LK_PG_PROTO_V3, Wire (put_params kvs) false)) as ->.
  { rewrite Hb. unfold startup_body, pg_wire_get_u32, pg_wire_init, pg_wire_remaining. cbn [w_rest w_overrun].
    destruct (Z.ltb_spec (zlen (put_be32 LK_PG_PROTO_V3 ++ put_params kvs)) 4) as [H|_]; [|done].
    rewrite zlen_app in H. change (zlen (put_be32 LK_PG_PROTO_V3)) with 4 in H. pose proof (zlen_nonneg (put_params kvs)). lia. }
  cbn [negb]. rewrite Z.eqb_refl, Ht. cbn [negb w_rest]. eexists. split; [reflexivity|].
  rewrite parse_params_run by done. cbn [s_user s_database s_app s_complete upd].
  destruct (params_set kvs _ Hok Hf) as [_ H]. destruct (H _ _ _ Hu Hd Ha) as (E1 & E2 & E3). done.
Qed.

(** ** Witnesses *)
Lemma tag_rows_exact_witness : tag_rows (lit "INSERT" ++ ch " " :: lit "0 " ++ show 18446744073709551615) = 18446744073709551615.
Proof. apply (tag_rows_exact (lit "INSERT") (lit "0 ")); [right; left; reflexivity|right; by exists (lit "0")|lia]. Defined.

Definition w_params : list (list Z * list Z) := [(lit "database", lit "app"); (lit "user", lit "alice"); (lit "client_encoding", lit "UTF8")].
Lemma pg_startup_labels_witness :
  exists s', pg_session_startup w_proto w_conn w_pc (Msg 1 0 LK_MSG_STARTUP 0 (startup_body w_params)) =
      (w_proto, w_pc <| pc_session := s' |> <| pc_phase := PG_PH_AUTH |>) /\
    c_str (s_user s') = ztake 63 (lit "alice") /\ c_str (s_database s') = ztake 63 (lit "app") /\
    c_str (s_app s') = ztake 63 [] /\ s_complete s' = true.
Proof.
  apply (pg_startup_labels w_proto w_conn w_pc (Msg 1 0 LK_MSG_STARTUP 0 (startup_body w_params)) w_params [] [] []); try reflexivity.
  - repeat constructor; discriminate.
  - repeat split; reflexivity.
Defined.
