(* ===== verification/Hist.v ===== *)
(** The latency and size histograms, [metrics/hist.c].

    A double is a [spec_float] of the Standard Library's executable IEEE-754
    specification at binary64 ([prec] 53, [emax] 1024): [frexp], [ldexp], the
    comparisons and the rounding addition are its functions, the decimal literals
    of the source the doubles they denote.

    The histograms count what they say: every observation lands in the cell its
    value belongs to, cumulative counts are exact, merging loses nothing. *)
From Stdlib Require Import Floats.SpecFloat.
From stdpp Require Import base list.
From S2P Require Import Prelude.
#[local] Open Scope Z_scope.


Abbreviation double := spec_float.
Definition prec := 53.
Definition emax := 1024.
Definition frexp (v : double) : double * Z := SFfrexp prec emax v.
Definition ldexp (v : double) (e : Z) : double := SFldexp prec emax v e.
Definition fadd (a b : double) : double := SFadd prec emax a b.
(** [(double)n] for an unsigned integer. *)
Definition of_uint (n : Z) : double := binary_normalize prec emax n 0 false.
Definition zero : double := S754_zero false.
Definition isnan (v : double) : bool := match v with S754_nan => true | _ => false end.
Definition isinf (v : double) : bool := match v with S754_infinity _ => true | _ => false end.

Definition LK_HIST_MIN_INDEX := -53.
Definition LK_HIST_MAX_INDEX := 24.
Definition LK_HIST_NBUCKETS := LK_HIST_MAX_INDEX - LK_HIST_MIN_INDEX.

(** Mantissas of 2^(r/4), r in 0..3, as 53-bit integers over 2^52. *)
Definition quarter_mant (r : Z) : positive :=
  if r =? 0 then 4503599627370496 else if r =? 1 then 5355712719992597
  else if r =? 2 then 6369051672525773 else 7574121564787629.
Definition quarter_pow (r : Z) : double := S754_finite false (quarter_mant r) (-52).

(** C's truncating division and remainder, corrected to floor. *)
Definition divmod4 (k : Z) : Z * Z :=
  let qq := Z.quot k 4 in
  let rr := Z.rem k 4 in
  if rr <? 0 then (qq - 1, rr + 4) else (qq, rr).

Definition lk_hist_bound (k : Z) : double :=
  let '(q, r) := divmod4 k in ldexp (quarter_pow r) q.

(** The thresholds 2^(-1/4), 2^(-1/2), 2^(-3/4). *)
Definition thr1 : double := S754_finite false 7574121564787629 (-53).
Definition thr2 : double := S754_finite false 6369051672525773 (-53).
Definition thr3 : double := S754_finite false 5355712719992597 (-53).

Definition lk_hist_index (v : double) : Z :=
  let '(m, e) := frexp v in
  let sub := if SFleb thr1 m then -1 else if SFleb thr2 m then -2 else if SFleb thr3 m then -3 else -4 in
  4 * e + sub.

Record lk_hist := Hist {
  h_bucket : list Z; h_underflow : Z; h_overflow : Z; h_nonpos : Z; h_sum : double; h_count : Z }.
#[global] Instance lk_hist_upd : Updatable lk_hist := fun h =>
  Hist (h_bucket h) (h_underflow h) (h_overflow h) (h_nonpos h) (h_sum h) (h_count h).
Definition hist0 : lk_hist := Hist (replicate (Z.to_nat LK_HIST_NBUCKETS) 0) 0 0 0 zero 0.

Definition lk_hist_observe (h : lk_hist) (v : double) : lk_hist :=
  let h := h <| h_count ::= inc64 |> in
  if isnan v || SFleb v zero then h <| h_nonpos ::= inc64 |> <| h_underflow ::= inc64 |>
  else if isinf v then h <| h_overflow ::= inc64 |>
  else
    let h := h <| h_sum ::= fun s => fadd s v |> in
    let idx := lk_hist_index v in
    if idx <? LK_HIST_MIN_INDEX then h <| h_underflow ::= inc64 |>
    else if LK_HIST_MAX_INDEX <=? idx then h <| h_overflow ::= inc64 |>
    else h <| h_bucket ::= alter inc64 (Z.to_nat (idx - LK_HIST_MIN_INDEX)) |>.

Definition add64 (a b : Z) : Z := u64 (a + b).
Definition lk_hist_merge (dst src : lk_hist) : lk_hist :=
  Hist (zip_with add64 (h_bucket dst) (h_bucket src)) (add64 (h_underflow dst) (h_underflow src))
       (add64 (h_overflow dst) (h_overflow src)) (add64 (h_nonpos dst) (h_nonpos src))
       (fadd (h_sum dst) (h_sum src)) (add64 (h_count dst) (h_count src)).

(** The classic boundaries: [le] = 2^j cumulates the grid below 4j. *)
Definition classic : list Z := map (fun j => 4 * j) (seqZ (-13) 19).

(** [for (k = MIN; k < hi; k++) c += bucket[k - MIN]] *)
Definition cum_lt (h : lk_hist) (lt : Z) : Z :=
  let hi := if lt <? LK_HIST_MAX_INDEX then lt else LK_HIST_MAX_INDEX in
  foldl add64 (h_underflow h) (ztake (hi - LK_HIST_MIN_INDEX) (h_bucket h)).

(** ** Size histograms *)
Definition LK_BHIST_MIN_LOG2 := 6.
Definition LK_BHIST_NBUCKETS := 25.
Definition LK_BHIST_MAX_NBUCKETS := 31.

Record lk_bhist := BHist {
  b_min_log2 : Z; b_nbuckets : Z; b_bucket : list Z; b_overflow : Z; b_sum : double; b_count : Z }.
#[global] Instance lk_bhist_upd : Updatable lk_bhist := fun h =>
  BHist (b_min_log2 h) (b_nbuckets h) (b_bucket h) (b_overflow h) (b_sum h) (b_count h).
Definition bhist0 : lk_bhist := BHist 0 0 (replicate (Z.to_nat LK_BHIST_MAX_NBUCKETS) 0) 0 zero 0.

Definition lk_bhist_init (h : lk_bhist) (min_log2 nbuckets : Z) : lk_bhist :=
  h <| b_min_log2 := u8 min_log2 |>
    <| b_nbuckets := u8 (if nbuckets <=? LK_BHIST_MAX_NBUCKETS then nbuckets else LK_BHIST_MAX_NBUCKETS) |>.
Definition lk_bhist_nbuckets (h : lk_bhist) : Z := if b_nbuckets h =? 0 then LK_BHIST_NBUCKETS else b_nbuckets h.
Definition bh_min_log2 (h : lk_bhist) : Z := if b_nbuckets h =? 0 then LK_BHIST_MIN_LOG2 else b_min_log2 h.
Definition lk_bhist_bound (h : lk_bhist) (i : Z) : double := ldexp (S754_finite false 4503599627370496 (-52)) (bh_min_log2 h + i).

(** [while (i < n && bytes > (1ull << (min + i))) i++] *)
Fixpoint bhist_cell (fuel : nat) (i n min bytes : Z) : Z :=
  match fuel with
  | O => i
  | S fuel => if (i <? n) && (u64 (Z.shiftl 1 (min + i)) <? bytes) then bhist_cell fuel (i + 1) n min bytes else i
  end.

Definition lk_bhist_observe (h : lk_bhist) (bytes : Z) : lk_bhist :=
  let n := lk_bhist_nbuckets h in
  let h' := h <| b_count ::= inc64 |> <| b_sum ::= fun s => fadd s (of_uint bytes) |> in
  let i := bhist_cell (Z.to_nat n) 0 n (bh_min_log2 h) bytes in
  if i =? n then h' <| b_overflow ::= inc64 |> else h' <| b_bucket ::= alter inc64 (Z.to_nat i) |>.

(** [for (i = 0; i < n; i++) dst[i] += src[i]] *)
Definition add_cells (n : Z) (dst src : list Z) : list Z :=
  zip_with add64 (ztake n dst) (ztake n src) ++ zdrop n dst.
Definition lk_bhist_merge (dst src : lk_bhist) : lk_bhist :=
  let dst := if b_nbuckets dst =? 0 then lk_bhist_init dst (bh_min_log2 src) (lk_bhist_nbuckets src) else dst in
  dst <| b_bucket ::= fun b => add_cells (lk_bhist_nbuckets dst) b (b_bucket src) |>
      <| b_overflow ::= fun o => add64 o (b_overflow src) |> <| b_sum ::= fun s => fadd s (b_sum src) |>
      <| b_count ::= fun n => add64 n (b_count src) |>.

(** The running total of [lk_bhist_write] at its line [i]. *)
Definition bhist_cum (h : lk_bhist) (i : Z) : Z := foldl add64 0 (ztake (i + 1) (b_bucket h)).


Implicit Types (v : double) (h : lk_hist) (b : lk_bhist) (l : list Z).

(** ** Positive doubles *)
Definition valid v : Prop := valid_binary prec emax v = true.
Definition digits (m : positive) : Z := Zpos (digits2_pos m).

Lemma digits_size m : digits2_pos m = Pos.size m.
Proof. induction m as [m IH|m IH|]; cbn; rewrite ?IH; done. Qed.
Lemma digits_spec m : 2 ^ (digits m - 1) <= Zpos m < 2 ^ digits m.
Proof.
  unfold digits. rewrite digits_size. pose proof (Pos.size_gt m) as H1. pose proof (Pos.size_le m) as H2.
  apply Pos2Z.pos_lt_pos in H1. apply Pos2Z.pos_le_pos in H2. rewrite Pos2Z.inj_pow in H1, H2. rewrite (Pos2Z.inj_xO m) in H2.
  set (s := Zpos (Pos.size m)) in *. assert (1 <= s) by lia. clearbody s.
  assert (2 ^ s = 2 * 2 ^ (s - 1)) as E by (replace s with (Z.succ (s - 1)) at 1 by lia; apply Z.pow_succ_r; lia).
  lia.
Qed.

(** Normal, or subnormal with the smallest exponent. *)
Lemma valid_cases m e : valid (S754_finite false m e) -> digits m = 53 \/ digits m < 53 /\ e = -1074.
Proof.
  unfold valid, valid_binary, bounded, canonical_mantissa. fold (digits m). intros H. apply andb_true_iff in H as [H _].
  apply Z.eqb_eq in H. unfold fexp, emin, prec, emax in H. lia.
Qed.

Lemma SFleb_same a c e : SFleb (S754_finite false a e) (S754_finite false c e) = (Zpos a <=? Zpos c).
Proof.
  unfold SFleb, SFcompare. rewrite Z.compare_refl. change (Pos.compare_cont Eq a c) with (Pos.compare a c).
  unfold Z.leb. cbn. by destruct (a ?= c)%positive.
Qed.
Lemma SFltb_pos a ea c ec : SFltb (S754_finite false a ea) (S754_finite false c ec) = (ea <? ec) || (ea =? ec) && (Zpos a <? Zpos c).
Proof.
  unfold SFltb, SFcompare. change (Pos.compare_cont Eq a c) with (Pos.compare a c). destruct (Z.compare_spec ea ec) as [->|H|H].
  - rewrite Z.ltb_irrefl, Z.eqb_refl. unfold Z.ltb. cbn. by destruct (a ?= c)%positive.
  - destruct (Z.ltb_spec ea ec); [done|lia].
  - destruct (Z.ltb_spec ea ec); [lia|]. destruct (Z.eqb_spec ea ec); [lia|done].
Qed.

(** ** The grid *)
Lemma bound_grid k : LK_HIST_MIN_INDEX <= k <= LK_HIST_MAX_INDEX ->
  lk_hist_bound k = S754_finite false (quarter_mant (k mod 4)) (k / 4 - 52).
Proof.
  intros Hk. assert (Forall (fun k => lk_hist_bound k = S754_finite false (quarter_mant (k mod 4)) (k / 4 - 52)) (seqZ (-53) 78)) as H.
  { let l := eval vm_compute in (seqZ (-53) 78) in change (seqZ (-53) 78) with l. repeat (constructor; [vm_compute; reflexivity|]). constructor. }
  rewrite Forall_forall in H. apply H. apply elem_of_seqZ. unfold LK_HIST_MIN_INDEX, LK_HIST_MAX_INDEX in Hk. lia.
Qed.

Lemma index_normal m e : digits m = 53 -> lk_hist_index (S754_finite false m e) =
  4 * (e + 53) + (if 7574121564787629 <=? Zpos m then -1 else if 6369051672525773 <=? Zpos m then -2
                  else if 5355712719992597 <=? Zpos m then -3 else -4).
Proof.
  intros Hd. unfold lk_hist_index, frexp, SFfrexp, thr1, thr2, thr3, prec. fold (digits m). rewrite Hd. change (53 <=? 53) with true. cbv iota.
  change (- (53)) with (-53). by rewrite !SFleb_same.
Qed.
Lemma index_subnormal m : digits m < 53 -> lk_hist_index (S754_finite false m (-1074)) < LK_HIST_MIN_INDEX.
Proof.
  intros Hd. unfold lk_hist_index, frexp, SFfrexp, prec. fold (digits m). destruct (Z.leb_spec 53 (digits m)); [lia|].
  unfold LK_HIST_MIN_INDEX. destruct (SFleb thr1 _); [lia|]. destruct (SFleb thr2 _); [lia|]. destruct (SFleb thr3 _); lia.
Qed.

(** The index is the bucket: on the grid's range, being below boundary [k] and
    having an index below [k] are the same. *)
Lemma index_bound m e k : valid (S754_finite false m e) -> LK_HIST_MIN_INDEX <= k <= LK_HIST_MAX_INDEX ->
  (lk_hist_index (S754_finite false m e) <? k) = SFltb (S754_finite false m e) (lk_hist_bound k).
Proof.
  intros Hv Hk. rewrite bound_grid, SFltb_pos by done. apply eq_true_iff_eq. rewrite orb_true_iff, andb_true_iff, Z.eqb_eq, !Z.ltb_lt.
  destruct (valid_cases m e Hv) as [Hd|[Hd ->]].
  2: { pose proof (index_subnormal m Hd). unfold LK_HIST_MIN_INDEX, LK_HIST_MAX_INDEX in *. zify_mod. lia. }
  rewrite index_normal by done. pose proof (digits_spec m) as Hm. rewrite Hd in Hm.
  pose proof (Z.div_mod k 4 ltac:(lia)) as Hdm. pose proof (Z.mod_pos_bound k 4 ltac:(lia)) as Hr.
  set (q := k / 4) in *. set (r := k mod 4) in *. clearbody q r. rewrite Hdm. change (2 ^ (53 - 1)) with 4503599627370496 in Hm.
  unfold quarter_mant. assert (r = 0 \/ r = 1 \/ r = 2 \/ r = 3) as [->|[->|[->| ->]]] by lia; cbn [Z.eqb Pos.eqb];
    repeat case_match; bool_hyps; lia.
Qed.

(** ** Sums of 64-bit cells *)
Definition zsum l : Z := foldr Z.add 0 l.
Lemma zsum_app l k : zsum (l ++ k) = zsum l + zsum k.
Proof. induction l as [|x l IH]; cbn; [done|]. fold (zsum (l ++ k)). rewrite IH. fold (zsum l). lia. Qed.

Definition cell (x : Z) : Prop := 0 <= x < 2 ^ 64.
Lemma inc64_cell x : cell (inc64 x). Proof. apply u64_range. Qed.
Lemma add64_cell x y : cell (add64 x y). Proof. apply u64_range. Qed.

Lemma foldl_add64 l : forall a, cell a -> foldl add64 a l = u64 (a + zsum l).
Proof.
  induction l as [|x l IH]; intros a Ha; cbn [foldl zsum foldr].
  - rewrite Z.add_0_r. symmetry. by apply u64_small.
  - rewrite IH by apply add64_cell. fold (zsum l). unfold add64. rewrite u64_idem_add. f_equal. lia.
Qed.

(** Bumping one cell adds one to every prefix sum that includes it. *)
Lemma zsum_bump j l n a : (j < length l)%nat -> 0 <= n ->
  u64 (a + zsum (ztake n (alter inc64 j l))) = u64 (a + zsum (ztake n l) + Z.b2z (Z.of_nat j <? n)).
Proof.
  revert j n a. induction l as [|x l IH]; intros j n a Hj Hn; [cbn in Hj; lia|].
  destruct (Z.eq_dec n 0) as [->|Hn0].
  { rewrite !ztake_0 by lia. destruct (Z.ltb_spec (Z.of_nat j) 0); [lia|]. cbn. f_equal. lia. }
  destruct j as [|j].
  - change (alter inc64 0%nat (x :: l)) with (inc64 x :: l). rewrite !ztake_cons by lia. cbn [zsum foldr]. fold (zsum (ztake (n - 1) l)).
    destruct (Z.ltb_spec (Z.of_nat 0) n); [|lia]. cbn [Z.b2z]. unfold inc64. rewrite (Z.add_comm a), <- Z.add_assoc, u64_idem_add. f_equal. lia.
  - change (alter inc64 (S j) (x :: l)) with (x :: alter inc64 j l). rewrite !ztake_cons by lia. cbn [zsum foldr].
    fold (zsum (ztake (n - 1) (alter inc64 j l))). fold (zsum (ztake (n - 1) l)). rewrite !Z.add_assoc. cbn in Hj. rewrite (IH j (n - 1) (a + x)) by lia.
    replace (Z.of_nat (S j) <? n) with (Z.of_nat j <? n - 1); [done|]. apply eq_true_iff_eq. rewrite !Z.ltb_lt. lia.
Qed.

Lemma zsum_zip l k n a : length l = length k ->
  u64 (a + zsum (ztake n (zip_with add64 l k))) = u64 (a + zsum (ztake n l) + zsum (ztake n k)).
Proof.
  unfold ztake. generalize (Z.to_nat n) as j. intros j. revert k j a. induction l as [|x l IH]; intros [|y k] j a H; try done.
  - cbn [zip_with]. rewrite !take_nil. cbn. f_equal. lia.
  - destruct j as [|j]; [cbn; f_equal; lia|]. cbn [zip_with take zsum foldr]. fold (zsum (take j (zip_with add64 l k))). fold (zsum (take j l)). fold (zsum (take j k)).
    unfold add64 at 1. replace (a + (u64 (x + y) + zsum (take j (zip_with add64 l k)))) with (u64 (x + y) + (a + zsum (take j (zip_with add64 l k)))) by lia.
    rewrite u64_idem_add. rewrite (Z.add_assoc (x + y)). rewrite (IH k j (x + y + a)) by (cbn in H; lia). f_equal. lia.
Qed.

Lemma length_zip l k : length l = length k -> length (zip_with add64 l k) = length l.
Proof. intros H. rewrite length_zip_with. lia. Qed.

(** ** Latency histograms *)
Record hist_wf h : Prop := HistWf {
  hw_len : length (h_bucket h) = 77%nat; hw_under : cell (h_underflow h); hw_over : cell (h_overflow h); hw_count : cell (h_count h) }.

(** How a histogram comes about, with what was recorded in it. *)
Inductive records : lk_hist -> list double -> Prop :=
  | rec_new : records hist0 []
  | rec_observe h vs v : records h vs -> valid v -> records (lk_hist_observe h v) (vs ++ [v])
  | rec_merge h1 h2 vs1 vs2 : records h1 vs1 -> records h2 vs2 -> records (lk_hist_merge h1 h2) (vs1 ++ vs2).

(** Recorded under boundary [k]: below it, or no positive number at all. *)
Definition below k v : bool := isnan v || SFleb v zero || SFltb v (lk_hist_bound k).

Lemma observe_wf h v : hist_wf h -> hist_wf (lk_hist_observe h v).
Proof.
  intros []. unfold lk_hist_observe. destruct (_ || _); [|destruct (isinf v); [|destruct (_ <? _); [|destruct (_ <=? _)]]];
    (split; [try done|..]; try (apply u64_range); try done). cbn [h_bucket upd]. by rewrite length_alter.
Qed.
Lemma merge_wf h1 h2 : hist_wf h1 -> hist_wf h2 -> hist_wf (lk_hist_merge h1 h2).
Proof. intros [] []. split; try (apply u64_range). cbn [h_bucket lk_hist_merge]. rewrite length_zip; congruence. Qed.
Lemma records_wf h vs : records h vs -> hist_wf h.
Proof. induction 1; [by split|by apply observe_wf|by apply merge_wf]. Qed.

Lemma cum_sum h k : hist_wf h -> LK_HIST_MIN_INDEX <= k <= LK_HIST_MAX_INDEX ->
  cum_lt h k = u64 (h_underflow h + zsum (ztake (k + 53) (h_bucket h))).
Proof.
  intros W Hk. unfold cum_lt. rewrite foldl_add64 by apply W. replace (if k <? LK_HIST_MAX_INDEX then k else LK_HIST_MAX_INDEX) with k.
  - unfold LK_HIST_MIN_INDEX. by replace (k - -53) with (k + 53) by lia.
  - destruct (Z.ltb_spec k LK_HIST_MAX_INDEX); lia.
Qed.

Lemma below_finite k m e : valid (S754_finite false m e) -> LK_HIST_MIN_INDEX <= k <= LK_HIST_MAX_INDEX ->
  below k (S754_finite false m e) = (lk_hist_index (S754_finite false m e) <? k).
Proof. intros Hv Hk. unfold below. by rewrite index_bound. Qed.

Lemma observe_cum h v k : hist_wf h -> valid v -> LK_HIST_MIN_INDEX <= k <= LK_HIST_MAX_INDEX ->
  cum_lt (lk_hist_observe h v) k = u64 (cum_lt h k + Z.b2z (below k v)).
Proof.
  intros W Hv Hk. rewrite (cum_sum _ k (observe_wf h v W) Hk), (cum_sum h k W Hk), u64_idem_add.
  assert (forall x, u64 (inc64 (h_underflow h) + x) = u64 (h_underflow h + x + 1)) as Hu.
  { intros x. unfold inc64. rewrite u64_idem_add. f_equal. lia. }
  unfold lk_hist_observe. destruct (isnan v || SFleb v zero) eqn:Hn.
  { unfold below. rewrite Hn. cbn [h_underflow h_bucket upd orb Z.b2z]. apply Hu. }
  destruct v as [s|s| |[] m e]; try done.
  - destruct s; [done|]. unfold below. rewrite Hn. assert (SFltb (S754_infinity false) (lk_hist_bound k) = false) as -> by by rewrite bound_grid.
    cbn [isinf h_underflow h_bucket upd orb Z.b2z]. f_equal. lia.
  - rewrite below_finite by done. cbn [isinf]. set (idx := lk_hist_index _). unfold LK_HIST_MIN_INDEX, LK_HIST_MAX_INDEX in *.
    destruct (Z.ltb_spec idx (-53)).
    { cbn [h_underflow h_bucket upd]. rewrite Hu. destruct (Z.ltb_spec idx k); [done|lia]. }
    destruct (Z.leb_spec 24 idx).
    { cbn [h_underflow h_bucket upd]. destruct (Z.ltb_spec idx k); [lia|]. cbn. f_equal. lia. }
    cbn [h_underflow h_bucket upd]. rewrite zsum_bump by (rewrite ?(hw_len _ W); lia). do 3 f_equal.
    apply eq_true_iff_eq. rewrite !Z.ltb_lt. lia.
Qed.

Lemma merge_cum h1 h2 k : hist_wf h1 -> hist_wf h2 -> LK_HIST_MIN_INDEX <= k <= LK_HIST_MAX_INDEX ->
  cum_lt (lk_hist_merge h1 h2) k = u64 (cum_lt h1 k + cum_lt h2 k).
Proof.
  intros W1 W2 Hk. rewrite (cum_sum _ k (merge_wf _ _ W1 W2) Hk), !cum_sum by done. cbn [lk_hist_merge h_underflow h_bucket].
  rewrite zsum_zip by (rewrite (hw_len _ W1), (hw_len _ W2); done). rewrite u64_add, <- Z.add_assoc. unfold add64. rewrite u64_idem_add. f_equal. lia.
Qed.

Definition count_of (P : double -> bool) (vs : list double) : Z := zlen (List.filter P vs).
Lemma count_snoc P vs v : count_of P (vs ++ [v]) = count_of P vs + Z.b2z (P v).
Proof. unfold count_of. rewrite List.filter_app, zlen_app. cbn. by destruct (P v). Qed.
Lemma count_app P vs ws : count_of P (vs ++ ws) = count_of P vs + count_of P ws.
Proof. unfold count_of. by rewrite List.filter_app, zlen_app. Qed.

(** Cumulative counts are exact.  However a latency histogram was built, by
    any observations (NaN, infinite, negative and subnormal doubles included) and
    any merges, the cumulative count at grid boundary k is the number of recorded
    values below 2^(k/4), nonpositive and NaN ones included, and the total count
    the number of recorded values, modulo 2^64.  A value equal to 2^(k/4) is not
    below it. *)
Theorem hist_cum_exact h vs k :
  records h vs -> LK_HIST_MIN_INDEX <= k <= LK_HIST_MAX_INDEX ->
  cum_lt h k = u64 (count_of (below k) vs) /\ h_count h = u64 (zlen vs).
Proof.
  intros Hr Hk. induction Hr as [|h vs v Hr [IH1 IH2] Hv|h1 h2 vs1 vs2 Hr1 [IH1 IH2] Hr2 [IH3 IH4]].
  - split; [|done]. rewrite cum_sum; [|by split|done]. cbn [h_underflow h_bucket hist0]. f_equal.
    unfold ztake. generalize (Z.to_nat (k + 53)) as n, (Z.to_nat LK_HIST_NBUCKETS) as j. intros n j. revert n.
    induction j as [|j IH]; intros [|n]; try done. cbn in *. rewrite <- (IH n). done.
  - split.
    + rewrite observe_cum by (done || by eapply records_wf). rewrite IH1, count_snoc. apply u64_idem_add.
    + assert (h_count (lk_hist_observe h v) = inc64 (h_count h)) as ->.
      { unfold lk_hist_observe. destruct (_ || _); [done|]. destruct (isinf v); [done|]. destruct (_ <? _); [done|]. by destruct (_ <=? _). }
      rewrite IH2, zlen_app. unfold inc64. apply u64_idem_add.
  - split.
    + rewrite merge_cum by (done || by eapply records_wf). rewrite IH1, IH3, count_app. apply u64_add.
    + cbn [lk_hist_merge h_count]. unfold add64. rewrite IH2, IH4, zlen_app. apply u64_add.
Qed.

(** ** Size histograms *)
(** A grid whose largest bound fits the 64-bit shift. *)
Definition grid_ok (min n : Z) : Prop := 0 <= min /\ 1 <= n <= LK_BHIST_MAX_NBUCKETS /\ min + n <= 64.
Definition on_grid (min n : Z) b : Prop := bh_min_log2 b = min /\ lk_bhist_nbuckets b = n.
Record bhist_wf (min n : Z) b : Prop := BHistWf { bw_grid : on_grid min n b; bw_len : length (b_bucket b) = 31%nat }.

Inductive brecords (min n : Z) : lk_bhist -> list Z -> Prop :=
  | br_new b : on_grid min n b -> b_bucket b = b_bucket bhist0 -> b_overflow b = 0 -> b_count b = 0 -> brecords min n b []
  | br_observe b xs x : brecords min n b xs -> brecords min n (lk_bhist_observe b x) (xs ++ [x])
  | br_merge b1 b2 xs1 xs2 : brecords min n b1 xs1 -> brecords min n b2 xs2 -> brecords min n (lk_bhist_merge b1 b2) (xs1 ++ xs2)
  (** merging into a histogram nobody initialised *)
  | br_adopt b xs : brecords min n b xs -> brecords min n (lk_bhist_merge bhist0 b) xs.

Lemma bhist_cell_spec min n x : grid_ok min n -> forall fuel i, 0 <= i <= n -> n - i <= Z.of_nat fuel ->
  let j := bhist_cell fuel i n min x in
  i <= j <= n /\ (forall y, i <= y < j -> 2 ^ (min + y) < x) /\ (j < n -> x <= 2 ^ (min + j)).
Proof.
  intros (Hmin & Hn & Hs). induction fuel as [|fuel IH]; intros i Hi Hf; cbn [bhist_cell]; [split_and!; intros; lia|].
  destruct (Z.ltb_spec i n) as [Hlt|Hge]; cbn [andb]; [|split_and!; intros; lia].
  rewrite Z.shiftl_mul_pow2, Z.mul_1_l by lia. rewrite u64_small by (split; [apply Z.pow_nonneg; lia|apply Z.pow_lt_mono_r; lia]).
  destruct (Z.ltb_spec (2 ^ (min + i)) x) as [Hx|Hx]; [|split_and!; intros; lia].
  destruct (IH (i + 1) ltac:(lia) ltac:(lia)) as (H1 & H2 & H3). split; [lia|]. split; [|done].
  intros y Hy. destruct (Z.eq_dec y i) as [->|]; [done|]. apply H2. lia.
Qed.

Lemma cell_le min n x k : grid_ok min n -> 0 <= k < n ->
  (bhist_cell (Z.to_nat n) 0 n min x <? k + 1) = (x <=? 2 ^ (min + k)).
Proof.
  intros Hg Hk. destruct (bhist_cell_spec min n x Hg (Z.to_nat n) 0) as (H1 & H2 & H3); [destruct Hg; lia|lia|].
  set (j := bhist_cell _ _ _ _ _) in *. clearbody j. apply eq_true_iff_eq. rewrite Z.ltb_lt, Z.leb_le. split; intros H.
  - transitivity (2 ^ (min + j)); [apply H3; lia|]. apply Z.pow_le_mono_r; lia.
  - destruct (Z.le_gt_cases j k); [lia|]. specialize (H2 k ltac:(lia)). lia.
Qed.

Lemma bobserve_wf min n b x : bhist_wf min n b -> bhist_wf min n (lk_bhist_observe b x).
Proof.
  intros [G L]. unfold lk_bhist_observe. destruct (_ =? _); split; try exact G; cbn [b_bucket upd]; [done|by rewrite length_alter].
Qed.
Lemma add_cells_len n l k : length l = length k -> length (add_cells n l k) = length l.
Proof. intros H. unfold add_cells, ztake, zdrop. rewrite length_app, length_zip_with, !length_take, length_drop. lia. Qed.

Lemma bmerge_grid min n b1 b2 : grid_ok min n -> bhist_wf min n b2 -> bhist_wf min n b1 \/ b1 = bhist0 ->
  bhist_wf min n (lk_bhist_merge b1 b2) /\ b_bucket (lk_bhist_merge b1 b2) = add_cells n (b_bucket b1) (b_bucket b2).
Proof.
  intros (Hm & Hn & Hs) [[G2a G2b] L2] H1. unfold LK_BHIST_MAX_NBUCKETS in *.
  assert (length (b_bucket b1) = 31%nat) as L1 by by destruct H1 as [[_ ?]| ->].
  set (d := if b_nbuckets b1 =? 0 then lk_bhist_init b1 (bh_min_log2 b2) (lk_bhist_nbuckets b2) else b1).
  assert (on_grid min n d /\ b_bucket d = b_bucket b1) as [Gd Ed].
  { subst d. rewrite G2a, G2b. destruct (Z.eqb_spec (b_nbuckets b1) 0) as [E0|E0].
    - split; [|done]. unfold on_grid, bh_min_log2, lk_bhist_nbuckets. cbn [lk_bhist_init b_min_log2 b_nbuckets upd].
      unfold LK_BHIST_MAX_NBUCKETS. destruct (Z.leb_spec n 31); [|lia]. rewrite !u8_small by lia. destruct (Z.eqb_spec n 0); [lia|done].
    - destruct H1 as [[G1 _]| ->]; done. }
  assert (b_bucket (lk_bhist_merge b1 b2) = add_cells n (b_bucket b1) (b_bucket b2)) as Eb.
  { unfold lk_bhist_merge. fold d. cbn [b_bucket upd]. by rewrite (proj2 Gd), Ed. }
  split; [|done]. split; [exact Gd|]. rewrite Eb, add_cells_len; congruence.
Qed.

Lemma brecords_wf min n b xs : grid_ok min n -> brecords min n b xs -> bhist_wf min n b.
Proof.
  intros Hg. induction 1 as [b G E _ _|b xs x _ IH|b1 b2 xs1 xs2 _ IH1 _ IH2|b xs _ IH].
  - split; [done|by rewrite E].
  - by apply bobserve_wf.
  - apply bmerge_grid; auto.
  - apply bmerge_grid; auto.
Qed.

Lemma bcum_sum b k : bhist_cum b k = u64 (zsum (ztake (k + 1) (b_bucket b))).
Proof. unfold bhist_cum. rewrite foldl_add64 by done. done. Qed.

Lemma bobserve_cum min n b x k : grid_ok min n -> bhist_wf min n b -> 0 <= k < n ->
  bhist_cum (lk_bhist_observe b x) k = u64 (bhist_cum b k + Z.b2z (x <=? 2 ^ (min + k))).
Proof.
  intros Hg [[G1 G2] L] Hk. rewrite !bcum_sum, u64_idem_add. unfold lk_bhist_observe. rewrite G1, G2. rewrite <- (cell_le min n x k Hg Hk).
  destruct (bhist_cell_spec min n x Hg (Z.to_nat n) 0) as (H1 & _ & _); [destruct Hg; lia|lia|].
  set (j := bhist_cell _ _ _ _ _) in *. clearbody j. destruct Hg as (Hm & Hn & Hs). unfold LK_BHIST_MAX_NBUCKETS in *.
  destruct (Z.eqb_spec j n) as [->|Hj]; cbn [b_bucket upd].
  - destruct (Z.ltb_spec n (k + 1)); [lia|]. cbn. f_equal. lia.
  - pose proof (zsum_bump (Z.to_nat j) (b_bucket b) (k + 1) 0) as Hb. rewrite !Z.add_0_l in Hb. rewrite Hb by (rewrite ?L; lia).
    by replace (Z.of_nat (Z.to_nat j)) with j by lia.
Qed.

Lemma bmerge_cum min n b1 b2 k : grid_ok min n -> bhist_wf min n b2 -> bhist_wf min n b1 \/ b1 = bhist0 -> 0 <= k < n ->
  bhist_cum (lk_bhist_merge b1 b2) k = u64 (bhist_cum b1 k + bhist_cum b2 k).
Proof.
  intros Hg W2 W1 Hk. destruct (bmerge_grid min n b1 b2 Hg W2 W1) as [_ E]. rewrite !bcum_sum, E, u64_add.
  assert (length (b_bucket b1) = 31%nat) as L1 by by destruct W1 as [[_ ?]| ->]. pose proof (bw_len _ _ _ W2) as L2.
  destruct Hg as (_ & Hn & _). unfold LK_BHIST_MAX_NBUCKETS in Hn. unfold add_cells.
  rewrite ztake_app_le.
  2: { unfold zlen. rewrite length_zip_with. unfold ztake. rewrite !length_take. lia. }
  pose proof (zsum_zip (ztake n (b_bucket b1)) (ztake n (b_bucket b2)) (k + 1) 0) as Hz. rewrite !Z.add_0_l in Hz. rewrite Hz.
  - unfold ztake. rewrite !take_take. by replace (Z.to_nat (k + 1) `min` Z.to_nat n)%nat with (Z.to_nat (k + 1)) by lia.
  - unfold ztake. rewrite !length_take. lia.
Qed.

Definition count_le (c : Z) (xs : list Z) : Z := zlen (List.filter (fun x => x <=? c) xs).
Lemma count_le_app c xs ys : count_le c (xs ++ ys) = count_le c xs + count_le c ys.
Proof. unfold count_le. by rewrite List.filter_app, zlen_app. Qed.
Lemma count_le_one c x : count_le c [x] = Z.b2z (x <=? c).
Proof. unfold count_le. cbn. by destruct (x <=? c). Qed.

Lemma bhist0_cum k : bhist_cum bhist0 k = 0.
Proof.
  rewrite bcum_sum. change (b_bucket bhist0) with (replicate 31 0). unfold ztake. generalize (Z.to_nat (k + 1)) as a, 31%nat as j. intros a j.
  assert (zsum (take a (replicate j 0)) = 0) as ->; [|done]. revert a. induction j as [|j IH]; intros [|a]; try done. cbn in *. by rewrite IH.
Qed.

Lemma bcount min n b xs : brecords min n b xs -> b_count b = u64 (zlen xs).
Proof.
  induction 1 as [b _ _ _ E|b xs x _ IH|b1 b2 xs1 xs2 _ IH1 _ IH2|b xs _ IH].
  - by rewrite E.
  - assert (b_count (lk_bhist_observe b x) = inc64 (b_count b)) as ->.
    { unfold lk_bhist_observe. by destruct (_ =? _). }
    rewrite IH, zlen_app. apply u64_idem_add.
  - assert (b_count (lk_bhist_merge b1 b2) = add64 (b_count b1) (b_count b2)) as ->.
    { unfold lk_bhist_merge. by destruct (_ =? 0). }
    unfold add64. rewrite IH1, IH2, zlen_app. apply u64_add.
  - assert (b_count (lk_bhist_merge bhist0 b) = add64 0 (b_count b)) as -> by done.
    unfold add64. rewrite IH, Z.add_0_l. unfold u64. by rewrite Z.mod_mod.
Qed.

(** Size histograms.  On any grid of octaves that fits 64 bits, however the
    histogram was built by observations and merges (an uninitialised one adopting
    its peer's grid), the exposed cumulative count of bucket i is the number of
    recorded sizes at most 2^(min+i), and the total the number of sizes, modulo
    2^64. *)
Theorem bhist_cum_exact min n b xs k :
  grid_ok min n -> brecords min n b xs -> 0 <= k < n ->
  bhist_cum b k = u64 (count_le (2 ^ (min + k)) xs) /\ b_count b = u64 (zlen xs).
Proof.
  intros Hg Hr Hk. split; [|by eapply bcount]. induction Hr as [b G E _ _|b xs x Hr IH|b1 b2 xs1 xs2 Hr1 IH1 Hr2 IH2|b xs Hr IH].
  - replace (bhist_cum b k) with (bhist_cum bhist0 k) by (unfold bhist_cum; by rewrite E). by rewrite bhist0_cum.
  - rewrite (bobserve_cum min n) by (done || by eapply brecords_wf). rewrite IH, count_le_app, count_le_one. apply u64_idem_add.
  - rewrite (bmerge_cum min n) by (auto; (left; by eapply brecords_wf) || by eapply brecords_wf). rewrite IH1, IH2, count_le_app. apply u64_add.
  - rewrite (bmerge_cum min n) by (auto; by eapply brecords_wf). rewrite bhist0_cum, IH, Z.add_0_l. unfold u64. by rewrite Z.mod_mod.
Qed.

(** ** Witnesses *)
Definition w_values : list double := [of_uint 3; of_uint 4; S754_nan; S754_infinity false].
Definition w_hist : lk_hist := fold_left lk_hist_observe w_values hist0.
Lemma hist_cum_exact_witness : cum_lt w_hist 8 = u64 2 /\ h_count w_hist = u64 4.
Proof.
  apply (hist_cum_exact w_hist w_values 8); [|concrete].
  change w_values with (((([] ++ [of_uint 3]) ++ [of_uint 4]) ++ [S754_nan]) ++ [S754_infinity false]).
  repeat (apply rec_observe; [|reflexivity]). apply rec_new.
Defined.

Definition w_sizes : lk_bhist := lk_bhist_merge bhist0 (lk_bhist_observe (lk_bhist_observe (lk_bhist_init bhist0 10 31) 1024) 5000).
Lemma bhist_cum_exact_witness : bhist_cum w_sizes 0 = u64 1 /\ b_count w_sizes = u64 2.
Proof.
  apply (bhist_cum_exact 10 31 w_sizes [1024; 5000] 0); [repeat split; concrete| |concrete].
  apply br_adopt. change [1024; 5000] with (([] ++ [1024]) ++ [5000]). repeat apply br_observe. by apply br_new.
Defined.
