(* ===== verification/MetReg.v ===== *)
(** The series registry with cardinality control, [metrics/registry.c].

    A series is a heap node; the [h_next] chain of a bucket and the [q_next] chain of a
    slot are lists of the nodes' addresses.  [free_slots] with [n_free] is the list
    [rg_free], the top of the stack first; [dims], [protos] and [err_codes] are their
    interned prefixes.  The zeroed flat arrays are finite maps from the index the code
    computes.  The allocator and the clock are streams of outcomes; a failing clock reads
    0.  [None] is a wild access or a loop that does not end.  The names and help texts of
    the profile table, which only the dump prints, are left out. *)
From Stdlib Require Import Ascii String.
From stdpp Require Import base list gmap option.
From S2P Require Import Prelude Conn Proto Hist.
#[local] Open Scope Z_scope.

Definition LK_DOORKEEPER_SLOTS := 2048.
Definition LK_MAX_ERR_CODES := 64.
Definition LK_MAX_PROTOS := 8.
Definition LK_REG_OP_MAX := 16.
Definition LK_QUERY_LABEL_MAX := 256.
Definition LK_TOP_QUERIES_DEFAULT := 500.
Definition LK_QUERY_LABEL_LEN_DEFAULT := 256.
Definition LK_MAX_SESSION_DIMS_DEFAULT := 32.
Definition LK_N_QKINDS := 8.
Definition LK_N_QCODES := 4.
Definition LK_N_SCLASSES := 6.
Definition LK_N_REDIRECTS := 3.
Definition LK_PROF_QUERY := 0.
Definition LK_PROF_HTTP := 1.
Definition LK_PROF_S3 := 2.
Definition LK_PROF_REDIS := 3.
Definition LK_N_PROFILES := 4.
Definition LK_OHIST_MIN_LOG2 := 10.
Definition LK_OHIST_NBUCKETS := 31.
Definition LK_VHIST_MIN_LOG2 := 3.
Definition LK_VHIST_NBUCKETS := 21.
Definition LK_DHIST_MIN_LOG2 := 0.
Definition LK_DHIST_NBUCKETS := 9.

Definition RF_QTOTAL := 1.
Definition RF_TOTAL := 2.
Definition RF_DURATION := 4.
Definition RF_ROWS := 8.
Definition RF_FIRST_ROW := 16.
Definition RF_TTFB := 32.
Definition RF_ERRORS := 64.
Definition RF_TRUNCATED := 128.
Definition RF_OTHER := 256.
Definition RF_TXN := 512.
Definition RF_UPLOAD := 1024.
Definition RF_BYTES := 2048.
Definition RF_SIZE := 4096.
Definition RF_INTERNAL := 8192.
Definition RF_BLOCKING := 16384.
Definition RF_REDIRECT := 32768.
Definition RF_DEPTH := 65536.

Record reg_profile := Profile { pf_families : Z; pf_total_qcode : bool; pf_size_min_log2 : Z; pf_size_nbuckets : Z }.
Definition families (fs : list Z) : Z := foldr Z.lor 0 fs.
Definition prof_query : reg_profile := Profile (families [RF_QTOTAL; RF_DURATION; RF_ROWS; RF_FIRST_ROW; RF_ERRORS; RF_TRUNCATED; RF_OTHER; RF_TXN]) false 0 0.
Definition prof_http : reg_profile := Profile (families [RF_TOTAL; RF_DURATION; RF_TTFB; RF_ERRORS; RF_UPLOAD; RF_BYTES; RF_SIZE]) false 0 0.
Definition prof_s3 : reg_profile := Profile (families [RF_TOTAL; RF_DURATION; RF_TTFB; RF_ERRORS; RF_UPLOAD; RF_BYTES; RF_SIZE; RF_INTERNAL]) false LK_OHIST_MIN_LOG2 LK_OHIST_NBUCKETS.
Definition prof_redis : reg_profile := Profile (families [RF_TOTAL; RF_DURATION; RF_ERRORS; RF_BYTES; RF_SIZE; RF_BLOCKING; RF_REDIRECT; RF_DEPTH]) true LK_VHIST_MIN_LOG2 LK_VHIST_NBUCKETS.
Definition profiles : list reg_profile := [prof_query; prof_http; prof_s3; prof_redis].
Definition profile_at (id : Z) : reg_profile := nth (Z.to_nat id) profiles (Profile 0 false 0 0).
Definition profile_of (id : Z) : reg_profile := profile_at (if id <? LK_N_PROFILES then id else LK_PROF_QUERY).
Definition total_axis_n (pf : reg_profile) : Z := if pf_total_qcode pf then LK_N_QCODES else LK_N_SCLASSES.

Abbreviation ptr := positive.
Abbreviation cstring := (list Z).
Record series := Series {
  sr_qslot : Z; sr_dim : Z; sr_proto : Z; sr_code : Z; sr_created_ns : Z; sr_rows : Z; sr_dur : lk_hist; sr_first_row : option lk_hist;
  sr_tally : list Z; sr_bytes_in : Z; sr_bytes_out : Z; sr_upload : option lk_hist; sr_size : option lk_bhist }.
#[global] Instance series_upd : Updatable series := fun s =>
  Series (sr_qslot s) (sr_dim s) (sr_proto s) (sr_code s) (sr_created_ns s) (sr_rows s) (sr_dur s) (sr_first_row s)
    (sr_tally s) (sr_bytes_in s) (sr_bytes_out s) (sr_upload s) (sr_size s).
Record qentry := QEntry {
  qe_fp : Z; qe_used : bool; qe_lru_prev : Z; qe_lru_next : Z; qe_series : list ptr; qe_label : cstring; qe_op : cstring }.
#[global] Instance qentry_upd : Updatable qentry := fun e =>
  QEntry (qe_fp e) (qe_used e) (qe_lru_prev e) (qe_lru_next e) (qe_series e) (qe_label e) (qe_op e).
Definition qentry0 : qentry := QEntry 0 false 0 0 [] [] [].
Record dim := Dim { dm_db : cstring; dm_user : cstring }.
#[global] Instance dim_eq_dec : EqDecision dim.
Proof. solve_decision. Defined.

Record lk_metrics_cfg := MetricsCfg { mc_top_queries : Z; mc_query_label_len : Z; mc_max_session_dims : Z; mc_first_row_hist : bool }.
Definition lk_metrics_cfg_defaults : lk_metrics_cfg := MetricsCfg LK_TOP_QUERIES_DEFAULT LK_QUERY_LABEL_LEN_DEFAULT LK_MAX_SESSION_DIMS_DEFAULT false.

Record lk_reg_obs := RegObs {
  ro_fp : Z; ro_label : option cstring; ro_op : option cstring; ro_db : option cstring; ro_user : option cstring; ro_proto : option cstring;
  ro_profile : Z; ro_kind : Z; ro_qcode : Z; ro_sclass : Z; ro_force_other : bool; ro_internal : bool; ro_has_duration : bool; ro_dcode : Z;
  ro_dur_seconds : double; ro_rows : Z; ro_has_first_row : bool; ro_first_row_seconds : double; ro_has_upload : bool; ro_upload_seconds : double;
  ro_has_size : bool; ro_size_bytes : Z; ro_bytes_in : Z; ro_bytes_out : Z; ro_truncated : bool; ro_err_code : option cstring; ro_redirect : Z;
  ro_has_block : bool; ro_block_seconds : double; ro_has_depth : bool; ro_depth : Z }.

Record lk_registry := Registry {
  rg_k : Z; rg_label_len : Z; rg_max_dims : Z; rg_first_row : bool;
  rg_entries : list qentry; rg_fp_hash : list Z; rg_fp_hcap : Z; rg_free : list Z; rg_lru_head : Z; rg_lru_tail : Z; rg_door : list Z;
  rg_dims : list dim; rg_protos : list cstring; rg_proto_prof : list Z; rg_used : list bool;
  rg_heap : gmap ptr series; rg_brk : ptr; rg_sbuckets : list (list ptr); rg_n_series : Z;
  rg_q_total : gmap Z Z; rg_err_total : gmap Z Z; rg_txn : gmap Z lk_hist; rg_err_codes : list (list cstring);
  rg_redirects : gmap (Z * Z) Z; rg_depth : list lk_bhist; rg_truncated_obs : list Z; rg_total_obs : list Z; rg_other_obs : list Z; rg_internal_obs : list Z;
  rg_created_ns : Z; rg_oom : list bool; rg_clock : list Z }.
#[global] Instance lk_registry_upd : Updatable lk_registry := fun r =>
  Registry (rg_k r) (rg_label_len r) (rg_max_dims r) (rg_first_row r) (rg_entries r) (rg_fp_hash r) (rg_fp_hcap r) (rg_free r) (rg_lru_head r) (rg_lru_tail r) (rg_door r)
    (rg_dims r) (rg_protos r) (rg_proto_prof r) (rg_used r) (rg_heap r) (rg_brk r) (rg_sbuckets r) (rg_n_series r) (rg_q_total r) (rg_err_total r) (rg_txn r) (rg_err_codes r)
    (rg_redirects r) (rg_depth r) (rg_truncated_obs r) (rg_total_obs r) (rg_other_obs r) (rg_internal_obs r) (rg_created_ns r) (rg_oom r) (rg_clock r).
Implicit Types (r : lk_registry) (s : series) (o : lk_reg_obs) (fp slot : Z).

Definition reg_ndims r : Z := u32 (rg_max_dims r + 1).
Definition reg_nprotos : Z := LK_MAX_PROTOS + 1.
Definition entry_at r slot : qentry := nth (Z.to_nat slot) (rg_entries r) qentry0.
Definition entry_upd r slot (g : qentry -> qentry) : lk_registry := r <| rg_entries ::= alter g (Z.to_nat slot) |>.

(** ** Small helpers *)
Fixpoint pow2_from (fuel : nat) (p x : Z) : option Z :=
  match fuel with
  | O => None
  | S fuel => if p <? x then pow2_from fuel (u32 (Z.shiftl p 1)) x else Some p
  end.
Definition next_pow2 (x : Z) : option Z := pow2_from 33 1 x.
Definition mix64 (x : Z) : Z :=
  let x := Z.lxor x (Z.shiftr x 33) in
  let x := u64 (x * 0xff51afd7ed558ccd) in
  Z.lxor x (Z.shiftr x 33).
(** Back off while [src[n]] is a continuation byte. *)
Fixpoint back_off (n : nat) (src : cstring) : nat :=
  match n with
  | O => O
  | S n' => if Z.land (nth n src 0) 0xC0 =? 0x80 then back_off n' src else n
  end.
Definition utf8_trunc (src : cstring) (max_chars : Z) : cstring :=
  if max_chars <? zlen src then take (back_off (Z.to_nat max_chars) src) src else src.
(** [snprintf(dst, n, "%s", s)]. *)
Definition snprintf_s (n : Z) (s : cstring) : cstring := ztake (n - 1) s.

Definition calloc r : bool * lk_registry := let '(ok, oom) := alloc (rg_oom r) in (ok, r <| rg_oom := oom |>).
Definition reg_now_ns r : Z * lk_registry :=
  match rg_clock r with t :: ts => (t, r <| rg_clock := ts |>) | [] => (0, r) end.

(** ** The fingerprint hash *)
Definition fp_home r fp : Z := Z.land (u32 (mix64 fp)) (rg_fp_hcap r - 1).
Definition fp_next r (i : Z) : Z := Z.land (u32 (i + 1)) (rg_fp_hcap r - 1).
Definition cell_at r (i : Z) : Z := nth (Z.to_nat i) (rg_fp_hash r) (-1).
Definition cell_set r (i v : Z) : lk_registry := r <| rg_fp_hash ::= <[Z.to_nat i := v]> |>.
Definition hash_fuel r : nat := Z.to_nat (rg_fp_hcap r).
Fixpoint fp_probe (fuel : nat) r fp (i : Z) : option Z :=
  match fuel with
  | O => None
  | S fuel =>
      let s := cell_at r i in
      if s <? 0 then Some (-1) else if qe_fp (entry_at r s) =? fp then Some s else fp_probe fuel r fp (fp_next r i)
  end.
Definition fp_find r fp : option Z := fp_probe (hash_fuel r) r fp (fp_home r fp).
(** The first empty cell from [i] on. *)
Fixpoint fp_vacant (fuel : nat) r (i : Z) : option Z :=
  match fuel with
  | O => None
  | S fuel => if 0 <=? cell_at r i then fp_vacant fuel r (fp_next r i) else Some i
  end.
Definition fp_insert r fp slot : option lk_registry :=
  i ← fp_vacant (hash_fuel r) r (fp_home r fp); Some (cell_set r i slot).
(** The cell of [fp]. *)
Fixpoint fp_cell (fuel : nat) r fp (i : Z) : option Z :=
  match fuel with
  | O => None
  | S fuel => if (cell_at r i <? 0) || negb (qe_fp (entry_at r (cell_at r i)) =? fp) then fp_cell fuel r fp (fp_next r i) else Some i
  end.
Definition cyclic_in (i j home : Z) : bool := if i <=? j then (i <? home) && (home <=? j) else (i <? home) || (home <=? j).
(** The inner loop: the cell to move into the hole [i], or nothing when the run ends. *)
Fixpoint fp_scan (fuel : nat) r (i j : Z) : option (option Z) :=
  match fuel with
  | O => None
  | S fuel =>
      let j := fp_next r j in
      if cell_at r j <? 0 then Some None
      else if cyclic_in i j (fp_home r (qe_fp (entry_at r (cell_at r j)))) then fp_scan fuel r i j else Some (Some j)
  end.
Fixpoint fp_shift (fuel : nat) r (i j : Z) : option lk_registry :=
  match fuel with
  | O => None
  | S fuel =>
      let r := cell_set r i (-1) in
      match fp_scan (hash_fuel r) r i j with
      | None => None
      | Some None => Some r
      | Some (Some j) => fp_shift fuel (cell_set r i (cell_at r j)) j j
      end
  end.
Definition fp_remove r fp : option lk_registry :=
  i ← fp_cell (hash_fuel r) r fp (fp_home r fp); fp_shift (hash_fuel r) r i i.

(** ** The LRU list *)
Definition lru_unlink r slot : lk_registry :=
  let e := entry_at r slot in
  let r := if 0 <=? qe_lru_prev e then entry_upd r (qe_lru_prev e) (fun x => x <| qe_lru_next := qe_lru_next e |>) else r <| rg_lru_head := qe_lru_next e |> in
  if 0 <=? qe_lru_next e then entry_upd r (qe_lru_next e) (fun x => x <| qe_lru_prev := qe_lru_prev e |>) else r <| rg_lru_tail := qe_lru_prev e |>.
Definition lru_push_front r slot : lk_registry :=
  let r := entry_upd r slot (fun x => x <| qe_lru_prev := -1 |> <| qe_lru_next := rg_lru_head r |>) in
  let r := if 0 <=? rg_lru_head r then entry_upd r (rg_lru_head r) (fun x => x <| qe_lru_prev := slot |>) else r in
  let r := r <| rg_lru_head := slot |> in
  if rg_lru_tail r <? 0 then r <| rg_lru_tail := slot |> else r.
Definition lru_touch r slot : lk_registry := if rg_lru_head r =? slot then r else lru_push_front (lru_unlink r slot) slot.

(** ** The series hash *)
Definition series_key (qslot dim proto code : Z) : Z :=
  Z.lor (Z.lor (Z.lor (Z.shiftl qslot 32) (Z.shiftl dim 8)) (Z.shiftl proto 3)) code.
Definition series_bucket r (qslot dim proto code : Z) : Z := Z.land (u32 (mix64 (series_key qslot dim proto code))) (zlen (rg_sbuckets r) - 1).
Definition bucket_at r (b : Z) : list ptr := nth (Z.to_nat b) (rg_sbuckets r) [].
Definition series_is r (qslot dim proto code : Z) (x : ptr) : bool :=
  match rg_heap r !! x with
  | Some s => (sr_qslot s =? qslot) && (sr_dim s =? dim) && (sr_proto s =? proto) && (sr_code s =? code)
  | None => false
  end.
Definition series0 (qslot dim proto code created : Z) : series :=
  Series qslot dim proto code created 0 hist0 None (replicate (Z.to_nat LK_N_SCLASSES) 0) 0 0 None None.
(** NULL when out of memory. *)
Definition series_get r (qslot dim proto code : Z) : option ptr * lk_registry :=
  let b := series_bucket r qslot dim proto code in
  match List.find (series_is r qslot dim proto code) (bucket_at r b) with
  | Some x => (Some x, r)
  | None =>
      let '(ok, r) := calloc r in
      if negb ok then (None, r)
      else
        let '(now, r) := reg_now_ns r in
        let x := rg_brk r in
        let r := r <| rg_heap ::= <[x := series0 qslot dim proto code now]> |> <| rg_brk := Pos.succ x |> in
        let r := r <| rg_sbuckets ::= alter (cons x) (Z.to_nat b) |> in
        (Some x, entry_upd r qslot (fun e => e <| qe_series ::= cons x |>) <| rg_n_series ::= fun n => u32 (n + 1) |>)
  end.
(** Out of the chain up to the first occurrence. *)
Fixpoint chain_unlink (x : ptr) (l : list ptr) : list ptr :=
  match l with [] => [] | y :: l => if bool_decide (y = x) then l else y :: chain_unlink x l end.
Definition series_unlink_hash r (x : ptr) s : lk_registry :=
  r <| rg_sbuckets ::= alter (chain_unlink x) (Z.to_nat (series_bucket r (sr_qslot s) (sr_dim s) (sr_proto s) (sr_code s))) |>.

(** ** Interning *)
(** The index of the first match in an interned prefix. *)
Fixpoint index_of {A} (f : A -> bool) (l : list A) : option Z :=
  match l with [] => None | a :: l => if f a then Some 0 else Z.succ <$> index_of f l end.
Definition intern_dim r (db user : cstring) : Z * lk_registry :=
  match index_of (fun d => bool_decide (dm_db d = db) && bool_decide (dm_user d = user)) (rg_dims r) with
  | Some i => (i, r)
  | None =>
      if rg_max_dims r <=? zlen (rg_dims r) then (rg_max_dims r, r)
      else (zlen (rg_dims r), r <| rg_dims ::= fun l => l ++ [Dim (snprintf_s 64 db) (snprintf_s 64 user)] |>)
  end.
Definition err_codes_of r (prof : Z) : list cstring := nth (Z.to_nat prof) (rg_err_codes r) [].
Definition intern_err_code r (prof : Z) (code : cstring) : Z * lk_registry :=
  match index_of (fun c => bool_decide (c = code)) (err_codes_of r prof) with
  | Some i => (i, r)
  | None =>
      if LK_MAX_ERR_CODES <=? zlen (err_codes_of r prof) then (LK_MAX_ERR_CODES, r)
      else (zlen (err_codes_of r prof), r <| rg_err_codes ::= alter (fun l => l ++ [snprintf_s 48 code]) (Z.to_nat prof) |>)
  end.
Definition intern_proto r (proto : option cstring) (prof : Z) : Z * lk_registry :=
  let name := match proto with Some (_ :: _ as p) => p | _ => lit "pg" end in
  match index_of (fun c => bool_decide (c = name)) (rg_protos r) with
  | Some i => (i, r)
  | None =>
      if LK_MAX_PROTOS <=? zlen (rg_protos r) then (LK_MAX_PROTOS, r <| rg_proto_prof ::= <[Z.to_nat LK_MAX_PROTOS := prof]> |>)
      else
        let id := zlen (rg_protos r) in
        (id, r <| rg_protos ::= fun l => l ++ [snprintf_s 8 name] |> <| rg_proto_prof ::= <[Z.to_nat id := prof]> |>)
  end.

(** ** The query dictionary *)
(** [free_slots[--n_free]] on an empty stack is a wild read. *)
Definition admit_query r fp (label : cstring) (op : option cstring) : option (Z * lk_registry) :=
  match rg_free r with
  | [] => None
  | slot :: free =>
      let r := r <| rg_free := free |> in
      let r := entry_upd r slot (fun e => e <| qe_fp := fp |> <| qe_used := true |> <| qe_series := [] |> <| qe_label := utf8_trunc label (rg_label_len r) |>
                                            <| qe_op := snprintf_s LK_REG_OP_MAX (default [] op) |>) in
      r ← fp_insert r fp slot; Some (slot, lru_push_front r slot)
  end.
(** A lazily allocated histogram. *)
Definition lazy_hist {A} (zero : A) r (h : option A) : option A * lk_registry :=
  match h with Some h => (Some h, r) | None => let '(ok, r) := calloc r in (if ok then Some zero else None, r) end.
Definition series_first_row r s : option lk_hist * lk_registry := lazy_hist hist0 r (sr_first_row s).
Definition series_upload r s : option lk_hist * lk_registry := lazy_hist hist0 r (sr_upload s).
Definition size_grid (pf : option reg_profile) : lk_bhist :=
  match pf with
  | Some pf => if pf_size_nbuckets pf =? 0 then bhist0 else lk_bhist_init bhist0 (pf_size_min_log2 pf) (pf_size_nbuckets pf)
  | None => bhist0
  end.
Definition series_size r s (pf : option reg_profile) : option lk_bhist * lk_registry := lazy_hist (size_grid pf) r (sr_size s).

(** [dst += s], one accumulator after the other. *)
Definition fold_sums (d s : series) : series :=
  d <| sr_dur ::= fun h => lk_hist_merge h (sr_dur s) |> <| sr_rows ::= fun n => add64 n (sr_rows s) |> <| sr_bytes_in ::= fun n => add64 n (sr_bytes_in s) |>
    <| sr_bytes_out ::= fun n => add64 n (sr_bytes_out s) |> <| sr_tally ::= fun t => zip_with add64 t (sr_tally s) |>.
Definition fold_first_row r (d s : series) : series * lk_registry :=
  match sr_first_row s with
  | None => (d, r)
  | Some h => let '(o, r) := series_first_row r d in (match o with Some h' => d <| sr_first_row := Some (lk_hist_merge h' h) |> | None => d end, r)
  end.
Definition fold_upload r (d s : series) : series * lk_registry :=
  match sr_upload s with
  | None => (d, r)
  | Some h => let '(o, r) := series_upload r d in (match o with Some h' => d <| sr_upload := Some (lk_hist_merge h' h) |> | None => d end, r)
  end.
Definition fold_size r (d s : series) : series * lk_registry :=
  match sr_size s with
  | None => (d, r)
  | Some h => let '(o, r) := series_size r d None in (match o with Some h' => d <| sr_size := Some (lk_bhist_merge h' h) |> | None => d end, r)
  end.
Definition series_fold r (d s : series) : series * lk_registry :=
  let d := fold_sums d s in
  let '(d, r) := fold_first_row r d s in
  let '(d, r) := fold_upload r d s in
  fold_size r d s.
(** One iteration of the eviction loop on the series at [x]. *)
Definition evict_one r (x : ptr) : option lk_registry :=
  s ← rg_heap r !! x;
  let '(dst, r) := series_get r (rg_k r) (sr_dim s) (sr_proto s) (sr_code s) in
  r ← match dst with
      | None => Some r
      | Some y => d ← rg_heap r !! y; let '(d, r) := series_fold r d s in Some (r <| rg_heap ::= <[y := d]> |>)
      end;
  let r := series_unlink_hash r x s in
  Some (r <| rg_heap ::= delete x |> <| rg_n_series ::= fun n => u32 (n - 1) |>).
Fixpoint evict_all r (xs : list ptr) : option lk_registry :=
  match xs with [] => Some r | x :: xs => r ← evict_one r x; evict_all r xs end.
Definition evict_lru r : option lk_registry :=
  let t := rg_lru_tail r in
  let e := entry_at r t in
  r ← evict_all r (qe_series e);
  r ← fp_remove r (qe_fp e);
  let r := lru_unlink r t in
  Some (entry_upd r t (fun e => e <| qe_used := false |> <| qe_series := [] |>) <| rg_free ::= cons t |>).

Definition door_key fp : Z := if fp =? 0 then 1 else fp.
Definition door_slot (key : Z) : Z := Z.land (u32 (Z.lxor key (Z.shiftr key 17))) (LK_DOORKEEPER_SLOTS - 1).
Definition resolve_query r fp (label : cstring) (op : option cstring) : option (Z * lk_registry) :=
  s ← fp_find r fp;
  if 0 <=? s then Some (s, lru_touch r s)
  else if 0 <? zlen (rg_free r) then admit_query r fp label op
  else
    let key := door_key fp in
    let d := door_slot key in
    if znth (rg_door r) d =? key then
      r ← evict_lru (r <| rg_door ::= <[Z.to_nat d := 0]> |>); admit_query r fp label op
    else Some (rg_k r, r <| rg_door ::= <[Z.to_nat d := key]> |>).

(** ** Observations *)
Definition bump (i : Z) (m : gmap Z Z) : gmap Z Z := <[i := inc64 (default 0 (m !! i))]> m.
Definition bump_prof (prof : Z) (l : list Z) : list Z := alter inc64 (Z.to_nat prof) l.
Definition q_total_index (dim proto kind qc : Z) : Z := u32 (u32 (u32 (dim * reg_nprotos + proto) * LK_N_QKINDS + kind) * LK_N_QCODES + qc).
Definition err_total_index r (code dim proto : Z) : Z := u32 (u32 (code * reg_ndims r + dim) * reg_nprotos + proto).
Definition txn_index (dim proto : Z) (aborted : bool) : Z := u32 (u32 (dim * reg_nprotos + proto) * 2 + Z.b2z aborted).

Definition has_family (pf : reg_profile) (f : Z) : bool := has_flag (pf_families pf) f.
(** The families that no series carries. *)
Definition observe_flat r o (pf : reg_profile) (prof dim proto kind qc : Z) : lk_registry :=
  let r := if has_family pf RF_QTOTAL then r <| rg_q_total ::= bump (q_total_index dim proto kind qc) |> else r in
  let r := if ro_truncated o && has_family pf RF_TRUNCATED then r <| rg_truncated_obs ::= bump_prof prof |> else r in
  let r := match ro_err_code o with
           | Some code => if has_family pf RF_ERRORS then let '(id, r) := intern_err_code r prof code in r <| rg_err_total ::= bump (err_total_index r id dim proto) |> else r
           | None => r
           end in
  let r := if negb (ro_redirect o =? 0) && has_family pf RF_REDIRECT then
             let key := (if ro_redirect o <? LK_N_REDIRECTS then ro_redirect o else 0, proto) in
             r <| rg_redirects ::= fun m => <[key := inc64 (default 0 (m !! key))]> m |> else r in
  if ro_has_depth o && has_family pf RF_DEPTH then
    r <| rg_depth ::= alter (fun h => lk_bhist_observe (if b_nbuckets h =? 0 then lk_bhist_init h LK_DHIST_MIN_LOG2 LK_DHIST_NBUCKETS else h) (ro_depth o)) (Z.to_nat proto) |>
  else r.
(** The families of a series: those of every exchange, up to the early return. *)
Definition axis_of o (pf : reg_profile) (qc : Z) : Z :=
  let ax := if pf_total_qcode pf then qc else ro_sclass o in if ax <? total_axis_n pf then ax else 0.
Definition observe_tally o (pf : reg_profile) (qc : Z) s : series :=
  if has_family pf RF_TOTAL then s <| sr_tally ::= alter inc64 (Z.to_nat (axis_of o pf qc)) |> else s.
Definition observe_bytes o (pf : reg_profile) s : series :=
  if has_family pf RF_BYTES then s <| sr_bytes_in ::= fun n => add64 n (ro_bytes_in o) |> <| sr_bytes_out ::= fun n => add64 n (ro_bytes_out o) |> else s.
Definition observe_size r o (pf : reg_profile) s : series * lk_registry :=
  if ro_has_size o && has_family pf RF_SIZE then
    let '(h, r) := series_size r s (Some pf) in (match h with Some h => s <| sr_size := Some (lk_bhist_observe h (ro_size_bytes o)) |> | None => s end, r)
  else (s, r).
Definition observe_block r o (pf : reg_profile) s : series * lk_registry :=
  if ro_has_block o && has_family pf RF_BLOCKING then
    let '(h, r) := series_first_row r s in (match h with Some h => s <| sr_first_row := Some (lk_hist_observe h (ro_block_seconds o)) |> | None => s end, r)
  else (s, r).
Definition observe_counts r o (pf : reg_profile) (qc : Z) s : series * lk_registry :=
  let '(s, r) := observe_size r o pf (observe_bytes o pf (observe_tally o pf qc s)) in observe_block r o pf s.
(** The rest: the duration and what goes with it. *)
Definition observe_first_row r o (pf : reg_profile) s : series * lk_registry :=
  if ro_has_first_row o && (has_family pf RF_TTFB || rg_first_row r && has_family pf RF_FIRST_ROW) then
    let '(h, r) := series_first_row r s in (match h with Some h => s <| sr_first_row := Some (lk_hist_observe h (ro_first_row_seconds o)) |> | None => s end, r)
  else (s, r).
Definition observe_upload r o (pf : reg_profile) s : series * lk_registry :=
  if ro_has_upload o && has_family pf RF_UPLOAD then
    let '(h, r) := series_upload r s in (match h with Some h => s <| sr_upload := Some (lk_hist_observe h (ro_upload_seconds o)) |> | None => s end, r)
  else (s, r).
Definition observe_duration r o (pf : reg_profile) s : series * lk_registry :=
  let s := s <| sr_dur ::= fun h => lk_hist_observe h (ro_dur_seconds o) |> <| sr_rows ::= fun n => add64 n (ro_rows o) |> in
  let '(s, r) := observe_first_row r o pf s in observe_upload r o pf s.
Definition observe_series r o (pf : reg_profile) (prof qslot qc : Z) (x : ptr) : option lk_registry :=
  s ← rg_heap r !! x;
  let '(s, r) := observe_counts r o pf qc s in
  if negb (ro_has_duration o) then Some (r <| rg_heap ::= <[x := s]> |>)
  else
    let r := r <| rg_total_obs ::= bump_prof prof |> in
    let r := if qslot =? rg_k r then r <| rg_other_obs ::= bump_prof prof |> else r in
    let '(s, r) := observe_duration r o pf s in
    Some (r <| rg_heap ::= <[x := s]> |>).
Definition obs_profile o : Z := if ro_profile o <? LK_N_PROFILES then ro_profile o else LK_PROF_QUERY.
Definition obs_kind o : Z := if ro_kind o <? LK_N_QKINDS then ro_kind o else 0.
Definition obs_qcode o : Z := if ro_qcode o <? LK_N_QCODES then ro_qcode o else 0.
(** The slot-keyed families. *)
Definition observe_slot r o (pf : reg_profile) (prof dim proto qc : Z) : option lk_registry :=
  '(qslot, r) ← match ro_label o with
                | Some label => if ro_force_other o then Some (rg_k r, r) else resolve_query r (ro_fp o) label (ro_op o)
                | None => Some (rg_k r, r)
                end;
  let '(x, r) := series_get r qslot dim proto (u8 (ro_dcode o)) in
  match x with
  | None => Some r
  | Some x => observe_series r o pf prof qslot qc x
  end.
Definition lk_reg_observe r o : option lk_registry :=
  let prof := obs_profile o in
  let pf := profile_at prof in
  let r := r <| rg_used ::= <[Z.to_nat prof := true]> |> in
  if ro_internal o && has_family pf RF_INTERNAL then Some (r <| rg_internal_obs ::= bump_prof prof |>)
  else
    let '(dim, r) := intern_dim r (default [] (ro_db o)) (default [] (ro_user o)) in
    let '(proto, r) := intern_proto r (ro_proto o) prof in
    let r := observe_flat r o pf prof dim proto (obs_kind o) (obs_qcode o) in
    if negb (ro_has_duration o) && negb (has_family pf RF_TOTAL) then Some r
    else observe_slot r o pf prof dim proto (obs_qcode o).
Definition lk_reg_observe_txn r (db user proto : option cstring) (profile : Z) (aborted : bool) (dur : double) : lk_registry :=
  let '(dim, r) := intern_dim r (default [] db) (default [] user) in
  let '(pr, r) := intern_proto r proto (if profile <? LK_N_PROFILES then profile else LK_PROF_QUERY) in
  r <| rg_txn ::= fun m => let i := txn_index dim pr aborted in <[i := lk_hist_observe (default hist0 (m !! i)) dur]> m |>.

(** ** Life cycle *)
Definition cfg_clamp (cfg : option lk_metrics_cfg) : lk_metrics_cfg :=
  let c := default lk_metrics_cfg_defaults cfg in
  let len := mc_query_label_len c in
  MetricsCfg (if mc_top_queries c =? 0 then LK_TOP_QUERIES_DEFAULT else mc_top_queries c)
    (if (len =? 0) || (LK_QUERY_LABEL_MAX <=? len) then LK_QUERY_LABEL_MAX - 1 else len)
    (if mc_max_session_dims c =? 0 then LK_MAX_SESSION_DIMS_DEFAULT else mc_max_session_dims c) (mc_first_row_hist c).
Fixpoint alloc_n (n : nat) (oom : list bool) : bool * list bool :=
  match n with O => (true, oom) | S n => let '(ok, oom) := alloc oom in let '(ok', oom) := alloc_n n oom in (ok && ok', oom) end.
(** The fields [calloc] and the loops at the end of [lk_reg_new] set. *)
Definition reg_init (c : lk_metrics_cfg) (hcap nb : Z) (oom : list bool) (clock : list Z) : lk_registry :=
  let k := mc_top_queries c in
  let zeros := replicate (Z.to_nat LK_N_PROFILES) 0 in
  Registry k (mc_query_label_len c) (mc_max_session_dims c) (mc_first_row_hist c)
    (replicate (Z.to_nat (k + 1)) qentry0) (replicate (Z.to_nat hcap) (-1)) hcap (seqZ 0 k) (-1) (-1)
    (replicate (Z.to_nat LK_DOORKEEPER_SLOTS) 0) [] [] (replicate (Z.to_nat (LK_MAX_PROTOS + 1)) 0) [true; false; false; false]
    ∅ 1 (replicate (Z.to_nat nb) []) 0 ∅ ∅ ∅ (replicate (Z.to_nat LK_N_PROFILES) []) ∅ (replicate (Z.to_nat reg_nprotos) bhist0) zeros zeros zeros zeros
    (match clock with t :: _ => t | [] => 0 end) oom (tail clock).
(** [None] when a size computation does not end; [Some None] is NULL. *)
Definition lk_reg_new (cfg : option lk_metrics_cfg) (oom : list bool) (clock : list Z) : option (option lk_registry) :=
  let c := cfg_clamp cfg in
  let k := mc_top_queries c in
  let '(ok, oom) := alloc oom in
  if negb ok then Some None
  else
    hcap ← next_pow2 (u32 (u32 (k + 1) * 2));
    nb ← next_pow2 (u32 (k * 4));
    let nb := if nb <? 1024 then 1024 else nb in
    let '(ok, oom) := alloc_n 10 oom in
    if negb ok then Some None else Some (Some (reg_init c hcap nb oom clock)).
(** What is left of the series heap. *)
Definition lk_reg_free r : gmap ptr series := foldl (fun h x => delete x h) (rg_heap r) (concat (rg_sbuckets r)).

(** ** Introspection *)
Definition lk_reg_n_queries r : Z := rg_k r - zlen (rg_free r).
Definition lk_reg_n_dims r : Z := zlen (rg_dims r).
Definition lk_reg_n_series r : Z := rg_n_series r.
Definition lk_reg_total_obs r : Z := foldl add64 0 (rg_total_obs r).
Definition lk_reg_other_obs r : Z := foldl add64 0 (rg_other_obs r).
Definition lk_reg_has_fp r fp : option bool := s ← fp_find r fp; Some (0 <=? s).
Definition count_at r (x : ptr) : Z := match rg_heap r !! x with Some s => h_count (sr_dur s) | None => 0 end.
Definition lk_reg_fp_count r fp : option Z :=
  s ← fp_find r fp; Some (if s <? 0 then 0 else foldl add64 0 (map (count_at r) (qe_series (entry_at r s)))).
Definition lk_reg_series_count_sum r : Z := foldl add64 0 (map (count_at r) (concat (rg_sbuckets r))).
