(* ===== verification/MetRegHeap.v ===== *)
(** The data structures of the registry.  [FpHash]: linear probing with backward-shift
    deletion is a finite map.  [Recency]: the doubly linked recency list.  Then the series
    heap: the chains of the buckets and of the slots, lookup with creation, removal, and
    sums over the series. *)
From stdpp Require Import base list gmap option.
From S2P Require Import Prelude Conn Proto Hist MetReg.
#[local] Open Scope Z_scope.

Section FpHash.
(** ** Walks around the table *)
Section Walk.
Context (n : Z).
Definition succ_in (i : Z) : Z := if i + 1 =? n then 0 else i + 1.
(** [d] steps from [i], and how many steps lie between two cells. *)
Definition step_in (i d : Z) : Z := if i + d <? n then i + d else i + d - n.
Definition dist (a b : Z) : Z := if a <=? b then b - a else b - a + n.
Abbreviation inside i := (0 <= i < n).
Lemma step_inside i d : inside i -> 0 <= d <= n -> inside (step_in i d).
Proof. unfold step_in. intros. destruct (Z.ltb_spec (i + d) n); lia. Qed.
Lemma dist_range a b : inside a -> inside b -> 0 <= dist a b < n.
Proof. unfold dist. intros. destruct (Z.leb_spec a b); lia. Qed.
Lemma dist_step a b : inside a -> inside b -> step_in a (dist a b) = b.
Proof. unfold dist, step_in. intros. destruct (Z.leb_spec a b), (Z.ltb_spec (a + (b - a)) n), (Z.ltb_spec (a + (b - a + n)) n); lia. Qed.
Lemma step_dist a d : inside a -> 0 <= d < n -> dist a (step_in a d) = d.
Proof. unfold dist, step_in. intros. destruct (Z.ltb_spec (a + d) n); [destruct (Z.leb_spec a (a + d))|destruct (Z.leb_spec a (a + d - n))]; lia. Qed.
Lemma step_0 i : inside i -> step_in i 0 = i.
Proof. unfold step_in. intros. destruct (Z.ltb_spec (i + 0) n); lia. Qed.
Lemma step_succ i d : inside i -> 0 <= d < n -> step_in (succ_in i) d = step_in i (d + 1).
Proof. unfold step_in, succ_in. intros. destruct (Z.eqb_spec (i + 1) n), (Z.ltb_spec (i + (d + 1)) n); repeat match goal with |- context [?a <? ?b] => destruct (Z.ltb_spec a b) end; lia. Qed.
Lemma succ_inside i : inside i -> inside (succ_in i).
Proof. unfold succ_in. intros. destruct (Z.eqb_spec (i + 1) n); lia. Qed.

Fixpoint walk (fuel : nat) (stop : Z -> bool) (i : Z) : option Z :=
  match fuel with
  | O => None
  | S fuel => if stop i then Some i else walk fuel stop (succ_in i)
  end.
Lemma walk_spec stop fuel : forall i, inside i -> Z.of_nat fuel <= n -> (exists d, 0 <= d < Z.of_nat fuel /\ stop (step_in i d) = true) ->
  exists d, 0 <= d < Z.of_nat fuel /\ walk fuel stop i = Some (step_in i d) /\ stop (step_in i d) = true /\ forall d', 0 <= d' < d -> stop (step_in i d') = false.
Proof.
  induction fuel as [|fuel IH]; intros i Hi Hf (d & Hd & Hs); [lia|]. cbn [walk]. destruct (stop i) eqn:E.
  - exists 0. rewrite step_0 by done. split; [lia|]. split; [done|]. split; [done|]. lia.
  - assert (d <> 0) as Hd0 by (intros ->; rewrite step_0 in Hs by done; congruence). destruct (IH (succ_in i)) as (d1 & Hd1 & E1 & Hs1 & Hb); [by apply succ_inside|lia|exists (d - 1); rewrite step_succ by lia; replace (d - 1 + 1) with d by lia; split; [lia|done]|].
    exists (d1 + 1). rewrite step_succ in E1, Hs1 by lia. split; [lia|]. split; [done|]. split; [done|]. intros d' Hd'. destruct (Z.eq_dec d' 0) as [->|]; [by rewrite step_0|]. specialize (Hb (d' - 1) ltac:(lia)). rewrite step_succ in Hb by lia. by replace (d' - 1 + 1) with d' in Hb by lia.
Qed.
(** The code's test for [home] in the cyclic interval from after [i] to [j]. *)
Lemma cyclic_spec i j home : inside i -> inside j -> inside home -> i <> j -> cyclic_in i j home = true <-> 0 < dist i home <= dist i j.
Proof. unfold cyclic_in, dist. intros. destruct (Z.leb_spec i j), (Z.leb_spec i home); rewrite ?andb_true_iff, ?orb_true_iff, ?Z.ltb_lt, ?Z.leb_le; lia. Qed.
(** [i] on the way from [home] to [c]. *)
Lemma dist_between home i c : inside home -> inside i -> inside c -> dist home i < dist home c -> dist home c = dist home i + dist i c /\ 0 < dist i c.
Proof. unfold dist. intros. destruct (Z.leb_spec home i), (Z.leb_spec home c), (Z.leb_spec i c); lia. Qed.
Lemma dist_outside i j home : inside i -> inside j -> inside home -> i <> j -> ~ (0 < dist i home <= dist i j) -> dist home i < dist home j.
Proof. unfold dist. intros. destruct (Z.leb_spec i home), (Z.leb_spec i j), (Z.leb_spec home i), (Z.leb_spec home j); lia. Qed.
Lemma dist_pos a b : inside a -> inside b -> a <> b -> 0 < dist a b.
Proof. unfold dist. intros. destruct (Z.leb_spec a b); lia. Qed.
Lemma dist_shorter i j e : inside i -> inside j -> inside e -> 0 < dist i j < dist i e -> dist j e < dist i e.
Proof. unfold dist. intros. destruct (Z.leb_spec i j), (Z.leb_spec j e), (Z.leb_spec i e); lia. Qed.
Lemma dist_via home i c d : inside home -> inside i -> inside c -> dist home i < dist home c -> 0 < d < dist i c -> dist home (step_in i d) = dist home i + d.
Proof. unfold dist, step_in. intros. destruct (Z.ltb_spec (i + d) n); destruct (Z.leb_spec home i), (Z.leb_spec home c), (Z.leb_spec i c); repeat match goal with |- context [?a <=? ?b] => destruct (Z.leb_spec a b) end; lia. Qed.
End Walk.

Lemma Forall_elem {A} (P : A -> Prop) l x : Forall P l -> x ∈ l -> P x.
Proof. induction 1 as [|y l Hy _ IH]; intros Hx; [by apply not_elem_of_nil in Hx|]. apply elem_of_cons in Hx as [->|]; auto. Qed.

(** ** The table *)
Definition cell (T : list Z) (i : Z) : Z := nth (Z.to_nat i) T (-1).
Lemma cell_insert T i p v : 0 <= i < zlen T -> 0 <= p -> cell (<[Z.to_nat i := v]> T) p = if p =? i then v else cell T p.
Proof.
  intros Hi Hp. unfold cell, zlen in *. rewrite !nth_lookup. destruct (Z.eqb_spec p i) as [->|Hne]; [by rewrite list_lookup_insert_eq by lia|]. rewrite list_lookup_insert_ne by lia. done.
Qed.

Section Table.
Context (n : Z) (home : Z -> Z) (Hhome : forall s, 0 <= home s < n).
Implicit Types (T S : list Z) (x : Z).
Abbreviation inside i := (0 <= i < n).
Abbreviation dist := (dist n).
(** [T] holds the slots [S]; probe runs are unbroken, but for the hole [x]. *)
Record tab_ok x T S : Prop := TabOk {
  tk_len : zlen T = n; tk_pos : Forall (fun s => 0 <= s) S;
  tk_in : forall i, inside i -> cell T i = -1 \/ cell T i ∈ S;
  tk_all : forall s, s ∈ S -> exists i, inside i /\ cell T i = s;
  tk_inj : forall i j, inside i -> inside j -> 0 <= cell T i -> cell T i = cell T j -> i = j;
  tk_run : forall i p, inside i -> inside p -> p <> x -> 0 <= cell T i -> dist (home (cell T i)) p < dist (home (cell T i)) i -> 0 <= cell T p }.
Abbreviation whole := (tab_ok (-1)).
Lemma n_pos : 0 < n. Proof. pose proof (Hhome 0). lia. Qed.
Lemma in_slot x T S i : tab_ok x T S -> inside i -> 0 <= cell T i -> cell T i ∈ S.
Proof. intros K Hi Hc. destruct (tk_in _ _ _ K i Hi) as [E|]; [lia|done]. Qed.
Lemma slot_pos x T S s : tab_ok x T S -> s ∈ S -> 0 <= s.
Proof. intros K Hs. by apply (Forall_elem _ _ _ (tk_pos _ _ _ K)). Qed.
(** A cell other than [i] is empty. *)
Lemma vacancy x T S i : tab_ok x T S -> zlen S + 1 < n -> inside i -> exists e, inside e /\ e <> i /\ cell T e < 0.
Proof.
  intros K Hl Hi. destruct (decide (Exists (fun d => cell T (step_in n i d) < 0) (seqZ 1 (n - 1)))) as [H|H].
  - apply Exists_exists in H as (d & Hd & Hc). apply list_elem_of_In, elem_of_seqZ in Hd. exists (step_in n i d). split; [apply step_inside; lia|]. split; [|done]. intros E. pose proof (step_dist n i d Hi ltac:(lia)) as Hs. rewrite E in Hs. unfold FpHash.dist in Hs. destruct (Z.leb_spec i i); lia.
  - exfalso. apply not_Exists_Forall in H; [|intros ?; apply _]. assert (zlen (map (fun d => cell T (step_in n i d)) (seqZ 1 (n - 1))) <= zlen S) as Hle.
    { unfold zlen. apply inj_le, submseteq_length, NoDup_submseteq.
      - apply (NoDup_fmap_2_strong (fun d => cell T (step_in n i d))); [|apply NoDup_seqZ]. intros a b Ha Hb E. pose proof (Forall_elem _ _ a H Ha) as Hca. unfold compose in Hca. cbv beta in Hca. apply elem_of_seqZ in Ha, Hb.
        apply (tk_inj _ _ _ K) in E; [|by apply step_inside; lia..|lia]. rewrite <- (step_dist n i a), <- (step_dist n i b) by lia. by rewrite E.
      - intros v Hv. apply list_elem_of_In, in_map_iff in Hv as (d & <- & Hd). apply list_elem_of_In in Hd. pose proof (Forall_elem _ _ d H Hd) as Hc. unfold compose in Hc. cbv beta in Hc. apply elem_of_seqZ in Hd. apply (in_slot x); [done|apply step_inside; lia|lia]. }
    unfold zlen in *. rewrite length_map, length_seqZ in Hle. lia.
Qed.
Lemma occupied_run T S s i d : whole T S -> inside i -> cell T i = s -> s ∈ S -> 0 <= d < dist (home s) i -> 0 <= cell T (step_in n (home s) d).
Proof.
  intros K Hi E Hs Hd. pose proof (dist_range n (home s) i (Hhome s) Hi). pose proof (slot_pos _ _ _ _ K Hs). subst s. apply (tk_run _ _ _ K i); [done|apply step_inside; [apply Hhome|lia]| |done|].
  - pose proof (step_inside n (home (cell T i)) d (Hhome _)). lia.
  - rewrite step_dist by (done || lia). lia.
Qed.

(** ** Insertion *)
Lemma insert_ok T S s i : whole T S -> inside i -> cell T i < 0 -> s ∉ S -> 0 <= s -> (forall d, 0 <= d < dist (home s) i -> 0 <= cell T (step_in n (home s) d)) ->
  whole (<[Z.to_nat i := s]> T) (s :: S).
Proof.
  intros K Hi Hc Hs H0 Hr. pose proof K as [K1 K2 K3 K4 K5 K6]. assert (forall p, 0 <= p -> cell (<[Z.to_nat i := s]> T) p = if p =? i then s else cell T p) as Ec by (intros p Hp; apply cell_insert; lia).
  split.
  - unfold zlen in *. by rewrite length_insert.
  - by constructor.
  - intros p Hp. rewrite Ec by lia. destruct (Z.eqb_spec p i); [right; left|]. destruct (K3 p Hp); [by left|right; by right].
  - intros t Ht. apply elem_of_cons in Ht as [->|Ht]; [exists i; split; [done|]; rewrite Ec by lia; by rewrite Z.eqb_refl|].
    destruct (K4 t Ht) as (p & Hp & E). exists p. split; [done|]. rewrite Ec by lia. destruct (Z.eqb_spec p i) as [->|]; [|done]. pose proof (slot_pos _ _ _ _ K Ht). lia.
  - intros a b Ha Hb. rewrite !Ec by lia. destruct (Z.eqb_spec a i) as [->|], (Z.eqb_spec b i) as [->|]; [done| | |by apply K5].
    + intros _ ->. destruct Hs. apply (in_slot (-1)); [done|done|lia].
    + intros _ E. destruct Hs. rewrite <- E. apply (in_slot (-1)); [done|done|lia].
  - intros a p Ha Hp Hx. rewrite !Ec by lia. destruct (Z.eqb_spec p i) as [->|Hpi]; [done|]. destruct (Z.eqb_spec a i) as [->|Hai]; [|by apply K6]. intros _ Hd. rewrite <- (dist_step n (home s) p) by (done || apply Hhome). apply Hr. split; [|done]. by apply dist_range.
Qed.

(** ** Deletion *)
(** The removed slot leaves a hole. *)
Lemma punch_ok T S s i : whole T (s :: S) -> s ∉ S -> inside i -> cell T i = s -> tab_ok i (<[Z.to_nat i := -1]> T) S.
Proof.
  intros K Hs Hi E. pose proof K as [K1 K2 K3 K4 K5 K6]. assert (0 <= s) as H0 by (by inversion K2). assert (forall p, 0 <= p -> cell (<[Z.to_nat i := -1]> T) p = if p =? i then -1 else cell T p) as Ec by (intros p Hp; apply cell_insert; lia).
  split.
  - unfold zlen in *. by rewrite length_insert.
  - by inversion K2.
  - intros p Hp. rewrite Ec by lia. destruct (Z.eqb_spec p i) as [->|Hne]; [by left|]. destruct (K3 p Hp) as [|Ht]; [by left|]. apply elem_of_cons in Ht as [Ht|]; [|by right]. destruct Hne. apply (K5 p i); [done..|lia|congruence].
  - intros t Ht. destruct (K4 t ltac:(by right)) as (p & Hp & Ep). exists p. split; [done|]. rewrite Ec by lia. destruct (Z.eqb_spec p i) as [->|]; [|done]. congruence.
  - intros a b Ha Hb. rewrite !Ec by lia. destruct (Z.eqb_spec a i), (Z.eqb_spec b i); [lia|lia| |by apply K5]. intros. lia.
  - intros a p Ha Hp Hx. rewrite !Ec by lia. destruct (Z.eqb_spec a i); [lia|]. destruct (Z.eqb_spec p i); [done|]. intros Hc Hd. apply (K6 a); [done|done|lia|done|done].
Qed.
(** The scan from the hole ends at an empty cell: the runs are whole. *)
Lemma plug_ok T S i d : tab_ok i T S -> inside i -> cell T i < 0 -> 0 < d <= n -> cell T (step_in n i d) < 0 ->
  (forall d', 0 < d' < d -> cyclic_in i (step_in n i d') (home (cell T (step_in n i d'))) = true) -> whole T S.
Proof.
  intros K Hi Hc Hd He Hall. pose proof K as [K1 K2 K3 K4 K5 K6]. split; try done. intros c p Hcc Hp Hx H0 Hlt. destruct (Z.eq_dec p i) as [->|Hpi]; [|by apply (K6 c)]. exfalso.
  pose proof (Hhome (cell T c)) as Hh. destruct (dist_between n _ i c Hh Hi Hcc Hlt) as [Hb Hpos]. pose proof (dist_range n i c Hi Hcc). assert (dist i c < d) as Hcd.
  { destruct (Z.lt_ge_cases (dist i c) d) as [|Hge]; [done|exfalso]. destruct (Z.eq_dec d (dist i c)) as [->|]; [rewrite dist_step in He by done; lia|].
    assert (0 <= cell T (step_in n i d)); [|lia]. apply (K6 c); [done|apply step_inside; lia| |done|].
    - intros E. pose proof (step_dist n i d Hi ltac:(lia)) as Hs. rewrite E in Hs. unfold FpHash.dist in Hs. destruct (Z.leb_spec i i); lia.
    - rewrite (dist_via n _ i c) by (done || lia). lia. }
  specialize (Hall (dist i c) ltac:(lia)). rewrite dist_step in Hall by done. apply (cyclic_spec n) in Hall; [|done|done|done|intros ->; unfold FpHash.dist in Hpos; destruct (Z.leb_spec c c); lia].
  revert Hlt Hall. unfold FpHash.dist. destruct (Z.leb_spec (home (cell T c)) i), (Z.leb_spec (home (cell T c)) c), (Z.leb_spec i (home (cell T c))), (Z.leb_spec i c); lia.
Qed.
(** An element beyond its reach moves into the hole, which moves to its place. *)
Lemma move_ok T S i j : tab_ok i T S -> inside i -> inside j -> i <> j -> cell T i < 0 -> 0 <= cell T j -> cyclic_in i j (home (cell T j)) = false ->
  tab_ok j (<[Z.to_nat j := -1]> (<[Z.to_nat i := cell T j]> T)) S.
Proof.
  intros K Hi Hj Hne Hc Hcj Hcyc. pose proof K as [K1 K2 K3 K4 K5 K6].
  assert (forall p, 0 <= p -> cell (<[Z.to_nat j := -1]> (<[Z.to_nat i := cell T j]> T)) p = if p =? j then -1 else if p =? i then cell T j else cell T p) as Ec.
  { intros p Hp. rewrite cell_insert by (unfold zlen in *; rewrite ?length_insert; lia). destruct (p =? j); [done|]. apply cell_insert; lia. }
  assert (dist (home (cell T j)) i < dist (home (cell T j)) j) as Hh.
  { apply dist_outside; [done|done|apply Hhome|done|]. intros H. apply (cyclic_spec n) in H; [congruence|done|done|apply Hhome|done]. }
  split.
  - unfold zlen in *. by rewrite !length_insert.
  - done.
  - intros p Hp. rewrite Ec by lia. destruct (p =? j); [by left|]. destruct (p =? i); [right; by apply (in_slot i)|by apply K3].
  - intros t Ht. destruct (K4 t Ht) as (p & Hp & E). pose proof (slot_pos _ _ _ _ K Ht). destruct (Z.eq_dec p j) as [->|Hpj].
    + exists i. split; [done|]. rewrite Ec by lia. destruct (Z.eqb_spec i j); [done|]. by rewrite Z.eqb_refl.
    + exists p. split; [done|]. rewrite Ec by lia. destruct (Z.eqb_spec p j); [done|]. destruct (Z.eqb_spec p i) as [->|]; [lia|done].
  - intros a b Ha Hb. rewrite !Ec by lia. destruct (Z.eqb_spec a j), (Z.eqb_spec b j); try lia. destruct (Z.eqb_spec a i) as [->|], (Z.eqb_spec b i) as [->|]; [done| | |by apply K5].
    + intros H0 E. pose proof (K5 j b Hj Hb H0 E). congruence.
    + intros H0 E. pose proof (K5 a j Ha Hj H0 E). congruence.
  - intros a p Ha Hp Hx. rewrite !Ec by lia. destruct (Z.eqb_spec p j); [done|]. destruct (Z.eqb_spec a j); [lia|]. destruct (Z.eqb_spec p i) as [->|Hpi]; [done|].
    destruct (Z.eqb_spec a i) as [->|Hai]; [|by apply K6]. intros _ Hd. apply (K6 j); [done|done|done|done|lia].
Qed.
End Table.

(** ** The registry's hash *)
Implicit Types (r : lk_registry) (S : list Z) (fp s : Z).
Definition fp_of r s : Z := qe_fp (entry_at r s).
Definition home_of r s : Z := fp_home r (fp_of r s).
Record hash_ok r S : Prop := HashOk {
  ho_size : exists h, 0 <= h <= 31 /\ rg_fp_hcap r = 2 ^ h;
  ho_tab : tab_ok (rg_fp_hcap r) (home_of r) (-1) (rg_fp_hash r) S;
  ho_room : zlen S + 1 < rg_fp_hcap r; ho_nodup : NoDup S;
  ho_fps : forall s t, s ∈ S -> t ∈ S -> fp_of r s = fp_of r t -> s = t }.

Section Hash.
Context (r : lk_registry) (S : list Z) (K : hash_ok r S).
Abbreviation n := (rg_fp_hcap r).
Abbreviation inside i := (0 <= i < n).
Lemma mask_mod x : 0 <= x -> Z.land x (n - 1) = x mod n.
Proof. intros Hx. destruct (ho_size _ _ K) as (h & Hh & ->). rewrite <- Z.land_ones by lia. by rewrite Z.ones_equiv, Z.sub_1_r. Qed.
Lemma hcap_range : 1 < n <= 2 ^ 31.
Proof. destruct (ho_size _ _ K) as (h & Hh & E). pose proof (ho_room _ _ K). pose proof (zlen_nonneg S). split; [lia|]. rewrite E. apply Z.pow_le_mono_r; lia. Qed.
Lemma home_inside fp : inside (fp_home r fp).
Proof. unfold fp_home. pose proof hcap_range. rewrite mask_mod by apply u32_range. apply Z.mod_pos_bound. lia. Qed.
Lemma next_succ i : inside i -> fp_next r i = succ_in n i.
Proof.
  intros Hi. unfold fp_next, succ_in. pose proof hcap_range. rewrite u32_small by lia. rewrite mask_mod by lia. destruct (Z.eqb_spec (i + 1) n) as [->|]; [apply Z.mod_same; lia|]. apply Z.mod_small. lia.
Qed.
Lemma fuel_val : Z.of_nat (hash_fuel r) = n.
Proof. unfold hash_fuel. pose proof hcap_range. lia. Qed.

(** The three searches are walks. *)
Definition miss fp (i : Z) : bool := negb (cell_at r i <? 0) && negb (fp_of r (cell_at r i) =? fp).
Lemma probe_walk fp fuel : forall i, inside i -> fp_probe fuel r fp i = (fun i => if cell_at r i <? 0 then -1 else cell_at r i) <$> walk n fuel (fun i => negb (miss fp i)) i.
Proof.
  induction fuel as [|fuel IH]; intros i Hi; [done|]. cbn [fp_probe walk]. unfold miss, fp_of. destruct (cell_at r i <? 0) eqn:E; cbn [negb andb]; [cbn; by rewrite E|]. destruct (_ =? fp); cbn [negb]; [cbn; by rewrite E|]. rewrite next_succ by done. apply IH. by apply succ_inside.
Qed.
Lemma vacant_walk fuel : forall i, inside i -> fp_vacant fuel r i = walk n fuel (fun i => cell_at r i <? 0) i.
Proof. induction fuel as [|fuel IH]; intros i Hi; [done|]. cbn [fp_vacant walk]. destruct (Z.leb_spec 0 (cell_at r i)), (Z.ltb_spec (cell_at r i) 0); try lia; [|done]. rewrite next_succ by done. apply IH. by apply succ_inside. Qed.
Lemma cell_walk fp fuel : forall i, inside i -> fp_cell fuel r fp i = walk n fuel (fun i => negb ((cell_at r i <? 0) || negb (fp_of r (cell_at r i) =? fp))) i.
Proof. induction fuel as [|fuel IH]; intros i Hi; [done|]. cbn [fp_cell walk]. unfold fp_of. destruct (_ || _); cbn [negb]; [|done]. rewrite next_succ by done. apply IH. by apply succ_inside. Qed.

(** Where a slot is, and that the way there is occupied by others. *)
Lemma way_to s : s ∈ S -> exists d, 0 <= d < n /\ cell_at r (step_in n (home_of r s) d) = s /\ forall d', 0 <= d' < d -> 0 <= cell_at r (step_in n (home_of r s) d') /\ cell_at r (step_in n (home_of r s) d') <> s.
Proof.
  intros Hs. pose proof (ho_tab _ _ K) as T. destruct (tk_all _ _ _ _ _ T s Hs) as (i & Hi & E). pose proof (home_inside (fp_of r s)) as Hh. pose proof (dist_range n _ _ Hh Hi) as Hd. pose proof (slot_pos _ _ _ _ _ _ T Hs) as H0.
  unfold home_of. exists (dist n (fp_home r (fp_of r s)) i). split; [done|]. split; [by rewrite dist_step|]. intros d' Hd'. split; [apply (occupied_run n (home_of r) (fun s => home_inside _) _ S s i); done|]. intros Ed. assert (step_in n (fp_home r (fp_of r s)) d' = i) as Ei.
  { apply (tk_inj _ _ _ _ _ T); [apply step_inside; [done|lia]|done| |]; change (cell (rg_fp_hash r)) with (cell_at r) in *; lia. }
  assert (dist n (fp_home r (fp_of r s)) i = d') as Ed2; [|lia]. rewrite <- Ei. apply step_dist; [exact Hh|]. lia.
Qed.
Lemma empty_cell : exists e, inside e /\ cell_at r e < 0.
Proof. pose proof hcap_range. destruct (vacancy n (home_of r) _ _ S 0 (ho_tab _ _ K) (ho_room _ _ K) ltac:(lia)) as (e & He & _ & Hc). by exists e. Qed.
Lemma fp_find_spec fp : (exists s, s ∈ S /\ fp_of r s = fp /\ fp_find r fp = Some s) \/ (fp_find r fp = Some (-1) /\ forall s, s ∈ S -> fp_of r s <> fp).
Proof.
  pose proof (ho_tab _ _ K) as T. pose proof (home_inside fp) as Hh. unfold fp_find. rewrite probe_walk by done. destruct empty_cell as (e & He & Hce). pose proof (dist_range n _ _ Hh He).
  destruct (walk_spec n (fun i => negb (miss fp i)) (hash_fuel r) (fp_home r fp) Hh) as (d & Hd & -> & Hs & Hb); [by rewrite fuel_val|exists (dist n (fp_home r fp) e); rewrite fuel_val, dist_step by done; split; [done|]; unfold miss; by destruct (Z.ltb_spec (cell_at r e) 0); [|lia]|].
  rewrite fuel_val in Hd. cbn [fmap option_fmap option_map]. set (i := step_in n (fp_home r fp) d) in *. assert (inside i) as Hi by (apply step_inside; [done|lia]). apply negb_true_iff in Hs. unfold miss in Hs. destruct (Z.ltb_spec (cell_at r i) 0) as [Hc|Hc]; cbn [negb andb] in Hs.
  - right. split; [done|]. intros s HsS E. destruct (way_to s HsS) as (d1 & Hd1 & E1 & Ho). unfold home_of in *. rewrite E in *. destruct (Z.lt_ge_cases d1 d) as [Hlt|Hge].
    + specialize (Hb d1 ltac:(lia)). apply negb_false_iff in Hb. unfold miss in Hb. rewrite E1, E, Z.eqb_refl in Hb. by rewrite andb_false_r in Hb.
    + destruct (Z.eq_dec d1 d) as [->|]; [pose proof (slot_pos _ _ _ _ _ _ T HsS); subst i; lia|]. destruct (Ho d ltac:(lia)) as [H0 _]. subst i. lia.
  - left. exists (cell_at r i). apply negb_false_iff, Z.eqb_eq in Hs. split; [by apply (in_slot _ _ _ _ _ _ T)|done].
Qed.
Lemma fp_insert_spec fp s : s ∉ S -> 0 <= s -> fp_of r s = fp -> (forall t, t ∈ S -> fp_of r t <> fp) -> zlen S + 2 < n ->
  exists T, fp_insert r fp s = Some (r <| rg_fp_hash := T |>) /\ hash_ok (r <| rg_fp_hash := T |>) (s :: S).
Proof.
  intros Hs H0 Ef Hf Hr. pose proof (ho_tab _ _ K) as T. pose proof (home_inside fp) as Hh. unfold fp_insert. rewrite vacant_walk by done. destruct empty_cell as (e & He & Hce). pose proof (dist_range n _ _ Hh He).
  destruct (walk_spec n (fun i => cell_at r i <? 0) (hash_fuel r) (fp_home r fp) Hh) as (d & Hd & -> & Hv & Hb); [by rewrite fuel_val|exists (dist n (fp_home r fp) e); rewrite fuel_val, dist_step by done; split; [done|by apply Z.ltb_lt]|].
  rewrite fuel_val in Hd. cbn [mbind option_bind]. set (i := step_in n (fp_home r fp) d) in *. assert (inside i) as Hi by (apply step_inside; [done|lia]). apply Z.ltb_lt in Hv. exists (<[Z.to_nat i := s]> (rg_fp_hash r)). split; [done|].
  split; [exact (ho_size _ _ K)| | | |].
  - apply (insert_ok n (home_of r)); [exact (fun s => home_inside _)|exact T|done|done|done|done|]. intros d' Hd'. unfold home_of in *. rewrite Ef in *. subst i. rewrite step_dist in Hd' by (done || lia). specialize (Hb d' ltac:(lia)). apply Z.ltb_ge in Hb. done.
  - change (rg_fp_hcap (r <| rg_fp_hash := _ |>)) with n. rewrite zlen_cons. lia.
  - constructor; [done|apply K].
  - intros a b Ha Hb' E. change (fp_of (r <| rg_fp_hash := _ |>)) with (fp_of r) in E. apply elem_of_cons in Ha as [->|Ha], Hb' as [->|Hb']; [done| | |by apply (ho_fps _ _ K)]; exfalso.
    + apply (Hf b Hb'). congruence.
    + apply (Hf a Ha). congruence.
Qed.

(** Deletion.  Only the table changes on the way. *)
Abbreviation with_tab T := (r <| rg_fp_hash := T |>).
Lemma tab_next T i : inside i -> fp_next (with_tab T) i = succ_in n i.
Proof. exact (next_succ i). Qed.
Definition halts T i (j : Z) : bool := (cell T j <? 0) || negb (cyclic_in i j (home_of r (cell T j))).
Lemma scan_walk T i fuel : forall j, inside j -> fp_scan fuel (with_tab T) i j = (fun j => if cell T j <? 0 then None else Some j) <$> walk n fuel (halts T i) (succ_in n j).
Proof.
  induction fuel as [|fuel IH]; intros j Hj; [done|]. cbn [fp_scan walk]. rewrite tab_next by done. change (cell_at (with_tab T)) with (cell T). pose proof (succ_inside n j Hj) as Hs. set (j' := succ_in n j) in *. unfold halts. change (fp_home (with_tab T) (qe_fp (entry_at (with_tab T) (cell T j')))) with (home_of r (cell T j')).
  destruct (cell T j' <? 0) eqn:E; cbn [orb]; [cbn; by rewrite E|]. destruct (cyclic_in _ _ _); cbn [negb]; [by apply IH|cbn; by rewrite E].
Qed.
Lemma shift_spec S' fuel : forall T i, inside i -> tab_ok n (home_of r) i (<[Z.to_nat i := -1]> T) S' -> (exists e, inside e /\ e <> i /\ cell (<[Z.to_nat i := -1]> T) e < 0 /\ dist n i e < Z.of_nat fuel) ->
  exists T', fp_shift fuel (with_tab T) i i = Some (with_tab T') /\ tab_ok n (home_of r) (-1) T' S'.
Proof.
  induction fuel as [|fuel IH]; intros T i Hi K' (e & He & Hei & Hce & Hde); [pose proof (dist_range n i e Hi He); lia|]. cbn [fp_shift]. change (cell_set (with_tab T) i (-1)) with (with_tab (<[Z.to_nat i := -1]> T)). change (hash_fuel (with_tab (<[Z.to_nat i := -1]> T))) with (hash_fuel r).
  set (U := <[Z.to_nat i := -1]> T) in *. assert (cell U i < 0) as Hui by (subst U; rewrite cell_insert; [by rewrite Z.eqb_refl| |lia]; pose proof (tk_len _ _ _ _ _ K') as Hl; unfold zlen in *; rewrite length_insert in Hl; lia).
  rewrite scan_walk by done. pose proof (succ_inside n i Hi) as Hs. pose proof (dist_range n i e Hi He). pose proof (dist_pos n i e Hi He ltac:(lia)).
  destruct (walk_spec n (halts U i) (hash_fuel r) (succ_in n i) Hs) as (d & Hd & -> & Hh & Hb).
  { by rewrite fuel_val. }
  { exists (dist n i e - 1). rewrite fuel_val. split; [lia|]. rewrite step_succ by lia. replace (dist n i e - 1 + 1) with (dist n i e) by lia. rewrite dist_step by done. unfold halts. by destruct (Z.ltb_spec (cell U e) 0); [|lia]. }
  rewrite fuel_val in Hd. rewrite step_succ in * by lia. assert (forall d', 0 < d' <= d -> halts U i (step_in n i d') = false) as Hb'.
  { intros d' Hd'. specialize (Hb (d' - 1) ltac:(lia)). rewrite step_succ in Hb by lia. by replace (d' - 1 + 1) with d' in Hb by lia. }
  set (j := step_in n i (d + 1)) in *. assert (inside j) as Hj by (apply step_inside; lia). cbn [fmap option_fmap option_map]. destruct (Z.ltb_spec (cell U j) 0) as [Hc|Hc].
  - exists U. split; [done|]. apply (plug_ok n (home_of r) (fun s => home_inside _) U S' i (d + 1)); [done|done|done|lia|done|]. intros d' Hd'. specialize (Hb' d' ltac:(lia)). apply orb_false_iff in Hb' as [_ Hb']. by apply negb_false_iff in Hb'.
  - assert (d + 1 <> n) as Hdn by (intros E; subst j; rewrite E in Hc; unfold step_in in Hc; destruct (Z.ltb_spec (i + n) n); [lia|]; replace (i + n - n) with i in Hc by lia; lia). assert (dist n i j = d + 1) as Hij by (apply step_dist; lia).
    assert (i <> j) as Hne by (intros <-; unfold dist in Hij; destruct (Z.leb_spec i i); lia). assert (dist n i j < dist n i e) as Hje.
    { destruct (Z.lt_ge_cases (dist n i j) (dist n i e)) as [|Hge]; [done|exfalso]. destruct (Z.eq_dec (dist n i e) (d + 1)) as [Ee|Hnee]; [subst j; rewrite <- Ee, dist_step in Hc by done; lia|]. specialize (Hb' (dist n i e) ltac:(lia)). rewrite dist_step in Hb' by done. apply orb_false_iff in Hb' as [Hb' _]. apply Z.ltb_ge in Hb'. lia. }
    unfold halts in Hh. destruct (Z.ltb_spec (cell U j) 0); [lia|]. cbn [orb] in Hh. apply negb_true_iff in Hh. change (cell_at (with_tab U) j) with (cell U j). change (cell_set (with_tab U) i (cell U j)) with (with_tab (<[Z.to_nat i := cell U j]> U)).
    pose proof (move_ok n (home_of r) (fun s => home_inside _) U S' i j K' Hi Hj Hne Hui Hc Hh) as K2. apply (IH (<[Z.to_nat i := cell U j]> U) j Hj K2). exists e. split; [done|]. pose proof (tk_len _ _ _ _ _ K') as Hl. split; [intros ->; lia|]. split.
    + rewrite cell_insert by (unfold zlen in *; rewrite ?length_insert; lia). destruct (Z.eqb_spec e j) as [->|]; [lia|]. rewrite cell_insert by lia. by destruct (Z.eqb_spec e i).
    + pose proof (dist_shorter n i j e Hi Hj He ltac:(lia)). lia.
Qed.
Lemma remove_spec s S' : S ≡ₚ s :: S' -> exists T, fp_remove r (fp_of r s) = Some (with_tab T) /\ hash_ok (with_tab T) S'.
Proof.
  intros Ep. pose proof (ho_tab _ _ K) as T. assert (s ∈ S) as Hs by (rewrite Ep; left). pose proof (ho_nodup _ _ K) as Hnd. rewrite Ep in Hnd. inversion_clear Hnd as [|? ? Hns Hnd']. destruct (way_to s Hs) as (d & Hd & E & Ho). set (i := step_in n (home_of r s) d) in *.
  assert (inside (home_of r s)) as Hh by apply home_inside. assert (inside i) as Hi by (apply step_inside; [done|lia]). pose proof (slot_pos _ _ _ _ _ _ T Hs) as H0. unfold fp_remove. rewrite cell_walk by apply home_inside. fold (home_of r s).
  assert (forall p, inside p -> negb ((cell_at r p <? 0) || negb (fp_of r (cell_at r p) =? fp_of r s)) = true -> cell_at r p = s) as Hst.
  { intros p Hp H. apply negb_true_iff, orb_false_iff in H as [H1 H2]. apply negb_false_iff, Z.eqb_eq in H2. apply (ho_fps _ _ K); [apply (in_slot _ _ _ _ _ _ T); [done|]; change (cell (rg_fp_hash r)) with (cell_at r); lia|done|done]. }
  destruct (walk_spec n (fun p => negb ((cell_at r p <? 0) || negb (fp_of r (cell_at r p) =? fp_of r s))) (hash_fuel r) (home_of r s) Hh) as (d1 & Hd1 & -> & Hstop & _).
  { by rewrite fuel_val. }
  { exists d. rewrite fuel_val. split; [done|]. fold i. rewrite E, Z.eqb_refl. by destruct (Z.ltb_spec s 0); [lia|]. }
  rewrite fuel_val in Hd1. cbn [mbind option_bind]. set (i1 := step_in n (home_of r s) d1) in *. assert (inside i1) as Hi1 by (apply step_inside; [done|lia]). apply Hst in Hstop; [|done].
  assert (tab_ok n (home_of r) (-1) (rg_fp_hash r) (s :: S')) as T1 by (destruct T as [A1 A2 A3 A4 A5 A6]; split; [done|by rewrite <- Ep|by setoid_rewrite <- Ep|by setoid_rewrite <- Ep|done|done]).
  pose proof (punch_ok n (home_of r) (rg_fp_hash r) S' s i1 T1 Hns Hi1 Hstop) as K2. pose proof (ho_room _ _ K) as Hroom. assert (zlen S = zlen S' + 1) as Hz by (unfold zlen; rewrite Ep; cbn; lia).
  destruct (vacancy n (home_of r) i1 _ S' i1 K2 ltac:(lia) Hi1) as (e & He & Hne & Hce). pose proof (dist_range n i1 e Hi1 He).
  destruct (shift_spec S' (hash_fuel r) (rg_fp_hash r) i1 Hi1 K2) as (T' & E' & K3); [exists e; rewrite fuel_val; split; [done|split; [done|split; [done|lia]]]|]. exists T'. replace (fp_shift (hash_fuel r) r i1 i1) with (fp_shift (hash_fuel r) (with_tab (rg_fp_hash r)) i1 i1) by (destruct r; done). split; [exact E'|].
  split; [exact (ho_size _ _ K)|exact K3| |done|].
  - change (rg_fp_hcap (with_tab T')) with n. lia.
  - intros a b Ha Hb. apply (ho_fps _ _ K); rewrite Ep; by right.
Qed.
End Hash.
End FpHash.

Section Recency.
Implicit Types (r : lk_registry) (S : list Z) (s t slot : Z).

(** ** Entries *)
Definition in_entries r s : Prop := 0 <= s < zlen (rg_entries r).
Lemma entry_at_upd r s g t : in_entries r s -> 0 <= t -> entry_at (entry_upd r s g) t = if t =? s then g (entry_at r s) else entry_at r t.
Proof.
  intros Hs Ht. unfold in_entries, entry_at, entry_upd, zlen in *. cbn [rg_entries upd]. rewrite !nth_lookup. destruct (Z.eqb_spec t s) as [->|Hne].
  - destruct (lookup_lt_is_Some_2 (rg_entries r) (Z.to_nat s)) as [e He]; [lia|]. rewrite list_lookup_alter_eq, He. done.
  - rewrite list_lookup_alter_ne by lia. done.
Qed.
Lemma len_upd r s g : zlen (rg_entries (entry_upd r s g)) = zlen (rg_entries r).
Proof. unfold zlen, entry_upd. cbn. by rewrite length_alter. Qed.
(** Everything of an entry but its links. *)
Definition core (e : qentry) := (qe_fp e, qe_used e, qe_series e, qe_label e, qe_op e).
(** [r'] is [r] with other links. *)
Definition relinked r r' : Prop :=
  exists es hd tl, r' = r <| rg_entries := es |> <| rg_lru_head := hd |> <| rg_lru_tail := tl |> /\ length es = length (rg_entries r) /\ forall s, 0 <= s -> core (entry_at r' s) = core (entry_at r s).
Lemma relinked_refl r : relinked r r.
Proof. exists (rg_entries r), (rg_lru_head r), (rg_lru_tail r). split; [by destruct r|done]. Qed.
Lemma relinked_trans r1 r2 r3 : relinked r1 r2 -> relinked r2 r3 -> relinked r1 r3.
Proof. intros (e1 & h1 & t1 & -> & L1 & C1) (e2 & h2 & t2 & -> & L2 & C2). exists e2, h2, t2. split; [done|]. split; [cbn in L2; congruence|]. intros s Hs. by rewrite C2, C1. Qed.
Lemma relinked_upd r s g : in_entries r s -> (forall e, core (g e) = core e) -> relinked r (entry_upd r s g).
Proof.
  intros Hs Hg. exists (alter g (Z.to_nat s) (rg_entries r)), (rg_lru_head r), (rg_lru_tail r). split; [by destruct r|]. split; [by rewrite length_alter|]. intros t Ht. rewrite entry_at_upd by done. destruct (Z.eqb_spec t s) as [->|]; [apply Hg|done].
Qed.
Lemma relinked_ends r h t : relinked r (r <| rg_lru_head := h |> <| rg_lru_tail := t |>).
Proof. exists (rg_entries r), h, t. done. Qed.
Lemma relinked_len r r' : relinked r r' -> zlen (rg_entries r') = zlen (rg_entries r).
Proof. intros (es & h & t & -> & L & _). unfold zlen. by rewrite <- L. Qed.

(** ** The LRU list *)
Fixpoint dls r (p : Z) S (n : Z) : Prop :=
  match S with
  | [] => True
  | s :: l => qe_lru_prev (entry_at r s) = p /\ qe_lru_next (entry_at r s) = List.hd n l /\ dls r s l n
  end.
Record lru_ok r S : Prop := LruOk {
  lu_head : rg_lru_head r = List.hd (-1) S; lu_tail : rg_lru_tail r = List.last S (-1); lu_links : dls r (-1) S (-1);
  lu_nodup : NoDup S; lu_in : Forall (in_entries r) S }.
Lemma hd_app (a b : list Z) n : List.hd n (a ++ b) = List.hd (List.hd n b) a.
Proof. by destruct a. Qed.
Lemma last_app_cons (a b : list Z) x p : List.last (a ++ x :: b) p = List.last (x :: b) p.
Proof. induction a as [|y a IH]; [done|]. cbn [app]. rewrite <- IH. by destruct a. Qed.
Lemma last_cons (a : list Z) x p : List.last (x :: a) p = List.last a x.
Proof. revert x p. induction a as [|y a IH]; intros x p; [done|]. change (List.last (x :: y :: a) p) with (List.last (y :: a) p). by rewrite !IH. Qed.
Lemma dls_app r a : forall p b n, dls r p (a ++ b) n <-> dls r p a (List.hd n b) /\ dls r (List.last a p) b n.
Proof.
  induction a as [|x a IH]; intros p b n; [by cbn; intuition|]. cbn [app dls]. rewrite hd_app, IH, last_cons. intuition.
Qed.
Lemma dls_frame r r' S : forall p n, (forall s, s ∈ S -> qe_lru_prev (entry_at r' s) = qe_lru_prev (entry_at r s) /\ qe_lru_next (entry_at r' s) = qe_lru_next (entry_at r s)) -> dls r p S n -> dls r' p S n.
Proof.
  induction S as [|s S IH]; intros p n H K; [done|]. destruct K as (K1 & K2 & K3). destruct (H s ltac:(left)) as [E1 E2]. split; [congruence|]. split; [congruence|]. apply IH; [|done]. intros t Ht. apply H. by right.
Qed.
Lemma dls_same r r' S p n : rg_entries r' = rg_entries r -> dls r p S n -> dls r' p S n.
Proof. intros E. apply dls_frame. intros s _. unfold entry_at. by rewrite E. Qed.
Lemma dls_upd r x g S p n : in_entries r x -> x ∉ S -> Forall (fun s => 0 <= s) S -> dls r p S n -> dls (entry_upd r x g) p S n.
Proof.
  intros Hx Hn Hp. apply dls_frame. intros s Hs. rewrite entry_at_upd by (done || by apply (Forall_elem _ _ _ Hp)). destruct (Z.eqb_spec s x) as [->|]; done.
Qed.
(** Redirecting the last link and the first. *)
Lemma dls_next r a x p n n' : in_entries r x -> x ∉ a -> Forall (fun s => 0 <= s) a -> dls r p (a ++ [x]) n -> dls (entry_upd r x (fun e => e <| qe_lru_next := n' |>)) p (a ++ [x]) n'.
Proof.
  intros Hx Hn Ha K. apply dls_app in K as [K1 K2]. apply dls_app. split; [by apply dls_upd|]. destruct K2 as (K2 & _ & _). cbn [dls List.hd]. rewrite !entry_at_upd by (unfold in_entries in *; done || lia). rewrite Z.eqb_refl. done.
Qed.
Lemma dls_prev r b x p p' n : in_entries r x -> x ∉ b -> Forall (fun s => 0 <= s) b -> dls r p (x :: b) n -> dls (entry_upd r x (fun e => e <| qe_lru_prev := p' |>)) p' (x :: b) n.
Proof.
  intros Hx Hn Hb (K1 & K2 & K3). cbn [dls List.hd]. rewrite !entry_at_upd by (unfold in_entries in *; done || lia). rewrite Z.eqb_refl. split; [done|]. split; [done|]. by apply dls_upd.
Qed.
Lemma NoDup_mid (a b : list Z) x : NoDup (a ++ x :: b) -> x ∉ a /\ x ∉ b /\ NoDup (a ++ b).
Proof. intros H. rewrite <- Permutation_middle in H. inversion_clear H as [|? ? H1 H2]. rewrite elem_of_app in H1. tauto. Qed.
Lemma in_pos r S : Forall (in_entries r) S -> Forall (fun s => 0 <= s) S.
Proof. intros H. refine (Forall_impl _ _ H). intros s Hs. unfold in_entries in Hs. lia. Qed.

Lemma unlink_spec r a s b : lru_ok r (a ++ s :: b) -> relinked r (lru_unlink r s) /\ lru_ok (lru_unlink r s) (a ++ b).
Proof.
  intros [U1 U2 U3 U4 U5]. destruct (NoDup_mid _ _ _ U4) as (Na & Nb & Nab). pose proof U5 as U5'. apply Forall_app in U5' as [Ia Ib']. inversion_clear Ib' as [|? ? Is Ib]. apply dls_app in U3 as [La (Lp & Ln & Lb)]. pose proof (in_pos _ _ Ia) as Pa. pose proof (in_pos _ _ Ib) as Pb.
  unfold lru_unlink. rewrite Lp, Ln. set (r1 := if 0 <=? List.last a (-1) then _ else _).
  assert (relinked r r1 /\ dls r1 (-1) a (List.hd (-1) b) /\ dls r1 s b (-1) /\ rg_lru_head r1 = List.hd (-1) (a ++ b) /\ rg_lru_tail r1 = List.last (s :: b) (-1)) as (R1 & A1 & B1 & H1 & T1).
  { rewrite last_app_cons in U2. subst r1. destruct a as [|x a _] using rev_ind.
    - cbn [List.last app]. destruct (Z.leb_spec 0 (-1)); [lia|]. split; [exact (relinked_ends r (List.hd (-1) b) (rg_lru_tail r))|]. split; [done|]. split; [by apply (dls_same r)|]. done.
    - rewrite List.last_last. apply Forall_app in Ia as [Ia Ix]. inversion_clear Ix as [|? ? Ix0 _]. assert (0 <= x) as Hx by (unfold in_entries in Ix0; lia). destruct (Z.leb_spec 0 x); [|lia]. apply Forall_app in Pa as [Pa _].
      assert (x ∉ a /\ x ∉ b) as [Nxa Nxb] by (rewrite <- (assoc app a) in Nab; destruct (NoDup_mid _ _ _ Nab) as (? & ? & _); done).
      split; [by apply relinked_upd|]. split; [by apply (dls_next r a x (-1) s)|]. split; [by apply dls_upd|]. split; [|done]. change (rg_lru_head (entry_upd r x _)) with (rg_lru_head r). rewrite U1, !hd_app. by destruct a. }
  clearbody r1. assert (Forall (in_entries r1) (a ++ b)) as I1 by (unfold in_entries; rewrite (relinked_len _ _ R1); apply Forall_app; done). destruct b as [|y b].
  - cbn [List.hd]. destruct (Z.leb_spec 0 (-1)); [lia|]. split; [apply (relinked_trans r r1); [done|exact (relinked_ends r1 (rg_lru_head r1) (List.last a (-1)))]|]. rewrite app_nil_r in *. split; [done|done|by apply (dls_same r1)|done|done].
  - cbn [List.hd]. inversion_clear Pb as [|? ? Hy Pb']. destruct (Z.leb_spec 0 y); [|lia]. apply Forall_app in I1 as I1'. destruct I1' as [I1a I1b]. inversion_clear I1b as [|? ? Iy Ib1]. destruct (NoDup_mid _ _ _ Nab) as (Nya & Nyb & _).
    split; [apply (relinked_trans r r1); [done|by apply relinked_upd]|]. split; [exact H1| | |done|unfold in_entries; by rewrite len_upd].
    + change (rg_lru_tail (entry_upd r1 y _)) with (rg_lru_tail r1). rewrite T1, last_app_cons. done.
    + apply dls_app. split; [by apply dls_upd|]. by apply (dls_prev r1 b y s).
Qed.
Lemma push_spec r s S : lru_ok r S -> s ∉ S -> in_entries r s -> relinked r (lru_push_front r s) /\ lru_ok (lru_push_front r s) (s :: S).
Proof.
  intros [U1 U2 U3 U4 U5] Hs Is. pose proof (in_pos _ _ U5) as P. unfold lru_push_front. set (r1 := entry_upd r s _). assert (relinked r r1) as R1 by by apply relinked_upd. assert (0 <= s) as H0 by (unfold in_entries in Is; lia).
  assert (entry_at r1 s = entry_at r s <| qe_lru_prev := -1 |> <| qe_lru_next := List.hd (-1) S |>) as E1 by (subst r1; rewrite entry_at_upd, Z.eqb_refl, U1 by done; done). assert (dls r1 (-1) S (-1)) as L1 by by apply dls_upd.
  assert (rg_lru_head r1 = List.hd (-1) S /\ rg_lru_tail r1 = List.last S (-1)) as [Hh Ht] by done. clearbody r1. rewrite Hh. assert (in_entries r1 s /\ Forall (in_entries r1) S) as [I1 I1'] by (unfold in_entries; rewrite (relinked_len _ _ R1); done).
  destruct S as [|y S]; cbn [List.hd].
  - destruct (Z.leb_spec 0 (-1)); [lia|]. cbn [rg_lru_tail upd]. rewrite Ht. cbn [List.last]. destruct (Z.ltb_spec (-1) 0); [|lia]. split; [apply (relinked_trans r r1); [done|exact (relinked_ends r1 s s)]|]. split; [done|done| |by constructor; [apply not_elem_of_nil|]|by constructor].
    apply (dls_same r1); [done|]. cbn [dls List.hd]. rewrite E1. done.
  - inversion_clear P as [|? ? Hy P']. inversion_clear I1' as [|? ? Iy I2]. destruct (Z.leb_spec 0 y); [|lia]. set (r2 := entry_upd r1 y _). assert (relinked r1 r2) as R2 by by apply relinked_upd. inversion_clear U4 as [|? ? Ny U4'].
    assert (dls r2 s (y :: S) (-1)) as L2 by (by apply (dls_prev r1 S y (-1))). assert (s <> y) as Hsy by (intros ->; apply Hs; left). assert (entry_at r2 s = entry_at r1 s) as E2 by (subst r2; rewrite entry_at_upd by done; by destruct (Z.eqb_spec s y)).
    assert (rg_lru_tail r2 = List.last (y :: S) (-1)) as Ht2 by done. clearbody r2. change (rg_lru_tail (r2 <| rg_lru_head := s |>)) with (rg_lru_tail r2). assert (0 <= List.last (y :: S) (-1)) as Hlast.
    { rewrite last_cons. clear -Hy P'. revert y Hy. induction P' as [|z S Hz _ IH]; intros y Hy; [done|]. rewrite last_cons. by apply IH. }
    destruct (Z.ltb_spec (rg_lru_tail r2) 0); [lia|]. split; [apply (relinked_trans r r1); [done|]; apply (relinked_trans r1 r2); [done|]; replace (r2 <| rg_lru_head := s |>) with (r2 <| rg_lru_head := s |> <| rg_lru_tail := rg_lru_tail r2 |>) by (by destruct r2); apply relinked_ends|].
    split; [done|exact Ht2| |by constructor; [|constructor]|].
    + apply (dls_same r2); [done|]. cbn [dls] in L2 |- *. rewrite E2, E1. done.
    + unfold in_entries in *. change (rg_entries (r2 <| rg_lru_head := s |>)) with (rg_entries r2). rewrite (relinked_len _ _ R2). by constructor; [|constructor].
Qed.
Lemma reg_touch_spec r a s b : lru_ok r (a ++ s :: b) -> relinked r (lru_touch r s) /\ lru_ok (lru_touch r s) (s :: a ++ b).
Proof.
  intros U. pose proof U as [U1 U2 U3 U4 U5]. unfold lru_touch. destruct (NoDup_mid _ _ _ U4) as (Na & Nb & Nab). destruct (Z.eqb_spec (rg_lru_head r) s) as [E|E].
  - assert (a = []) as ->; [|split; [apply relinked_refl|done]]. destruct a as [|x a]; [done|]. exfalso. rewrite U1 in E. cbn in E. subst x. apply Na. left.
  - destruct (unlink_spec r a s b U) as [R1 L1]. apply Forall_app in U5 as [_ U5]. inversion_clear U5 as [|? ? Is _]. destruct (push_spec (lru_unlink r s) s (a ++ b) L1) as [R2 L2]; [rewrite elem_of_app; tauto|unfold in_entries; by rewrite (relinked_len _ _ R1)|]. split; [by apply (relinked_trans r (lru_unlink r s))|done].
Qed.
End Recency.

Implicit Types (r : lk_registry) (s d : series) (x y : ptr) (q : Z -> list ptr) (h : gmap ptr series).

(** ** The parts of the registry *)
(** An entry without its series. *)
Definition shell (e : qentry) := (qe_fp e, qe_used e, qe_lru_prev e, qe_lru_next e, qe_label e, qe_op e).
(** The dictionary, the flat families and the series store. *)
Definition dict r := (rg_k r, rg_label_len r, rg_fp_hash r, rg_fp_hcap r, rg_free r, rg_lru_head r, rg_lru_tail r, rg_door r, map shell (rg_entries r)).
Definition flat r := (rg_max_dims r, rg_first_row r, rg_dims r, rg_protos r, rg_proto_prof r, rg_used r, rg_q_total r, rg_err_total r, rg_txn r, rg_err_codes r,
  rg_redirects r, rg_depth r, rg_truncated_obs r, rg_total_obs r, rg_other_obs r, rg_internal_obs r, rg_created_ns r).
Definition store r := (rg_k r, rg_max_dims r, rg_heap r, rg_brk r, rg_sbuckets r, rg_n_series r).
Definition slots r (l : Z) : list ptr := qe_series (entry_at r l).
Lemma shells_upd r l g : (forall e, shell (g e) = shell e) -> map shell (alter g (Z.to_nat l) (rg_entries r)) = map shell (rg_entries r).
Proof. intros Hg. generalize (Z.to_nat l) as i. induction (rg_entries r) as [|e es IH]; intros [|i]; cbn; [done..|by rewrite Hg|]. f_equal. apply IH. Qed.
Lemma slots_upd r l g i : in_entries r l -> 0 <= i -> slots (entry_upd r l g) i = if i =? l then qe_series (g (entry_at r l)) else slots r i.
Proof. intros Hl Hi. unfold slots. rewrite entry_at_upd by done. by destruct (i =? l). Qed.
Lemma dict_shell r r' l : dict r' = dict r -> shell (entry_at r' l) = shell (entry_at r l).
Proof. intros E. injection E as _ _ _ _ _ _ _ _ E. unfold entry_at. rewrite <- !(map_nth shell). by rewrite E. Qed.
Lemma dict_len r r' : dict r' = dict r -> zlen (rg_entries r') = zlen (rg_entries r).
Proof. intros E. injection E as _ _ _ _ _ _ _ _ E. unfold zlen. by rewrite <- (length_map shell), E, length_map. Qed.
Lemma dict_hash r r' S : dict r' = dict r -> hash_ok r S -> hash_ok r' S.
Proof.
  intros E [A1 A2 A3 A4 A5]. pose proof (fun l => dict_shell r r' l E) as Es. injection E as _ _ E1 E2 _ _ _ _ _. assert (forall l, fp_of r' l = fp_of r l) as Ef by (intros l; unfold fp_of; specialize (Es l); by injection Es).
  assert (forall l, home_of r' l = home_of r l) as Eh by (intros l; unfold home_of, fp_home; by rewrite Ef, E2). split; rewrite ?E1, ?E2; [done| |done|done|intros a b; rewrite !Ef; apply A5].
  destruct A2 as [B1 B2 B3 B4 B5 B6]. split; try done. intros i p. rewrite Eh. apply B6.
Qed.
Lemma dict_lru r r' S : dict r' = dict r -> lru_ok r S -> lru_ok r' S.
Proof.
  intros E [A1 A2 A3 A4 A5]. pose proof (fun l => dict_shell r r' l E) as Es. pose proof (dict_len _ _ E) as El. injection E as _ _ _ _ _ E1 E2 _ _. split; rewrite ?E1, ?E2; [done|done| |done|unfold in_entries; by rewrite El].
  apply (dls_frame r); [|done]. intros l _. specialize (Es l). by injection Es.
Qed.
Lemma relinked_parts r r' : relinked r r' -> store r' = store r /\ flat r' = flat r /\ (forall l, 0 <= l -> slots r' l = slots r l) /\ rg_oom r' = rg_oom r /\
  rg_free r' = rg_free r /\ rg_door r' = rg_door r /\ rg_label_len r' = rg_label_len r /\ rg_fp_hash r' = rg_fp_hash r /\ rg_fp_hcap r' = rg_fp_hcap r.
Proof. intros (es & hd & tl & -> & _ & C). do 2 (split; [done|]). split; [|done]. intros l Hl. specialize (C l Hl). unfold slots. injection C as _ _ E _ _. exact E. Qed.

(** ** Sums over the heap *)
Section Sum.
Context (f : series -> Z).
Definition hsum h : Z := map_fold (fun _ s a => f s + a) 0 h.
Lemma hsum_empty : hsum ∅ = 0. Proof. apply map_fold_empty. Qed.
Lemma hsum_insert h x s : h !! x = None -> hsum (<[x := s]> h) = f s + hsum h.
Proof. intros H. unfold hsum. rewrite map_fold_insert_L; [done| |done]. intros. lia. Qed.
Lemma hsum_delete h x s : h !! x = Some s -> hsum h = f s + hsum (delete x h).
Proof. intros H. rewrite <- (insert_delete_id h x s) at 1 by done. apply hsum_insert. apply lookup_delete_eq. Qed.
Lemma hsum_set h x s s' : h !! x = Some s -> hsum (<[x := s']> h) = hsum h - f s + f s'.
Proof. intros H. rewrite <- insert_delete_eq, hsum_insert by apply lookup_delete_eq. rewrite (hsum_delete h x s) by done. lia. Qed.
Lemma hsum_list h l : l ≡ₚ (map_to_list h).*1 -> zsum (map (fun x => match h !! x with Some s => f s | None => 0 end) l) = hsum h.
Proof.
  intros E. assert (forall a b : list Z, a ≡ₚ b -> zsum a = zsum b) as Hp by (unfold zsum; induction 1; cbn; lia).
  rewrite (Hp _ _ (Permutation_map _ E)). unfold hsum. rewrite map_fold_foldr. assert (Forall (fun p => h !! p.1 = Some p.2) (map_to_list h)) as H.
  { apply Forall_forall. intros [x s] Hin. apply list_elem_of_In in Hin. by apply elem_of_map_to_list. }
  clear E. induction H as [|[x s] ps Hx _ IH]; [done|]. cbn in *. rewrite Hx. unfold zsum in IH. by rewrite IH.
Qed.
End Sum.

Lemma concat_nodup (L : list (list ptr)) : (forall i l, L !! i = Some l -> NoDup l) -> (forall i j a b x, L !! i = Some a -> L !! j = Some b -> x ∈ a -> x ∈ b -> i = j) -> NoDup (concat L).
Proof.
  induction L as [|l L IH]; intros H1 H2; [constructor|]. cbn. apply list.NoDup_app. split; [by apply (H1 0%nat)|]. split.
  - intros x Hx Hc. apply list_elem_of_In, in_concat in Hc as (b & Hin & Hxb). apply list_elem_of_In, list_elem_of_lookup in Hin as (i & Hi). apply list_elem_of_In in Hxb. by specialize (H2 0%nat (S i) l b x eq_refl Hi Hx Hxb).
  - apply IH; [intros i; apply (H1 (S i))|]. intros i j a b x Hi Hj Ha Hbb. specialize (H2 (S i) (S j) a b x Hi Hj Ha Hbb). lia.
Qed.

(** ** The invariant *)
Definition key_of s : Z * Z * Z * Z := (sr_qslot s, sr_dim s, sr_proto s, sr_code s).
Definition bucket_of r s : Z := series_bucket r (sr_qslot s) (sr_dim s) (sr_proto s) (sr_code s).
Definition key_ok r (l d p c : Z) : Prop := 0 <= l <= rg_k r /\ 0 <= d <= rg_max_dims r /\ 0 <= p <= LK_MAX_PROTOS /\ 0 <= c < 256.
Record series_ok r s : Prop := SeriesOk { so_key : key_ok r (sr_qslot s) (sr_dim s) (sr_proto s) (sr_code s); so_tally : length (sr_tally s) = 6%nat; so_count : Hist.cell (h_count (sr_dur s)) }.
Abbreviation nbuckets r := (zlen (rg_sbuckets r)).
(** [q] lists the series of each slot. *)
Record heap_ok r q : Prop := HeapOk {
  hk_pow : exists e, 0 <= e <= 31 /\ nbuckets r = 2 ^ e;
  hk_chain : forall b x, 0 <= b < nbuckets r -> x ∈ bucket_at r b <-> exists s, rg_heap r !! x = Some s /\ bucket_of r s = b;
  hk_chain_nodup : forall b, 0 <= b < nbuckets r -> NoDup (bucket_at r b);
  hk_slot : forall l x, 0 <= l <= rg_k r -> x ∈ q l <-> exists s, rg_heap r !! x = Some s /\ sr_qslot s = l;
  hk_slot_nodup : forall l, 0 <= l <= rg_k r -> NoDup (q l);
  hk_inj : forall x y s d, rg_heap r !! x = Some s -> rg_heap r !! y = Some d -> key_of s = key_of d -> x = y;
  hk_fresh : forall x, is_Some (rg_heap r !! x) -> (x < rg_brk r)%positive;
  hk_series : forall x s, rg_heap r !! x = Some s -> series_ok r s;
  hk_n : rg_n_series r = u32 (Z.of_nat (size (rg_heap r))) }.
Lemma series_heap_ext r r' q q' : store r' = store r -> (forall l, 0 <= l <= rg_k r -> q' l = q l) -> heap_ok r q -> heap_ok r' q'.
Proof.
  intros E Eq [A1 A2 A3 A4 A5 A6 A7 A8 A9]. injection E as E1 E2 E3 E4 E5 E6. split; unfold bucket_at, bucket_of, series_bucket in *; rewrite ?E1, ?E3, ?E4, ?E5, ?E6; try done.
  - intros l x Hl. rewrite Eq by done. by apply A4.
  - intros l Hl. rewrite Eq by done. by apply A5.
  - intros x s Hx. destruct (A8 x s Hx) as [B1 B2 B3]. split; [|done|done]. unfold key_ok in *. by rewrite E1, E2.
Qed.
Section Heap.
Context (r : lk_registry) (q : Z -> list ptr) (K : heap_ok r q).
Lemma bucket_range (l d p c : Z) : 0 <= series_bucket r l d p c < nbuckets r.
Proof.
  unfold series_bucket. destruct (hk_pow _ _ K) as (e & He & ->). assert (2 ^ e - 1 = Z.ones e) as -> by (rewrite Z.ones_equiv; lia). rewrite Z.land_ones by lia. apply Z.mod_pos_bound. lia.
Qed.
(** Looking up a key. *)
Lemma series_is_spec (l d p c : Z) x : series_is r l d p c x = true <-> exists s, rg_heap r !! x = Some s /\ key_of s = (l, d, p, c).
Proof.
  unfold series_is, key_of. destruct (rg_heap r !! x) as [s|]; [|split; [done|by intros (? & ? & _)]]. rewrite !andb_true_iff, !Z.eqb_eq. split; [intros [[[<- <-] <-] <-]; by exists s|]. intros (s' & [= <-] & E). by injection E.
Qed.
Lemma series_lookup_spec (l d p c : Z) :
  match List.find (series_is r l d p c) (bucket_at r (series_bucket r l d p c)) with
  | Some x => exists s, rg_heap r !! x = Some s /\ key_of s = (l, d, p, c)
  | None => forall x s, rg_heap r !! x = Some s -> key_of s <> (l, d, p, c)
  end.
Proof.
  destruct (List.find _ _) as [x|] eqn:E; [apply find_some in E as [_ E]; by apply series_is_spec|]. intros x s Hx Ek. pose proof Ek as Ek'. injection Ek' as E1 E2 E3 E4. assert (x ∈ bucket_at r (series_bucket r l d p c)) as Hin.
  { apply (hk_chain _ _ K); [apply bucket_range|]. exists s. split; [done|]. unfold bucket_of. congruence. }
  apply list_elem_of_In in Hin. pose proof (find_none _ _ E x Hin) as Hf. assert (series_is r l d p c x = true); [|congruence]. apply series_is_spec. by exists s.
Qed.
Lemma bucket_alter b g i : 0 <= b < nbuckets r -> 0 <= i < nbuckets r -> nth (Z.to_nat i) (alter g (Z.to_nat b) (rg_sbuckets r)) [] = if i =? b then g (bucket_at r b) else bucket_at r i.
Proof.
  intros Hb Hi. unfold bucket_at, zlen in *. rewrite !nth_lookup. destruct (Z.eqb_spec i b) as [->|Hne].
  - destruct (lookup_lt_is_Some_2 (rg_sbuckets r) (Z.to_nat b)) as [e He]; [lia|]. rewrite list_lookup_alter_eq, He. done.
  - rewrite list_lookup_alter_ne by lia. done.
Qed.

(** A new series. *)
Definition put s : lk_registry :=
  r <| rg_heap ::= <[rg_brk r := s]> |> <| rg_brk := Pos.succ (rg_brk r) |> <| rg_sbuckets ::= alter (cons (rg_brk r)) (Z.to_nat (bucket_of r s)) |> <| rg_n_series ::= fun n => u32 (n + 1) |>.
Definition q_put s (l : Z) : list ptr := if l =? sr_qslot s then rg_brk r :: q l else q l.
Lemma brk_free : rg_heap r !! rg_brk r = None.
Proof. destruct (rg_heap r !! rg_brk r) eqn:E; [|done]. pose proof (hk_fresh _ _ K (rg_brk r) ltac:(by rewrite E)). lia. Qed.
Lemma put_ok s : series_ok r s -> (forall x d, rg_heap r !! x = Some d -> key_of d <> key_of s) -> heap_ok (put s) (q_put s).
Proof.
  intros Hs Hk. pose proof K as [A1 A2 A3 A4 A5 A6 A7 A8 A9]. pose proof brk_free as Hb. set (n := rg_brk r) in *. assert (nbuckets (put s) = nbuckets r) as El by (unfold zlen; cbn; by rewrite length_alter).
  assert (0 <= bucket_of r s < nbuckets r) as Hbs by exact (bucket_range (sr_qslot s) (sr_dim s) (sr_proto s) (sr_code s)). assert (forall d, bucket_of (put s) d = bucket_of r d) as Eb by (intros d; unfold bucket_of, series_bucket; by rewrite El).
  assert (forall i, 0 <= i < nbuckets r -> bucket_at (put s) i = if i =? bucket_of r s then n :: bucket_at r i else bucket_at r i) as Ec.
  { intros i Hi. unfold bucket_at at 1. cbn [put rg_sbuckets upd]. rewrite bucket_alter by done. by destruct (Z.eqb_spec i (bucket_of r s)) as [->|]. }
  assert (rg_heap (put s) = <[n := s]> (rg_heap r)) as Eh by exact eq_refl. assert (rg_brk (put s) = Pos.succ n) as Er by exact eq_refl. assert (rg_n_series (put s) = u32 (rg_n_series r + 1)) as En by exact eq_refl. assert (forall d, series_ok r d -> series_ok (put s) d) as Eo by (intros d []; done).
  assert (rg_k (put s) = rg_k r) as E0 by done. set (r' := put s) in *. clearbody r'. split; rewrite ?El, ?E0; [done|..].
  - intros b x Hbb. rewrite Ec by done. rewrite ?Eh. setoid_rewrite Eb. destruct (decide (x = n)) as [->|Hx].
    + rewrite lookup_insert_eq. destruct (Z.eqb_spec b (bucket_of r s)) as [->|Hne]; [split; [by exists s|left]|]. rewrite A2 by done. rewrite Hb. split; [by intros (? & ? & _)|]. intros (? & [= <-] & ?). congruence.
    + rewrite lookup_insert_ne by done. rewrite <- (A2 b x Hbb). destruct (b =? _); [|done]. rewrite elem_of_cons. intuition.
  - intros b Hbb. rewrite Ec by done. destruct (b =? _); [|by apply A3]. constructor; [|by apply A3]. rewrite A2 by done. rewrite Hb. by intros (? & ? & _).
  - intros l x Hl. rewrite ?Eh. unfold q_put. fold n. destruct (decide (x = n)) as [->|Hx].
    + rewrite lookup_insert_eq. destruct (Z.eqb_spec l (sr_qslot s)) as [->|Hne]; [split; [by exists s|left]|]. rewrite A4 by done. rewrite Hb. split; [by intros (? & ? & _)|]. intros (? & [= <-] & ?). congruence.
    + rewrite lookup_insert_ne by done. rewrite <- (A4 l x Hl). destruct (l =? _); [|done]. rewrite elem_of_cons. intuition.
  - intros l Hl. unfold q_put. fold n. destruct (l =? _); [|by apply A5]. constructor; [|by apply A5]. rewrite A4 by done. rewrite Hb. by intros (? & ? & _).
  - rewrite ?Eh. intros x y a b. rewrite !lookup_insert. repeat case_decide; subst; [done| | |apply A6].
    + intros [= <-] Hy E. destruct (Hk y b Hy). done.
    + intros Hx [= <-] E. by destruct (Hk x a Hx).
  - rewrite ?Eh. rewrite Er. intros x. rewrite lookup_insert. case_decide; [subst; lia|]. intros Hx. specialize (A7 x Hx). lia.
  - rewrite ?Eh. intros x d. rewrite lookup_insert. case_decide; [intros [= <-]; by apply Eo|]. intros Hx. by apply Eo, (A8 x).
  - rewrite ?Eh. rewrite En. rewrite map_size_insert, Hb, A9. unfold u32. rewrite Zplus_mod_idemp_l. f_equal. cbn. lia.
Qed.
(** Other figures under the same key. *)
Lemma set_ok x s d : rg_heap r !! x = Some s -> key_of d = key_of s -> series_ok r d -> heap_ok (r <| rg_heap ::= <[x := d]> |>) q.
Proof.
  intros Hx Ek Hd. pose proof K as [A1 A2 A3 A4 A5 A6 A7 A8 A9]. injection Ek as E1 E2 E3 E4. set (r' := r <| rg_heap ::= <[x := d]> |>). assert (rg_heap r' = <[x := d]> (rg_heap r)) as Eh by done.
  assert (forall y (P : series -> Prop), (P s <-> P d) -> (exists a, rg_heap r' !! y = Some a /\ P a) <-> exists a, rg_heap r !! y = Some a /\ P a) as Hex.
  { intros y P HP. rewrite Eh, lookup_insert. case_decide; [subst y|done]. rewrite Hx. split; intros (a & [= <-] & H); eexists; split; try done; tauto. }
  split; try done.
  - intros b y Hb. change (bucket_of r') with (bucket_of r). rewrite (Hex y (fun a => bucket_of r a = b)); [by apply A2|]. unfold bucket_of. by rewrite E1, E2, E3, E4.
  - intros l y Hl. rewrite (Hex y (fun a => sr_qslot a = l)); [by apply A4|]. by rewrite E1.
  - intros y z a b. rewrite Eh, !lookup_insert. repeat case_decide; subst; [done| | |apply A6].
    + intros [= <-] Hz E. apply (A6 y z s b); [done..|]. unfold key_of in *. congruence.
    + intros Hy [= <-] E. apply (A6 y z a s); [done..|]. unfold key_of in *. congruence.
  - intros y. rewrite Eh, lookup_insert. case_decide; [subst y; intros _; apply A7; by rewrite Hx|apply A7].
  - intros y a. rewrite Eh, lookup_insert. case_decide; [intros [= <-]; by destruct Hd|]. intros Hy. by destruct (A8 y a Hy).
  - rewrite Eh, map_size_insert, Hx. done.
Qed.
(** A removed series. *)
Lemma chain_unlink_out x l : NoDup l -> x ∉ chain_unlink x l /\ NoDup (chain_unlink x l) /\ forall y, y <> x -> y ∈ chain_unlink x l <-> y ∈ l.
Proof.
  induction 1 as [|y l Hy Hn IH]; cbn; [split; [apply not_elem_of_nil|split; [constructor|done]]|]. case_bool_decide as E; [subst y; split; [done|split; [done|]]; intros y Hyx; rewrite elem_of_cons; intuition|].
  destruct IH as (I1 & I2 & I3). split; [rewrite elem_of_cons; intuition|]. split; [constructor; [|done]; by rewrite I3|]. intros z Hz. rewrite !elem_of_cons, I3 by done. done.
Qed.
Definition drop_series x s : lk_registry := series_unlink_hash r x s <| rg_heap ::= delete x |> <| rg_n_series ::= fun n => u32 (n - 1) |>.
Lemma drop_ok x s q' : rg_heap r !! x = Some s -> (forall l, 0 <= l <= rg_k r -> NoDup (q' l) /\ x ∉ q' l /\ forall y, y <> x -> y ∈ q' l <-> y ∈ q l) -> heap_ok (drop_series x s) q'.
Proof.
  intros Hx Hq. pose proof K as [A1 A2 A3 A4 A5 A6 A7 A8 A9]. set (r' := drop_series x s). assert (rg_heap r' = delete x (rg_heap r)) as Eh by done. assert (nbuckets r' = nbuckets r) as El by (unfold zlen; cbn; by rewrite length_alter).
  assert (0 <= bucket_of r s < nbuckets r) as Hbs by exact (bucket_range (sr_qslot s) (sr_dim s) (sr_proto s) (sr_code s)). assert (forall d, bucket_of r' d = bucket_of r d) as Eb by (intros d; unfold bucket_of, series_bucket; by rewrite El).
  assert (forall i, 0 <= i < nbuckets r -> bucket_at r' i = if i =? bucket_of r s then chain_unlink x (bucket_at r i) else bucket_at r i) as Ec.
  { intros i Hi. unfold bucket_at at 1. cbn [r' drop_series series_unlink_hash rg_sbuckets upd]. fold (bucket_of r s). rewrite bucket_alter by done. by destruct (Z.eqb_spec i (bucket_of r s)) as [->|]. }
  split; rewrite ?El; try done.
  - intros b y Hb. rewrite Ec, Eh by done. setoid_rewrite Eb. destruct (chain_unlink_out x (bucket_at r b) (A3 b Hb)) as (C1 & C2 & C3). destruct (decide (y = x)) as [->|Hy].
    + rewrite lookup_delete_eq. split; [|by intros (? & ? & _)]. destruct (Z.eqb_spec b (bucket_of r s)) as [|Hne]; [done|]. rewrite A2 by done. rewrite Hx. intros (? & [= <-] & ?). congruence.
    + rewrite lookup_delete_ne by done. rewrite <- (A2 b y Hb). destruct (b =? _); [by apply C3|done].
  - intros b Hb. rewrite Ec by done. destruct (b =? _); [|by apply A3]. by apply chain_unlink_out, A3.
  - intros l y Hl. rewrite Eh. destruct (Hq l Hl) as (Q1 & Q2 & Q3). destruct (decide (y = x)) as [->|Hy]; [rewrite lookup_delete_eq; split; [done|by intros (? & ? & _)]|]. rewrite lookup_delete_ne, Q3 by done. by apply A4.
  - intros l Hl. by apply (Hq l).
  - intros y z a b. rewrite Eh, !lookup_delete_Some. intros [_ Hy] [_ Hz]. by apply A6.
  - intros y [a Ha]. rewrite Eh, lookup_delete_Some in Ha. apply A7. by exists a; apply Ha.
  - intros y a. rewrite Eh, lookup_delete_Some. intros [_ Hy]. by destruct (A8 y a Hy).
  - rewrite Eh, map_size_delete, Hx. change (rg_n_series r') with (u32 (rg_n_series r - 1)). rewrite A9. assert (size (rg_heap r) <> 0%nat) as Hz by (intros E; apply map_size_empty_inv in E; rewrite E, lookup_empty in Hx; done).
    unfold u32. rewrite Zminus_mod_idemp_l. f_equal. lia.
Qed.
(** The buckets hold the heap, each series once. *)
Lemma chains_perm : concat (rg_sbuckets r) ≡ₚ (map_to_list (rg_heap r)).*1.
Proof.
  pose proof K as [A1 A2 A3 A4 A5 A6 A7 A8 A9]. assert (forall i b, rg_sbuckets r !! i = Some b -> 0 <= Z.of_nat i < nbuckets r /\ bucket_at r (Z.of_nat i) = b) as Hb.
  { intros i b Hi. split; [apply lookup_lt_Some in Hi; unfold zlen; lia|]. unfold bucket_at. by rewrite Nat2Z.id, nth_lookup, Hi. }
  apply NoDup_Permutation.
  - apply concat_nodup.
    + intros i b Hi. destruct (Hb i b Hi) as [Hr <-]. by apply A3.
    + intros i j b c x Hi Hj Hxb Hxc. destruct (Hb i b Hi) as [Hri <-], (Hb j c Hj) as [Hrj <-]. apply A2 in Hxb as (s & Hs & Es); [|done]. apply A2 in Hxc as (s' & Hs' & Es'); [|done]. assert (s = s') as <- by congruence. lia.
  - apply NoDup_fst_map_to_list.
  - intros x. rewrite list_elem_of_In, in_concat, list_elem_of_fmap. split.
    + intros (b & Hin & Hx). apply list_elem_of_In, list_elem_of_lookup in Hin as (i & Hi). apply list_elem_of_In in Hx. destruct (Hb i b Hi) as [Hr <-]. apply A2 in Hx as (s & Hs & _); [|done]. exists (x, s). split; [done|]. by apply elem_of_map_to_list.
    + intros ([y s] & -> & Hy). apply elem_of_map_to_list in Hy. pose proof (bucket_range (sr_qslot s) (sr_dim s) (sr_proto s) (sr_code s)) as Hr. fold (bucket_of r s) in Hr. exists (bucket_at r (bucket_of r s)). split.
      * apply list_elem_of_In. unfold bucket_at. unfold zlen in Hr. destruct (lookup_lt_is_Some_2 (rg_sbuckets r) (Z.to_nat (bucket_of r s))) as [b Hbb]; [lia|]. rewrite nth_lookup, Hbb. by apply (list_elem_of_lookup_2 _ (Z.to_nat (bucket_of r s))).
      * apply list_elem_of_In, A2; [done|]. by exists s.
Qed.
End Heap.
