(* ===== verification/MetRegRun.v ===== *)
(** The registry's operations keep its invariant.  [Upkeep]: lookup with creation, the
    eviction loop, admission and the dictionary against its specification, interning and
    the flat families.  Then an observation step by step, what it adds to the figures of
    its series, a new registry, and runs of observations. *)
From stdpp Require Import base list gmap option.
From S2P Require Import Prelude Conn Proto Hist MetReg MetRegHeap.
#[local] Open Scope Z_scope.

Section Upkeep.
Implicit Types (r : lk_registry) (s : series) (x y : ptr) (q : Z -> list ptr) (o : lk_reg_obs).

(** ** Figures of a series *)
Definition hist_count (h : option lk_hist) : Z := match h with Some h => h_count h | None => 0 end.
Definition bhist_count (h : option lk_bhist) : Z := match h with Some h => b_count h | None => 0 end.
(** Every accumulator of a series. *)
Definition figures s : list Z :=
  [h_count (sr_dur s); sr_rows s; sr_bytes_in s; sr_bytes_out s; hist_count (sr_first_row s); hist_count (sr_upload s); bhist_count (sr_size s)] ++ sr_tally s.
Definition figure (i : nat) s : Z := nth i (figures s) 0.
Lemma nth_zip64 a : forall b i, length a = length b -> nth i (zip_with add64 a b) 0 = u64 (nth i a 0 + nth i b 0).
Proof. induction a as [|x a IH]; intros [|y b] [|i] H; try done. cbn in *. apply IH. lia. Qed.
(** [a] and [b] to the modulus of the counters. *)
Definition eq64 (a b : Z) : Prop := u64 a = u64 b.
#[global] Instance eq64_equiv : Equivalence eq64.
Proof. unfold eq64. split; [done|by intros ? ?|]. intros a b c -> ->. done. Qed.
#[global] Instance eq64_add : Proper (eq64 ==> eq64 ==> eq64) Z.add.
Proof. intros a a' Ha b b' Hb. unfold eq64 in *. by rewrite <- u64_add, Ha, Hb, u64_add. Qed.
Lemma eq64_u64 a : eq64 (u64 a) a.
Proof. unfold eq64, u64. by rewrite Zmod_mod. Qed.
Lemma eq64_cancel a b c : eq64 b c -> eq64 (a + b) (a + c).
Proof. intros H. by rewrite H. Qed.

(** ** Allocation *)
Lemma calloc_spec r : exists ok oom, calloc r = (ok, r <| rg_oom := oom |>) /\ (rg_oom r = [] -> ok = true /\ oom = []).
Proof. unfold calloc, alloc. destruct (rg_oom r) as [|b l]; [by exists true, []|]. by exists (negb b), l. Qed.
Lemma clock_spec r : exists t ts, reg_now_ns r = (t, r <| rg_clock := ts |>).
Proof. unfold reg_now_ns. destruct (rg_clock r) as [|t ts] eqn:E; [|by exists t, ts]. exists 0, []. f_equal. destruct r. cbn in *. by subst. Qed.
Lemma lazy_spec {A} (zero : A) r h : exists h' oom, lazy_hist zero r h = (h', r <| rg_oom := oom |>) /\ (h' = h \/ h' = Some zero /\ h = None) /\ (rg_oom r = [] -> oom = [] /\ h' = Some (default zero h)).
Proof.
  unfold lazy_hist. destruct h as [h|]; [exists (Some h), (rg_oom r); split; [by destruct r|]; split; [by left|done]|]. destruct (calloc_spec r) as (ok & oom & -> & H). destruct ok; [by exists (Some zero), oom; split; [done|split; [by right|intros E; by destruct (H E)]]|].
  exists None, oom. split; [done|]. split; [by left|]. intros E. by destruct (H E).
Qed.

(** ** [series_get] *)
Definition q_pre (l : Z) (pre : list ptr) q (i : Z) : list ptr := if i =? l then pre ++ q i else q i.
Lemma series0_ok r (l d p c t : Z) : key_ok r l d p c -> series_ok r (series0 l d p c t).
Proof. intros H. split; [done|done|]. cbn. split; lia. Qed.
Lemma get_spec r q (l d p c : Z) : heap_ok r q -> in_entries r l -> key_ok r l d p c -> exists (o : option ptr) r' pre,
  series_get r l d p c = (o, r') /\ dict r' = dict r /\ flat r' = flat r /\ heap_ok r' (q_pre l pre q) /\ (forall i, 0 <= i -> slots r' i = q_pre l pre (slots r) i) /\ (rg_oom r = [] -> rg_oom r' = [] /\ o <> None) /\
  match o with
  | None => rg_heap r' = rg_heap r
  | Some x => exists s, rg_heap r' !! x = Some s /\ key_of s = (l, d, p, c) /\ (rg_heap r' = rg_heap r \/ rg_heap r !! x = None /\ rg_heap r' = <[x := s]> (rg_heap r) /\ figures s = replicate 13 0)
  end.
Proof.
  intros K Hl Hk. pose proof (series_lookup_spec r q K l d p c) as L. unfold series_get. destruct (List.find _ _) as [x|].
  - destruct L as (s & Hs & Ek). exists (Some x), r, []. assert (forall q i, q_pre l [] q i = q i) as Eq by (intros q' i; unfold q_pre; by destruct (i =? l)). do 3 (split; [done|]). split; [by apply (series_heap_ext r _ q)|]. split; [done|]. split; [done|]. exists s. auto.
  - destruct (calloc_spec r) as (ok & oom & -> & Ho). destruct ok; cbn [negb].
    + destruct (clock_spec (r <| rg_oom := oom |>)) as (t & ts & ->). set (s := series0 l d p c t). pose proof (put_ok r q K s (series0_ok r l d p c t Hk)) as P. set (r' := _ <| rg_n_series ::= _ |>).
      exists (Some (rg_brk r)), r', [rg_brk r]. split; [done|]. split; [unfold dict; cbn [r' rg_entries upd entry_upd]; by rewrite shells_upd|]. split; [done|]. split; [apply (series_heap_ext (put r s) _ (q_put r q s)); [done|done|by apply P]|]. split.
      * intros i Hi. unfold slots at 1, q_pre. change (entry_at r' i) with (entry_at (entry_upd r l (fun e => e <| qe_series ::= cons (rg_brk r) |>)) i). rewrite entry_at_upd by done. by destruct (Z.eqb_spec i l) as [->|].
      * split; [intros E; by destruct (Ho E) as [_ ->]|]. exists s. split; [apply lookup_insert_eq|]. split; [done|]. right. split; [by apply (brk_free r q)|]. done.
    + exists None, (r <| rg_oom := oom |>), []. assert (forall q i, q_pre l [] q i = q i) as Eq by (intros q' i; unfold q_pre; by destruct (i =? l)). do 3 (split; [done|]). split; [by apply (series_heap_ext r _ q)|]. split; [done|]. split; [intros E; by destruct (Ho E)|done].
Qed.

(** ** The eviction loop *)
Lemma bmerge_count (a b : lk_bhist) : b_count (lk_bhist_merge a b) = add64 (b_count a) (b_count b).
Proof. unfold lk_bhist_merge. cbn [b_count upd]. by destruct (b_nbuckets a =? 0). Qed.
(** A step that merges a lazily allocated field. *)
Ltac merge_lazy r d s fld zero merge H :=
  destruct (fld s) as [h|];
  [ destruct (lazy_spec zero r (fld d)) as (h' & oom & -> & _ & Ho); destruct h' as [h'|];
    [ exists (Some (merge h' h)), oom; split; [done|]; intros E; destruct (Ho E) as [-> Eh]; injection Eh as ->; split; [done|]; cbn [hist_count bhist_count]; rewrite H; unfold add64; rewrite eq64_u64; by destruct (fld d)
    | exists (fld d), oom; split; [by destruct d|]; intros E; by destruct (Ho E) ]
  | exists (fld d), (rg_oom r); split; [by destruct r, d|]; intros E; split; [done|]; cbn; by rewrite Z.add_0_r ].
Lemma merge_count (a b : lk_hist) : h_count (lk_hist_merge a b) = add64 (h_count a) (h_count b).
Proof. done. Qed.
Lemma fold_first_row_spec r (d s : series) : exists h oom, fold_first_row r d s = (d <| sr_first_row := h |>, r <| rg_oom := oom |>) /\ (rg_oom r = [] -> oom = [] /\ eq64 (hist_count h) (hist_count (sr_first_row d) + hist_count (sr_first_row s))).
Proof. unfold fold_first_row, series_first_row. merge_lazy r d s sr_first_row hist0 lk_hist_merge merge_count. Qed.
Lemma fold_upload_spec r (d s : series) : exists h oom, fold_upload r d s = (d <| sr_upload := h |>, r <| rg_oom := oom |>) /\ (rg_oom r = [] -> oom = [] /\ eq64 (hist_count h) (hist_count (sr_upload d) + hist_count (sr_upload s))).
Proof. unfold fold_upload, series_upload. merge_lazy r d s sr_upload hist0 lk_hist_merge merge_count. Qed.
Lemma fold_size_spec r (d s : series) : exists h oom, fold_size r d s = (d <| sr_size := h |>, r <| rg_oom := oom |>) /\ (rg_oom r = [] -> oom = [] /\ eq64 (bhist_count h) (bhist_count (sr_size d) + bhist_count (sr_size s))).
Proof. unfold fold_size, series_size. merge_lazy r d s sr_size (size_grid None) lk_bhist_merge bmerge_count. Qed.
Lemma fold_spec r0 r (d s : series) : series_ok r0 d -> series_ok r0 s -> exists d' oom, series_fold r d s = (d', r <| rg_oom := oom |>) /\ key_of d' = key_of d /\ series_ok r0 d' /\
  (rg_oom r = [] -> oom = [] /\ forall i, eq64 (figure i d') (figure i d + figure i s)).
Proof.
  intros [D1 D2 D3] [S1 S2 S3]. unfold series_fold. destruct (fold_first_row_spec r (fold_sums d s) s) as (h1 & o1 & -> & F1). destruct (fold_upload_spec (r <| rg_oom := o1 |>) (fold_sums d s <| sr_first_row := h1 |>) s) as (h2 & o2 & -> & F2).
  destruct (fold_size_spec (r <| rg_oom := o1 |> <| rg_oom := o2 |>) (fold_sums d s <| sr_first_row := h1 |> <| sr_upload := h2 |>) s) as (h3 & o3 & -> & F3).
  eexists _, o3. split; [reflexivity|]. split; [done|]. split; [split; [exact D1|cbn [sr_tally upd fold_sums]; rewrite length_zip_with; lia|apply u64_range]|].
  intros E. destruct (F1 E) as [-> G1]. destruct (F2 eq_refl) as [-> G2]. destruct (F3 eq_refl) as [-> G3]. split; [done|]. intros i. unfold figure, figures. do 7 (destruct i as [|i]; [first [exact (eq64_u64 _)|done]|]). cbn [app nth sr_tally upd fold_sums]. rewrite nth_zip64 by lia. apply eq64_u64.
Qed.

(** The sum of a figure over the series with the labels that [g] selects. *)
Definition marginal (g : Z * Z * Z -> bool) (i : nat) (h : gmap ptr series) : Z := hsum (fun s => if g (sr_dim s, sr_proto s, sr_code s) then figure i s else 0) h.
Definition conserved r r' : Prop := forall g i, eq64 (marginal g i (rg_heap r')) (marginal g i (rg_heap r)).
Lemma figure_zero i s : figures s = replicate 13 0 -> figure i s = 0.
Proof. unfold figure. intros ->. by do 14 (destruct i as [|i]; [done|]). Qed.
Lemma get_conserved r r' (o : option ptr) : match o with
  | None => rg_heap r' = rg_heap r
  | Some x => exists s, rg_heap r' !! x = Some s /\ (rg_heap r' = rg_heap r \/ rg_heap r !! x = None /\ rg_heap r' = <[x := s]> (rg_heap r) /\ figures s = replicate 13 0)
  end -> conserved r r'.
Proof.
  destruct o as [x|]; [|intros E g i; by rewrite E]. intros (s & _ & [E|(Hx & E & F)]) g i; rewrite E; [done|]. unfold marginal. rewrite hsum_insert by done. rewrite (figure_zero i s F). by destruct (g _).
Qed.
Lemma nodup_tail (x : ptr) l : NoDup (x :: l) -> x ∉ l /\ NoDup l.
Proof. by inversion_clear 1. Qed.
Definition q_evict (k t : Z) (pre xs : list ptr) q (i : Z) : list ptr := if i =? k then pre ++ q i else if i =? t then xs else q i.
Lemma evict_one_spec r q (t : Z) x xs : heap_ok r q -> zlen (rg_entries r) = rg_k r + 1 -> 0 <= t < rg_k r -> q t = x :: xs -> exists r' pre,
  evict_one r x = Some r' /\ dict r' = dict r /\ flat r' = flat r /\ heap_ok r' (q_evict (rg_k r) t pre xs q) /\ (forall i, 0 <= i -> slots r' i = q_pre (rg_k r) pre (slots r) i) /\ (rg_oom r = [] -> rg_oom r' = [] /\ conserved r r').
Proof.
  intros K He Ht Eq. assert (x ∈ q t) as Hin by (rewrite Eq; left). apply (hk_slot _ _ K) in Hin as (s & Hs & Et); [|lia]. unfold evict_one. rewrite Hs. cbn [mbind option_bind]. pose proof (hk_series _ _ K x s Hs) as Hso. pose proof (so_key _ _ Hso) as Hk. pose proof (hk_slot_nodup _ _ K t ltac:(lia)) as Hnd. rewrite Eq in Hnd. apply nodup_tail in Hnd as [Hnx Hnd].
  destruct (get_spec r q (rg_k r) (sr_dim s) (sr_proto s) (sr_code s) K) as (o & r1 & pre & -> & Ed & Ef & K1 & Es & Eo & Hg); [unfold in_entries; lia|unfold key_ok in *; lia|].
  assert (rg_k r1 = rg_k r) as Ek1 by (by injection Ed). assert (rg_max_dims r1 = rg_max_dims r) as Em1 by (by injection Ef). assert (forall u, series_ok r u -> series_ok r1 u) as Hso1 by (intros u []; split; [unfold key_ok in *; by rewrite Ek1, Em1|done|done]).
  assert (rg_heap r1 !! x = Some s) as Hx1.
  { destruct o as [y|]; [|by rewrite Hg]. destruct Hg as (u & Hu & _ & [->|(Hy & -> & _)]); [done|]. rewrite lookup_insert_ne; [done|]. intros ->. congruence. }
  (* what the fold leaves *)
  assert (exists h oom, match o with None => Some r1 | Some y => d ← rg_heap r1 !! y; let '(d, r) := series_fold r1 d s in Some (r <| rg_heap ::= <[y := d]> |>) end = Some (r1 <| rg_heap := h |> <| rg_oom := oom |>) /\ h !! x = Some s /\
    heap_ok (r1 <| rg_heap := h |>) (q_pre (rg_k r) pre q) /\ (rg_oom r = [] -> oom = [] /\ forall g i, eq64 (marginal g i (delete x h)) (marginal g i (rg_heap r)))) as (h & oom & -> & Hxh & K2 & Hc).
  { destruct o as [y|]; [|exists (rg_heap r1), (rg_oom r1); split; [by destruct r1|]; split; [done|]; split; [by apply (series_heap_ext r1 _ (q_pre (rg_k r) pre q))|]; intros E; by destruct (Eo E)].
    pose proof (get_conserved r r1 (Some y)) as Hcons. cbn beta iota in Hcons. destruct Hg as (d & Hd & Ekey & Hg). rewrite Hd. cbn [mbind option_bind]. destruct (fold_spec r1 r1 d s (hk_series _ _ K1 y d Hd) (Hso1 s Hso)) as (d' & oom & -> & Ekd & Hod & Hf).
    assert (x <> y) as Hxy by (intros <-; rewrite Hx1 in Hd; injection Hd as <-; injection Ekey; lia). exists (<[y := d']> (rg_heap r1)), oom. split; [done|]. split; [by rewrite lookup_insert_ne|]. split; [exact (set_ok r1 _ K1 y d d' Hd Ekd Hod)|].
    intros E. destruct (Eo E) as [E1 _]. destruct (Hf E1) as [-> Hfig]. split; [done|]. intros g i. rewrite <- (Hcons ltac:(exists d; done) g i). unfold marginal. rewrite <- insert_delete_ne by done. rewrite (hsum_set _ _ y d) by (by rewrite lookup_delete_ne).
    rewrite (hsum_delete _ (rg_heap r1) x s) by done. injection Ekd as F1 F2 F3 F4. injection Ekey as G1 G2 G3 G4. rewrite F2, F3, F4, G2, G3, G4. destruct (g _); [|unfold eq64; f_equal; lia]. specialize (Hfig i).
    match goal with |- eq64 (?a - ?b + ?c) _ => replace (a - b + c) with (a - b + c) by lia; assert (eq64 (a - b + c) (a - b + (figure i d + figure i s))) as -> by (by rewrite Hfig) end. unfold eq64. f_equal. lia. }
  cbn [mbind option_bind]. eexists _, pre. split; [reflexivity|]. set (r2 := r1 <| rg_heap := h |>) in K2. split; [exact Ed|]. split; [exact Ef|]. split; [|split; [exact Es|intros E; destruct (Hc E) as [-> Hm]; split; [done|exact Hm]]].
  apply (series_heap_ext (drop_series r2 x s) _ (q_evict (rg_k r) t pre xs q)); [done|done|]. assert (rg_k r2 = rg_k r) as Ek2 by exact Ek1. assert (rg_heap r2 = h) as Eh2 by done. clearbody r2. apply (drop_ok r2 _ K2); [by rewrite Eh2|]. rewrite Ek2. intros l Hl. pose proof (hk_slot_nodup _ _ K2 l ltac:(lia)) as Hn2.
  unfold q_evict. unfold q_pre in *. destruct (Z.eqb_spec l (rg_k r)) as [->|Hlk].
  - split; [done|]. split; [|done]. intros Hin. pose proof (hk_slot _ _ K2 (rg_k r) x) as H2. cbn beta in H2. rewrite Z.eqb_refl in H2. apply H2 in Hin as (u & Hu & Eu); [|lia]. rewrite Eh2 in Hu. assert (u = s) as -> by congruence. lia.
  - destruct (Z.eqb_spec l t) as [->|Hlt]; [split; [done|]; split; [done|]; rewrite Eq; intros y Hy; rewrite elem_of_cons; intuition|]. split; [done|]. split; [|done]. intros Hin. apply (hk_slot _ _ K) in Hin as (u & Hu & Eu); [|done]. assert (u = s) as -> by congruence. lia.
Qed.
Lemma evict_all_spec xs : forall r q (t : Z), heap_ok r q -> zlen (rg_entries r) = rg_k r + 1 -> 0 <= t < rg_k r -> q t = xs -> exists r' pre,
  evict_all r xs = Some r' /\ dict r' = dict r /\ flat r' = flat r /\ heap_ok r' (q_evict (rg_k r) t pre [] q) /\ (forall i, 0 <= i -> slots r' i = q_pre (rg_k r) pre (slots r) i) /\ (rg_oom r = [] -> rg_oom r' = [] /\ conserved r r').
Proof.
  induction xs as [|x xs IH]; intros r q t K He Ht Eq.
  - exists r, []. cbn. do 3 (split; [done|]). split; [|split; [intros i _; unfold q_pre; by destruct (_ =? _)|done]]. apply (series_heap_ext r _ q); [done|intros l _|done]. unfold q_evict. destruct (l =? rg_k r); [done|]. by destruct (Z.eqb_spec l t) as [->|].
  - destruct (evict_one_spec r q t x xs K He Ht Eq) as (r1 & pre1 & E1 & D1 & F1 & K1 & S1 & O1). cbn [evict_all]. rewrite E1. cbn [mbind option_bind]. assert (rg_k r1 = rg_k r) as Ek by (by injection D1).
    destruct (IH r1 _ t K1) as (r2 & pre2 & E2 & D2 & F2 & K2 & S2 & O2); [by rewrite (dict_len _ _ D1), Ek|lia|unfold q_evict; destruct (Z.eqb_spec t (rg_k r)); [lia|]; by rewrite Z.eqb_refl|].
    rewrite Ek in *. exists r2, (pre2 ++ pre1). split; [done|]. split; [by rewrite D2|]. split; [by rewrite F2|]. split; [|split].
    + refine (series_heap_ext r2 _ _ _ eq_refl _ K2). intros l _. unfold q_evict. destruct (l =? rg_k r); [by rewrite (assoc app)|]. by destruct (l =? t).
    + intros i Hi. rewrite S2 by done. unfold q_pre. rewrite S1 by done. unfold q_pre. destruct (i =? rg_k r); [by rewrite (assoc app)|done].
    + intros E. destruct (O1 E) as [E' C1]. destruct (O2 E') as [E'' C2]. split; [done|]. intros g i. by rewrite (C2 g i), (C1 g i).
Qed.

(** ** The invariant *)
(** The cells of the flat arrays that are ever touched lie in the arrays [lk_reg_new] took,
    as long as the number of dimensions does not wrap. *)
Definition within r : Prop := rg_max_dims r + 1 < 2 ^ 32 ->
  (forall i, is_Some (rg_q_total r !! i) -> 0 <= i < reg_ndims r * reg_nprotos * LK_N_QKINDS * LK_N_QCODES) /\
  (forall i, is_Some (rg_err_total r !! i) -> 0 <= i < (LK_MAX_ERR_CODES + 1) * reg_ndims r * reg_nprotos) /\
  (forall i, is_Some (rg_txn r !! i) -> 0 <= i < reg_ndims r * reg_nprotos * 2).
Lemma u32_le a n : 0 <= a < n -> 0 <= u32 a < n.
Proof. intros H. unfold u32. pose proof (Z.mod_le a (2 ^ 32) ltac:(lia) ltac:(lia)). pose proof (Z.mod_pos_bound a (2 ^ 32) ltac:(lia)). lia. Qed.
(** A row-major index stays in its array, wrapped or not. *)
Lemma row_le a b m n : 0 <= a < n -> 0 <= b < m -> 0 <= u32 (a * m + b) < n * m.
Proof. intros Ha Hb. apply u32_le. nia. Qed.
Lemma ndims_val r : 0 <= rg_max_dims r -> rg_max_dims r + 1 < 2 ^ 32 -> reg_ndims r = rg_max_dims r + 1.
Proof. intros H1 H2. unfold reg_ndims. apply u32_small. lia. Qed.
Lemma q_total_within r d p kind qc : 0 <= d <= rg_max_dims r -> rg_max_dims r + 1 < 2 ^ 32 -> 0 <= p <= LK_MAX_PROTOS -> 0 <= kind < LK_N_QKINDS -> 0 <= qc < LK_N_QCODES ->
  0 <= q_total_index d p kind qc < reg_ndims r * reg_nprotos * LK_N_QKINDS * LK_N_QCODES.
Proof. intros Hd Hm Hp Hk Hq. rewrite ndims_val by lia. unfold q_total_index. do 3 (apply row_le; [|unfold reg_nprotos; lia]). lia. Qed.
Lemma err_total_within r code d p : 0 <= d <= rg_max_dims r -> rg_max_dims r + 1 < 2 ^ 32 -> 0 <= p <= LK_MAX_PROTOS -> 0 <= code <= LK_MAX_ERR_CODES ->
  0 <= err_total_index r code d p < (LK_MAX_ERR_CODES + 1) * reg_ndims r * reg_nprotos.
Proof. intros Hd Hm Hp Hc. unfold err_total_index. rewrite ndims_val by lia. do 2 (apply row_le; [|unfold reg_nprotos; lia]). lia. Qed.
Lemma txn_within r d p aborted : 0 <= d <= rg_max_dims r -> rg_max_dims r + 1 < 2 ^ 32 -> 0 <= p <= LK_MAX_PROTOS ->
  0 <= txn_index d p aborted < reg_ndims r * reg_nprotos * 2.
Proof. intros Hd Hm Hp. rewrite ndims_val by lia. unfold txn_index. apply row_le; [|by destruct aborted]. apply row_le; [lia|unfold reg_nprotos; lia]. Qed.
Lemma touch_within {A} (m : gmap Z A) i a n : 0 <= i < n -> (forall j, is_Some (m !! j) -> 0 <= j < n) -> forall j, is_Some (<[i := a]> m !! j) -> 0 <= j < n.
Proof. intros Hi H j. destruct (decide (i = j)) as [->|Hne]; [done|]. rewrite lookup_insert_ne by done. apply H. Qed.
Record flat_ok r : Prop := FlatOk {
  fk_max : 0 <= rg_max_dims r; fk_dims : zlen (rg_dims r) <= rg_max_dims r; fk_protos : zlen (rg_protos r) <= LK_MAX_PROTOS; fk_prof : zlen (rg_proto_prof r) = LK_MAX_PROTOS + 1;
  fk_errs : zlen (rg_err_codes r) = LK_N_PROFILES; fk_err_codes : Forall (fun l => zlen l <= LK_MAX_ERR_CODES) (rg_err_codes r);
  fk_total : zlen (rg_total_obs r) = LK_N_PROFILES; fk_depth : zlen (rg_depth r) = reg_nprotos; fk_within : within r }.
(** [S] is the used slots, the most recent first. *)
Record reg_ok r (S : list Z) : Prop := RegOk {
  rk_k : 1 <= rg_k r < 2 ^ 30; rk_len : zlen (rg_entries r) = rg_k r + 1; rk_cap : 2 * rg_k r + 2 <= rg_fp_hcap r; rk_slots : S ++ rg_free r ≡ₚ seqZ 0 (rg_k r);
  rk_hash : hash_ok r S; rk_lru : lru_ok r S; rk_heap : heap_ok r (slots r); rk_empty : forall l, l ∈ rg_free r -> slots r l = []; rk_door : zlen (rg_door r) = LK_DOORKEEPER_SLOTS; rk_flat : flat_ok r }.
Implicit Types (S : list Z) (fp : Z).
Lemma flat_ext r r' : flat r' = flat r -> flat_ok r -> flat_ok r'.
Proof. intros E [A1 A2 A3 A4 A5 A6 A7 A8 A9]. injection E as E1 _ E2 E3 E4 _ W1 W2 W3 E5 _ E6 _ E7 _ _ _. split; try congruence. unfold within, reg_ndims in *. by rewrite E1, W1, W2, W3. Qed.
Lemma hash_ext r r' S : rg_fp_hcap r' = rg_fp_hcap r -> rg_fp_hash r' = rg_fp_hash r -> (forall l, 0 <= l -> l ∈ S -> fp_of r' l = fp_of r l) -> hash_ok r S -> hash_ok r' S.
Proof.
  intros E1 E2 Ef [A1 A2 A3 A4 A5]. pose proof A2 as [B1 B2 B3 B4 B5 B6]. split; rewrite ?E1, ?E2; [done| |done|done|intros a b Ha Hb; rewrite !Ef by (done || by apply (Forall_elem _ _ _ B2)); by apply A5].
  split; try done. intros i p Hi Hp Hx Hc. assert (MetRegHeap.cell (rg_fp_hash r) i ∈ S) as Hin by (destruct (B3 i Hi) as [E|]; [rewrite E in Hc; lia|done]). assert (home_of r' (MetRegHeap.cell (rg_fp_hash r) i) = home_of r (MetRegHeap.cell (rg_fp_hash r) i)) as -> by (unfold home_of, fp_home; by rewrite E1, Ef). by apply B6.
Qed.
Lemma lru_ext r r' S : rg_entries r' = rg_entries r -> rg_lru_head r' = rg_lru_head r -> rg_lru_tail r' = rg_lru_tail r -> lru_ok r S -> lru_ok r' S.
Proof. intros E1 E2 E3 [A1 A2 A3 A4 A5]. split; rewrite ?E2, ?E3; [done|done|by apply (dls_same r)|done|unfold in_entries; by rewrite E1]. Qed.
Lemma relinked_fp r r' l : relinked r r' -> 0 <= l -> fp_of r' l = fp_of r l.
Proof. intros (es & hd & tl & _ & _ & C) Hl. specialize (C l Hl). unfold fp_of. by injection C. Qed.
Lemma relinked_k r r' : relinked r r' -> rg_k r' = rg_k r.
Proof. by intros (es & hd & tl & -> & _). Qed.
Lemma slot_used r S l : reg_ok r S -> l ∈ S -> 0 <= l < rg_k r.
Proof. intros K Hl. assert (l ∈ seqZ 0 (rg_k r)) as H by (rewrite <- (rk_slots _ _ K), elem_of_app; by left). apply elem_of_seqZ in H. lia. Qed.
Lemma slot_free r S l : reg_ok r S -> l ∈ rg_free r -> 0 <= l < rg_k r /\ l ∉ S.
Proof.
  intros K Hl. assert (l ∈ seqZ 0 (rg_k r)) as H by (rewrite <- (rk_slots _ _ K), elem_of_app; by right). apply elem_of_seqZ in H. split; [lia|]. intros Hs. pose proof (NoDup_seqZ 0 (rg_k r)) as N. rewrite <- (rk_slots _ _ K) in N. apply list.NoDup_app in N as (_ & N & _). by apply (N l).
Qed.
Lemma slots_len r S : reg_ok r S -> zlen S + zlen (rg_free r) = rg_k r.
Proof. intros K. rewrite <- zlen_app. unfold zlen. rewrite (rk_slots _ _ K), length_seqZ. pose proof (rk_k _ _ K). lia. Qed.

(** ** Eviction *)
(** What the dictionary knows of a slot. *)
Definition card r (l : Z) : Z * cstring * cstring := (fp_of r l, qe_label (entry_at r l), qe_op (entry_at r l)).
Lemma relinked_card r r' l : relinked r r' -> 0 <= l -> card r' l = card r l.
Proof. intros (es & hd & tl & _ & _ & C) Hl. specialize (C l Hl). injection C as E1 E2 E3 E4 E5. unfold card, fp_of. by rewrite E1, E4, E5. Qed.
Lemma dict_card r r' l : dict r' = dict r -> card r' l = card r l.
Proof. intros E. pose proof (dict_shell r r' l E) as Es. injection Es as E1 E2 E3 E4 E5 E6. unfold card, fp_of. by rewrite E1, E5, E6. Qed.
Lemma evict_lru_spec r S (t : Z) : reg_ok r (S ++ [t]) -> exists r', evict_lru r = Some r' /\ reg_ok r' S /\ rg_free r' = t :: rg_free r /\ flat r' = flat r /\ rg_k r' = rg_k r /\ rg_label_len r' = rg_label_len r /\ rg_door r' = rg_door r /\
  (forall l, 0 <= l -> card r' l = card r l) /\ (rg_oom r = [] -> rg_oom r' = [] /\ conserved r r').
Proof.
  intros K. pose proof K as [A1 A2 A3 A4 A5 A6 A7 A8 A9 A10]. assert (0 <= t < rg_k r) as Ht by (apply (slot_used _ _ _ K); rewrite elem_of_app; right; left). unfold evict_lru. rewrite (lu_tail _ _ A6), List.last_last.
  destruct (evict_all_spec (slots r t) r (slots r) t A7 A2 Ht eq_refl) as (r1 & pre & E1 & D1 & F1 & K1 & S1 & O1). fold (slots r t). rewrite E1. cbn [mbind option_bind]. fold (fp_of r t). assert (rg_k r1 = rg_k r) as Ek1 by (by injection D1).
  assert (fp_of r t = fp_of r1 t) as -> by (pose proof (dict_card _ _ t D1) as Ec; by injection Ec). pose proof (dict_hash _ _ _ D1 A5) as H1. pose proof (dict_lru _ _ _ D1 A6) as L1. pose proof (dict_len _ _ D1) as N1.
  destruct (remove_spec r1 _ H1 t S ltac:(by rewrite <- Permutation_cons_append)) as (T & -> & H2). cbn [mbind option_bind]. set (r2 := r1 <| rg_fp_hash := T |>) in *. assert (lru_ok r2 (S ++ [t])) as L2 by (by apply (lru_ext r1)). destruct (unlink_spec r2 S t [] L2) as [R3 L3]. rewrite app_nil_r in L3.
  assert (rg_entries r2 = rg_entries r1) as N2 by done. assert (rg_k r2 = rg_k r1) as Ek2 by done. assert (forall l, card r2 l = card r1 l) as C2 by done. assert (forall l, slots r2 l = slots r1 l) as S2 by done. assert (store r2 = store r1) as St2 by done. assert (flat r2 = flat r1) as F2 by done. assert (rg_oom r2 = rg_oom r1) as O2 by done.
  assert (rg_free r2 = rg_free r1 /\ rg_door r2 = rg_door r1 /\ rg_label_len r2 = rg_label_len r1 /\ rg_fp_hcap r2 = rg_fp_hcap r1) as (Z1 & Z2 & Z3 & Z4) by done. clearbody r2. assert (in_entries r2 t) as I2 by (unfold in_entries; rewrite N2; lia).
  set (r3 := lru_unlink r2 t) in *. pose proof (relinked_len _ _ R3) as N3. pose proof (relinked_k _ _ R3) as Ek3. destruct (relinked_parts _ _ R3) as (St3 & F3 & S3 & O3 & Y1 & Y2 & Y3 & Y4 & Y5). assert (hash_ok r3 S) as H3 by (apply (hash_ext r2); [done|done|intros l Hl _; by apply relinked_fp|done]).
  assert (forall l, 0 <= l -> card r3 l = card r l) as C3 by (intros l Hl; rewrite (relinked_card _ _ _ R3), C2 by done; by apply dict_card). clearbody r3. assert (in_entries r3 t) as I3 by (unfold in_entries; rewrite N3, N2; lia).
  injection D1 as _ X2 _ X4 X5 _ _ X8 _. set (g := fun e : qentry => e <| qe_used := false |> <| qe_series := [] |>). set (r4 := entry_upd r3 t g <| rg_free ::= cons t |>).
  assert (forall l, 0 <= l -> entry_at r4 l = if l =? t then g (entry_at r3 t) else entry_at r3 l) as E4 by (intros l Hl; by apply (entry_at_upd r3 t g l)). assert (forall l, 0 <= l -> card r4 l = card r3 l) as C4 by (intros l Hl; unfold card, fp_of; rewrite E4 by done; by destruct (Z.eqb_spec l t) as [->|]).
  assert (forall l, 0 <= l -> slots r4 l = if l =? t then [] else slots r3 l) as S4 by (intros l Hl; unfold slots; rewrite E4 by done; by destruct (l =? t)). assert (zlen (rg_entries r4) = zlen (rg_entries r3)) as N4 by exact (len_upd r3 t g).
  exists r4. split; [done|]. assert (rg_free r4 = t :: rg_free r) as Ef4 by (change (t :: rg_free r3 = t :: rg_free r); congruence). split; [|split; [done|split; [change (flat r3 = flat r); congruence|split; [change (rg_k r3 = rg_k r); congruence|split; [change (rg_label_len r3 = rg_label_len r); congruence|split; [change (rg_door r3 = rg_door r); congruence|split]]]]]].
  2:{ intros l Hl. by rewrite C4, C3. }
  2:{ intros E. destruct (O1 E) as [O1' Cv]. split; [change (rg_oom r3 = []); congruence|]. injection St2 as _ _ Eh2 _ _ _. injection St3 as _ _ Eh3 _ _ _. intros g' i. change (rg_heap r4) with (rg_heap r3). rewrite Eh3, Eh2. apply Cv. }
  assert (rg_k r4 = rg_k r) as Ek4 by (change (rg_k r3 = rg_k r); congruence). assert (rg_fp_hcap r4 = rg_fp_hcap r) as Eh4 by (change (rg_fp_hcap r3 = rg_fp_hcap r); congruence). split; rewrite ?Ek4, ?Eh4, ?Ef4; [done|by rewrite N4, N3, N2, N1|done| | | | | | |].
  - rewrite <- A4, <- (assoc app). done.
  - apply (hash_ext r3); [done|done|intros l Hl _; specialize (C4 l Hl); by injection C4|done].
  - destruct L3 as [B1 B2 B3 B4 B5]. split; [done|done| |done|unfold in_entries; by rewrite N4]. apply (dls_frame r3); [|done]. intros l Hl. rewrite E4 by (by apply (Forall_elem _ _ _ (in_pos _ _ B5))). by destruct (Z.eqb_spec l t) as [->|].
  - refine (series_heap_ext r1 _ _ _ _ _ K1); [change (store r3 = store r1); congruence|]. intros l Hl. rewrite Ek1 in Hl. unfold q_evict. rewrite S4 by lia. destruct (Z.eqb_spec l t) as [->|Hlt]; [destruct (Z.eqb_spec t (rg_k r)); [lia|done]|]. rewrite S3, S2, S1 by lia. unfold q_pre. by destruct (l =? rg_k r).
  - intros l Hl. apply elem_of_cons in Hl as [->|Hl]; [rewrite S4 by lia; by rewrite Z.eqb_refl|]. destruct (slot_free _ _ _ K Hl) as [Hr Hn]. rewrite S4 by lia. destruct (l =? t); [done|]. rewrite S3, S2, S1 by lia. unfold q_pre. destruct (Z.eqb_spec l (rg_k r)); [lia|]. by apply A8.
  - change (zlen (rg_door r3) = LK_DOORKEEPER_SLOTS). congruence.
  - apply (flat_ext r); [change (flat r3 = flat r); congruence|done].
Qed.

(** ** Admission *)
Lemma lru_upd r (l : Z) g S : in_entries r l -> l ∉ S -> lru_ok r S -> lru_ok (entry_upd r l g) S.
Proof. intros Hl Hn [A1 A2 A3 A4 A5]. split; [done|done|by apply dls_upd; [..|apply (in_pos r)|]|done|unfold in_entries; by rewrite len_upd]. Qed.
Lemma admit_spec r S fp label op (l : Z) free : reg_ok r S -> rg_free r = l :: free -> (forall t, t ∈ S -> fp_of r t <> fp) -> exists r', admit_query r fp label op = Some (l, r') /\ reg_ok r' (l :: S) /\ store r' = store r /\ flat r' = flat r /\
  rg_label_len r' = rg_label_len r /\ rg_door r' = rg_door r /\ rg_oom r' = rg_oom r /\ (forall i, 0 <= i -> card r' i = if i =? l then (fp, utf8_trunc label (rg_label_len r), snprintf_s LK_REG_OP_MAX (default [] op)) else card r i).
Proof.
  intros K Efree Hf. pose proof K as [A1 A2 A3 A4 A5 A6 A7 A8 A9 A10]. destruct (slot_free _ _ l K) as [Hl Hn]; [rewrite Efree; left|]. unfold admit_query. rewrite Efree. set (r0 := r <| rg_free := free |>). set (g := fun e : qentry => _). set (r1 := entry_upd r0 l g).
  assert (in_entries r0 l) as I0 by (unfold in_entries; change (rg_entries r0) with (rg_entries r); lia). assert (forall i, 0 <= i -> entry_at r1 i = if i =? l then g (entry_at r l) else entry_at r i) as E1 by (intros i Hi; by apply (entry_at_upd r0 l g i)).
  assert (forall i, 0 <= i -> card r1 i = if i =? l then (fp, utf8_trunc label (rg_label_len r), snprintf_s LK_REG_OP_MAX (default [] op)) else card r i) as C1 by (intros i Hi; unfold card, fp_of; rewrite E1 by done; by destruct (Z.eqb_spec i l)).
  assert (forall i, 0 <= i -> slots r1 i = slots r i) as S1 by (intros i Hi; unfold slots; rewrite E1 by done; destruct (Z.eqb_spec i l) as [->|]; [|done]; symmetry; apply A8; rewrite Efree; left).
  assert (forall i, 0 <= i -> fp_of r1 i = if i =? l then fp else fp_of r i) as Ef1 by (intros i Hi; specialize (C1 i Hi); destruct (i =? l); by injection C1).
  assert (hash_ok r1 S) as H1 by (apply (hash_ext r); [done|done|intros i Hi HiS; rewrite Ef1 by done; destruct (Z.eqb_spec i l) as [->|]; done|done]). assert (lru_ok r1 S) as L1 by (apply lru_upd; [done|done|by apply (lru_ext r)]).
  assert (zlen (rg_entries r1) = zlen (rg_entries r)) as N1 by exact (len_upd r0 l g). assert (store r1 = store r /\ flat r1 = flat r /\ rg_free r1 = free /\ rg_door r1 = rg_door r /\ rg_label_len r1 = rg_label_len r /\ rg_oom r1 = rg_oom r /\ rg_fp_hcap r1 = rg_fp_hcap r) as (X1 & X2 & X3 & X4 & X5 & X6 & X7) by done. clearbody r1.
  pose proof (slots_len _ _ K) as Hlen. rewrite Efree, zlen_cons in Hlen. pose proof (zlen_nonneg free). destruct (fp_insert_spec r1 S H1 fp l Hn ltac:(lia)) as (T & -> & H2); [rewrite Ef1 by lia; by rewrite Z.eqb_refl|intros t Ht; pose proof (slot_used _ _ _ K Ht); rewrite Ef1 by lia; destruct (Z.eqb_spec t l) as [->|]; [done|by apply Hf]|rewrite X7; lia|].
  cbn [mbind option_bind]. set (r2 := r1 <| rg_fp_hash := T |>) in *. assert (lru_ok r2 S) as L2 by (by apply (lru_ext r1)). assert (in_entries r2 l) as I2 by (unfold in_entries; change (rg_entries r2) with (rg_entries r1); lia). destruct (push_spec r2 l S L2 Hn I2) as [R3 L3].
  assert (store r2 = store r1 /\ flat r2 = flat r1 /\ rg_free r2 = rg_free r1 /\ rg_door r2 = rg_door r1 /\ rg_label_len r2 = rg_label_len r1 /\ rg_oom r2 = rg_oom r1 /\ rg_fp_hcap r2 = rg_fp_hcap r1 /\ rg_entries r2 = rg_entries r1) as (Y1 & Y2 & Y3 & Y4 & Y5 & Y6 & Y7 & Y8) by done.
  assert (forall i, card r2 i = card r1 i) as C2 by done. assert (forall i, slots r2 i = slots r1 i) as S2 by done. clearbody r2. set (r3 := lru_push_front r2 l) in *. pose proof (relinked_len _ _ R3) as N3. destruct (relinked_parts _ _ R3) as (St3 & F3 & S3 & O3 & Z1 & Z2 & Z3 & Z4 & Z5).
  assert (hash_ok r3 (l :: S)) as H3 by (apply (hash_ext r2); [done|done|intros i Hi _; by apply relinked_fp|done]). assert (forall i, 0 <= i -> card r3 i = card r1 i) as C3 by (intros i Hi; by rewrite (relinked_card _ _ _ R3), C2). clearbody r3.
  assert (store r3 = store r) as St by congruence. assert (rg_k r3 = rg_k r) as Ek by (by injection St). exists r3. split; [done|]. split; [|split; [done|split; [congruence|split; [congruence|split; [congruence|split; [congruence|]]]]]]; [|intros i Hi; rewrite C3 by done; by apply C1].
  split; rewrite ?Ek; [done| | | |done|done| | | |].
  - by rewrite N3, Y8, N1.
  - by rewrite Z5, Y7, X7.
  - rewrite Z1, Y3, X3. rewrite <- A4, Efree. by rewrite <- Permutation_middle.
  - refine (series_heap_ext r _ _ _ St _ A7). intros i Hi. rewrite S3, S2, S1 by lia. done.
  - rewrite Z1, Y3, X3. intros i Hi. destruct (slot_free _ _ i K) as [Hi' _]; [rewrite Efree; by right|]. rewrite S3, S2, S1 by lia. apply A8. rewrite Efree. by right.
  - by rewrite Z2, Y4, X4.
  - apply (flat_ext r); [congruence|done].
Qed.

(** ** The dictionary *)
(** What it promises: the [k] most recently used fingerprints with the labels they were
    admitted under; a newcomer to a full dictionary has to knock twice. *)
Record qdict := QDict { qd_cards : list (Z * cstring * cstring); qd_door : list Z }.
Definition has_fp fp (c : Z * cstring * cstring) : bool := c.1.1 =? fp.
Definition spec_resolve (k label_len : Z) (a : qdict) fp (label : cstring) (op : option cstring) : bool * qdict :=
  match List.find (has_fp fp) (qd_cards a) with
  | Some c => (true, QDict (c :: List.filter (fun c => negb (has_fp fp c)) (qd_cards a)) (qd_door a))
  | None =>
      let c := (fp, utf8_trunc label label_len, snprintf_s LK_REG_OP_MAX (default [] op)) in
      let key := door_key fp in
      let d := door_slot key in
      if zlen (qd_cards a) <? k then (true, QDict (c :: qd_cards a) (qd_door a))
      else if znth (qd_door a) d =? key then (true, QDict (c :: removelast (qd_cards a)) (<[Z.to_nat d := 0]> (qd_door a)))
      else (false, QDict (qd_cards a) (<[Z.to_nat d := key]> (qd_door a)))
  end.
Definition abs r S : qdict := QDict (map (card r) S) (rg_door r).
Lemma find_card r S fp : (forall t, t ∈ S -> fp_of r t <> fp) -> List.find (has_fp fp) (map (card r) S) = None /\ List.filter (fun c => negb (has_fp fp c)) (map (card r) S) = map (card r) S.
Proof.
  induction S as [|t S IH]; intros H; [done|]. cbn [map List.find List.filter]. unfold has_fp at 1 3. cbn [card fst]. pose proof (H t ltac:(left)) as Ht. destruct (Z.eqb_spec (fp_of r t) fp); [done|]. cbn [negb]. destruct IH as [I1 I2]; [intros u Hu; apply H; by right|]. by rewrite I1, I2.
Qed.
Lemma find_card_at r (a b : list Z) (l : Z) fp : (forall t, t ∈ a ++ b -> fp_of r t <> fp) -> fp_of r l = fp -> List.find (has_fp fp) (map (card r) (a ++ l :: b)) = Some (card r l) /\ List.filter (fun c => negb (has_fp fp c)) (map (card r) (a ++ l :: b)) = map (card r) (a ++ b).
Proof.
  intros H E. induction a as [|t a IH]; cbn [app map List.find List.filter]; unfold has_fp at 1 3; cbn [card fst].
  - rewrite E, Z.eqb_refl. cbn [negb]. split; [done|]. by apply find_card.
  - pose proof (H t ltac:(left)) as Ht. destruct (Z.eqb_spec (fp_of r t) fp); [done|]. cbn [negb]. destruct IH as [I1 I2]; [intros u Hu; apply H; by right|]. by rewrite I1, I2.
Qed.
Lemma hash_perm r S S' : S' ≡ₚ S -> hash_ok r S -> hash_ok r S'.
Proof.
  intros E [A1 A2 A3 A4 A5]. destruct A2 as [B1 B2 B3 B4 B5 B6]. split; [done| |unfold zlen in *; by rewrite E|by rewrite E|intros a b; rewrite !E; apply A5]. split; [done|by rewrite E|by setoid_rewrite E|by setoid_rewrite E|done|done].
Qed.
Lemma reg_relinked r r' S S' : relinked r r' -> S' ≡ₚ S -> lru_ok r' S' -> reg_ok r S -> reg_ok r' S'.
Proof.
  intros R E L K. pose proof K as [A1 A2 A3 A4 A5 A6 A7 A8 A9 A10]. pose proof (relinked_k _ _ R) as Ek. destruct (relinked_parts _ _ R) as (St & F & Es & _ & Ef & Ed & _ & Eh & Ec). split; rewrite ?Ek, ?Ef, ?Ed, ?Ec; [done| |done| | |done| | |done|].
  - by rewrite (relinked_len _ _ R).
  - by rewrite E.
  - apply (hash_perm r' S); [done|]. apply (hash_ext r); [done|done|intros i Hi _; by apply relinked_fp|done].
  - refine (series_heap_ext r _ _ _ St _ A7). intros i Hi. apply Es. lia.
  - intros l Hl. destruct (slot_free _ _ _ K Hl) as [Hr _]. rewrite Es by lia. by apply A8.
  - by apply (flat_ext r).
Qed.
Lemma reg_door_set r S d v : reg_ok r S -> reg_ok (r <| rg_door ::= <[d := v]> |>) S.
Proof.
  intros [A1 A2 A3 A4 A5 A6 A7 A8 A9 A10]. split; [done|done|done|done|by apply (hash_ext r)|by apply (lru_ext r)|by apply (series_heap_ext r _ (slots r))|done| |by apply (flat_ext r)]. unfold zlen in *. cbn [rg_door upd]. by rewrite length_insert.
Qed.
Lemma conserved_refl r r' : rg_heap r' = rg_heap r -> conserved r r'.
Proof. intros E g i. by rewrite E. Qed.
Lemma removelast_map r S (t : Z) : removelast (map (card r) (S ++ [t])) = map (card r) S.
Proof. rewrite map_app. apply removelast_last. Qed.
Lemma map_card r r' S : (forall l, l ∈ S -> card r' l = card r l) -> map (card r') S = map (card r) S.
Proof. induction S as [|l S IH]; intros H; cbn; [done|]. rewrite (H l ltac:(left)), IH; [done|]. intros t Ht. apply H. by right. Qed.
Lemma resolve_spec r S fp label op : reg_ok r S -> exists l r' S', resolve_query r fp label op = Some (l, r') /\ reg_ok r' S' /\ flat r' = flat r /\ rg_k r' = rg_k r /\ rg_label_len r' = rg_label_len r /\ (rg_oom r = [] -> rg_oom r' = [] /\ conserved r r') /\
  let '(known, a) := spec_resolve (rg_k r) (rg_label_len r) (abs r S) fp label op in abs r' S' = a /\ if known then exists S0, S' = l :: S0 /\ fp_of r' l = fp else l = rg_k r.
Proof.
  intros K. pose proof K as [A1 A2 A3 A4 A5 A6 A7 A8 A9 A10]. unfold resolve_query, spec_resolve. cbn [abs qd_cards qd_door]. destruct (fp_find_spec r S A5 fp) as [(l & Hl & Ef & ->)|[-> Hn]]; cbn [mbind option_bind].
  - pose proof (slot_used _ _ _ K Hl) as Hr. destruct (Z.leb_spec 0 l); [|lia]. apply list_elem_of_split in Hl as (a & b & ->). destruct (reg_touch_spec r a l b A6) as [R L]. destruct (relinked_parts _ _ R) as (St & F & _ & O & _ & D & Ell & _). destruct (NoDup_mid _ _ _ (lu_nodup _ _ A6)) as (Na & Nb & _).
    destruct (find_card_at r a b l fp) as [-> ->]; [|done|].
    { intros t Ht E. assert (t = l) as ->; [|apply elem_of_app in Ht; tauto]. apply (ho_fps _ _ A5); [rewrite elem_of_app in *; rewrite elem_of_cons; tauto|rewrite elem_of_app, elem_of_cons; tauto|congruence]. }
    exists l, (lru_touch r l), (l :: a ++ b). split; [done|]. split; [apply (reg_relinked r _ (a ++ l :: b)); [done|by rewrite Permutation_middle|done|done]|]. split; [done|]. split; [by apply relinked_k|]. split; [done|]. split; [intros E; split; [congruence|]; apply conserved_refl; by injection St|].
    split; [|exists (a ++ b); split; [done|]; rewrite (relinked_fp _ _ _ R) by lia; done]. unfold abs. rewrite D. f_equal. apply (map_card r _ (l :: a ++ b)). intros t Ht. apply relinked_card; [done|]. assert (t ∈ a ++ l :: b) as Ht' by (rewrite <- Permutation_middle; done). pose proof (slot_used _ _ _ K Ht'). lia.
  - destruct (Z.leb_spec 0 (-1)); [lia|]. destruct (find_card r S fp Hn) as [-> _]. assert (zlen (map (card r) S) = zlen S) as -> by (unfold zlen; by rewrite length_map). pose proof (slots_len _ _ K) as Hlen. destruct (rg_free r) as [|l free] eqn:Efree; rewrite ?Efree in Hlen.
    + change (zlen (@nil Z)) with 0 in *. destruct (Z.ltb_spec 0 0); [lia|]. destruct (Z.ltb_spec (zlen S) (rg_k r)); [lia|]. set (key := door_key fp). set (d := door_slot key). destruct (znth (rg_door r) d =? key).
      * destruct S as [|t S _] using rev_ind; [unfold zlen in Hlen; cbn in Hlen; lia|]. set (r0 := r <| rg_door ::= _ |>). destruct (evict_lru_spec r0 S t (reg_door_set _ _ _ _ K)) as (r1 & -> & K1 & Ef1 & F1 & Ek1 & El1 & Ed1 & C1 & O1). cbn [mbind option_bind]. change (rg_free r0) with (rg_free r) in Ef1. rewrite Efree in Ef1.
        assert (forall u, u ∈ S -> 0 <= u /\ fp_of r1 u <> fp) as Hu. { intros u Hu. assert (u ∈ S ++ [t]) as Hu' by (rewrite elem_of_app; by left). pose proof (slot_used _ _ _ K Hu') as Hr. split; [lia|]. specialize (C1 u ltac:(lia)). injection C1 as -> _ _. exact (Hn u Hu'). }
        destruct (admit_spec r1 S fp label op t [] K1 Ef1) as (r2 & E2 & K2 & St2 & F2 & El2 & Ed2 & Eo2 & C2); [intros u Hu'; by apply Hu|]. rewrite E2. exists t, r2, (t :: S). split; [done|]. split; [done|]. split; [by rewrite F2|]. split; [injection St2 as ->; done|]. split; [by rewrite El2|]. pose proof (slot_used _ _ _ K2 ltac:(left) : 0 <= t < rg_k r2) as Ht.
        assert (NoDup (S ++ [t])) as Nd by apply A6. apply list.NoDup_app in Nd as (_ & Nd & _). split; [intros E; destruct (O1 E) as [O1' Cv]; split; [congruence|]; intros g i; injection St2 as _ _ -> _ _ _; apply Cv|]. split.
        -- unfold abs. rewrite removelast_map, Ed2, Ed1. f_equal. cbn [map]. rewrite C2, Z.eqb_refl, El1 by lia. f_equal. apply map_card. intros u Huu. destruct (Hu u Huu) as [Hu0 _]. rewrite C2 by done. destruct (Z.eqb_spec u t) as [->|]; [exfalso; apply (Nd t Huu); left|]. by apply C1.
        -- exists S. split; [done|]. specialize (C2 t ltac:(lia)). rewrite Z.eqb_refl in C2. by injection C2.
      * eexists (rg_k r), _, S. split; [reflexivity|]. split; [by apply reg_door_set|]. done.
    + rewrite zlen_cons in *. pose proof (zlen_nonneg free). destruct (Z.ltb_spec 0 (zlen free + 1)); [|lia]. destruct (Z.ltb_spec (zlen S) (rg_k r)); [|lia]. destruct (admit_spec r S fp label op l free K Efree Hn) as (r2 & E2 & K2 & St2 & F2 & El2 & Ed2 & Eo2 & C2). rewrite E2. exists l, r2, (l :: S). split; [done|]. split; [done|]. split; [done|]. split; [by injection St2|]. split; [done|].
      split; [intros E; split; [congruence|]; apply conserved_refl; by injection St2|]. pose proof (slot_used _ _ _ K2 ltac:(left) : 0 <= l < rg_k r2) as Hl. destruct (slot_free _ _ l K) as [_ Hln]; [rewrite Efree; left|]. split.
      * unfold abs. rewrite Ed2. f_equal. cbn [map]. rewrite C2, Z.eqb_refl by lia. f_equal. apply map_card. intros u Hu. pose proof (slot_used _ _ _ K Hu). rewrite C2 by lia. by destruct (Z.eqb_spec u l) as [->|].
      * exists S. split; [done|]. specialize (C2 l ltac:(lia)). rewrite Z.eqb_refl in C2. by injection C2.
Qed.

(** ** Interning and the flat families *)
(** Only the flat families differ. *)
Definition aside r r' : Prop := dict r' = dict r /\ store r' = store r /\ rg_entries r' = rg_entries r /\ rg_oom r' = rg_oom r /\ rg_first_row r' = rg_first_row r /\ rg_total_obs r' = rg_total_obs r.
Lemma aside_dims r r' : aside r r' -> rg_max_dims r' = rg_max_dims r.
Proof. intros (_ & E & _). by injection E. Qed.
Lemma aside_trans r1 r2 r3 : aside r1 r2 -> aside r2 r3 -> aside r1 r3.
Proof. intros (A1 & A2 & A3 & A4 & A5 & A6) (B1 & B2 & B3 & B4 & B5 & B6). repeat split; congruence. Qed.
Lemma aside_if r r' (b : bool) : aside r r' -> aside r (if b then r' else r).
Proof. by destruct b. Qed.
(** The same dictionary over a new store. *)
Lemma reg_store r r' S : dict r' = dict r -> heap_ok r' (slots r') -> (forall l, l ∈ rg_free r -> slots r' l = []) -> flat_ok r' -> reg_ok r S -> reg_ok r' S /\ abs r' S = abs r S.
Proof.
  intros E1 H Hf F K. pose proof K as [A1 A2 A3 A4 A5 A6 A7 A8 A9 A10]. pose proof (dict_len _ _ E1) as El. pose proof E1 as E1'. injection E1' as D1 D2 D3 D4 D5 D6 D7 D8 _. split.
  - split; rewrite ?D1, ?D4, ?D5, ?D8, ?El; [done|done|done|done|by apply (dict_hash r)|by apply (dict_lru r)|done|done|done|done].
  - unfold abs. rewrite D8. f_equal. apply map_card. intros l _. by apply dict_card.
Qed.
Lemma aside_ok r r' S : aside r r' -> flat_ok r' -> reg_ok r S -> reg_ok r' S /\ abs r' S = abs r S.
Proof.
  intros (E1 & E2 & E3 & _) F K. assert (forall l, slots r' l = slots r l) as Es by (intros l; unfold slots, entry_at; by rewrite E3). apply reg_store; [done| | |done|done]; [|intros l Hl; rewrite Es; by apply (rk_empty _ _ K)]. refine (series_heap_ext r _ _ _ E2 _ (rk_heap _ _ K)). intros l _. apply Es.
Qed.
Lemma index_range {A} (f : A -> bool) l : forall i, index_of f l = Some i -> 0 <= i < zlen l.
Proof. unfold zlen. induction l as [|a l IH]; intros i; cbn [index_of]; [done|]. destruct (f a); [intros [= <-]; cbn; lia|]. destruct (index_of f l) as [j|]; [|done]. intros [= <-]. specialize (IH j eq_refl). cbn. lia. Qed.
Lemma intern_dim_spec r db user : flat_ok r -> exists d r', intern_dim r db user = (d, r') /\ 0 <= d <= rg_max_dims r /\ aside r r' /\ flat_ok r' /\ rg_protos r' = rg_protos r.
Proof.
  intros F. pose proof F as [F1 F2 F3 F4 F5 F6 F7 F8 F9]. pose proof (zlen_nonneg (rg_dims r)). unfold intern_dim. destruct (index_of _ _) as [i|] eqn:E; [apply index_range in E; exists i, r; split; [done|]; split; [lia|]; done|]. destruct (Z.leb_spec (rg_max_dims r) (zlen (rg_dims r))); [exists (rg_max_dims r), r; split; [done|]; split; [lia|]; done|].
  eexists _, _. split; [reflexivity|]. split; [lia|]. split; [done|]. split; [|done]. split; try done. cbn [rg_dims rg_max_dims upd]. rewrite zlen_app. unfold zlen at 2. cbn. lia.
Qed.
Lemma intern_proto_spec r proto prof : flat_ok r -> exists p r', intern_proto r proto prof = (p, r') /\ 0 <= p <= LK_MAX_PROTOS /\ aside r r' /\ flat_ok r'.
Proof.
  intros F. pose proof F as [F1 F2 F3 F4 F5 F6 F7 F8 F9]. pose proof (zlen_nonneg (rg_protos r)). unfold intern_proto, LK_MAX_PROTOS in *. destruct (index_of _ _) as [i|] eqn:E; [apply index_range in E; exists i, r; split; [done|]; split; [lia|]; done|].
  destruct (Z.leb_spec 8 (zlen (rg_protos r))); (eexists _, _; split; [reflexivity|]; split; [lia|]; split; [done|]; split; try done); cbn [rg_protos rg_proto_prof upd]; rewrite ?zlen_app; unfold zlen in *; rewrite ?length_insert; cbn [length]; unfold LK_MAX_PROTOS; lia.
Qed.
Lemma intern_err_spec r prof code : flat_ok r -> exists c r', intern_err_code r prof code = (c, r') /\ 0 <= c <= LK_MAX_ERR_CODES /\ aside r r' /\ flat_ok r'.
Proof.
  intros F. pose proof F as [F1 F2 F3 F4 F5 F6 F7 F8 F9]. unfold intern_err_code. pose proof (zlen_nonneg (err_codes_of r prof)). assert (zlen (err_codes_of r prof) <= LK_MAX_ERR_CODES) as Hl.
  { unfold err_codes_of. rewrite nth_lookup. destruct (rg_err_codes r !! Z.to_nat prof) eqn:E; [|done]. cbn. apply (Forall_elem _ _ _ F6). by apply (list_elem_of_lookup_2 _ (Z.to_nat prof)). }
  unfold LK_MAX_ERR_CODES in *. destruct (index_of _ _) as [i|] eqn:E; [apply index_range in E; exists i, r; split; [done|]; split; [lia|]; done|]. destruct (Z.leb_spec 64 (zlen (err_codes_of r prof))) as [|Hlt]; [exists 64, r; split; [done|]; split; [lia|]; done|].
  eexists _, _. split; [reflexivity|]. split; [lia|]. split; [done|]. split; try done; cbn [rg_err_codes upd]; [unfold zlen in *; by rewrite length_alter|]. apply Forall_forall. intros l Hin. apply list_elem_of_In, list_elem_of_lookup in Hin as (i & Hi). destruct (decide (i = Z.to_nat prof)) as [->|Hne].
  - rewrite list_lookup_alter_eq in Hi. unfold err_codes_of in Hlt. rewrite nth_lookup in Hlt. destruct (rg_err_codes r !! Z.to_nat prof) as [l0|]; [|done]. injection Hi as <-. cbn in Hlt. rewrite zlen_app. unfold zlen at 2. cbn [length]. unfold LK_MAX_ERR_CODES. lia.
  - rewrite list_lookup_alter_ne in Hi by done. apply (Forall_elem _ _ _ F6). by apply (list_elem_of_lookup_2 _ i).
Qed.
Lemma flat_spec r o pf prof d p kind qc : flat_ok r -> 0 <= d <= rg_max_dims r -> 0 <= p <= LK_MAX_PROTOS -> 0 <= kind < LK_N_QKINDS -> 0 <= qc < LK_N_QCODES -> aside r (observe_flat r o pf prof d p kind qc) /\ flat_ok (observe_flat r o pf prof d p kind qc).
Proof.
  intros F Hd Hp Hk Hq. unfold observe_flat. set (r1 := if has_family _ RF_QTOTAL then _ else _). assert (aside r r1 /\ flat_ok r1) as [A1 F1] by (subst r1; destruct (has_family _ _); [|done]; split; [done|]; destruct F as [G1 G2 G3 G4 G5 G6 G7 G8 G9]; split; try done; intros Hm; destruct (G9 Hm) as (W1 & W2 & W3); split; [|done]; apply touch_within; [by apply q_total_within|exact W1]). clearbody r1. set (r2 := if _ && _ then _ else r1). assert (aside r1 r2 /\ flat_ok r2) as [A2 F2] by (subst r2; destruct (_ && _); split; try done; by destruct F1). clearbody r2.
  set (r3 := match ro_err_code o with Some _ => _ | None => _ end). assert (aside r2 r3 /\ flat_ok r3) as [A3 F3].
  { subst r3. destruct (ro_err_code o) as [code|]; [|done]. destruct (has_family _ _); [|done]. destruct (intern_err_spec r2 prof code F2) as (c & r' & -> & Hc & A & F'). split; [exact A|]. assert (0 <= d <= rg_max_dims r') as Hd' by (rewrite (aside_dims _ _ A), (aside_dims _ _ A2), (aside_dims _ _ A1); done).
    destruct F' as [G1 G2 G3 G4 G5 G6 G7 G8 G9]. split; try done. intros Hm. destruct (G9 Hm) as (W1 & W2 & W3). split; [done|]. split; [|done]. exact (touch_within _ _ _ _ (err_total_within r' c d p Hd' Hm Hp Hc) W2). }
  clearbody r3. set (r4 := if _ && _ then _ else r3). assert (aside r3 r4 /\ flat_ok r4) as [A4 F4] by (subst r4; destruct (_ && _); split; try done; by destruct F3). clearbody r4.
  assert (aside r r4) as A by (apply (aside_trans r r1); [done|]; apply (aside_trans r1 r2); [done|]; by apply (aside_trans r2 r3)). destruct (_ && _); [|done]. split; [apply (aside_trans r r4); done|]. destruct F4 as [G1 G2 G3 G4 G5 G6 G7 G8 G9]. split; try done. cbn [rg_depth upd]. unfold zlen in *. by rewrite length_alter.
Qed.
End Upkeep.

Implicit Types (r : lk_registry) (s : series) (x : ptr) (o : lk_reg_obs) (S : list Z) (fp : Z) (pf : reg_profile).

(** ** What an observation adds *)
Definition one_hot (n : Z) : list Z := map (fun j => Z.b2z (j =? n)) (seqZ 0 6).
(** To the figures that every exchange has, and to those of a timed one. *)
Definition count_figures o pf (qc : Z) : list Z :=
  [0; 0; if has_family pf RF_BYTES then ro_bytes_in o else 0; if has_family pf RF_BYTES then ro_bytes_out o else 0; Z.b2z (ro_has_block o && has_family pf RF_BLOCKING); 0; Z.b2z (ro_has_size o && has_family pf RF_SIZE)]
  ++ (if has_family pf RF_TOTAL then one_hot (axis_of o pf qc) else replicate 6 0).
Definition time_figures (first_row : bool) o pf : list Z :=
  [1; ro_rows o; 0; 0; Z.b2z (ro_has_first_row o && (has_family pf RF_TTFB || first_row && has_family pf RF_FIRST_ROW)); Z.b2z (ro_has_upload o && has_family pf RF_UPLOAD); 0] ++ replicate 6 0.

Lemma hist_observe_count h v : h_count (lk_hist_observe h v) = inc64 (h_count h).
Proof. unfold lk_hist_observe. destruct (_ || _); [done|]. destruct (isinf v); [done|]. destruct (_ <? _); [done|]. by destruct (_ <=? _). Qed.
Lemma bhist_observe_count h v : b_count (lk_bhist_observe h v) = inc64 (b_count h).
Proof. unfold lk_bhist_observe. by destruct (_ =? _). Qed.
Lemma lazy_bump {A} (zero : A) (obs : A -> A) (cnt : A -> Z) r (h : option A) : cnt zero = 0 -> (forall a, cnt (obs a) = inc64 (cnt a)) ->
  exists h' oom, lazy_hist zero r h = (h', r <| rg_oom := oom |>) /\ (rg_oom r = [] -> oom = [] /\ exists a, h' = Some a /\ eq64 (cnt (obs a)) (match h with Some h => cnt h | None => 0 end + 1)).
Proof.
  intros Hz Ho. destruct (lazy_spec zero r h) as (h' & oom & E & _ & H). exists h', oom. split; [done|]. intros E0. destruct (H E0) as [-> ->]. split; [done|]. eexists. split; [done|]. rewrite Ho. unfold inc64. rewrite eq64_u64. by destruct h as [a|]; cbn; [|rewrite Hz].
Qed.
Lemma tally_bump i (n : Z) t : length t = 6%nat -> 0 <= n < 6 -> eq64 (nth i (alter inc64 (Z.to_nat n) t) 0) (nth i t 0 + nth i (one_hot n) 0).
Proof.
  intros Ht Hn. destruct t as [|t0 [|t1 [|t2 [|t3 [|t4 [|t5 [|]]]]]]]; try done. assert (n = 0 \/ n = 1 \/ n = 2 \/ n = 3 \/ n = 4 \/ n = 5) as Hc by lia.
  do 6 (destruct i as [|i]; [destruct Hc as [->|[->|[->|[->|[->| ->]]]]]; cbn; rewrite ?Z.add_0_r; first [apply eq64_u64|done]|]). destruct Hc as [->|[->|[->|[->|[->| ->]]]]]; by destruct i.
Qed.
Lemma nth_zeros i n : nth i (replicate n 0) 0 = 0.
Proof. revert i. induction n as [|n IH]; intros [|i]; cbn; [done..|apply IH]. Qed.
Lemma axis_range o pf qc : 0 <= qc -> 0 <= ro_sclass o -> 0 <= axis_of o pf qc < 6.
Proof. intros. unfold axis_of, total_axis_n, LK_N_QCODES, LK_N_SCLASSES. destruct (pf_total_qcode pf); match goal with |- context [?a <? ?b] => destruct (Z.ltb_spec a b) end; lia. Qed.
(** A step that records into a lazily allocated field. *)
Ltac record_lazy r s fld zero obs cnt H :=
  destruct (_ && _);
  [ destruct (lazy_bump zero obs cnt r (fld s)) as (h & oom & -> & Hh); [cbn; try done; by destruct (_ =? _)|intros ?; apply H|];
    destruct h as [h|];
    [ eexists _, oom; split; [done|]; intros E; destruct (Hh E) as (-> & h' & [= <-] & Eh); split; [done|exact Eh]
    | exists (fld s), oom; split; [by destruct s|]; intros E; by destruct (Hh E) as (_ & ? & ? & _) ]
  | exists (fld s), (rg_oom r); split; [by destruct s, r|]; intros E; split; [done|]; cbn; by rewrite Z.add_0_r ].
Lemma size_spec r o pf s : exists h oom, observe_size r o pf s = (s <| sr_size := h |>, r <| rg_oom := oom |>) /\ (rg_oom r = [] -> oom = [] /\ eq64 (bhist_count h) (bhist_count (sr_size s) + Z.b2z (ro_has_size o && has_family pf RF_SIZE))).
Proof. unfold observe_size, series_size. record_lazy r s sr_size (size_grid (Some pf)) (fun h => lk_bhist_observe h (ro_size_bytes o)) b_count bhist_observe_count. Qed.
Lemma block_spec r o pf s : exists h oom, observe_block r o pf s = (s <| sr_first_row := h |>, r <| rg_oom := oom |>) /\ (rg_oom r = [] -> oom = [] /\ eq64 (hist_count h) (hist_count (sr_first_row s) + Z.b2z (ro_has_block o && has_family pf RF_BLOCKING))).
Proof. unfold observe_block, series_first_row. record_lazy r s sr_first_row hist0 (fun h => lk_hist_observe h (ro_block_seconds o)) h_count hist_observe_count. Qed.
Lemma first_row_spec r o pf s : exists h oom, observe_first_row r o pf s = (s <| sr_first_row := h |>, r <| rg_oom := oom |>) /\
  (rg_oom r = [] -> oom = [] /\ eq64 (hist_count h) (hist_count (sr_first_row s) + Z.b2z (ro_has_first_row o && (has_family pf RF_TTFB || rg_first_row r && has_family pf RF_FIRST_ROW)))).
Proof. unfold observe_first_row, series_first_row. record_lazy r s sr_first_row hist0 (fun h => lk_hist_observe h (ro_first_row_seconds o)) h_count hist_observe_count. Qed.
Lemma upload_spec r o pf s : exists h oom, observe_upload r o pf s = (s <| sr_upload := h |>, r <| rg_oom := oom |>) /\ (rg_oom r = [] -> oom = [] /\ eq64 (hist_count h) (hist_count (sr_upload s) + Z.b2z (ro_has_upload o && has_family pf RF_UPLOAD))).
Proof. unfold observe_upload, series_upload. record_lazy r s sr_upload hist0 (fun h => lk_hist_observe h (ro_upload_seconds o)) h_count hist_observe_count. Qed.
Lemma counts_spec r0 r o pf qc s : series_ok r0 s -> 0 <= qc -> 0 <= ro_sclass o -> exists s' oom, observe_counts r o pf qc s = (s', r <| rg_oom := oom |>) /\ key_of s' = key_of s /\ series_ok r0 s' /\
  (rg_oom r = [] -> oom = [] /\ forall i, eq64 (figure i s') (figure i s + nth i (count_figures o pf qc) 0)).
Proof.
  intros [K1 K2 K3] Hq Hs. pose proof (axis_range o pf qc Hq Hs) as Ha. unfold observe_counts.
  assert (exists t, observe_tally o pf qc s = s <| sr_tally := t |> /\ length t = 6%nat /\ forall i, eq64 (nth i t 0) (nth i (sr_tally s) 0 + nth i (if has_family pf RF_TOTAL then one_hot (axis_of o pf qc) else replicate 6 0) 0)) as (t & -> & Ht & Et).
  { unfold observe_tally. destruct (has_family pf RF_TOTAL); [|exists (sr_tally s); split; [by destruct s|]; split; [done|]; intros i; by rewrite nth_zeros, Z.add_0_r]. eexists. split; [done|]. split; [by rewrite length_alter|]. intros i. by apply tally_bump. }
  set (s1 := s <| sr_tally := t |>). assert (exists a b, observe_bytes o pf s1 = s1 <| sr_bytes_in := a |> <| sr_bytes_out := b |> /\ eq64 a (sr_bytes_in s + if has_family pf RF_BYTES then ro_bytes_in o else 0) /\ eq64 b (sr_bytes_out s + if has_family pf RF_BYTES then ro_bytes_out o else 0)) as (a & b & -> & Ea & Eb).
  { unfold observe_bytes. destruct (has_family pf RF_BYTES); [eexists _, _; split; [done|split; apply eq64_u64]|]. exists (sr_bytes_in s), (sr_bytes_out s). split; [by destruct s|]. by rewrite !Z.add_0_r. }
  set (s2 := s1 <| sr_bytes_in := a |> <| sr_bytes_out := b |>). destruct (size_spec r o pf s2) as (z & oom & -> & Hz). destruct (block_spec (r <| rg_oom := oom |>) o pf (s2 <| sr_size := z |>)) as (f & oom' & -> & Hf).
  eexists _, oom'. split; [reflexivity|]. split; [done|]. split; [by split|]. intros E. destruct (Hz E) as [-> Gz]. destruct (Hf eq_refl) as [-> Gf]. split; [done|]. intros i. unfold figure, figures, count_figures. do 7 (destruct i as [|i]; [cbn [app nth]; first [done|by rewrite Z.add_0_r]|]). apply Et.
Qed.
Lemma duration_spec r0 r o pf s : series_ok r0 s -> exists s' oom, observe_duration r o pf s = (s', r <| rg_oom := oom |>) /\ key_of s' = key_of s /\ series_ok r0 s' /\
  (rg_oom r = [] -> oom = [] /\ forall i, eq64 (figure i s') (figure i s + nth i (time_figures (rg_first_row r) o pf) 0)).
Proof.
  intros [K1 K2 K3]. unfold observe_duration. set (s1 := s <| sr_dur ::= _ |> <| sr_rows ::= _ |>). destruct (first_row_spec r o pf s1) as (f & oom & -> & Hf). destruct (upload_spec (r <| rg_oom := oom |>) o pf (s1 <| sr_first_row := f |>)) as (u & oom' & -> & Hu).
  assert (eq64 (h_count (sr_dur s1)) (h_count (sr_dur s) + 1) /\ Hist.cell (h_count (sr_dur s1))) as [Ed Ec] by (unfold s1; cbn [sr_dur upd]; rewrite hist_observe_count; split; [apply eq64_u64|apply u64_range]). assert (eq64 (sr_rows s1) (sr_rows s + ro_rows o)) as Er by apply eq64_u64.
  eexists _, oom'. split; [reflexivity|]. split; [done|]. split; [by split|]. intros E. destruct (Hf E) as [-> Gf]. destruct (Hu eq_refl) as [-> Gu]. split; [done|]. intros i. unfold figure, figures, time_figures. do 7 (destruct i as [|i]; [cbn [app nth]; first [done|by rewrite Z.add_0_r]|]). cbn [app nth]. rewrite nth_zeros, Z.add_0_r. done.
Qed.

(** ** One observation *)
(** Unsigned fields. *)
Definition obs_ok o : Prop := 0 <= ro_profile o /\ 0 <= ro_kind o /\ 0 <= ro_qcode o /\ 0 <= ro_sclass o.
Lemma obs_ranges o : obs_ok o -> 0 <= obs_kind o < LK_N_QKINDS /\ 0 <= obs_qcode o < LK_N_QCODES.
Proof. intros (_ & H1 & H2 & _). unfold obs_kind, obs_qcode, LK_N_QKINDS, LK_N_QCODES. destruct (Z.ltb_spec (ro_kind o) 8), (Z.ltb_spec (ro_qcode o) 4); lia. Qed.
Definition consts r := (rg_k r, rg_label_len r, rg_max_dims r, rg_first_row r).
Definition gain (first_row : bool) o (i : nat) : Z :=
  let pf := profile_at (obs_profile o) in nth i (count_figures o pf (obs_qcode o)) 0 + if ro_has_duration o then nth i (time_figures first_row o pf) 0 else 0.
Definition record_in r (h : gmap ptr series) (oom : list bool) (tot oth : list Z) : lk_registry := r <| rg_oom := oom |> <| rg_total_obs := tot |> <| rg_other_obs := oth |> <| rg_heap := h |>.
Lemma record_ok r S h oom tot oth : reg_ok r S -> heap_ok (r <| rg_heap := h |>) (slots r) -> zlen tot = zlen (rg_total_obs r) -> reg_ok (record_in r h oom tot oth) S /\ abs (record_in r h oom tot oth) S = abs r S.
Proof.
  intros K H El. apply reg_store; [done| | | |done]; [by refine (series_heap_ext _ _ _ _ _ _ H)|intros l Hl; by apply (rk_empty _ _ K)|]. destruct (rk_flat _ _ K) as [F1 F2 F3 F4 F5 F6 F7 F8]. split; try done. change (zlen tot = LK_N_PROFILES). by rewrite El.
Qed.
Lemma bump_len prof l : zlen (bump_prof prof l) = zlen l.
Proof. unfold bump_prof, zlen. by rewrite length_alter. Qed.
(** The labels of a series. *)
Definition labels_of s : Z * Z * Z := (sr_dim s, sr_proto s, sr_code s).
Definition add_gain (g : Z * Z * Z -> bool) (lab : Z * Z * Z) (n : Z) : Z := if g lab then n else 0.
Lemma marginal_set g i h x s s' n : h !! x = Some s -> key_of s' = key_of s -> eq64 (figure i s') (figure i s + n) -> eq64 (marginal g i (<[x := s']> h)) (marginal g i h + add_gain g (labels_of s) n).
Proof.
  intros Hx Ek E. unfold marginal, add_gain, labels_of. rewrite (hsum_set _ h x s s') by done. injection Ek as _ -> -> ->. destruct (g _); [|unfold eq64; f_equal; lia].
  rewrite <- Z.add_sub_swap. match goal with |- eq64 (?a + ?b - ?c) _ => replace (a + b - c) with (a - c + b) by lia; assert (eq64 (a - c + b) (a - c + (c + n))) as -> by (by rewrite E) end. unfold eq64. f_equal. lia.
Qed.
Lemma observe_series_spec r S o l x s : reg_ok r S -> obs_ok o -> rg_heap r !! x = Some s -> exists r', observe_series r o (profile_at (obs_profile o)) (obs_profile o) l (obs_qcode o) x = Some r' /\ reg_ok r' S /\ abs r' S = abs r S /\ consts r' = consts r /\
  rg_total_obs r' = (if ro_has_duration o then bump_prof (obs_profile o) (rg_total_obs r) else rg_total_obs r) /\
  (rg_oom r = [] -> rg_oom r' = [] /\ forall g i, eq64 (marginal g i (rg_heap r')) (marginal g i (rg_heap r) + add_gain g (labels_of s) (gain (rg_first_row r) o i))).
Proof.
  intros K (O1 & O2 & O3 & O4) Hx. assert (0 <= obs_qcode o) as Hq by (unfold obs_qcode; destruct (_ <? _); lia). unfold gain. set (pf := profile_at (obs_profile o)). unfold observe_series. rewrite Hx. cbn [mbind option_bind]. pose proof (hk_series _ _ (rk_heap _ _ K) x s Hx) as Hs.
  destruct (counts_spec r r o pf (obs_qcode o) s Hs Hq O4) as (s1 & oom & -> & Ek1 & Hs1 & Hf1). destruct (ro_has_duration o); cbn [negb].
  - set (r1 := if l =? _ then _ else _). assert (exists oth, r1 = r <| rg_oom := oom |> <| rg_total_obs := bump_prof (obs_profile o) (rg_total_obs r) |> <| rg_other_obs := oth |>) as (oth & ->) by (subst r1; destruct (l =? _); eexists; [done|]; by destruct r).
    match goal with |- context [observe_duration ?u _ _ _] => destruct (duration_spec r u o pf s1 Hs1) as (s2 & oom' & -> & Ek2 & Hs2 & Hf2) end. assert (heap_ok (r <| rg_heap := <[x := s2]> (rg_heap r) |>) (slots r)) as H by (apply (set_ok r _ (rk_heap _ _ K) x s s2); [done|congruence|done]).
    destruct (record_ok r S _ oom' (bump_prof (obs_profile o) (rg_total_obs r)) oth K H (bump_len _ _)) as [R1 R2]. eexists. split; [reflexivity|]. split; [exact R1|]. split; [exact R2|]. split; [done|]. split; [done|]. intros E. destruct (Hf1 E) as [-> G1]. destruct (Hf2 eq_refl) as [-> G2]. split; [done|]. intros g i. apply marginal_set; [done|congruence|]. by rewrite G2, G1, Z.add_assoc.
  - assert (heap_ok (r <| rg_heap := <[x := s1]> (rg_heap r) |>) (slots r)) as H by (by apply (set_ok r _ (rk_heap _ _ K) x s s1)). destruct (record_ok r S _ oom (rg_total_obs r) (rg_other_obs r) K H eq_refl) as [R1 R2].
    exists (record_in r (<[x := s1]> (rg_heap r)) oom (rg_total_obs r) (rg_other_obs r)). split; [by destruct r|]. split; [exact R1|]. split; [exact R2|]. split; [done|]. split; [done|]. intros E. destruct (Hf1 E) as [-> G1]. split; [done|]. intros g i. rewrite Z.add_0_r. by apply marginal_set.
Qed.
(** Whether an observation reaches a series, the dictionary it leaves and its labels. *)
Definition recorded o : bool := let pf := profile_at (obs_profile o) in negb (ro_internal o && has_family pf RF_INTERNAL) && (ro_has_duration o || has_family pf RF_TOTAL).
Definition spec_observe (k label_len : Z) (a : qdict) o : qdict :=
  if recorded o then
    match ro_label o with
    | Some label => if ro_force_other o then a else (spec_resolve k label_len a (ro_fp o) label (ro_op o)).2
    | None => a
    end
  else a.
Definition obs_labels r o : Z * Z * Z :=
  ((intern_dim r (default [] (ro_db o)) (default [] (ro_user o))).1, (intern_proto r (ro_proto o) (obs_profile o)).1, u8 (ro_dcode o)).
Lemma series_get_ok r S (l d p c : Z) : reg_ok r S -> l ∈ S \/ l = rg_k r -> 0 <= d <= rg_max_dims r -> 0 <= p <= LK_MAX_PROTOS -> 0 <= c < 256 -> exists (x : option ptr) r', series_get r l d p c = (x, r') /\ reg_ok r' S /\ abs r' S = abs r S /\ consts r' = consts r /\ rg_total_obs r' = rg_total_obs r /\
  (rg_oom r = [] -> rg_oom r' = [] /\ x <> None /\ conserved r r') /\ match x with Some x => exists s, rg_heap r' !! x = Some s /\ labels_of s = (d, p, c) | None => True end.
Proof.
  intros K Hl Hd Hp Hc. pose proof (rk_k _ _ K) as Hk. pose proof (rk_len _ _ K) as Hlen. assert (0 <= l <= rg_k r) as Hr by (destruct Hl as [Hl|]; [pose proof (slot_used _ _ _ K Hl)|]; lia). destruct (get_spec r (slots r) l d p c (rk_heap _ _ K)) as (x & r' & pre & E & Ed & Ef & H & Es & Eo & Hx); [unfold in_entries; lia|done|].
  destruct (reg_store r r' S Ed) as [R1 R2]; [refine (series_heap_ext r' _ _ _ eq_refl _ H); intros i Hi; apply Es; lia| |apply (flat_ext r); [done|apply K]|done|].
  { intros i Hi. destruct (slot_free _ _ _ K Hi) as [Hi1 Hi2]. rewrite Es by lia. unfold q_pre. destruct (Z.eqb_spec i l) as [->|]; [destruct Hl; [done|lia]|]. by apply (rk_empty _ _ K). }
  exists x, r'. split; [done|]. split; [done|]. split; [done|]. injection Ed as D1 D2 _ _ _ _ _ _ _. injection Ef as F1 F2 _ _ _ _ _ _ _ _ _ _ _ F3 _ _ _. split; [unfold consts; congruence|]. split; [done|]. split.
  - intros E0. destruct (Eo E0) as [Eo1 Eo2]. split; [done|]. split; [done|]. apply (get_conserved r r' x). destruct x as [x|]; [|done]. destruct Hx as (s & Hs & _ & Hx). by exists s.
  - destruct x as [x|]; [|done]. destruct Hx as (s & Hs & Ek & _). exists s. split; [done|]. injection Ek as _ <- <- <-. done.
Qed.
Lemma observe_slot_spec r S o (d p : Z) : reg_ok r S -> obs_ok o -> 0 <= d <= rg_max_dims r -> 0 <= p <= LK_MAX_PROTOS -> recorded o = true -> exists r' S', observe_slot r o (profile_at (obs_profile o)) (obs_profile o) d p (obs_qcode o) = Some r' /\ reg_ok r' S' /\
  abs r' S' = spec_observe (rg_k r) (rg_label_len r) (abs r S) o /\ consts r' = consts r /\
  (rg_oom r = [] -> rg_oom r' = [] /\ rg_total_obs r' = (if ro_has_duration o then bump_prof (obs_profile o) (rg_total_obs r) else rg_total_obs r) /\ forall g i, eq64 (marginal g i (rg_heap r')) (marginal g i (rg_heap r) + add_gain g (d, p, u8 (ro_dcode o)) (gain (rg_first_row r) o i))).
Proof.
  intros K Ho Hd Hp Hrec. unfold observe_slot, spec_observe. rewrite Hrec. set (q := match ro_label o with Some _ => _ | None => _ end). set (a := match ro_label o with Some _ => _ | None => abs r S end).
  assert (exists l r1 S1, q = Some (l, r1) /\ reg_ok r1 S1 /\ flat r1 = flat r /\ rg_k r1 = rg_k r /\ rg_label_len r1 = rg_label_len r /\ (rg_oom r = [] -> rg_oom r1 = [] /\ conserved r r1) /\ abs r1 S1 = a /\ (l ∈ S1 \/ l = rg_k r1)) as (l & r1 & S1 & -> & K1 & F1 & Ek1 & El1 & O1 & A1 & Hl1).
  { subst q a. destruct (ro_label o) as [label|]; [destruct (ro_force_other o)|]; [exists (rg_k r), r, S; do 7 (split; [done|]); by right| |exists (rg_k r), r, S; do 7 (split; [done|]); by right].
    destruct (resolve_spec r S (ro_fp o) label (ro_op o) K) as (l & r1 & S1 & -> & K1 & F1 & Ek1 & El1 & O1 & A1). exists l, r1, S1. do 6 (split; [done|]). destruct (spec_resolve _ _ _ _ _ _) as [known a]. destruct A1 as [A1 A2]. split; [done|]. destruct known; [|right; congruence]. destruct A2 as (S0 & -> & _). left. left. }
  cbn [mbind option_bind]. injection F1 as E1 E2 _ _ _ _ _ _ _ _ _ _ _ E3 _ _ _. destruct (series_get_ok r1 S1 l d p (u8 (ro_dcode o)) K1 Hl1) as (x & r2 & -> & K2 & A2 & C2 & T2 & O2 & Hx); [by rewrite E1|done|apply u8_range|]. injection C2 as D1 D2 D3 D4. destruct x as [x|].
  - destruct Hx as (s & Hs & Els). destruct (observe_series_spec r2 S1 o l x s K2 Ho Hs) as (r3 & -> & K3 & A3 & C3 & T3 & O3). exists r3, S1. split; [done|]. split; [done|]. split; [congruence|]. split; [injection C3 as X1 X2 X3 X4; unfold consts; congruence|]. intros E. destruct (O1 E) as [E' Cv1]. destruct (O2 E') as (E'' & _ & Cv2). destruct (O3 E'') as [E''' Cv3]. split; [done|]. split; [by rewrite T3, T2, E3|].
    intros g i. rewrite (Cv3 g i), (Cv2 g i), (Cv1 g i), Els, D4, E2. done.
  - exists r2, S1. split; [done|]. split; [done|]. split; [congruence|]. split; [unfold consts; congruence|]. intros E. destruct (O1 E) as [E' _]. by destruct (O2 E') as (_ & ? & _).
Qed.
Lemma observe_spec r S o : reg_ok r S -> obs_ok o -> exists r' S', lk_reg_observe r o = Some r' /\ reg_ok r' S' /\ abs r' S' = spec_observe (rg_k r) (rg_label_len r) (abs r S) o /\ consts r' = consts r /\
  (rg_oom r = [] -> rg_oom r' = [] /\ rg_total_obs r' = (if recorded o && ro_has_duration o then bump_prof (obs_profile o) (rg_total_obs r) else rg_total_obs r) /\
    forall g i, eq64 (marginal g i (rg_heap r')) (marginal g i (rg_heap r) + if recorded o then add_gain g (obs_labels r o) (gain (rg_first_row r) o i) else 0)).
Proof.
  intros K Ho. unfold lk_reg_observe. set (prof := obs_profile o). set (pf := profile_at prof). set (r0 := r <| rg_used ::= _ |>). assert (aside r r0) as A0 by done. assert (flat_ok r0) as F0 by (destruct (rk_flat _ _ K); by split). assert (rg_dims r0 = rg_dims r /\ rg_protos r0 = rg_protos r) as [Ed0 Ep0] by done. clearbody r0.
  assert (forall r', aside r r' -> flat_ok r' -> rg_max_dims r' = rg_max_dims r -> recorded o = false -> exists r'' S', Some r' = Some r'' /\ reg_ok r'' S' /\ abs r'' S' = spec_observe (rg_k r) (rg_label_len r) (abs r S) o /\ consts r'' = consts r /\
    (rg_oom r = [] -> rg_oom r'' = [] /\ rg_total_obs r'' = (if recorded o && ro_has_duration o then bump_prof prof (rg_total_obs r) else rg_total_obs r) /\ forall g i, eq64 (marginal g i (rg_heap r'')) (marginal g i (rg_heap r) + if recorded o then add_gain g (obs_labels r o) (gain (rg_first_row r) o i) else 0))) as Hstop.
  { intros r' A F Em Hrec. destruct (aside_ok r r' S A F K) as [K' A']. exists r', S. split; [done|]. split; [done|]. unfold spec_observe. rewrite Hrec. split; [done|]. destruct A as (D & St & _ & O & Fr & T). injection D as D1 D2 _ _ _ _ _ _ _. injection St as _ _ Eh _ _ _. split; [unfold consts; congruence|]. intros E. split; [congruence|]. split; [done|]. intros g i. by rewrite Eh, Z.add_0_r. }
  destruct (ro_internal o && has_family pf RF_INTERNAL) eqn:Eint; [apply Hstop; [exact A0|by destruct F0|by destruct A0 as (_ & St & _); injection St|unfold recorded; fold prof pf; by rewrite Eint]|].
  destruct (intern_dim_spec r0 (default [] (ro_db o)) (default [] (ro_user o)) F0) as (d & r1 & E1 & Hd & A1 & F1 & P1). rewrite E1. destruct (intern_proto_spec r1 (ro_proto o) prof F1) as (p & r2 & E2 & Hp & A2 & F2). rewrite E2. destruct (flat_spec r2 o pf prof d p (obs_kind o) (obs_qcode o) F2) as [A3 F3]; [by rewrite (aside_dims _ _ A2), (aside_dims _ _ A1)|done|by apply (obs_ranges o Ho)..|]. set (r3 := observe_flat _ _ _ _ _ _ _ _) in *. clearbody r3.
  assert (aside r r3) as A by (apply (aside_trans r r0); [done|]; apply (aside_trans r0 r1); [done|]; by apply (aside_trans r1 r2)). assert (rg_max_dims r0 = rg_max_dims r) as Em0 by (destruct A0 as (_ & St & _); by injection St). assert (rg_max_dims r3 = rg_max_dims r) as Em3 by (destruct A as (_ & St & _); by injection St).
  destruct (negb (ro_has_duration o) && negb (has_family pf RF_TOTAL)) eqn:Estop; [apply Hstop; [done|done|done|unfold recorded; fold prof pf; rewrite Eint; cbn; by rewrite <- negb_orb, negb_true_iff in Estop]|].
  assert (recorded o = true) as Hrec by (unfold recorded; fold prof pf; rewrite Eint; cbn; by rewrite <- negb_orb, negb_false_iff in Estop). destruct (aside_ok r r3 S A F3 K) as [K3 A3']. assert (obs_labels r o = (d, p, u8 (ro_dcode o))) as El.
  { unfold obs_labels. fold prof. f_equal; f_equal.
    - assert ((intern_dim r (default [] (ro_db o)) (default [] (ro_user o))).1 = (intern_dim r0 (default [] (ro_db o)) (default [] (ro_user o))).1) as ->; [|by rewrite E1]. unfold intern_dim. rewrite Ed0, Em0. destruct (index_of _ _); [done|]. by destruct (_ <=? _).
    - assert ((intern_proto r (ro_proto o) prof).1 = (intern_proto r1 (ro_proto o) prof).1) as ->; [|by rewrite E2]. unfold intern_proto. rewrite P1, Ep0. destruct (index_of _ _); [done|]. by destruct (_ <=? _). }
  destruct (observe_slot_spec r3 S o d p K3 Ho) as (r4 & S4 & E4 & K4 & A4 & C4 & O4); [lia|done|done|]. change (observe_slot r3 o pf prof d p (obs_qcode o) = Some r4) in E4. rewrite E4. exists r4, S4. split; [done|]. split; [done|]. destruct A as (D & St & _ & O & Fr & T). injection D as D1 D2 _ _ _ _ _ _ _. injection St as _ _ Eh _ _ _. split; [congruence|]. split; [injection C4 as X1 X2 X3 X4; unfold consts; congruence|].
  intros E. destruct (O4 ltac:(congruence)) as (O5 & T5 & M5). split; [done|]. rewrite Hrec. cbn [andb]. split; [by rewrite T5, T|]. intros g i. by rewrite (M5 g i), Eh, El, Fr.
Qed.

(** ** A new registry *)
Lemma pow2_spec (x : Z) : x <= 2 ^ 31 -> forall fuel e, 0 <= e <= 31 -> 31 - e < Z.of_nat fuel -> exists e', e <= e' <= 31 /\ pow2_from fuel (2 ^ e) x = Some (2 ^ e') /\ x <= 2 ^ e'.
Proof.
  intros Hx fuel. induction fuel as [|fuel IH]; intros e He Hf; [lia|]. cbn [pow2_from]. destruct (Z.ltb_spec (2 ^ e) x) as [Hlt|]; [|by exists e; split; [lia|]]. assert (e < 31) as He' by (destruct (Z.eq_dec e 31) as [->|]; lia).
  assert (u32 (Z.shiftl (2 ^ e) 1) = 2 ^ (e + 1)) as ->. { rewrite Z.shiftl_mul_pow2, Z.pow_add_r by lia. apply u32_small. pose proof (Z.pow_pos_nonneg 2 e). pose proof (Z.pow_lt_mono_r 2 e 31). lia. }
  destruct (IH (e + 1)) as (e' & ? & ? & ?); [lia|lia|]. exists e'. split; [lia|done].
Qed.
Lemma next_pow2_spec (x : Z) : x <= 2 ^ 31 -> exists e, 0 <= e <= 31 /\ next_pow2 x = Some (2 ^ e) /\ x <= 2 ^ e.
Proof. intros Hx. destruct (pow2_spec x Hx 33 0) as (e & He & E & Hle); [lia|lia|]. by exists e. Qed.
(** The configuration as the agent accepts it: unsigned fields, a dictionary of at most 2^29 entries. *)
Definition cfg_ok (cfg : option lk_metrics_cfg) : Prop :=
  let c := default lk_metrics_cfg_defaults cfg in 0 <= mc_top_queries c <= 2 ^ 29 /\ 0 <= mc_query_label_len c /\ 0 <= mc_max_session_dims c.
Lemma cell_replicate n i : MetRegHeap.cell (replicate n (-1)) i = -1.
Proof. unfold MetRegHeap.cell. generalize (Z.to_nat i) as j. induction n as [|n IH]; intros [|j]; cbn; [done..|apply IH]. Qed.
Lemma nth_rep {A} (a : A) n i : nth i (replicate n a) a = a.
Proof. revert i. induction n as [|n IH]; intros [|i]; cbn; [done..|apply IH]. Qed.
Lemma bucket_init c hcap nb oom clock (i : Z) : bucket_at (reg_init c hcap nb oom clock) i = [].
Proof. unfold bucket_at. apply nth_rep. Qed.
Lemma reg_init_ok c hcap nb oom clock : 1 <= mc_top_queries c <= 2 ^ 29 -> 0 <= mc_max_session_dims c -> 2 * mc_top_queries c + 2 <= hcap -> (exists e, 0 <= e <= 31 /\ hcap = 2 ^ e) -> (exists e, 0 <= e <= 31 /\ nb = 2 ^ e) -> reg_ok (reg_init c hcap nb oom clock) [].
Proof.
  intros Hk Hm Hcap He1 He2. assert (0 <= nb) as Hnb by (destruct He2 as (e & He & ->); pose proof (Z.pow_pos_nonneg 2 e); lia). assert (forall l, slots (reg_init c hcap nb oom clock) l = []) as Es by (intros l; unfold slots, entry_at; cbn [reg_init rg_entries]; by rewrite nth_rep).
  split; cbn [reg_init rg_k rg_entries rg_fp_hcap rg_free rg_door]; [lia|unfold zlen; rewrite length_replicate; lia|done|done| | | |intros l _; apply Es|done|].
  - split; [done| |unfold zlen; cbn [length reg_init rg_fp_hcap]; lia|constructor|by intros ? ? ?%not_elem_of_nil]. split; cbn [reg_init rg_fp_hcap rg_fp_hash].
    + unfold zlen. rewrite length_replicate. lia.
    + constructor.
    + intros i _. left. apply cell_replicate.
    + by intros ? ?%not_elem_of_nil.
    + intros i j _ _ H. rewrite cell_replicate in H. lia.
    + intros i p _ _ _ H. rewrite cell_replicate in H. lia.
  - split; [done|done|done|constructor|constructor].
  - assert (rg_heap (reg_init c hcap nb oom clock) = ∅) as Eh by done. assert (zlen (rg_sbuckets (reg_init c hcap nb oom clock)) = nb) as El by (unfold zlen; cbn [reg_init rg_sbuckets]; rewrite length_replicate; lia). split; rewrite ?El, ?Eh; [done| | | | | | | |done].
    + intros b x _. rewrite bucket_init. split; [by intros ?%not_elem_of_nil|intros (s & Hs & _); by rewrite lookup_empty in Hs].
    + intros b _. rewrite bucket_init. constructor.
    + intros l x _. rewrite Es. split; [by intros ?%not_elem_of_nil|intros (s & Hs & _); by rewrite lookup_empty in Hs].
    + intros l _. rewrite Es. constructor.
    + intros x y s d Hs. by rewrite lookup_empty in Hs.
    + intros x Hx. rewrite lookup_empty in Hx. by destruct Hx.
    + intros x s Hs. by rewrite lookup_empty in Hs.
  - split; [done|done|done|done|done| |done|done|]; [cbn; repeat constructor; done|]. intros _. split; [|split]; intros i [x Hx]; cbn in Hx; by rewrite lookup_empty in Hx.
Qed.
Lemma alloc_n_nil n : alloc_n n [] = (true, []).
Proof. induction n as [|n IH]; cbn; [done|]. by rewrite IH. Qed.
Lemma new_spec cfg oom clock : cfg_ok cfg -> exists res, lk_reg_new cfg oom clock = Some res /\ (oom = [] -> res <> None) /\ forall r, res = Some r -> exists hcap nb oom', r = reg_init (cfg_clamp cfg) hcap nb oom' clock /\ reg_ok r [] /\ (oom = [] -> oom' = []).
Proof.
  intros (C1 & C2 & C3). unfold lk_reg_new. set (c := cfg_clamp cfg). set (k := mc_top_queries c). assert (1 <= k <= 2 ^ 29) as Hk by (subst k c; cbn; destruct (Z.eqb_spec (mc_top_queries (default lk_metrics_cfg_defaults cfg)) 0); unfold LK_TOP_QUERIES_DEFAULT; lia).
  assert (0 <= mc_max_session_dims c) as Hm by (subst c; cbn; destruct (_ =? 0); unfold LK_MAX_SESSION_DIMS_DEFAULT; lia). destruct (next_pow2_spec (u32 (u32 (k + 1) * 2))) as (e1 & He1 & E1 & Hle1); [rewrite !u32_small by (rewrite ?u32_small; lia); lia|]. destruct (next_pow2_spec (u32 (k * 4))) as (e2 & He2 & E2 & Hle2); [rewrite u32_small by lia; lia|].
  rewrite !u32_small in Hle1 by (rewrite ?u32_small; lia). assert (exists e, 0 <= e <= 31 /\ (if 2 ^ e2 <? 1024 then 1024 else 2 ^ e2) = 2 ^ e) as He3 by (destruct (_ <? _); [by exists 10|by exists e2]). destruct (alloc oom) as [ok oom1] eqn:Ea. destruct ok; cbn [negb]; [|exists None; split; [done|]; split; [intros ->; done|done]].
  rewrite E1, E2. cbn [mbind option_bind]. destruct (alloc_n 10 oom1) as [ok oom2] eqn:En. assert (oom = [] -> ok = true /\ oom2 = []) as Ho by (intros ->; injection Ea as <-; rewrite alloc_n_nil in En; by injection En). destruct ok; cbn [negb]; [|exists None; split; [done|]; split; [intros E; by destruct (Ho E)|done]].
  eexists. split; [reflexivity|]. split; [done|]. intros r [= <-]. eexists _, _, _. split; [reflexivity|]. split; [|intros E; by destruct (Ho E)]. apply reg_init_ok; [done|done|lia|by exists e1|done].
Qed.

(** ** Runs *)
Inductive reg_ev := EObs (o : lk_reg_obs) | ETxn (db user proto : option cstring) (profile : Z) (aborted : bool) (dur : double).
Definition reg_step r (e : reg_ev) : option lk_registry :=
  match e with EObs o => lk_reg_observe r o | ETxn db user proto profile aborted dur => Some (lk_reg_observe_txn r db user proto profile aborted dur) end.
Fixpoint reg_run r (es : list reg_ev) : option lk_registry := match es with [] => Some r | e :: es => r ← reg_step r e; reg_run r es end.
Definition ev_ok (e : reg_ev) : Prop := match e with EObs o => obs_ok o | ETxn _ _ _ _ _ _ => True end.
Definition spec_ev (k label_len : Z) (a : qdict) (e : reg_ev) : qdict := match e with EObs o => spec_observe k label_len a o | ETxn _ _ _ _ _ _ => a end.
(** What an event adds to figure [i] under any labels, and to the timed observations. *)
Definition ev_gain (first_row : bool) (i : nat) (e : reg_ev) : Z := match e with EObs o => if recorded o then gain first_row o i else 0 | ETxn _ _ _ _ _ _ => 0 end.
Definition ev_timed (e : reg_ev) : bool := match e with EObs o => recorded o && ro_has_duration o | ETxn _ _ _ _ _ _ => false end.
Definition all_labels : Z * Z * Z -> bool := fun _ => true.
Lemma txn_spec r S db user proto profile aborted dur : reg_ok r S -> aside r (lk_reg_observe_txn r db user proto profile aborted dur) /\ flat_ok (lk_reg_observe_txn r db user proto profile aborted dur).
Proof.
  intros K. unfold lk_reg_observe_txn. destruct (intern_dim_spec r (default [] db) (default [] user) (rk_flat _ _ K)) as (d & r1 & -> & Hd & A1 & F1 & _). destruct (intern_proto_spec r1 proto (if profile <? LK_N_PROFILES then profile else LK_PROF_QUERY) F1) as (p & r2 & -> & Hp & A2 & F2). split; [exact (aside_trans r r1 r2 A1 A2)|].
  assert (0 <= d <= rg_max_dims r2) as Hd' by (rewrite (aside_dims _ _ A2), (aside_dims _ _ A1); done). destruct F2 as [G1 G2 G3 G4 G5 G6 G7 G8 G9]. split; try done. intros Hm. destruct (G9 Hm) as (W1 & W2 & W3). split; [done|]. split; [done|]. exact (touch_within _ _ _ _ (txn_within r2 d p aborted Hd' Hm Hp) W3).
Qed.
Lemma zsum_bump_prof (prof : Z) l : zlen l = 4 -> 0 <= prof < 4 -> eq64 (zsum (bump_prof prof l)) (zsum l + 1).
Proof.
  intros Hl Hp. unfold bump_prof, zlen in *. pose proof (zsum_bump (Z.to_nat prof) l 4 0 ltac:(lia) ltac:(lia)) as H. unfold ztake in H. rewrite !take_ge in H by (rewrite ?length_alter; lia). destruct (Z.ltb_spec (Z.of_nat (Z.to_nat prof)) 4); [|lia]. exact H.
Qed.
Lemma step_spec r S e : reg_ok r S -> ev_ok e -> exists r' S', reg_step r e = Some r' /\ reg_ok r' S' /\ abs r' S' = spec_ev (rg_k r) (rg_label_len r) (abs r S) e /\ consts r' = consts r /\
  (rg_oom r = [] -> rg_oom r' = [] /\ eq64 (zsum (rg_total_obs r')) (zsum (rg_total_obs r) + Z.b2z (ev_timed e)) /\ forall i, eq64 (marginal all_labels i (rg_heap r')) (marginal all_labels i (rg_heap r) + ev_gain (rg_first_row r) i e)).
Proof.
  intros K Ho. destruct e as [o|db user proto profile aborted dur].
  - destruct (observe_spec r S o K Ho) as (r' & S' & E & K' & A & C & G). exists r', S'. split; [done|]. split; [done|]. split; [done|]. split; [done|]. intros E0. destruct (G E0) as (G1 & G2 & G3). split; [done|]. split; [|intros i; rewrite (G3 all_labels i); cbn [ev_gain]; unfold add_gain; by destruct (recorded o)].
    rewrite G2. cbn [ev_timed]. destruct (_ && _); [|by rewrite Z.add_0_r]. apply zsum_bump_prof; [apply (fk_total _ (rk_flat _ _ K))|]. destruct Ho as (H1 & _). unfold obs_profile, LK_N_PROFILES, LK_PROF_QUERY. destruct (Z.ltb_spec (ro_profile o) 4); lia.
  - destruct (txn_spec r S db user proto profile aborted dur K) as [A F]. destruct (aside_ok _ _ S A F K) as [K' A']. destruct A as (D & St & _ & O & Fr & T). injection D as D1 D2 _ _ _ _ _ _ _. injection St as _ Em Eh _ _ _. eexists _, S. split; [reflexivity|]. split; [done|]. split; [done|]. split; [unfold consts; congruence|]. intros E0. split; [congruence|]. rewrite T, Eh. split; [by rewrite Z.add_0_r|]. intros i. by rewrite Z.add_0_r.
Qed.
Lemma reg_run_spec es : forall r S, reg_ok r S -> Forall ev_ok es -> exists r' S', reg_run r es = Some r' /\ reg_ok r' S' /\ abs r' S' = foldl (spec_ev (rg_k r) (rg_label_len r)) (abs r S) es /\ consts r' = consts r /\
  (rg_oom r = [] -> rg_oom r' = [] /\ eq64 (zsum (rg_total_obs r')) (zsum (rg_total_obs r) + zlen (List.filter ev_timed es)) /\ forall i, eq64 (marginal all_labels i (rg_heap r')) (marginal all_labels i (rg_heap r) + zsum (map (ev_gain (rg_first_row r) i) es))).
Proof.
  induction es as [|e es IH]; intros r S K H; [exists r, S; cbn; split; [done|]; split; [done|]; split; [done|]; split; [done|]; intros E; split; [done|]; split; [by rewrite Z.add_0_r|]; intros i; by rewrite Z.add_0_r|].
  inversion_clear H as [|? ? He Hes]. destruct (step_spec r S e K He) as (r1 & S1 & E1 & K1 & A1 & C1 & G1). destruct (IH r1 S1 K1 Hes) as (r2 & S2 & E2 & K2 & A2 & C2 & G2). injection C1 as X1 X2 X3 X4. rewrite X1, X2, A1 in A2. rewrite X4 in G2. exists r2, S2. cbn [reg_run]. rewrite E1. cbn [mbind option_bind]. split; [done|]. split; [done|]. split; [done|]. split; [injection C2 as ? ? ? ?; unfold consts; congruence|].
  intros E. destruct (G1 E) as (O1 & T1 & M1). destruct (G2 O1) as (O2 & T2 & M2). split; [done|]. split.
  - rewrite T2, T1. cbn [List.filter]. unfold eq64. f_equal. destruct (ev_timed e); [rewrite zlen_cons|]; cbn [Z.b2z]; lia.
  - intros i. rewrite (M2 i), (M1 i). cbn [map zsum foldr]. fold (zsum (map (ev_gain (rg_first_row r) i) es)). unfold eq64. f_equal. lia.
Qed.
