(* ===== verification/MetRegClaims.v ===== *)
(** What the registry promises: bounded whatever it is shown, nothing lost on the way, the
    dictionary of the specification. *)
From Stdlib Require Import Floats.SpecFloat Ascii String.
From stdpp Require Import base list gmap option.
From S2P Require Import Prelude Conn Proto Hist MetReg MetRegHeap MetRegRun.
#[local] Open Scope Z_scope.
Implicit Types (r : lk_registry) (S : list Z) (o : lk_reg_obs) (es : list reg_ev).

(** ** Cardinality *)
Definition key_space r : list (Z * Z * Z * Z) := list_prod (list_prod (list_prod (seqZ 0 (rg_k r + 1)) (seqZ 0 (rg_max_dims r + 1))) (seqZ 0 9)) (seqZ 0 256).
Lemma key_space_len r : 0 <= rg_k r -> 0 <= rg_max_dims r -> zlen (key_space r) = (rg_k r + 1) * (rg_max_dims r + 1) * 9 * 256.
Proof. intros. unfold zlen, key_space. rewrite !length_prod, !length_seqZ, !Nat2Z.inj_mul, !Z2Nat.id by lia. done. Qed.
Lemma heap_size r q : heap_ok r q -> 0 <= rg_k r -> 0 <= rg_max_dims r -> Z.of_nat (size (rg_heap r)) <= (rg_k r + 1) * (rg_max_dims r + 1) * 9 * 256.
Proof.
  intros K Hk Hm. rewrite <- key_space_len by done. rewrite <- length_map_to_list, <- (length_map (fun p => key_of p.2)). unfold zlen. apply inj_le, submseteq_length, NoDup_submseteq.
  - apply (NoDup_fmap_2_strong (fun p : ptr * series => key_of p.2)); [|apply NoDup_map_to_list]. intros [x s] [y d] Hx Hy E. apply elem_of_map_to_list in Hx, Hy. cbn in E. assert (x = y) as <- by (by apply (hk_inj _ _ K x y s d)). congruence.
  - intros v Hv. apply list_elem_of_In, in_map_iff in Hv as ([x s] & <- & Hin). apply list_elem_of_In, elem_of_map_to_list in Hin. destruct (so_key _ _ (hk_series _ _ K x s Hin)) as (H1 & H2 & H3 & H4). unfold LK_MAX_PROTOS in H3. apply list_elem_of_In. unfold key_space, key_of. cbn [snd]. repeat apply in_prod; apply list_elem_of_In, elem_of_seqZ; lia.
Qed.
Lemma delete_all l : forall h : gmap ptr series, (forall x, is_Some (h !! x) -> x ∈ l) -> foldl (fun h x => delete x h) h l = ∅.
Proof.
  induction l as [|y l IH]; intros h H; cbn [foldl].
  - apply map_empty. intros x. destruct (h !! x) as [s|] eqn:E; [|done]. by specialize (H x ltac:(by rewrite E)) as ?%not_elem_of_nil.
  - apply IH. intros x [s Hx]. apply lookup_delete_Some in Hx as [Hne Hx]. specialize (H x ltac:(by rewrite Hx)). apply elem_of_cons in H as [->|]; done.
Qed.
Lemma free_all r q : heap_ok r q -> lk_reg_free r = ∅.
Proof.
  intros K. apply delete_all. intros x [s Hx]. rewrite (chains_perm r q K). apply list_elem_of_fmap. exists (x, s). split; [done|]. by apply elem_of_map_to_list.
Qed.
Lemma count_sum r q : heap_ok r q -> lk_reg_series_count_sum r = u64 (marginal all_labels 0 (rg_heap r)).
Proof. intros K. unfold lk_reg_series_count_sum. rewrite foldl_add64 by (split; lia). rewrite Z.add_0_l. f_equal. apply (hsum_list (fun s => h_count (sr_dur s)) (rg_heap r)). by apply (chains_perm r q). Qed.
Lemma has_fp_cards r S fp : reg_ok r S -> lk_reg_has_fp r fp = Some (existsb (has_fp fp) (map (card r) S)).
Proof.
  intros K. unfold lk_reg_has_fp. assert (existsb (has_fp fp) (map (card r) S) = existsb (fun l => fp_of r l =? fp) S) as -> by (induction S as [|l S IH] in |- *; cbn; [done|]; by rewrite IH).
  destruct (fp_find_spec r S (rk_hash _ _ K) fp) as [(l & Hl & Ef & ->)|[-> Hn]]; cbn [mbind option_bind]; f_equal.
  - pose proof (slot_used _ _ _ K Hl). destruct (Z.leb_spec 0 l); [|lia]. symmetry. apply existsb_exists. exists l. split; [by apply list_elem_of_In|]. by apply Z.eqb_eq.
  - destruct (existsb _ _) eqn:E; [|done]. apply existsb_exists in E as (l & Hl & El). apply list_elem_of_In in Hl. apply Z.eqb_eq in El. by destruct (Hn l Hl).
Qed.

Lemma gain_timed first_row es : zsum (map (ev_gain first_row 0) es) = zlen (List.filter ev_timed es).
Proof.
  assert (forall e l, zsum (e :: l) = e + zsum l) as Hz by done. induction es as [|e es IH]; [done|]. cbn [map List.filter]. rewrite Hz, IH. assert (ev_gain first_row 0 e = Z.b2z (ev_timed e)) as ->; [|destruct (ev_timed e); [rewrite zlen_cons|]; cbn [Z.b2z]; lia].
  destruct e as [o|]; [|done]. cbn [ev_gain ev_timed]. destruct (recorded o); [|done]. unfold gain. by destruct (ro_has_duration o).
Qed.

(** ** Examples *)
Definition half : double := S754_finite false 4503599627370496 (-53).
Definition w_obs (fp : Z) (label : cstring) (dur : bool) : lk_reg_obs :=
  RegObs fp (Some label) None (Some (lit "shop")) (Some (lit "app")) (Some (lit "pg")) LK_PROF_QUERY 0 0 0 false false dur 0 half 3 false zero false zero false 0 10 20 false None 0 false zero false 0.
Definition w_http (fp : Z) (label : cstring) : lk_reg_obs :=
  RegObs fp (Some label) (Some (lit "GET")) (Some (lit "web")) None (Some (lit "http")) LK_PROF_HTTP 0 0 2 false false true 0 half 0 true half true half true 512 100 2000 false None 0 false zero false 0.
Definition w_cfg : option lk_metrics_cfg := Some (MetricsCfg 2 40 3 true).
Definition w_es : list reg_ev :=
  [EObs (w_obs 11 (lit "select a") true); EObs (w_http 22 (lit "/x")); EObs (w_obs 33 (lit "select b") true); ETxn (Some (lit "shop")) None None 0 false half; EObs (w_obs 33 (lit "select b") true); EObs (w_obs 11 (lit "select a") false); EObs (w_obs 11 (lit "select a") true); EObs (w_obs 11 (lit "select a") true)].
Lemma w_cfg_ok : cfg_ok w_cfg.
Proof. repeat split; vm_compute; discriminate. Qed.
Lemma w_es_ok : Forall ev_ok w_es.
Proof. unfold w_es. do 8 (apply List.Forall_cons; [first [exact I|repeat split; vm_compute; discriminate]|]). apply List.Forall_nil. Qed.
Definition w_new (cfg : option lk_metrics_cfg) : lk_registry := match lk_reg_new cfg [] [5; 6; 7] with Some (Some r) => r | _ => reg_init lk_metrics_cfg_defaults 0 0 [] [] end.

(** ** Safety *)
(** C16: The registry is bounded and never breaks.  Whatever it is shown, in any order, and
    whichever allocations fail, no probe of its hash tables, no eviction and no size
    computation runs forever or leaves its arrays; the hash, the recency list, the free
    stack and the chains of the series agree with each other afterwards; at most [k]
    queries, [max_dims] pairs of database and user and a fixed number of series per slot
    are ever kept; the flat arrays of counters and transaction histograms are touched only
    inside what was allocated for them (for fewer than [2^32 - 1] dimensions, where their
    number does not wrap); and freeing the registry leaves no series behind. *)
Theorem reg_safe cfg oom clock es : cfg_ok cfg -> Forall ev_ok es -> exists res, lk_reg_new cfg oom clock = Some res /\
  forall r, res = Some r -> exists r' S, reg_run r es = Some r' /\ reg_ok r' S /\ within r' /\ rg_k r' = mc_top_queries (cfg_clamp cfg) /\ 0 <= lk_reg_n_queries r' <= rg_k r' /\ lk_reg_n_dims r' <= mc_max_session_dims (cfg_clamp cfg) /\
    Z.of_nat (size (rg_heap r')) <= (rg_k r' + 1) * (mc_max_session_dims (cfg_clamp cfg) + 1) * 9 * 256 /\ lk_reg_n_series r' = u32 (Z.of_nat (size (rg_heap r'))) /\ lk_reg_free r' = ∅.
Proof.
  intros Hc Hes. destruct (new_spec cfg oom clock Hc) as (res & E & _ & H). exists res. split; [done|]. intros r Hr. destruct (H r Hr) as (hcap & nb & oom' & -> & K & _). destruct (reg_run_spec es _ [] K Hes) as (r' & S & Er & K' & _ & C & _). assert (rg_k r' = mc_top_queries (cfg_clamp cfg) /\ rg_max_dims r' = mc_max_session_dims (cfg_clamp cfg)) as [C1 C3] by (by injection C). exists r', S. split; [done|]. split; [done|]. split; [apply (rk_flat _ _ K')|]. split; [done|].
  pose proof (slots_len _ _ K') as Hl. pose proof (zlen_nonneg S). pose proof (zlen_nonneg (rg_free r')). pose proof (rk_k _ _ K') as Hk. pose proof (fk_max _ (rk_flat _ _ K')) as Hm. pose proof (heap_size _ _ (rk_heap _ _ K')). split; [unfold lk_reg_n_queries; lia|]. split; [rewrite <- C3; apply (fk_dims _ (rk_flat _ _ K'))|].
  split; [rewrite C3 in *; lia|]. split; [apply (hk_n _ _ (rk_heap _ _ K'))|]. by apply (free_all _ (slots r')), K'.
Qed.
Lemma reg_safe_witness : exists res, lk_reg_new w_cfg [false; true] [5] = Some res /\ forall r, res = Some r -> exists r' S, reg_run r w_es = Some r' /\ reg_ok r' S /\ within r' /\ rg_k r' = mc_top_queries (cfg_clamp w_cfg) /\ 0 <= lk_reg_n_queries r' <= rg_k r' /\ lk_reg_n_dims r' <= mc_max_session_dims (cfg_clamp w_cfg) /\
    Z.of_nat (size (rg_heap r')) <= (rg_k r' + 1) * (mc_max_session_dims (cfg_clamp w_cfg) + 1) * 9 * 256 /\ lk_reg_n_series r' = u32 (Z.of_nat (size (rg_heap r'))) /\ lk_reg_free r' = ∅.
Proof. apply (reg_safe w_cfg [false; true] [5] w_es); [exact w_cfg_ok|exact w_es_ok]. Defined.

(** ** Nothing lost *)
(** C14: Nothing is lost.  As long as memory lasts, the durations counted over all series,
    those evicted into the other row included, are the timed observations and are what the
    registry reports as observed; and every figure a series accumulates - rows, bytes in
    and out, the counts of the first-row, upload and size histograms, the tally of each
    class - sums over the series to exactly what the observations brought, to the
    counters' 64 bits. *)
Theorem reg_nothing_lost cfg clock es : cfg_ok cfg -> Forall ev_ok es -> exists r r', lk_reg_new cfg [] clock = Some (Some r) /\ reg_run r es = Some r' /\
  lk_reg_series_count_sum r' = u64 (zlen (List.filter ev_timed es)) /\ lk_reg_total_obs r' = u64 (zlen (List.filter ev_timed es)) /\
  forall i, u64 (marginal all_labels i (rg_heap r')) = u64 (zsum (map (ev_gain (mc_first_row_hist (cfg_clamp cfg)) i) es)).
Proof.
  intros Hc Hes. destruct (new_spec cfg [] clock Hc) as (res & E & Hn & H). destruct res as [r|]; [|by destruct (Hn eq_refl)]. destruct (H r eq_refl) as (hcap & nb & oom' & -> & K & Ho). specialize (Ho eq_refl). subst oom'. destruct (reg_run_spec es _ [] K Hes) as (r' & S & Er & K' & _ & C & G). destruct (G eq_refl) as (_ & T & M).
  eexists _, r'. split; [done|]. split; [done|]. assert (forall i, u64 (marginal all_labels i (rg_heap r')) = u64 (zsum (map (ev_gain (mc_first_row_hist (cfg_clamp cfg)) i) es))) as HM by (intros i; specialize (M i); unfold eq64 in M; rewrite M; done). split; [|split; [|done]].
  - by rewrite (count_sum _ _ (rk_heap _ _ K')), HM, gain_timed.
  - unfold lk_reg_total_obs. rewrite foldl_add64 by (split; lia). rewrite Z.add_0_l. unfold eq64 in T. rewrite T. done.
Qed.
Lemma reg_nothing_lost_witness : exists r r', lk_reg_new w_cfg [] [5] = Some (Some r) /\ reg_run r w_es = Some r' /\
  lk_reg_series_count_sum r' = u64 (zlen (List.filter ev_timed w_es)) /\ lk_reg_total_obs r' = u64 (zlen (List.filter ev_timed w_es)) /\
  forall i, u64 (marginal all_labels i (rg_heap r')) = u64 (zsum (map (ev_gain (mc_first_row_hist (cfg_clamp w_cfg)) i) w_es)).
Proof. apply (reg_nothing_lost w_cfg [5] w_es); [exact w_cfg_ok|exact w_es_ok]. Defined.

(** C27: An observation is attributed exactly.  Of all the sums per database and user,
    protocol and code, whatever set of them is asked for, an observation moves the one
    under its own labels and by its own figures; an eviction it causes on the way moves
    none of them. *)
Theorem reg_observe_exact r S o : reg_ok r S -> obs_ok o -> rg_oom r = [] -> exists r', lk_reg_observe r o = Some r' /\ forall g i,
  eq64 (marginal g i (rg_heap r')) (marginal g i (rg_heap r) + if recorded o then add_gain g (obs_labels r o) (gain (rg_first_row r) o i) else 0).
Proof. intros K Ho E. destruct (observe_spec r S o K Ho) as (r' & S' & Er & _ & _ & _ & G). exists r'. split; [done|]. by destruct (G E) as (_ & _ & G3). Qed.
Lemma w_reg_ok : reg_ok (w_new w_cfg) [].
Proof.
  destruct (new_spec w_cfg [] [5; 6; 7] w_cfg_ok) as (res & E & Hn & H). unfold w_new. rewrite E. destruct res as [r|]; [|by destruct (Hn eq_refl)]. by destruct (H r eq_refl) as (? & ? & ? & _ & K & _).
Qed.
Lemma reg_observe_exact_witness : exists r', lk_reg_observe (w_new w_cfg) (w_http 7 (lit "/x")) = Some r' /\ forall g i,
  eq64 (marginal g i (rg_heap r')) (marginal g i (rg_heap (w_new w_cfg)) + if recorded (w_http 7 (lit "/x")) then add_gain g (obs_labels (w_new w_cfg) (w_http 7 (lit "/x"))) (gain (rg_first_row (w_new w_cfg)) (w_http 7 (lit "/x")) i) else 0).
Proof. apply (reg_observe_exact (w_new w_cfg) [] (w_http 7 (lit "/x"))); [exact w_reg_ok|repeat split; vm_compute; discriminate|vm_compute; reflexivity]. Defined.

(** ** The dictionary *)
(** C10: The dictionary is the specification's.  After any run, under any allocator, the
    fingerprints it tracks, with the labels and verbs they were admitted under and in
    order of use, and the doorkeeper are those of the reference: a hit moves to the front,
    a newcomer is admitted while there is room and later only on its second appearance in
    its doorkeeper cell, at the price of the least recently used.  Lookups answer from
    exactly that list. *)
Theorem reg_dict_refines cfg oom clock es r : cfg_ok cfg -> Forall ev_ok es -> lk_reg_new cfg oom clock = Some (Some r) ->
  let a := foldl (spec_ev (mc_top_queries (cfg_clamp cfg)) (mc_query_label_len (cfg_clamp cfg))) (QDict [] (replicate 2048 0)) es in
  exists r' S, reg_run r es = Some r' /\ abs r' S = a /\ lk_reg_n_queries r' = zlen (qd_cards a) /\ forall fp, lk_reg_has_fp r' fp = Some (existsb (has_fp fp) (qd_cards a)).
Proof.
  intros Hc Hes E a. destruct (new_spec cfg oom clock Hc) as (res & E' & _ & H). assert (res = Some r) as -> by congruence. destruct (H r eq_refl) as (hcap & nb & oom' & -> & K & _). destruct (reg_run_spec es _ [] K Hes) as (r' & S & Er & K' & A & C & _). change (abs (reg_init (cfg_clamp cfg) hcap nb oom' clock) []) with (QDict [] (replicate 2048 0)) in A. cbn [reg_init rg_k rg_label_len] in A. fold a in A.
  exists r', S. split; [done|]. split; [done|]. rewrite <- A. cbn [abs qd_cards]. split; [unfold zlen; rewrite length_map; pose proof (slots_len _ _ K') as Hl; unfold lk_reg_n_queries, zlen in *; lia|]. intros fp. by apply has_fp_cards.
Qed.
Lemma reg_dict_refines_witness :
  let a := foldl (spec_ev (mc_top_queries (cfg_clamp w_cfg)) (mc_query_label_len (cfg_clamp w_cfg))) (QDict [] (replicate 2048 0)) w_es in
  exists r' S, reg_run (w_new w_cfg) w_es = Some r' /\ abs r' S = a /\ lk_reg_n_queries r' = zlen (qd_cards a) /\ forall fp, lk_reg_has_fp r' fp = Some (existsb (has_fp fp) (qd_cards a)).
Proof. apply (reg_dict_refines w_cfg [] [5; 6; 7] w_es (w_new w_cfg)); [exact w_cfg_ok|exact w_es_ok|vm_compute; reflexivity]. Defined.
