(* ===== verification/NormRoute.v ===== *)
(** The HTTP route templater, [norm/norm_route.c], and the query redactor,
    [norm/norm_redact.c].

    A span [(p, n)] is the list of its bytes, shorter than 2^32; a NULL pointer is the
    empty list.  A cursor into a span is the list of the bytes from it on, so that
    scanning to a byte is [span] and a substring is the part before the stop.  XXH3 is
    vendored third-party code, the parameter [XXH3]; the streaming state is the bytes
    fed to it so far. *)
From Stdlib Require Import Ascii String.
From stdpp Require Import base list option.
From S2P Require Import Prelude Proto.
#[local] Open Scope Z_scope.
Implicit Types (p q s : list Z) (c : Z).

(** ** Routes *)
Definition LK_ROUTE_TEXT_MAX := 256.
Definition LK_ROUTE_DEPTH_DEF := 8.
Definition LK_ROUTE_DEPTH_MAX := 32.
Definition LK_ROUTE_QUERY_VAL_MAX := 32.
Definition LK_ROUTE_MAP_MAX := 512.
Definition LK_ROUTE_SEG_MAX := 16.
Definition LK_ROUTE_F_TEMPLATED := 1.
Definition LK_ROUTE_F_DEPTH_CLIP := 2.
Definition LK_ROUTE_F_FROM_MAP := 4.
Definition LK_ROUTE_F_GIVEN := 8.
Definition LK_ROUTE_F_QUERY := 16.
Definition LK_ROUTE_F_TRUNC := 32.
Definition LK_ROUTE_F_INTERNAL := 64.

(** [text] up to [text_len]; the terminator follows it. *)
Record lk_route_out := RouteOut { rt_text : list Z; rt_fp : Z; rt_flags : Z }.

Definition is_digit c : bool := (ch "0" <=? c) && (c <=? ch "9").
Definition is_hex c : bool := is_digit c || (ch "a" <=? c) && (c <=? ch "f") || (ch "A" <=? c) && (c <=? ch "F").
Definition is_lower c : bool := (ch "a" <=? c) && (c <=? ch "z").
Definition is_upper c : bool := (ch "A" <=? c) && (c <=? ch "Z").
Definition is_alpha c : bool := is_lower c || is_upper c.
Definition is_alnum c : bool := is_alpha c || is_digit c.
Definition is_ctl c : bool := (c <? 0x20) || (c =? 0x7f).

(** ** The emitter: bounded text, unbounded hash *)
Record rctx := RCtx { rx_text : list Z; rx_flags : Z; rx_hashed : list Z }.
#[global] Instance rctx_upd : Updatable rctx := fun x => RCtx (rx_text x) (rx_flags x) (rx_hashed x).
Implicit Types (rx : rctx).
Definition emit rx s : rctx :=
  let room := u32 (LK_ROUTE_TEXT_MAX - 1 - zlen (rx_text rx)) in
  let n := zlen s in
  if n =? 0 then rx
  else
    let rx := rx <| rx_hashed ::= fun h => h ++ s |> in
    if room <? n then rx <| rx_flags ::= fun w => set_flag w LK_ROUTE_F_TRUNC |> <| rx_text ::= fun t => t ++ ztake room s |>
    else rx <| rx_text ::= fun t => t ++ s |>.
Definition flag rx (f : Z) : rctx := rx <| rx_flags ::= fun w => set_flag w f |>.

(** ** Segment classifiers *)
(** [k] hex digits, then the rest. *)
Fixpoint hex_group (k : nat) p : option (list Z) :=
  match k, p with
  | O, _ => Some p
  | S k, c :: p => if is_hex c then hex_group k p else None
  | S _, [] => None
  end.
Fixpoint uuid_groups (group : list nat) p : bool :=
  match group with
  | [] => true
  | g :: rest =>
      match hex_group g p, rest with
      | None, _ => false
      | Some _, [] => true
      | Some (c :: p), _ => if c =? ch "-" then uuid_groups rest p else false
      | Some [], _ => false
      end
  end.
Definition looks_uuid p : bool := (zlen p =? 36) && uuid_groups [8; 4; 4; 4; 12]%nat p.

Definition ulid_byte c : bool :=
  if is_digit c then true
  else if negb (is_alpha c) then false
  else
    let c := if is_lower c then c - 32 else c in
    negb ((c =? ch "I") || (c =? ch "L") || (c =? ch "O") || (c =? ch "U")).
Definition looks_ulid p : bool := (zlen p =? 26) && forallb ulid_byte p.

Fixpoint date_from (i : Z) p : bool :=
  match p with
  | [] => true
  | c :: p => if negb (i =? 4) && negb (i =? 7) && negb (is_digit c) then false else date_from (i + 1) p
  end.
Definition looks_date p : bool :=
  if negb (zlen p =? 10) || negb (znth p 4 =? ch "-") || negb (znth p 7 =? ch "-") then false else date_from 0 p.

Fixpoint b64_from (up lo dig : bool) p : bool :=
  match p with
  | [] => up && lo && dig
  | c :: p =>
      if is_upper c then b64_from true lo dig p
      else if is_lower c then b64_from up true dig p
      else if is_digit c then b64_from up lo true p
      else if negb (c =? ch "+") && negb (c =? ch "/") && negb (c =? ch "=") && negb (c =? ch "-") && negb (c =? ch "_") then false
      else b64_from up lo dig p
  end.
Definition looks_b64 p : bool := if zlen p <? 16 then false else b64_from false false false p.

Definition count (f : Z -> bool) p : Z := zlen (filter (fun c => f c = true) p).
Definition looks_digit_heavy p : bool :=
  if zlen p <? 6 then false else u32 (zlen p * 4) <? u32 (count is_digit p * 10).

Definition seg_opaque p : bool :=
  let n := zlen p in
  if n =? 0 then false
  else if existsb is_ctl p then true
  else if count is_digit p =? n then true
  else if 24 <? n then true
  else if (count is_hex p =? n) && (8 <=? n) then true
  else looks_uuid p || looks_ulid p || looks_date p || looks_b64 p || looks_digit_heavy p.

(** The dot-separated components of [p], [cur] the one being read. *)
Fixpoint stem_from (cur p : list Z) : bool :=
  match p with
  | [] => seg_opaque cur
  | c :: p => if c =? ch "." then if seg_opaque cur then true else stem_from [] p else stem_from (cur ++ [c]) p
  end.
Definition stem_opaque p : bool := stem_from [] p.

(** The index of the last dot. *)
Fixpoint last_dot (i : Z) p (found : option Z) : option Z :=
  match p with
  | [] => found
  | c :: p => last_dot (i + 1) p (if c =? ch "." then Some i else found)
  end.
(** The length of the stem. *)
Definition split_ext p : option Z :=
  dot ← last_dot 0 p None;
  if (dot =? 0) || (zlen p <=? dot + 1) || (8 <? zlen p - dot - 1) then None
  else
    let ext := zdrop (dot + 1) p in
    if negb (forallb is_alnum ext) then None else if negb (existsb is_alpha ext) then None else Some dot.

Definition put_segment rx p : rctx * bool :=
  match split_ext p with
  | Some stem =>
      if stem_opaque (ztake stem p) then (emit (emit rx (lit "{file}.")) (zdrop (stem + 1) p), true)
      else (emit rx p, false)
  | None => if seg_opaque p then (emit rx (lit "{id}"), true) else (emit rx p, false)
  end.

(** ** The explicit map *)
(** A span of a segment table: its length is kept in 16 bits. *)
Definition seg_span s : list Z := ztake (u16 (zlen s)) s.
Record pat_seg := PatSeg { ps_text : list Z; ps_var : bool }.
Record route_pat := RoutePat { rp_method : option (list Z); rp_text : list Z; rp_seg : list pat_seg }.
Definition lk_route_map := list route_pat.

(** One segment: the slash in front of it, if any, its bytes and what follows. *)
Definition next_segment p : list Z * list Z * list Z :=
  let '(slash, q) := match p with c :: q => if c =? ch "/" then ([c], q) else ([], p) | [] => ([], []) end in
  let '(s, q) := span (until (ch "/")) q in (slash, s, q).
(** An iteration takes at least one byte: fuel [length p] is enough. *)
Fixpoint path_segments (fuel : nat) p : list (list Z) :=
  match fuel, p with
  | S fuel, _ :: _ => let '(_, s, q) := next_segment p in seg_span s :: path_segments fuel q
  | _, _ => []
  end.

Fixpoint segs_match (ps : list pat_seg) (ss : list (list Z)) : bool :=
  match ps, ss with
  | p :: ps, s :: ss => if ps_var p then segs_match ps ss else if same (ps_text p) s then segs_match ps ss else false
  | _, _ => true
  end.
Definition pat_matches (pat : route_pat) (method : list Z) (ss : list (list Z)) : bool :=
  if negb (zlen (rp_seg pat) =? zlen ss) then false
  else if match rp_method pat with Some m => negb (same m method) | None => false end then false
  else segs_match (rp_seg pat) ss.

Definition is_var s : bool := (2 <=? zlen s) && (znth s 0 =? ch "{") && (znth s (zlen s - 1) =? ch "}").
(** [nseg] segments so far. *)
Fixpoint pat_segs (fuel : nat) (nseg : Z) p : option (list pat_seg) :=
  match fuel, p with
  | S fuel, _ :: _ =>
      let '(_, s, q) := next_segment p in
      if LK_ROUTE_SEG_MAX <=? nseg then None
      else ss ← pat_segs fuel (nseg + 1) q; Some (PatSeg (seg_span s) (is_var s) :: ss)
  | _, _ => Some []
  end.
Definition pat_split (text : list Z) : option (list pat_seg) :=
  match pat_segs (length text) 0 text with
  | None | Some [] => None
  | Some ss => Some ss
  end.

Definition is_blank c : bool := (c =? 32) || (c =? 9).
(** [while (le > ls && f(text[le - 1])) le--;] *)
Definition trim_end (f : Z -> bool) p : list Z := rev (span f (rev p)).2.
(** Strip one CR, then blanks on both sides. *)
Definition line_trim p : list Z :=
  let p := if znth p (zlen p - 1) =? 13 then ztake (zlen p - 1) p else p in
  trim_end is_blank (span is_blank p).2.
Inductive line_kind := LineSkip | LineBad | LinePat (pat : route_pat).
Definition parse_line (p : list Z) (room : bool) : line_kind :=
  match line_trim p with
  | [] => LineSkip
  | (b :: _) as l =>
      if b =? ch "#" then LineSkip
      else
        let '(m, q) := span (fun c => negb (is_blank c)) l in
        let path := (span is_blank q).2 in
        if negb (znth path 0 =? ch "/") then LineBad
        else if negb (forallb (fun c => negb (is_ctl c) && negb (c =? ch "?") && negb (c =? ch "#")) l)
             || (LK_ROUTE_TEXT_MAX <=? zlen path) || negb room then LineBad
        else match pat_split path with
        | None => LineBad
        | Some ss => LinePat (RoutePat (if same m (lit "*") then None else Some m) path ss)
        end
  end.
(** The lines of the buffer: patterns so far and rejected lines so far. *)
Fixpoint map_lines (fuel : nat) p (lines : Z) (m : lk_route_map) (bad : Z) : lk_route_map * Z :=
  match fuel, p with
  | S fuel, _ :: _ =>
      let '(l, q) := span (until 10) p in
      let q := past q in
      match parse_line l (zlen m <? lines) with
      | LineSkip => map_lines fuel q lines m bad
      | LineBad => map_lines fuel q lines m (u32 (bad + 1))
      | LinePat pat => map_lines fuel q lines (m ++ [pat]) bad
      end
  | _, _ => (m, bad)
  end.
(** [oom]: whether [calloc] and then [malloc] fail.  The map and [*rejected]. *)
Definition lk_route_map_parse (text : list Z) (oom_map oom_text : bool) : option lk_route_map * Z :=
  match text with
  | [] => (None, 0)
  | _ =>
      let lines := 1 + count (Z.eqb 10) text in
      let lines := if LK_ROUTE_MAP_MAX <? lines then LK_ROUTE_MAP_MAX else lines in
      if oom_map || oom_text then (None, 0)
      else
        let '(m, bad) := map_lines (length text) text lines [] 0 in
        (match m with [] => None | _ => Some m end, bad)
  end.
Definition lk_route_map_count (m : option lk_route_map) : Z := match m with Some m => zlen m | None => 0 end.

(** ** The query string *)
Fixpoint query_find (fuel : nat) q (key : list Z) : option (list Z) :=
  match fuel, q with
  | S fuel, _ :: _ =>
      let '(piece, rest) := span (until (ch "&")) q in
      let '(k, v) := span (until (ch "=")) piece in
      if same k key then Some (past v) else query_find fuel (past rest) key
  | _, _ => None
  end.

(** ** The entry points *)
(** [query_keys] up to [nquery_keys]; a [None] is a NULL pointer. *)
Record lk_route_cfg := RouteCfg { rcfg_map : option lk_route_map; rcfg_query_keys : list (option (list Z)); rcfg_depth : Z }.
Definition route_defaults : lk_route_cfg := RouteCfg None [] 0.

Section Route.
Variable XXH3 : list Z -> Z.

Definition route_start (method : list Z) : rctx := RCtx [] 0 (method ++ [0]).
Definition route_finish rx : lk_route_out := RouteOut (rx_text rx) (XXH3 (rx_hashed rx)) (rx_flags rx).

(** Layer 1: the first pattern that matches. *)
Fixpoint map_lookup (m : lk_route_map) (method : list Z) (ss : list (list Z)) : option route_pat :=
  match m with
  | [] => None
  | pat :: m => if pat_matches pat method ss then Some pat else map_lookup m method ss
  end.
Definition from_map (cfg : lk_route_cfg) (method path : list Z) : option route_pat :=
  match rcfg_map cfg, path with
  | Some m, _ :: _ =>
      let ss := path_segments (length path) path in
      if zlen ss <=? LK_ROUTE_SEG_MAX then map_lookup m method ss else None
  | _, _ => None
  end.

(** Layer 2: the segment walk. *)
Fixpoint walk (fuel : nat) rx p (kept depth : Z) : rctx :=
  match fuel, p with
  | S fuel, _ :: _ =>
      if kept =? depth then flag (emit rx (lit "/...")) (Z.lor LK_ROUTE_F_DEPTH_CLIP LK_ROUTE_F_TEMPLATED)
      else
        let '(slash, s, q) := next_segment p in
        let '(rx, templated) := put_segment (emit rx slash) s in
        walk fuel (if templated then flag rx LK_ROUTE_F_TEMPLATED else rx) q (kept + 1) depth
  | _, _ => rx
  end.

(** The named keys of the query. *)
Definition put_query rx q (key : option (list Z)) : rctx :=
  match key with
  | None | Some [] => rx
  | Some key =>
      match query_find (length q) q key with
      | None => rx
      | Some val =>
          let rx := emit rx (if has_flag (rx_flags rx) LK_ROUTE_F_QUERY then lit "&" else lit "?") in
          let rx := emit (emit rx key) (lit "=") in
          let rx := if (LK_ROUTE_QUERY_VAL_MAX <? zlen val) || seg_opaque val then emit rx (lit "{id}") else emit rx val in
          flag rx LK_ROUTE_F_QUERY
      end
  end.
Definition put_queries rx q (keys : list (option (list Z))) : rctx :=
  match q with [] => rx | _ => foldl (fun rx k => put_query rx q k) rx keys end.

Definition route_depth (cfg : lk_route_cfg) : Z :=
  let depth := if rcfg_depth cfg =? 0 then LK_ROUTE_DEPTH_DEF else rcfg_depth cfg in
  if LK_ROUTE_DEPTH_MAX <? depth then LK_ROUTE_DEPTH_MAX else depth.
Definition lk_norm_route (method target : list Z) (cfg : option lk_route_cfg) : lk_route_out :=
  let cfg := default route_defaults cfg in
  let '(path, rest) := span (until (ch "?")) target in
  let rx := route_start method in
  let rx := match from_map cfg method path with
            | Some pat => flag (emit rx (rp_text pat)) (Z.lor LK_ROUTE_F_FROM_MAP LK_ROUTE_F_TEMPLATED)
            | None => if same path (lit "*") then emit rx (lit "*") else walk (length path) rx path 0 (route_depth cfg)
            end in
  route_finish (put_queries rx (past rest) (rcfg_query_keys cfg)).

(** The runs between control bytes. *)
Fixpoint given_runs rx (run route : list Z) : rctx :=
  match route with
  | [] => emit rx run
  | c :: route => if is_ctl c then given_runs (emit rx run) [] route else given_runs rx (run ++ [c]) route
  end.
Definition lk_norm_route_given (method route : list Z) : lk_route_out :=
  route_finish (flag (given_runs (route_start method) [] route) LK_ROUTE_F_GIVEN).
End Route.

(** ** Redaction *)
Definition LK_REDACT_MARK : list Z := lit "***".
Definition secret_keys : list (list Z) :=
  map lit ["token"; "sig"; "password"; "passwd"; "secret"; "key"; "code"; "auth"]%string.
Definition lc c : Z := if is_upper c then c - ch "A" + ch "a" else c.
(** [lc(p[j]) == needle[j]] for every [j]. *)
Fixpoint prefix_ci p (needle : list Z) : bool :=
  match needle, p with
  | [], _ => true
  | e :: needle, c :: p => if lc c =? e then prefix_ci p needle else false
  | _ :: _, [] => false
  end.
Fixpoint find_ci p (needle : list Z) : bool :=
  match p with
  | [] => false
  | _ :: q => if prefix_ci p needle then true else find_ci q needle
  end.
Definition span_contains_ci p (needle : list Z) : bool :=
  if (zlen needle =? 0) || (zlen p <? zlen needle) then false else find_ci p needle.
Definition key_is_secret p : bool := existsb (span_contains_ci p) secret_keys.
Definition is_sep c : bool := (c =? ch "&") || (c =? ch ";").
Definition no_sep c : bool := negb (is_sep c).
Definition is_key_byte c : bool := negb (c =? ch "=") && negb (is_sep c).

Fixpoint redact_scan (fuel : nat) q : bool :=
  match fuel, q with
  | S fuel, _ :: _ =>
      let '(k, r) := span is_key_byte q in
      if negb (znth r 0 =? ch "=") then redact_scan fuel (past r)
      else if key_is_secret k then true
      else redact_scan fuel (past (span no_sep r).2)
  | _, _ => false
  end.
Definition lk_url_redact_needed (inp : list Z) : bool :=
  match (span (until (ch "?")) inp).2 with [] => false | _ :: q => redact_scan (length q) q end.

(** Bytes overwritten one for one. *)
Fixpoint redact_fill (fuel : nat) q : list Z :=
  match fuel, q with
  | S fuel, _ :: _ =>
      let '(k, r) := span is_key_byte q in
      let '(kv, r) :=
        match r with
        | c :: v => if c =? ch "=" then
                      let secret := key_is_secret k in
                      let '(v, r) := span no_sep v in (k ++ [c] ++ if secret then map (fun _ => ch "*") v else v, r)
                    else (k, r)
        | [] => (k, r)
        end in
      kv ++ match r with [] => [] | sep :: r => sep :: redact_fill fuel r end
  | _, _ => []
  end.
Definition lk_url_redact_inplace (p : list Z) : list Z :=
  match span (until (ch "?")) p with
  | (_, []) => p
  | (path, c :: q) => path ++ c :: redact_fill (length q) q
  end.

(** Bounded append: [out] up to [w]. *)
Definition put (outcap : Z) (out s : list Z) : list Z := out ++ ztake (outcap - zlen out) s.
Fixpoint redact_copy (fuel : nat) (outcap : Z) (out q : list Z) : list Z :=
  match fuel, q with
  | S fuel, _ :: _ =>
      let '(k, r) := span is_key_byte q in
      let out := put outcap out k in
      let '(out, r) :=
        match r with
        | c :: v => if c =? ch "=" then
                      let out := put outcap out (lit "=") in
                      let '(v, r) := span no_sep v in
                      (put outcap out (if key_is_secret k then LK_REDACT_MARK else v), r)
                    else (out, r)
        | [] => (out, r)
        end in
      match r with [] => out | sep :: r => redact_copy fuel outcap (put outcap out [sep]) r end
  | _, _ => out
  end.
(** The bytes written; [out] and [outcap] are not null. *)
Definition lk_url_redact (inp : list Z) (outcap : Z) : list Z :=
  match span (until (ch "?")) inp with
  | (path, []) => put outcap [] path
  | (path, _ :: q) => redact_copy (length q) outcap (put outcap (put outcap [] path) (lit "?")) q
  end.
