(* ===== verification/NormRouteProps.v ===== *)
(** What a route is: the templater against a reference on split paths, what can reach a
    label, the route map against its own notation, and what redaction hides. *)
From Stdlib Require Import Ascii String.
From stdpp Require Import base list option.
From S2P Require Import Prelude Proto NormRoute.
#[local] Open Scope Z_scope.
Implicit Types (p q s path : list Z) (c : Z).

(** Character literals as numbers. *)
Ltac chars := repeat match goal with
  | |- context [ch ?a] => let v := eval vm_compute in (ch a) in change (ch a) with v in *
  | _ : context [ch ?a] |- _ => let v := eval vm_compute in (ch a) in change (ch a) with v in *
  end.
(** * The reference *)
Fixpoint split_on (c : Z) p : list (list Z) :=
  match p with
  | [] => [[]]
  | x :: p => if x =? c then [] :: split_on c p
              else match split_on c p with s :: ss => (x :: s) :: ss | [] => [[x]] end
  end.
(** A path as segments, each with the slash in front of it; only the first may have none. *)
Definition cuts path : list (list Z * list Z) :=
  match split_on (ch "/") path with
  | [] :: ss => map (pair (lit "/")) ss
  | s :: ss => ([], s) :: map (pair (lit "/")) ss
  | [] => []
  end.
Definition seg_label s : list Z :=
  match split_ext s with
  | Some stem => if stem_opaque (ztake stem s) then lit "{file}." ++ zdrop (stem + 1) s else s
  | None => if seg_opaque s then lit "{id}" else s
  end.
Definition collapsed s : bool := match split_ext s with Some stem => stem_opaque (ztake stem s) | None => seg_opaque s end.
Definition path_label (depth : Z) path : list Z :=
  concat (map (fun '(sl, s) => sl ++ seg_label s) (ztake depth (cuts path))) ++
  (if depth <? zlen (cuts path) then lit "/..." else []).
Definition query_value q (key : list Z) : option (list Z) := query_find (length q) q key.
Definition value_label (v : list Z) : list Z := if (LK_ROUTE_QUERY_VAL_MAX <? zlen v) || seg_opaque v then lit "{id}" else v.
(** The named keys the query has. *)
Definition found q (keys : list (option (list Z))) : list (list Z * list Z) :=
  omap (fun ok => k ← ok; match k with [] => None | _ => v ← query_value q k; Some (k, v) end) keys.
Definition query_label q keys : list Z :=
  concat (imap (fun i '(k, v) => (if decide (i = O) then lit "?" else lit "&") ++ k ++ lit "=" ++ value_label v) (found q keys)).

(** A pattern covers a path: one segment each, equal or a placeholder. *)
Definition covers (method path : list Z) (pat : route_pat) : bool :=
  match rp_method pat with Some m => bool_decide (m = method) | None => true end &&
  bool_decide (Forall2 (fun ps s => ps_var ps = true \/ ps_text ps = s) (rp_seg pat) (map snd (cuts path))).
Definition map_hit (cfg : lk_route_cfg) (method path : list Z) : option route_pat :=
  if (zlen path =? 0) || (LK_ROUTE_SEG_MAX <? zlen (cuts path)) then None
  else m ← rcfg_map cfg; List.find (covers method path) m.

Definition route_path (target : list Z) : list Z := (span (until (ch "?")) target).1.
Definition route_query (target : list Z) : list Z := past (span (until (ch "?")) target).2.
Definition template (method target : list Z) (cfg : lk_route_cfg) : list Z :=
  let path := route_path target in
  match map_hit cfg method path with
  | Some pat => rp_text pat
  | None => if same path (lit "*") then path else path_label (route_depth cfg) path
  end ++ query_label (route_query target) (rcfg_query_keys cfg).
Definition bit (b : bool) (f : Z) : Z := if b then f else 0.
Definition route_flags (method target : list Z) (cfg : lk_route_cfg) : Z :=
  let path := route_path target in
  Z.lor (match map_hit cfg method path with
         | Some _ => Z.lor LK_ROUTE_F_FROM_MAP LK_ROUTE_F_TEMPLATED
         | None => if same path (lit "*") then 0
                   else Z.lor (bit (existsb (fun '(_, s) => collapsed s) (ztake (route_depth cfg) (cuts path))) LK_ROUTE_F_TEMPLATED)
                              (bit (route_depth cfg <? zlen (cuts path)) (Z.lor LK_ROUTE_F_DEPTH_CLIP LK_ROUTE_F_TEMPLATED))
         end)
        (bit (0 <? zlen (found (route_query target) (rcfg_query_keys cfg))) LK_ROUTE_F_QUERY).

(** * The emitter *)
Definition ctx_of (m T : list Z) (fl : Z) : rctx :=
  RCtx (ztake (LK_ROUTE_TEXT_MAX - 1) T) (Z.lor fl (bit (LK_ROUTE_TEXT_MAX - 1 <? zlen T) LK_ROUTE_F_TRUNC)) (m ++ 0 :: T).
Lemma flag_ctx m T fl f : flag (ctx_of m T fl) f = ctx_of m T (Z.lor fl f).
Proof. unfold flag, ctx_of, set_flag. cbn. f_equal. rewrite <- !Z.lor_assoc. f_equal. apply Z.lor_comm. Qed.
Lemma emit_ctx m T fl s : emit (ctx_of m T fl) s = ctx_of m (T ++ s) fl.
Proof.
  unfold emit, ctx_of. cbn [rx_text]. pose proof (zlen_nonneg T). pose proof (zlen_nonneg s). change (LK_ROUTE_TEXT_MAX - 1) with 255.
  rewrite zlen_ztake by done. rewrite u32_small by lia. destruct (Z.eqb_spec (zlen s) 0) as [E|E].
  { apply zlen_0 in E as ->. by rewrite !app_nil_r. }
  cbn [upd rx_text rx_flags rx_hashed]. unfold set_flag. destruct (Z.ltb_spec (255 - Z.min 255 (zlen T)) (zlen s)); cbn.
  - rewrite <- app_assoc. cbn. f_equal.
    + destruct (Z.le_gt_cases (zlen T) 255).
      * rewrite (ztake_all 255 T), ztake_app_ge by done. do 2 f_equal. lia.
      * rewrite (ztake_app_le 255) by lia. rewrite (ztake_0 _ s) by lia. by rewrite app_nil_r.
    + rewrite zlen_app. rewrite <- Z.lor_assoc. f_equal. destruct (Z.ltb_spec 255 (zlen T)), (Z.ltb_spec 255 (zlen T + zlen s)); try lia; done.
  - rewrite <- app_assoc. cbn. f_equal.
    + rewrite (ztake_all 255 T) by lia. symmetry. apply ztake_all. rewrite zlen_app. lia.
    + f_equal. rewrite zlen_app. destruct (Z.ltb_spec 255 (zlen T)), (Z.ltb_spec 255 (zlen T + zlen s)); try lia; done.
Qed.

(** * Paths *)
Lemma split_on_app c s p : Forall (fun x => x <> c) s ->
  split_on c (s ++ p) = match split_on c p with t :: ts => (s ++ t) :: ts | [] => [s] end.
Proof.
  induction 1 as [|x s Hx _ IH]; cbn [app split_on]; [by destruct p as [|x p]; cbn; [|case_match; [|destruct (split_on c p)]]|].
  destruct (Z.eqb_spec x c); [done|]. rewrite IH. by destruct (split_on c p).
Qed.
Lemma split_on_ne c p : split_on c p <> [].
Proof. destruct p as [|x p]; [done|]. cbn. case_match; [done|]. by destruct (split_on c p). Qed.
Lemma cuts_slash p : cuts (ch "/" :: p) = map (pair (lit "/")) (split_on (ch "/") p).
Proof. done. Qed.
(** What follows a segment. *)
Lemma cuts_rest s q : Forall (fun x => x <> ch "/") s -> stops (until (ch "/")) q -> map (pair (lit "/")) (split_on (ch "/") (s ++ q)) = (lit "/", s) :: cuts q.
Proof.
  intros Hs Hq. rewrite split_on_app by done. destruct q as [|c q]; [cbn; by rewrite app_nil_r|]. cbn in Hq. unfold until in Hq. destruct (Z.eqb_spec c (ch "/")) as [->|]; [|done].
  rewrite cuts_slash. cbn [split_on]. rewrite Z.eqb_refl. by rewrite app_nil_r.
Qed.
Lemma cuts_bare s q : s <> [] -> Forall (fun x => x <> ch "/") s -> stops (until (ch "/")) q -> cuts (s ++ q) = ([], s) :: cuts q.
Proof.
  intros Hne Hs Hq. pose proof (cuts_rest s q Hs Hq) as H. unfold cuts at 1. destruct (split_on (ch "/") (s ++ q)) as [|t ts] eqn:E; [done|]. cbn [map] in H. injection H as -> H. rewrite H. by destruct s.
Qed.
Lemma next_segment_spec p sl s q : p <> [] -> next_segment p = (sl, s, q) -> cuts p = (sl, s) :: cuts q /\ (length q < length p)%nat /\ p = sl ++ s ++ q /\ stops (until (ch "/")) q.
Proof.
  intros Hp. unfold next_segment. destruct p as [|c p]; [done|]. destruct (Z.eqb_spec c (ch "/")) as [->|Hc].
  - destruct (span_spec (until (ch "/")) p) as (E & Ha & Hb). destruct (span _ p) as [a b]. cbn [fst snd] in *. intros [= <- <- <-]. subst p. apply until_ne in Ha.
    rewrite cuts_slash, cuts_rest by done. cbn. rewrite length_app. repeat split; try done. lia.
  - destruct (span_spec (until (ch "/")) (c :: p)) as (E & Ha & Hb). destruct (span _ (c :: p)) as [a b] eqn:Es. cbn [fst snd] in *. intros [= <- <- <-]. apply until_ne in Ha.
    assert (a <> []) as Hne by (intros ->; cbn in E; subst b; cbn in Hb; unfold until in Hb; destruct (Z.eqb_spec c (ch "/")); done).
    rewrite E, cuts_bare by done. rewrite length_app. destruct a; [done|]. cbn. repeat split; try done. lia.
Qed.
Lemma cuts_nil p : cuts p = [] -> p = [].
Proof. destruct p as [|c p]; [done|]. destruct (next_segment (c :: p)) as [[sl s] q] eqn:E. by destruct (next_segment_spec (c :: p) sl s q ltac:(done) E) as [-> _]. Qed.

Lemma put_segment_ctx m T fl s : put_segment (ctx_of m T fl) s = (ctx_of m (T ++ seg_label s) fl, collapsed s).
Proof. unfold put_segment, seg_label, collapsed. destruct (split_ext s); case_match; rewrite ?emit_ctx, <- ?app_assoc; done. Qed.

Definition tail_label (depth : Z) (cs : list (list Z * list Z)) : list Z :=
  concat (map (fun '(sl, s) => sl ++ seg_label s) (ztake depth cs)) ++ (if depth <? zlen cs then lit "/..." else []).
Definition tail_flags (depth : Z) (cs : list (list Z * list Z)) : Z :=
  Z.lor (bit (existsb (fun '(_, s) => collapsed s) (ztake depth cs)) LK_ROUTE_F_TEMPLATED)
        (bit (depth <? zlen cs) (Z.lor LK_ROUTE_F_DEPTH_CLIP LK_ROUTE_F_TEMPLATED)).
Lemma tail_nil depth : 0 <= depth -> tail_label depth [] = [] /\ tail_flags depth [] = 0.
Proof. intros H. unfold tail_label, tail_flags, ztake. rewrite take_nil. change (zlen []) with 0. by destruct (Z.ltb_spec depth 0); [lia|]. Qed.
Lemma tail_0 x cs : tail_label 0 (x :: cs) = lit "/..." /\ tail_flags 0 (x :: cs) = Z.lor LK_ROUTE_F_DEPTH_CLIP LK_ROUTE_F_TEMPLATED.
Proof. pose proof (zlen_nonneg cs). unfold tail_label, tail_flags. rewrite zlen_cons. destruct (Z.ltb_spec 0 (zlen cs + 1)); [|lia]. done. Qed.
Lemma tail_cons depth sl s cs : 0 < depth -> tail_label depth ((sl, s) :: cs) = (sl ++ seg_label s) ++ tail_label (depth - 1) cs /\
  tail_flags depth ((sl, s) :: cs) = Z.lor (bit (collapsed s) LK_ROUTE_F_TEMPLATED) (tail_flags (depth - 1) cs).
Proof.
  intros H. unfold tail_label, tail_flags. rewrite ztake_cons by done. rewrite zlen_cons. cbn [map concat existsb]. replace (depth <? zlen cs + 1) with (depth - 1 <? zlen cs) by (destruct (Z.ltb_spec (depth - 1) (zlen cs)), (Z.ltb_spec depth (zlen cs + 1)); lia).
  split; [by rewrite <- app_assoc|]. rewrite Z.lor_assoc. f_equal. destruct (collapsed s), (existsb _ _); done.
Qed.
Lemma walk_ctx m depth fuel : forall p T fl kept, (length p <= fuel)%nat -> 0 <= kept <= depth ->
  walk fuel (ctx_of m T fl) p kept depth = ctx_of m (T ++ tail_label (depth - kept) (cuts p)) (Z.lor fl (tail_flags (depth - kept) (cuts p))).
Proof.
  induction fuel as [|fuel IH]; intros p T fl kept Hl Hk.
  { destruct p; [|cbn in Hl; lia]. cbn [walk]. change (cuts []) with (@nil (list Z * list Z)). destruct (tail_nil (depth - kept) ltac:(lia)) as [-> ->]. by rewrite app_nil_r, Z.lor_0_r. }
  destruct p as [|c p]; cbn [walk]. { change (cuts []) with (@nil (list Z * list Z)). destruct (tail_nil (depth - kept) ltac:(lia)) as [-> ->]. by rewrite app_nil_r, Z.lor_0_r. }
  destruct (next_segment (c :: p)) as [[sl s] q] eqn:En. destruct (next_segment_spec (c :: p) _ _ _ ltac:(done) En) as (-> & Hq & _). destruct (Z.eqb_spec kept depth) as [->|Hne].
  - rewrite Z.sub_diag. destruct (tail_0 (sl, s) (cuts q)) as [-> ->]. by rewrite emit_ctx, flag_ctx.
  - destruct (tail_cons (depth - kept) sl s (cuts q) ltac:(lia)) as [-> ->]. rewrite emit_ctx, put_segment_ctx. replace (depth - kept - 1) with (depth - (kept + 1)) by lia.
    destruct (collapsed s); cbn [bit]; rewrite ?flag_ctx, IH by (cbn in *; lia); rewrite !app_assoc; [by rewrite Z.lor_assoc|done].
Qed.

(** * Queries *)
Lemma query_flag m T fl : has_flag (rx_flags (ctx_of m T fl)) LK_ROUTE_F_QUERY = has_flag fl LK_ROUTE_F_QUERY.
Proof. unfold ctx_of. cbn [rx_flags]. rewrite (has_flag_set fl (bit _ _)). destruct (_ <? _); cbn; by rewrite orb_false_r. Qed.
Definition pair_label (sep : list Z) (kv : list Z * list Z) : list Z := sep ++ kv.1 ++ lit "=" ++ value_label kv.2.
Definition found1 q (ok : option (list Z)) : option (list Z * list Z) :=
  k ← ok; match k with [] => None | _ => v ← query_value q k; Some (k, v) end.
Lemma put_query_ctx m T fl q ok : put_query (ctx_of m T fl) q ok =
  match found1 q ok with
  | None => ctx_of m T fl
  | Some kv => ctx_of m (T ++ pair_label (if has_flag fl LK_ROUTE_F_QUERY then lit "&" else lit "?") kv) (Z.lor fl LK_ROUTE_F_QUERY)
  end.
Proof.
  unfold put_query, found1, query_value. destruct ok as [[|c k]|]; cbn [mbind option_bind]; [done| |done]. destruct (query_find _ _ _) as [v|]; cbn [mbind option_bind]; [|done].
  rewrite query_flag. unfold pair_label, value_label. cbn [fst snd]. case_match; rewrite !emit_ctx, flag_ctx, <- !app_assoc; done.
Qed.
Lemma lor_query fl : has_flag (Z.lor fl LK_ROUTE_F_QUERY) LK_ROUTE_F_QUERY = true.
Proof. rewrite (has_flag_set fl LK_ROUTE_F_QUERY). apply orb_true_r. Qed.
Lemma put_rest m q keys : forall T fl, has_flag fl LK_ROUTE_F_QUERY = true ->
  foldl (fun rx k => put_query rx q k) (ctx_of m T fl) keys = ctx_of m (T ++ concat (map (pair_label (lit "&")) (omap (found1 q) keys))) (Z.lor fl (bit (0 <? zlen (omap (found1 q) keys)) LK_ROUTE_F_QUERY)).
Proof.
  induction keys as [|ok keys IH]; intros T fl Hf; cbn [foldl omap list_omap]. { by rewrite app_nil_r, Z.lor_0_r. }
  rewrite put_query_ctx. destruct (found1 q ok) as [kv|]; [|by apply IH]. rewrite Hf, IH by apply lor_query. cbn [map concat]. rewrite <- app_assoc, zlen_cons.
  pose proof (zlen_nonneg (omap (found1 q) keys)). destruct (Z.ltb_spec 0 (zlen (omap (found1 q) keys) + 1)); [|lia]. f_equal. rewrite <- Z.lor_assoc. f_equal. by destruct (_ <? _).
Qed.
Lemma query_label_eq q keys : query_label q keys = match omap (found1 q) keys with [] => [] | kv :: l => pair_label (lit "?") kv ++ concat (map (pair_label (lit "&")) l) end.
Proof.
  unfold query_label. change (found q keys) with (omap (found1 q) keys). destruct (omap (found1 q) keys) as [|[k v] l]; [done|]. cbn [imap concat]. f_equal. f_equal.
  rewrite <- imap_const. apply imap_ext. intros i [k' v'] _. done.
Qed.
Lemma put_queries_ctx m q keys : forall T fl, has_flag fl LK_ROUTE_F_QUERY = false ->
  foldl (fun rx k => put_query rx q k) (ctx_of m T fl) keys = ctx_of m (T ++ query_label q keys) (Z.lor fl (bit (0 <? zlen (found q keys)) LK_ROUTE_F_QUERY)).
Proof.
  change (found q keys) with (omap (found1 q) keys). setoid_rewrite query_label_eq. induction keys as [|ok keys IH]; intros T fl Hf; cbn [foldl omap list_omap]. { by rewrite app_nil_r, Z.lor_0_r. }
  rewrite put_query_ctx. destruct (found1 q ok) as [kv|]; [|by apply IH]. rewrite Hf, put_rest by apply lor_query. rewrite <- app_assoc, zlen_cons.
  pose proof (zlen_nonneg (omap (found1 q) keys)). destruct (Z.ltb_spec 0 (zlen (omap (found1 q) keys) + 1)); [|lia]. f_equal. rewrite <- Z.lor_assoc. f_equal. by destruct (_ <? _).
Qed.
Lemma no_query keys : found [] keys = [].
Proof. induction keys as [|[[|]|] keys IH]; cbn; done. Qed.

(** * The map *)
Lemma path_segments_cuts fuel : forall p, (length p <= fuel)%nat -> zlen p < 2 ^ 16 -> path_segments fuel p = map snd (cuts p).
Proof.
  induction fuel as [|fuel IH]; intros p Hl Hz; [by destruct p; [|cbn in Hl; lia]|]. destruct p as [|c p]; [done|]. cbn [path_segments].
  destruct (next_segment (c :: p)) as [[sl s] q] eqn:En. destruct (next_segment_spec (c :: p) _ _ _ ltac:(done) En) as (-> & Hq & E & _). cbn [map snd].
  assert (zlen sl + zlen s + zlen q = zlen (c :: p)) as Hlen by (rewrite E, !zlen_app; lia). pose proof (zlen_nonneg sl). pose proof (zlen_nonneg s). pose proof (zlen_nonneg q).
  rewrite IH by (cbn in *; lia). f_equal. unfold seg_span. apply ztake_all. rewrite u16_small; lia.
Qed.
Lemma segs_match_spec ps : forall ss, length ps = length ss ->
  segs_match ps ss = bool_decide (Forall2 (fun ps s => ps_var ps = true \/ ps_text ps = s) ps ss).
Proof.
  induction ps as [|x ps IH]; intros [|s ss] Hl; [by rewrite bool_decide_true by constructor|done|done|]. cbn [segs_match]. injection Hl as Hl. rewrite IH by done. unfold same.
  destruct (ps_var x) eqn:Ev; [|case_bool_decide as Ht].
  - apply bool_decide_ext. split; [by constructor; [left|]|by inversion 1].
  - apply bool_decide_ext. split; [by constructor; [right|]|by inversion 1].
  - symmetry. apply bool_decide_false. inversion 1 as [|???? []]; congruence.
Qed.
Lemma pat_matches_covers pat method path : pat_matches pat method (map snd (cuts path)) = covers method path pat.
Proof.
  unfold pat_matches, covers. destruct (Z.eqb_spec (zlen (rp_seg pat)) (zlen (map snd (cuts path)))) as [E|E]; cbn [negb].
  - rewrite segs_match_spec by (unfold zlen in E; lia). unfold same. destruct (rp_method pat) as [m|]; [case_bool_decide|]; done.
  - rewrite (bool_decide_false (Forall2 _ _ _)); [by rewrite andb_false_r|]. intros H. apply Forall2_length in H. unfold zlen in E. lia.
Qed.
Lemma map_lookup_find m method path : map_lookup m method (map snd (cuts path)) = List.find (covers method path) m.
Proof. induction m as [|pat m IH]; [done|]. cbn [map_lookup List.find]. by rewrite pat_matches_covers, IH. Qed.
Lemma from_map_hit cfg method path : zlen path < 2 ^ 16 -> from_map cfg method path = map_hit cfg method path.
Proof.
  intros Hz. unfold from_map, map_hit. destruct path as [|c path]; [by destruct (rcfg_map cfg)|]. rewrite zlen_cons. pose proof (zlen_nonneg path). destruct (Z.eqb_spec (zlen path + 1) 0); [lia|].
  cbn [orb]. destruct (rcfg_map cfg) as [m|]; [|by destruct (_ <? _)]. rewrite path_segments_cuts by done. rewrite map_lookup_find. unfold zlen at 1. rewrite length_map. fold (zlen (cuts (c :: path))).
  destruct (Z.leb_spec (zlen (cuts (c :: path))) LK_ROUTE_SEG_MAX), (Z.ltb_spec LK_ROUTE_SEG_MAX (zlen (cuts (c :: path)))); try lia; done.
Qed.

Lemma depth_range cfg : 0 <= rcfg_depth cfg -> 1 <= route_depth cfg <= LK_ROUTE_DEPTH_MAX.
Proof. intros H. unfold route_depth, LK_ROUTE_DEPTH_MAX, LK_ROUTE_DEPTH_DEF. destruct (Z.eqb_spec (rcfg_depth cfg) 0); [done|]. destruct (Z.ltb_spec 32 (rcfg_depth cfg)); lia. Qed.

(** * What can reach a label *)
Definition clean p : Prop := Forall (fun c => is_ctl c = false) p.
Lemma clean_app p q : clean (p ++ q) <-> clean p /\ clean q.
Proof. apply Forall_app. Qed.
Lemma clean_forallb p : forallb (fun c => negb (is_ctl c)) p = true -> clean p.
Proof. rewrite forallb_forall. intros H. apply Forall_forall. intros c Hc. by apply negb_true_iff, H. Qed.
Lemma clean_take n p : clean p -> clean (ztake n p).
Proof. apply Forall_take. Qed.
Lemma opaque_clean p : seg_opaque p = false -> clean p.
Proof.
  unfold seg_opaque. destruct (Z.eqb_spec (zlen p) 0) as [E|_]; [apply zlen_0 in E as ->; constructor|]. destruct (existsb is_ctl p) eqn:Ee; [done|]. intros _.
  apply Forall_forall. intros c Hc. apply not_true_is_false. intros Hx. apply not_true_iff_false in Ee. apply Ee. apply existsb_exists. by exists c.
Qed.
Lemma stem_clean p : forall cur, stem_from cur p = false -> clean (cur ++ p).
Proof.
  induction p as [|c p IH]; intros cur; cbn [stem_from]; [rewrite app_nil_r; apply opaque_clean|]. destruct (Z.eqb_spec c (ch ".")) as [->|_].
  - destruct (seg_opaque cur) eqn:Eo; [done|]. intros H. apply clean_app. split; [by apply opaque_clean|]. constructor; [done|by apply (IH [])].
  - intros H. apply IH in H. by rewrite <- app_assoc in H.
Qed.
Lemma alnum_clean p : forallb is_alnum p = true -> clean p.
Proof.
  rewrite forallb_forall. intros H. apply Forall_forall. intros c Hc%H. unfold is_alnum, is_alpha, is_lower, is_upper, is_digit, is_ctl in *. chars. apply orb_false_iff.
  rewrite Z.ltb_ge, Z.eqb_neq. repeat (apply orb_true_iff in Hc as [Hc|Hc]); apply andb_true_iff in Hc as [Hc1 Hc2]; apply Z.leb_le in Hc1, Hc2; lia.
Qed.
Lemma last_dot_at p : forall i f d, 0 <= i -> last_dot i p f = Some d -> f = Some d \/ i <= d /\ p !! Z.to_nat (d - i) = Some (ch ".").
Proof.
  induction p as [|c p IH]; intros i f d Hi; cbn [last_dot]; [by left|]. intros H. apply IH in H as [H|[H1 H2]]; [|right|lia].
  - destruct (Z.eqb_spec c (ch ".")) as [->|]; [|by left]. injection H as <-. right. split; [lia|]. by rewrite Z.sub_diag.
  - split; [lia|]. replace (Z.to_nat (d - i)) with (S (Z.to_nat (d - (i + 1)))) by lia. done.
Qed.
Lemma split_ext_spec p d : split_ext p = Some d -> p = ztake d p ++ ch "." :: zdrop (d + 1) p /\ clean (zdrop (d + 1) p).
Proof.
  unfold split_ext. destruct (last_dot 0 p None) as [d'|] eqn:E; [|done]. cbn [mbind option_bind]. apply last_dot_at in E as [E|[H1 H2]]; [done| |done]. rewrite Z.sub_0_r in H2.
  destruct (_ || _); [done|]. destruct (forallb is_alnum _) eqn:Ea; [|done]. destruct (existsb _ _); [|done]. intros [= <-]. split; [|by apply alnum_clean].
  unfold ztake, zdrop. replace (Z.to_nat (d' + 1)) with (S (Z.to_nat d')) by lia. symmetry. by apply take_drop_middle.
Qed.
Lemma seg_label_clean p : clean (seg_label p).
Proof.
  unfold seg_label. destruct (split_ext p) as [d|] eqn:E.
  - apply split_ext_spec in E as [E Hc]. destruct (stem_opaque _) eqn:Es; [apply clean_app; split; [by apply clean_forallb|done]|]. rewrite E. apply clean_app. split; [by apply (stem_clean _ [])|by constructor].
  - destruct (seg_opaque p) eqn:Eo; [by apply clean_forallb|by apply opaque_clean].
Qed.
Lemma value_label_clean v : clean (value_label v).
Proof. unfold value_label. destruct (_ <? _); [by apply clean_forallb|]. cbn [orb]. destruct (seg_opaque v) eqn:E; [by apply clean_forallb|by apply opaque_clean]. Qed.
Lemma cuts_slashes path : Forall (fun x => clean x.1) (cuts path).
Proof.
  unfold cuts. assert (forall ss : list (list Z), Forall (fun x => clean x.1) (map (pair (lit "/")) ss)) as H by (intros ss; apply Forall_map, Forall_true; intros; by apply clean_forallb).
  destruct (split_on _ _) as [|[|c s] ss]; [done|apply H|constructor; [constructor|apply H]].
Qed.
Lemma path_label_clean depth path : clean (path_label depth path).
Proof.
  unfold path_label. apply clean_app. split; [|by destruct (_ <? _); apply clean_forallb]. apply Forall_concat, Forall_map, Forall_take. refine (Forall_impl _ _ (cuts_slashes path)).
  intros [sl s] H. apply clean_app. split; [done|apply seg_label_clean].
Qed.
Lemma query_label_clean q keys : Forall (fun ok => clean (default [] ok)) keys -> clean (query_label q keys).
Proof.
  intros H. rewrite query_label_eq. assert (Forall (fun kv => clean kv.1) (omap (found1 q) keys)) as Hk.
  { induction H as [|ok keys Hok _ IH]; [done|]. cbn [omap list_omap]. destruct (found1 q ok) as [kv|] eqn:E; [|done]. constructor; [|done]. unfold found1 in E. destruct ok as [[|c k]|]; cbn in *; try done. destruct (query_value _ _); [|done]. by injection E as <-. }
  assert (forall sep, clean sep -> forall kv, clean kv.1 -> clean (pair_label sep kv)) as Hp.
  { intros sep Hs kv Hkv. unfold pair_label. rewrite !clean_app. split; [done|]. split; [done|]. split; [by apply clean_forallb|apply value_label_clean]. }
  inversion Hk as [|kv l Hkv Hl Hx]; [constructor|]. subst. apply clean_app. split; [by apply Hp; [apply clean_forallb|]|].
  apply Forall_concat, Forall_map. refine (Forall_impl _ _ Hl). intros kv'. apply Hp. by apply clean_forallb.
Qed.

(** * Routes *)
Section Route.
Variable XXH3 : list Z -> Z.

(** The whole function: the text is the template clipped to 255 bytes, the fingerprint
    hashes all of it. *)
Lemma norm_route_eq method target ocfg (cfg := default route_defaults ocfg) : 0 <= rcfg_depth cfg -> zlen target < 2 ^ 16 ->
  lk_norm_route XXH3 method target ocfg =
  let T := template method target cfg in
  RouteOut (ztake (LK_ROUTE_TEXT_MAX - 1) T) (XXH3 (method ++ 0 :: T)) (Z.lor (route_flags method target cfg) (bit (LK_ROUTE_TEXT_MAX - 1 <? zlen T) LK_ROUTE_F_TRUNC)).
Proof.
  intros Hd Ht. unfold lk_norm_route. fold cfg. unfold template, route_flags, route_path, route_query. destruct (span_spec (until (ch "?")) target) as (E & _). destruct (span _ target) as [path rest]. cbn [fst snd] in *.
  assert (zlen path < 2 ^ 16) as Hp by (rewrite E, zlen_app in Ht; pose proof (zlen_nonneg rest); lia). rewrite from_map_hit by done. cbv zeta.
  set (B := match map_hit cfg method path with Some pat => rp_text pat | None => _ end). set (rx := match map_hit cfg method path with Some _ => _ | None => _ end). set (F := match map_hit cfg method path with Some _ => _ | None => _ end).
  assert (rx = ctx_of method B F /\ has_flag F LK_ROUTE_F_QUERY = false) as [-> HF].
  { subst rx B F. change (route_start method) with (ctx_of method [] 0). destruct (map_hit cfg method path) as [pat|]; [by rewrite emit_ctx, flag_ctx|]. destruct (same path (lit "*")) eqn:Es.
    - apply same_eq in Es as ->. by rewrite emit_ctx.
    - rewrite walk_ctx by (pose proof (depth_range cfg Hd); lia). rewrite Z.sub_0_r. split; [done|]. by destruct (existsb _ _), (_ <? _). }
  unfold put_queries. destruct (past rest) as [|c q] eqn:Eq.
  - rewrite no_query. unfold query_label. rewrite no_query. cbn [imap concat bit]. change (0 <? zlen []) with false. cbn [bit]. by rewrite app_nil_r, Z.lor_0_r.
  - by rewrite put_queries_ctx.
Qed.

(** ** A declared route *)
Lemma given_runs_ctx m route : forall T fl run, given_runs (ctx_of m T fl) run route = ctx_of m (T ++ run ++ filter (fun c => is_ctl c = false) route) fl.
Proof.
  induction route as [|c route IH]; intros T fl run; cbn [given_runs]; [by rewrite emit_ctx, app_nil_r|]. rewrite filter_cons. destruct (is_ctl c).
  - rewrite emit_ctx, IH. cbn. rewrite decide_False by done. by rewrite <- app_assoc.
  - rewrite IH, decide_True by done. by rewrite <- (app_assoc run).
Qed.
Lemma norm_route_given_eq method route : let T := filter (fun c => is_ctl c = false) route in
  lk_norm_route_given XXH3 method route =
  RouteOut (ztake (LK_ROUTE_TEXT_MAX - 1) T) (XXH3 (method ++ 0 :: T)) (Z.lor LK_ROUTE_F_GIVEN (bit (LK_ROUTE_TEXT_MAX - 1 <? zlen T) LK_ROUTE_F_TRUNC)).
Proof. cbv zeta. unfold lk_norm_route_given. change (route_start method) with (ctx_of method [] 0). by rewrite given_runs_ctx, flag_ctx. Qed.
End Route.

(** * Map files *)
Lemma parse_line_clean p room pat : parse_line p room = LinePat pat -> clean (rp_text pat).
Proof.
  unfold parse_line. destruct (line_trim p) as [|b l]; [done|]. destruct (b =? ch "#"); [done|]. destruct (span_spec (fun c => negb (is_blank c)) (b :: l)) as (E & _). destruct (span _ (b :: l)) as [m q]. cbn [fst snd] in E.
  destruct (span_spec is_blank q) as (E2 & _). destruct (span is_blank q) as [bl path]. cbn [fst snd] in *. destruct (_ =? _); [|done]. cbn [negb]. destruct (forallb _ (b :: l)) eqn:Ef; [|done]. cbn [negb orb]. destruct (_ || _); [done|].
  destruct (pat_split path); [|done]. intros [= <-]. cbn. assert (clean (b :: l)) as H.
  { apply clean_forallb. rewrite forallb_forall in *. intros c Hc. specialize (Ef c Hc). by apply andb_true_iff in Ef as [[? _]%andb_true_iff _]. }
  rewrite E, E2 in H. by apply clean_app in H as [_ [_ ?]%clean_app].
Qed.
Lemma map_lines_clean lines fuel : forall p m bad, Forall (fun pat => clean (rp_text pat)) m -> Forall (fun pat => clean (rp_text pat)) (map_lines fuel p lines m bad).1.
Proof.
  induction fuel as [|fuel IH]; intros p m bad Hm; [by destruct p|]. destruct p as [|c p]; [done|]. cbn [map_lines]. destruct (span _ (c :: p)) as [l q]. destruct (parse_line l _) as [| |pat] eqn:E; [by apply IH..|].
  apply IH, Forall_app. split; [done|]. constructor; [by eapply parse_line_clean|done].
Qed.
Lemma map_parse_clean text o1 o2 m : (lk_route_map_parse text o1 o2).1 = Some m -> Forall (fun pat => clean (rp_text pat)) m.
Proof.
  unfold lk_route_map_parse. destruct text as [|c text]; [done|]. destruct (_ || _); [done|]. pose proof (map_lines_clean (if LK_ROUTE_MAP_MAX <? 1 + count (Z.eqb 10) (c :: text) then LK_ROUTE_MAP_MAX else 1 + count (Z.eqb 10) (c :: text)) (length (c :: text)) (c :: text) [] 0 ltac:(constructor)) as H.
  cbv zeta. destruct (map_lines _ _ _ _ _) as [m' bad]. cbn [fst] in *. destruct m'; [done|]. by intros [= <-].
Qed.
Lemma find_clean m method path pat : Forall (fun pat => clean (rp_text pat)) m -> List.find (covers method path) m = Some pat -> clean (rp_text pat).
Proof. intros H [Hi _]%find_some. rewrite Forall_forall in H. by apply H. Qed.

(** ** Notation *)
Inductive item := IPat (pat : route_pat) (cr : bool) | IComment (s : list Z) | IBlank.
Definition line_of (pat : route_pat) : list Z := default (lit "*") (rp_method pat) ++ lit " " ++ rp_text pat.
Definition render (it : item) : list Z :=
  match it with
  | IPat pat cr => line_of pat ++ (if cr then [13; 10] else [10])
  | IComment s => ch "#" :: s ++ [10]
  | IBlank => [10]
  end.
Definition plain_byte c : bool := negb (is_ctl c) && negb (c =? ch "?") && negb (c =? ch "#").
Definition pat_wf (pat : route_pat) : Prop :=
  match rp_method pat with Some m => m <> [] /\ m <> lit "*" /\ Forall (fun c => plain_byte c = true /\ is_blank c = false) m | None => True end /\
  (exists t u c, rp_text pat = ch "/" :: t /\ rp_text pat = u ++ [c] /\ is_blank c = false) /\
  Forall (fun c => plain_byte c = true) (rp_text pat) /\ zlen (rp_text pat) < LK_ROUTE_TEXT_MAX /\
  zlen (cuts (rp_text pat)) <= LK_ROUTE_SEG_MAX /\ rp_seg pat = map (fun s => PatSeg s (is_var s)) (map snd (cuts (rp_text pat))).
Definition item_wf (it : item) : Prop :=
  match it with IPat pat _ => pat_wf pat | IComment s => Forall (fun c => c <> 10) s | IBlank => True end.
Definition pats (its : list item) : list route_pat := omap (fun it => match it with IPat pat _ => Some pat | _ => None end) its.

Lemma pat_segs_cuts fuel : forall p n, (length p <= fuel)%nat -> zlen p < 2 ^ 16 -> 0 <= n -> n + zlen (cuts p) <= LK_ROUTE_SEG_MAX ->
  pat_segs fuel n p = Some (map (fun s => PatSeg s (is_var s)) (map snd (cuts p))).
Proof.
  induction fuel as [|fuel IH]; intros p n Hl Hz Hn Hc; [by destruct p; [|cbn in Hl; lia]|]. destruct p as [|c p]; [done|]. cbn [pat_segs].
  destruct (next_segment (c :: p)) as [[sl s] q] eqn:En. destruct (next_segment_spec (c :: p) _ _ _ ltac:(done) En) as (Ec & Hq & E & _). rewrite Ec in *. rewrite zlen_cons in Hc. pose proof (zlen_nonneg (cuts q)).
  assert (zlen sl + zlen s + zlen q = zlen (c :: p)) as Hlen by (rewrite E, !zlen_app; lia). pose proof (zlen_nonneg sl). pose proof (zlen_nonneg s). pose proof (zlen_nonneg q).
  destruct (Z.leb_spec LK_ROUTE_SEG_MAX n); [lia|]. rewrite IH by (cbn in *; lia). cbn [mbind option_bind map snd]. do 3 f_equal. unfold seg_span. apply ztake_all. rewrite u16_small; lia.
Qed.
Lemma trim_end_id f p c : f c = false -> trim_end f (p ++ [c]) = p ++ [c].
Proof. intros Hf. unfold trim_end. rewrite rev_app_distr. cbn. rewrite Hf. cbn. by rewrite rev_involutive. Qed.
Lemma line_trim_id p u c (cr : bool) : stops is_blank p -> p = u ++ [c] -> is_blank c = false -> c <> 13 -> line_trim (p ++ if cr then [13] else []) = p.
Proof.
  intros Hh Hl Hb H13. assert (trim_end is_blank (span is_blank p).2 = p) as H.
  { replace (span is_blank p) with (@nil Z, p) by (symmetry; by apply (span_app _ [])). subst p. by apply trim_end_id. }
  unfold line_trim. destruct cr.
  - rewrite zlen_app. change (zlen [13]) with 1. rewrite Z.add_simpl_r. unfold znth. rewrite app_nth2 by (unfold zlen; lia). unfold zlen at 1. rewrite Nat2Z.id, Nat.sub_diag. cbn [nth]. rewrite Z.eqb_refl, ztake_app_le, ztake_all by lia. done.
  - rewrite app_nil_r. subst p. rewrite zlen_app in *. change (zlen [c]) with 1. rewrite Z.add_simpl_r. unfold znth. rewrite app_nth2 by (unfold zlen; lia). unfold zlen at 1. rewrite Nat2Z.id, Nat.sub_diag. cbn [nth].
    destruct (Z.eqb_spec c 13); [done|]. done.
Qed.
Lemma plain_facts c : plain_byte c = true -> c <> 13 /\ c <> 10 /\ c <> ch "#".
Proof. unfold plain_byte, is_ctl. intros [[H1 H2]%andb_true_iff H3]%andb_true_iff. repeat split; intros ->; done. Qed.
Lemma method_plain pat : pat_wf pat -> let m := default (lit "*") (rp_method pat) in
  m <> [] /\ Forall (fun c => plain_byte c = true /\ is_blank c = false) m /\ (if same m (lit "*") then None else Some m) = rp_method pat.
Proof.
  intros [Hm _]. destruct (rp_method pat) as [m|]; cbn [from_option]; unfold id.
  - destruct Hm as (H1 & H2 & H3). split; [done|]. split; [done|]. destruct (same m (lit "*")) eqn:E; [by apply same_eq in E|done].
  - split; [done|]. split; [by repeat constructor|done].
Qed.
Lemma line_plain pat : pat_wf pat -> Forall (fun c => plain_byte c = true) (line_of pat).
Proof.
  intros Hw. destruct (method_plain pat Hw) as (_ & Hm & _). destruct Hw as (_ & _ & Ht & _). unfold line_of. apply Forall_app. split; [by refine (Forall_impl _ _ Hm); tauto|]. by constructor.
Qed.
Lemma parse_line_pat pat (cr : bool) : pat_wf pat -> parse_line (line_of pat ++ if cr then [13] else []) true = LinePat pat.
Proof.
  intros Hw. pose proof (line_plain pat Hw) as Hp. destruct (method_plain pat Hw) as (Hne & Hm & Em). pose proof Hw as (_ & (t & u & c & Et & Eu & Hc) & Ht & Hl & Hs & Eseg).
  unfold parse_line. rewrite (line_trim_id _ (default (lit "*") (rp_method pat) ++ lit " " ++ u) c).
  2: { unfold line_of. destruct (default (lit "*") (rp_method pat)); [done|]. by inversion Hm as [|?? [_ ?] _]. }
  2: { unfold line_of. rewrite Eu, <- !app_assoc. done. } 2: { done. }
  2: { rewrite Eu in Ht. apply Forall_app in Ht as [_ Ht]. inversion Ht. by apply plain_facts. }
  unfold line_of in *. set (m := default (lit "*") (rp_method pat)) in *.
  assert (span (fun c => negb (is_blank c)) (m ++ lit " " ++ rp_text pat) = (m, lit " " ++ rp_text pat)) as Esp.
  { apply span_app; [|done]. refine (Forall_impl _ _ Hm). intros x [_ ->]. done. }
  assert ((span is_blank (lit " " ++ rp_text pat)).2 = rp_text pat) as Esp2.
  { rewrite (span_app is_blank (lit " ")); [done|by repeat constructor|]. by rewrite Et. }
  destruct (m ++ lit " " ++ rp_text pat) as [|b l] eqn:El; [by destruct m|]. assert (b <> ch "#") as Hb by (inversion Hp; by apply plain_facts).
  destruct (Z.eqb_spec b (ch "#")); [done|]. rewrite Esp, Esp2. replace (znth (rp_text pat) 0) with (ch "/") by by rewrite Et. cbn [negb].
  replace (forallb _ (b :: l)) with true by (symmetry; apply forallb_forall; by apply Forall_forall). unfold LK_ROUTE_TEXT_MAX in *. destruct (Z.leb_spec 256 (zlen (rp_text pat))); [lia|]. cbn [negb orb].
  unfold pat_split. rewrite pat_segs_cuts by (try done; try lia). rewrite <- Eseg. destruct (rp_seg pat) as [|x xs] eqn:Ex.
  { destruct (cuts (rp_text pat)) eqn:E0; [|done]. apply cuts_nil in E0. by rewrite E0 in Et. }
  rewrite Em, <- Ex. by destruct pat.
Qed.
Lemma map_line_step fuel l q lines m bad : Forall (fun c => c <> 10) l -> map_lines (S fuel) (l ++ 10 :: q) lines m bad =
  match parse_line l (zlen m <? lines) with
  | LineSkip => map_lines fuel q lines m bad
  | LineBad => map_lines fuel q lines m (u32 (bad + 1))
  | LinePat pat => map_lines fuel q lines (m ++ [pat]) bad
  end.
Proof.
  intros Hl. assert (span (until 10) (l ++ 10 :: q) = (l, 10 :: q)) as E by (apply span_app; [by apply until_ne|done]). cbn [map_lines]. rewrite E. by destruct l.
Qed.
Lemma map_items its : forall fuel m lines bad, Forall item_wf its -> zlen m + zlen (pats its) <= lines -> (length its <= fuel)%nat ->
  map_lines fuel (concat (map render its)) lines m bad = (m ++ pats its, bad).
Proof.
  induction its as [|it its IH]; intros fuel m lines bad Hw Hn Hf; [cbn; rewrite app_nil_r; by destruct fuel|]. destruct fuel as [|fuel]; [cbn in Hf; lia|]. inversion Hw as [|?? Hit Hits]; subst. cbn [map concat]. pose proof (zlen_nonneg (pats its)).
  destruct it as [pat cr|s|]; cbn [render]; unfold pats in *; cbn [omap list_omap] in *; fold (pats its) in *.
  - rewrite zlen_cons in Hn. replace ((line_of pat ++ (if cr then [13; 10] else [10])) ++ concat (map render its)) with ((line_of pat ++ if cr then [13] else []) ++ 10 :: concat (map render its)) by (destruct cr; rewrite <- !app_assoc; done).
    rewrite map_line_step.
    + destruct (Z.ltb_spec (zlen m) lines); [|lia]. rewrite parse_line_pat by done. rewrite IH by (first [done|cbn in Hf; lia|rewrite zlen_app; change (zlen [pat]) with 1; lia]). by rewrite <- app_assoc.
    + apply Forall_app. split; [|by destruct cr; repeat constructor]. refine (Forall_impl _ _ (line_plain pat Hit)). intros c Hc. by apply plain_facts.
  - cbn in Hit. replace ((ch "#" :: s ++ [10]) ++ concat (map render its)) with ((ch "#" :: s) ++ 10 :: concat (map render its)) by (cbn; by rewrite <- app_assoc). rewrite (map_line_step fuel (ch "#" :: s)) by by constructor.
    assert (exists l, line_trim (ch "#" :: s) = ch "#" :: l) as [l El].
    { unfold line_trim. set (p := if _ =? 13 then _ else _). assert (exists p', p = ch "#" :: p') as [p' ->].
      { subst p. destruct (_ =? 13) eqn:E13; [|eauto]. destruct s as [|x s]; [by vm_compute in E13|]. rewrite !zlen_cons. pose proof (zlen_nonneg s). rewrite ztake_cons by lia. eauto. }
      cbn [span]. change (is_blank (ch "#")) with false. cbn [snd]. unfold trim_end. cbn [rev]. destruct (span_spec is_blank (rev p' ++ [ch "#"])) as (E & Ha & Hb). destruct (span _ _) as [a b]. cbn [fst snd] in *.
      destruct b as [|x b] using rev_ind; [rewrite app_nil_r in E; rewrite <- E in Ha; apply Forall_app in Ha as [_ Ha]; by inversion Ha|]. rewrite app_assoc in E. apply app_inj_tail in E as [_ <-]. rewrite rev_app_distr. cbn. eauto. }
    unfold parse_line. rewrite El. cbn [Z.eqb]. rewrite Z.eqb_refl. apply IH; cbn in *; lia || done.
  - change ([10] ++ concat (map render its)) with ([] ++ 10 :: concat (map render its)). rewrite map_line_step by constructor. apply IH; cbn in *; lia || done.
Qed.

(** * Redaction *)
Definition field : Type := list Z * option (list Z).
Definition show_field (x : field) : list Z := x.1 ++ match x.2 with Some v => ch "=" :: v | None => [] end.
(** A query: fields with the separator after each, and the last one. *)
Definition show_query (fs : list (field * Z)) (l : field) : list Z := concat (map (fun x => show_field x.1 ++ [x.2]) fs) ++ show_field l.
Definition field_wf (x : field) : Prop := Forall (fun c => is_key_byte c = true) x.1 /\ Forall (fun c => no_sep c = true) (default [] x.2).
Definition fields_wf (fs : list (field * Z)) (l : field) : Prop := Forall (fun x => field_wf x.1 /\ is_sep x.2 = true) fs /\ field_wf l.
Definition hide (mark : list Z -> list Z) (x : field) : field := (x.1, v ← x.2; Some (if key_is_secret x.1 then mark v else v)).
Definition hide_all mark (fs : list (field * Z)) : list (field * Z) := map (fun x => (hide mark x.1, x.2)) fs.
Definition leaks (x : field) : bool := key_is_secret x.1 && match x.2 with Some _ => true | None => false end.

Lemma put_take cap T s : 0 <= cap -> put cap (ztake cap T) s = ztake cap (T ++ s).
Proof.
  intros Hc. unfold put. pose proof (zlen_nonneg T). rewrite zlen_ztake by done. destruct (Z.le_gt_cases (zlen T) cap).
  - rewrite (ztake_all cap T), ztake_app_ge by done. do 2 f_equal. lia.
  - rewrite (ztake_app_le cap) by lia. rewrite (ztake_0 _ s) by lia. by rewrite app_nil_r.
Qed.
Lemma sep_stops x q : is_sep x = true -> stops is_key_byte (x :: q) /\ stops no_sep (x :: q) /\ x <> ch "=".
Proof. intros H. cbn. unfold is_key_byte, no_sep. rewrite H. rewrite andb_false_r. repeat split. by intros ->. Qed.
(** The head of a query, by the shape of its first field. *)
Lemma key_span x q : field_wf x -> stops is_key_byte q -> stops no_sep q ->
  span is_key_byte (show_field x ++ q) = (x.1, match x.2 with Some v => ch "=" :: v ++ q | None => q end) /\
  (forall v, x.2 = Some v -> span no_sep (v ++ q) = (v, q)).
Proof.
  intros [Hk Hv] Hq1 Hq2. unfold show_field. split.
  - rewrite <- app_assoc. destruct (x.2) as [v|]; apply span_app; done.
  - intros v E. rewrite E in Hv. by apply span_app.
Qed.
Lemma sep_ne_eq (s : Z) q : is_sep s = true -> (s =? ch "=") = false.
Proof. intros H. by apply Z.eqb_neq, (sep_stops s q). Qed.
Lemma show_nil x : (length (show_query [] x) <= 0)%nat -> x = ([], None).
Proof. unfold show_query, show_field. destruct x as [[|c k] [v|]]; cbn; rewrite ?length_app; cbn; intros; try lia; done. Qed.
Lemma show_more x (s : Z) fs l fuel : (length (show_query ((x, s) :: fs) l) <= fuel)%nat -> exists fuel', fuel = S fuel' /\ (length (show_query fs l) <= fuel')%nat.
Proof. unfold show_query. cbn [map concat fst snd]. rewrite !length_app. cbn [length]. intros H. exists (pred fuel). lia. Qed.
Lemma copy_step fuel cap T x (s : Z) q : 0 <= cap -> field_wf x -> is_sep s = true ->
  redact_copy (S fuel) cap (ztake cap T) (show_field x ++ s :: q) = redact_copy fuel cap (ztake cap (T ++ show_field (hide (fun _ => LK_REDACT_MARK) x) ++ [s])) q.
Proof.
  intros Hc Hw Hs. destruct (sep_stops s q Hs) as (H1 & H2 & H3). destruct (key_span x (s :: q) Hw H1 H2) as [Ek Ev]. cbn [redact_copy]. rewrite Ek. unfold hide, show_field. destruct x as [k [v|]]; cbn [fst snd mbind option_bind] in *.
  - rewrite Z.eqb_refl, (Ev v eq_refl), !put_take by done.  destruct ((k ++ ch "=" :: v) ++ s :: q) eqn:E; [by destruct k|]. by rewrite <- !app_assoc.
  - rewrite (sep_ne_eq s q Hs), !put_take by done. rewrite !app_nil_r. destruct (k ++ s :: q) eqn:E; [by destruct k|]. by rewrite <- !app_assoc.
Qed.
Lemma copy_last fuel cap T x : 0 <= cap -> field_wf x -> redact_copy (S fuel) cap (ztake cap T) (show_field x) = ztake cap (T ++ show_field (hide (fun _ => LK_REDACT_MARK) x)).
Proof.
  intros Hc Hw. destruct (key_span x [] Hw I I) as [Ek Ev]. rewrite app_nil_r in Ek. cbn [redact_copy]. rewrite Ek. unfold hide, show_field. destruct x as [k [v|]]; cbn [fst snd mbind option_bind] in *.
  - rewrite Z.eqb_refl, (Ev v eq_refl), !put_take by done. destruct (k ++ ch "=" :: v) eqn:E; [by destruct k|]. by rewrite <- !app_assoc.
  - rewrite put_take, app_nil_r by done. destruct k; [by rewrite app_nil_r|done].
Qed.
Lemma copy_all fs l : forall fuel cap T, 0 <= cap -> fields_wf fs l -> (length (show_query fs l) <= fuel)%nat ->
  redact_copy fuel cap (ztake cap T) (show_query fs l) = ztake cap (T ++ show_query (hide_all (fun _ => LK_REDACT_MARK) fs) (hide (fun _ => LK_REDACT_MARK) l)).
Proof.
  induction fs as [|[x s] fs IH]; intros fuel cap T Hc [Hf Hl] Hfu.
  { destruct fuel; [|by apply copy_last]. rewrite (show_nil l Hfu). cbn. by rewrite app_nil_r. }
  destruct (show_more x s fs l fuel Hfu) as (fuel' & -> & Hfu'). inversion Hf as [|?? [Hx Hs] Hfs]; subst.
  unfold show_query. cbn [map concat fst snd]. rewrite <- !app_assoc. cbn [app]. rewrite copy_step by done. fold (show_query fs l). rewrite IH by done. f_equal. unfold show_query. cbn [hide_all map concat fst snd]. by rewrite <- !app_assoc.
Qed.

Definition stars (v : list Z) : list Z := map (fun _ => ch "*") v.
Lemma fill_step fuel x (s : Z) q : field_wf x -> is_sep s = true -> redact_fill (S fuel) (show_field x ++ s :: q) = show_field (hide stars x) ++ s :: redact_fill fuel q.
Proof.
  intros Hw Hs. destruct (sep_stops s q Hs) as (H1 & H2 & H3). destruct (key_span x (s :: q) Hw H1 H2) as [Ek Ev]. cbn [redact_fill]. rewrite Ek. unfold hide, show_field. destruct x as [k [v|]]; cbn [fst snd mbind option_bind] in *.
  - rewrite Z.eqb_refl, (Ev v eq_refl). destruct ((k ++ ch "=" :: v) ++ s :: q) eqn:E; [by destruct k|]. by rewrite <- !app_assoc.
  - rewrite (sep_ne_eq s q Hs). rewrite !app_nil_r. by destruct (k ++ s :: q) eqn:E; [destruct k|].
Qed.
Lemma fill_last fuel x : field_wf x -> redact_fill (S fuel) (show_field x) = show_field (hide stars x).
Proof.
  intros Hw. destruct (key_span x [] Hw I I) as [Ek Ev]. rewrite app_nil_r in Ek. cbn [redact_fill]. rewrite Ek. unfold hide, show_field. destruct x as [k [v|]]; cbn [fst snd mbind option_bind] in *.
  - rewrite Z.eqb_refl, (Ev v eq_refl). destruct (k ++ ch "=" :: v) eqn:E; [by destruct k|]. by rewrite app_nil_r.
  - rewrite app_nil_r. by destruct k.
Qed.
Lemma fill_all fs l : forall fuel, fields_wf fs l -> (length (show_query fs l) <= fuel)%nat -> redact_fill fuel (show_query fs l) = show_query (hide_all stars fs) (hide stars l).
Proof.
  induction fs as [|[x s] fs IH]; intros fuel [Hf Hl] Hfu.
  { destruct fuel; [|by apply fill_last]. by rewrite (show_nil l Hfu). }
  destruct (show_more x s fs l fuel Hfu) as (fuel' & -> & Hfu'). inversion Hf as [|?? [Hx Hs] Hfs]; subst.
  unfold show_query. cbn [map concat fst snd]. rewrite <- !app_assoc. cbn [app]. rewrite fill_step by done. fold (show_query fs l). rewrite IH by done. unfold show_query. cbn [hide_all map concat fst snd]. by rewrite <- !app_assoc.
Qed.
Lemma scan_step fuel x (s : Z) q : field_wf x -> is_sep s = true -> redact_scan (S fuel) (show_field x ++ s :: q) = leaks x || redact_scan fuel q.
Proof.
  intros Hw Hs. destruct (sep_stops s q Hs) as (H1 & H2 & H3). destruct (key_span x (s :: q) Hw H1 H2) as [Ek Ev]. cbn [redact_scan]. rewrite Ek. unfold leaks, show_field. destruct x as [k [v|]]; cbn [fst snd] in *.
  - replace (span no_sep (ch "=" :: v ++ s :: q)) with (ch "=" :: v, s :: q) by (symmetry; cbn [span]; change (no_sep (ch "=")) with true; cbn iota; by rewrite (Ev v eq_refl)).
    change (znth (ch "=" :: v ++ s :: q) 0 =? ch "=") with true. cbn [negb snd past]. rewrite andb_true_r. by destruct ((k ++ ch "=" :: v) ++ s :: q) eqn:E; [destruct k|destruct (key_is_secret k)].
  - change (znth (s :: q) 0) with s. rewrite (sep_ne_eq s q Hs), andb_false_r. cbn [negb past orb]. rewrite app_nil_r. by destruct (k ++ s :: q) eqn:E; [destruct k|].
Qed.
Lemma scan_last fuel x : field_wf x -> redact_scan (S fuel) (show_field x) = leaks x.
Proof.
  intros Hw. destruct (key_span x [] Hw I I) as [Ek Ev]. rewrite app_nil_r in Ek. cbn [redact_scan]. rewrite Ek. unfold leaks, show_field. destruct x as [k [v|]]; cbn [fst snd] in *.
  - rewrite app_nil_r in Ek |- *. specialize (Ev v eq_refl). rewrite app_nil_r in Ev. replace (span no_sep (ch "=" :: v)) with (ch "=" :: v, @nil Z) by (symmetry; cbn [span]; change (no_sep (ch "=")) with true; cbn iota; by rewrite Ev).
    change (znth (ch "=" :: v) 0 =? ch "=") with true. cbn [negb snd past]. rewrite andb_true_r. destruct (k ++ ch "=" :: v) eqn:E; [by destruct k|]. destruct (key_is_secret k); [done|]. by destruct fuel.
  - rewrite andb_false_r. destruct (k ++ []); [done|]. change (znth [] 0 =? ch "=") with false. cbn. by destruct fuel.
Qed.
Lemma scan_all fs l : forall fuel, fields_wf fs l -> (length (show_query fs l) <= fuel)%nat -> redact_scan fuel (show_query fs l) = existsb (fun x => leaks x.1) fs || leaks l.
Proof.
  induction fs as [|[x s] fs IH]; intros fuel [Hf Hl] Hfu.
  { destruct fuel; [|by apply scan_last]. by rewrite (show_nil l Hfu). }
  destruct (show_more x s fs l fuel Hfu) as (fuel' & -> & Hfu'). inversion Hf as [|?? [Hx Hs] Hfs]; subst.
  unfold show_query. cbn [map concat fst snd]. rewrite <- !app_assoc. cbn [app]. rewrite scan_step by done. fold (show_query fs l). rewrite IH by done. cbn. by rewrite orb_assoc.
Qed.
(** Every query has fields. *)
Lemma query_fields n : forall q, (length q <= n)%nat -> exists fs l, fields_wf fs l /\ show_query fs l = q.
Proof.
  assert (forall q, exists x r, field_wf x /\ show_field x ++ r = q /\ stops no_sep r) as Hone.
  { intros q. destruct (span_spec is_key_byte q) as (E & Ha & Hb). destruct (span is_key_byte q) as [k r]. cbn [fst snd] in *. assert ((exists v, r = ch "=" :: v) \/ ~ exists v, r = ch "=" :: v) as [[v ->]|Hne].
    { destruct r as [|c v]; [right; by intros [? ?]|]. destruct (Z.eq_dec c (ch "=")) as [->|]; [left; eauto|right; intros [? [=]]; done]. }
    - destruct (span_spec no_sep v) as (Ev & Hv & Hr). destruct (span no_sep v) as [v' r']. cbn [fst snd] in *. exists (k, Some v'), r'. split; [done|]. split; [|done]. unfold show_field. cbn. rewrite <- app_assoc. cbn. by rewrite <- Ev.
    - exists (k, None), r. split; [done|]. split; [unfold show_field; cbn; by rewrite app_nil_r|]. destruct r as [|c r]; [done|]. cbn in *. unfold is_key_byte in Hb. unfold no_sep. destruct (Z.eqb_spec c (ch "=")) as [->|]; [exfalso; eauto|]. done. }
  induction n as [|n IH]; intros q Hl; destruct (Hone q) as (x & r & Hx & Er & Hr).
  - exists [], x. split; [by split|]. unfold show_query. cbn [map concat app]. destruct r; [rewrite app_nil_r in Er; exact Er|]. subst q. rewrite length_app in Hl. cbn in Hl. lia.
  - destruct r as [|c r]; [exists [], x; split; [by split|]; unfold show_query; cbn [map concat app]; by rewrite app_nil_r in Er|]. destruct (IH r) as (fs & l & [Hf Hl'] & E); [subst q; rewrite length_app in Hl; cbn in Hl; lia|].
    exists ((x, c) :: fs), l. split; [split; [|done]; constructor; [|done]; split; [done|]; cbn [snd]; cbn in Hr; unfold no_sep in Hr; by destruct (is_sep c)|].
    unfold show_query in *. cbn [map concat fst snd]. rewrite <- !app_assoc. rewrite E. done.
Qed.

(** * The claims *)
Section Claims.
Variable XXH3 : list Z -> Z.

(** C19: The route of a request is the reference template of its target: the first pattern
    of the map that covers the path segment by segment, or the path split at its slashes
    with each segment kept or collapsed on its own up to the depth limit, then the named
    query keys the query has, in the configured order.  The text is that template clipped
    to 255 bytes, the fingerprint is the hash of the method and the whole of it, and the
    flags say what happened.  The loops of the code, its emitter and its fuel never show. *)
Theorem norm_route_exact method target ocfg (cfg := default route_defaults ocfg) : 0 <= rcfg_depth cfg -> zlen target < 2 ^ 16 ->
  lk_norm_route XXH3 method target ocfg =
  RouteOut (ztake (LK_ROUTE_TEXT_MAX - 1) (template method target cfg)) (XXH3 (method ++ 0 :: template method target cfg))
    (Z.lor (route_flags method target cfg) (bit (LK_ROUTE_TEXT_MAX - 1 <? zlen (template method target cfg)) LK_ROUTE_F_TRUNC)).
Proof. apply norm_route_eq. Qed.

(** C28: What can reach a route label, whatever the request: with a map that was parsed from
    a file and configured keys free of control bytes, no control byte, and never more than
    255 bytes; and of the query only the values of the keys that were named: two targets
    with the same path that agree on those have the same route, fingerprint included. *)
Theorem route_label_safe method target ocfg (cfg := default route_defaults ocfg) text o1 o2 : 0 <= rcfg_depth cfg -> zlen target < 2 ^ 16 ->
  (rcfg_map cfg = None \/ rcfg_map cfg = (lk_route_map_parse text o1 o2).1) -> Forall (fun ok => clean (default [] ok)) (rcfg_query_keys cfg) ->
  let o := lk_norm_route XXH3 method target ocfg in
  Forall (fun c => is_ctl c = false) (rt_text o) /\ zlen (rt_text o) < LK_ROUTE_TEXT_MAX /\
  forall target', zlen target' < 2 ^ 16 -> route_path target' = route_path target ->
    (forall k, Some k ∈ rcfg_query_keys cfg -> query_value (route_query target') k = query_value (route_query target) k) ->
    lk_norm_route XXH3 method target' ocfg = o.
Proof.
  intros Hd Ht Hm Hk. cbv zeta. rewrite !norm_route_eq by done. fold cfg. cbn [rt_text]. split; [|split].
  - apply clean_take. unfold template. apply clean_app. split; [|by apply query_label_clean]. destruct (map_hit cfg method (route_path target)) as [pat|] eqn:Eh.
    + unfold map_hit in Eh. destruct (_ || _); [done|]. destruct (rcfg_map cfg) as [m|] eqn:Em; [|done]. destruct Hm as [?|Hm]; [done|]. symmetry in Hm. eapply find_clean; [by eapply map_parse_clean|exact Eh].
    + destruct (same _ _) eqn:Es; [apply same_eq in Es as ->; by apply clean_forallb|apply path_label_clean].
  - rewrite zlen_ztake by done. unfold LK_ROUTE_TEXT_MAX. lia.
  - intros target' Ht' Ep Eq. rewrite norm_route_eq by done. fold cfg. assert (found (route_query target') (rcfg_query_keys cfg) = found (route_query target) (rcfg_query_keys cfg)) as Ef.
    { unfold found. apply list_omap_ext, Forall_Forall2_diag, Forall_forall. intros [k|] Hin; [|done]. cbn. destruct k as [|c k]; [done|]. by rewrite Eq by by apply list_elem_of_In. }
    unfold template, route_flags, query_label. by rewrite Ep, Ef.
Qed.

(** C39: A route map file says what it says: patterns written one per line with their method
    or a star, with or without a CR, between comments and blank lines, are parsed back into
    exactly those patterns in that order, with no line rejected. *)
Theorem route_map_roundtrip its : Forall item_wf its -> 0 < zlen (pats its) <= LK_ROUTE_MAP_MAX ->
  lk_route_map_parse (concat (map render its)) false false = (Some (pats its), 0).
Proof.
  intros Hw Hn. assert (forall l, (length l <= length (concat (map render l)))%nat /\ zlen (pats l) <= count (Z.eqb 10) (concat (map render l))) as Hlen.
  { clear. induction l as [|it l [IH1 IH2]]; [done|]. cbn [map concat length]. unfold count in *. rewrite length_app, list.filter_app, zlen_app. pose proof (zlen_nonneg (filter (fun c => (10 =? c) = true) (render it))).
    assert (1 <= length (render it))%nat by (destruct it as [pat []|s|]; cbn [render length]; rewrite ?length_app; cbn; lia).
    split; [lia|]. destruct it as [pat cr|s|]; unfold pats in *; cbn [omap list_omap]; fold (pats l) in *; [|lia..]. rewrite zlen_cons. cbn [render].
    assert (1 <= zlen (filter (fun c => (10 =? c) = true) (line_of pat ++ (if cr then [13; 10] else [10])))); [|lia]. rewrite list.filter_app, zlen_app. pose proof (zlen_nonneg (filter (fun c => (10 =? c) = true) (line_of pat))). destruct cr; vm_compute (zlen (filter _ (_ :: _))); lia. }
  destruct (Hlen its) as [H1 H2]. unfold lk_route_map_parse. destruct (concat (map render its)) as [|c text] eqn:Et.
  { destruct its; [by destruct Hn as [Hn _]; vm_compute in Hn|]. cbn in H1. lia. }
  cbv zeta. cbn [orb]. rewrite <- Et, map_items; [|done| |by rewrite Et].
  - cbn [app]. destruct (pats its); [by destruct Hn as [Hn _]; vm_compute in Hn|done].
  - change (zlen []) with 0. rewrite Et. unfold LK_ROUTE_MAP_MAX in *. destruct (Z.ltb_spec 512 (1 + count (Z.eqb 10) (c :: text))); lia.
Qed.

(** C38: Redaction hides exactly the values of the credential-shaped keys: of any target
    with a query, read as fields between [&] and [;], the copy is the target with each
    such value replaced by three stars, clipped to the buffer; the in-place form blanks
    them one byte for one; and the cheap test answers whether there is one to hide. *)
Theorem url_redact_exact path fs l cap : Forall (fun c => c <> ch "?") path -> fields_wf fs l -> 0 <= cap ->
  let target := path ++ ch "?" :: show_query fs l in
  let mark := fun _ => LK_REDACT_MARK in
  lk_url_redact target cap = ztake cap (path ++ ch "?" :: show_query (hide_all mark fs) (hide mark l)) /\
  lk_url_redact_inplace target = path ++ ch "?" :: show_query (hide_all stars fs) (hide stars l) /\
  lk_url_redact_needed target = existsb (fun x => leaks x.1) fs || leaks l /\
  (forall q, exists fs l, fields_wf fs l /\ show_query fs l = q).
Proof.
  intros Hp Hw Hc. cbv zeta. assert (span (until (ch "?")) (path ++ ch "?" :: show_query fs l) = (path, ch "?" :: show_query fs l)) as E by (apply span_app; [by apply until_ne|done]).
  unfold lk_url_redact, lk_url_redact_inplace, lk_url_redact_needed. rewrite E. cbn [snd]. split; [|split; [|split]].
  - replace (put cap [] path) with (ztake cap path) by (unfold put; by rewrite zlen_nil, Z.sub_0_r). rewrite put_take, copy_all by done. by rewrite <- app_assoc.
  - by rewrite fill_all.
  - by rewrite scan_all.
  - intros q. by apply (query_fields (length q)).
Qed.
End Claims.

(** * Witnesses *)
Definition w_hash (p : list Z) : Z := u64 (foldl (fun h c => h * 131 + c) 7 p).
Definition w_map_file : list Z := lit "# routes" ++ [13; 10; 10] ++ lit "GET /users/{id}" ++ [10] ++ lit "* /health" ++ [13; 10].
Definition w_cfg : lk_route_cfg := RouteCfg (lk_route_map_parse w_map_file false false).1 [Some (lit "action"); None] 4.
Definition w_target : list Z := lit "/api/v1/items/8123/app.a83bf2ef.js?action=List&token=x".
Lemma norm_route_exact_witness : lk_norm_route w_hash (lit "GET") w_target (Some w_cfg) =
  RouteOut (lit "/api/v1/items/{id}/...?action=List") (w_hash (lit "GET" ++ 0 :: lit "/api/v1/items/{id}/...?action=List"))
    (Z.lor (Z.lor LK_ROUTE_F_TEMPLATED LK_ROUTE_F_DEPTH_CLIP) LK_ROUTE_F_QUERY).
Proof. rewrite (norm_route_exact w_hash (lit "GET") w_target (Some w_cfg)); [vm_compute; reflexivity|vm_compute; discriminate|vm_compute; reflexivity]. Defined.
Lemma route_label_safe_witness : Forall (fun c => is_ctl c = false) (rt_text (lk_norm_route w_hash (lit "GET") w_target (Some w_cfg))) /\
  lk_norm_route w_hash (lit "GET") (lit "/api/v1/items/8123/app.a83bf2ef.js?debug&action=List") (Some w_cfg) = lk_norm_route w_hash (lit "GET") w_target (Some w_cfg).
Proof.
  destruct (route_label_safe w_hash (lit "GET") w_target (Some w_cfg) w_map_file false false) as (H1 & _ & H2);
    [vm_compute; discriminate|vm_compute; reflexivity|right; reflexivity|by repeat constructor|].
  split; [exact H1|]. apply H2; [vm_compute; reflexivity|vm_compute; reflexivity|].
  intros k Hk. change (rcfg_query_keys (default route_defaults (Some w_cfg))) with [Some (lit "action"); None] in Hk.
  rewrite list_elem_of_In in Hk. destruct Hk as [[= <-]|[Hk|[]]]; [vm_compute; reflexivity|discriminate Hk].
Defined.
Definition w_pat (m : option (list Z)) (t : list Z) : route_pat := RoutePat m t (map (fun s => PatSeg s (is_var s)) (map snd (cuts t))).
Definition w_items : list item := [IComment (lit " routes"); IPat (w_pat (Some (lit "GET")) (lit "/users/{id}/orders")) true; IBlank; IPat (w_pat None (lit "/health")) false].
Lemma w_pat_wf m t u c : match m with Some m => m <> [] /\ m <> lit "*" /\ Forall (fun c => plain_byte c = true /\ is_blank c = false) m | None => True end ->
  t = u ++ [c] -> znth t 0 = ch "/" -> is_blank c = false -> forallb plain_byte t = true -> zlen t < LK_ROUTE_TEXT_MAX -> zlen (cuts t) <= LK_ROUTE_SEG_MAX -> pat_wf (w_pat m t).
Proof.
  intros Hm Eu E0 Hc Hf Hl Hs. split; [done|]. split.
  - destruct t as [|x t]; [by destruct u|]. change (x = ch "/") in E0. rewrite E0 in *. by exists t, u, c.
  - split; [|done]. rewrite forallb_forall in Hf. by apply Forall_forall.
Qed.
Lemma route_map_roundtrip_witness : lk_route_map_parse (concat (map render w_items)) false false = (Some (pats w_items), 0).
Proof.
  apply route_map_roundtrip; [|vm_compute; split; [reflexivity|discriminate]]. repeat constructor; try (vm_compute; discriminate).
  - eapply (w_pat_wf _ _ (lit "/users/{id}/order") (ch "s")); try reflexivity; [repeat split; try discriminate; by repeat constructor|vm_compute; discriminate].
  - eapply (w_pat_wf _ _ (lit "/healt") (ch "h")); try reflexivity. vm_compute; discriminate.
Defined.
Definition w_fields : list (field * Z) := [((lit "Access_Token", Some (lit "abc")), ch "&"); ((lit "x", Some (lit "1")), ch ";")].
Lemma url_redact_exact_witness : lk_url_redact (lit "/a" ++ ch "?" :: show_query w_fields (lit "y", None)) 100 = lit "/a?Access_Token=***&x=1;y".
Proof.
  destruct (url_redact_exact (lit "/a") w_fields (lit "y", None) 100) as [H _]; [by repeat constructor|split; [by repeat constructor|by repeat constructor]|discriminate|].
  rewrite H. vm_compute. reflexivity.
Defined.

(** A tab between the method and the path ends the method, and then makes the line bad. *)
Lemma map_tab_rejected : lk_route_map_parse (lit "GET" ++ [9] ++ lit "/users/{id}" ++ [10]) false false = (None, 1) /\
  lk_route_map_parse (lit "GET" ++ [32] ++ lit "/users/{id}" ++ [10]) false false = (Some [w_pat (Some (lit "GET")) (lit "/users/{id}")], 0).
Proof. split; vm_compute; reflexivity. Qed.
