(* ===== verification/NormS3.v ===== *)
(** S3 request classification, [norm/norm_s3.c]: the operation table, bucket addressing
    and the error vocabulary.

    A span is the list of its bytes, a NULL pointer the empty list; a pointer into the
    operation table is the name it points at.  XXH3 is vendored code, the parameter of
    [lk_norm_s3]. *)
From Stdlib Require Import Ascii String.
From stdpp Require Import base list option.
From S2P Require Import Prelude Proto NormRoute NormRouteProps.
#[local] Open Scope Z_scope.
Implicit Types (p q path host : list Z) (c : Z).

Definition LK_S3_BUCKET_MAX := 64.
Definition LK_S3_CODE_MAX := 48.
Definition LK_S3_AK_MAX := 40.
Definition LK_S3_DOMAIN_MAX := 8.
Definition LK_S3_F_COPY_SRC := 1.
(** [domains] up to [ndomains]; a [None] is a NULL pointer. *)
Record lk_s3_cfg := S3Cfg { s3_domains : list (option (list Z)); s3_no_user : bool }.
Record lk_s3_addr := S3Addr { sa_bucket : list Z; sa_key : list Z; sa_vhost : bool; sa_valid : bool; sa_internal : bool }.
#[global] Instance lk_s3_addr_upd : Updatable lk_s3_addr := fun a => S3Addr (sa_bucket a) (sa_key a) (sa_vhost a) (sa_valid a) (sa_internal a).

(** ** The tables *)
Inductive s3_m := S3_M_NONE | S3_M_GET | S3_M_HEAD | S3_M_PUT | S3_M_POST | S3_M_DELETE.
Inductive s3_lvl := S3_L_SERVICE | S3_L_BUCKET | S3_L_OBJECT.
Inductive s3_copy := S3_C_ANY | S3_C_NO | S3_C_YES.
Inductive s3_key :=
  | S3_K_NONE | S3_K_ACL | S3_K_TAGGING | S3_K_POLICY | S3_K_POLICY_STATUS | S3_K_VERSIONING | S3_K_LIFECYCLE
  | S3_K_LOCATION | S3_K_NOTIFICATION | S3_K_ENCRYPTION | S3_K_REPLICATION | S3_K_OBJECT_LOCK | S3_K_CORS
  | S3_K_ACCELERATE | S3_K_LOGGING | S3_K_REQUEST_PAYMENT | S3_K_WEBSITE | S3_K_PUBLIC_ACCESS_BLOCK
  | S3_K_ATTRIBUTES | S3_K_RETENTION | S3_K_LEGAL_HOLD | S3_K_RESTORE | S3_K_SELECT | S3_K_DELETE
  | S3_K_UPLOADS | S3_K_UPLOAD_ID | S3_K_VERSIONS | S3_K_LIST_TYPE.
#[global] Instance s3_m_eq_dec : EqDecision s3_m.
Proof. solve_decision. Defined.
#[global] Instance s3_lvl_eq_dec : EqDecision s3_lvl.
Proof. solve_decision. Defined.
#[global] Instance s3_copy_eq_dec : EqDecision s3_copy.
Proof. solve_decision. Defined.
#[global] Instance s3_key_eq_dec : EqDecision s3_key.
Proof. solve_decision. Defined.
(** In the order of the enumeration; the lengths of the C table are those of the names. *)
Definition s3_subres : list (s3_key * list Z) := map (fun '(k, s) => (k, lit s)) [
  (S3_K_ACL, "acl"%string); (S3_K_TAGGING, "tagging"%string); (S3_K_POLICY, "policy"%string);
  (S3_K_POLICY_STATUS, "policyStatus"%string); (S3_K_VERSIONING, "versioning"%string);
  (S3_K_LIFECYCLE, "lifecycle"%string); (S3_K_LOCATION, "location"%string);
  (S3_K_NOTIFICATION, "notification"%string); (S3_K_ENCRYPTION, "encryption"%string);
  (S3_K_REPLICATION, "replication"%string); (S3_K_OBJECT_LOCK, "object-lock"%string);
  (S3_K_CORS, "cors"%string); (S3_K_ACCELERATE, "accelerate"%string); (S3_K_LOGGING, "logging"%string);
  (S3_K_REQUEST_PAYMENT, "requestPayment"%string); (S3_K_WEBSITE, "website"%string);
  (S3_K_PUBLIC_ACCESS_BLOCK, "publicAccessBlock"%string); (S3_K_ATTRIBUTES, "attributes"%string);
  (S3_K_RETENTION, "retention"%string); (S3_K_LEGAL_HOLD, "legal-hold"%string);
  (S3_K_RESTORE, "restore"%string); (S3_K_SELECT, "select"%string); (S3_K_DELETE, "delete"%string);
  (S3_K_UPLOADS, "uploads"%string); (S3_K_UPLOAD_ID, "uploadId"%string); (S3_K_VERSIONS, "versions"%string);
  (S3_K_LIST_TYPE, "list-type"%string)].
Record s3_row := S3Row { s3r_key : s3_key; s3r_lvl : s3_lvl; s3r_method : s3_m; s3r_copy : s3_copy; s3r_op : list Z }.
Definition s3row (k : s3_key) (l : s3_lvl) (m : s3_m) (c : s3_copy) (op : string) : s3_row := S3Row k l m c (lit op).
Definition s3_rows : list s3_row := [
  s3row S3_K_NONE S3_L_SERVICE S3_M_GET S3_C_ANY "ListBuckets";
  s3row S3_K_ACL S3_L_BUCKET S3_M_GET S3_C_ANY "GetBucketAcl";
  s3row S3_K_ACL S3_L_BUCKET S3_M_PUT S3_C_ANY "PutBucketAcl";
  s3row S3_K_TAGGING S3_L_BUCKET S3_M_GET S3_C_ANY "GetBucketTagging";
  s3row S3_K_TAGGING S3_L_BUCKET S3_M_PUT S3_C_ANY "PutBucketTagging";
  s3row S3_K_TAGGING S3_L_BUCKET S3_M_DELETE S3_C_ANY "DeleteBucketTagging";
  s3row S3_K_POLICY S3_L_BUCKET S3_M_GET S3_C_ANY "GetBucketPolicy";
  s3row S3_K_POLICY S3_L_BUCKET S3_M_PUT S3_C_ANY "PutBucketPolicy";
  s3row S3_K_POLICY S3_L_BUCKET S3_M_DELETE S3_C_ANY "DeleteBucketPolicy";
  s3row S3_K_POLICY_STATUS S3_L_BUCKET S3_M_GET S3_C_ANY "GetBucketPolicyStatus";
  s3row S3_K_VERSIONING S3_L_BUCKET S3_M_GET S3_C_ANY "GetBucketVersioning";
  s3row S3_K_VERSIONING S3_L_BUCKET S3_M_PUT S3_C_ANY "PutBucketVersioning";
  s3row S3_K_LIFECYCLE S3_L_BUCKET S3_M_GET S3_C_ANY "GetBucketLifecycleConfiguration";
  s3row S3_K_LIFECYCLE S3_L_BUCKET S3_M_PUT S3_C_ANY "PutBucketLifecycleConfiguration";
  s3row S3_K_LIFECYCLE S3_L_BUCKET S3_M_DELETE S3_C_ANY "DeleteBucketLifecycleConfiguration";
  s3row S3_K_LOCATION S3_L_BUCKET S3_M_GET S3_C_ANY "GetBucketLocation";
  s3row S3_K_NOTIFICATION S3_L_BUCKET S3_M_GET S3_C_ANY "GetBucketNotificationConfiguration";
  s3row S3_K_NOTIFICATION S3_L_BUCKET S3_M_PUT S3_C_ANY "PutBucketNotificationConfiguration";
  s3row S3_K_ENCRYPTION S3_L_BUCKET S3_M_GET S3_C_ANY "GetBucketEncryption";
  s3row S3_K_ENCRYPTION S3_L_BUCKET S3_M_PUT S3_C_ANY "PutBucketEncryption";
  s3row S3_K_ENCRYPTION S3_L_BUCKET S3_M_DELETE S3_C_ANY "DeleteBucketEncryption";
  s3row S3_K_REPLICATION S3_L_BUCKET S3_M_GET S3_C_ANY "GetBucketReplication";
  s3row S3_K_REPLICATION S3_L_BUCKET S3_M_PUT S3_C_ANY "PutBucketReplication";
  s3row S3_K_REPLICATION S3_L_BUCKET S3_M_DELETE S3_C_ANY "DeleteBucketReplication";
  s3row S3_K_OBJECT_LOCK S3_L_BUCKET S3_M_GET S3_C_ANY "GetObjectLockConfiguration";
  s3row S3_K_OBJECT_LOCK S3_L_BUCKET S3_M_PUT S3_C_ANY "PutObjectLockConfiguration";
  s3row S3_K_CORS S3_L_BUCKET S3_M_GET S3_C_ANY "GetBucketCors";
  s3row S3_K_CORS S3_L_BUCKET S3_M_PUT S3_C_ANY "PutBucketCors";
  s3row S3_K_CORS S3_L_BUCKET S3_M_DELETE S3_C_ANY "DeleteBucketCors";
  s3row S3_K_ACCELERATE S3_L_BUCKET S3_M_GET S3_C_ANY "GetBucketAccelerateConfiguration";
  s3row S3_K_ACCELERATE S3_L_BUCKET S3_M_PUT S3_C_ANY "PutBucketAccelerateConfiguration";
  s3row S3_K_LOGGING S3_L_BUCKET S3_M_GET S3_C_ANY "GetBucketLogging";
  s3row S3_K_LOGGING S3_L_BUCKET S3_M_PUT S3_C_ANY "PutBucketLogging";
  s3row S3_K_REQUEST_PAYMENT S3_L_BUCKET S3_M_GET S3_C_ANY "GetBucketRequestPayment";
  s3row S3_K_REQUEST_PAYMENT S3_L_BUCKET S3_M_PUT S3_C_ANY "PutBucketRequestPayment";
  s3row S3_K_WEBSITE S3_L_BUCKET S3_M_GET S3_C_ANY "GetBucketWebsite";
  s3row S3_K_WEBSITE S3_L_BUCKET S3_M_PUT S3_C_ANY "PutBucketWebsite";
  s3row S3_K_WEBSITE S3_L_BUCKET S3_M_DELETE S3_C_ANY "DeleteBucketWebsite";
  s3row S3_K_PUBLIC_ACCESS_BLOCK S3_L_BUCKET S3_M_GET S3_C_ANY "GetPublicAccessBlock";
  s3row S3_K_PUBLIC_ACCESS_BLOCK S3_L_BUCKET S3_M_PUT S3_C_ANY "PutPublicAccessBlock";
  s3row S3_K_PUBLIC_ACCESS_BLOCK S3_L_BUCKET S3_M_DELETE S3_C_ANY "DeletePublicAccessBlock";
  s3row S3_K_DELETE S3_L_BUCKET S3_M_POST S3_C_ANY "DeleteObjects";
  s3row S3_K_UPLOADS S3_L_BUCKET S3_M_GET S3_C_ANY "ListMultipartUploads";
  s3row S3_K_VERSIONS S3_L_BUCKET S3_M_GET S3_C_ANY "ListObjectVersions";
  s3row S3_K_LIST_TYPE S3_L_BUCKET S3_M_GET S3_C_ANY "ListObjectsV2";
  s3row S3_K_NONE S3_L_BUCKET S3_M_GET S3_C_ANY "ListObjects";
  s3row S3_K_NONE S3_L_BUCKET S3_M_PUT S3_C_ANY "CreateBucket";
  s3row S3_K_NONE S3_L_BUCKET S3_M_DELETE S3_C_ANY "DeleteBucket";
  s3row S3_K_NONE S3_L_BUCKET S3_M_HEAD S3_C_ANY "HeadBucket";
  s3row S3_K_NONE S3_L_BUCKET S3_M_POST S3_C_ANY "PostObject";
  s3row S3_K_ACL S3_L_OBJECT S3_M_GET S3_C_ANY "GetObjectAcl";
  s3row S3_K_ACL S3_L_OBJECT S3_M_PUT S3_C_ANY "PutObjectAcl";
  s3row S3_K_TAGGING S3_L_OBJECT S3_M_GET S3_C_ANY "GetObjectTagging";
  s3row S3_K_TAGGING S3_L_OBJECT S3_M_PUT S3_C_ANY "PutObjectTagging";
  s3row S3_K_TAGGING S3_L_OBJECT S3_M_DELETE S3_C_ANY "DeleteObjectTagging";
  s3row S3_K_RETENTION S3_L_OBJECT S3_M_GET S3_C_ANY "GetObjectRetention";
  s3row S3_K_RETENTION S3_L_OBJECT S3_M_PUT S3_C_ANY "PutObjectRetention";
  s3row S3_K_LEGAL_HOLD S3_L_OBJECT S3_M_GET S3_C_ANY "GetObjectLegalHold";
  s3row S3_K_LEGAL_HOLD S3_L_OBJECT S3_M_PUT S3_C_ANY "PutObjectLegalHold";
  s3row S3_K_ATTRIBUTES S3_L_OBJECT S3_M_GET S3_C_ANY "GetObjectAttributes";
  s3row S3_K_RESTORE S3_L_OBJECT S3_M_POST S3_C_ANY "RestoreObject";
  s3row S3_K_SELECT S3_L_OBJECT S3_M_POST S3_C_ANY "SelectObjectContent";
  s3row S3_K_UPLOADS S3_L_OBJECT S3_M_POST S3_C_ANY "CreateMultipartUpload";
  s3row S3_K_UPLOAD_ID S3_L_OBJECT S3_M_PUT S3_C_YES "UploadPartCopy";
  s3row S3_K_UPLOAD_ID S3_L_OBJECT S3_M_PUT S3_C_NO "UploadPart";
  s3row S3_K_UPLOAD_ID S3_L_OBJECT S3_M_GET S3_C_ANY "ListParts";
  s3row S3_K_UPLOAD_ID S3_L_OBJECT S3_M_POST S3_C_ANY "CompleteMultipartUpload";
  s3row S3_K_UPLOAD_ID S3_L_OBJECT S3_M_DELETE S3_C_ANY "AbortMultipartUpload";
  s3row S3_K_NONE S3_L_OBJECT S3_M_GET S3_C_ANY "GetObject";
  s3row S3_K_NONE S3_L_OBJECT S3_M_HEAD S3_C_ANY "HeadObject";
  s3row S3_K_NONE S3_L_OBJECT S3_M_PUT S3_C_YES "CopyObject";
  s3row S3_K_NONE S3_L_OBJECT S3_M_PUT S3_C_NO "PutObject";
  s3row S3_K_NONE S3_L_OBJECT S3_M_DELETE S3_C_ANY "DeleteObject"].
Definition s3_op_internal : list Z := lit "internal".
Definition s3_op_other : list Z := lit "other".
Definition lk_s3_op_internal : list Z := s3_op_internal.
Definition lk_s3_op_other : list Z := s3_op_other.
Definition lk_s3_op_at (i : Z) : option (list Z) :=
  let n := zlen s3_rows in
  if i <? n then s3r_op <$> s3_rows !! Z.to_nat i
  else if i =? n then Some s3_op_internal
  else if i =? n + 1 then Some s3_op_other
  else None.

(** ** Addressing *)
Definition s3_is_digit c : bool := (ch "0" <=? c) && (c <=? ch "9").
Definition s3_is_lower_alnum c : bool := s3_is_digit c || (ch "a" <=? c) && (c <=? ch "z").
(** [groups] so far; an iteration takes at least one byte. *)
Fixpoint ipv4_from (fuel : nat) (groups : Z) p : bool :=
  match fuel, p with
  | S fuel, _ :: _ =>
      match span s3_is_digit p with
      | ([], _) => false
      | (_, []) => groups + 1 =? 4
      | (_, c :: q) => if negb (c =? ch ".") then false else ipv4_from fuel (groups + 1) q
      end
  | _, _ => groups =? 4
  end.
Definition s3_looks_ipv4 p : bool := ipv4_from (length p) 0 p.
(** Every byte, with the one before it. *)
Fixpoint bucket_bytes (prev : option Z) p : bool :=
  match p with
  | [] => true
  | c :: p =>
      if negb (s3_is_lower_alnum c) && negb (c =? ch "-") && negb (c =? ch ".") then false
      else if (c =? ch ".") && bool_decide (prev = Some (ch ".")) then false
      else bucket_bytes (Some c) p
  end.
Definition lk_s3_bucket_valid p : bool :=
  if (zlen p <? 3) || (LK_S3_BUCKET_MAX - 1 <? zlen p) then false
  else if negb (s3_is_lower_alnum (znth p 0)) || negb (s3_is_lower_alnum (znth p (zlen p - 1))) then false
  else if negb (bucket_bytes None p) then false
  else negb (s3_looks_ipv4 p).

Definition s3_path_internal path : bool :=
  let pfx := lit "/minio" in
  let pn := zlen pfx in
  if (zlen path <? pn) || negb (same (ztake pn path) pfx) then false
  else (zlen path =? pn) || (znth path pn =? ch "/").
Definition lk_s3_split (vhost : bool) path : lk_s3_addr :=
  if negb vhost && s3_path_internal path then S3Addr [] [] false false true
  else
    let path := if znth path 0 =? ch "/" then zdrop 1 path else path in
    if vhost then S3Addr [] path true false false
    else
      let '(bucket, rest) := span (until (ch "/")) path in
      S3Addr bucket (past rest) false (lk_s3_bucket_valid bucket) false.

(** [host] up to its port; the suffixes in order. *)
Fixpoint addr_domains (domains : list (option (list Z))) host path : option lk_s3_addr :=
  match domains with
  | [] => None
  | d :: domains =>
      let d := default [] d in
      let dn := zlen d in
      let hn := zlen host in
      if (dn =? 0) || (hn <=? u32 (dn + 1)) || negb (znth host (hn - dn - 1) =? ch ".") then addr_domains domains host path
      else if negb (same (zdrop (hn - dn) host) d) then addr_domains domains host path
      else
        let bucket := ztake (hn - dn - 1) host in
        Some (lk_s3_split true path <| sa_bucket := bucket |> <| sa_valid := lk_s3_bucket_valid bucket |>)
  end.
Definition lk_s3_addr_of host path (cfg : option lk_s3_cfg) : lk_s3_addr :=
  let host := (span (until (ch ":")) host).1 in
  match addr_domains (ztake LK_S3_DOMAIN_MAX (default [] (s3_domains <$> cfg))) host path with
  | Some a => a
  | None => lk_s3_split false path
  end.

(** ** The operation *)
Definition s3_methods : list (list Z * s3_m) :=
  [(lit "GET", S3_M_GET); (lit "PUT", S3_M_PUT); (lit "HEAD", S3_M_HEAD); (lit "POST", S3_M_POST); (lit "DELETE", S3_M_DELETE)].
Definition s3_method (m : list Z) : s3_m :=
  match List.find (fun '(s, _) => same m s) s3_methods with Some (_, id) => id | None => S3_M_NONE end.

Definition is_qkey_byte c : bool := negb (c =? ch "&") && negb (c =? ch "=").
(** The first recognised key and its value. *)
Fixpoint s3_subresource (fuel : nat) q : s3_key * list Z :=
  match fuel, q with
  | S fuel, _ :: _ =>
      let '(k, r) := span is_qkey_byte q in
      let '(val, r) := match r with c :: v => if c =? ch "=" then span (until (ch "&")) v else ([], r) | [] => ([], []) end in
      match List.find (fun '(_, s) => same k s) s3_subres with
      | Some (id, _) => (id, val)
      | None => s3_subresource fuel (past r)
      end
  | _, _ => (S3_K_NONE, [])
  end.

Definition row_matches (key : s3_key) (lvl : s3_lvl) (m : s3_m) (copy : s3_copy) (r : s3_row) : bool :=
  if negb (bool_decide (s3r_key r = key)) || negb (bool_decide (s3r_lvl r = lvl)) || negb (bool_decide (s3r_method r = m)) then false
  else if negb (bool_decide (s3r_copy r = S3_C_ANY)) && negb (bool_decide (s3r_copy r = copy)) then false
  else true.
Definition s3_level (a : lk_s3_addr) : option s3_lvl :=
  if sa_vhost a || negb (zlen (sa_bucket a) =? 0) then Some (if zlen (sa_key a) =? 0 then S3_L_BUCKET else S3_L_OBJECT)
  else if negb (zlen (sa_key a) =? 0) then None
  else Some S3_L_SERVICE.
Definition lk_s3_op (method query : list Z) (a : lk_s3_addr) (flags : Z) : list Z :=
  if sa_internal a then s3_op_internal
  else
    let m := s3_method method in
    if bool_decide (m = S3_M_NONE) then s3_op_other
    else
      let copy := if has_flag flags LK_S3_F_COPY_SRC then S3_C_YES else S3_C_NO in
      match s3_level a with
      | None => s3_op_other
      | Some lvl =>
          let '(key, val) := s3_subresource (length query) query in
          let key := if bool_decide (key = S3_K_LIST_TYPE) && negb (same val (lit "2")) then S3_K_NONE else key in
          match List.find (row_matches key lvl m copy) s3_rows with
          | Some r => s3r_op r
          | None => s3_op_other
          end
      end.

(** ** Error codes and data operations *)
Definition s3_codes : list (list Z) := map lit [
  "AccessDenied"; "AccountProblem"; "AllAccessDisabled"; "AmbiguousGrantByEmailAddress";
  "AuthorizationHeaderMalformed"; "AuthorizationQueryParametersError"; "BadDigest"; "BadRequest";
  "BucketAlreadyExists"; "BucketAlreadyOwnedByYou"; "BucketNotEmpty"; "CredentialsNotSupported";
  "CrossLocationLoggingProhibited"; "EntityTooLarge"; "EntityTooSmall"; "ExpiredToken";
  "IllegalVersioningConfigurationException"; "IncompleteBody"; "IncorrectNumberOfFilesInPostRequest";
  "InlineDataTooLarge"; "InternalError"; "InvalidAccessKeyId"; "InvalidAddressingHeader"; "InvalidArgument";
  "InvalidBucketName"; "InvalidBucketState"; "InvalidDigest"; "InvalidEncryptionAlgorithmError";
  "InvalidLocationConstraint"; "InvalidObjectState"; "InvalidPart"; "InvalidPartOrder"; "InvalidPayer";
  "InvalidPolicyDocument"; "InvalidRange"; "InvalidRequest"; "InvalidSOAPRequest"; "InvalidSecurity";
  "InvalidStorageClass"; "InvalidTargetBucketForLogging"; "InvalidToken"; "InvalidURI"; "InvalidWriteOffset";
  "KeyTooLongError"; "MalformedACLError"; "MalformedPOSTRequest"; "MalformedXML"; "MaxMessageLengthExceeded";
  "MaxPostPreDataLengthExceededError"; "MetadataTooLarge"; "MethodNotAllowed"; "MissingAttachment";
  "MissingContentLength"; "MissingRequestBodyError"; "MissingSecurityElement"; "MissingSecurityHeader";
  "NoLoggingStatusForKey"; "NoSuchAccessPoint"; "NoSuchBucket"; "NoSuchBucketPolicy";
  "NoSuchCORSConfiguration"; "NoSuchKey"; "NoSuchLifecycleConfiguration"; "NoSuchObjectLockConfiguration";
  "NoSuchTagSet"; "NoSuchUpload"; "NoSuchVersion"; "NoSuchWebsiteConfiguration"; "NotImplemented";
  "NotSignedUp"; "ObjectLockConfigurationNotFoundError"; "OperationAborted"; "PermanentRedirect";
  "PreconditionFailed"; "Redirect"; "ReplicationConfigurationNotFoundError"; "RequestHeaderSectionTooLarge";
  "RequestIsNotMultiPartContent"; "RequestTimeTooSkewed"; "RequestTimeout"; "RequestTorrentOfBucketError";
  "RestoreAlreadyInProgress"; "ServerSideEncryptionConfigurationNotFoundError"; "ServiceUnavailable";
  "SignatureDoesNotMatch"; "SlowDown"; "TemporaryRedirect"; "TokenRefreshRequired"; "TooManyBuckets";
  "TooManyParts"; "UnexpectedContent"; "UnresolvableGrantByEmailAddress"; "UserKeyMustBeSpecified";
  "XAmzContentSHA256Mismatch"; "XMinioInvalidObjectName"; "XMinioMalformedIAMPolicy";
  "XMinioObjectExistsAsDirectory"; "XMinioServerNotInitialized"; "XMinioStorageFull"]%string.
Definition lk_s3_code_known p : bool :=
  if (zlen p =? 0) || (LK_S3_CODE_MAX <=? zlen p) then false else existsb (same p) s3_codes.
Definition s3_data_ops : list (list Z) := map lit ["GetObject"; "PutObject"; "UploadPart"; "PostObject"]%string.
Definition lk_s3_op_is_data (op : option (list Z)) : bool := match op with Some op => existsb (same op) s3_data_ops | None => false end.
Definition lk_s3_data_op_at (i : Z) : option (list Z) := if i <? zlen s3_data_ops then s3_data_ops !! Z.to_nat i else None.

(** ** The entry point *)
Definition lk_norm_s3 (XXH3 : list Z -> Z) (method query : list Z) (a : lk_s3_addr) (flags : Z) : lk_route_out :=
  let op := lk_s3_op method query a flags in
  RouteOut op (XXH3 (method ++ [0] ++ op))
    (if same op lk_s3_op_internal then set_flag LK_ROUTE_F_TEMPLATED LK_ROUTE_F_INTERNAL else LK_ROUTE_F_TEMPLATED).

(** * The operation *)
Section Operation.
Implicit Types (fs : list field) (a : lk_s3_addr).
(** A query as fields between ampersands. *)
Definition s3_query fs : list Z :=
  match fs with [] => [] | x :: xs => show_field x ++ concat (map (fun y => ch "&" :: show_field y) xs) end.
Definition s3_field_wf (x : field) : Prop :=
  Forall (fun c => is_qkey_byte c = true) x.1 /\ Forall (fun c => c <> ch "&") (default [] x.2).
(** The first field with a key of the table. *)
Fixpoint first_known fs : s3_key * list Z :=
  match fs with
  | [] => (S3_K_NONE, [])
  | x :: fs => match List.find (fun '(_, s) => same x.1 s) s3_subres with Some (id, _) => (id, default [] x.2) | None => first_known fs end
  end.
(** The sub-resource of a request: [list-type] counts only with the value 2. *)
Definition sub_resource fs : s3_key :=
  let '(key, val) := first_known fs in if bool_decide (key = S3_K_LIST_TYPE) && negb (same val (lit "2")) then S3_K_NONE else key.
Definition copy_of (flags : Z) : s3_copy := if has_flag flags LK_S3_F_COPY_SRC then S3_C_YES else S3_C_NO.
(** The shape of an address. *)
Definition at_level a (l : s3_lvl) : Prop :=
  match l with
  | S3_L_SERVICE => sa_vhost a = false /\ sa_bucket a = [] /\ sa_key a = []
  | S3_L_BUCKET => (sa_vhost a = true \/ sa_bucket a <> []) /\ sa_key a = []
  | S3_L_OBJECT => (sa_vhost a = true \/ sa_bucket a <> []) /\ sa_key a <> []
  end.
(** The row describes the request. *)
Definition describes (r : s3_row) (method : list Z) fs a (flags : Z) : Prop :=
  In (method, s3r_method r) s3_methods /\ at_level a (s3r_lvl r) /\ sub_resource fs = s3r_key r /\
  (s3r_copy r = S3_C_ANY \/ s3r_copy r = copy_of flags).

Lemma s3_level_spec a l : s3_level a = Some l <-> at_level a l.
Proof.
  assert (forall x : list Z, (zlen x =? 0) = match x with [] => true | _ => false end) as He by by intros [].
  unfold s3_level, at_level. destruct a as [b k v x y]. cbn [sa_vhost sa_bucket sa_key]. rewrite !He.
  destruct v, b, k, l; cbn; split; intros H; intuition congruence.
Qed.
Lemma amp_stops q : stops is_qkey_byte (ch "&" :: q) /\ stops (until (ch "&")) (ch "&" :: q).
Proof. done. Qed.
Lemma subresource_head fuel x q : s3_field_wf x -> (q = [] \/ exists r, q = ch "&" :: r) ->
  s3_subresource (S fuel) (show_field x ++ q) =
  match List.find (fun '(_, s) => same x.1 s) s3_subres with Some (id, _) => (id, default [] x.2) | None => s3_subresource fuel (past q) end.
Proof.
  intros [Hk Hv] Hq. assert (stops is_qkey_byte q /\ stops (until (ch "&")) q) as [H1 H2] by (destruct Hq as [->|[r ->]]; [done|apply amp_stops]). destruct x as [k ov]. cbn [fst snd] in *.
  destruct (show_field (k, ov) ++ q) as [|c0 q0] eqn:E0.
  { unfold show_field in E0. destruct k as [|], ov as [|], q as [|]; try done. cbn [s3_subresource List.find]. by destruct fuel. }
  cbn [s3_subresource]. rewrite <- E0. unfold show_field. cbn [fst snd]. rewrite <- app_assoc.
  destruct ov as [v|]; cbn [from_option] in Hv; unfold id in Hv.
  - rewrite (span_app is_qkey_byte k ((ch "=" :: v) ++ q)) by done. cbn [app]. rewrite Z.eqb_refl, (span_app (until (ch "&")) v q) by (done || by apply until_ne). done.
  - cbn [app]. rewrite (span_app is_qkey_byte k q) by done. destruct q as [|c q]; [done|]. assert (c = ch "&") as -> by (destruct Hq as [|[r [= -> _]]]; done). change (ch "&" =? ch "=") with false. done.
Qed.
Lemma subresource_fields fs : forall fuel, Forall s3_field_wf fs -> (length (s3_query fs) <= fuel)%nat -> s3_subresource fuel (s3_query fs) = first_known fs.
Proof.
  induction fs as [|x fs IH]; intros fuel Hw Hl; [by destruct fuel|]. inversion Hw as [|?? Hx Hfs]; subst. destruct fuel as [|fuel].
  { destruct (s3_query (x :: fs)) eqn:E; [|cbn in Hl; lia]. unfold s3_query, show_field in E. destruct x as [[|] [|]], fs as [|y fs]; try done. }
  cbn [s3_query]. rewrite subresource_head; [|done|destruct fs as [|y fs]; [by left|right; by eexists]]. cbn [first_known]. destruct (List.find _ _) as [[id s]|]; [done|].
  destruct fs as [|y fs]; [by destruct fuel|]. apply IH; [done|]. cbn [s3_query map concat length] in *. rewrite !length_app in *. cbn [app length] in *. rewrite ?length_app in *. lia.
Qed.
Lemma s3_query_fields n : forall q, (length q <= n)%nat -> exists fs, Forall s3_field_wf fs /\ s3_query fs = q.
Proof.
  assert (forall q, exists x r, s3_field_wf x /\ show_field x ++ r = q /\ (r = [] \/ exists r', r = ch "&" :: r')) as Hone.
  { intros q. destruct (span_spec is_qkey_byte q) as (E & Ha & Hb). destruct (span is_qkey_byte q) as [k r]. cbn [fst snd] in *. destruct r as [|c r]; [exists (k, None), []; split; [done|]; split; [unfold show_field; cbn [fst snd]; rewrite E, !app_nil_r; reflexivity|by left]|].
    destruct (Z.eq_dec c (ch "=")) as [->|Hne].
    - destruct (span_spec (until (ch "&")) r) as (Ev & Hv & Hr). destruct (span _ r) as [v r']. cbn [fst snd] in *. exists (k, Some v), r'. split; [split; [done|by apply until_ne]|]. split; [unfold show_field; cbn; rewrite <- app_assoc; cbn; by rewrite <- Ev|].
      destruct r' as [|c r']; [by left|]. right. cbn in Hr. unfold until in Hr. destruct (Z.eqb_spec c (ch "&")) as [->|]; [eauto|done].
    - exists (k, None), (c :: r). split; [done|]. split; [unfold show_field; cbn; by rewrite app_nil_r|]. right. cbn in Hb. unfold is_qkey_byte in Hb. destruct (Z.eqb_spec c (ch "&")) as [->|]; [eauto|]. destruct (Z.eqb_spec c (ch "=")); done. }
  induction n as [|n IH]; intros q Hl; destruct (Hone q) as (x & r & Hx & Er & Hr).
  - exists [x]. split; [by apply Forall_singleton|]. cbn [s3_query map concat]. rewrite app_nil_r. destruct Hr as [->|[r' ->]]; [by rewrite app_nil_r in Er|]. subst q. rewrite length_app in Hl. cbn in Hl. lia.
  - destruct Hr as [->|[r' ->]]; [exists [x]; split; [by apply Forall_singleton|]; cbn [s3_query map concat]; exact Er|]. destruct (IH r') as (fs & Hf & E); [subst q; rewrite length_app in Hl; cbn in Hl; lia|].
    destruct fs as [|y fs].
    + exists [x; ([], None)]. split; [constructor; [done|by apply Forall_singleton; split; constructor]|]. cbn [s3_query map concat] in *. rewrite app_nil_r. subst r'. exact Er.
    + exists (x :: y :: fs). split; [by constructor|]. cbn [s3_query map concat] in *. rewrite <- Er, <- E. done.
Qed.

(** Every row is found by its own description, whichever request it came from. *)
Definition copies (c : s3_copy) : list s3_copy := match c with S3_C_ANY => [S3_C_NO; S3_C_YES] | c => [c] end.
Lemma rows_distinct : forallb (fun r => forallb (fun c : s3_copy => match List.find (row_matches (s3r_key r) (s3r_lvl r) (s3r_method r) c) s3_rows with Some r' => same (s3r_op r') (s3r_op r) | None => false end) (copies (s3r_copy r))) s3_rows = true.
Proof. vm_compute. reflexivity. Qed.
Lemma row_matches_spec key lvl m (c : s3_copy) r : row_matches key lvl m c r = true <-> s3r_key r = key /\ s3r_lvl r = lvl /\ s3r_method r = m /\ (s3r_copy r = S3_C_ANY \/ s3r_copy r = c).
Proof. unfold row_matches. repeat case_bool_decide; cbn; intuition congruence. Qed.
Lemma row_found r m (c : s3_copy) : In r s3_rows -> s3r_method r = m -> (s3r_copy r = S3_C_ANY \/ s3r_copy r = c) -> c <> S3_C_ANY ->
  exists r', List.find (row_matches (s3r_key r) (s3r_lvl r) m c) s3_rows = Some r' /\ s3r_op r' = s3r_op r.
Proof.
  intros Hr <- Hc Hne. pose proof rows_distinct as H. rewrite forallb_forall in H. specialize (H r Hr). rewrite forallb_forall in H.
  assert (In c (copies (s3r_copy r))) as Hi by (destruct (s3r_copy r), c, Hc; try done; cbn; tauto). specialize (H c Hi). destruct (List.find _ _) as [r'|]; [|done]. exists r'. split; [done|]. by apply same_eq.
Qed.
Lemma s3_method_spec method m : m <> S3_M_NONE -> s3_method method = m <-> In (method, m) s3_methods.
Proof.
  intros Hne. unfold s3_method. split.
  - intros E. destruct (List.find _ s3_methods) as [[s id]|] eqn:Ef; [|congruence]. apply find_some in Ef as [Hin Hs]. apply same_eq in Hs. by subst.
  - cbn. intros [E|[E|[E|[E|[E|[]]]]]]; injection E as <- <-; done.
Qed.
Lemma rows_method r : In r s3_rows -> s3r_method r <> S3_M_NONE.
Proof. assert (forallb (fun r => negb (bool_decide (s3r_method r = S3_M_NONE))) s3_rows = true) as H by (vm_compute; reflexivity). rewrite forallb_forall in H. intros Hr. specialize (H r Hr). by case_bool_decide. Qed.
Lemma lk_s3_op_cases method fs a flags : Forall s3_field_wf fs -> sa_internal a = false ->
  (forall r, In r s3_rows -> describes r method fs a flags -> lk_s3_op method (s3_query fs) a flags = s3r_op r) /\
  ((forall r, In r s3_rows -> ~ describes r method fs a flags) -> lk_s3_op method (s3_query fs) a flags = s3_op_other).
Proof.
  intros Hw Hi. unfold lk_s3_op. rewrite Hi, subresource_fields by done. fold (copy_of flags). assert (copy_of flags <> S3_C_ANY) as Hc by (unfold copy_of; by destruct (has_flag _ _)). split.
  - intros r Hr (Hm & Hl & Hk & Hcp). pose proof (rows_method r Hr) as Hne. apply s3_method_spec in Hm; [|done]. rewrite Hm, bool_decide_false by done. apply s3_level_spec in Hl. rewrite Hl. unfold sub_resource in Hk. destruct (first_known fs) as [key val]. rewrite Hk.
    destruct (row_found r (s3r_method r) (copy_of flags) Hr eq_refl Hcp Hc) as (r' & -> & <-). done.
  - intros Hno. case_bool_decide as Hm; [done|]. destruct (s3_level a) as [lvl|] eqn:El; [|done]. destruct (first_known fs) as [key val] eqn:Ef. destruct (List.find _ s3_rows) as [r|] eqn:E; [|done]. exfalso.
    apply find_some in E as [Hr Hx]. apply row_matches_spec in Hx as (E1 & E2 & E3 & E4). apply (Hno r Hr). split; [apply s3_method_spec; congruence|]. split; [apply s3_level_spec; congruence|]. split; [|done]. unfold sub_resource. by rewrite Ef.
Qed.
End Operation.

(** * Addressing *)
Definition bucket_byte c : Prop := s3_is_lower_alnum c = true \/ c = ch "-" \/ c = ch ".".
Definition dotted (gs : list (list Z)) : list Z := match gs with [] => [] | x :: xs => x ++ concat (map (cons (ch ".")) xs) end.
(** The S3 naming rules. *)
Definition bucket_ok p : Prop :=
  3 <= zlen p <= 63 /\ Forall bucket_byte p /\ (exists c q, p = c :: q /\ s3_is_lower_alnum c = true) /\ (exists q c, p = q ++ [c] /\ s3_is_lower_alnum c = true) /\
  (~ exists u v, p = u ++ [ch "."; ch "."] ++ v) /\
  ~ exists gs, zlen gs = 4 /\ Forall (fun g => g <> [] /\ Forall (fun c => s3_is_digit c = true) g) gs /\ p = dotted gs.

Lemma bucket_bytes_spec p : forall prev, bucket_bytes prev p = true <-> Forall bucket_byte p /\ ~ exists u v, option_list prev ++ p = u ++ [ch "."; ch "."] ++ v.
Proof.
  induction p as [|c p IH]; intros prev; cbn [bucket_bytes].
  { split; [intros _; split; [constructor|]|done]. rewrite app_nil_r. intros (u & v & E). destruct prev as [x|]; cbn in E; [|by destruct u]. by destruct u as [|? [|??]]. }
  assert (negb (s3_is_lower_alnum c) && negb (c =? ch "-") && negb (c =? ch ".") = false <-> bucket_byte c) as Hb.
  { unfold bucket_byte. destruct (s3_is_lower_alnum c), (Z.eqb_spec c (ch "-")), (Z.eqb_spec c (ch ".")); cbn; intuition congruence. }
  destruct (negb (s3_is_lower_alnum c) && negb (c =? ch "-") && negb (c =? ch ".")) eqn:E0.
  { split; [done|]. intros [Hf _]. inversion Hf; subst. by apply Hb in H1. }
  assert (bucket_byte c) as Hc by by apply Hb. destruct ((c =? ch ".") && bool_decide (prev = Some (ch "."))) eqn:Ed.
  - split; [done|]. intros [_ Hn]. exfalso. apply Hn. apply andb_true_iff in Ed as [->%Z.eqb_eq ->%bool_decide_eq_true]. by exists [], p.
  - rewrite IH. cbn [option_list app]. rewrite Forall_cons_iff. apply andb_false_iff in Ed. rewrite Z.eqb_neq, bool_decide_eq_false in Ed.
    split; intros [H1 H2]; (split; [tauto|]); intros (u & v & E); apply H2.
    + destruct prev as [x|]; cbn in E; [|by exists u, v]. destruct u as [|y u]; cbn in E; [injection E as -> -> _; by destruct Ed|]. injection E as -> E. by exists u, v.
    + destruct prev as [x|]; cbn; [|by exists u, v]. exists (x :: u), v. cbn. by f_equal.
Qed.
Lemma ipv4_spec p u c : forall fuel g, p = u ++ [c] -> c <> ch "." -> (length p <= fuel)%nat ->
  ipv4_from fuel g p = true <-> exists gs, g + zlen gs = 4 /\ gs <> [] /\ Forall (fun g => g <> [] /\ Forall (fun c => s3_is_digit c = true) g) gs /\ p = dotted gs.
Proof.
  intros fuel. revert p u. induction fuel as [|fuel IH]; intros p u g Ep Hc Hl; [subst p; rewrite length_app in Hl; cbn in Hl; lia|].
  destruct (span_spec s3_is_digit p) as (E & Ha & Hb). assert (ipv4_from (S fuel) g p = match span s3_is_digit p with ([], _) => false | (_, []) => g + 1 =? 4 | (_, c :: q) => if negb (c =? ch ".") then false else ipv4_from fuel (g + 1) q end) as -> by by destruct p; [destruct u|].
  destruct (span s3_is_digit p) as [d r]. cbn [fst snd] in *.
  assert (forall gs, Forall (fun g => g <> [] /\ Forall (fun c => s3_is_digit c = true) g) gs -> p = dotted gs -> gs <> [] -> exists gs', gs = d :: gs' /\ d <> [] /\ r = match gs' with [] => [] | _ => ch "." :: dotted gs' end) as Hinv.
  { intros gs Hg Eg Hn. destruct gs as [|g0 gs]; [done|]. inversion Hg as [|?? [Hg1 Hg2] Hg3]; subst. exists gs. assert (span s3_is_digit (dotted (g0 :: gs)) = (g0, match gs with [] => [] | _ => ch "." :: dotted gs end)) as Es.
    { replace (dotted (g0 :: gs)) with (g0 ++ match gs with [] => [] | _ => ch "." :: dotted gs end); [|by destruct gs]. apply span_app; [done|by destruct gs]. }
    assert (span s3_is_digit (dotted (g0 :: gs)) = (d, r)) as Es2. { rewrite <- Eg, E. by apply span_app. } rewrite Es in Es2. injection Es2 as <- <-. done. }
  destruct d as [|d0 d]; [split; [done|]; intros (gs & _ & Hn & Hg & Eg); by destruct (Hinv gs Hg Eg Hn) as (? & _ & ? & _)|].
  destruct r as [|c1 q].
  - rewrite Z.eqb_eq. split.
    + intros Hg4. exists [d0 :: d]. split; [done|]. split; [done|]. split; [by apply Forall_singleton|]. cbn. rewrite app_nil_r in *. by rewrite E.
    + intros (gs & Hz & Hn & Hg & Eg). destruct (Hinv gs Hg Eg Hn) as (gs' & -> & _ & Er). destruct gs'; [|done]. done.
  - destruct (Z.eqb_spec c1 (ch ".")) as [->|Hne]; cbn [negb].
    + assert (exists u', q = u' ++ [c]) as [u' Eq].
      { assert (q <> []) as Hq by (intros ->; rewrite E in Ep; apply app_inj_tail in Ep as [_ ?]; congruence). destruct (exists_last Hq) as (u' & x & ->). exists u'. rewrite E in Ep. replace ((d0 :: d) ++ ch "." :: u' ++ [x]) with (((d0 :: d) ++ ch "." :: u') ++ [x]) in Ep by by rewrite <- app_assoc. by apply app_inj_tail in Ep as [_ ->]. }
      rewrite (IH q u' (g + 1) Eq Hc) by (rewrite E, length_app in Hl; cbn in Hl; lia). split.
      * intros (gs & Hz & Hn & Hg & ->). exists ((d0 :: d) :: gs). rewrite zlen_cons. split; [lia|]. split; [done|]. split; [by constructor|]. rewrite E. by destruct gs.
      * intros (gs & Hz & Hn & Hg & Eg). destruct (Hinv gs Hg Eg Hn) as (gs' & -> & _ & Er). rewrite zlen_cons in Hz. destruct gs' as [|x gs']; [done|]. injection Er as ->. exists (x :: gs'). split; [lia|]. split; [done|]. by inversion Hg.
    + split; [done|]. intros (gs & Hz & Hn & Hg & Eg). destruct (Hinv gs Hg Eg Hn) as (gs' & -> & _ & Er). destruct gs'; [done|]. by injection Er as ->.
Qed.
Lemma znth_last q c : znth (q ++ [c]) (zlen (q ++ [c]) - 1) = c.
Proof. rewrite zlen_app. change (zlen [c]) with 1. rewrite Z.add_simpl_r. unfold znth. rewrite app_nth2 by (unfold zlen; lia). unfold zlen at 1. by rewrite Nat2Z.id, Nat.sub_diag. Qed.
Lemma bucket_valid_ok p : lk_s3_bucket_valid p = true <-> bucket_ok p.
Proof.
  unfold lk_s3_bucket_valid, bucket_ok, LK_S3_BUCKET_MAX. destruct (Z.ltb_spec (zlen p) 3); [cbn; split; [done|lia]|]. destruct (Z.ltb_spec (64 - 1) (zlen p)); [cbn; split; [done|lia]|]. cbn [orb].
  assert (p <> []) as Hne by (intros ->; change (zlen []) with 0 in *; lia). destruct (exists_last Hne) as (u & c & Eu). destruct p as [|c0 q] eqn:Ep; [done|]. rewrite <- Ep in *. change (znth (c0 :: q) 0) with c0. rewrite Ep. change (znth (c0 :: q) 0) with c0. rewrite <- Ep.
  replace (znth p (zlen p - 1)) with c by (rewrite Eu; symmetry; apply znth_last).
  destruct (s3_is_lower_alnum c0) eqn:E0; cbn [negb orb]; [|split; [done|]; intros (_ & _ & (c' & q' & E' & ?) & _); congruence].
  destruct (s3_is_lower_alnum c) eqn:Ec; cbn [negb]; [|split; [done|]; intros (_ & _ & _ & (q' & c' & E' & ?) & _); rewrite Eu in E'; apply app_inj_tail in E' as [_ ->]; congruence].
  assert (c <> ch ".") as Hcd by (intros ->; done). pose proof (bucket_bytes_spec p None) as Hb. cbn in Hb. pose proof (ipv4_spec p u c (length p) 0 Eu Hcd ltac:(lia)) as Hi. fold (s3_looks_ipv4 p) in Hi.
  assert ((exists gs, zlen gs = 4 /\ Forall (fun g => g <> [] /\ Forall (fun c => s3_is_digit c = true) g) gs /\ p = dotted gs) <-> s3_looks_ipv4 p = true) as Hi'.
  { rewrite Hi. split; intros (gs & ? & ?); exists gs; [split; [lia|]; split; [by intros ->|]; tauto|split; [lia|tauto]]. }
  destruct (bucket_bytes None p); cbn [negb].
  - destruct (s3_looks_ipv4 p); cbn [negb]; split; intros HH; try done.
    + exfalso. apply (proj2 (proj2 (proj2 (proj2 (proj2 HH))))). by apply Hi'.
    + split; [lia|]. split; [by apply Hb|]. split; [by exists c0, q|]. split; [by exists u, c|]. split; [by apply Hb|]. rewrite Hi'. done.
  - split; [done|]. intros (_ & H1 & _ & _ & H2 & _). by assert (false = true) by by apply Hb.
Qed.

(** The bucket a host names under a domain. *)
Lemma domain_match host d : zlen d < 2 ^ 32 - 1 ->
  (((zlen d =? 0) || (zlen host <=? u32 (zlen d + 1)) || negb (znth host (zlen host - zlen d - 1) =? ch ".")) = false /\ same (zdrop (zlen host - zlen d) host) d = true) <->
  d <> [] /\ exists b, b <> [] /\ host = b ++ ch "." :: d.
Proof.
  intros Hd. pose proof (zlen_nonneg d). rewrite u32_small by lia. rewrite !orb_false_iff, Z.eqb_neq, Z.leb_gt, negb_false_iff, Z.eqb_eq, same_eq. split.
  - intros [[[H1 H2] H3] H4]. split; [by intros ->|]. exists (ztake (zlen host - zlen d - 1) host). split; [intros E; apply (f_equal zlen) in E; rewrite zlen_ztake in E by lia; change (zlen []) with 0 in E; lia|].
    rewrite <- (ztake_zdrop (zlen host - zlen d - 1) host) at 1. f_equal. rewrite zdrop_at by lia. rewrite H3. f_equal. replace (zlen host - zlen d - 1 + 1) with (zlen host - zlen d) by lia. done.
  - intros [Hne (b & Hb & ->)]. rewrite zlen_app, zlen_cons. assert (0 < zlen b) by (destruct b; [done|]; rewrite zlen_cons; pose proof (zlen_nonneg b); lia). assert (zlen d <> 0) by (intros E; by apply zlen_0 in E).
    replace (zlen b + (zlen d + 1) - zlen d - 1) with (zlen b) by lia. replace (zlen b + (zlen d + 1) - zlen d) with (zlen b + 1) by lia. split; [split; [split; [done|lia]|]|].
    + unfold znth, zlen. rewrite Nat2Z.id, app_nth2 by lia. by rewrite Nat.sub_diag.
    + rewrite zdrop_app_ge by lia. replace (zlen b + 1 - zlen b) with 1 by lia. done.
Qed.

(** A domain names a bucket of the host. *)
Definition names_bucket host (d : option (list Z)) : Prop := default [] d <> [] /\ exists b, b <> [] /\ host = b ++ ch "." :: default [] d.
Lemma addr_domains_hit ds1 d b ds2 path host : host = b ++ ch "." :: d -> b <> [] -> d <> [] -> Forall (fun x => zlen (default [] x) < 2 ^ 32 - 1 /\ ~ names_bucket host x) ds1 -> zlen d < 2 ^ 32 - 1 ->
  addr_domains (ds1 ++ Some d :: ds2) host path = Some (S3Addr b (sa_key (lk_s3_split true path)) true (lk_s3_bucket_valid b) false).
Proof.
  intros Eh Hb Hd Hf Hz. induction Hf as [|x ds1 [Hx Hn] _ IH]; cbn [app addr_domains].
  - cbn [from_option]. unfold id. destruct (proj2 (domain_match host d Hz)) as [-> ->]; [by split; [|exists b]|]. cbn [negb].
    replace (ztake (zlen host - zlen d - 1) host) with b; [unfold lk_s3_split; cbn [negb andb]; done|]. rewrite Eh, zlen_app, zlen_cons. replace (zlen b + (zlen d + 1) - zlen d - 1) with (zlen b) by lia. by rewrite ztake_app_le, ztake_all by lia.
  - destruct (_ || _) eqn:E1; [exact IH|]. destruct (same _ _) eqn:E2; [|exact IH]. exfalso. apply Hn, (domain_match host); [done|]. by split.
Qed.
Lemma addr_domains_miss ds path host : Forall (fun x => zlen (default [] x) < 2 ^ 32 - 1 /\ ~ names_bucket host x) ds -> addr_domains ds host path = None.
Proof.
  induction 1 as [|x ds [Hx Hn] _ IH]; [done|]. cbn [addr_domains]. destruct (_ || _) eqn:E1; [exact IH|]. destruct (same _ _) eqn:E2; [|exact IH]. exfalso. apply Hn, (domain_match host); [done|]. by split.
Qed.
Lemma path_internal_spec path : s3_path_internal path = true <-> path = lit "/minio" \/ exists q, path = lit "/minio" ++ ch "/" :: q.
Proof.
  unfold s3_path_internal. change (zlen (lit "/minio")) with 6. split.
  - destruct (Z.ltb_spec (zlen path) 6); [done|]. destruct (same _ _) eqn:Es; [|done]. apply same_eq in Es. cbn [negb orb]. intros [E%Z.eqb_eq|E%Z.eqb_eq]%orb_true_iff.
    + left. by rewrite <- Es, ztake_all by lia.
    + right. exists (zdrop 7 path). rewrite <- (ztake_zdrop 6 path) at 1. rewrite Es. f_equal. destruct (Z.eq_dec (zlen path) 6) as [E6|]; [exfalso; unfold znth in E; rewrite nth_overflow in E by (unfold zlen in *; lia); by vm_compute in E|]. rewrite zdrop_at by lia. by rewrite E.
  - intros [->|[q ->]]; [done|]. rewrite zlen_app, zlen_cons. change (zlen (lit "/minio")) with 6. pose proof (zlen_nonneg q). destruct (Z.ltb_spec (6 + (zlen q + 1)) 6); [lia|]. rewrite ztake_app_le by done. change (ztake 6 (lit "/minio")) with (lit "/minio").
    rewrite (proj2 (same_eq _ _) eq_refl). cbn [negb orb]. apply orb_true_iff. right. unfold znth. rewrite app_nth2; [done|]. vm_compute. lia.
Qed.

(** * The claims *)
(** C20: The operation of an S3 request is the one its description has in the table, and
    nothing else: with the query read as fields, a request that a row describes (method,
    path level, first recognised sub-resource, copy-source) gets that row's name, one
    that no row describes is [other], the server's own surface is [internal].  The answer
    is always one of the names the table enumerates, fits the label, and depends on the
    object key and on the bucket only through their being empty. *)
Theorem s3_op_exact method fs a flags : Forall s3_field_wf fs ->
  let op := lk_s3_op method (s3_query fs) a flags in
  (sa_internal a = true -> op = lk_s3_op_internal) /\
  (sa_internal a = false -> forall r, In r s3_rows -> describes r method fs a flags -> op = s3r_op r) /\
  (sa_internal a = false -> (forall r, In r s3_rows -> ~ describes r method fs a flags) -> op = lk_s3_op_other) /\
  (exists i, 0 <= i /\ lk_s3_op_at i = Some op) /\ zlen op < LK_ROUTE_TEXT_MAX /\
  (forall key bucket, (key = [] <-> sa_key a = []) -> (bucket = [] <-> sa_bucket a = []) ->
     lk_s3_op method (s3_query fs) (a <| sa_key := key |> <| sa_bucket := bucket |>) flags = op) /\
  forall q, exists fs, Forall s3_field_wf fs /\ s3_query fs = q.
Proof.
  intros Hw. cbv zeta. assert (exists i, 0 <= i /\ lk_s3_op_at i = Some (lk_s3_op method (s3_query fs) a flags)) as Hat.
  { assert (forall r, In r s3_rows -> exists i, 0 <= i /\ lk_s3_op_at i = Some (s3r_op r)) as Hrow.
    { intros r Hr. apply list_elem_of_In, list_elem_of_lookup in Hr as [i Hi]. exists (Z.of_nat i). split; [lia|]. unfold lk_s3_op_at. pose proof (lookup_lt_Some _ _ _ Hi). destruct (Z.ltb_spec (Z.of_nat i) (zlen s3_rows)); [|unfold zlen in *; lia]. by rewrite Nat2Z.id, Hi. }
    unfold lk_s3_op. destruct (sa_internal a); [by exists (zlen s3_rows)|]. assert (exists i, 0 <= i /\ lk_s3_op_at i = Some s3_op_other) as Ho by by exists (zlen s3_rows + 1).
    case_bool_decide; [done|]. destruct (s3_level a) as [lvl|]; [|done]. destruct (s3_subresource _ _) as [key val]. destruct (List.find _ _) as [r|] eqn:E; [|done]. apply find_some in E as [Hr _]. by apply Hrow. }
  split; [|split; [|split; [|split; [|split; [|split]]]]].
  - intros Hi. unfold lk_s3_op. by rewrite Hi.
  - intros Hi. by apply lk_s3_op_cases.
  - intros Hi. by apply lk_s3_op_cases.
  - done.
  - destruct Hat as (i & _ & Hi). unfold lk_s3_op_at in Hi. destruct (i <? zlen s3_rows).
    + destruct (s3_rows !! Z.to_nat i) as [r|] eqn:Er; [|done]. injection Hi as <-. assert (forallb (fun r => zlen (s3r_op r) <? LK_ROUTE_TEXT_MAX) s3_rows = true) as H by (vm_compute; reflexivity). rewrite forallb_forall in H. apply Z.ltb_lt, H. apply list_elem_of_In. by eapply list_elem_of_lookup_2.
    + destruct (i =? zlen s3_rows); [by injection Hi as <-|]. destruct (i =? _); [by injection Hi as <-|done].
  - intros key bucket Hk Hb. unfold lk_s3_op. change (sa_internal (a <| sa_key := key |> <| sa_bucket := bucket |>)) with (sa_internal a). replace (s3_level (a <| sa_key := key |> <| sa_bucket := bucket |>)) with (s3_level a); [done|].
    assert (forall x y : list Z, (x = [] <-> y = []) -> (zlen x =? 0) = (zlen y =? 0)) as He.
    { intros x y H. destruct (Z.eqb_spec (zlen x) 0) as [E|E], (Z.eqb_spec (zlen y) 0) as [E'|E']; try done; exfalso; [apply E'; by rewrite (proj1 H (zlen_0 _ E))|apply E; by rewrite (proj2 H (zlen_0 _ E'))]. }
    unfold s3_level. cbn. by rewrite (He _ _ Hk), (He _ _ Hb).
  - intros q. by apply (s3_query_fields (length q)).
Qed.

(** C37: The bucket of a request is found where its addressing form puts it and may become a
    label only under the S3 naming rules.  Under the first configured domain the host ends
    in, the whole prefix is the bucket, its dots and all, and the whole path the key; with
    no such domain the first path segment is the bucket and the rest the key, except for
    the server's own [/minio] surface, which has neither; and a bucket is valid exactly
    when it is a name of 3 to 63 bytes of the alphabet, alphanumeric at both ends, with no
    two dots in a row and not four dotted numbers.  Of a bucket with dots
    [docs/notes-s3proto.md] says only the first label is taken; the code takes the whole
    prefix, as its own comment explains, and so states the theorem. *)
Theorem s3_addr_exact host port path domains no_user : Forall (fun c => c <> ch ":") host -> (port = [] \/ exists q, port = ch ":" :: q) ->
  zlen domains <= LK_S3_DOMAIN_MAX -> Forall (fun x => zlen (default [] x) < 2 ^ 32 - 1) domains ->
  let a := lk_s3_addr_of (host ++ port) path (Some (S3Cfg domains no_user)) in
  (forall ds1 d ds2 b, domains = ds1 ++ Some d :: ds2 -> Forall (fun x => ~ names_bucket host x) ds1 -> d <> [] -> b <> [] -> host = b ++ ch "." :: d ->
     a = S3Addr b (if znth path 0 =? ch "/" then zdrop 1 path else path) true (lk_s3_bucket_valid b) false) /\
  (Forall (fun x => ~ names_bucket host x) domains ->
     (path = lit "/minio" \/ (exists q, path = lit "/minio" ++ ch "/" :: q) -> a = S3Addr [] [] false false true) /\
     forall bucket, Forall (fun c => c <> ch "/") bucket -> bucket <> lit "minio" ->
       (path = ch "/" :: bucket -> a = S3Addr bucket [] false (lk_s3_bucket_valid bucket) false) /\
       (forall key, path = ch "/" :: bucket ++ ch "/" :: key -> a = S3Addr bucket key false (lk_s3_bucket_valid bucket) false)) /\
  forall b, lk_s3_bucket_valid b = true <-> bucket_ok b.
Proof.
  intros Hh Hp Hn Hd. cbv zeta. unfold lk_s3_addr_of. rewrite (span_app (until (ch ":")) host port) by (by apply until_ne || by destruct Hp as [->|[q ->]]). cbn [fst fmap option_fmap option_map from_option s3_domains]. unfold id. rewrite (ztake_all _ domains) by done.
  split; [|split; [|apply bucket_valid_ok]].
  - intros ds1 d ds2 b Ed Hf Hne Hb Eh. subst domains. apply Forall_app in Hd as [Hd1 Hd2]. inversion Hd2 as [|?? Hdd _]; subst. erewrite addr_domains_hit; [done|done..| |done]. apply Forall_forall. intros x Hx. rewrite Forall_forall in Hd1, Hf. split; [by apply Hd1|by apply Hf].
  - intros Hf. rewrite addr_domains_miss; [|apply Forall_forall; intros x Hx; rewrite Forall_forall in Hd, Hf; split; [by apply Hd|by apply Hf]]. split; [intros Hi; unfold lk_s3_split; by rewrite (proj2 (path_internal_spec path) Hi)|].
    intros bucket Hb Hm. assert (forall key, (key = [] \/ exists k, key = ch "/" :: k) -> path = ch "/" :: bucket ++ key -> lk_s3_split false path = S3Addr bucket (past key) false (lk_s3_bucket_valid bucket) false) as H.
    { intros key Hk ->. unfold lk_s3_split. destruct (s3_path_internal _) eqn:Ei.
      - exfalso. apply Hm. apply path_internal_spec in Ei. assert (span (until (ch "/")) (bucket ++ key) = (bucket, key)) as E1 by (apply span_app; [by apply until_ne|by destruct Hk as [->|[? ->]]]).
        assert (bucket ++ key = lit "minio" \/ exists q, bucket ++ key = lit "minio" ++ ch "/" :: q) as [E|[q E]] by (destruct Ei as [E|[q E]]; apply (f_equal past) in E; [left|right; exists q]; exact E).
        + rewrite E in E1. by injection E1 as <- _.
        + rewrite E in E1. injection E1 as <- _. done.
      - cbn [negb andb]. change (znth (ch "/" :: bucket ++ key) 0 =? ch "/") with true. cbn iota. change (zdrop 1 (ch "/" :: bucket ++ key)) with (bucket ++ key). rewrite span_app; [done|by apply until_ne|by destruct Hk as [->|[? ->]]]. }
    split; [intros Ep; apply (H []); [by left|by rewrite app_nil_r]|]. intros key Ep. apply (H (ch "/" :: key)); [by right; eexists|done].
Qed.

(** * Witnesses *)
Definition w_addr : lk_s3_addr := lk_s3_addr_of (lit "my.bucket.s3.local:9000") (lit "/a/b.txt") (Some (S3Cfg [Some (lit "s3.local")] false)).
Definition w_upload : list field := [(lit "partNumber", Some (lit "1")); (lit "uploadId", Some (lit "x"))].
Lemma s3_op_exact_witness : lk_s3_op (lit "PUT") (s3_query w_upload) w_addr LK_S3_F_COPY_SRC = lit "UploadPartCopy".
Proof.
  destruct (s3_op_exact (lit "PUT") w_upload w_addr LK_S3_F_COPY_SRC) as (_ & H & _).
  - apply Forall_forall. intros x [<-|[<-|[]]]; (split; [by repeat constructor|]; repeat constructor; vm_compute; discriminate).
  - apply (H eq_refl (s3row S3_K_UPLOAD_ID S3_L_OBJECT S3_M_PUT S3_C_YES "UploadPartCopy")); [cbn; tauto|]. split; [cbn; tauto|]. split; [split; [by left|by vm_compute]|]. split; [done|by right].
Defined.
Lemma s3_addr_exact_witness : w_addr = S3Addr (lit "my.bucket") (lit "a/b.txt") true true false.
Proof.
  destruct (s3_addr_exact (lit "my.bucket.s3.local") (lit ":9000") (lit "/a/b.txt") [Some (lit "s3.local")] false) as (H & _).
  - repeat constructor; vm_compute; discriminate.
  - right. by eexists.
  - vm_compute. discriminate.
  - repeat constructor.
  - exact (H [] (lit "s3.local") [] (lit "my.bucket") eq_refl ltac:(constructor) ltac:(discriminate) ltac:(discriminate) eq_refl).
Defined.
