(* ===== verification/HttpWire.v ===== *)
(** HTTP/1.x text as bytes, [proto/http/http_wire.h]: character classes, lists, lengths,
    the header block iterator, start lines, targets and the header values the handler
    reads.

    A borrowed range [struct http_span] is a [http_span]: its bytes and where they start
    in the block they were taken from (the pointer, which only the display mask uses). *)
From Stdlib Require Import Ascii String.
From stdpp Require Import base list option.
From S2P Require Import Prelude Conn Proto NormRoute.
#[local] Open Scope Z_scope.
Implicit Types (p q v line : list Z) (c : Z).

Record http_span := HSpan { sp_at : Z; sp_b : list Z }.
Definition span0 : http_span := HSpan 0 [].

(** ** Character classes *)
Definition http_lc c : Z := if (ch "A" <=? c) && (c <=? ch "Z") then c - ch "A" + ch "a" else c.
Definition http_is_digit c : bool := (ch "0" <=? c) && (c <=? ch "9").
Definition http_is_ows c : bool := (c =? 32) || (c =? 9).
Definition http_is_tchar c : bool :=
  (ch "a" <=? c) && (c <=? ch "z") || (ch "A" <=? c) && (c <=? ch "Z") || http_is_digit c ||
  existsb (Z.eqb c) (lit "!#$%&'*+-.^_`|~").
(** [-1] for a byte that is not a digit. *)
Definition http_hex_val c : Z :=
  if http_is_digit c then c - ch "0"
  else if (ch "a" <=? c) && (c <=? ch "f") then c - ch "a" + 10
  else if (ch "A" <=? c) && (c <=? ch "F") then c - ch "A" + 10
  else -1.

(** ** Spans and lists *)
Definition http_span_eq_ci v (l : list Z) : bool := if negb (zlen v =? zlen l) then false else same (map http_lc v) l.
Definition http_trim_ows (s : http_span) : http_span :=
  let b := (span http_is_ows (sp_b s)).2 in HSpan (sp_at s + (zlen (sp_b s) - zlen b)) (trim_end http_is_ows b).
Definition trim p : list Z := sp_b (http_trim_ows (HSpan 0 p)).
Definition is_list_gap c : bool := (c =? ch ",") || http_is_ows c.
(** The next member of a comma list and what follows it. *)
Definition list_member v : list Z * list Z := span (until (ch ",")) (span is_list_gap v).2.
Fixpoint http_list_has (fuel : nat) v (tok : list Z) : bool :=
  match fuel, v with
  | S fuel, _ :: _ => let '(m, r) := list_member v in if http_span_eq_ci (trim m) tok then true else http_list_has fuel r tok
  | _, _ => false
  end.
Fixpoint http_list_last (fuel : nat) v (last : list Z) : list Z :=
  match fuel, v with
  | S fuel, _ :: _ => let '(m, r) := list_member v in http_list_last fuel r (if 0 <? zlen m then trim m else last)
  | _, _ => last
  end.

Fixpoint parse_u64_from (v : Z) p : option Z :=
  match p with
  | [] => Some v
  | c :: p => if negb (http_is_digit c) then None else if 2 ^ 62 / 10 <? v then None else parse_u64_from (v * 10 + (c - ch "0")) p
  end.
Definition http_parse_u64 p : option Z := if zlen p =? 0 then None else parse_u64_from 0 p.
(** [val] is the value of the members so far. *)
Fixpoint content_length_from (fuel : nat) v (val : option Z) : option Z :=
  match fuel, v with
  | S fuel, _ :: _ =>
      let '(m, r) := list_member v in
      if zlen m =? 0 then content_length_from fuel r val
      else
        cur ← http_parse_u64 (trim m);
        match val with
        | None => content_length_from fuel r (Some cur)
        | Some x => if cur =? x then content_length_from fuel r val else None
        end
  | _, _ => val
  end.
Definition http_parse_content_length v : option Z := content_length_from (length v) v None.

(** ** Header block iterator *)
Definition HTTP_HEAD_LF_ONLY := 1.
Definition HTTP_HEAD_BAD := 2.
Definition HTTP_HEAD_NO_EOL := 4.
(** The bytes from [p] to [end] and where they start. *)
Record http_head := HHead { hh_at : Z; hh_p : list Z; hh_flags : Z }.
#[global] Instance http_head_upd : Updatable http_head := fun h => HHead (hh_at h) (hh_p h) (hh_flags h).
Definition http_head_init p : http_head := HHead 0 p 0.
Definition head_flag (h : http_head) (f : Z) : http_head := h <| hh_flags ::= fun w => set_flag w f |>.
Definition http_head_line (h : http_head) : option http_span * http_head :=
  match hh_p h with
  | [] => (None, h)
  | _ =>
      match span (until 10) (hh_p h) with
      | (l, []) => (Some (HSpan (hh_at h) l), head_flag (h <| hh_at ::= fun a => a + zlen l |> <| hh_p := [] |>) HTTP_HEAD_NO_EOL)
      | (l, _ :: r) =>
          let h' := h <| hh_at ::= fun a => a + zlen l + 1 |> <| hh_p := r |> in
          if negb (zlen l =? 0) && (znth l (zlen l - 1) =? 13) then (Some (HSpan (hh_at h) (ztake (zlen l - 1) l)), h')
          else (Some (HSpan (hh_at h) l), head_flag h' HTTP_HEAD_LF_ONLY)
      end
  end.
(** Name and value of the next field line. *)
Definition http_head_field (h : http_head) : option (list Z * http_span) * http_head :=
  if has_flag (hh_flags h) HTTP_HEAD_BAD then (None, h)
  else match http_head_line h with
  | (None, h) => (None, h)
  | (Some line, h) =>
      match sp_b line with
      | [] => (None, h)
      | b :: _ =>
          if http_is_ows b then (None, head_flag h HTTP_HEAD_BAD)
          else
            let '(name, r) := span (until (ch ":")) (sp_b line) in
            if negb (forallb http_is_tchar name) then (None, head_flag h HTTP_HEAD_BAD)
            else if (zlen name =? 0) || (zlen r =? 0) then (None, head_flag h HTTP_HEAD_BAD)
            else (Some (name, http_trim_ows (HSpan (sp_at line + zlen name + 1) (past r))), h)
      end
  end.

(** ** Start lines *)
Inductive http_method :=
  | HTTP_M_OTHER | HTTP_M_GET | HTTP_M_HEAD | HTTP_M_POST | HTTP_M_PUT | HTTP_M_DELETE | HTTP_M_CONNECT | HTTP_M_OPTIONS
  | HTTP_M_TRACE | HTTP_M_PATCH.
#[global] Instance http_method_eq_dec : EqDecision http_method.
Proof. solve_decision. Defined.
Definition http_method_tag (m : http_method) : Z :=
  match m with
  | HTTP_M_GET => ch "G" | HTTP_M_HEAD => ch "H" | HTTP_M_POST => ch "P" | HTTP_M_PUT => ch "U" | HTTP_M_DELETE => ch "D"
  | HTTP_M_CONNECT => ch "C" | HTTP_M_OPTIONS => ch "O" | HTTP_M_TRACE => ch "T" | HTTP_M_PATCH => ch "A" | HTTP_M_OTHER => ch "?"
  end.
Definition http_method_tab : list (list Z * http_method) :=
  [(lit "GET", HTTP_M_GET); (lit "HEAD", HTTP_M_HEAD); (lit "POST", HTTP_M_POST); (lit "PUT", HTTP_M_PUT); (lit "DELETE", HTTP_M_DELETE);
   (lit "CONNECT", HTTP_M_CONNECT); (lit "OPTIONS", HTTP_M_OPTIONS); (lit "TRACE", HTTP_M_TRACE); (lit "PATCH", HTTP_M_PATCH)].
Definition http_method_id (m : list Z) : http_method :=
  match List.find (fun '(s, _) => same m s) http_method_tab with Some (_, id) => id | None => HTTP_M_OTHER end.

Definition not_space c : bool := negb (c =? 32).
Definition target_byte c : bool := negb ((c <=? 0x20) || (c =? 0x7f)).
(** Method, target and minor version. *)
Definition http_parse_req_line (s : http_span) : option (list Z * http_span * Z) :=
  let line := sp_b s in
  let '(m, r) := span not_space line in
  if negb (forallb http_is_tchar m) then None
  else if (zlen m =? 0) || (zlen r =? 0) then None
  else
    let '(t, r') := span not_space (past r) in
    if negb (forallb target_byte t) then None
    else if (zlen t =? 0) || (zlen r' =? 0) then None
    else
      let v := past r' in
      if negb (zlen v =? 8) || negb (same (ztake 7 v) (lit "HTTP/1.")) then None
      else if negb (znth v 7 =? ch "0") && negb (znth v 7 =? ch "1") then None
      else Some (m, HSpan (sp_at s + zlen m + 1) t, znth v 7 - ch "0").
(** Status and minor version. *)
Definition http_parse_status_line line : option (Z * Z) :=
  if (zlen line <? 12) || negb (same (ztake 7 line) (lit "HTTP/1.")) then None
  else if negb (znth line 7 =? ch "0") && negb (znth line 7 =? ch "1") then None
  else if negb (znth line 8 =? 32) then None
  else if (znth line 9 <? ch "1") || (ch "5" <? znth line 9) || negb (http_is_digit (znth line 10)) || negb (http_is_digit (znth line 11)) then None
  else if (12 <? zlen line) && negb (znth line 12 =? 32) then None
  else Some ((znth line 9 - ch "0") * 100 + (znth line 10 - ch "0") * 10 + (znth line 11 - ch "0"), znth line 7 - ch "0").

(** ** Targets and values *)
Definition is_scheme_byte c : bool := negb (c =? ch ":") && negb (c =? ch "/") && negb (c =? ch "?").
Definition is_authority_byte c : bool := negb (c =? ch "/") && negb (c =? ch "?").
(** Path, query and authority; the path with its query is contiguous in the target. *)
Definition http_target_split (t : list Z) : list Z * list Z * list Z :=
  let path_query p := let '(path, r) := span (until (ch "?")) p in (path, past r) in
  let '(s, r) := span is_scheme_byte t in
  if negb (zlen s =? 0) && (zlen s + 2 <? zlen t) && (znth r 0 =? ch ":") && (znth r 1 =? ch "/") && (znth r 2 =? ch "/") then
    let '(authority, r) := span is_authority_byte (zdrop 3 r) in (path_query r, authority)
  else if negb (zlen t =? 0) && negb (znth t 0 =? ch "/") && negb (znth t 0 =? ch "*") then ([], [], t)
  else (path_query t, []).
Definition is_token_byte c : bool := negb (c =? ch ";") && negb (c =? ch ",").
Definition http_first_token v : list Z := trim (span is_token_byte v).1.

(** [k] bytes as pairs of hex digits, and the rest. *)
Fixpoint hex_bytes (k : nat) v : option (list Z * list Z) :=
  match k with
  | O => Some ([], v)
  | S k =>
      match v with
      | a :: b :: v =>
          let hi := http_hex_val a in
          let lo := http_hex_val b in
          if (hi <? 0) || (lo <? 0) then None else '(bs, v) ← hex_bytes k v; Some (hi * 16 + lo :: bs, v)
      | _ => None
      end
  end.
Definition dash v : option (list Z) := match v with c :: v => if c =? ch "-" then Some v else None | [] => None end.
(** Trace id, parent id and flags. *)
Definition http_parse_traceparent v : option (list Z * list Z * Z) :=
  '(ver, v) ← hex_bytes 1 v; v ← dash v;
  '(trace_id, v) ← hex_bytes 16 v; v ← dash v;
  '(parent_id, v) ← hex_bytes 8 v; v ← dash v;
  '(flags, v) ← hex_bytes 1 v;
  if negb (zlen v =? 0) && negb (znth v 0 =? ch "-") then None
  else if negb (znth ver 0 =? 0) then None
  else if forallb (Z.eqb 0) trace_id || forallb (Z.eqb 0) parent_id then None
  else Some (trace_id, parent_id, znth flags 0).

Definition http_b64_val c : Z :=
  if (ch "A" <=? c) && (c <=? ch "Z") then c - ch "A"
  else if (ch "a" <=? c) && (c <=? ch "z") then c - ch "a" + 26
  else if http_is_digit c then c - ch "0" + 52
  else if c =? ch "+" then 62
  else if c =? ch "/" then 63
  else -1.
(** [char] is signed: a byte of 128 and more is below 0x20. *)
Definition label_ctl (b : Z) : bool := (128 <=? b) || (b <? 0x20) || (b =? 0x7f).
(** [out] is the caller's buffer, [n] the bytes written to it; a failure leaves them there. *)
Fixpoint basic_from v (out : list Z) (n acc bits cap : Z) : bool * list Z :=
  match v with
  | [] => (false, out)
  | c :: v =>
      if c =? ch "=" then (false, out)
      else
        let x := http_b64_val c in
        if x <? 0 then (false, out)
        else
          let acc := u32 (Z.lor (Z.shiftl acc 6) x) in
          let bits := bits + 6 in
          if bits <? 8 then basic_from v out n acc bits cap
          else
            let bits := bits - 8 in
            let b := Z.land (Z.shiftr acc bits) 255 in
            if b =? ch ":" then (0 <? n, <[Z.to_nat n := 0]> out)
            else if cap <=? n + 1 then (false, out)
            else if label_ctl b then (false, out)
            else basic_from v (<[Z.to_nat n := b]> out) (n + 1) acc bits cap
  end.
(** The user half, into [out]. *)
Definition http_basic_user v (out : list Z) (cap : Z) : bool * list Z :=
  if (zlen v <? 6) || negb (http_span_eq_ci (ztake 5 v) (lit "basic")) || negb (znth v 5 =? 32) then (false, out)
  else basic_from (span http_is_ows (zdrop 6 v)).2 out 0 0 0 cap.
