(* ===== verification/HttpFrame.v ===== *)
(** The HTTP/1.x stream framer, [proto/http/http_frame.c] with its state from [http.h]:
    header blocks up to the empty line, the body-length decision, counted, chunked and
    close-delimited bodies, blind zones and the textual resync.

    A chunk [p] with its length is the list of its bytes and [p += used] the list that is
    left; [anchor] with [anchor_n] is a list.  The state lives in the connection, where
    the consumer's callbacks can see it. *)
From Stdlib Require Import Ascii String.
From stdpp Require Import base list option.
From S2P Require Import Prelude Conn Reassembly Proto NormRoute HttpWire.
#[local] Open Scope Z_scope.

Definition LK_HTTP_MSG_REQ := ch "R".
Definition LK_HTTP_MSG_RESP := ch "S".
Definition LK_HTTP_MSG_INTER := ch "I".
Definition LK_HTTP_MSG_DATA := ch "D".
Definition LK_HTTP_MSG_END := ch "E".
Definition LK_HTTP_MSG_ERRB := ch "X".
Definition LK_HTTP_MSG_NOTE := ch "!".

Inductive lk_http_note :=
  | LK_HTTP_NOTE_BAD_HEAD | LK_HTTP_NOTE_FIELD_BAD | LK_HTTP_NOTE_HEAD_TOO_BIG | LK_HTTP_NOTE_HEAD_HOLE | LK_HTTP_NOTE_CL_TE
  | LK_HTTP_NOTE_CL_BAD | LK_HTTP_NOTE_TE_BAD | LK_HTTP_NOTE_CHUNK_BAD | LK_HTTP_NOTE_CHUNK_HOLE | LK_HTTP_NOTE_LF_ONLY
  | LK_HTTP_NOTE_PIPELINE_OVER | LK_HTTP_NOTE_BODY_UNSEEN | LK_HTTP_NOTE_NO_MEM | LK_HTTP_NOTE_TLS | LK_HTTP_NOTE_BLIND_H2
  | LK_HTTP_NOTE_BLIND_UPGRADE | LK_HTTP_NOTE_BLIND_CONNECT.
Definition http_note_code (n : lk_http_note) : Z :=
  match n with
  | LK_HTTP_NOTE_BAD_HEAD => 1 | LK_HTTP_NOTE_FIELD_BAD => 2 | LK_HTTP_NOTE_HEAD_TOO_BIG => 3 | LK_HTTP_NOTE_HEAD_HOLE => 4
  | LK_HTTP_NOTE_CL_TE => 5 | LK_HTTP_NOTE_CL_BAD => 6 | LK_HTTP_NOTE_TE_BAD => 7 | LK_HTTP_NOTE_CHUNK_BAD => 8
  | LK_HTTP_NOTE_CHUNK_HOLE => 9 | LK_HTTP_NOTE_LF_ONLY => 10 | LK_HTTP_NOTE_PIPELINE_OVER => 11 | LK_HTTP_NOTE_BODY_UNSEEN => 12
  | LK_HTTP_NOTE_NO_MEM => 13 | LK_HTTP_NOTE_TLS => 14 | LK_HTTP_NOTE_BLIND_H2 => 15 | LK_HTTP_NOTE_BLIND_UPGRADE => 16
  | LK_HTTP_NOTE_BLIND_CONNECT => 17
  end.
Definition LK_HTTP_NOTE_MAX := 18.
Definition LK_HTTP_ERRB_MAX := 256.
Definition LK_HTTP_ANCHOR_MAX := 12.
Definition LK_HTTP_MAX_INFLIGHT := 16.
Definition HTTP_RQ_HEAD := 1.
Definition HTTP_RQ_CONNECT := 2.
Definition HTTP_RQ_UP_WS := 4.
Definition HTTP_RQ_UP_H2C := 8.
Definition HTTP_RQ_UP_OTHER := 16.

Inductive http_fr_st := HTTP_FR_HEAD | HTTP_FR_BODY | HTTP_FR_CHUNK | HTTP_FR_CLOSE | HTTP_FR_SCAN.
#[global] Instance http_fr_st_eq_dec : EqDecision http_fr_st.
Proof. solve_decision. Defined.
Inductive http_chunk_st := HTTP_CH_SIZE | HTTP_CH_EXT | HTTP_CH_SIZE_LF | HTTP_CH_DATA | HTTP_CH_DATA_EOL | HTTP_CH_TRAILER.
#[global] Instance http_chunk_st_eq_dec : EqDecision http_chunk_st.
Proof. solve_decision. Defined.

Record http_dir := HDir {
  hd_st : http_fr_st; hd_chunk_st : http_chunk_st; hd_chunk_dig : Z; hd_atline : bool; hd_err_want : bool; hd_anchor : list Z;
  hd_body_left : Z; hd_body_seen : Z; hd_chunk_left : Z; hd_chunk_val : Z; hd_head_ts : Z; hd_last_ts : Z; hd_off : Z;
  hd_events : Z; hd_holes : Z }.
#[global] Instance http_dir_upd : Updatable http_dir := fun x =>
  HDir (hd_st x) (hd_chunk_st x) (hd_chunk_dig x) (hd_atline x) (hd_err_want x) (hd_anchor x) (hd_body_left x) (hd_body_seen x)
    (hd_chunk_left x) (hd_chunk_val x) (hd_head_ts x) (hd_last_ts x) (hd_off x) (hd_events x) (hd_holes x).
Definition http_dir0 : http_dir := HDir HTTP_FR_HEAD HTTP_CH_SIZE 0 false false [] 0 0 0 0 0 0 0 0 0.

Record http_frame := HFrame {
  hf_send : http_dir; hf_recv : http_dir; hf_pend : list Z; hf_pend_head : Z; hf_pend_n : Z; hf_pend_skew : bool; hf_lf_noted : bool }.
#[global] Instance http_frame_upd : Updatable http_frame := fun x =>
  HFrame (hf_send x) (hf_recv x) (hf_pend x) (hf_pend_head x) (hf_pend_n x) (hf_pend_skew x) (hf_lf_noted x).
Definition http_frame0 : http_frame := HFrame http_dir0 http_dir0 (replicate (Z.to_nat LK_HTTP_MAX_INFLIGHT) 0) 0 0 false false.
Definition hf_d (hf : http_frame) (d : lk_dir) : http_dir := match d with LK_DIR_SEND => hf_send hf | LK_DIR_RECV => hf_recv hf end.
Definition hf_upd (d : lk_dir) (g : http_dir -> http_dir) (hf : http_frame) : http_frame :=
  match d with LK_DIR_SEND => hf <| hf_send ::= g |> | LK_DIR_RECV => hf <| hf_recv ::= g |> end.

(** ** The in-flight FIFO *)
Definition pend_pop (hf : http_frame) : Z * http_frame :=
  let '(v, hf) :=
    if negb (hf_pend_n hf =? 0) then
      let v := nth (Z.to_nat (hf_pend_head hf)) (hf_pend hf) 0 in
      let hf := hf <| hf_pend_head ::= fun h => u8 ((h + 1) mod LK_HTTP_MAX_INFLIGHT) |> <| hf_pend_n ::= fun n => n - 1 |> in
      (v, if hf_pend_n hf =? 0 then hf <| hf_pend_skew := false |> else hf)
    else (0, hf) in
  (if hf_pend_skew hf then 0 else v, hf).

(** ** Header blocks *)
(** The bytes up to the LF that closes an empty line: how many, [atline] and whether it came. *)
Fixpoint scan_block (p : list Z) (atline : bool) : Z * bool * bool :=
  match p with
  | [] => (0, atline, false)
  | b :: p =>
      if (b =? 10) && atline then (1, atline, true)
      else
        let '(k, a, e) := scan_block p (if b =? 10 then true else if negb (b =? 13) then false else atline) in (k + 1, a, e)
  end.

Record http_framing := HFraming { fr_clen : Z; fr_have_cl : bool; fr_bad_cl : bool; fr_te_present : bool; fr_te_chunked : bool; fr_rq : Z }.
#[global] Instance http_framing_upd : Updatable http_framing := fun x =>
  HFraming (fr_clen x) (fr_have_cl x) (fr_bad_cl x) (fr_te_present x) (fr_te_chunked x) (fr_rq x).
Definition http_framing0 : http_framing := HFraming 0 false false false false 0.
Definition read_field (fr : http_framing) (name val : list Z) : http_framing :=
  if http_span_eq_ci name (lit "content-length") then
    match http_parse_content_length val with
    | None => fr <| fr_bad_cl := true |>
    | Some v => if fr_have_cl fr && negb (v =? fr_clen fr) then fr <| fr_bad_cl := true |>
                else fr <| fr_clen := v |> <| fr_have_cl := true |>
    end
  else if http_span_eq_ci name (lit "transfer-encoding") then
    fr <| fr_te_present := true |> <| fr_te_chunked := http_span_eq_ci (http_list_last (length val) val []) (lit "chunked") |>
  else if http_span_eq_ci name (lit "upgrade") then
    if http_list_has (length val) val (lit "websocket") then fr <| fr_rq ::= fun w => set_flag w HTTP_RQ_UP_WS |>
    else if http_list_has (length val) val (lit "h2c") then fr <| fr_rq ::= fun w => set_flag w HTTP_RQ_UP_H2C |>
    else if negb (zlen val =? 0) then fr <| fr_rq ::= fun w => set_flag w HTTP_RQ_UP_OTHER |>
    else fr
  else fr.
(** A field takes at least one byte of the block. *)
Fixpoint read_fields (fuel : nat) (h : http_head) (fr : http_framing) : bool * http_head * http_framing :=
  match fuel with
  | O => (negb (has_flag (hh_flags h) HTTP_HEAD_BAD), h, fr)
  | S fuel =>
      match http_head_field h with
      | (Some (name, val), h) => read_fields fuel h (read_field fr name (sp_b val))
      | (None, h) => (negb (has_flag (hh_flags h) HTTP_HEAD_BAD), h, fr)
      end
  end.
(** The fuel the block of [h] needs. *)
Definition fields_fuel (h : http_head) : nat := Datatypes.S (length (hh_p h)).

Section Frame.
Context {S P : Type}.
Abbreviation reasm := (lk_reasm S P http_frame).
Abbreviation conn := (lk_conn P http_frame).
Implicit Types (r : reasm) (c : conn) (d : lk_dir) (p q : list Z).

(** [hf], [&hf->d[dir]] and writes to them; the state exists wherever they are used. *)
Definition fr_of c : http_frame := default http_frame0 (c_frame_state c).
Definition upd_fr c (g : http_frame -> http_frame) : conn := c <| c_frame_state ::= fmap g |>.
Definition dir_of c d : http_dir := hf_d (fr_of c) d.
Definition upd_dir c d (g : http_dir -> http_dir) : conn := upd_fr c (hf_upd d g).
Definition set_st c d (st : http_fr_st) : conn := upd_dir c d (fun x => x <| hd_st := st |>).

Definition http_frame_get r c : bool * reasm * conn :=
  match c_frame_state c with
  | Some _ => (true, r, c)
  | None => let '(ok, r) := malloc r in (ok, r, if ok then c <| c_frame_state := Some http_frame0 |> else c)
  end.
(** [http_dialect(c)->flags & LK_HTTP_D_ERR_BODY]: of the dialects only S3 asks. *)
Definition err_body c : bool := match c_ops c with Some PROTO_S3 => true | _ => false end.

(** ** Emitting *)
Definition emit r c d (type len : Z) (body : list Z) (flags ts : Z) : reasm * conn :=
  lk_reasm_emit r c d (Msg ts type flags len body).
Definition note r c d (n : lk_http_note) (ts : Z) : reasm * conn :=
  emit r c d LK_HTTP_MSG_NOTE (http_note_code n) [] (match f_st (frame c d) with LK_FR_DIRTY => LK_MSG_AFTER_RESYNC | _ => 0 end) ts.
Definition go_blind r c d (n : lk_http_note) (ts : Z) : reasm * conn :=
  let '(r, c) := note r c d n ts in (r, c <| c_flags ::= fun w => set_flag w LK_CONN_IGNORE |>).
Definition go_scan r c d : reasm * conn :=
  let r := lk_reasm_buf_put r (f_buf (frame c d)) in
  let c := upd_frame c d (fun f => f <| f_buf := None |> <| f_st := LK_FR_DIRTY |>) in
  (r, upd_dir c d (fun x => x <| hd_st := HTTP_FR_SCAN |> <| hd_anchor := [] |> <| hd_err_want := false |> <| hd_body_left := 0 |>
        <| hd_body_seen := 0 |> <| hd_chunk_left := 0 |> <| hd_chunk_val := 0 |> <| hd_chunk_dig := 0 |> <| hd_chunk_st := HTTP_CH_SIZE |>
        <| hd_atline := true |>)).

Definition sat32 (n : Z) : Z := if 2 ^ 32 - 1 <? n then 2 ^ 32 - 1 else n.
(** [src]: the captured bytes, or [None] for a hole. *)
Definition body_add r c d (src : option (list Z)) (n ts : Z) : reasm * conn :=
  if n =? 0 then (r, c)
  else
    let want := hd_err_want (dir_of c d) in
    let c := if want then upd_dir c d (fun x => x <| hd_err_want := false |>) else c in
    let '(r, c) :=
      match want, src with
      | true, Some p => let k := if LK_HTTP_ERRB_MAX <? n then LK_HTTP_ERRB_MAX else n in emit r c d LK_HTTP_MSG_ERRB k (ztake k p) 0 ts
      | _, _ => (r, c)
      end in
    let c := upd_dir c d (fun x => x <| hd_body_seen ::= fun s => u64 (s + n) |>) in
    emit r c d LK_HTTP_MSG_DATA (sat32 n) [] 0 ts.
Definition body_end r c d (ts : Z) : reasm * conn :=
  let '(r, c) := emit r c d LK_HTTP_MSG_END (sat32 (hd_body_seen (dir_of c d))) [] 0 ts in
  (r, upd_dir c d (fun x => x <| hd_body_seen := 0 |> <| hd_body_left := 0 |> <| hd_err_want := false |> <| hd_st := HTTP_FR_HEAD |>
        <| hd_atline := true |>)).

Definition pend_push r c (rq ts : Z) : reasm * conn :=
  let hf := fr_of c in
  if LK_HTTP_MAX_INFLIGHT <=? hf_pend_n hf then
    note r (upd_fr c (fun hf => hf <| hf_pend_skew := true |>)) LK_DIR_RECV LK_HTTP_NOTE_PIPELINE_OVER ts
  else
    (r, upd_fr c (fun hf => hf <| hf_pend ::= <[Z.to_nat ((hf_pend_head hf + hf_pend_n hf) mod LK_HTTP_MAX_INFLIGHT) := rq]> |>
          <| hf_pend_n ::= fun n => n + 1 |>)).

(** ** A complete header block *)
Definition bad_head r c d (n : lk_http_note) (ts : Z) : reasm * conn :=
  let '(r, c) := note r c d n ts in go_scan r c d.
Definition note_lf r c d (h : http_head) (ts : Z) : reasm * conn :=
  if has_flag (hh_flags h) HTTP_HEAD_LF_ONLY && negb (hf_lf_noted (fr_of c))
  then note r (upd_fr c (fun hf => hf <| hf_lf_noted := true |>)) d LK_HTTP_NOTE_LF_ONLY ts else (r, c).
Definition enter_chunk c d : conn :=
  upd_dir c d (fun x => x <| hd_st := HTTP_FR_CHUNK |> <| hd_chunk_st := HTTP_CH_SIZE |> <| hd_chunk_val := 0 |> <| hd_chunk_dig := 0 |>).
Definition enter_body c d (n : Z) : conn := upd_dir c d (fun x => x <| hd_st := HTTP_FR_BODY |> <| hd_body_left := n |>).

Definition request_complete r c d (h : http_head) (line : http_span) (head : list Z) (ts : Z) : reasm * conn :=
  if (14 <=? zlen head) && same (ztake 14 head) (lit "PRI * HTTP/2.0") then go_blind r c d LK_HTTP_NOTE_BLIND_H2 ts
  else match http_parse_req_line line with
  | None => bad_head r c d LK_HTTP_NOTE_BAD_HEAD ts
  | Some (method, _, _) =>
      let '(ok, h, fr) := read_fields (fields_fuel h) h http_framing0 in
      if negb ok then bad_head r c d LK_HTTP_NOTE_FIELD_BAD ts
      else if fr_bad_cl fr then bad_head r c d LK_HTTP_NOTE_CL_BAD ts
      else if fr_te_present fr && fr_have_cl fr then bad_head r c d LK_HTTP_NOTE_CL_TE ts
      else if fr_te_present fr && negb (fr_te_chunked fr) then bad_head r c d LK_HTTP_NOTE_TE_BAD ts
      else
        let '(r, c) := note_lf r c d h ts in
        let rq := match http_method_id method with
                  | HTTP_M_HEAD => set_flag (fr_rq fr) HTTP_RQ_HEAD
                  | HTTP_M_CONNECT => set_flag (fr_rq fr) HTTP_RQ_CONNECT
                  | _ => fr_rq fr
                  end in
        let '(r, c) := emit r c d LK_HTTP_MSG_REQ (zlen head) head 0 (hd_head_ts (dir_of c d)) in
        let '(r, c) := pend_push r c rq ts in
        if fr_te_chunked fr then (r, enter_chunk c d)
        else if fr_have_cl fr && negb (fr_clen fr =? 0) then (r, enter_body c d (fr_clen fr))
        else body_end r c d ts
  end.

(** What follows a final response head. *)
Definition response_body r c d (rq code : Z) (fr : http_framing) (ts : Z) : reasm * conn :=
  if has_flag rq HTTP_RQ_CONNECT && (code <? 300) then
    let '(r, c) := body_end r c d ts in go_blind r c d LK_HTTP_NOTE_BLIND_CONNECT ts
  else if has_flag rq HTTP_RQ_HEAD || (code =? 204) || (code =? 304) then body_end r c d ts
  else if fr_te_chunked fr then (r, enter_chunk c d)
  else if fr_te_present fr then (r, set_st c d HTTP_FR_CLOSE)
  else if fr_have_cl fr then if negb (fr_clen fr =? 0) then (r, enter_body c d (fr_clen fr)) else body_end r c d ts
  else (r, set_st c d HTTP_FR_CLOSE).
Definition response_complete r c d (h : http_head) (line : http_span) (head : list Z) (ts : Z) : reasm * conn :=
  match http_parse_status_line (sp_b line) with
  | None => bad_head r c d LK_HTTP_NOTE_BAD_HEAD ts
  | Some (code, _) =>
      let '(ok, h, fr) := read_fields (fields_fuel h) h http_framing0 in
      if negb ok then bad_head r c d LK_HTTP_NOTE_FIELD_BAD ts
      else if fr_bad_cl fr then bad_head r c d LK_HTTP_NOTE_CL_BAD ts
      else if fr_te_present fr && fr_have_cl fr then bad_head r c d LK_HTTP_NOTE_CL_TE ts
      else
        let '(r, c) := note_lf r c d h ts in
        if code =? 101 then
          let c := upd_fr c (fun hf => (pend_pop hf).2) in
          let '(r, c) := emit r c d LK_HTTP_MSG_RESP (zlen head) head 0 (hd_head_ts (dir_of c d)) in
          let '(r, c) := body_end r c d ts in
          go_blind r c d LK_HTTP_NOTE_BLIND_UPGRADE ts
        else if code <? 200 then
          let '(r, c) := emit r c d LK_HTTP_MSG_INTER (zlen head) head 0 (hd_head_ts (dir_of c d)) in
          (r, upd_dir c d (fun x => x <| hd_atline := true |>))
        else
          let rq := (pend_pop (fr_of c)).1 in
          let c := upd_fr c (fun hf => (pend_pop hf).2) in
          let '(r, c) := emit r c d LK_HTTP_MSG_RESP (zlen head) head 0 (hd_head_ts (dir_of c d)) in
          let c := upd_dir c d (fun x => x <| hd_err_want := (400 <=? code) && err_body c |>) in
          response_body r c d rq code fr ts
  end.
Definition head_complete r c d (head : list Z) (ts : Z) : reasm * conn :=
  match http_head_line (http_head_init head) with
  | (None, _) => bad_head r c d LK_HTTP_NOTE_BAD_HEAD ts
  | (Some line, h) =>
      match d with
      | LK_DIR_RECV => request_complete r c d h line head ts
      | LK_DIR_SEND => response_complete r c d h line head ts
      end
  end.

Definition is_crlf_byte (b : Z) : bool := (b =? 13) || (b =? 10).
(** [lk_reasm_buf_put(f->buf); f->buf = NULL; f->buf_len = 0;] if there is one. *)
Definition buf_drop r c d : reasm * conn :=
  match f_buf (frame c d) with
  | Some b => (lk_reasm_buf_put r (Some b), upd_frame c d (fun f => f <| f_buf := None |>))
  | None => (r, c)
  end.
(** Past the leading empty lines: [p] is not empty if nothing was assembled yet. *)
Definition head_block r c d p (ts : Z) : reasm * conn * list Z :=
  let '(k, atline, ended) := scan_block p (hd_atline (dir_of c d)) in
  let c := upd_dir c d (fun x => x <| hd_atline := atline |>) in
  if LK_MSG_BODY_MAX <? buf_len (frame c d) + k then
    let '(r, c) := bad_head r c d LK_HTTP_NOTE_HEAD_TOO_BIG ts in (r, c, p)
  else if negb ended then
    let '(ok, r, c) :=
      match f_buf (frame c d) with
      | Some _ => (true, r, c)
      | None => let '(ok, r) := lk_reasm_buf_get r in (ok, r, if ok then upd_frame c d (fun f => f <| f_buf := Some [] |>) else c)
      end in
    if negb ok then let '(r, c) := bad_head r c d LK_HTTP_NOTE_NO_MEM ts in (r, c, p)
    else (r, buf_append c d (ztake k p), zdrop k p)
  else if buf_len (frame c d) =? 0 then
    let '(r, c) := head_complete r c d (ztake k p) ts in (r, c, zdrop k p)
  else
    let c := buf_append c d (ztake k p) in
    let '(r, c) := head_complete r c d (buf_bytes (frame c d)) ts in
    let '(r, c) := buf_drop r c d in
    (r, c, zdrop k p).
(** The bytes not consumed. *)
Definition head_feed r c d p (ts : Z) : reasm * conn * list Z :=
  if buf_len (frame c d) =? 0 then
    match (span is_crlf_byte p).2 with
    | [] => (r, c, [])
    | p => head_block r (upd_dir c d (fun x => x <| hd_head_ts := ts |> <| hd_atline := true |>)) d p ts
    end
  else head_block r c d p ts.

(** ** Chunked bodies *)
Definition chunk_size_done (x : http_dir) : http_dir :=
  let x := x <| hd_chunk_dig := 0 |> in
  let x := if hd_chunk_val x =? 0 then x <| hd_chunk_st := HTTP_CH_TRAILER |> <| hd_atline := true |>
           else x <| hd_chunk_left := hd_chunk_val x |> <| hd_chunk_st := HTTP_CH_DATA |> in
  x <| hd_chunk_val := 0 |>.
(** How a loop ends: its condition fails, a [return], or out of fuel. *)
Inductive loop_end := LoopDone | LoopReturn | LoopFuel.
(** One iteration; [None]: the byte is refused and the function returns. *)
Definition chunk_step r c d p (ts : Z) : option (reasm * conn * list Z) :=
  let x := dir_of c d in
  let b := znth p 0 in
  let set g := Some (r, upd_dir c d g, zdrop 1 p) in
  match hd_chunk_st x with
  | HTTP_CH_SIZE =>
      let v := http_hex_val b in
      if 0 <=? v then
        if 16 <=? hd_chunk_dig x then None
        else set (fun x => x <| hd_chunk_val ::= fun w => u64 (w * 16 + v) |> <| hd_chunk_dig ::= fun n => n + 1 |>)
      else if hd_chunk_dig x =? 0 then None
      else if b =? ch ";" then set (fun x => x <| hd_chunk_st := HTTP_CH_EXT |>)
      else if b =? 13 then set (fun x => x <| hd_chunk_st := HTTP_CH_SIZE_LF |>)
      else if b =? 10 then set chunk_size_done
      else None
  | HTTP_CH_EXT =>
      if b =? 13 then set (fun x => x <| hd_chunk_st := HTTP_CH_SIZE_LF |>)
      else if b =? 10 then set chunk_size_done
      else set (fun x => x)
  | HTTP_CH_SIZE_LF => if negb (b =? 10) then None else set chunk_size_done
  | HTTP_CH_DATA =>
      let take := if hd_chunk_left x <? zlen p then hd_chunk_left x else zlen p in
      let '(r, c) := body_add r c d (Some p) take ts in
      let c := upd_dir c d (fun x => x <| hd_chunk_left ::= fun n => n - take |>) in
      Some (r, if hd_chunk_left (dir_of c d) =? 0 then upd_dir c d (fun x => x <| hd_chunk_st := HTTP_CH_DATA_EOL |>) else c, zdrop take p)
  | HTTP_CH_DATA_EOL =>
      if b =? 13 then set (fun x => x)
      else if b =? 10 then set (fun x => x <| hd_chunk_st := HTTP_CH_SIZE |> <| hd_chunk_val := 0 |> <| hd_chunk_dig := 0 |>)
      else None
  | HTTP_CH_TRAILER =>
      let '(k, atline, ended) := scan_block p (hd_atline x) in
      let c := upd_dir c d (fun x => x <| hd_atline := atline |>) in
      let '(r, c) := if ended then body_end r c d ts else (r, c) in
      Some (r, c, zdrop k p)
  end.
Fixpoint chunk_feed (fuel : nat) r c d p (ts : Z) : reasm * conn * list Z * loop_end :=
  match p with
  | [] => (r, c, p, LoopDone)
  | _ =>
      if negb (bool_decide (hd_st (dir_of c d) = HTTP_FR_CHUNK)) then (r, c, p, LoopDone)
      else match fuel with
      | O => (r, c, p, LoopFuel)
      | Datatypes.S fuel =>
          match chunk_step r c d p ts with
          | None => let '(r, c) := bad_head r c d LK_HTTP_NOTE_CHUNK_BAD ts in (r, c, p, LoopReturn)
          | Some (r, c, p) => chunk_feed fuel r c d p ts
          end
      end
  end.
(** An iteration consumes a byte, or leaves a chunk's data. *)
Definition chunk_fuel p : nat := (2 * length p + 1)%nat.

(** ** Resync *)
Definition http_req_anchors : list (list Z) :=
  [lit "GET "; lit "HEAD "; lit "POST "; lit "PUT "; lit "DELETE "; lit "CONNECT "; lit "OPTIONS "; lit "TRACE "; lit "PATCH "].
Fixpoint resp_anchor (i : Z) (a : list Z) : bool :=
  match a with
  | [] => true
  | b :: a =>
      let ok := if i <? 7 then b =? znth (lit "HTTP/1.") i
                else if i =? 7 then (b =? ch "0") || (b =? ch "1")
                else if i =? 8 then b =? 32
                else if i =? 9 then (ch "1" <=? b) && (b <=? ch "5")
                else http_is_digit b in
      if negb ok then false else resp_anchor (i + 1) a
  end.
(** Can these bytes become an anchor, and are they one. *)
Definition anchor_ok d (a : list Z) : bool * bool :=
  if zlen a =? 0 then (true, false)
  else match d with
  | LK_DIR_RECV =>
      (existsb (fun l => (zlen a <=? zlen l) && same a (ztake (zlen a) l)) http_req_anchors, existsb (same a) http_req_anchors)
  | LK_DIR_SEND => if resp_anchor 0 a then (true, zlen a =? LK_HTTP_ANCHOR_MAX) else (false, false)
  end.
(** Drop bytes at the front until they can. *)
Fixpoint anchor_slide d (a : list Z) : list Z * bool :=
  match a with
  | [] => ([], false)
  | _ :: t => let '(ok, full) := anchor_ok d a in if ok then (a, full) else anchor_slide d t
  end.
Fixpoint scan_feed r c d p (ts : Z) : reasm * conn * list Z :=
  match p with
  | [] => (r, c, [])
  | b :: q =>
      let '(a, full) := anchor_slide d (hd_anchor (dir_of c d) ++ [b]) in
      if full then
        let c := upd_dir c d (fun x => x <| hd_anchor := [] |> <| hd_st := HTTP_FR_HEAD |>) in
        let '(r, c) := lk_reasm_resync r c d in
        let '(r, c, _) := head_feed r c d a ts in
        (r, c, q)
      else scan_feed r (upd_dir c d (fun x => x <| hd_anchor := if LK_HTTP_ANCHOR_MAX <=? zlen a then [] else a |>)) d q ts
  end.

(** ** The two hooks *)
Definition http_no_state r c d (ts : Z) : reasm * conn := go_blind r c d LK_HTTP_NOTE_NO_MEM ts.
Definition tls_record_head d (x : http_dir) p : bool :=
  if negb (hd_events x =? 1) || negb (bool_decide (hd_st x = HTTP_FR_HEAD)) || (zlen p <? 3) then false
  else if negb (znth p 0 =? 0x16) || negb (znth p 1 =? 0x03) || (0x04 <? znth p 2) then false
  else if (6 <=? zlen p) && negb (znth p 5 =? match d with LK_DIR_RECV => 0x01 | LK_DIR_SEND => 0x02 end) then false
  else true.
(** A status line where a body was promised. *)
Definition body_unseen d (x : http_dir) p : bool :=
  match d with
  | LK_DIR_SEND =>
      bool_decide (hd_st x = HTTP_FR_BODY) && (hd_body_seen x =? 0) && (9 <=? zlen p) && same (ztake 7 p) (lit "HTTP/1.") &&
      ((znth p 7 =? ch "0") || (znth p 7 =? ch "1")) && (znth p 8 =? 32)
  | LK_DIR_RECV => false
  end.
(** One iteration of the loop: what is left of the chunk. *)
Definition http_step r c d p (ts : Z) : reasm * conn * list Z :=
  let x := dir_of c d in
  match hd_st x with
  | HTTP_FR_HEAD => head_feed r c d p ts
  | HTTP_FR_BODY =>
      let take := if hd_body_left x <? zlen p then hd_body_left x else zlen p in
      let '(r, c) := body_add r c d (Some p) take ts in
      let c := upd_dir c d (fun x => x <| hd_body_left ::= fun n => n - take |>) in
      let '(r, c) := if hd_body_left (dir_of c d) =? 0 then body_end r c d ts else (r, c) in
      (r, c, zdrop take p)
  | HTTP_FR_CHUNK => (chunk_feed (chunk_fuel p) r c d p ts).1
  | HTTP_FR_CLOSE => let '(r, c) := body_add r c d (Some p) (zlen p) ts in (r, c, [])
  | HTTP_FR_SCAN => scan_feed r c d p ts
  end.
Fixpoint http_loop (fuel : nat) r c d p (ts : Z) : reasm * conn * loop_end :=
  match p with
  | [] => (r, c, LoopDone)
  | _ =>
      match fuel with
      | O => (r, c, LoopFuel)
      | Datatypes.S fuel =>
          let st0 := hd_st (dir_of c d) in
          let '(r, c, p') := http_step r c d p ts in
          if has_flag (c_flags c) LK_CONN_IGNORE then (r, c, LoopReturn)
          else if (zlen p' =? zlen p) && bool_decide (hd_st (dir_of c d) = st0) then (r, c, LoopReturn)
          else http_loop fuel r c d p' ts
      end
  end.
(** At most one iteration that consumes nothing before each that does, and a spare. *)
Definition http_fuel p : nat := (2 * length p + 2)%nat.

Definition http_stream_bytes r c d p (ts : Z) : reasm * conn :=
  let '(ok, r, c) := http_frame_get r c in
  if negb ok then http_no_state r c d ts
  else
    let c := upd_dir c d (fun x => x <| hd_events ::= inc64 |> <| hd_off ::= fun o => u64 (o + zlen p) |> <| hd_last_ts := ts |>) in
    if tls_record_head d (dir_of c d) p then
      let '(r, c) := note r c d LK_HTTP_NOTE_TLS ts in (r, c <| c_flags ::= fun w => set_flag w LK_CONN_TLS |>)
    else
      let '(r, c) := match f_st (frame c d) with
                     | LK_FR_DIRTY => if bool_decide (hd_st (dir_of c d) = HTTP_FR_SCAN) then (r, c) else go_scan r c d
                     | _ => (r, c)
                     end in
      let '(r, c) := if body_unseen d (dir_of c d) p then let '(r, c) := note r c d LK_HTTP_NOTE_BODY_UNSEEN ts in body_end r c d ts else (r, c) in
      (http_loop (http_fuel p) r c d p ts).1.

(** A hole in a direction whose framing holds, or is being scanned for. *)
Definition hole_synced r c d (n ts : Z) : reasm * conn :=
  match hd_st (dir_of c d) with
  | HTTP_FR_HEAD =>
      let f := frame c d in
      let '(r, c) := if buf_len f =? 0 then (r, c)
                     else emit r c d (match d with LK_DIR_RECV => LK_HTTP_MSG_REQ | LK_DIR_SEND => LK_HTTP_MSG_RESP end)
                            (buf_len f) (buf_bytes f) LK_MSG_BODY_TRUNC (hd_head_ts (dir_of c d)) in
      let '(r, c) := note r c d LK_HTTP_NOTE_HEAD_HOLE ts in go_scan r c d
  | HTTP_FR_BODY =>
      let left := hd_body_left (dir_of c d) in
      let take := if left <? n then left else n in
      let '(r, c) := body_add r c d None take ts in
      let c := upd_dir c d (fun x => x <| hd_body_left ::= fun l => l - take |>) in
      let '(r, c) := if hd_body_left (dir_of c d) =? 0 then body_end r c d ts else (r, c) in
      if n - take =? 0 then (r, c) else let '(r, c) := note r c d LK_HTTP_NOTE_HEAD_HOLE ts in go_scan r c d
  | HTTP_FR_CHUNK => let '(r, c) := note r c d LK_HTTP_NOTE_CHUNK_HOLE ts in go_scan r c d
  | HTTP_FR_CLOSE => body_add r c d None n ts
  | HTTP_FR_SCAN => (r, upd_dir c d (fun x => x <| hd_anchor := [] |>))
  end.
Definition http_stream_hole r c d (n : Z) : reasm * conn :=
  let '(ok, r, c) := http_frame_get r c in
  if negb ok then http_no_state r c d 0
  else if n =? 0 then (r, c)
  else
    let c := upd_dir c d (fun x => x <| hd_holes ::= inc64 |> <| hd_off ::= fun o => u64 (o + n) |>) in
    match f_st (frame c d), bool_decide (hd_st (dir_of c d) = HTTP_FR_SCAN) with
    | LK_FR_DIRTY, false => go_scan r c d
    | _, _ => hole_synced r c d n (hd_last_ts (dir_of c d))
    end.

(** The vtable: the message-framing hooks are NULL. *)
Definition lk_proto_http_ops : lk_proto_ops S P http_frame :=
  ProtoOps LK_PROTO_F_STREAM (fun _ _ => 0) (fun c _ => (false, c)) (fun c _ m => (c, m)) None None
    (fun c _ _ => (0, false, c)) (fun _ _ _ _ => false) http_stream_bytes http_stream_hole.
End Frame.

(** ** Masking the shown head *)
Definition header_is_secret (name : list Z) : bool :=
  http_span_eq_ci name (lit "authorization") || http_span_eq_ci name (lit "cookie") ||
  http_span_eq_ci name (lit "set-cookie") || http_span_eq_ci name (lit "proxy-authorization").
(** Overwrite the bytes of the copy at the span. *)
Definition splice (p : list Z) (at_ : Z) (s : list Z) : list Z := ztake at_ p ++ s ++ zdrop (at_ + zlen s) p.
Definition http_blank (p : list Z) (s : http_span) : list Z := splice p (sp_at s) (map (fun _ => ch "*") (sp_b s)).
Definition blank_query (p : list Z) (s : http_span) : list Z := splice p (sp_at s) (lk_url_redact_inplace (sp_b s)).
Fixpoint mask_fields (fuel : nat) (h : http_head) (p : list Z) : list Z :=
  match fuel with
  | O => p
  | S fuel =>
      match http_head_field h with
      | (Some (name, val), h) => mask_fields fuel h (if header_is_secret name then http_blank p val else p)
      | (None, _) => p
      end
  end.
(** The copy [p] of the message's body as it is shown. *)
Definition http_mask_body (type : Z) (p : list Z) : list Z :=
  match p with
  | [] => p
  | _ =>
      if type =? LK_HTTP_MSG_ERRB then map (fun _ => ch "*") p
      else if negb (type =? LK_HTTP_MSG_REQ) && negb (type =? LK_HTTP_MSG_RESP) && negb (type =? LK_HTTP_MSG_INTER) then p
      else match http_head_line (http_head_init p) with
      | (None, _) => p
      | (Some line, h) =>
          let p := if type =? LK_HTTP_MSG_REQ then
                     match http_parse_req_line line with
                     | Some (_, target, _) => if negb (zlen (sp_b target) =? 0) then blank_query p target else p
                     | None => p
                     end
                   else p in
          mask_fields (fields_fuel h) h p
      end
  end.
