(* ===== verification/HttpSafe.v ===== *)
(** The HTTP framer on arbitrary input: malformed heads, chunk sizes and lengths, holes
    anywhere, allocation failures, both directions interleaved. *)
From Stdlib Require Import Ascii String.
From stdpp Require Import base list option.
From S2P Require Import Prelude Conn Proto Reassembly StreamSafe NormRoute HttpWire HttpFrame.
#[local] Open Scope Z_scope.

(** ** Numbers read off the wire *)
Lemma hex_val_range b : -1 <= http_hex_val b < 16.
Proof.
  unfold http_hex_val, http_is_digit. change (ch "0") with 48. change (ch "9") with 57. change (ch "a") with 97. change (ch "f") with 102. change (ch "A") with 65. change (ch "F") with 70.
  destruct (Z.leb_spec 48 b), (Z.leb_spec b 57), (Z.leb_spec 97 b), (Z.leb_spec b 102), (Z.leb_spec 65 b), (Z.leb_spec b 70); cbn; lia.
Qed.
Lemma parse_u64_range p : forall v n, 0 <= v < 2 ^ 63 -> parse_u64_from v p = Some n -> 0 <= n < 2 ^ 63.
Proof.
  induction p as [|c p IH]; intros v n Hv; cbn [parse_u64_from]; [by intros [= <-]|]. unfold http_is_digit. change (ch "0") with 48. change (ch "9") with 57.
  destruct (Z.leb_spec 48 c), (Z.leb_spec c 57); cbn [andb negb]; try done. destruct (Z.ltb_spec (2 ^ 62 / 10) v); [done|]. apply IH. change (2 ^ 62 / 10) with 461168601842738790 in *. lia.
Qed.
Lemma content_length_range fuel : forall v val n, (forall x, val = Some x -> 0 <= x < 2 ^ 63) -> content_length_from fuel v val = Some n -> 0 <= n < 2 ^ 63.
Proof.
  induction fuel as [|fuel IH]; intros v val n Hv; cbn [content_length_from]; [by destruct v; apply Hv|]. destruct v as [|b v]; [apply Hv|]. destruct (list_member (b :: v)) as [m r].
  destruct (zlen m =? 0); [by apply IH|]. unfold http_parse_u64. destruct (zlen (trim m) =? 0); [done|]. destruct (parse_u64_from 0 (trim m)) as [cur|] eqn:E; [|done]. cbn [mbind option_bind].
  pose proof (parse_u64_range _ 0 _ ltac:(lia) E). destruct val as [x|]; [destruct (cur =? x); [by apply IH|done]|]. apply IH. by intros ? [= <-].
Qed.
Lemma read_field_range fr name v : 0 <= fr_clen fr < 2 ^ 63 -> 0 <= fr_clen (read_field fr name v) < 2 ^ 63.
Proof.
  intros H. unfold read_field. destruct (http_span_eq_ci name (lit "content-length")); [|by repeat case_match].
  destruct (http_parse_content_length v) as [n|] eqn:E; [|done]. pose proof (content_length_range (length v) v None n ltac:(done) E). by destruct (_ && _).
Qed.
Lemma read_fields_range fuel : forall h fr, 0 <= fr_clen fr < 2 ^ 63 -> 0 <= fr_clen (read_fields fuel h fr).2 < 2 ^ 63.
Proof.
  induction fuel as [|fuel IH]; intros h fr H; cbn [read_fields]; [done|]. destruct (http_head_field h) as [[[name val]|] h']; [|done]. by apply IH, read_field_range.
Qed.

(** ** The bounds *)
(** The slab is within its size and never held empty; the anchor, the chunk size's digits
    and the FIFO fit their arrays; no length wraps. *)
Record base (f : lk_frame) (x : http_dir) : Prop := Base {
  ba_buf : buf_len f <= LK_MSG_BODY_MAX;
  ba_held : f_buf f <> Some [];
  ba_anchor : zlen (hd_anchor x) < LK_HTTP_ANCHOR_MAX;
  ba_dig : 0 <= hd_chunk_dig x <= 16;
  ba_val : 0 <= hd_chunk_val x < 16 ^ hd_chunk_dig x;
  ba_chunk : 0 <= hd_chunk_left x < 2 ^ 64;
  ba_open : hd_chunk_st x = HTTP_CH_DATA -> 1 <= hd_chunk_left x;
  ba_body : 0 <= hd_body_left x < 2 ^ 63 }.
(** A counted body owes bytes; with [B], no slab is held. *)
Definition hstate (B : Prop) f x : Prop := base f x /\ (hd_st x = HTTP_FR_BODY -> 1 <= hd_body_left x) /\ (B -> f_buf f = None).
(** Between hooks: the slab is held only while a head is assembled. *)
Definition hinv f x : Prop := hstate (hd_st x <> HTTP_FR_HEAD) f x.
Record pinv (hf : http_frame) : Prop := PInv {
  pi_len : zlen (hf_pend hf) = LK_HTTP_MAX_INFLIGHT;
  pi_head : 0 <= hf_pend_head hf < LK_HTTP_MAX_INFLIGHT;
  pi_n : 0 <= hf_pend_n hf <= LK_HTTP_MAX_INFLIGHT;
  pi_skew : hf_pend_skew hf = true -> 1 <= hf_pend_n hf }.

Lemma pend_pop_pinv hf : pinv hf -> pinv (pend_pop hf).2.
Proof.
  intros []. unfold pend_pop. destruct (Z.eqb_spec (hf_pend_n hf) 0); cbn [negb]; [done|]. cbv zeta. cbn [hf_pend_n upd].
  assert (0 <= (hf_pend_head hf + 1) mod LK_HTTP_MAX_INFLIGHT < LK_HTTP_MAX_INFLIGHT) as Hm by by apply Z.mod_pos_bound.
  assert (u8 ((hf_pend_head hf + 1) mod LK_HTTP_MAX_INFLIGHT) = (hf_pend_head hf + 1) mod LK_HTTP_MAX_INFLIGHT) as Eu by (unfold u8; rewrite Z.mod_small; unfold LK_HTTP_MAX_INFLIGHT in *; lia).
  destruct (Z.eqb_spec (hf_pend_n hf - 1) 0); cbn [snd]; split; cbn; rewrite ?Eu; try done; try lia. 
Qed.
Lemma hf_d_upd d g hf : hf_d (hf_upd d g hf) d = g (hf_d hf d) /\ hf_d (hf_upd d g hf) (other d) = hf_d hf (other d).
Proof. by destruct d. Qed.

Section Safe.
Context {S P : Type} (k : lk_msg_sink S P http_frame) {SS : StreamSink k} (d : lk_dir).
Abbreviation reasm := (lk_reasm S P http_frame).
Abbreviation conn := (lk_conn P http_frame).
Abbreviation okr := (okr k).
Implicit Types (r : reasm) (c : conn) (f : lk_frame) (x : http_dir) (p q : list Z) (ts : Z) (J : lk_frame -> http_dir -> Prop).
Context (f0 : lk_frame) (x0 : http_dir).  (* the other direction *)

(** [J] of this direction, the FIFO in bounds, the other direction untouched. *)
Definition okc J r c : Prop :=
  okr r /\ exists hf, c_frame_state c = Some hf /\ pinv hf /\ J (frame c d) (hf_d hf d) /\ frame c (other d) = f0 /\ hf_d hf (other d) = x0.
Definition okp J (res : reasm * conn) : Prop := okc J res.1 res.2.
Lemma hokc_weaken J J' r c : (forall f x, J f x -> J' f x) -> okc J r c -> okc J' r c.
Proof. intros H (? & hf & ? & ? & ? & ?). split; [done|]. exists hf. split; [done|]. split; [done|]. split; [by apply H|done]. Qed.
Lemma hokc_r J r r' c : okr r' -> okc J r c -> okc J r' c.
Proof. by intros H [_ ?]. Qed.
Lemma hokc_at J r c : okc J r c -> J (frame c d) (dir_of c d).
Proof. intros (_ & hf & E & _ & H & _). unfold dir_of, fr_of. by rewrite E. Qed.
Lemma hokc_and J (Q : lk_frame -> http_dir -> Prop) r c : okc J r c -> Q (frame c d) (dir_of c d) -> okc (fun f x => J f x /\ Q f x) r c.
Proof. intros (? & hf & E & ? & ? & ?). unfold dir_of, fr_of. rewrite E. cbn. intros ?. split; [done|]. by exists hf. Qed.
Lemma hokc_fr J r c g : (forall hf, pinv hf -> pinv (g hf)) -> (forall hf d', hf_d (g hf) d' = hf_d hf d') -> okc J r c -> okc J r (upd_fr c g).
Proof.
  intros Hg Hd (H1 & hf & E & H2 & H3 & H4 & H5). split; [done|]. exists (g hf). unfold upd_fr. cbn [c_frame_state upd]. rewrite E, !Hd. split; [done|]. split; [by apply Hg|]. done.
Qed.
Lemma hokc_dir J g r c : okc (fun f x => J f (g x)) r c -> okc J r (upd_dir c d g).
Proof.
  intros (H1 & hf & E & [] & H3 & H4 & H5). split; [done|]. exists (hf_upd d g hf). unfold upd_dir, upd_fr. cbn [c_frame_state upd]. rewrite E. destruct (hf_d_upd d g hf) as [E1 E2]. rewrite E1, E2.
  split; [done|]. split; [by destruct d|]. done.
Qed.
Lemma hokc_frame J g r c : okc (fun f x => J (g f) x) r c -> okc J r (upd_frame c d g).
Proof. intros (H1 & hf & E & H2 & H3 & H4 & H5). split; [done|]. exists hf. by destruct d. Qed.
Lemma hokc_flags J r c fl : okc J r c -> okc J r (c <| c_flags := fl |>).
Proof. by destruct d. Qed.
Lemma hseq_ok J J' (op : reasm * conn) (g : reasm -> conn -> reasm * conn) : okp J op -> (forall r c, okc J r c -> okp J' (g r c)) -> okp J' (let '(r, c) := op in g r c).
Proof. intros H Hg. destruct op as [r1 c1]. exact (Hg r1 c1 H). Qed.

(** ** Emitting *)
(** What a message and the accounting of a body may change. *)
Definition quiet J : Prop := forall f x (b e : bool) (s : Z), J f x -> J (f <| f_after_resync := b |>) (x <| hd_err_want := e |> <| hd_body_seen := s |>).
Lemma quiet_calm J f x b : quiet J -> J f x -> J (f <| f_after_resync := b |>) x.
Proof. intros Hq H. specialize (Hq f x b (hd_err_want x) (hd_body_seen x) H). by destruct x. Qed.
Lemma quiet_dir J f x e s : quiet J -> J f x -> J f (x <| hd_err_want := e |> <| hd_body_seen := s |>).
Proof. intros Hq H. specialize (Hq f x (f_after_resync f) e s H). by destruct f. Qed.
Lemma base_quiet : quiet base.
Proof. by intros f x b e s []. Qed.
Lemma hstate_quiet (B : Prop) : quiet (hstate B).
Proof. intros f x b e s (H & ? & ?). split; [by apply base_quiet|done]. Qed.
Lemma hinv_quiet : quiet hinv.
Proof. intros f x b e s H. by apply hstate_quiet. Qed.
Lemma and_quiet J (Q : http_fr_st -> Prop) : quiet J -> quiet (fun f x => J f x /\ Q (hd_st x)).
Proof. intros Hq f x b e s [? ?]. split; [by apply Hq|done]. Qed.

Lemma emit_ok J r c type len body flags ts : quiet J -> okc J r c -> okp J (emit r c d type len body flags ts).
Proof.
  intros HJ (H1 & hf & E & H2 & H3 & H4 & H5). unfold emit. match goal with |- context [lk_reasm_emit r c d ?m] => destruct (emit_frames k d r c m H1) as (r' & c' & b & -> & Hr & E1 & E2 & E3) end.
  split; [done|]. exists hf. cbn [snd]. rewrite E1, E2, E3. split; [done|]. split; [done|]. split; [by apply quiet_calm|done].
Qed.
Lemma note_ok J r c n ts : quiet J -> okc J r c -> okp J (note r c d n ts).
Proof. apply emit_ok. Qed.
Lemma go_blind_ok J r c n ts : quiet J -> okc J r c -> okp J (go_blind r c d n ts).
Proof. intros HJ H. apply hseq_ok with (J := J); [by apply note_ok|]. intros. by apply hokc_flags. Qed.
Ltac bounds := split; cbn in *; try done; try lia.
Lemma hgo_scan_ok r c : okc base r c -> okp (fun f x => hinv f x /\ hd_st x = HTTP_FR_SCAN) (go_scan r c d).
Proof.
  intros H. unfold go_scan, lk_reasm_buf_put. apply hokc_dir, hokc_frame, (hokc_r _ r); [apply (okr_put k), H|]. eapply hokc_weaken, H. intros f x [].
  split; [|done]. split; [bounds|by split].
Qed.
Lemma bad_head_ok r c n ts : okc base r c -> okp (fun f x => hinv f x /\ hd_st x = HTTP_FR_SCAN) (bad_head r c d n ts).
Proof. intros H. apply hseq_ok with (J := base); [by apply note_ok; [apply base_quiet|]|apply hgo_scan_ok]. Qed.
Lemma body_add_ok J r c src n ts : quiet J -> okc J r c -> okp J (body_add r c d src n ts).
Proof.
  intros HJ H. unfold body_add. destruct (n =? 0); [done|]. set (c1 := if hd_err_want _ then _ else c).
  assert (okc J r c1) as H1. { subst c1. destruct (hd_err_want _); [|done]. apply hokc_dir. eapply hokc_weaken, H. intros f x Hx. by apply (quiet_dir J f x false (hd_body_seen x) HJ). }
  clearbody c1. apply hseq_ok with (J := J).
  - destruct (hd_err_want _); [|done]. destruct src; [by apply emit_ok|done].
  - intros r2 c2 H2. apply emit_ok; [done|]. apply hokc_dir. eapply hokc_weaken, H2. intros f x Hx. pose proof (quiet_dir J f x (hd_err_want x) (u64 (hd_body_seen x + n)) HJ Hx). by destruct x.
Qed.
Lemma body_end_ok (B : Prop) r c ts : okc (fun f x => base f x /\ (B -> f_buf f = None)) r c -> okp (fun f x => hstate B f x /\ hd_st x = HTTP_FR_HEAD) (body_end r c d ts).
Proof.
  intros H. unfold body_end. apply hseq_ok with (J := fun f x => base f x /\ (B -> f_buf f = None)).
  - apply emit_ok; [|done]. intros f x b e s [? ?]. split; [by apply base_quiet|done].
  - intros r1 c1 H1. apply hokc_dir. eapply hokc_weaken, H1. intros f x [[] ?]. split; [|done]. split; [bounds|by split].
Qed.

(** ** Heads *)
Section Held.
Context (B : Prop).
Definition lax f x : Prop := base f x /\ (B -> f_buf f = None).
Lemma lax_quiet : quiet lax.
Proof. intros f x b e s [? ?]. split; [by apply base_quiet|done]. Qed.
Lemma lax_body r c ts : okc lax r c -> okp (hstate B) (body_end r c d ts).
Proof. intros H. eapply hokc_weaken, body_end_ok, H. by intros f x [? _]. Qed.
Lemma lax_bad r c n ts : okc lax r c -> okp (hstate B) (bad_head r c d n ts).
Proof.
  intros H. eapply hokc_weaken, bad_head_ok; [|eapply hokc_weaken, H; by intros f x [? _]]. intros f x [(? & ? & Hb) Hs]. split; [done|]. split; [done|]. intros _. apply Hb. by rewrite Hs.
Qed.
Lemma lax_blind r c n ts : okc (hstate B) r c -> okp (hstate B) (go_blind r c d n ts).
Proof. apply go_blind_ok, hstate_quiet. Qed.
Lemma note_lf_ok J r c h ts : quiet J -> okc J r c -> okp J (note_lf r c d h ts).
Proof. intros HJ H. unfold note_lf. destruct (_ && _); [|done]. apply note_ok; [done|]. apply hokc_fr; [by intros hf []|by intros hf []|done]. Qed.
Lemma pend_push_ok J r c rq ts : quiet J -> d = LK_DIR_RECV -> okc J r c -> okp J (pend_push r c rq ts).
Proof.
  intros HJ Ed H. unfold pend_push. destruct (Z.leb_spec LK_HTTP_MAX_INFLIGHT (hf_pend_n (fr_of c))) as [Hl|Hl].
  - rewrite <- Ed. apply note_ok; [done|]. destruct H as (H1 & hf & E & H2 & H3). split; [done|]. exists (hf <| hf_pend_skew := true |>). unfold upd_fr, fr_of in *. cbn [c_frame_state upd]. rewrite E in *. cbn in Hl |- *.
    split; [done|]. split; [|by destruct d]. destruct H2. split; cbn; try done. unfold LK_HTTP_MAX_INFLIGHT in *. lia.
  - destruct H as (H1 & hf & E & [] & H3). split; [done|]. unfold upd_fr, fr_of in *. cbn [fst snd c_frame_state upd]. rewrite E in *. cbn [fmap option_fmap option_map]. eexists. split; [done|]. split; [|by destruct d].
    split; cbn in *; try done; try lia. unfold zlen in *. by rewrite length_insert.
Qed.
Lemma lax_chunk r c : okc lax r c -> okc (hstate B) r (enter_chunk c d).
Proof. intros H. apply hokc_dir. eapply hokc_weaken, H. intros f x [[] ?]. split; [bounds|by split]. Qed.
Lemma lax_counted r c n : 0 <= n < 2 ^ 63 -> n <> 0 -> okc lax r c -> okc (hstate B) r (enter_body c d n).
Proof. intros Hn Hz H. apply hokc_dir. eapply hokc_weaken, H. intros f x [[] ?]. split; [by split|]. split; [cbn; lia|done]. Qed.
Lemma lax_close r c : okc lax r c -> okc (hstate B) r (set_st c d HTTP_FR_CLOSE).
Proof. intros H. apply hokc_dir. eapply hokc_weaken, H. intros f x [[] ?]. split; [by split|]. by split. Qed.
Lemma request_ok r c h line head ts : d = LK_DIR_RECV -> okc (hstate B) r c -> okp (hstate B) (request_complete r c d h line head ts).
Proof.
  intros Ed H. assert (okc lax r c) as Hl by (eapply hokc_weaken, H; intros f x (? & _ & ?); by split). unfold request_complete. destruct (_ && _); [by apply lax_blind|].
  destruct (http_parse_req_line line) as [[[m t] v]|]; [|by apply lax_bad]. pose proof (read_fields_range (fields_fuel h) h http_framing0 ltac:(by cbn)) as Hr.
  destruct (read_fields _ h _) as [[ok h'] fr]. cbn [snd] in Hr. destruct (negb ok); [by apply lax_bad|]. destruct (fr_bad_cl fr); [by apply lax_bad|]. destruct (_ && _); [by apply lax_bad|]. destruct (_ && _); [by apply lax_bad|].
  apply hseq_ok with (J := lax); [by apply note_lf_ok; [apply lax_quiet|]|]. clear r c H Hl. intros r c H. cbv zeta.
  apply hseq_ok with (J := lax); [by apply emit_ok; [apply lax_quiet|]|]. clear r c H. intros r c H.
  apply hseq_ok with (J := lax); [by apply pend_push_ok; [apply lax_quiet| |]|]. clear r c H. intros r c H.
  destruct (fr_te_chunked fr); [by apply lax_chunk|]. destruct (fr_have_cl fr); [|by apply lax_body]. destruct (Z.eqb_spec (fr_clen fr) 0); [by apply lax_body|by apply lax_counted].
Qed.
Lemma response_body_ok r c rq code fr ts : 0 <= fr_clen fr < 2 ^ 63 -> okc lax r c -> okp (hstate B) (response_body r c d rq code fr ts).
Proof.
  intros Hr H. unfold response_body. destruct (_ && _); [apply hseq_ok with (J := hstate B); [by apply lax_body|intros; by apply lax_blind]|]. destruct (_ || _); [by apply lax_body|].
  destruct (fr_te_chunked fr); [by apply lax_chunk|]. destruct (fr_te_present fr); [by apply lax_close|]. destruct (fr_have_cl fr); [|by apply lax_close]. destruct (Z.eqb_spec (fr_clen fr) 0); [by apply lax_body|by apply lax_counted].
Qed.
Lemma popped_ok J r c : okc J r c -> okc J r (upd_fr c (fun hf => (pend_pop hf).2)).
Proof.
  apply hokc_fr; [apply pend_pop_pinv|]. intros hf d'. unfold pend_pop. destruct (negb _); [|done]. cbv zeta. destruct (hf_pend_n _ =? 0); by destruct d'.
Qed.
Lemma response_ok r c h line head ts : okc (hstate B) r c -> okp (hstate B) (response_complete r c d h line head ts).
Proof.
  intros H. assert (okc lax r c) as Hl by (eapply hokc_weaken, H; intros f x (? & _ & ?); by split). unfold response_complete.
  destruct (http_parse_status_line _) as [[code v]|]; [|by apply lax_bad]. pose proof (read_fields_range (fields_fuel h) h http_framing0 ltac:(by cbn)) as Hr.
  destruct (read_fields _ h _) as [[ok h'] fr]. cbn [snd] in Hr. destruct (negb ok); [by apply lax_bad|]. destruct (fr_bad_cl fr); [by apply lax_bad|]. destruct (_ && _); [by apply lax_bad|].
  apply hseq_ok with (J := hstate B); [by apply note_lf_ok; [apply hstate_quiet|]|]. clear r c H Hl. intros r c H. cbv zeta.
  assert (okc lax r c) as Hl by (eapply hokc_weaken, H; intros f x (? & _ & ?); by split). destruct (code =? 101).
  { apply hseq_ok with (J := lax); [by apply emit_ok; [apply lax_quiet|apply popped_ok]|]. intros. apply hseq_ok with (J := hstate B); [by apply lax_body|]. intros. by apply lax_blind. }
  destruct (code <? 200).
  { apply hseq_ok with (J := hstate B); [by apply emit_ok; [apply hstate_quiet|]|]. intros. apply hokc_dir. eapply hokc_weaken; [|done]. intros f x ([] & ? & ?). by split. }
  apply hseq_ok with (J := lax); [by apply emit_ok; [apply lax_quiet|apply popped_ok]|]. intros r1 c1 H1. apply response_body_ok; [done|]. apply hokc_dir. eapply hokc_weaken, H1. intros f x [[] ?]. by split.
Qed.
Lemma head_complete_ok r c head ts : okc (hstate B) r c -> okp (hstate B) (head_complete r c d head ts).
Proof.
  intros H. unfold head_complete. destruct (http_head_line _) as [[line|] h]; [destruct d eqn:Ed; rewrite <- Ed in *; [by apply response_ok|by apply request_ok]|].
  apply lax_bad. eapply hokc_weaken, H. intros f x (? & _ & ?). by split.
Qed.
End Held.

(** ** Progress: bytes are consumed, or framing is lost *)
Definition fed p (st : http_fr_st) (res : reasm * conn * list Z) : Prop :=
  okc hinv res.1.1 res.1.2 /\ (zlen res.2 < zlen p \/ zlen res.2 = zlen p /\ hd_st (dir_of res.1.2 d) = HTTP_FR_SCAN /\ st <> HTTP_FR_SCAN).
Lemma lost_fed p st (op : reasm * conn) : st <> HTTP_FR_SCAN -> okp (fun f x => hinv f x /\ hd_st x = HTTP_FR_SCAN) op -> fed p st (let '(r, c) := op in (r, c, p)).
Proof. intros Hst H. destruct op as [r c]. split; [eapply hokc_weaken, H; by intros f x [? _]|]. right. split; [done|]. split; [apply (hokc_at _ _ _ H)|done]. Qed.
Lemma took_fed p st r c j : 1 <= j <= zlen p -> okc hinv r c -> fed p st (r, c, zdrop j p).
Proof. intros Hj H. split; [done|]. left. cbn. rewrite zlen_zdrop by lia. lia. Qed.
Lemma scan_block_len p : forall a, 0 <= (scan_block p a).1.1 <= zlen p /\ (p <> [] -> 1 <= (scan_block p a).1.1).
Proof.
  induction p as [|b p IH]; intros a; cbn [scan_block]; [done|]. rewrite zlen_cons. destruct (_ && _); [pose proof (zlen_nonneg p); cbn; lia|].
  match goal with |- context [scan_block p ?a'] => specialize (IH a'); destruct (scan_block p a') as [[j a2] e] end. cbn in *. lia.
Qed.
Lemma buf_drop_ok r c : okc (hstate False) r c -> okp hinv (buf_drop r c d).
Proof.
  intros H. unfold buf_drop. destruct (f_buf (frame c d)) as [b|] eqn:Eb.
  - apply hokc_frame, (hokc_r _ r); [apply (okr_put k), H|]. eapply hokc_weaken, H. intros f x ([] & ? & _). split; [by split|]. by split.
  - eapply hokc_weaken; [|exact (hokc_and _ (fun f _ => f_buf f = None) _ _ H Eb)]. intros f x [(? & ? & _) E]. by split.
Qed.
Lemma append_base f x b q : base f x -> buf_bytes f = b -> q <> [] -> zlen b + zlen q <= LK_MSG_BODY_MAX -> base (f <| f_buf := Some (b ++ q) |>) x.
Proof.
  intros [] Eb Hq Hl. split; try done.
  - unfold buf_len, buf_bytes. cbn. by rewrite zlen_app.
  - cbn. intros [= E]. by apply app_nil in E as [_ ?].
Qed.
Lemma happend_ok B r c q : q <> [] -> zlen (buf_bytes (frame c d)) + zlen q <= LK_MSG_BODY_MAX -> is_Some (f_buf (frame c d)) ->
  okc (fun f x => base (f <| f_buf := None |>) x /\ hd_st x = HTTP_FR_HEAD) r c -> (B -> False) -> okc (fun f x => hstate B f x /\ hd_st x = HTTP_FR_HEAD) r (buf_append c d q).
Proof.
  intros Hq Hl [b Eb] H HB. unfold buf_bytes in Hl. rewrite Eb in Hl. apply hokc_frame. eapply hokc_weaken; [|exact (hokc_and _ (fun f _ => f_buf f = Some b) _ _ H Eb)].
  intros f x [[D Hs] E]. split; [|done]. split; [|split; [by rewrite Hs|done]]. pose proof (append_base _ x [] (b ++ q) D eq_refl) as Ha. cbn in Ha. cbn. rewrite E. cbn. destruct f. apply Ha; [by destruct b, q|]. rewrite zlen_app. cbn in *. change (zlen (A:=Z) []) with 0. lia.
Qed.
Lemma nobuf_base f x : base f x -> base (f <| f_buf := None |>) x.
Proof. intros []. by split. Qed.
Lemma head_st_hinv f x : hstate False f x /\ hd_st x = HTTP_FR_HEAD -> hinv f x.
Proof. intros [(? & ? & _) E]. split; [done|]. split; [done|]. by rewrite E. Qed.
Lemma head_block_ok r c p ts : p <> [] -> okc (fun f x => hinv f x /\ hd_st x = HTTP_FR_HEAD) r c -> fed p HTTP_FR_HEAD (head_block r c d p ts).
Proof.
  intros Hp H. unfold head_block. destruct (scan_block_len p (hd_atline (dir_of c d))) as [Hk Hk1]. specialize (Hk1 Hp). destruct (scan_block _ _) as [[j atline] ended]. cbn [fst] in Hk, Hk1.
  set (c1 := upd_dir c d _). assert (okc (fun f x => base f x /\ hd_st x = HTTP_FR_HEAD) r c1) as H1 by (apply hokc_dir; eapply hokc_weaken, H; intros f x [([] & _) ?]; by split). clearbody c1. clear c H.
  assert (okc base r c1) as Hb by (eapply hokc_weaken, H1; tauto). pose proof (hokc_at _ _ _ Hb) as Db.
  destruct (Z.ltb_spec LK_MSG_BODY_MAX (buf_len (frame c1 d) + j)) as [Hl|Hl]; [by apply lost_fed, bad_head_ok|].
  assert (zlen (ztake j p) = j) as Hj by (rewrite zlen_ztake; lia).
  assert (ztake j p <> []) as Hq by (intros E; rewrite E in Hj; change (zlen (A:=Z) []) with 0 in Hj; lia).
  destruct ended; cbn [negb].
  - destruct (Z.eqb_spec (buf_len (frame c1 d)) 0) as [E0|E0].
    + assert (f_buf (frame c1 d) = None) as En. { destruct Db. unfold buf_len, buf_bytes in E0. destruct (f_buf (frame c1 d)) as [b|]; [|done]. cbn in E0. apply zlen_0 in E0. by subst. }
      pose proof (head_complete_ok True r c1 (ztake j p) ts) as H2. destruct (head_complete _ _ _ _ _) as [r2 c2]. apply took_fed; [lia|]. eapply hokc_weaken; [|apply H2].
      * intros f x (? & ? & Hn). split; [done|]. split; [done|]. auto.
      * eapply hokc_weaken; [|exact (hokc_and _ (fun f _ => f_buf f = None) _ _ H1 En)]. intros f x [[? Hs] ?]. split; [done|]. split; [by rewrite Hs|done].
    + assert (is_Some (f_buf (frame c1 d))) as Hs by (unfold buf_len, buf_bytes in E0; by destruct (f_buf (frame c1 d)); [eexists|]).
      pose proof (happend_ok False r c1 (ztake j p) Hq ltac:(rewrite Hj; exact Hl) Hs ltac:(eapply hokc_weaken, H1; intros f x [? ?]; split; [by apply nobuf_base|done]) ltac:(done)) as H2. set (c2 := buf_append _ _ _) in *. clearbody c2.
      pose proof (head_complete_ok False r c2 (buf_bytes (frame c2 d)) ts ltac:(eapply hokc_weaken, H2; tauto)) as H3. destruct (head_complete _ _ _ _ _) as [r3 c3]. pose proof (buf_drop_ok r3 c3 H3) as H4. destruct (buf_drop _ _ _) as [r4 c4]. by apply took_fed; [lia|].
  - destruct (f_buf (frame c1 d)) as [b|] eqn:Eb; cbn [negb].
    + apply took_fed; [lia|]. eapply hokc_weaken, (happend_ok False); [apply head_st_hinv|done|rewrite Hj; exact Hl|by eexists| |done]. eapply hokc_weaken, H1. intros f x [? ?]. split; [by apply nobuf_base|done].
    + pose proof (okr_get k r (proj1 H1)) as Hg. unfold lk_reasm_buf_get. destruct (buf_get r) as [[] r2]; cbn [negb snd] in *.
      * apply took_fed; [lia|]. eapply hokc_weaken, (happend_ok False); [apply head_st_hinv|done| | | |done].
        -- rewrite Hj. unfold buf_len, buf_bytes in Hl. rewrite Eb in Hl. destruct d; exact Hl.
        -- by exists []; destruct d.
        -- apply hokc_frame, (hokc_r _ r); [done|]. eapply hokc_weaken, H1. intros f x [[] ?]. by split.
      * apply lost_fed; [done|]. apply bad_head_ok, (hokc_r _ r); [done|exact Hb].
Qed.
Lemma head_feed_ok r c p ts : p <> [] -> okc (fun f x => hinv f x /\ hd_st x = HTTP_FR_HEAD) r c -> fed p HTTP_FR_HEAD (head_feed r c d p ts).
Proof.
  intros Hp H. unfold head_feed. destruct (buf_len (frame c d) =? 0); [|by apply head_block_ok]. pose proof (span_len is_crlf_byte p) as Hl. apply inj_le in Hl. change (zlen (span is_crlf_byte p).2 <= zlen p) in Hl. destruct (span is_crlf_byte p).2 as [|b q].
  - split; [eapply hokc_weaken, H; by intros ? ? [? _]|]. left. destruct p; [done|]. cbn. rewrite zlen_cons. pose proof (zlen_nonneg p). change (zlen (A:=Z) []) with 0. lia.
  - destruct (head_block_ok r (upd_dir c d (fun x => x <| hd_head_ts := ts |> <| hd_atline := true |>)) (b :: q) ts ltac:(done)) as [H1 H2].
    { apply hokc_dir. eapply hokc_weaken, H. intros f x [([] & ? & ?) ?]. split; [|done]. by split. }
    split; [done|]. destruct H2 as [H2|(H2 & H3)]; [left; lia|]. rewrite H2. destruct (Z.eq_dec (zlen (b :: q)) (zlen p)); [by right|left; lia].
Qed.

(** ** Chunked bodies *)
Lemma hinv_weak f x : hinv f x -> base f x.
Proof. by intros [? _]. Qed.
Definition in_st (st : http_fr_st) f x : Prop := hinv f x /\ hd_st x = st.
Lemma chunk_size_done_ok f x : in_st HTTP_FR_CHUNK f x -> in_st HTTP_FR_CHUNK f (chunk_size_done x).
Proof.
  intros [([] & ? & Hn) Hs]. rewrite Hs in Hn. specialize (Hn ltac:(done)). unfold chunk_size_done. cbv zeta. cbn [hd_chunk_val upd].
  assert (16 ^ hd_chunk_dig x <= 16 ^ 16) as Hp by (apply Z.pow_le_mono_r; lia). change (16 ^ 16) with (2 ^ 64) in Hp.
  destruct (Z.eqb_spec (hd_chunk_val x) 0); (split; [|done]); (split; [|split; [by cbn; rewrite Hs|done]]); bounds.
Qed.
Lemma size_digit_ok f x v : 0 <= v < 16 -> hd_chunk_dig x < 16 -> in_st HTTP_FR_CHUNK f x ->
  in_st HTTP_FR_CHUNK f (x <| hd_chunk_val ::= fun w => u64 (w * 16 + v) |> <| hd_chunk_dig ::= fun n => n + 1 |>).
Proof.
  intros Hv Hd [([] & ? & Hn) Hs]. assert (16 ^ (hd_chunk_dig x + 1) = 16 ^ hd_chunk_dig x * 16) as Ep by (rewrite Z.pow_add_r; lia).
  assert (16 ^ (hd_chunk_dig x + 1) <= 16 ^ 16) as Hp by (apply Z.pow_le_mono_r; lia). change (16 ^ 16) with (2 ^ 64) in Hp.
  split; [|done]. split; [|done]. split; cbn; try done; try lia. unfold u64. rewrite Z.mod_small; lia.
Qed.
Lemma chunk_st_ok f x st : st <> HTTP_CH_DATA -> in_st HTTP_FR_CHUNK f x -> in_st HTTP_FR_CHUNK f (x <| hd_chunk_st := st |>).
Proof. intros Hst [([] & ? & Hn) Hs]. split; [|done]. by split. Qed.
Lemma in_st_quiet st : quiet (in_st st).
Proof. apply (and_quiet hinv (fun s => s = st)), hinv_quiet. Qed.
Definition moved p (o : option (reasm * conn * list Z)) : Prop :=
  match o with None => True | Some (r, c, q) => okc hinv r c /\ zlen q < zlen p end.
Lemma moved_one p r c : p <> [] -> okc (in_st HTTP_FR_CHUNK) r c -> moved p (Some (r, c, zdrop 1 p)).
Proof.
  intros Hp H. split; [eapply hokc_weaken, H; by intros ? ? [? _]|]. destruct p; [done|]. rewrite zdrop_cons, zdrop_0, zlen_cons by lia. lia.
Qed.
Lemma chunk_data_ok r c p ts : p <> [] -> hd_chunk_st (dir_of c d) = HTTP_CH_DATA -> okc (in_st HTTP_FR_CHUNK) r c -> moved p (chunk_step r c d p ts).
Proof.
  intros Hp Est H. unfold chunk_step. rewrite Est. set (left := hd_chunk_left (dir_of c d)). set (take := if _ <? _ then _ else _). pose proof (hokc_at _ _ _ H) as [([] & _) _].
  assert (1 <= zlen p) as Hl by (destruct p; [done|]; rewrite zlen_cons; pose proof (zlen_nonneg p); lia). fold left in ba_open0, ba_chunk0. specialize (ba_open0 Est).
  assert (1 <= take <= zlen p /\ take <= left) as [Ht Ht'] by (subst take; destruct (Z.ltb_spec left (zlen p)); lia).
  pose proof (body_add_ok (fun f x => in_st HTTP_FR_CHUNK f x /\ hd_chunk_left x = left) r c (Some p) take ts) as H1. destruct (body_add _ _ _ _ _ _) as [r1 c1].
  assert (okc (fun f x => in_st HTTP_FR_CHUNK f x /\ hd_chunk_left x = left) r1 c1) as H2.
  { apply H1; [|by apply hokc_and]. intros f x b e s [? ?]. split; [by apply in_st_quiet|done]. }
  clear H1. split; [|rewrite zlen_zdrop by lia; lia]. set (c2 := upd_dir c1 d _).
  assert (forall st, (st = HTTP_CH_DATA -> take < left) -> okc hinv r1 (upd_dir c1 d (fun x => x <| hd_chunk_left ::= fun n => n - take |> <| hd_chunk_st := st |>))) as H3.
  { intros st Hst. apply hokc_dir. eapply hokc_weaken, H2. intros f x [[([] & ? & ?) ?] El]. split; [|done]. split; cbn in *; try done; rewrite ?El; try lia. intros E. specialize (Hst E). lia. }
  destruct (Z.eqb_spec (hd_chunk_left (dir_of c2 d)) 0) as [E0|E0].
  - destruct (H3 HTTP_CH_DATA_EOL ltac:(done)) as (? & hf & E & H4). destruct H2 as (_ & hf2 & E2 & _). split; [done|]. exists hf. unfold c2, upd_dir, upd_fr in *. cbn [c_frame_state upd] in *. rewrite E2 in *. cbn in *. by destruct d.
  - assert (take <> left) as Hne. { intros ->. apply E0. destruct H2 as (_ & hf2 & E2 & _ & (_ & El) & _). unfold c2, dir_of, fr_of, upd_dir, upd_fr. cbn [c_frame_state upd]. rewrite E2. cbn. rewrite (proj1 (hf_d_upd d _ hf2)). cbn. lia. }
    apply hokc_dir. eapply hokc_weaken, H2. intros f x [[([] & ? & ?) ?] El]. split; [|done]. split; cbn in *; try done; rewrite ?El; lia.
Qed.
Lemma chunk_step_ok r c p ts : p <> [] -> okc (in_st HTTP_FR_CHUNK) r c -> moved p (chunk_step r c d p ts).
Proof.
  intros Hp H. destruct (decide (hd_chunk_st (dir_of c d) = HTTP_CH_DATA)) as [E|Hne]; [by apply chunk_data_ok|]. unfold chunk_step. cbv zeta.
  assert (forall g, (forall f x, in_st HTTP_FR_CHUNK f x -> in_st HTTP_FR_CHUNK f (g x)) -> moved p (Some (r, upd_dir c d g, zdrop 1 p))) as Hset.
  { intros g Hg. apply moved_one; [done|]. apply hokc_dir. eapply hokc_weaken, H. apply Hg. }
  pose proof (Hset chunk_size_done chunk_size_done_ok) as Hdone. pose proof (Hset (fun x => x) ltac:(done)) as Hid.
  destruct (hd_chunk_st (dir_of c d)) eqn:Est; try done.
  - pose proof (hex_val_range (znth p 0)). destruct (Z.leb_spec 0 (http_hex_val (znth p 0))).
    + destruct (Z.leb_spec 16 (hd_chunk_dig (dir_of c d))) as [|Hd]; [done|]. apply moved_one; [done|]. apply hokc_dir. eapply hokc_weaken; [|exact (hokc_and _ (fun _ x => hd_chunk_dig x < 16) _ _ H Hd)].
      intros f x [? ?]. apply size_digit_ok; [lia|done..].
    + destruct (_ =? 0); [done|]. destruct (_ =? _); [apply Hset; intros; by apply chunk_st_ok|]. destruct (_ =? 13); [apply Hset; intros; by apply chunk_st_ok|]. by destruct (_ =? 10).
  - destruct (_ =? 13); [apply Hset; intros; by apply chunk_st_ok|]. by destruct (_ =? 10).
  - by destruct (negb _).
  - destruct (_ =? 13); [done|]. destruct (_ =? 10); [|done]. apply Hset. intros f x [([] & ? & ?) ?]. split; [|done]. split; [bounds|done].
  - destruct (scan_block_len p (hd_atline (dir_of c d))) as [Hk Hk1]. specialize (Hk1 Hp). destruct (scan_block _ _) as [[j a] e]. cbn [fst] in *. set (c1 := upd_dir c d _).
    assert (okc (in_st HTTP_FR_CHUNK) r c1) as H1 by (apply hokc_dir; eapply hokc_weaken, H; intros f x [([] & ? & ?) ?]; split; [|done]; by split). clearbody c1.
    assert (zlen (zdrop j p) < zlen p) by (rewrite zlen_zdrop; lia). destruct e; [|split; [eapply hokc_weaken, H1; by intros ? ? [? _]|done]].
    pose proof (body_end_ok True r c1 ts) as H2. destruct (body_end _ _ _ _) as [r2 c2]. split; [|done]. eapply hokc_weaken; [|apply H2].
    + intros f x [(? & ? & Hn) ?]. split; [done|]. split; [done|]. auto.
    + eapply hokc_weaken, H1. intros f x [(? & ? & Hn) Hs]. split; [done|]. intros _. apply Hn. by rewrite Hs.
Qed.
Lemma chunk_feed_ok fuel ts : forall r c p, (length p <= fuel)%nat -> okc hinv r c ->
  let res := chunk_feed fuel r c d p ts in
  res.2 <> LoopFuel /\ okc hinv res.1.1.1 res.1.1.2 /\ zlen res.1.2 <= zlen p /\
  (p <> [] -> hd_st (dir_of c d) = HTTP_FR_CHUNK -> fed p HTTP_FR_CHUNK res.1).
Proof.
  induction fuel as [|fuel IH]; intros r c p Hf H; cbv zeta.
  { destruct p; cbn in *; [by split; [|split; [|split]]|lia]. }
  cbn [chunk_feed]. destruct p as [|b p]; [by split; [|split; [|split]]|]. destruct (bool_decide_reflect (hd_st (dir_of c d) = HTTP_FR_CHUNK)) as [Es|Es]; cbn [negb]; [|by split; [|split; [|split]]].
  assert (okc (in_st HTTP_FR_CHUNK) r c) as H0 by by apply hokc_and. pose proof (chunk_step_ok r c (b :: p) ts ltac:(done) H0) as H1. destruct (chunk_step r c d (b :: p) ts) as [[[r1 c1] q]|].
  - destruct H1 as [H1 Hl]. assert (length q <= fuel)%nat as Hq by (unfold zlen in Hl; cbn in *; lia). destruct (IH r1 c1 q Hq H1) as (I1 & I2 & I3 & _). split; [done|]. split; [done|]. split; [lia|].
    intros _ _. split; [done|]. left. lia.
  - pose proof (bad_head_ok r c LK_HTTP_NOTE_CHUNK_BAD ts ltac:(eapply hokc_weaken, H; apply hinv_weak)) as H2. pose proof (lost_fed (b :: p) HTTP_FR_CHUNK _ ltac:(done) H2) as H3.
    destruct (bad_head _ _ _ _ _) as [r2 c2]. split; [done|]. split; [apply H3|]. by split.
Qed.

(** ** Resync, one iteration, the loop *)
Lemma anchor_slide_len a : zlen (anchor_slide d a).1 <= zlen a /\ ((anchor_slide d a).2 = true -> (anchor_slide d a).1 <> []).
Proof.
  induction a as [|b a IH]; cbn [anchor_slide]; [done|]. destruct (anchor_ok d (b :: a)) as [[] full]; [done|]. rewrite zlen_cons. split; [lia|apply IH].
Qed.
Lemma hresync_ok r c : okc (in_st HTTP_FR_HEAD) r c -> okp (in_st HTTP_FR_HEAD) (lk_reasm_resync r c d).
Proof.
  intros (H1 & hf & E & H2 & [([] & ? & ?) ?] & H4). destruct (resync_frames k d r c H1) as (r' & c' & -> & Hr & E1 & E2 & E3). split; [done|]. exists hf. cbn [snd]. rewrite E1, E2, E3.
  split; [done|]. split; [done|]. split; [|done]. split; [|done]. split; [by split|]. by split.
Qed.
Lemma scan_feed_ok ts p : forall r c, okc (in_st HTTP_FR_SCAN) r c -> okc hinv (scan_feed r c d p ts).1.1 (scan_feed r c d p ts).1.2 /\ (p <> [] -> zlen (scan_feed r c d p ts).2 < zlen p).
Proof.
  induction p as [|b q IH]; intros r c H; cbn [scan_feed]; [split; [eapply hokc_weaken, H; by intros ? ? [? _]|done]|].
  pose proof (hokc_at _ _ _ H) as [([] & _) _]. destruct (anchor_slide_len (hd_anchor (dir_of c d) ++ [b])) as [Hl Hf]. destruct (anchor_slide _ _) as [a full]. cbn [fst snd] in *.
  rewrite zlen_app in Hl. change (zlen [b]) with 1 in Hl. rewrite zlen_cons. destruct full.
  - set (c1 := upd_dir c d _). assert (okc (in_st HTTP_FR_HEAD) r c1) as H1 by (apply hokc_dir; eapply hokc_weaken, H; intros f x [([] & ? & ?) ?]; split; [|done]; by split). clearbody c1.
    pose proof (hresync_ok r c1 H1) as H2. destruct (lk_reasm_resync r c1 d) as [r2 c2]. destruct (head_feed_ok r2 c2 a ts (Hf eq_refl) H2) as [H3 _]. destruct (head_feed _ _ _ _ _) as [[r3 c3] q']. split; [done|]. cbn. lia.
  - set (c1 := upd_dir c d _). assert (okc (in_st HTTP_FR_SCAN) r c1) as H1.
    { apply hokc_dir. eapply hokc_weaken, H. intros f x [([] & ? & ?) ?]. split; [|done]. split; [|done]. split; try done. cbn. destruct (Z.leb_spec LK_HTTP_ANCHOR_MAX (zlen a)); [done|lia]. }
    destruct (IH r c1 H1) as [I1 I2]. split; [done|]. intros _. destruct q as [|b' q]; [cbn; change (zlen (A:=Z) []) with 0; lia|]. specialize (I2 ltac:(done)). lia.
Qed.
Lemma body_left_ok r c (take : Z) src ts : 0 <= take <= hd_body_left (dir_of c d) -> okc (in_st HTTP_FR_BODY) r c ->
  okp hinv (let '(r, c) := body_add r c d src take ts in
            let c := upd_dir c d (fun x => x <| hd_body_left ::= fun n => n - take |>) in
            if hd_body_left (dir_of c d) =? 0 then body_end r c d ts else (r, c)).
Proof.
  intros Ht H. set (left := hd_body_left (dir_of c d)) in *. apply hseq_ok with (J := fun f x => in_st HTTP_FR_BODY f x /\ hd_body_left x = left).
  { apply body_add_ok; [|by apply hokc_and]. intros f x b e s [? ?]. split; [by apply in_st_quiet|done]. }
  clearbody left. clear r c H. intros r c H. cbv zeta. set (c1 := upd_dir c d _).
  assert (okc (fun f x => (base f x /\ (True -> f_buf f = None)) /\ hd_st x = HTTP_FR_BODY) r c1) as H1.
  { apply hokc_dir. eapply hokc_weaken, H. intros f x [[([] & ? & Hn) Hs] El]. rewrite Hs in Hn. split; [|done]. split; [|auto]. split; cbn in *; try done. lia. }
  clearbody c1. destruct (Z.eqb_spec (hd_body_left (dir_of c1 d)) 0) as [E|E].
  - eapply hokc_weaken, (body_end_ok True); [|eapply hokc_weaken, H1; by intros ? ? [? _]]. intros f x [(? & ? & Hn) ?]. split; [done|]. split; [done|]. auto.
  - eapply hokc_weaken; [|exact (hokc_and _ (fun _ x => hd_body_left x <> 0) _ _ H1 E)]. intros f x [[[[] Hn] Hs] Hne]. split; [by split|]. split; [lia|auto].
Qed.
Lemma http_step_ok r c p ts : p <> [] -> okc hinv r c -> fed p (hd_st (dir_of c d)) (http_step r c d p ts).
Proof.
  intros Hp H. assert (1 <= zlen p) as Hl by (destruct p; [done|]; rewrite zlen_cons; pose proof (zlen_nonneg p); lia). pose proof (hokc_at _ _ _ H) as ([] & Hbody & _).
  unfold http_step. destruct (hd_st (dir_of c d)) eqn:Est.
  - apply head_feed_ok; [done|]. by apply hokc_and.
  - specialize (Hbody eq_refl). set (left := hd_body_left (dir_of c d)) in *. set (take := if _ <? _ then _ else _).
    assert (1 <= take <= zlen p /\ take <= left) as [Ht Ht'] by (subst take; destruct (Z.ltb_spec left (zlen p)); lia).
    pose proof (body_left_ok r c take (Some p) ts ltac:(lia) ltac:(by apply hokc_and)) as H1. destruct (body_add _ _ _ _ _ _) as [r1 c1]. cbv zeta in *.
    destruct (if _ =? 0 then _ else _) as [r2 c2]. apply took_fed; [lia|exact H1].
  - destruct (chunk_feed_ok (chunk_fuel p) ts r c p ltac:(unfold chunk_fuel; lia) H) as (_ & _ & _ & Hc). by apply Hc.
  - pose proof (body_add_ok hinv r c (Some p) (zlen p) ts hinv_quiet H) as H1. destruct (body_add _ _ _ _ _ _) as [r1 c1]. split; [done|]. left. cbn. change (zlen (A:=Z) []) with 0. lia.
  - destruct (scan_feed_ok ts p r c ltac:(by apply hokc_and)) as [H1 H2]. split; [done|]. left. by apply H2.
Qed.
Definition weight (st : http_fr_st) : Z := match st with HTTP_FR_SCAN => 0 | _ => 1 end.
Lemma http_loop_ok ts fuel : forall r c p, okc hinv r c -> 2 * zlen p + weight (hd_st (dir_of c d)) <= Z.of_nat fuel ->
  okp hinv (http_loop fuel r c d p ts).1 /\ (http_loop fuel r c d p ts).2 <> LoopFuel.
Proof.
  induction fuel as [|fuel IH]; intros r c p H Hf.
  { destruct p; cbn [http_loop]; [done|]. rewrite zlen_cons in Hf. pose proof (zlen_nonneg p). unfold weight in Hf. destruct (hd_st _); lia. }
  cbn [http_loop]. destruct p as [|b p]; [done|]. destruct (http_step_ok r c (b :: p) ts ltac:(done) H) as [H1 H2]. destruct (http_step r c d (b :: p) ts) as [[r1 c1] q]. cbn [fst snd] in *.
  destruct (has_flag _ _); [done|]. destruct (_ && _); [done|]. apply IH; [done|]. assert (weight (hd_st (dir_of c1 d)) <= 1 /\ 0 <= weight (hd_st (dir_of c d))) as [? ?] by (unfold weight; destruct (hd_st (dir_of c1 d)), (hd_st (dir_of c d)); lia).
  destruct H2 as [H2|(H2 & Es & Hne)]; [lia|]. rewrite Es. cbn [weight]. assert (weight (hd_st (dir_of c d)) = 1) by (by destruct (hd_st (dir_of c d))). lia.
Qed.

(** ** The hooks *)
Lemma counters_ok J r c g : (forall f x, J f x -> J f (g x)) -> okc J r c -> okc J r (upd_dir c d g).
Proof. intros Hg H. apply hokc_dir. eapply hokc_weaken, H. apply Hg. Qed.
Lemma scan_hinv r c (op : reasm * conn) : okp (fun f x => hinv f x /\ hd_st x = HTTP_FR_SCAN) op -> okp hinv op.
Proof. apply hokc_weaken. by intros ? ? [? _]. Qed.
Lemma hbytes_ok r c p ts : okc hinv r c -> okp hinv (http_stream_bytes r c d p ts).
Proof.
  intros H. unfold http_stream_bytes, http_frame_get. destruct (proj2 H) as (hf & Ef & _). rewrite Ef. cbn [negb]. set (c1 := upd_dir c d _).
  assert (okc hinv r c1) as H1 by (apply counters_ok; [|done]; intros f x ([] & ? & ?); by split). clearbody c1. clear c H hf Ef.
  destruct (tls_record_head _ _ _). { apply hseq_ok with (J := hinv); [by apply note_ok; [apply hinv_quiet|]|]. intros. by apply hokc_flags. }
  apply hseq_ok with (J := hinv).
  { destruct (f_st (frame c1 d)); try done. destruct (bool_decide _); [done|]. eapply scan_hinv, hgo_scan_ok, hokc_weaken, H1; [done..|]. apply hinv_weak. }
  clear r c1 H1. intros r c H. apply hseq_ok with (J := hinv).
  - destruct (body_unseen _ _ _) eqn:Eu; [|done]. assert (hd_st (dir_of c d) = HTTP_FR_BODY) as Es by (unfold body_unseen in Eu; destruct d; [|done]; repeat (apply andb_true_iff in Eu as [Eu _]); by apply bool_decide_eq_true in Eu).
    apply hseq_ok with (J := in_st HTTP_FR_BODY); [apply note_ok; [apply in_st_quiet|by apply hokc_and]|]. intros r1 c1 H1. eapply hokc_weaken, (body_end_ok True).
    + intros f x [(? & ? & Hn) ?]. split; [done|]. split; [done|]. auto.
    + eapply hokc_weaken, H1. intros f x [(? & ? & Hn) Hs]. split; [done|]. intros _. apply Hn. by rewrite Hs.
  - clear r c H. intros r c H. apply http_loop_ok; [done|]. unfold http_fuel, zlen, weight. destruct (hd_st _); lia.
Qed.
Lemma lost_ok r c n ts : okc hinv r c -> okp hinv (bad_head r c d n ts).
Proof. intros H. eapply (scan_hinv r c), bad_head_ok, hokc_weaken, H. apply hinv_weak. Qed.
Lemma hole_synced_ok r c n ts : 0 <= n -> okc hinv r c -> okp hinv (hole_synced r c d n ts).
Proof.
  intros Hn H. unfold hole_synced. destruct (hd_st (dir_of c d)) eqn:Est.
  - cbv zeta. apply hseq_ok with (J := hinv); [|intros; by apply lost_ok]. destruct (_ =? 0); [done|]. apply emit_ok; [apply hinv_quiet|done].
  - cbv zeta. set (take := if _ <? _ then _ else _). assert (0 <= take <= hd_body_left (dir_of c d)) as Ht.
    { pose proof (hokc_at _ _ _ H) as ([] & _). subst take. destruct (Z.ltb_spec (hd_body_left (dir_of c d)) n); lia. }
    pose proof (body_left_ok r c take None ts Ht ltac:(by apply hokc_and)) as H2. destruct (body_add _ _ _ _ _ _) as [r2 c2]. cbv zeta in H2. apply hseq_ok with (J := hinv); [exact H2|].
    intros r3 c3 H3. destruct (n - take =? 0); [exact H3|by apply lost_ok].
  - by apply lost_ok.
  - apply body_add_ok; [apply hinv_quiet|done].
  - apply counters_ok; [|done]. intros f x ([] & ? & ?). by split.
Qed.
Lemma hhole_ok r c n : 0 <= n -> okc hinv r c -> okp hinv (http_stream_hole r c d n).
Proof.
  intros Hn H. unfold http_stream_hole, http_frame_get. destruct (proj2 H) as (hf & Ef & _). rewrite Ef. cbn [negb]. destruct (n =? 0); [done|]. set (c1 := upd_dir c d _).
  assert (okc hinv r c1) as H1 by (apply counters_ok; [|done]; intros f x ([] & ? & ?); by split). clearbody c1. clear c H hf Ef. cbv zeta.
  pose proof (hole_synced_ok r c1 n (hd_last_ts (dir_of c1 d)) Hn H1) as Hm.
  assert (okp hinv (go_scan r c1 d)) as Hscan by (eapply (scan_hinv r c1), hgo_scan_ok, hokc_weaken, H1; apply hinv_weak).
  destruct (f_st (frame c1 d)); try exact Hm. destruct (bool_decide _); [exact Hm|exact Hscan].
Qed.
Lemma hno_state_ok r c ts : okr r -> c_frame_state c = None ->
  let '(r', c') := http_no_state r c d ts in okr r' /\ c_frame_state c' = None /\ f_buf (frame c' d) = f_buf (frame c d) /\ frame c' (other d) = frame c (other d).
Proof.
  intros Hr Hn. unfold http_no_state, go_blind, note, emit. match goal with |- context [lk_reasm_emit r c d ?m] => destruct (emit_frames k d r c m Hr) as (r' & c' & b & -> & Hr' & E1 & E2 & E3) end.
  split; [done|]. split; [cbn; congruence|]. unfold other in *. destruct d; cbn in *; by rewrite ?E2, ?E3.
Qed.
End Safe.

(** ** Both directions, from the first byte on *)
Section Run.
Context {S P : Type} (k : lk_msg_sink S P http_frame) {SS : StreamSink k}.
Abbreviation reasm := (lk_reasm S P http_frame).
Abbreviation conn := (lk_conn P http_frame).
Abbreviation okr := (okr k).
Implicit Types (r : reasm) (c : conn).
Definition hook r c (e : lk_dir * seg) : reasm * conn :=
  match e with (d, Seg ts p) => http_stream_bytes r c d p ts | (d, Gap n) => http_stream_hole r c d n end.
Definition hooks r c (es : list (lk_dir * seg)) : reasm * conn := foldl (fun rc e => hook rc.1 rc.2 e) (r, c) es.
Definition safe c : Prop := pinv (fr_of c) /\ forall d, hinv (frame c d) (dir_of c d).

Lemma hsafe_okc d r c : okr r -> is_Some (c_frame_state c) -> safe c -> okc k d (frame c (other d)) (dir_of c (other d)) hinv r c.
Proof. intros Hr [hf E] [Hp Hc]. specialize (Hc d). split; [done|]. exists hf. unfold dir_of, fr_of in *. by rewrite E in *. Qed.
Lemma hokc_safe d f0 x0 r c : okc k d f0 x0 hinv r c -> hinv f0 x0 -> okr r /\ safe c.
Proof.
  intros (H1 & hf & E & H2 & H3 & H4 & H5) H0. split; [done|]. unfold safe, dir_of, fr_of. rewrite E. cbn. split; [done|]. intros d'. unfold other in *. subst f0 x0. by destruct d, d'.
Qed.
Lemma hhook_started r c e : okr r -> is_Some (c_frame_state c) -> safe c -> wide e -> okr (hook r c e).1 /\ safe (hook r c e).2.
Proof.
  intros Hr Hs Hc He. destruct e as [d [ts p|n]]; cbn [hook]; (eapply hokc_safe, (proj2 Hc (other d))); [refine (hbytes_ok k d _ _ r c p ts _)|refine (hhole_ok k d _ _ r c n He _)]; by apply hsafe_okc.
Qed.
Lemma hunstarted_safe c : c_frame_state c = None -> (forall d, base (frame c d) http_dir0) -> safe c.
Proof. intros Hn Hb. unfold safe, dir_of, fr_of. rewrite Hn. split; [by split|]. intros d. specialize (Hb d). by destruct d. Qed.
Lemma fresh_base f : base f http_dir0 <-> buf_len f <= LK_MSG_BODY_MAX /\ f_buf f <> Some [].
Proof. split; [by intros []|]. intros [? ?]. by split. Qed.
Lemma safe_unstarted c d : c_frame_state c = None -> safe c -> base (frame c d) http_dir0.
Proof. intros Hn [_ H]. destruct (H d) as [Hb _]. unfold dir_of, fr_of in Hb. rewrite Hn in Hb. by destruct d. Qed.
Lemma hhook_safe r c e : okr r -> safe c -> wide e -> okr (hook r c e).1 /\ safe (hook r c e).2.
Proof.
  intros Hr Hc He. destruct (c_frame_state c) as [rf|] eqn:Ef; [apply hhook_started; [done|by eexists|done..]|].
  pose proof (okr_malloc k r Hr) as Hm. destruct (malloc r) as [[] r1] eqn:Em; cbn [snd] in Hm.
  - replace (hook r c e) with (hook r1 (c <| c_frame_state := Some http_frame0 |>) e).
    + apply hhook_started; [done|by eexists| |done]. destruct Hc as [Hp Hc]. unfold safe, dir_of, fr_of in *. rewrite Ef in *. split; [done|]. intros d. specialize (Hc d). by destruct d.
    + destruct e as [d [ts p|n]]; cbn [hook]; [unfold http_stream_bytes|unfold http_stream_hole]; unfold http_frame_get; by rewrite Ef, Em.
  - assert (exists ts, hook r c e = http_no_state r1 c e.1 ts) as [ts ->].
    { destruct e as [d [ts p|n]]; cbn [hook fst]; [exists ts; unfold http_stream_bytes|exists 0; unfold http_stream_hole]; unfold http_frame_get; by rewrite Ef, Em. }
    pose proof (hno_state_ok k e.1 r1 c ts Hm Ef) as Hn. destruct (http_no_state _ _ _ _) as [r2 c2]. destruct Hn as (H1 & H2 & H3 & H4). split; [done|].
    apply hunstarted_safe; [done|]. intros d'. pose proof (safe_unstarted c d' Ef Hc) as Hb. apply fresh_base in Hb. apply fresh_base. unfold buf_len, buf_bytes in *. cbn [snd].
    destruct (decide (d' = e.1)) as [->|Hne]; [by rewrite H3|]. replace d' with (other e.1) in * by (by destruct e.1, d'). by rewrite H4.
Qed.

(** C17: The HTTP framer is safe on any traffic: whatever bytes and holes arrive, on either direction, in
    whatever order and with whatever allocation failures, for every consumer that leaves
    the framing state alone, the in-flight FIFO and the resync anchor stay within their
    arrays, a chunk size never has more than 16 digits nor wraps its 64 bits, a counted
    body and an open chunk always owe at least a byte, the header slab is at most
    [LK_MSG_BODY_MAX] long and held only while a head is assembled, the freelist stays
    bounded, and every chunk is walked within the loops' fuel. *)
Theorem http_framer_safe cookie (ctx : S) oom es : Forall wide es ->
  let '(r, c) := hooks (lk_reasm_init ctx k oom) (conn0 cookie) es in
  safe c /\ 0 <= r_pool_n r <= LK_REASM_POOL_MAX /\
  forall d p ts, is_Some (c_frame_state c) ->
    (http_loop (http_fuel p) r c d p ts).2 <> LoopFuel /\ (chunk_feed (chunk_fuel p) r c d p ts).2 <> LoopFuel.
Proof.
  intros He. unfold hooks. assert (forall rc, okr rc.1 -> safe rc.2 -> okr (foldl (fun rc e => hook rc.1 rc.2 e) rc es).1 /\ safe (foldl (fun rc e => hook rc.1 rc.2 e) rc es).2) as H.
  { induction He as [|e es He _ IH]; intros rc Hr Hc; [done|]. cbn [foldl]. by apply IH; apply hhook_safe. }
  destruct (H (lk_reasm_init ctx k oom, conn0 cookie)) as [H1 H2]; [done|by apply hunstarted_safe; [|intros []; by apply fresh_base]|]. destruct (foldl _ _ _) as [r c]. split; [done|]. split; [apply H1|].
  intros d p ts Hs. pose proof (hsafe_okc d r c H1 Hs H2) as H3. split.
  - eapply (http_loop_ok k d); [exact H3|]. unfold http_fuel, zlen, weight. destruct (hd_st _); lia.
  - eapply (chunk_feed_ok k d); [unfold chunk_fuel; lia|exact H3].
Qed.
End Run.

(** ** A witness *)
Definition w_silent : lk_msg_sink unit unit http_frame := Sink (Some (fun s c _ _ => (s, c))) None None.
#[global] Instance w_silent_law : StreamSink w_silent.
Proof. split; intros cb s c d; [intros m|]; intros E; [injection E as <-; by split|done]. Qed.
Definition w_events : list (lk_dir * seg) := [(LK_DIR_RECV, Seg 5 (lit "POST / HTT")); (LK_DIR_SEND, Gap 3); (LK_DIR_RECV, Seg 6 (lit "P/1.1"))].
Definition w_end := hooks (lk_reasm_init tt w_silent []) (conn0 7) w_events.
Lemma http_framer_safe_witness : safe w_end.2.
Proof.
  pose proof (http_framer_safe w_silent 7 tt [] w_events ltac:(repeat constructor; vm_compute; discriminate)) as H. unfold w_end. destruct (hooks _ _ _) as [r c]. exact (proj1 H).
Defined.
