(* ===== verification/HttpRefine.v ===== *)
(** HTTP/1.x framing as a machine over single bytes of two directions: no chunks of
    capture, no slabs, no ring.  The framer computes this machine, wherever the capture
    cuts the stream and however the directions interleave.

    The consumer here records what it is given, newest first, with the body bytes of a
    direction added up. *)
From Stdlib Require Import Ascii String.
From stdpp Require Import base list option.
From S2P Require Import Prelude Conn Proto Reassembly StreamSafe NormRoute HttpWire HttpFrame HttpSafe.
#[local] Open Scope Z_scope.

(** ** What a consumer is told *)
Inductive hev :=
  | EvHead (type ts : Z) (head : list Z)
  | EvData (n : Z)
  | EvEnd (n ts : Z)
  | EvNote (n : Z).
Abbreviation hlog := (list (lk_dir * hev)).
(** Body bytes join the ones just before them. *)
Definition log_add (d : lk_dir) (e : hev) (l : hlog) : hlog :=
  match e, l with
  | EvData m, (d', EvData n) :: l' => if bool_decide (d' = d) then (d, EvData (n + m)) :: l' else (d, e) :: l
  | _, _ => (d, e) :: l
  end.

(** ** The machine *)
Inductive hmode :=
  | MHead (acc : list Z) (atline : bool) (ts0 : Z)                        (* of a head, or between messages *)
  | MBody (left seen : Z)
  | MChunk (cs : http_chunk_st) (dig val left : Z) (atline : bool) (seen : Z)
  | MClose (seen : Z).
Definition hidle : hmode := MHead [] true 0.
Record hstream := HStream { hs_send : hmode; hs_recv : hmode; hs_pend : list Z; hs_lf : bool; hs_log : hlog }.
#[global] Instance hstream_upd : Updatable hstream := fun a => HStream (hs_send a) (hs_recv a) (hs_pend a) (hs_lf a) (hs_log a).
Definition hs0 : hstream := HStream hidle hidle [] false [].
Definition hs_mode (a : hstream) (d : lk_dir) : hmode := match d with LK_DIR_SEND => hs_send a | LK_DIR_RECV => hs_recv a end.
Definition to_mode (d : lk_dir) (m : hmode) (a : hstream) : hstream :=
  match d with LK_DIR_SEND => a <| hs_send := m |> | LK_DIR_RECV => a <| hs_recv := m |> end.
Definition say (d : lk_dir) (e : hev) (a : hstream) : hstream := a <| hs_log ::= log_add d e |>.
Definition fin (d : lk_dir) (seen ts : Z) (a : hstream) : hstream := to_mode d hidle (say d (EvEnd (sat32 seen) ts) a).

(** What follows a head. *)
Inductive follow := FNone | FCounted (n : Z) | FChunked | FClose.
Definition then_body (d : lk_dir) (ts : Z) (w : follow) (a : hstream) : hstream :=
  match w with
  | FNone => fin d 0 ts a
  | FCounted n => to_mode d (MBody n 0) a
  | FChunked => to_mode d (MChunk HTTP_CH_SIZE 0 0 0 false 0) a
  | FClose => to_mode d (MClose 0) a
  end.
(** The start line, the fields' framing and whether a line ended with a bare LF; nothing for a
    head the framer refuses. *)
Definition head_info (head : list Z) : option (http_span * bool * http_framing) :=
  match http_head_line (http_head_init head) with
  | (None, _) => None
  | (Some line, h) =>
      let '(ok, h, fr) := read_fields (fields_fuel h) h http_framing0 in
      if negb ok || fr_bad_cl fr || fr_te_present fr && fr_have_cl fr then None
      else Some (line, has_flag (hh_flags h) HTTP_HEAD_LF_ONLY, fr)
  end.
Definition lf_seen (d : lk_dir) (lf : bool) (a : hstream) : hstream :=
  if lf && negb (hs_lf a) then say d (EvNote (http_note_code LK_HTTP_NOTE_LF_ONLY)) (a <| hs_lf := true |>) else a.
Definition request_flags (m : list Z) (rq : Z) : Z :=
  match http_method_id m with HTTP_M_HEAD => set_flag rq HTTP_RQ_HEAD | HTTP_M_CONNECT => set_flag rq HTTP_RQ_CONNECT | _ => rq end.
Definition request_follow (fr : http_framing) : follow :=
  if fr_te_chunked fr then FChunked else if fr_have_cl fr && negb (fr_clen fr =? 0) then FCounted (fr_clen fr) else FNone.
Definition is_preface (head : list Z) : bool := (14 <=? zlen head) && same (ztake 14 head) (lit "PRI * HTTP/2.0").
Definition on_request (ts ts0 : Z) (head : list Z) (a : hstream) : option hstream :=
  '(line, lf, fr) ← head_info head;
  '(m, _, _) ← http_parse_req_line line;
  if is_preface head || fr_te_present fr && negb (fr_te_chunked fr) || (LK_HTTP_MAX_INFLIGHT <=? zlen (hs_pend a)) then None
  else
    let a := say LK_DIR_RECV (EvHead LK_HTTP_MSG_REQ ts0 head) (lf_seen LK_DIR_RECV lf a) in
    Some (then_body LK_DIR_RECV ts (request_follow fr) (a <| hs_pend ::= fun q => q ++ [request_flags m (fr_rq fr)] |>)).
Definition response_follow (rq code : Z) (fr : http_framing) : follow :=
  if has_flag rq HTTP_RQ_HEAD || (code =? 204) || (code =? 304) then FNone
  else if fr_te_chunked fr then FChunked
  else if fr_te_present fr then FClose
  else if fr_have_cl fr then if fr_clen fr =? 0 then FNone else FCounted (fr_clen fr)
  else FClose.
Definition on_response (ts ts0 : Z) (head : list Z) (a : hstream) : option hstream :=
  '(line, lf, fr) ← head_info head;
  '(code, _) ← http_parse_status_line (sp_b line);
  let a := lf_seen LK_DIR_SEND lf a in
  if code =? 101 then None
  else if code <? 200 then Some (to_mode LK_DIR_SEND hidle (say LK_DIR_SEND (EvHead LK_HTTP_MSG_INTER ts0 head) a))
  else
    let rq := hd 0 (hs_pend a) in
    if has_flag rq HTTP_RQ_CONNECT && (code <? 300) then None
    else Some (then_body LK_DIR_SEND ts (response_follow rq code fr) (say LK_DIR_SEND (EvHead LK_HTTP_MSG_RESP ts0 head) (a <| hs_pend ::= tail |>))).
Definition on_head (d : lk_dir) (ts ts0 : Z) (head : list Z) (a : hstream) : option hstream :=
  match d with LK_DIR_RECV => on_request ts ts0 head a | LK_DIR_SEND => on_response ts ts0 head a end.

(** The chunk-size line is complete. *)
Definition size_end (v seen : Z) : hmode :=
  if v =? 0 then MChunk HTTP_CH_TRAILER 0 0 0 true seen else MChunk HTTP_CH_DATA 0 0 v false seen.
Definition next_atline (atline : bool) (b : Z) : bool := if b =? 10 then true else if b =? 13 then atline else false.
Definition chunk_byte (d : lk_dir) (ts : Z) (cs : http_chunk_st) (dig val left : Z) (atline : bool) (seen b : Z) (a : hstream) : option hstream :=
  let stay cs := Some (to_mode d (MChunk cs dig val left atline seen) a) in
  match cs with
  | HTTP_CH_SIZE =>
      let v := http_hex_val b in
      if 0 <=? v then if 16 <=? dig then None else Some (to_mode d (MChunk cs (dig + 1) (val * 16 + v) left atline seen) a)
      else if dig =? 0 then None
      else if b =? ch ";" then stay HTTP_CH_EXT
      else if b =? 13 then stay HTTP_CH_SIZE_LF
      else if b =? 10 then Some (to_mode d (size_end val seen) a)
      else None
  | HTTP_CH_EXT => if b =? 13 then stay HTTP_CH_SIZE_LF else if b =? 10 then Some (to_mode d (size_end val seen) a) else stay HTTP_CH_EXT
  | HTTP_CH_SIZE_LF => if b =? 10 then Some (to_mode d (size_end val seen) a) else None
  | HTTP_CH_DATA =>
      Some (to_mode d (MChunk (if left =? 1 then HTTP_CH_DATA_EOL else HTTP_CH_DATA) 0 0 (left - 1) false (u64 (seen + 1))) (say d (EvData 1) a))
  | HTTP_CH_DATA_EOL =>
      if b =? 13 then stay HTTP_CH_DATA_EOL else if b =? 10 then Some (to_mode d (MChunk HTTP_CH_SIZE 0 0 0 false seen) a) else None
  | HTTP_CH_TRAILER =>
      if (b =? 10) && atline then Some (fin d seen ts a)
      else Some (to_mode d (MChunk cs 0 0 0 (next_atline atline b) seen) a)
  end.
Definition head_byte (d : lk_dir) (ts : Z) (acc : list Z) (atline : bool) (ts0 b : Z) (a : hstream) : option hstream :=
  if LK_MSG_BODY_MAX <? zlen acc + 1 then None
  else if (b =? 10) && atline then on_head d ts ts0 (acc ++ [b]) a
  else Some (to_mode d (MHead (acc ++ [b]) (next_atline atline b) ts0) a).
(** One byte; nothing when the framer would not go on: framing lost or a tunnel. *)
Definition hstep (d : lk_dir) (ts : Z) (a : hstream) (b : Z) : option hstream :=
  match hs_mode a d with
  | MHead [] _ _ => if is_crlf_byte b then Some a else head_byte d ts [] true ts b a
  | MHead acc atline ts0 => head_byte d ts acc atline ts0 b a
  | MBody n seen =>
      let a := say d (EvData 1) a in
      if n =? 1 then Some (fin d (u64 (seen + 1)) ts a) else Some (to_mode d (MBody (n - 1) (u64 (seen + 1))) a)
  | MChunk cs dig val n atline seen => chunk_byte d ts cs dig val n atline seen b a
  | MClose seen => Some (to_mode d (MClose (u64 (seen + 1))) (say d (EvData 1) a))
  end.
Fixpoint hrun (d : lk_dir) (ts : Z) (a : hstream) (bs : list Z) : option hstream :=
  match bs with [] => Some a | b :: bs => a ← hstep d ts a b; hrun d ts a bs end.
(** A segment of a head that starts like a TLS record, or one that looks like a status line
    where a counted body is owed from its start: the framer takes the connection for
    encrypted, the body for one that was not captured. *)
Definition mistaken (d : lk_dir) (a : hstream) (p : list Z) : bool :=
  match hs_mode a d, d with
  | MHead _ _ _, _ => znth p 0 =? 0x16
  | MBody _ 0, LK_DIR_SEND =>
      (9 <=? zlen p) && same (ztake 7 p) (lit "HTTP/1.") && ((znth p 7 =? ch "0") || (znth p 7 =? ch "1")) && (znth p 8 =? 32)
  | _, _ => false
  end.
(** Segments of both directions, as they come: direction, time and bytes. *)
Fixpoint hrun_segs (a : hstream) (ss : list (lk_dir * Z * list Z)) : option hstream :=
  match ss with
  | [] => Some a
  | (d, ts, p) :: ss => if mistaken d a p then None else a ← hrun d ts a p; hrun_segs a ss
  end.

Lemma hrun_app d ts p : forall a q, hrun d ts a (p ++ q) = a ← hrun d ts a p; hrun d ts a q.
Proof. induction p as [|b p IH]; intros a q; [done|]. cbn [app hrun]. destruct (hstep d ts a b); cbn [mbind option_bind]; [apply IH|done]. Qed.

Lemma to_mode_mode d m m' a : to_mode d m (to_mode d m' a) = to_mode d m a.
Proof. by destruct a, d. Qed.
Lemma hs_mode_to d m a : hs_mode (to_mode d m a) d = m.
Proof. by destruct d. Qed.
Lemma hs_mode_other d m a : hs_mode (to_mode d m a) (other d) = hs_mode a (other d).
Proof. by destruct d. Qed.
Lemma say_to_mode d e m a : say d e (to_mode d m a) = to_mode d m (say d e a).
Proof. by destruct d. Qed.
Lemma log_data_data d m n l : log_add d (EvData n) (log_add d (EvData m) l) = log_add d (EvData (m + n)) l.
Proof.
  cbn. destruct l as [|[d' []] l]; cbn; rewrite ?bool_decide_true by done; try done. destruct (bool_decide_reflect (d' = d)) as [->|]; rewrite bool_decide_true by done; [by rewrite Z.add_assoc|done].
Qed.
Lemma say_data_data d m n a : say d (EvData n) (say d (EvData m) a) = say d (EvData (m + n)) a.
Proof. unfold say. destruct a. cbn -[log_add]. by rewrite log_data_data. Qed.
(** A head replaces the mode of its direction. *)
Lemma on_head_to_mode d ts ts0 head m a : on_head d ts ts0 head (to_mode d m a) = on_head d ts ts0 head a.
Proof.
  destruct d, a as [ms mr q lf l]; unfold on_head, on_request, on_response; cbn [to_mode]; (destruct (head_info head) as [[[line lf'] fr]|]; cbn [mbind option_bind]; [|done]).
  - destruct (http_parse_status_line (sp_b line)) as [[code v]|]; cbn [mbind option_bind]; [|done]. unfold lf_seen. cbn [hs_lf upd]. destruct (code =? 101); [done|].
    destruct (lf' && negb lf), (code <? 200); try done; cbn [hs_pend upd say hs_lf hs_log]; destruct (_ && _); try done; by destruct (response_follow _ _ _).
  - destruct (http_parse_req_line line) as [[[m' t] v]|]; cbn [mbind option_bind]; [|done]. cbn [hs_pend upd]. destruct (_ || _); [done|]. unfold lf_seen. cbn [hs_lf upd]. destruct (lf' && negb lf); by destruct (request_follow fr).
Qed.

(** ** Runs of the machine *)
Lemma hrun_body d ts p : forall n seen a, p <> [] -> zlen p <= n ->
  hrun d ts (to_mode d (MBody n seen) a) p =
    Some (if zlen p =? n then fin d (u64 (seen + zlen p)) ts (say d (EvData (zlen p)) a) else to_mode d (MBody (n - zlen p) (u64 (seen + zlen p))) (say d (EvData (zlen p)) a)).
Proof.
  induction p as [|b p IH]; intros n seen a Hp Hn; [done|]. cbn [hrun]. unfold hstep. rewrite hs_mode_to, zlen_cons in *. pose proof (zlen_nonneg p). destruct p as [|b' p].
  - change (zlen (A:=Z) [] + 1) with 1 in *. rewrite (Z.eqb_sym n 1), say_to_mode. unfold fin. rewrite say_to_mode, !to_mode_mode. by destruct (1 =? n).
  - destruct (Z.eqb_spec n 1); [rewrite zlen_cons in *; pose proof (zlen_nonneg p); lia|]. rewrite say_to_mode, to_mode_mode. cbn [mbind option_bind]. rewrite IH by (done || lia).
    replace (zlen (b' :: p) =? n - 1) with (zlen (b' :: p) + 1 =? n) by lia. rewrite say_data_data, (Z.add_comm 1). replace (u64 (u64 (seen + 1) + zlen (b' :: p))) with (u64 (seen + (zlen (b' :: p) + 1))) by (unfold u64; rewrite Z.add_mod_idemp_l by lia; f_equal; lia).
    by replace (n - 1 - zlen (b' :: p)) with (n - (zlen (b' :: p) + 1)) by lia.
Qed.
Lemma hrun_close d ts p : forall seen a, p <> [] -> hrun d ts (to_mode d (MClose seen) a) p = Some (to_mode d (MClose (u64 (seen + zlen p))) (say d (EvData (zlen p)) a)).
Proof.
  induction p as [|b p IH]; intros seen a Hp; [done|]. cbn [hrun]. unfold hstep. rewrite hs_mode_to, zlen_cons, say_to_mode, to_mode_mode. cbn [mbind option_bind]. destruct p as [|b' p]; [done|].
  rewrite IH by done. rewrite say_data_data, (Z.add_comm 1). by replace (u64 (u64 (seen + 1) + zlen (b' :: p))) with (u64 (seen + (zlen (b' :: p) + 1))) by (unfold u64; rewrite Z.add_mod_idemp_l by lia; f_equal; lia).
Qed.
Lemma hrun_data d ts p : forall n seen a, p <> [] -> zlen p <= n ->
  hrun d ts (to_mode d (MChunk HTTP_CH_DATA 0 0 n false seen) a) p =
    Some (to_mode d (MChunk (if zlen p =? n then HTTP_CH_DATA_EOL else HTTP_CH_DATA) 0 0 (n - zlen p) false (u64 (seen + zlen p))) (say d (EvData (zlen p)) a)).
Proof.
  induction p as [|b p IH]; intros n seen a Hp Hn; [done|]. cbn [hrun]. unfold hstep. rewrite hs_mode_to, zlen_cons in *. pose proof (zlen_nonneg p). unfold chunk_byte. rewrite say_to_mode, to_mode_mode. cbn [mbind option_bind]. destruct p as [|b' p].
  - change (zlen (A:=Z) [] + 1) with 1 in *. by rewrite (Z.eqb_sym n 1).
  - destruct (Z.eqb_spec n 1); [rewrite zlen_cons in *; pose proof (zlen_nonneg p); lia|]. rewrite IH by (done || lia).
    replace (zlen (b' :: p) =? n - 1) with (zlen (b' :: p) + 1 =? n) by lia. rewrite say_data_data, (Z.add_comm 1). replace (u64 (u64 (seen + 1) + zlen (b' :: p))) with (u64 (seen + (zlen (b' :: p) + 1))) by (unfold u64; rewrite Z.add_mod_idemp_l by lia; f_equal; lia).
    by replace (n - 1 - zlen (b' :: p)) with (n - (zlen (b' :: p) + 1)) by lia.
Qed.
(** A block's bytes up to the empty line. *)
Lemma next_atline_eq (a : bool) b : (if b =? 10 then true else if negb (b =? 13) then false else a) = next_atline a b.
Proof. unfold next_atline. by destruct (b =? 10), (b =? 13). Qed.
Lemma hrun_trailer d ts p : forall atl seen a k atl' ended, p <> [] -> scan_block p atl = (k, atl', ended) ->
  1 <= k <= zlen p /\ hrun d ts (to_mode d (MChunk HTTP_CH_TRAILER 0 0 0 atl seen) a) (ztake k p) =
    Some (if ended : bool then fin d seen ts a else to_mode d (MChunk HTTP_CH_TRAILER 0 0 0 atl' seen) a).
Proof.
  induction p as [|b p IH]; intros atl seen a k atl' ended Hp; [done|]. cbn [scan_block]. rewrite next_atline_eq, zlen_cons. pose proof (zlen_nonneg p).
  destruct ((b =? 10) && atl) eqn:E.
  - intros [= <- <- <-]. split; [lia|]. rewrite ztake_cons, ztake_0 by lia. cbn [hrun]. unfold hstep. rewrite hs_mode_to. cbn [chunk_byte]. rewrite E. cbn [mbind option_bind]. unfold fin. by rewrite say_to_mode, to_mode_mode.
  - destruct (scan_block p (next_atline atl b)) as [[k1 a1] e1] eqn:Es. intros [= <- <- <-]. destruct p as [|b' p].
    + cbn in Es. injection Es as <- <- <-. split; [lia|]. rewrite ztake_cons, ztake_0 by lia. cbn [hrun]. unfold hstep. rewrite hs_mode_to. cbn [chunk_byte]. by rewrite E, to_mode_mode.
    + destruct (IH _ seen a _ _ _ ltac:(done) Es) as [Hk Hr]. split; [lia|]. rewrite ztake_cons by lia. cbn [hrun]. unfold hstep. rewrite hs_mode_to. cbn [chunk_byte]. rewrite E, to_mode_mode. cbn [mbind option_bind]. by rewrite Z.add_simpl_r.
Qed.
(** The same of a head, with at most [LK_MSG_BODY_MAX] bytes before the end. *)
Definition head_run (d : lk_dir) (ts : Z) (acc : list Z) (atl : bool) (ts0 : Z) (a : hstream) (p : list Z) : option hstream :=
  match p with [] => Some (to_mode d (MHead acc atl ts0) a) | b :: p => a ← head_byte d ts acc atl ts0 b a; hrun d ts a p end.
Lemma head_run_more d ts acc atl ts0 a p : acc <> [] -> hrun d ts (to_mode d (MHead acc atl ts0) a) p = head_run d ts acc atl ts0 (to_mode d (MHead acc atl ts0) a) p.
Proof. intros Ha. destruct p as [|b p]; cbn [head_run hrun]; [by rewrite to_mode_mode|]. unfold hstep. rewrite hs_mode_to. by destruct acc. Qed.
Lemma head_byte_to_mode d ts acc atl ts0 b m a : head_byte d ts acc atl ts0 b (to_mode d m a) = head_byte d ts acc atl ts0 b a.
Proof. unfold head_byte. destruct (_ <? _); [done|]. destruct (_ && _); [apply on_head_to_mode|]. by rewrite to_mode_mode. Qed.
Lemma head_run_to_mode d ts acc atl ts0 m a p : head_run d ts acc atl ts0 (to_mode d m a) p = head_run d ts acc atl ts0 a p.
Proof. destruct p as [|b p]; cbn [head_run]; [by rewrite to_mode_mode|]. by rewrite head_byte_to_mode. Qed.
Lemma head_run_scan d ts ts0 p : forall acc atl a k atl' ended a', p <> [] -> scan_block p atl = (k, atl', ended) -> head_run d ts acc atl ts0 a p = Some a' ->
  1 <= k <= zlen p /\ zlen acc + k <= LK_MSG_BODY_MAX /\
  exists a1, head_run d ts acc atl ts0 a (ztake k p) = Some a1 /\
    if ended : bool then on_head d ts ts0 (acc ++ ztake k p) a = Some a1 else k = zlen p /\ a1 = to_mode d (MHead (acc ++ p) atl' ts0) a.
Proof.
  induction p as [|b p IH]; intros acc atl a k atl' ended a' Hp; [done|]. cbn [scan_block head_run]. rewrite next_atline_eq, zlen_cons. pose proof (zlen_nonneg p). unfold head_byte.
  destruct (Z.ltb_spec LK_MSG_BODY_MAX (zlen acc + 1)) as [|Hm]; [done|]. apply Z.ltb_ge in Hm as Hm'. destruct ((b =? 10) && atl) eqn:E.
  - intros [= <- <- <-]. rewrite ztake_cons, ztake_0 by lia. cbn [head_run hrun]. unfold head_byte. rewrite E, Hm'. destruct (on_head d ts ts0 (acc ++ [b]) a) as [a1|]; [|done]. intros Hr. split; [lia|]. split; [done|]. by exists a1.
  - destruct (scan_block p (next_atline atl b)) as [[k1 a1] e1] eqn:Es. intros [= <- <- <-]. cbn [mbind option_bind]. rewrite head_run_more by (by destruct acc). rewrite head_run_to_mode.
    assert (0 <= k1) as H0 by (pose proof (scan_block_len p (next_atline atl b)) as [? _]; rewrite Es in *; cbn in *; lia).
    assert (forall q, head_run d ts acc atl ts0 a (b :: q) = head_run d ts (acc ++ [b]) (next_atline atl b) ts0 a q) as Hcons.
    { intros q. cbn [head_run]. unfold head_byte. rewrite E, Hm'. cbn [mbind option_bind]. rewrite head_run_more by (by destruct acc). apply head_run_to_mode. }
    rewrite ztake_cons, Hcons, Z.add_simpl_r by lia. destruct p as [|b' p].
    + cbn in Es. injection Es as <- <- <-. cbn [head_run]. intros [= <-]. split; [lia|]. split; [done|]. eexists. split; [by rewrite ztake_0 by lia|]. done.
    + intros Hr. destruct (IH _ _ _ _ _ _ _ ltac:(done) Es Hr) as (Hk & Hl & a2 & Hr2 & He). rewrite zlen_app in Hl. change (zlen [b]) with 1 in Hl. split; [lia|]. split; [lia|].
      exists a2. split; [done|]. rewrite <- !app_assoc in He. destruct e1; [done|]. destruct He as [-> ->]. split; [lia|done].
Qed.

(** ** The framer's state as the machine's *)
Section Refine.
Context {P : Type}.
Abbreviation reasm := (lk_reasm hlog P http_frame).
Abbreviation conn := (lk_conn P http_frame).
Implicit Types (r : reasm) (c : conn) (f : lk_frame) (x : http_dir) (hf : http_frame) (a : hstream) (d : lk_dir) (p q : list Z) (ts : Z).
Definition log_msg d (m : lk_msg) (l : hlog) : hlog :=
  if m_type m =? LK_HTTP_MSG_DATA then log_add d (EvData (m_len m)) l
  else if m_type m =? LK_HTTP_MSG_END then log_add d (EvEnd (m_len m) (m_ts_ns m)) l
  else if m_type m =? LK_HTTP_MSG_NOTE then log_add d (EvNote (m_len m)) l
  else if m_type m =? LK_HTTP_MSG_ERRB then l
  else log_add d (EvHead (m_type m) (m_ts_ns m) (m_body m)) l.
Definition recorder : lk_msg_sink hlog P http_frame := Sink (Some (fun l c d m => (log_msg d m l, c))) None None.

(** The ring holds the queue. *)
Definition slot (h i : Z) : nat := Z.to_nat ((h + i) mod LK_HTTP_MAX_INFLIGHT).
Record ring hf (q : list Z) : Prop := Ring {
  ri_len : length (hf_pend hf) = Z.to_nat LK_HTTP_MAX_INFLIGHT;
  ri_head : 0 <= hf_pend_head hf < LK_HTTP_MAX_INFLIGHT;
  ri_n : hf_pend_n hf = zlen q;
  ri_max : zlen q <= LK_HTTP_MAX_INFLIGHT;
  ri_at : forall i, 0 <= i < zlen q -> nth (slot (hf_pend_head hf) i) (hf_pend hf) 0 = znth q i;
  ri_skew : hf_pend_skew hf = false }.
Definition calm f : Prop := f_st f <> LK_FR_DIRTY /\ f_after_resync f = false.
Definition dmatch f x (m : hmode) : Prop :=
  match m with
  | MHead acc atl ts0 =>
      hd_st x = HTTP_FR_HEAD /\ hd_body_seen x = 0 /\
      match acc with [] => f_buf f = None | _ => f_buf f = Some acc /\ hd_atline x = atl /\ hd_head_ts x = ts0 end
  | MBody n seen => hd_st x = HTTP_FR_BODY /\ hd_body_seen x = seen /\ f_buf f = None /\ hd_body_left x = n /\ 1 <= n
  | MChunk cs dig val n atl seen =>
      hd_st x = HTTP_FR_CHUNK /\ hd_body_seen x = seen /\ f_buf f = None /\ hd_chunk_st x = cs /\
      match cs with
      | HTTP_CH_SIZE | HTTP_CH_EXT | HTTP_CH_SIZE_LF => hd_chunk_dig x = dig /\ hd_chunk_val x = val /\ 0 <= dig <= 16 /\ 0 <= val < 16 ^ dig
      | HTTP_CH_DATA => hd_chunk_left x = n /\ 1 <= n /\ dig = 0 /\ val = 0 /\ atl = false
      | HTTP_CH_DATA_EOL => True
      | HTTP_CH_TRAILER => hd_atline x = atl /\ dig = 0 /\ val = 0 /\ n = 0
      end
  | MClose seen => hd_st x = HTTP_FR_CLOSE /\ hd_body_seen x = seen /\ f_buf f = None
  end.
(** Of direction [d], the frame and the state; of the other, what [a] says. *)
Definition rel d f x r c a : Prop :=
  r_sink r = recorder /\ r_oom r = [] /\ r_ctx r = hs_log a /\ has_flag (c_flags c) LK_CONN_IGNORE = false /\ calm f /\ calm (frame c (other d)) /\
  frame c d = f /\ exists hf, c_frame_state c = Some hf /\ ring hf (hs_pend a) /\ hf_lf_noted hf = hs_lf a /\ hf_d hf d = x /\
  dmatch (frame c (other d)) (hf_d hf (other d)) (hs_mode a (other d)).
Definition sim r c a : Prop := forall d, exists f x, rel d f x r c a /\ dmatch f x (hs_mode a d).
Lemma rel_sim d f x r c a : rel d f x r c a -> dmatch f x (hs_mode a d) -> sim r c a.
Proof.
  intros H D d'. destruct (decide (d' = d)) as [->|]; [by exists f, x|]. replace d' with (other d) by (by destruct d, d'). destruct H as (H1 & H2 & H3 & H4 & H5 & H6 & H7 & hf & E & H8 & H9 & H10 & H11).
  exists (frame c (other d)), (hf_d hf (other d)). split; [|done]. assert (other (other d) = d) as Eo by by destruct d.
  split; [done|]. split; [done|]. split; [done|]. split; [done|]. split; [done|]. rewrite Eo, H7. split; [done|]. split; [done|]. exists hf. rewrite H10. done.
Qed.
Lemma rel_dir d f x r c a g : rel d f x r c a -> rel d f (g x) r (upd_dir c d g) a.
Proof.
  intros (H1 & H2 & H3 & H4 & H5 & H6 & H7 & hf & E & [] & H9 & H10 & H11). do 7 (split; [done|]). exists (hf_upd d g hf). unfold upd_dir, upd_fr. cbn [c_frame_state upd]. rewrite E. split; [done|].
  split; [by destruct d|]. split; [by destruct d|]. subst x. by destruct d.
Qed.
Lemma rel_frame d f x r c a g : rel d f x r c a -> calm (g f) -> rel d (g f) x r (upd_frame c d g) a.
Proof.
  intros (H1 & H2 & H3 & H4 & H5 & H6 & H7 & hf & E & H8) Hg. do 3 (split; [done|]). split; [by destruct d|]. split; [done|]. split; [by destruct d|]. split; [subst f; by destruct d|]. exists hf. by destruct d.
Qed.
Lemma rel_mode d f x r c a m : rel d f x r c a -> rel d f x r c (to_mode d m a).
Proof. unfold rel. rewrite hs_mode_other. by destruct d. Qed.
Lemma rel_at d f x r c a : rel d f x r c a -> frame c d = f /\ dir_of c d = x.
Proof. intros (_ & _ & _ & _ & _ & _ & H7 & hf & E & _ & _ & H10 & _). unfold dir_of, fr_of. by rewrite E. Qed.
Lemma rel_emit d f x r c a type len body ts : rel d f x r c a ->
  exists r', emit r c d type len body 0 ts = (r', c) /\ rel d f x r' c (a <| hs_log ::= log_msg d (Msg ts type 0 len body) |>).
Proof.
  intros (H1 & H2 & H3 & H4 & [H5 H5'] & H6 & H7 & H8). unfold emit, lk_reasm_emit, stamp_resync. rewrite H7, H5'. cbn [m_flags]. change (has_flag 0 LK_MSG_BODY_TRUNC) with false. cbn iota. unfold deliver.
  cbn [r_sink bump upd]. rewrite H1. cbn [on_msg recorder r_ctx]. eexists. split; [done|]. split; [done|]. split; [done|]. split; [cbn; by rewrite H3|]. done.
Qed.

(** ** Operations *)
Lemma rel_note d f x r c a n ts : rel d f x r c a -> exists r', note r c d n ts = (r', c) /\ rel d f x r' c (say d (EvNote (http_note_code n)) a).
Proof.
  intros H. unfold note. rewrite (proj1 (rel_at _ _ _ _ _ _ H)). destruct H as (? & ? & ? & ? & [Hs ?] & Hrest). destruct (rel_emit d f x r c a LK_HTTP_MSG_NOTE (http_note_code n) [] ts) as (r' & E & H'); [done|].
  exists r'. split; [|done]. rewrite <- E. by destruct (f_st f).
Qed.
Lemma body_add_rel d f x r c a src n ts : rel d f x r c a -> 1 <= n < 2 ^ 32 ->
  exists r' c' e, body_add r c d src n ts = (r', c') /\ rel d f (x <| hd_err_want := e |> <| hd_body_seen := u64 (hd_body_seen x + n) |>) r' c' (say d (EvData n) a).
Proof.
  intros H Hn. unfold body_add. destruct (Z.eqb_spec n 0); [lia|]. destruct (rel_at _ _ _ _ _ _ H) as [_ Ex]. rewrite Ex. cbv zeta.
  assert (exists r1 c1 e, (let '(r0, c0) := match hd_err_want x, src with
     | true, Some p => emit r (if hd_err_want x then upd_dir c d (fun x0 => x0 <| hd_err_want := false |>) else c) d LK_HTTP_MSG_ERRB (if LK_HTTP_ERRB_MAX <? n then LK_HTTP_ERRB_MAX else n) (ztake (if LK_HTTP_ERRB_MAX <? n then LK_HTTP_ERRB_MAX else n) p) 0 ts
     | _, _ => (r, if hd_err_want x then upd_dir c d (fun x0 => x0 <| hd_err_want := false |>) else c) end in (r0, c0)) = (r1, c1) /\ rel d f (x <| hd_err_want := e |>) r1 c1 a) as (r1 & c1 & e & E1 & H1).
  { pose proof (rel_dir d f x r c a (fun x => x <| hd_err_want := false |>) H) as H'. destruct (hd_err_want x) eqn:Ew.
    - destruct src as [p|]; [|by exists r, (upd_dir c d (fun x => x <| hd_err_want := false |>)), false]. match goal with |- context [emit r ?c0 d ?t ?k ?b 0 ts] => destruct (rel_emit d f _ r c0 a t k b ts H') as (r' & -> & H2) end.
      eexists _, _, false. split; [reflexivity|]. destruct a. exact H2.
    - exists r, c, false. split; [done|]. replace (x <| hd_err_want := false |>) with x; [done|]. destruct x. cbn in *. by subst. }
  set (m := match hd_err_want x with true => _ | false => _ end) in *. destruct m as [r0 c0]. injection E1 as -> ->.
  pose proof (rel_dir _ _ _ _ _ _ (fun x => x <| hd_body_seen ::= fun s => u64 (s + n) |>) H1) as H2. unfold sat32. destruct (Z.ltb_spec (2 ^ 32 - 1) n); [lia|].
  destruct (rel_emit _ _ _ _ _ _ LK_HTTP_MSG_DATA n [] ts H2) as (r3 & -> & H3). by exists r3, (upd_dir c1 d (fun x => x <| hd_body_seen ::= fun s => u64 (s + n) |>)), e.
Qed.
Lemma body_end_rel d f x r c a ts : rel d f x r c a ->
  exists r' c' x', body_end r c d ts = (r', c') /\ rel d f x' r' c' (fin d (hd_body_seen x) ts a) /\ hd_st x' = HTTP_FR_HEAD /\ hd_body_seen x' = 0.
Proof.
  intros H. unfold body_end. rewrite (proj2 (rel_at _ _ _ _ _ _ H)). destruct (rel_emit d f x r c a LK_HTTP_MSG_END (sat32 (hd_body_seen x)) [] ts H) as (r' & -> & H1). eexists _, _, _. split; [reflexivity|].
  split; [apply rel_mode, rel_dir, H1|done].
Qed.
Lemma rel_fr d f x r c a a' g : (forall hf, ring hf (hs_pend a) -> hf_lf_noted hf = hs_lf a -> ring (g hf) (hs_pend a') /\ hf_lf_noted (g hf) = hs_lf a') -> (forall hf d', hf_d (g hf) d' = hf_d hf d') ->
  hs_log a' = hs_log a -> (forall d', hs_mode a' d' = hs_mode a d') -> rel d f x r c a -> rel d f x r (upd_fr c g) a'.
Proof.
  intros Hg Hd El Em (H1 & H2 & H3 & H4 & H5 & H6 & H7 & hf & E & H8 & H9 & H10 & H11). unfold rel. rewrite El. do 7 (split; [done|]). exists (g hf). unfold upd_fr. cbn [c_frame_state upd]. rewrite E, !Hd, Em.
  destruct (Hg hf H8 H9). done.
Qed.
Lemma lf_rel d f x r c a h ts : rel d f x r c a ->
  exists r' c', note_lf r c d h ts = (r', c') /\ rel d f x r' c' (lf_seen d (has_flag (hh_flags h) HTTP_HEAD_LF_ONLY) a).
Proof.
  intros H. unfold note_lf, lf_seen. assert (hf_lf_noted (fr_of c) = hs_lf a) as -> by (destruct H as (_ & _ & _ & _ & _ & _ & _ & hf & E & _ & H9 & _); unfold fr_of; by rewrite E).
  destruct (_ && _); [|by exists r, c]. match goal with |- context [note r ?c0 d ?n ts] => destruct (rel_note d f x r c0 (a <| hs_lf := true |>) n ts) as (r' & -> & H') end; [|by eexists _, _].
  apply (rel_fr d f x r c a); [intros hf [] _; by split|by intros hf []|done|by intros []|done].
Qed.
Lemma hslot_inj h i j : 0 <= i < LK_HTTP_MAX_INFLIGHT -> 0 <= j < LK_HTTP_MAX_INFLIGHT -> slot h i = slot h j -> i = j.
Proof.
  intros Hi Hj E. unfold slot in E. pose proof (Z.mod_pos_bound (h + i) LK_HTTP_MAX_INFLIGHT ltac:(done)). pose proof (Z.mod_pos_bound (h + j) LK_HTTP_MAX_INFLIGHT ltac:(done)). apply Z2Nat.inj in E; try lia.
  pose proof (Z.div_mod (h + i) LK_HTTP_MAX_INFLIGHT ltac:(done)). pose proof (Z.div_mod (h + j) LK_HTTP_MAX_INFLIGHT ltac:(done)). unfold LK_HTTP_MAX_INFLIGHT in *. lia.
Qed.
Lemma hslot_lt h i : (slot h i < Z.to_nat LK_HTTP_MAX_INFLIGHT)%nat.
Proof. unfold slot. pose proof (Z.mod_pos_bound (h + i) LK_HTTP_MAX_INFLIGHT ltac:(done)). unfold LK_HTTP_MAX_INFLIGHT in *. lia. Qed.
Lemma nth_insert_other (l : list Z) i j v : i <> j -> nth i (<[j:=v]> l) 0 = nth i l 0.
Proof. intros Hne. by rewrite !nth_lookup, list_lookup_insert_ne by done. Qed.
Lemma push_ring hf q v : ring hf q -> zlen q < LK_HTTP_MAX_INFLIGHT ->
  ring (hf <| hf_pend ::= <[slot (hf_pend_head hf) (hf_pend_n hf) := v]> |> <| hf_pend_n ::= fun n => n + 1 |>) (q ++ [v]).
Proof.
  intros [] Hq. assert (zlen (q ++ [v]) = zlen q + 1) as El by by rewrite zlen_app. split; cbn [hf_pend hf_pend_head hf_pend_n hf_pend_skew upd]; rewrite ?El; try done; try lia; [by rewrite length_insert|].
  intros i Hi. rewrite ri_n0. destruct (Z.eq_dec i (zlen q)) as [->|Hne].
  - rewrite nth_lookup, list_lookup_insert_eq by (rewrite ri_len0; apply hslot_lt). cbn. unfold znth, zlen. by rewrite Nat2Z.id, nth_middle.
  - rewrite nth_insert_other by (intros E; apply hslot_inj in E; unfold LK_HTTP_MAX_INFLIGHT in *; lia). rewrite ri_at0 by lia. unfold znth. rewrite app_nth1; [done|]. unfold zlen in *. lia.
Qed.
Lemma push_rel f x r c a v ts : rel LK_DIR_RECV f x r c a -> zlen (hs_pend a) < LK_HTTP_MAX_INFLIGHT ->
  exists c', pend_push r c v ts = (r, c') /\ rel LK_DIR_RECV f x r c' (a <| hs_pend ::= fun q => q ++ [v] |>).
Proof.
  intros H Hl. unfold pend_push. assert (hf_pend_n (fr_of c) = zlen (hs_pend a)) as E by (destruct H as (_ & _ & _ & _ & _ & _ & _ & hf & E & [] & _); unfold fr_of; by rewrite E).
  cbv zeta. rewrite E. destruct (Z.leb_spec LK_HTTP_MAX_INFLIGHT (zlen (hs_pend a))); [lia|]. eexists. split; [reflexivity|].
  destruct H as (H1 & H2 & H3 & H4 & H5 & H6 & H7 & hf & Ef & H8 & H9 & H10 & H11). do 7 (split; [done|]). unfold upd_fr, fr_of in *. cbn [c_frame_state upd]. rewrite Ef in *. cbn [fmap option_fmap option_map default from_option] in *.
  eexists. split; [reflexivity|]. split; [|done]. pose proof (push_ring hf (hs_pend a) v H8 Hl) as Hp. unfold slot, id in *. cbn in *. exact Hp.
Qed.
Lemma pop_ring hf q : ring hf q -> (pend_pop hf).1 = List.hd 0 q /\ ring (pend_pop hf).2 (tail q).
Proof.
  intros R. pose proof R as []. unfold pend_pop. rewrite ri_n0. destruct q as [|v q]; [change (zlen (A:=Z) [] =? 0) with true; cbn [negb fst snd]; rewrite ri_skew0; by split|]. clear R. rewrite zlen_cons in *. pose proof (zlen_nonneg q). destruct (Z.eqb_spec (zlen q + 1) 0); [lia|]. cbn [negb].
  assert (nth (Z.to_nat (hf_pend_head hf)) (hf_pend hf) 0 = v) as Ev. { specialize (ri_at0 0 ltac:(lia)). unfold slot in ri_at0. rewrite Z.add_0_r, Z.mod_small in ri_at0 by lia. exact ri_at0. }
  assert (u8 ((hf_pend_head hf + 1) mod LK_HTTP_MAX_INFLIGHT) = (hf_pend_head hf + 1) mod LK_HTTP_MAX_INFLIGHT) as Eu.
  { pose proof (Z.mod_pos_bound (hf_pend_head hf + 1) LK_HTTP_MAX_INFLIGHT ltac:(done)). unfold u8. rewrite Z.mod_small; [done|]. unfold LK_HTTP_MAX_INFLIGHT in *. lia. }
  assert (ring (hf <| hf_pend_head ::= fun h => u8 ((h + 1) mod LK_HTTP_MAX_INFLIGHT) |> <| hf_pend_n ::= fun n => n - 1 |>) q) as Hr.
  { split; cbn [hf_pend hf_pend_head hf_pend_n hf_pend_skew upd]; rewrite ?Eu; try done; try lia; [by apply Z.mod_pos_bound|]. intros i Hi. specialize (ri_at0 (i + 1) ltac:(lia)).
    replace (znth (v :: q) (i + 1)) with (znth q i) in ri_at0 by (unfold znth; replace (Z.to_nat (i + 1)) with (Datatypes.S (Z.to_nat i)) by lia; done). rewrite <- ri_at0. unfold slot. f_equal. f_equal. rewrite Z.add_mod_idemp_l by done. f_equal. lia. }
  cbv zeta. cbn [hf_pend_n upd]. destruct (Z.eqb_spec (hf_pend_n hf - 1) 0).
  - cbn [fst snd hf_pend_skew upd]. split; [done|]. destruct Hr. by split.
  - cbn [fst snd hf_pend_skew upd tail List.hd]. rewrite ri_skew0. split; [done|]. destruct Hr. by split.
Qed.
Lemma pop_rel d f x r c a : rel d f x r c a -> (pend_pop (fr_of c)).1 = List.hd 0 (hs_pend a) /\ rel d f x r (upd_fr c (fun hf => (pend_pop hf).2)) (a <| hs_pend ::= tail |>).
Proof.
  intros H. split.
  - destruct H as (_ & _ & _ & _ & _ & _ & _ & hf & E & Hr & _). unfold fr_of. rewrite E. by apply pop_ring.
  - apply (rel_fr d f x r c a); [|intros hf d'|done|by intros []|done].
    + intros hf Hr Hl. split; [by apply pop_ring|]. change (hf_lf_noted (pend_pop hf).2 = hs_lf a). rewrite <- Hl. unfold pend_pop. destruct (negb _); [|done]. cbv zeta. by destruct (hf_pend_n _ =? 0).
    + unfold pend_pop. destruct (negb _); [|done]. cbv zeta. by destruct (hf_pend_n _ =? 0); destruct d'.
Qed.

(** ** A complete head *)
Lemma body_next d f x r c a ts w : rel d f x r c a -> hd_st x = HTTP_FR_HEAD -> hd_body_seen x = 0 ->
  (match w with FCounted n => 1 <= n | _ => True end) -> forall r' c',
  match w with
  | FNone => body_end r c d ts
  | FCounted n => (r, enter_body c d n)
  | FChunked => (r, enter_chunk c d)
  | FClose => (r, set_st c d HTTP_FR_CLOSE)
  end = (r', c') ->
  exists x', rel d f x' r' c' (then_body d ts w a) /\ dmatch (f <| f_buf := None |>) x' (hs_mode (then_body d ts w a) d).
Proof.
  intros H Hs H0 Hw r' c' E. destruct w as [|n| |]; cbn [then_body].
  - destruct (body_end_rel d f x r c a ts H) as (r1 & c1 & x1 & E1 & H1 & H2 & H3). rewrite E1 in E. injection E as <- <-. exists x1. rewrite H0 in H1. split; [done|]. unfold fin. by rewrite hs_mode_to.
  - injection E as <- <-. eexists. split; [apply rel_mode, rel_dir, H|]. by rewrite hs_mode_to.
  - injection E as <- <-. eexists. split; [apply rel_mode, rel_dir, H|]. by rewrite hs_mode_to.
  - injection E as <- <-. eexists. split; [apply rel_mode, rel_dir, H|]. by rewrite hs_mode_to.
Qed.
Definition completed d f r c a1 (res : reasm * conn) : Prop :=
  exists r' c' x', res = (r', c') /\ rel d f x' r' c' a1 /\ dmatch (f <| f_buf := None |>) x' (hs_mode a1 d).
Lemma request_rel f x r c a a1 h line head ts ts0 : rel LK_DIR_RECV f x r c a -> hd_st x = HTTP_FR_HEAD -> hd_body_seen x = 0 -> hd_head_ts x = ts0 ->
  http_head_line (http_head_init head) = (Some line, h) -> on_request ts ts0 head a = Some a1 -> completed LK_DIR_RECV f r c a1 (request_complete r c LK_DIR_RECV h line head ts).
Proof.
  intros H Hs H0 Ht El Ho. unfold on_request, head_info in Ho. rewrite El in Ho. unfold request_complete. fold (is_preface head). destruct (read_fields (fields_fuel h) h http_framing0) as [[ok h'] fr] eqn:Ef.
  pose proof (HttpSafe.read_fields_range (fields_fuel h) h http_framing0 ltac:(by cbn)) as Hr. rewrite Ef in Hr. cbn [snd] in Hr.
  destruct (negb ok); [done|]. destruct (fr_bad_cl fr); [done|]. cbn [orb] in Ho. destruct (fr_te_present fr && fr_have_cl fr); [done|]. cbn [mbind option_bind] in Ho.
  destruct (http_parse_req_line line) as [[[m t] v]|]; [|done]. cbn [mbind option_bind] in Ho. destruct (is_preface head); [done|]. cbn [orb] in Ho. destruct (fr_te_present fr && negb (fr_te_chunked fr)); [done|]. cbn [orb] in Ho.
  destruct (Z.leb_spec LK_HTTP_MAX_INFLIGHT (zlen (hs_pend a))) as [|Hq]; [done|]. apply (inj Some) in Ho. subst a1. cbv zeta. fold (request_flags m (fr_rq fr)).
  destruct (lf_rel LK_DIR_RECV f x r c a h' ts H) as (r1 & c1 & -> & H1). rewrite (proj2 (rel_at _ _ _ _ _ _ H1)), Ht.
  destruct (rel_emit LK_DIR_RECV f x r1 c1 _ LK_HTTP_MSG_REQ (zlen head) head ts0 H1) as (r2 & -> & H2). set (a2 := upd _ _) in H2 || idtac.
  match type of H2 with rel _ _ _ _ _ ?a2 => destruct (push_rel f x r2 c1 a2 (request_flags m (fr_rq fr)) ts H2) as (c3 & -> & H3) end.
  { unfold lf_seen. destruct (_ && _); exact Hq. }
  match type of H3 with rel _ _ _ _ _ ?a3 => set (a4 := a3) in * end. change (completed LK_DIR_RECV f r c (then_body LK_DIR_RECV ts (request_follow fr) a4)
    (if fr_te_chunked fr then (r2, enter_chunk c3 LK_DIR_RECV) else if fr_have_cl fr && negb (fr_clen fr =? 0) then (r2, enter_body c3 LK_DIR_RECV (fr_clen fr)) else body_end r2 c3 LK_DIR_RECV ts)).
  destruct (if fr_te_chunked fr then _ else _) as [r5 c5] eqn:E5. exists r5, c5. destruct (body_next LK_DIR_RECV f x r2 c3 a4 ts (request_follow fr) H3 Hs H0) with (r' := r5) (c' := c5) as (x' & H6 & H7); [| |by exists x'].
  - unfold request_follow. destruct (fr_te_chunked fr); [done|]. destruct (Z.eqb_spec (fr_clen fr) 0), (fr_have_cl fr); cbn; try done. lia.
  - unfold request_follow. destruct (fr_te_chunked fr); [exact E5|]. destruct (fr_have_cl fr && negb (fr_clen fr =? 0)); exact E5.
Qed.
Lemma response_rel f x r c a a1 h line head ts ts0 : rel LK_DIR_SEND f x r c a -> hd_st x = HTTP_FR_HEAD -> hd_body_seen x = 0 -> hd_head_ts x = ts0 ->
  http_head_line (http_head_init head) = (Some line, h) -> on_response ts ts0 head a = Some a1 -> completed LK_DIR_SEND f r c a1 (response_complete r c LK_DIR_SEND h line head ts).
Proof.
  intros H Hs H0 Ht El Ho. unfold on_response, head_info in Ho. rewrite El in Ho. unfold response_complete. destruct (read_fields (fields_fuel h) h http_framing0) as [[ok h'] fr] eqn:Ef.
  pose proof (HttpSafe.read_fields_range (fields_fuel h) h http_framing0 ltac:(by cbn)) as Hr. rewrite Ef in Hr. cbn [snd] in Hr.
  destruct (negb ok); [done|]. destruct (fr_bad_cl fr); [done|]. cbn [orb] in Ho. destruct (fr_te_present fr && fr_have_cl fr); [done|]. cbn [mbind option_bind] in Ho.
  destruct (http_parse_status_line (sp_b line)) as [[code v]|]; [|done]. cbn [mbind option_bind] in Ho. cbv zeta in *. destruct (code =? 101); [done|].
  destruct (lf_rel LK_DIR_SEND f x r c a h' ts H) as (r1 & c1 & -> & H1). rewrite (proj2 (rel_at _ _ _ _ _ _ H1)), Ht. destruct (code <? 200).
  { apply (inj Some) in Ho. subst a1. destruct (rel_emit LK_DIR_SEND f x r1 c1 _ LK_HTTP_MSG_INTER (zlen head) head ts0 H1) as (r2 & -> & H2). eexists _, _, _. split; [reflexivity|]. split; [apply rel_mode, rel_dir, H2|]. by rewrite hs_mode_to. }
  destruct (pop_rel LK_DIR_SEND f x r1 c1 _ H1) as [-> H2]. set (a2 := lf_seen _ _ _) in *. set (rq := List.hd 0 (hs_pend a2)) in *. destruct (has_flag rq HTTP_RQ_CONNECT && (code <? 300)) eqn:Ec; [done|]. apply (inj Some) in Ho. subst a1.
  rewrite (proj2 (rel_at _ _ _ _ _ _ H2)), Ht. destruct (rel_emit LK_DIR_SEND f x r1 _ _ LK_HTTP_MSG_RESP (zlen head) head ts0 H2) as (r3 & -> & H3).
  match goal with |- context [upd_dir ?c0 LK_DIR_SEND ?g] => pose proof (rel_dir _ _ _ _ _ _ g H3) as H4; set (c4 := upd_dir c0 LK_DIR_SEND g) in * end. cbv beta in H4. set (x4 := upd _ _) in H4 || idtac.
  unfold response_body. rewrite Ec. match type of H4 with rel _ _ ?x0 _ _ ?a0 => set (a5 := a0) in *; set (x5 := x0) in * end.
  change (completed LK_DIR_SEND f r c (then_body LK_DIR_SEND ts (response_follow rq code fr) a5) (if has_flag rq HTTP_RQ_HEAD || (code =? 204) || (code =? 304) then body_end r3 c4 LK_DIR_SEND ts
    else if fr_te_chunked fr then (r3, enter_chunk c4 LK_DIR_SEND) else if fr_te_present fr then (r3, set_st c4 LK_DIR_SEND HTTP_FR_CLOSE)
    else if fr_have_cl fr then if negb (fr_clen fr =? 0) then (r3, enter_body c4 LK_DIR_SEND (fr_clen fr)) else body_end r3 c4 LK_DIR_SEND ts else (r3, set_st c4 LK_DIR_SEND HTTP_FR_CLOSE))).
  destruct (if has_flag rq HTTP_RQ_HEAD || (code =? 204) || (code =? 304) then _ else _) as [r6 c6] eqn:E6. exists r6, c6.
  destruct (body_next LK_DIR_SEND f x5 r3 c4 a5 ts (response_follow rq code fr) H4 Hs H0) with (r' := r6) (c' := c6) as (x' & H6 & H7); [| |by exists x'].
  - unfold response_follow. destruct (_ || _); [done|]. destruct (fr_te_chunked fr); [done|]. destruct (fr_te_present fr); [done|]. destruct (fr_have_cl fr); [|done]. destruct (Z.eqb_spec (fr_clen fr) 0); [done|lia].
  - unfold response_follow. destruct (_ || _); [exact E6|]. destruct (fr_te_chunked fr); [exact E6|]. destruct (fr_te_present fr); [exact E6|]. destruct (fr_have_cl fr); [|exact E6]. by destruct (fr_clen fr =? 0).
Qed.
Lemma head_complete_rel d f x r c a a1 head ts ts0 : rel d f x r c a -> hd_st x = HTTP_FR_HEAD -> hd_body_seen x = 0 -> hd_head_ts x = ts0 ->
  on_head d ts ts0 head a = Some a1 -> completed d f r c a1 (head_complete r c d head ts).
Proof.
  intros H Hs H0 Ht Ho. unfold head_complete. destruct (http_head_line (http_head_init head)) as [[line|] h] eqn:El.
  - destruct d; [by eapply response_rel|by eapply request_rel].
  - exfalso. unfold on_head, on_request, on_response, head_info in Ho. rewrite El in Ho. by destruct d.
Qed.

(** ** Consuming the bytes of a segment: some of them, as the machine does *)
Definition ate d ts a p (res : reasm * conn * list Z) : Prop :=
  exists p1 a1, p = p1 ++ res.2 /\ p1 <> [] /\ hrun d ts a p1 = Some a1 /\ sim res.1.1 res.1.2 a1.
Lemma ate_take d ts a a1 p k r c : 1 <= k <= zlen p -> hrun d ts a (ztake k p) = Some a1 -> sim r c a1 -> ate d ts a p (r, c, zdrop k p).
Proof.
  intros Hk Hr Hs. exists (ztake k p), a1. split; [by cbn [snd]; rewrite ztake_zdrop|]. split; [|done]. intros E. pose proof (zlen_ztake k p ltac:(lia)) as El. rewrite E in El. change (zlen (A:=Z) []) with 0 in El. lia.
Qed.
Lemma buf_drop_rel d f x r c a : rel d f x r c a -> exists r' c', buf_drop r c d = (r', c') /\ rel d (f <| f_buf := None |>) x r' c' a.
Proof.
  intros H. unfold buf_drop. rewrite (proj1 (rel_at _ _ _ _ _ _ H)). assert (calm (f <| f_buf := None |>)) as Hc by (destruct H as (_ & _ & _ & _ & Hc & _); exact Hc). destruct (f_buf f) as [b|] eqn:Eb.
  - eexists _, _. split; [reflexivity|]. apply (rel_frame d f x _ c a (fun f => f <| f_buf := None |>)); [|done]. unfold lk_reasm_buf_put, buf_put. destruct H as (H1 & H2 & H3 & H4). by destruct (_ <? _).
  - exists r, c. split; [done|]. replace (f <| f_buf := None |>) with f; [done|]. destruct f. cbn in *. by subst.
Qed.
Lemma append_rel d f x r c a b q : rel d f x r c a -> f_buf f = Some b -> rel d (f <| f_buf := Some (b ++ q) |>) x r (buf_append c d q) a.
Proof.
  intros H Eb. unfold buf_append. match goal with |- context [upd_frame c d ?g] => pose proof (rel_frame d f x r c a g H) as H1 end. cbv beta in H1. destruct f. cbn in *. subst. apply H1. by destruct H as (_ & _ & _ & _ & Hc & _).
Qed.
(** The head that is open, with its bytes so far. *)
Definition held f (acc : list Z) : Prop := match acc with [] => f_buf f = None | _ => f_buf f = Some acc end.
Lemma held_len f acc : held f acc -> buf_len f = zlen acc.
Proof. unfold held, buf_len, buf_bytes. by destruct acc; intros ->. Qed.
Lemma drop_none f : f_buf f = None -> f <| f_buf := None |> = f.
Proof. destruct f. cbn. by intros ->. Qed.
Lemma head_block_rel d f x r c a a' acc ts ts0 p : p <> [] -> rel d f x r c a -> held f acc -> hd_st x = HTTP_FR_HEAD -> hd_body_seen x = 0 -> hd_head_ts x = ts0 ->
  head_run d ts acc (hd_atline x) ts0 a p = Some a' ->
  exists r' c' k a1, head_block r c d p ts = (r', c', zdrop k p) /\ 1 <= k <= zlen p /\ head_run d ts acc (hd_atline x) ts0 a (ztake k p) = Some a1 /\ sim r' c' a1.
Proof.
  intros Hp H Hh Hs H0 Ht Hr. unfold head_block. rewrite (proj2 (rel_at _ _ _ _ _ _ H)). destruct (scan_block p (hd_atline x)) as [[k atl] ended] eqn:Es.
  destruct (head_run_scan d ts ts0 p acc (hd_atline x) a k atl ended a' Hp Es Hr) as (Hk & Hl & a1 & Hk1 & He).
  pose proof (rel_dir _ _ _ _ _ _ (fun x => x <| hd_atline := atl |>) H) as H1. set (c1 := upd_dir c d _) in *. clearbody c1. clear H.
  rewrite (proj1 (rel_at _ _ _ _ _ _ H1)), (held_len f acc Hh). destruct (Z.ltb_spec LK_MSG_BODY_MAX (zlen acc + k)); [lia|].
  destruct ended; cbn [negb].
  - destruct (Z.eqb_spec (zlen acc) 0) as [E0|E0].
    + apply zlen_0 in E0. subst acc. cbn [app] in He. destruct (head_complete_rel d f _ r c1 a a1 (ztake k p) ts ts0 H1 Hs H0 Ht He) as (r2 & c2 & x2 & -> & H2 & D2). exists r2, c2, k, a1. split; [done|]. split; [done|]. split; [done|].
      rewrite drop_none in D2 by done. by eapply rel_sim.
    + destruct acc as [|b acc]; [done|]. pose proof (append_rel _ _ _ _ _ _ (b :: acc) (ztake k p) H1 Hh) as H2. set (c2 := buf_append _ _ _) in *. clearbody c2.
      assert (buf_bytes (frame c2 d) = (b :: acc) ++ ztake k p) as Eb by (rewrite (proj1 (rel_at _ _ _ _ _ _ H2)); done). rewrite Eb.
      destruct (head_complete_rel d _ _ r c2 a a1 _ ts ts0 H2 Hs H0 Ht He) as (r3 & c3 & x3 & -> & H3 & D3). destruct (buf_drop_rel _ _ _ _ _ _ H3) as (r4 & c4 & -> & H4). exists r4, c4, k, a1. split; [done|]. split; [done|]. split; [done|].
      by eapply rel_sim.
  - destruct He as [-> ->]. assert (forall r c, rel d (f <| f_buf := Some (acc ++ ztake (zlen p) p) |>) (x <| hd_atline := atl |>) r c a -> sim r c (to_mode d (MHead (acc ++ p) atl ts0) a)) as Hsim.
    { intros r2 c2 H2. rewrite ztake_all in H2 by done. eapply rel_sim; [by apply rel_mode|]. rewrite hs_mode_to. split; [done|]. split; [done|]. destruct (acc ++ p) eqn:E; [by apply app_nil in E as [_ ?]|]. done. }
    destruct acc as [|b acc]; cbn [held] in Hh; rewrite Hh; cbn [negb].
    + assert (exists r1, lk_reasm_buf_get r = (true, r1) /\ rel d f (x <| hd_atline := atl |>) r1 c1 a) as (r1 & -> & H2).
      { unfold lk_reasm_buf_get, buf_get, malloc. destruct H1 as (? & Eo & ? & ?). rewrite Eo. destruct (negb _); by eexists. }
      cbn [negb]. assert (calm (f <| f_buf := Some [] |>)) as Hc by (destruct H2 as (_ & _ & _ & _ & Hc & _); exact Hc). pose proof (rel_frame _ _ _ _ _ _ (fun f => f <| f_buf := Some [] |>) H2 Hc) as H3.
      pose proof (append_rel _ _ _ _ _ _ [] (ztake (zlen p) p) H3 ltac:(done)) as H4. eexists _, _, (zlen p), _. split; [reflexivity|]. split; [done|]. split; [done|]. by apply Hsim.
    + pose proof (append_rel _ _ _ _ _ _ (b :: acc) (ztake (zlen p) p) H1 Hh) as H2. eexists _, _, (zlen p), _. split; [reflexivity|]. split; [done|]. split; [done|]. by apply Hsim.
Qed.
Lemma hrun_crlf d ts p : forall a atl ts0, hs_mode a d = MHead [] atl ts0 -> Forall (fun b => is_crlf_byte b = true) p -> hrun d ts a p = Some a.
Proof. induction p as [|b p IH]; intros a atl ts0 Em Hp; [done|]. apply Forall_cons_iff in Hp as [Hb Hp]. cbn [hrun]. unfold hstep. rewrite Em, Hb. cbn [mbind option_bind]. by eapply IH. Qed.
Lemma to_mode_id d a : to_mode d (hs_mode a d) a = a.
Proof. by destruct a, d. Qed.
Lemma sim_rel d r c a : sim r c a -> exists f x, rel d f x r c a /\ dmatch f x (hs_mode a d).
Proof. intros H. apply H. Qed.
Lemma head_feed_rel d r c a a' acc atl ts0 ts p : p <> [] -> sim r c a -> hs_mode a d = MHead acc atl ts0 -> hrun d ts a p = Some a' -> ate d ts a p (head_feed r c d p ts).
Proof.
  intros Hp Hsim Em Hr. destruct (sim_rel d r c a Hsim) as (f & x & H & D). rewrite Em in D. destruct D as (Hs & H0 & Hb). assert (held f acc) as Hh by (destruct acc; [done|apply Hb]).
  unfold head_feed. rewrite (proj1 (rel_at _ _ _ _ _ _ H)), (held_len f acc Hh). destruct acc as [|b0 acc].
  - change (zlen (A:=Z) [] =? 0) with true. cbn iota. destruct (span_spec is_crlf_byte p) as (Ep & Hc & Hstop). destruct (span is_crlf_byte p) as [p0 q]. cbn [fst snd] in *. destruct q as [|b q].
    + exists p, a. cbn [snd]. split; [by rewrite app_nil_r|]. split; [done|]. split; [|done]. rewrite Ep, app_nil_r in *. by eapply hrun_crlf.
    + cbn in Hstop. set (g := fun x : http_dir => x <| hd_head_ts := ts |> <| hd_atline := true |>). pose proof (rel_dir _ _ _ _ _ _ g H) as H1. rewrite Ep, hrun_app, (hrun_crlf d ts p0 a atl ts0 Em Hc) in Hr. cbn [mbind option_bind] in Hr.
      assert (forall q', hrun d ts a (b :: q') = head_run d ts [] true ts a (b :: q')) as Hrun by (intros q'; cbn [hrun head_run]; unfold hstep; rewrite Em; by rewrite Hstop). rewrite Hrun in Hr.
      destruct (head_block_rel d f (g x) r (upd_dir c d g) a a' [] ts ts (b :: q) ltac:(done) H1 Hh Hs H0 eq_refl Hr) as (r' & c' & k & a1 & -> & Hk & Hr1 & Hs1).
      exists (p0 ++ ztake k (b :: q)), a1. split; [rewrite Ep; cbn [snd]; by rewrite <- app_assoc, ztake_zdrop|]. rewrite ztake_cons in * by lia. split; [by destruct p0|]. split; [|done].
      rewrite hrun_app, (hrun_crlf d ts p0 a atl ts0 Em Hc). cbn [mbind option_bind]. by rewrite Hrun.
  - destruct (Z.eqb_spec (zlen (b0 :: acc)) 0) as [E|_]; [by apply zlen_0 in E|]. destruct Hb as (_ & Ha & Ht). assert (forall q, q <> [] -> hrun d ts a q = head_run d ts (b0 :: acc) atl ts0 a q) as Hrun by (intros [|b q]; [done|]; intros _; cbn [hrun head_run]; unfold hstep; by rewrite Em).
    rewrite Hrun in Hr by done. rewrite <- Ha in Hr. destruct (head_block_rel d f x r c a a' (b0 :: acc) ts ts0 p Hp H Hh Hs H0 Ht Hr) as (r' & c' & k & a1 & -> & Hk & Hr1 & Hs1). apply ate_take with a1; [done| |done].
    rewrite Hrun, <- Ha; [done|]. destruct p; [done|]. by rewrite ztake_cons by lia.
Qed.

(** ** Chunked bodies *)
Lemma chunk_one d r c a a1 ts b q c' x' f cs : hstep d ts a b = Some a1 -> rel d f x' r c' a -> hs_mode a1 d = cs -> a1 = to_mode d cs a -> dmatch f x' cs -> ate d ts a (b :: q) (r, c', zdrop 1 (b :: q)).
Proof.
  intros Hs H Em Ea D. apply ate_take with a1; [rewrite zlen_cons; pose proof (zlen_nonneg q); lia| |].
  - rewrite ztake_cons, ztake_0 by lia. cbn [hrun]. by rewrite Hs.
  - eapply rel_sim; [rewrite Ea; by apply rel_mode|]. by rewrite Em.
Qed.
Lemma chunk_step_rel d r c a a' cs dig val n atl seen ts p : p <> [] -> zlen p < 2 ^ 32 -> sim r c a -> hs_mode a d = MChunk cs dig val n atl seen -> hrun d ts a p = Some a' ->
  exists res, chunk_step r c d p ts = Some res /\ ate d ts a p res.
Proof.
  intros Hp Hl Hsim Em Hr. destruct (sim_rel d r c a Hsim) as (f & x & H & D). rewrite Em in D. destruct D as (Hs & Hseen & Hb & Hcs & D). unfold chunk_step. destruct (rel_at _ _ _ _ _ _ H) as [_ Ex]. rewrite Ex, Hcs.
  destruct p as [|b q]; [done|]. change (znth (b :: q) 0) with b. cbv zeta. cbn [hrun] in Hr. destruct (hstep d ts a b) as [a1|] eqn:Est; [|done]. clear Hr.
  assert (hstep d ts a b = chunk_byte d ts cs dig val n atl seen b a) as Eb by (unfold hstep; by rewrite Em). pose proof Est as Est0. rewrite Eb in Est.
  assert (forall g m, a1 = to_mode d m a -> dmatch f (g x) m -> exists res, Some (r, upd_dir c d g, zdrop 1 (b :: q)) = Some res /\ ate d ts a (b :: q) res) as Hset.
  { intros g m Ea Dm. eexists. split; [reflexivity|]. eapply (chunk_one d r c a a1 ts b q); [exact Est0|by apply rel_dir| |exact Ea|exact Dm]. by rewrite Ea, hs_mode_to. }
  assert (forall dg v, hd_chunk_dig x = dg -> hd_chunk_val x = v -> 0 <= dg <= 16 -> 0 <= v < 16 ^ dg -> dmatch f (chunk_size_done x) (size_end v seen)) as Hdone.
  { intros dg v E1 E2 Hd Hv. unfold chunk_size_done, size_end. cbv zeta. cbn [hd_chunk_val upd]. rewrite E2. destruct (Z.eqb_spec v 0); cbn; [done|]. repeat (split; [done|]). split; [lia|done]. }
  destruct cs; cbn [chunk_byte] in Est.
  - destruct D as (E1 & E2 & Hd & Hv). destruct (Z.leb_spec 0 (http_hex_val b)) as [Hh|Hh].
    + rewrite E1. destruct (Z.leb_spec 16 dig); [done|]. apply (inj Some) in Est. eapply Hset; [by symmetry|]. pose proof (hex_val_range b). cbn. repeat (split; [done|]). rewrite E1, E2.
      assert (16 ^ (dig + 1) = 16 ^ dig * 16) as Ep by (rewrite Z.pow_add_r; lia). assert (16 ^ (dig + 1) <= 16 ^ 16) as Hpow by (apply Z.pow_le_mono_r; lia). change (16 ^ 16) with (2 ^ 64) in Hpow.
      split; [done|]. split; [unfold u64; rewrite Z.mod_small; lia|]. lia.
    + rewrite E1. destruct (dig =? 0); [done|]. destruct (b =? ch ";"); [apply (inj Some) in Est; by eapply Hset; [by symmetry|]|]. destruct (b =? 13); [apply (inj Some) in Est; by eapply Hset; [by symmetry|]|].
      destruct (b =? 10); [|done]. apply (inj Some) in Est. eapply Hset; [by symmetry|]. by eapply Hdone.
  - destruct D as (E1 & E2 & Hd & Hv). destruct (b =? 13); [apply (inj Some) in Est; by eapply Hset; [by symmetry|]|]. destruct (b =? 10); apply (inj Some) in Est; eapply Hset; try (by symmetry); [by eapply Hdone|by destruct x].
  - destruct D as (E1 & E2 & Hd & Hv). destruct (b =? 10); [|done]. cbn [negb]. apply (inj Some) in Est. eapply Hset; [by symmetry|]. by eapply Hdone.
  - destruct D as (E1 & E2 & -> & -> & ->). clear Est Hset. rewrite E1. set (p := b :: q) in *. set (take := if n <? zlen p then n else zlen p). assert (1 <= zlen p) as Hl1 by (subst p; rewrite zlen_cons; pose proof (zlen_nonneg q); lia).
    assert (1 <= take <= zlen p /\ take <= n) as [Ht Ht'] by (subst take; destruct (Z.ltb_spec n (zlen p)); lia).
    destruct (body_add_rel d f x r c a (Some p) take ts H ltac:(lia)) as (r1 & c1 & e & -> & H1). pose proof (rel_dir _ _ _ _ _ _ (fun x => x <| hd_chunk_left ::= fun m => m - take |>) H1) as H2. eexists. split; [reflexivity|].
    rewrite (proj2 (rel_at _ _ _ _ _ _ H2)). cbn [hd_chunk_left upd]. assert (zlen (ztake take p) = take) as El by (rewrite zlen_ztake; lia).
    assert (ztake take p <> []) as Hne by (intros E; rewrite E in El; change (zlen (A:=Z) []) with 0 in El; lia). pose proof (hrun_data d ts (ztake take p) n seen a Hne ltac:(lia)) as Hr1. rewrite El in Hr1.
    assert (to_mode d (MChunk HTTP_CH_DATA 0 0 n false seen) a = a) as Ea by (rewrite <- Em; apply to_mode_id). rewrite Ea in Hr1. eapply ate_take; [lia|exact Hr1|]. rewrite E1. replace (n - take =? 0) with (take =? n) by lia. destruct (Z.eqb_spec take n).
    + pose proof (rel_dir _ _ _ _ _ _ (fun x => x <| hd_chunk_st := HTTP_CH_DATA_EOL |>) H2) as H3. eapply rel_sim; [apply rel_mode, H3|]. rewrite hs_mode_to. cbn. by rewrite Hseen.
    + eapply rel_sim; [apply rel_mode, H2|]. rewrite hs_mode_to. cbn. rewrite Hseen, E1. repeat (split; [done|]). split; [lia|done].
  - destruct (b =? 13); [apply (inj Some) in Est; eapply Hset; [by symmetry|by destruct x]|]. destruct (b =? 10); [|done]. apply (inj Some) in Est. by eapply Hset; [by symmetry|].
  - destruct D as (E1 & -> & -> & ->). clear Est Hset. set (p := b :: q) in *. rewrite E1. destruct (scan_block p atl) as [[k atl'] ended] eqn:Es. destruct (hrun_trailer d ts p atl seen a k atl' ended ltac:(done) Es) as [Hk Hr1].
    assert (to_mode d (MChunk HTTP_CH_TRAILER 0 0 0 atl seen) a = a) as Ea by (rewrite <- Em; apply to_mode_id). rewrite Ea in Hr1. pose proof (rel_dir _ _ _ _ _ _ (fun x => x <| hd_atline := atl' |>) H) as H1. destruct ended.
    + destruct (body_end_rel _ _ _ _ _ _ ts H1) as (r2 & c2 & x2 & -> & H2 & H3 & H4). eexists. split; [reflexivity|]. eapply ate_take; [done|exact Hr1|]. cbn [hd_body_seen upd] in H2. rewrite Hseen in H2. eapply rel_sim; [exact H2|]. unfold fin. by rewrite hs_mode_to.
    + eexists. split; [reflexivity|]. eapply ate_take; [done|exact Hr1|]. eapply rel_sim; [by apply rel_mode|]. by rewrite hs_mode_to.
Qed.
Lemma sim_dir d r c a : sim r c a -> exists f, dmatch f (dir_of c d) (hs_mode a d).
Proof. intros H. destruct (sim_rel d r c a H) as (f & x & H1 & D). exists f. by rewrite (proj2 (rel_at _ _ _ _ _ _ H1)). Qed.
(** Zero or more bytes. *)
Definition ran d ts a p (res : reasm * conn * list Z) : Prop :=
  exists p1 a1, p = p1 ++ res.2 /\ hrun d ts a p1 = Some a1 /\ sim res.1.1 res.1.2 a1.
Lemma ate_ran d ts a p r c q res : ate d ts a p (r, c, q) -> (forall a1 a', hrun d ts a p = Some a' -> hrun d ts a1 q = Some a' -> sim r c a1 -> ran d ts a1 q res) -> forall a', hrun d ts a p = Some a' -> ate d ts a p res.
Proof.
  intros (p1 & a1 & Ep & Hne & Hr & Hs) Hq a' Ha. cbn [fst snd] in *. destruct (Hq a1 a' Ha) as (p2 & a2 & Eq & Hr2 & Hs2); [rewrite Ep, hrun_app, Hr in Ha; exact Ha|done|].
  exists (p1 ++ p2), a2. split; [by rewrite Ep, Eq, app_assoc|]. split; [by destruct p1|]. split; [|done]. rewrite hrun_app, Hr. exact Hr2.
Qed.
Lemma chunk_feed_rel d ts fuel : forall r c a a' p, zlen p < 2 ^ 32 -> sim r c a -> hrun d ts a p = Some a' ->
  ran d ts a p (chunk_feed fuel r c d p ts).1 /\ (forall cs dig val n atl seen, hs_mode a d = MChunk cs dig val n atl seen -> p <> [] -> fuel <> O -> ate d ts a p (chunk_feed fuel r c d p ts).1).
Proof.
  induction fuel as [|fuel IH]; intros r c a a' p Hl Hsim Hr.
  { assert (ran d ts a p (r, c, p)) as Hn by by exists [], a. split; [|done]. cbn [chunk_feed]. destruct p; [done|]. by destruct (negb _). }
  assert (forall p0 : list Z, p0 = p -> ran d ts a p (r, c, p0)) as Hnone by (intros ? ->; by exists [], a). cbn [chunk_feed]. destruct p as [|b p]; [by split; [apply Hnone|]|].
  destruct (sim_dir d r c a Hsim) as [f D]. destruct (hs_mode a d) as [acc atl ts0|n seen|cs dig val n atl seen|seen] eqn:Em.
  1,2,4: destruct D as (Hs & _); rewrite Hs, bool_decide_false by done; cbn [negb]; by split; [apply Hnone|].
  destruct D as (Hs & _). rewrite Hs, bool_decide_true by done. cbn [negb]. destruct (chunk_step_rel d r c a a' cs dig val n atl seen ts (b :: p) ltac:(done) Hl Hsim Em Hr) as ([[r1 c1] q] & -> & Ha).
  assert (ate d ts a (b :: p) (chunk_feed fuel r1 c1 d q ts).1) as Hate.
  { eapply ate_ran; [exact Ha| |exact Hr]. intros a1 a2 _ Hr2 Hs2. eapply IH; [|done|done]. destruct Ha as (p1 & _ & Ep & _). apply (f_equal zlen) in Ep. rewrite zlen_app in Ep. cbn [snd] in Ep. pose proof (zlen_nonneg p1). lia. }
  split; [|done]. destruct Hate as (p1 & a1 & ? & ? & ?). by exists p1, a1.
Qed.
Lemma http_step_rel d ts r c a a' p : p <> [] -> zlen p < 2 ^ 32 -> sim r c a -> hrun d ts a p = Some a' -> ate d ts a p (http_step r c d p ts).
Proof.
  intros Hp Hl Hsim Hr. destruct (sim_rel d r c a Hsim) as (f & x & H & D). unfold http_step. rewrite (proj2 (rel_at _ _ _ _ _ _ H)). destruct (hs_mode a d) as [acc atl ts0|n seen|cs dig val n atl seen|seen] eqn:Em; destruct D as (Hs & D); rewrite Hs.
  - by eapply head_feed_rel.
  - destruct D as (Hseen & Hb & E1 & E2). rewrite E1. set (take := if n <? zlen p then n else zlen p). assert (1 <= zlen p) as Hl1 by (destruct p; [done|]; rewrite zlen_cons; pose proof (zlen_nonneg p); lia).
    assert (1 <= take <= zlen p /\ take <= n) as [Ht Ht'] by (subst take; destruct (Z.ltb_spec n (zlen p)); lia).
    destruct (body_add_rel d f x r c a (Some p) take ts H ltac:(lia)) as (r1 & c1 & e & -> & H1). pose proof (rel_dir _ _ _ _ _ _ (fun x => x <| hd_body_left ::= fun m => m - take |>) H1) as H2. cbv zeta.
    rewrite (proj2 (rel_at _ _ _ _ _ _ H2)). match goal with |- context [if hd_body_left ?y =? 0 then _ else _] => replace (hd_body_left y) with (n - take) by (cbn; lia) end. assert (zlen (ztake take p) = take) as El by (rewrite zlen_ztake; lia).
    assert (ztake take p <> []) as Hne by (intros E; rewrite E in El; change (zlen (A:=Z) []) with 0 in El; lia). pose proof (hrun_body d ts (ztake take p) n seen a Hne ltac:(lia)) as Hr1. rewrite El in Hr1.
    assert (to_mode d (MBody n seen) a = a) as Ea by (rewrite <- Em; apply to_mode_id). rewrite Ea in Hr1. replace (n - take =? 0) with (take =? n) by lia. destruct (Z.eqb_spec take n).
    + destruct (body_end_rel _ _ _ _ _ _ ts H2) as (r3 & c3 & x3 & -> & H3 & H4 & H5). eapply ate_take; [lia|exact Hr1|]. cbn [hd_body_seen upd] in H3. rewrite Hseen in H3. eapply rel_sim; [exact H3|]. unfold fin. by rewrite hs_mode_to.
    + eapply ate_take; [lia|exact Hr1|]. eapply rel_sim; [apply rel_mode, H2|]. rewrite hs_mode_to. cbn. rewrite Hseen, E1. repeat (split; [done|]). lia.
  - eapply chunk_feed_rel; try done. by unfold chunk_fuel; lia.
  - destruct D as (Hseen & Hb). assert (1 <= zlen p) as Hl1 by (destruct p; [done|]; rewrite zlen_cons; pose proof (zlen_nonneg p); lia). destruct (body_add_rel d f x r c a (Some p) (zlen p) ts H ltac:(lia)) as (r1 & c1 & e & -> & H1).
    pose proof (hrun_close d ts p seen a Hp) as Hr1. assert (to_mode d (MClose seen) a = a) as Ea by (rewrite <- Em; apply to_mode_id). rewrite Ea in Hr1. exists p. eexists. cbn [fst snd]. split; [by rewrite app_nil_r|]. split; [done|]. split; [exact Hr1|].
    eapply rel_sim; [apply rel_mode, H1|]. rewrite hs_mode_to. cbn. by rewrite Hseen.
Qed.
Lemma http_loop_rel d ts fuel : forall r c a a' p, (length p <= fuel)%nat -> zlen p < 2 ^ 32 -> sim r c a -> hrun d ts a p = Some a' -> sim (http_loop fuel r c d p ts).1.1 (http_loop fuel r c d p ts).1.2 a'.
Proof.
  induction fuel as [|fuel IH]; intros r c a a' p Hf Hl Hsim Hr.
  { destruct p; [|cbn in Hf; lia]. by injection Hr as <-. }
  cbn [http_loop]. destruct p as [|b p]; [by injection Hr as <-|]. destruct (http_step_rel d ts r c a a' (b :: p) ltac:(done) Hl Hsim Hr) as (p1 & a1 & Ep & Hne & Hr1 & Hs1). destruct (http_step r c d (b :: p) ts) as [[r1 c1] q]. cbn [fst snd] in *.
  assert (has_flag (c_flags c1) LK_CONN_IGNORE = false) as -> by (destruct (sim_rel d _ _ _ Hs1) as (f & x & (_ & _ & _ & Hfl & _) & _); exact Hfl).
  assert (zlen q < zlen (b :: p)) as Hq by (rewrite Ep, zlen_app; destruct p1; [done|]; rewrite zlen_cons; pose proof (zlen_nonneg p1); lia). destruct (Z.eqb_spec (zlen q) (zlen (b :: p))); [lia|]. cbn [andb].
  apply (IH r1 c1 a1 a' q); [unfold zlen in Hq; lia|lia|done|]. rewrite Ep, hrun_app, Hr1 in Hr. exact Hr.
Qed.

(** ** The hook *)
Lemma stream_bytes_rel d ts r c a a' p : zlen p < 2 ^ 32 -> sim r c a -> mistaken d a p = false -> hrun d ts a p = Some a' ->
  sim (http_stream_bytes r c d p ts).1 (http_stream_bytes r c d p ts).2 a'.
Proof.
  intros Hl Hsim Hm Hr. unfold http_stream_bytes, http_frame_get. destruct (sim_rel d r c a Hsim) as (f & x & H & D). assert (exists hf, c_frame_state c = Some hf) as [hf Ef] by (destruct H as (_ & _ & _ & _ & _ & _ & _ & hf & E & _); by exists hf).
  rewrite Ef. cbn [negb]. set (g := fun x : http_dir => x <| hd_events ::= inc64 |> <| hd_off ::= fun o => u64 (o + zlen p) |> <| hd_last_ts := ts |>). pose proof (rel_dir _ _ _ _ _ _ g H) as H1.
  assert (dmatch f (g x) (hs_mode a d)) as D1 by (destruct (hs_mode a d) as [[]| | |]; exact D). set (c1 := upd_dir c d g) in *. clearbody c1. destruct (rel_at _ _ _ _ _ _ H1) as [Ef1 Ex1]. rewrite Ex1, Ef1.
  assert (tls_record_head d (g x) p = false) as ->.
  { unfold tls_record_head. destruct (bool_decide_reflect (hd_st (g x) = HTTP_FR_HEAD)) as [Es|Es]; [|cbn [negb]; by rewrite orb_true_r]. unfold mistaken in Hm.
    destruct (hs_mode a d) as [acc atl ts0|n seen|cs dig val n atl seen|seen]; try (destruct D1 as (Es' & _); congruence). assert ((znth p 0 =? 0x16) = false) as -> by exact Hm. cbn [negb orb]. by destruct (_ || _). }
  assert (body_unseen d (g x) p = false) as Eu.
  { unfold body_unseen. destruct d; [|done]. destruct (bool_decide_reflect (hd_st (g x) = HTTP_FR_BODY)) as [Es|Es]; [|done]. unfold mistaken in Hm. destruct (hs_mode a LK_DIR_SEND) as [acc atl ts0|n seen|cs dig val n atl seen|seen]; try (destruct D1 as (Es' & _); congruence).
    destruct D1 as (_ & -> & _). destruct seen; [exact Hm|done..]. }
  destruct H1 as (HA & HB & HC & HD & [Hst Haf] & Hrest). replace (match f_st f with LK_FR_DIRTY => _ | _ => _ end) with (r, c1) by (by destruct (f_st f)). rewrite Ex1, Eu.
  eapply http_loop_rel; [unfold http_fuel; lia|done| |done]. eapply (rel_sim d f (g x)); [|exact D1]. done.
Qed.
End Refine.

(** ** The whole capture *)
Section Capture.
Context {P : Type}.
Abbreviation reasm := (lk_reasm hlog P http_frame).
Abbreviation conn := (lk_conn P http_frame).
Definition feed (rc : reasm * conn) (s : lk_dir * Z * list Z) : reasm * conn := http_stream_bytes rc.1 rc.2 s.1.1 s.2 s.1.2.
Definition feeds (cookie : Z) (ss : list (lk_dir * Z * list Z)) : reasm * conn := foldl feed (lk_reasm_init [] recorder [], conn0 cookie) ss.
Definition captured (s : lk_dir * Z * list Z) : Prop := zlen s.2 < 2 ^ 32.
Definition started (cookie : Z) : reasm * conn := (lk_reasm_init [] recorder [], conn0 cookie <| c_frame_state := Some http_frame0 |>).
Lemma started_sim cookie : sim (started cookie).1 (started cookie).2 hs0.
Proof. intros d. exists frame0, http_dir0. split; [|by destruct d]. do 7 (split; [by destruct d|]). exists http_frame0. split; [done|]. split; [split; try done; unfold znth; cbn; intros i Hi; change (zlen (A:=Z) []) with 0 in Hi; lia|]. split; [done|]. by destruct d. Qed.
Lemma feed_sim rc s a a' : captured s -> sim rc.1 rc.2 a -> hrun_segs a [s] = Some a' -> sim (feed rc s).1 (feed rc s).2 a'.
Proof.
  destruct s as [[d ts] p]. intros Hl Hs Hr. cbn [hrun_segs] in Hr. destruct (mistaken d a p) eqn:Em; [done|]. destruct (hrun d ts a p) as [a1|] eqn:Er; [|done]. cbn in Hr. injection Hr as <-. by eapply stream_bytes_rel.
Qed.
Lemma feeds_sim ss : forall rc a a', Forall captured ss -> sim rc.1 rc.2 a -> hrun_segs a ss = Some a' -> sim (foldl feed rc ss).1 (foldl feed rc ss).2 a'.
Proof.
  induction ss as [|[[d ts] p] ss IH]; intros rc a a' Hc Hs Hr; [by injection Hr as <-|]. apply Forall_cons_iff in Hc as [Hp Hc]. cbn [hrun_segs] in Hr. destruct (mistaken d a p) eqn:Em; [done|]. destruct (hrun d ts a p) as [a1|] eqn:Er; [|done].
  cbn [mbind option_bind] in Hr. cbn [foldl]. apply (IH _ a1); [done| |done]. apply (feed_sim rc (d, ts, p) a); [done..|]. cbn [hrun_segs]. by rewrite Em, Er.
Qed.
Lemma feed_first cookie s : feed (lk_reasm_init [] recorder [], conn0 cookie) s = feed (started cookie) s.
Proof. by destruct s as [[d ts] p]. Qed.

Lemma feeds_exact cookie ss a : Forall captured ss -> hrun_segs hs0 ss = Some a ->
  r_ctx (feeds cookie ss).1 = hs_log a /\ has_flag (c_flags (feeds cookie ss).2) LK_CONN_IGNORE = false.
Proof.
  intros Hc Hr. destruct ss as [|s ss]; [by injection Hr as <-|]. unfold feeds. cbn [foldl]. rewrite feed_first. pose proof (feeds_sim (s :: ss) (started cookie) hs0 a Hc (started_sim cookie) Hr) as H. cbn [foldl] in H.
  destruct (H LK_DIR_SEND) as (f & x & (_ & _ & H1 & H2 & _) & _). done.
Qed.

(** C6: The HTTP framer computes the byte machine, wherever the capture cuts the two
    directions and however it interleaves them: for every sequence of segments that the
    machine accepts, what the consumer has been told - the heads with their times, the
    body bytes, the ends of the messages - is what the machine says, and the connection is still
    followed. *)
Theorem http_frame_refines cookie ss a : Forall captured ss -> hrun_segs hs0 ss = Some a ->
  r_ctx (feeds cookie ss).1 = hs_log a /\ has_flag (c_flags (feeds cookie ss).2) LK_CONN_IGNORE = false.
Proof. apply feeds_exact. Qed.
End Capture.

(** ** A witness *)
Definition CRLF := [13; 10].
Definition w_req := lit "POST /a HTTP/1.1" ++ CRLF ++ lit "Content-Length: 3" ++ CRLF ++ CRLF ++ lit "xyz".
Definition w_resp := lit "HTTP/1.1 200 OK" ++ CRLF ++ lit "Transfer-Encoding: chunked" ++ CRLF ++ CRLF ++ lit "2" ++ CRLF ++ lit "ok" ++ CRLF ++ lit "0" ++ CRLF ++ CRLF.
Definition w_cut := [(LK_DIR_RECV, 5, ztake 20 w_req); (LK_DIR_RECV, 6, zdrop 20 w_req); (LK_DIR_SEND, 7, ztake 50 w_resp); (LK_DIR_SEND, 9, zdrop 50 w_resp)].
Lemma http_frame_refines_witness : exists a, hrun_segs hs0 w_cut = Some a /\ r_ctx (feeds (P := unit) 7 w_cut).1 = hs_log a /\
  map snd (rev (hs_log a)) = [EvHead LK_HTTP_MSG_REQ 5 (ztake 39 w_req); EvData 3; EvEnd 3 6; EvHead LK_HTTP_MSG_RESP 7 (ztake 47 w_resp); EvData 2; EvEnd 2 9].
Proof.
  eexists. split; [vm_compute; reflexivity|]. split; [|vm_compute; reflexivity]. refine (proj1 (http_frame_refines 7 w_cut _ _ _)); [repeat constructor; vm_compute; reflexivity|vm_compute; reflexivity].
Defined.
