(* ===== verification/HttpMsg.v ===== *)
(** HTTP/1.x messages as they are written, and the framer's reading of them: what it
    reports of well-formed pipelined traffic, wherever the capture cuts it. *)
From Stdlib Require Import Ascii String.
From stdpp Require Import base list option.
From S2P Require Import Prelude Conn Proto Reassembly StreamSafe NormRoute HttpWire HttpFrame HttpSafe HttpRefine.
#[local] Open Scope Z_scope.
Implicit Types (d : lk_dir) (p q k w : list Z) (a : hstream).

#[local] Arguments to_mode : simpl never.
#[local] Arguments say : simpl never.
#[local] Arguments fin : simpl never.
#[local] Arguments log_add : simpl never.

(** ** Times aside *)
Definition unstamp_ev (e : hev) : hev := match e with EvHead t _ h => EvHead t 0 h | EvEnd n _ => EvEnd n 0 | e => e end.
Definition unstamp (l : hlog) : hlog := map (fun x => (x.1, unstamp_ev x.2)) l.
Definition unstamp_mode (m : hmode) : hmode := match m with MHead acc atl _ => MHead acc atl 0 | m => m end.
Definition untimed a : hstream := HStream (unstamp_mode (hs_send a)) (unstamp_mode (hs_recv a)) (hs_pend a) (hs_lf a) (unstamp (hs_log a)).

#[local] Arguments untimed : simpl never.
Lemma log_add_unstamp d e l : unstamp (log_add d e l) = log_add d (unstamp_ev e) (unstamp l).
Proof. destruct e; try done. destruct l as [|[d' []] l]; try done. unfold log_add. cbn. by destruct (bool_decide _). Qed.
Lemma untimed_say d e a : untimed (say d e a) = say d (unstamp_ev e) (untimed a).
Proof. destruct a. unfold untimed, say. cbn -[log_add]. by rewrite log_add_unstamp. Qed.
Lemma untimed_to d m a : untimed (to_mode d m a) = to_mode d (unstamp_mode m) (untimed a).
Proof. by destruct d, a. Qed.
Lemma untimed_mode d a : hs_mode (untimed a) d = unstamp_mode (hs_mode a d).
Proof. by destruct d. Qed.
Lemma unstamp_unstamp l : unstamp (unstamp l) = unstamp l.
Proof. unfold unstamp. rewrite map_map. apply map_ext. by intros [d []]. Qed.
Lemma untimed_untimed a : untimed (untimed a) = untimed a.
Proof. destruct a as [ms mr q lf l]. unfold untimed. cbn -[unstamp]. rewrite unstamp_unstamp. by destruct ms, mr. Qed.
Lemma untimed_fin d seen ts a : untimed (fin d seen ts a) = fin d seen 0 (untimed a).
Proof. unfold fin. by rewrite untimed_to, untimed_say. Qed.
Lemma untimed_body d ts (w : follow) a : untimed (then_body d ts w a) = then_body d 0 w (untimed a).
Proof. destruct w; cbn [then_body]; [apply untimed_fin|by rewrite untimed_to..]. Qed.
Lemma untimed_lf d lf a : untimed (lf_seen d lf a) = lf_seen d lf (untimed a).
Proof. unfold lf_seen. cbn [hs_lf untimed]. destruct (_ && _); [|done]. by rewrite untimed_say. Qed.
Lemma on_head_untimed d ts ts0 head a : untimed <$> on_head d ts ts0 head a = on_head d 0 0 head (untimed a).
Proof.
  destruct d; unfold on_head, on_request, on_response; (destruct (head_info head) as [[[line lf] fr]|]; cbn [mbind option_bind fmap option_fmap option_map]; [|done]).
  - destruct (http_parse_status_line _) as [[code v]|]; cbn [mbind option_bind fmap option_fmap option_map]; [|done]. cbv zeta. rewrite <- untimed_lf. destruct (code =? 101); [done|].
    destruct (code <? 200); [cbn; by rewrite untimed_to, untimed_say|]. change (hs_pend (untimed ?x)) with (hs_pend x). destruct (_ && _); [done|]. cbn [fmap option_fmap option_map]. by rewrite untimed_body, untimed_say.
  - destruct (http_parse_req_line line) as [[[m t] v]|]; cbn [mbind option_bind fmap option_fmap option_map]; [|done]. change (hs_pend (untimed a)) with (hs_pend a). destruct (_ || _); [done|]. cbn [fmap option_fmap option_map]. cbv zeta.
    rewrite untimed_body. rewrite <- untimed_lf. f_equal.
Qed.
Lemma hstep_untimed d ts a b : untimed <$> hstep d ts a b = untimed <$> hstep d 0 (untimed a) b.
Proof.
  unfold hstep. rewrite untimed_mode. assert (forall acc atl ts0, untimed <$> head_byte d ts acc atl ts0 b a = untimed <$> head_byte d 0 acc atl 0 b (untimed a)) as Hh.
  { intros acc atl ts0. unfold head_byte. destruct (_ <? _); [done|]. destruct (_ && _); [|cbn; by rewrite !untimed_to, untimed_untimed]. rewrite !on_head_untimed. by rewrite untimed_untimed. }
  destruct (hs_mode a d) as [[|b0 acc] atl ts0|n seen|cs dig val n atl seen|seen]; cbn [unstamp_mode].
  - destruct (is_crlf_byte b); [cbn; by rewrite untimed_untimed|apply Hh].
  - apply Hh.
  - cbv zeta. destruct (n =? 1); cbn; by rewrite ?untimed_fin, ?untimed_to, !untimed_say, untimed_untimed.
  - unfold chunk_byte. cbv zeta. destruct cs; repeat case_match; cbn; rewrite ?untimed_fin, ?untimed_to, ?untimed_say, ?untimed_untimed; done.
  - cbn. by rewrite !untimed_to, !untimed_say, untimed_untimed.
Qed.
Lemma mistaken_untimed d a p : mistaken d (untimed a) p = mistaken d a p.
Proof. unfold mistaken. rewrite untimed_mode. by destruct (hs_mode a d). Qed.


(** ** Runs that no cut of the bytes disturbs *)
(** [w] is read from [a] and leads to [a'], with [k] to come after it. *)
Inductive runs d k : list Z -> hstream -> hstream -> Prop :=
  | RunsNil a : runs d k [] a a
  | RunsCons b w a a1 a' : mistaken d a (b :: w ++ k) = false -> hstep d 0 a b = Some a1 -> runs d k w a1 a' -> runs d k (b :: w) a a'.
Lemma hruns_app d k w1 w2 a a1 a' : runs d (w2 ++ k) w1 a a1 -> runs d k w2 a1 a' -> runs d k (w1 ++ w2) a a'.
Proof. induction 1 as [|b w a a2 a3 Hm Hs _ IH]; intros H; [done|]. cbn [app]. econstructor; [by rewrite <- app_assoc|done|]. by apply IH. Qed.
Lemma mistaken_prefix d a p q : mistaken d a (p ++ q) = false -> p <> [] -> mistaken d a p = false.
Proof.
  intros H Hp. unfold mistaken in *. destruct (hs_mode a d) as [acc atl ts0|n []| |]; try (by destruct d); [by destruct p|]. destruct d; [|done]. destruct (Z.leb_spec 9 (zlen p)) as [H9|]; [|done].
  assert (forall i, 0 <= i < zlen p -> znth (p ++ q) i = znth p i) as Hn by (intros i Hi; unfold znth; rewrite app_nth1; [done|]; unfold zlen in *; lia). rewrite !Hn, ztake_app_le in H by lia.
  assert ((9 <=? zlen (p ++ q)) = true) as E9 by (apply Z.leb_le; rewrite zlen_app; pose proof (zlen_nonneg q); lia). rewrite E9 in H. exact H.
Qed.
Lemma runs_hrun d k ts p : forall q a b a', untimed a = untimed b -> runs d k (p ++ q) b a' -> exists a1 b1, hrun d ts a p = Some a1 /\ untimed a1 = untimed b1 /\ runs d k q b1 a'.
Proof.
  induction p as [|x p IH]; intros q a b a' Eab H; [by exists a, b|]. cbn [app] in H. inversion H as [|? ? ? b1 ? Hm Hs Hr]; subst. cbn [hrun].
  assert (untimed <$> hstep d ts a x = Some (untimed b1)) as Hs' by (rewrite hstep_untimed, Eab, <- (hstep_untimed d 0 b x), Hs; done). destruct (hstep d ts a x) as [a1|]; [|done]. apply (inj Some) in Hs'. cbn [mbind option_bind].
  destruct (IH q a1 b1 a') as (a2 & b2 & I1 & I2 & I3); [done|done|]. by exists a2, b2.
Qed.
(** A cut of one direction's bytes. *)
Definition cut_of d (cut : list (Z * list Z)) : list (lk_dir * Z * list Z) := map (fun s => (d, s.1, s.2)) cut.
Lemma runs_cut d k cut : forall a b a', untimed a = untimed b -> runs d k (concat (map snd cut)) b a' -> exists a1, hrun_segs a (cut_of d cut) = Some a1 /\ untimed a1 = untimed a'.
Proof.
  induction cut as [|[ts p] cut IH]; intros a b a' Eab H; cbn [map concat cut_of hrun_segs fst snd] in *; [inversion H; subst; by exists a|].
  assert (mistaken d a p = false) as ->.
  { rewrite <- mistaken_untimed, Eab, mistaken_untimed. destruct p as [|x p]; [unfold mistaken; by destruct (hs_mode b d) as [| n []| |], d|]. cbn [app] in H. inversion H; subst. eapply (mistaken_prefix d b (x :: p) (concat (map snd cut) ++ k)); [|done]. cbn [app]. by rewrite app_assoc. }
  destruct (runs_hrun d k ts p _ a b a' Eab H) as (a1 & b1 & -> & E1 & H1). cbn [mbind option_bind]. by eapply IH.
Qed.
Lemma hrun_segs_app ss : forall a ss', hrun_segs a (ss ++ ss') = a ← hrun_segs a ss; hrun_segs a ss'.
Proof. induction ss as [|[[d ts] p] ss IH]; intros a ss'; [done|]. cbn [app hrun_segs]. destruct (mistaken d a p); [done|]. destruct (hrun d ts a p); [|done]. cbn [mbind option_bind]. apply IH. Qed.

(** ** Heads as they are written *)
Abbreviation field := (list Z * list Z)%type.
Definition show_field (f : field) : list Z := f.1 ++ lit ": " ++ f.2 ++ CRLF.
Definition show_fields (fs : list field) : list Z := concat (map show_field fs).
Definition show_head (line : list Z) (fs : list field) : list Z := line ++ CRLF ++ show_fields fs ++ CRLF.
(** A byte of a line: not a LF, nor the first of a TLS record. *)
Definition line_byte (b : Z) : Prop := b <> 10 /\ b <> 0x16.
Definition trimmed (v : list Z) : Prop := stops http_is_ows v /\ stops http_is_ows (rev v).
Definition field_ok (f : field) : Prop := f.1 <> [] /\ Forall (fun b => http_is_tchar b = true) f.1 /\ Forall line_byte f.2 /\ trimmed f.2.
Definition line_ok (l : list Z) : Prop := Forall line_byte l /\ match l with [] => False | b :: _ => b <> 13 end.

Lemma tchar_byte b : http_is_tchar b = true -> line_byte b /\ b <> 13 /\ http_is_ows b = false /\ until (ch ":") b = true.
Proof.
  intros H. unfold line_byte. destruct (decide (b = 10)) as [->|]; [done|]. destruct (decide (b = 0x16)) as [->|]; [done|]. destruct (decide (b = 13)) as [->|]; [done|]. split; [done|]. split; [done|].
  destruct (decide (b = 32)) as [->|]; [done|]. destruct (decide (b = 9)) as [->|]; [done|]. destruct (decide (b = ch ":")) as [->|]; [done|]. unfold http_is_ows, until. split; lia.
Qed.
Lemma field_line_ok f : field_ok f -> line_ok (f.1 ++ lit ": " ++ f.2).
Proof.
  intros (Hn & Ht & Hv & _). split.
  - apply Forall_app. split; [refine (Forall_impl _ _ Ht); intros b Hb; by apply tchar_byte|]. apply Forall_app. split; [by repeat constructor|done].
  - destruct f.1 as [|b n]; [done|]. cbn. apply Forall_cons_iff in Ht as [Hb _]. by destruct (tchar_byte b Hb) as (_ & ? & ? & _).
Qed.
Lemma head_line_show at_ fl l q : Forall line_byte l -> exists at', http_head_line (HHead at_ (l ++ CRLF ++ q) fl) = (Some (HSpan at_ l), HHead at' q fl).
Proof.
  intros Hl. unfold http_head_line. cbn [hh_p]. assert (span (until 10) (l ++ CRLF ++ q) = (l ++ [13], 10 :: q)) as ->.
  { replace (l ++ CRLF ++ q) with ((l ++ [13]) ++ 10 :: q) by (by rewrite <- app_assoc). apply span_app; [|done]. apply Forall_app. split; [|by repeat constructor]. refine (Forall_impl _ _ Hl). intros b [Hb _]. unfold until. lia. }
  assert (zlen (l ++ [13]) = zlen l + 1) as El by by rewrite zlen_app. pose proof (zlen_nonneg l). destruct (Z.eqb_spec (zlen (l ++ [13])) 0); [lia|]. cbn [negb andb].
  replace (znth (l ++ [13]) (zlen (l ++ [13]) - 1)) with 13 by (rewrite El; unfold znth, zlen; rewrite app_nth2 by lia; replace (Z.to_nat (Z.of_nat (length l) + 1 - 1) - length l)%nat with 0%nat by lia; done).
  change (13 =? 13) with true. cbn iota. rewrite El, Z.add_simpl_r, ztake_app_le, ztake_all by lia. destruct (l ++ CRLF ++ q) eqn:E; [by destruct l|]. by eexists.
Qed.
Lemma trim_show v : trimmed v -> forall at_, sp_b (http_trim_ows (HSpan at_ (32 :: v))) = v.
Proof.
  intros [H1 H2] at_. unfold http_trim_ows, trim_end. cbn [sp_b span]. change (http_is_ows 32) with true. cbn iota. assert (span http_is_ows v = ([], v)) as -> by (by apply (span_app http_is_ows [] v)). cbn [snd].
  assert (span http_is_ows (rev v) = ([], rev v)) as -> by (by apply (span_app http_is_ows [] (rev v))). cbn [snd]. apply rev_involutive.
Qed.
Lemma head_field_show at_ f q : field_ok f -> exists at' sp, http_head_field (HHead at_ (show_field f ++ q) 0) = (Some (f.1, sp), HHead at' q 0) /\ sp_b sp = f.2.
Proof.
  intros Hf. pose proof (field_line_ok f Hf) as [Hl Hn]. unfold http_head_field. change (has_flag (hh_flags (HHead at_ (show_field f ++ q) 0)) HTTP_HEAD_BAD) with false. cbn iota.
  replace (show_field f ++ q) with ((f.1 ++ lit ": " ++ f.2) ++ CRLF ++ q) by (unfold show_field; by rewrite <- !app_assoc). destruct (head_line_show at_ 0 _ q Hl) as [at' ->]. cbn [sp_b]. destruct Hf as (Hne & Ht & Hv & Htr).
  destruct (f.1 ++ lit ": " ++ f.2) as [|b l] eqn:E; [done|]. assert (http_is_ows b = false) as -> by (destruct f.1 as [|b' n]; [done|]; injection E as -> _; apply Forall_cons_iff in Ht as [Hb _]; by destruct (tchar_byte b Hb) as (_ & ? & ? & _)).
  rewrite <- E. rewrite (span_app (until (ch ":")) f.1 (lit ": " ++ f.2)); [|refine (Forall_impl _ _ Ht); intros x Hx; by apply tchar_byte|done].
  assert (forallb http_is_tchar f.1 = true) as -> by (apply forallb_forall; exact (proj1 (Forall_forall _ _) Ht)). cbn [negb]. destruct (Z.eqb_spec (zlen f.1) 0) as [E0|_]; [by apply zlen_0 in E0|]. cbn [orb].
  change (zlen (lit ": " ++ f.2) =? 0) with (zlen (ch ":" :: 32 :: f.2) =? 0). destruct (Z.eqb_spec (zlen (ch ":" :: 32 :: f.2)) 0) as [E0|_]; [by apply zlen_0 in E0|]. eexists _, _. split; [reflexivity|]. cbn [lit app past]. by apply (trim_show f.2).
Qed.
(** What the fields say of the body. *)
Definition framing (fs : list field) : http_framing := foldl (fun fr f => read_field fr f.1 f.2) http_framing0 fs.
Lemma read_fields_show fs : forall fuel at_ fr, (length fs < fuel)%nat -> Forall field_ok fs ->
  exists at', read_fields fuel (HHead at_ (show_fields fs ++ CRLF) 0) fr = (true, HHead at' [] 0, foldl (fun fr f => read_field fr f.1 f.2) fr fs).
Proof.
  induction fs as [|f fs IH]; intros fuel at_ fr Hf Hok; (destruct fuel as [|fuel]; [cbn in Hf; lia|]).
  - cbn [read_fields show_fields map concat app]. by eexists.
  - apply Forall_cons_iff in Hok as [Hf1 Hok]. cbn [read_fields]. replace (show_fields (f :: fs) ++ CRLF) with (show_field f ++ show_fields fs ++ CRLF) by (unfold show_fields; cbn [map concat]; by rewrite <- app_assoc).
    destruct (head_field_show at_ f (show_fields fs ++ CRLF) Hf1) as (at' & sp & -> & ->). cbn [foldl]. apply IH; [cbn in Hf; lia|done].
Qed.
Lemma show_fields_len fs : (length fs <= length (show_fields fs))%nat.
Proof. induction fs as [|f fs IH]; [done|]. unfold show_fields, show_field in *. cbn [map concat]. rewrite !length_app. change (length (lit ": ")) with 2%nat. cbn [length]. lia. Qed.
Lemma head_info_show line fs : Forall line_byte line -> Forall field_ok fs ->
  head_info (show_head line fs) = if fr_bad_cl (framing fs) || fr_te_present (framing fs) && fr_have_cl (framing fs) then None else Some (HSpan 0 line, false, framing fs).
Proof.
  intros Hl Hf. unfold head_info, show_head, http_head_init. destruct (head_line_show 0 0 line (show_fields fs ++ CRLF) Hl) as [at1 ->].
  destruct (read_fields_show fs (fields_fuel (HHead at1 (show_fields fs ++ CRLF) 0)) at1 http_framing0) as [at2 ->]; [|done|by destruct (_ || _)]. unfold fields_fuel. cbn [hh_p]. rewrite length_app. pose proof (show_fields_len fs). lia.
Qed.

(** ** The framing the fields give *)
Definition named (n : list Z) (l : list Z) : Prop := map http_lc n = l.
Lemma span_eq_ci_iff v l : http_span_eq_ci v l = true <-> named v l.
Proof.
  unfold http_span_eq_ci, named. destruct (Z.eqb_spec (zlen v) (zlen l)) as [E|E]; cbn [negb]; [by unfold same; rewrite bool_decide_eq_true|]. split; [done|]. intros <-. exfalso. apply E. unfold zlen. by rewrite length_map.
Qed.
(** No length, a length [n], or chunks; nothing else the response depends on. *)
Definition fr_is (fr : http_framing) (len : option Z) (te : bool) : Prop :=
  fr_bad_cl fr = false /\ fr_have_cl fr = (if len then true else false) /\ fr_clen fr = default 0 len /\ fr_te_present fr = te /\ fr_te_chunked fr = te /\
  has_flag (fr_rq fr) HTTP_RQ_HEAD = false /\ has_flag (fr_rq fr) HTTP_RQ_CONNECT = false.
Definition plain (f : field) : Prop := ~ named f.1 (lit "content-length") /\ ~ named f.1 (lit "transfer-encoding").
Lemma plain_field fr f len te : plain f -> fr_is fr len te -> fr_is (read_field fr f.1 f.2) len te.
Proof.
  intros [H1 H2] (A & B & C & D & E & F & G). unfold read_field. destruct (http_span_eq_ci f.1 (lit "content-length")) eqn:E1; [by apply span_eq_ci_iff in E1|]. destruct (http_span_eq_ci f.1 (lit "transfer-encoding")) eqn:E2; [by apply span_eq_ci_iff in E2|].
  repeat case_match; try done; unfold fr_is; cbn; rewrite ?has_flag_set, F, G; done.
Qed.
Lemma plain_fields fs len te : forall fr, Forall plain fs -> fr_is fr len te -> fr_is (foldl (fun fr f => read_field fr f.1 f.2) fr fs) len te.
Proof. induction fs as [|f fs IH]; intros fr Hp H; [done|]. apply Forall_cons_iff in Hp as [Hf Hp]. cbn [foldl]. apply IH; [done|]. by apply plain_field. Qed.

(** A list value of one member. *)
Definition word_byte (b : Z) : Prop := is_list_gap b = false.
Lemma word_member v : v <> [] -> Forall word_byte v -> list_member v = (v, []) /\ trim v = v.
Proof.
  intros Hne Hv. assert (Forall (fun b => http_is_ows b = false) v) as Ho by (refine (Forall_impl _ _ Hv); unfold word_byte, is_list_gap; intros b Hb; by apply orb_false_iff in Hb as [_ ?]).
  assert (stops http_is_ows v /\ stops http_is_ows (rev v)) as [H1 H2].
  { split; [by destruct Ho|]. assert (Forall (fun b => http_is_ows b = false) (rev v)) as Hr by by apply Forall_rev. by destruct Hr. }
  split.
  - unfold list_member. assert (span is_list_gap v = ([], v)) as -> by (apply (span_app is_list_gap [] v); [done|]; by destruct Hv). cbn [snd]. rewrite <- (app_nil_r v) at 1. apply span_app; [|done].
    refine (Forall_impl _ _ Hv). unfold word_byte, is_list_gap, until. intros b Hb. by apply orb_false_iff in Hb as [-> _].
  - unfold trim, http_trim_ows, trim_end. cbn [sp_b]. assert (span http_is_ows v = ([], v)) as -> by (by apply (span_app http_is_ows [] v)). cbn [snd]. assert (span http_is_ows (rev v) = ([], rev v)) as -> by (by apply (span_app http_is_ows [] (rev v))). cbn [snd]. apply rev_involutive.
Qed.
Definition dec_from (v : Z) (ds : list Z) : Z := foldl (fun v c => v * 10 + (c - ch "0")) v ds.
Definition digits_of (ds : list Z) (n : Z) : Prop := ds <> [] /\ Forall (fun c => http_is_digit c = true) ds /\ dec_from 0 ds = n /\ n < 2 ^ 62.
Lemma digit_range c : http_is_digit c = true -> 48 <= c <= 57.
Proof. unfold http_is_digit. change (ch "0") with 48. change (ch "9") with 57. lia. Qed.
Lemma dec_from_ge ds : forall v, 0 <= v -> Forall (fun c => http_is_digit c = true) ds -> v <= dec_from v ds.
Proof. induction ds as [|c ds IH]; intros v Hv Hd; [done|]. apply Forall_cons_iff in Hd as [Hc Hd]. apply digit_range in Hc. cbn [dec_from foldl]. change (ch "0") with 48. specialize (IH (v * 10 + (c - 48)) ltac:(lia) Hd). unfold dec_from in IH. change (ch "0") with 48 in *. lia. Qed.
Lemma parse_u64_show ds : forall v, 0 <= v -> Forall (fun c => http_is_digit c = true) ds -> dec_from v ds < 2 ^ 62 -> parse_u64_from v ds = Some (dec_from v ds).
Proof.
  induction ds as [|c ds IH]; intros v Hv Hd Hn; [done|]. apply Forall_cons_iff in Hd as [Hc Hd]. cbn [parse_u64_from]. rewrite Hc. cbn [negb]. apply digit_range in Hc. cbn [dec_from foldl] in *. change (ch "0") with 48 in *.
  pose proof (dec_from_ge ds (v * 10 + (c - 48)) ltac:(lia) Hd) as Hge. unfold dec_from in *. change (ch "0") with 48 in *. change (2 ^ 62 / 10) with 461168601842738790. destruct (Z.ltb_spec 461168601842738790 v); [lia|]. apply IH; [lia|done|done].
Qed.
Lemma content_length_show ds n : digits_of ds n -> http_parse_content_length ds = Some n.
Proof.
  intros (Hne & Hd & <- & Hn). destruct (word_member ds Hne) as [E1 E2]. { refine (Forall_impl _ _ Hd). intros c Hc. apply digit_range in Hc. unfold word_byte, is_list_gap, http_is_ows. change (ch ",") with 44. lia. }
  unfold http_parse_content_length. destruct ds as [|c ds]; [done|]. cbn [length content_length_from]. rewrite E1. destruct (Z.eqb_spec (zlen (c :: ds)) 0) as [E|_]; [by apply zlen_0 in E|]. rewrite E2. unfold http_parse_u64. destruct (Z.eqb_spec (zlen (c :: ds)) 0) as [E|_]; [by apply zlen_0 in E|].
  rewrite parse_u64_show by (done || lia). cbn [mbind option_bind]. by destruct (length ds).
Qed.
Lemma length_field fr f n te : named f.1 (lit "content-length") -> digits_of f.2 n -> fr_is fr None te -> fr_is (read_field fr f.1 f.2) (Some n) te.
Proof. intros Hn Hd (A & B & C & D & E & F & G). unfold read_field. apply span_eq_ci_iff in Hn. rewrite Hn, (content_length_show _ _ Hd), B. by split. Qed.
Lemma chunked_field fr f : named f.1 (lit "transfer-encoding") -> named f.2 (lit "chunked") -> fr_is fr None false -> fr_is (read_field fr f.1 f.2) None true.
Proof.
  intros Hn Hv (A & B & C & D & E & F & G). unfold read_field. destruct (http_span_eq_ci f.1 (lit "content-length")) eqn:E1; [apply span_eq_ci_iff in E1; unfold named in *; by rewrite E1 in Hn|]. apply span_eq_ci_iff in Hn. rewrite Hn.
  assert (f.2 <> []) as Hne by (intros Ev; unfold named in Hv; by rewrite Ev in Hv). destruct (word_member f.2 Hne) as [E2 E3].
  { apply Forall_forall. intros b Hb. apply (in_map http_lc) in Hb. rewrite Hv in Hb. unfold word_byte. destruct (is_list_gap b) eqn:Eg; [|done]. exfalso. unfold is_list_gap, http_is_ows in Eg.
    assert (b = 44 \/ b = 32 \/ b = 9) as [-> | [-> | ->]] by (change (ch ",") with 44 in Eg; lia); vm_compute in Hb; repeat (destruct Hb as [Hb|Hb]; [done|]); done. }
  assert (http_list_last (length f.2) f.2 [] = f.2) as ->.
  { destruct f.2 as [|b v]; [done|]. cbn [length http_list_last]. rewrite E2. pose proof (zlen_nonneg v). destruct (Z.ltb_spec 0 (zlen (b :: v))); [|rewrite zlen_cons in *; lia]. rewrite E3. by destruct (length v). }
  apply span_eq_ci_iff in Hv. rewrite Hv. by split.
Qed.

(** ** Start lines *)
Inductive wstart :=
  | WReq (method target : list Z) (minor : bool)
  | WResp (minor : bool) (code : Z) (reason : list Z).
Definition show_minor (minor : bool) : list Z := if minor then lit "1" else lit "0".
Definition show_code (code : Z) : list Z := [48 + code / 100; 48 + code / 10 mod 10; 48 + code mod 10].
Definition show_start (s : wstart) : list Z :=
  match s with
  | WReq m t minor => m ++ 32 :: t ++ 32 :: lit "HTTP/1." ++ show_minor minor
  | WResp minor code reason => lit "HTTP/1." ++ show_minor minor ++ 32 :: show_code code ++ 32 :: reason
  end.
Definition start_ok (s : wstart) : Prop :=
  match s with
  | WReq m t _ => m <> [] /\ Forall (fun b => http_is_tchar b = true) m /\ t <> [] /\ Forall (fun b => target_byte b = true) t
  | WResp _ code reason => 100 <= code < 600 /\ Forall line_byte reason
  end.
Lemma target_line b : target_byte b = true -> line_byte b /\ not_space b = true.
Proof. unfold target_byte, line_byte, not_space. intros H. split; [split|]; lia. Qed.
Lemma tchar_line b : http_is_tchar b = true -> line_byte b /\ not_space b = true.
Proof. intros H. destruct (tchar_byte b H) as (? & _ & Ho & _). split; [done|]. unfold http_is_ows, not_space in *. lia. Qed.
Lemma digit_line n : 0 <= n < 10 -> line_byte (48 + n).
Proof. unfold line_byte. lia. Qed.
Lemma start_line_ok s : start_ok s -> line_ok (show_start s).
Proof.
  assert (forall minor, Forall line_byte (show_minor minor)) as Hmin by (intros []; by apply Forall_singleton).
  assert (Forall line_byte (lit "HTTP/1.")) as Hv by (cbn; repeat (apply Forall_cons_iff; split; [by split|]); constructor).
  assert (forall l, Forall line_byte l -> Forall line_byte (32 :: l)) as Hsp by (intros; by constructor).
  destruct s as [m t minor|minor code reason]; cbn [start_ok show_start].
  - intros (Hm & Ht & _ & Hb). split.
    + apply Forall_app. split; [refine (Forall_impl _ _ Ht); intros b H; by apply tchar_line|]. apply Hsp, Forall_app. split; [refine (Forall_impl _ _ Hb); intros b H; by apply target_line|]. by apply Hsp, Forall_app.
    + destruct m as [|b m]; [done|]. apply Forall_cons_iff in Ht as [H _]. by destruct (tchar_byte b H) as (_ & ? & _).
  - intros (Hc & Hr). split; [|done]. apply Forall_app. split; [done|]. apply Forall_app. split; [done|]. apply Hsp. cbn [show_code app].
    pose proof (Z.mod_pos_bound (code / 10) 10 ltac:(done)). pose proof (Z.mod_pos_bound code 10 ltac:(done)). assert (1 <= code / 100 < 6) by (split; [apply Z.div_le_lower_bound; lia|apply Z.div_lt_upper_bound; lia]).
    repeat (apply Forall_cons_iff; split; [apply digit_line; lia|]). by apply Hsp.
Qed.
Lemma req_line_show m t minor at_ : start_ok (WReq m t minor) -> exists sp v, http_parse_req_line (HSpan at_ (show_start (WReq m t minor))) = Some (m, sp, v).
Proof.
  intros (Hm & Ht & Htn & Hb). unfold http_parse_req_line. cbn [sp_b show_start]. rewrite (span_app not_space m) by (done || refine (Forall_impl _ _ Ht); intros b H; by apply tchar_line).
  assert (forallb http_is_tchar m = true) as -> by (apply forallb_forall; exact (proj1 (Forall_forall _ _) Ht)). cbn [negb]. destruct (Z.eqb_spec (zlen m) 0) as [E|_]; [by apply zlen_0 in E|]. cbn [orb past].
  match goal with |- context [zlen (32 :: ?l) =? 0] => destruct (Z.eqb_spec (zlen (32 :: l)) 0) as [E|_]; [by apply zlen_0 in E|] end.
  rewrite (span_app not_space t) by (done || refine (Forall_impl _ _ Hb); intros b H; by apply target_line). assert (forallb target_byte t = true) as -> by (apply forallb_forall; exact (proj1 (Forall_forall _ _) Hb)). cbn [negb].
  destruct (Z.eqb_spec (zlen t) 0) as [E|_]; [by apply zlen_0 in E|]. cbn [orb past]. match goal with |- context [zlen (32 :: ?l) =? 0] => destruct (Z.eqb_spec (zlen (32 :: l)) 0) as [E|_]; [by apply zlen_0 in E|] end.
  destruct minor; eexists _, _; reflexivity.
Qed.
Lemma status_line_show minor code reason : start_ok (WResp minor code reason) -> exists v, http_parse_status_line (show_start (WResp minor code reason)) = Some (code, v).
Proof.
  intros (Hc & Hr). pose proof (Z.mod_pos_bound (code / 10) 10 ltac:(done)) as H1. pose proof (Z.mod_pos_bound code 10 ltac:(done)) as H2. assert (1 <= code / 100 < 6) as H3 by (split; [apply Z.div_le_lower_bound; lia|apply Z.div_lt_upper_bound; lia]).
  set (l := show_start (WResp minor code reason)). assert (zlen l = 13 + zlen reason) as El by (subst l; unfold zlen; cbn [show_start]; rewrite !length_app; cbn [length show_code app]; change (length (lit "HTTP/1.")) with 7%nat; replace (length (show_minor minor)) with 1%nat by (by destruct minor); lia). pose proof (zlen_nonneg reason).
  assert (ztake 7 l = lit "HTTP/1.") as E7 by (by destruct minor). assert (znth l 7 = 48 \/ znth l 7 = 49) as En by (destruct minor; [by right|by left]).
  assert (znth l 8 = 32) as E8 by (by destruct minor). assert (znth l 9 = 48 + code / 100) as E9 by (by destruct minor). assert (znth l 10 = 48 + code / 10 mod 10) as E10 by (by destruct minor). assert (znth l 11 = 48 + code mod 10) as E11 by (by destruct minor). assert (znth l 12 = 32) as E12 by (by destruct minor).
  clearbody l. unfold http_parse_status_line. rewrite E7, E8, E9, E10, E11, E12. destruct (Z.ltb_spec (zlen l) 12); [lia|]. unfold same. rewrite bool_decide_true by done. cbn [negb orb]. unfold http_is_digit. change (ch "0") with 48. change (ch "1") with 49. change (ch "5") with 53. change (ch "9") with 57.
  assert (negb (znth l 7 =? 48) && negb (znth l 7 =? 49) = false) as -> by (destruct En as [-> | ->]; done). change (negb (32 =? 32)) with false. cbn iota. rewrite andb_false_r.
  assert ((48 + code / 100 <? 49) || (53 <? 48 + code / 100) || negb ((48 <=? 48 + code / 10 mod 10) && (48 + code / 10 mod 10 <=? 57)) || negb ((48 <=? 48 + code mod 10) && (48 + code mod 10 <=? 57)) = false) as -> by lia.
  eexists. f_equal. f_equal. rewrite !Z.add_simpl_l. pose proof (Z.div_mod code 10 ltac:(done)). pose proof (Z.div_mod (code / 10) 10 ltac:(done)) as H5. rewrite Z.div_div in H5 by lia. change (10 * 10) with 100 in H5. lia.
Qed.
(** A request is not the HTTP/2 preface. *)
Lemma space_unique l1 r1 l2 r2 : Forall (fun b => not_space b = true) l1 -> Forall (fun b => not_space b = true) l2 -> l1 ++ 32 :: r1 = l2 ++ 32 :: r2 -> l1 = l2 /\ r1 = r2.
Proof. intros H1 H2 E. pose proof (span_app not_space l1 (32 :: r1) H1 eq_refl) as E1. rewrite E, (span_app not_space l2 (32 :: r2) H2 eq_refl) in E1. by injection E1 as -> ->. Qed.
Lemma not_preface m t minor q : start_ok (WReq m t minor) -> is_preface (show_start (WReq m t minor) ++ q) = false.
Proof.
  intros (Hm & Ht & Htn & Hb). unfold is_preface. destruct (same _ _) eqn:E; [|apply andb_false_r]. exfalso. unfold same in E. apply bool_decide_eq_true in E. set (head := show_start _ ++ q) in *.
  assert (head = lit "PRI" ++ 32 :: lit "*" ++ 32 :: lit "HTTP/2.0" ++ zdrop 14 head) as Eh by (rewrite <- (ztake_zdrop 14 head) at 1; rewrite E; done).
  assert (head = m ++ 32 :: t ++ 32 :: lit "HTTP/1." ++ show_minor minor ++ q) as Eh' by (subst head; cbn [show_start]; by rewrite <- !app_assoc; cbn [app]; rewrite <- !app_assoc; cbn [app]; rewrite <- !app_assoc).
  rewrite Eh in Eh'. apply space_unique in Eh' as [_ Eh']; [|by repeat constructor|refine (Forall_impl _ _ Ht); intros b H; by apply tchar_line].
  apply space_unique in Eh' as [_ Eh']; [|by repeat constructor|refine (Forall_impl _ _ Hb); intros b H; by apply target_line]. done.
Qed.

(** ** Reading a head *)
Lemma scan_rest l q : Forall line_byte l -> scan_block (l ++ q) false = let '(k, a, e) := scan_block q false in (zlen l + k, a, e).
Proof.
  induction 1 as [|b l [Hb _] _ IH]; [by cbn [app]; destruct (scan_block q false) as [[k a] e]|]. cbn [app scan_block]. destruct (Z.eqb_spec b 10); [done|]. cbn [andb]. replace (if negb (b =? 13) then false else false) with false by (by destruct (b =? 13)).
  rewrite IH. destruct (scan_block q false) as [[k a] e]. rewrite zlen_cons. f_equal. f_equal. lia.
Qed.
Lemma scan_line l q : line_ok l -> scan_block (l ++ CRLF ++ q) true = let '(k, a, e) := scan_block q true in (zlen (l ++ CRLF) + k, a, e).
Proof.
  intros [Hl Hf]. destruct l as [|b l]; [done|]. apply Forall_cons_iff in Hl as [[Hb _] Hl]. cbn [app scan_block]. destruct (Z.eqb_spec b 10); [done|]. cbn [andb]. destruct (Z.eqb_spec b 13); [done|]. cbn [negb]. rewrite (scan_rest l) by done.
  cbn [CRLF app scan_block]. change (13 =? 10) with false. change (negb (13 =? 13)) with false. cbn iota. change (10 =? 10) with true. cbn [andb]. destruct (scan_block q true) as [[k a] e]. f_equal. f_equal. unfold zlen. cbn [length]. rewrite length_app. change (length [13; 10]) with 2%nat || change (length CRLF) with 2%nat. lia.
Qed.
Lemma scan_fields fs : Forall field_ok fs -> exists atl, scan_block (show_fields fs ++ CRLF) true = (zlen (show_fields fs ++ CRLF), atl, true).
Proof.
  induction 1 as [|f fs Hf _ [atl IH]]; [by exists true|]. exists atl. replace (show_fields (f :: fs) ++ CRLF) with ((f.1 ++ lit ": " ++ f.2) ++ CRLF ++ show_fields fs ++ CRLF) by (unfold show_fields, show_field; cbn [map concat]; by rewrite <- !app_assoc).
  rewrite scan_line by (by apply field_line_ok). rewrite IH. f_equal. f_equal. rewrite !zlen_app. lia.
Qed.
Lemma scan_head line fs : line_ok line -> Forall field_ok fs -> exists atl, scan_block (show_head line fs) true = (zlen (show_head line fs), atl, true).
Proof.
  intros Hl Hf. destruct (scan_fields fs Hf) as [atl E]. exists atl. unfold show_head. rewrite scan_line by done. rewrite E. f_equal. f_equal. rewrite !zlen_app. lia.
Qed.
Lemma runs_head d k a a' p : forall acc atl atl' m, p <> [] -> scan_block p atl = (zlen p, atl', true) -> zlen acc + zlen p <= LK_MSG_BODY_MAX -> Forall (fun b => b <> 0x16) p ->
  (acc = [] -> atl = true /\ is_crlf_byte (hd 0 p) = false) -> m = MHead acc atl 0 -> on_head d 0 0 (acc ++ p) a = Some a' -> runs d k p (to_mode d m a) a'.
Proof.
  induction p as [|b p IH]; intros acc atl atl' m Hp Hs Hl Hb Ha -> Ho; [done|]. apply Forall_cons_iff in Hb as [Hb0 Hb]. rewrite zlen_cons in Hl. pose proof (zlen_nonneg p).
  assert (mistaken d (to_mode d (MHead acc atl 0) a) (b :: p ++ k) = false) as Hm by (unfold mistaken; rewrite hs_mode_to; change (znth (b :: p ++ k) 0) with b; by apply Z.eqb_neq).
  assert (hstep d 0 (to_mode d (MHead acc atl 0) a) b = head_byte d 0 acc atl 0 b a) as Hst.
  { unfold hstep. rewrite hs_mode_to. destruct acc as [|b0 acc]; [|apply head_byte_to_mode]. destruct (Ha eq_refl) as [-> Hc]. cbn [hd] in Hc. rewrite Hc. apply head_byte_to_mode. }
  unfold head_byte in Hst. destruct (Z.ltb_spec LK_MSG_BODY_MAX (zlen acc + 1)); [lia|]. cbn [scan_block] in Hs. rewrite next_atline_eq in Hs. destruct ((b =? 10) && atl) eqn:E.
  - assert (1 = zlen (b :: p)) as Hz by congruence. rewrite zlen_cons in Hz. assert (p = []) as -> by (apply zlen_0; lia). econstructor; [done|by rewrite Hst|constructor].
  - destruct (scan_block p (next_atline atl b)) as [[k1 a1] e1] eqn:Es. assert (k1 + 1 = zlen (b :: p)) as Hz by congruence. assert (a1 = atl' /\ e1 = true) as [-> ->] by (split; congruence). rewrite zlen_cons in Hz. assert (k1 = zlen p) as -> by lia. destruct p as [|b' p]; [done|].
    econstructor; [done|exact Hst|]. eapply (IH (acc ++ [b])); [done|exact Es| |done| |done|by rewrite <- app_assoc].
    + rewrite zlen_app. change (zlen [b]) with 1. lia.
    + intros E0. by destruct acc.
Qed.
Lemma show_head_bytes line fs : line_ok line -> Forall field_ok fs -> Forall (fun b => b <> 0x16) (show_head line fs).
Proof.
  intros [Hl _] Hf. assert (forall l, Forall line_byte l -> Forall (fun b => b <> 0x16) l) as Hw by (intros l H; refine (Forall_impl _ _ H); by intros b [_ ?]). assert (Forall (fun b => b <> 0x16) CRLF) as Hc by (by repeat constructor).
  unfold show_head. apply Forall_app. split; [by apply Hw|]. apply Forall_app. split; [done|]. apply Forall_app. split; [|done]. unfold show_fields. induction Hf as [|f fs H _ IH]; [done|]. cbn [map concat]. apply Forall_app. split; [|done].
  unfold show_field. rewrite !app_assoc. apply Forall_app. split; [|done]. rewrite <- app_assoc. by apply Hw, field_line_ok.
Qed.
Lemma head_runs d k a a' line fs : line_ok line -> Forall field_ok fs -> zlen (show_head line fs) <= LK_MSG_BODY_MAX -> hs_mode a d = hidle -> on_head d 0 0 (show_head line fs) a = Some a' -> runs d k (show_head line fs) a a'.
Proof.
  intros Hl Hf Hm Hi Ho. rewrite <- (to_mode_id d a), Hi. destruct (scan_head line fs Hl Hf) as [atl Hs]. destruct Hl as [Hl Hn]. destruct line as [|b l]; [done|].
  eapply (runs_head d k a a' _ [] true atl); [done|exact Hs|done|by apply show_head_bytes| |done|exact Ho]. intros _. split; [done|]. apply Forall_cons_iff in Hl as [[Hb _] _]. cbn. unfold is_crlf_byte. lia.
Qed.

(** ** Reading a body *)
Lemma runs_of_hrun d k w a a' : hrun d 0 a w = Some a' -> (forall p1 b p2 a1, w = p1 ++ b :: p2 -> hrun d 0 a p1 = Some a1 -> mistaken d a1 (b :: p2 ++ k) = false) -> runs d k w a a'.
Proof.
  revert a. induction w as [|b w IH]; intros a Hr Hm; [injection Hr as <-; constructor|]. cbn [hrun] in Hr. destruct (hstep d 0 a b) as [a1|] eqn:E; [|done]. econstructor; [by apply (Hm [] b w a)|exact E|]. apply IH; [exact Hr|].
  intros p1 b1 p2 a2 -> H2. apply (Hm (b :: p1) b1 p2 a2); [done|]. cbn [hrun]. by rewrite E.
Qed.
Lemma mistaken_chunk d a cs dig val n atl seen p : hs_mode a d = MChunk cs dig val n atl seen -> mistaken d a p = false.
Proof. intros E. unfold mistaken. by rewrite E. Qed.
(** What the bytes of a status line may be. *)
Definition status_at (i : Z) : list Z := if i <? 7 then [znth (lit "HTTP/1.") i] else if i =? 7 then lit "01" else [32].
Definition distinct_start (b : list Z) : Prop := exists i, 0 <= i < Z.min 9 (zlen b) /\ ~ In (znth b i) (status_at i).
Lemma mistaken_body d a n b k : (d = LK_DIR_SEND -> distinct_start b) -> mistaken d (to_mode d (MBody n 0) a) (b ++ k) = false.
Proof.
  intros Hd. unfold mistaken. rewrite hs_mode_to. destruct d; [|done]. destruct (Hd eq_refl) as (i & Hi & Hn). destruct (_ && _) eqn:E; [|done]. exfalso. apply Hn. repeat (apply andb_true_iff in E as [E ?]). unfold same in *.
  match goal with H : bool_decide _ = true |- _ => apply bool_decide_eq_true in H as E7 end. assert (znth (b ++ k) i = znth b i) as Ez by (unfold znth; rewrite app_nth1; [done|]; unfold zlen in *; lia). rewrite <- Ez. unfold status_at.
  destruct (Z.ltb_spec i 7); [left; rewrite <- E7; unfold znth, ztake; rewrite nth_lookup, lookup_take_lt, <- nth_lookup; [done|lia]|].
  destruct (Z.eqb_spec i 7) as [->|]; [match goal with H : _ || _ = true |- _ => apply orb_true_iff in H as [H|H]; apply Z.eqb_eq in H; rewrite H end; cbn; tauto|]. assert (i = 8) as -> by lia. match goal with H : (_ =? 32) = true |- _ => apply Z.eqb_eq in H; rewrite H end. by left.
Qed.
Lemma counted_runs d k a b : b <> [] -> zlen b < 2 ^ 32 -> (d = LK_DIR_SEND -> distinct_start b) -> runs d k b (to_mode d (MBody (zlen b) 0) a) (fin d (zlen b) 0 (say d (EvData (zlen b)) a)).
Proof.
  intros Hb Hl Hd. apply runs_of_hrun.
  - rewrite hrun_body by done. rewrite Z.eqb_refl. f_equal. f_equal. unfold u64. pose proof (zlen_nonneg b). rewrite Z.mod_small; lia.
  - intros p1 x p2 a1 E Hr. destruct p1 as [|y p1]; [injection Hr as <-; rewrite app_comm_cons; subst b; by apply mistaken_body|]. assert (zlen b = zlen (y :: p1) + zlen (x :: p2)) as El by (rewrite E; apply zlen_app).
    rewrite !zlen_cons in El. pose proof (zlen_nonneg p1). pose proof (zlen_nonneg p2). rewrite hrun_body in Hr by (done || rewrite zlen_cons; lia). rewrite zlen_cons in Hr. destruct (Z.eqb_spec (zlen p1 + 1) (zlen b)); [lia|]. apply (inj Some) in Hr. subst a1. unfold mistaken. rewrite hs_mode_to.
    unfold u64. rewrite Z.mod_small by lia. destruct (0 + (zlen p1 + 1)) eqn:E0; [lia|done..].
Qed.
(** Chunks: a size in hex, an extension, the bytes. *)
Record wchunk := WChunk { wc_size : list Z; wc_ext : list Z; wc_data : list Z }.
Definition hex_from (v : Z) (ds : list Z) : Z := foldl (fun v c => v * 16 + http_hex_val c) v ds.
Definition size_ok (ds ext : list Z) (n : Z) : Prop :=
  ds <> [] /\ zlen ds <= 16 /\ Forall (fun c => 0 <= http_hex_val c) ds /\ hex_from 0 ds = n /\
  match ext with [] => True | b :: e => b = ch ";" /\ Forall (fun b => b <> 13 /\ b <> 10) e end.
Definition show_size (ds ext : list Z) : list Z := ds ++ ext ++ CRLF.
Definition show_chunk (c : wchunk) : list Z := show_size (wc_size c) (wc_ext c) ++ wc_data c ++ CRLF.
Definition chunk_ok (c : wchunk) : Prop := wc_data c <> [] /\ size_ok (wc_size c) (wc_ext c) (zlen (wc_data c)).
Definition chunk_bytes (cs : list wchunk) : Z := foldr (fun c n => zlen (wc_data c) + n) 0 cs.

Section Chunks.
Context (d : lk_dir) (k : list Z).
Lemma chunk_cons b w m a a1 a' : (exists cs dig val n atl seen, m = MChunk cs dig val n atl seen) -> hstep d 0 (to_mode d m a) b = Some a1 -> runs d k w a1 a' -> runs d k (b :: w) (to_mode d m a) a'.
Proof. intros (cs & dig & val & n & atl & seen & ->) Hs Hr. econstructor; [by eapply mistaken_chunk, hs_mode_to|exact Hs|exact Hr]. Qed.
Ltac step := eapply chunk_cons; [by eexists _, _, _, _, _, _|unfold hstep; rewrite hs_mode_to; cbn [chunk_byte]|].
Lemma size_runs ds : forall dig val seen a, Forall (fun c => 0 <= http_hex_val c) ds -> 0 <= dig -> dig + zlen ds <= 16 ->
  runs d k ds (to_mode d (MChunk HTTP_CH_SIZE dig val 0 false seen) a) (to_mode d (MChunk HTTP_CH_SIZE (dig + zlen ds) (hex_from val ds) 0 false seen) a).
Proof.
  induction ds as [|c ds IH]; intros dig val seen a Hh Hd Hl; [change (zlen (A:=Z) []) with 0; rewrite Z.add_0_r; constructor|]. apply Forall_cons_iff in Hh as [Hc Hh]. rewrite zlen_cons in *. pose proof (zlen_nonneg ds). step.
  - destruct (Z.leb_spec 0 (http_hex_val c)); [|lia]. destruct (Z.leb_spec 16 dig); [lia|]. rewrite to_mode_mode. reflexivity.
  - replace (dig + (zlen ds + 1)) with (dig + 1 + zlen ds) by lia. apply IH; [done|lia|lia].
Qed.
Lemma eol_runs cs dig val seen a : cs = HTTP_CH_EXT \/ cs = HTTP_CH_SIZE /\ dig <> 0 -> runs d k CRLF (to_mode d (MChunk cs dig val 0 false seen) a) (to_mode d (size_end val seen) a).
Proof.
  intros Hcs. step.
  - destruct Hcs as [->|[-> Hd]]; cbn [chunk_byte]; [change (13 =? 13) with true; cbn iota; rewrite to_mode_mode; reflexivity|]. change (0 <=? http_hex_val 13) with false. cbn iota. destruct (Z.eqb_spec dig 0); [done|]. change (13 =? ch ";") with false. change (13 =? 13) with true. cbn iota. rewrite to_mode_mode. reflexivity.
  - step; [change (10 =? 10) with true; cbn iota; rewrite to_mode_mode; reflexivity|constructor].
Qed.
Lemma ext_runs e : forall dig val seen a, Forall (fun b => b <> 13 /\ b <> 10) e -> runs d k (e ++ CRLF) (to_mode d (MChunk HTTP_CH_EXT dig val 0 false seen) a) (to_mode d (size_end val seen) a).
Proof.
  induction e as [|b e IH]; intros dig val seen a He; [apply eol_runs; by left|]. apply Forall_cons_iff in He as [[H1 H2] He]. cbn [app]. step.
  - apply Z.eqb_neq in H1, H2. rewrite H1, H2, to_mode_mode. reflexivity.
  - by apply IH.
Qed.
Lemma semicolon_runs e dig val seen a : dig <> 0 -> Forall (fun b => b <> 13 /\ b <> 10) e -> runs d k (ch ";" :: e ++ CRLF) (to_mode d (MChunk HTTP_CH_SIZE dig val 0 false seen) a) (to_mode d (size_end val seen) a).
Proof.
  intros Hd He. step; [|by apply (ext_runs e dig val)]. change (0 <=? http_hex_val (ch ";")) with false. cbn iota. destruct (Z.eqb_spec dig 0); [done|]. change (ch ";" =? ch ";") with true. cbn iota. rewrite to_mode_mode. reflexivity.
Qed.
Lemma trailer_runs seen a p : forall atl atl', p <> [] -> scan_block p atl = (zlen p, atl', true) -> runs d k p (to_mode d (MChunk HTTP_CH_TRAILER 0 0 0 atl seen) a) (fin d seen 0 a).
Proof.
  induction p as [|b p IH]; intros atl atl' Hp Hs; [done|]. cbn [scan_block] in Hs. rewrite next_atline_eq in Hs. destruct ((b =? 10) && atl) eqn:E.
  - assert (1 = zlen (b :: p)) as Hz by congruence. rewrite zlen_cons in Hz. assert (p = []) as -> by (apply zlen_0; lia). step; [rewrite E; unfold fin; rewrite say_to_mode, to_mode_mode; reflexivity|constructor].
  - destruct (scan_block p (next_atline atl b)) as [[k1 a1] e1] eqn:Es. assert (k1 + 1 = zlen (b :: p)) as Hz by congruence. assert (a1 = atl' /\ e1 = true) as [-> ->] by (split; congruence). rewrite zlen_cons in Hz. assert (k1 = zlen p) as -> by lia. destruct p as [|b' p]; [done|].
    step; [rewrite E, to_mode_mode; reflexivity|]. by eapply IH.
Qed.
Lemma data_runs b seen a : b <> [] -> runs d k b (to_mode d (MChunk HTTP_CH_DATA 0 0 (zlen b) false seen) a) (to_mode d (MChunk HTTP_CH_DATA_EOL 0 0 0 false (u64 (seen + zlen b))) (say d (EvData (zlen b)) a)).
Proof.
  intros Hb. apply runs_of_hrun; [rewrite hrun_data, Z.eqb_refl, Z.sub_diag by done; reflexivity|]. intros p1 x p2 a1 E Hr. destruct p1 as [|y p1]; [injection Hr as <-; by eapply mistaken_chunk, hs_mode_to|].
  assert (zlen b = zlen (y :: p1) + zlen (x :: p2)) as El by (rewrite E; apply zlen_app). pose proof (zlen_nonneg (x :: p2)). rewrite hrun_data in Hr by (done || lia). apply (inj Some) in Hr. subst a1. by eapply mistaken_chunk, hs_mode_to.
Qed.
Lemma data_eol_runs n seen a : runs d k CRLF (to_mode d (MChunk HTTP_CH_DATA_EOL 0 0 n false seen) a) (to_mode d (MChunk HTTP_CH_SIZE 0 0 0 false seen) a).
Proof. step; [change (13 =? 13) with true; cbn iota; rewrite to_mode_mode; reflexivity|]. step; [change (10 =? 13) with false; change (10 =? 10) with true; cbn iota; rewrite to_mode_mode; reflexivity|constructor]. Qed.
End Chunks.
Lemma size_line_runs d k ds ext n seen a : size_ok ds ext n -> runs d k (show_size ds ext) (to_mode d (MChunk HTTP_CH_SIZE 0 0 0 false seen) a) (to_mode d (size_end n seen) a).
Proof.
  intros (Hne & Hl & Hh & Hv & He). unfold show_size. eapply hruns_app; [apply (size_runs d (_ ++ k) ds 0 0 seen a Hh); lia|]. rewrite Hv, Z.add_0_l. assert (zlen ds <> 0) as Hz by (intros E; by apply zlen_0 in E).
  destruct ext as [|b e]; [apply eol_runs; by right|]. destruct He as [-> He]. by apply semicolon_runs.
Qed.
Definition told d (n : Z) a : hstream := if n =? 0 then a else say d (EvData n) a.
Lemma chunks_runs d cs : forall k seen a, Forall chunk_ok cs -> 0 <= seen -> seen + chunk_bytes cs < 2 ^ 32 ->
  runs d k (concat (map show_chunk cs)) (to_mode d (MChunk HTTP_CH_SIZE 0 0 0 false seen) (told d seen a)) (to_mode d (MChunk HTTP_CH_SIZE 0 0 0 false (seen + chunk_bytes cs)) (told d (seen + chunk_bytes cs) a)).
Proof.
  induction cs as [|c cs IH]; intros k seen a Hok Hs Hl; [cbn [chunk_bytes foldr map concat]; rewrite Z.add_0_r; constructor|]. apply Forall_cons_iff in Hok as [[Hd Hc] Hok]. cbn [chunk_bytes foldr] in *. fold (chunk_bytes cs) in *.
  assert (0 < zlen (wc_data c)) as Hn by (destruct (wc_data c); [done|]; rewrite zlen_cons; pose proof (zlen_nonneg l); lia). assert (0 <= chunk_bytes cs) as H0 by (clear; induction cs as [|c cs IH]; cbn; [done|]; fold (chunk_bytes cs) in *; pose proof (zlen_nonneg (wc_data c)); lia).
  cbn [map concat]. unfold show_chunk at 1. rewrite <- !app_assoc. eapply hruns_app; [by apply size_line_runs|]. unfold size_end. destruct (Z.eqb_spec (zlen (wc_data c)) 0); [lia|]. eapply hruns_app; [by apply data_runs|]. eapply hruns_app; [apply data_eol_runs|].
  assert (u64 (seen + zlen (wc_data c)) = seen + zlen (wc_data c)) as -> by (unfold u64; rewrite Z.mod_small; lia).
  assert (say d (EvData (zlen (wc_data c))) (told d seen a) = told d (seen + zlen (wc_data c)) a) as ->.
  { unfold told. destruct (Z.eqb_spec (seen + zlen (wc_data c)) 0); [lia|]. destruct (Z.eqb_spec seen 0) as [->|]; [done|]. by rewrite say_data_data. }
  rewrite Z.add_assoc. apply IH; [done|lia|lia].
Qed.

(** ** Messages *)
(** The field that frames the body, under whatever case of its name. *)
Inductive wframe := FwNone | FwLen (name digits : list Z) | FwChunked (name val : list Z).
Inductive wbody := BNone | BCounted (b : list Z) | BChunked (cs : list wchunk) (last ext : list Z) (trailer : list field).
Record wmsg := WMsg { wm_start : wstart; wm_pre : list field; wm_frame : wframe; wm_post : list field; wm_body : wbody }.
Definition frame_fields (w : wframe) : list field := match w with FwNone => [] | FwLen n v | FwChunked n v => [(n, v)] end.
Definition msg_fields (m : wmsg) : list field := wm_pre m ++ frame_fields (wm_frame m) ++ wm_post m.
Definition msg_head (m : wmsg) : list Z := show_head (show_start (wm_start m)) (msg_fields m).
Definition show_body (b : wbody) : list Z :=
  match b with
  | BNone => []
  | BCounted b => b
  | BChunked cs last ext trailer => concat (map show_chunk cs) ++ show_size last ext ++ show_fields trailer ++ CRLF
  end.
Definition show_msg (m : wmsg) : list Z := msg_head m ++ show_body (wm_body m).
Definition body_len (b : wbody) : Z := match b with BNone => 0 | BCounted b => zlen b | BChunked cs _ _ _ => chunk_bytes cs end.

Definition frame_ok (w : wframe) : Prop :=
  match w with
  | FwNone => True
  | FwLen n v => named n (lit "content-length") /\ digits_of v (dec_from 0 v)
  | FwChunked n v => named n (lit "transfer-encoding") /\ named v (lit "chunked")
  end.
Definition head_ok (m : wmsg) : Prop :=
  start_ok (wm_start m) /\ Forall field_ok (msg_fields m) /\ Forall plain (wm_pre m) /\ Forall plain (wm_post m) /\ frame_ok (wm_frame m) /\ zlen (msg_head m) <= LK_MSG_BODY_MAX.
(** The body is what its frame says. *)
Definition body_fits (w : wframe) (b : wbody) : Prop :=
  body_len b < 2 ^ 32 /\
  match w, b with
  | FwNone, BNone => True
  | FwLen _ v, BCounted b => dec_from 0 v = zlen b
  | FwChunked _ _, BChunked cs last ext trailer => Forall chunk_ok cs /\ size_ok last ext 0 /\ Forall field_ok trailer
  | _, _ => False
  end.
Definition request_ok (m : wmsg) : Prop := head_ok m /\ match wm_start m with WReq _ _ _ => body_fits (wm_frame m) (wm_body m) | WResp _ _ _ => False end.
Definition method_of (m : wmsg) : list Z := match wm_start m with WReq me _ _ => me | WResp _ _ _ => [] end.
Definition code_of (m : wmsg) : Z := match wm_start m with WReq _ _ _ => 0 | WResp _ code _ => code end.
Definition interim (m : wmsg) : bool := code_of m <? 200.
Definition bodiless (method : list Z) (code : Z) : bool := same method (lit "HEAD") || (code =? 204) || (code =? 304).
Definition response_ok (method : list Z) (m : wmsg) : Prop :=
  head_ok m /\ match wm_start m with WReq _ _ _ => False | WResp _ code _ => ~ (method = lit "CONNECT" /\ code < 300) end /\
  if bodiless method (code_of m) then wm_body m = BNone
  else wm_frame m <> FwNone /\ body_fits (wm_frame m) (wm_body m) /\ match wm_body m with BCounted b => b = [] \/ distinct_start b | _ => True end.
Definition interim_ok (m : wmsg) : Prop :=
  head_ok m /\ wm_body m = BNone /\ match wm_start m with WReq _ _ _ => False | WResp _ code _ => code < 200 /\ code <> 101 end.
(** Messages of both directions in order, [ms] the methods of the requests not yet answered. *)
Fixpoint valid (ms : list (list Z)) (xs : list (lk_dir * wmsg)) : Prop :=
  match xs with
  | [] => True
  | (LK_DIR_RECV, m) :: xs => request_ok m /\ zlen ms < LK_HTTP_MAX_INFLIGHT /\ valid (ms ++ [method_of m]) xs
  | (LK_DIR_SEND, m) :: xs =>
      if interim m then interim_ok m /\ valid ms xs
      else match ms with [] => False | me :: ms => response_ok me m /\ valid ms xs end
  end.
(** What is to be reported of a message. *)
Definition events (x : lk_dir * wmsg) : hlog :=
  let '(d, m) := x in
  let n := body_len (wm_body m) in
  let all type := (d, EvHead type 0 (msg_head m)) :: (if n =? 0 then [] else [(d, EvData n)]) ++ [(d, EvEnd n 0)] in
  match d with
  | LK_DIR_RECV => all LK_HTTP_MSG_REQ
  | LK_DIR_SEND => if interim m then [(d, EvHead LK_HTTP_MSG_INTER 0 (msg_head m))] else all LK_HTTP_MSG_RESP
  end.

Definition frame_len (w : wframe) : option Z := match w with FwLen _ v => Some (dec_from 0 v) | _ => None end.
Definition frame_te (w : wframe) : bool := match w with FwChunked _ _ => true | _ => false end.
Lemma msg_framing m : head_ok m -> fr_is (framing (msg_fields m)) (frame_len (wm_frame m)) (frame_te (wm_frame m)).
Proof.
  intros (_ & _ & Hpre & Hpost & Hf & _). unfold framing, msg_fields. rewrite !foldl_app. apply plain_fields; [done|]. assert (fr_is (foldl (fun fr f => read_field fr f.1 f.2) http_framing0 (wm_pre m)) None false) as H by (apply plain_fields; done).
  destruct (wm_frame m) as [|n v|n v]; cbn [frame_fields foldl frame_len frame_te frame_ok] in *; [done|destruct Hf; by apply (length_field _ (n, v))|destruct Hf; by apply (chunked_field _ (n, v))].
Qed.
Lemma msg_info m : head_ok m -> head_info (msg_head m) = Some (HSpan 0 (show_start (wm_start m)), false, framing (msg_fields m)).
Proof.
  intros H. destruct (msg_framing m H) as (A & B & _ & D & _). destruct H as (Hs & Hf & _). unfold msg_head. rewrite head_info_show; [|by apply start_line_ok|done]. rewrite A, B, D. by destruct (wm_frame m).
Qed.
Definition follow_of (w : wframe) : follow := match w with FwNone => FNone | FwLen _ v => if dec_from 0 v =? 0 then FNone else FCounted (dec_from 0 v) | FwChunked _ _ => FChunked end.
Lemma body_runs d k a (w : wframe) (b : wbody) : body_fits w b -> (match b with BCounted b => b = [] \/ (d = LK_DIR_SEND -> distinct_start b) | _ => True end) ->
  runs d k (show_body b) (then_body d 0 (follow_of w) a) (fin d (body_len b) 0 (told d (body_len b) a)).
Proof.
  intros [Hl Hfit] Hd. destruct w as [|n v|n v], b as [|b|cs last ext tr]; try done; cbn [show_body body_len follow_of] in *.
  - constructor.
  - rewrite Hfit. unfold told. destruct (Z.eqb_spec (zlen b) 0) as [E|E]; [apply zlen_0 in E; subst; constructor|]. assert (b <> []) as Hb by (by intros ->). destruct Hd as [->|Hd]; [done|]. by apply counted_runs.
  - destruct Hfit as (Hc & Hs & Ht). cbn [then_body]. eapply hruns_app; [apply (chunks_runs d cs _ 0 a Hc); lia|]. rewrite Z.add_0_l. eapply hruns_app; [by apply size_line_runs|]. change (size_end 0 (chunk_bytes cs)) with (MChunk HTTP_CH_TRAILER 0 0 0 true (chunk_bytes cs)).
    destruct (scan_fields tr Ht) as [atl Es]. eapply trailer_runs; [by destruct (show_fields tr)|exact Es].
Qed.

(** ** A message, a turn of messages, a conversation *)
Lemma method_head m : http_method_id m = HTTP_M_HEAD <-> m = lit "HEAD".
Proof.
  split; [|by intros ->]. unfold http_method_id, http_method_tab, same. cbn [List.find]. repeat (case_bool_decide as E; [intros Hx; first [exact E|vm_compute in Hx; discriminate]|clear E]). done.
Qed.
Lemma method_connect m : http_method_id m = HTTP_M_CONNECT <-> m = lit "CONNECT".
Proof.
  split; [|by intros ->]. unfold http_method_id, http_method_tab, same. cbn [List.find]. repeat (case_bool_decide as E; [intros Hx; first [exact E|vm_compute in Hx; discriminate]|clear E]). done.
Qed.
Definition rq_of (rq : Z) (me : list Z) : Prop := has_flag rq HTTP_RQ_HEAD = same me (lit "HEAD") /\ has_flag rq HTTP_RQ_CONNECT = same me (lit "CONNECT").
Lemma request_rq me rq : has_flag rq HTTP_RQ_HEAD = false -> has_flag rq HTTP_RQ_CONNECT = false -> rq_of (request_flags me rq) me.
Proof.
  intros H1 H2. unfold rq_of, request_flags, same. pose proof (method_head me) as Hh. pose proof (method_connect me) as Hc. destruct (bool_decide_reflect (me = lit "HEAD")) as [->|Nh]; [change (http_method_id (lit "HEAD")) with HTTP_M_HEAD; cbn iota; by rewrite !has_flag_set, H1, H2|].
  destruct (bool_decide_reflect (me = lit "CONNECT")) as [->|Nc]; [change (http_method_id (lit "CONNECT")) with HTTP_M_CONNECT; cbn iota; by rewrite !has_flag_set, H1, H2|]. destruct (http_method_id me); try done; exfalso; tauto.
Qed.
(** Between messages. *)
Record at_rest (a : hstream) (ms : list (list Z)) (l : hlog) : Prop := AtRest {
  ar_mode : forall d, hs_mode a d = hidle; ar_pend : Forall2 rq_of (hs_pend a) ms; ar_log : hs_log a = l }.
Lemma report d type head n a ms l : 0 <= n < 2 ^ 32 -> at_rest a ms l ->
  at_rest (fin d n 0 (told d n (say d (EvHead type 0 head) a))) ms (rev ((d, EvHead type 0 head) :: (if n =? 0 then [] else [(d, EvData n)]) ++ [(d, EvEnd n 0)]) ++ l).
Proof.
  intros Hn [Hm Hp Hl]. pose proof (Hm d) as Hd. pose proof (Hm (other d)) as Ho. unfold told, fin, say, sat32. destruct (Z.ltb_spec (2 ^ 32 - 1) n); [lia|]. subst l.
  destruct (n =? 0); (split; [intros d'; specialize (Hm d'); by destruct d, d'|by destruct d|by destruct d]).
Qed.
Lemma request_runs k a ms l m : request_ok m -> zlen ms < LK_HTTP_MAX_INFLIGHT -> at_rest a ms l ->
  exists a', runs LK_DIR_RECV k (show_msg m) a a' /\ at_rest a' (ms ++ [method_of m]) (rev (events (LK_DIR_RECV, m)) ++ l).
Proof.
  intros [Hh Hb] Hq Ha. destruct (wm_start m) as [me t minor|] eqn:Es; [|done]. pose proof (msg_framing m Hh) as (F1 & F2 & F3 & F4 & F5 & F6 & F7). pose proof Hh as (Hs & Hf & _ & _ & _ & Hl). rewrite Es in Hs.
  set (rq := request_flags me (fr_rq (framing (msg_fields m)))). set (a1 := say LK_DIR_RECV (EvHead LK_HTTP_MSG_REQ 0 (msg_head m)) a <| hs_pend ::= fun q => q ++ [rq] |>). assert (zlen (hs_pend a) = zlen ms) as Ep by (unfold zlen; by rewrite (Forall2_length (ar_pend _ _ _ Ha))).
  assert (on_head LK_DIR_RECV 0 0 (msg_head m) a = Some (then_body LK_DIR_RECV 0 (follow_of (wm_frame m)) a1)) as Ho.
  { cbn [on_head]. unfold on_request. rewrite (msg_info m Hh). cbn [mbind option_bind]. rewrite Es. destruct (req_line_show me t minor 0 Hs) as (sp & v & ->). cbn [mbind option_bind].
    assert (is_preface (msg_head m) = false) as -> by (unfold msg_head, show_head; rewrite Es; by apply not_preface). rewrite F4, F5, Ep. destruct (Z.leb_spec LK_HTTP_MAX_INFLIGHT (zlen ms)); [lia|]. rewrite orb_false_r, andb_negb_r. cbn [orb]. f_equal. cbn [lf_seen andb].
    replace (request_follow (framing (msg_fields m))) with (follow_of (wm_frame m)); [done|]. unfold request_follow, follow_of. rewrite F2, F3, F5. destruct (wm_frame m) as [|fn fv|fn fv]; cbn; try done. by destruct (dec_from 0 fv =? 0). }
  exists (fin LK_DIR_RECV (body_len (wm_body m)) 0 (told LK_DIR_RECV (body_len (wm_body m)) a1)). split.
  - unfold show_msg, msg_head. eapply hruns_app; [apply head_runs; [apply start_line_ok; by rewrite Es|done|done|apply Ha|exact Ho]|]. apply body_runs; [done|]. destruct (wm_body m); try done. by right.
  - assert (at_rest (a <| hs_pend ::= fun q => q ++ [rq] |>) (ms ++ [method_of m]) l) as Ha1.
    { destruct Ha as [Hm Hp Hl']. split; [intros d'; rewrite <- (Hm d'); by destruct d'|cbn; apply Forall2_app; [done|]|done]. constructor; [|constructor]. unfold method_of. rewrite Es. by apply request_rq. }
    apply (report LK_DIR_RECV LK_HTTP_MSG_REQ (msg_head m) (body_len (wm_body m))) in Ha1; [|split; [|apply Hb]]; [exact Ha1|]. destruct (wm_body m); cbn; [done|apply zlen_nonneg|]. clear. induction cs as [|c cs IH]; cbn; [done|]. pose proof (zlen_nonneg (wc_data c)). unfold chunk_bytes in IH. lia.
Qed.
Lemma fits_len (w : wframe) b : body_fits w b -> 0 <= body_len b < 2 ^ 32.
Proof. intros [Hl _]. split; [|done]. destruct b; cbn; [done|apply zlen_nonneg|]. clear. induction cs as [|c cs IH]; cbn; [done|]. pose proof (zlen_nonneg (wc_data c)). unfold chunk_bytes in IH. lia. Qed.
Lemma response_runs k a me ms l m : interim m = false -> response_ok me m -> at_rest a (me :: ms) l ->
  exists a', runs LK_DIR_SEND k (show_msg m) a a' /\ at_rest a' ms (rev (events (LK_DIR_SEND, m)) ++ l).
Proof.
  intros Hi (Hh & Hc & Hb) Ha. pose proof (msg_framing m Hh) as (F1 & F2 & F3 & F4 & F5 & _). pose proof Hh as (Hs & Hf & _ & _ & _ & Hl). unfold interim, code_of in *. destruct (wm_start m) as [|minor code reason] eqn:Es; [done|].
  destruct Ha as [Hm Hp Hlog]. apply Forall2_cons_inv_r in Hp as (rq & q & [R1 R2] & Hp & Eq). set (a1 := say LK_DIR_SEND (EvHead LK_HTTP_MSG_RESP 0 (msg_head m)) (a <| hs_pend ::= tail |>)).
  assert (at_rest (a <| hs_pend ::= tail |>) ms l) as Ha1 by (split; [intros d'; rewrite <- (Hm d'); by destruct d'|cbn; by rewrite Eq|done]).
  assert (code <> 101) as H101 by (apply Z.ltb_ge in Hi; lia).
  assert (on_head LK_DIR_SEND 0 0 (msg_head m) a = Some (then_body LK_DIR_SEND 0 (if bodiless me code then FNone else follow_of (wm_frame m)) a1)) as Ho.
  { cbn [on_head]. unfold on_response. rewrite (msg_info m Hh). cbn [mbind option_bind sp_b]. rewrite Es. destruct (status_line_show minor code reason Hs) as (v & ->). cbn [mbind option_bind]. cbn [lf_seen andb]. cbv zeta.
    destruct (Z.eqb_spec code 101); [done|]. rewrite Hi, Eq. cbn [hd]. assert (has_flag rq HTTP_RQ_CONNECT && (code <? 300) = false) as ->.
    { rewrite R2. unfold same. destruct (bool_decide_reflect (me = lit "CONNECT")) as [E|]; [|done]. destruct (Z.ltb_spec code 300); [|done]. exfalso. by apply Hc. }
    f_equal. replace (response_follow rq code (framing (msg_fields m))) with (if bodiless me code then FNone else follow_of (wm_frame m)); [done|]. unfold response_follow, bodiless in *. rewrite R1. destruct (_ || _ || _); [done|].
    destruct Hb as (Hn & _). rewrite F2, F3, F4, F5. unfold follow_of. by destruct (wm_frame m). }
  exists (fin LK_DIR_SEND (body_len (wm_body m)) 0 (told LK_DIR_SEND (body_len (wm_body m)) a1)). split.
  - unfold show_msg, msg_head. eapply hruns_app; [apply head_runs; [apply start_line_ok; by rewrite Es|done|done|apply Hm|exact Ho]|]. destruct (bodiless me code); [rewrite Hb; constructor|]. destruct Hb as (_ & Hfit & Hd). apply body_runs; [done|]. destruct (wm_body m); try done. destruct Hd; [by left|by right].
  - unfold events, interim, code_of. rewrite Es, Hi. apply (report LK_DIR_SEND LK_HTTP_MSG_RESP (msg_head m)); [|done]. destruct (bodiless me code); [by rewrite Hb|]. destruct Hb as (_ & Hfit & _). by eapply fits_len.
Qed.
Lemma interim_runs k a ms l m : interim_ok m -> at_rest a ms l ->
  exists a', runs LK_DIR_SEND k (show_msg m) a a' /\ at_rest a' ms (rev (events (LK_DIR_SEND, m)) ++ l).
Proof.
  intros (Hh & Hb & Hc) [Hm Hp Hlog]. pose proof Hh as (Hs & Hf & _ & _ & _ & Hl). destruct (wm_start m) as [|minor code reason] eqn:Es; [done|]. destruct Hc as [Hc H101].
  set (a1 := to_mode LK_DIR_SEND hidle (say LK_DIR_SEND (EvHead LK_HTTP_MSG_INTER 0 (msg_head m)) a)). exists a1. split.
  - unfold show_msg. rewrite Hb, app_nil_r. unfold msg_head in *. apply head_runs; [apply start_line_ok; by rewrite Es|done|done|apply Hm|]. fold (msg_head m) in *. cbn [on_head]. unfold on_response. rewrite (msg_info m Hh). cbn [mbind option_bind sp_b]. rewrite Es.
    destruct (status_line_show minor code reason Hs) as (v & ->). cbn [mbind option_bind lf_seen andb]. cbv zeta. destruct (Z.eqb_spec code 101); [done|]. by destruct (Z.ltb_spec code 200); [|lia].
  - unfold events, interim, code_of. rewrite Es. destruct (Z.ltb_spec code 200); [|lia]. split; [|done|by subst l]. intros []; [done|apply (Hm LK_DIR_RECV)].
Qed.
Lemma msgs_runs d msgs : forall ms xs l a, valid ms (map (pair d) msgs ++ xs) -> at_rest a ms l ->
  exists a' ms', runs d [] (concat (map show_msg msgs)) a a' /\ valid ms' xs /\ at_rest a' ms' (rev (concat (map events (map (pair d) msgs))) ++ l).
Proof.
  assert (forall k ms xs m l a, valid ms ((d, m) :: xs) -> at_rest a ms l -> exists a' ms', runs d k (show_msg m) a a' /\ valid ms' xs /\ at_rest a' ms' (rev (events (d, m)) ++ l)) as Hone.
  { intros k ms xs m l a Hv Ha. destruct d; cbn [valid] in Hv.
    - destruct (interim m) eqn:Ei; [destruct Hv as [Hm Hv]; destruct (interim_runs k a ms l m Hm Ha) as (a' & ? & ?); by exists a', ms|]. destruct ms as [|me ms]; [done|]. destruct Hv as [Hm Hv]. destruct (response_runs k a me ms l m Ei Hm Ha) as (a' & ? & ?). by exists a', ms.
    - destruct Hv as (Hm & Hq & Hv). destruct (request_runs k a ms l m Hm Hq Ha) as (a' & ? & ?). by exists a', (ms ++ [method_of m]). }
  induction msgs as [|m msgs IH]; intros ms xs l a Hv Ha; [exists a, ms; by split; [constructor|]|]. cbn [map app concat] in *.
  destruct (Hone (concat (map show_msg msgs) ++ []) ms (map (pair d) msgs ++ xs) m l a Hv Ha) as (a1 & ms1 & R1 & V1 & A1). destruct (IH ms1 xs _ a1 V1 A1) as (a2 & ms2 & R2 & V2 & A2). exists a2, ms2. split; [by eapply hruns_app|]. split; [done|].
  by rewrite rev_app_distr, <- app_assoc.
Qed.
Lemma events_unstamp xs : unstamp (concat (map events xs)) = concat (map events xs).
Proof.
  induction xs as [|[d m] xs IH]; [done|]. cbn [map concat]. unfold unstamp in *. rewrite map_app, IH. f_equal. unfold events. destruct d; [destruct (interim m); [done|]|]; by destruct (body_len (wm_body m) =? 0).
Qed.

(** ** The conversation, cut anywhere *)
(** The messages one side writes before the other does, and how the capture cuts them. *)
Record turn := Turn { tn_dir : lk_dir; tn_msgs : list wmsg; tn_cut : list (Z * list Z) }.
Definition turn_msgs (t : turn) : list (lk_dir * wmsg) := map (pair (tn_dir t)) (tn_msgs t).
Definition turn_segs (t : turn) : list (lk_dir * Z * list Z) := cut_of (tn_dir t) (tn_cut t).
Definition cut_ok (t : turn) : Prop := concat (map snd (tn_cut t)) = concat (map show_msg (tn_msgs t)) /\ Forall captured (turn_segs t).
Lemma turns_run ts : forall ms l a b, Forall cut_ok ts -> valid ms (concat (map turn_msgs ts)) -> at_rest b ms l -> untimed a = untimed b ->
  exists a', hrun_segs a (concat (map turn_segs ts)) = Some a' /\ unstamp (hs_log a') = unstamp (rev (concat (map events (concat (map turn_msgs ts)))) ++ l).
Proof.
  induction ts as [|t ts IH]; intros ms l a b Hc Hv Hb Eab; cbn [map concat] in *; [exists a; split; [done|]; rewrite <- (ar_log _ _ _ Hb); by apply (f_equal hs_log) in Eab|].
  apply Forall_cons_iff in Hc as [[Hcut _] Hc]. destruct (msgs_runs (tn_dir t) (tn_msgs t) ms _ l b Hv Hb) as (b1 & ms1 & R & V & A). rewrite <- Hcut in R. destruct (runs_cut (tn_dir t) [] (tn_cut t) a b b1 Eab R) as (a1 & Hr & E1).
  destruct (IH ms1 _ a1 b1 Hc V A E1) as (a2 & Hr2 & E2). exists a2. rewrite hrun_segs_app. change (turn_segs t) with (cut_of (tn_dir t) (tn_cut t)). rewrite Hr. cbn [mbind option_bind]. split; [done|]. by rewrite E2, map_app, concat_app, rev_app_distr, app_assoc.
Qed.

(** C1: Well-formed HTTP/1.x traffic is read back exactly: for every conversation of
    requests and responses - counted, chunked with extensions and trailers, bodiless,
    interim responses, answers to HEAD, up to [LK_HTTP_MAX_INFLIGHT] requests pipelined -
    and every cut of it into segments, the consumer is told of each message in order its
    head byte for byte, the number of its body bytes and its end, and of nothing else. *)
Theorem http_conversation_exact {P : Type} cookie ts : Forall cut_ok ts -> valid [] (concat (map turn_msgs ts)) ->
  rev (unstamp (r_ctx (feeds (P := P) cookie (concat (map turn_segs ts))).1)) = concat (map events (concat (map turn_msgs ts))).
Proof.
  intros Hc Hv. destruct (turns_run ts [] [] hs0 hs0 Hc Hv) as (a & Hr & El); [split; [by intros []|constructor|done]|done|]. destruct (feeds_exact (P := P) cookie (concat (map turn_segs ts)) a) as [-> _]; [|exact Hr|].
  - clear -Hc. induction Hc as [|t ts [_ Ht] _ IH]; [constructor|]. cbn [map concat]. by apply Forall_app.
  - rewrite El, app_nil_r. unfold unstamp. rewrite map_rev, rev_involutive. apply events_unstamp.
Qed.

(** ** A witness *)
(** Two pipelined requests, the second a HEAD; a chunked answer with a trailer, then the
    HEAD's with a length and no body.  Cut in the middle of a head, of a body, of a size. *)
Definition w_put := WMsg (WReq (lit "PUT") (lit "/k?a=b") true) [(lit "Host", lit "h")] (FwLen (lit "Content-length") (lit "04")) [] (BCounted (lit "HTTP")).
Definition w_head := WMsg (WReq (lit "HEAD") (lit "/") true) [] FwNone [(lit "X-A", [])] BNone.
Definition w_ok := WMsg (WResp true 200 (lit "OK")) [] (FwChunked (lit "transfer-encoding") (lit "Chunked")) []
  (BChunked [WChunk (lit "05") (lit ";x=1") (lit "hello")] (lit "0") [] [(lit "Etag", lit "v")]).
Definition w_none := WMsg (WResp false 404 []) [] (FwLen (lit "CONTENT-LENGTH") (lit "512")) [] BNone.
Definition w_bytes := concat (map show_msg [w_put; w_head]).
Definition w_reply := concat (map show_msg [w_ok; w_none]).
Definition w_turns := [Turn LK_DIR_RECV [w_put; w_head] [(1, ztake 20 w_bytes); (2, ztake 40 (zdrop 20 w_bytes)); (3, zdrop 60 w_bytes)];
  Turn LK_DIR_SEND [w_ok; w_none] [(4, ztake 48 w_reply); (5, zdrop 48 w_reply)]].
#[local] Instance line_byte_dec b : Decision (line_byte b).
Proof. unfold line_byte. apply _. Defined.
#[local] Instance stops_dec f l : Decision (stops f l).
Proof. destruct l; cbn; apply _. Defined.
#[local] Instance field_ok_dec f : Decision (field_ok f).
Proof. unfold field_ok, trimmed. apply _. Defined.
#[local] Instance start_ok_dec s : Decision (start_ok s).
Proof. destruct s; cbn; apply _. Defined.
#[local] Instance plain_dec f : Decision (plain f).
Proof. unfold plain, named. apply _. Defined.
#[local] Instance frame_ok_dec (w : wframe) : Decision (frame_ok w).
Proof. destruct w; cbn; unfold named, digits_of; apply _. Defined.
#[local] Instance head_ok_dec m : Decision (head_ok m).
Proof. unfold head_ok. apply _. Defined.
#[local] Instance size_ok_dec ds ext n : Decision (size_ok ds ext n).
Proof. unfold size_ok. destruct ext; apply _. Defined.
#[local] Instance chunk_ok_dec c : Decision (chunk_ok c).
Proof. unfold chunk_ok. apply _. Defined.
#[local] Instance body_fits_dec (w : wframe) b : Decision (body_fits w b).
Proof. unfold body_fits. destruct w, b; apply _. Defined.
Ltac decided := match goal with |- ?P => refine (bool_decide_unpack P _); vm_compute; exact I end.
Lemma w_put_ok : request_ok w_put.
Proof. split; decided. Qed.
Lemma w_head_ok : request_ok w_head.
Proof. split; decided. Qed.
Lemma w_ok_ok : response_ok (lit "PUT") w_ok.
Proof. split; [decided|]. split; [by intros [? _]|]. split; [done|]. split; [decided|done]. Qed.
Lemma w_none_ok : response_ok (lit "HEAD") w_none.
Proof. split; [decided|]. split; [by intros [? _]|]. done. Qed.
Lemma http_conversation_exact_witness : valid [] (concat (map turn_msgs w_turns)) /\
  rev (unstamp (r_ctx (feeds (P := unit) 7 (concat (map turn_segs w_turns))).1)) = concat (map events (concat (map turn_msgs w_turns))).
Proof.
  assert (valid [] (concat (map turn_msgs w_turns))) as Hv.
  { split; [exact w_put_ok|]. split; [done|]. split; [exact w_head_ok|]. split; [done|]. split; [exact w_ok_ok|]. split; [exact w_none_ok|exact I]. }
  split; [exact Hv|]. apply http_conversation_exact; [|exact Hv]. repeat constructor; vm_compute; reflexivity.
Defined.
