(* ===== verification/Http.v ===== *)
(** The HTTP handler, [proto/http/http.c], [http_req.c], [http_resp.c], [http_route.c] with
    its state from [http.h], and the S3 dialect over it, [proto/s3/s3_wire.h] and
    [s3_dialect.c].

    A fixed [char] array is the list of its bytes, terminator and leftovers included, read
    through [c_str]; an owned buffer with its length is the list of its bytes, and its
    capacity.  A pointer to a unit is its sequence number in the ring.  [c->proto_state]
    is written back when a callback returns; [hc] is its value in between.  XXH3 is
    vendored code, a parameter. *)
From Stdlib Require Import Ascii String.
From stdpp Require Import base list option.
From S2P Require Import Prelude Conn Proto Reassembly NormRoute NormS3 HttpWire HttpFrame.
#[local] Open Scope Z_scope.

Definition LK_HTTP_TARGET_MAX := 2048.
Definition LK_HTTP_TSTATE_MAX := 256.
Definition LK_HTTP_METHOD_MAX := 16.
Definition LK_HTTP_HOST_MAX := 64.
Definition LK_HTTP_USER_MAX := 40.
Definition LK_HTTP_REQID_MAX := 48.
Definition LK_HTTP_CTYPE_MAX := 32.
Definition LK_HTTP_ROUTE_MAX := 96.
Definition LK_HTTP_ERRNAME_MAX := 48.
Definition LK_HTTP_OBJVER_MAX := 48.

Definition LK_HTTP_NOTE_IS_BLIND (n : Z) : bool := (http_note_code LK_HTTP_NOTE_BLIND_H2 <=? n) && (n <? LK_HTTP_NOTE_MAX).
Definition LK_HTTP_NOTE_IS_PARSE_ERR (n : Z) : bool :=
  existsb (fun k => n =? http_note_code k) [LK_HTTP_NOTE_BAD_HEAD; LK_HTTP_NOTE_FIELD_BAD; LK_HTTP_NOTE_HEAD_TOO_BIG;
    LK_HTTP_NOTE_CL_TE; LK_HTTP_NOTE_CL_BAD; LK_HTTP_NOTE_TE_BAD; LK_HTTP_NOTE_CHUNK_BAD].

(** ** Configuration *)
Record lk_http_cfg := HttpCfg {
  cf_no_redact : bool; cf_user_basic : bool; cf_route : lk_route_cfg; cf_route_header : list Z; cf_s3 : lk_s3_cfg }.
#[global] Instance lk_http_cfg_upd : Updatable lk_http_cfg := fun x =>
  HttpCfg (cf_no_redact x) (cf_user_basic x) (cf_route x) (cf_route_header x) (cf_s3 x).
Definition http_cfg0 : lk_http_cfg := HttpCfg false false route_defaults (replicate 32 0) (S3Cfg [] false).
(** What [http_cfg()] points at after the call. *)
Definition lk_proto_http_configure (cfg : option lk_http_cfg) : lk_http_cfg :=
  default http_cfg0 cfg <| cf_route_header ::= map http_lc |>.

(** ** State *)
Record http_trace := HTrace { tp_trace_id : list Z; tp_parent_id : list Z; tp_flags : Z; tp_valid : bool }.
#[global] Instance http_trace_upd : Updatable http_trace := fun x => HTrace (tp_trace_id x) (tp_parent_id x) (tp_flags x) (tp_valid x).
Record http_unit := HUnit {
  hu_ts_start_ns : Z; hu_ts_req_done_ns : Z; hu_ts_first_row_ns : Z; hu_ts_complete_ns : Z; hu_ts_interim_ns : Z;
  hu_bytes_in : Z; hu_bytes_out : Z; hu_target : list Z; hu_target_cap : Z; hu_tracestate : list Z; hu_tracestate_cap : Z;
  hu_tp : http_trace; hu_method : list Z; hu_host : list Z; hu_user : list Z; hu_req_id : list Z; hu_ctype : list Z;
  hu_route_hdr : list Z; hu_obj_bytes : Z; hu_status : Z; hu_flags : Z; hu_dflags : Z; hu_method_id : http_method;
  hu_minor : Z; hu_resp_minor : Z; hu_used : bool; hu_req_done : bool; hu_have_resp : bool; hu_expect_cont : bool; hu_to_close : bool }.
#[global] Instance http_unit_upd : Updatable http_unit := fun u =>
  HUnit (hu_ts_start_ns u) (hu_ts_req_done_ns u) (hu_ts_first_row_ns u) (hu_ts_complete_ns u) (hu_ts_interim_ns u)
    (hu_bytes_in u) (hu_bytes_out u) (hu_target u) (hu_target_cap u) (hu_tracestate u) (hu_tracestate_cap u)
    (hu_tp u) (hu_method u) (hu_host u) (hu_user u) (hu_req_id u) (hu_ctype u)
    (hu_route_hdr u) (hu_obj_bytes u) (hu_status u) (hu_flags u) (hu_dflags u) (hu_method_id u)
    (hu_minor u) (hu_resp_minor u) (hu_used u) (hu_req_done u) (hu_have_resp u) (hu_expect_cont u) (hu_to_close u).
Definition zeros (n : Z) : list Z := replicate (Z.to_nat n) 0.
Definition http_unit0 : http_unit :=
  HUnit 0 0 0 0 0 0 0 [] 0 [] 0 (HTrace (zeros 16) (zeros 8) 0 false) (zeros LK_HTTP_METHOD_MAX) (zeros LK_HTTP_HOST_MAX)
    (zeros LK_HTTP_USER_MAX) (zeros LK_HTTP_REQID_MAX) (zeros LK_HTTP_CTYPE_MAX) (zeros LK_HTTP_ROUTE_MAX) 0 0 0 0 HTTP_M_OTHER
    0 0 false false false false false.
Record http_dresp := HDresp { dr_err_name : list Z; dr_obj_version : list Z }.
#[global] Instance http_dresp_upd : Updatable http_dresp := fun x => HDresp (dr_err_name x) (dr_obj_version x).
Definition http_dresp0 : http_dresp := HDresp (zeros LK_HTTP_ERRNAME_MAX) (zeros LK_HTTP_OBJVER_MAX).

(** ** Dialects *)
Record lk_http_req := HReq { rq_method : list Z; rq_target : list Z; rq_host : list Z; rq_dflags : Z }.
Definition LK_HTTP_D_ERR_BODY := 1.
(** A NULL hook is [None]; of the connection a hook is handed, it touches [hc->dr] only. *)
Record lk_http_dialect := Dialect {
  d_flags : Z;
  d_classify : lk_http_req -> lk_http_cfg -> lk_route_out;
  d_req_field : option (http_unit -> lk_http_cfg -> list Z -> list Z -> http_unit);
  d_req_head : option (http_unit -> lk_http_cfg -> lk_http_req -> http_unit);
  d_resp_field : option (http_dresp -> http_unit -> list Z -> list Z -> http_dresp * http_unit);
  d_err_body : option (http_dresp -> list Z -> http_dresp);
  d_obs : option (http_dresp -> http_unit -> lk_query_obs -> lk_query_obs) }.

Record http_conn := HConn {
  hc_session : lk_session; hc_msgs : Z; hc_d : lk_http_dialect; hc_dr : http_dresp; hc_ring : list http_unit; hc_head_seq : Z;
  hc_open_seq : Z; hc_req_seq : Z; hc_redacted_cap : Z; hc_owed : Z; hc_resp_orphan : bool; hc_session_emitted : bool; hc_degraded : bool }.
#[global] Instance http_conn_upd : Updatable http_conn := fun x =>
  HConn (hc_session x) (hc_msgs x) (hc_d x) (hc_dr x) (hc_ring x) (hc_head_seq x) (hc_open_seq x) (hc_req_seq x) (hc_redacted_cap x)
    (hc_owed x) (hc_resp_orphan x) (hc_session_emitted x) (hc_degraded x).
Implicit Types (u : http_unit) (hc : http_conn) (seq : Z).

(** ** Bounded copies *)
Definition http_ctl (b : Z) : bool := (b <? 0x20) || (b =? 0x7f).
Definition http_copy_label (dst : list Z) (cap : Z) (s : list Z) : list Z :=
  let l := ztake (cap - 1) (filter (fun b => http_ctl b = false) s) in put_cstr dst (zlen l) l.
Definition http_copy_cstr (dst : list Z) (cap : Z) (src : list Z) : list Z :=
  let l := ztake (cap - 1) (c_str src) in put_cstr dst (zlen l) l.
(** [dst[0] = '\0'] *)
Definition clear_cstr (dst : list Z) : list Z := <[0%nat := 0]> dst.
(** [dst[0]] is not the terminator. *)
Definition nonempty (s : list Z) : bool := negb (znth s 0 =? 0).
(** Success, the bytes kept, and the capacity. *)
Definition copy_owned (cap : Z) (s : list Z) (max : Z) (oom : list bool) : bool * list Z * Z * list bool :=
  let n := if max <? zlen s then max else zlen s in
  if cap <? n then
    let '(ok, oom) := alloc oom in if ok then (true, ztake n s, n, oom) else (false, [], cap, oom)
  else (true, ztake n s, cap, oom).

(** ** The in-flight ring *)
Definition hslot seq : nat := Z.to_nat (seq mod LK_HTTP_MAX_INFLIGHT).
Definition unit_of hc seq : http_unit := nth (hslot seq) (hc_ring hc) http_unit0.
Definition unit_upd hc seq (g : http_unit -> http_unit) : http_conn := hc <| hc_ring ::= alter g (hslot seq) |>.
Definition http_unit_at hc seq : option http_unit :=
  if (seq <? hc_head_seq hc) || (hc_open_seq hc <=? seq) then None else Some (unit_of hc seq).
Definition http_unit_front hc : option http_unit := http_unit_at hc (hc_head_seq hc).
Definition unit_reset u : http_unit := http_unit0 <| hu_target_cap := hu_target_cap u |> <| hu_tracestate_cap := hu_tracestate_cap u |>.
Definition hflag (f : Z) u : http_unit := u <| hu_flags ::= fun w => set_flag w f |>.
Fixpoint mark_from (fuel : nat) seq hc : http_conn :=
  match fuel with
  | O => hc
  | S fuel => if seq <? hc_open_seq hc then mark_from fuel (seq + 1) (unit_upd hc seq (hflag LK_QO_PIPELINED)) else hc
  end.
(** Every in-flight unit dropped, and how many. *)
Fixpoint drop_from (fuel : nat) hc : http_conn * Z :=
  match fuel with
  | O => (hc, 0)
  | S fuel =>
      if hc_head_seq hc <? hc_open_seq hc then
        let '(hc, n) := drop_from fuel (unit_upd hc (hc_head_seq hc) (fun u => u <| hu_used := false |>) <| hc_head_seq ::= inc64 |>) in (hc, n + 1)
      else (hc, 0)
  end.
Definition no_seq := 2 ^ 64 - 1.
Definition units_drop_all hc : http_conn * Z :=
  let '(hc, n) := drop_from (Z.to_nat (hc_open_seq hc - hc_head_seq hc)) hc in
  (hc <| hc_req_seq := no_seq |> <| hc_owed := 0 |> <| hc_resp_orphan := false |>, n).

(** ** The base dialect *)
Section Dialects.
Context (XXH3 : list Z -> Z).
Implicit Types (cfg : lk_http_cfg) (p : list Z).

Definition base_classify (rq : lk_http_req) cfg : lk_route_out := lk_norm_route XXH3 (rq_method rq) (rq_target rq) (Some (cf_route cfg)).
Definition lk_http_dialect_base : lk_http_dialect := Dialect 0 base_classify None None None None None.

(** ** The S3 dialect: wire *)
Definition LK_S3_D_VHOST := 1.
Definition LK_S3_D_COPY_SRC := 2.
Definition s3_label_byte (b : Z) : bool := (0x20 <? b) && (b <? 0x7f).
(** The bytes before a refused one stay in the buffer. *)
Fixpoint label_from (out : list Z) (i : nat) p : bool * list Z :=
  match p with
  | [] => (true, <[i := 0]> out)
  | b :: p => if s3_label_byte b then label_from (<[i := b]> out) (S i) p else (false, out)
  end.
Definition s3_copy_label (out : list Z) (cap : Z) p : bool * list Z :=
  if (zlen p =? 0) || (cap <=? zlen p) then (false, out) else label_from out 0 p.
(** Around the first occurrence of [l] in [s] under [f]. *)
Fixpoint find_lit (f : Z -> Z) (l s : list Z) : option (list Z * list Z) :=
  if (zlen l <=? zlen s) && same (map f (ztake (zlen l) s)) l then Some ([], zdrop (zlen l) s)
  else match s with [] => None | c :: s => '(a, b) ← find_lit f l s; Some (c :: a, b) end.
Definition s3_find_ci (s l : list Z) : option (list Z * list Z) := find_lit http_lc l s.
Definition s3_auth_access_key (v out : list Z) (cap : Z) : bool * list Z :=
  if (4 <? zlen v) && same (ztake 4 v) (lit "AWS ") then
    let '(k, r) := span (until (ch ":")) (zdrop 4 v) in
    if existsb (fun c => c =? ch "/") k || (zlen r =? 0) then (false, out) else s3_copy_label out cap k
  else if (zlen v <? 16) || negb (http_span_eq_ci (ztake 16 v) (lit "aws4-hmac-sha256")) then (false, out)
  else match s3_find_ci v (lit "credential=") with
  | None => (false, out)
  | Some (_, v) => let '(k, r) := span (until (ch "/")) v in if zlen r =? 0 then (false, out) else s3_copy_label out cap k
  end.
(** The credential up to its scope. *)
Fixpoint scope_from (k v : list Z) : option (list Z) :=
  match v with
  | [] => None
  | c :: v => if (c =? ch "/") || ((c =? ch "%") && (1 <? zlen v) && (znth v 0 =? ch "2") && (http_lc (znth v 1) =? ch "f")) then Some k
              else scope_from (k ++ [c]) v
  end.
Fixpoint s3_query_access_key (fuel : nat) (q out : list Z) (cap : Z) : bool * list Z :=
  match fuel, q with
  | S fuel, _ :: _ =>
      let '(k, r) := span is_qkey_byte q in
      let '(v, r) := match r with c :: v => if c =? ch "=" then span (until (ch "&")) v else ([], r) | [] => ([], []) end in
      if negb (http_span_eq_ci k (lit "x-amz-credential")) then s3_query_access_key fuel (past r) out cap
      else match scope_from [] v with Some key => s3_copy_label out cap key | None => (false, out) end
  | _, _ => (false, out)
  end.
Definition s3_code_label p (out : list Z) (cap : Z) : bool * list Z :=
  let '(ok, out) := if negb (zlen p =? 0) && lk_s3_code_known p then s3_copy_label out cap p else (false, out) in
  if ok then (true, out)
  else if (zlen p =? 0) || (cap <? 6) then (false, out)
  else (true, put_cstr out 5 (lit "other")).
Definition s3_error_code p (out : list Z) (cap : Z) : bool * list Z :=
  match find_lit id (lit "<Code>") p with
  | None => (false, out)
  | Some (_, p) => match find_lit id (lit "</Code>") p with None => (false, out) | Some (code, _) => s3_code_label code out cap end
  end.

(** ** The S3 dialect: hooks *)
Definition s3_req_field u cfg (name val : list Z) : http_unit :=
  if http_span_eq_ci name (lit "authorization") then
    if s3_no_user (cf_s3 cfg) then u
    else let '(ok, out) := s3_auth_access_key val (hu_user u) LK_HTTP_USER_MAX in u <| hu_user := if ok then out else clear_cstr out |>
  else if http_span_eq_ci name (lit "x-amz-copy-source") then u <| hu_dflags ::= fun w => set_flag w LK_S3_D_COPY_SRC |>
  else if http_span_eq_ci name (lit "x-amz-decoded-content-length") then
    match http_parse_u64 val with Some v => u <| hu_obj_bytes := v |> | None => u end
  else u.
Definition s3_req_head u cfg (rq : lk_http_req) : http_unit :=
  let '(path, rest) := span (until (ch "?")) (rq_target rq) in
  let query := past rest in
  let a := lk_s3_addr_of (rq_host rq) path (Some (cf_s3 cfg)) in
  let u := if sa_vhost a then u <| hu_dflags ::= fun w => set_flag w LK_S3_D_VHOST |> else u in
  let u := u <| hu_host ::= fun dst => if sa_valid a then http_copy_label dst LK_HTTP_HOST_MAX (sa_bucket a)
                                       else if negb (zlen (sa_bucket a) =? 0) || sa_vhost a then http_copy_cstr dst LK_HTTP_HOST_MAX (lit "other")
                                       else clear_cstr dst |> in
  if negb (s3_no_user (cf_s3 cfg)) && negb (nonempty (hu_user u)) && negb (zlen query =? 0)
  then u <| hu_user ::= fun out => (s3_query_access_key (length query) query out LK_HTTP_USER_MAX).2 |> else u.
Definition s3_resp_field (dr : http_dresp) u (name val : list Z) : http_dresp * http_unit :=
  if http_span_eq_ci name (lit "x-amz-request-id") then
    (dr, if nonempty (hu_req_id u) then u else u <| hu_req_id ::= fun dst => http_copy_label dst LK_HTTP_REQID_MAX val |>)
  else if http_span_eq_ci name (lit "x-amz-version-id") then (dr <| dr_obj_version ::= fun dst => http_copy_label dst LK_HTTP_OBJVER_MAX val |>, u)
  else if http_span_eq_ci name (lit "x-minio-error-code") then (dr <| dr_err_name ::= fun out => (s3_code_label val out LK_HTTP_ERRNAME_MAX).2 |>, u)
  else (dr, u).
Definition s3_err_body (dr : http_dresp) p : http_dresp := dr <| dr_err_name ::= fun out => (s3_error_code p out LK_HTTP_ERRNAME_MAX).2 |>.
Definition s3_classify (rq : lk_http_req) (_ : lk_http_cfg) : lk_route_out :=
  let '(path, rest) := span (until (ch "?")) (rq_target rq) in
  let a := lk_s3_split (has_flag (rq_dflags rq) LK_S3_D_VHOST) path in
  lk_norm_s3 XXH3 (rq_method rq) (past rest) a (if has_flag (rq_dflags rq) LK_S3_D_COPY_SRC then LK_S3_F_COPY_SRC else 0).
Definition s3_obs (dr : http_dresp) u (o : lk_query_obs) : lk_query_obs :=
  let o := if nonempty (dr_err_name dr) then o <| o_err_name := Some (c_str (dr_err_name dr)) |> else o in
  o <| o_obj_bytes := if negb (hu_obj_bytes u =? 0) then hu_obj_bytes u
                      else if negb (o_bytes_in o =? 0) then o_bytes_in o else o_bytes_out o |>.
Definition lk_http_dialect_s3 : lk_http_dialect :=
  Dialect LK_HTTP_D_ERR_BODY s3_classify (Some s3_req_field) (Some s3_req_head) (Some s3_resp_field) (Some s3_err_body) (Some s3_obs).

(** The flavour of a connection: that of the vtable of its port. *)
Definition http_dialect {P F} (c : lk_conn P F) : lk_http_dialect :=
  match c_ops c with Some PROTO_S3 => lk_http_dialect_s3 | _ => lk_http_dialect_base end.
End Dialects.

(** * The handler *)
Section Handler.
Context {U F : Type} (XXH3 : list Z -> Z) (cfg : lk_http_cfg).
Abbreviation proto := (lk_proto U http_conn F).
Abbreviation conn := (lk_conn http_conn F).
Implicit Types (p : proto) (c : conn) (m : lk_msg) (d : lk_dir).

(** [calloc], then the dialect. *)
Definition http_conn0 c : http_conn :=
  HConn session0 0 (http_dialect XXH3 c) http_dresp0 (replicate (Z.to_nat LK_HTTP_MAX_INFLIGHT) http_unit0) 0 0 no_seq 0 0 false false
    (has_flag (c_flags c) LK_CONN_SYNTHETIC).
Definition http_conn_get p c : option http_conn * proto * conn :=
  match c_proto_state c with
  | Some hc => (Some hc, p, c)
  | None =>
      let '(ok, oom) := alloc (p_oom p) in
      let p := p <| p_oom := oom |> in
      if negb ok then (None, p, c)
      else let hc := http_conn0 c in (Some hc, pbump p (fun s => s <| ps_conns ::= inc64 |>), c <| c_proto_state := Some hc |>)
  end.
Definition http_orphan p hc : proto := if hc_degraded hc then p else pbump p (fun s => s <| ps_orphan_msgs ::= inc64 |>).
Definition dropped_overflow (s : lk_proto_stats) : lk_proto_stats := s <| ps_units_dropped_overflow ::= inc64 |>.
Definition dropped_resync (n : Z) (s : lk_proto_stats) : lk_proto_stats := s <| ps_units_dropped_resync ::= fun k => u64 (k + n) |>.
Definition dropped_close (n : Z) (s : lk_proto_stats) : lk_proto_stats := s <| ps_units_dropped_close ::= fun k => u64 (k + n) |>.

(** [None] when the ring is full; the unit is the slot below [open_seq]. *)
Definition http_unit_open p hc (ts : Z) : proto * option http_conn :=
  if LK_HTTP_MAX_INFLIGHT <=? u64 (hc_open_seq hc - hc_head_seq hc) then (pbump p dropped_overflow, None)
  else
    let hc := unit_upd hc (hc_open_seq hc) (fun u => unit_reset u <| hu_used := true |> <| hu_ts_start_ns := ts |>) <| hc_open_seq ::= inc64 |> in
    let n := u64 (hc_open_seq hc - hc_head_seq hc) in
    (p, Some (if 1 <? n then mark_from (Z.to_nat n) (hc_head_seq hc) hc else hc)).

(** ** The request head *)
(** The unit and the spans the field loop keeps. *)
Record req_scan := ReqScan { rs_u : http_unit; rs_host : list Z; rs_ua : list Z; rs_tstate : list Z }.
#[local] Instance req_scan_upd : Updatable req_scan := fun x => ReqScan (rs_u x) (rs_host x) (rs_ua x) (rs_tstate x).
Definition name_is (name : list Z) (l : string) : bool := http_span_eq_ci name (lit l).
Definition set_tp (val : list Z) (tp : http_trace) : http_trace :=
  match http_parse_traceparent val with Some (t, q, f) => HTrace t q f true | None => tp <| tp_valid := false |> end.
(** The closed list of the base protocol. *)
Definition base_req_field (x : req_scan) (name val : list Z) : req_scan :=
  let on g := x <| rs_u ::= g |> in
  if name_is name "host" then x <| rs_host := val |>
  else if name_is name "user-agent" then x <| rs_ua := val |>
  else if name_is name "expect" then on (fun u => u <| hu_expect_cont := http_list_has (length val) val (lit "100-continue") |>)
  else if name_is name "traceparent" then on (fun u => u <| hu_tp ::= set_tp val |>)
  else if name_is name "tracestate" then x <| rs_tstate := val |>
  else if name_is name "x-request-id" || name_is name "x-amzn-trace-id" then
    on (fun u => if nonempty (hu_req_id u) then u else u <| hu_req_id ::= fun dst => http_copy_label dst LK_HTTP_REQID_MAX val |>)
  else if nonempty (cf_route_header cfg) && http_span_eq_ci name (c_str (cf_route_header cfg)) then
    on (fun u => u <| hu_route_hdr ::= fun dst => http_copy_label dst LK_HTTP_ROUTE_MAX val |>)
  else if cf_user_basic cfg && name_is name "authorization" then
    on (fun u => let '(ok, out) := http_basic_user val (hu_user u) LK_HTTP_USER_MAX in u <| hu_user := if ok then out else clear_cstr out |>)
  else x.
Definition req_field (dl : lk_http_dialect) (x : req_scan) (name val : list Z) : req_scan :=
  base_req_field (x <| rs_u ::= fun u => match d_req_field dl with Some f => f u cfg name val | None => u end |>) name val.
Fixpoint req_fields (fuel : nat) (dl : lk_http_dialect) (h : http_head) (x : req_scan) : req_scan :=
  match fuel with
  | O => x
  | S fuel =>
      match http_head_field h with
      | (Some (name, val), h) => req_fields fuel dl h (req_field dl x name (sp_b val))
      | (None, _) => x
      end
  end.
Definition unit_req u : lk_http_req := HReq (c_str (hu_method u)) (hu_target u) (c_str (hu_host u)) (hu_dflags u).
(** Path and query rejoined. *)
Definition raw_target (path query : list Z) : list Z := if zlen query =? 0 then path else path ++ ch "?" :: query.
Definition keep_target u (path query : list Z) (oom : list bool) : http_unit * list bool :=
  if zlen path =? 0 then (hflag LK_QO_NO_TEXT u, oom)
  else
    let raw := raw_target path query in
    let '(ok, t, cap, oom) := copy_owned (hu_target_cap u) raw LK_HTTP_TARGET_MAX oom in
    let u := u <| hu_target := t |> <| hu_target_cap := cap |> in
    (if negb ok then hflag LK_QO_NO_TEXT u else if LK_HTTP_TARGET_MAX <? zlen raw then hflag LK_QO_TEXT_TRUNC u else u, oom).
Definition keep_tstate u (tstate : list Z) (oom : list bool) : http_unit * list bool :=
  if negb (zlen tstate =? 0) && (zlen tstate <=? LK_HTTP_TSTATE_MAX) then
    let '(_, t, cap, oom) := copy_owned (hu_tracestate_cap u) tstate LK_HTTP_TSTATE_MAX oom in
    (u <| hu_tracestate := t |> <| hu_tracestate_cap := cap |>, oom)
  else (u, oom).
(** What the head makes of its fresh unit, and the user agent. *)
Definition req_fill (dl : lk_http_dialect) m (h : http_head) (method target : list Z) (minor : Z) (oom : list bool) u : http_unit * list Z * list bool :=
  let u := u <| hu_method ::= fun dst => http_copy_label dst LK_HTTP_METHOD_MAX method |> <| hu_method_id := http_method_id method |> <| hu_minor := minor |> in
  let u := if has_flag (m_flags m) LK_MSG_BODY_TRUNC then hflag LK_QO_TEXT_TRUNC u else u in
  let '(path, query, authority) := http_target_split target in
  let '(u, oom) := keep_target u path query oom in
  let x := req_fields (fields_fuel h) dl h (ReqScan u [] [] []) in
  let u := rs_u x <| hu_host ::= fun dst => http_copy_label dst LK_HTTP_HOST_MAX (if zlen authority =? 0 then rs_host x else authority) |> in
  let '(u, oom) := keep_tstate u (rs_tstate x) oom in
  (match d_req_head dl with Some f => f u cfg (unit_req u) | None => u end, rs_ua x, oom).

Definition session_labels u (ua : list Z) (ss : lk_session) : lk_session :=
  let v := lit "HTTP/1." ++ [ch "0" + Z.land (hu_minor u) 1] in
  ss <| s_database ::= fun dst => http_copy_cstr dst 64 (hu_host u) |> <| s_user ::= fun dst => http_copy_cstr dst 64 (hu_user u) |>
     <| s_app ::= fun dst => http_copy_label dst 64 ua |> <| s_server_version ::= fun dst => put_cstr dst (zlen v) v |> <| s_complete := true |>.
Definition session_emit p c hc u (ua : list Z) : proto * http_conn :=
  if hc_session_emitted hc then (p, hc)
  else
    let hc := hc <| hc_session ::= session_labels u ua |> <| hc_session_emitted := true |> in
    (up_session (pbump p (fun s => s <| ps_sessions ::= inc64 |>)) c (hc_session hc), hc).
(** The request line of a head and its fields. *)
Definition req_line m : option (list Z * list Z * Z * http_head) :=
  match http_head_line (http_head_init (m_body m)) with
  | (Some line, h) => match http_parse_req_line line with Some (method, target, minor) => Some (method, sp_b target, minor, h) | None => None end
  | (None, _) => None
  end.
Definition http_req_head p c hc m : proto * http_conn :=
  match req_line m with
  | None => (http_orphan p hc, hc)
  | Some (method, target, minor, h) =>
      match http_unit_open p hc (m_ts_ns m) with
      | (p, None) => (p, hc <| hc_owed ::= fun n => u32 (n + 1) |>)
      | (p, Some hc) =>
          let seq := u64 (hc_open_seq hc - 1) in
          let hc := hc <| hc_degraded := false |> <| hc_req_seq := seq |> in
          let '(u, ua, oom) := req_fill (hc_d hc) m h method target minor (p_oom p) (unit_of hc seq) in
          let hc := unit_upd hc seq (fun _ => u) in
          let p := pbump (p <| p_oom := oom |>) (count_type LK_DIR_RECV (http_method_tag (hu_method_id u))) in
          session_emit p c hc u ua
      end
  end.

(** ** The response head *)
Record resp_fields := RespFields { rf_have_cl : bool; rf_te_present : bool; rf_ctype : list Z }.
#[local] Instance resp_fields_upd : Updatable resp_fields := fun x => RespFields (rf_have_cl x) (rf_te_present x) (rf_ctype x).
(** [clen] and [te_chunked] are read by nobody. *)
Definition base_resp_field (rf : resp_fields) (name val : list Z) : resp_fields :=
  if name_is name "content-length" then match http_parse_content_length val with Some _ => rf <| rf_have_cl := true |> | None => rf end
  else if name_is name "transfer-encoding" then rf <| rf_te_present := true |>
  else if name_is name "content-type" then rf <| rf_ctype := http_first_token val |>
  else rf.
Fixpoint resp_read_fields (fuel : nat) (dl : lk_http_dialect) (h : http_head) (dr : http_dresp) u (rf : resp_fields) : http_dresp * http_unit * resp_fields :=
  match fuel with
  | O => (dr, u, rf)
  | S fuel =>
      match http_head_field h with
      | (Some (name, val), h) =>
          let '(dr, u) := match d_resp_field dl with Some f => f dr u name (sp_b val) | None => (dr, u) end in
          resp_read_fields fuel dl h dr u (base_resp_field rf name (sp_b val))
      | (None, _) => (dr, u, rf)
      end
  end.
Definition status_flag (code : Z) : Z := if 500 <=? code then LK_QO_ERROR else if 400 <=? code then LK_QO_CLIENT_ERR else 0.
(** What a final head makes of the unit it answers. *)
Definition resp_fill (dl : lk_http_dialect) m (h : http_head) (code minor : Z) u : http_dresp * http_unit :=
  let '(dr, u, rf) := resp_read_fields (fields_fuel h) dl h http_dresp0 u (RespFields false false []) in
  let u := u <| hu_status := code |> <| hu_resp_minor := minor |> <| hu_have_resp := true |> <| hu_ts_first_row_ns := m_ts_ns m |> in
  let u := if has_flag (m_flags m) LK_MSG_BODY_TRUNC then hflag LK_QO_TEXT_TRUNC u else u in
  let u := if zlen (rf_ctype rf) =? 0 then u else u <| hu_ctype ::= fun dst => http_copy_label dst LK_HTTP_CTYPE_MAX (rf_ctype rf) |> in
  let u := hflag (status_flag code) u in
  (dr, u <| hu_to_close := negb (rf_have_cl rf) && negb (rf_te_present rf) && negb (code =? 204) && negb (code =? 304) &&
                           negb (bool_decide (hu_method_id u = HTTP_M_HEAD)) |>).
Definition status_line m : option (Z * Z * http_head) :=
  match http_head_line (http_head_init (m_body m)) with
  | (Some line, h) => match http_parse_status_line (sp_b line) with Some (code, minor) => Some (code, minor, h) | None => None end
  | (None, _) => None
  end.
Definition http_resp_head p hc m (interim : bool) : proto * http_conn :=
  match status_line m with
  | None => (http_orphan p hc, hc)
  | Some (code, minor, h) =>
      let p := pbump p (count_type LK_DIR_SEND (u8 (ch "0" + code / 100))) in
      match http_unit_front hc with
      | None =>
          let hc := if negb interim && negb (hc_owed hc =? 0) then hc <| hc_owed ::= fun n => n - 1 |> <| hc_resp_orphan := true |> else hc in
          (http_orphan p hc, hc)
      | Some u =>
          if interim then
            (p, if hu_ts_interim_ns u =? 0 then unit_upd hc (hc_head_seq hc) (fun u => u <| hu_ts_interim_ns := m_ts_ns m |>) else hc)
          else
            let '(dr, u) := resp_fill (hc_d hc) m h code minor u in
            (p, unit_upd (hc <| hc_dr := dr |>) (hc_head_seq hc) (fun _ => u))
      end
  end.

(** ** The observation *)
Definition http_route_resolve hc u : lk_route_out :=
  if nonempty (hu_route_hdr u) then lk_norm_route_given XXH3 (c_str (hu_method u)) (c_str (hu_route_hdr u))
  else if has_flag (hu_flags u) LK_QO_NO_TEXT || (zlen (hu_target u) =? 0) then RouteOut [] 0 0
  else d_classify (hc_d hc) (unit_req u) cfg.
Definition no_text (o : lk_query_obs) : lk_query_obs := o <| o_flags ::= fun w => set_flag w LK_QO_NO_TEXT |>.
(** The observation, the capacity of the scratch and the allocator. *)
Definition obs_text (cap : Z) u (o : lk_query_obs) (oom : list bool) : lk_query_obs * Z * list bool :=
  if has_flag (hu_flags u) LK_QO_NO_TEXT || (zlen (hu_target u) =? 0) then (no_text o, cap, oom)
  else if cf_no_redact cfg || negb (lk_url_redact_needed (hu_target u)) then (o <| o_text := Some (hu_target u) |>, cap, oom)
  else
    let want := u32 (zlen (hu_target u) * 2 + zlen LK_REDACT_MARK) in
    let put cap := o <| o_text := Some (lk_url_redact (hu_target u) cap) |> in
    if cap <? want then
      let '(ok, oom) := alloc oom in if ok then (put want, want, oom) else (no_text o, cap, oom)
    else (put cap, cap, oom).
Definition opt_cstr (s : list Z) : option (list Z) := if nonempty s then Some (c_str s) else None.
Definition unit_http_obs (dr : http_dresp) u : lk_http_obs :=
  let tp := hu_tp u in
  HttpObs (if tp_valid tp then Some (tp_trace_id tp) else None) (if tp_valid tp then Some (tp_parent_id tp) else None)
    (if zlen (hu_tracestate u) =? 0 then None else Some (hu_tracestate u)) (opt_cstr (hu_req_id u)) (opt_cstr (dr_obj_version dr))
    (opt_cstr (hu_ctype u)) (hu_ts_interim_ns u) (if tp_valid tp then tp_flags tp else 0) (if hu_have_resp u then hu_resp_minor u else hu_minor u).
Definition unit_obs (dr : http_dresp) u : lk_query_obs :=
  let o := obs0 <| o_ts_start_ns := hu_ts_start_ns u |> <| o_ts_req_done_ns := if hu_ts_req_done_ns u =? 0 then hu_ts_start_ns u else hu_ts_req_done_ns u |>
    <| o_ts_first_row_ns := hu_ts_first_row_ns u |> <| o_ts_complete_ns := hu_ts_complete_ns u |> <| o_ts_ready_ns := hu_ts_complete_ns u |>
    <| o_bytes_in := hu_bytes_in u |> <| o_bytes_out := hu_bytes_out u |> <| o_op := opt_cstr (hu_method u) |> <| o_http := Some (unit_http_obs dr u) |>
    <| o_err_code := hu_status u |> <| o_kind := LK_Q_REQUEST |> <| o_flags := hu_flags u |> in
  if hu_expect_cont u then o <| o_flags ::= fun w => set_flag w LK_QO_EXPECT_CONT |> else o.
Definition obs_route (route : lk_route_out) (o : lk_query_obs) : lk_query_obs :=
  let o := if zlen (rt_text route) =? 0 then o else o <| o_route := Some (rt_text route) |> <| o_route_fp := rt_fp route |> in
  if has_flag (rt_flags route) LK_ROUTE_F_INTERNAL then o <| o_flags ::= fun w => set_flag w LK_QO_INTERNAL |> else o.
Definition obs_session u (ss : lk_session) : lk_session :=
  ss <| s_database ::= fun dst => http_copy_cstr dst 64 (hu_host u) |> <| s_user ::= fun dst => http_copy_cstr dst 64 (hu_user u) |>.
Definition unit_emit p c hc u : proto * http_conn :=
  let '(o, cap, oom) := obs_text (hc_redacted_cap hc) u (unit_obs (hc_dr hc) u) (p_oom p) in
  let p := p <| p_oom := oom |> in
  let o := obs_route (http_route_resolve hc u) o in
  let o := match d_obs (hc_d hc) with Some f => f (hc_dr hc) u o | None => o end in
  let hc := hc <| hc_redacted_cap := cap |> <| hc_session ::= obs_session u |> in
  let p := pbump p (fun s => s <| ps_queries ::= inc64 |>) in
  let p := if has_flag (o_flags o) LK_QO_ERROR then pbump p (fun s => s <| ps_errors_sql ::= inc64 |>) else p in
  (up_query p c (hc_session hc) o, hc).
(** Leave the front unit behind. *)
Definition unit_pop hc : http_conn := unit_upd hc (hc_head_seq hc) (fun u => u <| hu_used := false |>) <| hc_head_seq ::= inc64 |>.
(** [dropped] is the identity for a NULL counter. *)
Definition unit_retire p c hc (dropped : lk_proto_stats -> lk_proto_stats) : proto * http_conn :=
  match http_unit_front hc with
  | None => (p, hc)
  | Some u =>
      let '(p, hc) := if hu_have_resp u then unit_emit p c hc u else (pbump p dropped, hc) in
      (p, unit_pop hc)
  end.

(** ** Bodies *)
Definition body_data p hc d m : proto * http_conn :=
  match d with
  | LK_DIR_RECV =>
      match http_unit_at hc (hc_req_seq hc) with
      | None => (http_orphan p hc, hc)
      | Some _ => (p, unit_upd hc (hc_req_seq hc) (fun u => u <| hu_bytes_in ::= fun n => u64 (n + m_len m) |>))
      end
  | LK_DIR_SEND =>
      if hc_resp_orphan hc then (p, hc)
      else match http_unit_front hc with
      | None => (http_orphan p hc, hc)
      | Some _ => (p, unit_upd hc (hc_head_seq hc) (fun u => u <| hu_bytes_out ::= fun n => u64 (n + m_len m) |>))
      end
  end.
Definition body_end p c hc d m : proto * http_conn :=
  match d with
  | LK_DIR_RECV =>
      let seq := hc_req_seq hc in
      let o := http_unit_at hc seq in
      let hc := hc <| hc_req_seq := no_seq |> in
      match o with
      | None => (http_orphan p hc, hc)
      | Some _ => (p, unit_upd hc seq (fun u => u <| hu_req_done := true |> <| hu_ts_req_done_ns := m_ts_ns m |>))
      end
  | LK_DIR_SEND =>
      if hc_resp_orphan hc then (p, hc <| hc_resp_orphan := false |>)
      else match http_unit_front hc with
      | None => (http_orphan p hc, hc)
      | Some u =>
          if negb (hu_have_resp u) then (http_orphan p hc, unit_pop hc)
          else unit_retire p c (unit_upd hc (hc_head_seq hc) (fun u => u <| hu_ts_complete_ns := m_ts_ns m |>)) id
      end
  end.

(** ** Notes *)
Definition note_counts (n : Z) (s : lk_proto_stats) : lk_proto_stats :=
  let s := if LK_HTTP_NOTE_IS_PARSE_ERR n then s <| ps_parse_errors ::= inc64 |> else s in
  if LK_HTTP_NOTE_IS_BLIND n then
    let s := s <| ps_blind_conns ::= inc64 |> in
    if n =? http_note_code LK_HTTP_NOTE_BLIND_H2 then s <| ps_blind_h2 ::= inc64 |>
    else if n =? http_note_code LK_HTTP_NOTE_BLIND_UPGRADE then s <| ps_blind_upgrade ::= inc64 |>
    else s <| ps_blind_connect ::= inc64 |>
  else s.
Definition unseen_front hc : http_conn :=
  match http_unit_front hc with Some _ => unit_upd hc (hc_head_seq hc) (hflag LK_QO_BODY_UNSEEN) | None => hc end.
Definition framer_note p (o : option http_conn) m : proto * option http_conn :=
  (pbump p (note_counts (m_len m)), if m_len m =? http_note_code LK_HTTP_NOTE_BODY_UNSEEN then unseen_front <$> o else o).

(** ** The sink *)
Definition http_dispatch p c hc d m : proto * http_conn :=
  let t := m_type m in
  if t =? LK_HTTP_MSG_REQ then match d with LK_DIR_RECV => http_req_head p c hc m | LK_DIR_SEND => (p, hc) end
  else if (t =? LK_HTTP_MSG_RESP) || (t =? LK_HTTP_MSG_INTER) then
    match d with LK_DIR_SEND => http_resp_head p hc m (t =? LK_HTTP_MSG_INTER) | LK_DIR_RECV => (p, hc) end
  else if t =? LK_HTTP_MSG_DATA then body_data p hc d m
  else if t =? LK_HTTP_MSG_END then body_end p c hc d m
  else if t =? LK_HTTP_MSG_ERRB then
    (p, match d, d_err_body (hc_d hc) with
        | LK_DIR_SEND, Some f => if zlen (m_body m) =? 0 then hc else hc <| hc_dr ::= fun dr => f dr (m_body m) |>
        | _, _ => hc
        end)
  else (pbump p (fun s => s <| ps_unknown_msgs ::= inc64 |>), hc).
Definition put_state c hc : conn := c <| c_proto_state := Some hc |>.
Definition http_on_msg p c d m : proto * conn :=
  let '(o, p, c) := http_conn_get p c in
  let p := pbump p (fun s => s <| ps_msgs ::= inc64 |>) in
  if m_type m =? LK_HTTP_MSG_NOTE then
    let '(p, o) := framer_note (pbump p (count_type d (ch "!"))) o m in
    (p, match o with Some hc => put_state c hc | None => c end)
  else match o with
  | None => (p, c)
  | Some hc => let '(p, hc) := http_dispatch p c (hc <| hc_msgs ::= inc64 |>) d m in (p, put_state c hc)
  end.
(** The answered units at the front dropped, and how many. *)
Fixpoint drop_answered (fuel : nat) hc : http_conn * Z :=
  match fuel with
  | O => (hc, 0)
  | S fuel =>
      match http_unit_front hc with
      | Some u => if hu_have_resp u then let '(hc, n) := drop_answered fuel (unit_pop hc) in (hc, n + 1) else (hc, 0)
      | None => (hc, 0)
      end
  end.
Definition resync_units p hc d : proto * http_conn :=
  match d with
  | LK_DIR_RECV => let '(hc, n) := units_drop_all hc in (pbump p (dropped_resync n), hc)
  | LK_DIR_SEND =>
      let '(hc, n) := drop_answered (Z.to_nat (hc_open_seq hc - hc_head_seq hc)) hc in
      (pbump p (dropped_resync n), hc <| hc_resp_orphan := false |>)
  end.
Definition http_on_resync p c d : proto * conn :=
  let '(o, p, c) := http_conn_get p c in
  let p := pbump p (fun s => s <| ps_resyncs ::= inc64 |>) in
  match o with
  | None => (p, c)
  | Some hc => let '(p, hc) := resync_units p hc d in (p, put_state c (hc <| hc_degraded := true |>))
  end.
(** The front unit completed by the close. *)
Definition close_front p c hc : proto * http_conn :=
  match http_unit_front hc with
  | Some u =>
      if hu_have_resp u then
        unit_retire p c (unit_upd hc (hc_head_seq hc)
          (fun u => let u := u <| hu_ts_complete_ns := c_last_activity_ns c |> in if hu_to_close u then u else hflag LK_QO_BODY_UNSEEN u)) id
      else (p, hc)
  | None => (p, hc)
  end.
Definition http_on_conn_close p c : proto * conn :=
  match c_proto_state c with
  | None => (p, c)
  | Some hc =>
      let '(p, hc) := close_front p c hc in
      let '(_, n) := units_drop_all hc in
      (pbump p (dropped_close n), c <| c_proto_state := None |>)
  end.
Definition http_sink : lk_msg_sink proto http_conn F := Sink (Some http_on_msg) (Some http_on_conn_close) (Some http_on_resync).
Definition lk_proto_http_new (out : lk_query_sink U http_conn F) (up : U) (oom : list bool) : proto := Proto out up pstats0 oom.
End Handler.
