(* ===== verification/HttpHandler.v ===== *)
(** The HTTP handler as a queue machine: a list of requests in flight, no ring, no sequence
    numbers, no buffer capacities.  It is the specification the handler is proved against;
    what is a pure function of one head is shared with it.

    The HTTP handler, with either dialect, implements the queue machine on any sequence of
    messages, resyncs and closes. *)
From Stdlib Require Import Ascii String.
From stdpp Require Import base list list_numbers option.
From S2P Require Import Prelude Conn Proto Reassembly NormRoute NormRouteProps NormS3 HttpWire HttpFrame Http.
#[local] Open Scope Z_scope.

(** ** The machine *)
(** Requests in flight, oldest first, and the position of the one whose body is being read. *)
Record hconn := HQ {
  h_session : lk_session; h_dr : http_dresp; h_queue : list http_unit; h_req : option nat; h_owed : Z; h_unowned : bool; h_emitted : bool; h_degraded : bool }.
#[global] Instance http_hconn_upd : Updatable hconn := fun h =>
  HQ (h_session h) (h_dr h) (h_queue h) (h_req h) (h_owed h) (h_unowned h) (h_emitted h) (h_degraded h).
(** A unit without the capacities of its buffers. *)
Definition recap (a b : Z) (u : http_unit) : http_unit := u <| hu_target_cap := a |> <| hu_tracestate_cap := b |>.
Definition core : http_unit -> http_unit := recap 0 0.

Section Queue.
Context {U F : Type} (XXH3 : list Z -> Z) (cfg : lk_http_cfg) (dl : lk_http_dialect).
Abbreviation proto := (lk_proto U http_conn F).
Abbreviation conn := (lk_conn http_conn F).
Implicit Types (p : proto) (c : conn) (h : hconn) (u : http_unit) (m : lk_msg) (d : lk_dir).

Definition h_init (synthetic : bool) : hconn := HQ session0 http_dresp0 [] None 0 false false synthetic.
Definition h_orphan p h : proto := if h_degraded h then p else pbump p (fun s => s <| ps_orphan_msgs ::= inc64 |>).
Definition h_pop h : hconn := h <| h_queue ::= tail |> <| h_req ::= fun o => match o with Some (S i) => Some i | _ => None end |>.
Definition h_drop h : hconn * Z := (h <| h_queue := [] |> <| h_req := None |> <| h_owed := 0 |> <| h_unowned := false |>, zlen (h_queue h)).
Definition on_front (g : http_unit -> http_unit) h : hconn := h <| h_queue ::= alter g 0%nat |>.

(** ** Requests *)
Definition pipelined : http_unit -> http_unit := hflag LK_QO_PIPELINED.
Definition opened (ts : Z) (old : list http_unit) : http_unit :=
  let u := http_unit0 <| hu_used := true |> <| hu_ts_start_ns := ts |> in match old with [] => u | _ => pipelined u end.
Definition h_session_emit p c h u (ua : list Z) : proto * hconn :=
  if h_emitted h then (p, h)
  else
    let h := h <| h_session ::= session_labels u ua |> <| h_emitted := true |> in
    (up_session (pbump p (fun s => s <| ps_sessions ::= inc64 |>)) c (h_session h), h).
Definition h_req_head p c h m : proto * hconn :=
  match req_line m with
  | None => (h_orphan p h, h)
  | Some (method, target, minor, hd) =>
      let old := h_queue h in
      if LK_HTTP_MAX_INFLIGHT <=? zlen old then (pbump p dropped_overflow, h <| h_owed ::= fun n => u32 (n + 1) |>)
      else
        let '(u, ua, _) := req_fill cfg dl m hd method target minor [] (opened (m_ts_ns m) old) in
        let h := h <| h_degraded := false |> <| h_queue := map pipelined old ++ [core u] |> <| h_req := Some (length old) |> in
        h_session_emit (pbump p (count_type LK_DIR_RECV (http_method_tag (hu_method_id u)))) c h u ua
  end.

(** ** Responses *)
Definition h_resp_head p h m (interim : bool) : proto * hconn :=
  match status_line m with
  | None => (h_orphan p h, h)
  | Some (code, minor, hd) =>
      let p := pbump p (count_type LK_DIR_SEND (u8 (ch "0" + code / 100))) in
      match h_queue h with
      | [] =>
          let h := if negb interim && negb (h_owed h =? 0) then h <| h_owed ::= fun n => n - 1 |> <| h_unowned := true |> else h in
          (h_orphan p h, h)
      | u :: _ =>
          if interim then (p, if hu_ts_interim_ns u =? 0 then on_front (fun u => u <| hu_ts_interim_ns := m_ts_ns m |>) h else h)
          else let '(dr, u) := resp_fill dl m hd code minor u in (p, on_front (fun _ => u) (h <| h_dr := dr |>))
      end
  end.
(** The text: the target, its secrets hidden unless that is switched off. *)
Definition h_text u (o : lk_query_obs) : lk_query_obs :=
  if has_flag (hu_flags u) LK_QO_NO_TEXT || (zlen (hu_target u) =? 0) then no_text o
  else if cf_no_redact cfg || negb (lk_url_redact_needed (hu_target u)) then o <| o_text := Some (hu_target u) |>
  else o <| o_text := Some (lk_url_redact (hu_target u) (zlen (hu_target u) * 2 + zlen LK_REDACT_MARK)) |>.
Definition h_route u : lk_route_out :=
  if nonempty (hu_route_hdr u) then lk_norm_route_given XXH3 (c_str (hu_method u)) (c_str (hu_route_hdr u))
  else if has_flag (hu_flags u) LK_QO_NO_TEXT || (zlen (hu_target u) =? 0) then RouteOut [] 0 0
  else d_classify dl (unit_req u) cfg.
Definition h_emit p c h u : proto * hconn :=
  let o := obs_route (h_route u) (h_text u (unit_obs (h_dr h) u)) in
  let o := match d_obs dl with Some f => f (h_dr h) u o | None => o end in
  let h := h <| h_session ::= obs_session u |> in
  let p := pbump p (fun s => s <| ps_queries ::= inc64 |>) in
  let p := if has_flag (o_flags o) LK_QO_ERROR then pbump p (fun s => s <| ps_errors_sql ::= inc64 |>) else p in
  (up_query p c (h_session h) o, h).

(** ** Bodies *)
Definition h_data p h d m : proto * hconn :=
  match d with
  | LK_DIR_RECV =>
      match h_req h with
      | None => (h_orphan p h, h)
      | Some i => (p, h <| h_queue ::= alter (fun u => u <| hu_bytes_in ::= fun n => u64 (n + m_len m) |>) i |>)
      end
  | LK_DIR_SEND =>
      if h_unowned h then (p, h)
      else match h_queue h with
      | [] => (h_orphan p h, h)
      | _ => (p, on_front (fun u => u <| hu_bytes_out ::= fun n => u64 (n + m_len m) |>) h)
      end
  end.
(** The oldest request, answered, is reported and leaves. *)
Definition h_finish p c h (g : http_unit -> http_unit) : proto * hconn :=
  match h_queue h with
  | [] => (p, h)
  | u :: _ => let '(p, h) := h_emit p c h (g u) in (p, h_pop h)
  end.
Definition h_end p c h d m : proto * hconn :=
  match d with
  | LK_DIR_RECV =>
      match h_req h with
      | None => (h_orphan p h, h)
      | Some i => (p, h <| h_req := None |> <| h_queue ::= alter (fun u => u <| hu_req_done := true |> <| hu_ts_req_done_ns := m_ts_ns m |>) i |>)
      end
  | LK_DIR_SEND =>
      if h_unowned h then (p, h <| h_unowned := false |>)
      else match h_queue h with
      | [] => (h_orphan p h, h)
      | u :: _ => if negb (hu_have_resp u) then (h_orphan p h, h_pop h) else h_finish p c h (fun u => u <| hu_ts_complete_ns := m_ts_ns m |>)
      end
  end.

(** ** Calls *)
Definition h_msg p c h d m : proto * hconn :=
  let t := m_type m in
  if t =? LK_HTTP_MSG_REQ then match d with LK_DIR_RECV => h_req_head p c h m | LK_DIR_SEND => (p, h) end
  else if (t =? LK_HTTP_MSG_RESP) || (t =? LK_HTTP_MSG_INTER) then
    match d with LK_DIR_SEND => h_resp_head p h m (t =? LK_HTTP_MSG_INTER) | LK_DIR_RECV => (p, h) end
  else if t =? LK_HTTP_MSG_DATA then h_data p h d m
  else if t =? LK_HTTP_MSG_END then h_end p c h d m
  else if t =? LK_HTTP_MSG_ERRB then
    (p, match d, d_err_body dl with
        | LK_DIR_SEND, Some f => if zlen (m_body m) =? 0 then h else h <| h_dr ::= fun dr => f dr (m_body m) |>
        | _, _ => h
        end)
  else (pbump p (fun s => s <| ps_unknown_msgs ::= inc64 |>), h).
(** How many of the oldest requests are answered. *)
Fixpoint answered (q : list http_unit) : nat := match q with u :: q => if hu_have_resp u then S (answered q) else O | [] => O end.
Definition h_resync p h d : proto * hconn :=
  let '(p, h) := match d with
                 | LK_DIR_RECV => let '(h, n) := h_drop h in (pbump p (dropped_resync n), h)
                 | LK_DIR_SEND => let n := answered (h_queue h) in (pbump p (dropped_resync (Z.of_nat n)), Nat.iter n h_pop h <| h_unowned := false |>)
                 end in
  (p, h <| h_degraded := true |>).
(** An answered front request is completed by the close, the others are lost. *)
Definition h_close p c h (now : Z) : proto :=
  let '(p, h) := match h_queue h with
                 | u :: _ => if hu_have_resp u then h_finish p c h (fun u => let u := u <| hu_ts_complete_ns := now |> in if hu_to_close u then u else hflag LK_QO_BODY_UNSEEN u) else (p, h)
                 | [] => (p, h)
                 end in
  pbump p (dropped_close (zlen (h_queue h))).
End Queue.

(** ** The ring as a list *)
Implicit Types (hc : http_conn) (u v : http_unit) (seq : Z).
Definition short u : Prop := zlen (hu_target u) <= LK_HTTP_TARGET_MAX.
Definition live hc : list Z := seqZ (hc_head_seq hc) (hc_open_seq hc - hc_head_seq hc).
Definition queue hc : list http_unit := map (fun s => core (unit_of hc s)) (live hc).
Definition reading hc : option nat :=
  if (hc_head_seq hc <=? hc_req_seq hc) && (hc_req_seq hc <? hc_open_seq hc) then Some (Z.to_nat (hc_req_seq hc - hc_head_seq hc)) else None.
Definition abs hc : hconn := HQ (hc_session hc) (hc_dr hc) (queue hc) (reading hc) (hc_owed hc) (hc_resp_orphan hc) (hc_session_emitted hc) (hc_degraded hc).
Record hwf (dl : lk_http_dialect) (n : Z) hc : Prop := HWf {
  hw_dialect : hc_d hc = dl; hw_ring : length (hc_ring hc) = 16%nat; hw_head : 0 <= hc_head_seq hc <= hc_open_seq hc;
  hw_full : hc_open_seq hc - hc_head_seq hc <= LK_HTTP_MAX_INFLIGHT; hw_open : hc_open_seq hc <= n; hw_short : Forall short (queue hc) }.

Lemma http_hslot_inj a b : Z.abs (a - b) < 16 -> hslot a = hslot b -> a = b.
Proof.
  unfold hslot. change LK_HTTP_MAX_INFLIGHT with 16. intros H E. pose proof (Z.mod_pos_bound a 16 ltac:(lia)). pose proof (Z.mod_pos_bound b 16 ltac:(lia)).
  pose proof (Z.div_mod a 16 ltac:(lia)). pose proof (Z.div_mod b 16 ltac:(lia)). lia.
Qed.
Lemma http_hslot_lt a : (hslot a < 16)%nat.
Proof. unfold hslot. change LK_HTTP_MAX_INFLIGHT with 16. pose proof (Z.mod_pos_bound a 16 ltac:(lia)). lia. Qed.
Lemma unit_of_upd_eq hc s g : length (hc_ring hc) = 16%nat -> unit_of (unit_upd hc s g) s = g (unit_of hc s).
Proof.
  intros Hl. unfold unit_of, unit_upd. cbn [hc_ring upd]. destruct (lookup_lt_is_Some_2 (hc_ring hc) (hslot s)) as [x Hx]; [rewrite Hl; apply http_hslot_lt|].
  rewrite (nth_lookup_Some _ _ _ x Hx). apply nth_lookup_Some. rewrite list_lookup_alter_eq. by rewrite Hx.
Qed.
Lemma unit_of_upd_ne hc s s' g : Z.abs (s - s') < 16 -> s <> s' -> unit_of (unit_upd hc s g) s' = unit_of hc s'.
Proof.
  intros H Hne. unfold unit_of, unit_upd. cbn [hc_ring upd]. rewrite !nth_lookup. rewrite list_lookup_alter_ne; [done|]. intros E. apply Hne. by apply http_hslot_inj.
Qed.
Lemma queue_ext hc hc' : hc_ring hc' = hc_ring hc -> hc_head_seq hc' = hc_head_seq hc -> hc_open_seq hc' = hc_open_seq hc -> queue hc' = queue hc.
Proof. intros E1 E2 E3. unfold queue, live. rewrite E2, E3. apply map_ext. intros t. unfold unit_of. by rewrite E1. Qed.
Lemma http_queue_empty hc : hc_open_seq hc <= hc_head_seq hc -> queue hc = [].
Proof. intros H. unfold queue, live. by rewrite seqZ_nil by lia. Qed.
Lemma queue_front hc : hc_head_seq hc < hc_open_seq hc ->
  queue hc = core (unit_of hc (hc_head_seq hc)) :: map (fun s => core (unit_of hc s)) (seqZ (hc_head_seq hc + 1) (hc_open_seq hc - hc_head_seq hc - 1)).
Proof. intros H. unfold queue, live. by rewrite seqZ_cons by lia. Qed.
Lemma queue_length hc : hc_head_seq hc <= hc_open_seq hc -> zlen (queue hc) = hc_open_seq hc - hc_head_seq hc.
Proof. intros H. unfold queue, live, zlen. rewrite length_map, length_seqZ. lia. Qed.
Lemma queue_lookup hc (i : nat) : queue hc !! i = if Z.of_nat i <? hc_open_seq hc - hc_head_seq hc then Some (core (unit_of hc (hc_head_seq hc + Z.of_nat i))) else None.
Proof.
  unfold queue, live. rewrite list_lookup_fmap. destruct (Z.ltb_spec (Z.of_nat i) (hc_open_seq hc - hc_head_seq hc)).
  - by rewrite lookup_seqZ_lt by lia.
  - by rewrite lookup_seqZ_ge by lia.
Qed.
(** Nothing of the ring changes. *)
Lemma hwf_ext dl n hc hc' : hwf dl n hc -> hc_d hc' = hc_d hc -> hc_ring hc' = hc_ring hc -> hc_head_seq hc' = hc_head_seq hc -> hc_open_seq hc' = hc_open_seq hc -> hwf dl n hc'.
Proof. intros [W1 W2 W3 W4 W5 W6] E0 E1 E2 E3. split; rewrite ?E0, ?E1, ?E2, ?E3; try done. by rewrite (queue_ext hc). Qed.
Lemma hwf_mono dl n n' hc : n <= n' -> hwf dl n hc -> hwf dl n' hc.
Proof. intros H []. split; try done. lia. Qed.
Lemma front_at dl n hc : hwf dl n hc -> http_unit_front hc = (if hc_head_seq hc <? hc_open_seq hc then Some (unit_of hc (hc_head_seq hc)) else None).
Proof. intros [_ _ W _ _ _]. unfold http_unit_front, http_unit_at. destruct (Z.ltb_spec (hc_head_seq hc) (hc_head_seq hc)), (Z.leb_spec (hc_open_seq hc) (hc_head_seq hc)), (Z.ltb_spec (hc_head_seq hc) (hc_open_seq hc)); lia || done. Qed.
(** An update of a unit in flight is one of the list. *)
Lemma upd_queue dl n hc s g g' : hwf dl n hc -> hc_head_seq hc <= s < hc_open_seq hc -> core (g (unit_of hc s)) = g' (core (unit_of hc s)) ->
  queue (unit_upd hc s g) = alter g' (Z.to_nat (s - hc_head_seq hc)) (queue hc).
Proof.
  intros [W1 W2 W3 W4 W5 W6] Hs E. change LK_HTTP_MAX_INFLIGHT with 16 in *. apply list_eq. intros i. rewrite queue_lookup. change (hc_open_seq (unit_upd hc s g)) with (hc_open_seq hc). change (hc_head_seq (unit_upd hc s g)) with (hc_head_seq hc).
  destruct (decide (i = Z.to_nat (s - hc_head_seq hc))) as [->|Hne].
  - rewrite list_lookup_alter_eq, queue_lookup. destruct (Z.ltb_spec (Z.of_nat (Z.to_nat (s - hc_head_seq hc))) (hc_open_seq hc - hc_head_seq hc)); [|lia]. cbn [fmap option_fmap option_map]. f_equal.
    replace (hc_head_seq hc + Z.of_nat (Z.to_nat (s - hc_head_seq hc))) with s by lia. rewrite unit_of_upd_eq by done. exact E.
  - rewrite list_lookup_alter_ne, queue_lookup by done. destruct (Z.ltb_spec (Z.of_nat i) (hc_open_seq hc - hc_head_seq hc)); [|done]. by rewrite unit_of_upd_ne by lia.
Qed.
Lemma alter_short g' i (q : list http_unit) : (forall u, q !! i = Some u -> short (g' u)) -> Forall short q -> Forall short (alter g' i q).
Proof.
  intros Hg Hq. apply Forall_lookup_2. intros j u Hj. destruct (decide (j = i)) as [->|Hne].
  - rewrite list_lookup_alter_eq in Hj. destruct (q !! i) as [v|] eqn:E; [|done]. injection Hj as <-. by apply Hg.
  - rewrite list_lookup_alter_ne in Hj by done. by eapply Forall_lookup_1.
Qed.
Lemma upd_spec dl n hc s g g' : hwf dl n hc -> hc_head_seq hc <= s < hc_open_seq hc -> core (g (unit_of hc s)) = g' (core (unit_of hc s)) -> short (g' (core (unit_of hc s))) ->
  abs (unit_upd hc s g) = abs hc <| h_queue ::= alter g' (Z.to_nat (s - hc_head_seq hc)) |> /\ hwf dl n (unit_upd hc s g).
Proof.
  intros W Hs E Hg. pose proof (upd_queue dl n hc s g g' W Hs E) as Eq. split; [unfold abs; by rewrite Eq|]. destruct W as [W1 W2 W3 W4 W5 W6]. split; try done; [unfold unit_upd; cbn [hc_ring upd]; by rewrite length_alter|].
  rewrite Eq. apply alter_short; [|done]. intros u Hu. rewrite queue_lookup in Hu. destruct (_ <? _); [|done]. injection Hu as <-. replace (hc_head_seq hc + Z.of_nat (Z.to_nat (s - hc_head_seq hc))) with s by lia. done.
Qed.
Lemma inc64_next x : 0 <= x -> x + 1 < 2 ^ 64 -> inc64 x = x + 1.
Proof. intros. unfold inc64, u64. apply Z.mod_small. lia. Qed.

(** ** Leaving the ring *)
Lemma pop_spec dl n hc : hwf dl n hc -> n < 2 ^ 64 -> hc_head_seq hc < hc_open_seq hc -> abs (unit_pop hc) = h_pop (abs hc) /\ hwf dl n (unit_pop hc).
Proof.
  intros [W1 W2 W3 W4 W5 W6] Hn Hl. change LK_HTTP_MAX_INFLIGHT with 16 in *. assert (hc_head_seq (unit_pop hc) = hc_head_seq hc + 1) as Eh by (apply inc64_next; lia).
  assert (queue (unit_pop hc) = tail (queue hc)) as Eq.
  { rewrite (queue_front hc Hl). cbn [tail]. unfold queue, live. rewrite Eh. change (hc_open_seq (unit_pop hc)) with (hc_open_seq hc). replace (hc_open_seq hc - (hc_head_seq hc + 1)) with (hc_open_seq hc - hc_head_seq hc - 1) by lia.
    apply map_ext_in. intros s Hs. apply list_elem_of_In, elem_of_seqZ in Hs. f_equal. exact (unit_of_upd_ne hc (hc_head_seq hc) s _ ltac:(lia) ltac:(lia)). }
  split.
  - unfold abs, h_pop. rewrite Eq. cbn. f_equal. unfold reading. rewrite Eh. change (hc_open_seq (unit_pop hc)) with (hc_open_seq hc). change (hc_req_seq (unit_pop hc)) with (hc_req_seq hc). cbn.
    destruct (Z.leb_spec (hc_head_seq hc + 1) (hc_req_seq hc)), (Z.leb_spec (hc_head_seq hc) (hc_req_seq hc)), (Z.ltb_spec (hc_req_seq hc) (hc_open_seq hc)); cbn [andb]; try lia; try done.
    + replace (Z.to_nat (hc_req_seq hc - hc_head_seq hc)) with (S (Z.to_nat (hc_req_seq hc - (hc_head_seq hc + 1)))) by lia. done.
    + replace (Z.to_nat (hc_req_seq hc - hc_head_seq hc)) with O by lia. done.
  - split; rewrite ?Eh; try done; change (hc_open_seq (unit_pop hc)) with (hc_open_seq hc); [cbn; by rewrite length_alter|lia|change LK_HTTP_MAX_INFLIGHT with 16; lia|]. rewrite Eq, (queue_front hc Hl). cbn [tail]. rewrite (queue_front hc Hl) in W6. by inversion W6.
Qed.
Lemma drop_from_spec k : forall hc, hc_open_seq hc - hc_head_seq hc = Z.of_nat k -> 0 <= hc_head_seq hc -> hc_open_seq hc < 2 ^ 64 -> length (hc_ring hc) = 16%nat ->
  exists ring, length ring = 16%nat /\ drop_from k hc = (hc <| hc_ring := ring |> <| hc_head_seq := hc_open_seq hc |>, Z.of_nat k).
Proof.
  induction k as [|k IH]; intros hc Hk H0 Hn Hl; cbn [drop_from].
  - exists (hc_ring hc). split; [done|]. f_equal. destruct hc. cbn in *. f_equal. lia.
  - destruct (Z.ltb_spec (hc_head_seq hc) (hc_open_seq hc)); [|lia]. set (hc1 := _ <| hc_head_seq ::= inc64 |>). assert (hc_head_seq hc1 = hc_head_seq hc + 1) as E1 by (apply inc64_next; lia). assert (hc_open_seq hc1 = hc_open_seq hc) as E2 by done.
    destruct (IH hc1) as (ring & Hr & ->); [lia..|subst hc1; cbn; by rewrite length_alter|]. exists ring. split; [done|]. f_equal. lia.
Qed.
Lemma http_drop_spec dl n hc : hwf dl n hc -> n < 2 ^ 64 -> h_drop (abs hc) = (abs (units_drop_all hc).1, (units_drop_all hc).2) /\ hwf dl n (units_drop_all hc).1.
Proof.
  intros [W1 W2 W3 W4 W5 W6] Hn. unfold units_drop_all. destruct (drop_from_spec (Z.to_nat (hc_open_seq hc - hc_head_seq hc)) hc) as (ring & Hr & ->); [lia..|done|]. cbn [fst snd].
  set (hc' := _ <| hc_resp_orphan := false |>). assert (queue hc' = []) as Eq by (apply http_queue_empty; subst hc'; cbn; lia). split.
  - unfold h_drop, abs. rewrite Eq. cbn [h_queue]. f_equal; [|rewrite queue_length; lia]. f_equal. unfold reading. subst hc'. cbn. destruct (Z.leb_spec (hc_open_seq hc) no_seq), (Z.ltb_spec no_seq (hc_open_seq hc)); unfold no_seq in *; lia || done.
  - split; try done; [subst hc'; cbn; lia|subst hc'; cbn; change LK_HTTP_MAX_INFLIGHT with 16; lia|by rewrite Eq].
Qed.
Lemma drop_answered_spec dl n k : forall hc, hwf dl n hc -> n < 2 ^ 64 -> hc_open_seq hc - hc_head_seq hc <= Z.of_nat k ->
  let '(hc', j) := drop_answered k hc in j = Z.of_nat (answered (queue hc)) /\ abs hc' = Nat.iter (answered (queue hc)) h_pop (abs hc) /\ hwf dl n hc'.
Proof.
  induction k as [|k IH]; intros hc W Hn Hk; cbn [drop_answered].
  - rewrite http_queue_empty by lia. done.
  - rewrite (front_at dl n hc W). destruct (Z.ltb_spec (hc_head_seq hc) (hc_open_seq hc)) as [Hl|]; [|by rewrite http_queue_empty by lia].
    rewrite (queue_front hc Hl). cbn [answered]. change (hu_have_resp (core (unit_of hc (hc_head_seq hc)))) with (hu_have_resp (unit_of hc (hc_head_seq hc))). destruct (hu_have_resp _); [|done].
    destruct (pop_spec dl n hc W Hn Hl) as [E W1]. assert (hc_head_seq (unit_pop hc) = hc_head_seq hc + 1) as Eh by (destruct W; apply inc64_next; lia).
    specialize (IH (unit_pop hc) W1 Hn ltac:(rewrite Eh; change (hc_open_seq (unit_pop hc)) with (hc_open_seq hc); lia)). destruct (drop_answered k (unit_pop hc)) as [hc' j]. destruct IH as (-> & E2 & W2).
    assert (queue (unit_pop hc) = map (fun s => core (unit_of hc s)) (seqZ (hc_head_seq hc + 1) (hc_open_seq hc - hc_head_seq hc - 1))) as Eq by (apply (f_equal h_queue) in E; cbn in E; by rewrite (queue_front hc Hl) in E).
    rewrite Eq in *. split; [lia|]. split; [|done]. rewrite E2, E. by rewrite Nat.iter_succ_r.
Qed.

(** ** Entering it *)
Lemma mark_spec k : forall s hc, length (hc_ring hc) = 16%nat -> s + Z.of_nat k = hc_open_seq hc -> hc_head_seq hc <= s -> hc_open_seq hc - hc_head_seq hc <= 16 ->
  exists ring, length ring = 16%nat /\ mark_from k s hc = hc <| hc_ring := ring |> /\
    forall t, hc_head_seq hc <= t < hc_open_seq hc -> unit_of (hc <| hc_ring := ring |>) t = if s <=? t then pipelined (unit_of hc t) else unit_of hc t.
Proof.
  induction k as [|k IH]; intros s hc Hl Hs Hh Hf; cbn [mark_from].
  - exists (hc_ring hc). split; [done|]. split; [by destruct hc|]. intros t Ht. destruct (Z.leb_spec s t); [lia|done].
  - destruct (Z.ltb_spec s (hc_open_seq hc)); [|lia]. set (hc1 := unit_upd hc s _). assert (length (hc_ring hc1) = 16%nat) as Hl1 by (subst hc1; unfold unit_upd; cbn; by rewrite length_alter).
    destruct (IH (s + 1) hc1 Hl1 ltac:(cbn; lia) ltac:(cbn; lia) ltac:(done)) as (ring & Hr & E & Ht). exists ring. split; [done|]. split; [rewrite E; subst hc1; by destruct hc|].
    intros t Hb. specialize (Ht t Hb). change (unit_of (hc1 <| hc_ring := ring |>) t) with (unit_of (hc <| hc_ring := ring |>) t) in Ht. rewrite Ht. destruct (Z.eq_dec s t) as [->|Hne].
    + destruct (Z.leb_spec (t + 1) t); [lia|]. destruct (Z.leb_spec t t); [|lia]. subst hc1. by rewrite unit_of_upd_eq.
    + subst hc1. rewrite unit_of_upd_ne by lia. destruct (Z.leb_spec (s + 1) t), (Z.leb_spec s t); lia || done.
Qed.
Lemma core_recap a b u : core (recap a b u) = core u.
Proof. done. Qed.
Lemma map_seqZ_eq {A} (f g : Z -> A) a k : (forall s, a <= s < a + k -> f s = g s) -> map f (seqZ a k) = map g (seqZ a k).
Proof. intros H. apply map_ext_in. intros s Hs. apply H. apply list_elem_of_In, elem_of_seqZ in Hs. lia. Qed.
Lemma queue_grow hc hc' : hc_head_seq hc <= hc_open_seq hc -> hc_head_seq hc' = hc_head_seq hc -> hc_open_seq hc' = hc_open_seq hc + 1 ->
  queue hc' = map (fun s => core (unit_of hc' s)) (live hc) ++ [core (unit_of hc' (hc_open_seq hc))].
Proof.
  intros H E1 E2. unfold queue, live. rewrite E1, E2. replace (hc_open_seq hc + 1 - hc_head_seq hc) with ((hc_open_seq hc - hc_head_seq hc) + 1) by lia. rewrite seqZ_app, map_app by lia.
  f_equal. replace (hc_head_seq hc + (hc_open_seq hc - hc_head_seq hc)) with (hc_open_seq hc) by lia. done.
Qed.
Lemma http_open_spec {U F} dl n (p : lk_proto U http_conn F) hc ts : hwf dl n hc -> n + 1 < 2 ^ 64 ->
  match http_unit_open p hc ts with
  | (p', None) => LK_HTTP_MAX_INFLIGHT <= zlen (queue hc) /\ p' = pbump p dropped_overflow
  | (p', Some hc') => zlen (queue hc) < LK_HTTP_MAX_INFLIGHT /\ p' = p /\ (exists ring, length ring = 16%nat /\ hc' = hc <| hc_open_seq := hc_open_seq hc + 1 |> <| hc_ring := ring |>) /\
      queue hc' = map pipelined (queue hc) ++ [opened ts (queue hc)] /\ exists a b, unit_of hc' (hc_open_seq hc) = recap a b (opened ts (queue hc))
  end.
Proof.
  intros [W1 W2 W3 W4 W5 W6] Hn. pose proof (queue_length hc ltac:(lia)) as Hq. unfold http_unit_open. change LK_HTTP_MAX_INFLIGHT with 16 in *. rewrite (u64_small (hc_open_seq hc - hc_head_seq hc)) by lia.
  destruct (Z.leb_spec 16 (hc_open_seq hc - hc_head_seq hc)) as [|Hlt]; [split; [lia|done]|]. set (s := hc_open_seq hc) in *. set (fresh := http_unit0 <| hu_used := true |> <| hu_ts_start_ns := ts |>).
  set (hc1 := _ <| hc_open_seq ::= inc64 |>). assert (hc_open_seq hc1 = s + 1) as Eo by (subst hc1; cbn; apply inc64_next; lia). assert (length (hc_ring hc1) = 16%nat) as Hl1 by (subst hc1; unfold unit_upd; cbn; by rewrite length_alter).
  assert (hc1 = hc <| hc_open_seq := s + 1 |> <| hc_ring := hc_ring hc1 |>) as E1 by (rewrite <- Eo; subst hc1; by destruct hc).
  assert (exists a b, unit_of hc1 s = recap a b fresh) as (a & b & R1) by (eexists _, _; exact (unit_of_upd_eq hc s _ W2)).
  assert (forall t, hc_head_seq hc <= t < s -> unit_of hc1 t = unit_of hc t) as R2 by (intros t Ht; exact (unit_of_upd_ne hc s t _ ltac:(lia) ltac:(lia))).
  rewrite Eo. change (hc_head_seq hc1) with (hc_head_seq hc). rewrite (u64_small (s + 1 - hc_head_seq hc)) by lia. split; [lia|]. split; [done|]. destruct (Z.ltb_spec 1 (s + 1 - hc_head_seq hc)) as [Hp|Hp].
  - destruct (mark_spec (Z.to_nat (s + 1 - hc_head_seq hc)) (hc_head_seq hc) hc1 Hl1) as (ring & Hr & -> & Hm); [lia|done|rewrite Eo; change (hc_head_seq hc1) with (hc_head_seq hc); lia|]. change (hc_head_seq hc1) with (hc_head_seq hc) in Hm. rewrite Eo in Hm.
    assert (queue hc <> []) as Hne by (intros E; rewrite E in Hq; change (zlen []) with 0 in Hq; lia). assert (opened ts (queue hc) = pipelined fresh) as -> by (unfold opened; by destruct (queue hc)). split; [exists ring; split; [done|]; rewrite E1; by destruct hc|]. split.
    + rewrite (queue_grow hc (hc1 <| hc_ring := ring |>)) by done || lia. fold s. f_equal.
      * unfold queue. rewrite map_map. unfold live. apply map_seqZ_eq. intros t Ht. rewrite Hm by lia. destruct (Z.leb_spec (hc_head_seq hc) t); [|lia]. by rewrite R2 by lia.
      * f_equal. rewrite Hm by lia. destruct (Z.leb_spec (hc_head_seq hc) s); [|lia]. by rewrite R1.
    + exists a, b. rewrite Hm by lia. destruct (Z.leb_spec (hc_head_seq hc) s); [|lia]. by rewrite R1.
  - assert (queue hc = []) as Eq by (apply http_queue_empty; lia). rewrite Eq. cbn [map app opened]. fold fresh. split; [by exists (hc_ring hc1)|]. split; [|by exists a, b].
    rewrite (queue_grow hc hc1) by done || lia. fold s. unfold live. rewrite seqZ_nil by lia. cbn [map app]. by rewrite R1.
Qed.

(** ** What does not look at the capacities *)
(** Equal but for the capacities of the buffers. *)
Definition same_unit u v : Prop := core u = core v.
#[global] Instance same_unit_equiv : Equivalence same_unit.
Proof. split; [by intros ?|by intros ? ? ?|intros ? ? ? H1 H2; by etrans]. Qed.
Lemma same_unit_recap u v : same_unit u v -> u = recap (hu_target_cap u) (hu_tracestate_cap u) v.
Proof. intros H. destruct u, v. unfold same_unit, core, recap in H. cbn in *. injection H as. by subst. Qed.
Lemma same_map (f : http_unit -> http_unit) : (forall a b u, f (recap a b u) = recap a b (f u)) -> Proper (same_unit ==> same_unit) f.
Proof. intros Hf u v H. rewrite (same_unit_recap u v H), Hf. done. Qed.
(** What the handler relies on: the hooks see neither the capacities nor write the target. *)
Class CapBlind (dl : lk_http_dialect) := {
  cb_req_field f a b u cfg name val : d_req_field dl = Some f -> f (recap a b u) cfg name val = recap a b (f u cfg name val) /\ hu_target (f u cfg name val) = hu_target u;
  cb_req_head f a b u cfg rq : d_req_head dl = Some f -> f (recap a b u) cfg rq = recap a b (f u cfg rq) /\ hu_target (f u cfg rq) = hu_target u;
  cb_resp_field f a b dr u name val : d_resp_field dl = Some f -> f dr (recap a b u) name val = ((f dr u name val).1, recap a b (f dr u name val).2) /\ hu_target (f dr u name val).2 = hu_target u;
  cb_obs f a b dr u o : d_obs dl = Some f -> f dr (recap a b u) o = f dr u o }.
#[global] Instance base_blind XXH3 : CapBlind (lk_http_dialect_base XXH3).
Proof. split; by intros. Qed.
#[global] Instance s3_blind XXH3 : CapBlind (lk_http_dialect_s3 XXH3).
Proof.
  split.
  - intros f a b u cfg name val [= <-]. unfold s3_req_field. change (hu_user (recap a b u)) with (hu_user u). destruct (http_span_eq_ci _ _); [destruct (s3_no_user _); [done|]; by destruct (s3_auth_access_key _ _ _)|].
    destruct (http_span_eq_ci _ _); [done|]. destruct (http_span_eq_ci _ _); [|done]. by destruct (http_parse_u64 val).
  - intros f a b u cfg rq [= <-]. unfold s3_req_head. destruct (span _ _) as [path rest]. destruct (sa_vhost _); cbn -[nonempty s3_query_access_key]; by destruct (_ && _ && _).
  - intros f a b dr u name val [= <-]. unfold s3_resp_field. change (hu_req_id (recap a b u)) with (hu_req_id u). destruct (http_span_eq_ci _ _); [by destruct (nonempty _)|]. destruct (http_span_eq_ci _ _); [done|]. by destruct (http_span_eq_ci _ _).
  - intros f a b dr u o [= <-]. done.
Qed.
#[global] Instance dialect_blind {P F} XXH3 (c : lk_conn P F) : CapBlind (http_dialect XXH3 c).
Proof. unfold http_dialect. destruct (c_ops c) as [[]|]; apply _. Qed.

Section Blind.
Context (cfg : lk_http_cfg) (dl : lk_http_dialect) {CB : CapBlind dl}.
Lemma same_target u v : same_unit u v -> hu_target u = hu_target v.
Proof. intros H. rewrite (same_unit_recap u v H). done. Qed.
Lemma same_short u v : same_unit u v -> short v -> short u.
Proof. intros H Hs. unfold short. by rewrite (same_target u v H). Qed.
(** ** The request head *)
Definition scan_recap (a b : Z) (x : req_scan) : req_scan := ReqScan (recap a b (rs_u x)) (rs_host x) (rs_ua x) (rs_tstate x).
Lemma base_field_blind a b x name val : base_req_field cfg (scan_recap a b x) name val = scan_recap a b (base_req_field cfg x name val) /\ hu_target (rs_u (base_req_field cfg x name val)) = hu_target (rs_u x).
Proof.
  unfold base_req_field. repeat (destruct (name_is _ _); [done|]). cbn [orb]. destruct (_ || _); [cbn; by destruct (nonempty _)|]. destruct (_ && _); [done|]. destruct (_ && _); [|done]. cbn. by destruct (http_basic_user _ _ _).
Qed.
Lemma field_blind a b x name val : req_field cfg dl (scan_recap a b x) name val = scan_recap a b (req_field cfg dl x name val) /\ hu_target (rs_u (req_field cfg dl x name val)) = hu_target (rs_u x).
Proof.
  unfold req_field. destruct (d_req_field dl) as [f|] eqn:E; [|destruct x; exact (base_field_blind a b _ name val)]. destruct (cb_req_field f a b (rs_u x) cfg name val E) as [E1 E2].
  match goal with |- base_req_field cfg ?x1 _ _ = _ /\ hu_target (rs_u (base_req_field cfg ?x2 _ _)) = _ => assert (x1 = scan_recap a b x2) as -> by (cbn; by rewrite E1); destruct (base_field_blind a b x2 name val) as [-> ->] end. done.
Qed.
Lemma fields_blind a b n : forall hd x, req_fields cfg n dl hd (scan_recap a b x) = scan_recap a b (req_fields cfg n dl hd x) /\ hu_target (rs_u (req_fields cfg n dl hd x)) = hu_target (rs_u x).
Proof.
  induction n as [|n IH]; intros hd x; cbn [req_fields]; [done|]. destruct (http_head_field hd) as [[[name val]|] hd']; [|done]. destruct (field_blind a b x name (sp_b val)) as [-> E]. destruct (IH hd' (req_field cfg dl x name (sp_b val))) as [-> ->]. done.
Qed.
Lemma copy_nil cap s max : 0 <= max -> exists t cap', (forall c, exists c', copy_owned c s max [] = (true, t, c', [])) /\ copy_owned cap s max [] = (true, t, cap', []) /\ zlen t <= max.
Proof.
  intros Hm. unfold copy_owned. set (n := if max <? zlen s then max else zlen s). exists (ztake n s). cbn [alloc]. pose proof (zlen_nonneg s). assert (0 <= n <= max) as Hn by (subst n; destruct (Z.ltb_spec max (zlen s)); lia).
  assert (zlen (ztake n s) <= max) as Hl by (rewrite zlen_ztake; lia). destruct (cap <? n); eexists; (split; [intros c; destruct (c <? n); by eexists|done]).
Qed.
Lemma keep_target_same u v path query : same_unit u v -> short v -> same_unit (keep_target u path query []).1 (keep_target v path query []).1 /\ (keep_target u path query []).2 = [] /\ short (keep_target v path query []).1.
Proof.
  intros H Hs. rewrite (same_unit_recap u v H). unfold keep_target. destruct (_ =? 0); [done|]. set (raw := raw_target path query). destruct (copy_nil (hu_target_cap v) raw LK_HTTP_TARGET_MAX ltac:(done)) as (t & cap & Hc & E & Hl). rewrite E.
  match goal with |- context [copy_owned ?c raw _ _] => destruct (Hc c) as [c' ->] end. cbn [negb]. by destruct (_ <? _).
Qed.
Lemma keep_tstate_same u v ts : same_unit u v -> short v -> same_unit (keep_tstate u ts []).1 (keep_tstate v ts []).1 /\ (keep_tstate u ts []).2 = [] /\ short (keep_tstate v ts []).1.
Proof.
  intros H Hs. rewrite (same_unit_recap u v H). unfold keep_tstate. destruct (_ && _); [|done]. destruct (copy_nil (hu_tracestate_cap v) ts LK_HTTP_TSTATE_MAX ltac:(done)) as (t & cap & Hc & E & Hl). rewrite E.
  match goal with |- context [copy_owned ?c ts _ _] => destruct (Hc c) as [c' ->] end. done.
Qed.
(** What follows the request line. *)
Definition fill_rest (hd : http_head) (path query authority : list Z) u : http_unit * list Z * list bool :=
  let '(u, oom) := keep_target u path query [] in
  let x := req_fields cfg (fields_fuel hd) dl hd (ReqScan u [] [] []) in
  let u := rs_u x <| hu_host ::= fun dst => http_copy_label dst LK_HTTP_HOST_MAX (if zlen authority =? 0 then rs_host x else authority) |> in
  let '(u, oom) := keep_tstate u (rs_tstate x) oom in
  (match d_req_head dl with Some f => f u cfg (unit_req u) | None => u end, rs_ua x, oom).
Definition filled (r1 r2 : http_unit * list Z * list bool) : Prop := same_unit r1.1.1 r2.1.1 /\ r1.1.2 = r2.1.2 /\ r1.2 = [] /\ short r2.1.1.
Lemma rest_same hd path query authority u v : same_unit u v -> short v -> filled (fill_rest hd path query authority u) (fill_rest hd path query authority v).
Proof.
  intros H Hs. unfold fill_rest. destruct (keep_target_same u v path query H Hs) as (H1 & E1 & S1). destruct (keep_target_same v v path query eq_refl Hs) as (_ & E1' & _).
  destruct (keep_target u path query []) as [u1 o1], (keep_target v path query []) as [v1 o1']. cbn [fst snd] in *. subst o1 o1'.
  set (x := req_fields cfg (fields_fuel hd) dl hd (ReqScan v1 [] [] [])). destruct (fields_blind (hu_target_cap u1) (hu_tracestate_cap u1) (fields_fuel hd) hd (ReqScan v1 [] [] [])) as [E2 T2].
  assert (ReqScan u1 [] [] [] = scan_recap (hu_target_cap u1) (hu_tracestate_cap u1) (ReqScan v1 [] [] [])) as -> by (unfold scan_recap; cbn; by rewrite <- (same_unit_recap u1 v1 H1)). rewrite E2. fold x in T2 |- *. cbn [rs_u] in T2.
  set (v2 := rs_u x <| hu_host ::= _ |>). set (u2 := rs_u (scan_recap _ _ x) <| hu_host ::= _ |>). assert (same_unit u2 v2 /\ short v2) as [H2 S2] by (split; [done|]; unfold short; change (hu_target v2) with (hu_target (rs_u x)); by rewrite T2).
  change (rs_tstate (scan_recap _ _ x)) with (rs_tstate x). change (rs_ua (scan_recap _ _ x)) with (rs_ua x). destruct (keep_tstate_same u2 v2 (rs_tstate x) H2 S2) as (H3 & E3 & S3). destruct (keep_tstate u2 (rs_tstate x) []) as [u3 o3], (keep_tstate v2 (rs_tstate x) []) as [v3 o3']. cbn [fst snd] in *. subst o3.
  destruct (d_req_head dl) as [f|] eqn:Ef; [|done]. rewrite (same_unit_recap u3 v3 H3). destruct (cb_req_head f (hu_target_cap u3) (hu_tracestate_cap u3) v3 cfg (unit_req v3) Ef) as [E4 T4]. change (unit_req (recap _ _ v3)) with (unit_req v3). rewrite E4.
  split; [done|]. split; [done|]. split; [done|]. unfold short. cbn [fst]. by rewrite T4.
Qed.
Lemma fill_same m hd method target minor u v : same_unit u v -> short v -> filled (req_fill cfg dl m hd method target minor [] u) (req_fill cfg dl m hd method target minor [] v).
Proof.
  intros H Hs. rewrite (same_unit_recap u v H). unfold req_fill. destruct (http_target_split target) as [[path query] authority].
  destruct (has_flag (m_flags m) LK_MSG_BODY_TRUNC); apply (rest_same hd path query authority); done.
Qed.

(** ** The response head *)
Lemma resp_fields_blind a b n : forall hd dr u rf, let '(dr1, u1, rf1) := resp_read_fields n dl hd dr u rf in
  resp_read_fields n dl hd dr (recap a b u) rf = (dr1, recap a b u1, rf1) /\ hu_target u1 = hu_target u.
Proof.
  induction n as [|n IH]; intros hd dr u rf; cbn [resp_read_fields]; [done|]. destruct (http_head_field hd) as [[[name val]|] hd']; [|done].
  destruct (d_resp_field dl) as [f|] eqn:E; [|apply IH]. destruct (cb_resp_field f a b dr u name (sp_b val) E) as [-> T]. destruct (f dr u name (sp_b val)) as [dr' u']. cbn [fst snd] in *.
  specialize (IH hd' dr' u' (base_resp_field rf name (sp_b val))). destruct (resp_read_fields n dl hd' dr' u' _) as [[dr1 u1] rf1]. destruct IH as [-> ->]. done.
Qed.
Lemma resp_fill_blind a b m hd code minor u : resp_fill dl m hd code minor (recap a b u) = ((resp_fill dl m hd code minor u).1, recap a b (resp_fill dl m hd code minor u).2) /\ hu_target (resp_fill dl m hd code minor u).2 = hu_target u.
Proof.
  unfold resp_fill. pose proof (resp_fields_blind a b (fields_fuel hd) hd http_dresp0 u (RespFields false false [])) as H. destruct (resp_read_fields _ dl hd http_dresp0 u _) as [[dr1 u1] rf1]. destruct H as [-> T].
  destruct (has_flag _ _), (_ =? 0); done.
Qed.
End Blind.

(** ** The redacted text fits its scratch *)
Lemma empty_not_secret : key_is_secret [] = false.
Proof. vm_compute. reflexivity. Qed.
Lemma hide_field_len x : zlen (show_field (hide (fun _ => LK_REDACT_MARK) x)) <= zlen (show_field x) + 3 /\ (zlen (show_field x) < 2 -> zlen (show_field (hide (fun _ => LK_REDACT_MARK) x)) <= zlen (show_field x)).
Proof.
  destruct x as [k [v|]]; unfold show_field, hide; cbn [fst snd mbind option_bind]; [|lia]. pose proof (zlen_nonneg v). pose proof (zlen_nonneg k). rewrite !zlen_app, !zlen_cons. destruct (key_is_secret k) eqn:E; [|lia]. change (zlen LK_REDACT_MARK) with 3.
  destruct k as [|b k]; [by rewrite empty_not_secret in E|]. rewrite zlen_cons. pose proof (zlen_nonneg k). lia.
Qed.
Lemma hide_query_len fs l : zlen (show_query (hide_all (fun _ => LK_REDACT_MARK) fs) (hide (fun _ => LK_REDACT_MARK) l)) <= zlen (show_query fs l) * 2 + 3.
Proof.
  unfold show_query, hide_all. pose proof (proj1 (hide_field_len l)). pose proof (zlen_nonneg (show_field l)). induction fs as [|[x s] fs IH]; [cbn [map concat app]; lia|]. cbn [map concat fst snd]. rewrite <- !app_assoc, !zlen_app. change (zlen [s]) with 1.
  rewrite !zlen_app in IH. pose proof (hide_field_len x) as [H1 H2]. pose proof (zlen_nonneg (show_field x)). lia.
Qed.
Lemma redact_room t cap : zlen t * 2 + zlen LK_REDACT_MARK <= cap -> lk_url_redact t cap = lk_url_redact t (zlen t * 2 + zlen LK_REDACT_MARK).
Proof.
  intros Hc. change (zlen LK_REDACT_MARK) with 3 in *. pose proof (zlen_nonneg t). unfold lk_url_redact. pose proof (span_spec (until (ch "?")) t) as (E & _ & _). destruct (span (until (ch "?")) t) as [path [|c q]]; cbn [fst snd] in E.
  - rewrite app_nil_r in E. subst t. unfold put. change (zlen (A:=Z) []) with 0. by rewrite !ztake_all by lia.
  - apply (f_equal zlen) in E. rewrite zlen_app, zlen_cons in E. destruct (query_fields (length q) q ltac:(lia)) as (fs & l & Hw & Eq). pose proof (hide_query_len fs l) as Hh. rewrite Eq in Hh.
    assert (forall n, 0 <= n -> put n (put n [] path) (lit "?") = ztake n (path ++ lit "?")) as Hput.
    { intros n Hn. replace (put n [] path) with (ztake n path) by (unfold put; change (zlen (A:=Z) []) with 0; by rewrite Z.sub_0_r). by apply put_take. }
    rewrite !Hput by lia. rewrite <- Eq, !copy_all by (done || lia || rewrite Eq; lia). rewrite !ztake_all; [done|..]; rewrite !zlen_app; change (zlen (lit "?")) with 1; pose proof (zlen_nonneg path); lia.
Qed.
Lemma text_same cfg cap a b u o : short u -> exists cap', obs_text cfg cap (recap a b u) o [] = (h_text cfg u o, cap', []).
Proof.
  intros Hs. unfold obs_text, h_text. change (hu_flags (recap a b u)) with (hu_flags u). change (hu_target (recap a b u)) with (hu_target u). destruct (_ || _); [by eexists|]. destruct (_ || _); [by eexists|].
  pose proof (zlen_nonneg (hu_target u)). unfold short, LK_HTTP_TARGET_MAX in Hs. rewrite u32_small by (change (zlen LK_REDACT_MARK) with 3; lia). cbn [alloc]. destruct (Z.ltb_spec cap (zlen (hu_target u) * 2 + zlen LK_REDACT_MARK)); [by eexists|]. rewrite redact_room by lia. by eexists.
Qed.

(** ** The handler refines the machine *)
Section Refine.
Context {U F : Type} (XXH3 : list Z -> Z) (cfg : lk_http_cfg) (dl : lk_http_dialect) {CB : CapBlind dl}.
Abbreviation proto := (lk_proto U http_conn F).
Abbreviation conn := (lk_conn http_conn F).
Implicit Types (p : proto) (c : conn) (h : hconn) (m : lk_msg) (d : lk_dir) (n : Z).

(** A step that ends in the machine's state. *)
Definition refines n (res : proto * http_conn) (spec : proto * hconn) : Prop := spec = (res.1, abs res.2) /\ hwf dl n res.2.
Lemma refines_mono_http n n' res spec : n <= n' -> refines n res spec -> refines n' res spec.
Proof. intros H [E W]. split; [done|by eapply hwf_mono]. Qed.
Lemma ref_ret n p hc h : h = abs hc -> hwf dl n hc -> refines n (p, hc) (p, h).
Proof. by intros -> W. Qed.
Lemma orphan_same p hc : http_orphan p hc = h_orphan p (abs hc).
Proof. done. Qed.
Lemma front_same n hc : hwf dl n hc -> match http_unit_front hc with
  | Some u => hc_head_seq hc < hc_open_seq hc /\ u = unit_of hc (hc_head_seq hc) /\ exists q, queue hc = core u :: q
  | None => queue hc = [] end.
Proof.
  intros W. rewrite (front_at dl n hc W). destruct (Z.ltb_spec (hc_head_seq hc) (hc_open_seq hc)) as [Hl|]; [|by apply http_queue_empty]. split; [done|]. split; [done|]. rewrite (queue_front hc Hl). by eexists.
Qed.
(** An update of the front unit. *)
Lemma front_upd n hc g g' : hwf dl n hc -> hc_head_seq hc < hc_open_seq hc -> core (g (unit_of hc (hc_head_seq hc))) = g' (core (unit_of hc (hc_head_seq hc))) ->
  hu_target (g' (core (unit_of hc (hc_head_seq hc)))) = hu_target (unit_of hc (hc_head_seq hc)) -> abs (unit_upd hc (hc_head_seq hc) g) = on_front g' (abs hc) /\ hwf dl n (unit_upd hc (hc_head_seq hc) g).
Proof.
  intros W Hl E T. unfold on_front. replace 0%nat with (Z.to_nat (hc_head_seq hc - hc_head_seq hc)) by lia. apply upd_spec; [done|lia|done|]. unfold short. rewrite T. pose proof (hw_short _ _ _ W) as Hs. rewrite (queue_front hc Hl) in Hs. by inversion Hs.
Qed.
Lemma front_short n hc : hwf dl n hc -> hc_head_seq hc < hc_open_seq hc -> short (unit_of hc (hc_head_seq hc)).
Proof. intros W Hl. pose proof (hw_short _ _ _ W) as Hs. rewrite (queue_front hc Hl) in Hs. by inversion Hs. Qed.

Lemma http_emit_spec n p c hc u : hwf dl n hc -> p_oom p = [] -> short u -> refines n (unit_emit XXH3 cfg p c hc u) (h_emit XXH3 cfg dl p c (abs hc) (core u)) /\
  hc_head_seq (unit_emit XXH3 cfg p c hc u).2 = hc_head_seq hc /\ hc_open_seq (unit_emit XXH3 cfg p c hc u).2 = hc_open_seq hc.
Proof.
  intros W Ho Hs. unfold unit_emit, h_emit. rewrite Ho. destruct (text_same cfg (hc_redacted_cap hc) (hu_target_cap u) (hu_tracestate_cap u) u (unit_obs (hc_dr hc) u) Hs) as (cap & E).
  replace (recap (hu_target_cap u) (hu_tracestate_cap u) u) with u in E by by destruct u. rewrite E. cbn [fst snd]. change (h_dr (abs hc)) with (hc_dr hc). change (unit_obs (hc_dr hc) (core u)) with (unit_obs (hc_dr hc) u). change (h_text cfg (core u)) with (h_text cfg u).
  assert (http_route_resolve XXH3 cfg hc u = h_route XXH3 cfg dl (core u)) as <- by (unfold http_route_resolve, h_route; by rewrite (hw_dialect _ _ _ W)). rewrite (hw_dialect _ _ _ W). assert (p <| p_oom := [] |> = p) as -> by (destruct p; cbn in *; by subst).
  set (o := obs_route _ _). assert (match d_obs dl with Some f => f (hc_dr hc) (core u) o | None => o end = match d_obs dl with Some f => f (hc_dr hc) u o | None => o end) as ->.
  { destruct (d_obs dl) as [f|] eqn:Ef; [|done]. by apply cb_obs. }
  split; [|done]. split; [done|]. by apply (hwf_ext dl n hc).
Qed.

(** ** Requests *)
Lemma session_spec n p c hc u ua : hwf dl n hc -> refines n (session_emit p c hc u ua) (h_session_emit p c (abs hc) u ua).
Proof. intros W. unfold session_emit, h_session_emit. change (h_emitted (abs hc)) with (hc_session_emitted hc). destruct (hc_session_emitted hc); [done|]. split; [done|]. by apply (hwf_ext dl n hc). Qed.
Lemma opened_short ts old : short (opened ts old).
Proof. unfold opened. by destruct old. Qed.
(** The new unit, filled. *)
Lemma opened_spec n hc hc1 ts ring u v : hwf dl n hc -> n + 1 < 2 ^ 64 -> zlen (queue hc) < LK_HTTP_MAX_INFLIGHT -> length ring = 16%nat -> hc1 = hc <| hc_open_seq := hc_open_seq hc + 1 |> <| hc_ring := ring |> ->
  queue hc1 = map pipelined (queue hc) ++ [opened ts (queue hc)] -> same_unit u v -> short v ->
  let hc2 := hc1 <| hc_degraded := false |> <| hc_req_seq := hc_open_seq hc |> in
  abs (unit_upd hc2 (hc_open_seq hc) (fun _ => u)) = abs hc <| h_degraded := false |> <| h_queue := map pipelined (queue hc) ++ [core v] |> <| h_req := Some (length (queue hc)) |> /\
  hwf dl (n + 1) (unit_upd hc2 (hc_open_seq hc) (fun _ => u)).
Proof.
  intros [W1 W2 W3 W4 W5 W6] Hn Hz Hr E1 Eq H Hs hc2. pose proof (queue_length hc ltac:(lia)) as Hq. assert (queue hc2 = map pipelined (queue hc) ++ [opened ts (queue hc)]) as Eq2 by (rewrite <- Eq; by apply queue_ext).
  assert (hc_open_seq hc2 = hc_open_seq hc + 1 /\ hc_head_seq hc2 = hc_head_seq hc) as [Eo Eh] by (subst hc2; by rewrite E1). assert (hwf dl (n + 1) hc2) as W.
  { split; rewrite ?Eo, ?Eh; [by subst hc2; rewrite E1|by subst hc2; rewrite E1|lia|lia|lia|]. rewrite Eq2. apply Forall_app. split; [|apply Forall_cons; [apply opened_short|apply Forall_nil]]. apply Forall_map. exact W6. }
  destruct (upd_spec dl (n + 1) hc2 (hc_open_seq hc) (fun _ => u) (fun _ => core v) W) as [E W']; [lia|done|done|]. split; [|done]. rewrite E. unfold abs at 1. rewrite Eq2, Eh. replace (Z.to_nat (hc_open_seq hc - hc_head_seq hc)) with (length (map pipelined (queue hc)) + 0)%nat by (rewrite length_map; unfold zlen in Hq; lia).
  cbn. rewrite alter_app_r. subst hc2. rewrite E1. unfold abs. cbn. f_equal. unfold reading. cbn. destruct (Z.leb_spec (hc_head_seq hc) (hc_open_seq hc)); [|lia]. destruct (Z.ltb_spec (hc_open_seq hc) (hc_open_seq hc + 1)); [|lia]. cbn. f_equal. unfold zlen in Hq. lia.
Qed.
Lemma req_head_spec n p c hc m : hwf dl n hc -> n + 1 < 2 ^ 64 -> p_oom p = [] -> refines (n + 1) (http_req_head cfg p c hc m) (h_req_head cfg dl p c (abs hc) m).
Proof.
  intros W Hn Ho. unfold http_req_head, h_req_head. destruct (req_line m) as [[[[method target] minor] hd]|]; [|split; [done|by apply (hwf_mono dl n); [lia|]]]. change (h_queue (abs hc)) with (queue hc).
  pose proof (http_open_spec dl n p hc (m_ts_ns m) W Hn) as Hs. destruct (http_unit_open p hc (m_ts_ns m)) as [p1 [hc1|]].
  2: { destruct Hs as [Hz ->]. destruct (Z.leb_spec LK_HTTP_MAX_INFLIGHT (zlen (queue hc))); [|lia]. split; [done|]. apply (hwf_mono dl n); [lia|]. by apply (hwf_ext dl n hc). }
  destruct Hs as (Hz & -> & (ring & Hr & E1) & Eq & a & b & Eu). destruct (Z.leb_spec LK_HTTP_MAX_INFLIGHT (zlen (queue hc))); [lia|].
  assert (hc_open_seq hc1 = hc_open_seq hc + 1) as Eo by by rewrite E1. pose proof (hw_open _ _ _ W). pose proof (hw_head _ _ _ W). rewrite Eo. replace (u64 (hc_open_seq hc + 1 - 1)) with (hc_open_seq hc) by (rewrite u64_small by lia; lia). rewrite Ho.
  set (hc2 := hc1 <| hc_degraded := false |> <| hc_req_seq := hc_open_seq hc |>). change (unit_of hc2 (hc_open_seq hc)) with (unit_of hc1 (hc_open_seq hc)). rewrite Eu. assert (hc_d hc2 = dl) as -> by (subst hc2; rewrite E1; apply W).
  pose proof (fill_same cfg dl m hd method target minor (recap a b (opened (m_ts_ns m) (queue hc))) (opened (m_ts_ns m) (queue hc)) eq_refl (opened_short _ _)) as (B1 & B2 & B3 & B4).
  destruct (req_fill cfg dl m hd method target minor [] (recap a b _)) as [[u ua] o], (req_fill cfg dl m hd method target minor [] (opened _ _)) as [[v ua'] o']. cbn [fst snd] in *. subst ua' o.
  destruct (opened_spec n hc hc1 (m_ts_ns m) ring u v W Hn Hz Hr E1 Eq B1 B4) as [E W']. fold hc2 in E, W'. rewrite <- E. assert (p <| p_oom := [] |> = p) as -> by (destruct p; cbn in *; by subst).
  rewrite (same_unit_recap u v B1). change (hu_method_id (recap _ _ v)) with (hu_method_id v). rewrite (same_unit_recap u v B1) in E, W'. exact (session_spec (n + 1) _ c _ _ ua W').
Qed.

(** ** Responses *)
Lemma resp_head_spec n p hc m interim : hwf dl n hc -> refines n (http_resp_head p hc m interim) (h_resp_head dl p (abs hc) m interim).
Proof.
  intros W. unfold http_resp_head, h_resp_head. destruct (status_line m) as [[[code minor] hd]|]; [|done]. pose proof (front_same n hc W) as Hf. change (h_queue (abs hc)) with (queue hc). destruct (http_unit_front hc) as [u|].
  - destruct Hf as (Hl & -> & q & Eq). rewrite Eq. change (hu_ts_interim_ns (core ?x)) with (hu_ts_interim_ns x). destruct interim.
    + destruct (_ =? 0); [|done]. destruct (front_upd n hc (fun u => u <| hu_ts_interim_ns := m_ts_ns m |>) (fun u => u <| hu_ts_interim_ns := m_ts_ns m |>) W Hl) as [E W']; [done..|]. by apply ref_ret.
    + rewrite (hw_dialect _ _ _ W). set (u := unit_of hc (hc_head_seq hc)). destruct (resp_fill_blind dl 0 0 m hd code minor u) as [E T]. change (recap 0 0 u) with (core u) in E. rewrite E. destruct (resp_fill dl m hd code minor u) as [dr v]. cbn [fst snd] in *.
      set (hc1 := hc <| hc_dr := dr |>). assert (hwf dl n hc1) as W1 by by apply (hwf_ext dl n hc). destruct (front_upd n hc1 (fun _ => v) (fun _ => core v) W1 Hl) as [E' W']; [done|exact T|]. change (hc_head_seq hc1) with (hc_head_seq hc) in E', W'. by apply ref_ret.
  - rewrite Hf. change (h_owed (abs hc)) with (hc_owed hc). destruct (_ && _); [|done]. split; [done|]. by apply (hwf_ext dl n hc).
Qed.
Lemma emit_front p c h g u : h_emit XXH3 cfg dl p c (on_front g h) u = ((h_emit XXH3 cfg dl p c h u).1, on_front g (h_emit XXH3 cfg dl p c h u).2).
Proof. done. Qed.
Lemma pop_front g h : h_pop (on_front g h) = h_pop h.
Proof. unfold h_pop, on_front. destruct h as [? ? [|] ? ? ? ? ?]; done. Qed.
Lemma finish_spec n p c hc g g' : hwf dl n hc -> n < 2 ^ 64 -> p_oom p = [] -> hc_head_seq hc < hc_open_seq hc -> core (g (unit_of hc (hc_head_seq hc))) = g' (core (unit_of hc (hc_head_seq hc))) ->
  hu_target (g' (core (unit_of hc (hc_head_seq hc)))) = hu_target (unit_of hc (hc_head_seq hc)) -> hu_have_resp (g (unit_of hc (hc_head_seq hc))) = true ->
  refines n (unit_retire XXH3 cfg p c (unit_upd hc (hc_head_seq hc) g) id) (h_finish XXH3 cfg dl p c (abs hc) g').
Proof.
  intros W Hn Ho Hl E T Hr. destruct (front_upd n hc g g' W Hl E T) as [E1 W1]. set (hc1 := unit_upd hc (hc_head_seq hc) g) in *. unfold unit_retire. pose proof (front_same n hc1 W1) as Hf. rewrite (front_at dl n hc1 W1) in *. change (hc_head_seq hc1) with (hc_head_seq hc) in *. change (hc_open_seq hc1) with (hc_open_seq hc) in *.
  destruct (Z.ltb_spec (hc_head_seq hc) (hc_open_seq hc)); [|lia]. assert (unit_of hc1 (hc_head_seq hc) = g (unit_of hc (hc_head_seq hc))) as Eu by (apply unit_of_upd_eq, W). rewrite Eu in *. rewrite Hr.
  pose proof (front_short n hc W Hl) as Hs. assert (short (g (unit_of hc (hc_head_seq hc)))) as Hs1 by (unfold short; change (hu_target (g ?x)) with (hu_target (core (g x))); rewrite E, T; exact Hs).
  destruct (http_emit_spec n p c hc1 (g (unit_of hc (hc_head_seq hc))) W1 Ho Hs1) as ([E2 W2] & Eh & Eo). unfold h_finish. change (h_queue (abs hc)) with (queue hc). rewrite (queue_front hc Hl). rewrite E1, emit_front, E in E2.
  destruct (unit_emit XXH3 cfg p c hc1 _) as [p2 hc2]. cbn [fst snd] in *. destruct (h_emit XXH3 cfg dl p c (abs hc) _) as [p3 h3]. cbn [fst snd] in *. pose proof (f_equal fst E2) as E2'. apply (f_equal snd) in E2. cbn [fst snd] in E2, E2'. subst p3. destruct (pop_spec dl n hc2 W2 Hn ltac:(rewrite Eh, Eo; done)) as [E3 W3]. apply ref_ret; [|done]. rewrite E3, <- E2. by rewrite pop_front.
Qed.

(** ** Bodies *)
Lemma reading_at n hc : hwf dl n hc -> match http_unit_at hc (hc_req_seq hc) with
  | Some _ => hc_head_seq hc <= hc_req_seq hc < hc_open_seq hc /\ reading hc = Some (Z.to_nat (hc_req_seq hc - hc_head_seq hc)) | None => reading hc = None end.
Proof.
  intros _. unfold http_unit_at, reading. destruct (Z.ltb_spec (hc_req_seq hc) (hc_head_seq hc)), (Z.leb_spec (hc_head_seq hc) (hc_req_seq hc)), (Z.leb_spec (hc_open_seq hc) (hc_req_seq hc)), (Z.ltb_spec (hc_req_seq hc) (hc_open_seq hc)); cbn [orb andb]; lia || done.
Qed.
Lemma live_short n hc s : hwf dl n hc -> hc_head_seq hc <= s < hc_open_seq hc -> short (unit_of hc s).
Proof.
  intros W Hs. pose proof (hw_short _ _ _ W) as H. eapply (Forall_lookup_1 _ _ (Z.to_nat (s - hc_head_seq hc))) in H; [|rewrite queue_lookup; destruct (Z.ltb_spec (Z.of_nat (Z.to_nat (s - hc_head_seq hc))) (hc_open_seq hc - hc_head_seq hc)); [reflexivity|lia]].
  replace (hc_head_seq hc + Z.of_nat (Z.to_nat (s - hc_head_seq hc))) with s in H by lia. exact H.
Qed.
Lemma data_spec n p hc d m : hwf dl n hc -> refines n (body_data p hc d m) (h_data p (abs hc) d m).
Proof.
  intros W. unfold body_data, h_data. change (h_unowned (abs hc)) with (hc_resp_orphan hc). change (h_queue (abs hc)) with (queue hc). change (h_req (abs hc)) with (reading hc). destruct d.
  - destruct (hc_resp_orphan hc); [done|]. pose proof (front_same n hc W) as Hf. destruct (http_unit_front hc) as [u|]; [|by rewrite Hf]. destruct Hf as (Hl & -> & q & Eq). rewrite Eq. set (g := fun u => u <| hu_bytes_out ::= fun k => u64 (k + m_len m) |>).
    destruct (front_upd n hc g g W Hl) as [E W']; [done..|]. by apply ref_ret.
  - pose proof (reading_at n hc W) as Hr. destruct (http_unit_at hc (hc_req_seq hc)) as [u|]; [|by rewrite Hr]. destruct Hr as [Hs ->]. set (g := fun u => u <| hu_bytes_in ::= fun k => u64 (k + m_len m) |>).
    destruct (upd_spec dl n hc (hc_req_seq hc) g g W Hs) as [E W']; [done|exact (live_short n hc _ W Hs)|]. by apply ref_ret.
Qed.
Lemma end_spec n p c hc d m : hwf dl n hc -> n < 2 ^ 64 -> p_oom p = [] -> refines n (body_end XXH3 cfg p c hc d m) (h_end XXH3 cfg dl p c (abs hc) d m).
Proof.
  intros W Hn Ho. unfold body_end, h_end. change (h_unowned (abs hc)) with (hc_resp_orphan hc). change (h_queue (abs hc)) with (queue hc). change (h_req (abs hc)) with (reading hc). destruct d.
  - destruct (hc_resp_orphan hc); [apply ref_ret; [done|by apply (hwf_ext dl n hc)]|]. pose proof (front_same n hc W) as Hf. destruct (http_unit_front hc) as [u|]; [|by rewrite Hf]. destruct Hf as (Hl & -> & q & Eq). rewrite Eq.
    change (hu_have_resp (core ?x)) with (hu_have_resp x). destruct (hu_have_resp (unit_of hc (hc_head_seq hc))) eqn:Er; cbn [negb].
    + by apply finish_spec.
    + destruct (pop_spec dl n hc W Hn Hl) as [E W']. by apply ref_ret.
  - set (hc1 := hc <| hc_req_seq := no_seq |>). assert (hwf dl n hc1) as W1 by by apply (hwf_ext dl n hc). assert (reading hc1 = None) as Hr1.
    { unfold reading, hc1. cbn. pose proof (hw_open _ _ _ W). destruct (Z.ltb_spec no_seq (hc_open_seq hc)); [unfold no_seq in *; lia|]. by rewrite andb_false_r. }
    assert (abs hc1 = abs hc <| h_req := None |>) as Ea by (unfold abs; rewrite Hr1; done). pose proof (reading_at n hc W) as Hr. destruct (http_unit_at hc (hc_req_seq hc)) as [u|].
    + destruct Hr as [Hs ->]. set (g := fun u => u <| hu_req_done := true |> <| hu_ts_req_done_ns := m_ts_ns m |>). destruct (upd_spec dl n hc1 (hc_req_seq hc) g g W1 Hs) as [E W']; [done|exact (live_short n hc _ W Hs)|]. apply ref_ret; [|done]. rewrite E, Ea. done.
    + rewrite Hr. split; [|done]. cbn [fst snd]. rewrite Ea. unfold abs. rewrite Hr. done.
Qed.

(** ** Messages, resyncs, closes *)
Lemma dispatch_spec n p c hc d m : hwf dl n hc -> n + 1 < 2 ^ 64 -> p_oom p = [] -> refines (n + 1) (http_dispatch XXH3 cfg p c hc d m) (h_msg XXH3 cfg dl p c (abs hc) d m).
Proof.
  intros W Hn Ho. assert (hwf dl (n + 1) hc) as W1 by (apply (hwf_mono dl n); [lia|done]). unfold http_dispatch, h_msg. destruct (_ =? LK_HTTP_MSG_REQ); [destruct d; [done|by apply req_head_spec]|].
  destruct (_ || _); [destruct d; [by apply resp_head_spec|done]|]. destruct (_ =? LK_HTTP_MSG_DATA); [by apply data_spec|]. destruct (_ =? LK_HTTP_MSG_END); [by apply end_spec|]. destruct (_ =? LK_HTTP_MSG_ERRB); [|done].
  rewrite (hw_dialect _ _ _ W). destruct d, (d_err_body dl) as [f|]; try done. destruct (_ =? 0); [done|]. apply ref_ret; [done|]. by apply (hwf_ext dl (n + 1) hc).
Qed.
Lemma unseen_spec n hc : hwf dl n hc -> abs (unseen_front hc) = on_front (hflag LK_QO_BODY_UNSEEN) (abs hc) /\ hwf dl n (unseen_front hc).
Proof.
  intros W. unfold unseen_front. pose proof (front_same n hc W) as Hf. destruct (http_unit_front hc) as [u|]; [destruct Hf as (Hl & _ & _); by apply front_upd|]. split; [|done]. unfold on_front, abs. cbn. by rewrite Hf.
Qed.
Lemma resync_spec n p hc d : hwf dl n hc -> n < 2 ^ 64 -> refines n (let '(p, hc) := resync_units p hc d in (p, hc <| hc_degraded := true |>)) (h_resync p (abs hc) d).
Proof.
  intros W Hn. unfold resync_units, h_resync. destruct d.
  - pose proof (drop_answered_spec dl n (Z.to_nat (hc_open_seq hc - hc_head_seq hc)) hc W Hn ltac:(lia)) as H. destruct (drop_answered _ hc) as [hc1 j]. destruct H as (-> & E & W1). apply ref_ret; [|by apply (hwf_ext dl n hc1)]. change (h_queue (abs hc)) with (queue hc). rewrite <- E. done.
  - destruct (http_drop_spec dl n hc W Hn) as [E W1]. rewrite E. destruct (units_drop_all hc) as [hc1 j]. cbn [fst snd] in *. apply ref_ret; [done|]. by apply (hwf_ext dl n hc1).
Qed.
Lemma close_same n p c hc : hwf dl n hc -> n < 2 ^ 64 -> p_oom p = [] ->
  (let '(p, hc) := close_front XXH3 cfg p c hc in let '(_, k) := units_drop_all hc in pbump p (dropped_close k)) = h_close XXH3 cfg dl p c (abs hc) (c_last_activity_ns c).
Proof.
  intros W Hn Ho. unfold close_front, h_close. change (h_queue (abs hc)) with (queue hc). pose proof (front_same n hc W) as Hf.
  assert (forall (res : proto * http_conn) spec, refines n res spec -> (let '(p, hc) := res in let '(_, k) := units_drop_all hc in pbump p (dropped_close k)) = (let '(p, h) := spec in pbump p (dropped_close (zlen (h_queue h))))) as Hd.
  { intros [p1 hc1] [p2 h2] [E W1]. cbn [fst snd] in *. injection E as -> ->. destruct (http_drop_spec dl n hc1 W1 Hn) as [E _]. unfold h_drop in E. apply (f_equal snd) in E. cbn [snd] in E. destruct (units_drop_all hc1) as [hc2 k]. cbn [snd] in E. by rewrite <- E. }
  apply Hd. destruct (http_unit_front hc) as [u|]; [|by rewrite Hf]. destruct Hf as (Hl & -> & q & Eq). rewrite Eq. change (hu_have_resp (core ?x)) with (hu_have_resp x). destruct (hu_have_resp (unit_of hc (hc_head_seq hc))) eqn:Er; [|done].
  apply finish_spec; try done; cbn; by destruct (hu_to_close _).
Qed.
End Refine.

(** ** Runs under a recording consumer *)
(** What the handler reports, in order. *)
Inductive reported := RSession (s : lk_session) | RQuery (s : lk_session) (o : lk_query_obs).
Definition recorder {F} : lk_query_sink (list reported) http_conn F :=
  QSink (Some (fun l _ s o => l ++ [RQuery s o])) (Some (fun l _ s => l ++ [RSession s])) None.
(** A callback of the framer, or the close of the connection, last active at [now]. *)
Inductive call := CMsg (d : lk_dir) (m : lk_msg) | CResync (d : lk_dir) | CClose (now : Z).

Section Run.
Context {F : Type} (XXH3 : list Z -> Z) (cfg : lk_http_cfg).
Abbreviation proto := (lk_proto (list reported) http_conn F).
Abbreviation conn := (lk_conn http_conn F).
Implicit Types (p : proto) (c : conn) (h : hconn) (m : lk_msg) (k : call) (ks : list call) (n : Z).

Definition call1 p c k : proto * conn :=
  match k with
  | CMsg d m => http_on_msg XXH3 cfg p c d m
  | CResync d => http_on_resync XXH3 p c d
  | CClose now => http_on_conn_close XXH3 cfg p (c <| c_last_activity_ns := now |>)
  end.
Definition run p c ks : proto * conn := foldl (fun pc k => call1 pc.1 pc.2 k) (p, c) ks.

(** The machine attaches to a connection at the first call. *)
Definition h_attach (synthetic : bool) p (s : option hconn) : proto * hconn :=
  match s with Some h => (p, h) | None => (pbump p (fun s => s <| ps_conns ::= inc64 |>), h_init synthetic) end.
Definition h_call (dl : lk_http_dialect) (synthetic : bool) p (s : option hconn) k : proto * option hconn :=
  match k with
  | CMsg d m =>
      let '(p, h) := h_attach synthetic p s in
      let p := pbump p (fun s => s <| ps_msgs ::= inc64 |>) in
      if m_type m =? LK_HTTP_MSG_NOTE then
        (pbump (pbump p (count_type d (ch "!"))) (note_counts (m_len m)), Some (if m_len m =? http_note_code LK_HTTP_NOTE_BODY_UNSEEN then on_front (hflag LK_QO_BODY_UNSEEN) h else h))
      else let '(p, h) := h_msg XXH3 cfg dl p (conn0 0) h d m in (p, Some h)
  | CResync d =>
      let '(p, h) := h_attach synthetic p s in
      let '(p, h) := h_resync (pbump p (fun s => s <| ps_resyncs ::= inc64 |>)) h d in (p, Some h)
  | CClose now => match s with Some h => (h_close XXH3 cfg dl p (conn0 0) h now, None) | None => (p, None) end
  end.
Definition h_run dl synthetic p (s : option hconn) ks : proto * option hconn := foldl (fun ph k => h_call dl synthetic ph.1 ph.2 k) (p, s) ks.

(** ** The recorder does not look at the connection *)
Definition kept p p' : Prop := p_out p' = p_out p /\ p_oom p' = p_oom p.
Definition seen {A} p (x x' : proto * A) : Prop := x = x' /\ kept p x.1.
Lemma session_seen p c c' h u ua : p_out p = recorder -> seen p (h_session_emit p c h u ua) (h_session_emit p c' h u ua).
Proof. intros H. unfold h_session_emit. destruct (h_emitted h); [done|]. unfold up_session. cbn [p_out pbump upd]. rewrite H. done. Qed.
Lemma emit_seen dl p c c' h u : p_out p = recorder -> seen p (h_emit XXH3 cfg dl p c h u) (h_emit XXH3 cfg dl p c' h u).
Proof. intros H. unfold h_emit. cbv zeta. unfold up_query. destruct (has_flag _ _); cbn [p_out pbump upd]; rewrite H; done. Qed.
Lemma finish_seen_http dl p c c' h g : p_out p = recorder -> seen p (h_finish XXH3 cfg dl p c h g) (h_finish XXH3 cfg dl p c' h g).
Proof. intros H. unfold h_finish. destruct (h_queue h) as [|u q]; [done|]. destruct (emit_seen dl p c c' h (g u) H) as [<- K]. by destruct (h_emit XXH3 cfg dl p c h (g u)). Qed.
Lemma orphan_kept p h : kept p (h_orphan p h).
Proof. unfold h_orphan. by destruct (h_degraded h). Qed.
Lemma kept_trans p1 p2 p3 : kept p1 p2 -> kept p2 p3 -> kept p1 p3.
Proof. intros [] []. split; congruence. Qed.
Lemma http_msg_seen dl p c c' h d m : p_out p = recorder -> seen p (h_msg XXH3 cfg dl p c h d m) (h_msg XXH3 cfg dl p c' h d m).
Proof.
  intros H. pose proof (orphan_kept p) as Ho. unfold h_msg. destruct (_ =? LK_HTTP_MSG_REQ).
  { destruct d; [done|]. unfold h_req_head. destruct (req_line m) as [[[[method target] minor] hd]|]; [|split; [done|apply Ho]]. destruct (_ <=? _); [done|]. destruct (req_fill _ _ _ _ _ _ _ _ _) as [[u ua] o]. exact (session_seen (pbump p (count_type LK_DIR_RECV (http_method_tag (hu_method_id u)))) c c' _ u ua H). }
  destruct (_ || _).
  { destruct d; [|done]. unfold h_resp_head. destruct (status_line m) as [[[code minor] hd]|]; [|split; [done|apply Ho]]. destruct (h_queue h); [|destruct (_ =? LK_HTTP_MSG_INTER); [done|]; by destruct (resp_fill _ _ _ _ _ _)]. split; [done|]. exact (orphan_kept (pbump p (count_type LK_DIR_SEND (u8 (ch "0" + code / 100)))) _). }
  destruct (_ =? LK_HTTP_MSG_DATA); [unfold h_data; destruct d; [destruct (h_unowned h); [done|]; destruct (h_queue h); [split; [done|apply Ho]|done]|destruct (h_req h); [done|split; [done|apply Ho]]]|].
  destruct (_ =? LK_HTTP_MSG_END); [|by destruct (_ =? LK_HTTP_MSG_ERRB)]. unfold h_end. destruct d; [|destruct (h_req h); [done|split; [done|apply Ho]]]. destruct (h_unowned h); [done|]. destruct (h_queue h); [split; [done|apply Ho]|]. destruct (negb _); [split; [done|apply Ho]|by apply finish_seen_http].
Qed.
Lemma close_seen_http dl p c c' h now : p_out p = recorder -> h_close XXH3 cfg dl p c h now = h_close XXH3 cfg dl p c' h now /\ kept p (h_close XXH3 cfg dl p c h now).
Proof.
  intros H. unfold h_close. destruct (h_queue h) as [|u q]; [done|]. destruct (hu_have_resp u); [|done]. match goal with |- context [h_finish XXH3 cfg dl p c h ?g] => destruct (finish_seen_http dl p c c' h g H) as [<- K]; by destruct (h_finish XXH3 cfg dl p c h g) end.
Qed.
Lemma resync_kept p h d : kept p (h_resync p h d).1.
Proof. by destruct d. Qed.

(** ** One call and all of them *)
Definition state_ok dl n c : Prop := match c_proto_state c with Some hc => hwf dl n hc | None => True end.
Lemma http_init_spec dl n c : http_dialect XXH3 c = dl -> 0 <= n -> hwf dl n (http_conn0 XXH3 c) /\ abs (http_conn0 XXH3 c) = h_init (has_flag (c_flags c) LK_CONN_SYNTHETIC).
Proof. intros E Hn. split; [|done]. split; done. Qed.
Lemma attach_spec dl n p c : p_oom p = [] -> http_dialect XXH3 c = dl -> 0 <= n -> state_ok dl n c ->
  exists hc p1, http_conn_get XXH3 p c = (Some hc, p1, put_state c hc) /\ h_attach (has_flag (c_flags c) LK_CONN_SYNTHETIC) p (abs <$> c_proto_state c) = (p1, abs hc) /\ hwf dl n hc /\ kept p p1.
Proof.
  intros Ho Ed Hn Hs. unfold http_conn_get, state_ok in *. destruct (c_proto_state c) as [hc|] eqn:Ec.
  - exists hc, p. split; [f_equal; destruct c; cbn in *; by subst|]. done.
  - rewrite Ho. cbn [alloc negb]. destruct (http_init_spec dl n c Ed Hn) as [W Ea]. exists (http_conn0 XXH3 c), (pbump p (fun s => s <| ps_conns ::= inc64 |>)). assert (p <| p_oom := [] |> = p) as -> by (destruct p; cbn in *; by subst). split; [done|]. split; [cbn; by rewrite Ea|done].
Qed.

Definition follows dl n c0 p (res : proto * conn) (spec : proto * option hconn) : Prop :=
  spec = (res.1, abs <$> c_proto_state res.2) /\ state_ok dl n res.2 /\ c_ops res.2 = c_ops c0 /\ c_flags res.2 = c_flags c0 /\ kept p res.1.
Lemma follow_put dl n c0 p c (res : proto * http_conn) spec :
  refines dl n res spec -> kept p res.1 -> c_ops c = c_ops c0 -> c_flags c = c_flags c0 ->
  follows dl n c0 p (let '(p, hc) := res in (p, put_state c hc)) (let '(p, h) := spec in (p, Some h)).
Proof. intros [-> W] K E1 E2. by destruct res. Qed.
Lemma http_call_spec dl {CB : CapBlind dl} n p c k : p_out p = recorder -> p_oom p = [] -> http_dialect XXH3 c = dl -> 0 <= n -> n + 1 < 2 ^ 64 -> state_ok dl n c ->
  follows dl (n + 1) c p (call1 p c k) (h_call dl (has_flag (c_flags c) LK_CONN_SYNTHETIC) p (abs <$> c_proto_state c) k).
Proof.
  intros Hr Ho Ed Hn Hn1 Hs. destruct k as [d m|d|now]; cbn [call1 h_call].
  1,2: destruct (attach_spec dl n p c Ho Ed Hn Hs) as (hc & p1 & Eg & Ea & W & K); destruct (K) as [K1 K2]; rewrite Ea.
  - unfold http_on_msg. rewrite Eg. cbv zeta beta. set (p2 := pbump p1 (fun s => s <| ps_msgs ::= inc64 |>)). destruct (_ =? LK_HTTP_MSG_NOTE).
    + unfold framer_note. destruct (unseen_spec dl n hc W) as [E1 W1]. pose proof (hwf_mono dl n (n + 1) hc ltac:(lia) W). pose proof (hwf_mono dl n (n + 1) _ ltac:(lia) W1). destruct (_ =? _); cbn [fmap option_fmap option_map]; (split; [cbn; by rewrite ?E1|done]).
    + set (hc1 := hc <| hc_msgs ::= inc64 |>). assert (hwf dl n hc1) as W1 by by apply (hwf_ext dl n hc). destruct (http_msg_seen dl p2 (put_state c hc) (conn0 0) (abs hc) d m ltac:(by rewrite <- Hr)) as [<- Kp].
      pose proof (dispatch_spec XXH3 cfg dl n p2 (put_state c hc) hc1 d m W1 Hn1 ltac:(cbn; congruence)) as R. change (abs hc1) with (abs hc) in R. apply follow_put; try done. destruct R as [E _]. rewrite E in Kp. exact (kept_trans p p2 _ K Kp).
  - unfold http_on_resync. rewrite Eg. cbv zeta beta. set (p2 := pbump p1 _). pose proof (resync_spec dl n p2 hc d W ltac:(lia)) as R. apply (refines_mono_http dl n (n + 1)) in R; [|lia]. pose proof (resync_kept p2 (abs hc) d) as Kp. destruct (R) as [E _]. rewrite E in Kp.
    pose proof (follow_put dl (n + 1) c p (put_state c hc) _ _ R (kept_trans p p2 _ K Kp) eq_refl eq_refl) as Hf. by destruct (resync_units p2 hc d).
  - unfold http_on_conn_close, state_ok in *. change (c_proto_state (c <| c_last_activity_ns := now |>)) with (c_proto_state c). destruct (c_proto_state c) as [hc|] eqn:Ec; [|cbn; by rewrite Ec].
    set (c1 := c <| c_last_activity_ns := now |>). pose proof (close_same XXH3 cfg dl n p c1 hc Hs ltac:(lia) Ho) as E. destruct (close_seen_http dl p c1 (conn0 0) (abs hc) now Hr) as [E1 Kp]. cbn [fmap option_fmap option_map]. change (c_last_activity_ns c1) with now in E. rewrite <- E1, <- E in *.
    destruct (close_front XXH3 cfg p c1 hc) as [p3 hc3]. by destruct (units_drop_all hc3).
Qed.
Lemma http_run_spec dl {CB : CapBlind dl} ks : forall n p c, p_out p = recorder -> p_oom p = [] -> http_dialect XXH3 c = dl -> 0 <= n -> n + zlen ks < 2 ^ 64 -> state_ok dl n c ->
  follows dl (n + zlen ks) c p (run p c ks) (h_run dl (has_flag (c_flags c) LK_CONN_SYNTHETIC) p (abs <$> c_proto_state c) ks).
Proof.
  induction ks as [|k ks IH]; intros n p c Hr Ho Ed Hn Hl Hs; [change (zlen (A:=call) []) with 0; rewrite Z.add_0_r; done|]. rewrite zlen_cons in *. pose proof (zlen_nonneg ks).
  destruct (http_call_spec dl n p c k Hr Ho Ed Hn ltac:(lia) Hs) as (E & Hs1 & E1 & E2 & K1 & K2). unfold run, h_run. cbn [foldl fst snd]. rewrite E. destruct (call1 p c k) as [p1 c1]. cbn [fst snd] in *.
  specialize (IH (n + 1) p1 c1 ltac:(congruence) ltac:(congruence) ltac:(unfold http_dialect in *; by rewrite E1) ltac:(lia) ltac:(lia) Hs1). rewrite E2 in IH. replace (n + (zlen ks + 1)) with (n + 1 + zlen ks) by lia.
  destruct IH as (F1 & F2 & F3 & F4 & K3). exact (conj F1 (conj F2 (conj (eq_trans F3 E1) (conj (eq_trans F4 E2) (kept_trans p p1 _ (conj K1 K2) K3))))).
Qed.
End Run.

(** C34: The HTTP handler is the queue machine.  On a connection it has no state for, with
    either dialect and whatever the configuration, on every sequence of heads, body bytes,
    ends, error bodies, notes, resyncs and closes (fewer than [2^64], memory available), the
    handler has told its consumer exactly what the machine tells it, has the machine's
    counters, and its ring of 16 slots holds exactly the machine's list of requests in
    flight: a response head answers the oldest of them, body bytes go to the request being
    read or to the oldest one, a request whose response ends, or the oldest at the close
    when its response has begun, is reported and leaves, and a request beyond the sixteenth
    is counted and not kept. *)
Theorem http_handler_refines {F} XXH3 cfg (c : lk_conn http_conn F) ks : c_proto_state c = None -> zlen ks < 2 ^ 64 ->
  let p := lk_proto_http_new recorder [] [] in
  let dl := http_dialect XXH3 c in
  let '(p', c') := run XXH3 cfg p c ks in
  h_run XXH3 cfg dl (has_flag (c_flags c) LK_CONN_SYNTHETIC) p None ks = (p', abs <$> c_proto_state c') /\
  match c_proto_state c' with Some hc => hwf dl (zlen ks) hc | None => True end.
Proof.
  intros Hc Hl p dl. assert (state_ok dl 0 c) as Hs by (unfold state_ok; by rewrite Hc). destruct (http_run_spec XXH3 cfg dl ks 0 p c eq_refl eq_refl eq_refl ltac:(lia) Hl Hs) as (E & W & _). rewrite Hc in E. by destruct (run XXH3 cfg p c ks).
Qed.

(** ** A pipelined pair on a port of the S3 dialect *)
Definition hw_conn : lk_conn http_conn unit := conn0 7 <| c_ops := Some PROTO_S3 |>.
Definition hw_lines (ls : list string) : list Z := concat (map (fun l => lit l ++ [13; 10]) ls) ++ [13; 10].
Definition hw_msg (ts t : Z) (ls : list string) : lk_msg := Msg ts t 0 (zlen (hw_lines ls)) (hw_lines ls).
Definition hw_end (ts : Z) : lk_msg := Msg ts LK_HTTP_MSG_END 0 0 [].
Definition hw_calls : list call :=
  [CMsg LK_DIR_RECV (hw_msg 100 LK_HTTP_MSG_REQ ["GET /pics/cat.png HTTP/1.1"; "Host: s3.local"]%string); CMsg LK_DIR_RECV (hw_end 100);
   CMsg LK_DIR_RECV (hw_msg 110 LK_HTTP_MSG_REQ ["DELETE /pics/dog.png HTTP/1.1"; "Host: s3.local"]%string); CMsg LK_DIR_RECV (hw_end 110);
   CMsg LK_DIR_SEND (hw_msg 150 LK_HTTP_MSG_RESP ["HTTP/1.1 200 OK"; "Content-Length: 9"]%string); CMsg LK_DIR_SEND (Msg 160 LK_HTTP_MSG_DATA 0 9 []); CMsg LK_DIR_SEND (hw_end 170);
   CMsg LK_DIR_SEND (hw_msg 180 LK_HTTP_MSG_RESP ["HTTP/1.1 503 Slow Down"]%string); CClose 200].
Definition hw_told (p : lk_proto (list reported) http_conn unit) :=
  omap (fun r => match r with RQuery _ o => Some (o_op o, o_err_code o, o_bytes_out o, o_ts_start_ns o, o_ts_complete_ns o) | RSession _ => None end) (p_up p).
Lemma http_handler_refines_witness : exists p' c', run (fun _ => 0) http_cfg0 (lk_proto_http_new recorder [] []) hw_conn hw_calls = (p', c') /\
  hw_told p' = [(Some (lit "GET"), 200, 9, 100, 170); (Some (lit "DELETE"), 503, 0, 110, 200)] /\
  h_run (fun _ => 0) http_cfg0 (http_dialect (fun _ => 0) hw_conn) false (lk_proto_http_new recorder [] []) None hw_calls = (p', abs <$> c_proto_state c').
Proof.
  pose proof (http_handler_refines (fun _ => 0) http_cfg0 hw_conn hw_calls eq_refl eq_refl) as H. cbv zeta in H. destruct (run _ _ _ _ _) as [p' c'] eqn:E. exists p', c'. split; [done|]. split; [|exact (proj1 H)].
  apply (f_equal fst) in E. cbn [fst] in E. subst p'. vm_compute. reflexivity.
Defined.

(** ** What the comments do not say *)
(** A request the ring had no room for, answered after a later one found room: its response
    (the 404) is reported as that of the later request, the DELETE, whose own (the 500) then
    goes unreported. *)
Definition hw_req (ts : Z) (l : string) : list call := [CMsg LK_DIR_RECV (hw_msg ts LK_HTTP_MSG_REQ [l]); CMsg LK_DIR_RECV (hw_end ts)].
Definition hw_resp (ts : Z) (l : string) : list call := [CMsg LK_DIR_SEND (hw_msg ts LK_HTTP_MSG_RESP [l; "Content-Length: 0"%string]); CMsg LK_DIR_SEND (hw_end ts)].
Definition hw_over : list call :=
  mjoin (replicate 16 (hw_req 10 "GET / HTTP/1.1")) ++ hw_req 11 "POST / HTTP/1.1" ++ hw_resp 12 "HTTP/1.1 200 OK" ++ hw_req 13 "DELETE / HTTP/1.1" ++
  mjoin (replicate 15 (hw_resp 14 "HTTP/1.1 200 OK")) ++ hw_resp 15 "HTTP/1.1 404 Not Found" ++ hw_resp 16 "HTTP/1.1 500 Oops".
Example http_owed_misplaced : hw_told (run (fun _ => 0) http_cfg0 (lk_proto_http_new recorder [] []) hw_conn hw_over).1 =
  replicate 1 (Some (lit "GET"), 200, 0, 10, 12) ++ replicate 15 (Some (lit "GET"), 200, 0, 10, 14) ++ [(Some (lit "DELETE"), 404, 0, 13, 15)].
Proof. vm_compute. reflexivity. Qed.
(** A presigned key with a byte outside printable ASCII: the bytes before it are the label. *)
Example s3_key_clipped : c_str (hu_user (s3_req_head http_unit0 http_cfg0 (HReq (lit "GET") (lit "/pics/cat.png?X-Amz-Credential=AKI" ++ [0xe9] ++ lit "D/2026") (lit "s3.local") 0))) = lit "AKI".
Proof. vm_compute. reflexivity. Qed.
(** The access key of a signed request, and none under [--http-user basic]. *)
Definition hw_signed (basic : bool) : list Z :=
  c_str (hu_user (rs_u (req_field (http_cfg0 <| cf_user_basic := basic |>) (lk_http_dialect_s3 (fun _ => 0)) (ReqScan http_unit0 [] [] []) (lit "Authorization") (lit "AWS4-HMAC-SHA256 Credential=AKID/2026/r/s3/aws4_request, Signature=0")))).
Example s3_key_wiped : hw_signed false = lit "AKID" /\ hw_signed true = [].
Proof. by vm_compute. Qed.
(** A response whose head was unreadable ends: the unit goes into no drop counter. *)
Definition hw_headless : list call := hw_req 10 "GET / HTTP/1.1" ++ [CMsg LK_DIR_SEND (hw_end 20)].
Example http_headless_uncounted : let p := (run (fun _ => 0) http_cfg0 (lk_proto_http_new recorder [] []) hw_conn hw_headless).1 in
  (hw_told p, ps_units_dropped_overflow (p_st p), ps_units_dropped_resync (p_st p), ps_units_dropped_close (p_st p), ps_orphan_msgs (p_st p)) = ([], 0, 0, 0, 1).
Proof. vm_compute. reflexivity. Qed.
