(* ===== verification/NormSql.v ===== *)
(** The SQL normaliser and fingerprint, [norm/norm_sql.c]: a one-pass lexer, two
    collapse filters and a sink, all streaming.

    The cursor [p] with its [end] is the list of the remaining bytes.  XXH3 is
    vendored third-party code, the parameter [XXH3] of the digest; the streaming
    state is the bytes fed to it so far, whose digest XXH3 documents to be that of
    their concatenation. *)
From Stdlib Require Import Ascii String.
From stdpp Require Import base list.
From S2P Require Import Prelude Proto.
#[local] Open Scope Z_scope.
Implicit Types (l : list Z) (c : Z).

Definition LK_NORM_TEXT_MAX := 1024.
Inductive lk_sql_dialect := LK_SQL_PG | LK_SQL_MYSQL.
#[global] Instance lk_sql_dialect_eq_dec : EqDecision lk_sql_dialect.
Proof. solve_decision. Defined.

Record lk_norm_out := NormOut { no_text : list Z; no_fp : Z; no_trunc : bool }.

Inductive tok_kind := K_OTHER | K_LP | K_RP | K_COMMA | K_PH | K_SEMI.
#[global] Instance tok_kind_eq_dec : EqDecision tok_kind.
Proof. solve_decision. Defined.
Inductive f2_grp := G0 | G_LP | G_LPQ.
Inductive f2_match := M_NONE | M_COMMA | M_LP | M_QMARK.

(** A token as the lexer forwards it. *)
Record token := Tok { t_kind : tok_kind; t_lower : bool; t_text : list Z }.
Definition tok_comma : token := Tok K_COMMA false (lit ",").
Definition tok_lp : token := Tok K_LP false (lit "(").
Definition tok_rp : token := Tok K_RP false (lit ")").
Definition tok_ph : token := Tok K_PH false (lit "?").
Definition tok_semi : token := Tok K_SEMI false (lit ";").

(** ** Sink: text buffer and streaming hash *)
(** The sink fields of [struct norm_ctx]; [sk_hashed] is what the hash state has
    consumed. *)
Record sink_ctx := SinkCtx {
  sk_text : list Z; sk_trunc : bool; sk_hashed : list Z; sk_first : bool; sk_pending_semi : Z }.
#[global] Instance sink_ctx_upd : Updatable sink_ctx := fun s =>
  SinkCtx (sk_text s) (sk_trunc s) (sk_hashed s) (sk_first s) (sk_pending_semi s).
Definition sink_ctx0 : sink_ctx := SinkCtx [] false [] true 0.
Implicit Types (s : sink_ctx) (t : token).

Definition text_cap := LK_NORM_TEXT_MAX - 1.
Fixpoint put_bytes s (bs : list Z) : sink_ctx :=
  match bs with
  | [] => s
  | b :: bs => if zlen (sk_text s) <? text_cap then put_bytes (s <| sk_text ::= fun l => l ++ [b] |>) bs
               else s <| sk_trunc := true |>
  end.

Definition lower_byte (c : Z) : Z := if (ch "A" <=? c) && (c <=? ch "Z") then c + 32 else c.
Definition hash_update s (bs : list Z) : sink_ctx := s <| sk_hashed ::= fun h => h ++ bs |>.

(** The lower-casing loop works in chunks of 64 bytes; a chunk never is empty. *)
Fixpoint out_lower (fuel : nat) s (text : list Z) : sink_ctx :=
  match fuel, text with
  | _, [] => s
  | O, _ => s
  | S fuel, _ =>
      let tmp := map lower_byte (take 64 text) in
      out_lower fuel (put_bytes (hash_update s tmp) tmp) (drop 64 text)
  end.

Definition out_token s (lower : bool) (text : list Z) : sink_ctx :=
  let s := if sk_first s then s else put_bytes s (lit " ") in
  let s := s <| sk_first := false |> in
  let s := if lower then out_lower (List.length text) s text else put_bytes (hash_update s text) text in
  hash_update s [0].

(** [while (pending_semi > 0) { out_token(";"); pending_semi--; }] *)
Fixpoint flush_semi (fuel : nat) s : sink_ctx :=
  match fuel with
  | O => s
  | S fuel => if 0 <? sk_pending_semi s
              then flush_semi fuel (out_token s false (lit ";") <| sk_pending_semi ::= fun n => n - 1 |>) else s
  end.

Definition sink_push s t : sink_ctx :=
  match t_kind t with
  | K_SEMI => s <| sk_pending_semi ::= fun n => u32 (n + 1) |>
  | _ => out_token (flush_semi (Z.to_nat (sk_pending_semi s)) s) (t_lower t) (t_text t)
  end.

(** ** The filters, over whatever sink they forward to *)
Record f2_ctx (S : Type) := F2Ctx { f2_sink : S; f2_g : f2_grp; f2_m : f2_match; f2_have_group : bool }.
Arguments F2Ctx {S}. Arguments f2_sink {S}. Arguments f2_g {S}. Arguments f2_m {S}. Arguments f2_have_group {S}.
#[global] Instance f2_ctx_upd S : Updatable (f2_ctx S) := fun n => F2Ctx (f2_sink n) (f2_g n) (f2_m n) (f2_have_group n).

Record norm_ctx (S : Type) := NormCtx { nx_f2 : f2_ctx S; nx_f1_prev : tok_kind; nx_f1_depth : Z; nx_f1_held_comma : bool }.
Arguments NormCtx {S}. Arguments nx_f2 {S}. Arguments nx_f1_prev {S}. Arguments nx_f1_depth {S}. Arguments nx_f1_held_comma {S}.
#[global] Instance norm_ctx_upd S : Updatable (norm_ctx S) := fun n =>
  NormCtx (nx_f2 n) (nx_f1_prev n) (nx_f1_depth n) (nx_f1_held_comma n).
Definition norm_ctx0 {S} (k : S) : norm_ctx S := NormCtx (F2Ctx k G0 M_NONE false) K_OTHER 0 false.

Section Filters.
Context {S : Type} (push : S -> token -> S).
Implicit Types (x : f2_ctx S) (nx : norm_ctx S).

(** f2: [( ? ) , ( ? ) , ...] becomes [( ? )]. *)
Definition f2_emit x t : f2_ctx S :=
  let x := match t_kind t with
           | K_LP => x <| f2_g := G_LP |> <| f2_have_group := false |>
           | K_PH => x <| f2_g := match f2_g x with G_LP => G_LPQ | _ => G0 end |> <| f2_have_group := false |>
           | K_RP => x <| f2_have_group := match f2_g x with G_LPQ => true | _ => false end |> <| f2_g := G0 |>
           | _ => x <| f2_g := G0 |> <| f2_have_group := false |>
           end in
  x <| f2_sink ::= fun k => push k t |>.

Definition f2_flush_match x : f2_ctx S :=
  let m := f2_m x in
  let x := x <| f2_m := M_NONE |> in
  let x := match m with M_COMMA | M_LP | M_QMARK => f2_emit x tok_comma | M_NONE => x end in
  let x := match m with M_LP | M_QMARK => f2_emit x tok_lp | _ => x end in
  match m with M_QMARK => f2_emit x tok_ph | _ => x end.

(** Past the match attempt. *)
Definition f2_tail x t : f2_ctx S :=
  if f2_have_group x && bool_decide (t_kind t = K_COMMA) then x <| f2_m := M_COMMA |> else f2_emit x t.
Definition f2_push x t : f2_ctx S :=
  match f2_m x, t_kind t with
  | M_NONE, _ => f2_tail x t
  | M_COMMA, K_LP => x <| f2_m := M_LP |>
  | M_LP, K_PH => x <| f2_m := M_QMARK |>
  | M_QMARK, K_RP => x <| f2_m := M_NONE |>
  | _, _ => f2_tail (f2_flush_match x) t
  end.
Definition f2_finish x : f2_ctx S := match f2_m x with M_NONE => x | _ => f2_flush_match x end.

(** f1: [? , ? , ...] becomes [?] inside parentheses. *)
Definition f1_tail nx t : norm_ctx S :=
  if bool_decide (t_kind t = K_COMMA) && bool_decide (nx_f1_prev nx = K_PH) && (0 <? nx_f1_depth nx)
  then nx <| nx_f1_held_comma := true |>
  else
    let nx := match t_kind t with
              | K_LP => nx <| nx_f1_depth ::= fun d => u32 (d + 1) |>
              | K_RP => if 0 <? nx_f1_depth nx then nx <| nx_f1_depth ::= fun d => d - 1 |> else nx
              | _ => nx
              end in
    nx <| nx_f2 ::= fun x => f2_push x t |> <| nx_f1_prev := t_kind t |>.
Definition f1_push nx t : norm_ctx S :=
  if nx_f1_held_comma nx then
    match t_kind t with
    | K_PH => nx <| nx_f1_held_comma := false |> <| nx_f1_prev := K_PH |>
    | _ => f1_tail (nx <| nx_f2 ::= fun x => f2_push x tok_comma |> <| nx_f1_held_comma := false |> <| nx_f1_prev := K_COMMA |>) t
    end
  else f1_tail nx t.
Definition f1_finish nx : norm_ctx S :=
  if nx_f1_held_comma nx then nx <| nx_f2 ::= fun x => f2_push x tok_comma |> <| nx_f1_held_comma := false |> else nx.
Definition emit nx t : norm_ctx S := f1_push nx t.
(** Draining: held comma, then buffered match. *)
Definition drain nx : S := f2_sink (f2_finish (nx_f2 (f1_finish nx))).
End Filters.

(** ** Character classes *)
Definition in_range (c : Z) (a b : ascii) : bool := (ch a <=? c) && (c <=? ch b).
Definition is_space c : bool := (c =? 32) || (c =? 9) || (c =? 10) || (c =? 13) || (c =? 12) || (c =? 11).
Definition is_digit c : bool := in_range c "0" "9".
Definition is_alpha c : bool := in_range c "a" "z" || in_range c "A" "Z".
Definition is_ident_start c : bool := is_alpha c || (c =? ch "_") || (128 <=? c).
Definition is_ident_cont c : bool := is_ident_start c || is_digit c || (c =? ch "$").
Definition is_op_char c : bool := existsb (Z.eqb c) (lit "+-*/<>=~!@#%^&|`:").
Definition is_any (cs : string) c : bool := existsb (Z.eqb c) (lit cs).
Arguments is_any cs%_string c.

(** ** Scanning *)
(** [p[1] == c], the cursor being before [c0 :: r]. *)
Definition next_is (a : ascii) l : bool := match l with b :: _ => b =? ch a | [] => false end.
Arguments next_is a%_char l.
Definition QUOTE := 39.
Definition DQUOTE := 34.
Definition next_quote l : bool := match l with b :: _ => b =? QUOTE | [] => false end.

(** [while (p < end && P(p[0])) p++]. *)
Definition skip (P : Z -> bool) l : list Z := (span P l).2.

Fixpoint skip_quoted (q : Z) (backslash : bool) l : list Z :=
  match l with
  | [] => []
  | b :: r =>
      if backslash && (b =? 92) then match r with [] => [] | _ :: r => skip_quoted q backslash r end
      else if b =? q then
        match r with b2 :: r' => if b2 =? q then skip_quoted q backslash r' else r | [] => [] end
      else skip_quoted q backslash r
  end.

(** The block-comment loop: final depth and rest. *)
Fixpoint skip_block (my : bool) (depth : Z) l : Z * list Z :=
  match l with
  | [] => (depth, [])
  | b :: r =>
      if depth <=? 0 then (depth, l)
      else
        match r with
        | b2 :: r' =>
            if negb my && (b =? ch "/") && (b2 =? ch "*") then skip_block my (depth + 1) r'
            else if (b =? ch "*") && (b2 =? ch "/") then skip_block my (depth - 1) r'
            else skip_block my depth r
        | [] => skip_block my depth r
        end
  end.

Fixpoint prefix_of (d l : list Z) : bool :=
  match d, l with
  | [], _ => true
  | x :: d, y :: l => (x =? y) && prefix_of d l
  | _ :: _, [] => false
  end.
(** [while (q + dlen <= end) { if (match) ...; q++; }]: what follows the closing
    delimiter. *)
Fixpoint find_delim (d l : list Z) : option (list Z) :=
  if prefix_of d l then Some (drop (List.length d) l)
  else match l with [] => None | _ :: l => find_delim d l end.

(** The operator run after its first byte. *)
Fixpoint op_run (my : bool) (ver : Z) l : list Z * list Z :=
  match l with
  | [] => ([], [])
  | b :: r =>
      if negb (is_op_char b) || (b =? ch "-") && next_is "-" r || (b =? ch "/") && next_is "*" r ||
         my && is_any "#`" b || (0 <? ver) && (b =? ch "*") && next_is "/" r
      then ([], l)
      else let '(x, y) := op_run my ver r in (b :: x, y)
  end.

(** A number after its first byte [c]. *)
Definition digits_ (c : Z) : bool := is_digit c || (c =? ch "_").
Definition ident_no_dollar (c : Z) : bool := is_ident_cont c && negb (c =? ch "$").
Definition skip_fraction l : list Z := if next_is "." l then skip digits_ (drop 1 l) else l.
Definition skip_exponent l : list Z :=
  if match l with b :: _ => is_any "eE" b | [] => false end then
    let e := drop 1 l in
    let e := if match e with b :: _ => is_any "+-" b | [] => false end then drop 1 e else e in
    if match e with b :: _ => is_digit b | [] => false end then skip digits_ (drop 1 e) else l
  else l.
Definition skip_number c l : list Z :=
  if (c =? ch "0") && match l with b :: _ => is_any "xXoObB" b | [] => false end
  then skip ident_no_dollar (drop 1 l)
  else skip_exponent (skip_fraction (skip digits_ l)).

(** ** One iteration of the lexer loop *)
Record lexed := Lexed { lx_rest : list Z; lx_ver : Z; lx_trunc : bool; lx_tok : option token }.
(** [continue] without a token. *)
Definition white ver l : lexed := Lexed l ver false None.
(** A token, and whether the cursor ran into the end. *)
Definition tok ver l t : lexed := Lexed l ver false (Some t).
Definition is_end l : bool := match l with [] => true | _ => false end.
Definition tok_end ver l t : lexed := Lexed l ver (is_end l) (Some t).
(** [emit(start, p - start)]: the bytes between two cursors; the capture budget
    keeps them far below the 32 bits of the length. *)
Definition between l (rest : list Z) : list Z := take (List.length l - List.length rest) l.

(** The three sections that look at a dollar, a comment opener, a word. *)
Definition lex_dollar ver c r : lexed :=
  let nxt := match r with b :: _ => b | [] => 0 end in
  let lone := tok ver r (Tok K_OTHER false (lit "$")) in
  if is_digit nxt then tok ver (skip is_digit (drop 1 r)) tok_ph
  else if (nxt =? ch "$") || is_ident_start nxt then
    let '(tag, t) := span ident_no_dollar r in
    if next_is "$" t then
      match find_delim (c :: tag ++ [ch "$"]) (drop 1 t) with
      | Some rest => tok ver rest tok_ph
      | None => Lexed [] ver true (Some tok_ph)
      end
    else lone
  else lone.

Definition lex_comment (my : bool) ver r : lexed :=
  let body := drop 1 r in
  if my && next_is "!" body then white (u32 (ver + 1)) (skip is_digit (drop 1 body))
  else let '(depth, rest) := skip_block my 1 body in Lexed rest ver (0 <? depth) None.

Definition lex_word (my : bool) ver c r : lexed :=
  let '(w, rest) := span is_ident_cont r in
  match rest with
  | q :: body =>
      if my && (c =? ch "_") && ((q =? QUOTE) || (q =? DQUOTE)) then tok_end ver (skip_quoted q true body) tok_ph
      else tok ver rest (Tok K_OTHER true (c :: w))
  | [] => tok ver rest (Tok K_OTHER true (c :: w))
  end.

(** Punctuation, operators and the rest. *)
Definition lex_punct (my : bool) ver c r : lexed :=
  if c =? ch "(" then tok ver r tok_lp
  else if c =? ch ")" then tok ver r tok_rp
  else if c =? ch "," then tok ver r tok_comma
  else if c =? ch ";" then tok ver r tok_semi
  else if c =? ch "?" then tok ver r tok_ph
  else if is_op_char c then let '(ops, rest) := op_run my ver r in tok ver rest (Tok K_OTHER false (c :: ops))
  else tok ver r (Tok K_OTHER false [c]).

Definition lex_step (my : bool) (ver : Z) c r : lexed :=
  let quoted := negb my && is_any "eE" c && next_quote r in
  let prefixed := (is_any "bBxX" c || my && is_any "nN" c) && next_quote r in
  let my_dq := my && (c =? DQUOTE) in
  if is_space c then white ver r
  else if (0 <? ver) && (c =? ch "*") && next_is "/" r then white (ver - 1) (drop 1 r)
  else if (c =? ch "-") && next_is "-" r then white ver (skip (fun b => negb (b =? 10)) (drop 1 r))
  else if my && (c =? ch "#") then white ver (skip (fun b => negb (b =? 10)) r)
  else if (c =? ch "/") && next_is "*" r then lex_comment my ver r
  else if (c =? QUOTE) || quoted || prefixed || my_dq then
    let q := if my_dq then DQUOTE else QUOTE in
    tok_end ver (skip_quoted q (my || quoted) (if c =? q then r else drop 1 r)) tok_ph
  else if my && (c =? ch "`") then
    let rest := skip_quoted (ch "`") false r in tok_end ver rest (Tok K_OTHER false (between (c :: r) rest))
  else if negb my && (c =? DQUOTE) then
    let rest := skip_quoted DQUOTE false r in tok_end ver rest (Tok K_OTHER false (between (c :: r) rest))
  else if negb my && (c =? ch "$") then lex_dollar ver c r
  else if is_digit c || (c =? ch ".") && match r with b :: _ => is_digit b | [] => false end
  then tok ver (skip_number c r) tok_ph
  else if is_ident_start c || my && (c =? ch "$") then lex_word my ver c r
  else lex_punct my ver c r.

(** [out->trunc = true] *)
Definition mark_trunc (nx : norm_ctx sink_ctx) : norm_ctx sink_ctx :=
  nx <| nx_f2 ::= fun x => x <| f2_sink ::= fun s => s <| sk_trunc := true |> |> |>.

(** The loop: every iteration consumes at least one byte, so the input's length
    is enough fuel. *)
Fixpoint lex_loop (fuel : nat) (my : bool) (ver : Z) l (nx : norm_ctx sink_ctx) : Z * norm_ctx sink_ctx :=
  match fuel, l with
  | _, [] => (ver, nx)
  | O, _ => (ver, nx)
  | S fuel, c :: r =>
      let x := lex_step my ver c r in
      let nx := if lx_trunc x then mark_trunc nx else nx in
      let nx := match lx_tok x with Some t => emit sink_push nx t | None => nx end in
      lex_loop fuel my (lx_ver x) (lx_rest x) nx
  end.

Definition lk_norm_sql (XXH3 : list Z -> Z) (sql : list Z) (dialect : lk_sql_dialect) : lk_norm_out :=
  let my := bool_decide (dialect = LK_SQL_MYSQL) in
  let '(ver, nx) := lex_loop (List.length sql) my 0 sql (norm_ctx0 sink_ctx0) in
  let nx := if 0 <? ver then mark_trunc nx else nx in
  let s := drain sink_push nx in
  NormOut (sk_text s) (XXH3 (sk_hashed s)) (sk_trunc s).
