(* ===== verification/NormSqlProps.v ===== *)
(** The normaliser against its specification. *)
From Stdlib Require Import Ascii String.
From stdpp Require Import base list.
From S2P Require Import Prelude Proto NormSql.
#[local] Open Scope Z_scope.

(** ** The normaliser on lists

    The normaliser as functions on lists: progress of the lexer, the filters as
    list rewritings, the sink as a clipped join. *)
Section Facts.
Implicit Types (l : list Z) (t : token) (ts : list token).

(** ** The lexer moves forward *)
Lemma skip_len P l : (length (skip P l) <= length l)%nat.
Proof. apply span_len. Qed.

Lemma skip_quoted_len q bs l : (length (skip_quoted q bs l) <= length l)%nat.
Proof.
  remember (length l) as n eqn:En. assert (length l <= n)%nat as Hn by lia. clear En. revert l Hn.
  induction n as [|n IH]; intros [|b r] Hn; try (cbn in *; lia). cbn [skip_quoted]. cbn in Hn.
  assert (forall r', (length r' <= length r)%nat -> (length (skip_quoted q bs r') <= S n)%nat) as Hs by (intros r' Hr; specialize (IH r'); lia).
  destruct (_ && _); [destruct r as [|b2 r']; [cbn; lia|apply Hs; cbn; lia]|].
  destruct (_ =? _); [destruct r as [|b2 r']; [cbn; lia|destruct (_ =? _); [apply Hs; cbn; lia|lia]]|by apply Hs].
Qed.

Lemma skip_block_len my l : forall d, (length (skip_block my d l).2 <= length l)%nat.
Proof.
  remember (length l) as n eqn:En. assert (length l <= n)%nat as Hn by lia. clear En. revert l Hn.
  induction n as [|n IH]; intros [|b r] Hn d; try (cbn in *; lia). cbn [skip_block]. cbn in Hn. destruct (d <=? 0); [cbn in *; lia|].
  assert (forall r' d', (length r' <= length r)%nat -> (length (skip_block my d' r').2 <= S n)%nat) as Hs.
  { intros r' d' Hr. specialize (IH r' ltac:(lia) d'). lia. }
  destruct r as [|b2 r']; [by apply Hs|]. destruct (_ && _); [apply Hs; cbn; lia|]. destruct (_ && _); apply Hs; cbn; lia.
Qed.

Lemma find_delim_len d l rest : find_delim d l = Some rest -> (length rest <= length l)%nat.
Proof.
  induction l as [|b l IH]; cbn [find_delim]; (destruct (prefix_of d _); [intros [= <-]; rewrite length_drop; cbn; lia|]); [done|].
  intros H. specialize (IH H). cbn. lia.
Qed.

Lemma op_run_len my ver l : (length (op_run my ver l).2 <= length l)%nat.
Proof. induction l as [|b r IH]; [done|]. cbn. destruct (_ || _); [done|]. destruct (op_run my ver r) as [x y]. cbn in *. lia. Qed.

Lemma drop1_len l : (length (drop 1 l) <= length l)%nat. Proof. rewrite length_drop. lia. Qed.

Lemma skip_number_len c l : (length (skip_number c l) <= length l)%nat.
Proof.
  unfold skip_number. destruct (_ && _).
  { transitivity (length (drop 1 l)); [apply skip_len|apply drop1_len]. }
  transitivity (length (skip digits_ l)); [|apply skip_len]. set (l1 := skip digits_ l). clearbody l1.
  transitivity (length (skip_fraction l1)).
  - set (l2 := skip_fraction l1). clearbody l2. unfold skip_exponent. destruct l2 as [|b r]; [done|]. destruct (is_any "eE" b); [|done].
    change (drop 1 (b :: r)) with r. destruct r as [|b2 r2]; [cbn; lia|]. destruct (is_any "+-" b2).
    + change (drop 1 (b2 :: r2)) with r2. destruct r2 as [|b3 r3]; [done|]. destruct (is_digit b3); [|done]. pose proof (skip_len digits_ r3) as H. change (drop 1 (b3 :: r3)) with r3. cbn [List.length]. lia.
    + destruct (is_digit b2); [|done]. pose proof (skip_len digits_ r2) as H. change (drop 1 (b2 :: r2)) with r2. cbn [List.length]. lia.
  - unfold skip_fraction. destruct (next_is "." l1); [|done]. transitivity (length (drop 1 l1)); [apply skip_len|apply drop1_len].
Qed.

(** Punctuation tokens are the constants the filters buffer. *)
Definition tok_ok t : Prop :=
  match t_kind t with
  | K_OTHER => True | K_LP => t = tok_lp | K_RP => t = tok_rp | K_COMMA => t = tok_comma | K_PH => t = tok_ph | K_SEMI => t = tok_semi
  end.
Definition step_ok (r : list Z) (x : lexed) : Prop := (length (lx_rest x) <= length r)%nat /\ match lx_tok x with Some t => tok_ok t | None => True end.

Lemma lex_dollar_ok ver c r : step_ok r (lex_dollar ver c r).
Proof.
  unfold lex_dollar. destruct (is_digit _).
  { split; [|done]. cbn. transitivity (length (drop 1 r)); [apply skip_len|apply drop1_len]. }
  destruct (_ || _); [|done]. pose proof (eq_sym (proj1 (span_spec ident_no_dollar r))) as Hs. destruct (span ident_no_dollar r) as [tag u]. cbn in Hs.
  destruct (next_is "$" u); [|done]. destruct (find_delim _ (drop 1 u)) as [rest|] eqn:Ef; [|split; cbn; [lia|done]].
  split; [|done]. cbn. apply find_delim_len in Ef. pose proof (drop1_len u). rewrite <- Hs, length_app. lia.
Qed.
Lemma lex_comment_ok my ver r : step_ok r (lex_comment my ver r).
Proof.
  unfold lex_comment. pose proof (drop1_len r) as H1. destruct (_ && _).
  - split; [|done]. cbn [white lx_rest]. pose proof (skip_len is_digit (drop 1 (drop 1 r))). pose proof (drop1_len (drop 1 r)). lia.
  - pose proof (skip_block_len my (drop 1 r) 1). destruct (skip_block my 1 (drop 1 r)) as [d rest]. split; [|done]. cbn in *. lia.
Qed.
Lemma lex_word_ok my ver c r : step_ok r (lex_word my ver c r).
Proof.
  unfold lex_word. pose proof (eq_sym (proj1 (span_spec is_ident_cont r))) as Hs. destruct (span is_ident_cont r) as [w rest]. cbn in Hs.
  assert (length rest <= length r)%nat as Hl by (rewrite <- Hs, length_app; lia). destruct rest as [|q body]; [split; [cbn; lia|done]|].
  destruct (_ && _); split; try done. cbn [tok_end lx_rest]. pose proof (skip_quoted_len q true body). cbn in Hl. lia.
Qed.

Lemma lex_step_ok my ver c r : step_ok r (lex_step my ver c r).
Proof.
  assert (forall P, length (skip P (drop 1 r)) <= length r)%nat as Hskip.
  { intros P. transitivity (length (drop 1 r)); [apply skip_len|apply drop1_len]. }
  unfold lex_step. destruct (is_space c); [done|]. destruct (_ && next_is "/" r); [split; [apply drop1_len|done]|].
  destruct (_ && next_is "-" r); [split; [apply Hskip|done]|]. destruct (my && _); [split; [apply skip_len|done]|].
  destruct (_ && next_is "*" r); [apply lex_comment_ok|]. destruct (_ || _).
  { split; [|done]. cbn [tok_end lx_rest]. etransitivity; [apply skip_quoted_len|]. destruct (c =? _); [done|apply drop1_len]. }
  destruct (my && _); [split; [apply skip_quoted_len|done]|]. destruct (negb my && (c =? DQUOTE)); [split; [apply skip_quoted_len|done]|].
  destruct (negb my && _); [apply lex_dollar_ok|]. destruct (_ || _); [split; [apply skip_number_len|done]|].
  destruct (_ || _); [apply lex_word_ok|]. unfold lex_punct. repeat (destruct (_ =? _); [done|]). destruct (is_op_char c); [|done].
  pose proof (op_run_len my ver r). destruct (op_run my ver r) as [x y]. done.
Qed.

(** ** Tokens of an input *)
(** The tokens, whether an iteration flagged truncation, and the versioned-comment
    depth at the end. *)
Fixpoint lex (fuel : nat) (my : bool) (ver : Z) l : list token * bool * Z :=
  match fuel, l with
  | _, [] => ([], false, ver)
  | O, _ => ([], false, ver)
  | S fuel, c :: r =>
      let x := lex_step my ver c r in
      let '(ts, b, v) := lex fuel my (lx_ver x) (lx_rest x) in
      (match lx_tok x with Some t => t :: ts | None => ts end, lx_trunc x || b, v)
  end.
Definition lexes (my : bool) l : list token * bool * Z := lex (List.length l) my 0 l.

Lemma lex_fuel my : forall f f' ver l, (length l <= f)%nat -> (length l <= f')%nat -> lex f my ver l = lex f' my ver l.
Proof.
  induction f as [|f IH]; intros f' ver [|c r] H1 H2; try (by destruct f'); [cbn in H1; lia|]. destruct f' as [|f']; [cbn in H2; lia|].
  cbn [lex]. destruct (lex_step_ok my ver c r) as [Hr _]. cbn in H1, H2. rewrite (IH f'); [done|lia|lia].
Qed.
Lemma lex_cons my ver c r : lex (length (c :: r)) my ver (c :: r) =
  let x := lex_step my ver c r in
  let '(ts, b, v) := lex (length (lx_rest x)) my (lx_ver x) (lx_rest x) in
  (match lx_tok x with Some t => t :: ts | None => ts end, lx_trunc x || b, v).
Proof.
  cbn [List.length lex]. cbv zeta. destruct (lex_step_ok my ver c r) as [Hr _].
  rewrite (lex_fuel my (length r) (length (lx_rest (lex_step my ver c r)))); [done|done|done].
Qed.
Lemma lex_toks_ok my : forall f ver l, Forall tok_ok (lex f my ver l).1.1.
Proof.
  induction f as [|f IH]; intros ver [|c r]; try done. cbn [lex]. destruct (lex_step_ok my ver c r) as [_ Ht].
  specialize (IH (lx_ver (lex_step my ver c r)) (lx_rest (lex_step my ver c r))). destruct (lex f my _ _) as [[ts b] v]. cbn in *.
  destruct (lx_tok _); [by constructor|done].
Qed.
Lemma lex_toks_len my : forall f ver l, (length (lex f my ver l).1.1 <= length l)%nat.
Proof.
  induction f as [|f IH]; intros ver [|c r]; try (cbn; lia). cbn [lex]. destruct (lex_step_ok my ver c r) as [Hr _].
  specialize (IH (lx_ver (lex_step my ver c r)) (lx_rest (lex_step my ver c r))). destruct (lex f my _ _) as [[ts b] v]. cbn in *.
  destruct (lx_tok _); cbn; lia.
Qed.

(** ** The filters as list rewritings *)
Definition is_kind (k : tok_kind) t : bool := bool_decide (t_kind t = k).
Definition depth_after (d : Z) t : Z := match t_kind t with K_LP => d + 1 | K_RP => if 0 <? d then d - 1 else d | _ => d end.

(** Inside parentheses, [, ?] after a [?] disappears. *)
Fixpoint collapse1 (prev : tok_kind) (d : Z) ts : list token :=
  match ts with
  | [] => []
  | t :: r =>
      if is_kind K_COMMA t && bool_decide (prev = K_PH) && (0 <? d) then
        match r with
        | u :: r' => if is_kind K_PH u then collapse1 K_PH d r' else t :: collapse1 K_COMMA d r
        | [] => [t]
        end
      else t :: collapse1 (t_kind t) (depth_after d t) r
  end.

Definition grp_after (g : f2_grp) t : f2_grp * bool :=
  match t_kind t with
  | K_LP => (G_LP, false) | K_PH => (match g with G_LP => G_LPQ | _ => G0 end, false)
  | K_RP => (G0, match g with G_LPQ => true | _ => false end) | _ => (G0, false)
  end.
(** [, ( ? )] after a group [( ? )] disappears. *)
Fixpoint collapse2 (g : f2_grp) (have : bool) ts : list token :=
  match ts with
  | [] => []
  | t :: r =>
      if have && is_kind K_COMMA t then
        match r with
        | a :: b :: c :: r' =>
            if is_kind K_LP a && is_kind K_PH b && is_kind K_RP c then collapse2 g have r'
            else t :: collapse2 G0 false r
        | _ => t :: collapse2 G0 false r
        end
      else t :: let '(g, have) := grp_after g t in collapse2 g have r
  end.

Lemma f1_collapse {S} (push : S -> token -> S) ts : forall nx,
  (nx_f1_held_comma nx = true -> nx_f1_prev nx = K_PH /\ 0 < nx_f1_depth nx) ->
  0 <= nx_f1_depth nx -> nx_f1_depth nx + zlen ts < 2 ^ 32 -> Forall tok_ok ts ->
  nx_f2 (f1_finish push (fold_left (emit push) ts nx)) =
  fold_left (f2_push push) (collapse1 (nx_f1_prev nx) (nx_f1_depth nx) ((if nx_f1_held_comma nx then [tok_comma] else []) ++ ts)) (nx_f2 nx).
Proof.
  induction ts as [|t ts IH]; intros [x prev d held] Hh Hd Hl Hok; cbn [nx_f1_held_comma nx_f1_prev nx_f1_depth nx_f2] in *.
  { unfold f1_finish. cbn [fold_left nx_f1_held_comma]. destruct held; [|done]. destruct (Hh eq_refl) as [-> Hp].
    cbn [app collapse1]. change (is_kind K_COMMA tok_comma) with true. destruct (Z.ltb_spec 0 d); [|lia]. done. }
  inversion Hok as [|? ? Ht Hok']; subst. rewrite zlen_cons in Hl. pose proof (zlen_nonneg ts). cbn [fold_left].
  assert (forall nx, nx_f1_held_comma nx = false -> 0 <= nx_f1_depth nx -> nx_f1_depth nx + (zlen ts + 1) < 2 ^ 32 ->
    nx_f2 (f1_finish push (fold_left (emit push) ts (f1_tail push nx t))) =
    fold_left (f2_push push) (collapse1 (nx_f1_prev nx) (nx_f1_depth nx) (t :: ts)) (nx_f2 nx)) as Htail.
  { clear x prev d held Hh Hd Hl. intros [x prev d held] Hheld Hd Hl. cbn [nx_f1_held_comma nx_f1_prev nx_f1_depth nx_f2] in *. subst held.
    unfold f1_tail. cbn [nx_f1_prev nx_f1_depth collapse1]. fold (is_kind K_COMMA t).
    destruct (is_kind K_COMMA t && bool_decide (prev = K_PH) && (0 <? d)) eqn:Ec.
    - apply andb_true_iff in Ec as [Ec Hp]. apply andb_true_iff in Ec as [Ek Epr]. apply bool_decide_eq_true in Ek, Epr. apply Z.ltb_lt in Hp. subst prev.
      unfold tok_ok in Ht. rewrite Ek in Ht. subst t. rewrite IH; cbn [nx_f1_held_comma nx_f1_prev nx_f1_depth nx_f2 upd]; [|done|lia|lia|done].
      cbn [app collapse1]. change (is_kind K_COMMA tok_comma && bool_decide (K_PH = K_PH)) with true. destruct (Z.ltb_spec 0 d); [done|lia].
    - set (nx1 := match t_kind t with K_LP => _ | _ => _ end). assert (nx1 = NormCtx x prev (depth_after d t) false) as E1.
      { subst nx1. unfold depth_after. destruct (t_kind t); try done; cbn [nx_f1_depth upd]; [by rewrite u32_small by lia|by destruct (0 <? d)]. }
      rewrite E1. assert (0 <= depth_after d t <= d + 1) as Hda by (unfold depth_after; destruct (t_kind t); try lia; destruct (Z.ltb_spec 0 d); lia).
      rewrite IH; cbn [nx_f1_held_comma nx_f1_prev nx_f1_depth nx_f2 upd]; [done|done|lia|lia|done]. }
  unfold emit at 2, f1_push. cbn [nx_f1_held_comma]. destruct held; [|by rewrite Htail].
  destruct (Hh eq_refl) as [-> Hp]. cbn [app collapse1]. change (is_kind K_COMMA tok_comma && bool_decide (K_PH = K_PH)) with true.
  destruct (Z.ltb_spec 0 d) as [_|]; [|lia]. cbn [andb]. destruct (t_kind t) eqn:Ek.
  5: { unfold is_kind. rewrite Ek. rewrite bool_decide_eq_true_2 by done. rewrite IH; cbn [nx_f1_held_comma nx_f1_prev nx_f1_depth nx_f2 upd]; [done|done|lia|lia|done]. }
  all: assert (is_kind K_PH t = false) as -> by (unfold is_kind; by rewrite Ek); cbn [fold_left]; rewrite Htail;
    cbn [nx_f1_held_comma nx_f1_prev nx_f1_depth nx_f2 upd]; [|reflexivity|lia|lia];
    cbn [collapse1]; change (bool_decide (K_COMMA = K_PH)) with false; rewrite !andb_false_r, ?Ek; reflexivity.
Qed.

(** The tokens a match attempt holds back. *)
Definition held (m : f2_match) : list token :=
  match m with M_NONE => [] | M_COMMA => [tok_comma] | M_LP => [tok_comma; tok_lp] | M_QMARK => [tok_comma; tok_lp; tok_ph] end.

Lemma f2_emit_is {S} (push : S -> token -> S) x t :
  f2_emit push x t = F2Ctx (push (f2_sink x) t) (grp_after (f2_g x) t).1 (f2_m x) (grp_after (f2_g x) t).2.
Proof. destruct x as [k g m h]. unfold f2_emit, grp_after. by destruct (t_kind t). Qed.

Lemma f2_flush_is {S} (push : S -> token -> S) x : f2_have_group x = true -> f2_flush_match push x =
  F2Ctx (fold_left push (held (f2_m x)) (f2_sink x)) (match f2_m x with M_NONE => f2_g x | M_COMMA => G0 | M_LP => G_LP | M_QMARK => G_LPQ end)
        M_NONE (match f2_m x with M_NONE => true | _ => false end).
Proof.
  destruct x as [k g m h]. cbn [f2_have_group]. intros ->. unfold f2_flush_match. destruct m; cbn [f2_m upd held];
    rewrite ?f2_emit_is; cbn [f2_sink f2_g f2_m upd]; rewrite ?f2_emit_is; cbn [f2_sink f2_g f2_m upd]; rewrite ?f2_emit_is; reflexivity.
Qed.

(** One token of the list rewriting, past the attempt. *)
Lemma collapse2_emit g have t r : have && is_kind K_COMMA t = false ->
  collapse2 g have (t :: r) = t :: collapse2 (grp_after g t).1 (grp_after g t).2 r.
Proof. intros E. cbn [collapse2]. rewrite E. by destruct (grp_after g t). Qed.

Lemma f2_collapse {S} (push : S -> token -> S) ts : forall x, (f2_m x <> M_NONE -> f2_have_group x = true) -> Forall tok_ok ts ->
  f2_sink (f2_finish push (fold_left (f2_push push) ts x)) =
  fold_left push (collapse2 (f2_g x) (f2_have_group x) (held (f2_m x) ++ ts)) (f2_sink x).
Proof.
  induction ts as [|t ts IH]; intros [k g m h] Hm Hok; cbn [f2_m f2_have_group f2_sink f2_g] in *.
  { cbn [fold_left]. unfold f2_finish. cbn [f2_m]. destruct m; [done|..];
      rewrite f2_flush_is by (apply Hm; done); rewrite Hm by done; done. }
  inversion Hok as [|? ? Ht Hok']; subst. cbn [fold_left].
  assert (forall k g h, f2_sink (f2_finish push (fold_left (f2_push push) ts (f2_tail push (F2Ctx k g M_NONE h) t))) =
    fold_left push (collapse2 g h (t :: ts)) k) as Htail.
  { clear k g m h Hm. intros k g h. unfold f2_tail. cbn [f2_have_group]. fold (is_kind K_COMMA t). destruct (h && is_kind K_COMMA t) eqn:Ec.
    - apply andb_true_iff in Ec as [-> Ek]. apply bool_decide_eq_true in Ek. unfold tok_ok in Ht. rewrite Ek in Ht. subst t.
      rewrite IH by done. done.
    - rewrite f2_emit_is, IH by done. cbn [f2_sink f2_g f2_m f2_have_group held app]. rewrite (collapse2_emit _ _ _ _ Ec). done. }
  unfold f2_push at 2. cbn [f2_m]. destruct m; [by rewrite Htail|..].
  all: assert (h = true) as -> by by apply Hm.
  all: unfold tok_ok in Ht; destruct (t_kind t) eqn:Ek; subst;
    try (rewrite IH by done; cbn [f2_sink f2_g f2_m f2_have_group upd held app]; reflexivity);
    rewrite f2_flush_is by done; cbn [f2_sink f2_g f2_m f2_have_group]; rewrite Htail, <- fold_left_app; f_equal; cbn [held app].
  all: try (destruct ts as [|? [|? ?]]; reflexivity).
  all: cbn [collapse2]; change (is_kind K_COMMA tok_comma) with true; change (is_kind K_LP tok_lp) with true; change (is_kind K_PH tok_ph) with true;
    unfold is_kind; rewrite Ek; destruct ts as [|? [|? ?]]; reflexivity.
Qed.
End Facts.

Implicit Types (l : list Z) (t : token) (ts : list token) (s : sink_ctx).

(** ** Specification: canonical text and hashed stream of a token list *)
Definition canon t : list Z := if t_lower t then map lower_byte (t_text t) else t_text t.
(** Tokens separated by single spaces. *)
Definition join (ws : list (list Z)) : list Z :=
  match ws with [] => [] | w :: ws => w ++ flat_map (fun w => ch " " :: w) ws end.
(** Every token followed by a NUL. *)
Definition hash_stream (ws : list (list Z)) : list Z := flat_map (fun w => w ++ [0]) ws.
(** Without the trailing semicolons. *)
Fixpoint trim ts : list token :=
  match ts with
  | [] => []
  | t :: r => match trim r with [] => if is_kind K_SEMI t then [] else [t] | u :: r' => t :: u :: r' end
  end.
(** The canonical tokens of an input. *)
Definition collapse ts : list token := collapse2 G0 false (collapse1 K_OTHER 0 ts).
Definition words ts : list (list Z) := map canon (trim (collapse ts)).

Lemma join_snoc ws w : join (ws ++ [w]) = (if ws then w else join ws ++ ch " " :: w).
Proof. destruct ws as [|v ws]; cbn; [by rewrite app_nil_r|]. rewrite flat_map_app. cbn. by rewrite app_nil_r, app_assoc. Qed.
Lemma hash_snoc ws w : hash_stream (ws ++ [w]) = hash_stream ws ++ w ++ [0].
Proof. unfold hash_stream. rewrite flat_map_app. cbn. by rewrite app_nil_r. Qed.

Lemma trim_keep ts t : t_kind t <> K_SEMI -> trim (ts ++ [t]) = ts ++ [t].
Proof.
  intros Ht. induction ts as [|u ts IH]; cbn; [unfold is_kind; by rewrite bool_decide_eq_false_2|]. rewrite IH.
  destruct (ts ++ [t]) eqn:E; [by destruct ts|done].
Qed.
Lemma trim_semi ts : trim (ts ++ [tok_semi]) = trim ts.
Proof. induction ts as [|u ts IH]; [done|]. cbn. by rewrite IH. Qed.
(** What trimming removes is a run of semicolons. *)
Lemma trim_rest ts : Forall tok_ok ts -> ts = trim ts ++ replicate (length ts - length (trim ts)) tok_semi.
Proof.
  induction 1 as [|t r Ht Hr IH]; [done|]. cbn [trim]. destruct (trim r) as [|u r'] eqn:E.
  - unfold is_kind. destruct (bool_decide_reflect (t_kind t = K_SEMI)) as [Ek|Ek].
    + unfold tok_ok in Ht. rewrite Ek in Ht. subst t. cbn in *. rewrite Nat.sub_0_r in IH. by rewrite <- IH.
    + cbn in *. rewrite Nat.sub_0_r in *. by rewrite <- IH.
  - rewrite IH at 1. cbn. done.
Qed.

(** ** The sink *)
(** Text [X] clipped at the cap; [b] is a truncation flagged by others. *)
Definition clip s (X : list Z) (b : bool) : Prop :=
  sk_text s = ztake text_cap X /\ sk_trunc s = b || (text_cap <? zlen X).
Definition same_meta s s' : Prop :=
  sk_hashed s' = sk_hashed s /\ sk_first s' = sk_first s /\ sk_pending_semi s' = sk_pending_semi s.

Lemma put_bytes_clip bs : forall s X b, clip s X b -> clip (put_bytes s bs) (X ++ bs) b /\ same_meta s (put_bytes s bs).
Proof.
  induction bs as [|c bs IH]; intros s X b [Ht Hb]; [by rewrite app_nil_r|]. cbn [put_bytes]. unfold text_cap, LK_NORM_TEXT_MAX in *.
  pose proof (zlen_nonneg X). pose proof (zlen_nonneg bs). assert (zlen (sk_text s) = Z.min (1024 - 1) (zlen X)) as El by (rewrite Ht, zlen_ztake; lia).
  destruct (Z.ltb_spec (zlen (sk_text s)) (1024 - 1)).
  - destruct (IH (s <| sk_text ::= fun l => l ++ [c] |>) (X ++ [c]) b) as [Hc1 Hc2].
    + split; cbn [sk_text sk_trunc upd]; unfold text_cap, LK_NORM_TEXT_MAX.
      * rewrite Ht, !ztake_all; [done|rewrite ?zlen_app, ?zlen_cons; change (zlen []) with 0; lia..].
      * rewrite Hb, zlen_app, zlen_cons. change (zlen []) with 0. destruct (Z.ltb_spec (1024 - 1) (zlen X)), (Z.ltb_spec (1024 - 1) (zlen X + (0 + 1))); done || lia.
    + rewrite <- app_assoc in Hc1. done.
  - split; [|done]. split; cbn [sk_text sk_trunc upd]; unfold text_cap, LK_NORM_TEXT_MAX.
    + rewrite ztake_app_le by lia. done.
    + rewrite zlen_app, zlen_cons. destruct (Z.ltb_spec (1024 - 1) (zlen X + (zlen bs + 1))); [|lia]. by rewrite orb_true_r.
Qed.

Lemma out_lower_clip f : forall s X b text, (length text <= f)%nat -> clip s X b ->
  let s' := out_lower f s text in
  clip s' (X ++ map lower_byte text) b /\ sk_hashed s' = sk_hashed s ++ map lower_byte text /\
  sk_first s' = sk_first s /\ sk_pending_semi s' = sk_pending_semi s.
Proof.
  induction f as [|f IH]; intros s X b [|c text] Hf Hc; cbv zeta; try (cbn; rewrite !app_nil_r; done); [cbn in Hf; lia|].
  cbn [out_lower]. set (tx := c :: text) in *. set (tmp := map lower_byte (take 64 tx)).
  destruct (put_bytes_clip tmp (hash_update s tmp) X b) as [H1 (M1 & M2 & M3)]; [exact Hc|].
  destruct (IH (put_bytes (hash_update s tmp) tmp) (X ++ tmp) b (drop 64 tx)) as (H2 & H3 & H4 & H5); [|done|].
  { rewrite length_drop. subst tx. cbn in *. lia. }
  assert (map lower_byte tx = tmp ++ map lower_byte (drop 64 tx)) as -> by (subst tmp; by rewrite <- map_app, take_drop).
  rewrite <- app_assoc in H2. split; [done|].
  rewrite H3, H4, H5, M1, M2, M3. cbn [hash_update sk_hashed sk_first sk_pending_semi upd]. by rewrite <- app_assoc.
Qed.

(** The sink after the texts [ws] with [k] semicolons pending. *)
Definition sink_is s (ws : list (list Z)) (k : Z) (b : bool) : Prop :=
  clip s (join ws) b /\ sk_hashed s = hash_stream ws /\ sk_first s = (if ws then true else false) /\ sk_pending_semi s = k.

Lemma out_token_is s ws k b lower text : sink_is s ws k b ->
  sink_is (out_token s lower text) (ws ++ [if lower then map lower_byte text else text]) k b.
Proof.
  intros (Hc & Hh & Hf & Hk). set (w := if lower then _ else _). unfold out_token.
  set (s1 := (if sk_first s then s else put_bytes s (lit " ")) <| sk_first := false |>).
  assert (exists X, clip s1 X b /\ join (ws ++ [w]) = X ++ w /\ sk_hashed s1 = hash_stream ws /\ sk_pending_semi s1 = k) as (X & Hc1 & Ej & Hh1 & Hk1).
  { subst s1. rewrite Hf, join_snoc. destruct ws as [|v ws]; [by exists []|]. exists (join (v :: ws) ++ lit " ").
    destruct (put_bytes_clip (lit " ") s (join (v :: ws)) b Hc) as [H1 (M1 & M2 & M3)]. split; [exact H1|]. split; [by rewrite <- app_assoc|].
    cbn [sk_hashed sk_pending_semi upd]. split_and!; congruence. }
  assert (sk_first s1 = false) as Hf1 by done. clearbody s1.
  assert (let s2 := if lower then out_lower (List.length text) s1 text else put_bytes (hash_update s1 text) text in
    clip s2 (X ++ w) b /\ sk_hashed s2 = hash_stream ws ++ w /\ sk_first s2 = false /\ sk_pending_semi s2 = k) as (H1 & H2 & H3 & H4).
  { subst w. destruct lower.
    - destruct (out_lower_clip (length text) s1 X b text (Nat.le_refl _) Hc1) as (H1 & H2 & H3 & H4). split; [done|]. split_and!; congruence.
    - destruct (put_bytes_clip text (hash_update s1 text) X b) as [H1 (M1 & M2 & M3)]; [exact Hc1|]. split; [done|].
      rewrite M1, M2, M3. cbn [hash_update sk_hashed sk_first sk_pending_semi upd]. split_and!; congruence. }
  cbv zeta. set (s2 := if lower then _ else _) in *. clearbody s2. split; [rewrite Ej; exact H1|]. split; [|split; [|done]].
  - cbn [hash_update sk_hashed upd]. by rewrite H2, hash_snoc, app_assoc.
  - cbn [hash_update sk_first upd]. rewrite H3. by destruct ws.
Qed.

Lemma flush_semi_is f : forall s ws b, sink_is s ws (Z.of_nat f) b -> sink_is (flush_semi f s) (ws ++ replicate f (lit ";")) 0 b.
Proof.
  induction f as [|f IH]; intros s ws b Hs; [by rewrite app_nil_r|]. cbn [flush_semi]. rewrite (proj2 (proj2 (proj2 Hs))).
  destruct (Z.ltb_spec 0 (Z.of_nat (S f))); [|lia]. change (replicate (S f) (lit ";")) with ([lit ";"] ++ replicate f (lit ";")). rewrite app_assoc.
  apply IH. destruct (out_token_is s ws _ b false (lit ";") Hs) as (H1 & H2 & H3 & H4). split; [exact H1|]. split; [exact H2|]. split; [exact H3|].
  cbn [sk_pending_semi upd]. rewrite H4. lia.
Qed.

(** The sink holds the tokens [ts], trailing semicolons pending. *)
Definition sunk s ts (b : bool) : Prop :=
  Forall tok_ok ts /\ sink_is s (map canon (trim ts)) (zlen ts - zlen (trim ts)) b.

Lemma map_repl {A B} (g : A -> B) k x : map g (replicate k x) = replicate k (g x).
Proof. induction k as [|k IH]; [done|]. cbn. by rewrite IH. Qed.
Lemma trim_len ts : (length (trim ts) <= length ts)%nat.
Proof. induction ts as [|t r IH]; [done|]. cbn. destruct (trim r); [destruct (is_kind K_SEMI t); cbn; lia|cbn in *; lia]. Qed.

Lemma sink_push_sunk s ts b t : sunk s ts b -> tok_ok t -> zlen ts + 1 < 2 ^ 32 -> sunk (sink_push s t) (ts ++ [t]) b.
Proof.
  intros [Hok Hs] Ht Hl. assert (Forall tok_ok (ts ++ [t])) as Hok' by (apply Forall_app; by split; [|constructor]).
  split; [done|]. pose proof (trim_len ts) as Htl. unfold sink_push. destruct (decide (t_kind t = K_SEMI)) as [Ek|Ek].
  - unfold tok_ok in Ht. rewrite Ek in *. subst t. rewrite trim_semi. destruct Hs as (H1 & H2 & H3 & H4).
    split; [exact H1|]. split; [exact H2|]. split; [exact H3|]. cbn [sk_pending_semi upd]. rewrite H4, zlen_app. change (zlen [tok_semi]) with 1.
    rewrite u32_small; unfold zlen in *; lia.
  - rewrite trim_keep by done. rewrite Z.sub_diag. assert (match t_kind t with K_SEMI => s <| sk_pending_semi ::= fun n => u32 (n + 1) |>
        | _ => out_token (flush_semi (Z.to_nat (sk_pending_semi s)) s) (t_lower t) (t_text t) end =
        out_token (flush_semi (Z.to_nat (sk_pending_semi s)) s) (t_lower t) (t_text t)) as -> by by destruct (t_kind t).
    rewrite map_app. apply out_token_is. rewrite (trim_rest ts Hok) at 1. rewrite map_app, map_repl. change (canon tok_semi) with (lit ";").
    rewrite (proj2 (proj2 (proj2 Hs))). replace (Z.to_nat (zlen ts - zlen (trim ts))) with (length ts - length (trim ts))%nat by (unfold zlen; lia).
    apply flush_semi_is. replace (Z.of_nat (length ts - length (trim ts))) with (zlen ts - zlen (trim ts)) by (unfold zlen; lia). done.
Qed.

Lemma sunk_fold ts : forall s ts0 b, sunk s ts0 b -> Forall tok_ok ts -> zlen ts0 + zlen ts < 2 ^ 32 ->
  sunk (fold_left sink_push ts s) (ts0 ++ ts) b.
Proof.
  induction ts as [|t ts IH]; intros s ts0 b Hs Hok Hl; [by rewrite app_nil_r|]. inversion Hok as [|? ? Ht Hok']; subst. cbn [fold_left].
  rewrite zlen_cons in Hl. pose proof (zlen_nonneg ts). change (t :: ts) with ([t] ++ ts). rewrite app_assoc.
  apply IH; [apply sink_push_sunk; [done|done|lia]|done|]. rewrite zlen_app. change (zlen [t]) with 1. lia.
Qed.
Lemma sunk0 : sunk sink_ctx0 [] false. Proof. done. Qed.

(** ** Truncation flags commute with the filters *)
Definition flag s : sink_ctx := s <| sk_trunc := true |>.
Lemma put_bytes_flag bs : forall s, put_bytes (flag s) bs = flag (put_bytes s bs).
Proof. induction bs as [|c bs IH]; intros s; [done|]. cbn [put_bytes]. change (sk_text (flag s)) with (sk_text s). destruct (_ <? _); [|done]. rewrite <- IH. reflexivity. Qed.
Lemma out_lower_flag f : forall s text, out_lower f (flag s) text = flag (out_lower f s text).
Proof.
  induction f as [|f IH]; intros s [|c text]; [done..|]. cbn [out_lower]. set (tx := c :: text). set (tmp := map _ _).
  change (hash_update (flag s) tmp) with (flag (hash_update s tmp)). by rewrite put_bytes_flag, IH.
Qed.
Lemma out_token_flag s lower text : out_token (flag s) lower text = flag (out_token s lower text).
Proof.
  unfold out_token. change (sk_first (flag s)) with (sk_first s).
  assert ((if sk_first s then flag s else put_bytes (flag s) (lit " ")) = flag (if sk_first s then s else put_bytes s (lit " "))) as ->
    by (destruct (sk_first s); [done|apply put_bytes_flag]).
  set (s1 := if sk_first s then _ else _). change (flag s1 <| sk_first := false |>) with (flag (s1 <| sk_first := false |>)).
  set (s2 := s1 <| sk_first := false |>). destruct lower; cbv zeta; [by rewrite out_lower_flag|].
  change (hash_update (flag s2) text) with (flag (hash_update s2 text)). by rewrite put_bytes_flag.
Qed.
Lemma flush_semi_flag f : forall s, flush_semi f (flag s) = flag (flush_semi f s).
Proof.
  induction f as [|f IH]; intros s; [done|]. cbn [flush_semi]. change (sk_pending_semi (flag s)) with (sk_pending_semi s). destruct (_ <? _); [|done].
  rewrite out_token_flag. rewrite <- IH. reflexivity.
Qed.
Lemma sink_push_flag s t : sink_push (flag s) t = flag (sink_push s t).
Proof. unfold sink_push. change (sk_pending_semi (flag s)) with (sk_pending_semi s). rewrite flush_semi_flag. destruct (t_kind t); try apply out_token_flag. done. Qed.

Section FlagFilters.
Implicit Types (x : f2_ctx sink_ctx) (nx : norm_ctx sink_ctx).
Definition flag2 x : f2_ctx sink_ctx := x <| f2_sink ::= flag |>.
Lemma f2_emit_flag x t : f2_emit sink_push (flag2 x) t = flag2 (f2_emit sink_push x t).
Proof. rewrite !f2_emit_is. unfold flag2. destruct x as [k g m h]. cbn. by rewrite sink_push_flag. Qed.
Lemma f2_flush_flag x : f2_flush_match sink_push (flag2 x) = flag2 (f2_flush_match sink_push x).
Proof.
  unfold f2_flush_match. change (f2_m (flag2 x)) with (f2_m x). change (flag2 x <| f2_m := M_NONE |>) with (flag2 (x <| f2_m := M_NONE |>)).
  destruct (f2_m x); cbv zeta; by rewrite ?f2_emit_flag.
Qed.
Lemma f2_tail_flag x t : f2_tail sink_push (flag2 x) t = flag2 (f2_tail sink_push x t).
Proof. unfold f2_tail. change (f2_have_group (flag2 x)) with (f2_have_group x). destruct (_ && _); [done|apply f2_emit_flag]. Qed.
Lemma f2_push_flag x t : f2_push sink_push (flag2 x) t = flag2 (f2_push sink_push x t).
Proof. unfold f2_push. change (f2_m (flag2 x)) with (f2_m x). rewrite f2_flush_flag, !f2_tail_flag. by destruct (f2_m x), (t_kind t). Qed.
Lemma mark_is nx : mark_trunc nx = nx <| nx_f2 ::= flag2 |>. Proof. done. Qed.
Lemma f1_tail_flag nx t : f1_tail sink_push (mark_trunc nx) t = mark_trunc (f1_tail sink_push nx t).
Proof.
  unfold f1_tail. rewrite !mark_is. destruct nx as [x p d h]. cbn [nx_f1_prev nx_f1_depth nx_f2 upd]. destruct (_ && _); [done|].
  cbv zeta. destruct (t_kind t); try destruct (0 <? d); cbn [nx_f2 nx_f1_prev nx_f1_depth nx_f1_held_comma upd]; rewrite ?f2_push_flag; reflexivity.
Qed.
Lemma emit_flag nx t : emit sink_push (mark_trunc nx) t = mark_trunc (emit sink_push nx t).
Proof.
  unfold emit, f1_push. change (nx_f1_held_comma (mark_trunc nx)) with (nx_f1_held_comma nx). destruct (nx_f1_held_comma nx); [|apply f1_tail_flag].
  destruct nx as [x p d h].
  assert (mark_trunc (NormCtx x p d h) <| nx_f2 ::= fun x => f2_push sink_push x tok_comma |> <| nx_f1_held_comma := false |> <| nx_f1_prev := K_COMMA |> =
    mark_trunc (NormCtx x p d h <| nx_f2 ::= fun x => f2_push sink_push x tok_comma |> <| nx_f1_held_comma := false |> <| nx_f1_prev := K_COMMA |>)) as E.
  { rewrite !mark_is. cbn [nx_f2 nx_f1_prev nx_f1_depth nx_f1_held_comma upd]. by rewrite f2_push_flag. }
  rewrite E, f1_tail_flag. by destruct (t_kind t).
Qed.
Lemma fold_flag ts : forall nx, fold_left (emit sink_push) ts (mark_trunc nx) = mark_trunc (fold_left (emit sink_push) ts nx).
Proof. induction ts as [|t ts IH]; intros nx; [done|]. cbn [fold_left]. by rewrite emit_flag, IH. Qed.
Lemma drain_flag nx : drain sink_push (mark_trunc nx) = flag (drain sink_push nx).
Proof.
  assert (forall x, f2_finish sink_push (flag2 x) = flag2 (f2_finish sink_push x)) as Hf.
  { intros x. unfold f2_finish. change (f2_m (flag2 x)) with (f2_m x). rewrite f2_flush_flag. by destruct (f2_m x). }
  unfold drain, f1_finish. rewrite mark_is. destruct nx as [x p d h]. cbn [nx_f2 nx_f1_held_comma upd].
  destruct h; cbn [nx_f2 upd]; rewrite ?f2_push_flag, Hf; reflexivity.
Qed.
End FlagFilters.

(** ** The loop is the token list, folded *)
Lemma lex_loop_fold my f : forall ver l nx, lex_loop f my ver l nx =
  let '(ts, b, v) := lex f my ver l in
  (v, (if b then mark_trunc else id) (fold_left (emit sink_push) ts nx)).
Proof.
  induction f as [|f IH]; intros ver [|c r] nx; [done..|]. cbn [lex_loop lex]. cbv zeta. rewrite IH. set (x := lex_step my ver c r).
  destruct (lex f my (lx_ver x) (lx_rest x)) as [[ts b] v]. f_equal.
  destruct (lx_trunc x), (lx_tok x) as [t|], b; cbn [orb fold_left id]; rewrite ?emit_flag, ?fold_flag; reflexivity.
Qed.

Lemma collapse1_ok ts : forall p d, Forall tok_ok ts -> Forall tok_ok (collapse1 p d ts) /\ (length (collapse1 p d ts) <= length ts)%nat.
Proof.
  induction ts as [ts IH] using (induction_ltof1 _ (@length token)). unfold ltof in IH. intros p d Hok. destruct ts as [|t r]; [done|].
  inversion Hok as [|? ? Ht Hr]; subst. cbn [collapse1]. destruct (_ && _ && _).
  - destruct r as [|u r']; [done|]. inversion Hr; subst. destruct (is_kind K_PH u).
    + destruct (IH r' ltac:(cbn; lia) K_PH d) as [? ?]; [done|]. split; [done|cbn; lia].
    + destruct (IH (u :: r') ltac:(cbn; lia) K_COMMA d) as [? ?]; [done|]. split; [by constructor|cbn in *; lia].
  - destruct (IH r ltac:(cbn; lia) (t_kind t) (depth_after d t)) as [? ?]; [done|]. split; [by constructor|cbn in *; lia].
Qed.
Lemma collapse2_ok ts : forall g h, Forall tok_ok ts -> Forall tok_ok (collapse2 g h ts) /\ (length (collapse2 g h ts) <= length ts)%nat.
Proof.
  induction ts as [ts IH] using (induction_ltof1 _ (@length token)). unfold ltof in IH. intros g h Hok. destruct ts as [|t r]; [done|].
  inversion Hok as [|? ? Ht Hr]; subst. destruct (h && is_kind K_COMMA t) eqn:E.
  - destruct (IH r ltac:(cbn; lia) G0 false Hr) as [? ?].
    assert (Forall tok_ok (t :: collapse2 G0 false r) /\ (length (t :: collapse2 G0 false r) <= length (t :: r))%nat) as Hk by (split; [by constructor|cbn in *; lia]).
    cbn [collapse2]. rewrite E. destruct r as [|a [|b [|c r']]]; [done..|]. destruct (_ && _ && _); [|done].
    destruct (IH r' ltac:(cbn; lia) g h) as [? ?]; [by do 3 (inversion Hr as [|? ? _ Hr']; subst; clear Hr; rename Hr' into Hr)|]. split; [done|cbn; lia].
  - rewrite collapse2_emit by done. edestruct (IH r) as [? ?]; [cbn; lia|done|]. split; [by constructor|]. cbn [List.length]. apply le_n_S. eassumption.
Qed.

Lemma drain_collapse {S} (push : S -> token -> S) k ts : Forall tok_ok ts -> zlen ts < 2 ^ 32 ->
  drain push (fold_left (emit push) ts (norm_ctx0 k)) = fold_left push (collapse ts) k.
Proof.
  intros Hok Hl. unfold drain. rewrite f1_collapse; [|done|done|exact Hl|done]. cbn [norm_ctx0 nx_f1_prev nx_f1_depth nx_f1_held_comma nx_f2 app].
  rewrite f2_collapse; [done|done|apply collapse1_ok; done].
Qed.
