(* ===== verification/NormSqlClaims.v ===== *)
(** What the fingerprint promises: it is the specification's, and it does not see
    the spelling of literals, the case of words, white space, or the length of value
    lists. *)
From Stdlib Require Import Ascii String.
From stdpp Require Import base list.
From S2P Require Import Prelude Proto NormSql NormSqlProps.
#[local] Open Scope Z_scope.
Implicit Types (l : list Z) (t : token) (ts : list token) (c : Z).

Definition is_my (d : lk_sql_dialect) : bool := bool_decide (d = LK_SQL_MYSQL).
Definition norm_spec (XXH3 : list Z -> Z) (ts : list token) (flagged : bool) : lk_norm_out :=
  let ws := words ts in
  NormOut (ztake text_cap (join ws)) (XXH3 (hash_stream ws)) (flagged || (text_cap <? zlen (join ws))).

Lemma norm_spec_ok XXH3 sql d : zlen sql < 2 ^ 32 ->
  lk_norm_sql XXH3 sql d = let '(ts, b, v) := lexes (is_my d) sql in norm_spec XXH3 ts (b || (0 <? v)).
Proof.
  intros Hl. unfold lk_norm_sql, lexes, norm_spec. fold (is_my d). rewrite lex_loop_fold.
  pose proof (lex_toks_ok (is_my d) (List.length sql) 0 sql) as Hok. pose proof (lex_toks_len (is_my d) (List.length sql) 0 sql) as Hlen.
  destruct (lex (List.length sql) (is_my d) 0 sql) as [[ts b] v]. cbn [fst snd] in *.
  assert (zlen ts < 2 ^ 32) as Hz by (unfold zlen in *; lia).
  pose proof (drain_collapse sink_push sink_ctx0 ts Hok Hz) as Hd. set (nx := fold_left (emit sink_push) ts (norm_ctx0 sink_ctx0)) in *.
  destruct (sunk_fold (collapse ts) sink_ctx0 [] false sunk0) as [_ Hs].
  { apply collapse2_ok, collapse1_ok, Hok. }
  { change (zlen []) with 0. destruct (collapse1_ok ts K_OTHER 0 Hok) as [Hok1 Hl1]. destruct (collapse2_ok (collapse1 K_OTHER 0 ts) G0 false Hok1) as [_ Hl2].
    unfold zlen, collapse in *. lia. }
  cbn [app] in Hs. rewrite <- Hd in Hs. destruct Hs as ([Ht Hb] & Hh & _). fold (words ts) in *.
  assert (forall b : bool, drain sink_push ((if b then mark_trunc else id) nx) = (if b then flag else id) (drain sink_push nx)) as Hm
    by (intros []; [apply drain_flag|done]).
  set (s := drain sink_push nx) in *. destruct b; cbn [orb]; destruct (0 <? v); cbn [id];
    rewrite ?drain_flag; fold s; rewrite ?(Hm true), ?(Hm false); fold s; cbn [flag sk_text sk_trunc sk_hashed upd orb id]; rewrite ?Ht, ?Hh, ?Hb; reflexivity.
Qed.

(** ** Same kinds and canonical texts *)
Definition alike t u : Prop := t_kind t = t_kind u /\ canon t = canon u.
Lemma alike_kind k t u : alike t u -> is_kind k t = is_kind k u.
Proof. intros [E _]. unfold is_kind. by rewrite E. Qed.

Lemma collapse1_alike ts us : Forall2 alike ts us -> forall p d, Forall2 alike (collapse1 p d ts) (collapse1 p d us).
Proof.
  revert us. induction ts as [ts IH] using (induction_ltof1 _ (@List.length token)). unfold ltof in IH. intros us H p d.
  destruct H as [|t u ts us Htu H]; [constructor|]. cbn [collapse1]. rewrite (alike_kind _ _ _ Htu). destruct (_ && _ && _).
  - destruct H as [|t1 u1 ts us H1 H]; [by constructor|]. rewrite (alike_kind _ _ _ H1). destruct (is_kind K_PH u1).
    + apply IH; [cbn; lia|done].
    + constructor; [done|]. apply IH; [cbn; lia|by constructor].
  - constructor; [done|]. unfold depth_after. rewrite (proj1 Htu). apply IH; [cbn; lia|done].
Qed.
Lemma collapse2_alike ts us : Forall2 alike ts us -> forall g h, Forall2 alike (collapse2 g h ts) (collapse2 g h us).
Proof.
  revert us. induction ts as [ts IH] using (induction_ltof1 _ (@List.length token)). unfold ltof in IH. intros us H g h.
  destruct H as [|t u ts us Htu H]; [constructor|]. destruct (h && is_kind K_COMMA t) eqn:E.
  - assert (Forall2 alike (t :: collapse2 G0 false ts) (u :: collapse2 G0 false us)) as Hd by (constructor; [done|apply IH; [cbn; lia|done]]).
    cbn [collapse2]. rewrite <- (alike_kind _ _ _ Htu), E. destruct H as [|t1 u1 ts us H1 H]; [done|]. destruct H as [|t2 u2 ts us H2 H]; [done|].
    destruct H as [|t3 u3 ts us H3 H]; [done|]. rewrite (alike_kind _ _ _ H1), (alike_kind _ _ _ H2), (alike_kind _ _ _ H3).
    destruct (_ && _ && _); [apply IH; [cbn; lia|done]|done].
  - rewrite !collapse2_emit; [|by rewrite <- (alike_kind _ _ _ Htu)|done]. constructor; [done|]. unfold grp_after. rewrite (proj1 Htu). apply IH; [cbn; lia|done].
Qed.
Lemma trim_alike ts us : Forall2 alike ts us -> Forall2 alike (trim ts) (trim us).
Proof.
  induction 1 as [|t u ts us Htu H IH]; [constructor|]. cbn [trim]. inversion IH; [rewrite (alike_kind _ _ _ Htu); destruct (is_kind _ u); [done|by constructor]|].
  constructor; [done|by constructor].
Qed.
Lemma words_alike ts us : Forall2 alike ts us -> words ts = words us.
Proof.
  intros H. unfold words, collapse. apply collapse1_alike with (p := K_OTHER) (d := 0) in H. apply collapse2_alike with (g := G0) (h := false) in H.
  apply trim_alike in H. induction H as [|t u ? ? [_ E] _ IH]; [done|]. cbn. by rewrite E, IH.
Qed.

(** ** Statements as written *)
Inductive atom :=
  | AWord (c : Z) (w : list Z)       (** identifier or keyword *)
  | AStr (body : list Z)             (** string literal of this content *)
  | ANum (c : Z) (ds : list Z)       (** decimal integer literal *)
  | AParam (c : Z) (ds : list Z)     (** [$n] *)
  | AOp (c : Z) (ops : list Z)       (** operator *)
  | APunct (t : token).              (** one of the four punctuation marks *)

Definition plain_op (c : Z) : bool := is_op_char c && negb (is_any "-/#`" c).
Definition atom_wf (my : bool) (a : atom) : Prop :=
  match a with
  | AWord c w => is_ident_start c = true /\ Forall (fun b => is_ident_cont b = true) w
  | AStr body => Forall (fun b => my = true -> b <> 92) body
  | ANum c ds => is_digit c = true /\ Forall (fun b => is_digit b = true) ds
  | AParam c ds => my = false /\ is_digit c = true /\ Forall (fun b => is_digit b = true) ds
  | AOp c ops => plain_op c = true /\ Forall (fun b => plain_op b = true) ops
  | APunct t => t = tok_lp \/ t = tok_rp \/ t = tok_comma \/ t = tok_semi
  end.
Definition is_lit (a : atom) : bool := match a with AStr _ | ANum _ _ | AParam _ _ => true | _ => false end.
(** A quote inside a string is doubled. *)
Definition quote_byte (b : Z) : list Z := if b =? QUOTE then [QUOTE; QUOTE] else [b].
Definition atom_bytes (a : atom) : list Z :=
  match a with
  | AWord c w => c :: w | AStr body => QUOTE :: flat_map quote_byte body ++ [QUOTE] | ANum c ds => c :: ds
  | AParam c ds => ch "$" :: c :: ds | AOp c ops => c :: ops | APunct t => t_text t
  end.
Definition atom_tok (a : atom) : token :=
  match a with
  | AWord c w => Tok K_OTHER true (c :: w) | AOp c ops => Tok K_OTHER false (c :: ops)
  | APunct t => t | _ => tok_ph
  end.
(** An atom and the white space after it. *)
Definition spaced : Type := atom * list Z.
Definition gap_wf (g : list Z) : Prop := g <> [] /\ Forall (fun b => is_space b = true) g.
Definition spaced_wf (my : bool) (x : spaced) : Prop := atom_wf my x.1 /\ gap_wf x.2.
Definition print (xs : list spaced) : list Z := flat_map (fun x : spaced => atom_bytes x.1 ++ x.2) xs.
Definition toks (xs : list spaced) : list token := map (fun x : spaced => atom_tok x.1) xs.

(** A byte of a class is none of the bytes outside it. *)
Ltac not_byte H := repeat match goal with
  | |- context [?c =? ?k] => replace (c =? k) with false by (symmetry; apply Z.eqb_neq; intros ->; vm_compute in H; discriminate H)
  end.

Lemma span_stop (P : Z -> bool) w b r : Forall (fun b => P b = true) w -> P b = false -> span P (w ++ b :: r) = (w, b :: r).
Proof. intros Hw Hb. induction Hw as [|x w Hx _ IH]; cbn; [by rewrite Hb|]. by rewrite Hx, IH. Qed.
Lemma skip_quoted_body my body b r : Forall (fun x => my = true -> x <> 92) body -> b <> QUOTE ->
  skip_quoted QUOTE my (flat_map quote_byte body ++ QUOTE :: b :: r) = b :: r.
Proof.
  intros Hw Hb. induction Hw as [|x w Hx _ IH]; cbn [flat_map app].
  - cbn [skip_quoted]. rewrite andb_false_r. change (QUOTE =? QUOTE) with true. destruct (Z.eqb_spec b QUOTE); done.
  - unfold quote_byte at 1. destruct (Z.eqb_spec x QUOTE) as [->|Hq]; cbn [app skip_quoted].
    + rewrite andb_false_r. change (QUOTE =? QUOTE) with true. cbn. exact IH.
    + assert (my && (x =? 92) = false) as -> by (destruct my; [|done]; apply Z.eqb_neq; by apply Hx).
      destruct (Z.eqb_spec x QUOTE); [done|]. exact IH.
Qed.

(** No class but white space has the byte after an atom. *)
Lemma space_facts b : is_space b = true -> is_ident_cont b = false /\ is_digit b = false /\ digits_ b = false /\ is_op_char b = false /\ b <> QUOTE /\
  is_any "xXoObB" b = false /\ is_any "eE" b = false /\ (b =? ch ".") = false.
Proof.
  intros H. unfold is_space in H. repeat (apply orb_true_iff in H as [H|H]); apply Z.eqb_eq in H; subst b; repeat split; (reflexivity || discriminate).
Qed.

Lemma no_quote w b r : Forall (fun b => is_ident_cont b = true) w -> is_space b = true -> next_quote (w ++ b :: r) = false.
Proof.
  intros Hw Hb. destruct Hw as [|x w Hx _]; cbn [app next_quote]; [apply Z.eqb_neq, space_facts, Hb|].
  apply Z.eqb_neq. intros ->. discriminate Hx.
Qed.
Lemma ident_not_digit c : is_ident_start c = true -> is_digit c = false.
Proof.
  unfold is_ident_start, is_alpha, is_digit, in_range. intros H. destruct (is_digit c) eqn:E; unfold is_digit, in_range in E; [|done].
  apply andb_true_iff in E as [E1 E2]. apply Z.leb_le in E1, E2. exfalso.
  change (ch "0") with 48 in *. change (ch "9") with 57 in *. change (ch "a") with 97 in *. change (ch "z") with 122 in *.
  change (ch "A") with 65 in *. change (ch "Z") with 90 in *. change (ch "_") with 95 in *. lia.
Qed.

Definition read (a : atom) my b r : Prop :=
  exists c tl, atom_bytes a = c :: tl /\ lex_step my 0 c (tl ++ b :: r) = tok 0 (b :: r) (atom_tok a).

Lemma read_word my c w b r : atom_wf my (AWord c w) -> is_space b = true -> read (AWord c w) my b r.
Proof.
  intros [Hc Hw] Hb. exists c, w. split; [done|]. unfold lex_step. rewrite (no_quote w b r Hw Hb), !andb_false_r.
  unfold is_space. rewrite (ident_not_digit c Hc), Hc. unfold QUOTE, DQUOTE. not_byte Hc. rewrite !andb_false_r. cbn [orb andb].
  unfold lex_word. destruct (space_facts b Hb) as (Hi & _). rewrite (span_stop _ w b r Hw Hi).
  assert ((b =? QUOTE) || (b =? DQUOTE) = false) as ->.
  { unfold is_space in Hb. apply orb_false_iff. split; apply Z.eqb_neq; intros ->; discriminate Hb. }
  by rewrite andb_false_r.
Qed.

Lemma read_str my body b r : atom_wf my (AStr body) -> is_space b = true -> read (AStr body) my b r.
Proof.
  intros Hw Hb. exists QUOTE, (flat_map quote_byte body ++ [QUOTE]). split; [done|]. unfold lex_step.
  change (is_space QUOTE) with false. change (QUOTE =? ch "*") with false. change (QUOTE =? ch "-") with false. change (QUOTE =? ch "#") with false.
  change (QUOTE =? ch "/") with false. change (QUOTE =? QUOTE) with true. change (QUOTE =? DQUOTE) with false. change (is_any "eE" QUOTE) with false.
  rewrite !andb_false_r. cbn [orb andb]. change (QUOTE =? QUOTE) with true. cbv iota. rewrite orb_false_r, <- app_assoc. cbn [app].
  rewrite skip_quoted_body; [done|exact Hw|apply space_facts, Hb].
Qed.

Lemma skip_stop (P : Z -> bool) w b r : Forall (fun b => P b = true) w -> P b = false -> skip P (w ++ b :: r) = b :: r.
Proof. intros. unfold skip. by rewrite span_stop. Qed.
Lemma next_not_digit ds b r (P : Z -> bool) : Forall (fun b => is_digit b = true) ds -> P b = false -> (forall x, is_digit x = true -> P x = false) ->
  match ds ++ b :: r with x :: _ => P x | [] => false end = false.
Proof. intros Hd Hb HP. destruct Hd as [|x ds Hx _]; cbn; [done|by apply HP]. Qed.
Lemma is_any_not (P : Z -> bool) cs c : forallb (fun k => negb (P k)) (lit cs) = true -> P c = true -> is_any cs c = false.
Proof.
  unfold is_any. intros Hk Hc. induction (lit cs) as [|k ks IH]; [done|]. cbn in *. apply andb_true_iff in Hk as [Hk Hks].
  rewrite (IH Hks), orb_false_r. apply Z.eqb_neq. intros ->. by rewrite Hc in Hk.
Qed.

Lemma read_num my c ds b r : atom_wf my (ANum c ds) -> is_space b = true -> read (ANum c ds) my b r.
Proof.
  intros [Hc Hd] Hb. exists c, ds. split; [done|]. destruct (space_facts b Hb) as (Hi & Hdg & Hd_ & _ & Hq & Hx & He & Hp).
  assert (next_quote (ds ++ b :: r) = false) as Hnq.
  { unfold next_quote. apply next_not_digit; [done|by apply Z.eqb_neq|]. intros x H. unfold QUOTE. not_byte H. done. }
  unfold lex_step. rewrite Hnq, !andb_false_r. unfold is_space. rewrite Hc. unfold QUOTE, DQUOTE. not_byte Hc. rewrite !andb_false_r. cbn [orb andb].
  unfold skip_number. rewrite (next_not_digit ds b r (is_any "xXoObB") Hd Hx (fun x => is_any_not is_digit "xXoObB" x eq_refl)), andb_false_r.
  rewrite skip_stop; [|eapply Forall_impl; [exact Hd|]; intros x E; unfold digits_; by rewrite E|done].
  unfold skip_fraction, next_is. rewrite Hp. unfold skip_exponent. by rewrite He.
Qed.

Lemma read_param my c ds b r : atom_wf my (AParam c ds) -> is_space b = true -> read (AParam c ds) my b r.
Proof.
  intros (-> & Hc & Hd) Hb. exists (ch "$"), (c :: ds). split; [done|]. cbn [app]. unfold lex_step.
  assert (next_quote (c :: ds ++ b :: r) = false) as Hnq by (cbn; apply Z.eqb_neq; intros ->; discriminate Hc).
  rewrite Hnq, !andb_false_r. change (is_space (ch "$")) with false. cbn [negb andb orb].
  replace (is_digit (ch "$") || _) with false by reflexivity. unfold lex_dollar. rewrite Hc.
  destruct (space_facts b Hb) as (_ & Hdg & _). change (drop 1 (c :: ds ++ b :: r)) with (ds ++ b :: r). by rewrite (skip_stop _ ds b r Hd Hdg).
Qed.

Lemma plain_op_facts c : plain_op c = true ->
  is_op_char c = true /\ (c =? ch "-") = false /\ (c =? ch "/") = false /\ is_any "#`" c = false /\ is_ident_start c = false /\ is_digit c = false.
Proof.
  intros H. pose proof H as H'. apply andb_true_iff in H' as [Ho _]. split; [done|].
  unfold is_op_char in Ho. change (lit "+-*/<>=~!@#%^&|`:") with [43;45;42;47;60;62;61;126;33;64;35;37;94;38;124;96;58] in Ho. cbn [existsb] in Ho.
  repeat (apply orb_true_iff in Ho as [Ho|Ho]); try discriminate Ho; apply Z.eqb_eq in Ho; subst c; vm_compute in H; try discriminate H; vm_compute; repeat split; reflexivity.
Qed.
Lemma op_run_stop my ops b r : Forall (fun b => plain_op b = true) ops -> is_space b = true -> op_run my 0 (ops ++ b :: r) = (ops, b :: r).
Proof.
  intros Ho Hb. destruct (space_facts b Hb) as (_ & _ & _ & Hop & _). induction Ho as [|x ops Hx _ IH]; cbn [app op_run]; [by rewrite Hop|].
  destruct (plain_op_facts x Hx) as (-> & -> & -> & -> & _). rewrite !andb_false_r. cbn [negb andb orb Z.ltb Z.compare]. by rewrite IH.
Qed.
Lemma read_op my c ops b r : atom_wf my (AOp c ops) -> is_space b = true -> read (AOp c ops) my b r.
Proof.
  intros [Hc Ho] Hb. exists c, ops. split; [done|]. destruct (plain_op_facts c Hc) as (H1 & H2 & H3 & H4 & H5 & H6). unfold lex_step.
  assert (is_any "eE" c = false /\ is_any "bBxX" c = false /\ is_any "nN" c = false) as (-> & -> & ->) by (split_and!; by apply (is_any_not plain_op)).
  rewrite !andb_false_r, H2, H3, H5, H6. unfold is_space, QUOTE, DQUOTE. unfold lex_punct. rewrite H1. not_byte Hc. rewrite !andb_false_r. cbn [orb andb].
  change (0 <? 0) with false. cbn [orb andb]. by rewrite (op_run_stop my ops b r Ho Hb).
Qed.
Lemma read_punct my t b r : atom_wf my (APunct t) -> is_space b = true -> read (APunct t) my b r.
Proof.
  intros [->|[->|[->| ->]]] Hb; [exists (ch "("), []|exists (ch ")"), []|exists (ch ","), []|exists (ch ";"), []];
    (split; [reflexivity|destruct my; reflexivity]).
Qed.
Lemma read_atom my a b r : atom_wf my a -> is_space b = true -> read a my b r.
Proof. destruct a; [apply read_word|apply read_str|apply read_num|apply read_param|apply read_op|apply read_punct]. Qed.

(** ** Lexing what was printed *)
Lemma lex_gap my g r : Forall (fun b => is_space b = true) g -> lexes my (g ++ r) = lexes my r.
Proof.
  unfold lexes. induction 1 as [|b g Hb _ IH]; [done|]. cbn [app]. rewrite lex_cons. cbv zeta. assert (lex_step my 0 b (g ++ r) = white 0 (g ++ r)) as -> by (unfold lex_step; by rewrite Hb).
  cbn [white lx_rest lx_ver lx_tok lx_trunc orb]. rewrite IH. by destruct (lex _ my 0 r) as [[ts x] v].
Qed.
Lemma lex_print my xs : Forall (spaced_wf my) xs -> lexes my (print xs) = (toks xs, false, 0).
Proof.
  induction 1 as [|[a g] xs [Ha [Hne Hg]] _ IH]; [done|]. cbn [fst snd] in *. cbn [print flat_map toks map fst snd]. fold (print xs). fold (toks xs).
  destruct Hg as [|b g Hb Hg]; [done|]. rewrite <- app_assoc. destruct (read_atom my a b (g ++ print xs) Ha Hb) as (c & tl & E & Hs).
  rewrite E. cbn [app]. unfold lexes. rewrite lex_cons. cbv zeta. rewrite Hs. cbn [tok lx_rest lx_ver lx_tok lx_trunc orb].
  change (lex (List.length (b :: g ++ print xs)) my 0 (b :: g ++ print xs)) with (lexes my ((b :: g) ++ print xs)). rewrite lex_gap by by constructor. by rewrite IH.
Qed.

(** ** Value lists *)
(** [, ?] repeated. *)
Fixpoint more (n : nat) : list token := match n with O => [] | S n => tok_comma :: tok_ph :: more n end.
(** [( ?, ?, ... )] with [n] + 1 values, and [n] + 1 such rows. *)
Definition row (n : nat) : list token := tok_lp :: tok_ph :: more n ++ [tok_rp].
Definition rows (n : nat) (ns : list nat) : list token := row n ++ flat_map (fun n => tok_comma :: row n) ns.

Lemma collapse1_more d n r : 0 < d -> collapse1 K_PH d (more n ++ r) = collapse1 K_PH d r.
Proof.
  intros Hd. induction n as [|n IH]; [done|]. cbn [more app collapse1]. change (is_kind K_COMMA tok_comma && bool_decide (K_PH = K_PH)) with true.
  destruct (Z.ltb_spec 0 d); [|lia]. exact IH.
Qed.
Lemma depth_pos d t : 0 <= d -> 0 <= depth_after d t.
Proof. intros H. unfold depth_after. destruct (t_kind t); try lia. destruct (Z.ltb_spec 0 d); lia. Qed.
Lemma collapse1_row pre n r : forall p d, 0 <= d -> collapse1 p d (pre ++ row n ++ r) = collapse1 p d (pre ++ row 0 ++ r).
Proof.
  induction pre as [pre IH] using (induction_ltof1 _ (@List.length token)). unfold ltof in IH. intros p d Hd. destruct pre as [|t pre].
  - cbn [app]. unfold row. cbn [app collapse1 more]. change (is_kind K_COMMA tok_lp) with false. change (is_kind K_COMMA tok_ph) with false. cbn [andb].
    change (depth_after (depth_after d tok_lp) tok_ph) with (d + 1). change (t_kind tok_ph) with K_PH. do 2 f_equal.
    rewrite <- app_assoc. rewrite collapse1_more by lia. reflexivity.
  - cbn [app collapse1]. destruct (_ && _ && _).
    + destruct pre as [|u pre]; cbn [app].
      * change (is_kind K_PH tok_lp) with false. cbv iota. f_equal. apply (IH []); [cbn; lia|done].
      * destruct (is_kind K_PH u); [apply IH; [cbn; lia|done]|]. f_equal. apply (IH (u :: pre)); [cbn; lia|done].
    + f_equal. apply IH; [cbn; lia|by apply depth_pos].
Qed.
Lemma collapse1_rows ns : forall pre n r p d, 0 <= d ->
  collapse1 p d (pre ++ rows n ns ++ r) = collapse1 p d (pre ++ rows 0 (map (fun _ => 0%nat) ns) ++ r).
Proof.
  induction ns as [|m ns IH]; intros pre n r p d Hd; unfold rows; cbn [flat_map map]; rewrite <- !app_assoc; rewrite collapse1_row by done; [done|].
  change ((tok_comma :: row m) ++ flat_map (fun n => tok_comma :: row n) ns ++ r) with ([tok_comma] ++ row m ++ flat_map (fun n => tok_comma :: row n) ns ++ r).
  specialize (IH (pre ++ row 0 ++ [tok_comma]) m r p d Hd). unfold rows in IH. rewrite <- !app_assoc in IH. cbn [app] in *. exact IH.
Qed.

Lemma collapse2_more g k r : collapse2 g true (flat_map (fun n => tok_comma :: row n) (replicate k 0%nat) ++ r) = collapse2 g true r.
Proof. induction k as [|k IH]; [done|]. cbn [replicate flat_map app collapse2 row more]. exact IH. Qed.
Lemma collapse2_rows pre k r : forall g h,
  collapse2 g h (pre ++ rows 0 (replicate k 0%nat) ++ r) = collapse2 g h (pre ++ row 0 ++ r).
Proof.
  set (X := rows 0 (replicate k 0%nat) ++ r). assert (X = tok_lp :: tok_ph :: tok_rp :: flat_map (fun n => tok_comma :: row n) (replicate k 0%nat) ++ r) as EX.
  { subst X. unfold rows. by rewrite <- app_assoc. }
  induction pre as [pre IH] using (induction_ltof1 _ (@List.length token)). unfold ltof in IH. intros g h. destruct pre as [|t pre].
  - rewrite EX. cbn [app row more]. rewrite !collapse2_emit by (rewrite ?andb_false_r; done). do 3 f_equal. cbn [grp_after t_kind tok_lp tok_ph tok_rp fst snd]. apply collapse2_more.
  - cbn [app]. destruct (h && is_kind K_COMMA t) eqn:E.
    + assert (t :: collapse2 G0 false (pre ++ X) = t :: collapse2 G0 false (pre ++ row 0 ++ r)) as Hd by (f_equal; apply IH; cbn; lia).
      cbn [collapse2]. rewrite E. apply andb_true_iff in E as [-> _]. destruct pre as [|a [|b [|c pre]]].
      * rewrite EX. cbn [app row more]. apply collapse2_more.
      * cbn [app] in *. rewrite EX in *. cbn [app row more] in *. change (is_kind K_PH tok_lp) with false. rewrite andb_false_r. exact Hd.
      * cbn [app] in *. rewrite EX in *. cbn [app row more] in *. change (is_kind K_RP tok_lp) with false. rewrite !andb_false_r. exact Hd.
      * cbn [app] in *. destruct (_ && _ && _); [apply IH; cbn; lia|exact Hd].
    + rewrite !collapse2_emit by done. f_equal. apply IH. cbn. lia.
Qed.

(** The first filter up to a parenthesis, and over collapsed rows. *)
Lemma collapse1_prefix pre : forall p d, 0 <= d -> exists P q d', 0 <= d' /\
  forall X, collapse1 p d (pre ++ tok_lp :: X) = P ++ collapse1 q d' (tok_lp :: X).
Proof.
  induction pre as [pre IH] using (induction_ltof1 _ (@List.length token)). unfold ltof in IH. intros p d Hd. destruct pre as [|t pre].
  { exists [], p, d. done. }
  cbn [app]. destruct (is_kind K_COMMA t && bool_decide (p = K_PH) && (0 <? d)) eqn:E.
  - destruct pre as [|u pre].
    + exists [t], K_COMMA, d. split; [done|]. intros X. cbn [app collapse1]. rewrite E. reflexivity.
    + destruct (is_kind K_PH u) eqn:Eu.
      * destruct (IH pre ltac:(cbn; lia) K_PH d Hd) as (P & q & d' & Hd' & HX). exists P, q, d'. split; [done|]. intros X. cbn [app collapse1]. rewrite E, Eu. apply HX.
      * destruct (IH (u :: pre) ltac:(cbn; lia) K_COMMA d Hd) as (P & q & d' & Hd' & HX). exists (t :: P), q, d'. split; [done|]. intros X.
        cbn [app]. cbn [collapse1]. rewrite E, Eu. f_equal. apply HX.
  - destruct (IH pre ltac:(cbn; lia) (t_kind t) (depth_after d t) (depth_pos _ _ Hd)) as (P & q & d' & Hd' & HX). exists (t :: P), q, d'. split; [done|].
    intros X. cbn [app collapse1]. rewrite E. f_equal. apply HX.
Qed.
Lemma collapse1_row0 q d r : 0 <= d -> collapse1 q d (row 0 ++ r) = row 0 ++ collapse1 K_RP d r.
Proof.
  intros Hd. cbn [row more app collapse1]. change (is_kind K_COMMA tok_lp) with false. change (is_kind K_COMMA tok_ph) with false.
  change (is_kind K_COMMA tok_rp) with false. cbn [andb]. do 4 f_equal. unfold depth_after. cbn [t_kind tok_lp tok_ph tok_rp]. destruct (Z.ltb_spec 0 (d + 1)); lia.
Qed.
Lemma collapse1_rows0 k q d r : 0 <= d ->
  collapse1 q d (rows 0 (replicate k 0%nat) ++ r) = rows 0 (replicate k 0%nat) ++ collapse1 K_RP d r.
Proof.
  intros Hd. unfold rows. rewrite <- !app_assoc, collapse1_row0 by done. f_equal. induction k as [|k IH]; [done|].
  cbn [replicate flat_map]. rewrite <- !app_assoc. change ((tok_comma :: row 0) ++ ?x) with (tok_comma :: row 0 ++ x).
  cbn [collapse1]. change (is_kind K_COMMA tok_comma && bool_decide (K_RP = K_PH)) with false. cbn [andb]. f_equal.
  change (t_kind tok_comma) with K_COMMA. change (depth_after d tok_comma) with d. rewrite collapse1_row0 by done. f_equal. exact IH.
Qed.

(** Any number of rows of any lengths is one row of one value. *)
Lemma words_rows pre n ns r : words (pre ++ rows n ns ++ r) = words (pre ++ row 0 ++ r).
Proof.
  unfold words, collapse. rewrite collapse1_rows by done. do 2 f_equal.
  replace (map (fun _ => 0%nat) ns) with (replicate (List.length ns) 0%nat) by (induction ns as [|? ? IH]; [done|cbn; by rewrite <- IH]).
  set (k := List.length ns). destruct (collapse1_prefix pre K_OTHER 0 (Z.le_refl 0)) as (P & q & d' & Hd & HX).
  assert (forall k, collapse1 K_OTHER 0 (pre ++ rows 0 (replicate k 0%nat) ++ r) = P ++ rows 0 (replicate k 0%nat) ++ collapse1 K_RP d' r) as Hk.
  { intros k'. rewrite <- (collapse1_rows0 k' q d' r Hd). apply HX. }
  pose proof (Hk 0%nat) as H0. cbn [replicate] in H0. change (rows 0 []) with (row 0) in H0. rewrite Hk, H0. apply collapse2_rows.
Qed.

(** A written row: the values separated by commas, in parentheses, with the white
    space of each mark. *)
Definition value : Type := spaced * list Z.
Definition srow (lp : list Z) (v : spaced) (vs : list value) (rp : list Z) : list spaced :=
  (APunct tok_lp, lp) :: v :: flat_map (fun x : value => [(APunct tok_comma, x.2); x.1]) vs ++ [(APunct tok_rp, rp)].
Record written_row := WRow { wr_lp : list Z; wr_first : spaced; wr_more : list value; wr_rp : list Z; wr_comma : list Z }.
Definition wrow (x : written_row) : list spaced := srow (wr_lp x) (wr_first x) (wr_more x) (wr_rp x).
(** Rows separated by commas; the comma of the first is not printed. *)
Definition wrows (x : written_row) (xs : list written_row) : list spaced :=
  wrow x ++ flat_map (fun x => (APunct tok_comma, wr_comma x) :: wrow x) xs.
Definition row_wf (x : written_row) : Prop := is_lit (wr_first x).1 = true /\ Forall (fun v : value => is_lit v.1.1 = true) (wr_more x).

Lemma lit_tok a : is_lit a = true -> atom_tok a = tok_ph. Proof. by destruct a. Qed.
Lemma toks_wrow x : row_wf x -> toks (wrow x) = row (List.length (wr_more x)).
Proof.
  intros [Hf Hm]. unfold wrow, srow, row, toks. cbn [map fst atom_tok]. rewrite (lit_tok _ Hf). do 2 f_equal. rewrite map_app. f_equal.
  induction Hm as [|v vs Hv _ IH]; [done|]. cbn [flat_map app map fst snd atom_tok more List.length]. rewrite (lit_tok _ Hv). by rewrite IH.
Qed.
Lemma toks_app xs ys : toks (xs ++ ys) = toks xs ++ toks ys. Proof. apply map_app. Qed.
Lemma toks_wrows x xs : row_wf x -> Forall row_wf xs -> toks (wrows x xs) = rows (List.length (wr_more x)) (map (fun x => List.length (wr_more x)) xs).
Proof.
  intros Hx Hxs. unfold wrows, rows. rewrite toks_app, (toks_wrow x Hx). f_equal. induction Hxs as [|y ys Hy _ IH]; [done|].
  change (flat_map (fun x => (APunct tok_comma, wr_comma x) :: wrow x) (y :: ys))
    with (((APunct tok_comma, wr_comma y) :: wrow y) ++ flat_map (fun x => (APunct tok_comma, wr_comma x) :: wrow x) ys).
  rewrite toks_app, IH. change (toks ((APunct tok_comma, wr_comma y) :: wrow y)) with (tok_comma :: toks (wrow y)). rewrite (toks_wrow y Hy). reflexivity.
Qed.

(** ** Claims *)
(** The output on written statements. *)
Lemma norm_print XXH3 d xs : Forall (spaced_wf (is_my d)) xs -> zlen (print xs) < 2 ^ 32 ->
  lk_norm_sql XXH3 (print xs) d = norm_spec XXH3 (toks xs) false.
Proof. intros Hw Hl. rewrite norm_spec_ok by done. by rewrite lex_print. Qed.

(** C13: the streaming normaliser (two collapse filters with their held-back tokens,
    deferred semicolons, text capped at 1023 bytes, hash fed as it goes) computes the
    specification on every input below 4 GiB and in both dialects: the text is the
    canonical words (list-collapsed, lower-cased, without trailing semicolons) joined
    by single spaces and cut at the cap; the fingerprint is the hash of all the words,
    also those the text has no room for; the truncation flag is raised exactly when
    the lexer met an unterminated construct or the text did not fit. *)
Theorem norm_refines (XXH3 : list Z -> Z) (sql : list Z) (d : lk_sql_dialect) : zlen sql < 2 ^ 32 ->
  exists ts unterminated, (exists v b, lexes (is_my d) sql = (ts, b, v) /\ unterminated = b || (0 <? v)) /\
    lk_norm_sql XXH3 sql d = NormOut (ztake 1023 (join (words ts))) (XXH3 (hash_stream (words ts)))
                                     (unterminated || (1023 <? zlen (join (words ts)))) /\
    zlen (no_text (lk_norm_sql XXH3 sql d)) <= 1023.
Proof.
  intros Hl. rewrite norm_spec_ok by done. destruct (lexes (is_my d) sql) as [[ts b] v] eqn:E. exists ts, (b || (0 <? v)).
  split; [by exists v, b|]. split; [reflexivity|]. cbn [norm_spec no_text]. rewrite zlen_ztake by done. unfold text_cap, LK_NORM_TEXT_MAX. lia.
Qed.

(** two statements that differ only in the spelling of literals (strings,
    numbers, parameters, whatever their content), in the case of words and in white
    space have the same text, the same fingerprint and the same flag: no byte of a
    literal reaches the output. *)
Theorem norm_spelling (XXH3 : list Z -> Z) (d : lk_sql_dialect) (xs ys : list spaced) :
  Forall (spaced_wf (is_my d)) xs -> Forall (spaced_wf (is_my d)) ys ->
  zlen (print xs) < 2 ^ 32 -> zlen (print ys) < 2 ^ 32 ->
  Forall2 (fun x y : spaced => is_lit x.1 = true /\ is_lit y.1 = true \/ alike (atom_tok x.1) (atom_tok y.1)) xs ys ->
  lk_norm_sql XXH3 (print xs) d = lk_norm_sql XXH3 (print ys) d.
Proof.
  intros Hx Hy Lx Ly H. rewrite !norm_print by done. unfold norm_spec. rewrite (words_alike (toks xs) (toks ys)); [done|]. clear Hx Hy Lx Ly.
  induction H as [|x y xs ys Hxy _ IH]; [constructor|]. constructor; [|exact IH]. destruct Hxy as [[E1 E2]|?]; [|done]. rewrite (lit_tok _ E1), (lit_tok _ E2). done.
Qed.

(** value lists collapse: a statement with any number of rows
    [(v, ...), (v, ...), ...] of any lengths anywhere in it has the output it has with
    one row of one value there, so IN lists and multi-row inserts share a fingerprint. *)
Theorem norm_in_lists (XXH3 : list Z -> Z) (d : lk_sql_dialect) (pre post : list spaced) (x : written_row) (xs : list written_row) (v : spaced) :
  let long := pre ++ wrows x xs ++ post in let short := pre ++ srow (wr_lp x) v [] (wr_rp x) ++ post in
  Forall (spaced_wf (is_my d)) long -> Forall (spaced_wf (is_my d)) short -> zlen (print long) < 2 ^ 32 -> zlen (print short) < 2 ^ 32 ->
  row_wf x -> Forall row_wf xs -> is_lit v.1 = true ->
  lk_norm_sql XXH3 (print long) d = lk_norm_sql XXH3 (print short) d.
Proof.
  cbv zeta. intros Hl Hs Ll Ls Hx Hxs Hv. rewrite !norm_print by done. unfold norm_spec.
  assert (words (toks (pre ++ wrows x xs ++ post)) = words (toks (pre ++ srow (wr_lp x) v [] (wr_rp x) ++ post))) as ->; [|done].
  rewrite !toks_app, (toks_wrows x xs Hx Hxs), words_rows. do 3 f_equal.
  change (toks (srow (wr_lp x) v [] (wr_rp x))) with [tok_lp; atom_tok v.1; tok_rp]. by rewrite (lit_tok _ Hv).
Qed.

(** ** Concrete statements *)
Ltac concrete_wf :=
  repeat match goal with
  | |- Forall _ [] => constructor
  | |- Forall ?P (_ :: _) => constructor; cbv beta
  | |- _ /\ _ => split
  | |- spaced_wf _ _ => split
  | |- gap_wf _ => split
  | |- row_wf _ => split
  | |- Forall ?P ?l => let v := eval vm_compute in l in change (Forall P v)
  | |- _ <> _ => discriminate
  | |- true = true -> _ => intros _
  | |- false = true -> _ => discriminate
  | |- _ = true => reflexivity
  | |- _ = false => reflexivity
  | |- _ \/ _ => vm_compute; tauto
  | |- atom_wf _ ?a => let v := eval vm_compute in a in change (atom_wf false v); cbn [atom_wf]
  end.
Definition sp : list Z := lit " ".
Definition word (w : string) : spaced := match lit w with c :: r => (AWord c r, sp) | [] => (AStr [], sp) end.
Arguments word w%_string.
Definition w_lower : list spaced := [word "select"; (AOp (ch "*") [], sp); word "from"; word "t"; word "where"; word "a"; (AOp (ch "=") [], sp); (ANum 55 [], sp)].
Definition w_upper : list spaced :=
  [word "SELECT"; (AOp (ch "*") [], [9]); word "From"; word "T"; word "where"; word "A"; (AOp (ch "=") [], sp ++ [10]); (AStr (lit "x'); drop" ++ [39]), sp)].
Definition w_row (n : Z) : written_row := WRow sp (ANum 49 [], sp) [((AStr [n], sp), sp); ((AParam 50 [], sp), sp)] sp sp.
Definition w_digest (l : list Z) : Z := fold_left (fun h b => u64 (h * 31 + b)) l 7.

(** A statement longer than the text: cut and flagged, hashed in full. *)
Lemma norm_refines_witness : let sql := List.concat (replicate 600 (lit "ab ")) in
  zlen sql < 2 ^ 32 /\ no_trunc (lk_norm_sql w_digest sql LK_SQL_PG) = true /\ zlen (no_text (lk_norm_sql w_digest sql LK_SQL_PG)) <= 1023.
Proof.
  cbv zeta. assert (zlen (List.concat (replicate 600 (lit "ab "))) < 2 ^ 32) as H by (vm_compute; reflexivity).
  destruct (norm_refines w_digest (List.concat (replicate 600 (lit "ab "))) LK_SQL_PG H) as (ts & u & _ & _ & Hl).
  split; [exact H|]. split; [vm_compute; reflexivity|exact Hl].
Defined.

Lemma norm_spelling_witness :
  no_text (lk_norm_sql w_digest (print w_lower) LK_SQL_PG) = lit "select * from t where a = ?" /\
  lk_norm_sql w_digest (print w_lower) LK_SQL_PG = lk_norm_sql w_digest (print w_upper) LK_SQL_PG.
Proof.
  split; [vm_compute; reflexivity|]. apply norm_spelling; [concrete_wf|concrete_wf|vm_compute; reflexivity|vm_compute; reflexivity|].
  repeat (constructor; [first [left; split; reflexivity|right; split; reflexivity]|]). constructor.
Defined.

Lemma norm_in_lists_witness : let pre := [word "insert"; word "into"; word "t"; word "values"] in
  no_text (lk_norm_sql w_digest (print (pre ++ wrows (w_row 65) [w_row 66; w_row 67] ++ [])) LK_SQL_PG) = lit "insert into t values ( ? )" /\
  lk_norm_sql w_digest (print (pre ++ wrows (w_row 65) [w_row 66; w_row 67] ++ [])) LK_SQL_PG =
  lk_norm_sql w_digest (print (pre ++ srow sp (ANum 57 [], sp) [] sp ++ [])) LK_SQL_PG.
Proof.
  cbv zeta. split; [vm_compute; reflexivity|].
  apply (norm_in_lists w_digest LK_SQL_PG [word "insert"; word "into"; word "t"; word "values"] [] (w_row 65) [w_row 66; w_row 67] (ANum 57 [], sp));
    try (vm_compute; reflexivity); cbn [app wrows wrow srow w_row wr_lp wr_first wr_more wr_rp wr_comma flat_map fst snd]; concrete_wf.
Defined.
