(* ===== verification/Metrics.v ===== *)
(** The metrics facade, [metrics/metrics.c]: the upward sink of the protocol handlers over
    the series registry, the per-connection label cache, and the flat scalars.

    [lk_conn_proto(c)] is the protocol of the connection; its name, profile and dialect are
    those of the protocol's vtable.  A provider's context is part of the provider.  The two
    walks that print or export everything are left out. *)
From Stdlib Require Import Floats.SpecFloat Ascii String.
From stdpp Require Import base list gmap option.
From S2P Require Import Prelude Conn Proto Hist NormSql MetReg NormS3.
#[local] Open Scope Z_scope.

Definition LK_CODE_OK := 0.
Definition LK_CODE_ERROR := 1.
Definition LK_QCODE_OK := 0.
Definition LK_QCODE_ERROR := 1.
Definition LK_QCODE_ABORTED := 2.
Definition LK_QCODE_CANCELED := 3.
Definition LK_SCLASS_OTHER := 0.
Definition LK_SCLASS_1XX := 1.
Definition LK_SESS_CACHE := 4096.
Definition LK_MAX_SCALARS := 128.
Definition LK_MAX_PROVIDERS := 8.
Definition LK_NS : double := of_uint 1000000000.
Definition fdiv (a b : double) : double := SFdiv prec emax a b.

(** What the facade reads of a protocol's vtable. *)
Definition lk_conn_proto {P F} (c : lk_conn P F) : proto_id := default PROTO_PG (c_ops c).
Definition ops_name (p : proto_id) : cstring :=
  match p with PROTO_PG => lit "pg" | PROTO_MY => lit "mysql" | PROTO_HTTP => lit "http" | PROTO_S3 => lit "s3" | PROTO_REDIS => lit "redis" end.
Definition ops_profile (p : proto_id) : Z :=
  match p with PROTO_PG | PROTO_MY => LK_PROF_QUERY | PROTO_HTTP => LK_PROF_HTTP | PROTO_S3 => LK_PROF_S3 | PROTO_REDIS => LK_PROF_REDIS end.
Definition ops_dialect (p : proto_id) : lk_sql_dialect := match p with PROTO_MY => LK_SQL_MYSQL | _ => LK_SQL_PG end.

Record sess_ent := SessEnt { se_cookie : Z; se_used : bool; se_db : cstring; se_user : cstring; se_proto : option cstring }.
Definition sess_ent0 : sess_ent := SessEnt 0 false [] [] None.
Inductive sc_type := LK_SC_COUNTER | LK_SC_GAUGE.
Record scalar := Scalar {
  sc_name : cstring; sc_help : cstring; sc_label_key : cstring; sc_label_val : cstring; sc_label_key2 : cstring; sc_label_val2 : cstring;
  sc_kind : sc_type; sc_value : double; sc_created_ns : Z }.
#[global] Instance scalar_upd : Updatable scalar := fun s =>
  Scalar (sc_name s) (sc_help s) (sc_label_key s) (sc_label_val s) (sc_label_key2 s) (sc_label_val2 s) (sc_kind s) (sc_value s) (sc_created_ns s).
Record lk_metrics (V : Type) := MkMetrics { mx_reg : lk_registry; mx_sess : list sess_ent; mx_scalars : list scalar; mx_providers : list V }.
Arguments MkMetrics {V}. Arguments mx_reg {V}. Arguments mx_sess {V}. Arguments mx_scalars {V}. Arguments mx_providers {V}.
#[global] Instance lk_metrics_upd V : Updatable (lk_metrics V) := fun m => MkMetrics (mx_reg m) (mx_sess m) (mx_scalars m) (mx_providers m).

Definition span_seconds (from to : Z) : double := if from <? to then fdiv (of_uint (to - from)) LK_NS else zero.

(** ** The label cache *)
Definition sess_slot (cookie : Z) : Z := Z.land (Z.lxor cookie (Z.shiftr cookie 29)) (LK_SESS_CACHE - 1).
Definition sess_at (l : list sess_ent) (cookie : Z) : sess_ent := nth (Z.to_nat (sess_slot cookie)) l sess_ent0.
Definition cache_put (l : list sess_ent) (cookie : Z) (db user : cstring) (proto : option cstring) : list sess_ent :=
  <[Z.to_nat (sess_slot cookie) := SessEnt cookie true (snprintf_s 64 db) (snprintf_s 64 user) proto]> l.
Definition cache_get (l : list sess_ent) (cookie : Z) : option sess_ent :=
  let e := sess_at l cookie in if se_used e && (se_cookie e =? cookie) then Some e else None.

(** ** Observations *)
Definition kind_code (k : lk_query_kind) : Z :=
  match k with LK_Q_SIMPLE => 0 | LK_Q_EXTENDED => 1 | LK_Q_FUNCTION => 2 | LK_Q_COPY_IN => 3 | LK_Q_COPY_OUT => 4 | LK_Q_CANCEL => 5 | LK_Q_REQUEST => 6 | LK_Q_COMMAND => 7 end.
Definition reg_obs0 : lk_reg_obs :=
  RegObs 0 None None None None None 0 0 0 0 false false false 0 zero 0 false zero false zero false 0 0 0 false None 0 false zero false 0.
#[global] Instance lk_reg_obs_upd : Updatable lk_reg_obs := fun o =>
  RegObs (ro_fp o) (ro_label o) (ro_op o) (ro_db o) (ro_user o) (ro_proto o) (ro_profile o) (ro_kind o) (ro_qcode o) (ro_sclass o) (ro_force_other o) (ro_internal o)
    (ro_has_duration o) (ro_dcode o) (ro_dur_seconds o) (ro_rows o) (ro_has_first_row o) (ro_first_row_seconds o) (ro_has_upload o) (ro_upload_seconds o) (ro_has_size o) (ro_size_bytes o)
    (ro_bytes_in o) (ro_bytes_out o) (ro_truncated o) (ro_err_code o) (MetReg.ro_redirect o) (ro_has_block o) (ro_block_seconds o) (ro_has_depth o) (ro_depth o).
(** [s[0] ? s : "-"] *)
Definition or_dash (s : cstring) : cstring := match s with [] => lit "-" | _ => s end.
(** The identity: a label, or the other row. *)
Definition set_route (o : lk_query_obs) (ro : lk_reg_obs) : lk_reg_obs :=
  match o_route o with
  | Some (_ :: _ as route) => ro <| ro_label := Some route |> <| ro_fp := o_route_fp o |>
  | _ => ro <| ro_force_other := true |>
  end.
(** [snprintf(code, 8, "%u", err_code)] of a 16-bit code. *)
Fixpoint dec_digits (fuel : nat) (n : Z) : cstring :=
  match fuel with O => [] | S fuel => if n <? 10 then [48 + n] else dec_digits fuel (n / 10) ++ [48 + n mod 10] end.
Definition status_class (code : Z) : Z := if (100 <=? code) && (code <? 600) then LK_SCLASS_1XX + code / 100 - 1 else LK_SCLASS_OTHER.
Definition http_timings (o : lk_query_obs) (ro : lk_reg_obs) : lk_reg_obs :=
  let ro := ro <| ro_dur_seconds := span_seconds (o_ts_req_done_ns o) (o_ts_complete_ns o) |> in
  let ro := if o_ts_req_done_ns o <? o_ts_first_row_ns o then
              ro <| ro_has_first_row := true |> <| ro_first_row_seconds := span_seconds (o_ts_req_done_ns o) (o_ts_first_row_ns o) |> else ro in
  if negb (has_flag (o_flags o) LK_QO_EXPECT_CONT) && (o_ts_start_ns o <? o_ts_req_done_ns o) then
    ro <| ro_has_upload := true |> <| ro_upload_seconds := span_seconds (o_ts_start_ns o) (o_ts_req_done_ns o) |> else ro.
Definition http_sizes (s3 : bool) (o : lk_query_obs) (ro : lk_reg_obs) : lk_reg_obs :=
  let ro := ro <| ro_bytes_in := o_bytes_in o |> <| ro_bytes_out := o_bytes_out o |> <| ro_has_size := negb (has_flag (o_flags o) LK_QO_BODY_UNSEEN) |>
               <| ro_size_bytes := if s3 then o_obj_bytes o else o_bytes_out o |> in
  if s3 && ((o_obj_bytes o =? 0) || (400 <=? o_err_code o) || negb (lk_s3_op_is_data (o_route o))) then ro <| ro_has_size := false |> else ro.
Definition http_error (s3 : bool) (o : lk_query_obs) (ro : lk_reg_obs) : lk_reg_obs :=
  if 400 <=? o_err_code o then ro <| ro_err_code := Some (match o_err_name o with Some n => if s3 then n else dec_digits 5 (o_err_code o) | None => dec_digits 5 (o_err_code o) end) |> else ro.
Definition http_reg_obs (p : proto_id) (s : lk_session) (o : lk_query_obs) : lk_reg_obs :=
  let s3 := ops_profile p =? LK_PROF_S3 in
  let ro := reg_obs0 <| ro_profile := if s3 then LK_PROF_S3 else LK_PROF_HTTP |> <| ro_proto := Some (ops_name p) |> in
  if s3 && has_flag (o_flags o) LK_QO_INTERNAL then ro <| ro_internal := true |>
  else
    let err := has_flag (o_flags o) LK_QO_ERROR in
    let ro := ro <| ro_db := Some (or_dash (c_str (s_database s))) |> <| ro_user := Some (or_dash (c_str (s_user s))) |> <| ro_op := o_op o |> <| ro_kind := kind_code (o_kind o) |>
                 <| ro_has_duration := true |> <| ro_sclass := status_class (o_err_code o) |> <| ro_qcode := if err then LK_QCODE_ERROR else LK_QCODE_OK |> <| ro_dcode := if err then LK_CODE_ERROR else LK_CODE_OK |> in
    set_route o (http_sizes s3 o (http_timings o (http_error s3 o ro))).
Definition redis_reg_obs (p : proto_id) (s : lk_session) (o : lk_query_obs) : lk_reg_obs :=
  let fl := o_flags o in
  let err := has_flag fl LK_QO_ERROR in
  let dur := span_seconds (o_ts_start_ns o) (o_ts_complete_ns o) in
  let ro := reg_obs0 <| ro_profile := LK_PROF_REDIS |> <| ro_proto := Some (ops_name p) |> <| ro_kind := kind_code (o_kind o) |> <| ro_db := Some (or_dash (c_str (s_database s))) |> <| ro_user := Some (or_dash (c_str (s_user s))) |>
                     <| ro_qcode := if err then LK_QCODE_ERROR else LK_QCODE_OK |> <| ro_dcode := if err then LK_CODE_ERROR else LK_CODE_OK |> in
  let ro := if err then match o_err_name o with Some n => ro <| ro_err_code := Some n |> | None => ro end else ro in
  let ro := match o_redis o with Some x => ro <| MetReg.ro_redirect := Proto.ro_redirect x |> <| ro_has_depth := 0 <? ro_pipeline_depth x |> <| ro_depth := ro_pipeline_depth x |> | None => ro end in
  let ro := if has_flag fl LK_QO_BLOCKING then ro <| ro_has_block := true |> <| ro_block_seconds := dur |>
            else if negb (has_flag fl LK_QO_QUEUED) then ro <| ro_has_duration := true |> <| ro_dur_seconds := dur |> else ro in
  let ro := ro <| ro_bytes_in := o_bytes_in o |> <| ro_bytes_out := o_bytes_out o |> <| ro_has_size := (0 <? o_bytes_out o) && negb (has_flag fl LK_QO_QUEUED) |> <| ro_size_bytes := o_bytes_out o |> in
  set_route o ro.
(** The outcome of a query. *)
Definition query_code (o : lk_query_obs) (ro : lk_reg_obs) : lk_reg_obs :=
  if bool_decide (o_kind o = LK_Q_CANCEL) then ro <| ro_qcode := LK_QCODE_CANCELED |>
  else if has_flag (o_flags o) LK_QO_ABORTED then ro <| ro_qcode := LK_QCODE_ABORTED |>
  else if has_flag (o_flags o) LK_QO_ERROR then
    ro <| ro_qcode := LK_QCODE_ERROR |> <| ro_dcode := LK_CODE_ERROR |> <| ro_has_duration := true |> <| ro_err_code := match c_str (o_sqlstate o) with [] => None | st => Some st end |>
  else ro <| ro_qcode := LK_QCODE_OK |> <| ro_dcode := LK_CODE_OK |> <| ro_has_duration := true |>.
(** The end of the interval: the completion of a pipelined unit, else the ready time when there is one. *)
Definition query_end (o : lk_query_obs) : Z :=
  let e := if has_flag (o_flags o) LK_QO_PIPELINED then o_ts_complete_ns o else o_ts_ready_ns o in if e <=? o_ts_start_ns o then o_ts_complete_ns o else e.
Definition query_time (o : lk_query_obs) (ro : lk_reg_obs) : lk_reg_obs :=
  if ro_has_duration ro then
    let ro := ro <| ro_dur_seconds := span_seconds (o_ts_start_ns o) (query_end o) |> <| ro_rows := o_rows o |> in
    if negb (o_ts_first_row_ns o =? 0) && (o_ts_start_ns o <=? o_ts_first_row_ns o) then
      ro <| ro_has_first_row := true |> <| ro_first_row_seconds := fdiv (of_uint (o_ts_first_row_ns o - o_ts_start_ns o)) LK_NS |> else ro
  else ro.
Definition query_text (XXH3 : list Z -> Z) (p : proto_id) (o : lk_query_obs) (ro : lk_reg_obs) : lk_reg_obs :=
  match o_text o with
  | Some text =>
      if has_flag (o_flags o) LK_QO_NO_TEXT || bool_decide (o_kind o = LK_Q_CANCEL) then ro <| ro_force_other := true |>
      else let n := lk_norm_sql XXH3 text (ops_dialect p) in
           ro <| ro_fp := no_fp n |> <| ro_label := Some (c_str (no_text n)) |> <| ro_truncated := no_trunc n || has_flag (o_flags o) LK_QO_TEXT_TRUNC |>
  | None => ro <| ro_force_other := true |>
  end.
Definition query_reg_obs (XXH3 : list Z -> Z) (p : proto_id) (s : lk_session) (o : lk_query_obs) : lk_reg_obs :=
  let ro := reg_obs0 <| ro_db := Some (c_str (s_database s)) |> <| ro_user := Some (c_str (s_user s)) |> <| ro_proto := Some (ops_name p) |> <| ro_kind := kind_code (o_kind o) |> in
  query_text XXH3 p o (query_time o (query_code o ro)).

Section Sink.
Context {V : Type} (XXH3 : list Z -> Z).
Implicit Types (m : lk_metrics V) (p : proto_id) (s : lk_session) (o : lk_query_obs).
Definition sess_store m (cookie : Z) (db user : cstring) (proto : option cstring) : lk_metrics V := m <| mx_sess ::= fun l => cache_put l cookie db user proto |>.
Definition sess_get m (cookie : Z) : option sess_ent := cache_get (mx_sess m) cookie.
Definition mx_observe m (ro : lk_reg_obs) : option (lk_metrics V) := r ← lk_reg_observe (mx_reg m) ro; Some (m <| mx_reg := r |>).
Definition mx_on_session m (cookie : Z) p s : lk_metrics V := sess_store m cookie (c_str (s_database s)) (c_str (s_user s)) (Some (ops_name p)).
Definition mx_http_obs m p s o : option (lk_metrics V) := mx_observe m (http_reg_obs p s o).
Definition mx_redis_obs m p s o : option (lk_metrics V) := mx_observe m (redis_reg_obs p s o).
Definition mx_on_query m (cookie : Z) p s o : option (lk_metrics V) :=
  let m := sess_store m cookie (c_str (s_database s)) (c_str (s_user s)) (Some (ops_name p)) in
  if (ops_profile p =? LK_PROF_HTTP) || (ops_profile p =? LK_PROF_S3) then mx_http_obs m p s o
  else if ops_profile p =? LK_PROF_REDIS then mx_redis_obs m p s o
  else mx_observe m (query_reg_obs XXH3 p s o).
Definition mx_on_txn m (cookie : Z) p (start_ns end_ns final_status : Z) : lk_metrics V :=
  let e := sess_get m cookie in
  let proto := match e with Some e => default (ops_name p) (se_proto e) | None => ops_name p end in
  let db := match e with Some e => se_db e | None => [] end in
  let user := match e with Some e => se_user e | None => [] end in
  m <| mx_reg := lk_reg_observe_txn (mx_reg m) (Some db) (Some user) (Some proto) (ops_profile p) (final_status =? ch "E") (span_seconds start_ns end_ns) |>.
(** The sink: the context is the facade, [None] after a call that did not return. *)
Definition lk_metrics_query_sink {P F} : lk_query_sink (option (lk_metrics V)) P F :=
  QSink (Some (fun u c s o => m ← u; mx_on_query m (c_cookie c) (lk_conn_proto c) s o)) (Some (fun u c s => m ← u; Some (mx_on_session m (c_cookie c) (lk_conn_proto c) s)))
        (Some (fun u c a b z => m ← u; Some (mx_on_txn m (c_cookie c) (lk_conn_proto c) a b z))).

(** ** Scalars *)
Definition scalar_is (name lkey lval lkey2 lval2 : cstring) (sc : scalar) : bool :=
  bool_decide (sc_name sc = name) && bool_decide (sc_label_key sc = lkey) && bool_decide (sc_label_val sc = lval) && bool_decide (sc_label_key2 sc = lkey2) && bool_decide (sc_label_val2 sc = lval2).
Definition scalar_write (help : option cstring) (t : sc_type) (v : double) (sc : scalar) : scalar :=
  let sc := sc <| sc_kind := t |> <| sc_value := v |> in
  match help with Some (_ :: _ as h) => sc <| sc_help := snprintf_s 160 h |> | _ => sc end.
(** [now] is what the clock reads if it is read. *)
Definition scalar_set (now : Z) m (name : cstring) (help lkey lval lkey2 lval2 : option cstring) (t : sc_type) (v : double) : lk_metrics V :=
  let d := default [] in
  match index_of (scalar_is name (d lkey) (d lval) (d lkey2) (d lval2)) (mx_scalars m) with
  | Some i => m <| mx_scalars ::= alter (scalar_write help t v) (Z.to_nat i) |>
  | None =>
      if LK_MAX_SCALARS <=? zlen (mx_scalars m) then m
      else m <| mx_scalars ::= fun l => l ++ [scalar_write help t v (Scalar (snprintf_s 64 name) [] (snprintf_s 16 (d lkey)) (snprintf_s 32 (d lval)) (snprintf_s 16 (d lkey2)) (snprintf_s 32 (d lval2)) LK_SC_COUNTER zero now)] |>
  end.
Definition lk_metrics_set_counter (now : Z) m name help v := scalar_set now m name help None None None None LK_SC_COUNTER v.
Definition lk_metrics_set_gauge (now : Z) m name help v := scalar_set now m name help None None None None LK_SC_GAUGE v.
Definition lk_metrics_set_counter_l (now : Z) m name help k x v := scalar_set now m name help k x None None LK_SC_COUNTER v.
Definition lk_metrics_set_gauge_l (now : Z) m name help k x v := scalar_set now m name help k x None None LK_SC_GAUGE v.
Definition lk_metrics_set_counter_l2 (now : Z) m name help k x k2 x2 v := scalar_set now m name help k x k2 x2 LK_SC_COUNTER v.
(** A NULL callback is [None]. *)
Definition lk_metrics_add_provider m (fn : option V) : lk_metrics V :=
  match fn with None => m | Some fn => if LK_MAX_PROVIDERS <=? zlen (mx_providers m) then m else m <| mx_providers ::= fun l => l ++ [fn] |> end.

(** ** Life cycle *)
(** [None]: the registry's sizing does not end; [Some None]: NULL. *)
Definition lk_metrics_new (cfg : option lk_metrics_cfg) (oom : list bool) (clock : list Z) : option (option (lk_metrics V)) :=
  let '(ok, oom) := alloc oom in
  if negb ok then Some None
  else
    r ← lk_reg_new (Some (default lk_metrics_cfg_defaults cfg)) oom clock;
    Some (match r with Some r => Some (MkMetrics r (replicate (Z.to_nat LK_SESS_CACHE) sess_ent0) [] []) | None => None end).
Definition lk_metrics_free m : gmap ptr series := lk_reg_free (mx_reg m).
End Sink.
