(* ===== verification/MetricsClaims.v ===== *)
(** What the facade promises of the figures it passes on to the registry. *)
From Stdlib Require Import Floats.SpecFloat Ascii String.
From stdpp Require Import base list gmap option.
From S2P Require Import Prelude Conn Proto Hist NormSql MetReg MetRegHeap MetRegRun MetRegClaims Metrics.
#[local] Open Scope Z_scope.
Implicit Types (p : proto_id) (s : lk_session) (o : lk_query_obs).

(** The calls a facade receives. *)
Inductive mx_call :=
  | MQuery (cookie : Z) (p : proto_id) (s : lk_session) (o : lk_query_obs) | MSession (cookie : Z) (p : proto_id) (s : lk_session)
  | MTxn (cookie : Z) (p : proto_id) (start_ns end_ns status : Z)
  | MSet (now : Z) (name : cstring) (help lkey lval lkey2 lval2 : option cstring) (t : sc_type) (v : double).
(** Whether a call is a measured duration, and the rows and bytes it carries. *)
Definition obs_timed p o : bool :=
  match p with
  | PROTO_PG | PROTO_MY => negb (bool_decide (o_kind o = LK_Q_CANCEL)) && negb (has_flag (o_flags o) LK_QO_ABORTED)
  | PROTO_HTTP => true
  | PROTO_S3 => negb (has_flag (o_flags o) LK_QO_INTERNAL)
  | PROTO_REDIS => negb (has_flag (o_flags o) LK_QO_BLOCKING) && negb (has_flag (o_flags o) LK_QO_QUEUED)
  end.
Definition call_timed (c : mx_call) : bool := match c with MQuery _ p _ o => obs_timed p o | _ => false end.
Definition call_rows (c : mx_call) : Z := match c with MQuery _ (PROTO_PG | PROTO_MY) _ o => if obs_timed PROTO_PG o then o_rows o else 0 | _ => 0 end.
Definition carries_bytes p o : bool := match p with PROTO_PG | PROTO_MY => false | PROTO_HTTP | PROTO_REDIS => true | PROTO_S3 => negb (has_flag (o_flags o) LK_QO_INTERNAL) end.
Definition call_bytes (dir : lk_query_obs -> Z) (c : mx_call) : Z := match c with MQuery _ p _ o => if carries_bytes p o then dir o else 0 | _ => 0 end.

Section Calls.
Context {V : Type} (XXH3 : list Z -> Z).
Implicit Types (m : lk_metrics V).
Definition mx_step m (c : mx_call) : option (lk_metrics V) :=
  match c with
  | MQuery cookie p s o => mx_on_query XXH3 m cookie p s o
  | MSession cookie p s => Some (mx_on_session m cookie p s)
  | MTxn cookie p a b z => Some (mx_on_txn m cookie p a b z)
  | MSet now name help k x k2 x2 t v => Some (scalar_set now m name help k x k2 x2 t v)
  end.
Fixpoint mx_run m (cs : list mx_call) : option (lk_metrics V) := match cs with [] => Some m | c :: cs => m ← mx_step m c; mx_run m cs end.

(** ** What reaches the registry *)
Definition reg_obs_of p s o : lk_reg_obs := match p with PROTO_PG | PROTO_MY => query_reg_obs XXH3 p s o | PROTO_HTTP | PROTO_S3 => http_reg_obs p s o | PROTO_REDIS => redis_reg_obs p s o end.
Definition txn_ev (l : list sess_ent) (cookie : Z) p (a b z : Z) : reg_ev :=
  let e := cache_get l cookie in
  ETxn (Some (match e with Some e => se_db e | None => [] end)) (Some (match e with Some e => se_user e | None => [] end))
    (Some (match e with Some e => default (ops_name p) (se_proto e) | None => ops_name p end)) (ops_profile p) (z =? ch "E") (span_seconds a b).
Definition keep_labels (l : list sess_ent) (cookie : Z) p s : list sess_ent := cache_put l cookie (c_str (s_database s)) (c_str (s_user s)) (Some (ops_name p)).
Fixpoint mx_events (l : list sess_ent) (cs : list mx_call) : list reg_ev :=
  match cs with
  | [] => []
  | MQuery cookie p s o :: cs => EObs (reg_obs_of p s o) :: mx_events (keep_labels l cookie p s) cs
  | MSession cookie p s :: cs => mx_events (keep_labels l cookie p s) cs
  | MTxn cookie p a b z :: cs => txn_ev l cookie p a b z :: mx_events l cs
  | MSet _ _ _ _ _ _ _ _ _ :: cs => mx_events l cs
  end.
Lemma on_query_observes m cookie p s o : mx_on_query XXH3 m cookie p s o = r ← lk_reg_observe (mx_reg m) (reg_obs_of p s o); Some (MkMetrics r (keep_labels (mx_sess m) cookie p s) (mx_scalars m) (mx_providers m)).
Proof. by destruct p. Qed.
Lemma set_bound now m name help k x k2 x2 t v : zlen (mx_scalars m) <= LK_MAX_SCALARS -> exists l, scalar_set now m name help k x k2 x2 t v = MkMetrics (mx_reg m) (mx_sess m) l (mx_providers m) /\ zlen l <= LK_MAX_SCALARS.
Proof.
  intros H. unfold scalar_set. destruct (index_of _ _) as [i|]; [eexists; split; [done|]; unfold zlen in *; by rewrite length_alter|]. destruct (Z.leb_spec LK_MAX_SCALARS (zlen (mx_scalars m))); [exists (mx_scalars m); split; [by destruct m|done]|]. eexists. split; [done|]. rewrite zlen_app. unfold zlen at 2. cbn [length]. unfold LK_MAX_SCALARS in *. lia.
Qed.
Lemma run_events cs : forall m, zlen (mx_scalars m) <= LK_MAX_SCALARS -> exists l k, zlen k <= LK_MAX_SCALARS /\ length l = length (mx_sess m) /\ mx_run m cs = r ← reg_run (mx_reg m) (mx_events (mx_sess m) cs); Some (MkMetrics r l k (mx_providers m)).
Proof.
  induction cs as [|c cs IH]; intros m Hk; [exists (mx_sess m), (mx_scalars m); split; [done|]; split; [done|]; by destruct m|]. destruct c as [cookie p s o|cookie p s|cookie p a b z|now name help key x key2 x2 t v]; cbn [mx_run mx_step mx_events].
  - rewrite on_query_observes. cbn [reg_run reg_step]. set (l0 := keep_labels (mx_sess m) cookie p s). assert (length l0 = length (mx_sess m)) as El by (unfold l0, keep_labels, cache_put; by rewrite length_insert).
    assert (forall r, exists l k, zlen k <= LK_MAX_SCALARS /\ length l = length (mx_sess m) /\ mx_run (MkMetrics r l0 (mx_scalars m) (mx_providers m)) cs = r ← reg_run r (mx_events l0 cs); Some (MkMetrics r l k (mx_providers m))) as H.
    { intros r. destruct (IH (MkMetrics r l0 (mx_scalars m) (mx_providers m)) Hk) as (l & k & H1 & H2 & H3). exists l, k. split; [done|]. split; [by rewrite H2|exact H3]. }
    destruct (lk_reg_observe _ _) as [r|]; cbn [mbind option_bind]; [apply H|]. destruct (H (mx_reg m)) as (l & k & H1 & H2 & _). by exists l, k.
  - destruct (IH (mx_on_session m cookie p s) Hk) as (l & k & H1 & H2 & H3). exists l, k. split; [done|]. split; [|exact H3]. rewrite H2. cbn. unfold cache_put. by rewrite length_insert.
  - destruct (IH (mx_on_txn m cookie p a b z) Hk) as (l & k & H1 & H2 & H3). by exists l, k.
  - destruct (set_bound now m name help key x key2 x2 t v Hk) as (sc & -> & Hsc). destruct (IH (MkMetrics (mx_reg m) (mx_sess m) sc (mx_providers m)) Hsc) as (l & k & H1 & H2 & H3). by exists l, k.
Qed.

(** ** The observations *)
(** What the registry will take from one, of every protocol. *)
Lemma query_facts p s o : let ro := query_reg_obs XXH3 p s o in ro_profile ro = LK_PROF_QUERY /\ ro_internal ro = false /\ ro_has_duration ro = obs_timed PROTO_PG o /\ ro_rows ro = (if obs_timed PROTO_PG o then o_rows o else 0) /\ obs_ok ro.
Proof.
  assert (0 <= kind_code (o_kind o)) as Hk by (by destruct (o_kind o)). unfold query_reg_obs. set (r0 := reg_obs0 <| ro_db := _ |> <| ro_user := _ |> <| ro_proto := _ |> <| ro_kind := _ |>). assert (ro_kind r0 = kind_code (o_kind o)) as E0 by done.
  assert (forall r, let ro := query_text XXH3 p o r in ro_profile ro = ro_profile r /\ ro_internal ro = ro_internal r /\ ro_has_duration ro = ro_has_duration r /\ ro_rows ro = ro_rows r /\ ro_kind ro = ro_kind r /\ ro_qcode ro = ro_qcode r /\ ro_sclass ro = ro_sclass r) as Ht by (intros r; unfold query_text; destruct (o_text o); [destruct (_ || _)|]; done).
  assert (forall r, ro_rows r = 0 -> let ro := query_time o r in ro_profile ro = ro_profile r /\ ro_internal ro = ro_internal r /\ ro_has_duration ro = ro_has_duration r /\ ro_rows ro = (if ro_has_duration r then o_rows o else 0) /\ ro_kind ro = ro_kind r /\ ro_qcode ro = ro_qcode r /\ ro_sclass ro = ro_sclass r) as Hm by (intros r Hr; unfold query_time; destruct (ro_has_duration r) eqn:E; cbv zeta; [destruct (_ && _)|]; cbn; rewrite ?E; done).
  assert (exists r, query_code o r0 = r /\ ro_profile r = 0 /\ ro_internal r = false /\ ro_has_duration r = obs_timed PROTO_PG o /\ ro_rows r = 0 /\ ro_kind r = kind_code (o_kind o) /\ 0 <= ro_qcode r /\ ro_sclass r = 0) as (r & -> & C1 & C2 & C3 & C4 & C5 & C6 & C7).
  { eexists. split; [done|]. unfold query_code, obs_timed. destruct (bool_decide _); [done|]. destruct (has_flag (o_flags o) LK_QO_ABORTED); [done|]. by destruct (has_flag (o_flags o) LK_QO_ERROR). }
  cbv zeta. destruct (Hm r C4) as (M1 & M2 & M3 & M4 & M5 & M6 & M7). destruct (Ht (query_time o r)) as (T1 & T2 & T3 & T4 & T5 & T6 & T7). rewrite T1, T2, T3, T4, M1, M2, M3, M4, C1, C2, C3. do 4 (split; [done|]). unfold obs_ok. rewrite T1, T5, T6, T7, M1, M5, M6, M7. lia.
Qed.
Lemma route_facts o r : let ro := set_route o r in ro_profile ro = ro_profile r /\ ro_internal ro = ro_internal r /\ ro_has_duration ro = ro_has_duration r /\ ro_rows ro = ro_rows r /\ ro_bytes_in ro = ro_bytes_in r /\ ro_bytes_out ro = ro_bytes_out r /\ ro_kind ro = ro_kind r /\ ro_qcode ro = ro_qcode r /\ ro_sclass ro = ro_sclass r.
Proof. unfold set_route. by destruct (o_route o) as [[|b l]|]. Qed.
Lemma redis_facts p s o : let ro := redis_reg_obs p s o in ro_profile ro = LK_PROF_REDIS /\ ro_internal ro = false /\ ro_has_duration ro = obs_timed PROTO_REDIS o /\ ro_rows ro = 0 /\ ro_bytes_in ro = o_bytes_in o /\ ro_bytes_out ro = o_bytes_out o /\ obs_ok ro.
Proof.
  assert (0 <= kind_code (o_kind o)) as Hk by (by destruct (o_kind o)). unfold redis_reg_obs, obs_timed. cbv zeta. match goal with |- context [set_route o ?u] => destruct (route_facts o u) as (-> & -> & -> & -> & -> & -> & T5 & T6 & T7) end. unfold obs_ok. rewrite T5, T6, T7. clear T5 T6 T7. match goal with |- context [set_route o ?u] => destruct (route_facts o u) as (-> & _) end.
  destruct (has_flag (o_flags o) LK_QO_ERROR), (o_err_name o), (o_redis o), (has_flag (o_flags o) LK_QO_BLOCKING), (has_flag (o_flags o) LK_QO_QUEUED); repeat split; try done; cbn; lia.
Qed.
Lemma http_facts p s o : p = PROTO_HTTP \/ p = PROTO_S3 -> let ro := http_reg_obs p s o in ro_profile ro = ops_profile p /\ ro_internal ro = negb (obs_timed p o) /\ ro_has_duration ro = obs_timed p o /\ ro_rows ro = 0 /\ (obs_timed p o = true -> ro_bytes_in ro = o_bytes_in o /\ ro_bytes_out ro = o_bytes_out o) /\ obs_ok ro.
Proof.
  assert (0 <= kind_code (o_kind o)) as Hk by (by destruct (o_kind o)). assert (0 <= status_class (o_err_code o)) as Hs. { unfold status_class, LK_SCLASS_1XX, LK_SCLASS_OTHER. destruct (_ && _) eqn:E; [|lia]. apply andb_true_iff in E as [E _]. apply Z.leb_le in E. pose proof (Z.div_le_lower_bound (o_err_code o) 100 1). lia. }
  assert (forall b r, let ro := http_error b o r in ro_profile ro = ro_profile r /\ ro_internal ro = ro_internal r /\ ro_has_duration ro = ro_has_duration r /\ ro_rows ro = ro_rows r /\ ro_kind ro = ro_kind r /\ ro_qcode ro = ro_qcode r /\ ro_sclass ro = ro_sclass r) as He by (intros b r; unfold http_error; by destruct (_ <=? _)).
  assert (forall r, let ro := http_timings o r in ro_profile ro = ro_profile r /\ ro_internal ro = ro_internal r /\ ro_has_duration ro = ro_has_duration r /\ ro_rows ro = ro_rows r /\ ro_kind ro = ro_kind r /\ ro_qcode ro = ro_qcode r /\ ro_sclass ro = ro_sclass r) as Ht by (intros r; unfold http_timings; destruct (o_ts_req_done_ns o <? o_ts_first_row_ns o), (negb (has_flag (o_flags o) LK_QO_EXPECT_CONT) && (o_ts_start_ns o <? o_ts_req_done_ns o)); done).
  assert (forall b r, let ro := http_sizes b o r in ro_profile ro = ro_profile r /\ ro_internal ro = ro_internal r /\ ro_has_duration ro = ro_has_duration r /\ ro_rows ro = ro_rows r /\ ro_kind ro = ro_kind r /\ ro_qcode ro = ro_qcode r /\ ro_sclass ro = ro_sclass r /\ ro_bytes_in ro = o_bytes_in o /\ ro_bytes_out ro = o_bytes_out o) as Hz by (intros b r; unfold http_sizes; by destruct (_ && _)).
  intros Hp. assert (obs_timed p o = negb ((ops_profile p =? LK_PROF_S3) && has_flag (o_flags o) LK_QO_INTERNAL)) as -> by (by destruct Hp as [-> | ->]). assert ((if ops_profile p =? LK_PROF_S3 then LK_PROF_S3 else LK_PROF_HTTP) = ops_profile p) as Ep by (by destruct Hp as [-> | ->]). assert (0 <= ops_profile p) as Hp0 by (by destruct Hp as [-> | ->]).
  unfold http_reg_obs. rewrite Ep. destruct (_ && _); cbn [negb]; [repeat split; try done; cbn; lia|]. cbv zeta.
  match goal with |- context [set_route o (http_sizes ?b o (http_timings o (http_error ?b o ?u)))] => set (r := u); destruct (He b r) as (E1 & E2 & E3 & E4 & E5 & E6 & E7); destruct (Ht (http_error b o r)) as (T1 & T2 & T3 & T4 & T5 & T6 & T7); destruct (Hz b (http_timings o (http_error b o r))) as (Z1 & Z2 & Z3 & Z4 & Z5 & Z6 & Z7 & Z8 & Z9); destruct (route_facts o (http_sizes b o (http_timings o (http_error b o r)))) as (R1 & R2 & R3 & R4 & R5 & R6 & R7 & R8 & R9) end.
  unfold obs_ok. rewrite R1, R2, R3, R4, R5, R6, R7, R8, R9, Z1, Z2, Z3, Z4, Z5, Z6, Z7, Z8, Z9, T1, T2, T3, T4, T5, T6, T7, E1, E2, E3, E4, E5, E6, E7. repeat split; try done; cbn; try lia; by destruct (has_flag _ _).
Qed.
Lemma obs_event p s o cookie first_row : let e := EObs (reg_obs_of p s o) in let c := MQuery cookie p s o in
  ev_ok e /\ ev_timed e = call_timed c /\ ev_gain first_row 1 e = call_rows c /\ ev_gain first_row 2 e = call_bytes o_bytes_in c /\ ev_gain first_row 3 e = call_bytes o_bytes_out c.
Proof.
  cbn [ev_ok ev_timed ev_gain call_timed call_rows call_bytes]. destruct p; cbn [reg_obs_of carries_bytes].
  - destruct (query_facts PROTO_PG s o) as (E1 & E2 & E3 & E4 & E5). set (ro := query_reg_obs XXH3 PROTO_PG s o) in *. clearbody ro. split; [done|]. unfold recorded, gain, obs_profile. rewrite E1, E2, E3. change (obs_timed PROTO_MY o) with (obs_timed PROTO_PG o). destruct (obs_timed PROTO_PG o); cbn; rewrite ?E4; done.
  - destruct (query_facts PROTO_MY s o) as (E1 & E2 & E3 & E4 & E5). set (ro := query_reg_obs XXH3 PROTO_MY s o) in *. clearbody ro. split; [done|]. unfold recorded, gain, obs_profile. rewrite E1, E2, E3. change (obs_timed PROTO_MY o) with (obs_timed PROTO_PG o). destruct (obs_timed PROTO_PG o); cbn; rewrite ?E4; done.
  - destruct (http_facts PROTO_HTTP s o) as (E1 & E2 & E3 & E4 & E5 & E6); [by left|]. set (ro := http_reg_obs PROTO_HTTP s o) in *. clearbody ro. split; [done|]. unfold recorded, gain, obs_profile. rewrite E1, E2, E3. destruct (E5 eq_refl) as [E7 E8]. cbn. rewrite E4, E7, E8. by rewrite ?Z.add_0_r.
  - destruct (http_facts PROTO_S3 s o) as (E1 & E2 & E3 & E4 & E5 & E6); [by right|]. set (ro := http_reg_obs PROTO_S3 s o) in *. clearbody ro. split; [done|]. unfold recorded, gain, obs_profile. rewrite E1, E2, E3. change (negb (has_flag (o_flags o) LK_QO_INTERNAL)) with (obs_timed PROTO_S3 o). destruct (obs_timed PROTO_S3 o); [|done]. destruct (E5 eq_refl) as [E7 E8]. cbn. rewrite E4, E7, E8. by rewrite ?Z.add_0_r.
  - destruct (redis_facts PROTO_REDIS s o) as (E1 & E2 & E3 & E4 & E5 & E6 & E7). set (ro := redis_reg_obs PROTO_REDIS s o) in *. clearbody ro. split; [done|]. unfold recorded, gain, obs_profile. rewrite E1, E2, E3. destruct (obs_timed PROTO_REDIS o); cbn; rewrite E5, E6, ?E4; cbn; by rewrite ?Z.add_0_r.
Qed.
Lemma events_ok cs : forall l, Forall ev_ok (mx_events l cs) /\ zlen (List.filter ev_timed (mx_events l cs)) = zlen (List.filter call_timed cs).
Proof.
  induction cs as [|c cs IH]; intros l; [done|]. destruct c as [cookie p s o|cookie p s|cookie p a b z|now name help key x key2 x2 t v]; cbn [mx_events List.filter].
  - destruct (IH (keep_labels l cookie p s)) as [I1 I2]. destruct (obs_event p s o cookie false) as (H1 & H2 & _). split; [by constructor|]. rewrite H2. destruct (call_timed _); [by rewrite !zlen_cons, I2|done].
  - apply IH.
  - destruct (IH l) as [I1 I2]. split; [by constructor|done].
  - apply IH.
Qed.
Lemma events_sum first_row i (f : mx_call -> Z) cs : (forall cookie p s o, ev_gain first_row i (EObs (reg_obs_of p s o)) = f (MQuery cookie p s o)) -> (forall c, match c with MQuery _ _ _ _ => True | _ => f c = 0 end) -> forall l, zsum (map (ev_gain first_row i) (mx_events l cs)) = zsum (map f cs).
Proof.
  intros H1 H2. assert (forall e es, zsum (e :: es) = e + zsum es) as Hz by done. induction cs as [|c cs IH]; intros l; [done|]. specialize (H2 c) as Hc. destruct c as [cookie p s o|cookie p s|cookie p a b z|now name help key x key2 x2 t v]; cbn [mx_events map]; rewrite ?Hz, IH, ?(H1 cookie), ?Hc; done.
Qed.
Lemma new_facade cfg oom clock : cfg_ok cfg -> exists res, lk_metrics_new (V := V) cfg oom clock = Some res /\ (oom = [] -> res <> None) /\ forall m, res = Some m -> exists hcap nb oom', m = MkMetrics (reg_init (cfg_clamp cfg) hcap nb oom' clock) (replicate 4096 sess_ent0) [] [] /\ reg_ok (mx_reg m) [] /\ (oom = [] -> oom' = []).
Proof.
  intros Hc. unfold lk_metrics_new. destruct (alloc oom) as [ok oom1] eqn:Ea. destruct ok; cbn [negb]; [|exists None; split; [done|]; split; [by intros ->|done]]. destruct (new_spec (Some (default lk_metrics_cfg_defaults cfg)) oom1 clock Hc) as (res & -> & Hn & H). cbn [mbind option_bind]. assert (oom = [] -> oom1 = []) as Ho by (intros ->; by injection Ea).
  eexists. split; [reflexivity|]. destruct res as [r|]; [|split; [intros E; by destruct (Hn (Ho E))|done]]. split; [done|]. intros m [= <-]. destruct (H r eq_refl) as (hcap & nb & oom' & -> & K & Ho'). exists hcap, nb, oom'. split; [done|]. split; [exact K|]. intros E. by apply Ho', Ho.
Qed.

(** ** The properties *)
(** The facade is bounded and never breaks.  Whatever sessions, queries and transactions
    of any protocols it is shown and whatever scalars are set, under any allocator, every
    call returns; the registry stays well formed, the label cache and the scalars stay
    within their arrays, and freeing the facade leaves no series behind. *)
Theorem metrics_safe cfg oom clock cs : cfg_ok cfg -> exists res, lk_metrics_new (V := V) cfg oom clock = Some res /\
  forall m, res = Some m -> exists m' S, mx_run m cs = Some m' /\ reg_ok (mx_reg m') S /\ zlen (mx_sess m') = LK_SESS_CACHE /\ zlen (mx_scalars m') <= LK_MAX_SCALARS /\ lk_metrics_free m' = ∅.
Proof.
  intros Hc. destruct (new_facade cfg oom clock Hc) as (res & E & _ & H). exists res. split; [done|]. intros m Hm. destruct (H m Hm) as (hcap & nb & oom' & -> & K & _). match goal with |- context [mx_run ?u cs] => destruct (run_events cs u) as (l & k & Hk & Hl & ->) end; [done|]. cbn [mx_reg mx_sess mx_providers] in *.
  destruct (events_ok cs (replicate 4096 sess_ent0)) as [He _]. destruct (reg_run_spec _ _ [] K He) as (r' & S & -> & K' & _). cbn [mbind option_bind]. eexists _, S. split; [reflexivity|]. cbn [mx_reg mx_sess mx_scalars]. split; [done|]. split; [unfold zlen; rewrite Hl; by rewrite length_replicate|]. split; [done|]. by apply (free_all _ (slots r')), K'.
Qed.

(** C15: The metrics say what happened.  As long as memory lasts, after any mix of calls from
    all protocols, the durations over all series count exactly the reported exchanges that
    have one - queries that were neither cancelled nor aborted, Redis commands that neither
    blocked nor were queued, HTTP exchanges, S3 operations that are not the server's own -
    and so does the registry's total; the rows add up to the rows of those queries, and the
    bytes in each direction to those of the HTTP, S3 and Redis exchanges. *)
Theorem metrics_exact cfg clock cs : cfg_ok cfg -> exists m m', lk_metrics_new (V := V) cfg [] clock = Some (Some m) /\ mx_run m cs = Some m' /\
  lk_reg_series_count_sum (mx_reg m') = u64 (zlen (List.filter call_timed cs)) /\ lk_reg_total_obs (mx_reg m') = u64 (zlen (List.filter call_timed cs)) /\
  u64 (marginal all_labels 1 (rg_heap (mx_reg m'))) = u64 (zsum (map call_rows cs)) /\
  u64 (marginal all_labels 2 (rg_heap (mx_reg m'))) = u64 (zsum (map (call_bytes o_bytes_in) cs)) /\ u64 (marginal all_labels 3 (rg_heap (mx_reg m'))) = u64 (zsum (map (call_bytes o_bytes_out) cs)).
Proof.
  intros Hc. destruct (new_facade cfg [] clock Hc) as (res & E & Hn & H). destruct res as [m|]; [|by destruct (Hn eq_refl)]. destruct (H m eq_refl) as (hcap & nb & oom' & -> & K & Ho). specialize (Ho eq_refl). subst oom'. exists (MkMetrics (reg_init (cfg_clamp cfg) hcap nb [] clock) (replicate 4096 sess_ent0) [] []). match goal with |- context [mx_run ?u cs] => destruct (run_events cs u) as (l & k & Hk & Hl & Er) end; [done|]. rewrite Er. cbn [mx_reg mx_sess mx_providers] in *.
  destruct (events_ok cs (replicate 4096 sess_ent0)) as [He Hf]. destruct (reg_run_spec _ _ [] K He) as (r' & S & -> & K' & _ & _ & G). destruct (G eq_refl) as (_ & T & M). cbn [mbind option_bind]. eexists. split; [done|]. split; [reflexivity|]. cbn [mx_reg].
  assert (forall i, u64 (marginal all_labels i (rg_heap r')) = u64 (zsum (map (ev_gain (mc_first_row_hist (cfg_clamp cfg)) i) (mx_events (replicate 4096 sess_ent0) cs)))) as HM by (intros i; specialize (M i); unfold eq64 in M; rewrite M; done). rewrite <- Hf. split; [|split].
  - rewrite (count_sum _ _ (rk_heap _ _ K')), HM. by rewrite gain_timed.
  - unfold lk_reg_total_obs. rewrite foldl_add64 by (split; lia). rewrite Z.add_0_l. unfold eq64 in T. by rewrite T.
  - split; [|split]; rewrite HM; f_equal; apply events_sum; try (by intros []); intros cookie p s o; by destruct (obs_event p s o cookie (mc_first_row_hist (cfg_clamp cfg))) as (_ & _ & ? & ? & ?).
Qed.

(** The connection whose labels a call stores. *)
Definition stores (c : mx_call) : option (Z * proto_id * lk_session) := match c with MQuery cookie p s _ | MSession cookie p s => Some (cookie, p, s) | _ => None end.
Definition elsewhere (cookie : Z) (c : mx_call) : Prop := match stores c with Some (k, _, _) => sess_slot k <> sess_slot cookie | None => True end.
Lemma step_sess m c m' : mx_step m c = Some m' -> mx_sess m' = match stores c with Some (k, p, s) => keep_labels (mx_sess m) k p s | None => mx_sess m end.
Proof.
  destruct c as [k p s o|k p s|k p a b z|now name help key x key2 x2 t v]; cbn [mx_step stores]; [rewrite on_query_observes; destruct (lk_reg_observe _ _) as [r|]; cbn [mbind option_bind]; [|done]| | |]; intros [= <-]; try done. unfold scalar_set. destruct (index_of _ _); [done|]. by destruct (_ <=? _).
Qed.
Lemma slot_range k : 0 <= sess_slot k < 4096.
Proof. unfold sess_slot, LK_SESS_CACHE. change (4096 - 1) with (Z.ones 12). rewrite Z.land_ones by lia. apply (Z.mod_pos_bound _ (2 ^ 12)). lia. Qed.
Lemma keep_get l k p s : length l = 4096%nat -> cache_get (keep_labels l k p s) k = Some (SessEnt k true (snprintf_s 64 (c_str (s_database s))) (snprintf_s 64 (c_str (s_user s))) (Some (ops_name p))).
Proof. intros Hl. pose proof (slot_range k). unfold cache_get, keep_labels, cache_put, sess_at. rewrite nth_lookup, list_lookup_insert_eq by lia. cbn. by rewrite Z.eqb_refl. Qed.
Lemma keep_other l k k' p s : sess_slot k' <> sess_slot k -> cache_get (keep_labels l k' p s) k = cache_get l k.
Proof. intros Hne. pose proof (slot_range k). pose proof (slot_range k'). unfold cache_get, keep_labels, cache_put, sess_at. rewrite !nth_lookup, list_lookup_insert_ne by lia. done. Qed.
Lemma run_get cookie cs : forall m m', mx_run m cs = Some m' -> Forall (elsewhere cookie) cs -> cache_get (mx_sess m') cookie = cache_get (mx_sess m) cookie.
Proof.
  induction cs as [|c cs IH]; intros m m'; cbn [mx_run]; [by intros [= <-]|]. destruct (mx_step m c) as [m1|] eqn:E; cbn [mbind option_bind]; [|done]. intros Er H. inversion_clear H as [|? ? Hc Hcs]. rewrite (IH m1 m' Er Hcs), (step_sess m c m1 E). unfold elsewhere in Hc. destruct (stores c) as [[[k p] s]|]; [by apply keep_other|done].
Qed.

(** Transactions carry their session's labels.  A transaction is recorded under the
    database, user and protocol that the last session or query of its connection showed,
    however many other calls came in between, as long as none of them stored the labels of
    a connection that falls into the same cell of the cache. *)
Theorem metrics_txn_labels m m1 c cs cookie p s p' (a b z : Z) : length (mx_sess m) = 4096%nat -> stores c = Some (cookie, p, s) -> Forall (elsewhere cookie) cs -> mx_run m (c :: cs) = Some m1 ->
  mx_reg (mx_on_txn m1 cookie p' a b z) = lk_reg_observe_txn (mx_reg m1) (Some (snprintf_s 64 (c_str (s_database s)))) (Some (snprintf_s 64 (c_str (s_user s)))) (Some (ops_name p)) (ops_profile p') (z =? ch "E") (span_seconds a b).
Proof.
  intros Hl Hc Hcs Er. cbn [mx_run] in Er. destruct (mx_step m c) as [m0|] eqn:E; cbn [mbind option_bind] in Er; [|done]. pose proof (run_get cookie cs m0 m1 Er Hcs) as Hg. rewrite (step_sess m c m0 E), Hc in Hg. rewrite keep_get in Hg by done. unfold mx_on_txn, sess_get. by rewrite Hg.
Qed.
End Calls.

(** ** Examples *)
Definition w_hash (l : list Z) : Z := u64 (foldl (fun a b => a * 31 + b) 7 l).
Definition w_session (db user : cstring) : lk_session := Session (put_cstr (replicate 64 0) (zlen user) user) (put_cstr (replicate 64 0) (zlen db) db) (replicate 64 0) (replicate 16 0) true.
Definition w_query (fl rows t : Z) : lk_query_obs := obs0 <| o_ts_start_ns := t |> <| o_ts_complete_ns := t + 1000000 |> <| o_ts_ready_ns := t + 2000000 |> <| o_text := Some (lit "select * from t where id = 7") |> <| o_rows := rows |> <| o_flags := fl |> <| o_txn_status := ch "I" |>.
Definition w_get_cmd (fl t : Z) : lk_query_obs := obs0 <| o_ts_start_ns := t |> <| o_ts_complete_ns := t + 5000 |> <| o_route := Some (lit "GET") |> <| o_route_fp := 99 |> <| o_bytes_in := 20 |> <| o_bytes_out := 8 |> <| o_kind := LK_Q_COMMAND |> <| o_flags := fl |>.
Definition w_calls : list mx_call :=
  [MSession 1 PROTO_PG (w_session (lit "shop") (lit "app")); MQuery 1 PROTO_PG (w_session (lit "shop") (lit "app")) (w_query 0 3 100); MQuery 2 PROTO_REDIS (w_session (lit "0") []) (w_get_cmd 0 200); MQuery 2 PROTO_REDIS (w_session (lit "0") []) (w_get_cmd LK_QO_QUEUED 300);
   MQuery 1 PROTO_PG (w_session (lit "shop") (lit "app")) (w_query LK_QO_ABORTED 9 400); MSet 7 (lit "latkit_connections") None None None None None LK_SC_GAUGE zero].
Lemma metrics_safe_witness : exists res, lk_metrics_new (V := unit) w_cfg [false; false; true] [5] = Some res /\
  forall m, res = Some m -> exists m' S, mx_run w_hash m w_calls = Some m' /\ reg_ok (mx_reg m') S /\ zlen (mx_sess m') = LK_SESS_CACHE /\ zlen (mx_scalars m') <= LK_MAX_SCALARS /\ lk_metrics_free m' = ∅.
Proof. apply (metrics_safe w_hash w_cfg [false; false; true] [5] w_calls). exact w_cfg_ok. Defined.
Lemma metrics_exact_witness : exists m m', lk_metrics_new (V := unit) w_cfg [] [5] = Some (Some m) /\ mx_run w_hash m w_calls = Some m' /\
  lk_reg_series_count_sum (mx_reg m') = u64 (zlen (List.filter call_timed w_calls)) /\ lk_reg_total_obs (mx_reg m') = u64 (zlen (List.filter call_timed w_calls)) /\
  u64 (marginal all_labels 1 (rg_heap (mx_reg m'))) = u64 (zsum (map call_rows w_calls)) /\
  u64 (marginal all_labels 2 (rg_heap (mx_reg m'))) = u64 (zsum (map (call_bytes o_bytes_in) w_calls)) /\ u64 (marginal all_labels 3 (rg_heap (mx_reg m'))) = u64 (zsum (map (call_bytes o_bytes_out) w_calls)).
Proof. apply (metrics_exact w_hash w_cfg [5] w_calls). exact w_cfg_ok. Defined.
Definition w_facade : lk_metrics unit := match lk_metrics_new w_cfg [] [5] with Some (Some m) => m | _ => MkMetrics (w_new w_cfg) [] [] [] end.
Definition w_first : mx_call := MQuery 2 PROTO_REDIS (w_session (lit "0") []) (w_get_cmd 0 200).
Definition w_rest : list mx_call := [MQuery 1 PROTO_PG (w_session (lit "shop") (lit "app")) (w_query 0 3 400); MSession 3 PROTO_MY (w_session (lit "crm") (lit "bob"))].
Definition w_after : lk_metrics unit := match mx_run w_hash w_facade (w_first :: w_rest) with Some m => m | None => w_facade end.
Lemma metrics_txn_labels_witness : mx_reg (mx_on_txn w_after 2 PROTO_REDIS 10 20 (ch "I")) =
  lk_reg_observe_txn (mx_reg w_after) (Some (snprintf_s 64 (c_str (s_database (w_session (lit "0") []))))) (Some (snprintf_s 64 (c_str (s_user (w_session (lit "0") []))))) (Some (ops_name PROTO_REDIS)) (ops_profile PROTO_REDIS) (ch "I" =? ch "E") (span_seconds 10 20).
Proof.
  apply (metrics_txn_labels w_hash w_facade w_after w_first w_rest 2 PROTO_REDIS (w_session (lit "0") []) PROTO_REDIS 10 20 (ch "I")); [vm_compute; reflexivity|reflexivity| |vm_compute; reflexivity].
  unfold w_rest. do 2 (apply List.Forall_cons; [vm_compute; discriminate|]). apply List.Forall_nil.
Defined.
