(* ===== verification/MyConn.v ===== *)
(** Per-connection state of the MySQL handler ([proto/my/my.h]) with the single
    in-flight unit and its text ([my_query.c], sections "unit lifecycle" and "text").

    [own_text] with [own_len] is the list [mu_own_text], [own_cap] stays a number;
    likewise the cache's and the pending text.  The allocator environment is threaded
    where the C code calls [realloc]. *)
From stdpp Require Import base list.
From Stdlib Require Import Ascii String.
From S2P Require Import Prelude Conn Proto.
#[local] Open Scope Z_scope.

(** ** The cursor

    The bounded read cursor over a MySQL packet body, [proto/my/my_wire.h].

    [mw_rest] is the range [p, end): a NULL body is the empty range.  Every getter
    returns whether it succeeded, the value and the cursor; a bounds failure latches
    [mw_overrun] and parks the cursor at the end. *)
Section Wire.
Record my_wire := MyWire { mw_rest : list Z; mw_overrun : bool }.
Implicit Types w : my_wire.

Definition my_wire_init (body : list Z) : my_wire := MyWire body false.
Definition my_wire_ok w : bool := negb (mw_overrun w).
Definition my_wire_remaining w : Z := zlen (mw_rest w).
Definition my_wire_fail : my_wire := MyWire [] true.
(** [w->p += n] *)
Definition advance w (n : Z) : my_wire := MyWire (zdrop n (mw_rest w)) (mw_overrun w).

Definition le16 (p : list Z) : Z := Z.lor (Z.shiftl (znth p 1) 8) (znth p 0).
(** [for (i = 7; i >= 0; i--) out = out << 8 | p[i]] *)
Definition le64 (p : list Z) : Z := foldr (fun b v => Z.lor (Z.shiftl v 8) b) 0 (ztake 8 p).

(** A fixed-width getter: [n] bytes decoded by [g]. *)
Definition get_int (n : Z) (g : list Z -> Z) w : bool * Z * my_wire :=
  if my_wire_remaining w <? n then (false, 0, my_wire_fail)
  else (true, g (mw_rest w), advance w n).
Definition my_wire_get_u8 : my_wire -> bool * Z * my_wire := get_int 1 (fun p => znth p 0).
Definition my_wire_get_u16 : my_wire -> bool * Z * my_wire := get_int 2 le16.
Definition my_wire_get_u24 : my_wire -> bool * Z * my_wire := get_int 3 le24.
Definition my_wire_get_u32 : my_wire -> bool * Z * my_wire := get_int 4 le32.
Definition my_wire_get_u64 : my_wire -> bool * Z * my_wire := get_int 8 le64.

Definition my_wire_skip w (n : Z) : bool * my_wire :=
  if my_wire_remaining w <? n then (false, my_wire_fail) else (true, advance w n).

(** 0xfb and 0xff are no length-encoded integers: the cursor does not move. *)
Definition my_wire_get_lenenc w : bool * Z * my_wire :=
  if my_wire_remaining w <? 1 then (false, 0, my_wire_fail)
  else
    let head := znth (mw_rest w) 0 in
    if (head =? 0xfb) || (head =? 0xff) then (false, 0, w)
    else
      let w := advance w 1 in
      if head <? 0xfb then (true, head, w)
      else if head =? 0xfc then my_wire_get_u16 w
      else if head =? 0xfd then my_wire_get_u24 w
      else my_wire_get_u64 w.

Definition my_wire_get_lenenc_str w : bool * list Z * my_wire :=
  let '(ok, sz, w) := my_wire_get_lenenc w in
  if negb ok then (false, [], w)
  else if my_wire_remaining w <? sz then (false, mw_rest w, my_wire_fail)
  else (true, ztake sz (mw_rest w), advance w sz).

(** [memchr(p, 0, avail)]: the bytes before the first NUL and those after it. *)
Fixpoint cut_nul (l : list Z) : option (list Z * list Z) :=
  match l with
  | [] => None
  | b :: l => if b =? 0 then Some ([], l)
              else match cut_nul l with Some (s, r) => Some (b :: s, r) | None => None end
  end.
Definition my_wire_cstring w : bool * list Z * my_wire :=
  match cut_nul (mw_rest w) with
  | Some (s, r) => (true, s, MyWire r (mw_overrun w))
  | None => (false, mw_rest w, my_wire_fail)
  end.
End Wire.

Definition LK_MY_PREP_CACHE := 256.
Definition MY_CAP_MYSQL := 0x00000001.
Definition MY_CAP_CONNECT_WITH_DB := 0x00000008.
Definition MY_CAP_PLUGIN_AUTH := 0x00080000.
Definition MY_CAP_CONNECT_ATTRS := 0x00100000.
Definition MY_CAP_PLUGIN_AUTH_LENENC := 0x00200000.
Definition MY_CAP_SESSION_TRACK := 0x00800000.
Definition MY_CAP_DEPRECATE_EOF := 0x01000000.
Definition MY_CAP_OPT_METADATA := 0x02000000.
Definition MY_CAP_QUERY_ATTRIBUTES := 0x08000000.
Definition MY_MCAP_PROGRESS := 0x00000001.
Definition MY_MCAP_CACHE_METADATA := 0x00000010.
Definition MY_ST_IN_TRANS := 0x0001.
Definition MY_ST_MORE_RESULTS := 0x0008.
Definition MY_ST_CURSOR_EXISTS := 0x0040.
Definition MY_ST_LAST_ROW_SENT := 0x0080.
Definition MY_ST_STATE_CHANGED := 0x4000.

Inductive my_phase := MY_PH_HANDSHAKE | MY_PH_READY | MY_PH_INFILE | MY_PH_IGNORE.
#[global] Instance my_phase_eq_dec : EqDecision my_phase.
Proof. solve_decision. Defined.
Inductive my_sess := MY_S_GREETING | MY_S_RESPONSE | MY_S_AUTH | MY_S_DONE.
#[global] Instance my_sess_eq_dec : EqDecision my_sess.
Proof. solve_decision. Defined.
Inductive my_reply :=
  | MY_R_NONE | MY_R_HEAD | MY_R_COLS | MY_R_ROWS | MY_R_PREPARE_OK | MY_R_PREP_META | MY_R_STRING
  | MY_R_FIELD_LIST.
#[global] Instance my_reply_eq_dec : EqDecision my_reply.
Proof. solve_decision. Defined.

Record my_unit := MyUnit {
  mu_ts_start_ns : Z; mu_ts_first_row_ns : Z; mu_ts_complete_ns : Z; mu_rows : Z; mu_bytes : Z;
  mu_ncomplete : Z; mu_kind : lk_query_kind; mu_copy_kind : option lk_query_kind; mu_flags : Z;
  mu_sqlstate : list Z; mu_err_code : Z; mu_prep_idx : Z; mu_prep_gen : Z;
  mu_own_text : list Z; mu_own_cap : Z }.
#[global] Instance my_unit_upd : Updatable my_unit := fun u =>
  MyUnit (mu_ts_start_ns u) (mu_ts_first_row_ns u) (mu_ts_complete_ns u) (mu_rows u) (mu_bytes u)
    (mu_ncomplete u) (mu_kind u) (mu_copy_kind u) (mu_flags u) (mu_sqlstate u) (mu_err_code u)
    (mu_prep_idx u) (mu_prep_gen u) (mu_own_text u) (mu_own_cap u).
Definition my_unit0 : my_unit := MyUnit 0 0 0 0 0 0 LK_Q_SIMPLE None 0 (replicate 6 0) 0 0 0 [] 0.

Record my_prep := MyPrep {
  me_used : bool; me_trunc : bool; me_gen : Z; me_lru : Z; me_stmt_id : Z; me_text : list Z;
  me_text_cap : Z }.
#[global] Instance my_prep_upd : Updatable my_prep := fun e =>
  MyPrep (me_used e) (me_trunc e) (me_gen e) (me_lru e) (me_stmt_id e) (me_text e) (me_text_cap e).
Definition my_prep0 : my_prep := MyPrep false false 0 0 0 [] 0.

Record my_prep_cache := MyPrepCache { mk_e : list my_prep; mk_clock : Z; mk_count : Z }.
#[global] Instance my_prep_cache_upd : Updatable my_prep_cache := fun k =>
  MyPrepCache (mk_e k) (mk_clock k) (mk_count k).
Definition my_prep_cache0 : my_prep_cache :=
  MyPrepCache (replicate (Z.to_nat LK_MY_PREP_CACHE) my_prep0) 0 0.

Record my_conn := MyConn {
  mc_phase : my_phase; mc_sess : my_sess; mc_reply : my_reply; mc_session : lk_session; mc_msgs : Z;
  mc_caps : Z; mc_mcaps : Z; mc_caps_known : bool; mc_session_emitted : bool;
  mc_u : my_unit; mc_unit_open : bool; mc_cols_left : Z; mc_meta_left : Z;
  mc_pending_db : list Z; mc_pending_user : list Z; mc_have_pending_db : bool; mc_have_pending_user : bool;
  mc_pending_text : list Z; mc_pending_cap : Z; mc_pending_prep : bool; mc_pending_trunc : bool;
  mc_prep : option my_prep_cache; mc_txn_status : Z; mc_txn_start_ns : Z }.
#[global] Instance my_conn_upd : Updatable my_conn := fun c =>
  MyConn (mc_phase c) (mc_sess c) (mc_reply c) (mc_session c) (mc_msgs c) (mc_caps c) (mc_mcaps c)
    (mc_caps_known c) (mc_session_emitted c) (mc_u c) (mc_unit_open c) (mc_cols_left c) (mc_meta_left c)
    (mc_pending_db c) (mc_pending_user c) (mc_have_pending_db c) (mc_have_pending_user c)
    (mc_pending_text c) (mc_pending_cap c) (mc_pending_prep c) (mc_pending_trunc c) (mc_prep c)
    (mc_txn_status c) (mc_txn_start_ns c).
(** A calloc'ed state with [u.prep_idx = -1]. *)
Definition my_conn0 : my_conn :=
  MyConn MY_PH_HANDSHAKE MY_S_GREETING MY_R_NONE session0 0 0 0 false false
    (my_unit0 <| mu_prep_idx := -1 |>) false 0 0 (replicate 64 0) (replicate 64 0) false false [] 0 false false
    None 0 0.
Implicit Types (pc : my_conn) (u : my_unit) (e : my_prep) (oom : list bool) (m : lk_msg).

(** [OK]/[EOF] payload. *)
Record my_ok := MyOk { ok_affected : Z; ok_insert_id : Z; ok_status : Z; ok_warnings : Z; ok_have_status : bool }.
Definition my_ok0 : my_ok := MyOk 0 0 0 0 false.

(** ** The unit *)
Definition add_flag (f : Z) u : my_unit := u <| mu_flags ::= fun w => set_flag w f |>.
Definition unit_flag (f : Z) pc : my_conn := pc <| mc_u ::= add_flag f |>.

(** Reset and open, keeping the owned buffer. *)
Definition unit_open pc (kind : lk_query_kind) (ts : Z) : my_conn :=
  pc <| mc_u ::= fun u => my_unit0 <| mu_own_cap := mu_own_cap u |> <| mu_prep_idx := -1 |>
                            <| mu_kind := kind |> <| mu_ts_start_ns := ts |> |>
     <| mc_unit_open := true |>.

(** How many units were dropped (0 or 1); the caller adds it to its counter. *)
Definition my_query_drop_unit pc : Z * my_conn :=
  if mc_unit_open pc then (1, pc <| mc_unit_open := false |>) else (0, pc).

Definition own_grow u (n : Z) oom : bool * my_unit * list bool :=
  if mu_own_cap u <? n then
    let '(ok, oom) := alloc oom in
    if ok then (true, u <| mu_own_cap := n |>, oom)
    else (false, add_flag LK_QO_NO_TEXT (u <| mu_own_text := [] |>), oom)
  else (true, u, oom).

Definition prep_at (k : my_prep_cache) (slot : Z) : my_prep := nth (Z.to_nat slot) (mk_e k) my_prep0.

(** Copy the slot's text into the live unit that refers to it and detach; [e] is
    [&pc->prep->e[slot]]. *)
Definition my_query_rescue_ref pc (slot : Z) e oom : my_conn * list bool :=
  let u := mc_u pc in
  if negb (mc_unit_open pc) || negb (mu_prep_idx u =? slot) || negb (mu_prep_gen u =? me_gen e) then (pc, oom)
  else
    let '(u, oom) :=
      if negb (zlen (me_text e) =? 0) then
        let '(ok, u, oom) := own_grow u (zlen (me_text e)) oom in
        (u <| mu_own_text := if ok then me_text e else [] |>, oom)
      else (u <| mu_own_text := [] |>, oom) in
    (pc <| mc_u := u <| mu_prep_idx := -1 |> |>, oom).

(** The borrowed text, NULL being [None]. *)
Definition unit_text pc u : option (list Z) :=
  if has_flag (mu_flags u) LK_QO_NO_TEXT then None
  else
    let own := if negb (zlen (mu_own_text u) =? 0) then Some (mu_own_text u) else None in
    match mc_prep pc with
    | Some k =>
        if 0 <=? mu_prep_idx u then
          let e := prep_at k (mu_prep_idx u) in
          if me_used e && (me_gen e =? mu_prep_gen u) && negb (zlen (me_text e) =? 0)
          then Some (me_text e) else None
        else own
    | None => own
    end.
Definition fill_text pc u (o : lk_query_obs) : lk_query_obs := o <| o_text := unit_text pc u |>.

(** ** Labels ([my_session.c]) *)
(** [dst] is a fixed array of [zlen dst] bytes. *)
Definition copy_field (dst src : list Z) : list Z :=
  put_cstr dst (if zlen src <? zlen dst - 1 then zlen src else zlen dst - 1) src.
Definition key_is (key l : list Z) : bool := (zlen key =? zlen l) && bool_decide (key = l).

(** A staged database is committed by the reply's OK. *)
Definition my_session_ok_effects pc : my_conn :=
  if mc_have_pending_db pc
  then pc <| mc_session ::= fun s => s <| s_database ::= fun d => copy_field d (c_str (mc_pending_db pc)) |> |>
          <| mc_have_pending_db := false |>
  else pc.
