(* ===== verification/MyQuery.v ===== *)
(** The prepared-statement cache of the MySQL handler, [proto/my/my_prep.c]: the text
    is stashed at COM_STMT_PREPARE and bound to its server-assigned id by the reply.

    The reply machine of the MySQL handler, [proto/my/my_query.c]: commands open the
    single unit, server packets are classified by the reply state and their first
    byte, a terminator closes and emits. *)
From stdpp Require Import base list.
From Stdlib Require Import Ascii String.
From S2P Require Import Prelude Conn Proto MyConn.
#[local] Open Scope Z_scope.

Section Prep.
Implicit Types (pc : my_conn) (k : my_prep_cache) (e : my_prep) (oom : list bool) (m : lk_msg).

(** [for (i = from; ...) if (P(e[i])) return i; return -1] *)
Fixpoint find_slot_from (i : Z) (P : my_prep -> bool) (l : list my_prep) : Z :=
  match l with
  | [] => -1
  | e :: l => if P e then i else find_slot_from (i + 1) P l
  end.
Definition find_by_id k (stmt_id : Z) : Z := find_slot_from 0 (fun e => me_used e && (me_stmt_id e =? stmt_id)) (mk_e k).

(** [lru = 0; for (i = 1; ...) if (e[i].lru < e[lru].lru) lru = i;] *)
Fixpoint lru_from (i best best_lru : Z) (l : list my_prep) : Z :=
  match l with
  | [] => best
  | e :: l => if me_lru e <? best_lru then lru_from (i + 1) i (me_lru e) l else lru_from (i + 1) best best_lru l
  end.
Definition lru_slot k : Z := match mk_e k with [] => 0 | e :: l => lru_from 1 0 (me_lru e) l end.
Definition pick_slot (st : lk_proto_stats) k : Z * lk_proto_stats * my_prep_cache :=
  let free := find_slot_from 0 (fun e => negb (me_used e)) (mk_e k) in
  if 0 <=? free then (free, st, k <| mk_count ::= fun n => u32 (n + 1) |>)
  else (lru_slot k, st <| ps_prep_evictions ::= inc64 |>, k).
Definition prep_put k (slot : Z) (g : my_prep -> my_prep) : my_prep_cache := k <| mk_e ::= alter g (Z.to_nat slot) |>.
(** The slot is free again; its buffer is kept for reuse. *)
Definition clear_slot e : my_prep := e <| me_used := false |> <| me_gen ::= fun g => u32 (g + 1) |> <| me_text := [] |>.

Definition my_prep_prepare pc m oom : my_conn * list bool :=
  let n := if 1 <? m_body_cap m then m_body_cap m - 1 else 0 in
  let pc := pc <| mc_reply := MY_R_PREPARE_OK |> <| mc_pending_prep := true |>
               <| mc_pending_trunc := has_flag (m_flags m) LK_MSG_BODY_TRUNC |> in
  let n := if LK_MSG_BODY_MAX <? n then LK_MSG_BODY_MAX else n in
  let text := ztake n (zdrop 1 (m_body m)) in
  if mc_pending_cap pc <? n then
    let '(ok, oom) := alloc oom in
    if ok then (pc <| mc_pending_cap := n |> <| mc_pending_text := text |>, oom)
    else (pc <| mc_pending_text := [] |>, oom)
  else (pc <| mc_pending_text := text |>, oom).

(** The entry of a bound statement. *)
Definition fill_slot e (stmt_id : Z) (text : list Z) (trunc : bool) (lru : Z) oom : my_prep * list bool :=
  let e := e <| me_used := true |> <| me_trunc := trunc |> <| me_gen ::= fun g => u32 (g + 1) |>
             <| me_lru := lru |> <| me_stmt_id := stmt_id |> in
  if me_text_cap e <? zlen text then
    let '(ok, oom) := alloc oom in
    if ok then (e <| me_text_cap := zlen text |> <| me_text := text |>, oom) else (e <| me_text := [] |>, oom)
  else (e <| me_text := text |>, oom).

(** Bind the pending text to [stmt_id] in cache [k]. *)
Definition bind_pending (st : lk_proto_stats) pc k (stmt_id : Z) oom : lk_proto_stats * my_conn * list bool :=
  let found := find_by_id k stmt_id in
  let '(slot, st, k) := if found <? 0 then pick_slot st k else (found, st, k) in
  let '(pc, oom) := my_query_rescue_ref pc slot (prep_at k slot) oom in
  let clock := u64 (mk_clock k + 1) in
  let '(e, oom) := fill_slot (prep_at k slot) stmt_id (mc_pending_text pc) (mc_pending_trunc pc) clock oom in
  (st, pc <| mc_prep := Some (prep_put (k <| mk_clock := clock |>) slot (fun _ => e)) |>, oom).

(** [meta_left = n; if (meta_left) reply = MY_R_PREP_META] *)
Definition prep_meta pc (n : Z) : my_conn :=
  if negb (n =? 0) then pc <| mc_meta_left := n |> <| mc_reply := MY_R_PREP_META |> else pc <| mc_meta_left := n |>.

Section Prep.
Context {U F : Type}.
Implicit Types p : lk_proto U my_conn F.

(** Cache the pending text, if there is one. *)
Definition prep_store p pc (stmt_id : Z) : lk_proto U my_conn F * my_conn :=
  if negb (mc_pending_prep pc) then (p, pc)
  else
    let pc := pc <| mc_pending_prep := false |> in
    match mc_prep pc with
    | Some k =>
        let '(st, pc, oom) := bind_pending (p_st p) pc k stmt_id (p_oom p) in
        (p <| p_st := st |> <| p_oom := oom |>, pc)
    | None =>
        let '(ok, oom) := alloc (p_oom p) in
        if negb ok then (p <| p_oom := oom |>, pc)
        else
          let '(st, pc, oom) := bind_pending (p_st p) pc my_prep_cache0 stmt_id oom in
          (p <| p_st := st |> <| p_oom := oom |>, pc)
    end.

Definition my_prep_ok p pc m : lk_proto U my_conn F * my_conn :=
  let pc := pc <| mc_reply := MY_R_NONE |> in
  let '(ok, head, w) := my_wire_get_u8 (my_wire_init (m_body m)) in
  if negb ok then (p, pc)
  else if negb (head =? 0) then (p, pc <| mc_pending_prep := false |>)
  else
    let '(ok1, stmt_id, w) := my_wire_get_u32 w in
    let '(ok2, ncols, w) := my_wire_get_u16 w in
    let '(ok3, nparams, w) := my_wire_get_u16 w in
    if negb (ok1 && ok2 && ok3) then
      (if has_flag (m_flags m) LK_MSG_BODY_TRUNC then p else pbump p (fun s => s <| ps_parse_errors ::= inc64 |>),
       pc <| mc_pending_prep := false |>)
    else prep_store p (prep_meta pc (u32 (ncols + nparams))) stmt_id.
End Prep.

Definition my_prep_close pc m oom : my_conn * list bool :=
  let '(ok1, w) := my_wire_skip (my_wire_init (m_body m)) 1 in
  let '(ok2, stmt_id, w) := my_wire_get_u32 w in
  match mc_prep pc with
  | Some k =>
      if negb (ok1 && ok2) then (pc, oom)
      else
        let slot := find_by_id k stmt_id in
        if slot <? 0 then (pc, oom)
        else
          let '(pc, oom) := my_query_rescue_ref pc slot (prep_at k slot) oom in
          (pc <| mc_prep := Some (prep_put k slot clear_slot <| mk_count := u32 (mk_count k - 1) |>) |>, oom)
  | None => (pc, oom)
  end.

(** The slot with its generation and truncation flag, or [None] (-1). *)
Definition my_prep_lookup pc (stmt_id : Z) : option (Z * Z * bool) * my_conn :=
  match mc_prep pc with
  | None => (None, pc)
  | Some k =>
      let slot := find_by_id k stmt_id in
      if slot <? 0 then (None, pc)
      else
        let clock := u64 (mk_clock k + 1) in
        let k := prep_put (k <| mk_clock := clock |>) slot (fun e => e <| me_lru := clock |>) in
        let e := prep_at k slot in
        (Some (slot, me_gen e, me_trunc e), pc <| mc_prep := Some k |>)
  end.

(** The loop over the slots, from [i]. *)
Fixpoint drop_loop (n : nat) (i : Z) pc k oom : my_conn * my_prep_cache * list bool :=
  match n with
  | O => (pc, k, oom)
  | S n =>
      if negb (me_used (prep_at k i)) then drop_loop n (i + 1) pc k oom
      else
        let '(pc, oom) := my_query_rescue_ref pc i (prep_at k i) oom in
        drop_loop n (i + 1) pc (prep_put k i clear_slot) oom
  end.
Definition my_prep_drop_all pc oom : my_conn * list bool :=
  match mc_prep pc with
  | None => (pc, oom)
  | Some k =>
      let '(pc, k, oom) := drop_loop (Z.to_nat LK_MY_PREP_CACHE) 0 pc k oom in
      (pc <| mc_prep := Some (k <| mk_count := 0 |>) |>, oom)
  end.
Definition my_prep_free pc : my_conn := pc <| mc_prep := None |>.
End Prep.

Implicit Types (pc : my_conn) (u : my_unit) (m : lk_msg) (oom : list bool) (w : my_wire).

Definition MY_PKT_MAX := 0xFFFFFF.
Definition MY_MAX_COLUMNS := 4096.

Definition has_cap pc (f : Z) : bool := mc_caps_known pc && has_flag (mc_caps pc) f.
Definition deprecate_eof pc : bool := mc_caps_known pc && has_flag (mc_caps pc) MY_CAP_DEPRECATE_EOF.

(** Whether a 0xFE packet terminates, and whether it has the EOF shape. *)
Definition fe_terminator pc m : bool * bool :=
  if mc_caps_known pc && negb (has_flag (mc_caps pc) MY_CAP_DEPRECATE_EOF) then (m_len m <? 9, true)
  else (m_len m <? MY_PKT_MAX, negb (mc_caps_known pc) && (m_len m <? 9)).

(** ** ROLLBACK as the leading word *)
Definition is_blank (b : Z) : bool := (b =? 32) || (b =? 9) || (b =? 10) || (b =? 13).
Fixpoint skip_blank (l : list Z) : list Z :=
  match l with [] => [] | b :: r => if is_blank b then skip_blank r else l end.
Definition upper (b : Z) : Z := if (ch "a" <=? b) && (b <=? ch "z") then b - 32 else b.
Definition is_word (b : Z) : bool :=
  (ch "A" <=? b) && (b <=? ch "Z") || (ch "a" <=? b) && (b <=? ch "z") || (ch "0" <=? b) && (b <=? ch "9") || (b =? ch "_").
Definition unit_is_rollback pc u : bool :=
  match unit_text pc u with
  | None => false
  | Some t =>
      let t := skip_blank t in
      if (zlen t <? 8) || negb (bool_decide (map upper (ztake 8 t) = lit "ROLLBACK")) then false
      else match zdrop 8 t with [] => true | b :: _ => negb (is_word b) end
  end.

(** ** The text of a COM_QUERY *)
Definition skip_binary_value w (type : Z) : bool * my_wire :=
  if type =? 0x01 then my_wire_skip w 1
  else if (type =? 0x02) || (type =? 0x0d) then my_wire_skip w 2
  else if (type =? 0x03) || (type =? 0x04) || (type =? 0x09) then my_wire_skip w 4
  else if (type =? 0x05) || (type =? 0x08) then my_wire_skip w 8
  else if type =? 0x06 then (true, w)
  else if (type =? 0x07) || (type =? 0x0a) || (type =? 0x0b) || (type =? 0x0c) then
    let '(ok, l, w) := my_wire_get_u8 w in if ok then my_wire_skip w l else (false, w)
  else let '(ok, _, w) := my_wire_get_lenenc_str w in (ok, w).

Definition MY_ATTR_MAX := 64.
(** The two loops over the parameters: types with names, then values. *)
Fixpoint attr_types (n : nat) w : option (list Z * my_wire) :=
  match n with
  | O => Some ([], w)
  | S n =>
      let '(ok1, ty, w) := my_wire_get_u8 w in
      let '(ok2, w) := my_wire_skip w 1 in
      let '(ok3, _, w) := my_wire_get_lenenc_str w in
      if negb (ok1 && ok2 && ok3) then None
      else match attr_types n w with Some (l, w) => Some (ty :: l, w) | None => None end
  end.
Fixpoint attr_values (i : Z) (types bitmap : list Z) w : option my_wire :=
  match types with
  | [] => Some w
  | ty :: types =>
      if Z.testbit (znth bitmap (i / 8)) (i mod 8) then attr_values (i + 1) types bitmap w
      else let '(ok, w) := skip_binary_value w ty in
           if ok then attr_values (i + 1) types bitmap w else None
  end.
Definition attr_params (pcount : Z) w : option my_wire :=
  if pcount =? 0 then Some w
  else
    let bitmap := mw_rest w in
    let '(ok1, w) := my_wire_skip w ((u32 pcount + 7) / 8) in
    let '(ok2, bound, w) := my_wire_get_u8 w in
    if negb (ok1 && ok2) || (bound =? 0) then None
    else match attr_types (Z.to_nat pcount) w with
         | Some (types, w) => attr_values 0 types bitmap w
         | None => None
         end.

(** The offset of the SQL text, [None] when it cannot be located. *)
Definition query_text_off pc m : option Z :=
  let attrs := if mc_caps_known pc then has_flag (mc_caps pc) MY_CAP_QUERY_ATTRIBUTES
               else (3 <=? m_body_cap m) && (znth (m_body m) 1 =? 0) && (znth (m_body m) 2 =? 1) in
  if negb attrs then Some 1
  else
    let '(ok1, w) := my_wire_skip (my_wire_init (m_body m)) 1 in
    let '(ok2, pcount, w) := my_wire_get_lenenc w in
    let '(ok3, _, w) := my_wire_get_lenenc w in
    if negb (ok1 && ok2 && ok3) || (MY_ATTR_MAX <? pcount) then None
    else match attr_params pcount w with
         | Some w => Some (m_body_cap m - my_wire_remaining w)
         | None => None
         end.

(** ** Frontend *)
Definition my_query_simple pc m oom : my_conn * list bool :=
  let pc := unit_open pc LK_Q_SIMPLE (m_ts_ns m) <| mc_reply := MY_R_HEAD |> in
  let trunc := has_flag (m_flags m) LK_MSG_BODY_TRUNC in
  let no_text := (unit_flag (if trunc then set_flag LK_QO_NO_TEXT LK_QO_TEXT_TRUNC else LK_QO_NO_TEXT) pc, oom) in
  match query_text_off pc m with
  | None => no_text
  | Some off =>
      if m_body_cap m <=? off then no_text
      else
        let n := m_body_cap m - off in
        let n := if LK_MSG_BODY_MAX <? n then LK_MSG_BODY_MAX else n in
        let '(ok, u, oom) := own_grow (mc_u pc) n oom in
        if negb ok then (pc <| mc_u := u |>, oom)
        else
          let u := u <| mu_own_text := ztake n (zdrop off (m_body m)) |> in
          (pc <| mc_u := if trunc then add_flag LK_QO_TEXT_TRUNC u else u |>, oom)
  end.

Definition open_stmt_unit pc m : my_conn :=
  let pc := unit_open pc LK_Q_EXTENDED (m_ts_ns m) in
  let '(ok1, w) := my_wire_skip (my_wire_init (m_body m)) 1 in
  let '(ok2, stmt_id, w) := my_wire_get_u32 w in
  if negb (ok1 && ok2) then unit_flag LK_QO_NO_TEXT pc
  else
    let '(o, pc) := my_prep_lookup pc stmt_id in
    match o with
    | None => unit_flag LK_QO_NO_TEXT pc
    | Some (idx, gen, trunc) =>
        let pc := pc <| mc_u ::= fun u => u <| mu_prep_idx := idx |> <| mu_prep_gen := gen |> |> in
        if trunc then unit_flag LK_QO_TEXT_TRUNC pc else pc
    end.
Definition my_query_execute pc m : my_conn := open_stmt_unit pc m <| mc_reply := MY_R_HEAD |>.
Definition my_query_fetch pc m : my_conn := open_stmt_unit pc m <| mc_reply := MY_R_ROWS |>.

Definition my_query_infile_data pc m : my_conn :=
  if m_len m =? 0 then pc
  else if mc_unit_open pc then pc <| mc_u ::= fun u => u <| mu_bytes ::= fun b => u64 (b + m_len m) |> |> else pc.

(** ** OK, EOF and ERR payloads *)
(** Every entry consumes at least two bytes: the remaining length is enough fuel. *)
Fixpoint track_loop (fuel : nat) (s : lk_session) w : lk_session :=
  match fuel with
  | O => s
  | S fuel =>
      if my_wire_remaining w =? 0 then s
      else
        let '(ok1, type, w) := my_wire_get_u8 w in
        let '(ok2, data, w) := my_wire_get_lenenc_str w in
        if negb (ok1 && ok2) then s
        else
          let s :=
            if type =? 1 then
              let '(ok, schema, _) := my_wire_get_lenenc_str (my_wire_init data) in
              if ok && negb (zlen schema =? 0) then s <| s_database ::= fun d => copy_field d schema |> else s
            else s in
          track_loop fuel s w
  end.
Definition parse_session_track pc w : my_conn :=
  let '(ok1, _, w) := my_wire_get_lenenc_str w in
  let '(ok2, _, w) := my_wire_get_lenenc w in
  if negb (ok1 && ok2) then pc
  else pc <| mc_session ::= fun s => track_loop (List.length (mw_rest w)) s w |>.

Definition my_query_parse_ok pc m (eof_shape : bool) : my_ok * my_conn :=
  let '(ok, w) := my_wire_skip (my_wire_init (m_body m)) 1 in
  if negb ok then (my_ok0, pc)
  else if eof_shape then
    let '(ok1, warnings, w) := my_wire_get_u16 w in
    let '(ok2, status, w) := my_wire_get_u16 w in
    (MyOk 0 0 status warnings (ok1 && ok2), pc)
  else
    let '(ok1, affected, w) := my_wire_get_lenenc w in
    if negb ok1 then (my_ok0, pc)
    else
      let '(ok2, insert_id, w) := my_wire_get_lenenc w in
      if negb ok2 then (MyOk affected 0 0 0 false, pc)
      else
        let '(ok3, status, w) := my_wire_get_u16 w in
        let '(ok4, warnings, w) := my_wire_get_u16 w in
        let have := ok3 && ok4 in
        (MyOk affected insert_id status warnings have,
         if have && has_cap pc MY_CAP_SESSION_TRACK && has_flag status MY_ST_STATE_CHANGED
         then parse_session_track pc w else pc).

Section Query.
Context {U F : Type}.
Abbreviation proto := (lk_proto U my_conn F).
Implicit Types (p : proto) (c : lk_conn my_conn F).

Definition parse_error p : proto := pbump p (fun s => s <| ps_parse_errors ::= inc64 |>).
Definition drop_resync p pc : proto * my_conn :=
  let '(n, pc) := my_query_drop_unit pc in
  (pbump p (fun s => s <| ps_units_dropped_resync ::= fun x => u64 (x + n) |>), pc).
Definition corrupt p pc : proto * my_conn :=
  (parse_error p, (my_query_drop_unit pc).2 <| mc_reply := MY_R_NONE |>).

(** Whether it is an error, the SQLSTATE buffer and the code.  The buffer past its
    terminator is indeterminate in C; nothing reads it. *)
Definition parse_err p pc m : bool * list Z * Z * proto :=
  let '(ok1, w) := my_wire_skip (my_wire_init (m_body m)) 1 in
  let '(ok2, eno, w) := my_wire_get_u16 w in
  if negb (ok1 && ok2) then
    (true, replicate 6 0, 0, if has_flag (m_flags m) LK_MSG_BODY_TRUNC then p else parse_error p)
  else if (eno =? 0xffff) && has_flag (mc_mcaps pc) MY_MCAP_PROGRESS then (false, replicate 6 0, 0, p)
  else
    let '(ok3, mark, w) := my_wire_get_u8 w in
    let s := mw_rest w in
    let '(ok4, w) := my_wire_skip w 5 in
    (true, if ok3 && (mark =? ch "#") && ok4 then ztake 5 s ++ [0] else replicate 6 0, eno, p).

(** ** Terminators *)
Definition txn_track p c pc (ok : my_ok) (ts_ns : Z) : proto * my_conn :=
  if negb (ok_have_status ok) then (p, pc)
  else
    let status := if has_flag (ok_status ok) MY_ST_IN_TRANS then ch "T" else ch "I" in
    let open := mc_txn_status pc =? ch "T" in
    let '(p, pc) :=
      if (status =? ch "T") && negb open then (p, pc <| mc_txn_start_ns := ts_ns |>)
      else if (status =? ch "I") && open then
        let final := if mc_unit_open pc && unit_is_rollback pc (mc_u pc) then ch "E" else ch "T" in
        (up_txn p c (mc_txn_start_ns pc) ts_ns final, pc)
      else (p, pc) in
    (p, pc <| mc_txn_status := status |>).

Definition unit_obs pc : lk_query_obs :=
  let u := mc_u pc in
  let o := obs0 <| o_ts_start_ns := mu_ts_start_ns u |> <| o_ts_first_row_ns := mu_ts_first_row_ns u |>
             <| o_ts_complete_ns := mu_ts_complete_ns u |> <| o_ts_ready_ns := mu_ts_complete_ns u |>
             <| o_rows := mu_rows u |> <| o_bytes := mu_bytes u |>
             <| o_kind := default (mu_kind u) (mu_copy_kind u) |> <| o_flags := mu_flags u |>
             <| o_txn_status := mc_txn_status pc |> in
  let o := fill_text pc u o in
  if has_flag (mu_flags u) LK_QO_ERROR
  then o <| o_sqlstate := mu_sqlstate u |> <| o_err_code := mu_err_code u |> else o.
Definition emit_unit p c pc : proto * my_conn :=
  let o := unit_obs pc in
  let p := pbump p (fun s => s <| ps_queries ::= inc64 |>) in
  let p := if has_flag (mu_flags (mc_u pc)) LK_QO_ERROR
           then pbump p (fun s => s <| ps_errors_sql ::= inc64 |>) else p in
  let pc := pc <| mc_unit_open := false |> in
  (up_query p c (mc_session pc) o, pc).

Definition leave_infile pc : my_conn :=
  if bool_decide (mc_phase pc = MY_PH_INFILE) then pc <| mc_phase := MY_PH_READY |> else pc.

Definition terminator_ok p c pc m (eof_shape : bool) : proto * my_conn :=
  let '(ok, pc) := my_query_parse_ok pc m eof_shape in
  let pc := my_session_ok_effects pc in
  let '(p, pc) := txn_track p c pc ok (m_ts_ns m) in
  let pc := leave_infile pc in
  let more := ok_have_status ok && has_flag (ok_status ok) MY_ST_MORE_RESULTS in
  if negb (mc_unit_open pc) then (p, pc <| mc_reply := if more then MY_R_HEAD else MY_R_NONE |>)
  else
    let pc := pc <| mc_u ::= fun u => u <| mu_ts_complete_ns := m_ts_ns m |>
                                        <| mu_rows ::= fun r => u64 (r + ok_affected ok) |>
                                        <| mu_ncomplete ::= fun n => u32 (n + 1) |> |> in
    let pc := if 1 <? mu_ncomplete (mc_u pc) then unit_flag LK_QO_MULTI_STMT pc else pc in
    if more then (p, pc <| mc_reply := MY_R_HEAD |>)
    else
      let pc := if ok_have_status ok && has_flag (ok_status ok) MY_ST_CURSOR_EXISTS &&
                   negb (has_flag (ok_status ok) MY_ST_LAST_ROW_SENT)
                then unit_flag LK_QO_SUSPENDED pc else pc in
      emit_unit p c (pc <| mc_reply := MY_R_NONE |>).

Definition terminator_err p c pc m : proto * my_conn :=
  let '(is_err, sqlstate, err_code, p) := parse_err p pc m in
  if negb is_err then (p, pc)
  else
    let pc := leave_infile pc <| mc_reply := MY_R_NONE |> <| mc_have_pending_db := false |> in
    if negb (mc_unit_open pc) then (p, pc)
    else
      let pc := pc <| mc_u ::= fun u => add_flag LK_QO_ERROR u <| mu_sqlstate := sqlstate |>
                          <| mu_err_code := err_code |> <| mu_ts_complete_ns := m_ts_ns m |>
                          <| mu_ncomplete ::= fun n => if n =? 0 then 1 else n |> |> in
      emit_unit p c pc.

(** ** The reply machine *)
(** A result head that opens a resultset: the count and the state with [cols_left]
    set, [None] when the head cannot be read. *)
Definition column_count pc m : option Z * my_conn :=
  let w := my_wire_init (m_body m) in
  if has_cap pc MY_CAP_OPT_METADATA then
    let '(ok1, mf, w) := my_wire_get_u8 w in
    let '(ok2, count, w) := my_wire_get_lenenc w in
    if negb (ok1 && ok2) then (None, pc)
    else (Some count, pc <| mc_cols_left := if negb (mf =? 0) then u32 count else 0 |>)
  else
    let '(ok, count, w) := my_wire_get_lenenc w in
    if negb ok then (None, pc)
    else
      let pc := pc <| mc_cols_left := u32 count |> in
      if has_flag (mc_mcaps pc) MY_MCAP_CACHE_METADATA then
        let '(ok, mf, w) := my_wire_get_u8 w in
        if negb ok then (None, pc)
        else (Some count, if mf =? 0 then pc <| mc_cols_left := 0 |> else pc)
      else (Some count, pc).

Definition bad_head p pc m : proto * my_conn :=
  if negb (has_flag (m_flags m) LK_MSG_BODY_TRUNC) then corrupt p pc
  else let '(p, pc) := drop_resync p pc in (p, pc <| mc_reply := MY_R_NONE |>).

Definition resultset_head p pc m : proto * my_conn :=
  let '(o, pc) := column_count pc m in
  match o with
  | None => bad_head p pc m
  | Some count =>
      if (count =? 0) || (MY_MAX_COLUMNS <? count) then bad_head p pc m
      else
        let pc := pc <| mc_reply := if negb (mc_cols_left pc =? 0) then MY_R_COLS else MY_R_ROWS |> in
        let pc := if (mc_cols_left pc =? 0) && mc_caps_known pc && negb (has_flag (mc_caps pc) MY_CAP_DEPRECATE_EOF) &&
                     negb (has_flag (mc_mcaps pc) MY_MCAP_CACHE_METADATA)
                  then pc <| mc_reply := MY_R_COLS |> else pc in
        (p, pc)
  end.

Definition reply_head p c pc m : proto * my_conn :=
  let head := znth (m_body m) 0 in
  if head =? 0x00 then terminator_ok p c pc m false
  else if head =? 0xff then terminator_err p c pc m
  else if head =? 0xfb then
    let pc := if mc_unit_open pc then pc <| mc_u ::= fun u => u <| mu_copy_kind := Some LK_Q_COPY_IN |> |> else pc in
    (p, pc <| mc_phase := MY_PH_INFILE |>)
  else
    let '(fe, eof_shape) := fe_terminator pc m in
    if (head =? 0xfe) && fe then terminator_ok p c pc m eof_shape else resultset_head p pc m.

(** [m->body_cap ? m->body[0] : 0] *)
Definition head0 m : Z := if m_body_cap m =? 0 then 0 else znth (m_body m) 0.

Definition cursor_eof p c pc m (ok : my_ok) : proto * my_conn :=
  let '(p, pc) := txn_track p c pc ok (m_ts_ns m) in
  if mc_unit_open pc then
    let pc := pc <| mc_u ::= fun u => u <| mu_ts_complete_ns := m_ts_ns m |> <| mu_ncomplete ::= fun n => u32 (n + 1) |> |> in
    let pc := if negb (has_flag (ok_status ok) MY_ST_LAST_ROW_SENT) then unit_flag LK_QO_SUSPENDED pc else pc in
    emit_unit p c (pc <| mc_reply := MY_R_NONE |>)
  else (p, pc <| mc_reply := MY_R_NONE |>).

Definition reply_cols p c pc m : proto * my_conn :=
  let head := head0 m in
  if head =? 0xff then terminator_err p c pc m
  else if (head =? 0xfe) && (m_len m <? 9) then
    let '(ok, pc) := my_query_parse_ok pc m true in
    if ok_have_status ok && has_flag (ok_status ok) MY_ST_CURSOR_EXISTS then cursor_eof p c pc m ok
    else (p, pc <| mc_cols_left := 0 |> <| mc_reply := MY_R_ROWS |>)
  else
    let pc := if negb (mc_cols_left pc =? 0) then pc <| mc_cols_left ::= fun n => n - 1 |> else pc in
    (p, if (mc_cols_left pc =? 0) && deprecate_eof pc then pc <| mc_reply := MY_R_ROWS |> else pc).

Definition count_row pc m : my_conn :=
  if mc_unit_open pc
  then pc <| mc_u ::= fun u => u <| mu_rows ::= inc64 |>
                                 <| mu_ts_first_row_ns ::= fun t => if t =? 0 then m_ts_ns m else t |> |>
  else pc.
Definition reply_rows p c pc m : proto * my_conn :=
  let head := head0 m in
  let '(fe, eof_shape) := fe_terminator pc m in
  if negb (m_body_cap m =? 0) && (head =? 0xff) then terminator_err p c pc m
  else if negb (m_body_cap m =? 0) && (head =? 0xfe) && fe then terminator_ok p c pc m eof_shape
  else (p, count_row pc m).

Definition reply_prep_meta pc m : my_conn :=
  if (head0 m =? 0xfe) && (m_len m <? 9) then pc
  else
    let pc := if negb (mc_meta_left pc =? 0) then pc <| mc_meta_left ::= fun n => n - 1 |> else pc in
    if mc_meta_left pc =? 0 then pc <| mc_reply := MY_R_NONE |> else pc.

(** A packet whose body is lost can be followed in these states only. *)
Definition blind_ok (r : my_reply) : bool :=
  match r with MY_R_NONE | MY_R_ROWS | MY_R_COLS | MY_R_PREP_META => true | _ => false end.

Definition my_query_backend p c pc m : proto * my_conn :=
  if (m_body_cap m =? 0) && negb (blind_ok (mc_reply pc)) then
    let '(p, pc) := drop_resync p pc in
    (p, pc <| mc_reply := MY_R_NONE |> <| mc_pending_prep := false |>)
  else
    match mc_reply pc with
    | MY_R_NONE => (p, pc)
    | MY_R_HEAD => reply_head p c pc m
    | MY_R_COLS => reply_cols p c pc m
    | MY_R_ROWS => reply_rows p c pc m
    | MY_R_PREPARE_OK => my_prep_ok p pc m
    | MY_R_PREP_META => (p, reply_prep_meta pc m)
    | MY_R_STRING => (p, pc <| mc_reply := MY_R_NONE |>)
    | MY_R_FIELD_LIST =>
        (p, if negb (m_body_cap m =? 0) && ((znth (m_body m) 0 =? 0xff) || (znth (m_body m) 0 =? 0xfe) && (m_len m <? 9))
            then pc <| mc_reply := MY_R_NONE |> else pc)
    end.
End Query.
