(* ===== verification/My.v ===== *)
(** The connection phase of the MySQL handler and its labels, [proto/my/my_session.c].

    The MySQL handler, [proto/my/my.c]: state allocation, dispatch by direction, phase
    and command byte, and the sink it installs under the framer. *)
From Stdlib Require Import Ascii String.
From stdpp Require Import base list.
From S2P Require Import Prelude Conn Proto MyConn MyQuery.
#[local] Open Scope Z_scope.

Section Session.
Implicit Types (pc : my_conn) (m : lk_msg) (s : lk_session) (w : my_wire) (oom : list bool).

Definition set_version pc (ver : list Z) : my_conn :=
  let ver := if (6 <? zlen ver) && bool_decide (ztake 6 ver = lit "5.5.5-") then zdrop 6 ver else ver in
  pc <| mc_session ::= fun s => s <| s_server_version ::= fun d => copy_field d ver |> |>.
Definition greeting pc m : my_conn :=
  let '(ok, proto, w) := my_wire_get_u8 (my_wire_init (m_body m)) in
  if negb ok || (proto =? 0xff) then pc
  else
    let pc := pc <| mc_sess := MY_S_RESPONSE |> in
    if negb (proto =? 10) then pc
    else let '(ok, ver, w) := my_wire_cstring w in if ok then set_version pc ver else pc.

(** One attribute; [have] is whether [program_name] was seen. *)
Definition set_attr s (have : bool) (key val : list Z) : lk_session * bool :=
  if key_is key (lit "program_name") then (s <| s_app ::= fun d => copy_field d val |>, true)
  else if key_is key (lit "_client_name") && negb have && (znth (s_app s) 0 =? 0)
  then (s <| s_app ::= fun d => copy_field d val |>, have)
  else (s, have).
(** Every pair consumes at least two bytes: the remaining length is enough fuel. *)
Fixpoint attrs_loop (fuel : nat) s (have : bool) w : lk_session :=
  match fuel with
  | O => s
  | S fuel =>
      if my_wire_remaining w =? 0 then s
      else
        let '(ok1, key, w) := my_wire_get_lenenc_str w in
        let '(ok2, val, w) := my_wire_get_lenenc_str w in
        if negb (ok1 && ok2) then s
        else let '(s, have) := set_attr s have key val in attrs_loop fuel s have w
  end.
Definition parse_attrs pc w : my_conn :=
  let '(ok, _, w) := my_wire_get_lenenc w in
  if ok then pc <| mc_session ::= fun s => attrs_loop (List.length (mw_rest w)) s false w |> else pc.

(** The auth response is skipped by its length, which is read as 64 bits and skipped
    as 32. *)
Definition skip_auth pc w : bool * my_wire :=
  if has_flag (mc_caps pc) MY_CAP_PLUGIN_AUTH_LENENC then
    let '(ok, alen, w) := my_wire_get_lenenc w in
    if ok then my_wire_skip w (u32 alen) else (false, w)
  else
    let '(ok, al, w) := my_wire_get_u8 w in
    if ok then my_wire_skip w al else (false, w).
(** After the auth response: database, plugin name, attributes. *)
Definition response_tail pc w : my_conn :=
  let '(ok, pc, w) :=
    if has_flag (mc_caps pc) MY_CAP_CONNECT_WITH_DB then
      let '(ok, db, w) := my_wire_cstring w in
      (ok, pc <| mc_session ::= fun s => s <| s_database ::= fun d => copy_field d db |> |>, w)
    else (true, pc, w) in
  if negb ok then pc
  else
    let '(ok, w) := if has_flag (mc_caps pc) MY_CAP_PLUGIN_AUTH
                    then let '(ok, _, w) := my_wire_cstring w in (ok, w) else (true, w) in
    if ok && has_flag (mc_caps pc) MY_CAP_CONNECT_ATTRS then parse_attrs pc w else pc.
(** The part after the fixed 32-byte header. *)
Definition response_labels pc w (cut : bool) : my_conn :=
  let pc := pc <| mc_sess := MY_S_AUTH |> <| mc_session ::= fun s => s <| s_complete := negb cut |> |> in
  let '(ok, user, w) := my_wire_cstring w in
  let pc := pc <| mc_session ::= fun s => s <| s_user ::= fun d => copy_field d user |> |> in
  if negb ok then pc
  else let '(ok, w) := skip_auth pc w in if ok then response_tail pc w else pc.
Definition handshake_response pc m : my_conn :=
  let cut := has_flag (m_flags m) LK_MSG_BODY_TRUNC in
  let auth pc := if cut then pc <| mc_sess := MY_S_AUTH |> else pc in
  let '(ok, caps, w) := my_wire_get_u32 (my_wire_init (m_body m)) in
  let pc := pc <| mc_caps := caps |> in
  if negb ok then pc
  else
    let pc := pc <| mc_caps_known := true |> in
    let '(ok1, _, w) := my_wire_get_u32 w in
    let '(ok2, _, w) := my_wire_get_u8 w in
    let '(ok3, w) := my_wire_skip w 19 in
    if negb (ok1 && ok2 && ok3) then auth pc
    else
      let '(ok4, mcaps, w) := my_wire_get_u32 w in
      let pc := pc <| mc_mcaps := mcaps |> in
      if negb ok4 then auth pc
      else
        let pc := if has_flag (mc_caps pc) MY_CAP_MYSQL then pc <| mc_mcaps := 0 |> else pc in
        if my_wire_remaining w =? 0 then auth pc else response_labels pc w cut.

(** ** Live labels *)
Definition my_session_init_db pc m : my_conn :=
  let n := if 1 <? m_body_cap m then m_body_cap m - 1 else 0 in
  pc <| mc_pending_db ::= fun d => copy_field d (ztake n (zdrop 1 (m_body m))) |> <| mc_have_pending_db := true |>.

Definition my_session_change_user pc m oom : my_conn * list bool :=
  let '(pc, oom) := my_prep_drop_all pc oom in
  let pc := pc <| mc_phase := MY_PH_HANDSHAKE |> <| mc_sess := MY_S_AUTH |> in
  let '(ok, w) := my_wire_skip (my_wire_init (m_body m)) 1 in
  if negb ok then (pc, oom)
  else
    let '(ok, user, w) := my_wire_cstring w in
    let pc := pc <| mc_pending_user ::= fun d => copy_field d user |> in
    if negb ok then (pc <| mc_have_pending_user := 0 <? zlen user |>, oom)
    else
      let pc := pc <| mc_have_pending_user := true |> in
      let '(ok, alen, w) := my_wire_get_u8 w in
      let '(ok2, w) := my_wire_skip w alen in
      if negb (ok && ok2) then (pc, oom)
      else
        let '(ok, db, w) := my_wire_cstring w in
        if ok then (pc <| mc_pending_db ::= fun d => copy_field d db |> <| mc_have_pending_db := true |>, oom)
        else (pc, oom).

Section Session.
Context {U F : Type}.
Abbreviation proto := (lk_proto U my_conn F).
Implicit Types (p : proto) (c : lk_conn my_conn F).

Definition emit_session p c pc : proto * my_conn :=
  let pc := pc <| mc_session_emitted := true |> in
  (up_session (pbump p (fun st => st <| ps_sessions ::= inc64 |>)) c (mc_session pc), pc).

Definition commit_user pc : my_conn :=
  if mc_have_pending_user pc
  then pc <| mc_session ::= fun s => s <| s_user ::= fun d => copy_field d (c_str (mc_pending_user pc)) |> |>
          <| mc_have_pending_user := false |>
  else pc.
Definition session_ok p c pc m : proto * my_conn :=
  let '(_, pc) := my_query_parse_ok (commit_user pc) m false in
  let pc := my_session_ok_effects pc <| mc_sess := MY_S_DONE |> in
  let '(p, pc) :=
    if has_flag (c_flags c) LK_CONN_IGNORE
    then (pbump p (fun st => st <| ps_compressed_conns ::= inc64 |>), pc <| mc_phase := MY_PH_IGNORE |>)
    else (p, pc <| mc_phase := MY_PH_READY |>) in
  if mc_session_emitted pc then (p, pc) else emit_session p c pc.

Definition my_session_backend p c pc m : proto * my_conn :=
  let head := head0 m in
  match mc_sess pc with
  | MY_S_GREETING => (p, greeting pc m)
  | MY_S_RESPONSE => (p, if head =? 0xff then pc <| mc_sess := MY_S_DONE |> else pc)
  | MY_S_AUTH =>
      if head =? 0x00 then session_ok p c pc m
      else if head =? 0xff then
        (p, pc <| mc_sess := MY_S_DONE |> <| mc_phase := MY_PH_READY |>
               <| mc_have_pending_user := false |> <| mc_have_pending_db := false |>)
      else (p, pc)
  | MY_S_DONE => (p, pc)
  end.

Definition my_session_frontend pc m : my_conn :=
  match mc_sess pc with
  | MY_S_GREETING | MY_S_RESPONSE => handshake_response pc m
  | MY_S_AUTH | MY_S_DONE => pc
  end.

Definition my_session_promote p c pc : proto * my_conn :=
  let '(p, pc) :=
    if bool_decide (mc_sess pc = MY_S_AUTH) && negb (mc_session_emitted pc)
    then emit_session p c (pc <| mc_session ::= fun s => s <| s_complete := false |> |>)
    else (p, pc) in
  (p, pc <| mc_sess := MY_S_DONE |> <| mc_phase := MY_PH_READY |>
         <| mc_have_pending_user := false |> <| mc_have_pending_db := false |>).
End Session.
End Session.

Definition MY_COM_QUIT := 0x01.
Definition MY_COM_INIT_DB := 0x02.
Definition MY_COM_QUERY := 0x03.
Definition MY_COM_FIELD_LIST := 0x04.
Definition MY_COM_STATISTICS := 0x09.
Definition MY_COM_PROCESS_INFO := 0x0a.
Definition MY_COM_DEBUG := 0x0d.
Definition MY_COM_PING := 0x0e.
Definition MY_COM_CHANGE_USER := 0x11.
Definition MY_COM_BINLOG_DUMP := 0x12.
Definition MY_COM_REGISTER_SLAVE := 0x15.
Definition MY_COM_STMT_PREPARE := 0x16.
Definition MY_COM_STMT_EXECUTE := 0x17.
Definition MY_COM_STMT_SEND_LONG_DATA := 0x18.
Definition MY_COM_STMT_CLOSE := 0x19.
Definition MY_COM_STMT_RESET := 0x1a.
Definition MY_COM_SET_OPTION := 0x1b.
Definition MY_COM_STMT_FETCH := 0x1c.
Definition MY_COM_BINLOG_DUMP_GTID := 0x1e.
Definition MY_COM_RESET_CONNECTION := 0x1f.
Definition MY_COM_MARIADB_BULK := 0xfa.

Section My.
Context {U F : Type}.
Abbreviation proto := (lk_proto U my_conn F).
Abbreviation conn := (lk_conn my_conn F).
Implicit Types (p : proto) (c : conn) (pc : my_conn) (m : lk_msg) (d : lk_dir).

Definition my_conn_get p c : option my_conn * proto * conn :=
  match c_proto_state c with
  | Some pc => (Some pc, p, c)
  | None =>
      let '(ok, oom) := alloc (p_oom p) in
      let p := p <| p_oom := oom |> in
      if negb ok then (None, p, c)
      else
        let pc := if has_flag (c_flags c) LK_CONN_SYNTHETIC
                  then my_conn0 <| mc_phase := MY_PH_READY |> <| mc_sess := MY_S_DONE |> else my_conn0 in
        (Some pc, pbump p (fun s => s <| ps_conns ::= inc64 |>), c <| c_proto_state := Some pc |>)
  end.

Definition unknown p : proto := pbump p (fun s => s <| ps_unknown_msgs ::= inc64 |>).

(** A command that expects a reply drops what an earlier one left open. *)
Definition anchor p pc : proto * my_conn :=
  let '(p, pc) := drop_resync p pc in
  (p, pc <| mc_reply := MY_R_NONE |> <| mc_have_pending_db := false |> <| mc_pending_prep := false |>).

(** Run an operation that allocates. *)
Definition with_oom p c (f : list bool -> my_conn * list bool) : proto * conn * my_conn :=
  let '(pc, oom) := f (p_oom p) in (p <| p_oom := oom |>, c, pc).

(** The second [switch]: commands with a reply. *)
Definition my_command p c pc m : proto * conn * my_conn :=
  let cmd := u8 (m_type m) in
  let head pc := (p, c, pc <| mc_reply := MY_R_HEAD |>) in
  if cmd =? MY_COM_QUERY then with_oom p c (my_query_simple pc m)
  else if cmd =? MY_COM_STMT_PREPARE then with_oom p c (my_prep_prepare pc m)
  else if (cmd =? MY_COM_STMT_EXECUTE) || (cmd =? MY_COM_MARIADB_BULK) then (p, c, my_query_execute pc m)
  else if cmd =? MY_COM_STMT_FETCH then (p, c, my_query_fetch pc m)
  else if cmd =? MY_COM_INIT_DB then head (my_session_init_db pc m)
  else if cmd =? MY_COM_CHANGE_USER then with_oom p c (my_session_change_user pc m)
  else if (cmd =? MY_COM_BINLOG_DUMP) || (cmd =? MY_COM_BINLOG_DUMP_GTID) then
    (pbump p (fun s => s <| ps_replication_conns ::= inc64 |>), c <| c_flags ::= fun w => set_flag w LK_CONN_IGNORE |>,
     (my_query_drop_unit pc).2 <| mc_phase := MY_PH_IGNORE |>)
  else if cmd =? MY_COM_STATISTICS then (p, c, pc <| mc_reply := MY_R_STRING |>)
  else if cmd =? MY_COM_FIELD_LIST then (p, c, pc <| mc_reply := MY_R_FIELD_LIST |>)
  else if cmd =? MY_COM_RESET_CONNECTION then
    with_oom p c (fun oom => let '(pc, oom) := my_prep_drop_all pc oom in (pc <| mc_reply := MY_R_HEAD |>, oom))
  else if existsb (Z.eqb cmd) [MY_COM_PING; MY_COM_DEBUG; MY_COM_PROCESS_INFO; MY_COM_SET_OPTION; MY_COM_STMT_RESET;
                               MY_COM_REGISTER_SLAVE]
  then head pc
  else (unknown p, c, pc).

(** Past the handshake and LOAD DATA routing. *)
Definition my_frontend_cmd p c pc m : proto * conn * my_conn :=
  if m_type m =? 0 then (unknown p, c, pc)
  else
    let cmd := u8 (m_type m) in
    if cmd =? MY_COM_STMT_CLOSE then with_oom p c (my_prep_close pc m)
    else if (cmd =? MY_COM_QUIT) || (cmd =? MY_COM_STMT_SEND_LONG_DATA) then (p, c, pc)
    else let '(p, pc) := anchor p pc in my_command p c pc m.

Definition my_frontend_msg p c pc m : proto * conn * my_conn :=
  let infile p pc :=
    if bool_decide (mc_phase pc = MY_PH_INFILE) then
      if m_type m =? 0 then (p, c, my_query_infile_data pc m)
      else my_frontend_cmd p c (pc <| mc_phase := MY_PH_READY |>) m
    else my_frontend_cmd p c pc m in
  match mc_phase pc with
  | MY_PH_IGNORE => (p, c, pc)
  | MY_PH_HANDSHAKE =>
      if m_type m =? 0 then (p, c, my_session_frontend pc m)
      else let '(p, pc) := my_session_promote p c pc in infile p pc
  | _ => infile p pc
  end.

Definition my_backend_msg p c pc m : proto * my_conn :=
  match mc_phase pc with
  | MY_PH_IGNORE => (p, pc)
  | MY_PH_HANDSHAKE => my_session_backend p c pc m
  | _ => my_query_backend p c pc m
  end.

Definition put_state c pc : conn := c <| c_proto_state := Some pc |>.

Definition tally p d m : proto :=
  let p := pbump p (fun s => s <| ps_msgs ::= inc64 |>) in
  let p := if has_flag (m_flags m) LK_MSG_STARTUP
           then pbump p (fun s => s <| ps_startup_msgs ::= inc64 |>) else p in
  pbump p (count_type d (u8 (m_type m))).

Definition my_on_msg p c d m : proto * conn :=
  let '(o, p, c) := my_conn_get p c in
  let p := tally p d m in
  match o with
  | None => (p, c)
  | Some pc =>
      let '(p, c, pc) := match d with
                         | LK_DIR_RECV => my_frontend_msg p c pc m
                         | LK_DIR_SEND => let '(p, pc) := my_backend_msg p c pc m in (p, c, pc)
                         end in
      (p, put_state c (pc <| mc_msgs ::= inc64 |>))
  end.

Definition resync_state pc : my_conn :=
  let pc := pc <| mc_reply := MY_R_NONE |> <| mc_have_pending_db := false |> <| mc_have_pending_user := false |>
               <| mc_pending_prep := false |> <| mc_txn_status := 0 |> in
  leave_infile pc.
Definition my_on_resync p c d : proto * conn :=
  let '(o, p, c) := my_conn_get p c in
  let p := pbump p (fun s => s <| ps_resyncs ::= inc64 |>) in
  match o with
  | None => (p, c)
  | Some pc => let '(p, pc) := drop_resync p pc in (p, put_state c (resync_state pc))
  end.

Definition my_on_conn_close p c : proto * conn :=
  let p := match c_proto_state c with
           | Some pc => pbump p (fun s => s <| ps_units_dropped_close ::= fun n => u64 (n + (my_query_drop_unit pc).1) |>)
           | None => p
           end in
  (p, c <| c_proto_state := None |>).

(** The sink [lk_proto_my_new] installs. *)
Definition my_sink : lk_msg_sink proto my_conn F :=
  Sink (Some my_on_msg) (Some my_on_conn_close) (Some my_on_resync).
Definition lk_proto_my_new (out : option (lk_query_sink U my_conn F)) (up : U) (oom : list bool) : option proto :=
  let '(ok, oom) := alloc oom in
  if ok then Some (Proto (default (QSink None None None) out) up pstats0 oom) else None.
End My.
