(* ===== verification/MyOps.v ===== *)
(** Every operation of the MySQL handler keeps the invariant, on any packet and under
    any allocator. *)
From Stdlib Require Import Ascii String.
From stdpp Require Import base list.
From S2P Require Import Prelude Conn Proto MyConn MyQuery My.
#[local] Open Scope Z_scope.

(** ** The invariant

    The invariant of the MySQL handler's connection state: buffers and labels in
    bounds, the cache consistent, the live unit's reference into it live. *)
Implicit Types (pc : my_conn) (u : my_unit) (k : my_prep_cache) (e : my_prep) (m : lk_msg) (oom : list bool) (w : my_wire).

Record unit_wf u : Prop := UnitWf {
  uw_text : zlen (mu_own_text u) <= mu_own_cap u;
  uw_cap : 0 <= mu_own_cap u <= LK_MSG_BODY_MAX;
  uw_sqlstate : zlen (mu_sqlstate u) = 6 }.
Record prep_wf e : Prop := PrepWf {
  ew_text : zlen (me_text e) <= me_text_cap e;
  ew_cap : 0 <= me_text_cap e <= LK_MSG_BODY_MAX }.
Record cache_wf k : Prop := CacheWf {
  cw_len : length (mk_e k) = 256%nat;
  cw_entries : Forall prep_wf (mk_e k) }.
(** The unit's reference, if it has one, is to a live slot of the generation it saw. *)
Definition ref_ok (o : option my_prep_cache) u : Prop :=
  mu_prep_idx u = -1 \/
  exists k, o = Some k /\ 0 <= mu_prep_idx u < LK_MY_PREP_CACHE /\
    me_used (prep_at k (mu_prep_idx u)) = true /\ me_gen (prep_at k (mu_prep_idx u)) = mu_prep_gen u.
(** A fixed label buffer, terminated. *)
Definition label_ok (n : Z) (l : list Z) : Prop := zlen l = n /\ 0 ∈ l.
Definition session_ok_wf (s : lk_session) : Prop :=
  label_ok 64 (s_user s) /\ label_ok 64 (s_database s) /\ label_ok 64 (s_app s) /\ label_ok 16 (s_server_version s).

Record my_wf pc : Prop := MyWf {
  mw_unit : unit_wf (mc_u pc);
  mw_pend : zlen (mc_pending_text pc) <= mc_pending_cap pc /\ 0 <= mc_pending_cap pc <= LK_MSG_BODY_MAX;
  mw_cache : forall k, mc_prep pc = Some k -> cache_wf k;
  mw_ref : mc_unit_open pc = true -> ref_ok (mc_prep pc) (mc_u pc);
  mw_session : session_ok_wf (mc_session pc);
  mw_db : label_ok 64 (mc_pending_db pc);
  mw_user : label_ok 64 (mc_pending_user pc) }.

(** Read a field of an updated record without unfolding the record. *)
Ltac proj_in_goal := repeat match goal with
  | |- context [?f (@upd ?R ?E ?g ?i ?h ?r)] =>
      first [constr_eq f g; change (f (@upd R E g i h r)) with (h (f r))
            |change (f (@upd R E g i h r)) with (f r)]; cbv beta
  end.

(** An update that leaves the fields of the invariant alone. *)
Ltac wf_keep W := let H := fresh in pose proof W as H; destruct H; split; done.

Lemma my_conn0_wf : my_wf my_conn0.
Proof.
  assert (label_ok 64 (replicate 64 0)) as H64 by (split; [done|apply list_elem_of_In; cbn; tauto]).
  assert (label_ok 16 (replicate 16 0)) as H16 by (split; [done|apply list_elem_of_In; cbn; tauto]).
  split; try done; concrete.
Qed.

(** ** Labels *)
Lemma my_copy_field_ok n dst src : 0 < n -> zlen dst = n -> label_ok n (copy_field dst src).
Proof.
  intros Hn Hd. pose proof (zlen_nonneg src). unfold copy_field. set (k := if _ <? _ then _ else _).
  assert (0 <= k < n /\ k <= zlen src) as [Hk Hs] by (subst k; destruct (Z.ltb_spec (zlen src) (zlen dst - 1)); lia).
  split; [rewrite zlen_put_cstr; lia|]. unfold put_cstr. apply elem_of_app; right. apply elem_of_app; left. by apply list_elem_of_singleton.
Qed.
Lemma copy_label n dst src : 0 < n -> label_ok n dst -> label_ok n (copy_field dst src).
Proof. intros Hn [Hd _]. by apply my_copy_field_ok. Qed.
Lemma session_db s v : session_ok_wf s -> session_ok_wf (s <| s_database ::= fun d => copy_field d v |>).
Proof. intros (H1 & H2 & H3 & H4). split_and!; cbn; try done. by apply copy_label. Qed.
Lemma session_user s v : session_ok_wf s -> session_ok_wf (s <| s_user ::= fun d => copy_field d v |>).
Proof. intros (H1 & H2 & H3 & H4). split_and!; cbn; try done. by apply copy_label. Qed.
Lemma session_app s v : session_ok_wf s -> session_ok_wf (s <| s_app ::= fun d => copy_field d v |>).
Proof. intros (H1 & H2 & H3 & H4). split_and!; cbn; try done. by apply copy_label. Qed.
Lemma session_ver s v : session_ok_wf s -> session_ok_wf (s <| s_server_version ::= fun d => copy_field d v |>).
Proof. intros (H1 & H2 & H3 & H4). split_and!; cbn; try done. by apply copy_label. Qed.
Lemma wf_session pc g : my_wf pc -> (forall s, session_ok_wf s -> session_ok_wf (g s)) -> my_wf (pc <| mc_session ::= g |>).
Proof. intros W Hg. pose proof W as []. split; try done. by apply Hg. Qed.

(** ** The cache *)
Definition slot_ok (slot : Z) : Prop := 0 <= slot < LK_MY_PREP_CACHE.
Lemma my_prep_at_lookup k slot : cache_wf k -> slot_ok slot -> mk_e k !! Z.to_nat slot = Some (prep_at k slot).
Proof.
  intros W Hs. pose proof (cw_len _ W). unfold slot_ok, LK_MY_PREP_CACHE, prep_at in *.
  destruct (lookup_lt_is_Some_2 (mk_e k) (Z.to_nat slot)) as [e He]; [lia|]. rewrite He. f_equal. symmetry. by apply nth_lookup_Some.
Qed.
Lemma my_prep_at_wf k slot : cache_wf k -> slot_ok slot -> prep_wf (prep_at k slot).
Proof. intros W Hs. eapply (Forall_lookup_1 prep_wf); [apply W|by apply my_prep_at_lookup]. Qed.
Lemma prep_at_put k slot g s : cache_wf k -> slot_ok slot -> slot_ok s ->
  prep_at (prep_put k slot g) s = if s =? slot then g (prep_at k slot) else prep_at k s.
Proof.
  intros W Hs Hs'. pose proof (my_prep_at_lookup k s W Hs') as H1. pose proof (my_prep_at_lookup k slot W Hs) as H2.
  unfold prep_at at 1. unfold prep_put. cbn. destruct (Z.eqb_spec s slot) as [->|Hne]; apply nth_lookup_Some.
  - rewrite list_lookup_alter_eq, H2. done.
  - rewrite list_lookup_alter_ne; [done|]. unfold slot_ok, LK_MY_PREP_CACHE in *. lia.
Qed.
Lemma prep_put_wf k slot g : cache_wf k -> slot_ok slot -> prep_wf (g (prep_at k slot)) -> cache_wf (prep_put k slot g).
Proof.
  intros W Hs Hg. pose proof (my_prep_at_lookup k slot W Hs) as He. pose proof W as []. split; cbn; [by rewrite length_alter|].
  apply Forall_alter; [done|]. intros x Hx _. rewrite He in Hx. by injection Hx as <-.
Qed.
Lemma cache_keep k k' : mk_e k' = mk_e k -> cache_wf k -> cache_wf k'.
Proof. intros E []. split; by rewrite E. Qed.
Lemma my_cache0_wf : cache_wf my_prep_cache0.
Proof. split; [done|]. cbn. apply Forall_replicate. split; concrete. Qed.

Lemma find_spec P l : forall i, 0 <= i ->
  (find_slot_from i P l = -1 /\ Forall (fun e => P e = false) l) \/
  (exists j e, find_slot_from i P l = i + Z.of_nat j /\ l !! j = Some e /\ P e = true /\ Forall (fun e => P e = false) (take j l)).
Proof.
  induction l as [|e l IH]; intros i Hi; [by left|]. cbn [find_slot_from]. destruct (P e) eqn:E.
  - right. exists 0%nat, e. split_and!; [lia|done|done|constructor].
  - destruct (IH (i + 1)) as [[-> Hf]|(j & e' & -> & Hj & He' & Ht)]; [lia| |].
    + left. split; [done|by constructor].
    + right. exists (S j), e'. split_and!; [lia|done|done|by constructor].
Qed.
Lemma find_slot_ok P k (s := find_slot_from 0 P (mk_e k)) : cache_wf k -> s = -1 \/ slot_ok s /\ P (prep_at k s) = true.
Proof.
  intros W. subst s. destruct (find_spec P (mk_e k) 0) as [[-> _]|(j & e & -> & Hj & He & _)]; [lia|by left|]. right.
  assert (slot_ok (0 + Z.of_nat j)) as Hs.
  { pose proof (lookup_lt_Some _ _ _ Hj). rewrite (cw_len _ W) in *. unfold slot_ok, LK_MY_PREP_CACHE. lia. }
  pose proof (my_prep_at_lookup k _ W Hs) as Hp. replace (Z.to_nat (0 + Z.of_nat j)) with j in Hp by lia. rewrite Hj in Hp. by injection Hp as <-.
Qed.
Lemma my_lru_from_range l : forall i best bl, 0 <= best < i -> 0 <= lru_from i best bl l < i + zlen l.
Proof.
  induction l as [|e l IH]; intros i best bl Hb; cbn [lru_from]; [change (zlen []) with 0; lia|]. rewrite zlen_cons.
  destruct (_ <? _); [destruct (IH (i + 1) i (me_lru e)); lia|destruct (IH (i + 1) best bl); lia].
Qed.
Lemma pick_slot_ok st k s st' k' : pick_slot st k = (s, st', k') -> cache_wf k -> slot_ok s /\ mk_e k' = mk_e k.
Proof.
  intros E W. unfold pick_slot in E. destruct (Z.leb_spec 0 (find_slot_from 0 (fun e => negb (me_used e)) (mk_e k))) as [Hf|Hf].
  - injection E as <- <- <-. split; [|done]. destruct (find_slot_ok (fun e => negb (me_used e)) k W) as [E|[? _]]; [lia|done].
  - injection E as <- <- <-. split; [|done]. pose proof (cw_len _ W) as Hl. unfold lru_slot, slot_ok, LK_MY_PREP_CACHE.
    destruct (mk_e k) as [|e l]; [done|]. destruct (my_lru_from_range l 1 0 (me_lru e)); [lia|]. cbn in Hl. unfold zlen in *. lia.
Qed.

(** ** Rescue *)
Lemma my_own_grow_wf u n oom ok u' oom' : own_grow u n oom = (ok, u', oom') -> unit_wf u -> 0 <= n <= LK_MSG_BODY_MAX ->
  unit_wf u' /\ (ok = true -> n <= mu_own_cap u').
Proof.
  intros E [] Hn. unfold own_grow in E. destruct (Z.ltb_spec (mu_own_cap u) n).
  - destruct (alloc oom) as [[] o]; injection E as <- <- <-;
      (split; [split; cbn -[zlen] in *; try change (zlen (@nil Z)) with 0; done || lia|intros; cbn; done || lia]).
  - injection E as <- <- <-. done.
Qed.
Lemma my_set_text_wf u t : unit_wf u -> zlen t <= mu_own_cap u -> unit_wf (u <| mu_own_text := t |>).
Proof. intros [] Ht. by split. Qed.

(** The unit is detached from the slot, or was never attached to it. *)
Lemma rescue_spec pc slot e oom pc' oom' :
  my_query_rescue_ref pc slot e oom = (pc', oom') -> unit_wf (mc_u pc) -> prep_wf e ->
  exists u', pc' = pc <| mc_u := u' |> /\ unit_wf u' /\
    (mu_prep_idx u' = -1 \/ u' = mc_u pc /\ (mc_unit_open pc = true -> ~ (mu_prep_idx u' = slot /\ mu_prep_gen u' = me_gen e))).
Proof.
  intros E Hu [Ht Hc]. unfold my_query_rescue_ref in E. destruct (negb (mc_unit_open pc) || _ || _) eqn:Ec.
  { injection E as <- <-. exists (mc_u pc). split; [by destruct pc|]. split; [done|]. right. split; [done|]. intros Ho [H1 H2].
    rewrite Ho, H1, H2, !Z.eqb_refl in Ec. done. }
  destruct (negb (zlen (me_text e) =? 0)).
  - destruct (own_grow (mc_u pc) (zlen (me_text e)) oom) as [[ok u1] oom1] eqn:Eg. injection E as <- <-.
    pose proof (zlen_nonneg (me_text e)). destruct (my_own_grow_wf _ _ _ _ _ _ Eg Hu) as [Hu1 Hok]; [lia|].
    exists (u1 <| mu_own_text := if ok then me_text e else [] |> <| mu_prep_idx := -1 |>). split; [done|]. split; [|by left].
    destruct (my_set_text_wf u1 (if ok then me_text e else []) Hu1); [destruct ok; [by apply Hok|apply Hu1]|]. by split.
  - injection E as <- <-. eexists. split; [reflexivity|]. split; [|by left]. destruct Hu. split; cbn -[zlen]; try change (zlen (@nil Z)) with 0; done || lia.
Qed.

(** A slot is about to change in cache [k], already rescued: the new cache [k'] agrees
    with [k] elsewhere. *)
Lemma slot_change pc k k' slot u' :
  my_wf pc -> mc_prep pc = Some k \/ mc_prep pc = None -> cache_wf k' -> slot_ok slot -> unit_wf u' ->
  (mu_prep_idx u' = -1 \/ u' = mc_u pc /\ (mc_unit_open pc = true -> ~ (mu_prep_idx u' = slot /\ mu_prep_gen u' = me_gen (prep_at k slot)))) ->
  (forall s, slot_ok s -> s <> slot -> prep_at k' s = prep_at k s) ->
  my_wf (pc <| mc_u := u' |> <| mc_prep := Some k' |>).
Proof.
  intros W Hp Hk' Hs Hu' Hd Ho. pose proof W as []. split; try done; cbn [mc_prep mc_u mc_unit_open upd].
  - by intros ? [= <-].
  - intros Hop. destruct Hd as [Hd|[-> Hn]]; [by left|]. specialize (Hn Hop). destruct (mw_ref0 Hop) as [Hi|(k0 & Hk0 & Hlt & Hus & Hg)]; [by left|].
    right. destruct Hp as [Hp|Hp]; rewrite Hp in Hk0; [|done]. injection Hk0 as <-. exists k'. split; [done|]. split; [done|].
    rewrite Ho; [done|done|]. intros Es. apply Hn. rewrite Es in *. done.
Qed.


(** ** Updates *)
Definition keeps (g : my_unit -> my_unit) : Prop :=
  forall u, (unit_wf u -> unit_wf (g u)) /\ mu_prep_idx (g u) = mu_prep_idx u /\ mu_prep_gen (g u) = mu_prep_gen u.
Lemma wf_unit pc g : keeps g -> my_wf pc -> my_wf (pc <| mc_u ::= g |>).
Proof.
  intros Hg W. destruct (Hg (mc_u pc)) as (H1 & H2 & H3). pose proof W as [Wu Wp Wc Wr Ws Wd Wn]. split; try done; cbn [mc_u mc_prep mc_unit_open upd]; [by apply H1|].
  intros Ho. unfold ref_ok. rewrite H2, H3. by apply (mw_ref _ W).
Qed.
Lemma keeps_flag f : keeps (add_flag f).
Proof. intros u. split; [by intros []|done]. Qed.
#[local] Hint Resolve keeps_flag : core.
Lemma wf_flag pc f : my_wf pc -> my_wf (unit_flag f pc).
Proof. by apply wf_unit. Qed.
Lemma wf_close pc : my_wf pc -> my_wf (pc <| mc_unit_open := false |>).
Proof. intros W. pose proof W as [Wu Wp Wc Wr Ws Wd Wn]. by split. Qed.
Lemma wf_drop pc : my_wf pc -> my_wf (my_query_drop_unit pc).2.
Proof. intros W. unfold my_query_drop_unit. destruct (mc_unit_open pc); [by apply wf_close|done]. Qed.
Lemma wf_open pc kind ts : my_wf pc -> my_wf (unit_open pc kind ts).
Proof. intros W. pose proof W as [[] Wp Wc Wr Ws Wd Wn]. split; try done; [split; cbn -[zlen]; try change (zlen (@nil Z)) with 0; done || lia|by left]. Qed.
Lemma wf_infile pc : my_wf pc -> my_wf (leave_infile pc).
Proof. intros W. unfold leave_infile. destruct (bool_decide _); [wf_keep W|done]. Qed.
Lemma wf_if (b : bool) pc pc' : my_wf pc -> my_wf pc' -> my_wf (if b then pc else pc').
Proof. by destruct b. Qed.

(** ** The statement cache *)
Lemma clamp_range n : 0 <= n -> 0 <= (if LK_MSG_BODY_MAX <? n then LK_MSG_BODY_MAX else n) <= LK_MSG_BODY_MAX.
Proof. intros Hn. unfold LK_MSG_BODY_MAX. destruct (Z.ltb_spec 16384 n); lia. Qed.
Lemma prepare_wf pc m oom : my_wf pc -> my_wf (my_prep_prepare pc m oom).1.
Proof.
  intros W. unfold my_prep_prepare. set (n0 := if 1 <? m_body_cap m then _ else 0).
  assert (0 <= n0) as Hn0 by (subst n0; clear; destruct (Z.ltb_spec 1 (m_body_cap m)); lia). clearbody n0.
  pose proof (clamp_range n0 Hn0) as Hn. set (n := if LK_MSG_BODY_MAX <? n0 then _ else _) in *. clearbody n.
  set (t := ztake n _). assert (zlen t <= n) as Ht by (subst t; rewrite zlen_ztake by lia; lia). clearbody t.
  assert (forall c x, zlen x <= c -> 0 <= c <= LK_MSG_BODY_MAX -> forall r a b, my_wf (pc <| mc_reply := r |> <| mc_pending_prep := a |> <| mc_pending_trunc := b |>
    <| mc_pending_cap := c |> <| mc_pending_text := x |>)) as Hw.
  { intros. pose proof W as [Wu Wp Wc Wr Ws Wd Wn]. by split. }
  pose proof (mw_pend _ W) as [Hp1 Hp2].
  assert (forall r a b x, zlen x <= mc_pending_cap pc -> my_wf (pc <| mc_reply := r |> <| mc_pending_prep := a |> <| mc_pending_trunc := b |> <| mc_pending_text := x |>)) as Hw2.
  { intros. pose proof W as [Wu Wp Wc Wr Ws Wd Wn]. by split. }
  proj_in_goal. destruct (mc_pending_cap pc <? n) eqn:El; [apply Z.ltb_lt in El|apply Z.ltb_ge in El; apply Hw2; lia].
  destruct (alloc oom) as [[] oom']; [by apply Hw|]. apply Hw2. change (zlen []) with 0. lia.
Qed.

Lemma my_fill_slot_wf e id text trunc lru oom e' oom' : fill_slot e id text trunc lru oom = (e', oom') -> prep_wf e -> zlen text <= LK_MSG_BODY_MAX ->
  prep_wf e' /\ me_used e' = true /\ me_stmt_id e' = id /\ me_trunc e' = trunc.
Proof.
  intros E [] Ht. unfold fill_slot in E. cbn [me_text_cap upd] in E. pose proof (zlen_nonneg text).
  destruct (Z.ltb_spec (me_text_cap e) (zlen text)); [destruct (alloc oom) as [ok ?]; destruct ok|]; injection E as <- <-;
    (split; [split; cbn -[zlen]; try change (zlen (@nil Z)) with 0; done || lia|done]).
Qed.

(** The slot a statement is bound to. *)
Definition bind_slot (st : lk_proto_stats) k (id : Z) : Z * lk_proto_stats * my_prep_cache :=
  if find_by_id k id <? 0 then pick_slot st k else (find_by_id k id, st, k).
Lemma bind_slot_ok st k id s st' k' : bind_slot st k id = (s, st', k') -> cache_wf k -> slot_ok s /\ mk_e k' = mk_e k.
Proof.
  intros E W. unfold bind_slot in E. destruct (Z.ltb_spec (find_by_id k id) 0) as [H|H]; [by eapply pick_slot_ok|]. injection E as <- <- <-. split; [|done].
  destruct (find_slot_ok (fun e => me_used e && (me_stmt_id e =? id)) k W) as [E|[? _]]; [|done]. unfold find_by_id in H. lia.
Qed.
(** The outcome of binding: the slot holds a statement of that id, the others are as
    they were. *)
Lemma bind_ok st pc k id oom st' pc' oom' :
  bind_pending st pc k id oom = (st', pc', oom') -> my_wf pc -> cache_wf k -> mc_prep pc = Some k \/ mc_prep pc = None ->
  my_wf pc' /\ exists k', mc_prep pc' = Some k' /\ cache_wf k' /\ exists slot, slot_ok slot /\ slot = (bind_slot st k id).1.1 /\
    me_used (prep_at k' slot) = true /\ me_stmt_id (prep_at k' slot) = id /\ me_trunc (prep_at k' slot) = mc_pending_trunc pc /\
    (oom = [] -> me_text (prep_at k' slot) = mc_pending_text pc) /\
    forall s, slot_ok s -> s <> slot -> prep_at k' s = prep_at k s.
Proof.
  intros E W Hk Hp. unfold bind_pending in E. fold (bind_slot st k id) in E. destruct (bind_slot st k id) as [[slot st1] k1] eqn:Eb.
  destruct (bind_slot_ok _ _ _ _ _ _ Eb Hk) as [Hs He]. pose proof (cache_keep _ _ He Hk) as Hk1.
  assert (forall s, prep_at k1 s = prep_at k s) as Hat by (intros s; unfold prep_at; by rewrite He).
  destruct (my_query_rescue_ref pc slot (prep_at k1 slot) oom) as [pc1 oom1] eqn:Er.
  destruct (rescue_spec _ _ _ _ _ _ Er (mw_unit _ W) (my_prep_at_wf _ _ Hk1 Hs)) as (u' & -> & Hu' & Hd). cbn [mc_pending_text mc_pending_trunc upd] in E.
  destruct (fill_slot _ _ _ _ _ _) as [e' oom2] eqn:Ef. injection E as <- <- <-.
  destruct (my_fill_slot_wf _ _ _ _ _ _ _ _ Ef (my_prep_at_wf _ _ Hk1 Hs)) as (He' & Hus & Hid & Htr). { pose proof (mw_pend _ W). lia. }
  set (k2 := k1 <| mk_clock := u64 (mk_clock k1 + 1) |>) in *. assert (cache_wf k2) as Hk2 by by apply (cache_keep k1).
  assert (cache_wf (prep_put k2 slot (fun _ => e'))) as Hk3 by (apply prep_put_wf; done).
  assert (forall s, slot_ok s -> s <> slot -> prep_at (prep_put k2 slot (fun _ => e')) s = prep_at k s) as Hother.
  { intros s Hs' Hne. rewrite prep_at_put by done. destruct (Z.eqb_spec s slot); [done|]. apply Hat. }
  split; [eapply (slot_change pc k); try done; by rewrite Hat in Hd|]. eexists. split; [reflexivity|]. split; [done|].
  exists slot. split; [done|]. split; [done|]. rewrite prep_at_put, Z.eqb_refl by done. split_and!; try done.
  intros ->. assert (oom1 = []) as ->.
  { unfold my_query_rescue_ref, own_grow in Er. destruct (_ || _); [by injection Er|]. destruct (negb _); [destruct (_ <? _)|]; by injection Er. }
  unfold fill_slot in Ef. cbn [alloc] in Ef. destruct (_ <? _); injection Ef as <- <-; done.
Qed.

Section Ops.
Context {U F : Type}.
Implicit Types (p : lk_proto U my_conn F) (c : lk_conn my_conn F).

Lemma prep_store_wf p pc id : my_wf pc -> my_wf (prep_store p pc id).2.
Proof.
  intros W. unfold prep_store. destruct (negb _); [done|]. set (pc2 := pc <| mc_pending_prep := false |>).
  assert (my_wf pc2) as W2 by wf_keep W. clearbody pc2. cbv zeta. destruct (mc_prep pc2) as [k|] eqn:Ek.
  - destruct (bind_pending (p_st p) pc2 k id (p_oom p)) as [[st pc3] oom3] eqn:Eb. destruct (bind_ok _ _ _ _ _ _ _ _ Eb W2) as [W3 _]; [by apply (mw_cache _ W2)|by left|done].
  - destruct (alloc (p_oom p)) as [ok4 oom4]. destruct ok4; [|done]. cbn [negb].
    destruct (bind_pending (p_st p) pc2 my_prep_cache0 id oom4) as [[st pc3] oom3] eqn:Eb. destruct (bind_ok _ _ _ _ _ _ _ _ Eb W2 my_cache0_wf (or_intror Ek)) as [W3 _]. done.
Qed.
Lemma prep_ok_wf p pc m : my_wf pc -> my_wf (my_prep_ok p pc m).2.
Proof.
  intros W. unfold my_prep_ok. set (pc0 := pc <| mc_reply := MY_R_NONE |>). assert (my_wf pc0) as W0 by wf_keep W. clearbody pc0. clear W pc. cbv zeta.
  destruct (my_wire_get_u8 _) as [[ok h] w]. destruct ok; [|done]. cbn [negb]. destruct (h =? 0); cbn [negb]; [|wf_keep W0].
  destruct (my_wire_get_u32 w) as [[ok1 id] w1]. destruct (my_wire_get_u16 w1) as [[ok2 nc] w2]. destruct (my_wire_get_u16 w2) as [[ok3 np] w3].
  destruct (negb (ok1 && ok2 && ok3)); [wf_keep W0|]. apply prep_store_wf. unfold prep_meta. destruct (negb _); wf_keep W0.
Qed.
End Ops.

Lemma clear_wf e : prep_wf e -> prep_wf (clear_slot e).
Proof. intros []. split; cbn -[zlen]; try change (zlen (@nil Z)) with 0; done || lia. Qed.

Lemma close_wf pc m oom : my_wf pc -> my_wf (my_prep_close pc m oom).1.
Proof.
  intros W. unfold my_prep_close. destruct (my_wire_skip _ 1) as [ok1 w]. destruct (my_wire_get_u32 w) as [[ok2 id] w2].
  destruct (mc_prep pc) as [k|] eqn:Ek; [|done]. destruct (negb _); [done|]. pose proof (mw_cache _ W k Ek) as Hk.
  destruct (find_slot_ok (fun e => me_used e && (me_stmt_id e =? id)) k Hk) as [E|[Hs _]].
  { unfold find_by_id. rewrite E. done. }
  unfold find_by_id. set (s := find_slot_from _ _ _) in *. destruct (s <? 0); [done|].
  destruct (my_query_rescue_ref pc s (prep_at k s) oom) as [pc1 oom1] eqn:Er.
  destruct (rescue_spec _ _ _ _ _ _ Er (mw_unit _ W) (my_prep_at_wf _ _ Hk Hs)) as (u' & -> & Hu' & Hd). cbn [fst].
  assert (cache_wf (prep_put k s clear_slot)) as Hk'. { apply prep_put_wf; [done..|]. apply clear_wf. by apply my_prep_at_wf. }
  apply (slot_change pc k _ s u' W (or_introl Ek)); [by apply (cache_keep (prep_put k s clear_slot))|done..|]. intros s' Hs' Hne.
  change (prep_at (prep_put k s clear_slot) s' = prep_at k s'). rewrite prep_at_put by done. by destruct (Z.eqb_spec s' s).
Qed.

Lemma lookup_wf pc id o pc' : my_prep_lookup pc id = (o, pc') -> my_wf pc ->
  my_wf pc' /\ mc_u pc' = mc_u pc /\
  match o with
  | Some (slot, gen, trunc) => exists k, mc_prep pc' = Some k /\ slot_ok slot /\ me_used (prep_at k slot) = true /\ me_gen (prep_at k slot) = gen
  | None => True
  end.
Proof.
  intros E W. unfold my_prep_lookup in E. destruct (mc_prep pc) as [k|] eqn:Ek; [|by injection E as <- <-]. pose proof (mw_cache _ W k Ek) as Hk.
  destruct (find_slot_ok (fun e => me_used e && (me_stmt_id e =? id)) k Hk) as [Ef|[Hs Hu]].
  { unfold find_by_id in E. rewrite Ef in E. by injection E as <- <-. }
  unfold find_by_id in E. set (s := find_slot_from _ _ _) in *. destruct (s <? 0); [by injection E as <- <-|].
  set (k1 := k <| mk_clock := u64 (mk_clock k + 1) |>) in *. assert (cache_wf k1) as Hk1 by by apply (cache_keep k).
  set (g := fun e => e <| me_lru := u64 (mk_clock k + 1) |>) in *. assert (cache_wf (prep_put k1 s g)) as Hk2.
  { apply prep_put_wf; [done..|]. destruct (my_prep_at_wf k1 s Hk1 Hs). by split. }
  injection E as <- <-. apply andb_true_iff in Hu as [Hu _]. split; [|split; [done|]].
  - pose proof W as [Wu Wp Wc Wr Ws Wd Wn]. split; try done; cbn [mc_prep mc_unit_open mc_u upd]; [by intros ? [= <-]|]. intros Ho.
    destruct (mw_ref _ W Ho) as [Hi|(k0 & Hk0 & Hlt & Hus & Hg)]; [by left|]. right. rewrite Ek in Hk0. injection Hk0 as <-.
    exists (prep_put k1 s g). split; [done|]. split; [done|]. rewrite prep_at_put by done. destruct (Z.eqb_spec (mu_prep_idx (mc_u pc)) s) as [<-|]; done.
  - exists (prep_put k1 s g). split; [done|]. split; [done|]. split; [|done]. rewrite prep_at_put, Z.eqb_refl by done. exact Hu.
Qed.

Lemma rescue_prep pc slot e oom o : my_query_rescue_ref (pc <| mc_prep := o |>) slot e oom =
  ((my_query_rescue_ref pc slot e oom).1 <| mc_prep := o |>, (my_query_rescue_ref pc slot e oom).2).
Proof. unfold my_query_rescue_ref. cbn [mc_u mc_unit_open upd]. destruct (_ || _); [done|]. destruct (negb _); [|done]. by destruct (own_grow _ _ _) as [[? ?] ?]. Qed.
Lemma drop_loop_wf n : forall i pc k oom pc' k' oom', drop_loop n i pc k oom = (pc', k', oom') ->
  my_wf (pc <| mc_prep := Some k |>) -> 0 <= i -> i + Z.of_nat n <= LK_MY_PREP_CACHE ->
  my_wf (pc' <| mc_prep := Some k' |>) /\
  (forall s, slot_ok s -> me_used (prep_at k s) = false \/ i <= s < i + Z.of_nat n -> me_used (prep_at k' s) = false).
Proof.
  induction n as [|n IH]; intros i pc k oom pc' k' oom' E W Hi Hn; cbn [drop_loop] in E.
  { injection E as <- <- <-. split; [done|]. intros s _ [?|?]; [done|lia]. }
  assert (slot_ok i) as Hs by (unfold slot_ok; lia). pose proof (mw_cache _ W k eq_refl) as Hk. destruct (me_used (prep_at k i)) eqn:Eu; cbn [negb] in E.
  2: { destruct (IH _ _ _ _ _ _ _ E W) as [W' Hu]; [lia|lia|]. split; [done|]. intros s Hs' Hc. apply Hu; [done|].
       destruct (decide (s = i)) as [->|]; [by left|]. destruct Hc; [by left|right; lia]. }
  destruct (my_query_rescue_ref pc i (prep_at k i) oom) as [pc1 oom1] eqn:Er.
  assert (my_query_rescue_ref (pc <| mc_prep := Some k |>) i (prep_at k i) oom = (pc1 <| mc_prep := Some k |>, oom1)) as Er' by by rewrite rescue_prep, Er.
  destruct (rescue_spec _ _ _ _ _ _ Er' (mw_unit _ W) (my_prep_at_wf _ _ Hk Hs)) as (u' & E1 & Hu' & Hd).
  assert (cache_wf (prep_put k i clear_slot)) as Hk'. { apply prep_put_wf; [done..|]. apply clear_wf. by apply my_prep_at_wf. }
  assert (my_wf (pc1 <| mc_prep := Some (prep_put k i clear_slot) |>)) as W'.
  { pose proof (slot_change _ k _ i u' W (or_introl eq_refl) Hk' Hs Hu' Hd) as Hw.
    assert (pc1 <| mc_prep := Some (prep_put k i clear_slot) |> = pc1 <| mc_prep := Some k |> <| mc_prep := Some (prep_put k i clear_slot) |>) as -> by done.
    rewrite E1. apply Hw. intros s' Hs' Hne. rewrite prep_at_put by done. by destruct (Z.eqb_spec s' i). }
  destruct (IH _ _ _ _ _ _ _ E W') as [W2 Hu2]; [lia|lia|]. split; [done|]. intros s Hs' Hc. apply Hu2; [done|]. rewrite prep_at_put by done.
  destruct (Z.eqb_spec s i) as [->|Hne]; [by left|]. destruct Hc; [by left|right; lia].
Qed.
Lemma drop_all_wf pc oom : my_wf pc -> my_wf (my_prep_drop_all pc oom).1.
Proof.
  intros W. unfold my_prep_drop_all. destruct (mc_prep pc) as [k|] eqn:Ek; [|done].
  destruct (drop_loop _ 0 pc k oom) as [[pc1 k1] oom1] eqn:E.
  assert (pc <| mc_prep := Some k |> = pc) as Ep by (destruct pc; cbn in *; by subst).
  destruct (drop_loop_wf _ _ _ _ _ _ _ _ E) as [W' _]; [by rewrite Ep|lia|done|].
  pose proof W' as [Wu Wp Wc Wr Ws Wd Wn]. cbn [fst]. split; try done; cbn [mc_prep mc_unit_open mc_u upd] in *.
  - intros ? [= <-]. by apply (cache_keep k1); [|apply (mw_cache _ W')].
  - intros Ho. destruct (mw_ref _ W' Ho) as [?|(k0 & [= <-] & H)]; [by left|]. right. by exists (k1 <| mk_count := 0 |>).
Qed.
