(* ===== verification/MyReply.v ===== *)
(** The reply machine of the MySQL handler on any packet: the invariant is kept, and a
    packet reports at most one query, that of the open unit. *)
From Stdlib Require Import Ascii String.
From stdpp Require Import base list.
From S2P Require Import Prelude Conn Proto MyConn MyQuery My MyOps.
#[local] Open Scope Z_scope.
Implicit Types (pc : my_conn) (u : my_unit) (k : my_prep_cache) (e : my_prep) (m : lk_msg) (oom : list bool) (w : my_wire).

(** ** What the handler reports *)
Inductive my_up := UpQuery (s : lk_session) (o : lk_query_obs) | UpSession (s : lk_session) | UpTxn (start stop status : Z).
Definition queries (evs : list my_up) : list lk_query_obs :=
  flat_map (fun ev => match ev with UpQuery _ o => [o] | _ => [] end) evs.
Lemma queries_app a b : queries (a ++ b) = queries a ++ queries b.
Proof. apply flat_map_app. Qed.

(** A packet that reports no query and opens no unit, or closes the open one and reports it. *)
Definition live pc : bool := match mc_phase pc with MY_PH_READY | MY_PH_INFILE => true | _ => false end.
Definition quiet pc pc' : Prop :=
  mc_unit_open pc' = true -> mc_unit_open pc = true /\ mu_ts_start_ns (mc_u pc') = mu_ts_start_ns (mc_u pc) /\ (live pc = true -> live pc' = true).
Definition closing m pc (o : lk_query_obs) pc' : Prop :=
  mc_unit_open pc = true /\ mc_unit_open pc' = false /\
  o_ts_start_ns o = mu_ts_start_ns (mc_u pc) /\ o_ts_complete_ns o = m_ts_ns m /\ o_ts_ready_ns o = m_ts_ns m.
Definition outcome m pc (evs : list my_up) pc' : Prop :=
  queries evs = [] /\ quiet pc pc' \/ exists o, queries evs = [o] /\ closing m pc o pc'.

Lemma my_quiet_refl pc : quiet pc pc. Proof. done. Qed.
Lemma my_quiet_trans pc1 pc2 pc3 : quiet pc1 pc2 -> quiet pc2 pc3 -> quiet pc1 pc3.
Proof. intros H1 H2 Ho. destruct (H2 Ho) as (Ho2 & E2 & L2). destruct (H1 Ho2) as (? & E1 & L1). rewrite E2. auto. Qed.
Lemma outcome_after m pc pc1 evs0 evs pc' :
  queries evs0 = [] -> quiet pc pc1 -> outcome m pc1 evs pc' -> outcome m pc (evs0 ++ evs) pc'.
Proof.
  intros E0 Hq [[E H]|(o & E & Ho & Hc & Hs & Ht)]; unfold outcome; rewrite queries_app, E0, E.
  - left. split; [done|]. by eapply my_quiet_trans.
  - right. exists o. split; [done|]. destruct (Hq Ho) as (Ho' & Es & _). split; [done|]. split; [done|]. split; [congruence|done].
Qed.

Section Reply.
Context {F : Type}.
Abbreviation proto := (lk_proto (list my_up) my_conn F).
Implicit Types (p : proto) (c : lk_conn my_conn F).

(** A consumer that writes everything down. *)
Definition rec_sink : lk_query_sink (list my_up) my_conn F :=
  QSink (Some (fun l _ s o => l ++ [UpQuery s o])) (Some (fun l _ s => l ++ [UpSession s]))
        (Some (fun l _ x y z => l ++ [UpTxn x y z])).
Definition said p (evs : list my_up) p' : Prop := p_out p' = rec_sink /\ p_up p' = p_up p ++ evs.

Lemma said_nil p p' : p_out p = rec_sink -> p_out p' = p_out p -> p_up p' = p_up p -> said p [] p'.
Proof. intros H1 H2 H3. split; [congruence|]. by rewrite H3, app_nil_r. Qed.
Lemma said_app p evs p' evs' p'' : said p evs p' -> said p' evs' p'' -> said p (evs ++ evs') p''.
Proof. intros [_ E1] [E2 E3]. split; [done|]. by rewrite E3, E1, app_assoc. Qed.
Lemma said_query p c s o : p_out p = rec_sink -> said p [UpQuery s o] (up_query p c s o).
Proof. intros H. unfold up_query. rewrite H. by split. Qed.
Lemma said_session p c s : p_out p = rec_sink -> said p [UpSession s] (up_session p c s).
Proof. intros H. unfold up_session. rewrite H. by split. Qed.
Lemma said_txn p c x y z : p_out p = rec_sink -> said p [UpTxn x y z] (up_txn p c x y z).
Proof. intros H. unfold up_txn. rewrite H. by split. Qed.
Lemma said_bump p g : p_out p = rec_sink -> said p [] (pbump p g).
Proof. intros H. by apply said_nil. Qed.

Definition good p pc m (r : proto * my_conn) : Prop :=
  my_wf r.2 /\ exists evs, said p evs r.1 /\ outcome m pc evs r.2.
Lemma good_quiet p pc m p' pc' : said p [] p' -> my_wf pc' -> quiet pc pc' -> good p pc m (p', pc').
Proof. intros Hs W Hq. split; [done|]. exists []. split; [done|]. by left. Qed.

(** ** Pieces *)
Lemma track_loop_ok n : forall s w, session_ok_wf s -> session_ok_wf (track_loop n s w).
Proof.
  induction n as [|n IH]; intros s w Hs; [done|]. cbn [track_loop]. destruct (_ =? 0); [done|].
  destruct (my_wire_get_u8 w) as [[ok1 ty] w1]. destruct (my_wire_get_lenenc_str w1) as [[ok2 d] w2]. destruct (negb _); [done|].
  apply IH. destruct (ty =? 1); [|done]. destruct (my_wire_get_lenenc_str _) as [[ok3 sch] w3]. destruct (_ && _); [by apply session_db|done].
Qed.
Lemma parse_ok_pc pc m b : exists g, (my_query_parse_ok pc m b).2 = pc <| mc_session ::= g |> /\ forall s, session_ok_wf s -> session_ok_wf (g s).
Proof.
  assert (exists g, pc = pc <| mc_session ::= g |> /\ forall s, session_ok_wf s -> session_ok_wf (g s)) as Hid by (exists id; split; [by destruct pc|done]).
  unfold my_query_parse_ok. destruct (my_wire_skip _ 1) as [ok w]. destruct (negb ok); [done|]. destruct b.
  { destruct (my_wire_get_u16 w) as [[? ?] w1]. by destruct (my_wire_get_u16 w1) as [[? ?] ?]. }
  destruct (my_wire_get_lenenc w) as [[ok1 a] w1]. destruct (negb ok1); [done|]. destruct (my_wire_get_lenenc w1) as [[ok2 i] w2]. destruct (negb ok2); [done|].
  destruct (my_wire_get_u16 w2) as [[ok3 st] w3]. destruct (my_wire_get_u16 w3) as [[ok4 wa] w4]. cbn [snd]. destruct (_ && _); [|done].
  unfold parse_session_track. destruct (my_wire_get_lenenc_str w4) as [[? ?] w5]. destruct (my_wire_get_lenenc w5) as [[? ?] w6]. destruct (negb _); [done|].
  eexists. split; [reflexivity|]. intros. by apply track_loop_ok.
Qed.
Lemma parse_ok_wf pc m b : my_wf pc -> my_wf (my_query_parse_ok pc m b).2 /\ quiet pc (my_query_parse_ok pc m b).2.
Proof. intros W. destruct (parse_ok_pc pc m b) as (g & -> & Hg). split; [by apply wf_session|done]. Qed.
Lemma ok_effects_wf pc : my_wf pc -> my_wf (my_session_ok_effects pc) /\ quiet pc (my_session_ok_effects pc).
Proof.
  intros W. unfold my_session_ok_effects. destruct (mc_have_pending_db pc); [|done]. split; [|done].
  assert (my_wf (pc <| mc_session ::= fun s => s <| s_database ::= fun d => copy_field d (c_str (mc_pending_db pc)) |> |>)) as W'.
  { apply wf_session; [done|]. intros s. apply session_db. }
  wf_keep W'.
Qed.
Lemma txn_track_ok p c pc ok ts p' pc' : txn_track p c pc ok ts = (p', pc') -> p_out p = rec_sink ->
  exists evs, said p evs p' /\ queries evs = [] /\ exists a b, pc' = pc <| mc_txn_start_ns := a |> <| mc_txn_status := b |>.
Proof.
  intros E H. unfold txn_track in E. destruct (negb _).
  { injection E as <- <-. exists []. split; [by apply said_nil|]. split; [done|]. exists (mc_txn_start_ns pc), (mc_txn_status pc). by destruct pc. }
  assert (pc = pc <| mc_txn_start_ns := mc_txn_start_ns pc |>) as Hid by by destruct pc.
  destruct (_ && _).
  { injection E as <- <-. exists []. split; [by apply said_nil|]. split; [done|]. eexists _, _. reflexivity. }
  destruct (_ && _); injection E as <- <-.
  - eexists. split; [by apply said_txn|]. split; [done|]. exists (mc_txn_start_ns pc). eexists. rewrite Hid at 1. reflexivity.
  - exists []. split; [by apply said_nil|]. split; [done|]. exists (mc_txn_start_ns pc). eexists. rewrite Hid at 1. reflexivity.
Qed.
Lemma leave_infile_quiet pc : quiet pc (leave_infile pc).
Proof. unfold leave_infile. by destruct (bool_decide _). Qed.

(** ** Emission and terminators *)
Lemma unit_obs_ts pc : o_ts_start_ns (unit_obs pc) = mu_ts_start_ns (mc_u pc) /\ o_ts_complete_ns (unit_obs pc) = mu_ts_complete_ns (mc_u pc) /\
  o_ts_ready_ns (unit_obs pc) = mu_ts_complete_ns (mc_u pc).
Proof. unfold unit_obs. by destruct (has_flag _ _). Qed.
Lemma emit_good p c pc m : p_out p = rec_sink -> my_wf pc -> mc_unit_open pc = true -> mu_ts_complete_ns (mc_u pc) = m_ts_ns m ->
  good p pc m (emit_unit p c pc).
Proof.
  intros H W Ho Ht. unfold emit_unit. set (p1 := if has_flag _ _ then _ else _). assert (said p [] p1) as Hp1 by (subst p1; destruct (has_flag _ _); by apply said_nil).
  clearbody p1. split; [by apply wf_close|]. eexists. split; [cbn [fst]; eapply said_app; [exact Hp1|]; apply said_query, Hp1|].
  right. exists (unit_obs pc). split; [done|]. destruct (unit_obs_ts pc) as (E1 & E2 & E3). unfold closing. by rewrite E1, E2, E3.
Qed.
(** [good] from an equivalent start. *)
Lemma good_after p pc pc1 m evs p1 r : said p evs p1 -> queries evs = [] -> quiet pc pc1 -> good p1 pc1 m r -> good p pc m r.
Proof.
  intros Hs E Hq [W (evs' & Hs' & Ho)]. split; [done|]. exists (evs ++ evs'). split; [by eapply said_app|]. by eapply outcome_after.
Qed.
Lemma keeps_term m n : keeps (fun u => u <| mu_ts_complete_ns := m_ts_ns m |> <| mu_rows ::= fun r => u64 (r + n) |> <| mu_ncomplete ::= fun n => u32 (n + 1) |>).
Proof. intros u. split; [by intros []|done]. Qed.
Lemma flag_facts f pc : my_wf pc -> my_wf (unit_flag f pc) /\ mc_unit_open (unit_flag f pc) = mc_unit_open pc /\
  mu_ts_start_ns (mc_u (unit_flag f pc)) = mu_ts_start_ns (mc_u pc) /\ mu_ts_complete_ns (mc_u (unit_flag f pc)) = mu_ts_complete_ns (mc_u pc).
Proof. intros W. split; [by apply wf_flag|done]. Qed.

(** A terminated unit on its way to emission: same unit, completed by this packet. *)
Definition done_by m pc pc' : Prop :=
  my_wf pc' /\ mc_unit_open pc' = true /\ mu_ts_start_ns (mc_u pc') = mu_ts_start_ns (mc_u pc) /\ mu_ts_complete_ns (mc_u pc') = m_ts_ns m /\
  (live pc = true -> live pc' = true).
Lemma done_flag f m pc pc' : done_by m pc pc' -> done_by m pc (unit_flag f pc').
Proof. intros (W & H1 & H2 & H3). split; [by apply wf_flag|done]. Qed.
Lemma done_flag_if (b : bool) f m pc pc' : done_by m pc pc' -> done_by m pc (if b then unit_flag f pc' else pc').
Proof. destruct b; [apply done_flag|done]. Qed.
Lemma done_reply r m pc pc' : done_by m pc pc' -> done_by m pc (pc' <| mc_reply := r |>).
Proof. intros (W & H). split; [wf_keep W|done]. Qed.
Lemma done_emit p c pc pc' m : p_out p = rec_sink -> mc_unit_open pc = true -> done_by m pc pc' -> good p pc m (emit_unit p c pc').
Proof.
  intros H Ho (W & Ho' & Es & Ec & Hl). apply (good_after p pc pc' m [] p); [by apply said_nil|done|done|by apply emit_good].
Qed.

Lemma terminator_ok_good p c pc m b : p_out p = rec_sink -> my_wf pc -> good p pc m (terminator_ok p c pc m b).
Proof.
  intros H W. unfold terminator_ok. destruct (parse_ok_wf pc m b W) as [W1 Q1]. destruct (my_query_parse_ok pc m b) as [ok pc1]. cbn [snd] in *.
  destruct (ok_effects_wf pc1 W1) as [W2 Q2]. set (pc2 := my_session_ok_effects pc1) in *. clearbody pc2.
  destruct (txn_track p c pc2 ok (m_ts_ns m)) as [p3 pc3] eqn:Et. destruct (txn_track_ok _ _ _ _ _ _ _ Et H) as (evs & Hs & Eq & a & b' & E3).
  assert (my_wf pc3 /\ quiet pc2 pc3) as [W3 Q3] by (subst pc3; split; [wf_keep W2|done]). clear E3 Et.
  assert (my_wf (leave_infile pc3)) as W4 by by apply wf_infile. pose proof (leave_infile_quiet pc3) as Q4. set (pc4 := leave_infile pc3) in *. clearbody pc4.
  apply (good_after p pc pc4 m evs p3); [done|done|eauto using my_quiet_trans|]. destruct Hs as [Hs _]. cbv zeta.
  destruct (mc_unit_open pc4) eqn:Eo; cbn [negb]; [|apply good_quiet; [by apply said_nil|wf_keep W4|done]].
  match goal with |- context [if 1 <? mu_ncomplete (mc_u ?x) then _ else _] => set (pc5 := x) end.
  assert (done_by m pc4 pc5) as D5 by (split; [by apply wf_unit; [apply keeps_term|]|done]). clearbody pc5.
  apply (done_flag_if (1 <? mu_ncomplete (mc_u pc5)) LK_QO_MULTI_STMT) in D5. set (pc6 := if 1 <? _ then _ else _) in *. clearbody pc6.
  destruct (_ && has_flag _ MY_ST_MORE_RESULTS).
  - apply good_quiet; [by apply said_nil|destruct D5 as [W6 _]; wf_keep W6|]. intros _. destruct D5 as (_ & _ & Es & _ & Hl). done.
  - apply (done_emit p3 c pc4); [done|done|]. apply done_reply. by apply done_flag_if.
Qed.

Lemma parse_err_ok p pc m b s code p' : parse_err p pc m = (b, s, code, p') -> p_out p = rec_sink -> said p [] p' /\ zlen s = 6.
Proof.
  intros E H. unfold parse_err in E. destruct (my_wire_skip _ 1) as [ok1 w1]. destruct (my_wire_get_u16 w1) as [[ok2 eno] w2].
  destruct (negb _); [injection E as <- <- <- <-; split; [destruct (has_flag _ _); by apply said_nil|done]|].
  destruct (_ && _); [injection E as <- <- <- <-; by split; [apply said_nil|]|].
  destruct (my_wire_get_u8 w2) as [[ok3 mk] w3]. unfold my_wire_skip, my_wire_remaining in E. destruct (Z.ltb_spec (zlen (mw_rest w3)) 5) as [Hl|Hl];
    injection E as <- <- <- <-; (split; [by apply said_nil|]); [by rewrite andb_false_r|]. rewrite andb_true_r. destruct (_ && _); [|done].
  rewrite zlen_app, zlen_ztake by lia. change (zlen [0]) with 1. lia.
Qed.
Lemma terminator_err_good p c pc m : p_out p = rec_sink -> my_wf pc -> good p pc m (terminator_err p c pc m).
Proof.
  intros H W. unfold terminator_err. destruct (parse_err p pc m) as [[[b s] code] p1] eqn:E. destruct (parse_err_ok _ _ _ _ _ _ _ E H) as [Hs Hl].
  destruct b; [|by apply good_quiet]. cbn [negb]. assert (my_wf (leave_infile pc)) as W1 by by apply wf_infile. pose proof (leave_infile_quiet pc) as Q1.
  set (pc1 := leave_infile pc <| mc_reply := MY_R_NONE |> <| mc_have_pending_db := false |>). assert (my_wf pc1) as W2 by wf_keep W1.
  assert (quiet pc pc1) as Q2 by exact Q1. clearbody pc1. apply (good_after p pc pc1 m [] p1); [done|done|done|]. pose proof (proj1 Hs) as H1. cbv zeta.
  destruct (mc_unit_open pc1) eqn:Eo; cbn [negb]; [|by apply good_quiet; [apply said_nil|..]].
  apply (done_emit p1 c pc1); [done|done|]. split; [|done]. apply wf_unit; [|done]. intros u. split; [|done]. intros []. by split.
Qed.

(** ** The reply states *)
Lemma drop_resync_good p pc : p_out p = rec_sink -> my_wf pc -> said p [] (drop_resync p pc).1 /\ my_wf (drop_resync p pc).2 /\ mc_unit_open (drop_resync p pc).2 = false /\
  exists b, (drop_resync p pc).2 = pc <| mc_unit_open := b |>.
Proof.
  intros H W. unfold drop_resync, my_query_drop_unit. destruct (mc_unit_open pc) eqn:Eo.
  - split; [by apply said_nil|]. split; [by apply wf_close|]. split; [done|]. by exists false.
  - split; [by apply said_nil|]. split; [done|]. split; [done|]. exists false. destruct pc; cbn in *; by subst.
Qed.
Lemma bad_head_good p pc m : p_out p = rec_sink -> my_wf pc -> good p pc m (bad_head p pc m).
Proof.
  intros H W. unfold bad_head. destruct (negb _).
  - apply good_quiet; [by apply said_nil|pose proof (wf_drop pc W) as W1; wf_keep W1|]. unfold my_query_drop_unit. by destruct (mc_unit_open pc).
  - destruct (drop_resync_good p pc H W) as (Hs & W1 & Ho & _). destruct (drop_resync p pc) as [p1 pc1]. cbn [fst snd] in *.
    apply good_quiet; [done|wf_keep W1|]. intros Ho'. change (mc_unit_open pc1 = true) in Ho'. congruence.
Qed.
Lemma column_count_ok pc m : exists a, (column_count pc m).2 = pc <| mc_cols_left := a |>.
Proof.
  assert (exists a, pc = pc <| mc_cols_left := a |>) as Hid by (exists (mc_cols_left pc); by destruct pc).
  unfold column_count. destruct (has_cap _ _).
  - destruct (my_wire_get_u8 _) as [[? mf] w]. destruct (my_wire_get_lenenc w) as [[? n] ?]. destruct (negb _); [done|]. by eexists.
  - destruct (my_wire_get_lenenc _) as [[ok n] w]. destruct (negb ok); [done|]. destruct (has_flag _ _); [|by eexists].
    destruct (my_wire_get_u8 w) as [[ok' mf] ?]. destruct (negb ok'); [by eexists|]. cbn [snd]. destruct (mf =? 0); [exists 0|eexists]; reflexivity.
Qed.
Lemma resultset_head_good p pc m : p_out p = rec_sink -> my_wf pc -> good p pc m (resultset_head p pc m).
Proof.
  intros H W. unfold resultset_head. destruct (column_count_ok pc m) as [a Ea]. destruct (column_count pc m) as [o pc1]. cbn [snd] in Ea.
  assert (my_wf pc1 /\ quiet pc pc1) as [W1 Q1] by (subst pc1; split; [wf_keep W|done]). clear Ea.
  apply (good_after p pc pc1 m [] p); [by apply said_nil|done|done|]. destruct o as [n|]; [|by apply bad_head_good].
  destruct (_ || _); [by apply bad_head_good|]. cbv zeta. destruct (_ && _ && _ && _); (apply good_quiet; [by apply said_nil|wf_keep W1|done]).
Qed.
Lemma reply_head_good p c pc m : p_out p = rec_sink -> my_wf pc -> good p pc m (reply_head p c pc m).
Proof.
  intros H W. unfold reply_head. destruct (_ =? 0); [by apply terminator_ok_good|]. destruct (_ =? 0xff); [by apply terminator_err_good|].
  destruct (_ =? 0xfb).
  { apply good_quiet; [by apply said_nil| |by destruct (mc_unit_open pc)]. destruct (mc_unit_open pc); [|wf_keep W].
    assert (my_wf (pc <| mc_u ::= fun u => u <| mu_copy_kind := Some LK_Q_COPY_IN |> |>)) as W1 by (apply wf_unit; [|done]; intros u; split; [by intros []|done]). wf_keep W1. }
  destruct (fe_terminator pc m) as [fe sh]. destruct (_ && fe); [by apply terminator_ok_good|by apply resultset_head_good].
Qed.
Lemma cursor_eof_good p c pc m ok : p_out p = rec_sink -> my_wf pc -> good p pc m (cursor_eof p c pc m ok).
Proof.
  intros H W. unfold cursor_eof. destruct (txn_track p c pc ok (m_ts_ns m)) as [p3 pc3] eqn:Et. destruct (txn_track_ok _ _ _ _ _ _ _ Et H) as (evs & Hs & Eq & a & b' & E3).
  assert (my_wf pc3 /\ quiet pc pc3) as [W3 Q3] by (subst pc3; split; [wf_keep W|done]). clear E3 Et.
  apply (good_after p pc pc3 m evs p3); [done..|]. pose proof (proj1 Hs) as H3. destruct (mc_unit_open pc3) eqn:Eo; [|apply good_quiet; [by apply said_nil|wf_keep W3|done]].
  cbv zeta. apply (done_emit p3 c pc3); [done|done|]. apply done_reply, done_flag_if. split; [|done]. apply wf_unit; [|done]. intros u. split; [by intros []|done].
Qed.
Lemma reply_cols_good p c pc m : p_out p = rec_sink -> my_wf pc -> good p pc m (reply_cols p c pc m).
Proof.
  intros H W. unfold reply_cols. destruct (_ =? 0xff); [by apply terminator_err_good|]. destruct (_ && (m_len m <? 9)).
  - destruct (parse_ok_wf pc m true W) as [W1 Q1]. destruct (my_query_parse_ok pc m true) as [ok pc1]. cbn [snd] in *.
    apply (good_after p pc pc1 m [] p); [by apply said_nil|done|done|]. destruct (_ && _); [by apply cursor_eof_good|].
    apply good_quiet; [by apply said_nil|wf_keep W1|done].
  - cbv zeta. destruct (negb _); destruct (_ && _); (apply good_quiet; [by apply said_nil|first [done|wf_keep W]|done]).
Qed.
Lemma reply_rows_good p c pc m : p_out p = rec_sink -> my_wf pc -> good p pc m (reply_rows p c pc m).
Proof.
  intros H W. unfold reply_rows. destruct (fe_terminator pc m) as [fe sh]. destruct (_ && _); [by apply terminator_err_good|].
  destruct (_ && _ && _); [by apply terminator_ok_good|]. unfold count_row. destruct (mc_unit_open pc) eqn:Eo; [|by apply good_quiet; [apply said_nil|..]].
  apply good_quiet; [by apply said_nil| |done]. apply wf_unit; [|done]. intros u. split; [by intros []|done].
Qed.

(** Binding a statement leaves the unit's identity alone. *)
Lemma rescue_quiet pc slot e oom : quiet pc (my_query_rescue_ref pc slot e oom).1.
Proof.
  unfold my_query_rescue_ref. destruct (_ || _); [done|]. destruct (negb _); [|done]. destruct (own_grow _ _ _) as [[ok u] o] eqn:E.
  intros Ho. split; [done|]. unfold own_grow in E. destruct (_ <? _); [destruct (alloc oom) as [[] ?]|]; injection E as <- <- <-; done.
Qed.
Lemma bind_quiet st pc k id oom : quiet pc (bind_pending st pc k id oom).1.2.
Proof.
  unfold bind_pending. destruct (if _ <? 0 then _ else _) as [[slot st1] k1]. pose proof (rescue_quiet pc slot (prep_at k1 slot) oom) as Q.
  destruct (my_query_rescue_ref pc slot (prep_at k1 slot) oom) as [pc1 oom1]. destruct (fill_slot _ _ _ _ _ _) as [e' o']. exact Q.
Qed.
Lemma prep_store_quiet p pc id : p_out p = rec_sink -> said p [] (prep_store p pc id).1 /\ quiet pc (prep_store p pc id).2.
Proof.
  intros H. unfold prep_store. destruct (negb _); [by split; [apply said_nil|]|]. set (pc1 := pc <| mc_pending_prep := false |>).
  assert (quiet pc pc1) as Q1 by done. clearbody pc1. cbv zeta. destruct (mc_prep pc1) as [k|].
  - pose proof (bind_quiet (p_st p) pc1 k id (p_oom p)) as Q. destruct (bind_pending _ _ _ _ _) as [[st pc2] o]. split; [by apply said_nil|by eapply my_quiet_trans].
  - destruct (alloc (p_oom p)) as [ok o]. destruct (negb ok); [by split; [apply said_nil|]|].
    pose proof (bind_quiet (p_st p) pc1 my_prep_cache0 id o) as Q. destruct (bind_pending _ _ _ _ _) as [[st pc2] o']. split; [by apply said_nil|by eapply my_quiet_trans].
Qed.
Lemma prep_ok_good p pc m : p_out p = rec_sink -> my_wf pc -> good p pc m (my_prep_ok p pc m).
Proof.
  intros H W. pose proof (prep_ok_wf p pc m W) as W'. assert (said p [] (my_prep_ok p pc m).1 /\ quiet pc (my_prep_ok p pc m).2) as [Hs Q].
  { unfold my_prep_ok. cbv zeta. destruct (my_wire_get_u8 _) as [[ok h] w]. destruct (negb ok); [by split; [apply said_nil|]|]. destruct (negb _); [by split; [apply said_nil|]|].
    destruct (my_wire_get_u32 w) as [[ok1 id] w1]. destruct (my_wire_get_u16 w1) as [[ok2 nc] w2]. destruct (my_wire_get_u16 w2) as [[ok3 np] w3].
    destruct (negb _); [split; [destruct (has_flag _ _); by apply said_nil|done]|].
    destruct (prep_store_quiet p (prep_meta (pc <| mc_reply := MY_R_NONE |>) (u32 (nc + np))) id H) as [Hs Q]. split; [done|].
    eapply my_quiet_trans; [|exact Q]. unfold prep_meta. by destruct (negb _). }
  destruct (my_prep_ok p pc m) as [p' pc']. by apply good_quiet.
Qed.

Lemma query_backend_good p c pc m : p_out p = rec_sink -> my_wf pc -> good p pc m (my_query_backend p c pc m).
Proof.
  intros H W. unfold my_query_backend. destruct (_ && _).
  { destruct (drop_resync_good p pc H W) as (Hs & W1 & Ho & _). destruct (drop_resync p pc) as [p1 pc1]. cbn [fst snd] in *.
    apply good_quiet; [done|wf_keep W1|]. intros Ho'. change (mc_unit_open pc1 = true) in Ho'. congruence. }
  assert (said p [] p) as Hn by by apply said_nil.
  destruct (mc_reply pc); [by apply good_quiet|by apply reply_head_good|by apply reply_cols_good|by apply reply_rows_good|by apply prep_ok_good|..].
  - apply good_quiet; [done| |]; unfold reply_prep_meta; (destruct (_ && _); [done|]); cbv zeta; destruct (negb (mc_meta_left pc =? 0)), (_ =? 0); first [done|wf_keep W].
  - apply good_quiet; [done|wf_keep W|done].
  - destruct (_ && _); (apply good_quiet; [done|first [done|wf_keep W]|done]).
Qed.
End Reply.
