(* ===== verification/MyHandler.v ===== *)
(** The MySQL handler as a whole: connection phase, commands, and calls from the
    framer. *)
From Stdlib Require Import Ascii String.
From stdpp Require Import base list.
From S2P Require Import Prelude Conn Proto MyConn MyQuery My MyOps MyReply.
#[local] Open Scope Z_scope.
Implicit Types (pc : my_conn) (u : my_unit) (k : my_prep_cache) (e : my_prep) (m : lk_msg) (oom : list bool) (w : my_wire).

(** A step that keeps the invariant and the unit. *)
Definition calm pc pc' : Prop := my_wf pc' /\ mc_unit_open pc' = mc_unit_open pc /\ mc_u pc' = mc_u pc.
Lemma calm_refl pc : my_wf pc -> calm pc pc. Proof. done. Qed.
Lemma calm_trans pc1 pc2 pc3 : calm pc1 pc2 -> calm pc2 pc3 -> calm pc1 pc3.
Proof. intros (_ & E1 & E2) (W & E3 & E4). split; [done|]. split; congruence. Qed.
Lemma calm_session pc g : my_wf pc -> (forall s, session_ok_wf s -> session_ok_wf (g s)) -> calm pc (pc <| mc_session ::= g |>).
Proof. intros W Hg. split; [by apply wf_session|done]. Qed.

(** ** Connection phase *)
Lemma greeting_calm pc m : my_wf pc -> calm pc (greeting pc m).
Proof.
  intros W. unfold greeting. destruct (my_wire_get_u8 _) as [[ok pr] w]. destruct (_ || _); [done|]. cbv zeta.
  set (pc1 := pc <| mc_sess := MY_S_RESPONSE |>). assert (calm pc pc1) as C1 by (split; [wf_keep W|done]). clearbody pc1. destruct (negb _); [done|].
  destruct (my_wire_cstring w) as [[ok' ver] w']. destruct ok'; [|done]. eapply calm_trans; [exact C1|]. apply calm_session; [apply C1|]. intros s. apply session_ver.
Qed.
Lemma attrs_loop_ok n : forall s b w, session_ok_wf s -> session_ok_wf (attrs_loop n s b w).
Proof.
  induction n as [|n IH]; intros s b w Hs; [done|]. cbn [attrs_loop]. destruct (_ =? 0); [done|].
  destruct (my_wire_get_lenenc_str w) as [[ok1 key] w1]. destruct (my_wire_get_lenenc_str w1) as [[ok2 val] w2]. destruct (negb _); [done|].
  unfold set_attr. destruct (key_is key (lit "program_name")); [apply IH; by apply session_app|]. destruct (_ && _ && _); [apply IH; by apply session_app|by apply IH].
Qed.
Lemma response_tail_calm pc w : my_wf pc -> calm pc (response_tail pc w).
Proof.
  intros W. unfold response_tail. set (r := if has_flag (mc_caps pc) MY_CAP_CONNECT_WITH_DB then _ else _).
  assert (calm pc r.1.2) as C1.
  { subst r. destruct (has_flag _ _); [|done]. destruct (my_wire_cstring w) as [[ok db] w']. apply calm_session; [done|]. intros s. apply session_db. }
  destruct r as [[ok pc1] w1]. cbn [fst snd] in C1. destruct (negb ok); [done|]. destruct (if has_flag (mc_caps pc1) MY_CAP_PLUGIN_AUTH then _ else _) as [ok' w2].
  destruct (_ && _); [|done]. unfold parse_attrs. destruct (my_wire_get_lenenc w2) as [[ok2 n] w3]. destruct ok2; [|done].
  eapply calm_trans; [exact C1|]. apply calm_session; [apply C1|]. intros s. apply attrs_loop_ok.
Qed.
Lemma response_labels_calm pc w cut : my_wf pc -> calm pc (response_labels pc w cut).
Proof.
  intros W. unfold response_labels. set (pc1 := pc <| mc_sess := MY_S_AUTH |> <| mc_session ::= _ |>).
  assert (calm pc pc1) as C1.
  { assert (my_wf (pc <| mc_sess := MY_S_AUTH |>)) as W' by wf_keep W. split; [by apply wf_session|done]. }
  clearbody pc1. cbv zeta. destruct (my_wire_cstring w) as [[ok user] w1]. set (pc2 := pc1 <| mc_session ::= _ |>).
  assert (calm pc pc2) as C2 by (eapply calm_trans; [exact C1|]; apply calm_session; [apply C1|]; intros s; apply session_user). clearbody pc2.
  destruct (negb ok); [done|]. destruct (skip_auth pc2 w1) as [ok2 w2]. destruct ok2; [|done]. eapply calm_trans; [exact C2|]. apply response_tail_calm, C2.
Qed.
Lemma handshake_calm pc m : my_wf pc -> calm pc (handshake_response pc m).
Proof.
  intros W. unfold handshake_response. cbv zeta.
  assert (forall b pc1, calm pc pc1 -> calm pc (if b : bool then pc1 <| mc_sess := MY_S_AUTH |> else pc1)) as Ha.
  { intros [] pc1 C1; [|done]. eapply calm_trans; [exact C1|]. split; [pose proof (proj1 C1) as W1; wf_keep W1|done]. }
  destruct (my_wire_get_u32 _) as [[ok caps] w]. destruct (negb ok); [split; [wf_keep W|done]|].
  set (pc1 := pc <| mc_caps := caps |> <| mc_caps_known := true |>). assert (calm pc pc1) as C1 by (split; [wf_keep W|done]). clearbody pc1.
  destruct (my_wire_get_u32 w) as [[ok1 d] w1]. destruct (my_wire_get_u8 w1) as [[ok2 ch] w2]. destruct (my_wire_skip w2 19) as [ok3 w3]. destruct (negb _); [by apply Ha|].
  destruct (my_wire_get_u32 w3) as [[ok4 mcaps] w4]. set (pc2 := pc1 <| mc_mcaps := mcaps |>).
  assert (calm pc pc2) as C2 by (eapply calm_trans; [exact C1|]; split; [pose proof (proj1 C1) as W1; wf_keep W1|done]). clearbody pc2.
  destruct (negb ok4); [by apply Ha|]. set (pc3 := if has_flag (mc_caps pc2) MY_CAP_MYSQL then _ else _).
  assert (calm pc pc3) as C3 by (subst pc3; destruct (has_flag _ _); [|done]; eapply calm_trans; [exact C2|]; split; [pose proof (proj1 C2) as W1; wf_keep W1|done]).
  clearbody pc3. destruct (_ =? 0); [by apply Ha|]. eapply calm_trans; [exact C3|]. apply response_labels_calm, C3.
Qed.
Lemma session_frontend_calm pc m : my_wf pc -> calm pc (my_session_frontend pc m).
Proof. intros W. unfold my_session_frontend. destruct (mc_sess pc); [by apply handshake_calm|by apply handshake_calm|done|done]. Qed.
Lemma init_db_calm pc m : my_wf pc -> calm pc (my_session_init_db pc m).
Proof. intros W. split; [|done]. pose proof W as [Wu Wp Wc Wr Ws Wd Wn]. split; try done. by apply copy_label. Qed.

Lemma drop_loop_quiet n : forall i pc k oom, quiet pc (drop_loop n i pc k oom).1.1.
Proof.
  induction n as [|n IH]; intros i pc k oom; cbn [drop_loop]; [done|]. destruct (negb _); [apply IH|].
  pose proof (rescue_quiet pc i (prep_at k i) oom) as Q. destruct (my_query_rescue_ref pc i (prep_at k i) oom) as [pc1 oom1]. eapply my_quiet_trans; [exact Q|apply IH].
Qed.
Lemma drop_all_quiet pc oom : quiet pc (my_prep_drop_all pc oom).1.
Proof.
  unfold my_prep_drop_all. destruct (mc_prep pc) as [k|]; [|done]. pose proof (drop_loop_quiet (Z.to_nat LK_MY_PREP_CACHE) 0 pc k oom) as Q.
  destruct (drop_loop _ _ _ _ _) as [[pc1 k1] oom1]. exact Q.
Qed.
Lemma change_user_ok pc m oom : my_wf pc -> my_wf (my_session_change_user pc m oom).1 /\ (mc_unit_open pc = false -> mc_unit_open (my_session_change_user pc m oom).1 = false).
Proof.
  intros W. unfold my_session_change_user. pose proof (drop_all_wf pc oom W) as W1. pose proof (drop_all_quiet pc oom) as Q.
  destruct (my_prep_drop_all pc oom) as [pc1 oom1]. cbn [fst] in *. assert (mc_unit_open pc = false -> mc_unit_open pc1 = false) as Ho.
  { intros Hn. destruct (mc_unit_open pc1) eqn:E; [|done]. destruct (Q E) as [? _]. congruence. }
  cbv zeta. set (pc2 := pc1 <| mc_phase := MY_PH_HANDSHAKE |> <| mc_sess := MY_S_AUTH |>). assert (calm pc1 pc2) as C2 by (split; [wf_keep W1|done]). clearbody pc2.
  assert (forall pc', calm pc1 pc' -> my_wf pc' /\ (mc_unit_open pc = false -> mc_unit_open pc' = false)) as Hc.
  { intros pc' (W' & E & _). split; [done|]. rewrite E. done. }
  destruct (my_wire_skip _ 1) as [ok w]. destruct (negb ok); [by apply Hc|]. destruct (my_wire_cstring w) as [[ok1 user] w1].
  set (pc3 := pc2 <| mc_pending_user ::= _ |>). assert (calm pc1 pc3) as C3.
  { eapply calm_trans; [exact C2|]. split; [|done]. pose proof (proj1 C2) as [Wu Wp Wc Wr Ws Wd Wn]. split; try done. by apply copy_label. }
  clearbody pc3. assert (forall pc', calm pc3 pc' -> my_wf pc' /\ (mc_unit_open pc = false -> mc_unit_open pc' = false)) as Hc3 by (intros pc' ?; apply Hc; by eapply calm_trans).
  pose proof (proj1 C3) as W3. destruct (negb ok1); [apply Hc3; split; [wf_keep W3|done]|]. destruct (my_wire_get_u8 w1) as [[ok2 al] w2]. destruct (my_wire_skip w2 al) as [ok3 w3].
  destruct (negb _); [apply Hc3; split; [wf_keep W3|done]|]. destruct (my_wire_cstring w3) as [[ok4 db] w4].
  destruct ok4; (apply Hc3; split; [|done]); [|wf_keep W3]. pose proof W3 as [Wu Wp Wc Wr Ws Wd Wn]. split; try done. by apply copy_label.
Qed.

(** ** Commands *)
Definition is_cmd m (cs : list Z) : bool := existsb (Z.eqb (u8 (m_type m))) cs.
(** A command that opens a unit; one that expects a reply. *)
Definition opens m : bool := is_cmd m [MY_COM_QUERY; MY_COM_STMT_EXECUTE; MY_COM_MARIADB_BULK; MY_COM_STMT_FETCH].
Definition anchors m : bool := negb (m_type m =? 0) && negb (is_cmd m [MY_COM_STMT_CLOSE; MY_COM_QUIT; MY_COM_STMT_SEND_LONG_DATA]).
(** The unit, if open, was opened by this command. *)
Definition opened m pc : Prop := mc_unit_open pc = true -> live pc = true /\ opens m = true /\ mu_ts_start_ns (mc_u pc) = m_ts_ns m.

Lemma simple_ok pc m oom : my_wf pc -> live pc = true -> opens m = true -> my_wf (my_query_simple pc m oom).1 /\ opened m (my_query_simple pc m oom).1.
Proof.
  intros W Hl Ho. unfold my_query_simple. set (pc1 := unit_open pc LK_Q_SIMPLE (m_ts_ns m) <| mc_reply := MY_R_HEAD |>).
  assert (my_wf pc1) as W1 by (pose proof (wf_open pc LK_Q_SIMPLE (m_ts_ns m) W) as W1; wf_keep W1). assert (opened m pc1) as O1 by done.
  clearbody pc1. cbv zeta. assert (forall f, my_wf (unit_flag f pc1) /\ opened m (unit_flag f pc1)) as Hn by (intros f; split; [by apply wf_flag|exact O1]).
  destruct (query_text_off pc1 m) as [off|]; [|apply Hn]. destruct (Z.leb_spec (m_body_cap m) off); [apply Hn|].
  set (n := if _ <? _ then _ else _). assert (0 <= n <= LK_MSG_BODY_MAX) as Hnr by (apply clamp_range; lia). clearbody n.
  destruct (own_grow (mc_u pc1) n oom) as [[ok u] oom'] eqn:Eg. destruct (my_own_grow_wf _ _ _ _ _ _ Eg (mw_unit _ W1) Hnr) as [Hu Hok].
  assert (mu_prep_idx u = mu_prep_idx (mc_u pc1) /\ mu_prep_gen u = mu_prep_gen (mc_u pc1) /\ mu_ts_start_ns u = mu_ts_start_ns (mc_u pc1)) as (Ei & Egn & Est).
  { unfold own_grow in Eg. destruct (_ <? n); [destruct (alloc oom) as [[] ?]|]; injection Eg as <- <- <-; done. }
  assert (forall u', unit_wf u' -> mu_prep_idx u' = mu_prep_idx u -> mu_prep_gen u' = mu_prep_gen u -> mu_ts_start_ns u' = mu_ts_start_ns u ->
    my_wf (pc1 <| mc_u := u' |>) /\ opened m (pc1 <| mc_u := u' |>)) as Hset.
  { intros u' Hu' E1 E2 E3. split.
    - pose proof W1 as [Wu Wp Wc Wr Ws Wd Wn]. split; try done. intros Hop. cbn [mc_u mc_prep upd]. unfold ref_ok. rewrite E1, E2, Ei, Egn. by apply Wr.
    - intros Hop. destruct (O1 Hop) as (L & Op & St). split; [done|]. split; [done|]. change (mu_ts_start_ns u' = m_ts_ns m). congruence. }
  destruct ok; cbn [negb fst]; [|by apply Hset]. assert (unit_wf (u <| mu_own_text := ztake n (zdrop off (m_body m)) |>)) as Hu2.
  { apply my_set_text_wf; [done|]. specialize (Hok eq_refl). rewrite zlen_ztake by lia. lia. }
  destruct (has_flag _ _); [|by apply Hset]. destruct Hu2. apply Hset; done.
Qed.
Lemma stmt_unit_ok pc m r : my_wf pc -> live pc = true -> opens m = true ->
  my_wf (open_stmt_unit pc m <| mc_reply := r |>) /\ opened m (open_stmt_unit pc m <| mc_reply := r |>).
Proof.
  intros W Hl Ho. assert (my_wf (open_stmt_unit pc m) /\ opened m (open_stmt_unit pc m)) as [W' O']; [|split; [wf_keep W'|exact O']].
  unfold open_stmt_unit. set (pc1 := unit_open pc LK_Q_EXTENDED (m_ts_ns m)). assert (my_wf pc1) as W1 by by apply wf_open. assert (opened m pc1) as O1 by done.
  assert (forall f pc', my_wf pc' -> opened m pc' -> my_wf (unit_flag f pc') /\ opened m (unit_flag f pc')) as Hn by (intros f pc' W' O'; split; [by apply wf_flag|exact O']).
  destruct (my_wire_skip _ 1) as [ok1 w1]. destruct (my_wire_get_u32 w1) as [[ok2 id] w2]. destruct (negb _); [by apply Hn|].
  assert (mc_phase (my_prep_lookup pc1 id).2 = mc_phase pc1 /\ mc_unit_open (my_prep_lookup pc1 id).2 = mc_unit_open pc1) as [Ep Eo].
  { unfold my_prep_lookup. destruct (mc_prep pc1); [|done]. by destruct (_ <? 0). }
  destruct (my_prep_lookup pc1 id) as [o pc2] eqn:El. cbn [snd] in Ep, Eo. destruct (lookup_wf _ _ _ _ El W1) as (W2 & Eu & Hr).
  assert (opened m pc2) as O2 by (unfold opened, live; rewrite Eo, Ep, Eu; exact O1).
  destruct o as [[[slot gen] trunc]|]; [|by apply Hn]. destruct Hr as (k & Hk & Hs & Hus & Hg).
  assert (my_wf (pc2 <| mc_u ::= fun u => u <| mu_prep_idx := slot |> <| mu_prep_gen := gen |> |>) /\
    opened m (pc2 <| mc_u ::= fun u => u <| mu_prep_idx := slot |> <| mu_prep_gen := gen |> |>)) as [W3 O3].
  { split; [|exact O2]. pose proof W2 as [[? ? ?] Wp Wc Wr Ws Wd Wn]. split; try done. intros _. right. exists k. done. }
  cbv zeta. destruct trunc; [by apply Hn|done].
Qed.

Section Handler.
Context {F : Type}.
Abbreviation proto := (lk_proto (list my_up) my_conn F).
Implicit Types (p : proto) (c : lk_conn my_conn F).

Definition commanded p m (r : proto * lk_conn my_conn F * my_conn) : Prop := my_wf r.2 /\ said p [] r.1.1 /\ opened m r.2.

Lemma command_ok p c pc m : p_out p = rec_sink -> my_wf pc -> live pc = true -> mc_unit_open pc = false -> commanded p m (my_command p c pc m).
Proof.
  intros H W Hl Hc. assert (forall pc', mc_unit_open pc' = false -> opened m pc') as Hq by (intros pc' E E'; congruence).
  assert (forall p' c' pc', p_out p' = rec_sink -> p_up p' = p_up p -> my_wf pc' -> opened m pc' -> commanded p m (p', c', pc')) as Hd.
  { intros p' c' pc' H1 H2 H3 H4. split; [done|]. split; [apply said_nil; [done|cbn [fst]; by rewrite H1|done]|done]. }
  assert (forall f, my_wf (f (p_oom p)).1 -> opened m (f (p_oom p)).1 -> commanded p m (with_oom p c f)) as Hw.
  { intros f. unfold with_oom. destruct (f (p_oom p)) as [pc' oom']. intros. by apply Hd. }
  unfold my_command. cbv zeta.
  destruct (Z.eqb_spec (u8 (m_type m)) MY_COM_QUERY) as [E|_].
  { apply Hw; apply simple_ok; try done; unfold opens, is_cmd; rewrite E; done. }
  destruct (_ =? MY_COM_STMT_PREPARE). { apply Hw; [by apply prepare_wf|]. apply Hq. unfold my_prep_prepare. cbv zeta. destruct (_ <? _); [destruct (alloc _) as [[] ?]|]; exact Hc. }
  destruct ((u8 (m_type m) =? MY_COM_STMT_EXECUTE) || (u8 (m_type m) =? MY_COM_MARIADB_BULK)) eqn:E.
  { apply Hd; try done; apply stmt_unit_ok; try done; unfold opens, is_cmd; cbn [existsb]; destruct (u8 (m_type m) =? MY_COM_STMT_EXECUTE), (u8 (m_type m) =? MY_COM_MARIADB_BULK); try done; by rewrite !orb_true_r. }
  clear E. destruct (Z.eqb_spec (u8 (m_type m)) MY_COM_STMT_FETCH) as [E|_].
  { apply Hd; try done; apply stmt_unit_ok; try done; unfold opens, is_cmd; rewrite E; done. }
  destruct (_ =? MY_COM_INIT_DB). { destruct (init_db_calm pc m W) as (W1 & E1 & _). apply Hd; [done|done|wf_keep W1|apply Hq; exact Hc]. }
  destruct (_ =? MY_COM_CHANGE_USER). { destruct (change_user_ok pc m (p_oom p) W) as [W1 E1]. apply Hw; [done|]. apply Hq, E1, Hc. }
  destruct (_ || _). { pose proof (wf_drop pc W) as W1. apply Hd; [done|done|wf_keep W1|]. apply Hq. unfold my_query_drop_unit. by rewrite Hc. }
  destruct (_ =? MY_COM_STATISTICS); [apply Hd; [done|done|wf_keep W|by apply Hq]|]. destruct (_ =? MY_COM_FIELD_LIST); [apply Hd; [done|done|wf_keep W|by apply Hq]|].
  destruct (_ =? MY_COM_RESET_CONNECTION).
  { apply Hw; pose proof (drop_all_wf pc (p_oom p) W) as W1; pose proof (drop_all_quiet pc (p_oom p)) as Q; destruct (my_prep_drop_all pc (p_oom p)) as [pc1 o1]; cbn [fst] in *; [wf_keep W1|].
    intros Ho. destruct (Q Ho) as [E _]. congruence. }
  destruct (existsb _ _); apply Hd; try done; [wf_keep W|by apply Hq|by apply Hq].
Qed.

(** A unit is open only in the command phase. *)
Definition idle pc : Prop := mc_unit_open pc = true -> live pc = true.
Definition kept pc pc' : Prop :=
  mc_unit_open pc' = true -> live pc' = true /\ mc_unit_open pc = true /\ mu_ts_start_ns (mc_u pc') = mu_ts_start_ns (mc_u pc).
(** What a client packet may do: report no query; leave open the unit it opened, or, if it
    expects no reply, the one that was open. *)
Definition front p pc m (r : proto * lk_conn my_conn F * my_conn) : Prop :=
  my_wf r.2 /\ (exists evs, said p evs r.1.1 /\ queries evs = []) /\ (opened m r.2 \/ anchors m = false /\ kept pc r.2).

Lemma front_of p pc m p' c' pc' : said p [] p' -> my_wf pc' -> opened m pc' \/ anchors m = false /\ kept pc pc' -> front p pc m (p', c', pc').
Proof. intros Hs W H. split; [done|]. split; [by exists []|done]. Qed.
Lemma close_quiet pc m oom : quiet pc (my_prep_close pc m oom).1.
Proof.
  unfold my_prep_close. destruct (my_wire_skip _ 1) as [ok1 w]. destruct (my_wire_get_u32 w) as [[ok2 id] w2]. destruct (mc_prep pc) as [k|]; [|done].
  destruct (negb _); [done|]. destruct (_ <? 0); [done|]. pose proof (rescue_quiet pc (find_by_id k id) (prep_at k (find_by_id k id)) oom) as Q.
  destruct (my_query_rescue_ref pc _ _ oom) as [pc1 o1]. exact Q.
Qed.
Lemma quiet_kept pc pc' : live pc = true -> quiet pc pc' -> kept pc pc'.
Proof. intros Hl Q Ho. destruct (Q Ho) as (? & ? & Hl'). auto. Qed.

Lemma frontend_cmd_ok p c pc m : p_out p = rec_sink -> my_wf pc -> live pc = true -> front p pc m (my_frontend_cmd p c pc m).
Proof.
  intros H W Hl. unfold my_frontend_cmd. destruct (Z.eqb_spec (m_type m) 0) as [Et|Et].
  { apply front_of; [by apply said_nil|done|]. right. split; [unfold anchors; by rewrite Et|]. by apply quiet_kept. }
  cbv zeta. destruct (Z.eqb_spec (u8 (m_type m)) MY_COM_STMT_CLOSE) as [Ec|Nc].
  { unfold with_oom. pose proof (close_wf pc m (p_oom p) W) as W1. pose proof (close_quiet pc m (p_oom p)) as Q. destruct (my_prep_close pc m (p_oom p)) as [pc1 o1]. cbn [fst] in *.
    apply front_of; [by apply said_nil|done|]. right. split; [unfold anchors, is_cmd; rewrite Ec; by rewrite andb_false_r|by apply quiet_kept]. }
  destruct ((u8 (m_type m) =? MY_COM_QUIT) || (u8 (m_type m) =? MY_COM_STMT_SEND_LONG_DATA)) eqn:Eq.
  { apply front_of; [by apply said_nil|done|]. right. split; [|by apply quiet_kept]. unfold anchors, is_cmd. cbn [existsb].
    apply orb_true_iff in Eq as [->| ->]; cbn [orb]; by rewrite ?orb_true_r, andb_false_r. }
  unfold anchor. destruct (drop_resync_good p pc H W) as (Hs & W1 & Ho & b & Eb). destruct (drop_resync p pc) as [p1 pc1]. cbn [fst snd] in *.
  set (pc2 := pc1 <| mc_reply := _ |> <| mc_have_pending_db := _ |> <| mc_pending_prep := _ |>). assert (my_wf pc2) as W2 by wf_keep W1.
  assert (mc_unit_open pc2 = false /\ live pc2 = true) as [Ho2 Hl2] by (split; [exact Ho|subst pc2; rewrite Eb; exact Hl]). clearbody pc2.
  destruct (command_ok p1 c pc2 m (proj1 Hs) W2 Hl2 Ho2) as (W3 & Hs3 & O3). split; [done|]. split; [exists ([] ++ []); split; [by eapply said_app|done]|by left].
Qed.

Lemma emit_session_ok p c pc : p_out p = rec_sink -> my_wf pc ->
  (exists evs, said p evs (emit_session p c pc).1 /\ queries evs = []) /\ calm pc (emit_session p c pc).2.
Proof.
  intros H W. unfold emit_session. split; [|split; [wf_keep W|done]]. exists [UpSession (mc_session pc)]. split; [|reflexivity]. cbn [fst].
  apply (said_app p [] (pbump p (fun st => st <| ps_sessions ::= inc64 |>)) [_]); [by apply said_nil|by apply said_session].
Qed.
Lemma promote_ok p c pc : p_out p = rec_sink -> my_wf pc ->
  (exists evs, said p evs (my_session_promote p c pc).1 /\ queries evs = []) /\ calm pc (my_session_promote p c pc).2 /\ mc_phase (my_session_promote p c pc).2 = MY_PH_READY.
Proof.
  intros H W. unfold my_session_promote. assert (my_wf (pc <| mc_session ::= fun s => s <| s_complete := false |> |>)) as W1 by by apply wf_session.
  destruct (_ && _).
  - destruct (emit_session_ok p c _ H W1) as [Hs (W2 & E1 & E2)]. destruct (emit_session p c _) as [p1 pc1]. cbn [fst snd] in *. split; [done|]. split; [|done].
    split; [wf_keep W2|]. done.
  - split; [exists []; by split; [apply said_nil|]|]. split; [|done]. split; [wf_keep W|done].
Qed.

Lemma frontend_ok p c pc m : p_out p = rec_sink -> my_wf pc -> idle pc -> front p pc m (my_frontend_msg p c pc m).
Proof.
  intros H W Hi. unfold my_frontend_msg. cbv zeta.
  assert (forall b, front p pc m (if b : bool then if m_type m =? 0 then (p, c, my_query_infile_data pc m) else my_frontend_cmd p c (pc <| mc_phase := MY_PH_READY |>) m
    else my_frontend_cmd p c pc m) \/ live pc = false) as Hlive.
  { intros b. destruct (live pc) eqn:Hl; [left|by right]. destruct b; [|by apply frontend_cmd_ok]. destruct (Z.eqb_spec (m_type m) 0) as [Et|Et].
    - assert (my_wf (my_query_infile_data pc m) /\ quiet pc (my_query_infile_data pc m)) as [W1 Q1].
      { unfold my_query_infile_data. destruct (_ =? 0); [done|]. destruct (mc_unit_open pc) eqn:Eo; [|by split]. split; [|done]. apply wf_unit; [|done]. intros u. split; [by intros []|done]. }
      apply front_of; [by apply said_nil|done|]. right. split; [unfold anchors; by rewrite Et|by apply quiet_kept].
    - assert (my_wf (pc <| mc_phase := MY_PH_READY |>)) as W1 by wf_keep W. exact (frontend_cmd_ok p c (pc <| mc_phase := MY_PH_READY |>) m H W1 eq_refl). }
  destruct (mc_phase pc) eqn:Eph.
  2,3: destruct (Hlive (bool_decide (mc_phase pc = MY_PH_INFILE))) as [Hf|Hf]; [rewrite Eph in Hf; exact Hf|unfold live in Hf; by rewrite Eph in Hf].
  - assert (mc_unit_open pc = false) as Ho by (destruct (mc_unit_open pc) eqn:E; [|done]; specialize (Hi E); unfold live in Hi; by rewrite Eph in Hi).
    destruct (Z.eqb_spec (m_type m) 0) as [Et|Et].
    + destruct (session_frontend_calm pc m W) as (W1 & E1 & _). apply front_of; [by apply said_nil|done|]. left. intros E. congruence.
    + destruct (promote_ok p c pc H W) as [(evs & Hs & Eq) [(W1 & E1 & E2) Ep]]. destruct (my_session_promote p c pc) as [p1 pc1]. cbn [fst snd] in *. rewrite Ep.
      change (bool_decide (MY_PH_READY = MY_PH_INFILE)) with false. cbv iota.
      assert (live pc1 = true) as Hl1 by (unfold live; by rewrite Ep). destruct (frontend_cmd_ok p1 c pc1 m (proj1 Hs) W1 Hl1) as (W2 & (evs2 & Hs2 & Eq2) & Hk).
      split; [done|]. split; [exists (evs ++ evs2); split; [by eapply said_app|by rewrite queries_app, Eq, Eq2]|].
      destruct Hk as [Hk|[Ha Hk]]; [by left|]. left. intros E. destruct (Hk E) as (_ & E' & _). congruence.
  - assert (mc_unit_open pc = false) as Ho by (destruct (mc_unit_open pc) eqn:E; [|done]; specialize (Hi E); unfold live in Hi; by rewrite Eph in Hi).
    apply front_of; [by apply said_nil|done|]. left. intros E. congruence.
Qed.

(** ** Server packets *)
Lemma calm_quiet pc pc' : live pc = false -> calm pc pc' -> quiet pc pc'.
Proof. intros Hl (_ & E1 & E2) Ho. rewrite E1 in Ho. rewrite E2. split; [done|]. split; [done|]. congruence. Qed.
Lemma session_ok_good p c pc m : p_out p = rec_sink -> my_wf pc -> live pc = false -> good p pc m (My.session_ok p c pc m).
Proof.
  intros H W Hl. unfold My.session_ok. assert (calm pc (commit_user pc)) as C0.
  { unfold commit_user. destruct (mc_have_pending_user pc); [|done].
    assert (my_wf (pc <| mc_session ::= fun s => s <| s_user ::= fun d => copy_field d (c_str (mc_pending_user pc)) |> |>)) as W1 by (apply wf_session; [done|]; intros s; apply session_user).
    split; [wf_keep W1|done]. }
  destruct (parse_ok_pc (commit_user pc) m false) as (g & Eg & Hg). destruct (my_query_parse_ok (commit_user pc) m false) as [ok pc1]. cbn [snd] in Eg.
  assert (calm pc pc1) as C1 by (eapply calm_trans; [exact C0|]; subst pc1; apply calm_session; [apply C0|done]). clear Eg.
  destruct (ok_effects_wf pc1 (proj1 C1)) as [W2 _]. set (pc2 := my_session_ok_effects pc1 <| mc_sess := MY_S_DONE |>).
  assert (calm pc pc2) as C2. { eapply calm_trans; [exact C1|]. split; [wf_keep W2|]. subst pc2. unfold my_session_ok_effects. by destruct (mc_have_pending_db pc1). }
  clearbody pc2. clear W2. cbv zeta. set (r := if has_flag (c_flags c) LK_CONN_IGNORE then _ else _).
  assert (said p [] r.1 /\ calm pc r.2) as [Hs C3].
  { subst r. destruct (has_flag _ _); (split; [by apply said_nil|]); (eapply calm_trans; [exact C2|]; split; [pose proof (proj1 C2) as W3; wf_keep W3|done]). }
  destruct r as [p3 pc3]. cbn [fst snd] in *. destruct (mc_session_emitted pc3); [apply good_quiet; [done|apply C3|by apply calm_quiet]|].
  destruct (emit_session_ok p3 c pc3 (proj1 Hs) (proj1 C3)) as [(evs & Hs2 & Eq) C4]. destruct (emit_session p3 c pc3) as [p4 pc4]. cbn [fst snd] in *.
  split; [apply C4|]. exists ([] ++ evs). split; [by eapply said_app|]. left. split; [done|]. apply calm_quiet; [done|by eapply calm_trans].
Qed.
Lemma session_backend_good p c pc m : p_out p = rec_sink -> my_wf pc -> live pc = false -> good p pc m (my_session_backend p c pc m).
Proof.
  intros H W Hl. unfold my_session_backend. cbv zeta. assert (forall pc', calm pc pc' -> good p pc m (p, pc')) as Hc.
  { intros pc' C. apply good_quiet; [by apply said_nil|apply C|by apply calm_quiet]. }
  destruct (mc_sess pc); [by apply Hc, greeting_calm|apply Hc; destruct (_ =? _); [split; [wf_keep W|done]|done]| |by apply Hc].
  destruct (_ =? 0); [by apply session_ok_good|]. destruct (_ =? 0xff); apply Hc; [split; [wf_keep W|done]|done].
Qed.
Lemma backend_good p c pc m : p_out p = rec_sink -> my_wf pc -> good p pc m (my_backend_msg p c pc m).
Proof.
  intros H W. unfold my_backend_msg. destruct (mc_phase pc) eqn:E; try by apply query_backend_good.
  - apply session_backend_good; [done|done|]. unfold live. by rewrite E.
  - apply good_quiet; [by apply said_nil|done|done].
Qed.

(** ** Calls from the framer *)
Inductive sink_call := CallMsg (d : lk_dir) (m : lk_msg) | CallResync (d : lk_dir).
Definition call1 p c (x : sink_call) : proto * lk_conn my_conn F :=
  match x with CallMsg d m => my_on_msg p c d m | CallResync d => my_on_resync p c d end.
Fixpoint calls p c (l : list sink_call) : proto * lk_conn my_conn F :=
  match l with [] => (p, c) | x :: l => let '(p, c) := call1 p c x in calls p c l end.

(** The start time a report may carry: the last unit-opening command, forgotten at a
    resync, at a command that expects another reply, and once reported. *)
Definition pending (o : option Z) (x : sink_call) : option Z :=
  match x with
  | CallResync _ => None
  | CallMsg LK_DIR_SEND _ => o
  | CallMsg LK_DIR_RECV m => if opens m then Some (m_ts_ns m) else if anchors m then None else o
  end.
Inductive honest : option Z -> list sink_call -> list my_up -> Prop :=
  | honest_nil o : honest o [] []
  | honest_quiet o x l evs evs' : queries evs = [] -> honest (pending o x) l evs' -> honest o (x :: l) (evs ++ evs')
  | honest_report start m l evs ob evs' :
      queries evs = [ob] -> o_ts_start_ns ob = start -> o_ts_complete_ns ob = m_ts_ns m -> o_ts_ready_ns ob = m_ts_ns m ->
      honest None l evs' -> honest (Some start) (CallMsg LK_DIR_SEND m :: l) (evs ++ evs').

(** The state agrees with [o]. *)
Definition tracks (o : option Z) pc : Prop := my_wf pc /\ idle pc /\ (mc_unit_open pc = true -> o = Some (mu_ts_start_ns (mc_u pc))).
Definition conn_tracks (o : option Z) c : Prop := forall pc, c_proto_state c = Some pc -> tracks o pc.

Lemma tracks_msgs o pc g : tracks o pc -> tracks o (pc <| mc_msgs ::= g |>).
Proof. intros (W & Hi & Ho). split; [wf_keep W|done]. Qed.
Lemma get_ok p c o x p1 c1 : my_conn_get p c = (x, p1, c1) -> p_out p = rec_sink -> conn_tracks o c ->
  said p [] p1 /\ match x with Some pc => tracks o pc | None => c1 = c end.
Proof.
  intros E H Hc. unfold my_conn_get in E. destruct (c_proto_state c) as [pc|] eqn:Es.
  { injection E as <- <- <-. split; [by apply said_nil|by apply Hc]. }
  destruct (alloc (p_oom p)) as [ok oom]. destruct ok; injection E as <- <- <-; (split; [by apply said_nil|]); [|done].
  pose proof my_conn0_wf as W0. destruct (has_flag _ _); (split; [|done]); [wf_keep W0|done].
Qed.
Lemma tally_said p d m : p_out p = rec_sink -> said p [] (tally p d m).
Proof. intros H. unfold tally. destruct (has_flag _ _); by apply said_nil. Qed.
End Handler.
