(* ===== verification/MyClaims.v ===== *)
(** The claims about the MySQL handler on arbitrary traffic. *)
From Stdlib Require Import Ascii String.
From stdpp Require Import base list.
From S2P Require Import Prelude Conn Proto MyConn MyQuery My MyOps MyReply MyHandler.
#[local] Open Scope Z_scope.
Implicit Types (pc : my_conn) (u : my_unit) (m : lk_msg).

Section Claims.
Context {F : Type}.
Abbreviation proto := (lk_proto (list my_up) my_conn F).
Implicit Types (p : proto) (c : lk_conn my_conn F) (x : sink_call).

Lemma put_tracks o c pc : tracks o pc -> conn_tracks o (put_state (F:=F) c pc).
Proof. by intros H ? [= <-]. Qed.

(** One message with its state in hand. *)
Lemma recv_step o p c pc m : p_out p = rec_sink -> tracks o pc ->
  let r := my_frontend_msg p c pc m in
  exists evs, said p evs r.1.1 /\ queries evs = [] /\ tracks (pending o (CallMsg LK_DIR_RECV m)) r.2.
Proof.
  intros H (W & Hi & Ho). cbv zeta. destruct (frontend_ok p c pc m H W Hi) as (W' & (evs & Hs & Eq) & Hk). exists evs. split; [done|]. split; [done|].
  split; [done|]. cbn [pending]. split.
  - intros E. destruct Hk as [Hk|[_ Hk]]; apply (Hk E).
  - intros E. destruct Hk as [Hk|[Ha Hk]].
    + destruct (Hk E) as (_ & -> & ->). done.
    + destruct (Hk E) as (_ & E' & Es). rewrite Ha. assert (opens m = false) as ->.
      { unfold anchors, is_cmd in Ha. unfold opens, is_cmd. destruct (Z.eqb_spec (m_type m) 0) as [->|_]; [done|]. cbn [negb andb] in Ha. apply negb_false_iff in Ha.
        cbn [existsb] in Ha. repeat (apply orb_true_iff in Ha as [Ha|Ha]); try discriminate Ha; apply Z.eqb_eq in Ha; by rewrite Ha. }
      rewrite Es. by apply Ho.
Qed.
Lemma send_step o p c pc m : p_out p = rec_sink -> tracks o pc ->
  let r := my_backend_msg p c pc m in
  exists evs, said p evs r.1 /\
    (queries evs = [] /\ tracks o r.2 \/
     exists ob, queries evs = [ob] /\ o = Some (o_ts_start_ns ob) /\ o_ts_complete_ns ob = m_ts_ns m /\ o_ts_ready_ns ob = m_ts_ns m /\ tracks None r.2).
Proof.
  intros H (W & Hi & Ho). cbv zeta. destruct (backend_good p c pc m H W) as (W' & evs & Hs & Hout). exists evs. split; [done|].
  destruct Hout as [[Eq Q]|(ob & Eq & Hop & Hcl & Es & Et & Er)].
  - left. split; [done|]. split; [done|]. split; [intros E; destruct (Q E) as (E' & _ & L); by apply L, Hi|].
    intros E. destruct (Q E) as (E' & -> & _). by apply Ho.
  - right. exists ob. split; [done|]. split; [rewrite Es; by apply Ho|]. split; [done|]. split; [done|].
    split; [done|]. split; intros E; congruence.
Qed.

Lemma call_step o p c x p' c' : call1 p c x = (p', c') -> p_out p = rec_sink -> conn_tracks o c ->
  exists evs, said p evs p' /\
    (queries evs = [] /\ conn_tracks (pending o x) c' \/
     exists m ob, x = CallMsg LK_DIR_SEND m /\ queries evs = [ob] /\ o = Some (o_ts_start_ns ob) /\
       o_ts_complete_ns ob = m_ts_ns m /\ o_ts_ready_ns ob = m_ts_ns m /\ conn_tracks None c').
Proof.
  intros E H Hc. destruct x as [d m|d]; cbn [call1] in E.
  - unfold my_on_msg in E. destruct (my_conn_get p c) as [[s p1] c1] eqn:Eg. destruct (get_ok _ _ o _ _ _ Eg H Hc) as [Hs1 Ht].
    pose proof (tally_said p1 d m (proj1 Hs1)) as Hs2. set (p2 := tally p1 d m) in *. clearbody p2. pose proof (said_app _ _ _ _ _ Hs1 Hs2) as Hs. cbn [app] in Hs.
    destruct s as [pc|].
    2: { injection E as <- <-. exists []. split; [done|]. left. split; [done|]. subst c1. intros pc Hpc. exfalso.
         unfold my_conn_get in Eg. rewrite Hpc in Eg. discriminate. }
    destruct d.
    + destruct (send_step o p2 c1 pc m (proj1 Hs2) Ht) as (evs & He & Hr). destruct (my_backend_msg p2 c1 pc m) as [p3 pc3]. cbn [fst snd] in *. injection E as <- <-.
      exists ([] ++ evs). split; [by eapply said_app|]. destruct Hr as [[Eq T]|(ob & Eq & Eo & Et & Er & T)].
      * left. split; [done|]. by apply put_tracks, tracks_msgs.
      * right. exists m, ob. do 5 (split; [done|]). by apply put_tracks, tracks_msgs.
    + destruct (recv_step o p2 c1 pc m (proj1 Hs2) Ht) as (evs & He & Eq & T). destruct (my_frontend_msg p2 c1 pc m) as [[p3 c3] pc3]. cbn [fst snd] in *. injection E as <- <-.
      exists ([] ++ evs). split; [by eapply said_app|]. left. split; [done|]. by apply put_tracks, tracks_msgs.
  - unfold my_on_resync in E. destruct (my_conn_get p c) as [[s p1] c1] eqn:Eg. destruct (get_ok _ _ o _ _ _ Eg H Hc) as [Hs1 Ht].
    pose proof (said_bump p1 (fun s => s <| ps_resyncs ::= inc64 |>) (proj1 Hs1)) as Hs2. set (p2 := pbump p1 _) in *. clearbody p2.
    pose proof (said_app _ _ _ _ _ Hs1 Hs2) as Hs. cbn [app] in Hs. destruct s as [pc|].
    2: { injection E as <- <-. exists []. split; [done|]. left. split; [done|]. subst c1. intros pc Hpc. exfalso.
         unfold my_conn_get in Eg. rewrite Hpc in Eg. discriminate. }
    destruct Ht as (W & Hi & Ho). destruct (drop_resync_good p2 pc (proj1 Hs2) W) as (Hd & W1 & Hop & b & Eb). destruct (drop_resync p2 pc) as [p3 pc3]. cbn [fst snd] in *. injection E as <- <-.
    exists ([] ++ []). split; [by eapply said_app|]. left. split; [done|]. apply put_tracks. cbn [pending]. split; [|split].
    + apply wf_infile. wf_keep W1.
    + intros E. unfold resync_state, leave_infile in E. destruct (bool_decide _); cbv zeta in E; change (mc_unit_open pc3 = true) in E; congruence.
    + intros E. unfold resync_state, leave_infile in E. destruct (bool_decide _); cbv zeta in E; change (mc_unit_open pc3 = true) in E; congruence.
Qed.

Lemma calls_honest l : forall o p c p' c', calls p c l = (p', c') -> p_out p = rec_sink -> conn_tracks o c ->
  exists evs, said p evs p' /\ honest o l evs /\ exists o', conn_tracks o' c'.
Proof.
  induction l as [|x l IH]; intros o p c p' c' E H Hc; cbn [calls] in E.
  { injection E as <- <-. exists []. split; [by apply said_nil|]. split; [constructor|by exists o]. }
  destruct (call1 p c x) as [p1 c1] eqn:E1. destruct (call_step _ _ _ _ _ _ E1 H Hc) as (evs & Hs & Hr).
  destruct Hr as [[Eq T]|(m & ob & -> & Eq & -> & Et & Er & T)].
  - destruct (IH _ _ _ _ _ E (proj1 Hs) T) as (evs2 & Hs2 & Hh & Ho). exists (evs ++ evs2). split; [by eapply said_app|]. split; [by constructor|done].
  - destruct (IH _ _ _ _ _ E (proj1 Hs) T) as (evs2 & Hs2 & Hh & Ho). exists (evs ++ evs2). split; [by eapply said_app|]. split; [|done]. by eapply honest_report.
Qed.

(** Safety of the MySQL handler.  Whatever packets and resyncs the framer delivers,
    with whatever bodies, and whichever allocations fail, the connection's state stays
    well formed: every copied text lies inside its buffer of at most 16 KiB, every
    label is a terminated string in its fixed buffer, the cache has its 256 slots, and
    the open unit's statement reference is to a live slot of the generation it saw. *)
Theorem my_handler_safe p c l p' c' : p_out p = rec_sink -> c_proto_state c = None -> calls p c l = (p', c') ->
  forall pc, c_proto_state c' = Some pc -> my_wf pc /\ (mc_unit_open pc = true -> live pc = true).
Proof.
  intros H Hn E pc Hpc. destruct (calls_honest l None p c p' c' E H) as (evs & _ & _ & o & Ht); [by intros ? ?; congruence|].
  destruct (Ht pc Hpc) as (W & Hi & _). done.
Qed.

(** C11: Honesty of the MySQL handler.  Every reported query runs from the packet of
    the command that opened it to the server packet that terminated it, with no resync
    and no other command that expects a reply in between (the commands the server does not
    answer, COM_STMT_CLOSE, COM_STMT_SEND_LONG_DATA and COM_QUIT, may lie there), and no
    command is reported twice: what a loss or a command that expects a reply cut off is
    never reported. *)
Theorem my_reports_honest p c l p' c' : p_out p = rec_sink -> c_proto_state c = None -> calls p c l = (p', c') ->
  exists evs, p_up p' = p_up p ++ evs /\ honest None l evs.
Proof.
  intros H Hn E. destruct (calls_honest l None p c p' c' E H) as (evs & [_ Hs] & Hh & _); [by intros ? ?; congruence|]. by exists evs.
Qed.
End Claims.

(** ** Witnesses *)
(** A SELECT of one column with no rows, a second command cut off by a resync. *)
Definition w_pkt (ts ty : Z) (body : list Z) : lk_msg := Msg ts ty 0 (zlen body) body.
Definition w_my_traffic : list sink_call :=
  [CallMsg LK_DIR_RECV (w_pkt 10 3 (3 :: lit "SELECT 1")); CallMsg LK_DIR_SEND (w_pkt 11 0 [1]);
   CallMsg LK_DIR_SEND (w_pkt 12 0 [3; 100; 101; 102]); CallMsg LK_DIR_SEND (w_pkt 13 0 [0xfe; 0; 0; 2; 0]);
   CallMsg LK_DIR_SEND (w_pkt 14 0 [0xfe; 0; 0; 2; 0]);
   CallMsg LK_DIR_RECV (w_pkt 20 3 (3 :: lit "SELECT 2")); CallResync LK_DIR_SEND; CallMsg LK_DIR_SEND (w_pkt 21 0 [0; 0; 0; 2; 0])].
Definition w_my_proto : lk_proto (list my_up) my_conn unit := Proto rec_sink [] pstats0 [].
Definition w_my_conn : lk_conn my_conn unit := conn0 1 <| c_flags := LK_CONN_SYNTHETIC |>.

Lemma my_handler_safe_witness : exists pc,
  c_proto_state (calls w_my_proto w_my_conn w_my_traffic).2 = Some pc /\ my_wf pc /\ (mc_unit_open pc = true -> live pc = true).
Proof.
  destruct (calls w_my_proto w_my_conn w_my_traffic) as [p' c'] eqn:E.
  assert (is_Some (c_proto_state c')) as [pc Hpc] by (change c' with (p', c').2; rewrite <- E; vm_compute; by eexists).
  exists pc. split; [exact Hpc|]. exact (my_handler_safe w_my_proto w_my_conn w_my_traffic p' c' eq_refl eq_refl E pc Hpc).
Defined.

Lemma my_reports_honest_witness : exists evs,
  p_up (calls w_my_proto w_my_conn w_my_traffic).1 = evs /\ honest None w_my_traffic evs /\ zlen (queries evs) = 1.
Proof.
  destruct (my_reports_honest w_my_proto w_my_conn w_my_traffic _ _ eq_refl eq_refl (surjective_pairing _)) as (evs & E & H).
  exists evs. split; [exact E|]. split; [exact H|]. change (p_up w_my_proto ++ evs) with evs in E. rewrite <- E. vm_compute. reflexivity.
Defined.
