(* ===== verification/MyExchange.v ===== *)
(** A query exchange from command to terminator: what is reported is what was sent. *)
From Stdlib Require Import Ascii String.
From stdpp Require Import base list.
From S2P Require Import Prelude Conn Proto MyConn MyQuery My MyOps MyReply MyHandler.
#[local] Open Scope Z_scope.
Implicit Types (pc : my_conn) (u : my_unit) (m : lk_msg) (w : my_wire).

(** ** Length-encoded integers *)
Fixpoint le_bytes (n : nat) (v : Z) : list Z := match n with O => [] | S n => v mod 256 :: le_bytes n (v / 256) end.
Definition put_lenenc (v : Z) : list Z :=
  if v <? 251 then [v] else if v <? 2 ^ 16 then 0xfc :: le_bytes 2 v
  else if v <? 2 ^ 24 then 0xfd :: le_bytes 3 v else 0xfe :: le_bytes 8 v.

Lemma le_bytes_ok n : forall v, bytes_ok (le_bytes n v) /\ List.length (le_bytes n v) = n.
Proof. induction n as [|n IH]; intros v; [by split; [constructor|]|]. cbn. destruct (IH (v / 256)) as [H1 H2]. split; [constructor; [apply Z.mod_pos_bound; lia|done]|by rewrite H2]. Qed.
Lemma le_fold n : forall v, 0 <= v < 256 ^ Z.of_nat n -> foldr (fun b v => Z.lor (Z.shiftl v 8) b) 0 (le_bytes n v) = v.
Proof.
  induction n as [|n IH]; intros v Hv; [cbn in *; lia|]. cbn [le_bytes foldr]. rewrite Nat2Z.inj_succ, Z.pow_succ_r in Hv by lia.
  rewrite IH by (split; [apply Z.div_pos; lia|apply Z.div_lt_upper_bound; lia]). pose proof (Z.mod_pos_bound v 256 ltac:(lia)).
  rewrite lor_shiftl_add by lia. change (2 ^ 8) with 256. pose proof (Z.div_mod v 256). lia.
Qed.
Lemma le16_fold a b r : le16 (a :: b :: r) = foldr (fun b v => Z.lor (Z.shiftl v 8) b) 0 [a; b].
Proof. unfold le16. cbn_znth. cbn [foldr]. by rewrite Z.shiftl_0_l, Z.lor_0_l. Qed.
Lemma le24_fold a b c r : le24 (a :: b :: c :: r) = foldr (fun b v => Z.lor (Z.shiftl v 8) b) 0 [a; b; c].
Proof. unfold le24. cbn_znth. cbn [foldr]. rewrite Z.shiftl_0_l, Z.lor_0_l, lor_shiftl_shiftl by lia. reflexivity. Qed.

Lemma get_int_app n g a r o : zlen a = n -> get_int n g (MyWire (a ++ r) o) = (true, g (a ++ r), MyWire r o).
Proof.
  intros <-. unfold get_int, my_wire_remaining, advance. cbn [mw_rest mw_overrun]. pose proof (zlen_nonneg r). rewrite zlen_app.
  destruct (Z.ltb_spec (zlen a + zlen r) (zlen a)); [lia|]. rewrite zdrop_app_ge, Z.sub_diag by lia. by rewrite zdrop_0.
Qed.
Lemma lenenc_roundtrip v r o : 0 <= v < 2 ^ 64 -> my_wire_get_lenenc (MyWire (put_lenenc v ++ r) o) = (true, v, MyWire r o).
Proof.
  intros Hv. unfold my_wire_get_lenenc, my_wire_remaining. cbn [mw_rest].
  assert (forall h t, (zlen ((h :: t) ++ r) <? 1) = false) as Hl by (intros; apply Z.ltb_ge; pose proof (zlen_nonneg r); pose proof (zlen_nonneg t); rewrite zlen_app, zlen_cons; lia).
  assert (forall h t, advance (MyWire ((h :: t) ++ r) o) 1 = MyWire (t ++ r) o) as Ha by done.
  unfold put_lenenc. destruct (Z.ltb_spec v 251) as [H1|H1].
  { rewrite Hl. change (znth ([v] ++ r) 0) with v. destruct (Z.eqb_spec v 0xfb); [lia|]. destruct (Z.eqb_spec v 0xff); [lia|]. cbn [orb]. destruct (Z.ltb_spec v 0xfb); [|lia]. by rewrite Ha. }
  assert (forall n g, 0 <= v < 256 ^ Z.of_nat n -> g (le_bytes n v ++ r) = foldr (fun b v => Z.lor (Z.shiftl v 8) b) 0 (le_bytes n v) ->
    get_int (Z.of_nat n) g (MyWire (le_bytes n v ++ r) o) = (true, v, MyWire r o)) as Hg.
  { intros n g Hn Eg. destruct (le_bytes_ok n v) as [_ Hlen]. rewrite get_int_app by (unfold zlen; by rewrite Hlen). by rewrite Eg, le_fold. }
  destruct (Z.ltb_spec v (2 ^ 16)) as [H2|H2]; [|destruct (Z.ltb_spec v (2 ^ 24)) as [H3|H3]]; rewrite Hl; rewrite Ha.
  - change (znth ((0xfc :: le_bytes 2 v) ++ r) 0) with 0xfc. cbn [Z.eqb Z.ltb orb Z.compare Pos.eqb Pos.compare Pos.compare_cont]. apply (Hg 2%nat le16); [lia|apply le16_fold].
  - change (znth ((0xfd :: le_bytes 3 v) ++ r) 0) with 0xfd. cbn [Z.eqb Z.ltb orb Z.compare Pos.eqb Pos.compare Pos.compare_cont]. apply (Hg 3%nat le24); [lia|apply le24_fold].
  - change (znth ((0xfe :: le_bytes 8 v) ++ r) 0) with 0xfe. cbn [Z.eqb Z.ltb orb Z.compare Pos.eqb Pos.compare Pos.compare_cont]. apply (Hg 8%nat le64); [lia|].
    reflexivity.
Qed.

(** ** The exchange *)
(** Capabilities negotiated: [dep] says whether the metadata EOF is gone. *)
Record caps_are (dep : bool) pc : Prop := CapsAre {
  ca_known : mc_caps_known pc = true;
  ca_dep : has_flag (mc_caps pc) MY_CAP_DEPRECATE_EOF = dep;
  ca_meta : has_flag (mc_caps pc) MY_CAP_OPT_METADATA = false;
  ca_attr : has_flag (mc_caps pc) MY_CAP_QUERY_ATTRIBUTES = false;
  ca_cache : has_flag (mc_mcaps pc) MY_MCAP_CACHE_METADATA = false }.
(** The open unit: start, first row, rows so far, text. *)
Record unit_at u (ts fr n : Z) (sql : list Z) : Prop := UnitAt {
  ua_start : mu_ts_start_ns u = ts; ua_first : mu_ts_first_row_ns u = fr; ua_rows : mu_rows u = n; ua_bytes : mu_bytes u = 0;
  ua_nc : mu_ncomplete u = 0; ua_kind : mu_kind u = LK_Q_SIMPLE; ua_copy : mu_copy_kind u = None; ua_flags : mu_flags u = 0;
  ua_prep : mu_prep_idx u = -1; ua_text : mu_own_text u = sql }.
Record in_reply (dep : bool) (r : my_reply) (cols ts fr n : Z) (sql : list Z) pc : Prop := InReply {
  ir_phase : mc_phase pc = MY_PH_READY; ir_reply : mc_reply pc = r; ir_open : mc_unit_open pc = true;
  ir_cols : mc_cols_left pc = cols; ir_caps : caps_are dep pc; ir_unit : unit_at (mc_u pc) ts fr n sql }.

Definition is_query (sql : list Z) m : Prop := m_type m = MY_COM_QUERY /\ m_body m = MY_COM_QUERY :: sql /\ has_flag (m_flags m) LK_MSG_BODY_TRUNC = false.
Definition is_head (n : Z) m : Prop := m_body m = put_lenenc n.
(** A column definition, a row: any packet that is no terminator. *)
Definition is_def m : Prop := match m_body m with [] => True | b :: _ => b <> 0xff /\ b <> 0xfe end.
Definition eof_body (dep : bool) (st : Z) : list Z :=
  if dep then 0xfe :: 0 :: 0 :: le_bytes 2 st ++ [0; 0] else 0xfe :: 0 :: 0 :: le_bytes 2 st.
Definition is_eof (dep : bool) (st : Z) m : Prop := m_body m = eof_body dep st /\ m_len m = zlen (m_body m).
(** A status that ends the exchange. *)
Definition final_status (st : Z) : Prop :=
  0 <= st < 2 ^ 16 /\ has_flag st MY_ST_MORE_RESULTS = false /\ has_flag st MY_ST_CURSOR_EXISTS = false /\ has_flag st MY_ST_STATE_CHANGED = false.

Lemma le2 st r : 0 <= st < 2 ^ 16 -> le16 (le_bytes 2 st ++ r) = st.
Proof. intros H. change (le_bytes 2 st ++ r) with (st mod 256 :: st / 256 mod 256 :: r). rewrite le16_fold. apply (le_fold 2 st). exact H. Qed.
Lemma get_status st r o : 0 <= st < 2 ^ 16 -> my_wire_get_u16 (MyWire (le_bytes 2 st ++ r) o) = (true, st, MyWire r o).
Proof. intros H. unfold my_wire_get_u16. rewrite get_int_app by done. by rewrite le2. Qed.
Lemma parse_eof dep st pc m : is_eof dep st m -> final_status st -> my_query_parse_ok pc m (negb dep) = (MyOk 0 0 st 0 true, pc).
Proof.
  intros [Eb _] (Hst & _ & _ & Hsc). unfold my_query_parse_ok, my_wire_init. rewrite Eb. destruct dep; cbn [eof_body negb].
  - change (my_wire_skip _ 1) with (true, MyWire (0 :: 0 :: le_bytes 2 st ++ [0; 0]) false). cbv iota beta. cbn [negb].
    change (my_wire_get_lenenc (MyWire (0 :: 0 :: le_bytes 2 st ++ [0; 0]) false)) with (true, 0, MyWire (0 :: le_bytes 2 st ++ [0; 0]) false). cbv iota beta. cbn [negb].
    change (my_wire_get_lenenc (MyWire (0 :: le_bytes 2 st ++ [0; 0]) false)) with (true, 0, MyWire (le_bytes 2 st ++ [0; 0]) false). cbv iota beta. cbn [negb].
    rewrite get_status by done. change (my_wire_get_u16 (MyWire [0; 0] false)) with (true, 0, MyWire [] false). cbn [andb]. by rewrite Hsc, andb_false_r.
  - change (my_wire_skip _ 1) with (true, MyWire (0 :: 0 :: le_bytes 2 st) false). cbv iota beta. cbn [negb].
    change (my_wire_get_u16 (MyWire (0 :: 0 :: le_bytes 2 st) false)) with (true, 0, MyWire (le_bytes 2 st) false).
    pose proof (get_status st [] false Hst) as E. rewrite app_nil_r in E. cbv iota beta. by rewrite E.
Qed.

(** A step keeps the rest of the reply's state. *)
Lemma in_reply_set dep r cols ts fr n sql pc r' cols' :
  in_reply dep r cols ts fr n sql pc -> in_reply dep r' cols' ts fr n sql (pc <| mc_cols_left := cols' |> <| mc_reply := r' |>).
Proof. intros [H1 H2 H3 H4 [C1 C2 C3 C4 C5] H6]. split; try done. Qed.
Lemma in_reply_reply dep r cols ts fr n sql pc r' :
  in_reply dep r cols ts fr n sql pc -> in_reply dep r' cols ts fr n sql (pc <| mc_reply := r' |>).
Proof. intros [H1 H2 H3 H4 [C1 C2 C3 C4 C5] H6]. split; try done. Qed.

Section Exchange.
Context {F : Type}.
Abbreviation proto := (lk_proto (list my_up) my_conn F).
Implicit Types (p : proto) (c : lk_conn my_conn F).

Lemma head_step dep cols ts sql p c pc m n : in_reply dep MY_R_HEAD cols ts 0 0 sql pc -> is_head n m -> 1 <= n <= MY_MAX_COLUMNS ->
  exists pc', my_query_backend p c pc m = (p, pc') /\ in_reply dep MY_R_COLS n ts 0 0 sql pc'.
Proof.
  intros I Hm Hn. pose proof I as [H1 H2 H3 H4 [C1 C2 C3 C4 C5] H6]. unfold MY_MAX_COLUMNS in Hn. unfold is_head in Hm.
  assert (0 <= n < 2 ^ 64) as Hr by lia. assert (put_lenenc n = [n] /\ n < 251 \/ exists t, put_lenenc n = 0xfc :: t) as Hs.
  { unfold put_lenenc. destruct (Z.ltb_spec n 251); [by left|]. destruct (Z.ltb_spec n (2 ^ 16)); [|lia]. right. by eexists. }
  pose proof (lenenc_roundtrip n [] false Hr) as Hl. rewrite app_nil_r in Hl.
  unfold my_query_backend. rewrite H2. cbn [blind_ok negb].
  assert ((m_body_cap m =? 0) = false) as -> by (unfold m_body_cap; rewrite Hm; destruct Hs as [[-> _]|[t ->]]; [done|]; apply Z.eqb_neq; pose proof (zlen_nonneg t); rewrite zlen_cons; lia).
  cbn [andb]. unfold reply_head. assert (exists h, znth (m_body m) 0 = h /\ h <> 0 /\ h <> 0xff /\ h <> 0xfb /\ h <> 0xfe) as (h & Eh & N1 & N2 & N3 & N4).
  { rewrite Hm. destruct Hs as [[-> ?]|[t ->]]; [exists n|exists 0xfc]; (split; [reflexivity|lia]). }
  rewrite Eh. rewrite (proj2 (Z.eqb_neq h 0) N1), (proj2 (Z.eqb_neq h 0xff) N2), (proj2 (Z.eqb_neq h 0xfb) N3), (proj2 (Z.eqb_neq h 0xfe) N4).
  destruct (fe_terminator pc m) as [fe sh]. cbn [andb]. unfold resultset_head, column_count, has_cap. rewrite C3, andb_false_r. unfold my_wire_init. rewrite Hm, Hl. cbn [negb].
  rewrite u32_small by lia. change (mc_mcaps (pc <| mc_cols_left := n |>)) with (mc_mcaps pc). rewrite C5. destruct (Z.eqb_spec n 0); [lia|]. unfold MY_MAX_COLUMNS.
  destruct (Z.ltb_spec 4096 n); [lia|]. cbn [orb]. cbv zeta. change (mc_cols_left (pc <| mc_cols_left := n |>)) with n. destruct (Z.eqb_spec n 0); [lia|]. cbn [negb andb].
  eexists. split; [|apply (in_reply_set dep MY_R_HEAD cols ts 0 0 sql pc MY_R_COLS n I)].
  match goal with |- context [mc_cols_left ?x =? 0] => change (mc_cols_left x) with n end. destruct (Z.eqb_spec n 0); [lia|]. reflexivity.
Qed.

Lemma def_step dep ts sql p c pc m k : in_reply dep MY_R_COLS k ts 0 0 sql pc -> is_def m -> 1 <= k ->
  exists pc', my_query_backend p c pc m = (p, pc') /\
    in_reply dep (if (k =? 1) && dep then MY_R_ROWS else MY_R_COLS) (k - 1) ts 0 0 sql pc'.
Proof.
  intros I Hm Hk. pose proof I as [H1 H2 H3 H4 [C1 C2 C3 C4 C5] H6]. unfold my_query_backend. rewrite H2. cbn [blind_ok negb]. rewrite andb_false_r.
  unfold reply_cols. assert ((head0 m =? 0xff) = false /\ (head0 m =? 0xfe) = false) as [-> ->].
  { unfold head0, m_body_cap, is_def in *. destruct (m_body m) as [|b r]; [done|]. destruct Hm as [Hm1 Hm2]. pose proof (zlen_nonneg r). rewrite zlen_cons.
    destruct (Z.eqb_spec (zlen r + 1) 0); [lia|]. change (znth (b :: r) 0) with b. split; by apply Z.eqb_neq. }
  cbn [andb]. cbv zeta. rewrite H4. destruct (Z.eqb_spec k 0); [lia|]. cbn [negb]. set (pc1 := pc <| mc_cols_left ::= _ |>).
  assert (in_reply dep MY_R_COLS (k - 1) ts 0 0 sql pc1) as I1. { split; try done. change (mc_cols_left pc - 1 = k - 1). by rewrite H4. }
  clearbody pc1. pose proof I1 as [_ _ _ E1 [D1 D2 _ _ _] _]. rewrite E1. unfold deprecate_eof. rewrite D1, D2. cbn [andb].
  assert ((k - 1 =? 0) = (k =? 1)) as -> by (destruct (Z.eqb_spec (k - 1) 0), (Z.eqb_spec k 1); done || lia).
  destruct (_ && _); eexists; (split; [reflexivity|]); [by eapply in_reply_reply|done].
Qed.

(** The connection is in such a reply. *)
Definition conn_in dep r cols ts fr n sql c : Prop := exists pc, c_proto_state c = Some pc /\ in_reply dep r cols ts fr n sql pc.
Definition sends (ms : list lk_msg) : list sink_call := map (CallMsg LK_DIR_SEND) ms.
Lemma on_send p c pc m : c_proto_state c = Some pc -> mc_phase pc = MY_PH_READY ->
  my_on_msg p c LK_DIR_SEND m = let '(p', pc') := my_query_backend (tally p LK_DIR_SEND m) c pc m in (p', put_state c (pc' <| mc_msgs ::= inc64 |>)).
Proof.
  intros Hs Hp. unfold my_on_msg, my_conn_get. rewrite Hs. unfold my_backend_msg. rewrite Hp. by destruct (my_query_backend _ _ _ _).
Qed.
Lemma in_reply_msgs dep r cols ts fr n sql pc g : in_reply dep r cols ts fr n sql pc -> in_reply dep r cols ts fr n sql (pc <| mc_msgs ::= g |>).
Proof. intros [H1 H2 H3 H4 [C1 C2 C3 C4 C5] H6]. split; try done. Qed.
(** A packet that moves the reply on silently. *)
Lemma silent_call dep r cols ts fr n sql dep' r' cols' ts' fr' n' sql' p c m : p_out p = rec_sink -> conn_in dep r cols ts fr n sql c ->
  (forall p c pc, in_reply dep r cols ts fr n sql pc -> exists pc', my_query_backend p c pc m = (p, pc') /\ in_reply dep' r' cols' ts' fr' n' sql' pc') ->
  exists p' c', call1 p c (CallMsg LK_DIR_SEND m) = (p', c') /\ said p [] p' /\ conn_in dep' r' cols' ts' fr' n' sql' c'.
Proof.
  intros H (pc & Hs & I) Hst. cbn [call1]. rewrite (on_send p c pc m Hs (ir_phase _ _ _ _ _ _ _ _ I)). destruct (Hst (tally p LK_DIR_SEND m) c pc I) as (pc' & E & I').
  rewrite E. eexists _, _. split; [reflexivity|]. split; [by apply tally_said|]. eexists. split; [reflexivity|]. by apply in_reply_msgs.
Qed.
Lemma my_calls_app (l1 l2 : list sink_call) : forall p c, calls p c (l1 ++ l2) = let '(p', c') := calls p c l1 in calls p' c' l2.
Proof. induction l1 as [|x l1 IH]; intros p c; [done|]. cbn [app calls]. destruct (call1 p c x) as [p1 c1]. apply IH. Qed.

Lemma defs_calls dep ts sql : forall ms p c, p_out p = rec_sink -> conn_in dep MY_R_COLS (zlen ms) ts 0 0 sql c -> ms <> [] -> Forall is_def ms ->
  exists p' c', calls p c (sends ms) = (p', c') /\ said p [] p' /\ conn_in dep (if dep then MY_R_ROWS else MY_R_COLS) 0 ts 0 0 sql c'.
Proof.
  induction ms as [|m ms IH]; intros p c H I Hne Hd; [done|]. inversion Hd as [|? ? Hm Hd']; subst. rewrite zlen_cons in I. pose proof (zlen_nonneg ms).
  destruct (silent_call _ _ _ _ _ _ _ _ _ _ _ _ _ _ p c m H I (fun p c pc I => def_step dep ts sql p c pc m _ I Hm ltac:(lia))) as (p1 & c1 & E & Hs & I1).
  cbn [sends map calls]. rewrite E. replace (zlen ms + 1 - 1) with (zlen ms) in I1 by lia. destruct ms as [|m' ms'].
  - exists p1, c1. split; [done|]. split; [done|]. change (zlen [] + 1 =? 1) with true in I1. by destruct dep.
  - assert ((zlen (m' :: ms') + 1 =? 1) = false) as E' by (apply Z.eqb_neq; rewrite zlen_cons in *; pose proof (zlen_nonneg ms'); lia). rewrite E' in I1.
    destruct (IH p1 c1 (proj1 Hs) I1) as (p2 & c2 & E2 & Hs2 & I2); [done|done|]. exists p2, c2. split; [done|]. split; [by apply (said_app p [] p1 [])|done].
Qed.
Lemma eof_head dep st m : is_eof dep st m -> (m_body_cap m =? 0) = false /\ head0 m = 0xfe /\ m_len m = (if dep then 7 else 5).
Proof.
  intros [Eb El]. unfold head0, m_body_cap. rewrite El, Eb. by destruct dep.
Qed.
Lemma meta_eof_step ts sql p c pc m st : in_reply false MY_R_COLS 0 ts 0 0 sql pc -> is_eof false st m -> final_status st ->
  exists pc', my_query_backend p c pc m = (p, pc') /\ in_reply false MY_R_ROWS 0 ts 0 0 sql pc'.
Proof.
  intros I Hm Hst. destruct (eof_head _ _ _ Hm) as (Ec & Eh & El). pose proof (parse_eof false st pc m Hm Hst) as Ep. cbn [negb] in Ep.
  unfold my_query_backend. rewrite (ir_reply _ _ _ _ _ _ _ _ I), Ec. cbn [andb]. unfold reply_cols. rewrite Eh, El. cbn [Z.eqb Z.ltb Z.compare Pos.eqb Pos.compare Pos.compare_cont andb].
  rewrite Ep. destruct Hst as (_ & _ & Hcur & _). cbn [ok_have_status ok_status andb]. rewrite Hcur. eexists. split; [reflexivity|]. by eapply in_reply_set.
Qed.

Lemma row_step dep ts fr n sql p c pc m : in_reply dep MY_R_ROWS 0 ts fr n sql pc -> is_def m -> 0 <= n < 2 ^ 64 - 1 ->
  exists pc', my_query_backend p c pc m = (p, pc') /\ in_reply dep MY_R_ROWS 0 ts (if fr =? 0 then m_ts_ns m else fr) (n + 1) sql pc'.
Proof.
  intros I Hm Hn. pose proof I as [H1 H2 H3 H4 [C1 C2 C3 C4 C5] [U1 U2 U3 U4 U5 U6 U7 U8 U9 U10]]. unfold my_query_backend. rewrite H2. cbn [blind_ok negb]. rewrite andb_false_r.
  unfold reply_rows. assert ((head0 m =? 0xff) = false /\ (head0 m =? 0xfe) = false) as [-> ->].
  { unfold head0, m_body_cap, is_def in *. destruct (m_body m) as [|b r]; [done|]. destruct Hm as [Hm1 Hm2]. pose proof (zlen_nonneg r). rewrite zlen_cons.
    destruct (Z.eqb_spec (zlen r + 1) 0); [lia|]. change (znth (b :: r) 0) with b. split; by apply Z.eqb_neq. }
  destruct (fe_terminator pc m) as [fe sh]. rewrite !andb_false_r. cbn [andb]. unfold count_row. rewrite H3. eexists. split; [reflexivity|].
  split; try done. split; try done.
  - change (mu_ts_first_row_ns _) with (if mu_ts_first_row_ns (mc_u pc) =? 0 then m_ts_ns m else mu_ts_first_row_ns (mc_u pc)). by rewrite U2.
  - change (inc64 (mu_rows (mc_u pc)) = n + 1). rewrite U3. unfold inc64. by rewrite u64_small by lia.
Qed.
Definition first_ts (fr : Z) (ms : list lk_msg) : Z := foldl (fun fr m => if fr =? 0 then m_ts_ns m else fr) fr ms.
Lemma rows_calls dep ts sql ms : forall fr n p c, p_out p = rec_sink -> conn_in dep MY_R_ROWS 0 ts fr n sql c -> Forall is_def ms -> 0 <= n -> n + zlen ms < 2 ^ 64 ->
  exists p' c', calls p c (sends ms) = (p', c') /\ said p [] p' /\ conn_in dep MY_R_ROWS 0 ts (first_ts fr ms) (n + zlen ms) sql c'.
Proof.
  induction ms as [|m ms IH]; intros fr n p c H I Hd Hn Hl. { exists p, c. split; [done|]. split; [by apply said_nil|]. change (zlen []) with 0. by rewrite Z.add_0_r. }
  inversion Hd as [|? ? Hm Hd']; subst. rewrite zlen_cons in *. pose proof (zlen_nonneg ms).
  destruct (silent_call _ _ _ _ _ _ _ _ _ _ _ _ _ _ p c m H I (fun p c pc I => row_step dep ts fr n sql p c pc m I Hm ltac:(lia))) as (p1 & c1 & E & Hs & I1).
  cbn [sends map calls]. rewrite E. destruct (IH _ _ p1 c1 (proj1 Hs) I1 Hd') as (p2 & c2 & E2 & Hs2 & I2); [lia|lia|]. exists p2, c2. split; [done|].
  split; [by apply (said_app p [] p1 [])|]. replace (n + (zlen ms + 1)) with (n + 1 + zlen ms) by lia. done.
Qed.

(** What the exchange reports. *)
Record select_obs (q fin : lk_msg) (rows : list lk_msg) (sql : list Z) (st : Z) (o : lk_query_obs) : Prop := SelectObs {
  so_start : o_ts_start_ns o = m_ts_ns q; so_first : o_ts_first_row_ns o = first_ts 0 rows; so_complete : o_ts_complete_ns o = m_ts_ns fin;
  so_ready : o_ts_ready_ns o = m_ts_ns fin; so_rows : o_rows o = zlen rows; so_text : o_text o = Some sql; so_kind : o_kind o = LK_Q_SIMPLE;
  so_flags : o_flags o = 0; so_txn : o_txn_status o = if has_flag st MY_ST_IN_TRANS then ch "T" else ch "I" }.

(** An OK-family terminator with a final status closes the open unit and reports it. *)
Record closes (m : lk_msg) (aff st : Z) pc (o : lk_query_obs) : Prop := Closes {
  cl_start : o_ts_start_ns o = mu_ts_start_ns (mc_u pc); cl_first : o_ts_first_row_ns o = mu_ts_first_row_ns (mc_u pc);
  cl_complete : o_ts_complete_ns o = m_ts_ns m; cl_ready : o_ts_ready_ns o = m_ts_ns m; cl_rows : o_rows o = u64 (mu_rows (mc_u pc) + aff);
  cl_text : o_text o = unit_text pc (mc_u pc); cl_kind : o_kind o = default (mu_kind (mc_u pc)) (mu_copy_kind (mc_u pc)); cl_flags : o_flags o = 0;
  cl_txn : o_txn_status o = if has_flag st MY_ST_IN_TRANS then ch "T" else ch "I" }.
Lemma terminator_emits p c pc m shape aff ins st wn : p_out p = rec_sink -> mc_phase pc = MY_PH_READY -> mc_unit_open pc = true ->
  mu_ncomplete (mc_u pc) = 0 -> mu_flags (mc_u pc) = 0 -> final_status st -> my_query_parse_ok pc m shape = (MyOk aff ins st wn true, pc) ->
  exists p' pc' evs o, terminator_ok p c pc m shape = (p', pc') /\ said p evs p' /\ queries evs = [o] /\ closes m aff st pc o.
Proof.
  intros H H1 H3 U5 U8 (Hr & Hmore & Hcur & Hsc) Ep. unfold terminator_ok. rewrite Ep.
  assert (exists pd sd, my_session_ok_effects pc = pc <| mc_session := sd |> <| mc_have_pending_db := pd |>) as (pd & sd & ->).
  { unfold my_session_ok_effects. destruct (mc_have_pending_db pc) eqn:E; [by eexists false, _|]. exists false, (mc_session pc). destruct pc; cbn in *; by subst. }
  set (pc1 := pc <| mc_session := sd |> <| mc_have_pending_db := pd |>). destruct (txn_track p c pc1 (MyOk aff ins st wn true) (m_ts_ns m)) as [p2 pc2] eqn:Et.
  destruct (txn_track_ok _ _ _ _ _ _ _ Et H) as (evs & Hs & Eq & a & b & E2).
  assert (b = if has_flag st MY_ST_IN_TRANS then ch "T" else ch "I") as Eb.
  { assert (mc_txn_status pc2 = b) as Eb by by subst pc2. rewrite <- Eb. unfold txn_track in Et. cbn [ok_have_status ok_status negb] in Et.
    destruct (_ && _); [by injection Et as <- <-|]. destruct (_ && _); by injection Et as <- <-. }
  assert (leave_infile pc2 = pc2) as ->. { assert (mc_phase pc2 = MY_PH_READY) as Eph by (by subst pc2). unfold leave_infile. by rewrite Eph. }
  cbn [ok_have_status ok_status ok_affected andb]. rewrite Hmore, Hcur. cbn [andb]. cbv zeta.
  assert (mc_unit_open pc2 = true) as Ho2 by by subst pc2. rewrite Ho2. cbn [negb].
  match goal with |- context [1 <? mu_ncomplete (mc_u ?x)] => set (pc3 := x) end.
  assert (mu_ncomplete (mc_u pc3) = 1) as En. { subst pc3 pc2. change (u32 (mu_ncomplete (mc_u pc) + 1) = 1). by rewrite U5. }
  rewrite En. change (1 <? 1) with false. cbv iota. set (pc4 := pc3 <| mc_reply := MY_R_NONE |>). unfold emit_unit.
  assert (mu_flags (mc_u pc4) = 0) as Ef by (subst pc4 pc3 pc2; exact U8). rewrite Ef. change (has_flag 0 LK_QO_ERROR) with false. cbv iota.
  eexists _, _, (evs ++ [UpQuery _ (unit_obs pc4)]), (unit_obs pc4). split; [reflexivity|]. split.
  { eapply said_app; [exact Hs|]. apply (said_app p2 [] (pbump p2 (fun s => s <| ps_queries ::= inc64 |>)) [_]); [apply said_bump, Hs|apply said_query, Hs]. }
  split; [by rewrite queries_app, Eq|]. unfold unit_obs. rewrite Ef. change (has_flag 0 LK_QO_ERROR) with false. cbv iota. unfold fill_text.
  subst pc4 pc3 pc2. split; first [reflexivity|exact Eb].
Qed.

Lemma final_step dep q sql p c pc m st rows : p_out p = rec_sink -> in_reply dep MY_R_ROWS 0 (m_ts_ns q) (first_ts 0 rows) (zlen rows) sql pc -> is_eof dep st m -> final_status st ->
  zlen rows < 2 ^ 64 -> sql <> [] ->
  exists p' pc' evs o, my_query_backend p c pc m = (p', pc') /\ said p evs p' /\ queries evs = [o] /\ select_obs q m rows sql st o.
Proof.
  intros H I Hm Hst Hl Hne. pose proof I as [H1 H2 H3 H4 [C1 C2 C3 C4 C5] [U1 U2 U3 U4 U5 U6 U7 U8 U9 U10]].
  destruct (eof_head _ _ _ Hm) as (Ec & Eh & El). pose proof (parse_eof dep st pc m Hm Hst) as Ep. unfold my_query_backend. rewrite H2, Ec. cbn [andb].
  unfold reply_rows. rewrite Eh, Ec. cbn [negb andb Z.eqb Pos.eqb].
  assert (fe_terminator pc m = (true, negb dep)) as ->. { unfold fe_terminator. rewrite C1, C2, El. by destruct dep. }
  destruct (terminator_emits p c pc m (negb dep) 0 0 st 0 H H1 H3 U5 U8 Hst Ep) as (p' & pc' & evs & o & E & Hs & Eq & [K1 K2 K3 K4 K5 K6 K7 K8 K9]).
  exists p', pc', evs, o. split; [done|]. split; [done|]. split; [done|].
  assert (unit_text pc (mc_u pc) = Some sql) as Etx.
  { unfold unit_text. rewrite U8, U9, U10. change (has_flag 0 LK_QO_NO_TEXT) with false. cbv iota.
    destruct (Z.eqb_spec (zlen sql) 0) as [E0|_]; [destruct sql; [done|]; rewrite zlen_cons in E0; pose proof (zlen_nonneg sql); lia|]. by destruct (mc_prep pc). }
  split; try congruence.
  - rewrite K5, U3, Z.add_0_r. pose proof (zlen_nonneg rows). by rewrite u64_small by lia.
  - by rewrite K7, U6, U7.
Qed.

(** The command. *)
Lemma tally_oom p d m : p_oom (tally p d m) = p_oom p.
Proof. unfold tally. by destruct (has_flag _ _). Qed.
Lemma query_call dep p c pc q sql : p_out p = rec_sink -> p_oom p = [] -> c_proto_state c = Some pc -> mc_phase pc = MY_PH_READY -> caps_are dep pc ->
  is_query sql q -> sql <> [] -> zlen sql <= LK_MSG_BODY_MAX ->
  exists p' c', call1 p c (CallMsg LK_DIR_RECV q) = (p', c') /\ said p [] p' /\ conn_in dep MY_R_HEAD (mc_cols_left pc) (m_ts_ns q) 0 0 sql c'.
Proof.
  intros H Ho Hs Hp [C1 C2 C3 C4 C5] (Et & Eb & Etr) Hne Hl. cbn [call1]. unfold my_on_msg, my_conn_get. rewrite Hs.
  pose proof (tally_said p LK_DIR_RECV q H) as Hs1. assert (p_oom (tally p LK_DIR_RECV q) = []) as Ho1 by by rewrite tally_oom.
  set (p1 := tally p LK_DIR_RECV q) in *. clearbody p1. cbv zeta. unfold my_frontend_msg. rewrite Hp. rewrite bool_decide_eq_false_2 by congruence.
  unfold my_frontend_cmd. rewrite Et. change (MY_COM_QUERY =? 0) with false. change (u8 MY_COM_QUERY) with MY_COM_QUERY. change (MY_COM_QUERY =? MY_COM_STMT_CLOSE) with false.
  change ((MY_COM_QUERY =? MY_COM_QUIT) || (MY_COM_QUERY =? MY_COM_STMT_SEND_LONG_DATA)) with false. cbv iota. unfold anchor.
  assert (exists b p2, drop_resync p1 pc = (p2, pc <| mc_unit_open := b |>) /\ said p1 [] p2 /\ p_oom p2 = []) as (b & p2 & Ed & Hs2 & Ho2).
  { unfold drop_resync, my_query_drop_unit. destruct (mc_unit_open pc) eqn:E; [exists false|exists false]; (eexists; split; [|split; [apply said_bump, Hs1|exact Ho1]]); [done|].
    f_equal. destruct pc; cbn in *; by subst. }
  rewrite Ed. set (pc2 := pc <| mc_unit_open := b |> <| mc_reply := MY_R_NONE |> <| mc_have_pending_db := false |> <| mc_pending_prep := false |>).
  unfold my_command. rewrite Et. change (u8 MY_COM_QUERY =? MY_COM_QUERY) with true. cbv iota zeta. unfold with_oom, my_query_simple. rewrite Ho2.
  set (pc3 := unit_open pc2 LK_Q_SIMPLE (m_ts_ns q) <| mc_reply := MY_R_HEAD |>). assert (query_text_off pc3 q = Some 1) as ->.
  { unfold query_text_off. change (mc_caps_known pc3) with (mc_caps_known pc). change (mc_caps pc3) with (mc_caps pc). by rewrite C1, C4. }
  rewrite Etr. assert (m_body_cap q = zlen sql + 1) as Ec by (unfold m_body_cap; by rewrite Eb, zlen_cons). rewrite Ec.
  assert (0 < zlen sql) as Hpos by (destruct sql; [done|]; rewrite zlen_cons; pose proof (zlen_nonneg sql); lia).
  destruct (Z.leb_spec (zlen sql + 1) 1); [lia|]. replace (zlen sql + 1 - 1) with (zlen sql) by lia. destruct (Z.ltb_spec LK_MSG_BODY_MAX (zlen sql)); [lia|].
  assert (ztake (zlen sql) (zdrop 1 (m_body q)) = sql) as Esql by (rewrite Eb; change (zdrop 1 (MY_COM_QUERY :: sql)) with sql; by rewrite ztake_all by lia). rewrite Esql.
  assert (exists u, own_grow (mc_u pc3) (zlen sql) [] = (true, u, []) /\ (u = mc_u pc3 \/ u = mc_u pc3 <| mu_own_cap := zlen sql |>)) as (u & Eg & Hu).
  { unfold own_grow. destruct (_ <? _); eexists; (split; [reflexivity|]); [by right|by left]. }
  cbv zeta. rewrite Eg. cbn [negb]. eexists _, _. split; [reflexivity|]. split.
  { apply (said_app p [] p1 []); [done|]. apply (said_app p1 [] p2 []); [done|]. apply said_nil; [apply Hs2|done|done]. }
  eexists. split; [reflexivity|]. split; try done. destruct Hu as [-> | ->]; split; done.
Qed.

(** C25: A resultset exchange is measured exactly.  On a connection in the command phase,
    with or without the metadata EOF, a COM_QUERY followed by its column count, its
    definitions, any rows (bodies captured or lost) and the terminator reports exactly
    one query: its text, the number of its rows, the times of the command, of the first
    row and of the terminator, and the transaction state the terminator announced. *)
Theorem my_select_exact p c pc dep q sql h defs meta rows fin st :
  p_out p = rec_sink -> p_oom p = [] -> c_proto_state c = Some pc -> mc_phase pc = MY_PH_READY -> caps_are dep pc ->
  is_query sql q -> sql <> [] -> zlen sql <= LK_MSG_BODY_MAX ->
  is_head (zlen defs) h -> defs <> [] -> zlen defs <= MY_MAX_COLUMNS -> Forall is_def defs ->
  (if dep then meta = [] else exists e st', meta = [e] /\ is_eof false st' e /\ final_status st') ->
  Forall is_def rows -> zlen rows < 2 ^ 64 -> is_eof dep st fin -> final_status st ->
  exists p' c' evs o, calls p c (CallMsg LK_DIR_RECV q :: sends (h :: defs ++ meta ++ rows ++ [fin])) = (p', c') /\
    p_up p' = p_up p ++ evs /\ queries evs = [o] /\ select_obs q fin rows sql st o.
Proof.
  intros H Ho Hs Hp Hc Hq Hne Hl Hh Hdn Hdl Hd Hm Hr Hrl Hf Hst. destruct (query_call dep p c pc q sql H Ho Hs Hp Hc Hq Hne Hl) as (p1 & c1 & E1 & S1 & I1).
  assert (0 < zlen defs) as Hpos by (destruct defs; [done|]; rewrite zlen_cons; pose proof (zlen_nonneg defs); lia).
  destruct (silent_call _ _ _ _ _ _ _ _ _ _ _ _ _ _ p1 c1 h (proj1 S1) I1 (fun p c pc I => head_step dep _ _ sql p c pc h (zlen defs) I Hh ltac:(lia))) as (p2 & c2 & E2 & S2 & I2).
  destruct (defs_calls dep _ sql defs p2 c2 (proj1 S2) I2 Hdn Hd) as (p3 & c3 & E3 & S3 & I3).
  assert (exists p4 c4, calls p3 c3 (sends meta) = (p4, c4) /\ said p3 [] p4 /\ conn_in dep MY_R_ROWS 0 (m_ts_ns q) 0 0 sql c4) as (p4 & c4 & E4 & S4 & I4).
  { destruct dep; [subst meta; exists p3, c3; split; [done|]; split; [apply said_nil; [apply S3|done|done]|done]|]. destruct Hm as (e & st' & -> & He & Hst').
    destruct (silent_call _ _ _ _ _ _ _ _ _ _ _ _ _ _ p3 c3 e (proj1 S3) I3 (fun p c pc I => meta_eof_step _ sql p c pc e st' I He Hst')) as (p4 & c4 & E4 & S4 & I4).
    exists p4, c4. split; [|done]. cbn [sends map calls]. by rewrite E4. }
  destruct (rows_calls dep _ sql rows 0 0 p4 c4 (proj1 S4) I4 Hr (Z.le_refl 0)) as (p5 & c5 & E5 & S5 & (pc5 & Hs5 & I5)); [lia|].
  pose proof (tally_said p5 LK_DIR_SEND fin (proj1 S5)) as S6.
  destruct (final_step dep q sql (tally p5 LK_DIR_SEND fin) c5 pc5 fin st rows (proj1 S6) I5 Hf Hst Hrl Hne) as (p7 & pc7 & evs & o & E7 & S7 & Eq & So).
  exists p7, (put_state c5 (pc7 <| mc_msgs ::= inc64 |>)), evs, o. split; [|split; [|done]].
  - cbn [calls]. rewrite E1. change (sends (h :: defs ++ meta ++ rows ++ [fin])) with (CallMsg LK_DIR_SEND h :: sends (defs ++ meta ++ rows ++ [fin])). cbn [calls]. rewrite E2.
    unfold sends in *. rewrite !map_app, my_calls_app, E3, my_calls_app, E4, my_calls_app, E5. cbn [map calls call1].
    by rewrite (on_send p5 c5 pc5 fin Hs5 (ir_phase _ _ _ _ _ _ _ _ I5)), E7.
  - rewrite (proj2 S7), (proj2 S6), (proj2 S5), (proj2 S4), (proj2 S3), (proj2 S2), (proj2 S1), !app_nil_r. done.
Qed.
End Exchange.

(** ** Witness *)
Definition w_caps : my_conn := my_conn0 <| mc_phase := MY_PH_READY |> <| mc_sess := MY_S_DONE |> <| mc_caps_known := true |>.
Definition w_my_msg (ts ty : Z) (body : list Z) : lk_msg := Msg ts ty 0 (zlen body) body.
Lemma my_select_exact_witness :
  exists p' c' evs o,
    calls (F:=unit) (Proto rec_sink [] pstats0 []) (conn0 1 <| c_proto_state := Some w_caps |>)
      (CallMsg LK_DIR_RECV (w_my_msg 10 MY_COM_QUERY (MY_COM_QUERY :: lit "SELECT 1")) ::
       sends (w_my_msg 11 0 [1] :: [w_my_msg 12 0 [3; 100; 101; 102]] ++ [w_my_msg 13 0 (eof_body false 2)] ++
              [w_my_msg 14 0 [1; 49]; w_my_msg 15 0 []] ++ [w_my_msg 16 0 (eof_body false 3)])) = (p', c') /\
    p_up p' = [] ++ evs /\ queries evs = [o] /\
    select_obs (w_my_msg 10 MY_COM_QUERY (MY_COM_QUERY :: lit "SELECT 1")) (w_my_msg 16 0 (eof_body false 3))
      [w_my_msg 14 0 [1; 49]; w_my_msg 15 0 []] (lit "SELECT 1") 3 o.
Proof.
  eapply (my_select_exact (F:=unit) (Proto rec_sink [] pstats0 []) (conn0 1 <| c_proto_state := Some w_caps |>) w_caps false
    (w_my_msg 10 MY_COM_QUERY (MY_COM_QUERY :: lit "SELECT 1")) (lit "SELECT 1") (w_my_msg 11 0 [1]) [w_my_msg 12 0 [3; 100; 101; 102]]
    [w_my_msg 13 0 (eof_body false 2)] [w_my_msg 14 0 [1; 49]; w_my_msg 15 0 []] (w_my_msg 16 0 (eof_body false 3)) 3);
    try reflexivity; try discriminate; try (vm_compute; discriminate).
  - split; reflexivity.
  - repeat split.
  - repeat constructor; discriminate.
  - eexists _, 2. split; [reflexivity|]. repeat split; discriminate.
  - repeat constructor; discriminate.
  - repeat split.
  - repeat split; discriminate.
Defined.
