(* ===== verification/MyStmt.v ===== *)
(** A prepared statement from PREPARE to the report of its execution. *)
From Stdlib Require Import Ascii String.
From stdpp Require Import base list.
From S2P Require Import Prelude Conn Proto MyConn MyQuery My MyOps MyReply MyHandler MyExchange.
#[local] Open Scope Z_scope.
Implicit Types (pc : my_conn) (u : my_unit) (k : my_prep_cache) (m : lk_msg) (w : my_wire).

(** ** The packets *)
Definition is_prepare (sql : list Z) m : Prop :=
  m_type m = MY_COM_STMT_PREPARE /\ m_body m = MY_COM_STMT_PREPARE :: sql /\ has_flag (m_flags m) LK_MSG_BODY_TRUNC = false.
Definition is_prepare_ok (id : Z) m : Prop := exists nc np rest, m_body m = 0 :: le_bytes 4 id ++ le_bytes 2 nc ++ le_bytes 2 np ++ rest.
Definition is_execute (id : Z) m : Prop := m_type m = MY_COM_STMT_EXECUTE /\ exists rest, m_body m = MY_COM_STMT_EXECUTE :: le_bytes 4 id ++ rest.
Definition is_ok (aff st : Z) m : Prop :=
  exists ins wn info, 0 <= ins < 2 ^ 64 /\ 0 <= wn < 2 ^ 16 /\ m_body m = 0 :: put_lenenc aff ++ put_lenenc ins ++ le_bytes 2 st ++ le_bytes 2 wn ++ info.

Lemma get_u32_at v r o : 0 <= v < 2 ^ 32 -> my_wire_get_u32 (MyWire (le_bytes 4 v ++ r) o) = (true, v, MyWire r o).
Proof.
  intros Hv. unfold my_wire_get_u32. rewrite get_int_app by done. f_equal. f_equal. etransitivity; [|exact (le_fold 4 v Hv)].
  change (le_bytes 4 v ++ r) with (v mod 256 :: v / 256 mod 256 :: v / 256 / 256 mod 256 :: v / 256 / 256 / 256 mod 256 :: r).
  unfold le32. cbn_znth. cbn [le_bytes foldr]. rewrite Z.shiftl_0_l, Z.lor_0_l.
  rewrite !Z.shiftl_lor, !Z.shiftl_shiftl by lia. reflexivity.
Qed.
Lemma get_u8_at b l o : my_wire_get_u8 (MyWire (b :: l) o) = (true, b, MyWire l o).
Proof. unfold my_wire_get_u8. by rewrite (get_int_app 1 _ [b] l o). Qed.
Lemma skip_at b l : my_wire_skip (MyWire (b :: l) false) 1 = (true, MyWire l false).
Proof.
  unfold my_wire_skip, my_wire_remaining, advance. cbn [mw_rest mw_overrun]. rewrite zlen_cons. pose proof (zlen_nonneg l). by destruct (Z.ltb_spec (zlen l + 1) 1); [lia|].
Qed.
Lemma parse_ok_packet aff st pc m : is_ok aff st m -> 0 <= aff < 2 ^ 64 -> final_status st ->
  exists ins wn, my_query_parse_ok pc m false = (MyOk aff ins st wn true, pc).
Proof.
  intros (ins & wn & info & Hi & Hw & Eb) Ha (Hst & _ & _ & Hsc). exists ins, wn. unfold my_query_parse_ok, my_wire_init. rewrite Eb.
  rewrite skip_at.
  cbn [negb]. rewrite lenenc_roundtrip by done. cbn [negb]. rewrite lenenc_roundtrip by done. cbn [negb]. rewrite !get_status by done. cbn [andb].
  by rewrite Hsc, andb_false_r.
Qed.

(** ** The cache after binding *)
Definition id_is (id : Z) (e : my_prep) : bool := me_used e && (me_stmt_id e =? id).
Lemma find_is P k s : cache_wf k -> slot_ok s -> P (prep_at k s) = true -> (forall s', 0 <= s' < s -> P (prep_at k s') = false) ->
  find_slot_from 0 P (mk_e k) = s.
Proof.
  intros W Hs Hp Hb. assert (forall j e, mk_e k !! j = Some e -> prep_at k (Z.of_nat j) = e) as Hat.
  { intros j e Hj. unfold prep_at. rewrite Nat2Z.id. by apply nth_lookup_Some. }
  destruct (find_spec P (mk_e k) 0) as [[_ Hf]|(j & e & -> & Hj & He & Ht)]; [lia| |].
  - exfalso. rewrite Forall_lookup in Hf. specialize (Hf _ _ (my_prep_at_lookup k s W Hs)). congruence.
  - rewrite Z.add_0_l. specialize (Hat j e Hj). destruct (Ztrichotomy (Z.of_nat j) s) as [Hlt|[Heq|Hgt]]; [|done|].
    + specialize (Hb (Z.of_nat j) ltac:(lia)). congruence.
    + exfalso. rewrite Forall_lookup in Ht. specialize (Ht (Z.to_nat s) (prep_at k s)). rewrite lookup_take_lt in Ht by (unfold slot_ok in Hs; lia).
      specialize (Ht (my_prep_at_lookup k s W Hs)). congruence.
Qed.
Lemma find_before P k s' : cache_wf k -> slot_ok s' -> (find_slot_from 0 P (mk_e k) < 0 \/ s' < find_slot_from 0 P (mk_e k)) -> P (prep_at k s') = false.
Proof.
  intros W Hs Hlt. destruct (find_spec P (mk_e k) 0) as [[_ Hf]|(j & e & E & Hj & He & Ht)]; [lia| |].
  - rewrite Forall_lookup in Hf. exact (Hf _ _ (my_prep_at_lookup k s' W Hs)).
  - rewrite Forall_lookup in Ht. apply (Ht (Z.to_nat s')). unfold slot_ok in Hs. rewrite lookup_take_lt by lia. by apply my_prep_at_lookup.
Qed.
Lemma bind_finds st pc k id st' pc' oom' :
  bind_pending st pc k id [] = (st', pc', oom') -> my_wf pc -> cache_wf k -> mc_prep pc = Some k \/ mc_prep pc = None ->
  exists k', mc_prep pc' = Some k' /\ slot_ok (find_by_id k' id) /\ me_used (prep_at k' (find_by_id k' id)) = true /\
    me_trunc (prep_at k' (find_by_id k' id)) = mc_pending_trunc pc /\ me_text (prep_at k' (find_by_id k' id)) = mc_pending_text pc.
Proof.
  intros E W Hk Hp. destruct (bind_ok _ _ _ _ _ _ _ _ E W Hk Hp) as (_ & k' & Ek & Hk' & slot & Hs & Esl & Hu & Hid & Htr & Htx & Hot).
  exists k'. split; [done|]. assert (find_by_id k' id = slot) as ->; [|by auto].
  apply (find_is (id_is id)); [done|done|unfold id_is; by rewrite Hu, Hid, Z.eqb_refl|].
  intros s' Hs'. assert (slot_ok s') as Hok by (unfold slot_ok in *; lia). rewrite Hot by (done || lia). apply find_before; [done|done|].
  unfold bind_slot, find_by_id in Esl. destruct (Z.ltb_spec (find_slot_from 0 (id_is id) (mk_e k)) 0) as [Hn|Hn]; [by left|right].
  unfold id_is in Hn at 1. rewrite (proj2 (Z.ltb_ge _ _) Hn) in Esl. cbn [fst] in Esl. unfold id_is. lia.
Qed.
(** Binding touches the unit's text, the cache and the allocator only. *)
Lemma bind_frame st pc k id st' pc' oom' : bind_pending st pc k id [] = (st', pc', oom') ->
  oom' = [] /\ mc_unit_open pc' = mc_unit_open pc /\ mc_phase pc' = mc_phase pc /\ mc_reply pc' = mc_reply pc.
Proof.
  intros E. unfold bind_pending in E. destruct (if _ <? 0 then _ else _) as [[slot st1] k1].
  destruct (my_query_rescue_ref pc slot (prep_at k1 slot) []) as [pc1 oom1] eqn:Er.
  assert (oom1 = [] /\ exists u, pc1 = pc <| mc_u := u |>) as [-> [u ->]].
  { unfold my_query_rescue_ref, own_grow in Er. destruct (_ || _); [injection Er as <- <-; split; [done|]; exists (mc_u pc); by destruct pc|].
    destruct (negb _); [destruct (_ <? _)|]; injection Er as <- <-; split; eauto. }
  unfold fill_slot in E. cbn [alloc] in E. destruct (_ <? _); injection E as <- <- <-; done.
Qed.

Section Stmt.
Context {F : Type}.
Abbreviation proto := (lk_proto (list my_up) my_conn F).
Implicit Types (p : proto) (c : lk_conn my_conn F).

(** A command on a connection in the command phase. *)
Lemma on_command p c pc m : c_proto_state c = Some pc -> mc_phase pc = MY_PH_READY ->
  call1 p c (CallMsg LK_DIR_RECV m) =
    let '(p', c', pc') := my_frontend_cmd (tally p LK_DIR_RECV m) c pc m in (p', put_state c' (pc' <| mc_msgs ::= inc64 |>)).
Proof. intros Hs Hp. cbn [call1]. unfold my_on_msg, my_conn_get. rewrite Hs. unfold my_frontend_msg. by rewrite Hp, bool_decide_eq_false_2 by congruence. Qed.
Lemma anchor_ok p pc : p_out p = rec_sink -> my_wf pc -> exists p' pc', anchor p pc = (p', pc') /\ said p [] p' /\ p_oom p' = p_oom p /\
  my_wf pc' /\ mc_unit_open pc' = false /\ mc_phase pc' = mc_phase pc /\ mc_prep pc' = mc_prep pc /\ mc_reply pc' = MY_R_NONE.
Proof.
  intros H W. unfold anchor. destruct (drop_resync_good p pc H W) as (Hd & W1 & Hop & _ & _).
  assert (p_oom (drop_resync p pc).1 = p_oom p) as Ho by (unfold drop_resync; by destruct (my_query_drop_unit pc)).
  assert (mc_phase (drop_resync p pc).2 = mc_phase pc /\ mc_prep (drop_resync p pc).2 = mc_prep pc) as (E1 & E2)
    by (unfold drop_resync, my_query_drop_unit; by destruct (mc_unit_open pc)).
  destruct (drop_resync p pc) as [p1 pc1]. cbn [fst snd] in *. eexists _, _. split; [reflexivity|]. do 2 (split; [done|]). split; [wf_keep W1|done].
Qed.

(** The statement [id] is cached with text [sql], nothing is in flight. *)
Record has_stmt (id : Z) (sql : list Z) pc : Prop := HasStmt {
  hs_wf : my_wf pc; hs_phase : mc_phase pc = MY_PH_READY; hs_open : mc_unit_open pc = false;
  hs_reply : mc_reply pc = MY_R_NONE \/ mc_reply pc = MY_R_PREP_META;
  hs_entry : exists k, mc_prep pc = Some k /\ slot_ok (find_by_id k id) /\ me_used (prep_at k (find_by_id k id)) = true /\
    me_trunc (prep_at k (find_by_id k id)) = false /\ me_text (prep_at k (find_by_id k id)) = sql }.
Record pends (sql : list Z) pc : Prop := Pends {
  pe_wf : my_wf pc; pe_phase : mc_phase pc = MY_PH_READY; pe_open : mc_unit_open pc = false; pe_reply : mc_reply pc = MY_R_PREPARE_OK;
  pe_prep : mc_pending_prep pc = true; pe_trunc : mc_pending_trunc pc = false; pe_text : mc_pending_text pc = sql }.

Lemma prepare_call p c pc m sql : p_out p = rec_sink -> p_oom p = [] -> c_proto_state c = Some pc -> my_wf pc -> mc_phase pc = MY_PH_READY ->
  is_prepare sql m -> zlen sql <= LK_MSG_BODY_MAX ->
  exists p' c' pc', call1 p c (CallMsg LK_DIR_RECV m) = (p', c') /\ said p [] p' /\ p_oom p' = [] /\ c_proto_state c' = Some pc' /\ pends sql pc'.
Proof.
  intros H Ho Hs W Hp (Et & Eb & Etr) Hl. rewrite (on_command p c pc m Hs Hp). pose proof (tally_said p LK_DIR_RECV m H) as Hs1.
  assert (p_oom (tally p LK_DIR_RECV m) = []) as Ho1 by by rewrite tally_oom. set (p1 := tally p LK_DIR_RECV m) in *. clearbody p1.
  unfold my_frontend_cmd. rewrite Et. change (MY_COM_STMT_PREPARE =? 0) with false. cbv iota zeta. change (u8 MY_COM_STMT_PREPARE) with MY_COM_STMT_PREPARE.
  change (MY_COM_STMT_PREPARE =? MY_COM_STMT_CLOSE) with false. change ((MY_COM_STMT_PREPARE =? MY_COM_QUIT) || _) with false. cbv iota.
  destruct (anchor_ok p1 pc (proj1 Hs1) W) as (p2 & pc2 & -> & Hs2 & Ho2 & W2 & Hop & Hph & _). rewrite Ho1 in Ho2.
  unfold my_command. rewrite Et. change (u8 MY_COM_STMT_PREPARE) with MY_COM_STMT_PREPARE. cbv zeta.
  change (MY_COM_STMT_PREPARE =? MY_COM_QUERY) with false. change (MY_COM_STMT_PREPARE =? MY_COM_STMT_PREPARE) with true. cbv iota. unfold with_oom. rewrite Ho2.
  pose proof (prepare_wf pc2 m [] W2) as W3. destruct (my_prep_prepare pc2 m []) as [pc3 oom3] eqn:Ep. cbn [fst] in W3.
  assert (oom3 = [] /\ mc_phase pc3 = MY_PH_READY /\ mc_unit_open pc3 = false /\ mc_reply pc3 = MY_R_PREPARE_OK /\ mc_pending_prep pc3 = true /\
    mc_pending_trunc pc3 = false /\ mc_pending_text pc3 = sql) as (-> & E1 & E2 & E3 & E4 & E5 & E6).
  { clear W3. unfold my_prep_prepare in Ep. assert (m_body_cap m = zlen sql + 1) as Ec by (unfold m_body_cap; by rewrite Eb, zlen_cons). rewrite Ec, Etr in Ep. pose proof (zlen_nonneg sql).
    replace (if 1 <? zlen sql + 1 then zlen sql + 1 - 1 else 0) with (zlen sql) in Ep by (destruct (Z.ltb_spec 1 (zlen sql + 1)); lia).
    destruct (Z.ltb_spec LK_MSG_BODY_MAX (zlen sql)); [lia|]. rewrite Eb in Ep. change (zdrop 1 (_ :: sql)) with sql in Ep. rewrite ztake_all in Ep by lia. cbv zeta in Ep. cbn [alloc] in Ep.
    rewrite Hp in Hph. destruct (_ <? _); injection Ep as <- <-; done. }
  eexists _, _, _. split; [reflexivity|]. split; [apply (said_app p [] p1 []); [done|]; apply (said_app p1 [] p2 []); [done|]; apply said_nil; [apply Hs2|done|done]|].
  split; [done|]. split; [reflexivity|]. split; try done. wf_keep W3.
Qed.

Lemma prepare_ok_step p c pc m id sql : p_oom p = [] -> pends sql pc -> is_prepare_ok id m -> 0 <= id < 2 ^ 32 ->
  exists p' pc', my_query_backend p c pc m = (p', pc') /\ p_out p' = p_out p /\ p_up p' = p_up p /\ p_oom p' = [] /\ has_stmt id sql pc'.
Proof.
  intros Ho [W Hp Hop Hr Hpp Htr Htx] (nc & np & rest & Eb) Hid. unfold my_query_backend. rewrite Hr.
  assert ((m_body_cap m =? 0) = false) as -> by (unfold m_body_cap; rewrite Eb; apply Z.eqb_neq; rewrite zlen_cons; pose proof (zlen_nonneg (le_bytes 4 id ++ le_bytes 2 nc ++ le_bytes 2 np ++ rest)); lia).
  cbn [andb]. unfold my_prep_ok, my_wire_init. rewrite Eb. rewrite get_u8_at.
  cbn [negb Z.eqb]. cbv zeta. rewrite get_u32_at by done. cbv iota beta.
  assert (forall v r, exists x, my_wire_get_u16 (MyWire (le_bytes 2 v ++ r) false) = (true, x, MyWire r false)) as Hg by (intros v r; eexists; unfold my_wire_get_u16; by rewrite get_int_app).
  destruct (Hg nc (le_bytes 2 np ++ rest)) as [ncv ->]. destruct (Hg np rest) as [npv ->]. cbn [andb negb]. clear Hg.
  set (pc1 := prep_meta _ _). assert (my_wf pc1 /\ mc_phase pc1 = MY_PH_READY /\ mc_unit_open pc1 = false /\ (mc_reply pc1 = MY_R_NONE \/ mc_reply pc1 = MY_R_PREP_META) /\
    mc_pending_prep pc1 = true /\ mc_pending_trunc pc1 = false /\ mc_pending_text pc1 = sql) as (W1 & E1 & E2 & E3 & E4 & E5 & E6).
  { subst pc1. unfold prep_meta. destruct (negb _); (split; [wf_keep W|]; split_and!; try done; by (left + right)). }
  clearbody pc1. unfold prep_store. rewrite E4. cbn [negb]. set (pc2 := pc1 <| mc_pending_prep := false |>). assert (my_wf pc2) as W2 by wf_keep W1.
  assert (forall k, cache_wf k -> mc_prep pc2 = Some k \/ mc_prep pc2 = None -> exists p' pc',
    (let '(st, pc, oom) := bind_pending (p_st p) pc2 k id [] in (p <| p_st := st |> <| p_oom := oom |>, pc)) = (p', pc') /\
    p_out p' = p_out p /\ p_up p' = p_up p /\ p_oom p' = [] /\ has_stmt id sql pc') as Hb.
  { intros k Hk Hk'. destruct (bind_pending (p_st p) pc2 k id []) as [[st' pc'] oom'] eqn:E. destruct (bind_frame _ _ _ _ _ _ _ E) as (-> & F1 & F2 & F3).
    destruct (bind_ok _ _ _ _ _ _ _ _ E W2 Hk Hk') as [W3 _]. destruct (bind_finds _ _ _ _ _ _ _ E W2 Hk Hk') as (k' & K1 & K2 & K3 & K4 & K5).
    eexists _, _. split; [reflexivity|]. do 3 (split; [done|]). split; [done|by rewrite F2|by rewrite F1|by rewrite F3|]. exists k'. split_and!; try done; [by rewrite K4|by rewrite K5]. }
  destruct (mc_prep pc2) as [k|] eqn:Ek.
  - rewrite Ho. apply Hb; [by apply (mw_cache _ W2)|by left].
  - rewrite Ho. cbn [alloc negb]. apply Hb; [apply my_cache0_wf|by right].
Qed.

(** Whatever follows the PREPARE reply until the next command is skipped. *)
Lemma meta_step p c pc m id sql : has_stmt id sql pc -> exists pc', my_query_backend p c pc m = (p, pc') /\ has_stmt id sql pc'.
Proof.
  intros [W Hp Hop Hr He]. unfold my_query_backend. destruct Hr as [Hr|Hr]; rewrite Hr; cbn [blind_ok negb]; rewrite ?andb_false_r.
  - exists pc. split; [done|]. split; try done. by left.
  - unfold reply_prep_meta. destruct (_ && _); [exists pc; split; [done|]; split; try done; by right|]. cbv zeta.
    destruct (negb (mc_meta_left pc =? 0)); (destruct (_ =? 0); eexists; (split; [reflexivity|]); (split; [wf_keep W|done|done|by (left + right)|done])).
Qed.
Lemma has_stmt_msgs id sql pc g : has_stmt id sql pc -> has_stmt id sql (pc <| mc_msgs ::= g |>).
Proof. intros [W Hp Hop Hr He]. split; try done. wf_keep W. Qed.
Lemma metas_calls id sql ms : forall p c pc, p_out p = rec_sink -> p_oom p = [] -> c_proto_state c = Some pc -> has_stmt id sql pc ->
  exists p' c' pc', calls p c (sends ms) = (p', c') /\ said p [] p' /\ p_oom p' = [] /\ c_proto_state c' = Some pc' /\ has_stmt id sql pc'.
Proof.
  induction ms as [|m ms IH]; intros p c pc H Ho Hs Hst. { exists p, c, pc. split; [done|]. split; [by apply said_nil|done]. }
  cbn [sends map calls call1]. rewrite (on_send p c pc m Hs (hs_phase _ _ _ Hst)). pose proof (tally_said p LK_DIR_SEND m H) as Hs1.
  destruct (meta_step (tally p LK_DIR_SEND m) c pc m id sql Hst) as (pc1 & -> & Hst1).
  destruct (IH (tally p LK_DIR_SEND m) (put_state c (pc1 <| mc_msgs ::= inc64 |>)) (pc1 <| mc_msgs ::= inc64 |>)) as (p2 & c2 & pc2 & E & Hs2 & R);
    [apply Hs1|by rewrite tally_oom|done|by apply has_stmt_msgs|]. exists p2, c2, pc2. split; [done|]. split; [by apply (said_app p [] (tally p LK_DIR_SEND m) [])|done].
Qed.

(** The unit of an execution: it refers to the cached text. *)
Record executes (ts : Z) (sql : list Z) pc : Prop := Executes {
  xc_phase : mc_phase pc = MY_PH_READY; xc_open : mc_unit_open pc = true; xc_reply : mc_reply pc = MY_R_HEAD;
  xc_nc : mu_ncomplete (mc_u pc) = 0; xc_flags : mu_flags (mc_u pc) = 0; xc_start : mu_ts_start_ns (mc_u pc) = ts; xc_first : mu_ts_first_row_ns (mc_u pc) = 0;
  xc_rows : mu_rows (mc_u pc) = 0; xc_kind : default (mu_kind (mc_u pc)) (mu_copy_kind (mc_u pc)) = LK_Q_EXTENDED; xc_text : unit_text pc (mc_u pc) = Some sql }.
Lemma execute_opens pc m id sql : has_stmt id sql pc -> is_execute id m -> 0 <= id < 2 ^ 32 -> sql <> [] -> executes (m_ts_ns m) sql (my_query_execute pc m).
Proof.
  intros [W Hp Hop Hr (k & Ek & Hs & Hu & Htr & Htx)] (_ & rest & Eb) Hid Hne. unfold my_query_execute, open_stmt_unit, my_wire_init.
  rewrite Eb, skip_at, get_u32_at by done. cbn [andb negb]. unfold my_prep_lookup. change (mc_prep (unit_open pc LK_Q_EXTENDED (m_ts_ns m))) with (mc_prep pc). rewrite Ek.
  set (slot := find_by_id k id) in *. cbv zeta. destruct (Z.ltb_spec slot 0); [unfold slot_ok in Hs; lia|]. set (clock := u64 _).
  set (k1 := k <| mk_clock := clock |>). assert (cache_wf k1) as Hk1 by (apply (cache_keep k); [done|by apply (mw_cache _ W)]).
  set (k2 := prep_put k1 slot _). assert (prep_at k2 slot = prep_at k slot <| me_lru := clock |>) as Eat by (subst k2; rewrite prep_at_put, Z.eqb_refl by done; done).
  rewrite Eat. change (me_trunc (prep_at k slot <| me_lru := clock |>)) with (me_trunc (prep_at k slot)). rewrite Htr. split; try done.
  unfold unit_text. match goal with |- context [mu_flags ?x] => change (mu_flags x) with 0 end. change (has_flag 0 LK_QO_NO_TEXT) with false. cbv iota.
  match goal with |- context [mc_prep ?x] => change (mc_prep x) with (Some k2) end. cbv iota beta.
  match goal with |- context [mu_prep_idx ?x] => change (mu_prep_idx x) with slot; change (mu_prep_gen x) with (me_gen (prep_at k slot)) end.
  destruct (Z.leb_spec 0 slot); [|lia]. rewrite Eat. change (me_used (_ <| me_lru := clock |>)) with (me_used (prep_at k slot)).
  change (me_gen (_ <| me_lru := clock |>)) with (me_gen (prep_at k slot)). change (me_text (_ <| me_lru := clock |>)) with (me_text (prep_at k slot)).
  rewrite Hu, Z.eqb_refl, Htx. destruct (Z.eqb_spec (zlen sql) 0) as [E0|_]; [destruct sql; [done|]; rewrite zlen_cons in E0; pose proof (zlen_nonneg sql); lia|done].
Qed.
Lemma execute_call p c pc m id sql : p_out p = rec_sink -> c_proto_state c = Some pc -> has_stmt id sql pc -> is_execute id m -> 0 <= id < 2 ^ 32 -> sql <> [] ->
  exists p' c' pc', call1 p c (CallMsg LK_DIR_RECV m) = (p', c') /\ said p [] p' /\ c_proto_state c' = Some pc' /\ executes (m_ts_ns m) sql pc'.
Proof.
  intros H Hs Hst Hm Hid Hne. pose proof Hst as [W Hp Hop Hr He]. pose proof Hm as [Et _]. rewrite (on_command p c pc m Hs Hp). pose proof (tally_said p LK_DIR_RECV m H) as Hs1.
  set (p1 := tally p LK_DIR_RECV m) in *. clearbody p1. unfold my_frontend_cmd. rewrite Et. change (MY_COM_STMT_EXECUTE =? 0) with false. cbv iota zeta.
  change (u8 MY_COM_STMT_EXECUTE) with MY_COM_STMT_EXECUTE. change (MY_COM_STMT_EXECUTE =? MY_COM_STMT_CLOSE) with false.
  change ((MY_COM_STMT_EXECUTE =? MY_COM_QUIT) || _) with false. cbv iota. destruct (anchor_ok p1 pc (proj1 Hs1) W) as (p2 & pc2 & -> & Hs2 & Ho2 & W2 & Hop2 & Hph2 & Epr & Er2).
  unfold my_command. rewrite Et. change (u8 MY_COM_STMT_EXECUTE) with MY_COM_STMT_EXECUTE. cbv zeta. change (MY_COM_STMT_EXECUTE =? MY_COM_QUERY) with false.
  change (MY_COM_STMT_EXECUTE =? MY_COM_STMT_PREPARE) with false. change ((MY_COM_STMT_EXECUTE =? MY_COM_STMT_EXECUTE) || _) with true. cbv iota.
  assert (has_stmt id sql pc2) as Hst2 by (split; [done|congruence|done|by left|]; destruct He as (k & Ek & R); exists k; by rewrite Epr).
  pose proof (execute_opens _ _ _ _ Hst2 Hm Hid Hne) as [X1 X2 X3 X4 X5 X6 X7 X8 X9 X10].
  eexists _, _, _. split; [reflexivity|]. split; [by apply (said_app p [] p1 [])|]. split; [reflexivity|]. split; done.
Qed.

(** C21: Prepared statements keep their text.  On a connection in the command phase, a
    PREPARE, its reply with any statement id, any metadata packets after it, an EXECUTE
    of that id and the server's OK report exactly one query: the text of the PREPARE,
    the affected rows of the OK, from the EXECUTE to the OK, whatever was cached before
    (an entry of the same id, or a full cache). *)
Theorem my_execute_text p c pc q sql h id metas x aff st fin :
  p_out p = rec_sink -> p_oom p = [] -> c_proto_state c = Some pc -> my_wf pc -> mc_phase pc = MY_PH_READY ->
  is_prepare sql q -> sql <> [] -> zlen sql <= LK_MSG_BODY_MAX -> is_prepare_ok id h -> 0 <= id < 2 ^ 32 -> is_execute id x ->
  is_ok aff st fin -> 0 <= aff < 2 ^ 64 -> final_status st ->
  exists p' c' evs o,
    calls p c (CallMsg LK_DIR_RECV q :: sends (h :: metas) ++ [CallMsg LK_DIR_RECV x; CallMsg LK_DIR_SEND fin]) = (p', c') /\
    p_up p' = p_up p ++ evs /\ queries evs = [o] /\ o_text o = Some sql /\ o_kind o = LK_Q_EXTENDED /\ o_rows o = aff /\ o_flags o = 0 /\
    o_ts_start_ns o = m_ts_ns x /\ o_ts_complete_ns o = m_ts_ns fin /\ o_txn_status o = (if has_flag st MY_ST_IN_TRANS then ch "T" else ch "I").
Proof.
  intros H Ho Hs W Hp Hq Hne Hl Hh Hid Hx Hf Ha Hst. destruct (prepare_call p c pc q sql H Ho Hs W Hp Hq Hl) as (p1 & c1 & pc1 & E1 & S1 & O1 & T1 & P1).
  pose proof (tally_said p1 LK_DIR_SEND h (proj1 S1)) as S1'.
  destruct (prepare_ok_step (tally p1 LK_DIR_SEND h) c1 pc1 h id sql) as (p2 & pc2 & E2 & Q1 & Q2 & O2 & G2); [by rewrite tally_oom|done|done|done|].
  assert (said p1 [] p2) as S2. { destruct S1' as [A B]. split; [by rewrite Q1|by rewrite Q2, B]. }
  destruct (metas_calls id sql metas p2 (put_state c1 (pc2 <| mc_msgs ::= inc64 |>)) (pc2 <| mc_msgs ::= inc64 |>)) as (p3 & c3 & pc3 & E3 & S3 & O3 & T3 & G3);
    [apply S2|done|done|by apply has_stmt_msgs|].
  destruct (execute_call p3 c3 pc3 x id sql (proj1 S3) T3 G3 Hx Hid Hne) as (p4 & c4 & pc4 & E4 & S4 & T4 & [X1 X2 X3 X4 X5 X6 X7 X8 X9 X10]).
  pose proof (tally_said p4 LK_DIR_SEND fin (proj1 S4)) as S5. destruct (parse_ok_packet aff st pc4 fin Hf Ha Hst) as (ins & wn & Ep).
  destruct (terminator_emits (tally p4 LK_DIR_SEND fin) c4 pc4 fin false aff ins st wn (proj1 S5) X1 X2 X4 X5 Hst Ep) as (p6 & pc6 & evs & o & E6 & S6 & Eq & [K1 K2 K3 K4 K5 K6 K7 K8 K9]).
  exists p6, (put_state c4 (pc6 <| mc_msgs ::= inc64 |>)), evs, o. split.
  - cbn [calls]. rewrite E1. change (sends (h :: metas)) with (CallMsg LK_DIR_SEND h :: sends metas). cbn [app calls call1].
    rewrite (on_send p1 c1 pc1 h T1 (pe_phase _ _ P1)), E2. rewrite my_calls_app, E3. cbn [calls]. rewrite E4. cbn [call1]. rewrite (on_send p4 c4 pc4 fin T4 X1).
    unfold my_query_backend. rewrite X3. destruct Hf as (? & ? & ? & _ & _ & Eb).
    assert ((m_body_cap fin =? 0) = false) as -> by (unfold m_body_cap; rewrite Eb, zlen_cons; apply Z.eqb_neq; match goal with |- zlen ?l + 1 <> 0 => pose proof (zlen_nonneg l) end; lia).
    cbn [andb]. unfold reply_head. rewrite Eb. change (znth (0 :: _) 0) with 0. change (0 =? 0) with true. cbv iota. by rewrite E6.
  - split; [by rewrite (proj2 S6), (proj2 S5), (proj2 S4), (proj2 S3), (proj2 S2), (proj2 S1), !app_nil_r|].
    split_and!; try congruence. rewrite K5, X8. by rewrite u64_small by lia.
Qed.
End Stmt.

(** ** Witness *)
Definition w_prepare := w_my_msg 10 MY_COM_STMT_PREPARE (MY_COM_STMT_PREPARE :: lit "DELETE FROM t").
Definition w_prepare_ok := w_my_msg 11 0 (0 :: le_bytes 4 7 ++ le_bytes 2 0 ++ le_bytes 2 1 ++ [0; 0; 0]).
Definition w_metas := [w_my_msg 12 0 [3; 100; 101; 102]; w_my_msg 13 0 (eof_body false 2)].
Definition w_execute := w_my_msg 20 MY_COM_STMT_EXECUTE (MY_COM_STMT_EXECUTE :: le_bytes 4 7 ++ [0; 1; 0; 0; 0]).
Definition w_done := w_my_msg 21 0 (0 :: put_lenenc 300 ++ put_lenenc 0 ++ le_bytes 2 2 ++ le_bytes 2 0 ++ []).
Definition w_stmt_proto : lk_proto (list my_up) my_conn unit := Proto rec_sink [] pstats0 [].
Definition w_stmt_conn : lk_conn my_conn unit := conn0 1 <| c_proto_state := Some w_caps |>.
Lemma my_execute_text_witness :
  exists p' c' evs o,
    calls w_stmt_proto w_stmt_conn (CallMsg LK_DIR_RECV w_prepare :: sends (w_prepare_ok :: w_metas) ++ [CallMsg LK_DIR_RECV w_execute; CallMsg LK_DIR_SEND w_done]) = (p', c') /\
    p_up p' = p_up w_stmt_proto ++ evs /\ queries evs = [o] /\ o_text o = Some (lit "DELETE FROM t") /\ o_kind o = LK_Q_EXTENDED /\ o_rows o = 300 /\ o_flags o = 0 /\
    o_ts_start_ns o = m_ts_ns w_execute /\ o_ts_complete_ns o = m_ts_ns w_done /\ o_txn_status o = (if has_flag 2 MY_ST_IN_TRANS then ch "T" else ch "I").
Proof.
  apply (my_execute_text w_stmt_proto w_stmt_conn w_caps w_prepare (lit "DELETE FROM t") w_prepare_ok 7 w_metas w_execute 300 2 w_done).
  - reflexivity.
  - reflexivity.
  - reflexivity.
  - pose proof my_conn0_wf as W. wf_keep W.
  - reflexivity.
  - repeat split.
  - discriminate.
  - vm_compute. discriminate.
  - exists 0, 1, [0; 0; 0]. reflexivity.
  - lia.
  - split; [reflexivity|]. exists [0; 1; 0; 0; 0]. reflexivity.
  - exists 0, 0, []. split; [lia|]. split; [lia|reflexivity].
  - lia.
  - split; [lia|]. repeat split.
Defined.
