(* ===== verification/MyOpaque.v ===== *)
(** What the MySQL handler never looks at: authentication data, statement parameters,
    row contents and LOAD DATA payload. *)
From Stdlib Require Import Ascii String.
From stdpp Require Import base list.
From S2P Require Import Prelude Conn Proto MyConn MyQuery My MyOps MyReply MyHandler MyExchange MyStmt.
#[local] Open Scope Z_scope.
Implicit Types (pc : my_conn) (m : lk_msg) (w : my_wire).

(** ** Packets that differ in a secret *)
Definition same_frame m m' : Prop := m_ts_ns m = m_ts_ns m' /\ m_type m = m_type m' /\ m_flags m = m_flags m' /\ m_len m = m_len m'.
(** The length of the auth response as the capabilities encode it. *)
Definition auth_len (caps n : Z) : list Z := if has_flag caps MY_CAP_PLUGIN_AUTH_LENENC then put_lenenc n else [n].
Definition auth_fits (caps n : Z) : Prop := if has_flag caps MY_CAP_PLUGIN_AUTH_LENENC then 0 <= n < 2 ^ 32 else 0 <= n < 256.
(** The packets of one body shape [pre ++ secret ++ post], the secret of a fixed length. *)
Definition differ_in (pre : list Z) (n : Z) (post : list Z) m m' : Prop :=
  exists s s', zlen s = n /\ zlen s' = n /\ m_body m = pre ++ s ++ post /\ m_body m' = pre ++ s' ++ post.
(** HandshakeResponse41 up to its auth response: capabilities, packet size, charset,
    filler, extended capabilities, user, length. *)
Definition response_head (caps : Z) (size : list Z) (charset : Z) (filler : list Z) (mcaps : Z) (user : list Z) (n : Z) : list Z :=
  le_bytes 4 caps ++ size ++ charset :: filler ++ le_bytes 4 mcaps ++ user ++ 0 :: auth_len caps n.

Inductive same_secret pc : lk_dir -> lk_msg -> lk_msg -> Prop :=
  | ss_response caps size charset filler mcaps user n post m m' :
      mc_phase pc = MY_PH_HANDSHAKE -> mc_sess pc = MY_S_GREETING \/ mc_sess pc = MY_S_RESPONSE -> m_type m = 0 -> same_frame m m' ->
      0 <= caps < 2 ^ 32 -> zlen size = 4 -> zlen filler = 19 -> 0 <= mcaps < 2 ^ 32 -> Forall (fun b => b <> 0) user -> auth_fits caps n ->
      differ_in (response_head caps size charset filler mcaps user n) n post m m' -> same_secret pc LK_DIR_RECV m m'
  | ss_client_auth m m' :
      mc_phase pc = MY_PH_HANDSHAKE -> mc_sess pc = MY_S_AUTH -> m_type m = 0 -> same_frame m m' -> same_secret pc LK_DIR_RECV m m'
  | ss_server_auth b r r' m m' :
      mc_phase pc = MY_PH_HANDSHAKE -> mc_sess pc = MY_S_AUTH -> b <> 0 -> same_frame m m' -> m_body m = b :: r -> m_body m' = b :: r' ->
      same_secret pc LK_DIR_SEND m m'
  | ss_change_user user n post m m' :
      mc_phase pc = MY_PH_READY -> m_type m = MY_COM_CHANGE_USER -> same_frame m m' -> Forall (fun b => b <> 0) user -> 0 <= n < 256 ->
      differ_in (MY_COM_CHANGE_USER :: user ++ [0; n]) n post m m' -> same_secret pc LK_DIR_RECV m m'
  | ss_params id r r' m m' :
      mc_phase pc = MY_PH_READY -> m_type m = MY_COM_STMT_EXECUTE -> same_frame m m' -> 0 <= id < 2 ^ 32 ->
      m_body m = MY_COM_STMT_EXECUTE :: le_bytes 4 id ++ r -> m_body m' = MY_COM_STMT_EXECUTE :: le_bytes 4 id ++ r' -> same_secret pc LK_DIR_RECV m m'
  | ss_long_data m m' :
      mc_phase pc = MY_PH_READY -> m_type m = MY_COM_STMT_SEND_LONG_DATA -> same_frame m m' -> same_secret pc LK_DIR_RECV m m'
  | ss_infile m m' : mc_phase pc = MY_PH_INFILE -> m_type m = 0 -> same_frame m m' -> same_secret pc LK_DIR_RECV m m'
  | ss_row m m' :
      mc_phase pc = MY_PH_READY -> mc_reply pc = MY_R_ROWS \/ mc_reply pc = MY_R_COLS -> same_frame m m' -> is_def m -> is_def m' ->
      same_secret pc LK_DIR_SEND m m'.

(** ** Reading up to the secret *)
Lemma my_skip_app a r : my_wire_skip (MyWire (a ++ r) false) (zlen a) = (true, MyWire r false).
Proof.
  unfold my_wire_skip, my_wire_remaining, advance. cbn [mw_rest mw_overrun]. pose proof (zlen_nonneg r). rewrite zlen_app.
  destruct (Z.ltb_spec (zlen a + zlen r) (zlen a)); [lia|]. rewrite zdrop_app_ge, Z.sub_diag by lia. by rewrite zdrop_0.
Qed.
Lemma my_cstring_hit s r : Forall (fun b => b <> 0) s -> my_wire_cstring (MyWire (s ++ 0 :: r) false) = (true, s, MyWire r false).
Proof.
  intros Hs. unfold my_wire_cstring. cbn [mw_rest mw_overrun]. assert (cut_nul (s ++ 0 :: r) = Some (s, r)) as ->; [|done].
  induction Hs as [|b s Hb Hs IH]; [done|]. cbn. rewrite IH. by destruct (Z.eqb_spec b 0).
Qed.
Lemma skip_auth_ok pc caps n s post : mc_caps pc = caps -> auth_fits caps n -> zlen s = n ->
  skip_auth pc (MyWire (auth_len caps n ++ s ++ post) false) = (true, MyWire post false).
Proof.
  intros <- Hn <-. unfold skip_auth, auth_len, auth_fits in *. destruct (has_flag _ _).
  - rewrite lenenc_roundtrip by lia. rewrite u32_small by lia. apply my_skip_app.
  - change ([zlen s] ++ s ++ post) with (zlen s :: s ++ post). rewrite get_u8_at. apply my_skip_app.
Qed.

Definition response_result pc (caps mcaps : Z) (user post : list Z) (cut : bool) : my_conn :=
  let pc := pc <| mc_caps := caps |> <| mc_caps_known := true |> <| mc_mcaps := mcaps |> in
  let pc := if has_flag caps MY_CAP_MYSQL then pc <| mc_mcaps := 0 |> else pc in
  let pc := pc <| mc_sess := MY_S_AUTH |> <| mc_session ::= fun s => s <| s_complete := negb cut |> |> in
  response_tail (pc <| mc_session ::= fun s => s <| s_user ::= fun d => copy_field d user |> |>) (MyWire post false).
Lemma response_reads pc m caps size charset filler mcaps user n s post :
  0 <= caps < 2 ^ 32 -> zlen size = 4 -> zlen filler = 19 -> 0 <= mcaps < 2 ^ 32 -> Forall (fun b => b <> 0) user -> auth_fits caps n -> zlen s = n ->
  m_body m = response_head caps size charset filler mcaps user n ++ s ++ post ->
  handshake_response pc m = response_result pc caps mcaps user post (has_flag (m_flags m) LK_MSG_BODY_TRUNC).
Proof.
  intros Hc Hz Hf Hm Hu Ha Hs Eb. unfold handshake_response, my_wire_init. rewrite Eb. unfold response_head. repeat rewrite <- app_assoc || rewrite <- app_comm_cons.
  rewrite get_u32_at by done. cbn [negb]. unfold my_wire_get_u32 at 1. rewrite get_int_app by done. rewrite get_u8_at. rewrite <- Hf, my_skip_app. cbn [andb negb].
  rewrite get_u32_at by done. cbn [negb]. cbv zeta.
  match goal with |- context [my_wire_remaining ?w =? 0] => assert ((my_wire_remaining w =? 0) = false) as -> end.
  { apply Z.eqb_neq. unfold my_wire_remaining. cbn [mw_rest]. rewrite zlen_app, zlen_cons. pose proof (zlen_nonneg user). match goal with |- _ + (zlen ?l + 1) <> 0 => pose proof (zlen_nonneg l) end. lia. }
  unfold response_labels, response_result. rewrite my_cstring_hit by done. cbn [negb]. cbv zeta. proj_in_goal.
  set (pc1 := if has_flag caps MY_CAP_MYSQL then _ else _). assert (mc_caps pc1 = caps) as Ec by (subst pc1; by destruct (has_flag caps MY_CAP_MYSQL)). clearbody pc1.
  rewrite (skip_auth_ok _ caps n s post); [done|exact Ec|done|done].
Qed.

Section Opaque.
Context {F : Type}.
Abbreviation proto := (lk_proto (list my_up) my_conn F).
Implicit Types (p : proto) (c : lk_conn my_conn F) (x : sink_call).

Lemma change_user_reads pc m oom user n s post : Forall (fun b => b <> 0) user -> 0 <= n < 256 -> zlen s = n ->
  m_body m = (MY_COM_CHANGE_USER :: user ++ [0; n]) ++ s ++ post ->
  my_session_change_user pc m oom =
    let '(pc, oom) := my_prep_drop_all pc oom in
    let pc := pc <| mc_phase := MY_PH_HANDSHAKE |> <| mc_sess := MY_S_AUTH |> <| mc_pending_user ::= fun d => copy_field d user |> <| mc_have_pending_user := true |> in
    let '(ok, db, w) := my_wire_cstring (MyWire post false) in
    if ok then (pc <| mc_pending_db ::= fun d => copy_field d db |> <| mc_have_pending_db := true |>, oom) else (pc, oom).
Proof.
  intros Hu Hn Hs Eb. unfold my_session_change_user, my_wire_init. rewrite Eb. destruct (my_prep_drop_all pc oom) as [pc1 oom1]. rewrite <- app_comm_cons, skip_at. cbn [negb].
  rewrite <- app_assoc. change ([0; n] ++ s ++ post) with (0 :: n :: s ++ post). rewrite my_cstring_hit by done. cbn [negb]. rewrite get_u8_at. rewrite <- Hs, my_skip_app. done.
Qed.
Lemma execute_reads pc m id r : 0 <= id < 2 ^ 32 -> m_body m = MY_COM_STMT_EXECUTE :: le_bytes 4 id ++ r ->
  my_query_execute pc m =
    (let '(o, pc) := my_prep_lookup (unit_open pc LK_Q_EXTENDED (m_ts_ns m)) id in
     match o with
     | None => unit_flag LK_QO_NO_TEXT pc
     | Some (idx, gen, trunc) =>
         let pc := pc <| mc_u ::= fun u => u <| mu_prep_idx := idx |> <| mu_prep_gen := gen |> |> in
         if trunc then unit_flag LK_QO_TEXT_TRUNC pc else pc
     end) <| mc_reply := MY_R_HEAD |>.
Proof. intros Hid Eb. unfold my_query_execute, open_stmt_unit, my_wire_init. rewrite Eb, skip_at, get_u32_at by done. cbn [andb negb]. done. Qed.

Lemma def_heads m : is_def m -> (head0 m =? 0xff) = false /\ (head0 m =? 0xfe) = false.
Proof.
  intros Hm. unfold head0, m_body_cap, is_def in *. destruct (m_body m) as [|b r]; [done|]. destruct Hm as [Hm1 Hm2]. pose proof (zlen_nonneg r). rewrite zlen_cons.
  destruct (Z.eqb_spec (zlen r + 1) 0); [lia|]. change (znth (b :: r) 0) with b. split; by apply Z.eqb_neq.
Qed.

Lemma secret_recv p c pc m m' : same_secret pc LK_DIR_RECV m m' -> my_frontend_msg p c pc m = my_frontend_msg p c pc m'.
Proof.
  intros H. inversion H as
    [caps size charset filler mcaps user n post ? ? Hp Hs Ht (E1 & E2 & E3 & E4) Hc Hz Hf Hm Hu Ha (s & s' & L1 & L2 & B1 & B2)|? ? Hp Hs Ht (E1 & E2 & E3 & E4)| |
     user n post ? ? Hp Ht (E1 & E2 & E3 & E4) Hu Hn (s & s' & L1 & L2 & B1 & B2)|id r r' ? ? Hp Ht (E1 & E2 & E3 & E4) Hid B1 B2|? ? Hp Ht (E1 & E2 & E3 & E4)|
     ? ? Hp Ht (E1 & E2 & E3 & E4)|]; subst; unfold my_frontend_msg; rewrite Hp, <- E2, Ht.
  - change (0 =? 0) with true. cbv iota. f_equal. unfold my_session_frontend.
    assert (handshake_response pc m = handshake_response pc m') as ->; [|done].
    rewrite (response_reads pc m caps size charset filler mcaps user _ s post Hc Hz Hf Hm Hu Ha eq_refl B1),
      (response_reads pc m' caps size charset filler mcaps user _ s' post Hc Hz Hf Hm Hu Ha L2 B2). by rewrite E3.
  - change (0 =? 0) with true. cbv iota. unfold my_session_frontend. by rewrite Hs.
  - rewrite bool_decide_eq_false_2 by done. unfold my_frontend_cmd, my_command, with_oom. rewrite <- E2, Ht. change (u8 MY_COM_CHANGE_USER) with MY_COM_CHANGE_USER. cbn -[anchor my_session_change_user].
    destruct (anchor p pc) as [p1 pc1]. by rewrite (change_user_reads pc1 m _ user _ s post Hu Hn eq_refl B1), (change_user_reads pc1 m' _ user _ s' post Hu Hn L2 B2).
  - rewrite bool_decide_eq_false_2 by done. unfold my_frontend_cmd, my_command. rewrite <- E2, Ht. change (u8 MY_COM_STMT_EXECUTE) with MY_COM_STMT_EXECUTE. cbn -[anchor my_query_execute].
    destruct (anchor p pc) as [p1 pc1]. by rewrite (execute_reads pc1 m id r Hid B1), (execute_reads pc1 m' id r' Hid B2), E1.
  - rewrite bool_decide_eq_false_2 by done. unfold my_frontend_cmd. by rewrite <- E2, Ht.
  - rewrite bool_decide_eq_true_2 by done. change (0 =? 0) with true. cbv iota. unfold my_query_infile_data. by rewrite E4.
Qed.
Lemma secret_send p c pc m m' : same_secret pc LK_DIR_SEND m m' -> my_backend_msg p c pc m = my_backend_msg p c pc m'.
Proof.
  intros H. inversion H as [| |b r r' ? ? Hp Hs Hb (E1 & E2 & E3 & E4) B1 B2| | | | |? ? Hp Hr (E1 & E2 & E3 & E4) D1 D2]; subst; unfold my_backend_msg; rewrite Hp.
  - unfold my_session_backend. rewrite Hs. assert (forall q (x : lk_msg), m_body x = b :: q -> head0 x = b) as Hh.
    { intros q x Ex. unfold head0, m_body_cap. rewrite Ex, zlen_cons. pose proof (zlen_nonneg q). by destruct (Z.eqb_spec (zlen q + 1) 0); [lia|]. }
    rewrite (Hh r m B1), (Hh r' m' B2). by destruct (Z.eqb_spec b 0).
  - unfold my_query_backend. destruct (def_heads m D1) as [A1 A2]. destruct (def_heads m' D2) as [A3 A4].
    destruct Hr as [Hr|Hr]; rewrite Hr; cbn [blind_ok negb]; rewrite !andb_false_r.
    + unfold reply_rows. rewrite A1, A2, A3, A4. destruct (fe_terminator pc m) as [? ?], (fe_terminator pc m') as [? ?]. rewrite !andb_false_r. cbn [andb]. unfold count_row. by rewrite E1.
    + unfold reply_cols. by rewrite A1, A2, A3, A4.
Qed.

(** Traffic that differs in secrets only; which bytes are secret depends on the state. *)
Inductive same_public : proto -> lk_conn my_conn F -> list sink_call -> list sink_call -> Prop :=
  | sp_nil p c : same_public p c [] []
  | sp_same p c x l l' : same_public (call1 p c x).1 (call1 p c x).2 l l' -> same_public p c (x :: l) (x :: l')
  | sp_secret p c pc d m m' l l' : c_proto_state c = Some pc -> same_secret pc d m m' ->
      same_public (call1 p c (CallMsg d m)).1 (call1 p c (CallMsg d m)).2 l l' -> same_public p c (CallMsg d m :: l) (CallMsg d m' :: l').
Lemma secret_frame pc d m m' : same_secret pc d m m' -> same_frame m m'.
Proof. by intros []. Qed.

(** C33: Secrets and payload are not observed.  Runs whose packets differ only in the
    client's authentication response, the further authentication exchange, statement
    parameters, long data, row and column contents or LOAD DATA payload leave exactly
    the same handler, connection and reports. *)
Theorem my_payload_opaque p c l l' : same_public p c l l' -> calls p c l = calls p c l'.
Proof.
  induction 1 as [|p c x l l' _ IH|p c pc d m m' l l' Hs H _ IH]; [done| |]; cbn [calls].
  - by destruct (call1 p c x).
  - assert (call1 p c (CallMsg d m) = call1 p c (CallMsg d m')) as E; [|by rewrite <- E; destruct (call1 p c (CallMsg d m))].
    destruct (secret_frame _ _ _ _ H) as (E1 & E2 & E3 & E4). cbn [call1]. unfold my_on_msg, my_conn_get. rewrite Hs.
    assert (tally p d m = tally p d m') as -> by (unfold tally; by rewrite E2, E3). destruct d; [by rewrite (secret_send _ c pc m m' H)|by rewrite (secret_recv _ c pc m m' H)].
Qed.
End Opaque.

(** ** Witness *)
(** A login with a 20-byte auth response, the reply to an auth switch, one EXECUTE. *)
Definition w_login (secret : list Z) : lk_msg :=
  w_my_msg 5 0 (response_head 0x00200009 [0; 0; 0; 1] 33 (replicate 19 0) 0 (lit "bob") 20 ++ secret ++ lit "shop" ++ [0]).
Definition w_run (s1 s2 s3 : list Z) : list sink_call :=
  [CallMsg LK_DIR_SEND (w_my_msg 4 0 (10 :: lit "8.0.1" ++ [0])); CallMsg LK_DIR_RECV (w_login s1);
   CallMsg LK_DIR_SEND (w_my_msg 6 0 [0xfe]); CallMsg LK_DIR_RECV (w_my_msg 7 0 s2);
   CallMsg LK_DIR_SEND (w_my_msg 8 0 [0; 0; 0; 2; 0; 0; 0]);
   CallMsg LK_DIR_RECV (w_my_msg 9 MY_COM_STMT_EXECUTE (MY_COM_STMT_EXECUTE :: le_bytes 4 7 ++ s3))].
Lemma my_payload_opaque_witness :
  calls w_stmt_proto (conn0 1) (w_run (replicate 20 1) [1; 2; 3] [9; 9]) = calls w_stmt_proto (conn0 1) (w_run (replicate 20 2) [4; 5; 6] [8; 8]).
Proof.
  apply (my_payload_opaque w_stmt_proto (conn0 1) (w_run (replicate 20 1) [1; 2; 3] [9; 9]) (w_run (replicate 20 2) [4; 5; 6] [8; 8])).
  apply sp_same. eapply sp_secret; [vm_compute; reflexivity| |].
  { eapply (ss_response _ 0x00200009 [0; 0; 0; 1] 33 (replicate 19 0) 0 (lit "bob") 20 (lit "shop" ++ [0])); try reflexivity; try lia; [by right|by split_and!|by repeat constructor|
      change (0 <= 20 < 2 ^ 32); lia|exists (replicate 20 1), (replicate 20 2); by split_and!]. }
  apply sp_same. eapply sp_secret; [vm_compute; reflexivity|by apply ss_client_auth; [..|split_and!]|].
  apply sp_same. eapply sp_secret; [vm_compute; reflexivity| |].
  { by eapply (ss_params _ 7 [9; 9] [8; 8]); [..|split_and!|lia| |]. }
  apply sp_nil.
Defined.
