(* ===== verification/RedisFrame.v ===== *)
(** The RESP stream framer, [proto/redis/redis_frame.c] with its state from [redis.h]:
    a value machine with an explicit stack, bulk payloads skipped by arithmetic, inline
    commands, notes for what is rejected.

    [num] with [num_n] is the list [rd_num]; [stack] with [depth] is the list [rd_stack],
    the innermost level first (levels above [depth] are dead in the C array).  A chunk
    [p] is walked by the index [i] with [q], the bytes from [i] on.  The state lives in
    the connection, where the consumer's callbacks can see it. *)
From Stdlib Require Import Ascii String.
From stdpp Require Import base list option.
From S2P Require Import Prelude Conn Reassembly Proto.
#[local] Open Scope Z_scope.

(** ** Values

    RESP2/RESP3 values as bytes, [proto/redis/redis_wire.h]: the type bytes and their
    shapes, strict decimal lengths, the two length rules and the resync anchors. *)
Inductive redis_vshape := REDIS_V_BAD | REDIS_V_LINE | REDIS_V_BULK | REDIS_V_AGG | REDIS_V_AGGPAIR.
#[global] Instance redis_vshape_eq_dec : EqDecision redis_vshape.
Proof. solve_decision. Defined.

Definition REDIS_T_SIMPLE := 43.   (* + *)
Definition REDIS_T_ERROR := 45.    (* - *)
Definition REDIS_T_INT := 58.      (* : *)
Definition REDIS_T_BULK := 36.     (* $ *)
Definition REDIS_T_ARRAY := 42.    (* * *)
Definition REDIS_T_NULL := 95.     (* _ *)
Definition REDIS_T_BOOL := 35.     (* # *)
Definition REDIS_T_DOUBLE := 44.   (* , *)
Definition REDIS_T_BIGNUM := 40.   (* ( *)
Definition REDIS_T_BLOBERR := 33.  (* ! *)
Definition REDIS_T_VERBATIM := 61. (* = *)
Definition REDIS_T_MAP := 37.      (* % *)
Definition REDIS_T_SET := 126.     (* ~ *)
Definition REDIS_T_PUSH := 62.     (* > *)
Definition REDIS_T_ATTR := 124.    (* | *)

Definition in_types (ts : list Z) (t : Z) : bool := existsb (Z.eqb t) ts.
Definition shape_of (t : Z) : redis_vshape :=
  if in_types [REDIS_T_SIMPLE; REDIS_T_ERROR; REDIS_T_INT; REDIS_T_NULL; REDIS_T_BOOL; REDIS_T_DOUBLE; REDIS_T_BIGNUM] t
  then REDIS_V_LINE
  else if in_types [REDIS_T_BULK; REDIS_T_VERBATIM; REDIS_T_BLOBERR] t then REDIS_V_BULK
  else if in_types [REDIS_T_ARRAY; REDIS_T_SET; REDIS_T_PUSH] t then REDIS_V_AGG
  else if in_types [REDIS_T_MAP; REDIS_T_ATTR] t then REDIS_V_AGGPAIR
  else REDIS_V_BAD.
Definition redis_type_is_resp3 (t : Z) : bool :=
  in_types [REDIS_T_NULL; REDIS_T_BOOL; REDIS_T_DOUBLE; REDIS_T_BIGNUM; REDIS_T_BLOBERR; REDIS_T_VERBATIM; REDIS_T_MAP;
            REDIS_T_SET; REDIS_T_PUSH; REDIS_T_ATTR] t.

Definition LK_REDIS_MAX_BULK := 512 * 1024 * 1024.
Definition LK_REDIS_MAX_ELEMS := 2147483647.
Definition LK_REDIS_LINE_MAX := 64 * 1024.
Definition LK_REDIS_INLINE_MAX := 64 * 1024.
Definition LK_REDIS_NUM_MAX := 24.
Definition LK_REDIS_ANCHOR_ELEMS := 1024.

(** ** Numbers *)
(** The digits of [p] accumulated on [v]; refused before the multiply could wrap. *)
Fixpoint parse_digits (v : Z) (p : list Z) : option Z :=
  match p with
  | [] => Some v
  | b :: p =>
      if (b <? ch "0") || (ch "9" <? b) then None
      else if (2 ^ 62 - 9) / 10 <? v then None
      else parse_digits (v * 10 + (b - ch "0")) p
  end.
(** [None] for "not a number"; the C function leaves its out-parameter alone then. *)
Definition redis_parse_i64 (p : list Z) : option Z :=
  if (zlen p =? 0) || (LK_REDIS_NUM_MAX <? zlen p) then None
  else if znth p 0 =? ch "-" then
    if zlen p =? 1 then None else Z.opp <$> parse_digits 0 (zdrop 1 p)
  else parse_digits 0 p.

(** ** The two length rules *)
(** Payload bytes and "null"; [None] for corruption. *)
Definition redis_bulk_len (v : Z) : option (Z * bool) :=
  if v <? 0 then Some (0, true) else if LK_REDIS_MAX_BULK <? v then None else Some (v, false).
Definition redis_agg_count (v : Z) (pairs : bool) : option Z :=
  let lim := if pairs then LK_REDIS_MAX_ELEMS / 2 else LK_REDIS_MAX_ELEMS in
  if v <? 0 then Some 0 else if lim <? v then None else Some (u32 (u32 v * (if pairs then 2 else 1))).

(** ** Anchors *)
(** The CRLF-terminated line at the front of [p], at most [max] content bytes, and what
    follows it. *)
Fixpoint redis_line_at (max : Z) (p : list Z) : option (list Z * list Z) :=
  if max <? 0 then None
  else match p with
  | b :: (b' :: r) as q =>
      if (b =? 13) && (b' =? 10) then Some ([], r)
      else '(l, r) ← redis_line_at (max - 1) q; Some (b :: l, r)
  | _ => None
  end.
Definition redis_anchor_fe (p : list Z) : bool :=
  match p with
  | b :: p =>
      if negb (b =? REDIS_T_ARRAY) then false
      else match redis_line_at LK_REDIS_NUM_MAX p with
      | None => false
      | Some (l, p) =>
          match redis_parse_i64 l with
          | None => false
          | Some v =>
              if (v <? 1) || (LK_REDIS_ANCHOR_ELEMS <? v) then false
              else match p with
              | b :: p =>
                  if negb (b =? REDIS_T_BULK) then false
                  else match redis_line_at LK_REDIS_NUM_MAX p with
                  | None => false
                  | Some (l, _) =>
                      match redis_parse_i64 l with
                      | None => false
                      | Some v => match redis_bulk_len v with Some (_, null) => negb null | None => false end
                      end
                  end
              | [] => false
              end
          end
      end
  | [] => false
  end.
Definition redis_anchor_be (p : list Z) : bool :=
  match p with b :: _ => negb (bool_decide (shape_of b = REDIS_V_BAD)) | [] => false end.

Definition LK_REDIS_MSG_INLINE := ch "i".
Definition LK_REDIS_MSG_NOTE := 63. (* ? *)
Inductive lk_redis_note :=
  | LK_REDIS_NOTE_BAD_TYPE | LK_REDIS_NOTE_BAD_LEN | LK_REDIS_NOTE_BULK_EOL | LK_REDIS_NOTE_LINE_TOO_BIG
  | LK_REDIS_NOTE_INLINE_TOO_BIG | LK_REDIS_NOTE_DEPTH | LK_REDIS_NOTE_VALUE_HOLE | LK_REDIS_NOTE_NO_MEM | LK_REDIS_NOTE_TLS.
Definition note_code (n : lk_redis_note) : Z :=
  match n with
  | LK_REDIS_NOTE_BAD_TYPE => 1 | LK_REDIS_NOTE_BAD_LEN => 2 | LK_REDIS_NOTE_BULK_EOL => 3 | LK_REDIS_NOTE_LINE_TOO_BIG => 4
  | LK_REDIS_NOTE_INLINE_TOO_BIG => 5 | LK_REDIS_NOTE_DEPTH => 6 | LK_REDIS_NOTE_VALUE_HOLE => 7 | LK_REDIS_NOTE_NO_MEM => 8
  | LK_REDIS_NOTE_TLS => 9
  end.
Definition LK_REDIS_MAX_DEPTH := 32.

Inductive redis_fr_st := REDIS_FR_VALUE | REDIS_FR_LINE | REDIS_FR_BULK | REDIS_FR_BULK_EOL | REDIS_FR_INLINE | REDIS_FR_SCAN.
#[global] Instance redis_fr_st_eq_dec : EqDecision redis_fr_st.
Proof. solve_decision. Defined.

Record redis_dir := RDir {
  rd_st : redis_fr_st; rd_shape : redis_vshape; rd_call_new : bool; rd_v_call : bool; rd_saw_cr : bool;
  rd_num : list Z; rd_num_bad : bool; rd_vtype : Z; rd_eol_left : Z; rd_lost_prefix : bool; rd_inline_arg : bool;
  rd_line_n : Z; rd_cur : Z; rd_bulk_left : Z; rd_v_pos : Z; rd_v_ts : Z; rd_cbase : Z; rd_last_ts : Z; rd_off : Z;
  rd_events : Z; rd_holes : Z; rd_stack : list Z }.
#[global] Instance redis_dir_upd : Updatable redis_dir := fun x =>
  RDir (rd_st x) (rd_shape x) (rd_call_new x) (rd_v_call x) (rd_saw_cr x) (rd_num x) (rd_num_bad x) (rd_vtype x)
    (rd_eol_left x) (rd_lost_prefix x) (rd_inline_arg x) (rd_line_n x) (rd_cur x) (rd_bulk_left x) (rd_v_pos x)
    (rd_v_ts x) (rd_cbase x) (rd_last_ts x) (rd_off x) (rd_events x) (rd_holes x) (rd_stack x).
Definition redis_dir0 : redis_dir :=
  RDir REDIS_FR_VALUE REDIS_V_BAD false false false [] false 0 0 false false 0 0 0 0 0 0 0 0 0 0 [].
Definition rd_depth (x : redis_dir) : Z := zlen (rd_stack x).

Record redis_frame := RFrame { rf_send : redis_dir; rf_recv : redis_dir }.
Definition redis_frame0 : redis_frame := RFrame redis_dir0 redis_dir0.
Definition rf_d (rf : redis_frame) (d : lk_dir) : redis_dir := match d with LK_DIR_SEND => rf_send rf | LK_DIR_RECV => rf_recv rf end.
Definition rf_upd (d : lk_dir) (g : redis_dir -> redis_dir) (rf : redis_frame) : redis_frame :=
  match d with LK_DIR_SEND => RFrame (g (rf_send rf)) (rf_recv rf) | LK_DIR_RECV => RFrame (rf_send rf) (g (rf_recv rf)) end.

(** Is a value being assembled? *)
Definition redis_value_open (x : redis_dir) : bool :=
  match rd_st x with
  | REDIS_FR_LINE | REDIS_FR_BULK | REDIS_FR_BULK_EOL | REDIS_FR_INLINE => true
  | REDIS_FR_VALUE => negb (rd_depth x =? 0)
  | REDIS_FR_SCAN => false
  end.

(** Pop every level whose last element has just arrived. *)
Fixpoint pop_done (stack : list Z) : list Z :=
  match stack with
  | [] => []
  | n :: rest => let n := u32 (n - 1) in if n =? 0 then pop_done rest else n :: rest
  end.

Section Frame.
Context {S P : Type}.
Abbreviation reasm := (lk_reasm S P redis_frame).
Abbreviation conn := (lk_conn P redis_frame).
Implicit Types (r : reasm) (c : conn) (d : lk_dir) (p q : list Z).

(** [&rf->d[dir]] and a write to it; the state exists wherever they are used. *)
Definition dir_of c d : redis_dir := match c_frame_state c with Some rf => rf_d rf d | None => redis_dir0 end.
Definition upd_dir c d (g : redis_dir -> redis_dir) : conn := c <| c_frame_state ::= fmap (rf_upd d g) |>.

Definition redis_frame_get r c : bool * reasm * conn :=
  match c_frame_state c with
  | Some _ => (true, r, c)
  | None => let '(ok, r) := malloc r in (ok, r, if ok then c <| c_frame_state := Some redis_frame0 |> else c)
  end.

(** ** Emitting *)
Definition note r c d (n : lk_redis_note) (ts : Z) : reasm * conn :=
  let flags := match f_st (frame c d) with LK_FR_DIRTY => LK_MSG_AFTER_RESYNC | _ => 0 end in
  lk_reasm_emit r c d (Msg ts LK_REDIS_MSG_NOTE flags (note_code n) []).

(** [lk_reasm_buf_put(f->buf); f->buf = NULL; f->buf_len = 0;] *)
Definition buf_release r c d : reasm * conn :=
  (lk_reasm_buf_put r (f_buf (frame c d)), upd_frame c d (fun f => f <| f_buf := None |>)).

Definition go_scan r c d : reasm * conn :=
  let '(r, c) := buf_release r c d in
  let c := upd_frame c d (fun f => f <| f_st := LK_FR_DIRTY |>) in
  (r, upd_dir c d (fun x => x <| rd_st := REDIS_FR_SCAN |> <| rd_stack := [] |> <| rd_bulk_left := 0 |> <| rd_eol_left := 0 |>
                              <| rd_line_n := 0 |> <| rd_num := [] |> <| rd_num_bad := false |> <| rd_saw_cr := false |>
                              <| rd_lost_prefix := false |>)).

Definition bad_len r c d (ts : Z) : reasm * conn :=
  let r := bump r (fun s => s <| rs_bad_len ::= inc64 |>) in
  let '(r, c) := note r c d LK_REDIS_NOTE_BAD_LEN ts in
  go_scan r c d.

(** ** The body prefix *)
Definition set_cur c d (i : Z) : conn := upd_dir c d (fun x => x <| rd_cur := i |>).
Definition stash_append c d p (e : Z) : conn :=
  let cur := rd_cur (dir_of c d) in
  let room := LK_MSG_BODY_MAX - buf_len (frame c d) in
  let k := if e - cur <? room then e - cur else room in
  set_cur (buf_append c d (ztake k (zdrop cur p))) d e.
Definition stash r c d p (e : Z) : reasm * conn :=
  let x := dir_of c d in
  if e <=? rd_cur x then (r, c)
  else if rd_lost_prefix x || (LK_MSG_BODY_MAX <=? buf_len (frame c d)) then (r, set_cur c d e)
  else match f_buf (frame c d) with
  | Some _ => (r, stash_append c d p e)
  | None =>
      let '(ok, r) := lk_reasm_buf_get r in
      if ok then (r, stash_append (upd_frame c d (fun f => f <| f_buf := Some [] |>)) d p e)
      else
        let c := upd_dir c d (fun x => x <| rd_lost_prefix := true |> <| rd_cur := e |>) in
        note r c d LK_REDIS_NOTE_NO_MEM (rd_last_ts (dir_of c d))
  end.

Definition prefix_release r c d (e : Z) : reasm * conn :=
  let '(r, c) := buf_release r c d in
  (r, upd_dir c d (fun x => x <| rd_lost_prefix := false |> <| rd_cur := e |>)).

(** One complete top-level value; [op] is the chunk, or [None] when a hole completed it. *)
Definition value_emit r c d (op : option (list Z)) (e end_pos : Z) : reasm * conn :=
  let x := dir_of c d in
  let len := u64 (end_pos - rd_v_pos x) in
  let '(r, c, body) :=
    if negb (buf_len (frame c d) =? 0) || rd_lost_prefix x then
      let '(r, c) := match op with Some p => stash r c d p e | None => (r, c) end in
      (r, c, buf_bytes (frame c d))
    else match op with
    | Some p =>
        let cap := e - rd_cur x in
        (r, c, ztake (if LK_MSG_BODY_MAX <? cap then LK_MSG_BODY_MAX else cap) (zdrop (rd_cur x) p))
    | None => (r, c, [])
    end in
  let flags := if zlen body <? len then LK_MSG_BODY_TRUNC else 0 in
  let x := dir_of c d in
  let '(r, c) := lk_reasm_emit r c d (Msg (rd_v_ts x) (rd_vtype x) flags (if 2 ^ 32 - 1 <? len then 2 ^ 32 - 1 else len) body) in
  prefix_release r c d e.

Definition value_done r c d (op : option (list Z)) (e end_pos : Z) : reasm * conn :=
  let c := upd_dir c d (fun x => x <| rd_stack ::= pop_done |> <| rd_st := REDIS_FR_VALUE |>) in
  if rd_depth (dir_of c d) =? 0 then value_emit r c d op e end_pos else (r, c).

(** ** The states *)
Definition start_line (x : redis_dir) (sh : redis_vshape) : redis_dir :=
  x <| rd_shape := sh |> <| rd_st := REDIS_FR_LINE |> <| rd_line_n := 0 |> <| rd_num := [] |> <| rd_num_bad := false |>
    <| rd_saw_cr := false |>.
(** A top-level value starts at [i]. *)
Definition open_value (x : redis_dir) (b i ts : Z) : redis_dir :=
  x <| rd_v_pos := u64 (rd_cbase x + i) |> <| rd_v_ts := ts |> <| rd_vtype := b |> <| rd_cur := i |>
    <| rd_v_call := rd_call_new x |> <| rd_call_new := false |>.
(** The new index. *)
Definition value_start r c d (b i ts : Z) : reasm * conn * Z :=
  let top := rd_depth (dir_of c d) =? 0 in
  if top && ((b =? 13) || (b =? 10)) then (r, set_cur c d (i + 1), i + 1)
  else
    let c := if top then upd_dir c d (fun x => open_value x b i ts) else c in
    match shape_of b with
    | REDIS_V_BAD =>
        match d with
        | LK_DIR_RECV =>
            if top then
              (r, upd_dir c d (fun x => x <| rd_st := REDIS_FR_INLINE |> <| rd_vtype := LK_REDIS_MSG_INLINE |> <| rd_line_n := 0 |>
                                          <| rd_inline_arg := false |>), i)
            else let '(r, c) := note r c d LK_REDIS_NOTE_BAD_TYPE ts in let '(r, c) := go_scan r c d in (r, c, i + 1)
        | LK_DIR_SEND => let '(r, c) := note r c d LK_REDIS_NOTE_BAD_TYPE ts in let '(r, c) := go_scan r c d in (r, c, i + 1)
        end
    | sh => (r, upd_dir c d (fun x => start_line x sh), i + 1)
    end.

(** An aggregate of [elems] values. *)
Definition agg_open r c d p (e elems ts : Z) : reasm * conn :=
  if elems =? 0 then value_done r c d (Some p) e (u64 (rd_cbase (dir_of c d) + e))
  else if LK_REDIS_MAX_DEPTH <=? rd_depth (dir_of c d) then
    let '(r, c) := note r c d LK_REDIS_NOTE_DEPTH ts in go_scan r c d
  else (r, upd_dir c d (fun x => x <| rd_stack ::= cons elems |> <| rd_st := REDIS_FR_VALUE |>)).
Definition line_complete r c d p (e ts : Z) : reasm * conn :=
  let x := dir_of c d in
  let done := value_done r c d (Some p) e (u64 (rd_cbase x + e)) in
  match rd_shape x with
  | REDIS_V_LINE => done
  | sh =>
      match (if rd_num_bad x then None else redis_parse_i64 (rd_num x)) with
      | None => bad_len r c d ts
      | Some v =>
          match sh with
          | REDIS_V_BULK =>
              match redis_bulk_len v with
              | None => bad_len r c d ts
              | Some (payload, null) =>
                  if null then done
                  else (r, upd_dir c d (fun x => x <| rd_bulk_left := payload |> <| rd_eol_left := 2 |> <| rd_st := REDIS_FR_BULK |>))
              end
          | _ =>
              match redis_agg_count v (bool_decide (sh = REDIS_V_AGGPAIR)) with
              | None => bad_len r c d ts
              | Some elems => agg_open r c d p e elems ts
              end
          end
      end
  end.

(** A byte of a line that does not end it. *)
Definition line_byte (x : redis_dir) (b : Z) : redis_dir :=
  let x := if rd_saw_cr x then x <| rd_num_bad := true |> else x in
  let x := x <| rd_saw_cr := (b =? 13) |> in
  let x := if b =? 13 then x
           else if zlen (rd_num x) <? LK_REDIS_NUM_MAX then x <| rd_num ::= fun l => l ++ [b] |> else x <| rd_num_bad := true |> in
  x <| rd_line_n ::= fun n => n + 1 |>.
Fixpoint line_feed r c d p q (i ts : Z) : reasm * conn * Z :=
  match q with
  | [] => (r, c, i)
  | b :: q =>
      let i := i + 1 in
      if rd_saw_cr (dir_of c d) && (b =? 10) then let '(r, c) := line_complete r c d p i ts in (r, c, i)
      else
        let c := upd_dir c d (fun x => line_byte x b) in
        if LK_REDIS_LINE_MAX <? rd_line_n (dir_of c d) then
          let '(r, c) := note r c d LK_REDIS_NOTE_LINE_TOO_BIG ts in let '(r, c) := go_scan r c d in (r, c, i)
        else line_feed r c d p q i ts
  end.

Fixpoint eol_feed r c d p q (i ts : Z) : reasm * conn * Z :=
  let finish r c := if rd_eol_left (dir_of c d) =? 0
                    then let '(r, c) := value_done r c d (Some p) i (u64 (rd_cbase (dir_of c d) + i)) in (r, c, i) else (r, c, i) in
  match q with
  | [] => finish r c
  | b :: q =>
      let x := dir_of c d in
      if rd_eol_left x =? 0 then finish r c
      else
        let want := if rd_eol_left x =? 2 then 13 else 10 in
        let c := upd_dir c d (fun x => x <| rd_eol_left ::= fun n => n - 1 |>) in
        if negb (b =? want) then
          let '(r, c) := note r c d LK_REDIS_NOTE_BULK_EOL ts in let '(r, c) := go_scan r c d in (r, c, i + 1)
        else eol_feed r c d p q (i + 1) ts
  end.

Definition inline_byte (x : redis_dir) (b : Z) : redis_dir :=
  let x := if (b =? 13) || (b =? 32) || (b =? 9) then x else x <| rd_inline_arg := true |> in
  x <| rd_line_n ::= fun n => n + 1 |>.
Definition inline_done r c d p (e : Z) : reasm * conn :=
  let x := dir_of c d in
  let '(r, c) := if rd_inline_arg x then value_emit r c d (Some p) e (u64 (rd_cbase x + e)) else prefix_release r c d e in
  (r, upd_dir c d (fun x => x <| rd_st := REDIS_FR_VALUE |>)).
Fixpoint inline_feed r c d p q (i ts : Z) : reasm * conn * Z :=
  match q with
  | [] => (r, c, i)
  | b :: q =>
      let i := i + 1 in
      if b =? 10 then let '(r, c) := inline_done r c d p i in (r, c, i)
      else
        let c := upd_dir c d (fun x => inline_byte x b) in
        if LK_REDIS_INLINE_MAX <? rd_line_n (dir_of c d) then
          let '(r, c) := note r c d LK_REDIS_NOTE_INLINE_TOO_BIG ts in let '(r, c) := go_scan r c d in (r, c, i)
        else inline_feed r c d p q i ts
  end.

(** Skip captured payload bytes. *)
Definition bulk_skip (x : redis_dir) (n : Z) : redis_dir * Z :=
  let take := if rd_bulk_left x <? n then rd_bulk_left x else n in
  let x := x <| rd_bulk_left ::= fun b => b - take |> in
  (if rd_bulk_left x =? 0 then x <| rd_st := REDIS_FR_BULK_EOL |> else x, take).

(** ** The two hooks *)
Definition redis_no_state r c d (ts : Z) : reasm * conn :=
  let '(r, c) := note r c d LK_REDIS_NOTE_NO_MEM ts in
  (r, c <| c_flags ::= fun w => set_flag w LK_CONN_IGNORE |>).

Definition redis_tls_record_head d (x : redis_dir) p : bool :=
  if negb (rd_events x =? 1) || negb (bool_decide (rd_st x = REDIS_FR_VALUE)) || negb (rd_depth x =? 0) || (zlen p <? 3) then false
  else if negb (znth p 0 =? 0x16) || negb (znth p 1 =? 0x03) || (0x04 <? znth p 2) then false
  else if (6 <=? zlen p) && negb (znth p 5 =? match d with LK_DIR_RECV => 0x01 | LK_DIR_SEND => 0x02 end) then false
  else true.

(** One iteration of the loop: the state after it and the new index; [None] when the
    function returns there. *)
Definition redis_step r c d p (i ts : Z) (at_call : bool) : reasm * conn * option Z :=
  let q := zdrop i p in
  let go '(r, c, i) := (r, c, Some i) in
  match rd_st (dir_of c d) with
  | REDIS_FR_VALUE => go (value_start r c d (znth p i) i ts)
  | REDIS_FR_LINE => go (line_feed r c d p q i ts)
  | REDIS_FR_BULK =>
      let '(x, take) := bulk_skip (dir_of c d) (zlen p - i) in (r, upd_dir c d (fun _ => x), Some (i + take))
  | REDIS_FR_BULK_EOL => go (eol_feed r c d p q i ts)
  | REDIS_FR_INLINE => go (inline_feed r c d p q i ts)
  | REDIS_FR_SCAN =>
      if (i =? 0) && at_call && match d with LK_DIR_RECV => redis_anchor_fe p | LK_DIR_SEND => redis_anchor_be p end then
        let '(r, c) := lk_reasm_resync r c d in (r, upd_dir c d (fun x => x <| rd_st := REDIS_FR_VALUE |>), Some i)
      else (r, c, None)
  end.
(** How the loop ends: at the end of the chunk, by a [return], or out of fuel. *)
Inductive loop_end := LoopDone | LoopReturn | LoopFuel.
Fixpoint redis_loop (fuel : nat) r c d p (i ts : Z) (at_call : bool) : reasm * conn * loop_end :=
  if zlen p <=? i then (r, c, LoopDone)
  else match fuel with
  | O => (r, c, LoopFuel)
  | Datatypes.S fuel =>
      let st0 := rd_st (dir_of c d) in
      let '(r, c, o) := redis_step r c d p i ts at_call in
      match o with
      | None => (r, c, LoopReturn)
      | Some i' =>
          if has_flag (c_flags c) LK_CONN_IGNORE then (r, c, LoopReturn)
          else if (i' =? i) && bool_decide (rd_st (dir_of c d) = st0) then (r, c, LoopReturn)
          else redis_loop fuel r c d p i' ts at_call
      end
  end.
(** At most one iteration that consumes nothing before each that does, and a spare. *)
Definition redis_fuel p : nat := (2 * length p + 2)%nat.

Definition chunk_begin (x : redis_dir) (n ts : Z) (at_call : bool) : redis_dir :=
  let x := x <| rd_events ::= inc64 |> <| rd_cbase := rd_off x |> <| rd_off ::= fun o => u64 (o + n) |> <| rd_last_ts := ts |>
             <| rd_cur := 0 |> in
  if at_call then x <| rd_call_new := true |> else x.

Definition redis_stream_bytes r c d p (ts : Z) : reasm * conn :=
  let '(ok, r, c) := redis_frame_get r c in
  let at_call := f_call_pos (frame c d) =? 0 in
  if negb ok then redis_no_state r c d ts
  else
    let c := upd_dir c d (fun x => chunk_begin x (zlen p) ts at_call) in
    if redis_tls_record_head d (dir_of c d) p then
      let '(r, c) := note r c d LK_REDIS_NOTE_TLS ts in (r, c <| c_flags ::= fun w => set_flag w LK_CONN_TLS |>)
    else
      let '(r, c) := match f_st (frame c d) with
                     | LK_FR_DIRTY => if bool_decide (rd_st (dir_of c d) = REDIS_FR_SCAN) then (r, c) else go_scan r c d
                     | _ => (r, c)
                     end in
      let '(r, c, e) := redis_loop (redis_fuel p) r c d p 0 ts at_call in
      match e with
      | LoopDone => if redis_value_open (dir_of c d) then stash r c d p (zlen p) else (r, c)
      | _ => (r, c)
      end.

(** What a hole eats of a bulk payload and its CRLF: the rest of the hole. *)
Definition hole_skip r c d (n : Z) : reasm * conn * Z :=
  let '(c, n) := match rd_st (dir_of c d) with
                 | REDIS_FR_BULK => let '(x, take) := bulk_skip (dir_of c d) n in (upd_dir c d (fun _ => x), n - take)
                 | _ => (c, n)
                 end in
  match rd_st (dir_of c d) with
  | REDIS_FR_BULK_EOL =>
      if n =? 0 then (r, c, n)
      else
        let x := dir_of c d in
        let take := if rd_eol_left x <? n then rd_eol_left x else n in
        let c := upd_dir c d (fun x => x <| rd_eol_left ::= fun e => u8 (e - take) |>) in
        let n := n - take in
        if rd_eol_left (dir_of c d) =? 0
        then let '(r, c) := value_done r c d None 0 (u64 (rd_off x - n)) in (r, c, n) else (r, c, n)
  | _ => (r, c, n)
  end.
Definition redis_stream_hole r c d (n : Z) : reasm * conn :=
  let '(ok, r, c) := redis_frame_get r c in
  if negb ok then redis_no_state r c d 0
  else if n =? 0 then (r, c)
  else
    let c := upd_dir c d (fun x => x <| rd_holes ::= inc64 |> <| rd_off ::= fun o => u64 (o + n) |>) in
    let ts := rd_last_ts (dir_of c d) in
    let st := rd_st (dir_of c d) in
    match f_st (frame c d), st with
    | _, REDIS_FR_SCAN => (r, c)
    | LK_FR_DIRTY, _ => go_scan r c d
    | _, _ =>
        let '(r, c, n) := hole_skip r c d n in
        if n =? 0 then (r, c)
        else
          let '(r, c) := note r c d LK_REDIS_NOTE_VALUE_HOLE ts in
          go_scan (bump r (fun s => s <| rs_hdr_holes ::= inc64 |>)) c d
    end.

(** The vtable: the message-framing hooks are NULL. *)
Definition lk_proto_redis_ops : lk_proto_ops S P redis_frame :=
  ProtoOps LK_PROTO_F_STREAM (fun _ _ => 0) (fun c _ => (false, c)) (fun c _ m => (c, m)) None None
    (fun c _ _ => (0, false, c)) (fun _ _ _ _ => false) redis_stream_bytes redis_stream_hole.
End Frame.
