(* ===== verification/RedisRefine.v ===== *)
(** RESP framing as a machine over single bytes: no chunks, no offsets, no slabs.
    It is the specification the framer is proved against.

    The RESP framer computes this machine, wherever the capture cuts
    the stream.  The consumer here records what it is given. *)
From Stdlib Require Import Ascii String.
From stdpp Require Import base list option.
From S2P Require Import Prelude Conn Reassembly StreamSafe Proto RedisFrame.
#[local] Open Scope Z_scope.

(** What is being read. *)
Inductive mode :=
  | MValue                                                                 (* the start of a value *)
  | MLine (sh : redis_vshape) (saw : bool) (num : list Z) (bad : bool) (ln : Z)
  | MBulk (rest_n : Z)
  | MEol (k : Z)                                                           (* [k] bytes of CRLF owed *)
  | MInline (arg : bool) (ln : Z).
(** The elements owed at each open level, the open value's type, its captured bytes, its
    size on the wire and the time of its first byte. *)
Record astate := AState { a_mode : mode; a_stack : list Z; a_type : Z; a_acc : list Z; a_len : Z; a_ts : Z }.
#[global] Instance rstate_upd : Updatable astate := fun a =>
  AState (a_mode a) (a_stack a) (a_type a) (a_acc a) (a_len a) (a_ts a).
Definition idle : astate := AState MValue [] 0 [] 0 0.
Definition is_open (a : astate) : bool := match a_mode a with MValue => negb (zlen (a_stack a) =? 0) | _ => true end.

Definition amsg (a : astate) : lk_msg :=
  let body := ztake LK_MSG_BODY_MAX (a_acc a) in
  let len := u64 (a_len a) in
  Msg (a_ts a) (a_type a) (if zlen body <? len then LK_MSG_BODY_TRUNC else 0) (if 2 ^ 32 - 1 <? len then 2 ^ 32 - 1 else len) body.

Fixpoint apop (stack : list Z) : list Z :=
  match stack with [] => [] | n :: rest => if n =? 1 then apop rest else (n - 1) :: rest end.
(** A value is complete. *)
Definition aclose (a : astate) : astate * list lk_msg :=
  match apop (a_stack a) with
  | [] => (idle, [amsg a])
  | stack => (a <| a_mode := MValue |> <| a_stack := stack |>, [])
  end.
Definition aput (a : astate) (b : Z) : astate := a <| a_acc ::= fun l => l ++ [b] |> <| a_len ::= fun n => n + 1 |>.

(** A length line is complete. *)
Definition aline (a : astate) (sh : redis_vshape) (num : list Z) (bad : bool) : option (astate * list lk_msg) :=
  match sh with
  | REDIS_V_LINE => Some (aclose a)
  | _ =>
      v ← (if bad then @None Z else redis_parse_i64 num);
      match sh with
      | REDIS_V_BULK =>
          match redis_bulk_len v with
          | None => None
          | Some (payload, null) => Some (if null then aclose a else (a <| a_mode := MBulk payload |>, []))
          end
      | _ =>
          elems ← redis_agg_count v (bool_decide (sh = REDIS_V_AGGPAIR));
          if elems =? 0 then Some (aclose a)
          else if LK_REDIS_MAX_DEPTH <=? zlen (a_stack a) then None
          else Some (a <| a_stack ::= cons elems |> <| a_mode := MValue |>, [])
      end
  end.
Definition anum (saw : bool) (num : list Z) (bad : bool) (b : Z) : list Z * bool :=
  let bad := saw || bad in
  if b =? 13 then (num, bad) else if zlen num <? LK_REDIS_NUM_MAX then (num ++ [b], bad) else (num, true).
Definition ainline (a : astate) (arg : bool) (ln b : Z) : option (astate * list lk_msg) :=
  let a := aput a b in
  if b =? 10 then Some (idle, if arg then [amsg a] else [])
  else if LK_REDIS_INLINE_MAX <? ln + 1 then None
  else Some (a <| a_mode := MInline (negb ((b =? 13) || (b =? 32) || (b =? 9)) || arg) (ln + 1) |>, []).
Definition aeol (a : astate) (k b : Z) : option (astate * list lk_msg) :=
  let a := aput a b in
  if negb (b =? if k =? 2 then 13 else 10) then None
  else Some (if k =? 1 then aclose a else (a <| a_mode := MEol (k - 1) |>, [])).

(** One byte; [None] when framing is lost, or a value starts like a TLS record. *)
Definition astep (d : lk_dir) (ts : Z) (a : astate) (b : Z) : option (astate * list lk_msg) :=
  match a_mode a with
  | MValue =>
      let top := zlen (a_stack a) =? 0 in
      if top && ((b =? 13) || (b =? 10)) then Some (a, [])
      else if top && (b =? 0x16) then None
      else
        let a := if top then AState MValue [] b [] 0 ts else a in
        match shape_of b with
        | REDIS_V_BAD =>
            if top && bool_decide (d = LK_DIR_RECV) then ainline (a <| a_type := LK_REDIS_MSG_INLINE |>) false 0 b else None
        | sh => Some (aput a b <| a_mode := MLine sh false [] false 0 |>, [])
        end
  | MLine sh saw num bad ln =>
      if saw && (b =? 10) then aline (aput a b) sh num bad
      else if LK_REDIS_LINE_MAX <? ln + 1 then None
      else let '(num, bad) := anum saw num bad b in Some (aput a b <| a_mode := MLine sh (b =? 13) num bad (ln + 1) |>, [])
  | MBulk rest_n =>
      if rest_n =? 0 then aeol a 2 b
      else Some (aput a b <| a_mode := if rest_n =? 1 then MEol 2 else MBulk (rest_n - 1) |>, [])
  | MEol k => aeol a k b
  | MInline arg ln => ainline a arg ln b
  end.
Fixpoint arun (d : lk_dir) (ts : Z) (a : astate) (bs : list Z) : option (astate * list lk_msg) :=
  match bs with
  | [] => Some (a, [])
  | b :: bs => '(a, m1) ← astep d ts a b; '(a, m2) ← arun d ts a bs; Some (a, m1 ++ m2)
  end.
(** [n] bytes lost inside a bulk payload. *)
Definition ahole (a : astate) (n : Z) : option astate :=
  match a_mode a with
  | MBulk rest_n => if (n <=? 0) || (rest_n <? n) then None else Some (a <| a_len ::= fun l => l + n |> <| a_mode := if rest_n =? n then MEol 2 else MBulk (rest_n - n) |>)
  | _ => None
  end.

Fixpoint segs_run (d : lk_dir) (a : astate) (ss : list seg) : option (astate * list lk_msg) :=
  match ss with
  | [] => Some (a, [])
  | Seg ts bs :: ss => '(a, m1) ← arun d ts a bs; '(a, m2) ← segs_run d a ss; Some (a, m1 ++ m2)
  | Gap n :: ss => a ← ahole a n; segs_run d a ss
  end.

Lemma arun_app d ts bs : forall a bs', arun d ts a (bs ++ bs') =
  '(a, m1) ← arun d ts a bs; '(a, m2) ← arun d ts a bs'; Some (a, m1 ++ m2).
Proof.
  induction bs as [|b bs IH]; intros a bs'; cbn [app arun mbind option_bind].
  { destruct (arun d ts a bs') as [[? ?]|]; done. }
  destruct (astep d ts a b) as [[a1 m1]|]; cbn [mbind option_bind]; [|done]. rewrite IH.
  destruct (arun d ts a1 bs) as [[a2 m2]|]; cbn [mbind option_bind]; [|done].
  destruct (arun d ts a2 bs') as [[a3 m3]|]; cbn [mbind option_bind]; [|done]. by rewrite app_assoc.
Qed.

(** ** Slices of a chunk *)


Section Refine.
Context {P : Type} (d : lk_dir).
Abbreviation reasm := (lk_reasm (list lk_msg) P redis_frame).
Abbreviation conn := (lk_conn P redis_frame).
Definition rec_msgs : lk_msg_sink (list lk_msg) P redis_frame := Sink (Some (fun l c _ m => (l ++ [m], c))) None None.
Implicit Types (r : reasm) (c : conn) (f : lk_frame) (x : redis_dir) (a : astate) (p q : list Z) (i ts : Z) (ms : list lk_msg).

(** ** What an operation sees of the connection *)
Definition has c (fl : Z) f x : Prop := is_Some (c_frame_state c) /\ c_flags c = fl /\ frame c d = f /\ dir_of c d = x.
Lemma has_dir c fl f x g : has c fl f x -> has (upd_dir c d g) fl f (g x).
Proof.
  intros ([rf E] & <- & <- & <-). unfold has, upd_dir, dir_of. cbn [c_frame_state c_flags upd]. rewrite E. cbn [fmap option_fmap option_map].
  split; [by eexists|]. split; [done|]. split; [by destruct d|]. by destruct d.
Qed.
Lemma has_frame c fl f x g : has c fl f x -> has (upd_frame c d g) fl (g f) x.
Proof. intros (H & <- & <- & <-). unfold has, upd_frame, dir_of. split; [by destruct d|]. split; [by destruct d|]. split; [by destruct d|]. by destruct d. Qed.
Lemma has_dir_of c fl f x : has c fl f x -> dir_of c d = x.
Proof. by intros (_ & _ & _ & ->). Qed.
Lemma has_frame_of c fl f x : has c fl f x -> frame c d = f.
Proof. by intros (_ & _ & -> & _). Qed.
Lemma has_flags c fl f x : has c fl f x -> c_flags c = fl.
Proof. by intros (_ & -> & _ & _). Qed.

(** The recorder, every allocation succeeding. *)
Definition good r : Prop := r_sink r = rec_msgs /\ r_oom r = [].
Definition heard r ms r' : Prop := good r' /\ r_ctx r' = r_ctx r ++ ms.
Lemma heard_nil r : good r -> heard r [] r.
Proof. intros H. split; [done|]. by rewrite app_nil_r. Qed.
Lemma heard_app r ms r' ms' r'' : heard r ms r' -> heard r' ms' r'' -> heard r (ms ++ ms') r''.
Proof. intros [_ E] [H E']. split; [done|]. by rewrite E', E, app_assoc. Qed.
Lemma heard_put r b : good r -> heard r [] (lk_reasm_buf_put r b).
Proof.
  intros [H1 H2]. unfold lk_reasm_buf_put, buf_put. destruct b; [|by apply heard_nil]. destruct (_ <? _); [|by apply heard_nil].
  split; [done|]. by rewrite app_nil_r.
Qed.
Lemma heard_get r : good r -> exists r', lk_reasm_buf_get r = (true, r') /\ heard r [] r'.
Proof.
  intros [H1 H2]. unfold lk_reasm_buf_get, buf_get, malloc. destruct (negb _); [|rewrite H2]; (eexists; split; [reflexivity|]; split; [done|by rewrite app_nil_r]).
Qed.
Lemma heard_emit r c fl f x m : good r -> has c fl f x -> f_after_resync f = false ->
  exists r', lk_reasm_emit r c d m = (r', c) /\ heard r [m] r'.
Proof.
  intros [H1 H2] Hc Hf. unfold lk_reasm_emit, stamp_resync. rewrite (has_frame_of _ _ _ _ Hc), Hf. unfold deliver.
  destruct (has_flag _ _); cbn [bump r_sink upd]; rewrite H1; eexists; (split; [reflexivity|split; [done|done]]).
Qed.

(** ** The relation *)
Definition mode_rel x (m : mode) : Prop :=
  match m with
  | MValue => rd_st x = REDIS_FR_VALUE
  | MLine sh saw num bad ln =>
      rd_st x = REDIS_FR_LINE /\ rd_shape x = sh /\ rd_saw_cr x = saw /\ rd_num x = num /\ rd_num_bad x = bad /\ rd_line_n x = ln
  | MBulk n => rd_st x = REDIS_FR_BULK /\ rd_bulk_left x = n /\ rd_eol_left x = 2 /\ 0 <= n
  | MEol k => rd_st x = REDIS_FR_BULK_EOL /\ rd_eol_left x = k /\ 1 <= k <= 2
  | MInline arg ln => rd_st x = REDIS_FR_INLINE /\ rd_inline_arg x = arg /\ rd_line_n x = ln /\ rd_stack x = []
  end.
(** The open value: its bytes are those stashed before this chunk and those of the chunk
    from [cur] to [i]. *)
Definition val p i f x a : Prop :=
  rd_vtype x = a_type a /\ rd_v_ts x = a_ts a /\ u64 (rd_cbase x + i - rd_v_pos x) = u64 (a_len a) /\
  exists old, a_acc a = old ++ ztake (i - rd_cur x) (zdrop (rd_cur x) p) /\ buf_bytes f = ztake LK_MSG_BODY_MAX old /\ (f_buf f = None <-> old = []).
Record base p i f x a : Prop := Base {
  bs_idx : 0 <= rd_cur x <= i /\ i <= zlen p;
  bs_stack : rd_stack x = a_stack a;
  bs_levels : Forall (fun n => 1 <= n < 2 ^ 32) (a_stack a);
  bs_lost : rd_lost_prefix x = false;
  bs_st : f_st f = LK_FR_HEADER;
  bs_resync : f_after_resync f = false;
  bs_off : rd_off x = u64 (rd_cbase x + zlen p) }.
Definition sim p i f x a : Prop :=
  base p i f x a /\ mode_rel x (a_mode a) /\ if is_open a then val p i f x a else f_buf f = None /\ a = idle.

Lemma val_byte p i f x a : val p i f x a -> 0 <= rd_cur x <= i -> i < zlen p -> val p (i + 1) f x (aput a (znth p i)).
Proof.
  intros (H1 & H2 & H3 & old & H4 & H5 & H6) Hc Hi. split; [done|]. split; [done|]. split.
  - change (u64 (rd_cbase x + (i + 1) - rd_v_pos x) = u64 (a_len a + 1)). replace (rd_cbase x + (i + 1) - rd_v_pos x) with (rd_cbase x + i - rd_v_pos x + 1) by lia.
    by rewrite <- u64_idem_add, H3, u64_idem_add.
  - exists old. split; [|done]. rewrite ztake_snoc by done. change (a_acc (aput a (znth p i))) with (a_acc a ++ [znth p i]). by rewrite H4, app_assoc.
Qed.
(** [val] and [base] read a few fields only. *)
Lemma val_keep p i f x a x' a' : val p i f x a ->
  rd_vtype x' = rd_vtype x -> rd_v_ts x' = rd_v_ts x -> rd_cbase x' = rd_cbase x -> rd_v_pos x' = rd_v_pos x -> rd_cur x' = rd_cur x ->
  a_type a' = a_type a -> a_ts a' = a_ts a -> a_len a' = a_len a -> a_acc a' = a_acc a -> val p i f x' a'.
Proof. unfold val. by intros H -> -> -> -> -> -> -> -> ->. Qed.
Lemma base_byte p i f x a b : base p i f x a -> i < zlen p -> base p (i + 1) f x (aput a b).
Proof. intros [? ? ? ? ? ? ?] Hi. split; try done. lia. Qed.
Lemma base_keep p i f x a x' a' : base p i f x a -> rd_cur x' = rd_cur x -> rd_stack x' = rd_stack x -> rd_lost_prefix x' = rd_lost_prefix x ->
  rd_cbase x' = rd_cbase x -> rd_off x' = rd_off x -> a_stack a' = a_stack a -> base p i f x' a'.
Proof. intros [? ? ? ? ? ? ?] E1 E2 E3 E4 E5 E6. split; congruence. Qed.

(** ** Stashing and emitting *)
Lemma stash_sim p i r c fl f x a : has c fl f x -> good r -> base p i f x a -> val p i f x a ->
  exists r' c' b, stash r c d p i = (r', c') /\ heard r [] r' /\ has c' fl (f <| f_buf := b |>) (x <| rd_cur := i |>) /\
    default [] b = ztake LK_MSG_BODY_MAX (a_acc a) /\ (b = None <-> a_acc a = []).
Proof.
  intros Hc Hr [Hi Hst Hlv Hlo Hfs Hrs Hof] (_ & _ & _ & old & Ha & Hb & Hn). unfold stash. rewrite (has_dir_of _ _ _ _ Hc).
  destruct (Z.leb_spec i (rd_cur x)) as [Hle|Hlt].
  { exists r, c, (f_buf f). split; [done|]. split; [by apply heard_nil|]. assert (rd_cur x = i) as Ei by lia.
    rewrite Ha, Ei, Z.sub_diag, (ztake_0 0), app_nil_r by lia. split; [|split; [exact Hb|exact Hn]]. destruct Hc as (H1 & H2 & H3 & H4). split; [done|]. split; [done|].
    split; [by rewrite H3; destruct f|]. rewrite H4. destruct x; cbn in *; by subst. }
  rewrite Hlo, (has_frame_of _ _ _ _ Hc). cbn [orb]. set (sl := ztake (i - rd_cur x) (zdrop (rd_cur x) p)) in *.
  assert (zlen sl = i - rd_cur x) as Hsl by (subst sl; rewrite zlen_ztake, zlen_zdrop by lia; lia).
  assert (old ++ sl <> []) as Hne. { intros E. apply app_nil in E as [_ E]. rewrite E in Hsl. change (zlen []) with 0 in Hsl. lia. }
  unfold buf_len. rewrite Hb. assert (0 <= LK_MSG_BODY_MAX) as Hmax by done. pose proof (zlen_ztake LK_MSG_BODY_MAX old Hmax) as Hl. destruct (Z.leb_spec LK_MSG_BODY_MAX (zlen (ztake LK_MSG_BODY_MAX old))) as [Hfull|Hroom].
  { eexists r, _, (f_buf f). split; [reflexivity|]. split; [by apply heard_nil|]. split; [|split].
    - replace (f <| f_buf := f_buf f |>) with f by by destruct f. by apply (has_dir _ _ _ _ (fun x => x <| rd_cur := i |>)).
    - change (buf_bytes f = ztake LK_MSG_BODY_MAX (a_acc a)). rewrite Hb, Ha. symmetry. apply ztake_app_le. lia.
    - rewrite Hn, Ha. split; [|done]. intros ->. by rewrite (ztake_all _ []) in Hfull by done. }
  assert (forall c0, has c0 fl (f <| f_buf := Some (ztake LK_MSG_BODY_MAX old) |>) x ->
    exists b, has (stash_append c0 d p i) fl (f <| f_buf := b |>) (x <| rd_cur := i |>) /\ default [] b = ztake LK_MSG_BODY_MAX (a_acc a) /\ (b = None <-> a_acc a = [])) as Happ.
  { intros c0 H0. exists (Some (ztake LK_MSG_BODY_MAX (a_acc a))). split; [|split; [done|split; [done|]; rewrite Ha; done]].
    unfold stash_append. rewrite (has_dir_of _ _ _ _ H0), (has_frame_of _ _ _ _ H0). unfold buf_len. change (buf_bytes (f <| f_buf := Some (ztake LK_MSG_BODY_MAX old) |>)) with (ztake LK_MSG_BODY_MAX old).
    set (k := if _ <? _ then _ else _). assert (ztake k (zdrop (rd_cur x) p) = ztake (LK_MSG_BODY_MAX - zlen (ztake LK_MSG_BODY_MAX old)) sl) as Ek.
    { subst k sl. rewrite ztake_ztake. f_equal. destruct (Z.ltb_spec (i - rd_cur x) (LK_MSG_BODY_MAX - zlen (ztake LK_MSG_BODY_MAX old))); lia. }
    rewrite Ek. pose proof (has_frame _ _ _ _ (fun f => f <| f_buf ::= fmap (fun b => b ++ ztake (LK_MSG_BODY_MAX - zlen (ztake LK_MSG_BODY_MAX old)) sl) |>) H0) as H1.
    apply (has_dir _ _ _ _ (fun x => x <| rd_cur := i |>)) in H1. unfold set_cur, buf_append. by rewrite Ha, ztake_prefix by done. }
  destruct (f_buf f) as [b0|] eqn:Eb.
  - destruct (Happ c) as (b & H1 & H2).
    { replace (f <| f_buf := Some (ztake LK_MSG_BODY_MAX old) |>) with f; [done|]. unfold buf_bytes in Hb. rewrite Eb in Hb. cbn in Hb. rewrite <- Hb, <- Eb. by destruct f. }
    exists r, (stash_append c d p i), b. split; [done|]. split; [by apply heard_nil|done].
  - destruct (heard_get r Hr) as (r' & Eg & Hg). rewrite Eg. destruct (Happ (upd_frame c d (fun f => f <| f_buf := Some [] |>))) as (b & H1 & H2).
    + assert (old = []) as -> by by apply Hn. rewrite (ztake_all _ []) by done. by apply (has_frame _ _ _ _ (fun f => f <| f_buf := Some [] |>)).
    + eexists r', _, b. split; [reflexivity|]. done.
Qed.

Lemma emit_sim p i r c fl f x a : has c fl f x -> good r -> base p i f x a -> val p i f x a ->
  exists r' c', value_emit r c d (Some p) i (u64 (rd_cbase x + i)) = (r', c') /\ heard r [amsg a] r' /\
    has c' fl (f <| f_buf := None |>) (x <| rd_lost_prefix := false |> <| rd_cur := i |>).
Proof.
  intros Hc Hr Hb Hv. pose proof Hb as [Hi Hst Hlv Hlo Hfs Hrs Hof]. pose proof Hv as (V1 & V2 & V3 & old & Ha & Hbuf & Hn).
  unfold value_emit. rewrite (has_dir_of _ _ _ _ Hc), (has_frame_of _ _ _ _ Hc), Hlo, orb_false_r.
  assert (u64 (u64 (rd_cbase x + i) - rd_v_pos x) = u64 (a_len a)) as Elen.
  { unfold Z.sub. rewrite u64_idem_add. exact V3. }
  assert (forall r1 c1 f1 x1 body, has c1 fl f1 x1 -> good r1 -> f_after_resync f1 = false -> f1 <| f_buf := None |> = f <| f_buf := None |> ->
    x1 <| rd_cur := i |> = x <| rd_cur := i |> -> body = ztake LK_MSG_BODY_MAX (a_acc a) ->
    exists r' c', (let '(r, c) := lk_reasm_emit r1 c1 d (Msg (rd_v_ts (dir_of c1 d)) (rd_vtype (dir_of c1 d)) (if zlen body <? u64 (u64 (rd_cbase x + i) - rd_v_pos x) then LK_MSG_BODY_TRUNC else 0)
        (if 2 ^ 32 - 1 <? u64 (u64 (rd_cbase x + i) - rd_v_pos x) then 2 ^ 32 - 1 else u64 (u64 (rd_cbase x + i) - rd_v_pos x)) body) in prefix_release r c d i) = (r', c') /\
      heard r1 [amsg a] r' /\ has c' fl (f <| f_buf := None |>) (x <| rd_lost_prefix := false |> <| rd_cur := i |>)) as Hend.
  { intros r1 c1 f1 x1 body H1 Hr1 Hf1 Ef Ex ->. rewrite Elen, (has_dir_of _ _ _ _ H1).
    assert (rd_v_ts x1 = rd_v_ts x /\ rd_vtype x1 = rd_vtype x) as [-> ->].
    { split; [exact (f_equal rd_v_ts Ex)|exact (f_equal rd_vtype Ex)]. }
    rewrite V1, V2. match goal with |- context [Msg ?q ?w ?e ?t ?y] => change (Msg q w e t y) with (amsg a) end.
    destruct (heard_emit r1 c1 fl f1 x1 (amsg a) Hr1 H1 Hf1) as (r2 & Ee & Hh). rewrite Ee.
    unfold prefix_release, buf_release. eexists _, _. split; [reflexivity|]. split.
    - apply (heard_app r1 [amsg a] r2 []); [done|]. apply heard_put. apply Hh.
    - pose proof (has_frame _ _ _ _ (fun f => f <| f_buf := None |>) H1) as H2. apply (has_dir _ _ _ _ (fun x => x <| rd_lost_prefix := false |> <| rd_cur := i |>)) in H2.
      cbv beta in H2. rewrite Ef in H2. replace (x <| rd_lost_prefix := false |> <| rd_cur := i |>) with (x1 <| rd_lost_prefix := false |> <| rd_cur := i |>); [done|].
      exact (f_equal (fun x => x <| rd_lost_prefix := false |>) Ex). }
  destruct (Z.eqb_spec (buf_len f) 0) as [E0|E0]; cbn [negb].
  - assert (old = []) as ->.
    { unfold buf_len in E0. rewrite Hbuf, zlen_ztake in E0 by done. unfold LK_MSG_BODY_MAX in E0. apply zlen_0. pose proof (zlen_nonneg old). lia. }
    apply (Hend r c f x); try done. rewrite Ha. cbn [app]. rewrite ztake_ztake. f_equal. destruct (Z.ltb_spec LK_MSG_BODY_MAX (i - rd_cur x)); lia.
  - destruct (stash_sim p i r c fl f x a Hc Hr Hb Hv) as (r1 & c1 & b & -> & H1 & H2 & H3 & H4).
    destruct (Hend r1 c1 (f <| f_buf := b |>) (x <| rd_cur := i |>) (buf_bytes (frame c1 d))) as (r2 & c2 & E & Hh & Hc2); try done; [apply H1|by rewrite (has_frame_of _ _ _ _ H2)|].
    exists r2, c2. split; [exact E|]. split; [by apply (heard_app r [] r1 [amsg a])|done].
Qed.

Lemma pop_apop stk : Forall (fun n => 1 <= n < 2 ^ 32) stk -> pop_done stk = apop stk /\ Forall (fun n => 1 <= n < 2 ^ 32) (apop stk).
Proof.
  induction 1 as [|n stk Hn Hs [IH1 IH2]]; [done|]. cbn [pop_done apop]. rewrite u32_small by lia. destruct (Z.eqb_spec (n - 1) 0), (Z.eqb_spec n 1); try lia; [done|].
  split; [done|]. constructor; [lia|done].
Qed.
Lemma close_sim p i r c fl f x a : has c fl f x -> good r -> base p i f x a -> val p i f x a ->
  exists r' c' f' x', value_done r c d (Some p) i (u64 (rd_cbase x + i)) = (r', c') /\ heard r (aclose a).2 r' /\
    has c' fl f' x' /\ sim p i f' x' (aclose a).1.
Proof.
  intros Hc Hr Hb Hv. pose proof Hb as [Hi Hst Hlv Hlo Hfs Hrs Hof]. unfold value_done. destruct (pop_apop _ Hlv) as [Ep Hlv'].
  pose proof (has_dir _ _ _ _ (fun x => x <| rd_stack ::= pop_done |> <| rd_st := REDIS_FR_VALUE |>) Hc) as H1. set (c1 := upd_dir c d _) in *. clearbody c1.
  rewrite (has_dir_of _ _ _ _ H1). unfold rd_depth. set (x1 := x <| rd_stack ::= pop_done |> <| rd_st := REDIS_FR_VALUE |>) in *.
  assert (rd_stack x1 = apop (a_stack a)) as Es by (change (pop_done (rd_stack x) = apop (a_stack a)); by rewrite Hst). rewrite Es. unfold aclose.
  assert (base p i f x1 (a <| a_mode := MValue |> <| a_stack := apop (a_stack a) |>)) as Hb1 by by split.
  destruct (apop (a_stack a)) as [|n rest].
  - change (zlen [] =? 0) with true. cbv iota. cbn [fst snd]. destruct (emit_sim p i r c1 fl f x1 (a <| a_mode := MValue |> <| a_stack := [] |>) H1 Hr Hb1) as (r2 & c2 & E & Hh & H2); [by eapply val_keep|].
    eexists r2, c2, _, _. split; [exact E|]. split; [exact Hh|]. split; [exact H2|]. split; [|done]. split; try done; cbn; lia.
  - destruct (Z.eqb_spec (zlen (n :: rest)) 0) as [E0|_]; [rewrite zlen_cons in E0; pose proof (zlen_nonneg rest); lia|].
    exists r, c1, f, x1. split; [done|]. split; [by apply heard_nil|]. split; [done|]. split; [done|]. split; [done|].
    unfold is_open. cbn [a_mode a_stack upd fst]. destruct (Z.eqb_spec (zlen (n :: rest)) 0) as [E0|_]; [rewrite zlen_cons in E0; pose proof (zlen_nonneg rest); lia|]. by eapply val_keep.
Qed.

Lemma agg_count_range v b n : redis_agg_count v b = Some n -> 0 <= n < 2 ^ 32.
Proof. unfold redis_agg_count. destruct (v <? 0); [intros [= <-]; lia|]. destruct (_ <? v); [done|]. intros [= <-]. apply u32_range. Qed.
Lemma push_sim p i r c fl f x a n (g := fun x => x <| rd_stack ::= cons n |> <| rd_st := REDIS_FR_VALUE |>) :
  has c fl f x -> good r -> base p i f x a -> val p i f x a -> 1 <= n < 2 ^ 32 ->
  exists r' c' f' x', (r, upd_dir c d g) = (r', c') /\ heard r [] r' /\ has c' fl f' x' /\ sim p i f' x' (a <| a_stack ::= cons n |> <| a_mode := MValue |>).
Proof.
  intros Hc Hr [Hi Hst Hlv Hlo Hfs Hrs Hof] Hv Hn. exists r, (upd_dir c d g), f, (g x). split; [done|]. split; [by apply heard_nil|]. split; [by apply has_dir|].
  split; [split; try done; [change (n :: rd_stack x = n :: a_stack a); by rewrite Hst|by constructor]|]. split; [done|].
  unfold is_open. cbn [a_mode a_stack upd]. destruct (Z.eqb_spec (zlen (n :: a_stack a)) 0) as [E0|_]; [rewrite zlen_cons in E0; pose proof (zlen_nonneg (a_stack a)); lia|].
  by eapply val_keep.
Qed.
Lemma line_sim p i r c fl f x a ts a' ms : has c fl f x -> good r -> base p i f x a -> val p i f x a ->
  aline a (rd_shape x) (rd_num x) (rd_num_bad x) = Some (a', ms) ->
  exists r' c' f' x', line_complete r c d p i ts = (r', c') /\ heard r ms r' /\ has c' fl f' x' /\ sim p i f' x' a'.
Proof.
  intros Hc Hr Hb Hv E. pose proof Hb as [Hi Hst Hlv Hlo Hfs Hrs Hof]. unfold line_complete. rewrite (has_dir_of _ _ _ _ Hc).
  destruct (close_sim p i r c fl f x a Hc Hr Hb Hv) as (rc & cc & fc & xc & Ec & Hhc & Hcc & Hsc).
  assert (Some (aclose a) = Some (a', ms) -> exists r' c' f' x', value_done r c d (Some p) i (u64 (rd_cbase x + i)) = (r', c') /\ heard r ms r' /\ has c' fl f' x' /\ sim p i f' x' a') as Hclose.
  { intros Ecl. injection Ecl as Ecl. rewrite Ecl in *. by exists rc, cc, fc, xc. }
  assert (forall g m, val p i f (g x) (a <| a_mode := m |>) -> base p i f (g x) (a <| a_mode := m |>) -> mode_rel (g x) m -> m <> MValue ->
    exists r' c' f' x', (r, upd_dir c d g) = (r', c') /\ heard r [] r' /\ has c' fl f' x' /\ sim p i f' x' (a <| a_mode := m |>)) as Hset.
  { intros g m H1 H2 H3 H4. exists r, (upd_dir c d g), f, (g x). split; [done|]. split; [by apply heard_nil|]. split; [by apply has_dir|]. split; [done|]. split; [done|].
    unfold is_open. cbn [a_mode upd]. by destruct m. }
  unfold aline in E. cbv zeta. destruct (rd_shape x) eqn:Esh; cbv iota in E |- *; [|exact (Hclose E)| | |]; (destruct (rd_num_bad x); [done|]);
    (destruct (redis_parse_i64 (rd_num x)) as [v|]; [|done]); cbn [mbind option_bind] in E.
  2: { destruct (redis_bulk_len v) as [[n null]|] eqn:El; [|done]. destruct null; [by apply Hclose|]. injection E as <- <-.
       apply (Hset (fun x => x <| rd_bulk_left := n |> <| rd_eol_left := 2 |> <| rd_st := REDIS_FR_BULK |>) (MBulk n)); [by eapply val_keep|by eapply base_keep| |done].
       split; [done|]. split; [done|]. split; [done|]. unfold redis_bulk_len in El. destruct (Z.ltb_spec v 0); [done|]. destruct (_ <? v); [done|]. injection El as <-. lia. }
  all: match goal with |- context [redis_agg_count ?v ?b] => destruct (redis_agg_count v b) as [n|] eqn:En; [|done] end; cbn [mbind option_bind] in E; unfold agg_open; rewrite (has_dir_of _ _ _ _ Hc);
    (destruct (Z.eqb_spec n 0) as [|Hn0]; [by apply Hclose|]); unfold rd_depth; rewrite Hst; (destruct (_ <=? _); [done|]); injection E as <- <-;
    (assert (1 <= n < 2 ^ 32) as Hn by (pose proof (agg_count_range _ _ _ En); lia));
    by eapply push_sim.
Qed.

(** ** Feeding *)
(** Reading [q] from [a] is reporting [ms] and reading [q'] from [a']. *)
Definition consumed ts a q ms a' q' : Prop := arun d ts a q = ('(e, m) ← arun d ts a' q'; Some (e, ms ++ m)).
Lemma consumed_nil ts a q : consumed ts a q [] a q.
Proof. unfold consumed. by destruct (arun d ts a q) as [[? ?]|]. Qed.
Lemma consumed_byte ts a b q ms a' : astep d ts a b = Some (a', ms) -> consumed ts a (b :: q) ms a' q.
Proof. intros E. unfold consumed. cbn [arun]. by rewrite E. Qed.
Lemma consumed_trans ts a q ms a1 q1 ms' a2 q2 : consumed ts a q ms a1 q1 -> consumed ts a1 q1 ms' a2 q2 -> consumed ts a q (ms ++ ms') a2 q2.
Proof. unfold consumed. intros -> ->. destruct (arun d ts a2 q2) as [[? ?]|]; cbn; by rewrite ?app_assoc. Qed.

(** The outcome of a feed that starts at [i]. *)
Definition fed p i r fl ts a (res : reasm * conn * Z) : Prop :=
  exists r' c' i' f' x' a' ms, res = (r', c', i') /\ heard r ms r' /\ has c' fl f' x' /\ sim p i' f' x' a' /\
    consumed ts a (zdrop i p) ms a' (zdrop i' p) /\ (i < i' \/ i' = i /\ zdrop i p = []).
Lemma fed_here p i r c fl f x a ts : zdrop i p = [] -> has c fl f x -> good r -> sim p i f x a -> fed p i r fl ts a (r, c, i).
Proof. intros E Hc Hr Hs. exists r, c, i, f, x, a, []. split; [done|]. split; [by apply heard_nil|]. split; [done|]. split; [done|]. split; [apply consumed_nil|by right]. Qed.
Lemma fed_next p i r fl ts a b q a1 res : 0 <= i -> zdrop i p = b :: q -> astep d ts a b = Some (a1, []) -> fed p (i + 1) r fl ts a1 res -> fed p i r fl ts a res.
Proof.
  intros Hi Eq E (r' & c' & i' & f' & x' & a' & ms & H1 & H2 & H3 & H4 & H5 & H6). destruct (znth_zdrop _ _ _ _ Eq Hi) as (_ & _ & Eq').
  exists r', c', i', f', x', a', ms. do 4 (split; [done|]). split; [|lia]. rewrite Eq. rewrite Eq' in H5. exact (consumed_trans _ _ _ [] _ _ _ _ _ (consumed_byte _ _ _ _ _ _ E) H5).
Qed.
Lemma fed_last p i r c r' fl f x ts a b q a1 ms : 0 <= i -> zdrop i p = b :: q -> astep d ts a b = Some (a1, ms) ->
  heard r ms r' -> has c fl f x -> sim p (i + 1) f x a1 -> fed p i r fl ts a (r', c, i + 1).
Proof.
  intros Hi Eq E Hh Hc Hs. destruct (znth_zdrop _ _ _ _ Eq Hi) as (_ & _ & Eq'). exists r', c, (i + 1), f, x, a1, ms. do 4 (split; [done|]). split; [|lia].
  rewrite Eq, Eq'. by apply consumed_byte.
Qed.
Lemma arun_step ts a b q : arun d ts a (b :: q) <> None -> exists a1 ms, astep d ts a b = Some (a1, ms) /\ arun d ts a1 q <> None.
Proof. cbn [arun]. destruct (astep d ts a b) as [[a1 ms]|]; [|done]. cbn [mbind option_bind]. intros H. exists a1, ms. split; [done|]. by destruct (arun d ts a1 q). Qed.

Lemma line_byte_rel x a b sh saw num bad ln : mode_rel x (MLine sh saw num bad ln) ->
  mode_rel (line_byte x b) (MLine sh (b =? 13) (anum saw num bad b).1 (anum saw num bad b).2 (ln + 1)) /\
  (forall p i f, base p i f x a -> base p i f (line_byte x b) a) /\ (forall p i f, val p i f x a -> val p i f (line_byte x b) a).
Proof.
  intros (H1 & H2 & H3 & H4 & H5 & H6). unfold line_byte, anum. rewrite H3.
  assert (forall x', rd_vtype x' = rd_vtype x -> rd_v_ts x' = rd_v_ts x -> rd_cbase x' = rd_cbase x -> rd_v_pos x' = rd_v_pos x -> rd_cur x' = rd_cur x ->
    rd_stack x' = rd_stack x -> rd_lost_prefix x' = rd_lost_prefix x -> rd_off x' = rd_off x -> (forall p i f, base p i f x a -> base p i f x' a) /\ (forall p i f, val p i f x a -> val p i f x' a)) as Hk.
  { intros x' E1 E2 E3 E4 E5 E6 E7 E8. split; intros p i f H; [by apply (base_keep p i f x a)|by apply (val_keep p i f x a)]. }
  destruct saw; cbn [orb]; cbv zeta.
  - destruct (b =? 13) eqn:Eb; [|change (rd_num (x <| rd_num_bad := true |> <| rd_saw_cr := false |>)) with (rd_num x); rewrite H4; destruct (zlen num <? LK_REDIS_NUM_MAX) eqn:En];
      (split; [|by apply Hk]); repeat split; cbn [fst snd]; try done; (change (rd_line_n x + 1 = ln + 1); by rewrite H6) || (change (rd_num x = num); done) || (change (rd_num x ++ [b] = num ++ [b]); by rewrite H4).
  - destruct (b =? 13) eqn:Eb; [|change (rd_num (x <| rd_saw_cr := false |>)) with (rd_num x); rewrite H4; destruct (zlen num <? LK_REDIS_NUM_MAX) eqn:En];
      (split; [|by apply Hk]); repeat split; cbn [fst snd]; try done; (change (rd_line_n x + 1 = ln + 1); by rewrite H6) || (change (rd_num x = num); done) || (change (rd_num x ++ [b] = num ++ [b]); by rewrite H4).
Qed.
Lemma line_feed_sim p fl ts q : forall i r c f x a sh saw num bad ln, zdrop i p = q -> 0 <= i -> has c fl f x -> good r -> sim p i f x a ->
  a_mode a = MLine sh saw num bad ln -> arun d ts a q <> None -> fed p i r fl ts a (line_feed r c d p q i ts).
Proof.
  induction q as [|b q IH]; intros i r c f x a sh saw num bad ln Eq Hi Hc Hr Hs Em Hn; [by eapply fed_here|].
  destruct (arun_step _ _ _ _ Hn) as (a1 & ms & E1 & Hn1). destruct (znth_zdrop _ _ _ _ Eq Hi) as (Hb & Hl & Eq1).
  destruct Hs as (B & M & V). unfold is_open in V. rewrite Em in M, V. pose proof M as (M1 & M2 & M3 & M4 & M5 & M6). pose proof E1 as E1'. unfold astep in E1. rewrite Em in E1.
  cbn [line_feed]. rewrite (has_dir_of _ _ _ _ Hc), M3.
  assert (base p (i + 1) f x (aput a b)) as B1 by by apply base_byte.
  assert (val p (i + 1) f x (aput a b)) as V1 by (rewrite <- Hb; apply val_byte; [done|apply B|done]).
  destruct (saw && (b =? 10)).
  - rewrite <- M2, <- M4, <- M5 in E1. destruct (line_sim p (i + 1) r c fl f x (aput a b) ts a1 ms Hc Hr B1 V1 E1) as (r' & c' & f' & x' & -> & Hh & Hc' & Hs').
    by eapply fed_last.
  - pose proof (has_dir _ _ _ _ (fun x => line_byte x b) Hc) as Hc1. rewrite (has_dir_of _ _ _ _ Hc1).
    assert (rd_line_n (line_byte x b) = ln + 1) as ->. { destruct (line_byte_rel x a b sh saw num bad ln M) as ((_ & _ & _ & _ & _ & E) & _). exact E. }
    destruct (LK_REDIS_LINE_MAX <? ln + 1); [done|]. destruct (anum saw num bad b) as [num1 bad1] eqn:En. injection E1 as <- <-.
    eapply fed_next; [done|done|exact E1'|]. eapply (IH (i + 1)); try done; [lia|].
    destruct (line_byte_rel x (aput a b <| a_mode := MLine sh (b =? 13) num1 bad1 (ln + 1) |>) b sh saw num bad ln M) as (M' & B' & V'). rewrite En in M'. cbn [fst snd] in M'.
    split; [apply B'; by eapply base_keep|]. split; [exact M'|]. unfold is_open. cbn [a_mode upd]. apply V'. by eapply val_keep.
Qed.

Lemma inline_byte_rel x a b arg ln : mode_rel x (MInline arg ln) ->
  mode_rel (inline_byte x b) (MInline (negb ((b =? 13) || (b =? 32) || (b =? 9)) || arg) (ln + 1)) /\
  (forall p i f, base p i f x a -> base p i f (inline_byte x b) a) /\ (forall p i f, val p i f x a -> val p i f (inline_byte x b) a).
Proof.
  intros (H1 & H2 & H3 & H4). unfold inline_byte. destruct ((b =? 13) || (b =? 32) || (b =? 9)); cbn [negb orb]; cbv zeta;
    (split; [split; [done|]; split; [done|]; split; [change (rd_line_n x + 1 = ln + 1); by rewrite H3|done]|]; split; intros p i f H; [by eapply base_keep|by eapply val_keep]).
Qed.
Lemma inline_done_sim p i r c fl f x a : has c fl f x -> good r -> base p i f x a -> val p i f x a -> rd_stack x = [] ->
  exists r' c' f' x', inline_done r c d p i = (r', c') /\ heard r (if rd_inline_arg x then [amsg a] else []) r' /\ has c' fl f' x' /\ sim p i f' x' idle.
Proof.
  intros Hc Hr Hb Hv Hst. pose proof Hb as [Hi _ _ Hlo Hfs Hrs Hof]. unfold inline_done. rewrite (has_dir_of _ _ _ _ Hc).
  assert (forall r1 c1 f1 x1, has c1 fl f1 x1 -> f1 = f <| f_buf := None |> -> x1 = x <| rd_lost_prefix := false |> <| rd_cur := i |> -> heard r (if rd_inline_arg x then [amsg a] else []) r1 ->
    exists r' c' f' x', (r1, upd_dir c1 d (fun x => x <| rd_st := REDIS_FR_VALUE |>)) = (r', c') /\ heard r (if rd_inline_arg x then [amsg a] else []) r' /\ has c' fl f' x' /\ sim p i f' x' idle) as Hend.
  { intros r1 c1 f1 x1 H1 -> -> Hh. eexists _, _, _, _. split; [reflexivity|]. split; [done|]. split; [exact (has_dir _ _ _ _ (fun x => x <| rd_st := REDIS_FR_VALUE |>) H1)|].
    split; [split; try done; cbn; lia|done]. }
  destruct (rd_inline_arg x) eqn:Ea.
  - destruct (emit_sim p i r c fl f x a Hc Hr Hb Hv) as (r1 & c1 & -> & Hh & H1). by apply (Hend r1 c1 _ _ H1).
  - unfold prefix_release, buf_release. pose proof (has_frame _ _ _ _ (fun f => f <| f_buf := None |>) Hc) as H1.
    apply (has_dir _ _ _ _ (fun x => x <| rd_lost_prefix := false |> <| rd_cur := i |>)) in H1. apply (Hend _ _ _ _ H1); [done|done|]. by apply heard_put.
Qed.
Lemma inline_feed_sim p fl ts q : forall i r c f x a arg ln, zdrop i p = q -> 0 <= i -> has c fl f x -> good r -> sim p i f x a ->
  a_mode a = MInline arg ln -> arun d ts a q <> None -> fed p i r fl ts a (inline_feed r c d p q i ts).
Proof.
  induction q as [|b q IH]; intros i r c f x a arg ln Eq Hi Hc Hr Hs Em Hn; [by eapply fed_here|].
  destruct (arun_step _ _ _ _ Hn) as (a1 & ms & E1 & Hn1). destruct (znth_zdrop _ _ _ _ Eq Hi) as (Hb & Hl & Eq1).
  destruct Hs as (B & M & V). unfold is_open in V. rewrite Em in M, V. pose proof M as (M1 & M2 & M3 & M4). pose proof E1 as E1'. unfold astep, ainline in E1. rewrite Em in E1.
  cbn [inline_feed]. assert (base p (i + 1) f x (aput a b)) as B1 by by apply base_byte.
  assert (val p (i + 1) f x (aput a b)) as V1 by (rewrite <- Hb; apply val_byte; [done|apply B|done]).
  destruct (b =? 10).
  - injection E1 as <- <-. destruct (inline_done_sim p (i + 1) r c fl f x (aput a b) Hc Hr B1 V1 M4) as (r' & c' & f' & x' & -> & Hh & Hc' & Hs').
    rewrite M2 in Hh. by eapply fed_last.
  - pose proof (has_dir _ _ _ _ (fun x => inline_byte x b) Hc) as Hc1. rewrite (has_dir_of _ _ _ _ Hc1).
    assert (rd_line_n (inline_byte x b) = ln + 1) as ->. { destruct (inline_byte_rel x a b arg ln M) as ((_ & _ & E & _) & _). exact E. }
    destruct (LK_REDIS_INLINE_MAX <? ln + 1); [done|]. injection E1 as <- <-. eapply fed_next; [done|done|exact E1'|]. eapply (IH (i + 1)); try done; [lia|].
    match goal with |- sim _ _ _ _ ?y => destruct (inline_byte_rel x y b arg ln M) as (M' & B' & V') end.
    split; [apply B'; by eapply base_keep|]. split; [exact M'|]. unfold is_open. cbn [a_mode upd]. apply V'. by eapply val_keep.
Qed.

Lemma eol_feed_sim p fl ts q : forall i r c f x a k, zdrop i p = q -> 0 <= i -> has c fl f x -> good r -> sim p i f x a ->
  a_mode a = MEol k -> arun d ts a q <> None -> fed p i r fl ts a (eol_feed r c d p q i ts).
Proof.
  induction q as [|b q IH]; intros i r c f x a k Eq Hi Hc Hr Hs Em Hn; pose proof Hs as (B & M & V); unfold is_open in V; rewrite Em in M, V; destruct M as (M1 & M2 & M3).
  { cbn [eol_feed]. rewrite (has_dir_of _ _ _ _ Hc), M2. destruct (Z.eqb_spec k 0); [lia|]. by eapply fed_here. }
  destruct (arun_step _ _ _ _ Hn) as (a1 & ms & E1 & Hn1). destruct (znth_zdrop _ _ _ _ Eq Hi) as (Hb & Hl & Eq1). pose proof E1 as E1'. unfold astep, aeol in E1. rewrite Em in E1.
  cbn [eol_feed]. rewrite (has_dir_of _ _ _ _ Hc), M2. destruct (Z.eqb_spec k 0); [lia|]. destruct (negb (b =? if k =? 2 then 13 else 10)); [done|].
  set (g := fun x => x <| rd_eol_left ::= fun n => n - 1 |>). pose proof (has_dir _ _ _ _ g Hc) as Hc1. cbv beta in Hc1.
  assert (base p (i + 1) f (g x) (aput a b)) as B1 by (apply (base_keep _ _ _ x (aput a b)); [by apply base_byte|done..]).
  assert (val p (i + 1) f (g x) (aput a b)) as V1 by (apply (val_keep _ _ _ x (aput a b)); [rewrite <- Hb; apply val_byte; [done|apply B|done]|done..]).
  assert (rd_eol_left (g x) = k - 1) as Ek by (change (rd_eol_left x - 1 = k - 1); by rewrite M2).
  destruct (Z.eqb_spec k 1) as [->|Hk].
  - injection E1 as E1. assert (forall q', eol_feed r (upd_dir c d g) d p q' (i + 1) ts = let '(r, c) := value_done r (upd_dir c d g) d (Some p) (i + 1) (u64 (rd_cbase (g x) + (i + 1))) in (r, c, i + 1)) as ->.
    { intros q'. destruct q'; cbn [eol_feed]; rewrite (has_dir_of _ _ _ _ Hc1), Ek; done. }
    destruct (close_sim p (i + 1) r (upd_dir c d g) fl f (g x) (aput a b) Hc1 Hr B1 V1) as (r' & c' & f' & x' & -> & Hh & Hc' & Hs').
    rewrite E1 in Hh, Hs'. by eapply fed_last.
  - injection E1 as <- <-. eapply fed_next; [done|done|exact E1'|]. eapply (IH (i + 1)); try done; [lia|].
    split; [by eapply base_keep|]. split; [split; [done|]; split; [done|lia]|]. unfold is_open. cbn [a_mode upd]. by eapply val_keep.
Qed.

(** Payload bytes. *)
Definition aputs a (s : list Z) : astate := a <| a_acc ::= fun l => l ++ s |> <| a_len ::= fun n => n + zlen s |>.
Lemma val_bytes p i k f x a : val p i f x a -> 0 <= rd_cur x <= i -> 0 <= k -> i + k <= zlen p -> val p (i + k) f x (aputs a (ztake k (zdrop i p))).
Proof.
  intros (H1 & H2 & H3 & old & H4 & H5 & H6) Hc Hk Hi. split; [done|]. split; [done|]. split.
  - change (u64 (rd_cbase x + (i + k) - rd_v_pos x) = u64 (a_len a + zlen (ztake k (zdrop i p)))). rewrite zlen_ztake, zlen_zdrop by lia.
    replace (Z.min k (Z.max 0 (zlen p - i))) with k by lia. replace (rd_cbase x + (i + k) - rd_v_pos x) with (rd_cbase x + i - rd_v_pos x + k) by lia.
    by rewrite <- u64_idem_add, H3, u64_idem_add.
  - exists old. split; [|done]. change (a_acc (aputs a (ztake k (zdrop i p)))) with (a_acc a ++ ztake k (zdrop i p)). rewrite H4, <- app_assoc. f_equal.
    replace (i + k - rd_cur x) with (i - rd_cur x + k) by lia. rewrite ztake_add, zdrop_zdrop by lia. do 3 f_equal. lia.
Qed.
Lemma bulk_consumed ts q s : forall a n, a_mode a = MBulk n -> s <> [] -> zlen s <= n ->
  consumed ts a (s ++ q) [] (aputs a s <| a_mode := if zlen s =? n then MEol 2 else MBulk (n - zlen s) |>) q.
Proof.
  induction s as [|b s IH]; intros a n Em Hne Hl; [done|]. rewrite zlen_cons in *. pose proof (zlen_nonneg s). cbn [app].
  assert (astep d ts a b = Some (aput a b <| a_mode := if n =? 1 then MEol 2 else MBulk (n - 1) |>, [])) as E1.
  { unfold astep. rewrite Em. destruct (Z.eqb_spec n 0); [lia|done]. }
  destruct s as [|b' s'].
  - change (zlen []) with 0 in *. pose proof (consumed_byte ts a b q _ _ E1) as H1. replace (0 + 1 =? n) with (n =? 1) by lia. replace (n - (0 + 1)) with (n - 1) by lia. exact H1.
  - assert (n <> 1) as Hn1 by (rewrite zlen_cons in *; pose proof (zlen_nonneg s'); lia). rewrite (proj2 (Z.eqb_neq n 1) Hn1) in E1.
    specialize (IH (aput a b <| a_mode := MBulk (n - 1) |>) (n - 1) eq_refl ltac:(done) ltac:(lia)).
    pose proof (consumed_trans _ _ _ _ _ _ _ _ _ (consumed_byte ts a b ((b' :: s') ++ q) _ _ E1) IH) as H2. cbn [app] in H2 |- *.
    replace (zlen (b' :: s') + 1 =? n) with (zlen (b' :: s') =? n - 1) by lia. replace (n - (zlen (b' :: s') + 1)) with (n - 1 - zlen (b' :: s')) by lia.
    match goal with H : consumed _ _ _ _ ?y _ |- consumed _ _ _ _ ?z _ => replace z with y; [exact H|] end.
    unfold aputs, aput. destruct a. cbn. f_equal; [by rewrite <- app_assoc|]. rewrite !zlen_cons. lia.
Qed.

(** ** One iteration *)
Definition wt x : Z := match rd_st x with REDIS_FR_VALUE | REDIS_FR_BULK => 1 | _ => 0 end.
Definition stepped p i r fl ts a x (res : reasm * conn * option Z) : Prop :=
  exists r' c' i' f' x' a' ms, res = (r', c', Some i') /\ heard r ms r' /\ has c' fl f' x' /\ sim p i' f' x' a' /\
    consumed ts a (zdrop i p) ms a' (zdrop i' p) /\ (i < i' \/ i' = i /\ rd_st x' <> rd_st x /\ wt x' < wt x).
Lemma fed_stepped p i r fl ts a x res : i < zlen p -> 0 <= i -> fed p i r fl ts a res -> stepped p i r fl ts a x (let '(r, c, i) := res in (r, c, Some i)).
Proof.
  intros Hl Hi (r' & c' & i' & f' & x' & a' & ms & -> & H2 & H3 & H4 & H5 & H6). exists r', c', i', f', x', a', ms. do 5 (split; [done|]). left.
  destruct H6 as [H6|[_ E]]; [done|]. apply (f_equal zlen) in E. rewrite zlen_zdrop in E by lia. change (zlen []) with 0 in E. lia.
Qed.
Lemma consumed_same ts a a' b q : astep d ts a b = astep d ts a' b -> consumed ts a (b :: q) [] a' (b :: q).
Proof. intros E. unfold consumed. cbn [arun]. rewrite E. destruct (astep d ts a' b) as [[a1 m1]|]; cbn [mbind option_bind]; [|done]. by destruct (arun d ts a1 q) as [[? ?]|]. Qed.

Lemma start_sim p i r c fl f x a ts b q : zdrop i p = b :: q -> 0 <= i -> has c fl f x -> good r -> sim p i f x a -> a_mode a = MValue ->
  astep d ts a b <> None -> stepped p i r fl ts a x (let '(r, c, i) := value_start r c d b i ts in (r, c, Some i)).
Proof.
  intros Eq Hi Hc Hr (B & M & V) Em Hn. destruct (znth_zdrop _ _ _ _ Eq Hi) as (Hb & Hl & Eq1). pose proof B as [Hix Hst Hlv Hlo Hfs Hrs Hof]. rewrite Em in M. cbn in M.
  unfold value_start. rewrite (has_dir_of _ _ _ _ Hc). unfold rd_depth. rewrite Hst. unfold is_open in V. rewrite Em in V. unfold astep in Hn. rewrite Em in Hn.
  destruct (Z.eqb_spec (zlen (a_stack a)) 0) as [E0|E0]; cbn [negb andb] in *.
  - destruct V as [Vb ->]. clear Em E0 Hlv. destruct ((b =? 13) || (b =? 10)) eqn:Ecr.
    { eexists _, _, _, f, (x <| rd_cur := i + 1 |>), idle, []. split; [reflexivity|]. split; [by apply heard_nil|]. split; [by apply (has_dir _ _ _ _ (fun x => x <| rd_cur := i + 1 |>))|].
      split; [split; [split; try done; cbn; lia|done]|]. split; [|lia]. rewrite Eq, Eq1. apply consumed_byte. unfold astep. cbn [a_mode a_stack idle]. change (zlen [] =? 0) with true. by rewrite Ecr. }
    destruct (b =? 22) eqn:Etl; [done|]. set (a0 := AState MValue [] b [] 0 ts) in *. pose proof (has_dir _ _ _ _ (fun x => open_value x b i ts) Hc) as Hc1. cbv beta in Hc1. set (c1 := upd_dir c d _) in *. set (x1 := open_value x b i ts) in *.
    assert (base p i f x1 a0) as B1 by (split; try done; cbn; lia).
    assert (val p i f x1 a0) as V1.
    { split; [done|]. split; [done|]. split.
      - change (u64 (rd_cbase x + i - u64 (rd_cbase x + i)) = 0). apply Z.mod_divide; [done|]. unfold u64. pose proof (Z.div_mod (rd_cbase x + i) (2 ^ 64) ltac:(done)). exists ((rd_cbase x + i) / 2 ^ 64). lia.
      - exists []. change (rd_cur x1) with i. rewrite Z.sub_diag, ztake_0 by lia. split; [done|]. split; [|by rewrite Vb]. unfold buf_bytes. by rewrite Vb. }
    destruct (bool_decide (shape_of b = REDIS_V_BAD)) eqn:Esh.
    + apply bool_decide_eq_true in Esh. rewrite Esh in *. destruct d eqn:Ed; [done|].
      set (g := fun x => x <| rd_st := REDIS_FR_INLINE |> <| rd_vtype := LK_REDIS_MSG_INLINE |> <| rd_line_n := 0 |> <| rd_inline_arg := false |>).
      rewrite <- Ed in *. exists r, (upd_dir c1 d g), i, f, (g x1), (a0 <| a_type := LK_REDIS_MSG_INLINE |> <| a_mode := MInline false 0 |>), [].
      split; [done|]. split; [by apply heard_nil|]. split; [by apply has_dir|]. split.
      { split; [by apply (base_keep p i f x1 a0)|]. split; [repeat split; exact Hst|]. destruct V1 as (W1 & W2 & W3 & W4). split; [done|]. split; [exact W2|]. split; [exact W3|exact W4]. }
      split; [|right; split; [done|]; split; [by rewrite M|unfold wt; rewrite M; cbn; lia]]. rewrite Eq. apply consumed_same. unfold astep. cbn [a_mode a_stack idle upd]. change (zlen [] =? 0) with true.
      rewrite Ecr, Etl, Esh. cbn [andb]. by rewrite Ed.
    + apply bool_decide_eq_false in Esh. exists r, (upd_dir c1 d (fun x => start_line x (shape_of b))), (i + 1), f, (start_line x1 (shape_of b)), (aput a0 b <| a_mode := MLine (shape_of b) false [] false 0 |>), [].
      split; [by destruct (shape_of b)|]. split; [by apply heard_nil|]. split; [by apply (has_dir _ _ _ _ (fun x => start_line x (shape_of b)))|]. split.
      { split; [by eapply base_keep; [apply (base_byte p i f x1 a0 b B1 Hl)|..]|]. split; [done|]. pose proof (val_byte p i f x1 a0 V1 (proj1 (bs_idx _ _ _ _ _ B1)) Hl) as V2. rewrite Hb in V2. by apply (val_keep p (i + 1) f x1 (aput a0 b)). }
      split; [|lia]. rewrite Eq, Eq1. apply consumed_byte. unfold astep. cbn [a_mode a_stack idle]. change (zlen [] =? 0) with true. rewrite Ecr, Etl. cbn [andb]. fold a0. by destruct (shape_of b).
  - assert (shape_of b <> REDIS_V_BAD) as Esh by (intros E; by rewrite E in Hn).
    exists r, (upd_dir c d (fun x => start_line x (shape_of b))), (i + 1), f, (start_line x (shape_of b)), (aput a b <| a_mode := MLine (shape_of b) false [] false 0 |>), [].
    split; [by destruct (shape_of b)|]. split; [by apply heard_nil|]. split; [by apply (has_dir _ _ _ _ (fun x => start_line x (shape_of b)))|]. split.
    { split; [by eapply base_keep; [apply (base_byte p i f x a b B Hl)|..]|]. split; [done|]. pose proof (val_byte p i f x a V (proj1 (bs_idx _ _ _ _ _ B)) Hl) as V2. rewrite Hb in V2. by apply (val_keep p (i + 1) f x (aput a b)). }
    split; [|lia]. rewrite Eq, Eq1. apply consumed_byte. unfold astep. rewrite Em. destruct (Z.eqb_spec (zlen (a_stack a)) 0); [done|]. cbn [andb]. by destruct (shape_of b).
Qed.

Lemma bulk_sim p i r c fl f x a ts n : 0 <= i -> i < zlen p -> has c fl f x -> good r -> sim p i f x a -> a_mode a = MBulk n ->
  stepped p i r fl ts a x (let '(x, take) := bulk_skip x (zlen p - i) in (r, upd_dir c d (fun _ => x), Some (i + take))).
Proof.
  intros Hi Hl Hc Hr (B & M & V) Em. unfold is_open in V. rewrite Em in M, V. destruct M as (M1 & M2 & M3 & M4). unfold bulk_skip. rewrite M2.
  set (k := if n <? zlen p - i then n else zlen p - i). assert (k = Z.min n (zlen p - i)) as Ek by (subst k; destruct (Z.ltb_spec n (zlen p - i)); lia). clearbody k.
  set (x1 := x <| rd_bulk_left ::= fun b => b - k |>). change (rd_bulk_left x1) with (rd_bulk_left x - k). rewrite M2.
  set (a1 := aputs a (ztake k (zdrop i p)) <| a_mode := if n - k =? 0 then MEol 2 else MBulk (n - k) |>).
  set (x2 := if n - k =? 0 then x1 <| rd_st := REDIS_FR_BULK_EOL |> else x1).
  assert (zlen (ztake k (zdrop i p)) = k) as Hz by (rewrite zlen_ztake, zlen_zdrop by lia; lia).
  exists r, (upd_dir c d (fun _ => x2)), (i + k), f, x2, a1, []. split; [done|]. split; [by apply heard_nil|]. split; [by apply (has_dir _ _ _ _ (fun _ => x2)) in Hc|].
  assert (val p (i + k) f x2 a1) as V1.
  { apply (val_keep p (i + k) f x (aputs a (ztake k (zdrop i p)))); try done; [apply val_bytes; [done|apply B|lia|lia]|..]; subst x2; by destruct (n - k =? 0). }
  assert (base p (i + k) f x2 a1) as B1.
  { destruct B as [? ? ? ? ? ? ?]. assert (rd_cur x2 = rd_cur x /\ rd_stack x2 = rd_stack x /\ rd_lost_prefix x2 = rd_lost_prefix x /\ rd_cbase x2 = rd_cbase x /\ rd_off x2 = rd_off x) as (E1 & E2 & E3 & E4 & E5) by (subst x2; by destruct (n - k =? 0)).
    split; [rewrite E1; lia|by rewrite E2|done|by rewrite E3|done|done|by rewrite E4, E5]. }
  split; [|split].
  - split; [exact B1|]. subst x2 a1. cbn [a_mode upd]. unfold is_open. cbn [a_mode upd]. destruct (Z.eqb_spec (n - k) 0) as [E|E].
    + split; [|exact V1]. split; [done|]. split; [exact M3|lia].
    + split; [|exact V1]. split; [exact M1|]. split; [change (rd_bulk_left x - k = n - k); by rewrite M2|]. split; [exact M3|lia].
  - destruct (Z.eqb_spec k 0) as [E0|E0].
    + assert (n = 0) as -> by lia. rewrite E0 in *. replace (i + 0) with i by lia. rewrite (zdrop_at p i) by lia. apply consumed_same. subst a1. rewrite E0, ztake_0 by lia.
      unfold astep. rewrite Em. cbn [a_mode upd]. change (0 - 0 =? 0) with true. change (0 =? 0) with true. cbv iota.
      assert (aputs a [] = a) as -> by (unfold aputs; change (zlen []) with 0; destruct a; cbn; by rewrite app_nil_r, Z.add_0_r). unfold aeol. by destruct (negb _).
    + rewrite <- (ztake_zdrop k (zdrop i p)) at 1. rewrite zdrop_zdrop by lia. subst a1. pose proof (bulk_consumed ts (zdrop (i + k) p) (ztake k (zdrop i p)) a n Em) as Hb. rewrite Hz in Hb.
      replace (n - k =? 0) with (k =? n) by lia. apply Hb; [|lia]. intros E. rewrite E in Hz. change (zlen []) with 0 in Hz. lia.
  - destruct (Z.eqb_spec k 0) as [E0|E0]; [|lia]. right. split; [lia|]. assert (n = 0) as -> by lia. subst x2. rewrite E0. change (0 - 0 =? 0) with true. cbv iota.
    split; [by rewrite M1|]. unfold wt. by rewrite M1.
Qed.
Lemma step_sim p i r c fl f x a ts at_call : 0 <= i -> i < zlen p -> has c fl f x -> good r -> sim p i f x a -> arun d ts a (zdrop i p) <> None ->
  stepped p i r fl ts a x (redis_step r c d p i ts at_call).
Proof.
  intros Hi Hl Hc Hr Hs Hn. unfold redis_step. rewrite (has_dir_of _ _ _ _ Hc). pose proof Hs as (B & M & V). destruct (a_mode a) as [|sh saw num bad ln|n|k|arg ln] eqn:Em; cbn [mode_rel] in M.
  - rewrite M. rewrite (zdrop_at p i) in Hn by lia. destruct (arun_step _ _ _ _ Hn) as (a1 & ms & E & _). eapply start_sim; try done; [apply zdrop_at; lia|by rewrite E].
  - destruct M as [-> M]. apply fed_stepped; [done|done|]. by eapply line_feed_sim.
  - destruct M as [-> M]. by eapply bulk_sim.
  - destruct M as [-> M]. apply fed_stepped; [done|done|]. by eapply eol_feed_sim.
  - destruct M as [-> M]. apply fed_stepped; [done|done|]. by eapply inline_feed_sim.
Qed.

Lemma loop_sim p fl ts at_call aE : has_flag fl LK_CONN_IGNORE = false -> forall fuel i r c f x a msE, 0 <= i -> has c fl f x -> good r -> sim p i f x a ->
  arun d ts a (zdrop i p) = Some (aE, msE) -> 2 * (zlen p - i) + wt x <= Z.of_nat fuel ->
  exists r' c' f' x', redis_loop fuel r c d p i ts at_call = (r', c', LoopDone) /\ heard r msE r' /\ has c' fl f' x' /\ sim p (zlen p) f' x' aE.
Proof.
  intros Hfl. induction fuel as [|fuel IH]; intros i r c f x a msE Hi Hc Hr Hs Ha Hf; cbn [redis_loop]; pose proof (proj2 (bs_idx _ _ _ _ _ (proj1 Hs))) as Hle;
    (destruct (Z.leb_spec (zlen p) i) as [Hge|Hlt];
     [assert (i = zlen p) as -> by lia; rewrite zdrop_all in Ha by lia; injection Ha as <- <-; exists r, c, f, x; split; [done|]; split; [by apply heard_nil|done]|]).
  { assert (0 <= wt x) by (unfold wt; by destruct (rd_st x)). lia. }
  destruct (step_sim p i r c fl f x a ts at_call Hi Hlt Hc Hr Hs) as (r1 & c1 & i1 & f1 & x1 & a1 & ms & -> & Hh & Hc1 & Hs1 & Hcon & Hprog); [by rewrite Ha|].
  rewrite (has_flags _ _ _ _ Hc1), Hfl, (has_dir_of _ _ _ _ Hc1), (has_dir_of _ _ _ _ Hc).
  assert (((i1 =? i) && bool_decide (rd_st x1 = rd_st x)) = false) as ->.
  { destruct Hprog as [Hp|(-> & Hp & _)]; [by rewrite (proj2 (Z.eqb_neq i1 i)) by lia|]. rewrite bool_decide_eq_false_2 by done. by rewrite andb_false_r. }
  unfold consumed in Hcon. rewrite Ha in Hcon. destruct (arun d ts a1 (zdrop i1 p)) as [[e m]|] eqn:E1; [|done]. injection Hcon as <- ->.
  assert (0 <= wt x /\ wt x1 <= 1) by (unfold wt; destruct (rd_st x), (rd_st x1); lia).
  destruct (IH i1 r1 c1 f1 x1 a1 m) as (r2 & c2 & f2 & x2 & -> & Hh2 & H2); try done; [destruct Hprog as [|[-> _]]; lia|apply Hh|destruct Hprog as [|(-> & _ & ?)]; lia|].
  exists r2, c2, f2, x2. split; [done|]. split; [by eapply heard_app|done].
Qed.

(** ** Between chunks *)
Record ready f x a : Prop := Ready {
  ry_stack : rd_stack x = a_stack a; ry_levels : Forall (fun n => 1 <= n < 2 ^ 32) (a_stack a); ry_lost : rd_lost_prefix x = false;
  ry_st : f_st f = LK_FR_HEADER; ry_resync : f_after_resync f = false; ry_mode : mode_rel x (a_mode a);
  ry_val : if is_open a then rd_vtype x = a_type a /\ rd_v_ts x = a_ts a /\ u64 (rd_off x - rd_v_pos x) = u64 (a_len a) /\
             buf_bytes f = ztake LK_MSG_BODY_MAX (a_acc a) /\ (f_buf f = None <-> a_acc a = [])
           else f_buf f = None /\ a = idle }.
Lemma ready_sim f x a p ts at_call : ready f x a -> sim p 0 f (chunk_begin x (zlen p) ts at_call) a.
Proof.
  intros [H1 H2 H3 H4 H5 H6 H7]. set (x1 := chunk_begin x (zlen p) ts at_call).
  assert (rd_cur x1 = 0 /\ rd_stack x1 = rd_stack x /\ rd_lost_prefix x1 = rd_lost_prefix x /\ rd_cbase x1 = rd_off x /\ rd_off x1 = u64 (rd_off x + zlen p) /\
    rd_vtype x1 = rd_vtype x /\ rd_v_ts x1 = rd_v_ts x /\ rd_v_pos x1 = rd_v_pos x) as (E1 & E2 & E3 & E4 & E5 & E6 & E7 & E8) by (subst x1; unfold chunk_begin; by destruct at_call).
  split; [|split].
  - split; try done; [pose proof (zlen_nonneg p); lia|congruence|congruence|by rewrite E4, E5].
  - subst x1. unfold chunk_begin. destruct at_call; by destruct (a_mode a).
  - destruct (is_open a); [|done]. destruct H7 as (V1 & V2 & V3 & V4 & V5). unfold val. rewrite E1, E4, E6, E7, E8, Z.add_0_r. do 3 (split; [done|]).
    exists (a_acc a). rewrite Z.sub_diag, ztake_0 by lia. by rewrite app_nil_r.
Qed.
Lemma mode_cur x m i : mode_rel x m -> mode_rel (x <| rd_cur := i |>) m.
Proof. by destruct m. Qed.

Lemma bytes_sim p r c fl f x a ts aE msE : has c fl f x -> good r -> ready f x a -> has_flag fl LK_CONN_IGNORE = false -> arun d ts a p = Some (aE, msE) ->
  exists r' c' f' x', redis_stream_bytes r c d p ts = (r', c') /\ heard r msE r' /\ has c' fl f' x' /\ ready f' x' aE.
Proof.
  intros Hc Hr Hy Hfl Ha. unfold redis_stream_bytes, redis_frame_get. destruct (proj1 Hc) as [rf Erf]. rewrite Erf. cbn [negb].
  set (at_call := f_call_pos (frame c d) =? 0). pose proof (has_dir _ _ _ _ (fun x => chunk_begin x (zlen p) ts at_call) Hc) as Hc1. cbv beta in Hc1. set (c1 := upd_dir c d _) in *.
  pose proof (ready_sim f x a p ts at_call Hy) as Hs. set (x1 := chunk_begin x (zlen p) ts at_call) in *. rewrite (has_dir_of _ _ _ _ Hc1).
  assert (redis_tls_record_head d x1 p = false) as ->.
  { unfold redis_tls_record_head. destruct (negb _ || _ || _ || _) eqn:E; [done|]. apply orb_false_iff in E as [E Ez]. apply orb_false_iff in E as [E Ed]. apply orb_false_iff in E as [_ E].
    apply negb_false_iff, bool_decide_eq_true in E. apply negb_false_iff, Z.eqb_eq in Ed. apply Z.ltb_ge in Ez. destruct p as [|b p']; [done|]. change (znth (b :: p') 0) with b.
    destruct (Z.eqb_spec b 22) as [->|]; [|done]. exfalso. cbn [arun] in Ha. destruct Hs as (B & M & _).
    assert (a_mode a = MValue) as Em by (destruct (a_mode a); cbn in M; try done; destruct M as [M _]; congruence).
    unfold astep in Ha. rewrite Em in Ha. unfold rd_depth in Ed. rewrite (bs_stack _ _ _ _ _ B) in Ed. rewrite Ed in Ha. done. }
  rewrite (has_frame_of _ _ _ _ Hc1), (ry_st _ _ _ Hy).
  destruct (loop_sim p fl ts at_call aE Hfl (redis_fuel p) 0 r c1 f x1 a msE) as (r2 & c2 & f2 & x2 & -> & Hh & Hc2 & Hs2); try done.
  { unfold redis_fuel, zlen, wt. destruct (rd_st x1); lia. }
  rewrite (has_dir_of _ _ _ _ Hc2). pose proof Hs2 as (B & M & V). pose proof B as [Hi Hst Hlv Hlo Hfs Hrs Hof].
  assert (redis_value_open x2 = is_open aE) as ->.
  { unfold redis_value_open, is_open, rd_depth. rewrite Hst. destruct (a_mode aE); cbn [mode_rel] in M; [by rewrite M|by destruct M as [-> _]..]. }
  destruct (is_open aE) eqn:Eo.
  - destruct (stash_sim p (zlen p) r2 c2 fl f2 x2 aE Hc2 (proj1 Hh) B V) as (r3 & c3 & b & -> & Hh3 & Hc3 & Eb & En).
    exists r3, c3, (f2 <| f_buf := b |>), (x2 <| rd_cur := zlen p |>). split; [done|]. split; [rewrite <- (app_nil_r msE); by eapply heard_app|]. split; [done|].
    split; try done; try by apply mode_cur. rewrite Eo. destruct V as (V1 & V2 & V3 & _). do 2 (split; [done|]). split; [|done].
    change (u64 (rd_off x2 - rd_v_pos x2) = u64 (a_len aE)). rewrite Hof. unfold Z.sub in *. by rewrite u64_idem_add.
  - exists r2, c2, f2, x2. split; [done|]. split; [done|]. split; [done|]. split; try done. by rewrite Eo.
Qed.

Lemma hole_sim n r c fl f x a aE : has c fl f x -> good r -> ready f x a -> ahole a n = Some aE ->
  exists r' c' f' x', redis_stream_hole r c d n = (r', c') /\ heard r [] r' /\ has c' fl f' x' /\ ready f' x' aE.
Proof.
  intros Hc Hr [H1 H2 H3 H4 H5 H6 H7] Ha. unfold ahole in Ha. destruct (a_mode a) as [| |m| |] eqn:Em; try done. destruct (Z.leb_spec n 0), (Z.ltb_spec m n); try done. cbn [orb] in Ha. injection Ha as <-.
  destruct H6 as (M1 & M2 & M3 & M4). unfold is_open in H7. rewrite Em in H7. destruct H7 as (V1 & V2 & V3 & V4 & V5).
  unfold redis_stream_hole, redis_frame_get. destruct (proj1 Hc) as [rf Erf]. rewrite Erf. cbn [negb]. destruct (Z.eqb_spec n 0); [lia|].
  pose proof (has_dir _ _ _ _ (fun x => x <| rd_holes ::= inc64 |> <| rd_off ::= fun o => u64 (o + n) |>) Hc) as Hc1. cbv beta in Hc1. set (c1 := upd_dir c d _) in *.
  set (x1 := x <| rd_holes ::= inc64 |> <| rd_off ::= fun o => u64 (o + n) |>) in *. rewrite (has_dir_of _ _ _ _ Hc1), (has_frame_of _ _ _ _ Hc1), H4. change (rd_st x1) with (rd_st x). rewrite M1.
  unfold hole_skip. rewrite (has_dir_of _ _ _ _ Hc1). change (rd_st x1) with (rd_st x). rewrite M1. unfold bulk_skip. change (rd_bulk_left x1) with (rd_bulk_left x). rewrite M2.
  destruct (Z.ltb_spec m n); [lia|]. set (x2 := x1 <| rd_bulk_left ::= fun b => b - n |>). change (rd_bulk_left x2) with (rd_bulk_left x - n). rewrite M2. rewrite Z.sub_diag.
  set (x3 := if m - n =? 0 then x2 <| rd_st := REDIS_FR_BULK_EOL |> else x2). pose proof (has_dir _ _ _ _ (fun _ => x3) Hc1) as Hc3. cbv beta in Hc3. rewrite (has_dir_of _ _ _ _ Hc3).
  exists r, (upd_dir c1 d (fun _ => x3)), f, x3. split; [by destruct (rd_st x3)|]. split; [by apply heard_nil|]. split; [done|].
  assert (rd_stack x3 = rd_stack x /\ rd_lost_prefix x3 = rd_lost_prefix x /\ rd_off x3 = u64 (rd_off x + n) /\ rd_vtype x3 = rd_vtype x /\ rd_v_ts x3 = rd_v_ts x /\ rd_v_pos x3 = rd_v_pos x)
    as (E1 & E2 & E3 & E4 & E5 & E6) by (subst x3; by destruct (m - n =? 0)).
  split; [by rewrite E1|done|by rewrite E2|done|done| |].
  - subst x3. cbn [a_mode upd]. replace (m =? n) with (m - n =? 0) by lia. destruct (Z.eqb_spec (m - n) 0); [split; [done|]; split; [exact M3|lia]|].
    split; [exact M1|]. split; [change (rd_bulk_left x - n = m - n); by rewrite M2|]. split; [exact M3|lia].
  - match goal with |- if is_open ?y then _ else _ => assert (is_open y = true) as -> by (unfold is_open; cbn [a_mode upd]; by destruct (m =? n)) end.
    rewrite E3, E4, E5, E6. do 2 (split; [done|]). split; [|done]. change (u64 (u64 (rd_off x + n) - rd_v_pos x) = u64 (a_len a + n)). unfold Z.sub in *. rewrite u64_idem_add.
    replace (rd_off x + n + - rd_v_pos x) with (rd_off x + - rd_v_pos x + n) by lia. by rewrite <- u64_idem_add, V3, u64_idem_add.
Qed.

(** Any capture of a stream. *)
Fixpoint deliver_segs r c (ss : list seg) : reasm * conn :=
  match ss with
  | [] => (r, c)
  | Seg ts p :: ss => let '(r, c) := redis_stream_bytes r c d p ts in deliver_segs r c ss
  | Gap n :: ss => let '(r, c) := redis_stream_hole r c d n in deliver_segs r c ss
  end.
Lemma segs_sim ss : forall r c fl f x a aE msE, has c fl f x -> good r -> ready f x a -> has_flag fl LK_CONN_IGNORE = false -> segs_run d a ss = Some (aE, msE) ->
  exists r' c' f' x', deliver_segs r c ss = (r', c') /\ heard r msE r' /\ has c' fl f' x' /\ ready f' x' aE.
Proof.
  induction ss as [|[ts p|n] ss IH]; intros r c fl f x a aE msE Hc Hr Hy Hfl Ha; cbn [segs_run deliver_segs] in *.
  - injection Ha as <- <-. exists r, c, f, x. split; [done|]. split; [by apply heard_nil|done].
  - destruct (arun d ts a p) as [[a1 m1]|] eqn:E1; [|done]. cbn [mbind option_bind] in Ha. destruct (segs_run d a1 ss) as [[a2 m2]|] eqn:E2; [|done]. injection Ha as <- <-.
    destruct (bytes_sim p r c fl f x a ts a1 m1 Hc Hr Hy Hfl E1) as (r1 & c1 & f1 & x1 & -> & Hh1 & Hc1 & Hy1).
    destruct (IH r1 c1 fl f1 x1 a1 a2 m2 Hc1 (proj1 Hh1) Hy1 Hfl E2) as (r2 & c2 & f2 & x2 & -> & Hh2 & H2). exists r2, c2, f2, x2. split; [done|]. split; [by eapply heard_app|done].
  - destruct (ahole a n) as [a1|] eqn:E1; [|done]. cbn [mbind option_bind] in Ha.
    destruct (hole_sim n r c fl f x a a1 Hc Hr Hy E1) as (r1 & c1 & f1 & x1 & -> & Hh1 & Hc1 & Hy1).
    destruct (IH r1 c1 fl f1 x1 a1 aE msE Hc1 (proj1 Hh1) Hy1 Hfl Ha) as (r2 & c2 & f2 & x2 & -> & Hh2 & H2). exists r2, c2, f2, x2. split; [done|]. split; [by apply (heard_app r [] r1 msE)|done].
Qed.
End Refine.
