(* ===== verification/RedisResp.v ===== *)
(** The RESP grammar: values as a data type, how they are written, and that the byte
    machine reads back each one. *)
From Stdlib Require Import Ascii String.
From stdpp Require Import base list option.
From S2P Require Import Prelude Conn Proto Decimal Reassembly RedisFrame StreamSafe RedisRefine.
#[local] Open Scope Z_scope.
Implicit Types (a : astate) (d : lk_dir) (ts : Z).

(** ** Numbers *)
Lemma parse_digits_snoc p b : forall v w, parse_digits v p = Some w -> digit b -> w <= (2 ^ 62 - 9) / 10 ->
  parse_digits v (p ++ [b]) = Some (w * 10 + (b - ch "0")).
Proof.
  induction p as [|e p IH]; intros v w Hp [Hb1 Hb2] Hw; cbn [parse_digits app] in *.
  - injection Hp as ->. destruct (Z.ltb_spec b (ch "0")); [lia|]. destruct (Z.ltb_spec (ch "9") b); [lia|]. cbn [orb].
    destruct (Z.ltb_spec ((2 ^ 62 - 9) / 10) w); [lia|done].
  - destruct (_ || _); [done|]. destruct (_ <? _); [done|]. by apply IH.
Qed.
Lemma parse_decimal f : forall n, (0 < f)%nat -> 0 <= n < 2 ^ 58 -> n < 10 ^ Z.of_nat f -> parse_digits 0 (decimal f n) = Some n.
Proof.
  induction f as [|f IH]; intros n Hf Hn Hl; [lia|]. cbn [decimal]. pose proof (Z.div_mod n 10 ltac:(lia)). pose proof (Z.mod_pos_bound n 10 ltac:(lia)).
  assert (digit (ch "0" + n mod 10)) as Hd by (unfold digit; change (ch "0") with 48; change (ch "9") with 57; lia).
  rewrite Nat2Z.inj_succ, Z.pow_succ_r in Hl by lia. destruct (Z.ltb_spec n 10).
  - rewrite (parse_digits_snoc [] _ 0 0) by (done || lia). f_equal. rewrite Z.mod_small by lia. lia.
  - assert (0 <= n / 10 < 2 ^ 58) by (split; [apply Z.div_pos; lia|apply Z.div_lt_upper_bound; lia]).
    rewrite (parse_digits_snoc _ _ 0 (n / 10)); [f_equal; lia| |done|change ((2 ^ 62 - 9) / 10) with 461168601842738789; lia].
    apply IH; [|done|apply Z.div_lt_upper_bound; lia]. destruct f; [|lia]. cbn in Hl. lia.
Qed.
Lemma decimal_len f : forall n, zlen (decimal f n) <= Z.of_nat f.
Proof.
  induction f as [|f IH]; intros n; cbn [decimal]; [done|]. rewrite zlen_app. change (zlen [_]) with 1. specialize (IH (n / 10)).
  destruct (n <? 10); [change (zlen []) with 0|]; lia.
Qed.
Lemma show_len n : 1 <= zlen (show n) <= 20.
Proof.
  split; [|exact (decimal_len 20 n)]. change (show n) with ((if n <? 10 then [] else decimal 19 (n / 10)) ++ [ch "0" + n mod 10]). rewrite zlen_app.
  change (zlen [_]) with 1. pose proof (zlen_nonneg (if n <? 10 then [] else decimal 19 (n / 10))). lia.
Qed.
Lemma show_digits n : 0 <= n -> Forall digit (show n).
Proof. apply decimal_digits. Qed.
Lemma parse_show n : 0 <= n < 2 ^ 58 -> redis_parse_i64 (show n) = Some n.
Proof.
  intros Hn. unfold redis_parse_i64. pose proof (show_len n). change LK_REDIS_NUM_MAX with 24.
  destruct (Z.eqb_spec (zlen (show n)) 0), (Z.ltb_spec 24 (zlen (show n))); try lia. cbn [orb].
  destruct (show n) as [|b l] eqn:E; [done|]. change (znth (b :: l) 0) with b. pose proof (show_digits n ltac:(lia)) as Hd. rewrite E in Hd. inversion_clear Hd as [|? ? [Hb _] _].
  destruct (Z.eqb_spec b (ch "-")) as [->|]; [done|]. rewrite <- E. apply parse_decimal; lia.
Qed.

(** ** Values *)
Inductive resp :=
  | RLine (t : Z) (text : list Z)           (* [+OK], [-ERR ...], [:1], [_], [#t], ... *)
  | RBulk (t : Z) (payload : list Z)        (* [$], [=], [!] *)
  | RNull (t : Z)                           (* [$-1], [*-1] *)
  | RAgg (t : Z) (elems : list resp).       (* arrays, sets, pushes; maps and attributes, a key then its value *)
Definition crlf : list Z := [13; 10].
Definition rtype (v : resp) : Z := match v with RLine t _ | RBulk t _ | RNull t | RAgg t _ => t end.
(** The count of an aggregate's header: pairs for a map. *)
Definition agg_header (t : Z) (n : Z) : Z := match shape_of t with REDIS_V_AGGPAIR => n / 2 | _ => n end.
Fixpoint enc (v : resp) : list Z :=
  match v with
  | RLine t s => t :: s ++ crlf
  | RBulk t p => t :: (show (zlen p) ++ crlf) ++ p ++ crlf
  | RNull t => t :: [ch "-"; ch "1"] ++ crlf
  | RAgg t vs => t :: (show (agg_header t (zlen vs)) ++ crlf) ++ concat (map enc vs)
  end.
(** Well formed, nested at most [n] deep. *)
Fixpoint vwf (n : nat) (v : resp) : Prop :=
  match v with
  | RLine t s => shape_of t = REDIS_V_LINE /\ Forall (fun b => b <> 13) s /\ zlen s < LK_REDIS_LINE_MAX
  | RBulk t p => shape_of t = REDIS_V_BULK /\ zlen p <= LK_REDIS_MAX_BULK
  | RNull t => shape_of t <> REDIS_V_LINE /\ shape_of t <> REDIS_V_BAD
  | RAgg t vs =>
      match shape_of t with
      | REDIS_V_AGG => zlen vs <= LK_REDIS_MAX_ELEMS
      | REDIS_V_AGGPAIR => zlen vs <= LK_REDIS_MAX_ELEMS - 1 /\ zlen vs mod 2 = 0
      | _ => False
      end /\ match n with O => vs = [] | S n => Forall (vwf n) vs end
  end.

(** ** Reading them back *)
Section Read.
Context (d : lk_dir) (ts : Z).
Abbreviation consumed := (consumed d ts).
Implicit Types (q s num : list Z).

(** The open value a value's first byte starts, or joins. *)
Definition astart a (t : Z) : astate := if zlen (a_stack a) =? 0 then AState MValue [] t [] 0 ts else a.
Lemma aputs_app a s s' : aputs (aputs a s) s' = aputs a (s ++ s').
Proof. unfold aputs. destruct a. cbn. rewrite zlen_app. f_equal; [by rewrite app_assoc|lia]. Qed.
Lemma aputs_mode a s m : aputs (a <| a_mode := m |>) s = aputs a s <| a_mode := m |>.
Proof. done. Qed.
Lemma head_consumed a q t : a_mode a = MValue -> shape_of t <> REDIS_V_BAD ->
  consumed a (t :: q) [] (aputs (astart a t) [t] <| a_mode := MLine (shape_of t) false [] false 0 |>) q.
Proof.
  intros Em Ht. apply consumed_byte. unfold astep. rewrite Em. fold (astart a t).
  assert (((t =? 13) || (t =? 10)) = false /\ (t =? 22) = false) as [-> ->].
  { unfold shape_of in Ht. destruct (Z.eqb_spec t 13) as [->|]; [done|]. destruct (Z.eqb_spec t 10) as [->|]; [done|]. by destruct (Z.eqb_spec t 22) as [->|]. }
  rewrite !andb_false_r. unfold astart. destruct (shape_of t); [done|reflexivity..].
Qed.
Lemma text_consumed q s : forall a sh num bad ln, a_mode a = MLine sh false num bad ln -> Forall (fun b => b <> 13) s -> ln + zlen s <= LK_REDIS_LINE_MAX ->
  exists num' bad', consumed a (s ++ q) [] (aputs a s <| a_mode := MLine sh false num' bad' (ln + zlen s) |>) q /\
    (zlen num + zlen s <= LK_REDIS_NUM_MAX -> num' = num ++ s /\ bad' = bad).
Proof.
  induction s as [|b s IH]; intros a sh num bad ln Em Hs Hl.
  - exists num, bad. change (zlen []) with 0. rewrite Z.add_0_r, app_nil_r. split; [|done].
    replace (aputs a [] <| a_mode := MLine sh false num bad ln |>) with a; [apply consumed_nil|]. destruct a. cbn in *. subst. unfold aputs. cbn. by rewrite app_nil_r, Z.add_0_r.
  - inversion_clear Hs as [|? ? Hb Hs']. rewrite zlen_cons in *. pose proof (zlen_nonneg s). pose proof (zlen_nonneg num).
    set (nb := if zlen num <? LK_REDIS_NUM_MAX then (num ++ [b], bad) else (num, true)).
    assert (astep d ts a b = Some (aputs a [b] <| a_mode := MLine sh false nb.1 nb.2 (ln + 1) |>, [])) as E1.
    { unfold astep. rewrite Em. cbn [andb]. destruct (Z.ltb_spec LK_REDIS_LINE_MAX (ln + 1)); [lia|]. unfold anum. cbn [orb]. subst nb. destruct (Z.eqb_spec b 13); [done|]. by destruct (_ <? _). }
    destruct (IH (aputs a [b] <| a_mode := MLine sh false nb.1 nb.2 (ln + 1) |>) sh nb.1 nb.2 (ln + 1)) as (num' & bad' & H1 & H2); [done|exact Hs'|lia|]. exists num', bad'. split.
    + rewrite aputs_mode, aputs_app in H1. replace (ln + 1 + zlen s) with (ln + (zlen s + 1)) in H1 by lia. exact (consumed_trans _ _ _ _ _ _ _ _ _ _ (consumed_byte d ts a b _ _ _ E1) H1).
    + intros Hn. subst nb. change LK_REDIS_NUM_MAX with 24 in *. destruct (Z.ltb_spec (zlen num) 24); [|lia]. cbn [fst snd] in H2. rewrite zlen_app in H2. change (zlen [b]) with 1 in H2.
      destruct (H2 ltac:(lia)) as [-> ->]. by rewrite <- app_assoc.
Qed.
(** A line with its CRLF, from after the type byte. *)
Lemma line_consumed a q t s : a_mode a = MValue -> shape_of t <> REDIS_V_BAD -> Forall (fun b => b <> 13) s -> zlen s < LK_REDIS_LINE_MAX ->
  exists num bad k, (zlen s <= LK_REDIS_NUM_MAX -> num = s /\ bad = false) /\
    forall a' ms, aline (aputs (astart a t) (t :: s ++ crlf) <| a_mode := k |>) (shape_of t) num bad = Some (a', ms) ->
      consumed a ((t :: s ++ crlf) ++ q) ms a' q.
Proof.
  intros Em Ht Hs Hl. set (a1 := aputs (astart a t) [t] <| a_mode := MLine (shape_of t) false [] false 0 |>).
  destruct (text_consumed (crlf ++ q) s a1 (shape_of t) [] false 0 eq_refl Hs ltac:(lia)) as (num & bad & H1 & H2). exists num, bad, (MLine (shape_of t) true num bad (zlen s + 1)). split; [exact H2|].
  intros a' ms Ha. cbn [app]. rewrite <- app_assoc.
  refine (consumed_trans _ _ _ _ [] _ _ ms _ _ (head_consumed a _ t Em Ht) _). refine (consumed_trans _ _ _ _ [] _ _ ms _ _ H1 _).
  subst a1. rewrite aputs_mode, aputs_app. cbn [crlf app]. set (a2 := aputs (astart a t) ([t] ++ s)) in *. change (zlen s) with (0 + zlen s) in Ha.
  refine (consumed_trans _ _ _ _ [] (aputs a2 [13] <| a_mode := MLine (shape_of t) true num bad (0 + zlen s + 1) |>) _ ms _ _ (consumed_byte _ _ _ _ _ _ _ _) (consumed_byte _ _ _ _ _ _ _ _)).
  - unfold astep. cbn [a_mode upd andb]. destruct (Z.ltb_spec LK_REDIS_LINE_MAX (0 + zlen s + 1)); [lia|done].
  - unfold astep. cbn [a_mode upd]. change (true && (10 =? 10)) with true. cbv iota. rewrite <- Ha. f_equal. subst a2. unfold crlf.
    change (t :: s ++ [13; 10]) with (([t] ++ s) ++ [13] ++ [10]). rewrite <- !aputs_app. done.
Qed.

Lemma aclose_mode a k : aclose (a <| a_mode := k |>) = aclose a.
Proof. unfold aclose. destruct a. cbn. by destruct (apop _). Qed.
Lemma astart_mode a t : a_mode a = MValue -> a_mode (astart a t) = MValue.
Proof. unfold astart. by destruct (_ =? _). Qed.
Lemma astart_stack a t : a_stack (astart a t) = a_stack a.
Proof. unfold astart. destruct (Z.eqb_spec (zlen (a_stack a)) 0) as [E|]; [|done]. by destruct (a_stack a). Qed.
(** Reading [s] completes a value of [a]. *)
Definition closes a s : Prop := forall q, consumed a (s ++ q) (aclose (aputs (astart a (znth s 0)) s)).2 (aclose (aputs (astart a (znth s 0)) s)).1 q.

Lemma eol_consumed a q : a_mode a = MEol 2 \/ a_mode a = MBulk 0 -> consumed a (crlf ++ q) (aclose (aputs a crlf)).2 (aclose (aputs a crlf)).1 q.
Proof.
  intros Em. refine (consumed_trans _ _ _ _ [] (aputs a [13] <| a_mode := MEol 1 |>) _ _ _ _ (consumed_byte _ _ _ _ _ _ _ _) (consumed_byte _ _ _ _ _ _ _ _)).
  - unfold astep. destruct Em as [-> | ->]; done.
  - transitivity (Some (aclose (aputs (aputs a [13]) [10] <| a_mode := MEol 1 |>))); [done|].
    rewrite aputs_app, aclose_mode. change ([13] ++ [10]) with crlf. by destruct (aclose (aputs a crlf)).
Qed.
Lemma digits_no_cr n : 0 <= n -> Forall (fun b => b <> 13) (show n).
Proof. intros Hn. refine (Forall_impl _ _ (show_digits n Hn)). intros b [Hb _] ->. done. Qed.

(** A header line with a number: the line's outcome decides. *)
Lemma number_consumed a q t n : a_mode a = MValue -> shape_of t <> REDIS_V_BAD -> 0 <= n ->
  exists k, forall a' ms, aline (aputs (astart a t) (t :: show n ++ crlf) <| a_mode := k |>) (shape_of t) (show n) false = Some (a', ms) ->
    consumed a ((t :: show n ++ crlf) ++ q) ms a' q.
Proof.
  intros Em Ht Hn. pose proof (show_len n) as Hlen. destruct (line_consumed a q t (show n) Em Ht (digits_no_cr n Hn)) as (num & bad & k & E & H); [change LK_REDIS_LINE_MAX with 65536; lia|].
  destruct E as [-> ->]; [change LK_REDIS_NUM_MAX with 24; lia|]. by exists k.
Qed.
Lemma line_closes a t s : a_mode a = MValue -> shape_of t = REDIS_V_LINE -> Forall (fun b => b <> 13) s -> zlen s < LK_REDIS_LINE_MAX -> closes a (t :: s ++ crlf).
Proof.
  intros Em Et Hs Hl q. destruct (line_consumed a q t s Em ltac:(by rewrite Et) Hs Hl) as (num & bad & k & _ & H). apply H. rewrite Et. cbn [aline].
  rewrite aclose_mode. change (znth (t :: s ++ crlf) 0) with t. by destruct (aclose _).
Qed.
Lemma null_closes a t : a_mode a = MValue -> shape_of t <> REDIS_V_LINE -> shape_of t <> REDIS_V_BAD -> closes a (t :: [ch "-"; ch "1"] ++ crlf).
Proof.
  intros Em E1 E2 q. destruct (line_consumed a q t [ch "-"; ch "1"] Em E2) as (num & bad & k & E & H); [by repeat constructor|done|]. destruct (E ltac:(done)) as [-> ->]. apply H.
  change (znth (t :: [ch "-"; ch "1"] ++ crlf) 0) with t. destruct (shape_of t); try done; unfold aline; change (redis_parse_i64 [ch "-"; ch "1"]) with (Some (-1)); cbn [mbind option_bind];
    rewrite ?aclose_mode; by destruct (aclose _).
Qed.
Lemma bulk_closes a t p : a_mode a = MValue -> shape_of t = REDIS_V_BULK -> zlen p <= LK_REDIS_MAX_BULK -> closes a (t :: (show (zlen p) ++ crlf) ++ p ++ crlf).
Proof.
  intros Em Et Hp q. pose proof (zlen_nonneg p). change (znth _ 0) with t. destruct (number_consumed a (p ++ crlf ++ q) t (zlen p) Em ltac:(by rewrite Et) ltac:(lia)) as (k & H1).
  rewrite app_comm_cons, <- !app_assoc. rewrite app_comm_cons. set (hd := t :: show (zlen p) ++ crlf) in *. set (a1 := aputs (astart a t) hd <| a_mode := MBulk (zlen p) |>).
  assert (consumed a (hd ++ p ++ crlf ++ q) [] a1 (p ++ crlf ++ q)) as H2.
  { apply H1. rewrite Et. unfold aline. change LK_REDIS_MAX_BULK with 536870912 in *. rewrite parse_show by lia. cbn [mbind option_bind]. unfold redis_bulk_len. destruct (Z.ltb_spec (zlen p) 0); [lia|].
    change LK_REDIS_MAX_BULK with 536870912. destruct (Z.ltb_spec 536870912 (zlen p)); [lia|done]. }
  assert (exists a2 m, consumed a1 (p ++ crlf ++ q) [] a2 (crlf ++ q) /\ a2 = aputs a1 p <| a_mode := m |> /\ (m = MEol 2 \/ m = MBulk 0)) as (a2 & m & H3 & E2 & Em2).
  { destruct p as [|b p]; [exists a1, (MBulk 0); split; [apply consumed_nil|]; split; [|by right]; subst a1; unfold aputs; destruct (astart a t); cbn; by rewrite app_nil_r, Z.add_0_r|].
    pose proof (bulk_consumed d ts (crlf ++ q) (b :: p) a1 (zlen (b :: p)) eq_refl ltac:(done) ltac:(lia)) as H3. rewrite Z.eqb_refl in H3. exists (aputs a1 (b :: p) <| a_mode := MEol 2 |>), (MEol 2). split; [done|]. split; [done|by left]. }
  pose proof (eol_consumed a2 q ltac:(by rewrite E2)) as H4. pose proof (consumed_trans _ _ _ _ _ _ _ _ _ _ H2 (consumed_trans _ _ _ _ _ _ _ _ _ _ H3 H4)) as H5. cbn [app] in H5.
  replace (aclose (aputs a2 crlf)) with (aclose (aputs (astart a t) (hd ++ p ++ crlf))) in H5; [exact H5|].
  subst a2 a1. rewrite !aputs_mode, !aclose_mode, !aputs_app. by rewrite <- ?app_assoc.
Qed.

(** Every value of [R] is read wherever [m] more levels are available. *)
Definition reads (R : resp -> Prop) (m : Z) : Prop :=
  forall v, R v -> forall a, a_mode a = MValue -> zlen (a_stack a) + m <= LK_REDIS_MAX_DEPTH -> closes a (enc v).
(** The elements of an open aggregate, [zlen vs] of them owed. *)
Lemma elems_close R m (IH : reads R m) q :
  forall vs a s, Forall R vs -> vs <> [] -> a_mode a = MValue -> a_stack a = zlen vs :: s -> zlen s + 1 + m <= LK_REDIS_MAX_DEPTH ->
  consumed a (concat (map enc vs) ++ q) (aclose (aputs (a <| a_stack := s |>) (concat (map enc vs)))).2 (aclose (aputs (a <| a_stack := s |>) (concat (map enc vs)))).1 q.
Proof.
  induction vs as [|v vs IHvs]; intros a s Hvs Hne Em Es Hd; [done|]. inversion_clear Hvs as [|? ? Hv Hvs']. cbn [map concat].
  pose proof (zlen_nonneg s). pose proof (zlen_nonneg vs) as Hn. rewrite zlen_cons in Es.
  assert (forall t, astart a t = a) as Ea by (intros t; unfold astart; rewrite Es, zlen_cons; destruct (Z.eqb_spec (zlen s + 1) 0); [lia|done]).
  specialize (IH v Hv a Em ltac:(rewrite Es, zlen_cons; lia) (concat (map enc vs) ++ q)). rewrite Ea in IH. rewrite <- app_assoc.
  destruct vs as [|v' vs].
  - cbn [map concat app] in *. rewrite !app_nil_r. replace (aclose (aputs (a <| a_stack := s |>) (enc v))) with (aclose (aputs a (enc v))); [exact IH|].
    unfold aclose. change (a_stack (aputs a (enc v))) with (a_stack a). rewrite Es. change (apop (zlen [] + 1 :: s)) with (apop s).
    change (a_stack (aputs (a <| a_stack := s |>) (enc v))) with s. destruct a. cbn. by destruct (apop s).
  - set (k := zlen (v' :: vs)) in *. assert (1 <= k) by (subst k; rewrite zlen_cons; pose proof (zlen_nonneg vs); lia).
    set (a1 := aputs a (enc v) <| a_mode := MValue |> <| a_stack := k :: s |>).
    assert (aclose (aputs a (enc v)) = (a1, [])) as E1.
    { unfold aclose. change (a_stack (aputs a (enc v))) with (a_stack a). rewrite Es. cbn [apop]. destruct (Z.eqb_spec (k + 1) 1); [lia|]. subst a1. by replace (k + 1 - 1) with k by lia. }
    rewrite E1 in IH. specialize (IHvs a1 s Hvs' ltac:(done) eq_refl eq_refl Hd). pose proof (consumed_trans _ _ _ _ _ _ _ _ _ _ IH IHvs) as H5. cbn [app fst snd] in H5.
    replace (aputs (a1 <| a_stack := s |>) (concat (map enc (v' :: vs)))) with (aputs (a <| a_stack := s |>) (enc v ++ concat (map enc (v' :: vs))) <| a_mode := MValue |>) in H5;
      [rewrite aclose_mode in H5; exact H5|]. rewrite <- aputs_app. done.
Qed.
Lemma agg_count_of t vs : match shape_of t with REDIS_V_AGG => zlen vs <= LK_REDIS_MAX_ELEMS | REDIS_V_AGGPAIR => zlen vs <= LK_REDIS_MAX_ELEMS - 1 /\ zlen vs mod 2 = 0 | _ => False end ->
  0 <= agg_header t (@zlen resp vs) < 2 ^ 58 /\ redis_agg_count (agg_header t (zlen vs)) (bool_decide (shape_of t = REDIS_V_AGGPAIR)) = Some (zlen vs).
Proof.
  pose proof (zlen_nonneg vs). unfold agg_header, redis_agg_count, u32. change LK_REDIS_MAX_ELEMS with 2147483647. destruct (shape_of t); try done.
  - intros Hl. split; [lia|]. cbn [bool_decide decide_rel]. destruct (Z.ltb_spec (zlen vs) 0); [lia|]. rewrite bool_decide_eq_false_2 by done. destruct (Z.ltb_spec 2147483647 (zlen vs)); [lia|].
    rewrite Z.mul_1_r, !Z.mod_small; [done|lia|]. rewrite Z.mod_small; lia.
  - intros [Hl He]. rewrite bool_decide_eq_true_2 by done. change (2147483647 / 2) with 1073741823. pose proof (Z.div_mod (zlen vs) 2 ltac:(lia)) as E. set (h := zlen vs / 2) in *. split; [lia|].
    destruct (Z.ltb_spec h 0); [lia|]. destruct (Z.ltb_spec 1073741823 h); [lia|]. rewrite (Z.mod_small h), Z.mod_small; [f_equal; lia|lia|lia].
Qed.
Lemma agg_closes R m (IH : reads R m) a t vs : 0 <= m ->
  a_mode a = MValue -> zlen (a_stack a) + 1 + m <= LK_REDIS_MAX_DEPTH \/ vs = [] -> Forall R vs ->
  match shape_of t with REDIS_V_AGG => zlen vs <= LK_REDIS_MAX_ELEMS | REDIS_V_AGGPAIR => zlen vs <= LK_REDIS_MAX_ELEMS - 1 /\ zlen vs mod 2 = 0 | _ => False end ->
  closes a (enc (RAgg t vs)).
Proof.
  intros Hm Em Hd Hvs Hs q. destruct (agg_count_of t vs Hs) as [Hr Hc]. set (h := agg_header t (zlen vs)) in *. change (znth (enc (RAgg t vs)) 0) with t. cbn [enc]. fold h.
  destruct (number_consumed a (concat (map enc vs) ++ q) t h Em ltac:(by intros E; rewrite E in Hs) ltac:(lia)) as (k & H1). rewrite app_comm_cons, <- app_assoc. set (hd := t :: show h ++ crlf) in *.
  set (b := aputs (astart a t) hd) in *. assert (a_stack b = a_stack a) as Eb by (exact (astart_stack a t)).
  set (res := if zlen vs =? 0 then aclose b else (b <| a_mode := MValue |> <| a_stack := zlen vs :: a_stack a |>, [])).
  assert (consumed a (hd ++ concat (map enc vs) ++ q) res.2 res.1 (concat (map enc vs) ++ q)) as H2.
  { apply H1. unfold aline. rewrite parse_show by done. cbn [mbind option_bind]. subst res. rewrite <- Eb.
    assert (forall X, (if zlen vs =? 0 then Some (aclose (b <| a_mode := k |>)) else if LK_REDIS_MAX_DEPTH <=? zlen (a_stack b) then None
              else Some (b <| a_mode := k |> <| a_stack ::= cons (zlen vs) |> <| a_mode := MValue |>, [])) = X -> X = Some (if zlen vs =? 0 then aclose b else (b <| a_mode := MValue |> <| a_stack := zlen vs :: a_stack b |>, []))) as HX.
    { intros X <-. rewrite aclose_mode. destruct (Z.eqb_spec (zlen vs) 0); [done|]. destruct (Z.leb_spec LK_REDIS_MAX_DEPTH (zlen (a_stack b))) as [Hb|]; [|done].
      exfalso. rewrite Eb in Hb. destruct Hd as [| ->]; [lia|done]. }
    rewrite <- surjective_pairing. destruct (shape_of t); try done; rewrite Hc; cbn [mbind option_bind]; by apply HX. }
  subst res. destruct vs as [|v vs].
  - cbn [map concat app] in *. change (zlen [] =? 0) with true in H2. cbv iota in H2. by rewrite app_nil_r.
  - destruct (Z.eqb_spec (zlen (v :: vs)) 0) as [E|_]; [rewrite zlen_cons in E; pose proof (zlen_nonneg vs); lia|]. destruct Hd as [Hd|]; [|done]. cbn [fst snd] in H2.
    pose proof (elems_close R m IH q (v :: vs) (b <| a_mode := MValue |> <| a_stack := zlen (v :: vs) :: a_stack a |>) (a_stack a) Hvs ltac:(done) eq_refl eq_refl Hd) as H3.
    pose proof (consumed_trans _ _ _ _ _ _ _ _ _ _ H2 H3) as H4. cbn [app] in H4.
    replace (aputs (b <| a_mode := MValue |> <| a_stack := zlen (v :: vs) :: a_stack a |> <| a_stack := a_stack a |>) (concat (map enc (v :: vs))))
      with (aputs (astart a t) (hd ++ concat (map enc (v :: vs))) <| a_mode := MValue |>) in H4; [rewrite aclose_mode in H4; exact H4|].
    rewrite <- aputs_app, <- (astart_stack a t). subst b. by destruct (astart a t).
Qed.
Lemma value_closes n : reads (vwf n) (Z.of_nat n).
Proof.
  induction n as [|n IH]; intros v Hv a Em Hd; destruct v as [t s|t p|t|t vs]; cbn [vwf] in Hv;
    try (by destruct Hv as (? & ? & ?); apply line_closes); try (by destruct Hv; apply bulk_closes); try (by destruct Hv; apply null_closes); destruct Hv as [Hs Hvs].
  - subst vs. apply (agg_closes (fun _ => False) 0); try done; [by intros v []|by right].
  - apply (agg_closes (vwf n) (Z.of_nat n) IH); try done; [lia|left; lia].
Qed.
End Read.
