(* ===== verification/RedisClaims.v ===== *)
(** What the Redis framer promises: it implements the byte machine, values come out as
    they were written wherever the capture cuts the stream, and a hole inside a payload
    costs its bytes and nothing else. *)
From Stdlib Require Import Ascii String.
From stdpp Require Import base list option.
From S2P Require Import Prelude Conn Reassembly Proto Decimal RedisFrame StreamSafe RedisRefine RedisResp.
#[local] Open Scope Z_scope.

(** ** Chunks and fresh connections *)
Section Stream.
Implicit Types (a : astate) (d : lk_dir) (ts : Z) (m : lk_msg).

(** ** Runs that differ in time stamps or payload bytes *)
Section Rel.
Context (d : lk_dir) (Q : list Z -> list Z -> Prop) (Q0 : Q [] []) (QS : forall l l' b, Q l l' -> Q (l ++ [b]) (l' ++ [b])).
Record arel a a' : Prop := ARel {
  ar_mode : a_mode a = a_mode a'; ar_stack : a_stack a = a_stack a'; ar_type : a_type a = a_type a'; ar_len : a_len a = a_len a'; ar_acc : Q (a_acc a) (a_acc a') }.
Definition mrel m m' : Prop := exists a a', arel a a' /\ m = amsg a /\ m' = amsg a'.
Definition orel (o o' : option (astate * list lk_msg)) : Prop :=
  match o, o' with Some (a, ms), Some (a', ms') => arel a a' /\ Forall2 mrel ms ms' | None, None => True | _, _ => False end.

Lemma idle_rel : arel idle idle.
Proof. by split. Qed.
Lemma put_rel a a' b : arel a a' -> arel (aput a b) (aput a' b).
Proof. intros [E1 E2 E3 E4 E5]. split; try done; [cbn; by rewrite E4|by apply QS]. Qed.
Lemma mode_rel_set a a' k : arel a a' -> arel (a <| a_mode := k |>) (a' <| a_mode := k |>).
Proof. by intros [E1 E2 E3 E4 E5]. Qed.
Lemma close_rel a a' : arel a a' -> orel (Some (aclose a)) (Some (aclose a')).
Proof.
  intros H. pose proof H as [E1 E2 E3 E4 E5]. unfold aclose. rewrite <- E2. destruct (apop (a_stack a)); cbn.
  - split; [apply idle_rel|]. constructor; [by exists a, a'|done].
  - split; [by split|done].
Qed.
Lemma silent_rel a a' : arel a a' -> orel (Some (a, [])) (Some (a', [])).
Proof. by split. Qed.
Lemma line_rel a a' sh num bad : arel a a' -> orel (aline a sh num bad) (aline a' sh num bad).
Proof.
  intros H. unfold aline. pose proof (close_rel a a' H) as Hc.
  destruct sh; [|exact Hc| | |]; (destruct bad; [done|]); (destruct (redis_parse_i64 num) as [v|]; [|done]); cbn [mbind option_bind].
  2: { destruct (redis_bulk_len v) as [[n []]|]; [exact Hc|by apply silent_rel, mode_rel_set|done]. }
  all: destruct (redis_agg_count _ _) as [n|]; [|done]; cbn [mbind option_bind]; (destruct (n =? 0); [exact Hc|]); rewrite <- (ar_stack _ _ H);
    (destruct (_ <=? _); [done|]); apply silent_rel; destruct H as [E1 E2 E3 E4 E5]; split; try done; cbn; by rewrite E2.
Qed.
Lemma inline_rel a a' arg ln b : arel a a' -> orel (ainline a arg ln b) (ainline a' arg ln b).
Proof.
  intros H. unfold ainline. pose proof (put_rel a a' b H) as Hp. destruct (b =? 10).
  - destruct arg; (split; [apply idle_rel|]); [|done]. constructor; [by eexists _, _|done].
  - destruct (_ <? _); [done|]. by apply silent_rel, mode_rel_set.
Qed.
Lemma eol_rel a a' k b : arel a a' -> orel (aeol a k b) (aeol a' k b).
Proof.
  intros H. unfold aeol. pose proof (put_rel a a' b H) as Hp. destruct (negb _); [done|]. destruct (k =? 1); [by apply close_rel|]. by apply silent_rel, mode_rel_set.
Qed.
Lemma step_rel ts ts' a a' b : arel a a' -> orel (astep d ts a b) (astep d ts' a' b).
Proof.
  intros H. pose proof H as [E1 E2 E3 E4 E5]. unfold astep. rewrite <- E1, <- E2. destruct (a_mode a) as [|sh saw num bad ln|n|k|arg ln].
  - set (top := zlen (a_stack a) =? 0). destruct (top && _); [by apply silent_rel|]. destruct (top && _); [done|].
    set (b0 := if top then AState MValue [] b [] 0 ts else a). set (b0' := if top then AState MValue [] b [] 0 ts' else a').
    assert (arel b0 b0') as H0 by (subst b0 b0'; destruct top; [by split|done]). clearbody b0 b0'.
    destruct (shape_of b); try by apply silent_rel, mode_rel_set, put_rel. destruct (_ && _); [|done]. apply inline_rel. by destruct H0.
  - destruct (_ && _); [by apply line_rel, put_rel|]. destruct (_ <? _); [done|]. destruct (anum saw num bad b). by apply silent_rel, mode_rel_set, put_rel.
  - destruct (n =? 0); [by apply eol_rel|]. by apply silent_rel, mode_rel_set, put_rel.
  - by apply eol_rel.
  - by apply inline_rel.
Qed.
Lemma bind_rel o o' g g' : orel o o' -> (forall a a', arel a a' -> orel (g a) (g' a')) ->
  orel ('(a, m1) ← o; '(a, m2) ← g a; Some (a, m1 ++ m2)) ('(a, m1) ← o'; '(a, m2) ← g' a; Some (a, m1 ++ m2)).
Proof.
  intros H Hg. destruct o as [[a m1]|], o' as [[a' m1']|]; try done. cbn [mbind option_bind]. destruct H as [H1 H2]. specialize (Hg a a' H1).
  destruct (g a) as [[e m2]|], (g' a') as [[e' m2']|]; try done. cbn [mbind option_bind]. destruct Hg as [H3 H4]. split; [done|]. by apply Forall2_app.
Qed.
Lemma run_rel ts ts' bs : forall a a', arel a a' -> orel (arun d ts a bs) (arun d ts' a' bs).
Proof. induction bs as [|b bs IH]; intros a a' H; [by apply silent_rel|]. cbn [arun]. apply bind_rel; [by apply step_rel|done]. Qed.

(** A stream in chunks is the stream in one piece. *)
Definition bytes_of (s : seg) : list Z := match s with Seg _ p => p | Gap _ => [] end.
Definition captured (ss : list seg) : Prop := Forall (fun s => match s with Seg _ _ => True | Gap _ => False end) ss.
Lemma segs_rel ss ts : captured ss -> forall a a', arel a a' -> orel (segs_run d a ss) (arun d ts a' (concat (map bytes_of ss))).
Proof.
  induction 1 as [|[ts' p|] ss H Hs IH]; intros a a' Ha; [by apply silent_rel| |done]. cbn [segs_run map concat bytes_of]. rewrite arun_app. apply bind_rel; [by apply run_rel|done].
Qed.
End Rel.

(** ** Fresh connections *)
Section Fresh.
Context {P : Type} (d : lk_dir).
Abbreviation reasm := (lk_reasm (list lk_msg) P redis_frame).
Abbreviation conn := (lk_conn P redis_frame).
Implicit Types (r : reasm) (c : conn).
(** No framer state yet, nothing lost, the connection observed. *)
Record fresh c : Prop := Fresh {
  fr_none : c_frame_state c = None; fr_st : f_st (frame c d) = LK_FR_HEADER; fr_resync : f_after_resync (frame c d) = false;
  fr_buf : f_buf (frame c d) = None; fr_observed : has_flag (c_flags c) LK_CONN_IGNORE = false }.
Lemma fresh_get r c : good r -> c_frame_state c = None -> redis_frame_get r c = (true, r, c <| c_frame_state := Some redis_frame0 |>).
Proof. intros [_ E] Hn. unfold redis_frame_get, malloc. by rewrite Hn, E. Qed.
Lemma fresh_deliver r c s ss : good r -> c_frame_state c = None ->
  deliver_segs d r c (s :: ss) = deliver_segs d r (c <| c_frame_state := Some redis_frame0 |>) (s :: ss).
Proof. intros Hr Hn. destruct s; cbn [deliver_segs]; [unfold redis_stream_bytes|unfold redis_stream_hole]; by rewrite (fresh_get r c). Qed.
Lemma fresh_sim ss r c aE msE : good r -> fresh c -> segs_run d idle ss = Some (aE, msE) ->
  heard r msE (deliver_segs d r c ss).1.
Proof.
  intros Hr [F1 F2 F3 F4 F5] Ha. destruct ss as [|s ss]; [injection Ha as <- <-; by apply heard_nil|]. rewrite fresh_deliver by done.
  set (c1 := c <| c_frame_state := Some redis_frame0 |>).
  destruct (segs_sim d (s :: ss) r c1 (c_flags c) (frame c d) redis_dir0 idle aE msE) as (r' & c' & f' & x' & -> & H & _); try done.
  split; [by eexists|]. split; [done|]. split; [by destruct d|]. subst c1. unfold dir_of. cbn. by destruct d.
Qed.
End Fresh.
End Stream.

Implicit Types (a : astate) (d : lk_dir) (ts : Z) (m : lk_msg).

(** The message of a value. *)
Definition emsg ts (v : resp) : lk_msg :=
  let body := ztake LK_MSG_BODY_MAX (enc v) in
  Msg ts (rtype v) (if zlen body <? zlen (enc v) then LK_MSG_BODY_TRUNC else 0) (Z.min (zlen (enc v)) (2 ^ 32 - 1)) body.
Definition framed (v : resp) : Prop := vwf (Z.to_nat LK_REDIS_MAX_DEPTH) v /\ zlen (enc v) < 2 ^ 64.
(** A message up to the time it was seen. *)
Definition untimed m : lk_msg := m <| m_ts_ns := 0 |>.
(** What a hole cannot take away. *)
Definition shape m : Z * Z := (m_type m, m_len m).

Lemma enc_head v : znth (enc v) 0 = rtype v.
Proof. by destruct v. Qed.
Lemma value_run d ts v q : framed v -> arun d ts idle (enc v ++ q) = '(a, ms) ← arun d ts idle q; Some (a, emsg ts v :: ms).
Proof.
  intros [Hv Hl]. pose proof (value_closes d ts _ v Hv idle eq_refl ltac:(done) q) as H. rewrite enc_head in H. unfold consumed in H. rewrite H.
  set (X := aputs (astart ts idle (rtype v)) (enc v)). assert (aclose X = (idle, [emsg ts v])) as ->; [|done].
  change (aclose X) with (idle, [amsg X]). do 2 f_equal. unfold amsg, emsg. change (a_acc X) with (enc v). change (a_type X) with (rtype v). change (a_ts X) with ts.
  change (a_len X) with (0 + zlen (enc v)). pose proof (zlen_nonneg (enc v)). rewrite Z.add_0_l, u64_small by lia. f_equal. change (2 ^ 32 - 1) with 4294967295. destruct (Z.ltb_spec 4294967295 (zlen (enc v))); lia.
Qed.
Lemma values_run d ts vs : Forall framed vs -> arun d ts idle (concat (map enc vs)) = Some (idle, map (emsg ts) vs).
Proof. induction 1 as [|v vs Hv _ IH]; [done|]. cbn [map concat]. by rewrite value_run, IH. Qed.

(** ** Holes *)
(** [ss] is a capture of [bs] in which gaps stand for lost bytes. *)
Inductive covers : list seg -> list Z -> Prop :=
  | cov_nil : covers [] []
  | cov_seg ts p ss bs : covers ss bs -> covers (Seg ts p :: ss) (p ++ bs)
  | cov_gap n lost ss bs : zlen lost = n -> covers ss bs -> covers (Gap n :: ss) (lost ++ bs).
Abbreviation lossy := (fun _ _ : list Z => True).
Lemma hole_run d ts a a' n a1 lost : arel lossy a a' -> ahole a n = Some a1 -> zlen lost = n ->
  exists a1', arun d ts a' lost = Some (a1', []) /\ arel lossy a1 a1'.
Proof.
  intros [E1 E2 E3 E4 _] Ha Hn. unfold ahole in Ha. destruct (a_mode a) as [| |k| |] eqn:Em; try done. destruct (Z.leb_spec n 0), (Z.ltb_spec k n); try done. cbn [orb] in Ha. injection Ha as <-.
  pose proof (bulk_consumed d ts [] lost a' k ltac:(congruence) ltac:(by intros ->; change (zlen []) with 0 in *; lia) ltac:(lia)) as H1. unfold consumed in H1. rewrite app_nil_r in H1.
  cbn [arun mbind option_bind app] in H1. eexists. split; [exact H1|]. rewrite Hn. split; cbn; [|done|done|by rewrite Hn, E4|done]. replace (k =? n) with (n =? k) by lia. done.
Qed.
Lemma covers_rel d ts ss bs : covers ss bs -> forall a a' aE ms, arel lossy a a' -> segs_run d a ss = Some (aE, ms) ->
  exists aE' ms', arun d ts a' bs = Some (aE', ms') /\ arel lossy aE aE' /\ Forall2 (mrel lossy) ms ms'.
Proof.
  induction 1 as [|ts' p ss bs _ IH|n lost ss bs Hn _ IH]; intros a a' aE ms Hr Ha; cbn [segs_run] in Ha.
  - injection Ha as <- <-. by exists a', [].
  - pose proof (run_rel d lossy I ltac:(done) ts' ts p a a' Hr) as H1. destruct (arun d ts' a p) as [[a1 m1]|]; [|done]. cbn [mbind option_bind] in Ha.
    destruct (segs_run d a1 ss) as [[a2 m2]|] eqn:E2; [|done]. injection Ha as <- <-. destruct (arun d ts a' p) as [[a1' m1']|] eqn:E1; [|done]. destruct H1 as [H1 H1m].
    destruct (IH a1 a1' a2 m2 H1 E2) as (aE' & ms' & E3 & H3 & H3m). rewrite arun_app, E1. cbn [mbind option_bind]. rewrite E3. eexists _, _. split; [reflexivity|]. split; [done|]. by apply Forall2_app.
  - destruct (ahole a n) as [a1|] eqn:E1; [|done]. cbn [mbind option_bind] in Ha. destruct (hole_run d ts a a' n a1 lost Hr E1 Hn) as (a1' & E1' & H1).
    destruct (IH a1 a1' aE ms H1 Ha) as (aE' & ms' & E3 & H3 & H3m). rewrite arun_app, E1'. cbn [mbind option_bind]. rewrite E3. by eexists _, _.
Qed.
Lemma mrel_shape m m' : mrel lossy m m' -> shape m = shape m'.
Proof. intros (a & a' & [E1 E2 E3 E4 _] & -> & ->). unfold shape, amsg. cbn. by rewrite E3, E4. Qed.
Lemma mrel_untimed m m' : mrel eq m m' -> untimed m = untimed m'.
Proof. intros (a & a' & [E1 E2 E3 E4 E5] & -> & ->). unfold untimed, amsg. cbn. by rewrite E3, E4, E5. Qed.
Lemma Forall2_map_eq {A B} (f : A -> B) (R : A -> A -> Prop) l l' : (forall x y, R x y -> f x = f y) -> Forall2 R l l' -> map f l = map f l'.
Proof. intros H. induction 1; cbn; f_equal; auto. Qed.

Section Claims.
Context {P : Type} (d : lk_dir) (r : lk_reasm (list lk_msg) P redis_frame) (c : lk_conn P redis_frame) (Hr : good r) (Hc : fresh d c).

(** The Redis framer refines the byte machine.  On every capture the machine of
    [RedisRefine] can follow, from a connection without framing state, holes inside payloads
    included, the framer delivers exactly the machine's messages, in order and with its
    times. *)
Theorem redis_framer_refines ss aE ms : segs_run d idle ss = Some (aE, ms) -> r_ctx (deliver_segs d r c ss).1 = r_ctx r ++ ms.
Proof. intros Ha. exact (proj2 (fresh_sim d ss r c aE ms Hr Hc Ha)). Qed.

(** C8: Redis values survive capture.  Any sequence of well-formed RESP values (lines,
    bulk payloads, nulls, nested arrays, maps, sets and pushes within the depth limit),
    written to the wire and cut into chunks anywhere, is delivered as exactly one message
    per value, in order, each with its type, its full length and its leading bytes. *)
Theorem redis_stream_roundtrip ss vs : captured ss -> Forall framed vs -> concat (map bytes_of ss) = concat (map enc vs) ->
  exists ms, r_ctx (deliver_segs d r c ss).1 = r_ctx r ++ ms /\ map untimed ms = map (fun v => untimed (emsg 0 v)) vs.
Proof.
  intros Hs Hv Eb. pose proof (segs_rel d eq eq_refl ltac:(by intros ??? ->) ss 0 Hs idle idle (idle_rel eq eq_refl)) as H. rewrite Eb, values_run in H by done.
  destruct (segs_run d idle ss) as [[aE ms]|] eqn:E; [|done]. exists ms. split; [exact (proj2 (fresh_sim d ss r c aE ms Hr Hc E))|].
  rewrite (Forall2_map_eq untimed (mrel eq) ms _ mrel_untimed (proj2 H)). by rewrite map_map.
Qed.

(** A hole costs its bytes and nothing else.  When bytes of a value's payload were not
    captured and the machine can follow, one message per value is still delivered, in
    order, with its type and the length it had on the wire. *)
Theorem redis_hole_exact ss vs : covers ss (concat (map enc vs)) -> Forall framed vs -> segs_run d idle ss <> None ->
  exists ms, r_ctx (deliver_segs d r c ss).1 = r_ctx r ++ ms /\ map shape ms = map (fun v => (rtype v, Z.min (zlen (enc v)) (2 ^ 32 - 1))) vs.
Proof.
  intros Hs Hv Ha. destruct (segs_run d idle ss) as [[aE ms]|] eqn:E; [|done]. exists ms. split; [exact (proj2 (fresh_sim d ss r c aE ms Hr Hc E))|].
  destruct (covers_rel d 0 ss _ Hs idle idle aE ms (idle_rel lossy I) E) as (aE' & ms' & E' & _ & Hm). rewrite values_run in E' by done. injection E' as <- <-.
  rewrite (Forall2_map_eq shape (mrel lossy) ms _ mrel_shape Hm). by rewrite map_map.
Qed.
End Claims.

(** ** Witnesses *)
Definition w_reasm : lk_reasm (list lk_msg) unit redis_frame := lk_reasm_init [] rec_msgs [].
Definition w_new : lk_conn unit redis_frame := conn0 7.
Lemma w_good : good w_reasm.
Proof. by split. Qed.
Lemma w_fresh d : fresh d w_new.
Proof. by destruct d; split. Qed.
Definition w_values : list resp := [RAgg REDIS_T_ARRAY [RBulk REDIS_T_BULK (lit "GET"); RBulk REDIS_T_BULK (lit "key")]; RLine REDIS_T_SIMPLE (lit "OK")].
Definition w_bytes : list Z := concat (map enc w_values).
Definition w_chunks : list seg := [Seg 5 (ztake 11 w_bytes); Seg 9 (zdrop 11 w_bytes)].
Definition w_lossy : list seg := [Seg 5 (ztake 10 w_bytes); Gap 1; Seg 9 (zdrop 11 w_bytes)].
Lemma w_framed : Forall framed w_values.
Proof. repeat constructor; vm_compute; congruence. Qed.
Definition w_delivered (ss : list seg) : list lk_msg := r_ctx (deliver_segs LK_DIR_RECV w_reasm w_new ss).1.
Definition w_state : astate := match segs_run LK_DIR_RECV idle w_chunks with Some (a, _) => a | None => idle end.
Definition w_msgs : list lk_msg := match segs_run LK_DIR_RECV idle w_chunks with Some (_, ms) => ms | None => [] end.
Lemma redis_framer_refines_witness : length w_msgs = 2%nat /\ w_delivered w_chunks = [] ++ w_msgs.
Proof.
  split; [vm_compute; reflexivity|]. refine (redis_framer_refines LK_DIR_RECV w_reasm w_new w_good (w_fresh _) w_chunks w_state w_msgs _). vm_compute. reflexivity.
Defined.
Lemma redis_stream_roundtrip_witness : exists ms, w_delivered w_chunks = [] ++ ms /\ map untimed ms = map (fun v => untimed (emsg 0 v)) w_values.
Proof. refine (redis_stream_roundtrip LK_DIR_RECV w_reasm w_new w_good (w_fresh _) w_chunks w_values _ w_framed _); [repeat constructor|vm_compute; reflexivity]. Defined.
Lemma redis_hole_exact_witness : exists ms, w_delivered w_lossy = [] ++ ms /\ map shape ms = map (fun v => (rtype v, Z.min (zlen (enc v)) (2 ^ 32 - 1))) w_values.
Proof.
  refine (redis_hole_exact LK_DIR_RECV w_reasm w_new w_good (w_fresh _) w_lossy w_values _ w_framed _); [|vm_compute; discriminate].
  change (concat (map enc w_values)) with (ztake 10 w_bytes ++ [84] ++ zdrop 11 w_bytes ++ []). repeat constructor.
Defined.
