(* ===== verification/RedisSafe.v ===== *)
(** The Redis framer on arbitrary input: corrupt lengths, bad types, holes anywhere,
    allocation failures, both directions interleaved. *)
From Stdlib Require Import Ascii String.
From stdpp Require Import base list option.
From S2P Require Import Prelude Conn Proto Reassembly StreamSafe RedisFrame RedisRefine.
#[local] Open Scope Z_scope.

Definition in_u64 (n : Z) : Prop := 0 <= n < 2 ^ 64.
Definition in_u8 (n : Z) : Prop := 0 <= n < 2 ^ 8.
(** Every field of [struct redis_dir] but [cur] in the range of its type or array, and the
    slab within its size: the flags and the enumerations are so by their types. *)
Record dinv (f : lk_frame) (x : redis_dir) : Prop := DInv {
  di_buf : buf_len f <= LK_MSG_BODY_MAX;
  di_depth : rd_depth x <= LK_REDIS_MAX_DEPTH;
  di_stack : Forall (fun n => 1 <= n < 2 ^ 32) (rd_stack x);
  di_num : zlen (rd_num x) <= LK_REDIS_NUM_MAX;
  di_digits : Forall in_u8 (rd_num x);
  di_vtype : in_u8 (rd_vtype x);
  di_line : 0 <= rd_line_n x <= LK_REDIS_LINE_MAX;
  di_bulk : 0 <= rd_bulk_left x <= LK_REDIS_MAX_BULK;
  di_eol : 0 <= rd_eol_left x <= 2;
  di_v_pos : in_u64 (rd_v_pos x);
  di_v_ts : in_u64 (rd_v_ts x);
  di_cbase : in_u64 (rd_cbase x);
  di_last_ts : in_u64 (rd_last_ts x);
  di_off : in_u64 (rd_off x);
  di_events : in_u64 (rd_events x);
  di_holes : in_u64 (rd_holes x);
  di_owed : rd_st x = REDIS_FR_BULK \/ rd_st x = REDIS_FR_BULK_EOL -> 1 <= rd_eol_left x }.
(** What the capture may deliver: times, bytes and lengths in the range of their types. *)
Definition typed (e : lk_dir * seg) : Prop :=
  match e.2 with Seg ts p => in_u64 ts /\ Forall in_u8 p /\ zlen p < 2 ^ 32 | Gap n => in_u64 n end.

Section Safe.
Context {S P : Type} (k : lk_msg_sink S P redis_frame) {SS : StreamSink k} (d : lk_dir).
Abbreviation reasm := (lk_reasm S P redis_frame).
Abbreviation conn := (lk_conn P redis_frame).
Implicit Types (r : reasm) (c : conn) (f : lk_frame) (x : redis_dir) (p q : list Z) (i ts : Z).
Context (f0 : lk_frame) (x0 : redis_dir).  (* the other direction *)
Abbreviation other := (StreamSafe.other d).
Abbreviation okr := (okr k).

(** [J] of this direction; the other one untouched. *)
Definition okc (J : lk_frame -> redis_dir -> Prop) r c : Prop :=
  okr r /\ is_Some (c_frame_state c) /\ J (frame c d) (dir_of c d) /\ frame c other = f0 /\ dir_of c other = x0.
Lemma okc_weaken (J J' : lk_frame -> redis_dir -> Prop) r c : (forall f x, J f x -> J' f x) -> okc J r c -> okc J' r c.
Proof. intros H (? & ? & ? & ?). split; [done|]. split; [done|]. split; [by apply H|done]. Qed.
Lemma okc_r J r r' c : okr r' -> okc J r c -> okc J r' c.
Proof. by intros H [_ ?]. Qed.
Lemma okc_dir (J : lk_frame -> redis_dir -> Prop) g r c : okc (fun f x => J f (g x)) r c -> okc J r (upd_dir c d g).
Proof.
  intros (H1 & [rf E] & H3 & H4 & H5). unfold okc, upd_dir, dir_of in *. cbn [c_frame_state upd]. rewrite E in *. cbn [fmap option_fmap option_map].
  split; [done|]. split; [by eexists|]. unfold StreamSafe.other in *. by destruct d.
Qed.
Lemma okc_frame (J : lk_frame -> redis_dir -> Prop) g r c : okc (fun f x => J (g f) x) r c -> okc J r (upd_frame c d g).
Proof. intros (H1 & H2 & H3 & H4 & H5). unfold okc, upd_frame, dir_of, other in *. by destruct d. Qed.
Lemma okc_flags J r c fl : okc J r c -> okc J r (c <| c_flags := fl |>).
Proof. unfold okc, dir_of. by destruct d. Qed.

(** Callbacks. *)
Definition calm (J : lk_frame -> redis_dir -> Prop) : Prop := forall f x b, J f x -> J (f <| f_after_resync := b |>) x.
Lemma okc_sink J r c c' s : okc J r c -> c_frame_state c' = c_frame_state c -> (forall d', frame c' d' = frame c d') -> okc J (r <| r_ctx := s |>) c'.
Proof. intros (H1 & H2 & H3 & H4) E1 E2. unfold okc, dir_of in *. rewrite E1, !E2. done. Qed.
Lemma okc_emit J r c m : calm J -> okc J r c -> okc J (lk_reasm_emit r c d m).1 (lk_reasm_emit r c d m).2.
Proof.
  intros HJ (H1 & H2 & H3 & H4). destruct (emit_frames k d r c m H1) as (r' & c' & b & -> & Hr & E1 & E2 & E3). unfold okc, dir_of in *. cbn [fst snd]. rewrite E1, E2, E3. split; [done|]. split; [done|]. split; [by apply HJ|done].
Qed.
Lemma okc_note J r c n ts : calm J -> okc J r c -> okc J (note r c d n ts).1 (note r c d n ts).2.
Proof. apply okc_emit. Qed.

(** ** Operations *)
Ltac bounds := split; cbn in *; try done; try lia; try (change (zlen (A:=Z) []) with 0; unfold LK_REDIS_NUM_MAX; lia);
  try (unfold LK_REDIS_LINE_MAX, LK_REDIS_MAX_BULK; lia); try (by apply Forall_nil); try apply u64_range; try by intros [|].
Definition okp J (res : reasm * conn) : Prop := okc J res.1 res.2.
Definition at_ i f x : Prop := dinv f x /\ 0 <= rd_cur x <= i.
Lemma at_calm i : calm (at_ i).
Proof. intros f x b [[] ?]. by split. Qed.
Lemma at_mono i j f x : i <= j -> at_ i f x -> at_ j f x.
Proof. intros Hij [H ?]. split; [done|lia]. Qed.
Lemma seq_ok J J' (op : reasm * conn) (g : reasm -> conn -> reasm * conn) : okp J op -> (forall r c, okc J r c -> okp J' (g r c)) -> okp J' (let '(r, c) := op in g r c).
Proof. intros H Hg. destruct op as [r1 c1]. exact (Hg r1 c1 H). Qed.

Lemma buf_release_ok J r c : (forall f x, J f x -> J (f <| f_buf := None |>) x) -> okc J r c -> okp J (buf_release r c d).
Proof. intros HJ H. apply (okc_r J r); [apply (okr_put k), H|]. apply okc_frame. by eapply okc_weaken, H. Qed.
Lemma at_nobuf i f x : at_ i f x -> at_ i (f <| f_buf := None |>) x.
Proof. intros [[] ?]. by split. Qed.
(** After [go_scan] nothing is open. *)
Lemma go_scan_ok i r c : okc (at_ i) r c -> okp (fun f x => at_ i f x /\ rd_st x = REDIS_FR_SCAN) (go_scan r c d).
Proof.
  intros H. apply seq_ok with (J := at_ i); [by apply buf_release_ok; [apply at_nobuf|]|]. intros r1 c1 H1. apply okc_dir, okc_frame. eapply okc_weaken, H1. intros f x [[] ?].
  split; [|done]. split; [|done]. bounds.
Qed.
Lemma note_scan_ok i r c n ts : okc (at_ i) r c -> okp (fun f x => at_ i f x /\ rd_st x = REDIS_FR_SCAN) (let '(r, c) := note r c d n ts in go_scan r c d).
Proof. intros H. apply seq_ok with (J := at_ i); [apply okc_note; [apply at_calm|done]|apply go_scan_ok]. Qed.
Lemma bad_len_ok i r c ts : okc (at_ i) r c -> okp (fun f x => at_ i f x /\ rd_st x = REDIS_FR_SCAN) (bad_len r c d ts).
Proof. intros H. apply note_scan_ok. apply (okc_r _ r); [apply (okr_bump k), H|done]. Qed.

Lemma okc_at J r c : okc J r c -> J (frame c d) (dir_of c d).
Proof. by intros (_ & _ & H & _). Qed.
Lemma dinv_cur f x e : dinv f x -> dinv f (x <| rd_cur := e |>).
Proof. by intros []. Qed.
Lemma dinv_buf f x b : dinv f x -> zlen (default [] b) <= LK_MSG_BODY_MAX -> dinv (f <| f_buf := b |>) x.
Proof. intros [] H. by split. Qed.
(** A state that [stash] may change only in [cur] and the slab. *)
Definition stashed (st : redis_fr_st) (e : Z) f x : Prop := dinv f x /\ rd_cur x = e /\ rd_st x = st.
Lemma append_ok p e st r c : (exists b, f_buf (frame c d) = Some b) -> okc (fun f x => dinv f x /\ 0 <= rd_cur x <= e /\ rd_st x = st) r c -> e <= zlen p ->
  okc (stashed st e) r (stash_append c d p e).
Proof.
  intros [b Eb] H He. unfold stash_append. set (cur := rd_cur _). set (n := if _ <? _ then _ else _). apply okc_dir, okc_frame.
  pose proof (okc_at _ _ _ H) as (D & Hc & Hst). destruct H as (H1 & H2 & _ & H4). split; [done|]. split; [done|]. split; [|done].
  split; [|done]. apply dinv_cur, dinv_buf; [done|]. rewrite Eb. cbn. pose proof (di_buf _ _ D) as Hl. unfold buf_len, buf_bytes in Hl. rewrite Eb in Hl. cbn in Hl. rewrite zlen_app.
  assert (n <= LK_MSG_BODY_MAX - zlen b) as Hn by (subst n; unfold buf_len, buf_bytes; rewrite Eb; cbn; destruct (Z.ltb_spec (e - cur) (LK_MSG_BODY_MAX - zlen b)); lia).
  destruct (Z.le_gt_cases 0 n); [rewrite zlen_ztake by done; lia|]. subst n. exfalso. subst cur. destruct (_ <? _); [lia|]. unfold buf_len, buf_bytes in *. rewrite Eb in *. cbn in *. lia.
Qed.
Lemma stash_ok p e st r c : okc (fun f x => dinv f x /\ 0 <= rd_cur x <= e /\ rd_st x = st) r c -> e <= zlen p -> okp (stashed st e) (stash r c d p e).
Proof.
  intros H He. unfold stash. pose proof (okc_at _ _ _ H) as (D & Hc & Hst). assert (okc (stashed st e) r (set_cur c d e)) as Hcur.
  { apply okc_dir. eapply okc_weaken, H. intros f x (? & _ & ?). split; [by apply dinv_cur|done]. }
  destruct (Z.leb_spec e (rd_cur (dir_of c d))); [unfold okp; cbn; destruct H as (? & ? & _ & ?); split; [done|]; split; [done|]; split; [|done]; split; [done|]; split; [lia|done]|].
  destruct (_ || _); [done|]. destruct (f_buf (frame c d)) as [b|] eqn:Eb; [apply append_ok; eauto|].
  pose proof (okr_get k r (proj1 H)) as Hg. unfold lk_reasm_buf_get. destruct (buf_get r) as [[] r1]; cbn [snd] in Hg.
  - apply append_ok; [by exists []; destruct d| |done]. apply okc_frame. eapply okc_weaken, (okc_r _ r), H; [|done]. intros f x (? & ? & ?). split; [apply dinv_buf; [done|by cbn]|done].
  - apply okc_note; [intros f x b ([] & ? & ?); by split|]. apply okc_dir. eapply okc_weaken, (okc_r _ r), H; [|done]. intros f x ([] & ? & ?). by split.
Qed.

Lemma prefix_release_ok st i r c e : 0 <= e <= i -> okc (fun f x => dinv f x /\ rd_st x = st) r c -> okp (fun f x => at_ i f x /\ rd_st x = st) (prefix_release r c d e).
Proof.
  intros He H. unfold prefix_release. apply seq_ok with (J := fun f x => dinv f x /\ rd_st x = st).
  - apply buf_release_ok; [|done]. intros f x [D ?]. split; [|done]. by apply dinv_buf.
  - intros r1 c1 H1. apply okc_dir. eapply okc_weaken, H1. intros f x [[] ?]. by split.
Qed.
Lemma value_emit_ok st i r c op e end_pos : 0 <= e <= i -> (forall p, op = Some p -> e <= zlen p) ->
  okc (fun f x => dinv f x /\ (is_Some op -> 0 <= rd_cur x <= e) /\ rd_st x = st) r c -> okp (fun f x => at_ i f x /\ rd_st x = st) (value_emit r c d op e end_pos).
Proof.
  intros He Hp H. unfold value_emit. set (len := u64 _). set (pre := if _ || _ then _ else _).
  assert (okp (fun f x => dinv f x /\ rd_st x = st) pre.1) as H1.
  { subst pre. destruct (_ || _).
    - destruct op as [p|]; [|eapply okc_weaken, H; tauto]. pose proof (stash_ok p e st r c ltac:(eapply okc_weaken, H; intros f x (? & Hx & ?); split; [done|]; by split; [apply Hx; eauto|]) (Hp p eq_refl)) as H1.
      destruct (stash r c d p e) as [r1 c1]. eapply okc_weaken, H1. by intros f x (? & _ & ?).
    - destruct op; eapply okc_weaken, H; tauto. }
  destruct pre as [[r1 c1] body]. cbn [fst] in H1. apply seq_ok with (J := fun f x => dinv f x /\ rd_st x = st); [|intros r2 c2; by apply prefix_release_ok].
  apply okc_emit; [|done]. intros f x b [[] ?]. by split.
Qed.
Lemma pop_done_ok stk : Forall (fun n => 1 <= n < 2 ^ 32) stk -> Forall (fun n => 1 <= n < 2 ^ 32) (pop_done stk) /\ zlen (pop_done stk) <= zlen stk.
Proof.
  induction 1 as [|n stk Hn Hs IH]; [done|]. cbn [pop_done]. unfold u32. rewrite Z.mod_small by lia. destruct (Z.eqb_spec (n - 1) 0); rewrite ?zlen_cons; [split; [apply IH|lia]|].
  split; [|lia]. constructor; [lia|done].
Qed.
Lemma value_done_ok i r c op e end_pos : 0 <= e <= i -> (forall p, op = Some p -> e <= zlen p) ->
  okc (fun f x => dinv f (x <| rd_st := REDIS_FR_VALUE |>) /\ 0 <= rd_cur x <= i /\ (is_Some op -> rd_cur x <= e)) r c ->
  okp (fun f x => at_ i f x /\ rd_st x = REDIS_FR_VALUE) (value_done r c d op e end_pos).
Proof.
  intros He Hp H. unfold value_done. set (c1 := upd_dir _ _ _).
  assert (okc (fun f x => dinv f x /\ 0 <= rd_cur x <= i /\ (is_Some op -> rd_cur x <= e) /\ rd_st x = REDIS_FR_VALUE) r c1) as H1.
  { apply okc_dir. eapply okc_weaken, H. intros f x ([] & ? & ?). destruct (pop_done_ok (rd_stack x) ltac:(done)). split; [|done]. split; cbn; try done. unfold rd_depth in *. cbn in *. lia. }
  destruct (_ =? 0).
  - apply value_emit_ok; [done|done|]. eapply okc_weaken, H1. intros f x (? & ? & Hx & ?). split; [done|]. split; [intros Ho; specialize (Hx Ho); lia|done].
  - eapply okc_weaken, H1. intros f x (? & ? & ? & ?). by split.
Qed.

(** ** Feeds: the index moves forward within the chunk *)
Section Chunk.
Context (p : list Z) (ts : Z) (Hbytes : Forall in_u8 p) (Htime : in_u64 ts).
Definition fed_to (i j : Z) (res : reasm * conn * Z) : Prop := okc (at_ res.2) res.1.1 res.1.2 /\ i <= res.2 <= j.
Lemma scan_fed i e (op : reasm * conn) : i <= e <= zlen p -> okp (fun f x => at_ e f x /\ rd_st x = REDIS_FR_SCAN) op -> fed_to i (zlen p) (let '(r, c) := op in (r, c, e)).
Proof. intros He H. destruct op as [r c]. split; [|done]. eapply okc_weaken, H. tauto. Qed.
(** Nothing owed of a CRLF yet checked. *)
Definition owing i f x : Prop := at_ i f (x <| rd_st := REDIS_FR_VALUE |>).
Lemma at_owing i f x : at_ i f x -> owing i f x.
Proof. intros [[] ?]. split; [|done]. split; try done. by intros [|]. Qed.
Lemma done_fed e r c end_pos : 0 <= e <= zlen p -> okc (owing e) r c -> okp (at_ e) (value_done r c d (Some p) e end_pos).
Proof.
  intros He H. pose proof (value_done_ok e r c (Some p) e end_pos ltac:(lia) ltac:(intros ? [= <-]; lia)) as H1. eapply okc_weaken; [|apply H1]; [tauto|].
  eapply okc_weaken, H. intros f x [? ?]. split; [done|]. split; [done|]. intros _. cbn in *. lia.
Qed.
Lemma agg_open_ok e r c elems : 0 <= e <= zlen p -> 0 <= elems < 2 ^ 32 -> okc (at_ e) r c -> okp (at_ e) (agg_open r c d p e elems ts).
Proof.
  intros He Hn H. unfold agg_open. destruct (Z.eqb_spec elems 0); [by apply done_fed; [|eapply okc_weaken, H; apply at_owing]|].
  destruct (Z.leb_spec LK_REDIS_MAX_DEPTH (rd_depth (dir_of c d))).
  - eapply okc_weaken, note_scan_ok, H. tauto.
  - apply okc_dir. destruct H as (H1 & H2 & [[] ?] & H3). split; [done|]. split; [done|]. split; [|done]. split; [|done]. split; cbn; try done.
    + unfold rd_depth in *. cbn. rewrite zlen_cons. lia.
    + constructor; [lia|done].
    + by intros [|].
Qed.
Lemma line_complete_ok e r c : 0 <= e <= zlen p -> okc (at_ e) r c -> okp (at_ e) (line_complete r c d p e ts).
Proof.
  intros He H. unfold line_complete. set (x := dir_of c d). pose proof (done_fed e r c (u64 (rd_cbase x + e)) He ltac:(eapply okc_weaken, H; apply at_owing)) as Hd.
  assert (okp (at_ e) (bad_len r c d ts)) as Hb by (eapply okc_weaken, bad_len_ok, H; tauto).
  destruct (rd_shape x); [|exact Hd| | |]; destruct (if rd_num_bad x then None else redis_parse_i64 (rd_num x)) as [v|]; try exact Hb.
  2: { unfold redis_bulk_len. destruct (Z.ltb_spec v 0); [exact Hd|]. destruct (Z.ltb_spec LK_REDIS_MAX_BULK v); [exact Hb|]. apply okc_dir. eapply okc_weaken, H. intros f y [[] ?]. by split. }
  all: destruct (redis_agg_count v _) as [n|] eqn:En; [|exact Hb]; apply agg_open_ok; [done|by eapply agg_count_range|done].
Qed.

Lemma fed_back i i' j res : i <= i' -> fed_to i' j res -> fed_to i j res.
Proof. intros Hi [H ?]. split; [done|lia]. Qed.
Lemma fed_past i (op : reasm * conn) : 0 <= i < zlen p -> okp (at_ (i + 1)) op -> fed_to (i + 1) (zlen p) (let '(r, c) := op in (r, c, i + 1)).
Proof. intros Hi H. destruct op as [r c]. split; [done|]. cbn. lia. Qed.
Lemma rest_more i b q : zdrop i p = b :: q -> 0 <= i -> i < zlen p /\ zdrop (i + 1) p = q.
Proof. intros E Hi. by destruct (znth_zdrop p i b q E Hi) as (_ & ? & ?). Qed.
Lemma rest_byte i b q : zdrop i p = b :: q -> in_u8 b.
Proof. intros E. pose proof (Forall_drop in_u8 (Z.to_nat i) p Hbytes) as H. unfold zdrop in E. rewrite E in H. by inversion H. Qed.
(** Lines may overrun by the byte that is refused. *)
Lemma line_byte_dinv f x b i : in_u8 b -> at_ i f x -> at_ (i + 1) f (line_byte x b <| rd_line_n := rd_line_n x |>) /\ rd_line_n (line_byte x b) = rd_line_n x + 1.
Proof.
  intros Hb [[] ?]. unfold line_byte. destruct (rd_saw_cr x), (b =? 13); cbn; try (split; [split; [|cbn; lia]; by split|done]).
  all: (destruct (Z.ltb_spec (zlen (rd_num x)) LK_REDIS_NUM_MAX); split; [split; [|cbn; lia]; split; cbn; try done; [rewrite zlen_app; change (zlen [b]) with 1; lia|by apply Forall_app; split; [|apply Forall_singleton]]|done|split; [|cbn; lia]; by split|done]).
Qed.
(** A step that counts a byte of the line: refused when the line is too long. *)
Definition overrun i f x : Prop := at_ i f (x <| rd_line_n := 0 |>) /\ 0 <= rd_line_n x <= LK_REDIS_LINE_MAX + 1.
Lemma overrun_at i f x : overrun i f x -> rd_line_n x <= LK_REDIS_LINE_MAX -> at_ i f x.
Proof. intros [[[] ?] ?] ?. split; [|done]. by split; try lia. Qed.
Definition loose i f x : Prop := at_ i f (x <| rd_line_n := 0 |> <| rd_st := REDIS_FR_SCAN |>).
Lemma overrun_loose i f x : overrun i f x -> loose i f x.
Proof. intros [[[] ?] ?]. split; [|done]. split; try done. by intros [|]. Qed.
Lemma owing_loose i f x : owing i f x -> loose i f x.
Proof. intros [[] ?]. split; [|done]. split; try done. by intros [|]. Qed.
Lemma loose_scan i r c n : okc (loose i) r c -> okp (at_ i) (let '(r, c) := note r c d n ts in go_scan r c d).
Proof.
  intros H. apply seq_ok with (J := loose i); [apply okc_note; [|done]; intros f x b [[] ?]; by split|]. clear r c H. intros r c H.
  apply seq_ok with (J := loose i); [apply buf_release_ok; [|done]; intros f x [[] ?]; by split|]. clear r c H. intros r c H.
  apply okc_dir, okc_frame. eapply okc_weaken, H. intros f x [[] ?]. split; [|done]. bounds.
Qed.
Lemma count_byte_ok i r c g n res : 0 <= i < zlen p -> (forall f x, at_ i f x -> at_ (i + 1) f (g x <| rd_line_n := rd_line_n x |>) /\ rd_line_n (g x) = rd_line_n x + 1) -> okc (at_ i) r c ->
  (okc (at_ (i + 1)) r (upd_dir c d g) -> fed_to (i + 1) (zlen p) res) ->
  fed_to (i + 1) (zlen p) (if LK_REDIS_LINE_MAX <? rd_line_n (dir_of (upd_dir c d g) d)
                           then let '(r, c) := note r (upd_dir c d g) d n ts in let '(r, c) := go_scan r c d in (r, c, i + 1) else res).
Proof.
  intros Hi Hg H Hres. assert (okc (overrun (i + 1)) r (upd_dir c d g)) as H1.
  { apply okc_dir. eapply okc_weaken, H. intros f x Hx. destruct (Hg f x Hx) as [[[] Hc] E]. pose proof (di_line _ _ (proj1 Hx)). split; [|lia]. split; [|exact Hc]. by split. }
  destruct (Z.ltb_spec LK_REDIS_LINE_MAX (rd_line_n (dir_of (upd_dir c d g) d))) as [Hl|Hl].
  - pose proof (loose_scan (i + 1) r (upd_dir c d g) n ltac:(eapply okc_weaken, H1; apply overrun_loose)) as H2. destruct (note r (upd_dir c d g) d n ts) as [r1 c1]. exact (fed_past i _ Hi H2).
  - apply Hres. destruct H1 as (? & ? & Ho & ?). split; [done|]. split; [done|]. split; [by apply overrun_at|done].
Qed.
Lemma line_feed_ok q : forall i r c, zdrop i p = q -> q <> [] -> 0 <= i -> okc (at_ i) r c -> fed_to (i + 1) (zlen p) (line_feed r c d p q i ts).
Proof.
  induction q as [|b q IH]; intros i r c E Hne Hi H; [done|]. destruct (rest_more i b q E Hi) as [Hl Eq]. cbn [line_feed]. destruct (_ && _).
  - apply fed_past; [lia|]. apply line_complete_ok; [lia|]. eapply okc_weaken, H. intros f x. apply at_mono. lia.
  - apply count_byte_ok; [lia|intros f x; apply line_byte_dinv; by eapply rest_byte|done|]. intros H1. destruct q as [|b' q]; [split; [done|cbn; lia]|]. apply (fed_back _ (i + 1 + 1)); [lia|]. by apply IH; [|done|lia|].
Qed.
Lemma inline_byte_dinv f x b i : at_ i f x -> at_ (i + 1) f (inline_byte x b <| rd_line_n := rd_line_n x |>) /\ rd_line_n (inline_byte x b) = rd_line_n x + 1.
Proof. intros [[] ?]. unfold inline_byte. destruct (_ || _); (split; [split; [|cbn; lia]; by split|done]). Qed.
Lemma to_value_ok i r c : okc (at_ i) r c -> okc (at_ i) r (upd_dir c d (fun x => x <| rd_st := REDIS_FR_VALUE |>)).
Proof. intros H. apply okc_dir. eapply okc_weaken, H. intros f x [[] ?]. split; [|done]. split; try done. by intros [|]. Qed.
Lemma inline_done_ok e r c : 0 <= e <= zlen p -> okc (at_ e) r c -> okp (at_ e) (inline_done r c d p e).
Proof.
  intros He H. unfold inline_done. apply seq_ok with (J := at_ e); [|intros; by apply to_value_ok]. set (st := rd_st (dir_of c d)).
  assert (okc (fun f x => (dinv f x /\ 0 <= rd_cur x <= e) /\ rd_st x = st) r c) as H1 by (destruct H as (? & ? & ? & ?); by split).
  destruct (rd_inline_arg (dir_of c d)).
  - eapply okc_weaken, (value_emit_ok st e r c (Some p) e); [tauto|lia|by intros ? [= <-]; lia|]. eapply okc_weaken, H1. tauto.
  - eapply okc_weaken, (prefix_release_ok st e r c e); [tauto|lia|]. eapply okc_weaken, H1. tauto.
Qed.
Lemma inline_feed_ok q : forall i r c, zdrop i p = q -> q <> [] -> 0 <= i -> okc (at_ i) r c -> fed_to (i + 1) (zlen p) (inline_feed r c d p q i ts).
Proof.
  induction q as [|b q IH]; intros i r c E Hne Hi H; [done|]. destruct (rest_more i b q E Hi) as [Hl Eq]. cbn [inline_feed]. destruct (_ =? _).
  - apply fed_past; [lia|]. apply inline_done_ok; [lia|]. eapply okc_weaken, H. intros f x. apply at_mono. lia.
  - apply count_byte_ok; [lia|intros f x; apply inline_byte_dinv|done|]. intros H1. destruct q as [|b' q]; [split; [done|cbn; lia]|]. apply (fed_back _ (i + 1 + 1)); [lia|]. by apply IH; [|done|lia|].
Qed.

Lemma eol_finish i r c : 0 <= i <= zlen p -> okc (owing i) r c -> (rd_eol_left (dir_of c d) <> 0 -> rd_st (dir_of c d) = REDIS_FR_BULK_EOL) ->
  fed_to i (zlen p) (if rd_eol_left (dir_of c d) =? 0 then let '(r, c) := value_done r c d (Some p) i (u64 (rd_cbase (dir_of c d) + i)) in (r, c, i) else (r, c, i)).
Proof.
  intros Hi H Hst. destruct (Z.eqb_spec (rd_eol_left (dir_of c d)) 0) as [|Hne].
  - pose proof (done_fed i r c (u64 (rd_cbase (dir_of c d) + i)) Hi H) as H1. destruct (value_done _ _ _ _ _ _) as [r1 c1]. split; [done|]. cbn. lia.
  - split; [|cbn; lia]. destruct H as (? & ? & [[] ?] & ?). split; [done|]. split; [done|]. split; [|done]. split; [|done]. split; try done. intros _. cbn in *. lia.
Qed.
Lemma eol_byte_ok i b q r c (rec : reasm -> conn -> reasm * conn * Z) : zdrop i p = b :: q -> 0 <= i -> okc (owing i) r c -> rd_eol_left (dir_of c d) <> 0 -> rd_st (dir_of c d) = REDIS_FR_BULK_EOL ->
  (forall c, okc (owing (i + 1)) r c -> rd_st (dir_of c d) = REDIS_FR_BULK_EOL -> fed_to (i + 1) (zlen p) (rec r c)) ->
  fed_to (i + 1) (zlen p) (let want := if rd_eol_left (dir_of c d) =? 2 then 13 else 10 in let c := upd_dir c d (fun x => x <| rd_eol_left ::= fun n => n - 1 |>) in
    if negb (b =? want) then let '(r, c) := note r c d LK_REDIS_NOTE_BULK_EOL ts in let '(r, c) := go_scan r c d in (r, c, i + 1) else rec r c).
Proof.
  intros E Hi H He Hst Hrec. destruct (rest_more i b q E Hi) as [Hl Eq]. set (c1 := upd_dir c d _).
  assert (okc (fun f x => owing (i + 1) f x /\ rd_st x = REDIS_FR_BULK_EOL) r c1) as H1.
  { apply okc_dir. destruct H as (? & ? & [[] ?] & ?). split; [done|]. split; [done|]. split; [|done]. split; [|done]. split; [|cbn in *; lia]. split; cbn in *; try done; [lia|by intros [|]]. }
  pose proof (loose_scan (i + 1) r c1 LK_REDIS_NOTE_BULK_EOL ltac:(eapply okc_weaken, H1; intros ? ? [? _]; by apply owing_loose)) as H2.
  specialize (Hrec c1 ltac:(eapply okc_weaken, H1; by intros ? ? [? _]) (proj2 (okc_at _ _ _ H1))). cbv zeta. destruct (note r c1 d _ ts) as [r2 c2]. pose proof (fed_past i _ ltac:(lia) H2).
  by destruct (negb _).
Qed.
Lemma eol_feed_owing q : forall i r c, zdrop i p = q -> 0 <= i <= zlen p -> okc (owing i) r c ->
  (rd_eol_left (dir_of c d) <> 0 -> rd_st (dir_of c d) = REDIS_FR_BULK_EOL) -> fed_to i (zlen p) (eol_feed r c d p q i ts) /\
    (rd_eol_left (dir_of c d) <> 0 -> q <> [] -> fed_to (i + 1) (zlen p) (eol_feed r c d p q i ts)).
Proof.
  induction q as [|b q IH]; intros i r c E Hi H Hst; cbn [eol_feed]; [split; [by apply eol_finish|done]|]. destruct (rest_more i b q E ltac:(lia)) as [Hl Eq].
  destruct (Z.eqb_spec (rd_eol_left (dir_of c d)) 0) as [E0|Hne]; [split; [pose proof (eol_finish i r c Hi H Hst) as Hf; rewrite E0 in *; exact Hf|lia]|].
  pose proof (eol_byte_ok i b q r c (fun r c => eol_feed r c d p q (i + 1) ts) E ltac:(lia) H Hne (Hst Hne) ltac:(intros c1 ? ?; by apply IH; [|lia| |])) as H1.
  split; [by apply (fed_back _ (i + 1)); [lia|]|done].
Qed.

(** ** One iteration and the loop *)
(** Progress: the index moves, or the state's weight drops. *)
Definition weight (st : redis_fr_st) i : Z := match st with REDIS_FR_SCAN => if i =? 0 then 2 else 0 | REDIS_FR_VALUE | REDIS_FR_BULK => 1 | _ => 0 end.
Lemma weight_range st i : 0 <= weight st i <= 2 /\ (i <> 0 -> weight st i <= 1).
Proof. unfold weight. destruct (Z.eqb_spec i 0); destruct st; lia. Qed.
Definition forward i w (res : reasm * conn * Z) : Prop :=
  okc (at_ res.2) res.1.1 res.1.2 /\ i <= res.2 <= zlen p /\ (i < res.2 \/ weight (rd_st (dir_of res.1.2 d)) res.2 < w).
Lemma fed_forward i w res : fed_to (i + 1) (zlen p) res -> forward i w res.
Proof. intros [H ?]. split; [done|]. split; [lia|]. left. lia. Qed.
Lemma open_value_at i f x b : 0 <= i -> in_u8 b -> at_ i f x -> at_ i f (open_value x b i ts).
Proof. intros Hi Hb [[] ?]. split; [|cbn; lia]. by bounds. Qed.
Lemma start_line_at i f x sh : at_ i f x -> at_ i f (start_line x sh).
Proof. intros [[] ?]. split; [|done]. bounds. Qed.
Lemma value_start_ok i b r c : 0 <= i < zlen p -> in_u8 b -> okc (at_ i) r c -> forward i 1 (value_start r c d b i ts).
Proof.
  intros Hi Hb H. unfold value_start. set (top := rd_depth (dir_of c d) =? 0). destruct (top && _).
  { apply fed_forward. split; [|cbn; lia]. apply okc_dir. eapply okc_weaken, H. intros f x [[] ?]. split; [|cbn; lia]. by split. }
  set (c1 := if top then _ else c). assert (okc (at_ i) r c1) as H1.
  { subst c1. destruct top; [|done]. apply okc_dir. eapply okc_weaken, H. intros f x. by apply open_value_at; [lia|]. }
  clearbody c1. assert (okc (at_ (i + 1)) r c1) as H1' by (eapply okc_weaken, H1; intros f x; apply at_mono; lia).
  assert (forward i 1 (let '(r, c) := note r c1 d LK_REDIS_NOTE_BAD_TYPE ts in let '(r, c) := go_scan r c d in (r, c, i + 1))) as Hbad.
  { pose proof (note_scan_ok (i + 1) r c1 LK_REDIS_NOTE_BAD_TYPE ts H1') as H2. destruct (note r c1 d _ ts) as [r2 c2]. by apply fed_forward, scan_fed; [lia|]. }
  destruct (shape_of b) eqn:Eb; [|apply fed_forward; split; [|cbn; lia]; apply okc_dir; eapply okc_weaken, H1'; intros f x; apply start_line_at..].
  destruct d eqn:Ed; [exact Hbad|]. rewrite <- Ed in *. destruct top; [|exact Hbad]. set (c2 := upd_dir c1 d _).
  assert (okc (fun f x => at_ i f x /\ rd_st x = REDIS_FR_INLINE) r c2) as H2 by (apply okc_dir; eapply okc_weaken, H1; intros f x [[] ?]; split; [|done]; split; [|done]; bounds).
  split; [eapply okc_weaken, H2; tauto|]. split; [cbn; lia|]. right. cbn [fst snd]. rewrite (proj2 (okc_at _ _ _ H2)). done.
Qed.
Lemma bulk_skip_ok i f x n : at_ i f x -> 0 <= n -> rd_st x = REDIS_FR_BULK ->
  0 <= (bulk_skip x n).2 <= n /\ at_ (i + (bulk_skip x n).2) f (bulk_skip x n).1 /\ ((bulk_skip x n).2 = 0 -> 0 < n -> rd_st (bulk_skip x n).1 = REDIS_FR_BULK_EOL).
Proof.
  intros [[] Hc] Hn Hst. unfold bulk_skip. set (take := if _ <? _ then _ else _).
  assert (0 <= take <= n /\ take <= rd_bulk_left x /\ (take = 0 -> 0 < n -> rd_bulk_left x = 0)) as (H1 & H2 & H3) by (subst take; destruct (Z.ltb_spec (rd_bulk_left x) n); lia).
  clearbody take. cbn [fst snd]. split; [done|]. change (rd_bulk_left (x <| rd_bulk_left ::= fun b => b - take |>)) with (rd_bulk_left x - take). specialize (di_owed0 (or_introl Hst)).
  destruct (Z.eqb_spec (rd_bulk_left x - take) 0) as [E|E]; (split; [split; [|cbn; lia]; bounds|]); [done|]. intros -> Hn'. exfalso. apply E. lia.
Qed.
Lemma bulk_skip_cur x n : rd_cur (bulk_skip x n).1 = rd_cur x.
Proof. unfold bulk_skip. cbn [fst]. by destruct (_ =? 0). Qed.
Lemma stream_resync_ok r c : okc (at_ 0) r c -> okp (at_ 0) (lk_reasm_resync r c d).
Proof.
  intros (H1 & H2 & [[] ?] & H4). destruct (resync_frames k d r c H1) as (r' & c' & -> & Hr & E1 & E2 & E3). unfold okp, okc, dir_of in *. cbn [fst snd]. rewrite E1, E2, E3.
  split; [done|]. split; [done|]. split; [|done]. split; [|done]. by split.
Qed.
Lemma redis_step_ok i r c at_call r' c' o : 0 <= i < zlen p -> okc (at_ i) r c -> redis_step r c d p i ts at_call = (r', c', o) ->
  match o with None => okc (at_ i) r' c' | Some i' => forward i (weight (rd_st (dir_of c d)) i) (r', c', i') end.
Proof.
  intros Hi H E. unfold redis_step in E. destruct (zdrop i p) as [|b q] eqn:Eq; [rewrite (zdrop_at p i) in Eq by lia; done|].
  destruct (rd_st (dir_of c d)) eqn:Est.
  - pose proof (value_start_ok i (znth p i) r c Hi ltac:(rewrite (proj1 (znth_zdrop p i b q Eq ltac:(lia))); by eapply rest_byte) H) as H1. destruct (value_start _ _ _ _ _ _) as [[r1 c1] i1]. by injection E as <- <- <-.
  - pose proof (line_feed_ok (b :: q) i r c Eq ltac:(done) ltac:(lia) H) as H1. destruct (line_feed _ _ _ _ _ _ _) as [[r1 c1] i1]. injection E as <- <- <-. by apply fed_forward.
  - destruct (bulk_skip_ok i _ _ (zlen p - i) (okc_at _ _ _ H) ltac:(lia) Est) as (H1 & H2 & H3). destruct (bulk_skip _ _) as [x take]. injection E as <- <- <-. cbn [fst snd] in *.
    assert (okc (at_ (i + take)) r (upd_dir c d (fun _ => x))) as H4 by (apply okc_dir; destruct H as (? & ? & _ & ?); done).
    split; [done|]. split; [cbn; lia|]. destruct (Z.eq_dec take 0) as [->|]; [right|left; cbn; lia]. cbn [fst snd].
    assert (dir_of (upd_dir c d (fun _ => x)) d = x) as -> by (destruct H as (_ & [rf Erf] & _); unfold dir_of, upd_dir; cbn; rewrite Erf; by destruct d). rewrite H3 by lia. done.
  - destruct (eol_feed_owing (b :: q) i r c Eq ltac:(lia) ltac:(eapply okc_weaken, H; apply at_owing) ltac:(done)) as [_ H1].
    specialize (H1 ltac:(pose proof (di_owed _ _ (proj1 (okc_at _ _ _ H)) (or_intror Est)); lia) ltac:(done)). destruct (eol_feed _ _ _ _ _ _ _) as [[r1 c1] i1]. injection E as <- <- <-. by apply fed_forward.
  - pose proof (inline_feed_ok (b :: q) i r c Eq ltac:(done) ltac:(lia) H) as H1. destruct (inline_feed _ _ _ _ _ _ _) as [[r1 c1] i1]. injection E as <- <- <-. by apply fed_forward.
  - destruct (Z.eqb_spec i 0) as [->|]; [|by injection E as <- <- <-]. destruct (_ && _); [|by injection E as <- <- <-].
    pose proof (stream_resync_ok r c H) as H1. destruct (lk_reasm_resync r c d) as [r1 c1]. injection E as <- <- <-. pose proof (to_value_ok 0 r1 c1 H1) as H2. split; [done|]. split; [cbn; lia|]. right. cbn [fst snd].
    destruct H1 as (_ & [rf Erf] & _). unfold dir_of, upd_dir. cbn. cbn in Erf. rewrite Erf. by destruct d.
Qed.
Lemma redis_loop_ok at_call fuel : forall i r c, 0 <= i <= zlen p -> okc (at_ i) r c -> 2 * (zlen p - i) + weight (rd_st (dir_of c d)) i <= Z.of_nat fuel ->
  okc (at_ (zlen p)) (redis_loop fuel r c d p i ts at_call).1.1 (redis_loop fuel r c d p i ts at_call).1.2 /\ (redis_loop fuel r c d p i ts at_call).2 <> LoopFuel.
Proof.
  induction fuel as [|fuel IH]; intros i r c Hi H Hf; (assert (okc (at_ (zlen p)) r c) as Hz by (eapply okc_weaken, H; intros f x; apply at_mono; lia)); cbn [redis_loop].
  all: destruct (Z.leb_spec (zlen p) i) as [Hl|Hl]; [done|]. { pose proof (weight_range (rd_st (dir_of c d)) i). lia. }
  destruct (redis_step r c d p i ts at_call) as [[r1 c1] o] eqn:E. pose proof (redis_step_ok i r c at_call r1 c1 o ltac:(lia) H E) as H1.
  destruct o as [i1|]; [|split; [eapply okc_weaken, H1; intros f x; apply at_mono; lia|done]]. destruct H1 as (H1 & H2 & H3). cbn [fst snd] in *.
  assert (okc (at_ (zlen p)) r1 c1) as Hz1 by (eapply okc_weaken, H1; intros f x; apply at_mono; lia). destruct (has_flag _ _); [done|]. destruct (_ && _); [done|]. apply IH; [lia|done|].
  pose proof (weight_range (rd_st (dir_of c d)) i). pose proof (weight_range (rd_st (dir_of c1 d)) i1) as [_ Hw]. destruct H3 as [H3|H3]; [specialize (Hw ltac:(lia))|]; lia.
Qed.
End Chunk.

(** ** The hooks *)
Lemma no_state_ok r c ts : okr r -> c_frame_state c = None -> (exists f, frame c d = f /\ buf_len f <= LK_MSG_BODY_MAX) ->
  let '(r', c') := redis_no_state r c d ts in okr r' /\ c_frame_state c' = None /\ buf_len (frame c' d) <= LK_MSG_BODY_MAX /\ frame c' other = frame c other.
Proof.
  intros Hr Hn (f & <- & Hb). unfold redis_no_state, note. match goal with |- context [lk_reasm_emit r c d ?m] => destruct (emit_frames k d r c m Hr) as (r' & c' & b & -> & Hr' & E1 & E2 & E3) end.
  split; [done|]. split; [cbn; congruence|]. unfold StreamSafe.other in *. destruct d; cbn in *; by rewrite ?E2, ?E3.
Qed.
Lemma chunk_begin_at f x n ts at_call : in_u64 ts -> dinv f x -> at_ 0 f (chunk_begin x n ts at_call).
Proof. intros Hts []. unfold chunk_begin. destruct at_call; (split; [|done]; by bounds). Qed.
(** Between two events: the whole of [struct redis_dir] in range. *)
Definition rest f x : Prop := dinv f x /\ 0 <= rd_cur x < 2 ^ 32.
Lemma at_rest i r c : i < 2 ^ 32 -> okc (at_ i) r c -> okc rest r c.
Proof. intros Hi. apply okc_weaken. intros f x [? ?]. split; [done|lia]. Qed.
Lemma bytes_ok r c p ts : in_u64 ts -> Forall in_u8 p -> zlen p < 2 ^ 32 -> okc rest r c -> okp rest (redis_stream_bytes r c d p ts).
Proof.
  intros Hts Hp Hl H. unfold redis_stream_bytes, redis_frame_get. destruct (proj1 (proj2 H)) as [rf Erf]. rewrite Erf. cbn [negb]. set (at_call := f_call_pos (frame c d) =? 0). set (c1 := upd_dir c d _).
  assert (okc (at_ 0) r c1) as H1 by (apply okc_dir; eapply okc_weaken, H; intros f x [? _]; by apply chunk_begin_at). clearbody c1.
  destruct (redis_tls_record_head _ _ _).
  { pose proof (okc_note (at_ 0) r c1 LK_REDIS_NOTE_TLS ts (at_calm 0) H1) as H2. destruct (note _ _ _ _ _) as [r2 c2]. by apply okc_flags, (at_rest 0). }
  set (g := match f_st (frame c1 d) with LK_FR_DIRTY => _ | _ => _ end). assert (okp (at_ 0) g) as H2.
  { subst g. destruct (f_st (frame c1 d)); try done. destruct (bool_decide _); [done|]. eapply okc_weaken, go_scan_ok, H1. by intros ? ? [Hx _]. }
  destruct g as [r2 c2]. pose proof (redis_loop_ok p ts Hp Hts at_call (redis_fuel p) 0 r2 c2 ltac:(pose proof (zlen_nonneg p); lia) H2) as [H3 _].
  { unfold redis_fuel, zlen. pose proof (weight_range (rd_st (dir_of c2 d)) 0). lia. }
  destruct (redis_loop _ _ _ _ _ _ _ _) as [[r3 c3] e]. cbn [fst snd] in H3. destruct e; try by apply (at_rest (zlen p)). destruct (redis_value_open _); [|by apply (at_rest (zlen p))].
  eapply okc_weaken, (stash_ok p (zlen p) (rd_st (dir_of c3 d))); [|destruct H3 as (? & ? & [? ?] & ?); by split|done]. intros f x (? & Hc & _). split; [done|]. rewrite Hc. pose proof (zlen_nonneg p). lia.
Qed.
Lemma hole_skip_ok i n r c : 0 <= i -> 0 <= n -> okc (at_ i) r c -> okp (at_ i) (hole_skip r c d n).1.
Proof.
  intros Hi Hn H. unfold hole_skip. set (a := match rd_st (dir_of c d) with REDIS_FR_BULK => _ | _ => _ end).
  assert (okc (at_ i) r a.1 /\ 0 <= a.2) as [H1 H2].
  { subst a. destruct (rd_st (dir_of c d)) eqn:Est; try done. pose proof (okc_at _ _ _ H) as [_ Hc]. destruct (bulk_skip_ok i _ _ n (okc_at _ _ _ H) Hn Est) as (B1 & [B2 _] & _).
    pose proof (bulk_skip_cur (dir_of c d) n) as Ec. destruct (bulk_skip _ _) as [x take]. cbn [fst snd] in *. split; [|lia]. apply okc_dir. destruct H as (? & ? & _ & ?). split; [done|]. split; [done|]. split; [|done]. split; [done|]. lia. }
  destruct a as [c1 m]. cbn [fst snd] in *. destruct (rd_st (dir_of c1 d)) eqn:Est; try done. destruct (Z.eqb_spec m 0); [done|].
  set (e := rd_eol_left (dir_of c1 d)). set (take := if e <? m then e else m). set (c2 := upd_dir c1 d _).
  pose proof (okc_at _ _ _ H1) as [D _]. pose proof (di_eol _ _ D) as He. pose proof (di_owed _ _ D (or_intror Est)) as He1. fold e in He, He1.
  assert (0 <= take <= e) as Ht by (subst take; destruct (Z.ltb_spec e m); lia).
  assert (okc (fun f x => owing i f x /\ rd_st x = REDIS_FR_BULK_EOL /\ 0 <= rd_eol_left x <= 2) r c2) as H3.
  { apply okc_dir. destruct H1 as (? & ? & [[] ?] & ?). assert (u8 (e - take) = e - take) as Eu by (unfold u8; rewrite Z.mod_small; lia). subst e. split; [done|]. split; [done|]. split; [|done].
    split; [|split; [done|cbn; rewrite Eu; lia]]. split; [|cbn; lia]. bounds; rewrite Eu; lia. }
  clearbody c2. destruct (Z.eqb_spec (rd_eol_left (dir_of c2 d)) 0).
  - pose proof (value_done_ok i r c2 None 0 (u64 (rd_off (dir_of c1 d) - (m - take))) ltac:(lia) ltac:(done)) as H4. destruct (value_done _ _ _ _ _ _) as [r3 c3]. 
    eapply okc_weaken; [|apply H4]; [by intros ? ? [Hx _]|]. eapply okc_weaken, H3. intros f x ([? ?] & _). split; [done|]. split; [done|]. by intros [].
  - destruct H3 as (? & ? & ([[] ?] & E1 & E2) & ?). split; [done|]. split; [done|]. split; [|done]. split; [|done]. split; try done. cbn. lia.
Qed.
Lemma hole_ok r c n : 0 <= n -> okc rest r c -> okp rest (redis_stream_hole r c d n).
Proof.
  intros Hn H. unfold redis_stream_hole, redis_frame_get. destruct (proj1 (proj2 H)) as [rf Erf]. rewrite Erf. cbn [negb]. destruct (n =? 0); [done|]. set (c1 := upd_dir c d _).
  set (i := rd_cur (dir_of c d)). assert (0 <= i < 2 ^ 32) as [Hi Hm] by apply (okc_at _ _ _ H).
  assert (okc (at_ i) r c1) as H1 by (apply okc_dir; destruct H as (? & ? & [[] ?] & ?); split; [done|]; split; [done|]; split; [|done]; split; [by bounds|cbn; unfold i in *; lia]).
  assert (okp rest (let '(r, c, n) := hole_skip r c1 d n in if n =? 0 then (r, c) else
    let '(r, c) := note r c d LK_REDIS_NOTE_VALUE_HOLE (rd_last_ts (dir_of c1 d)) in go_scan (bump r (fun s => s <| rs_hdr_holes ::= inc64 |>)) c d)) as Hs.
  { pose proof (hole_skip_ok i n r c1 Hi Hn H1) as H2. destruct (hole_skip r c1 d n) as [[r2 c2] m]. unfold okp in H2; cbn [fst snd] in H2. destruct (m =? 0); [by apply (at_rest i)|].
    apply seq_ok with (J := at_ i); [by apply okc_note; [apply at_calm|]|]. intros r3 c3 H3. eapply (at_rest i); [done|]; eapply okc_weaken, go_scan_ok; [|apply (okc_r _ r3); [apply (okr_bump k), H3|exact H3]]. by intros ? ? [Hx _]. }
  destruct (f_st (frame c1 d)), (rd_st (dir_of c1 d)); try exact Hs; try (by apply (at_rest i)); (apply (at_rest i); [done|]; eapply okc_weaken, go_scan_ok, H1; by intros ? ? [Hx _]).
Qed.
End Safe.

(** ** Both directions, from the first byte on *)
Section Run.
Context {S P : Type} (k : lk_msg_sink S P redis_frame) {SS : StreamSink k}.
Abbreviation reasm := (lk_reasm S P redis_frame).
Abbreviation conn := (lk_conn P redis_frame).
Implicit Types (r : reasm) (c : conn).
Definition hook r c (e : lk_dir * seg) : reasm * conn :=
  match e with (d, Seg ts p) => redis_stream_bytes r c d p ts | (d, Gap n) => redis_stream_hole r c d n end.
Definition hooks r c (es : list (lk_dir * seg)) : reasm * conn := foldl (fun rc e => hook rc.1 rc.2 e) (r, c) es.
Definition safe c : Prop := forall d, rest (frame c d) (dir_of c d).

Lemma safe_okc d r c : okr k r -> is_Some (c_frame_state c) -> safe c -> okc k d (frame c (other d)) (dir_of c (other d)) rest r c.
Proof. intros Hr Hs Hc. split; [done|]. split; [done|]. split; [apply Hc|done]. Qed.
Lemma okc_safe d f0 x0 r c : okc k d f0 x0 rest r c -> rest f0 x0 -> okr k r /\ safe c.
Proof. intros (H1 & H2 & H3 & H4 & H5) H0. split; [done|]. intros d'. unfold StreamSafe.other in *. subst f0 x0. by destruct d, d'. Qed.
Lemma hook_started r c e : okr k r -> is_Some (c_frame_state c) -> safe c -> typed e -> okr k (hook r c e).1 /\ safe (hook r c e).2.
Proof.
  intros Hr Hs Hc He. destruct e as [d [ts p|n]]; cbn [hook].
  - eapply okc_safe, (Hc (other d)). destruct He as (Ht & Hp & Hl). refine (bytes_ok k d _ _ r c p ts Ht Hp Hl _). by apply safe_okc.
  - eapply okc_safe, (Hc (other d)). refine (hole_ok k d _ _ r c n (proj1 He) _). by apply safe_okc.
Qed.
Lemma unstarted_safe c : c_frame_state c = None -> (forall d, buf_len (frame c d) <= LK_MSG_BODY_MAX) -> safe c.
Proof. intros Hn Hb d. unfold dir_of. rewrite Hn. split; [|done]. split; try done; try apply Hb; by intros [|]. Qed.
Lemma hook_safe r c e : okr k r -> safe c -> typed e -> okr k (hook r c e).1 /\ safe (hook r c e).2.
Proof.
  intros Hr Hc He. destruct (c_frame_state c) as [rf|] eqn:Ef; [apply hook_started; [done|by eexists|done..]|].
  pose proof (okr_malloc k r Hr) as Hm. destruct (malloc r) as [[] r1] eqn:Em; cbn [snd] in Hm.
  - replace (hook r c e) with (hook r1 (c <| c_frame_state := Some redis_frame0 |>) e).
    + apply hook_started; [done|by eexists| |done]. intros d. specialize (Hc d). unfold dir_of in *. rewrite Ef in Hc. by destruct d.
    + destruct e as [d [ts p|n]]; cbn [hook]; [unfold redis_stream_bytes|unfold redis_stream_hole]; unfold redis_frame_get; by rewrite Ef, Em.
  - assert (exists ts, hook r c e = redis_no_state r1 c e.1 ts) as [ts ->].
    { destruct e as [d [ts p|n]]; cbn [hook fst]; [exists ts; unfold redis_stream_bytes|exists 0; unfold redis_stream_hole]; unfold redis_frame_get; by rewrite Ef, Em. }
    pose proof (no_state_ok k e.1 r1 c ts Hm Ef ltac:(eexists; split; [done|apply (di_buf _ _ (proj1 (Hc e.1)))])) as Hn. destruct (redis_no_state _ _ _ _) as [r2 c2]. destruct Hn as (H1 & H2 & H3 & H4). split; [done|].
    apply unstarted_safe; [done|]. intros d'. destruct (decide (d' = e.1)) as [->|Hne]; [done|]. replace d' with (other e.1) by (destruct e.1, d'; done). cbn [snd]. rewrite H4. apply (di_buf _ _ (proj1 (Hc _))).
Qed.

(** The fields of [struct redis_dir] in the ranges of their C types and arrays, and the slab. *)
Definition in_range f x : Prop :=
  rd_depth x <= LK_REDIS_MAX_DEPTH /\ Forall (fun n => 1 <= n < 2 ^ 32) (rd_stack x) /\
  zlen (rd_num x) <= LK_REDIS_NUM_MAX /\ Forall in_u8 (rd_num x) /\ in_u8 (rd_vtype x) /\
  0 <= rd_line_n x <= LK_REDIS_LINE_MAX /\ 0 <= rd_bulk_left x <= LK_REDIS_MAX_BULK /\ 0 <= rd_eol_left x <= 2 /\
  0 <= rd_cur x < 2 ^ 32 /\ Forall in_u64 [rd_v_pos x; rd_v_ts x; rd_cbase x; rd_last_ts x; rd_off x; rd_events x; rd_holes x] /\
  buf_len f <= LK_MSG_BODY_MAX.
Lemma rest_fields f x : rest f x -> in_range f x.
Proof. intros [[] ?]. unfold in_range. split_and!; try done; try lia. repeat (apply Forall_cons; [done|]). apply Forall_nil. Qed.
(** C18: The Redis framer is safe on any traffic: whatever bytes and holes arrive, on either direction, in
    whatever order and with whatever allocation failures, for every consumer that leaves
    the framing state alone, every field of [struct redis_dir] of both directions is in
    the range of its C type or array (the stack and the digits within their arrays, the
    element counts at least 1 and 32 bits wide, the offset in the chunk 32 bits, the
    positions, times and counters 64 bits, the line and bulk lengths within their limits),
    the body slab holds at most [LK_MSG_BODY_MAX] bytes, the freelist is bounded, and
    the loop over the next chunk ends within its fuel. *)
Theorem redis_framer_safe cookie (ctx : S) oom es : Forall typed es ->
  let '(r, c) := hooks (lk_reasm_init ctx k oom) (conn0 cookie) es in
  (forall d, in_range (frame c d) (dir_of c d)) /\
  0 <= r_pool_n r <= LK_REASM_POOL_MAX /\
  forall d p ts at_call, is_Some (c_frame_state c) -> typed (d, Seg ts p) ->
    (redis_loop (redis_fuel p) r (upd_dir c d (fun x => chunk_begin x (zlen p) ts at_call)) d p 0 ts at_call).2 <> LoopFuel.
Proof.
  intros He. unfold hooks. assert (forall rc, okr k rc.1 -> safe rc.2 -> okr k (foldl (fun rc e => hook rc.1 rc.2 e) rc es).1 /\ safe (foldl (fun rc e => hook rc.1 rc.2 e) rc es).2) as H.
  { induction He as [|e es He _ IH]; intros rc Hr Hc; [done|]. cbn [foldl]. by apply IH; apply hook_safe. }
  destruct (H (lk_reasm_init ctx k oom, conn0 cookie)) as [H1 H2]; [done|by apply unstarted_safe; [|intros []]|]. destruct (foldl _ _ _) as [r c]. split; [by intros d; apply rest_fields|]. split; [apply H1|].
  intros d p ts at_call Hs (Ht & Hp & Hl). eapply (redis_loop_ok k d); [done|done|pose proof (zlen_nonneg p); lia| |].
  - apply okc_dir. eapply okc_weaken, (safe_okc d r c); [|done..]. intros f x [? _]. by apply chunk_begin_at.
  - unfold redis_fuel, zlen. match goal with |- context [weight ?s 0] => pose proof (weight_range s 0) end. lia.
Qed.
End Run.

(** ** A witness *)
Definition w_silent : lk_msg_sink unit unit redis_frame := Sink (Some (fun s c _ _ => (s, c))) None None.
#[global] Instance w_silent_law : StreamSink w_silent.
Proof. split; intros cb s c d; [intros m|]; intros E; [injection E as <-; by split|done]. Qed.
Definition w_events : list (lk_dir * seg) := [(LK_DIR_RECV, Seg 5 (lit "*1x")); (LK_DIR_SEND, Gap 3)].
Definition w_end := hooks (lk_reasm_init tt w_silent []) (conn0 7) w_events.
Lemma redis_framer_safe_witness : Forall typed w_events /\ rd_depth (dir_of w_end.2 LK_DIR_RECV) <= LK_REDIS_MAX_DEPTH.
Proof.
  assert (Forall typed w_events) as Hw by (apply Forall_cons; [split; [done|]; split; [repeat (apply Forall_cons; [done|]); apply Forall_nil|done]|]; apply Forall_cons; [done|apply Forall_nil]).
  split; [exact Hw|]. pose proof (redis_framer_safe w_silent 7 tt [] w_events Hw) as H. unfold w_end. destruct (hooks _ _ _) as [r c]. exact (proj1 (proj1 H LK_DIR_RECV)).
Defined.
