(* ===== verification/NormRedisTab.v ===== *)
(** The identity table of the Redis classifier, [norm/norm_redis_table.h], with the entry
    type of [norm_redis.c] and the bits of [norm_redis.h]. *)
From Stdlib Require Import Ascii String.
From stdpp Require Import base list.
From S2P Require Import Prelude Conn Proto.
#[local] Open Scope Z_scope.

Definition LK_REDIS_C_WRITE := 1.
Definition LK_REDIS_C_BLOCKING := 2.
Definition LK_REDIS_C_CONTAINER := 4.
Definition LK_REDIS_C_SUBFAM := 8.
Definition LK_REDIS_C_SUBON := 16.
Definition LK_REDIS_C_SELECT := 32.
Definition LK_REDIS_C_AUTH := 64.
Definition LK_REDIS_C_HELLO := 128.
Definition LK_REDIS_C_RESET := 256.
Definition LK_REDIS_C_REPL := 512.
Definition LK_REDIS_C_MONITOR := 1024.
Definition LK_REDIS_C_SEC_RULE := 2048.
Definition LK_REDIS_C_SEC_PARAM := 4096.
Definition LK_REDIS_C_SEC_KW := 8192.
Definition LK_REDIS_C_ARGBLOCK := 16384.
Definition LK_REDIS_C_MULTI := 32768.
Definition LK_REDIS_C_EXEC := 65536.
Definition LK_REDIS_C_DISCARD := 131072.

Record redis_ent := RedisEnt {
  re_name : list Z; re_flags : Z; re_sub_first : Z; re_sub_n : Z; re_sub_other : Z; re_name_len : Z; re_key_off : Z }.

Definition LK_REDIS_NCMD := 250.
Definition LK_REDIS_NSUB := 144.
(** Entries [0, NCMD): the commands, C-sorted. *)
Definition redis_cmds_1 : list redis_ent := [
  RedisEnt (lit "ACL") LK_REDIS_C_CONTAINER 250 13 263 3 0;
  RedisEnt (lit "APPEND") LK_REDIS_C_WRITE 0 0 0 6 0;
  RedisEnt (lit "ASKING") 0 0 0 0 6 0;
  RedisEnt (lit "AUTH") LK_REDIS_C_AUTH 0 0 0 4 0;
  RedisEnt (lit "BGREWRITEAOF") 0 0 0 0 12 0;
  RedisEnt (lit "BGSAVE") 0 0 0 0 6 0;
  RedisEnt (lit "BITCOUNT") 0 0 0 0 8 0;
  RedisEnt (lit "BITFIELD") LK_REDIS_C_WRITE 0 0 0 8 0;
  RedisEnt (lit "BITFIELD_RO") 0 0 0 0 11 0;
  RedisEnt (lit "BITOP") LK_REDIS_C_WRITE 0 0 0 5 0;
  RedisEnt (lit "BITPOS") 0 0 0 0 6 0;
  RedisEnt (lit "BLMOVE") (Z.lor LK_REDIS_C_WRITE LK_REDIS_C_BLOCKING) 0 0 0 6 0;
  RedisEnt (lit "BLMPOP") (Z.lor LK_REDIS_C_WRITE LK_REDIS_C_BLOCKING) 0 0 0 6 0;
  RedisEnt (lit "BLPOP") (Z.lor LK_REDIS_C_WRITE LK_REDIS_C_BLOCKING) 0 0 0 5 0;
  RedisEnt (lit "BRPOP") (Z.lor LK_REDIS_C_WRITE LK_REDIS_C_BLOCKING) 0 0 0 5 0;
  RedisEnt (lit "BRPOPLPUSH") (Z.lor LK_REDIS_C_WRITE LK_REDIS_C_BLOCKING) 0 0 0 10 0;
  RedisEnt (lit "BZMPOP") (Z.lor LK_REDIS_C_WRITE LK_REDIS_C_BLOCKING) 0 0 0 6 0;
  RedisEnt (lit "BZPOPMAX") (Z.lor LK_REDIS_C_WRITE LK_REDIS_C_BLOCKING) 0 0 0 8 0;
  RedisEnt (lit "BZPOPMIN") (Z.lor LK_REDIS_C_WRITE LK_REDIS_C_BLOCKING) 0 0 0 8 0;
  RedisEnt (lit "CLIENT") LK_REDIS_C_CONTAINER 264 18 282 6 0;
  RedisEnt (lit "CLUSTER") LK_REDIS_C_CONTAINER 283 28 311 7 0;
  RedisEnt (lit "COMMAND") LK_REDIS_C_CONTAINER 312 7 319 7 0;
  RedisEnt (lit "CONFIG") LK_REDIS_C_CONTAINER 320 5 325 6 0;
  RedisEnt (lit "COPY") LK_REDIS_C_WRITE 0 0 0 4 0;
  RedisEnt (lit "DBSIZE") 0 0 0 0 6 0;
  RedisEnt (lit "DEBUG") 0 0 0 0 5 0;
  RedisEnt (lit "DECR") LK_REDIS_C_WRITE 0 0 0 4 0;
  RedisEnt (lit "DECRBY") LK_REDIS_C_WRITE 0 0 0 6 0;
  RedisEnt (lit "DEL") LK_REDIS_C_WRITE 0 0 0 3 0;
  RedisEnt (lit "DISCARD") LK_REDIS_C_DISCARD 0 0 0 7 0;
  RedisEnt (lit "DUMP") 0 0 0 0 4 0;
  RedisEnt (lit "ECHO") 0 0 0 0 4 0;
  RedisEnt (lit "EVAL") 0 0 0 0 4 0;
  RedisEnt (lit "EVALSHA") 0 0 0 0 7 0;
  RedisEnt (lit "EVALSHA_RO") 0 0 0 0 10 0;
  RedisEnt (lit "EVAL_RO") 0 0 0 0 7 0;
  RedisEnt (lit "EXEC") LK_REDIS_C_EXEC 0 0 0 4 0;
  RedisEnt (lit "EXISTS") 0 0 0 0 6 0;
  RedisEnt (lit "EXPIRE") LK_REDIS_C_WRITE 0 0 0 6 0;
  RedisEnt (lit "EXPIREAT") LK_REDIS_C_WRITE 0 0 0 8 0;
  RedisEnt (lit "EXPIRETIME") 0 0 0 0 10 0;
  RedisEnt (lit "FAILOVER") 0 0 0 0 8 0;
  RedisEnt (lit "FCALL") 0 0 0 0 5 0;
  RedisEnt (lit "FCALL_RO") 0 0 0 0 8 0;
  RedisEnt (lit "FLUSHALL") LK_REDIS_C_WRITE 0 0 0 8 0;
  RedisEnt (lit "FLUSHDB") LK_REDIS_C_WRITE 0 0 0 7 0;
  RedisEnt (lit "FUNCTION") LK_REDIS_C_CONTAINER 326 9 335 8 0;
  RedisEnt (lit "GEOADD") LK_REDIS_C_WRITE 0 0 0 6 0;
  RedisEnt (lit "GEODIST") 0 0 0 0 7 0;
  RedisEnt (lit "GEOHASH") 0 0 0 0 7 0;
  RedisEnt (lit "GEOPOS") 0 0 0 0 6 0;
  RedisEnt (lit "GEORADIUS") LK_REDIS_C_WRITE 0 0 0 9 0;
  RedisEnt (lit "GEORADIUSBYMEMBER") LK_REDIS_C_WRITE 0 0 0 17 0;
  RedisEnt (lit "GEORADIUSBYMEMBER_RO") 0 0 0 0 20 0;
  RedisEnt (lit "GEORADIUS_RO") 0 0 0 0 12 0;
  RedisEnt (lit "GEOSEARCH") 0 0 0 0 9 0;
  RedisEnt (lit "GEOSEARCHSTORE") LK_REDIS_C_WRITE 0 0 0 14 0;
  RedisEnt (lit "GET") 0 0 0 0 3 0;
  RedisEnt (lit "GETBIT") 0 0 0 0 6 0;
  RedisEnt (lit "GETDEL") LK_REDIS_C_WRITE 0 0 0 6 0;
  RedisEnt (lit "GETEX") LK_REDIS_C_WRITE 0 0 0 5 0;
  RedisEnt (lit "GETRANGE") 0 0 0 0 8 0;
  RedisEnt (lit "GETSET") LK_REDIS_C_WRITE 0 0 0 6 0;
  RedisEnt (lit "HDEL") LK_REDIS_C_WRITE 0 0 0 4 0;
  RedisEnt (lit "HELLO") LK_REDIS_C_HELLO 0 0 0 5 0;
  RedisEnt (lit "HEXISTS") 0 0 0 0 7 0;
  RedisEnt (lit "HEXPIRE") LK_REDIS_C_WRITE 0 0 0 7 0;
  RedisEnt (lit "HEXPIREAT") LK_REDIS_C_WRITE 0 0 0 9 0;
  RedisEnt (lit "HEXPIRETIME") 0 0 0 0 11 0;
  RedisEnt (lit "HGET") 0 0 0 0 4 0;
  RedisEnt (lit "HGETALL") 0 0 0 0 7 0;
  RedisEnt (lit "HINCRBY") LK_REDIS_C_WRITE 0 0 0 7 0;
  RedisEnt (lit "HINCRBYFLOAT") LK_REDIS_C_WRITE 0 0 0 12 0;
  RedisEnt (lit "HKEYS") 0 0 0 0 5 0;
  RedisEnt (lit "HLEN") 0 0 0 0 4 0;
  RedisEnt (lit "HMGET") 0 0 0 0 5 0;
  RedisEnt (lit "HMSET") LK_REDIS_C_WRITE 0 0 0 5 0;
  RedisEnt (lit "HPERSIST") LK_REDIS_C_WRITE 0 0 0 8 0;
  RedisEnt (lit "HPEXPIRE") LK_REDIS_C_WRITE 0 0 0 8 0;
  RedisEnt (lit "HPEXPIREAT") LK_REDIS_C_WRITE 0 0 0 10 0;
  RedisEnt (lit "HPEXPIRETIME") 0 0 0 0 12 0;
  RedisEnt (lit "HPTTL") 0 0 0 0 5 0;
  RedisEnt (lit "HRANDFIELD") 0 0 0 0 10 0;
  RedisEnt (lit "HSCAN") 0 0 0 0 5 0;
  RedisEnt (lit "HSET") LK_REDIS_C_WRITE 0 0 0 4 0;
  RedisEnt (lit "HSETNX") LK_REDIS_C_WRITE 0 0 0 6 0;
  RedisEnt (lit "HSTRLEN") 0 0 0 0 7 0;
  RedisEnt (lit "HTTL") 0 0 0 0 4 0;
  RedisEnt (lit "HVALS") 0 0 0 0 5 0;
  RedisEnt (lit "INCR") LK_REDIS_C_WRITE 0 0 0 4 0;
  RedisEnt (lit "INCRBY") LK_REDIS_C_WRITE 0 0 0 6 0;
  RedisEnt (lit "INCRBYFLOAT") LK_REDIS_C_WRITE 0 0 0 11 0;
  RedisEnt (lit "INFO") 0 0 0 0 4 0;
  RedisEnt (lit "KEYS") 0 0 0 0 4 0;
  RedisEnt (lit "LASTSAVE") 0 0 0 0 8 0;
  RedisEnt (lit "LATENCY") LK_REDIS_C_CONTAINER 336 7 343 7 0;
  RedisEnt (lit "LCS") 0 0 0 0 3 0;
  RedisEnt (lit "LINDEX") 0 0 0 0 6 0;
  RedisEnt (lit "LINSERT") LK_REDIS_C_WRITE 0 0 0 7 0;
  RedisEnt (lit "LLEN") 0 0 0 0 4 0;
  RedisEnt (lit "LMOVE") LK_REDIS_C_WRITE 0 0 0 5 0;
  RedisEnt (lit "LMPOP") LK_REDIS_C_WRITE 0 0 0 5 0;
  RedisEnt (lit "LOLWUT") 0 0 0 0 6 0;
  RedisEnt (lit "LPOP") LK_REDIS_C_WRITE 0 0 0 4 0;
  RedisEnt (lit "LPOS") 0 0 0 0 4 0;
  RedisEnt (lit "LPUSH") LK_REDIS_C_WRITE 0 0 0 5 0;
  RedisEnt (lit "LPUSHX") LK_REDIS_C_WRITE 0 0 0 6 0;
  RedisEnt (lit "LRANGE") 0 0 0 0 6 0;
  RedisEnt (lit "LREM") LK_REDIS_C_WRITE 0 0 0 4 0;
  RedisEnt (lit "LSET") LK_REDIS_C_WRITE 0 0 0 4 0;
  RedisEnt (lit "LTRIM") LK_REDIS_C_WRITE 0 0 0 5 0;
  RedisEnt (lit "MEMORY") LK_REDIS_C_CONTAINER 344 6 350 6 0;
  RedisEnt (lit "MGET") 0 0 0 0 4 0;
  RedisEnt (lit "MIGRATE") (Z.lor LK_REDIS_C_WRITE LK_REDIS_C_SEC_KW) 0 0 0 7 0;
  RedisEnt (lit "MODULE") LK_REDIS_C_CONTAINER 351 5 356 6 0;
  RedisEnt (lit "MONITOR") LK_REDIS_C_MONITOR 0 0 0 7 0;
  RedisEnt (lit "MOVE") LK_REDIS_C_WRITE 0 0 0 4 0;
  RedisEnt (lit "MSET") LK_REDIS_C_WRITE 0 0 0 4 0;
  RedisEnt (lit "MSETNX") LK_REDIS_C_WRITE 0 0 0 6 0;
  RedisEnt (lit "MULTI") LK_REDIS_C_MULTI 0 0 0 5 0;
  RedisEnt (lit "OBJECT") LK_REDIS_C_CONTAINER 357 5 362 6 0;
  RedisEnt (lit "PERSIST") LK_REDIS_C_WRITE 0 0 0 7 0;
  RedisEnt (lit "PEXPIRE") LK_REDIS_C_WRITE 0 0 0 7 0;
  RedisEnt (lit "PEXPIREAT") LK_REDIS_C_WRITE 0 0 0 9 0;
  RedisEnt (lit "PEXPIRETIME") 0 0 0 0 11 0].
(** The second half of them. *)
Definition redis_cmds_2 : list redis_ent := [
  RedisEnt (lit "PFADD") LK_REDIS_C_WRITE 0 0 0 5 0;
  RedisEnt (lit "PFCOUNT") 0 0 0 0 7 0;
  RedisEnt (lit "PFDEBUG") LK_REDIS_C_WRITE 0 0 0 7 0;
  RedisEnt (lit "PFMERGE") LK_REDIS_C_WRITE 0 0 0 7 0;
  RedisEnt (lit "PFSELFTEST") 0 0 0 0 10 0;
  RedisEnt (lit "PING") 0 0 0 0 4 0;
  RedisEnt (lit "PSETEX") LK_REDIS_C_WRITE 0 0 0 6 0;
  RedisEnt (lit "PSUBSCRIBE") (Z.lor LK_REDIS_C_SUBFAM LK_REDIS_C_SUBON) 0 0 0 10 0;
  RedisEnt (lit "PSYNC") LK_REDIS_C_REPL 0 0 0 5 0;
  RedisEnt (lit "PTTL") 0 0 0 0 4 0;
  RedisEnt (lit "PUBLISH") 0 0 0 0 7 0;
  RedisEnt (lit "PUBSUB") LK_REDIS_C_CONTAINER 363 6 369 6 0;
  RedisEnt (lit "PUNSUBSCRIBE") LK_REDIS_C_SUBFAM 0 0 0 12 0;
  RedisEnt (lit "QUIT") 0 0 0 0 4 0;
  RedisEnt (lit "RANDOMKEY") 0 0 0 0 9 0;
  RedisEnt (lit "READONLY") 0 0 0 0 8 0;
  RedisEnt (lit "READWRITE") 0 0 0 0 9 0;
  RedisEnt (lit "RENAME") LK_REDIS_C_WRITE 0 0 0 6 0;
  RedisEnt (lit "RENAMENX") LK_REDIS_C_WRITE 0 0 0 8 0;
  RedisEnt (lit "REPLCONF") LK_REDIS_C_REPL 0 0 0 8 0;
  RedisEnt (lit "REPLICAOF") 0 0 0 0 9 0;
  RedisEnt (lit "RESET") LK_REDIS_C_RESET 0 0 0 5 0;
  RedisEnt (lit "RESTORE") LK_REDIS_C_WRITE 0 0 0 7 0;
  RedisEnt (lit "RESTORE-ASKING") LK_REDIS_C_WRITE 0 0 0 14 0;
  RedisEnt (lit "ROLE") 0 0 0 0 4 0;
  RedisEnt (lit "RPOP") LK_REDIS_C_WRITE 0 0 0 4 0;
  RedisEnt (lit "RPOPLPUSH") LK_REDIS_C_WRITE 0 0 0 9 0;
  RedisEnt (lit "RPUSH") LK_REDIS_C_WRITE 0 0 0 5 0;
  RedisEnt (lit "RPUSHX") LK_REDIS_C_WRITE 0 0 0 6 0;
  RedisEnt (lit "SADD") LK_REDIS_C_WRITE 0 0 0 4 0;
  RedisEnt (lit "SAVE") 0 0 0 0 4 0;
  RedisEnt (lit "SCAN") 0 0 0 0 4 0;
  RedisEnt (lit "SCARD") 0 0 0 0 5 0;
  RedisEnt (lit "SCRIPT") LK_REDIS_C_CONTAINER 370 6 376 6 0;
  RedisEnt (lit "SDIFF") 0 0 0 0 5 0;
  RedisEnt (lit "SDIFFSTORE") LK_REDIS_C_WRITE 0 0 0 10 0;
  RedisEnt (lit "SELECT") LK_REDIS_C_SELECT 0 0 0 6 0;
  RedisEnt (lit "SET") LK_REDIS_C_WRITE 0 0 0 3 0;
  RedisEnt (lit "SETBIT") LK_REDIS_C_WRITE 0 0 0 6 0;
  RedisEnt (lit "SETEX") LK_REDIS_C_WRITE 0 0 0 5 0;
  RedisEnt (lit "SETNX") LK_REDIS_C_WRITE 0 0 0 5 0;
  RedisEnt (lit "SETRANGE") LK_REDIS_C_WRITE 0 0 0 8 0;
  RedisEnt (lit "SHUTDOWN") 0 0 0 0 8 0;
  RedisEnt (lit "SINTER") 0 0 0 0 6 0;
  RedisEnt (lit "SINTERCARD") 0 0 0 0 10 0;
  RedisEnt (lit "SINTERSTORE") LK_REDIS_C_WRITE 0 0 0 11 0;
  RedisEnt (lit "SISMEMBER") 0 0 0 0 9 0;
  RedisEnt (lit "SLAVEOF") 0 0 0 0 7 0;
  RedisEnt (lit "SLOWLOG") LK_REDIS_C_CONTAINER 377 4 381 7 0;
  RedisEnt (lit "SMEMBERS") 0 0 0 0 8 0;
  RedisEnt (lit "SMISMEMBER") 0 0 0 0 10 0;
  RedisEnt (lit "SMOVE") LK_REDIS_C_WRITE 0 0 0 5 0;
  RedisEnt (lit "SORT") LK_REDIS_C_WRITE 0 0 0 4 0;
  RedisEnt (lit "SORT_RO") 0 0 0 0 7 0;
  RedisEnt (lit "SPOP") LK_REDIS_C_WRITE 0 0 0 4 0;
  RedisEnt (lit "SPUBLISH") 0 0 0 0 8 0;
  RedisEnt (lit "SRANDMEMBER") 0 0 0 0 11 0;
  RedisEnt (lit "SREM") LK_REDIS_C_WRITE 0 0 0 4 0;
  RedisEnt (lit "SSCAN") 0 0 0 0 5 0;
  RedisEnt (lit "SSUBSCRIBE") (Z.lor LK_REDIS_C_SUBFAM LK_REDIS_C_SUBON) 0 0 0 10 0;
  RedisEnt (lit "STRLEN") 0 0 0 0 6 0;
  RedisEnt (lit "SUBSCRIBE") (Z.lor LK_REDIS_C_SUBFAM LK_REDIS_C_SUBON) 0 0 0 9 0;
  RedisEnt (lit "SUBSTR") 0 0 0 0 6 0;
  RedisEnt (lit "SUNION") 0 0 0 0 6 0;
  RedisEnt (lit "SUNIONSTORE") LK_REDIS_C_WRITE 0 0 0 11 0;
  RedisEnt (lit "SUNSUBSCRIBE") LK_REDIS_C_SUBFAM 0 0 0 12 0;
  RedisEnt (lit "SWAPDB") LK_REDIS_C_WRITE 0 0 0 6 0;
  RedisEnt (lit "SYNC") LK_REDIS_C_REPL 0 0 0 4 0;
  RedisEnt (lit "TIME") 0 0 0 0 4 0;
  RedisEnt (lit "TOUCH") 0 0 0 0 5 0;
  RedisEnt (lit "TTL") 0 0 0 0 3 0;
  RedisEnt (lit "TYPE") 0 0 0 0 4 0;
  RedisEnt (lit "UNLINK") LK_REDIS_C_WRITE 0 0 0 6 0;
  RedisEnt (lit "UNSUBSCRIBE") LK_REDIS_C_SUBFAM 0 0 0 11 0;
  RedisEnt (lit "UNWATCH") 0 0 0 0 7 0;
  RedisEnt (lit "WAIT") LK_REDIS_C_BLOCKING 0 0 0 4 0;
  RedisEnt (lit "WAITAOF") LK_REDIS_C_BLOCKING 0 0 0 7 0;
  RedisEnt (lit "WATCH") 0 0 0 0 5 0;
  RedisEnt (lit "XACK") LK_REDIS_C_WRITE 0 0 0 4 0;
  RedisEnt (lit "XADD") LK_REDIS_C_WRITE 0 0 0 4 0;
  RedisEnt (lit "XAUTOCLAIM") LK_REDIS_C_WRITE 0 0 0 10 0;
  RedisEnt (lit "XCLAIM") LK_REDIS_C_WRITE 0 0 0 6 0;
  RedisEnt (lit "XDEL") LK_REDIS_C_WRITE 0 0 0 4 0;
  RedisEnt (lit "XGROUP") LK_REDIS_C_CONTAINER 382 6 388 6 0;
  RedisEnt (lit "XINFO") LK_REDIS_C_CONTAINER 389 4 393 5 0;
  RedisEnt (lit "XLEN") 0 0 0 0 4 0;
  RedisEnt (lit "XPENDING") 0 0 0 0 8 0;
  RedisEnt (lit "XRANGE") 0 0 0 0 6 0;
  RedisEnt (lit "XREAD") (Z.lor LK_REDIS_C_BLOCKING LK_REDIS_C_ARGBLOCK) 0 0 0 5 0;
  RedisEnt (lit "XREADGROUP") (Z.lor (Z.lor LK_REDIS_C_WRITE LK_REDIS_C_BLOCKING) LK_REDIS_C_ARGBLOCK) 0 0 0 10 0;
  RedisEnt (lit "XREVRANGE") 0 0 0 0 9 0;
  RedisEnt (lit "XSETID") LK_REDIS_C_WRITE 0 0 0 6 0;
  RedisEnt (lit "XTRIM") LK_REDIS_C_WRITE 0 0 0 5 0;
  RedisEnt (lit "ZADD") LK_REDIS_C_WRITE 0 0 0 4 0;
  RedisEnt (lit "ZCARD") 0 0 0 0 5 0;
  RedisEnt (lit "ZCOUNT") 0 0 0 0 6 0;
  RedisEnt (lit "ZDIFF") 0 0 0 0 5 0;
  RedisEnt (lit "ZDIFFSTORE") LK_REDIS_C_WRITE 0 0 0 10 0;
  RedisEnt (lit "ZINCRBY") LK_REDIS_C_WRITE 0 0 0 7 0;
  RedisEnt (lit "ZINTER") 0 0 0 0 6 0;
  RedisEnt (lit "ZINTERCARD") 0 0 0 0 10 0;
  RedisEnt (lit "ZINTERSTORE") LK_REDIS_C_WRITE 0 0 0 11 0;
  RedisEnt (lit "ZLEXCOUNT") 0 0 0 0 9 0;
  RedisEnt (lit "ZMPOP") LK_REDIS_C_WRITE 0 0 0 5 0;
  RedisEnt (lit "ZMSCORE") 0 0 0 0 7 0;
  RedisEnt (lit "ZPOPMAX") LK_REDIS_C_WRITE 0 0 0 7 0;
  RedisEnt (lit "ZPOPMIN") LK_REDIS_C_WRITE 0 0 0 7 0;
  RedisEnt (lit "ZRANDMEMBER") 0 0 0 0 11 0;
  RedisEnt (lit "ZRANGE") 0 0 0 0 6 0;
  RedisEnt (lit "ZRANGEBYLEX") 0 0 0 0 11 0;
  RedisEnt (lit "ZRANGEBYSCORE") 0 0 0 0 13 0;
  RedisEnt (lit "ZRANGESTORE") LK_REDIS_C_WRITE 0 0 0 11 0;
  RedisEnt (lit "ZRANK") 0 0 0 0 5 0;
  RedisEnt (lit "ZREM") LK_REDIS_C_WRITE 0 0 0 4 0;
  RedisEnt (lit "ZREMRANGEBYLEX") LK_REDIS_C_WRITE 0 0 0 14 0;
  RedisEnt (lit "ZREMRANGEBYRANK") LK_REDIS_C_WRITE 0 0 0 15 0;
  RedisEnt (lit "ZREMRANGEBYSCORE") LK_REDIS_C_WRITE 0 0 0 16 0;
  RedisEnt (lit "ZREVRANGE") 0 0 0 0 9 0;
  RedisEnt (lit "ZREVRANGEBYLEX") 0 0 0 0 14 0;
  RedisEnt (lit "ZREVRANGEBYSCORE") 0 0 0 0 16 0;
  RedisEnt (lit "ZREVRANK") 0 0 0 0 8 0;
  RedisEnt (lit "ZSCAN") 0 0 0 0 5 0;
  RedisEnt (lit "ZSCORE") 0 0 0 0 6 0;
  RedisEnt (lit "ZUNION") 0 0 0 0 6 0;
  RedisEnt (lit "ZUNIONSTORE") LK_REDIS_C_WRITE 0 0 0 11 0].
(** Entries [NCMD, NCMD + NSUB): the subcommands by container, its [|other] last. *)
Definition redis_subs : list redis_ent := [
  RedisEnt (lit "ACL|CAT") 0 0 0 0 7 4;
  RedisEnt (lit "ACL|DELUSER") 0 0 0 0 11 4;
  RedisEnt (lit "ACL|DRYRUN") 0 0 0 0 10 4;
  RedisEnt (lit "ACL|GENPASS") 0 0 0 0 11 4;
  RedisEnt (lit "ACL|GETUSER") 0 0 0 0 11 4;
  RedisEnt (lit "ACL|HELP") 0 0 0 0 8 4;
  RedisEnt (lit "ACL|LIST") 0 0 0 0 8 4;
  RedisEnt (lit "ACL|LOAD") 0 0 0 0 8 4;
  RedisEnt (lit "ACL|LOG") 0 0 0 0 7 4;
  RedisEnt (lit "ACL|SAVE") 0 0 0 0 8 4;
  RedisEnt (lit "ACL|SETUSER") LK_REDIS_C_SEC_RULE 0 0 0 11 4;
  RedisEnt (lit "ACL|USERS") 0 0 0 0 9 4;
  RedisEnt (lit "ACL|WHOAMI") 0 0 0 0 10 4;
  RedisEnt (lit "ACL|other") 0 0 0 0 9 4;
  RedisEnt (lit "CLIENT|CACHING") 0 0 0 0 14 7;
  RedisEnt (lit "CLIENT|GETNAME") 0 0 0 0 14 7;
  RedisEnt (lit "CLIENT|GETREDIR") 0 0 0 0 15 7;
  RedisEnt (lit "CLIENT|HELP") 0 0 0 0 11 7;
  RedisEnt (lit "CLIENT|ID") 0 0 0 0 9 7;
  RedisEnt (lit "CLIENT|INFO") 0 0 0 0 11 7;
  RedisEnt (lit "CLIENT|KILL") 0 0 0 0 11 7;
  RedisEnt (lit "CLIENT|LIST") 0 0 0 0 11 7;
  RedisEnt (lit "CLIENT|NO-EVICT") 0 0 0 0 15 7;
  RedisEnt (lit "CLIENT|NO-TOUCH") 0 0 0 0 15 7;
  RedisEnt (lit "CLIENT|PAUSE") 0 0 0 0 12 7;
  RedisEnt (lit "CLIENT|REPLY") 0 0 0 0 12 7;
  RedisEnt (lit "CLIENT|SETINFO") 0 0 0 0 14 7;
  RedisEnt (lit "CLIENT|SETNAME") 0 0 0 0 14 7;
  RedisEnt (lit "CLIENT|TRACKING") 0 0 0 0 15 7;
  RedisEnt (lit "CLIENT|TRACKINGINFO") 0 0 0 0 19 7;
  RedisEnt (lit "CLIENT|UNBLOCK") 0 0 0 0 14 7;
  RedisEnt (lit "CLIENT|UNPAUSE") 0 0 0 0 14 7;
  RedisEnt (lit "CLIENT|other") 0 0 0 0 12 7;
  RedisEnt (lit "CLUSTER|ADDSLOTS") 0 0 0 0 16 8;
  RedisEnt (lit "CLUSTER|ADDSLOTSRANGE") 0 0 0 0 21 8;
  RedisEnt (lit "CLUSTER|BUMPEPOCH") 0 0 0 0 17 8;
  RedisEnt (lit "CLUSTER|COUNT-FAILURE-REPORTS") 0 0 0 0 29 8;
  RedisEnt (lit "CLUSTER|COUNTKEYSINSLOT") 0 0 0 0 23 8;
  RedisEnt (lit "CLUSTER|DELSLOTS") 0 0 0 0 16 8;
  RedisEnt (lit "CLUSTER|DELSLOTSRANGE") 0 0 0 0 21 8;
  RedisEnt (lit "CLUSTER|FAILOVER") 0 0 0 0 16 8;
  RedisEnt (lit "CLUSTER|FLUSHSLOTS") 0 0 0 0 18 8;
  RedisEnt (lit "CLUSTER|FORGET") 0 0 0 0 14 8;
  RedisEnt (lit "CLUSTER|GETKEYSINSLOT") 0 0 0 0 21 8;
  RedisEnt (lit "CLUSTER|HELP") 0 0 0 0 12 8;
  RedisEnt (lit "CLUSTER|INFO") 0 0 0 0 12 8;
  RedisEnt (lit "CLUSTER|KEYSLOT") 0 0 0 0 15 8;
  RedisEnt (lit "CLUSTER|LINKS") 0 0 0 0 13 8;
  RedisEnt (lit "CLUSTER|MEET") 0 0 0 0 12 8;
  RedisEnt (lit "CLUSTER|MYID") 0 0 0 0 12 8;
  RedisEnt (lit "CLUSTER|MYSHARDID") 0 0 0 0 17 8;
  RedisEnt (lit "CLUSTER|NODES") 0 0 0 0 13 8;
  RedisEnt (lit "CLUSTER|REPLICAS") 0 0 0 0 16 8;
  RedisEnt (lit "CLUSTER|REPLICATE") 0 0 0 0 17 8;
  RedisEnt (lit "CLUSTER|RESET") 0 0 0 0 13 8;
  RedisEnt (lit "CLUSTER|SAVECONFIG") 0 0 0 0 18 8;
  RedisEnt (lit "CLUSTER|SET-CONFIG-EPOCH") 0 0 0 0 24 8;
  RedisEnt (lit "CLUSTER|SETSLOT") 0 0 0 0 15 8;
  RedisEnt (lit "CLUSTER|SHARDS") 0 0 0 0 14 8;
  RedisEnt (lit "CLUSTER|SLAVES") 0 0 0 0 14 8;
  RedisEnt (lit "CLUSTER|SLOTS") 0 0 0 0 13 8;
  RedisEnt (lit "CLUSTER|other") 0 0 0 0 13 8;
  RedisEnt (lit "COMMAND|COUNT") 0 0 0 0 13 8;
  RedisEnt (lit "COMMAND|DOCS") 0 0 0 0 12 8;
  RedisEnt (lit "COMMAND|GETKEYS") 0 0 0 0 15 8;
  RedisEnt (lit "COMMAND|GETKEYSANDFLAGS") 0 0 0 0 23 8;
  RedisEnt (lit "COMMAND|HELP") 0 0 0 0 12 8;
  RedisEnt (lit "COMMAND|INFO") 0 0 0 0 12 8;
  RedisEnt (lit "COMMAND|LIST") 0 0 0 0 12 8;
  RedisEnt (lit "COMMAND|other") 0 0 0 0 13 8;
  RedisEnt (lit "CONFIG|GET") 0 0 0 0 10 7;
  RedisEnt (lit "CONFIG|HELP") 0 0 0 0 11 7;
  RedisEnt (lit "CONFIG|RESETSTAT") 0 0 0 0 16 7;
  RedisEnt (lit "CONFIG|REWRITE") 0 0 0 0 14 7;
  RedisEnt (lit "CONFIG|SET") LK_REDIS_C_SEC_PARAM 0 0 0 10 7;
  RedisEnt (lit "CONFIG|other") 0 0 0 0 12 7;
  RedisEnt (lit "FUNCTION|DELETE") 0 0 0 0 15 9;
  RedisEnt (lit "FUNCTION|DUMP") 0 0 0 0 13 9;
  RedisEnt (lit "FUNCTION|FLUSH") 0 0 0 0 14 9;
  RedisEnt (lit "FUNCTION|HELP") 0 0 0 0 13 9;
  RedisEnt (lit "FUNCTION|KILL") 0 0 0 0 13 9;
  RedisEnt (lit "FUNCTION|LIST") 0 0 0 0 13 9;
  RedisEnt (lit "FUNCTION|LOAD") 0 0 0 0 13 9;
  RedisEnt (lit "FUNCTION|RESTORE") 0 0 0 0 16 9;
  RedisEnt (lit "FUNCTION|STATS") 0 0 0 0 14 9;
  RedisEnt (lit "FUNCTION|other") 0 0 0 0 14 9;
  RedisEnt (lit "LATENCY|DOCTOR") 0 0 0 0 14 8;
  RedisEnt (lit "LATENCY|GRAPH") 0 0 0 0 13 8;
  RedisEnt (lit "LATENCY|HELP") 0 0 0 0 12 8;
  RedisEnt (lit "LATENCY|HISTOGRAM") 0 0 0 0 17 8;
  RedisEnt (lit "LATENCY|HISTORY") 0 0 0 0 15 8;
  RedisEnt (lit "LATENCY|LATEST") 0 0 0 0 14 8;
  RedisEnt (lit "LATENCY|RESET") 0 0 0 0 13 8;
  RedisEnt (lit "LATENCY|other") 0 0 0 0 13 8;
  RedisEnt (lit "MEMORY|DOCTOR") 0 0 0 0 13 7;
  RedisEnt (lit "MEMORY|HELP") 0 0 0 0 11 7;
  RedisEnt (lit "MEMORY|MALLOC-STATS") 0 0 0 0 19 7;
  RedisEnt (lit "MEMORY|PURGE") 0 0 0 0 12 7;
  RedisEnt (lit "MEMORY|STATS") 0 0 0 0 12 7;
  RedisEnt (lit "MEMORY|USAGE") 0 0 0 0 12 7;
  RedisEnt (lit "MEMORY|other") 0 0 0 0 12 7;
  RedisEnt (lit "MODULE|HELP") 0 0 0 0 11 7;
  RedisEnt (lit "MODULE|LIST") 0 0 0 0 11 7;
  RedisEnt (lit "MODULE|LOAD") 0 0 0 0 11 7;
  RedisEnt (lit "MODULE|LOADEX") 0 0 0 0 13 7;
  RedisEnt (lit "MODULE|UNLOAD") 0 0 0 0 13 7;
  RedisEnt (lit "MODULE|other") 0 0 0 0 12 7;
  RedisEnt (lit "OBJECT|ENCODING") 0 0 0 0 15 7;
  RedisEnt (lit "OBJECT|FREQ") 0 0 0 0 11 7;
  RedisEnt (lit "OBJECT|HELP") 0 0 0 0 11 7;
  RedisEnt (lit "OBJECT|IDLETIME") 0 0 0 0 15 7;
  RedisEnt (lit "OBJECT|REFCOUNT") 0 0 0 0 15 7;
  RedisEnt (lit "OBJECT|other") 0 0 0 0 12 7;
  RedisEnt (lit "PUBSUB|CHANNELS") 0 0 0 0 15 7;
  RedisEnt (lit "PUBSUB|HELP") 0 0 0 0 11 7;
  RedisEnt (lit "PUBSUB|NUMPAT") 0 0 0 0 13 7;
  RedisEnt (lit "PUBSUB|NUMSUB") 0 0 0 0 13 7;
  RedisEnt (lit "PUBSUB|SHARDCHANNELS") 0 0 0 0 20 7;
  RedisEnt (lit "PUBSUB|SHARDNUMSUB") 0 0 0 0 18 7;
  RedisEnt (lit "PUBSUB|other") 0 0 0 0 12 7;
  RedisEnt (lit "SCRIPT|DEBUG") 0 0 0 0 12 7;
  RedisEnt (lit "SCRIPT|EXISTS") 0 0 0 0 13 7;
  RedisEnt (lit "SCRIPT|FLUSH") 0 0 0 0 12 7;
  RedisEnt (lit "SCRIPT|HELP") 0 0 0 0 11 7;
  RedisEnt (lit "SCRIPT|KILL") 0 0 0 0 11 7;
  RedisEnt (lit "SCRIPT|LOAD") 0 0 0 0 11 7;
  RedisEnt (lit "SCRIPT|other") 0 0 0 0 12 7;
  RedisEnt (lit "SLOWLOG|GET") 0 0 0 0 11 8;
  RedisEnt (lit "SLOWLOG|HELP") 0 0 0 0 12 8;
  RedisEnt (lit "SLOWLOG|LEN") 0 0 0 0 11 8;
  RedisEnt (lit "SLOWLOG|RESET") 0 0 0 0 13 8;
  RedisEnt (lit "SLOWLOG|other") 0 0 0 0 13 8;
  RedisEnt (lit "XGROUP|CREATE") 0 0 0 0 13 7;
  RedisEnt (lit "XGROUP|CREATECONSUMER") 0 0 0 0 21 7;
  RedisEnt (lit "XGROUP|DELCONSUMER") 0 0 0 0 18 7;
  RedisEnt (lit "XGROUP|DESTROY") 0 0 0 0 14 7;
  RedisEnt (lit "XGROUP|HELP") 0 0 0 0 11 7;
  RedisEnt (lit "XGROUP|SETID") 0 0 0 0 12 7;
  RedisEnt (lit "XGROUP|other") 0 0 0 0 12 7;
  RedisEnt (lit "XINFO|CONSUMERS") 0 0 0 0 15 6;
  RedisEnt (lit "XINFO|GROUPS") 0 0 0 0 12 6;
  RedisEnt (lit "XINFO|HELP") 0 0 0 0 10 6;
  RedisEnt (lit "XINFO|STREAM") 0 0 0 0 12 6;
  RedisEnt (lit "XINFO|other") 0 0 0 0 11 6].
(** The last entry is the global [other]. *)
Definition redis_tab : list redis_ent := redis_cmds_1 ++ redis_cmds_2 ++ redis_subs ++ [RedisEnt (lit "other") 0 0 0 0 5 0].
Definition redis_ent0 : redis_ent := RedisEnt [] 0 0 0 0 0 0.
