(* ===== verification/NormRedis.v ===== *)
(** Redis command classification, session effects, error names and secret elements,
    [norm/norm_redis.c].

    A borrowed element [(p, n)] is a [lk_redis_arg]: its bytes and where they start in
    the body they were read from ([ra_at], the pointer, which only the mask uses).  The
    array with its count is a list.  A pointer into a static table is the text it points
    at.  XXH3 is vendored code, the parameter of [lk_redis_cmd_fp].

    The classifier's binary searches find what a linear scan of the tables would, and
    what follows for labels, error names and masks. *)
From Stdlib Require Import Ascii String.
From stdpp Require Import base list option.
From stdpp Require Import base list list_numbers option.
From S2P Require Import Prelude Conn Proto NormRedisTab.
#[local] Open Scope Z_scope.

Definition LK_REDIS_ARGV_MAX := 16.
Definition LK_REDIS_ARGV_LABELS := 5.
Definition LK_REDIS_NAME_MAX := 32.
Definition LK_REDIS_USER_MAX := 64.
Definition LK_REDIS_MAX_DB := 1024.
Definition LK_REDIS_DB_UNKNOWN := 65535.
Record lk_redis_arg := Arg { ra_at : Z; ra_s : list Z }.
Definition ra_n (t : lk_redis_arg) : Z := zlen (ra_s t).
Abbreviation argv := (list lk_redis_arg).
(** [v->a[i]]; [i < v->n] at every use. *)
Definition arg_at (v : argv) (i : Z) : lk_redis_arg := nth (Z.to_nat i) v (Arg 0 []).

Definition REDIS_NENT : Z := zlen redis_tab.
Definition REDIS_OTHER : Z := REDIS_NENT - 1.
Definition ent (id : Z) : redis_ent := nth (Z.to_nat id) redis_tab redis_ent0.

(** ** The lookup *)
Definition to_upper (c : Z) : Z := if (ch "a" <=? c) && (c <=? ch "z") then c - ch "a" + ch "A" else c.
Definition to_lower (c : Z) : Z := if (ch "A" <=? c) && (c <=? ch "Z") then c - ch "A" + ch "a" else c.
Definition upper (t : lk_redis_arg) : option (list Z) :=
  if (ra_n t =? 0) || (LK_REDIS_NAME_MAX <=? ra_n t) then None else Some (map to_upper (ra_s t)).
(** The loop over the element and the literal up to its terminator. *)
Fixpoint lit_is (s l : list Z) : bool :=
  match s, l with
  | c :: s, e :: l => if negb (to_lower c =? e) then false else lit_is s l
  | [], [] => true
  | _, _ => false
  end.
Definition arg_is (t : lk_redis_arg) (l : string) : bool := lit_is (ra_s t) (lit l).

(** [memcmp] of two blocks of one length: the sign of the first difference. *)
Fixpoint memcmp (a b : list Z) : Z :=
  match a, b with
  | x :: a, y :: b => if x =? y then memcmp a b else x - y
  | _, _ => 0
  end.
(** [memcmp] of the common length, then the shorter one first. *)
Definition name_cmp (name key : list Z) (en : Z) : Z :=
  let n := zlen key in
  let m := if en <? n then en else n in
  let r := memcmp (ztake m name) (ztake m key) in
  if negb (r =? 0) then r else if en <? n then -1 else if n <? en then 1 else 0.
Definition ent_cmp (e : redis_ent) (key : list Z) : Z :=
  name_cmp (zdrop (re_key_off e) (re_name e)) key (re_name_len e - re_key_off e).
(** Binary search in [l, r): the index of a match.  [w] is the index type's width. *)
Fixpoint bsearch (w : Z -> Z) (cmp : Z -> Z) (fuel : nat) (l r : Z) : option Z :=
  match fuel with
  | O => None
  | S fuel =>
      if r <=? l then None
      else
        let mid := w (l + (r - l) / 2) in
        let c := cmp mid in
        if c =? 0 then Some mid else if c <? 0 then bsearch w cmp fuel (w (mid + 1)) r else bsearch w cmp fuel l mid
  end.
Definition ent_find (lo n : Z) (key : list Z) : Z :=
  match bsearch u16 (fun i => ent_cmp (ent i) key) (S (Z.to_nat n)) lo (u16 (lo + n)) with
  | Some i => i
  | None => u16 (lo + n)
  end.

Definition lk_redis_cmd (v : argv) : Z :=
  match v with
  | [] => REDIS_OTHER
  | a0 :: rest =>
      match upper a0 with
      | None => REDIS_OTHER
      | Some key =>
          let id := ent_find 0 LK_REDIS_NCMD key in
          if LK_REDIS_NCMD <=? id then REDIS_OTHER
          else if negb (has_flag (re_flags (ent id)) LK_REDIS_C_CONTAINER) then id
          else match rest with
          | [] => id
          | a1 :: _ =>
              match upper a1 with
              | None => id
              | Some key =>
                  let first := re_sub_first (ent id) in
                  let n := re_sub_n (ent id) in
                  let sub := ent_find first n key in
                  if first + n <=? sub then re_sub_other (ent id) else sub
              end
          end
      end
  end.
Definition cmd_ent (id : Z) : redis_ent := ent (if id <? REDIS_NENT then id else REDIS_OTHER).
Definition lk_redis_cmd_name (id : Z) : list Z := ztake (re_name_len (cmd_ent id)) (re_name (cmd_ent id)).
Definition lk_redis_cmd_flags (id : Z) : Z := if id <? REDIS_NENT then re_flags (ent id) else 0.
Fixpoint block_kw (v : argv) : bool :=
  match v with
  | [] => false
  | t :: v => if arg_is t "streams" then false else if arg_is t "block" then true else block_kw v
  end.
Definition lk_redis_cmd_blocking (id : Z) (v : argv) : bool :=
  let flags := lk_redis_cmd_flags id in
  if negb (has_flag flags LK_REDIS_C_BLOCKING) then false
  else if negb (has_flag flags LK_REDIS_C_ARGBLOCK) then true
  else block_kw (tail v).
Definition lk_redis_cmd_fp (XXH3 : list Z -> Z) (id : Z) : Z := XXH3 (lk_redis_cmd_name id).
Definition lk_redis_cmd_other : Z := REDIS_OTHER.
Definition lk_redis_cmd_count : Z := REDIS_NENT.

(** ** The session *)
Fixpoint db_digits (v : Z) (s : list Z) : option Z :=
  match s with
  | [] => Some v
  | b :: s => if (b <? ch "0") || (ch "9" <? b) then None else db_digits (v * 10 + (b - ch "0")) s
  end.
Definition parse_db (t : lk_redis_arg) : Z :=
  if (ra_n t =? 0) || (5 <? ra_n t) then LK_REDIS_DB_UNKNOWN
  else match db_digits 0 (ra_s t) with
       | Some v => if v <=? LK_REDIS_MAX_DB then v else LK_REDIS_DB_UNKNOWN
       | None => LK_REDIS_DB_UNKNOWN
       end.
(** The four-byte comparison, either case of each letter. *)
Definition is_auth_word (t : lk_redis_arg) : bool :=
  (ra_n t =? 4) && ((znth (ra_s t) 0 =? ch "A") || (znth (ra_s t) 0 =? ch "a")) && ((znth (ra_s t) 1 =? ch "U") || (znth (ra_s t) 1 =? ch "u")) &&
  ((znth (ra_s t) 2 =? ch "T") || (znth (ra_s t) 2 =? ch "t")) && ((znth (ra_s t) 3 =? ch "H") || (znth (ra_s t) 3 =? ch "h")).
Fixpoint auth_from (fuel : nat) (i : Z) (v : argv) : Z :=
  match fuel with
  | O => 0
  | S fuel => if i + 2 <? zlen v then if is_auth_word (arg_at v i) then i else auth_from fuel (i + 1) v else 0
  end.
Definition hello_auth (v : argv) : Z := auth_from (length v) 1 v.

Inductive lk_redis_sess := LK_REDIS_SESS_NONE | LK_REDIS_SESS_DB | LK_REDIS_SESS_USER | LK_REDIS_SESS_RESET.
(** The verdict with the two out-parameters. *)
Definition lk_redis_session (id : Z) (v : argv) : lk_redis_sess * Z * option lk_redis_arg :=
  let flags := lk_redis_cmd_flags id in
  if has_flag flags LK_REDIS_C_SELECT then
    (LK_REDIS_SESS_DB, if 1 <? zlen v then parse_db (arg_at v 1) else LK_REDIS_DB_UNKNOWN, None)
  else if has_flag flags LK_REDIS_C_RESET then (LK_REDIS_SESS_RESET, LK_REDIS_DB_UNKNOWN, None)
  else if has_flag flags LK_REDIS_C_AUTH then
    (LK_REDIS_SESS_USER, LK_REDIS_DB_UNKNOWN, if 2 <? zlen v then Some (arg_at v 1) else None)
  else if has_flag flags LK_REDIS_C_HELLO then
    let i := hello_auth v in
    if i =? 0 then (LK_REDIS_SESS_NONE, LK_REDIS_DB_UNKNOWN, None)
    else (LK_REDIS_SESS_USER, LK_REDIS_DB_UNKNOWN, Some (arg_at v (i + 1)))
  else (LK_REDIS_SESS_NONE, LK_REDIS_DB_UNKNOWN, None).
Definition lk_redis_user_valid (s : list Z) : bool :=
  if (zlen s =? 0) || (LK_REDIS_USER_MAX <=? zlen s) then false
  else forallb (fun c => negb ((c <=? 32) || (126 <? c) || (c =? 34) || (c =? 92))) s.

(** ** The error's name *)
Definition LK_REDIS_RD_NONE := 0.
Definition LK_REDIS_RD_MOVED := 1.
Definition LK_REDIS_RD_ASK := 2.
Definition redis_errs : list (list Z * Z * Z) := [
  (lit "ASK", 3, LK_REDIS_RD_ASK); (lit "BUSY", 4, 0); (lit "BUSYGROUP", 9, 0); (lit "CLUSTERDOWN", 11, 0); (lit "CROSSSLOT", 9, 0);
  (lit "ERR", 3, 0); (lit "EXECABORT", 9, 0); (lit "LOADING", 7, 0); (lit "MASTERDOWN", 10, 0); (lit "MISCONF", 7, 0);
  (lit "MOVED", 5, LK_REDIS_RD_MOVED); (lit "NOAUTH", 6, 0); (lit "NOGOODSLAVE", 11, 0); (lit "NOPERM", 6, 0); (lit "NOPROTO", 7, 0);
  (lit "NOREPLICAS", 10, 0); (lit "NOSCRIPT", 8, 0); (lit "NOTBUSY", 7, 0); (lit "OOM", 3, 0); (lit "READONLY", 8, 0);
  (lit "TRYAGAIN", 8, 0); (lit "UNBLOCKED", 9, 0); (lit "WRONGPASS", 9, 0); (lit "WRONGTYPE", 9, 0); (lit "other", 5, 0)].
Definition REDIS_NERR : Z := zlen redis_errs.
Definition err_ent (i : Z) : list Z * Z * Z := nth (Z.to_nat i) redis_errs ([], 0, 0).
Definition err_name (i : Z) : list Z := (err_ent i).1.1.
Definition err_len (i : Z) : Z := (err_ent i).1.2.
(** The name and the redirect. *)
Definition lk_redis_err (p : list Z) : list Z * Z :=
  let other := (err_name (REDIS_NERR - 1), LK_REDIS_RD_NONE) in
  if zlen p =? 0 then other
  else match bsearch u32 (fun i => name_cmp (err_name i) p (err_len i)) (S (Z.to_nat REDIS_NERR)) 0 (REDIS_NERR - 1) with
       | Some i => (ztake (err_len i) (err_name i), (err_ent i).2)
       | None => other
       end.
Definition lk_redis_err_count : Z := REDIS_NERR.
Definition lk_redis_err_at (i : Z) : list Z := err_name (if i <? REDIS_NERR then i else REDIS_NERR - 1).

(** ** Masking *)
Definition param_is_secret (t : lk_redis_arg) : bool :=
  arg_is t "requirepass" || arg_is t "masterauth" || arg_is t "primaryauth" || arg_is t "masteruser" ||
  arg_is t "tls-key-file-pass" || arg_is t "tls-client-key-file-pass".
Definition is_rule_secret (t : lk_redis_arg) : bool :=
  negb (ra_n t =? 0) && existsb (Z.eqb (znth (ra_s t) 0)) [ch ">"; ch "<"; ch "#"; ch "!"].
(** [for (i = from; i + look < n; i += step) if (f i) mask |= bits << (i + look)] *)
Fixpoint mask_walk (f : Z -> Z) (step : Z) (last : Z) (fuel : nat) (i mask : Z) : Z :=
  match fuel with
  | O => mask
  | S fuel => if i <? last then mask_walk f step last fuel (i + step) (Z.lor mask (f i)) else mask
  end.
Definition lk_redis_secret_mask (id : Z) (v : argv) : Z :=
  let flags := lk_redis_cmd_flags id in
  let n := zlen v in
  let walk f step last i := mask_walk f step last (length v) i 0 in
  if n =? 0 then 0
  else if has_flag flags LK_REDIS_C_SEC_RULE then
    walk (fun i => if is_rule_secret (arg_at v i) then Z.shiftl 1 i else 0) 1 n 2
  else if has_flag flags LK_REDIS_C_SEC_PARAM then
    walk (fun i => if param_is_secret (arg_at v i) then Z.shiftl 1 (i + 1) else 0) 2 (n - 1) 2
  else if has_flag flags LK_REDIS_C_SEC_KW then
    walk (fun i => if arg_is (arg_at v i) "auth" && (i + 1 <? n) then Z.shiftl 1 (i + 1)
                   else if arg_is (arg_at v i) "auth2" && (i + 2 <? n) then Z.shiftl 3 (i + 1) else 0) 1 n 1
  else if has_flag flags LK_REDIS_C_AUTH then walk (fun i => Z.shiftl 1 i) 1 n 1
  else if has_flag flags LK_REDIS_C_HELLO then
    let i := hello_auth v in if i =? 0 then 0 else Z.shiftl 1 (i + 2)
  else 0.

Implicit Types (v : argv) (key name : list Z).

(** ** The order of [LC_ALL=C sort] *)
Fixpoint lex (a b : list Z) : comparison :=
  match a, b with
  | [], [] => Eq
  | [], _ => Lt
  | _, [] => Gt
  | x :: a, y :: b => match x ?= y with Eq => lex a b | o => o end
  end.
Lemma lex_refl a : lex a a = Eq.
Proof. induction a; cbn; [done|]. by rewrite Z.compare_refl. Qed.
Lemma lex_eq a : forall b, lex a b = Eq -> a = b.
Proof. induction a as [|x a IH]; intros [|y b] H; try done. cbn in H. destruct (Z.compare_spec x y); try done. subst. f_equal. by apply IH. Qed.
Lemma lex_lt_trans a : forall b c, lex a b = Lt -> lex b c = Lt -> lex a c = Lt.
Proof.
  induction a as [|x a IH]; intros [|y b] [|z c] H1 H2; try done. cbn in *. destruct (Z.compare_spec x y), (Z.compare_spec y z); try done; subst.
  - rewrite Z.compare_refl. by eapply IH.
  - by rewrite (proj2 (Z.compare_lt_iff y z)).
  - by rewrite (proj2 (Z.compare_lt_iff x z)).
  - rewrite (proj2 (Z.compare_lt_iff x z)); [done|lia].
Qed.
Lemma lex_antisym a : forall b, lex b a = CompOpp (lex a b).
Proof. induction a as [|x a IH]; intros [|y b]; try done. cbn. rewrite (Z.compare_antisym x y). destruct (x ?= y); cbn; [apply IH|done|done]. Qed.

Lemma memcmp_lex name : forall key, let r := memcmp (ztake (Z.min (zlen name) (zlen key)) name) (ztake (Z.min (zlen name) (zlen key)) key) in
  lex name key = (if r =? 0 then zlen name ?= zlen key else if r <? 0 then Lt else Gt).
Proof.
  induction name as [|x name IH]; intros [|y key]; cbn zeta.
  - done.
  - rewrite zlen_cons. change (zlen []) with 0. pose proof (zlen_nonneg key). replace (Z.min 0 (zlen key + 1)) with 0 by lia. rewrite !ztake_0 by lia. cbn [lex memcmp Z.eqb]. by destruct (Z.compare_spec 0 (zlen key + 1)); lia || done.
  - rewrite zlen_cons. change (zlen []) with 0. pose proof (zlen_nonneg name). replace (Z.min (zlen name + 1) 0) with 0 by lia. rewrite !ztake_0 by lia. cbn [lex memcmp Z.eqb]. by destruct (Z.compare_spec (zlen name + 1) 0); lia || done.
  - rewrite !zlen_cons. pose proof (zlen_nonneg name). pose proof (zlen_nonneg key). replace (Z.min (zlen name + 1) (zlen key + 1)) with (Z.min (zlen name) (zlen key) + 1) by lia.
    rewrite !ztake_cons by lia. cbn [lex memcmp]. rewrite !Z.add_simpl_r. destruct (Z.compare_spec x y) as [->|Hl|Hl].
    + rewrite Z.eqb_refl, IH. cbn zeta. destruct (_ =? 0); [|done]. by (destruct (Z.compare_spec (zlen name) (zlen key)), (Z.compare_spec (zlen name + 1) (zlen key + 1)); lia || done).
    + destruct (Z.eqb_spec x y); [lia|]. destruct (Z.eqb_spec (x - y) 0); [lia|]. destruct (Z.ltb_spec (x - y) 0); [done|lia].
    + destruct (Z.eqb_spec x y); [lia|]. destruct (Z.eqb_spec (x - y) 0); [lia|]. destruct (Z.ltb_spec (x - y) 0); [lia|done].
Qed.
(** The sign of a comparison. *)
Definition sign (c : Z) : comparison := c ?= 0.
Lemma name_cmp_lex name key : sign (name_cmp name key (zlen name)) = lex name key.
Proof.
  rewrite memcmp_lex. cbn zeta. unfold name_cmp. replace (if zlen name <? zlen key then zlen name else zlen key) with (Z.min (zlen name) (zlen key)) by (destruct (Z.ltb_spec (zlen name) (zlen key)); lia).
  set (r := memcmp _ _). unfold sign. destruct (Z.eqb_spec r 0) as [|Hr]; cbn [negb].
  - destruct (Z.ltb_spec (zlen name) (zlen key)), (Z.compare_spec (zlen name) (zlen key)); try lia; try done; destruct (Z.ltb_spec (zlen key) (zlen name)); lia || done.
  - destruct (Z.ltb_spec r 0), (Z.compare_spec r 0); lia || done.
Qed.

(** ** Binary search *)
Section Search.
Context (w : Z -> Z) (nm : Z -> list Z) (key : list Z) (cmp : Z -> Z).
Context (Hc : forall i, sign (cmp i) = lex (nm i) key).
(** Strictly increasing on a range that fits the index type. *)
Definition sorted_in (lo hi : Z) : Prop := forall i j, lo <= i < j -> j < hi -> lex (nm i) (nm j) = Lt.
Lemma bsearch_spec fuel : forall l r, (forall x, 0 <= x <= r -> w x = x) -> 0 <= l -> r - l < Z.of_nat fuel -> sorted_in l r ->
  match bsearch w cmp fuel l r with
  | Some i => l <= i < r /\ nm i = key
  | None => forall i, l <= i < r -> nm i <> key
  end.
Proof.
  induction fuel as [|fuel IH]; intros l r Hw Hl Hf Hs; cbn [bsearch]; [intros i Hi; lia|]. destruct (Z.leb_spec r l) as [|Hlr]; [intros i Hi; lia|].
  assert (l <= l + (r - l) / 2 < r) as Hm by (pose proof (Z.div_pos (r - l) 2); pose proof (Z.div_lt (r - l) 2); lia). rewrite Hw by lia. set (mid := l + (r - l) / 2) in *.
  pose proof (Hc mid) as Hcm. unfold sign in Hcm. destruct (Z.eqb_spec (cmp mid) 0) as [E|E].
  { rewrite E in Hcm. split; [lia|]. by apply lex_eq. }
  destruct (Z.ltb_spec (cmp mid) 0) as [Hlt|Hge].
  - rewrite (proj2 (Z.compare_lt_iff (cmp mid) 0)) in Hcm by done. rewrite Hw by lia. specialize (IH (mid + 1) r Hw ltac:(lia) ltac:(lia) ltac:(intros i j ? ?; apply Hs; lia)).
    destruct (bsearch _ _ _ _ _); [split; [lia|tauto]|]. intros i Hi Ei. destruct (Z.le_gt_cases i mid); [|by apply (IH i); [lia|]]. destruct (Z.eq_dec i mid) as [->|].
    + rewrite Ei, lex_refl in Hcm. done.
    + pose proof (Hs i mid ltac:(lia) ltac:(lia)) as H1. rewrite Ei in H1. rewrite lex_antisym, H1 in Hcm. done.
  - rewrite (proj2 (Z.compare_gt_iff (cmp mid) 0)) in Hcm by lia. specialize (IH l mid ltac:(intros; apply Hw; lia) Hl ltac:(lia) ltac:(intros i j ? ?; apply Hs; lia)).
    destruct (bsearch _ _ _ _ _); [split; [lia|tauto]|]. intros i Hi Ei. destruct (Z.lt_ge_cases i mid); [by apply (IH i); [lia|]|]. destruct (Z.eq_dec i mid) as [->|].
    + rewrite Ei, lex_refl in Hcm. done.
    + pose proof (Hs mid i ltac:(lia) ltac:(lia)) as H1. rewrite Ei in H1. rewrite H1 in Hcm. done.
Qed.
End Search.

(** ** The tables are what the searches need *)
Definition ent_key (i : Z) : list Z := zdrop (re_key_off (ent i)) (re_name (ent i)).
Definition is_container (i : Z) : bool := has_flag (re_flags (ent i)) LK_REDIS_C_CONTAINER.
Definition range (lo hi : Z) : list Z := seqZ lo (hi - lo).
Lemma range_forall (f : Z -> bool) lo hi : forallb f (range lo hi) = true -> forall i, lo <= i < hi -> f i = true.
Proof. intros H i Hi. rewrite forallb_forall in H. apply H, list_elem_of_In, elem_of_seqZ. lia. Qed.
Definition adjacent (nm : Z -> list Z) (lo hi : Z) : bool := forallb (fun i => match lex (nm i) (nm (i + 1)) with Lt => true | _ => false end) (range lo (hi - 1)).
Lemma adjacent_sorted nm lo hi : adjacent nm lo hi = true -> sorted_in nm lo hi.
Proof.
  intros H i j Hi. pose proof (range_forall _ _ _ H) as Ha. cbv beta in Ha. replace j with (i + 1 + Z.of_nat (Z.to_nat (j - i - 1))) by lia. generalize (Z.to_nat (j - i - 1)) as n.
  induction n as [|n IH]; intros Hj.
  - rewrite Z.add_0_r in *. specialize (Ha i ltac:(lia)). by destruct (lex (nm i) (nm (i + 1))).
  - eapply lex_lt_trans; [apply IH; lia|]. specialize (Ha (i + 1 + Z.of_nat n) ltac:(lia)). replace (i + 1 + Z.of_nat (S n)) with (i + 1 + Z.of_nat n + 1) by lia. by destruct (lex _ _).
Qed.
(** Lengths, offsets and order; each container's group holds its subcommands. *)
Definition ent_ok (i : Z) : bool :=
  let e := ent i in (re_name_len e =? zlen (re_name e)) && (0 <=? re_key_off e) && (re_key_off e <=? re_name_len e) && (zlen (re_name e) <? LK_REDIS_NAME_MAX).
Definition group_ok (i : Z) : bool :=
  let e := ent i in
  let '(lo, hi) := (re_sub_first e, re_sub_first e + re_sub_n e) in
  if is_container i then
    (LK_REDIS_NCMD <=? lo) && (0 <=? re_sub_n e) && (hi <=? re_sub_other e) && (re_sub_other e <? REDIS_OTHER) && adjacent ent_key lo hi &&
    forallb (fun j => bool_decide (re_name (ent j) = re_name e ++ lit "|" ++ ent_key j)) (range lo hi) &&
    bool_decide (re_name (ent (re_sub_other e)) = re_name e ++ lit "|other") &&
    forallb (fun j => negb (bool_decide (ztake (zlen (re_name e) + 1) (re_name (ent j)) = re_name e ++ lit "|")) || ((lo <=? j) && (j <? hi)) || (j =? re_sub_other e))
      (range LK_REDIS_NCMD REDIS_OTHER)
  else true.
Lemma table_ok : forallb ent_ok (range 0 REDIS_NENT) && adjacent ent_key 0 LK_REDIS_NCMD && forallb (fun i => re_key_off (ent i) =? 0) (range 0 LK_REDIS_NCMD) &&
  forallb group_ok (range 0 LK_REDIS_NCMD) = true.
Proof. vm_compute. reflexivity. Qed.
Lemma ent_wf i : re_name_len (ent i) = zlen (re_name (ent i)) /\ 0 <= re_key_off (ent i) <= re_name_len (ent i) /\ zlen (re_name (ent i)) < LK_REDIS_NAME_MAX.
Proof.
  pose proof table_ok as H. do 3 apply andb_true_iff in H as [H _]. pose proof (range_forall _ _ _ H) as Ha.
  assert (ent_ok i = true) as Hi.
  { destruct (Z.le_gt_cases REDIS_NENT i) as [Hi|Hi]; [|destruct (Z.lt_ge_cases i 0)].
    - unfold ent_ok. assert (ent i = redis_ent0) as -> by (apply nth_overflow; unfold REDIS_NENT, zlen in Hi; lia). reflexivity.
    - assert (ent i = ent 0) as E by (unfold ent; by replace (Z.to_nat i) with (Z.to_nat 0) by lia). unfold ent_ok. rewrite E. apply (Ha 0). clear. vm_compute. done.
    - apply Ha. lia. }
  unfold ent_ok in Hi. apply andb_true_iff in Hi as [Hi H4]. apply andb_true_iff in Hi as [Hi H3]. apply andb_true_iff in Hi as [H1 H2]. lia.
Qed.
Lemma ent_cmp_lex i key : sign (ent_cmp (ent i) key) = lex (ent_key i) key.
Proof. destruct (ent_wf i) as (H1 & H2 & _). unfold ent_cmp. rewrite <- name_cmp_lex. unfold ent_key. do 2 f_equal. rewrite zlen_zdrop by lia. lia. Qed.
Lemma ent_find_spec lo n key : 0 <= lo -> 0 <= n -> lo + n < 2 ^ 16 -> sorted_in ent_key lo (lo + n) ->
  (lo <= ent_find lo n key < lo + n /\ ent_key (ent_find lo n key) = key) \/ (ent_find lo n key = lo + n /\ forall i, lo <= i < lo + n -> ent_key i <> key).
Proof.
  intros Hl Hn Hw Hs. unfold ent_find. assert (forall x, 0 <= x <= lo + n -> u16 x = x) as Hu by (intros; unfold u16; apply Z.mod_small; lia). rewrite (Hu (lo + n)) by lia.
  pose proof (bsearch_spec u16 ent_key key (fun i => ent_cmp (ent i) key) (fun i => ent_cmp_lex i key) (S (Z.to_nat n)) lo (lo + n) Hu Hl ltac:(lia) Hs) as H.
  destruct (bsearch _ _ _ _ _); [by left|by right].
Qed.
Lemma cmds_sorted : sorted_in ent_key 0 (0 + LK_REDIS_NCMD).
Proof. apply adjacent_sorted. vm_compute. reflexivity. Qed.
Lemma cmd_key i : 0 <= i < LK_REDIS_NCMD -> ent_key i = re_name (ent i).
Proof.
  intros Hi. assert (re_key_off (ent i) = 0) as E; [|unfold ent_key; by rewrite E].
  apply Z.eqb_eq. revert i Hi. apply range_forall. vm_compute. reflexivity.
Qed.
Record group (i : Z) : Prop := Group {
  gr_lo : LK_REDIS_NCMD <= re_sub_first (ent i); gr_n : 0 <= re_sub_n (ent i); gr_hi : re_sub_first (ent i) + re_sub_n (ent i) <= re_sub_other (ent i);
  gr_other : re_sub_other (ent i) < REDIS_OTHER; gr_sorted : sorted_in ent_key (re_sub_first (ent i)) (re_sub_first (ent i) + re_sub_n (ent i));
  gr_names : forall j, re_sub_first (ent i) <= j < re_sub_first (ent i) + re_sub_n (ent i) -> re_name (ent j) = re_name (ent i) ++ lit "|" ++ ent_key j;
  gr_other_name : re_name (ent (re_sub_other (ent i))) = re_name (ent i) ++ lit "|other";
  gr_all : forall j k, LK_REDIS_NCMD <= j < REDIS_OTHER -> re_name (ent j) = re_name (ent i) ++ lit "|" ++ k ->
    re_sub_first (ent i) <= j < re_sub_first (ent i) + re_sub_n (ent i) \/ j = re_sub_other (ent i) }.
Lemma container_group i : 0 <= i < LK_REDIS_NCMD -> is_container i = true -> group i.
Proof.
  intros Hi Hc. pose proof table_ok as H. apply andb_true_iff in H as [_ H]. pose proof (range_forall _ _ _ H i Hi) as Hg. unfold group_ok in Hg. rewrite Hc in Hg. cbn zeta in Hg.
  repeat match goal with E : _ && _ = true |- _ => apply andb_true_iff in E as [E ?] end. split; try lia.
  - by apply adjacent_sorted.
  - intros j Hj. match goal with E : forallb _ (range (re_sub_first _) _) = true |- _ => pose proof (range_forall _ _ _ E j Hj) as E' end. by apply bool_decide_eq_true in E'.
  - match goal with E : bool_decide _ = true |- _ => by apply bool_decide_eq_true in E end.
  - intros j k Hj Ej. match goal with E : forallb _ (range LK_REDIS_NCMD _) = true |- _ => pose proof (range_forall _ _ _ E j Hj) as E' end. cbv beta in E'.
    apply orb_true_iff in E' as [E'|]; [|right; lia]. apply orb_true_iff in E' as [E'|E']; [|left; lia]. exfalso. apply negb_true_iff, bool_decide_eq_false in E'. apply E'.
    rewrite Ej, app_assoc, ztake_app_le; [|rewrite zlen_app; change (zlen (lit "|")) with 1; lia]. apply ztake_all. rewrite zlen_app. change (zlen (lit "|")) with 1. lia.
Qed.

(** ** The label of a command *)
Definition cmd_names : list (list Z) := map re_name (redis_cmds_1 ++ redis_cmds_2).
Definition container_names : list (list Z) := map re_name (filter (fun e => has_flag (re_flags e) LK_REDIS_C_CONTAINER = true) (redis_cmds_1 ++ redis_cmds_2)).
Definition sub_names : list (list Z) := map re_name redis_subs.
Definition named (k : list Z) (names : list (list Z)) : bool := bool_decide (k ∈ names).
(** What a scan of the table's names gives: the command, [other] when the table does not
    have it, and for a container the subcommand's entry or the container's [other]. *)
Definition label_of (args : list (list Z)) : list Z :=
  match args with
  | [] => lit "other"
  | a0 :: rest =>
      let k := map to_upper a0 in
      if negb (named k cmd_names) then lit "other"
      else if negb (named k container_names) then k
      else match rest with
      | [] => k
      | a1 :: _ => let full := k ++ lit "|" ++ map to_upper a1 in if named full sub_names then full else k ++ lit "|other"
      end
  end.
(** A container's subcommand is neither empty nor longer than the key buffer. *)
Definition sub_fits (args : list (list Z)) : bool :=
  match args with
  | a0 :: a1 :: _ => negb (named (map to_upper a0) container_names) || (1 <=? zlen a1) && (zlen a1 <? LK_REDIS_NAME_MAX)
  | _ => true
  end.
(** The code also leaves a container its own name when its subcommand does not fit. *)
Definition code_label (args : list (list Z)) : list Z :=
  match args with
  | [] => lit "other"
  | a0 :: rest =>
      let k := map to_upper a0 in
      if negb (named k cmd_names) then lit "other"
      else if negb (named k container_names) then k
      else match rest with
      | [] => k
      | a1 :: _ =>
          if (zlen a1 =? 0) || (LK_REDIS_NAME_MAX <=? zlen a1) then k
          else let full := k ++ lit "|" ++ map to_upper a1 in if named full sub_names then full else k ++ lit "|other"
      end
  end.
Definition redis_cmds : list redis_ent := redis_cmds_1 ++ redis_cmds_2.
Lemma cmds_len : zlen redis_cmds = LK_REDIS_NCMD.
Proof. vm_compute. reflexivity. Qed.
Lemma subs_len : zlen redis_subs = LK_REDIS_NSUB.
Proof. vm_compute. reflexivity. Qed.
Lemma nent_val : REDIS_NENT = 395.
Proof. vm_compute. reflexivity. Qed.
Lemma ent_cmd i : 0 <= i < LK_REDIS_NCMD -> redis_cmds !! Z.to_nat i = Some (ent i).
Proof.
  intros Hi. pose proof cmds_len as E. unfold zlen in E. destruct (lookup_lt_is_Some_2 redis_cmds (Z.to_nat i)) as [e He]; [lia|]. rewrite He. f_equal. symmetry. unfold ent. apply nth_lookup_Some.
  unfold redis_tab. rewrite app_assoc. by apply lookup_app_l_Some.
Qed.
Lemma ent_sub i : LK_REDIS_NCMD <= i < REDIS_OTHER -> redis_subs !! Z.to_nat (i - LK_REDIS_NCMD) = Some (ent i).
Proof.
  intros Hi. pose proof cmds_len as E. pose proof subs_len as E'. unfold zlen in E, E'. unfold REDIS_OTHER in Hi. rewrite nent_val in Hi. change LK_REDIS_NSUB with 144 in *. change LK_REDIS_NCMD with 250 in *.
  destruct (lookup_lt_is_Some_2 redis_subs (Z.to_nat (i - 250))) as [e He]; [lia|]. rewrite He. f_equal. symmetry. unfold ent. apply nth_lookup_Some.
  unfold redis_tab. rewrite app_assoc. rewrite lookup_app_r by (change (redis_cmds_1 ++ redis_cmds_2) with redis_cmds; lia). change (redis_cmds_1 ++ redis_cmds_2) with redis_cmds.
  apply lookup_app_l_Some. rewrite <- He. f_equal. lia.
Qed.
Lemma named_spec (k : list Z) names : named k names = true <-> k ∈ names.
Proof. apply bool_decide_eq_true. Qed.
Lemma cmd_named k : k ∈ cmd_names <-> exists i, 0 <= i < LK_REDIS_NCMD /\ re_name (ent i) = k.
Proof.
  unfold cmd_names. fold redis_cmds. rewrite list_elem_of_fmap. split.
  - intros (e & -> & He). apply list_elem_of_lookup in He as [i Hi]. pose proof (lookup_lt_Some _ _ _ Hi). pose proof cmds_len as E. unfold zlen in E. exists (Z.of_nat i). split; [lia|].
    pose proof (ent_cmd (Z.of_nat i) ltac:(lia)) as H1. rewrite Nat2Z.id, Hi in H1. by injection H1 as <-.
  - intros (i & Hi & <-). exists (ent i). split; [done|]. eapply list_elem_of_lookup_2. by apply ent_cmd.
Qed.
Lemma sub_named k : k ∈ sub_names <-> exists i, LK_REDIS_NCMD <= i < REDIS_OTHER /\ re_name (ent i) = k.
Proof.
  unfold sub_names. rewrite list_elem_of_fmap. split.
  - intros (e & -> & He). apply list_elem_of_lookup in He as [i Hi]. pose proof (lookup_lt_Some _ _ _ Hi). pose proof subs_len as E. unfold zlen in E.
    assert (LK_REDIS_NCMD <= LK_REDIS_NCMD + Z.of_nat i < REDIS_OTHER) as Hr by (unfold REDIS_OTHER; rewrite nent_val; change LK_REDIS_NCMD with 250; change LK_REDIS_NSUB with 144 in E; lia).
    exists (LK_REDIS_NCMD + Z.of_nat i). split; [done|]. pose proof (ent_sub _ Hr) as H1. replace (Z.to_nat (LK_REDIS_NCMD + Z.of_nat i - LK_REDIS_NCMD)) with i in H1 by lia. rewrite Hi in H1. by injection H1 as <-.
  - intros (i & Hi & <-). exists (ent i). split; [done|]. eapply list_elem_of_lookup_2. by apply ent_sub.
Qed.
Lemma cmd_inj i j : 0 <= i < LK_REDIS_NCMD -> 0 <= j < LK_REDIS_NCMD -> re_name (ent i) = re_name (ent j) -> i = j.
Proof.
  intros Hi Hj E. rewrite <- !cmd_key in E by done. destruct (Z.lt_trichotomy i j) as [H|[H|H]]; [|done|]; pose proof cmds_sorted as Hs.
  - pose proof (Hs i j ltac:(lia) ltac:(lia)) as H1. rewrite E, lex_refl in H1. done.
  - pose proof (Hs j i ltac:(lia) ltac:(lia)) as H1. rewrite E, lex_refl in H1. done.
Qed.
Lemma container_named i : 0 <= i < LK_REDIS_NCMD -> named (re_name (ent i)) container_names = is_container i.
Proof.
  intros Hi. unfold named. destruct (is_container i) eqn:E; [apply bool_decide_eq_true|apply bool_decide_eq_false].
  - unfold container_names. apply list_elem_of_fmap. exists (ent i). split; [done|]. apply list_elem_of_filter. split; [done|]. eapply list_elem_of_lookup_2. by apply ent_cmd.
  - unfold container_names. intros H. apply list_elem_of_fmap in H as (e & En & He). apply list_elem_of_filter in He as [Hf He]. apply list_elem_of_lookup in He as [j Hj].
    pose proof (lookup_lt_Some _ _ _ Hj) as Hl. fold redis_cmds in Hj, Hl. pose proof cmds_len as El. unfold zlen in El.
    pose proof (ent_cmd (Z.of_nat j) ltac:(lia)) as H1. rewrite Nat2Z.id, Hj in H1. injection H1 as ->. apply cmd_inj in En; [|done|lia]. subst i. unfold is_container in E. by rewrite Hf in E.
Qed.
Lemma name_of i : i < REDIS_NENT -> lk_redis_cmd_name i = re_name (ent i).
Proof. intros Hi. unfold lk_redis_cmd_name, cmd_ent. destruct (Z.ltb_spec i REDIS_NENT); [|lia]. apply ztake_all. destruct (ent_wf i) as (-> & _). lia. Qed.

Lemma upper_none t : upper t = None -> forall i, re_name (ent i) <> map to_upper (ra_s t) \/ ra_n t = 0.
Proof.
  unfold upper, ra_n. destruct (Z.eqb_spec (zlen (ra_s t)) 0); [by right|]. destruct (Z.leb_spec LK_REDIS_NAME_MAX (zlen (ra_s t))); [|done]. intros _ i. left. intros E.
  destruct (ent_wf i) as (_ & _ & H1). rewrite E in H1. unfold zlen in *. rewrite length_map in H1. lia.
Qed.
Lemma no_empty_cmd : named [] cmd_names = false.
Proof. vm_compute. reflexivity. Qed.
Lemma upper_not_other s : map to_upper s <> lit "other".
Proof.
  destruct s as [|c s]; [done|]. change (lit "other") with (111 :: lit "ther"). cbn [map]. intros [= E _]. revert E. unfold to_upper. change (ch "a") with 97. change (ch "z") with 122. change (ch "A") with 65.
  destruct (Z.leb_spec 97 c), (Z.leb_spec c 122); cbn [andb]; lia.
Qed.
Lemma other_label : lk_redis_cmd_name REDIS_OTHER = lit "other".
Proof. vm_compute. reflexivity. Qed.
(** The subcommand of a container. *)
Lemma sub_label i k : 0 <= i < LK_REDIS_NCMD -> is_container i = true -> k <> lit "other" ->
  let '(first, n) := (re_sub_first (ent i), re_sub_n (ent i)) in
  let sub := if first + n <=? ent_find first n k then re_sub_other (ent i) else ent_find first n k in
  0 <= sub < REDIS_OTHER /\ re_name (ent sub) = (if named (re_name (ent i) ++ lit "|" ++ k) sub_names then re_name (ent i) ++ lit "|" ++ k else re_name (ent i) ++ lit "|other").
Proof.
  intros Hi Hc Hk. destruct (container_group i Hi Hc) as [G1 G2 G3 G4 G5 G6 G7 G8]. cbv zeta. set (first := re_sub_first (ent i)) in *. set (n := re_sub_n (ent i)) in *.
  pose proof nent_val as En. unfold REDIS_OTHER in *. rewrite En in *. change LK_REDIS_NCMD with 250 in *. destruct (ent_find_spec first n k ltac:(lia) G2 ltac:(lia) G5) as [[H1 H2]|[H1 H2]].
  - destruct (Z.leb_spec (first + n) (ent_find first n k)); [lia|]. split; [lia|]. rewrite (G6 _ H1), H2. replace (named _ sub_names) with true; [done|]. symmetry. apply named_spec, sub_named.
    exists (ent_find first n k). unfold REDIS_OTHER. rewrite En. change LK_REDIS_NCMD with 250. split; [lia|]. by rewrite (G6 _ H1), H2.
  - rewrite H1. destruct (Z.leb_spec (first + n) (first + n)); [|lia]. split; [lia|]. replace (named _ sub_names) with false; [done|]. symmetry. apply bool_decide_eq_false. intros Hin. apply sub_named in Hin as (j & Hj & Ej).
    unfold REDIS_OTHER in Hj. rewrite En in Hj. destruct (G8 j k Hj Ej) as [Hr| ->].
    + apply (H2 j Hr). rewrite (G6 j Hr) in Ej. by apply app_inv_head, app_inv_head in Ej.
    + rewrite G7 in Ej. change (lit "|other") with (lit "|" ++ lit "other") in Ej. apply app_inv_head, app_inv_head in Ej. done.
Qed.
Lemma cmd_label v : 0 <= lk_redis_cmd v < REDIS_NENT /\ lk_redis_cmd_name (lk_redis_cmd v) = code_label (map ra_s v).
Proof.
  pose proof nent_val as En. assert (0 <= REDIS_OTHER < REDIS_NENT) as Ho by (unfold REDIS_OTHER; lia). destruct v as [|a0 rest]; [split; [exact Ho|exact other_label]|].
  cbn [lk_redis_cmd map code_label]. set (k := map to_upper (ra_s a0)).
  assert (forall i, 0 <= i < LK_REDIS_NCMD -> re_name (ent i) = k -> named k cmd_names = true) as Hin by (intros i Hi E; apply named_spec, cmd_named; eauto).
  destruct (upper a0) as [key|] eqn:Eu.
  2: { split; [exact Ho|]. replace (named k cmd_names) with false; [exact other_label|]. symmetry. destruct (named k cmd_names) eqn:E; [|done]. pose proof E as E'. apply named_spec, cmd_named in E' as (i & Hi & E').
       destruct (upper_none a0 Eu i) as [H|H]; [by rewrite E' in H|]. assert (k = []) as Ek by (unfold k, ra_n, zlen in *; by destruct (ra_s a0)). by rewrite Ek, no_empty_cmd in E. }
  assert (key = k) as -> by (unfold upper in Eu; destruct (_ || _); [done|by injection Eu as <-]).
  destruct (ent_find_spec 0 LK_REDIS_NCMD k ltac:(done) ltac:(done) ltac:(done) cmds_sorted) as [[H1 H2]|[H1 H2]]; rewrite Z.add_0_l in H1.
  2: { rewrite H1. cbn [Z.leb]. split; [exact Ho|]. replace (named k cmd_names) with false; [exact other_label|]. symmetry. apply bool_decide_eq_false. intros E. apply cmd_named in E as (i & Hi & E). apply (H2 i); [lia|]. by rewrite cmd_key. }
  set (id := ent_find 0 LK_REDIS_NCMD k) in *. rewrite cmd_key in H2 by done. rewrite (Hin id H1 H2). cbn [negb]. destruct (Z.leb_spec LK_REDIS_NCMD id); [lia|].
  rewrite <- H2. rewrite container_named by done. fold (is_container id). assert (0 <= id < REDIS_NENT /\ lk_redis_cmd_name id = re_name (ent id)) as Hid.
  { change LK_REDIS_NCMD with 250 in *. split; [lia|]. apply name_of. lia. }
  destruct (is_container id) eqn:Ec; cbn [negb]; [|exact Hid]. destruct rest as [|a1 rest]; [exact Hid|]. cbn [map]. unfold upper, ra_n. destruct (_ || _); [exact Hid|].
  destruct (sub_label id (map to_upper (ra_s a1)) H1 Ec (upper_not_other _)) as [Hs1 Hs2]. cbv zeta. unfold REDIS_OTHER in Hs1. split; [lia|]. rewrite name_of by lia. exact Hs2.
Qed.

(** ** The name of an error *)
Definition err_symbols : list (list Z) := map (fun e => e.1.1) (take 24 redis_errs).
Definition redirect_of (s : list Z) : Z := if bool_decide (s = lit "MOVED") then LK_REDIS_RD_MOVED else if bool_decide (s = lit "ASK") then LK_REDIS_RD_ASK else LK_REDIS_RD_NONE.
Definition err_ok (i : Z) : bool := (err_len i =? zlen (err_name i)) && ((err_ent i).2 =? redirect_of (err_name i)).
Lemma errs_ok : forallb err_ok (range 0 REDIS_NERR) = true.
Proof. vm_compute. reflexivity. Qed.
Lemma nerr_val : REDIS_NERR = 25.
Proof. vm_compute. reflexivity. Qed.
Lemma err_wf i : err_len i = zlen (err_name i) /\ (err_ent i).2 = redirect_of (err_name i).
Proof.
  assert (err_ok i = true) as Hi.
  { destruct (Z.le_gt_cases REDIS_NERR i) as [Hi|Hi]; [|destruct (Z.lt_ge_cases i 0)].
    - unfold err_ok, err_len, err_name. assert (err_ent i = ([], 0, 0)) as -> by (apply nth_overflow; unfold REDIS_NERR, zlen in Hi; lia). reflexivity.
    - assert (err_ent i = err_ent 0) as E by (unfold err_ent; by replace (Z.to_nat i) with (Z.to_nat 0) by lia). unfold err_ok, err_len, err_name. rewrite E. vm_compute. done.
    - apply (range_forall _ _ _ errs_ok). lia. }
  unfold err_ok in Hi. apply andb_true_iff in Hi as [H1 H2]. lia.
Qed.
Lemma errs_sorted : sorted_in err_name 0 (REDIS_NERR - 1).
Proof. apply adjacent_sorted. vm_compute. reflexivity. Qed.
Lemma err_symbol k : k ∈ err_symbols <-> exists i, 0 <= i < REDIS_NERR - 1 /\ err_name i = k.
Proof.
  rewrite nerr_val. unfold err_symbols. rewrite list_elem_of_fmap. split.
  - intros (e & -> & He). apply list_elem_of_lookup in He as [i Hi]. apply lookup_take_Some in Hi as [Hi Hl]. exists (Z.of_nat i). split; [lia|]. unfold err_name, err_ent. rewrite Nat2Z.id. by rewrite (nth_lookup_Some _ _ _ _ Hi).
  - intros (i & Hi & <-). exists (err_ent i). split; [done|]. pose proof nerr_val as E. unfold REDIS_NERR, zlen in E. destruct (lookup_lt_is_Some_2 redis_errs (Z.to_nat i)) as [e He]; [lia|].
    unfold err_ent. rewrite (nth_lookup_Some _ _ _ _ He). eapply list_elem_of_lookup_2. apply lookup_take_Some. split; [exact He|lia].
Qed.
Lemma err_label p : lk_redis_err p = if named p err_symbols then (p, redirect_of p) else (lit "other", LK_REDIS_RD_NONE).
Proof.
  unfold lk_redis_err. change (err_name (REDIS_NERR - 1)) with (lit "other"). destruct (Z.eqb_spec (zlen p) 0) as [E|E].
  { assert (p = []) as -> by (unfold zlen in E; by destruct p). by vm_compute. }
  pose proof nerr_val as En. assert (forall x, 0 <= x <= REDIS_NERR - 1 -> u32 x = x) as Hu by (intros; unfold u32; apply Z.mod_small; lia).
  pose proof (bsearch_spec u32 err_name p (fun i => name_cmp (err_name i) p (err_len i)) ltac:(intros i; destruct (err_wf i) as [-> _]; apply name_cmp_lex) (S (Z.to_nat REDIS_NERR)) 0 (REDIS_NERR - 1) Hu ltac:(lia) ltac:(lia) errs_sorted) as H.
  destruct (bsearch _ _ _ _ _) as [i|].
  - destruct H as [Hi Ei]. destruct (err_wf i) as [-> ->]. rewrite ztake_all, Ei by lia. replace (named p err_symbols) with true; [done|]. symmetry. apply named_spec, err_symbol. eauto.
  - replace (named p err_symbols) with false; [done|]. symmetry. apply bool_decide_eq_false. intros Hin. apply err_symbol in Hin as (i & Hi & Ei). by apply (H i).
Qed.

(** ** The classifier *)
Lemma code_label_scan args : sub_fits args = true -> code_label args = label_of args.
Proof.
  destruct args as [|a0 [|a1 rest]]; [done..|]. cbn [sub_fits code_label label_of]. intros H. destruct (negb (named _ cmd_names)); [done|].
  destruct (named (map to_upper a0) container_names); [|done]. cbn [negb orb] in H |- *. apply andb_true_iff in H as [H1 H2].
  replace ((zlen a1 =? 0) || (LK_REDIS_NAME_MAX <=? zlen a1)) with false by (symmetry; apply orb_false_iff; lia). done.
Qed.
(** C29: The two-level binary search is the table.  For any captured arguments whose second
    one, when the first names a container, has between 1 and [LK_REDIS_NAME_MAX - 1] bytes,
    the classifier returns an identifier of the table, and its label is the one a linear
    scan gives: the command in upper case if the table has it, [other] if not, and for a
    container command its subcommand's entry or the container's own [other].  Labels are
    shorter than [LK_REDIS_NAME_MAX].  The remaining case is [redis_sub_unfit]. *)
Theorem redis_cmd_exact v : sub_fits (map ra_s v) = true ->
  0 <= lk_redis_cmd v < lk_redis_cmd_count /\ lk_redis_cmd_name (lk_redis_cmd v) = label_of (map ra_s v) /\ zlen (lk_redis_cmd_name (lk_redis_cmd v)) < LK_REDIS_NAME_MAX.
Proof.
  intros H. destruct (cmd_label v) as [Hi Hn]. split; [exact Hi|]. rewrite (code_label_scan _ H) in Hn. split; [exact Hn|]. rewrite name_of by apply Hi. apply ent_wf.
Qed.
(** A container's subcommand that is empty or does not fit the key buffer is dropped: the
    label is the container's, where the header promises the container's [other]. *)
Theorem redis_sub_unfit a0 a1 rest : named (map to_upper (ra_s a0)) container_names = true -> named (map to_upper (ra_s a0)) cmd_names = true ->
  (ra_n a1 =? 0) || (LK_REDIS_NAME_MAX <=? ra_n a1) = true -> lk_redis_cmd_name (lk_redis_cmd (a0 :: a1 :: rest)) = map to_upper (ra_s a0).
Proof. intros H1 H2 H3. destruct (cmd_label (a0 :: a1 :: rest)) as [_ ->]. cbn [map code_label]. unfold ra_n in H3. by rewrite H1, H2, H3. Qed.
Definition w_config : argv := [Arg 0 (lit "config"); Arg 6 (lit "nosuchsub"); Arg 15 (lit "maxmemory")].
Lemma redis_cmd_exact_witness : sub_fits (map ra_s w_config) = true /\ lk_redis_cmd_name (lk_redis_cmd w_config) = lit "CONFIG|other".
Proof.
  assert (sub_fits (map ra_s w_config) = true) as H by (vm_compute; reflexivity). split; [exact H|].
  rewrite (proj1 (proj2 (redis_cmd_exact w_config H))). vm_compute. reflexivity.
Defined.
(** An error's name is the symbol the server sent, if the table has it, with the
    redirect the symbol stands for; any other text, whatever it holds, is [other]. *)
Theorem redis_err_exact p : lk_redis_err p = if named p err_symbols then (p, redirect_of p) else (lit "other", LK_REDIS_RD_NONE).
Proof. apply err_label. Qed.
