(* ===== verification/RedisArgv.v ===== *)
(** Reading the elements of a published value and masking its credentials: the second
    half of [proto/redis/redis_frame.c].

    A body with its capacity is a list; a NULL or empty one is [[]].  The cursor
    [struct redis_rd] is the body and an index.

    The element reader against the grammar, and what the display mask hides. *)
From Stdlib Require Import Ascii String.
From stdpp Require Import base list option.
From S2P Require Import Prelude Conn Reassembly Proto Decimal RedisFrame StreamSafe RedisRefine RedisResp NormRedisTab NormRedis.
#[local] Open Scope Z_scope.

Section Argv.
Implicit Types (p q body : list Z) (i : Z).

(** How far the first CRLF is. *)
Fixpoint crlf_at q : option Z :=
  match q with
  | b :: (b' :: _) as q' => if (b =? 13) && (b' =? 10) then Some 0 else k ← crlf_at q'; Some (k + 1)
  | _ => None
  end.
(** The line at the cursor and the cursor past its terminator. *)
Definition rd_line p i : option (list Z * Z) :=
  k ← crlf_at (zdrop i p); Some (ztake k (zdrop i p), i + k + 2).
Definition rd_elem p i : option (lk_redis_arg * Z) :=
  if zlen p <=? i then None
  else match shape_of (znth p i) with
  | REDIS_V_BULK =>
      '(line, i) ← rd_line p (i + 1);
      v ← redis_parse_i64 line;
      match redis_bulk_len v with
      | None => None
      | Some (payload, null) =>
          if null then None
          else if zlen p - i <? payload then None
          else
            let j := i + payload in
            Some (Arg i (ztake payload (zdrop i p)), if zlen p - j <? 2 then zlen p else j + 2)
      end
  | REDIS_V_LINE => '(line, j) ← rd_line p (i + 1); Some (Arg (i + 1) line, j)
  | _ => None
  end.

(** [while (i < cap && f(p[i])) i++;] *)
Fixpoint span_while (f : Z -> bool) q : Z :=
  match q with b :: q => if f b then span_while f q + 1 else 0 | [] => 0 end.
Definition is_blank (b : Z) : bool := (b =? 32) || (b =? 9).
Definition is_word_byte (b : Z) : bool := negb (b =? 32) && negb (b =? 9) && negb (b =? 13) && negb (b =? 10).
Fixpoint read_inline (max : nat) p i : argv :=
  match max with
  | O => []
  | S max =>
      let start := i + span_while is_blank (zdrop i p) in
      let n := span_while is_word_byte (zdrop start p) in
      if n =? 0 then [] else Arg start (ztake n (zdrop start p)) :: read_inline max p (start + n)
  end.
Fixpoint read_elems (max : nat) p i : argv :=
  match max with
  | O => []
  | S max => match rd_elem p i with Some (t, i) => t :: read_elems max p i | None => [] end
  end.
(** The elements and [*nelem]. *)
Definition redis_read_argv m body (max : Z) : argv * Z :=
  let max := if LK_REDIS_ARGV_MAX <? max then LK_REDIS_ARGV_MAX else max in
  if zlen body =? 0 then ([], -1)
  else if m_type m =? LK_REDIS_MSG_INLINE then (read_inline (Z.to_nat max) body 0, -1)
  else
    let sh := shape_of (u8 (m_type m)) in
    match sh with
    | REDIS_V_AGG | REDIS_V_AGGPAIR =>
        match ('(line, i) ← rd_line body 1; count ← redis_parse_i64 line; elems ← redis_agg_count count (bool_decide (sh = REDIS_V_AGGPAIR)); Some (elems, i)) with
        | None => ([], -1)
        | Some (elems, i) => (read_elems (Z.to_nat (if max <? elems then max else elems)) body i, elems)
        end
    | _ => ([], -1)
    end.

Definition is_word_end (b : Z) : bool := (b =? 32) || (b =? 13) || (b =? 10).
(** The first word of a scalar's text; empty when there is none. *)
Definition redis_read_word m body : list Z :=
  if zlen body =? 0 then []
  else
    let word i :=
      let n := span_while (fun b => negb (is_word_end b)) (zdrop i body) in
      if (zlen body <=? i + n) || (n =? 0) then [] else ztake n (zdrop i body) in
    match shape_of (u8 (m_type m)) with
    | REDIS_V_LINE => word 1
    | REDIS_V_BULK => match rd_line body 1 with Some (_, i) => word i | None => [] end
    | _ => []
    end.

(** ** Masking *)
Definition stars (n : Z) : list Z := replicate (Z.to_nat n) (ch "*").
Definition blank p (s : lk_redis_arg) : list Z :=
  let off := ra_at s in
  if (off <? zlen p) && (ra_n s <=? zlen p - off) then ztake off p ++ stars (ra_n s) ++ zdrop (off + ra_n s) p else p.
Fixpoint blank_each (mask : Z) (i : Z) (v : argv) p : list Z :=
  match v with
  | [] => p
  | s :: v => blank_each mask (i + 1) v (if Z.testbit mask i then blank p s else p)
  end.
Definition redis_mask_body m p : list Z :=
  if zlen p =? 0 then p
  else if negb (m_type m =? REDIS_T_ARRAY) && negb (m_type m =? LK_REDIS_MSG_INLINE) then p
  else
    let '(v, _) := redis_read_argv m p LK_REDIS_ARGV_MAX in
    blank_each (lk_redis_secret_mask (lk_redis_cmd v) v) 0 v p.
(** [lk_msg_body_for_display] of [registry.c] with this hook: a masked copy of what fits. *)
Definition redis_display m (outcap : Z) : list Z :=
  redis_mask_body m (ztake (if outcap <? m_body_cap m then outcap else m_body_cap m) (m_body m)).
End Argv.

Implicit Types (p q s body : list Z) (i : Z) (ps : list (list Z)).

(** A command on the wire: an array of bulk strings. *)
Definition bulk (s : list Z) : resp := RBulk REDIS_T_BULK s.
Definition command ps : resp := RAgg REDIS_T_ARRAY (map bulk ps).
Definition fits (s : list Z) : Prop := zlen s <= LK_REDIS_MAX_BULK.
Definition header (n : Z) : list Z := show n ++ crlf.
Lemma enc_bulk s : enc (bulk s) = (REDIS_T_BULK :: header (zlen s)) ++ s ++ crlf.
Proof. done. Qed.
Lemma zlen_map {A B} (f : A -> B) l : zlen (map f l) = zlen l.
Proof. unfold zlen. by rewrite length_map. Qed.
Lemma enc_command ps : enc (command ps) = (REDIS_T_ARRAY :: header (zlen ps)) ++ concat (map (fun s => enc (bulk s)) ps).
Proof. unfold command. cbn [enc]. unfold agg_header. change (shape_of REDIS_T_ARRAY) with REDIS_V_AGG. rewrite zlen_map, map_map. done. Qed.

(** ** Lines *)
Lemma crlf_at_cons b b' q : crlf_at (b :: b' :: q) = if (b =? 13) && (b' =? 10) then Some 0 else k ← crlf_at (b' :: q); Some (k + 1).
Proof. done. Qed.
Lemma crlf_at_line s q : Forall (fun b => b <> 13) s -> crlf_at (s ++ crlf ++ q) = Some (zlen s).
Proof.
  induction 1 as [|b s Hb Hs IH]; [done|]. cbn [app]. destruct (s ++ crlf ++ q) as [|b' l] eqn:E; [destruct s; done|]. rewrite zlen_cons, crlf_at_cons.
  destruct (Z.eqb_spec b 13); [done|]. cbn [andb]. by rewrite IH.
Qed.
(** A cut line has no end. *)
Lemma crlf_at_cut s k : Forall (fun b => b <> 13) s -> k < zlen s + 2 -> crlf_at (ztake k (s ++ crlf)) = None.
Proof.
  intros Hs. revert k. induction Hs as [|b s Hb Hs IH]; intros k Hk.
  - change (zlen []) with 0 in Hk. destruct (Z.le_gt_cases k 0); [by rewrite ztake_0|]. by replace k with 1 by lia.
  - rewrite zlen_cons in Hk. cbn [app]. destruct (Z.le_gt_cases k 0); [by rewrite ztake_0|]. rewrite ztake_cons by lia. specialize (IH (k - 1) ltac:(lia)).
    destruct (ztake (k - 1) (s ++ crlf)) as [|b' l]; [done|]. rewrite crlf_at_cons. destruct (Z.eqb_spec b 13); [done|]. cbn [andb]. by rewrite IH.
Qed.
Lemma zdrop_at_app (a b : list Z) : zdrop (zlen a) (a ++ b) = b.
Proof. rewrite zdrop_app_ge by lia. by rewrite Z.sub_diag, zdrop_0 by lia. Qed.
Lemma ztake_at_app (a b : list Z) : ztake (zlen a) (a ++ b) = a.
Proof. rewrite ztake_app_le by lia. by apply ztake_all. Qed.
Lemma znth_at_app a (b : Z) (q : list Z) : znth (a ++ b :: q) (zlen a) = b.
Proof. unfold znth, zlen. rewrite Nat2Z.id. by rewrite nth_middle. Qed.
Lemma rd_line_at pre s q : Forall (fun b => b <> 13) s -> rd_line (pre ++ s ++ crlf ++ q) (zlen pre) = Some (s, zlen pre + zlen s + 2).
Proof. intros Hs. unfold rd_line. rewrite zdrop_at_app, crlf_at_line by done. cbn [mbind option_bind]. by rewrite ztake_at_app. Qed.

(** ** Elements *)
Lemma rd_elem_head pre s q : fits s -> rd_elem (pre ++ REDIS_T_BULK :: header (zlen s) ++ q) (zlen pre) =
  let j := zlen pre + 1 + zlen (header (zlen s)) in
  if zlen q <? zlen s then None else Some (Arg j (ztake (zlen s) q), if zlen q - zlen s <? 2 then j + zlen q else j + zlen s + 2).
Proof.
  intros Hs. unfold fits in Hs. change LK_REDIS_MAX_BULK with 536870912 in Hs. pose proof (zlen_nonneg s). pose proof (zlen_nonneg pre). pose proof (zlen_nonneg q). unfold rd_elem.
  set (p := pre ++ REDIS_T_BULK :: header (zlen s) ++ q). assert (zlen p = zlen pre + 1 + zlen (header (zlen s)) + zlen q) as Hp by (subst p; rewrite zlen_app, zlen_cons, zlen_app; lia).
  pose proof (zlen_nonneg (header (zlen s))). destruct (Z.leb_spec (zlen p) (zlen pre)); [lia|].
  replace (znth p (zlen pre)) with REDIS_T_BULK by (subst p; by rewrite znth_at_app). change (shape_of REDIS_T_BULK) with REDIS_V_BULK. cbn iota.
  assert (rd_line p (zlen pre + 1) = Some (show (zlen s), zlen pre + 1 + zlen (header (zlen s)))) as ->.
  { subst p. replace (pre ++ REDIS_T_BULK :: header (zlen s) ++ q) with ((pre ++ [REDIS_T_BULK]) ++ show (zlen s) ++ crlf ++ q) by (unfold header; by rewrite <- !app_assoc).
    replace (zlen pre + 1) with (zlen (pre ++ [REDIS_T_BULK])) by (by rewrite zlen_app). rewrite rd_line_at by (by apply digits_no_cr; lia). do 2 f_equal. unfold header. rewrite !zlen_app. change (zlen crlf) with 2. change (zlen [REDIS_T_BULK]) with 1. lia. }
  cbn [mbind option_bind]. rewrite parse_show by lia. cbn [mbind option_bind]. unfold redis_bulk_len. change LK_REDIS_MAX_BULK with 536870912. destruct (Z.ltb_spec (zlen s) 0); [lia|]. destruct (Z.ltb_spec 536870912 (zlen s)); [lia|].
  cbv zeta. set (j := zlen pre + 1 + zlen (header (zlen s))) in *. assert (zdrop j p = q) as Ed.
  { subst p j. replace (pre ++ REDIS_T_BULK :: header (zlen s) ++ q) with ((pre ++ REDIS_T_BULK :: header (zlen s)) ++ q) by (by rewrite <- app_assoc).
    replace (zlen pre + 1 + zlen (header (zlen s))) with (zlen (pre ++ REDIS_T_BULK :: header (zlen s))) by (rewrite zlen_app, zlen_cons; lia). apply zdrop_at_app. }
  rewrite Ed, Hp. replace (j + zlen q - j) with (zlen q) by lia. replace (j + zlen q - (j + zlen s)) with (zlen q - zlen s) by lia. done.
Qed.
Lemma rd_elem_whole pre s q : fits s -> rd_elem (pre ++ enc (bulk s) ++ q) (zlen pre) = Some (Arg (zlen pre + 1 + zlen (header (zlen s))) s, zlen (pre ++ enc (bulk s))).
Proof.
  intros Hs. pose proof (rd_elem_head pre s (s ++ crlf ++ q) Hs) as H. cbv zeta in H. pose proof (zlen_nonneg q). assert (zlen (s ++ crlf ++ q) = zlen s + 2 + zlen q) as E by (rewrite !zlen_app; change (zlen crlf) with 2; lia). rewrite E in H.
  destruct (Z.ltb_spec (zlen s + 2 + zlen q) (zlen s)); [lia|]. destruct (Z.ltb_spec (zlen s + 2 + zlen q - zlen s) 2); [lia|]. rewrite ztake_at_app in H.
  rewrite enc_bulk. replace (pre ++ ((REDIS_T_BULK :: header (zlen s)) ++ s ++ crlf) ++ q) with (pre ++ REDIS_T_BULK :: header (zlen s) ++ s ++ crlf ++ q) by (cbn [app]; by rewrite <- !app_assoc).
  rewrite H. do 2 f_equal. rewrite !zlen_app. rewrite zlen_cons. change (zlen crlf) with 2. lia.
Qed.
(** The last element, cut: absent, or whole with its terminator cut. *)
Lemma rd_elem_cut pre s k : fits s -> 0 <= k < zlen (enc (bulk s)) ->
  rd_elem (pre ++ ztake k (enc (bulk s))) (zlen pre) =
    if k <? 1 + zlen (header (zlen s)) + zlen s then None else Some (Arg (zlen pre + 1 + zlen (header (zlen s))) s, zlen (pre ++ ztake k (enc (bulk s)))).
Proof.
  intros Hs Hk. pose proof (zlen_nonneg s). pose proof (zlen_nonneg pre). pose proof (zlen_nonneg (header (zlen s))). rewrite enc_bulk in *. rewrite !zlen_app, zlen_cons in Hk. change (zlen crlf) with 2 in Hk.
  set (h := REDIS_T_BULK :: header (zlen s)) in *. assert (zlen h = 1 + zlen (header (zlen s))) as Eh by (subst h; rewrite zlen_cons; lia).
  destruct (Z.lt_ge_cases k (zlen h)) as [Hc|Hc].
  - destruct (Z.ltb_spec k (1 + zlen (header (zlen s)) + zlen s)); [|lia]. rewrite ztake_app_le by lia. destruct (Z.eq_dec k 0) as [->|Hk0].
    { rewrite (ztake_0 0) by lia. rewrite app_nil_r. unfold rd_elem. destruct (Z.leb_spec (zlen pre) (zlen pre)); [done|lia]. }
    subst h. rewrite ztake_cons by lia. unfold rd_elem. set (p := pre ++ _). assert (znth p (zlen pre) = REDIS_T_BULK) as -> by apply znth_at_app. destruct (_ <=? _); [done|]. change (shape_of REDIS_T_BULK) with REDIS_V_BULK. cbn iota.
    assert (rd_line p (zlen pre + 1) = None) as ->; [|done]. unfold rd_line. subst p. replace (pre ++ REDIS_T_BULK :: ztake (k - 1) (header (zlen s))) with ((pre ++ [REDIS_T_BULK]) ++ ztake (k - 1) (header (zlen s))) by (by rewrite <- app_assoc).
    replace (zlen pre + 1) with (zlen (pre ++ [REDIS_T_BULK])) by (by rewrite zlen_app). rewrite zdrop_at_app. unfold header in *. rewrite crlf_at_cut; [done|by apply digits_no_cr; lia|]. rewrite zlen_app in Eh. change (zlen crlf) with 2 in Eh. lia.
  - rewrite ztake_app_ge by lia. set (q := ztake (k - zlen h) (s ++ crlf)). assert (zlen q = k - zlen h) as Eq by (subst q; rewrite zlen_ztake, zlen_app by lia; change (zlen crlf) with 2; lia).
    replace (pre ++ h ++ q) with (pre ++ REDIS_T_BULK :: header (zlen s) ++ q) by done. rewrite rd_elem_head by done. cbv zeta. rewrite Eq, Eh.
    destruct (Z.ltb_spec (k - (1 + zlen (header (zlen s)))) (zlen s)), (Z.ltb_spec k (1 + zlen (header (zlen s)) + zlen s)); try lia; [done|].
    destruct (Z.ltb_spec (k - (1 + zlen (header (zlen s))) - zlen s) 2); [|lia]. do 2 f_equal.
    + f_equal. subst q. rewrite ztake_ztake. replace (Z.min (zlen s) (k - zlen h)) with (zlen s) by lia. apply ztake_at_app.
    + rewrite zlen_app, zlen_cons, zlen_app. lia.
Qed.
Definition spans (pre : list Z) ps : argv := (fix go pre ps := match ps with [] => [] | s :: ps => Arg (zlen pre + 1 + zlen (header (zlen s))) s :: go (pre ++ enc (bulk s)) ps end) pre ps.
Lemma spans_cons pre s ps : spans pre (s :: ps) = Arg (zlen pre + 1 + zlen (header (zlen s))) s :: spans (pre ++ enc (bulk s)) ps.
Proof. done. Qed.
Abbreviation wire ps := (concat (map (fun s => enc (bulk s)) ps)).
(** Only whole elements are read, from the front. *)
Lemma read_elems_cut max ps : Forall fits ps -> forall pre k, 0 <= k -> exists j, read_elems max (pre ++ ztake k (wire ps)) (zlen pre) = take j (spans pre ps) /\
  (j <= max)%nat /\ (zlen (wire ps) <= k -> j = Nat.min max (length ps)) /\ (j = 0%nat \/ zlen (wire (take j ps)) <= k + 2).
Proof.
  intros Hps. revert max. induction Hps as [|s ps Hs Hps IH]; intros max pre k Hk.
  { exists 0%nat. split; [|split; [lia|split; [by rewrite Nat.min_0_r|by left]]]. cbn [map concat]. unfold ztake. rewrite take_nil, app_nil_r. destruct max; [done|]. cbn [read_elems]. unfold rd_elem. destruct (Z.leb_spec (zlen pre) (zlen pre)); [done|lia]. }
  destruct max as [|max]; [exists 0%nat; split; [done|]; split; [done|]; split; [done|by left]|]. cbn [map concat read_elems]. destruct (Z.lt_ge_cases k (zlen (enc (bulk s)))) as [Hc|Hc].
  - rewrite ztake_app_le by lia. rewrite rd_elem_cut by done. assert (~ zlen (enc (bulk s) ++ wire ps) <= k) as Hn by (rewrite zlen_app; pose proof (zlen_nonneg (wire ps)); lia). destruct (Z.ltb_spec k (1 + zlen (header (zlen s)) + zlen s)) as [Hk1|Hk1].
    + exists 0%nat. split; [done|]. split; [lia|]. split; [done|by left].
    + exists 1%nat. split; [|split; [lia|split; [done|right; cbn [take map concat]; rewrite app_nil_r, enc_bulk, !zlen_app, zlen_cons; change (zlen crlf) with 2; lia]]]. rewrite spans_cons. cbn [take]. f_equal. destruct max; [done|]. cbn [read_elems]. unfold rd_elem. set (z := zlen _). destruct (Z.leb_spec z z); [done|lia].
  - rewrite ztake_app_ge by lia. rewrite rd_elem_whole by done. destruct (IH max (pre ++ enc (bulk s)) (k - zlen (enc (bulk s))) ltac:(lia)) as (j & E & Hj & Hf & Hb). exists (S j). split; [|split; [lia|split]].
    + rewrite <- app_assoc in E. rewrite E, spans_cons. done.
    + rewrite zlen_app. intros Hl. rewrite Hf by lia. done.
    + right. cbn [take map concat]. rewrite zlen_app. destruct Hb as [-> |Hb]; [rewrite take_0; cbn [map concat]; rewrite zlen_nil; lia|lia].
Qed.

(** ** Commands *)
Definition cmd_head ps : list Z := REDIS_T_ARRAY :: header (zlen ps).
Definition cmd_fits ps : Prop := Forall fits ps /\ zlen ps <= LK_REDIS_MAX_ELEMS.
Lemma count_of ps : zlen ps <= LK_REDIS_MAX_ELEMS -> redis_agg_count (@zlen (list Z) ps) false = Some (zlen ps).
Proof.
  intros H. pose proof (zlen_nonneg ps). unfold redis_agg_count, u32. change LK_REDIS_MAX_ELEMS with 2147483647 in *. destruct (Z.ltb_spec (zlen ps) 0); [lia|]. destruct (Z.ltb_spec 2147483647 (zlen ps)); [lia|].
  rewrite Z.mul_1_r, Zmod_mod, Z.mod_small by lia. done.
Qed.
Lemma read_argv_head m q ps max : m_type m = REDIS_T_ARRAY -> zlen ps <= LK_REDIS_MAX_ELEMS -> 0 <= max <= LK_REDIS_ARGV_MAX ->
  redis_read_argv m (cmd_head ps ++ q) max = (read_elems (Nat.min (Z.to_nat max) (length ps)) (cmd_head ps ++ q) (zlen (cmd_head ps)), zlen ps).
Proof.
  intros Ht Hl Hm. unfold redis_read_argv. pose proof (zlen_nonneg q). pose proof (zlen_nonneg ps). destruct (Z.ltb_spec LK_REDIS_ARGV_MAX max); [lia|]. assert (zlen (cmd_head ps ++ q) =? 0 = false) as ->.
  { rewrite zlen_app. unfold cmd_head. rewrite zlen_cons. pose proof (zlen_nonneg (header (zlen ps))). lia. }
  rewrite Ht. change (REDIS_T_ARRAY =? LK_REDIS_MSG_INLINE) with false. change (shape_of (u8 REDIS_T_ARRAY)) with REDIS_V_AGG. cbv iota. change (bool_decide (REDIS_V_AGG = REDIS_V_AGGPAIR)) with false.
  assert (rd_line (cmd_head ps ++ q) 1 = Some (show (zlen ps), zlen (cmd_head ps))) as ->.
  { unfold cmd_head, header. cbn [app]. rewrite <- app_assoc. pose proof (rd_line_at [REDIS_T_ARRAY] (show (zlen ps)) q ltac:(by apply digits_no_cr; lia)) as Hr. change (zlen [REDIS_T_ARRAY]) with 1 in Hr. cbn [app] in Hr. rewrite Hr.
    do 2 f_equal. rewrite zlen_cons, zlen_app. change (zlen crlf) with 2. lia. }
  cbn [mbind option_bind]. change LK_REDIS_MAX_ELEMS with 2147483647 in *. rewrite parse_show by lia. cbn [mbind option_bind]. rewrite count_of by done. cbn [mbind option_bind]. f_equal. f_equal. unfold zlen in *. destruct (Z.ltb_spec max (Z.of_nat (length ps))); lia.
Qed.
Lemma read_argv_short m ps k max : m_type m = REDIS_T_ARRAY -> k < zlen (cmd_head ps) -> redis_read_argv m (ztake k (cmd_head ps)) max = ([], -1).
Proof.
  intros Ht Hk. unfold redis_read_argv. destruct (Z.eqb_spec (zlen (ztake k (cmd_head ps))) 0); [done|]. rewrite Ht. change (REDIS_T_ARRAY =? LK_REDIS_MSG_INLINE) with false. change (shape_of (u8 REDIS_T_ARRAY)) with REDIS_V_AGG. cbv iota.
  assert (rd_line (ztake k (cmd_head ps)) 1 = None) as ->; [|done]. unfold cmd_head in *. destruct (Z.le_gt_cases k 0); [by rewrite ztake_0 by lia|]. rewrite ztake_cons by lia. unfold rd_line.
  rewrite zlen_cons in Hk. unfold header in *. rewrite zlen_app in Hk. change (zlen crlf) with 2 in Hk. rewrite (zdrop_cons 1), (zdrop_0 (1 - 1)) by lia. rewrite crlf_at_cut; [done|apply digits_no_cr, zlen_nonneg|lia].
Qed.
(** The reader on a prefix of a command: whole elements from the front, and the declared
    count once the header is in. *)
Lemma read_argv_prefix m ps n max : m_type m = REDIS_T_ARRAY -> cmd_fits ps -> 0 <= max <= LK_REDIS_ARGV_MAX -> 0 <= n ->
  exists j, redis_read_argv m (ztake n (enc (command ps))) max = (take j (spans (cmd_head ps) ps), if n <? zlen (cmd_head ps) then -1 else zlen ps) /\
    (j <= Z.to_nat max)%nat /\ (zlen (enc (command ps)) <= n -> j = Nat.min (Z.to_nat max) (length ps)) /\
    (j = 0%nat \/ zlen (cmd_head ps) + zlen (wire (take j ps)) <= n + 2).
Proof.
  intros Ht [Hf Hl] Hm Hn. rewrite enc_command. fold (cmd_head ps). pose proof (zlen_nonneg (wire ps)). destruct (Z.ltb_spec n (zlen (cmd_head ps))) as [Hc|Hc].
  - exists 0%nat. rewrite ztake_app_le by lia. split; [by apply read_argv_short|]. split; [lia|]. split; [rewrite zlen_app; lia|by left].
  - rewrite ztake_app_ge by lia. rewrite read_argv_head by done. destruct (read_elems_cut (Nat.min (Z.to_nat max) (length ps)) ps Hf (cmd_head ps) (n - zlen (cmd_head ps)) ltac:(lia)) as (j & -> & Hj & Hw & Hb).
    exists j. split; [done|]. split; [lia|]. split; [|destruct Hb; [by left|right; lia]]. rewrite zlen_app. intros Hl'. rewrite Hw by lia. lia.
Qed.
Lemma spans_bytes ps : forall pre, map ra_s (spans pre ps) = ps.
Proof. induction ps as [|s ps IH]; intros pre; [done|]. rewrite spans_cons. cbn [map]. by rewrite IH. Qed.

(** ** The mask *)
Fixpoint mask_elems (mask : Z) (i : Z) (j : nat) ps : list (list Z) :=
  match j, ps with
  | S j, s :: ps => (if Z.testbit mask i then stars (zlen s) else s) :: mask_elems mask (i + 1) j ps
  | _, _ => ps
  end.
Lemma zlen_stars n : 0 <= n -> zlen (stars n) = n.
Proof. intros. unfold zlen, stars. rewrite length_replicate. lia. Qed.
Lemma blank_span pre s q : blank (pre ++ enc (bulk s) ++ q) (Arg (zlen pre + 1 + zlen (header (zlen s))) s) = pre ++ enc (bulk (stars (zlen s))) ++ q.
Proof.
  pose proof (zlen_nonneg s). pose proof (zlen_nonneg pre). pose proof (zlen_nonneg q). pose proof (zlen_nonneg (header (zlen s))). rewrite !enc_bulk. rewrite zlen_stars by done. set (h := pre ++ REDIS_T_BULK :: header (zlen s)).
  replace (pre ++ ((REDIS_T_BULK :: header (zlen s)) ++ s ++ crlf) ++ q) with (h ++ s ++ crlf ++ q) by (subst h; by rewrite <- !app_assoc).
  replace (pre ++ ((REDIS_T_BULK :: header (zlen s)) ++ stars (zlen s) ++ crlf) ++ q) with (h ++ stars (zlen s) ++ crlf ++ q) by (subst h; by rewrite <- !app_assoc).
  unfold blank, ra_n. cbn [ra_at ra_s]. replace (zlen pre + 1 + zlen (header (zlen s))) with (zlen h) by (subst h; rewrite zlen_app, zlen_cons; lia). pose proof (zlen_nonneg h).
  assert (zlen (h ++ s ++ crlf ++ q) = zlen h + zlen s + 2 + zlen q) as El by (rewrite !zlen_app; change (zlen crlf) with 2; lia). rewrite El.
  destruct (Z.ltb_spec (zlen h) (zlen h + zlen s + 2 + zlen q)); [|lia]. destruct (Z.leb_spec (zlen s) (zlen h + zlen s + 2 + zlen q - zlen h)); [|lia]. cbn [andb]. rewrite ztake_at_app. do 2 f_equal.
  rewrite app_assoc. replace (zlen h + zlen s) with (zlen (h ++ s)) by (rewrite zlen_app; lia). apply zdrop_at_app.
Qed.
Lemma zlen_enc_stars s : zlen (enc (bulk (stars (zlen s)))) = zlen (enc (bulk s)).
Proof. pose proof (zlen_nonneg s). rewrite !enc_bulk, !zlen_app, !zlen_cons, zlen_stars by done. done. Qed.
Lemma blank_spans mask j : forall ps i pre pre', zlen pre = zlen pre' -> blank_each mask i (take j (spans pre' ps)) (pre ++ wire ps) = pre ++ wire (mask_elems mask i j ps).
Proof.
  induction j as [|j IH]; intros ps i pre pre' El; [by destruct ps|]. destruct ps as [|s ps]; [done|]. rewrite spans_cons. cbn [take blank_each mask_elems map concat]. rewrite <- El.
  set (b := if Z.testbit mask i then stars (zlen s) else s).
  replace (if Z.testbit mask i then blank (pre ++ enc (bulk s) ++ wire ps) _ else pre ++ enc (bulk s) ++ wire ps) with ((pre ++ enc (bulk b)) ++ wire ps).
  - rewrite (IH ps (i + 1) (pre ++ enc (bulk b)) (pre' ++ enc (bulk s))); [by rewrite <- app_assoc|]. rewrite !zlen_app, El. subst b. destruct (Z.testbit mask i); [|done]. by rewrite zlen_enc_stars.
  - subst b. rewrite <- app_assoc. destruct (Z.testbit mask i); [|done]. by rewrite blank_span.
Qed.
(** The bits of [AUTH]'s mask. *)
Lemma mask_walk_bits f last fuel : forall i mask b, last - i <= Z.of_nat fuel -> 0 <= b ->
  (forall i, f i = Z.shiftl 1 i) -> 0 <= i -> Z.testbit (mask_walk f 1 last fuel i mask) b = Z.testbit mask b || ((i <=? b) && (b <? last)).
Proof.
  induction fuel as [|fuel IH]; intros i mask b Hf Hb Hsh Hi; cbn [mask_walk].
  - destruct (Z.leb_spec i b), (Z.ltb_spec b last); try lia; by rewrite orb_false_r.
  - destruct (Z.ltb_spec i last); [|destruct (Z.leb_spec i b), (Z.ltb_spec b last); try lia; by rewrite orb_false_r]. rewrite IH by (done || lia). rewrite Z.lor_spec, Hsh. rewrite Z.shiftl_1_l, Z.pow2_bits_eqb by lia.
    destruct (Z.testbit mask b); [done|]. cbn [orb]. destruct (Z.eqb_spec i b), (Z.leb_spec (i + 1) b), (Z.leb_spec i b), (Z.ltb_spec b last); lia || done.
Qed.
Lemma auth_flags id : 0 <= id < REDIS_NENT -> lk_redis_cmd_name id = lit "AUTH" -> lk_redis_cmd_flags id = LK_REDIS_C_AUTH.
Proof.
  intros Hi E. assert (forallb (fun i => negb (bool_decide (lk_redis_cmd_name i = lit "AUTH")) || (lk_redis_cmd_flags i =? LK_REDIS_C_AUTH)) (range 0 REDIS_NENT) = true) as H by (vm_compute; reflexivity).
  pose proof (range_forall _ _ _ H id Hi) as Hx. cbv beta in Hx. apply orb_true_iff in Hx as [Hx|Hx]; [|by apply Z.eqb_eq]. apply negb_true_iff, bool_decide_eq_false in Hx. destruct (Hx E).
Qed.
Lemma auth_label verb rest : map to_upper verb = lit "AUTH" -> code_label (verb :: rest) = lit "AUTH".
Proof. intros E. unfold code_label. rewrite E. replace (named (lit "AUTH") cmd_names) with true by (vm_compute; reflexivity). replace (named (lit "AUTH") container_names) with false by (vm_compute; reflexivity). done. Qed.
Lemma auth_mask v b : code_label (map ra_s v) = lit "AUTH" -> v <> [] -> 0 <= b -> Z.testbit (lk_redis_secret_mask (lk_redis_cmd v) v) b = (1 <=? b) && (b <? zlen v).
Proof.
  intros El Hne Hb. destruct (cmd_label v) as [Hi Hn]. unfold lk_redis_secret_mask. rewrite (auth_flags _ Hi ltac:(congruence)). destruct (Z.eqb_spec (zlen v) 0) as [E|]; [apply zlen_0 in E; done|].
  change (has_flag LK_REDIS_C_AUTH LK_REDIS_C_SEC_RULE) with false. change (has_flag LK_REDIS_C_AUTH LK_REDIS_C_SEC_PARAM) with false. change (has_flag LK_REDIS_C_AUTH LK_REDIS_C_SEC_KW) with false. change (has_flag LK_REDIS_C_AUTH LK_REDIS_C_AUTH) with true.
  cbv iota zeta. rewrite mask_walk_bits; [by rewrite Z.testbit_0_l|unfold zlen; lia|done|done|done].
Qed.
Lemma mask_elems_all mask ps : forall i j, (length ps <= j)%nat -> (forall b, i <= b < i + zlen ps -> Z.testbit mask b = true) -> mask_elems mask i j ps = map (fun s => stars (zlen s)) ps.
Proof.
  induction ps as [|s ps IH]; intros i j Hj Hb; [by destruct j|]. destruct j as [|j]; [cbn in Hj; lia|]. cbn [mask_elems map]. rewrite zlen_cons in Hb. pose proof (zlen_nonneg ps). rewrite Hb by lia. f_equal. apply IH; [cbn in Hj; lia|]. intros b Hbb. apply Hb. lia.
Qed.

Section Claims.
Context (m : lk_msg) (Ht : m_type m = REDIS_T_ARRAY).
(** The argument reader is exact on every prefix.  From the first [n] bytes of any
    command the reader returns the first arguments it holds whole, in order, at most
    [max] of them and all of them when the command was captured whole, together with the
    command's element count as soon as its header was captured. *)
Theorem redis_argv_exact ps n max : cmd_fits ps -> 0 <= max <= LK_REDIS_ARGV_MAX -> 0 <= n ->
  let '(v, nelem) := redis_read_argv m (ztake n (enc (command ps))) max in
  exists j, map ra_s v = take j ps /\ (j <= Z.to_nat max)%nat /\ (zlen (enc (command ps)) <= n -> j = Nat.min (Z.to_nat max) (length ps)) /\
    nelem = (if n <? zlen (cmd_head ps) then -1 else zlen ps).
Proof.
  intros Hf Hm Hn. destruct (read_argv_prefix m ps n max Ht Hf Hm Hn) as (j & -> & Hj & Hw & _). exists j. rewrite <- firstn_map. rewrite spans_bytes. done.
Qed.
(** C30: The displayed body of a captured AUTH never shows a credential: it is the wire form
    of the same command with every byte of every argument replaced by an asterisk. *)
Theorem redis_auth_masked verb args : cmd_fits (verb :: args) -> map to_upper verb = lit "AUTH" -> zlen args < LK_REDIS_ARGV_MAX ->
  redis_mask_body m (enc (command (verb :: args))) = enc (command (verb :: map (fun s => stars (zlen s)) args)).
Proof.
  intros Hf Hv Hl. set (ps := verb :: args) in *. destruct (read_argv_prefix m ps (zlen (enc (command ps))) LK_REDIS_ARGV_MAX Ht Hf ltac:(done) ltac:(apply zlen_nonneg)) as (j & E & Hj & Hw & _). rewrite ztake_all in E by lia.
  specialize (Hw ltac:(lia)). unfold redis_mask_body. rewrite E, Ht. change (REDIS_T_ARRAY =? REDIS_T_ARRAY) with true. cbn [negb andb].
  destruct (Z.eqb_spec (zlen (enc (command ps))) 0) as [E0|_]; [rewrite enc_command, zlen_app, zlen_cons in E0; pose proof (zlen_nonneg (wire ps)); pose proof (zlen_nonneg (header (zlen ps))); lia|].
  assert (length ps <= j)%nat as Hjl by (subst j ps; unfold zlen in Hl; change LK_REDIS_ARGV_MAX with 16 in *; cbn [length]; lia).
  rewrite (take_ge (spans (cmd_head ps) ps)) by (rewrite <- (length_map ra_s), spans_bytes; lia). set (v := spans (cmd_head ps) ps) in *.
  assert (map ra_s v = ps) as Ev by apply spans_bytes. assert (zlen v = zlen ps) as Ezl by (rewrite <- Ev; by rewrite zlen_map).
  pose proof (fun b => auth_mask v b ltac:(rewrite Ev; by apply auth_label) ltac:(by intros E1; rewrite E1 in Ev) ) as Hbit. set (mask := lk_redis_secret_mask _ _) in *. clearbody mask.
  rewrite enc_command. fold (cmd_head ps). replace v with (take j v) by (apply take_ge; rewrite <- (length_map ra_s), Ev; lia). subst v. rewrite blank_spans by done.
  destruct j as [|j]; [cbn in Hjl; lia|]. subst ps. cbn [mask_elems]. rewrite (Hbit 0) by lia. cbn [Z.leb andb]. change (0 + 1) with 1. rewrite mask_elems_all; [|cbn in Hjl; lia|].
  - rewrite enc_command. f_equal. unfold cmd_head. by rewrite !zlen_cons, zlen_map.
  - intros b Hb. rewrite Hbit by lia. rewrite Ezl, zlen_cons. destruct (Z.leb_spec 1 b), (Z.ltb_spec b (zlen args + 1)); lia || done.
Qed.
(** An AUTH whose password the capture cuts short is displayed as captured: the cut
    argument is not an element, so nothing of it is masked. *)
Theorem redis_auth_cut verb pass n : cmd_fits [verb; pass] -> map to_upper verb = lit "AUTH" -> 0 <= n < zlen (enc (command [verb; pass])) - 2 ->
  redis_mask_body m (ztake n (enc (command [verb; pass]))) = ztake n (enc (command [verb; pass])).
Proof.
  intros Hf Hv Hn. set (ps := [verb; pass]) in *. destruct (read_argv_prefix m ps n LK_REDIS_ARGV_MAX Ht Hf ltac:(done) ltac:(lia)) as (j & E & Hj & _ & Hb).
  unfold redis_mask_body. rewrite E. destruct (zlen _ =? 0); [done|]. destruct (_ && _); [done|].
  assert (j = 0 \/ j = 1)%nat as Hj1.
  { destruct j as [|[|j]]; [by left|by right|]. exfalso. destruct Hb as [Hb|Hb]; [done|]. rewrite take_ge in Hb by (cbn; lia). rewrite enc_command, zlen_app in Hn. fold (cmd_head ps) in Hn. lia. }
  destruct Hj1 as [-> | ->]; [done|]. subst ps. rewrite spans_cons, firstn_cons, take_0. set (t := Arg _ verb). cbn [blank_each].
  rewrite (auth_mask [t] 0); [done|by apply auth_label|done|done].
Qed.
End Claims.

(** ** Witnesses *)
Definition w_array : lk_msg := Msg 5 REDIS_T_ARRAY 0 0 [].
Definition w_get : list (list Z) := [lit "GET"; lit "key"].
Lemma fits_check ps : forallb (fun s => zlen s <=? LK_REDIS_MAX_BULK) ps && (zlen ps <=? LK_REDIS_MAX_ELEMS) = true -> cmd_fits ps.
Proof. intros H. apply andb_true_iff in H as [H1 H2]. split; [|lia]. apply Forall_forall. intros s Hs. pose proof (proj1 (forallb_forall _ _) H1 s Hs) as Hx. unfold fits. cbv beta in Hx. lia. Qed.
Lemma redis_argv_exact_witness : let '(v, nelem) := redis_read_argv w_array (ztake 20 (enc (command w_get))) 16 in
  exists j, map ra_s v = take j w_get /\ (j <= Z.to_nat 16)%nat /\ (zlen (enc (command w_get)) <= 20 -> j = Nat.min (Z.to_nat 16) (length w_get)) /\ nelem = (if 20 <? zlen (cmd_head w_get) then -1 else zlen w_get).
Proof. refine (redis_argv_exact w_array eq_refl w_get 20 16 _ _ _); [apply fits_check; vm_compute; reflexivity|split; discriminate|discriminate]. Defined.
Lemma redis_auth_masked_witness : redis_mask_body w_array (enc (command [lit "auth"; lit "bob"; lit "secret"])) = enc (command [lit "auth"; lit "***"; lit "******"]).
Proof. refine (redis_auth_masked w_array eq_refl (lit "auth") [lit "bob"; lit "secret"] _ _ _); [apply fits_check; vm_compute; reflexivity|vm_compute; reflexivity|vm_compute; reflexivity]. Defined.
Lemma redis_auth_cut_witness : redis_mask_body w_array (ztake 21 (enc (command [lit "AUTH"; lit "secret"]))) = ztake 21 (enc (command [lit "AUTH"; lit "secret"])).
Proof. refine (redis_auth_cut w_array eq_refl (lit "AUTH") (lit "secret") 21 _ _ _); [apply fits_check; vm_compute; reflexivity|vm_compute; reflexivity|vm_compute; split; [discriminate|reflexivity]]. Defined.
