(* ===== verification/RedisConn.v ===== *)
(** State of the Redis handler, [proto/redis/redis.h], and the operations of
    [proto/redis/redis.c] on the in-flight ring, the session labels and the transaction.

    [early] with [early_n] is the list [rc_early].  [no_user] is the one knob of
    [lk_redis_cfg], fixed at startup.  The ring is addressed by 64-bit sequence numbers
    modulo its size. *)
From Stdlib Require Import Ascii String.
From stdpp Require Import base list option.
From S2P Require Import Prelude Conn Proto Decimal Reassembly RedisFrame NormRedisTab NormRedis RedisArgv.
#[local] Open Scope Z_scope.

Definition LK_REDIS_MAX_INFLIGHT := 256.
Definition LK_REDIS_UNIT_TIMEOUT_NS := 30 * 1000000000.
Definition REDIS_U_SUB := 1.
Definition REDIS_U_SELECT := 2.
Definition REDIS_U_AUTH := 4.
Definition REDIS_U_RESET := 8.
Definition REDIS_U_MULTI := 16.
Definition REDIS_U_EXEC := 32.
Definition REDIS_U_DISCARD := 64.
Definition LK_REDIS_MAX_EARLY := 4.

Record redis_reply := Reply {
  rr_err_name : option (list Z); rr_end_ns : Z; rr_bytes : Z; rr_flags : Z; rr_redirect : Z; rr_err : bool; rr_null : bool }.
#[global] Instance redis_reply_upd : Updatable redis_reply := fun r =>
  Reply (rr_err_name r) (rr_end_ns r) (rr_bytes r) (rr_flags r) (rr_redirect r) (rr_err r) (rr_null r).
Record redis_unit := RUnit {
  ru_ts_start_ns : Z; ru_bytes : Z; ru_flags : Z; ru_depth : Z; ru_cmd : Z; ru_db : Z; ru_argc : Z; ru_uflags : Z }.
#[global] Instance redis_unit_upd : Updatable redis_unit := fun u =>
  RUnit (ru_ts_start_ns u) (ru_bytes u) (ru_flags u) (ru_depth u) (ru_cmd u) (ru_db u) (ru_argc u) (ru_uflags u).
Definition unit0 : redis_unit := RUnit 0 0 0 0 0 0 0 0.

Record redis_conn := RConn {
  rc_session : lk_session; rc_msgs : Z; rc_auth_user : list Z; rc_auth_seq : Z; rc_ring : list redis_unit; rc_head_seq : Z; rc_open_seq : Z;
  rc_batch_seq0 : Z; rc_batch_n : Z; rc_owed : Z; rc_early : list redis_reply; rc_txn_start_ns : Z; rc_txn_n : Z; rc_sub : bool; rc_degraded : bool }.
#[global] Instance redis_conn_upd : Updatable redis_conn := fun x =>
  RConn (rc_session x) (rc_msgs x) (rc_auth_user x) (rc_auth_seq x) (rc_ring x) (rc_head_seq x) (rc_open_seq x) (rc_batch_seq0 x) (rc_batch_n x)
    (rc_owed x) (rc_early x) (rc_txn_start_ns x) (rc_txn_n x) (rc_sub x) (rc_degraded x).
(** [calloc]. *)
Definition redis_conn0 : redis_conn :=
  RConn session0 0 (replicate 64 0) 0 (replicate 256 unit0) 0 0 0 0 0 [] 0 0 false false.
Implicit Types (rc : redis_conn) (u : redis_unit) (r : redis_reply) (seq : Z).

(** [memcpy(dst, s, n + 1)] of a literal. *)
Definition set_cstr (s : string) (dst : list Z) : list Z := put_cstr dst (zlen (lit s)) (lit s).
Definition set_db_str (s : string) (ss : lk_session) : lk_session := ss <| s_database ::= set_cstr s |>.
Definition set_user_str (s : string) (ss : lk_session) : lk_session := ss <| s_user ::= set_cstr s |>.

Record lk_redis_cfg := RedisCfg { no_user : bool }.
(** What the handler reads after [lk_proto_redis_configure]. *)
Definition lk_proto_redis_configure (cfg : option lk_redis_cfg) : lk_redis_cfg := default (RedisCfg false) cfg.

Section Session.
Context (cfg : lk_redis_cfg).

(** The session functions write [rc->session] only. *)
Definition session_init (synthetic : bool) (ss : lk_session) : lk_session :=
  let ss := if no_user cfg then ss <| s_user ::= fun d => put_cstr d 0 [] |> else ss in
  if synthetic then
    let ss := set_db_str "?" ss in if no_user cfg then ss else set_user_str "?" ss
  else
    let ss := set_db_str "0" ss in if no_user cfg then ss else set_user_str "default" ss.
Definition session_set_db (db : Z) (ss : lk_session) : lk_session :=
  if db =? LK_REDIS_DB_UNKNOWN then set_db_str "?" ss
  else ss <| s_database ::= fun d => put_cstr d (zlen (show db)) (show db) |>.
Definition session_set_user (s : list Z) (ss : lk_session) : lk_session :=
  if no_user cfg then ss
  else if zlen s =? 0 then set_user_str "default" ss
  else if negb (lk_redis_user_valid s) then set_user_str "other" ss
  else ss <| s_user ::= fun d => put_cstr d (zlen s) s |>.

(** ** The in-flight ring *)
Definition slot seq : nat := Z.to_nat (seq mod LK_REDIS_MAX_INFLIGHT).
Definition ring_at rc seq : redis_unit := nth (slot seq) (rc_ring rc) unit0.
Definition ring_upd rc seq (g : redis_unit -> redis_unit) : redis_conn := rc <| rc_ring ::= alter g (slot seq) |>.
Definition unit_front rc : option redis_unit := if rc_head_seq rc <? rc_open_seq rc then Some (ring_at rc (rc_head_seq rc)) else None.

(** What a dropped unit does to the labels. *)
Definition drop_labels u (ss : lk_session) : lk_session :=
  let ss := if has_flag (ru_uflags u) (Z.lor REDIS_U_SELECT REDIS_U_RESET) then session_set_db LK_REDIS_DB_UNKNOWN ss else ss in
  if has_flag (ru_uflags u) (Z.lor REDIS_U_AUTH REDIS_U_RESET) && negb (no_user cfg) then set_user_str "?" ss else ss.
Definition drop_unit rc u : redis_conn := rc <| rc_session ::= drop_labels u |> <| rc_head_seq ::= inc64 |>.
(** The loop and the number of units dropped. *)
Fixpoint drop_loop (fuel : nat) rc : redis_conn * Z :=
  match fuel with
  | O => (rc, 0)
  | S fuel =>
      if rc_head_seq rc <? rc_open_seq rc then
        let '(rc, n) := drop_loop fuel (drop_unit rc (ring_at rc (rc_head_seq rc))) in (rc, n + 1)
      else (rc, 0)
  end.
Definition units_drop_all rc : redis_conn * Z :=
  let '(rc, n) := drop_loop (Z.to_nat (rc_open_seq rc - rc_head_seq rc)) rc in
  (rc <| rc_txn_start_ns := 0 |> <| rc_txn_n := 0 |> <| rc_owed := 0 |> <| rc_early := [] |> <| rc_batch_seq0 := rc_open_seq rc |> <| rc_batch_n := 0 |>, n).

Fixpoint freeze_from (fuel : nat) (d seq : Z) rc : redis_conn :=
  match fuel with
  | O => rc
  | S fuel => if seq <? rc_open_seq rc then freeze_from fuel d (seq + 1) (ring_upd rc seq (fun u => u <| ru_depth := d |>)) else rc
  end.
Definition batch_new rc : redis_conn :=
  let s := if rc_head_seq rc <? rc_batch_seq0 rc then rc_batch_seq0 rc else rc_head_seq rc in
  let d := if 65535 <? rc_batch_n rc then 65535 else rc_batch_n rc in
  let rc := freeze_from (Z.to_nat (rc_open_seq rc - s)) d s rc in
  rc <| rc_batch_seq0 := rc_open_seq rc |> <| rc_batch_n := 0 |>.

(** [None] when the ring is full; the unit is the slot below [open_seq]. *)
Definition unit_open rc (ts : Z) : option redis_conn :=
  if LK_REDIS_MAX_INFLIGHT <=? u64 (rc_open_seq rc - rc_head_seq rc) then None
  else
    let seq := rc_open_seq rc in
    let rc := ring_upd rc seq (fun _ => unit0 <| ru_ts_start_ns := ts |> <| ru_cmd := lk_redis_cmd_other |>) <| rc_open_seq ::= inc64 |> in
    Some (if 1 <? u64 (rc_open_seq rc - rc_head_seq rc) then
            let mark u := u <| ru_flags ::= fun w => set_flag w LK_QO_PIPELINED |> in
            ring_upd (ring_upd rc seq mark) (u64 (rc_open_seq rc - 2)) mark
          else rc).

(** ** Replies *)
(** [own] says the parked name is this unit's. *)
Definition apply_labels u (own : bool) (auth_user : list Z) (ss : lk_session) : lk_session :=
  if has_flag (ru_uflags u) REDIS_U_RESET then session_set_user [] (session_set_db 0 ss)
  else
    let ss := if has_flag (ru_uflags u) REDIS_U_SELECT then session_set_db (ru_db u) ss else ss in
    if has_flag (ru_uflags u) REDIS_U_AUTH then
      if own then session_set_user (c_str auth_user) ss else if no_user cfg then ss else set_user_str "?" ss
    else ss.
Definition session_apply rc u seq (err : bool) : redis_conn :=
  if negb (has_flag (ru_uflags u) (Z.lor REDIS_U_SELECT (Z.lor REDIS_U_AUTH REDIS_U_RESET))) || err then rc
  else rc <| rc_session ::= apply_labels u (seq =? rc_auth_seq rc) (rc_auth_user rc) |>.

Definition reply_verdict (m : lk_msg) (end_ns : Z) : redis_reply :=
  let r := Reply None end_ns (m_len m) 0 0 false false in
  let t := m_type m in
  if (t =? REDIS_T_ERROR) || (t =? REDIS_T_BLOBERR) then
    let '(name, redirect) := lk_redis_err (redis_read_word m (m_body m)) in
    r <| rr_err := true |> <| rr_err_name := Some name |> <| rr_redirect := redirect |>
      <| rr_flags := if redirect =? 0 then LK_QO_ERROR else LK_QO_CLIENT_ERR |>
  else if t =? REDIS_T_SIMPLE then
    if bool_decide (redis_read_word m (m_body m) = lit "QUEUED") then r <| rr_flags := LK_QO_QUEUED |> else r
  else if t =? REDIS_T_NULL then r <| rr_null := true |>
  else if t =? REDIS_T_ARRAY then r <| rr_null := (1 <? m_body_cap m) && (znth (m_body m) 1 =? ch "-") |>
  else r.

Definition park_name (user : option lk_redis_arg) (dst : list Z) : list Z :=
  let s := match user with Some t => ra_s t | None => [] end in
  put_cstr dst (if zlen s <? LK_REDIS_USER_MAX - 1 then zlen s else LK_REDIS_USER_MAX - 1) s.
Definition auth_park rc seq (user : option lk_redis_arg) : redis_conn := rc <| rc_auth_user ::= park_name user |> <| rc_auth_seq := seq |>.
End Session.
