(* ===== verification/Redis.v ===== *)
(** The Redis handler, [proto/redis/redis.c]: commands, replies, pub/sub, blind zones
    and the sink under the framer.

    [c->proto_state] is written back when a callback returns; [rc] is its value in
    between.  The two facts about the capture ([last_ts], [v_call]) are read off the
    framer's state in the connection. *)
From Stdlib Require Import Ascii String.
From stdpp Require Import base list option.
From S2P Require Import Prelude Conn Proto Decimal Reassembly RedisFrame NormRedisTab NormRedis RedisArgv RedisConn.
#[local] Open Scope Z_scope.

Definition tok_is (t : lk_redis_arg) (l : string) : bool := lit_is (ra_s t) (lit l).
Definition kind_is_confirm (t : lk_redis_arg) : bool :=
  tok_is t "subscribe" || tok_is t "unsubscribe" || tok_is t "psubscribe" || tok_is t "punsubscribe" || tok_is t "ssubscribe" || tok_is t "sunsubscribe".
Definition kind_is_delivery (t : lk_redis_arg) : bool :=
  tok_is t "message" || tok_is t "pmessage" || tok_is t "smessage" || tok_is t "invalidate".
Definition LK_REDIS_NOTE_IS_PARSE_ERR (n : Z) : bool :=
  existsb (fun k => n =? note_code k) [LK_REDIS_NOTE_BAD_TYPE; LK_REDIS_NOTE_BAD_LEN; LK_REDIS_NOTE_BULK_EOL; LK_REDIS_NOTE_LINE_TOO_BIG; LK_REDIS_NOTE_INLINE_TOO_BIG].
Inductive redis_rkind := REDIS_R_REPLY | REDIS_R_CONFIRM | REDIS_R_PUSH | REDIS_R_ATTR.

Section Handler.
Context {U : Type} (XXH3 : list Z -> Z) (cfg : lk_redis_cfg).
Abbreviation proto := (lk_proto U redis_conn redis_frame).
Abbreviation conn := (lk_conn redis_conn redis_frame).
Implicit Types (p : proto) (c : conn) (rc : redis_conn) (u : redis_unit) (r : redis_reply) (m : lk_msg) (d : lk_dir).

Definition redis_dir_of c d : option redis_dir := (fun rf => rf_d rf d) <$> c_frame_state c.
Definition redis_conn_get p c : option redis_conn * proto * conn :=
  match c_proto_state c with
  | Some rc => (Some rc, p, c)
  | None =>
      let '(ok, oom) := alloc (p_oom p) in
      let p := p <| p_oom := oom |> in
      if negb ok then (None, p, c)
      else
        let degraded := has_flag (c_flags c) LK_CONN_SYNTHETIC in
        let rc := redis_conn0 <| rc_degraded := degraded |> <| rc_session ::= session_init cfg degraded |> in
        (Some rc, pbump p (fun s => s <| ps_conns ::= inc64 |>), c <| c_proto_state := Some rc |>)
  end.
Definition redis_orphan p rc : proto := if rc_degraded rc then p else pbump p (fun s => s <| ps_orphan_msgs ::= inc64 |>).
(** [units_drop_all(rc, &p->st.units_dropped_...)]. *)
Definition drop_close p rc : proto * redis_conn :=
  let '(rc, n) := units_drop_all cfg rc in (pbump p (fun s => s <| ps_units_dropped_close ::= fun k => u64 (k + n) |>), rc).
Definition drop_resync p rc : proto * redis_conn :=
  let '(rc, n) := units_drop_all cfg rc in (pbump p (fun s => s <| ps_units_dropped_resync ::= fun k => u64 (k + n) |>), rc).
Definition units_expire p rc (now : Z) : proto * redis_conn :=
  match unit_front rc with
  | Some u => if (ru_ts_start_ns u <? now) && (LK_REDIS_UNIT_TIMEOUT_NS <? now - ru_ts_start_ns u) then drop_close p rc else (p, rc)
  | None => (p, rc)
  end.

(** ** Emitting *)
(** [depth] is the batch's count, live or frozen; [txn_n] the transaction's. *)
Definition unit_obs (depth txn_n : Z) u r : lk_query_obs :=
  let cmd := lk_redis_cmd_name (ru_cmd u) in
  let argc := if bool_decide (ch "|" ∈ cmd) && negb (ru_argc u =? 0) then ru_argc u - 1 else ru_argc u in
  let rr := RedisObs depth (if has_flag (ru_uflags u) REDIS_U_EXEC then txn_n else 0) argc (rr_redirect r) in
  obs0 <| o_ts_start_ns := ru_ts_start_ns u |> <| o_ts_complete_ns := rr_end_ns r |> <| o_ts_ready_ns := rr_end_ns r |> <| o_bytes_in := ru_bytes u |>
    <| o_bytes_out := rr_bytes r |> <| o_redis := Some rr |> <| o_kind := LK_Q_COMMAND |> <| o_route := Some cmd |>
    <| o_route_fp := lk_redis_cmd_fp XXH3 (ru_cmd u) |> <| o_err_name := rr_err_name r |>
    <| o_flags := Z.lor (Z.lor (ru_flags u) (rr_flags r)) LK_QO_NO_TEXT |>.
Definition report p c (ss : lk_session) (o : lk_query_obs) (redirect : Z) : proto :=
  let p := pbump p (fun s => s <| ps_queries ::= inc64 |>) in
  let p := if has_flag (o_flags o) LK_QO_ERROR then pbump p (fun s => s <| ps_errors_sql ::= inc64 |>) else p in
  let p := if redirect =? 0 then p else pbump p (fun s => s <| ps_redirects ::= inc64 |>) in
  up_query p c ss o.
Definition unit_emit p c rc u (seq : Z) r : proto :=
  report p c (rc_session rc) (unit_obs (if rc_batch_seq0 rc <=? seq then rc_batch_n rc else ru_depth u) (rc_txn_n rc) u r) (rr_redirect r).

(** The interval [(txn_start_ns, txn_n)] after a reply. *)
Definition txn_step p c (start n : Z) u r : proto * Z * Z :=
  if has_flag (ru_uflags u) REDIS_U_MULTI then
    if negb (rr_err r) && (start =? 0) then (p, ru_ts_start_ns u, 0) else (p, start, n)
  else if has_flag (rr_flags r) LK_QO_QUEUED && negb (start =? 0) then (p, start, u32 (n + 1))
  else if negb (has_flag (ru_uflags u) (Z.lor REDIS_U_EXEC (Z.lor REDIS_U_DISCARD REDIS_U_RESET))) then (p, start, n)
  else if (start =? 0) || (rr_err r && negb (has_flag (ru_uflags u) REDIS_U_EXEC)) then (p, start, n)
  else
    let aborted := negb (has_flag (ru_uflags u) REDIS_U_EXEC) || rr_err r || rr_null r in
    (up_txn p c start (rr_end_ns r) (if aborted then ch "E" else ch "I"), 0, 0).
Definition txn_apply p c rc u r : proto * redis_conn :=
  let '(p, start, n) := txn_step p c (rc_txn_start_ns rc) (rc_txn_n rc) u r in (p, rc <| rc_txn_start_ns := start |> <| rc_txn_n := n |>).

(** Report the front unit and move past it. *)
Definition close_front p c rc u r : proto * redis_conn :=
  let seq := rc_head_seq rc in
  let p := unit_emit p c rc u seq r in
  let rc := session_apply cfg rc u seq (rr_err r) in
  let '(p, rc) := txn_apply p c rc u r in
  (p, rc <| rc_head_seq ::= inc64 |>).

Definition unit_close p c rc m (end_ns : Z) : proto * redis_conn :=
  let r := reply_verdict m end_ns in
  match unit_front rc with
  | None =>
      if negb (rc_owed rc =? 0) then (p, rc <| rc_owed ::= fun n => n - 1 |>)
      else
        let open := match redis_dir_of c LK_DIR_RECV with Some fe => redis_value_open fe | None => false end in
        if open && (zlen (rc_early rc) <? LK_REDIS_MAX_EARLY) then (p, rc <| rc_early ::= fun l => l ++ [r] |>)
        else (redis_orphan p rc, rc)
  | Some u => close_front p c rc u r
  end.

Definition early_claim p c rc : proto * redis_conn :=
  match rc_early rc with
  | [] => (p, rc)
  | r :: rest =>
      if negb (u64 (rc_head_seq rc + 1) =? rc_open_seq rc) then let rc := rc <| rc_early := [] |> in (redis_orphan p rc, rc)
      else let rc := rc <| rc_early := rest |> in close_front p c rc (ring_at rc (rc_head_seq rc)) r
  end.

(** ** The frontend *)
Definition ignore_conn p c rc (count : lk_proto_stats -> lk_proto_stats) : proto * conn * redis_conn :=
  let '(p, rc) := drop_close p rc in
  (pbump p count, c <| c_flags ::= fun w => set_flag w LK_CONN_IGNORE |>, rc).

(** What a command's unit carries, from the elements and the flags. *)
Definition unit_argc (nelem : Z) (v : argv) : Z :=
  let args := (if 0 <=? nelem then nelem else zlen v) - 1 in if args <=? 0 then 0 else if 65535 <? args then 65535 else args.
Definition unit_uflags (cflags : Z) : Z :=
  Z.lor (if has_flag cflags LK_REDIS_C_SUBFAM then REDIS_U_SUB else 0)
    (if has_flag cflags LK_REDIS_C_MULTI then REDIS_U_MULTI else if has_flag cflags LK_REDIS_C_EXEC then REDIS_U_EXEC
     else if has_flag cflags LK_REDIS_C_DISCARD then REDIS_U_DISCARD else 0).
Definition unit_blocking m (id cflags : Z) (v : argv) : bool :=
  has_flag cflags LK_REDIS_C_BLOCKING &&
  lk_redis_cmd_blocking id (if has_flag cflags LK_REDIS_C_ARGBLOCK then (redis_read_argv m (m_body m) LK_REDIS_ARGV_MAX).1 else v).
(** The candidate the command would make of the labels. *)
Definition unit_candidate (id : Z) (v : argv) u : redis_unit :=
  let flag f u := u <| ru_uflags ::= fun w => set_flag w f |> in
  match lk_redis_session id v with
  | (LK_REDIS_SESS_DB, db, _) => flag REDIS_U_SELECT u <| ru_db := db |>
  | (LK_REDIS_SESS_USER, _, _) => flag REDIS_U_AUTH u
  | (LK_REDIS_SESS_RESET, _, _) => flag REDIS_U_RESET u
  | (LK_REDIS_SESS_NONE, _, _) => u
  end.
Definition parked_name (id : Z) (v : argv) : option (option lk_redis_arg) :=
  match lk_redis_session id v with (LK_REDIS_SESS_USER, _, user) => Some user | _ => None end.
(** The fields a command fills in its unit. *)
Definition unit_fill m (v : argv) (nelem id : Z) u : redis_unit :=
  let cflags := lk_redis_cmd_flags id in
  unit_candidate id v (u <| ru_bytes := m_len m |> <| ru_cmd := id |> <| ru_argc := unit_argc nelem v |> <| ru_uflags ::= fun w => Z.lor w (unit_uflags cflags) |>
    <| ru_flags ::= fun w => if unit_blocking m id cflags v then set_flag w LK_QO_BLOCKING else w |>).
(** Past the guards: [rc->batch_n++] and on. *)
Definition command_open p c rc m (v : argv) (nelem id : Z) : proto * conn * redis_conn :=
  let rc := rc <| rc_batch_n ::= fun n => u32 (n + 1) |> in
  match unit_open rc (m_ts_ns m) with
  | None => (pbump p (fun s => s <| ps_units_dropped_overflow ::= inc64 |>), c, rc <| rc_owed ::= fun n => u32 (n + 1) |>)
  | Some rc =>
      let seq := u64 (rc_open_seq rc - 1) in
      let rc := ring_upd (rc <| rc_degraded := false |>) seq (unit_fill m v nelem id) in
      let rc := match parked_name id v with Some user => auth_park rc seq user | None => rc end in
      let '(p, rc) := if zlen (rc_early rc) =? 0 then (p, rc) else early_claim p c rc in
      (p, c, rc)
  end.
Definition redis_command p c rc m (batch_first : bool) : proto * conn * redis_conn :=
  let rc := if batch_first then batch_new rc else rc in
  let '(v, nelem) := redis_read_argv m (m_body m) LK_REDIS_ARGV_LABELS in
  if nelem =? 0 then (p, c, rc)
  else
    let id := lk_redis_cmd v in
    let cflags := lk_redis_cmd_flags id in
    if has_flag cflags LK_REDIS_C_REPL then ignore_conn p c rc (fun s => s <| ps_replication_conns ::= inc64 |>)
    else if has_flag cflags LK_REDIS_C_MONITOR then ignore_conn p c rc (fun s => s <| ps_monitor_conns ::= inc64 |>)
    else
      let rc := if has_flag cflags LK_REDIS_C_RESET then rc <| rc_sub := false |>
                else if has_flag cflags LK_REDIS_C_SUBON then rc <| rc_sub := true |> else rc in
      command_open p c rc m v nelem id.

(** ** The backend *)
Definition first_elem m : option lk_redis_arg := head (redis_read_argv m (m_body m) 1).1.
Definition first_is m (f : lk_redis_arg -> bool) : bool := match first_elem m with Some t => f t | None => false end.
Definition reply_kind rc m : redis_rkind :=
  if m_type m =? REDIS_T_ATTR then REDIS_R_ATTR
  else if m_type m =? REDIS_T_PUSH then if first_is m kind_is_confirm then REDIS_R_CONFIRM else REDIS_R_PUSH
  else if (m_type m =? REDIS_T_ARRAY) && rc_sub rc then
    if first_is m kind_is_delivery then REDIS_R_PUSH else if first_is m kind_is_confirm then REDIS_R_CONFIRM else REDIS_R_REPLY
  else REDIS_R_REPLY.
Definition pushed p : proto := pbump p (fun s => s <| ps_pushes ::= inc64 |>).
Definition redis_reply_msg p c rc m (end_ns : Z) : proto * redis_conn :=
  match reply_kind rc m with
  | REDIS_R_ATTR => (p, rc)
  | REDIS_R_PUSH => (pushed p, rc)
  | REDIS_R_CONFIRM =>
      let u := unit_front rc in
      let rc := rc <| rc_sub := true |> in
      if match u with Some u => has_flag (ru_uflags u) REDIS_U_SUB | None => false end then unit_close p c rc m end_ns else (pushed p, rc)
  | REDIS_R_REPLY => unit_close p c rc m end_ns
  end.

(** ** The sink *)
Definition framer_note p m : proto := if LK_REDIS_NOTE_IS_PARSE_ERR (m_len m) then pbump p (fun s => s <| ps_parse_errors ::= inc64 |>) else p.
Definition put_state c rc : conn := c <| c_proto_state := Some rc |>.
Definition redis_on_msg p c d m : proto * conn :=
  let '(o, p, c) := redis_conn_get p c in
  let p := pbump (pbump p (fun s => s <| ps_msgs ::= inc64 |>)) (count_type d (u8 (m_type m))) in
  if m_type m =? LK_REDIS_MSG_NOTE then (framer_note p m, c)
  else match o with
  | None => (p, c)
  | Some rc =>
      let rc := rc <| rc_msgs ::= inc64 |> in
      let '(end_ns, batch_first) := match redis_dir_of c d with
                                    | Some x => (if m_ts_ns m <? rd_last_ts x then rd_last_ts x else m_ts_ns m, rd_v_call x)
                                    | None => (m_ts_ns m, false)
                                    end in
      let '(p, c, rc) := match d with
                         | LK_DIR_RECV => let '(p, rc) := units_expire p rc (m_ts_ns m) in redis_command p c rc m batch_first
                         | LK_DIR_SEND => let '(p, rc) := redis_reply_msg p c rc m end_ns in (p, c, rc)
                         end in
      (p, put_state c rc)
  end.
Definition redis_on_resync p c d : proto * conn :=
  let '(o, p, c) := redis_conn_get p c in
  let p := pbump p (fun s => s <| ps_resyncs ::= inc64 |>) in
  match o with
  | None => (p, c)
  | Some rc => let '(p, rc) := drop_resync p rc in (p, put_state c (rc <| rc_degraded := true |>))
  end.
Definition redis_on_conn_close p c : proto * conn :=
  match c_proto_state c with
  | None => (p, c)
  | Some rc => let '(p, _) := drop_close p rc in (p, c <| c_proto_state := None |>)
  end.
Definition redis_sink : lk_msg_sink proto redis_conn redis_frame := Sink (Some redis_on_msg) (Some redis_on_conn_close) (Some redis_on_resync).
Definition lk_proto_redis_new (out : lk_query_sink U redis_conn redis_frame) (up : U) (oom : list bool) : proto := Proto out up pstats0 oom.
End Handler.
