(* ===== verification/RedisHandler.v ===== *)
(** The Redis handler as a queue machine: a list of commands in flight, no ring, no
    sequence numbers.  It is the specification the handler is proved
    against; what is a pure function of one command or one reply is shared with it.

    The Redis handler implements the queue machine: the ring with its sequence numbers
    is a list, on any sequence of messages. *)
From Stdlib Require Import Ascii String.
From stdpp Require Import base list option.
From stdpp Require Import base list list_numbers option.
From S2P Require Import Prelude Conn Reassembly Proto Decimal RedisFrame NormRedisTab NormRedis RedisArgv RedisConn Redis.
#[local] Open Scope Z_scope.

Section Queue.
(** A command in flight, whether its batch is still being filled, whether the parked
    name is its own. *)
Record entry := Entry { e_unit : redis_unit; e_live : bool; e_own : bool }.
#[global] Instance entry_upd : Updatable entry := fun e => Entry (e_unit e) (e_live e) (e_own e).
Record hconn := HConn {
  h_session : lk_session; h_auth : list Z; h_queue : list entry; h_batch_n : Z; h_owed : Z; h_early : list redis_reply; h_txn_start : Z; h_txn_n : Z;
  h_sub : bool; h_degraded : bool }.
#[global] Instance hconn_upd : Updatable hconn := fun h =>
  HConn (h_session h) (h_auth h) (h_queue h) (h_batch_n h) (h_owed h) (h_early h) (h_txn_start h) (h_txn_n h) (h_sub h) (h_degraded h).

Section Queue.
Context {U : Type} (XXH3 : list Z -> Z) (cfg : lk_redis_cfg).
Abbreviation proto := (lk_proto U redis_conn redis_frame).
Abbreviation conn := (lk_conn redis_conn redis_frame).
Implicit Types (p : proto) (c : conn) (h : hconn) (e : entry) (r : redis_reply) (m : lk_msg).

Definition h_init (synthetic : bool) : hconn := HConn (session_init cfg synthetic session0) (replicate 64 0) [] 0 0 [] 0 0 false synthetic.
Definition h_orphan p h : proto := if h_degraded h then p else pbump p (fun s => s <| ps_orphan_msgs ::= inc64 |>).
Definition h_drop h : hconn * Z :=
  (h <| h_session ::= fun ss => foldl (fun ss e => drop_labels cfg (e_unit e) ss) ss (h_queue h) |> <| h_queue := [] |> <| h_txn_start := 0 |> <| h_txn_n := 0 |>
     <| h_owed := 0 |> <| h_early := [] |> <| h_batch_n := 0 |>, zlen (h_queue h)).
Definition h_drop_close p h : proto * hconn :=
  let '(h, n) := h_drop h in (pbump p (fun s => s <| ps_units_dropped_close ::= fun k => u64 (k + n) |>), h).
Definition h_expire p h (now : Z) : proto * hconn :=
  match h_queue h with
  | e :: _ => if (ru_ts_start_ns (e_unit e) <? now) && (LK_REDIS_UNIT_TIMEOUT_NS <? now - ru_ts_start_ns (e_unit e)) then h_drop_close p h else (p, h)
  | [] => (p, h)
  end.
(** A new batch: the entries of the old one keep its count. *)
Definition freeze (n : Z) e : entry := if e_live e then e <| e_live := false |> <| e_unit ::= fun u => u <| ru_depth := n |> |> else e.
Definition h_batch h : hconn := h <| h_queue ::= map (freeze (if 65535 <? h_batch_n h then 65535 else h_batch_n h)) |> <| h_batch_n := 0 |>.
(** Two commands in flight are pipelined. *)
Definition pipelined e : entry := e <| e_unit ::= fun u => u <| ru_flags ::= fun w => set_flag w LK_QO_PIPELINED |> |>.
Fixpoint mark_last (q : list entry) : list entry :=
  match q with
  | [] => []
  | [e] => [pipelined e]
  | e :: q => e :: mark_last q
  end.

Definition fresh_unit (ts : Z) : redis_unit := unit0 <| ru_ts_start_ns := ts |> <| ru_cmd := lk_redis_cmd_other |>.
Definition opened (ts : Z) (q : list entry) : redis_unit := match q with [] => fresh_unit ts | _ => e_unit (pipelined (Entry (fresh_unit ts) true false)) end.

(** ** Replies *)
Definition h_finish p c h e (rest : list entry) r : proto * hconn :=
  let u := e_unit e in
  let p := report p c (h_session h) (unit_obs XXH3 (if e_live e then h_batch_n h else ru_depth u) (h_txn_n h) u r) (rr_redirect r) in
  let ss := if negb (has_flag (ru_uflags u) (Z.lor REDIS_U_SELECT (Z.lor REDIS_U_AUTH REDIS_U_RESET))) || rr_err r then h_session h
            else apply_labels cfg u (e_own e) (h_auth h) (h_session h) in
  let '(p, start, n) := txn_step p c (h_txn_start h) (h_txn_n h) u r in
  (p, h <| h_session := ss |> <| h_txn_start := start |> <| h_txn_n := n |> <| h_queue := rest |>).
Definition h_close p c h m (end_ns : Z) : proto * hconn :=
  let r := reply_verdict m end_ns in
  match h_queue h with
  | e :: rest => h_finish p c h e rest r
  | [] =>
      if negb (h_owed h =? 0) then (p, h <| h_owed ::= fun n => n - 1 |>)
      else
        let open := match redis_dir_of c LK_DIR_RECV with Some fe => redis_value_open fe | None => false end in
        if open && (zlen (h_early h) <? LK_REDIS_MAX_EARLY) then (p, h <| h_early ::= fun l => l ++ [r] |>) else (h_orphan p h, h)
  end.
Definition h_kind h m : redis_rkind :=
  if m_type m =? REDIS_T_ATTR then REDIS_R_ATTR
  else if m_type m =? REDIS_T_PUSH then if first_is m kind_is_confirm then REDIS_R_CONFIRM else REDIS_R_PUSH
  else if (m_type m =? REDIS_T_ARRAY) && h_sub h then
    if first_is m kind_is_delivery then REDIS_R_PUSH else if first_is m kind_is_confirm then REDIS_R_CONFIRM else REDIS_R_REPLY
  else REDIS_R_REPLY.
Definition h_reply p c h m (end_ns : Z) : proto * hconn :=
  match h_kind h m with
  | REDIS_R_ATTR => (p, h)
  | REDIS_R_PUSH => (pushed p, h)
  | REDIS_R_CONFIRM =>
      let h := h <| h_sub := true |> in
      match h_queue h with
      | e :: _ => if has_flag (ru_uflags (e_unit e)) REDIS_U_SUB then h_close p c h m end_ns else (pushed p, h)
      | [] => (pushed p, h)
      end
  | REDIS_R_REPLY => h_close p c h m end_ns
  end.

(** ** Commands *)
Definition h_claim p c h : proto * hconn :=
  match h_early h with
  | [] => (p, h)
  | r :: rest =>
      match h_queue h with
      | [e] => h_finish p c (h <| h_early := rest |>) e [] r
      | _ => let h := h <| h_early := [] |> in (h_orphan p h, h)
      end
  end.
Definition h_command p c h m (v : argv) (nelem id : Z) : proto * conn * hconn :=
  let h := h <| h_batch_n ::= fun n => u32 (n + 1) |> in
  if LK_REDIS_MAX_INFLIGHT <=? zlen (h_queue h)
  then (pbump p (fun s => s <| ps_units_dropped_overflow ::= inc64 |>), c, h <| h_owed ::= fun n => u32 (n + 1) |>)
  else
    let parked := parked_name id v in
    let e := Entry (unit_fill m v nelem id (opened (m_ts_ns m) (h_queue h))) true (bool_decide (is_Some parked)) in
    let old := mark_last (h_queue h) in
    let old := if parked then map (fun e => e <| e_own := false |>) old else old in
    let h := h <| h_degraded := false |> <| h_queue := old ++ [e] |> <| h_auth ::= fun a => match parked with Some user => park_name user a | None => a end |> in
    let '(p, h) := if zlen (h_early h) =? 0 then (p, h) else h_claim p c h in
    (p, c, h).
Definition h_ignore p c h (count : lk_proto_stats -> lk_proto_stats) : proto * conn * hconn :=
  let '(p, h) := h_drop_close p h in (pbump p count, c <| c_flags ::= fun w => set_flag w LK_CONN_IGNORE |>, h).
Definition h_frontend p c h m (batch_first : bool) : proto * conn * hconn :=
  let h := if batch_first then h_batch h else h in
  let '(v, nelem) := redis_read_argv m (m_body m) LK_REDIS_ARGV_LABELS in
  if nelem =? 0 then (p, c, h)
  else
    let id := lk_redis_cmd v in
    let cflags := lk_redis_cmd_flags id in
    if has_flag cflags LK_REDIS_C_REPL then h_ignore p c h (fun s => s <| ps_replication_conns ::= inc64 |>)
    else if has_flag cflags LK_REDIS_C_MONITOR then h_ignore p c h (fun s => s <| ps_monitor_conns ::= inc64 |>)
    else
      let h := if has_flag cflags LK_REDIS_C_RESET then h <| h_sub := false |> else if has_flag cflags LK_REDIS_C_SUBON then h <| h_sub := true |> else h in
      h_command p c h m v nelem id.

(** ** Messages *)
Definition capture_facts c (d : lk_dir) m : Z * bool :=
  match redis_dir_of c d with
  | Some x => (if m_ts_ns m <? rd_last_ts x then rd_last_ts x else m_ts_ns m, rd_v_call x)
  | None => (m_ts_ns m, false)
  end.
Definition h_msg p c h (d : lk_dir) m : proto * conn * hconn :=
  let '(end_ns, batch_first) := capture_facts c d m in
  match d with
  | LK_DIR_RECV => let '(p, h) := h_expire p h (m_ts_ns m) in h_frontend p c h m batch_first
  | LK_DIR_SEND => let '(p, h) := h_reply p c h m end_ns in (p, c, h)
  end.
Definition h_resync p h : proto * hconn :=
  let '(h, n) := h_drop h in (pbump p (fun s => s <| ps_units_dropped_resync ::= fun k => u64 (k + n) |>), h <| h_degraded := true |>).
End Queue.
End Queue.

Implicit Types (rc : redis_conn) (u : redis_unit) (seq : Z).

(** ** The ring as a list *)
Record rwf (n : Z) rc : Prop := RWf {
  rw_ring : length (rc_ring rc) = 256%nat; rw_head : 0 <= rc_head_seq rc <= rc_open_seq rc; rw_full : rc_open_seq rc - rc_head_seq rc <= LK_REDIS_MAX_INFLIGHT;
  rw_open : rc_open_seq rc <= n; rw_batch : 0 <= rc_batch_seq0 rc <= rc_open_seq rc }.
Definition entry_at rc seq : entry := Entry (ring_at rc seq) (rc_batch_seq0 rc <=? seq) ((seq =? rc_auth_seq rc) && has_flag (ru_uflags (ring_at rc seq)) REDIS_U_AUTH).
Definition live rc : list Z := seqZ (rc_head_seq rc) (rc_open_seq rc - rc_head_seq rc).
Definition queue rc : list entry := map (entry_at rc) (live rc).
Definition abs rc : hconn :=
  HConn (rc_session rc) (rc_auth_user rc) (queue rc) (rc_batch_n rc) (rc_owed rc) (rc_early rc) (rc_txn_start_ns rc) (rc_txn_n rc) (rc_sub rc) (rc_degraded rc).

Lemma slot_inj a b : Z.abs (a - b) < 256 -> slot a = slot b -> a = b.
Proof.
  unfold slot. change LK_REDIS_MAX_INFLIGHT with 256. intros H E. pose proof (Z.mod_pos_bound a 256 ltac:(lia)). pose proof (Z.mod_pos_bound b 256 ltac:(lia)).
  pose proof (Z.div_mod a 256 ltac:(lia)). pose proof (Z.div_mod b 256 ltac:(lia)). lia.
Qed.
Lemma slot_lt a : (slot a < 256)%nat.
Proof. unfold slot. change LK_REDIS_MAX_INFLIGHT with 256. pose proof (Z.mod_pos_bound a 256 ltac:(lia)). lia. Qed.
Lemma ring_at_upd_eq rc s g : length (rc_ring rc) = 256%nat -> ring_at (ring_upd rc s g) s = g (ring_at rc s).
Proof.
  intros Hl. unfold ring_at, ring_upd. cbn [rc_ring upd]. destruct (lookup_lt_is_Some_2 (rc_ring rc) (slot s)) as [x Hx]; [rewrite Hl; apply slot_lt|].
  rewrite (nth_lookup_Some _ _ _ x Hx). apply nth_lookup_Some. rewrite list_lookup_alter_eq. by rewrite Hx.
Qed.
Lemma ring_at_upd_ne rc s s' g : Z.abs (s - s') < 256 -> s <> s' -> ring_at (ring_upd rc s g) s' = ring_at rc s'.
Proof.
  intros H Hne. unfold ring_at, ring_upd. cbn [rc_ring upd]. rewrite !nth_lookup. rewrite list_lookup_alter_ne; [done|]. intros E. apply Hne. by apply slot_inj.
Qed.
Lemma live_in rc s : s ∈ live rc <-> rc_head_seq rc <= s < rc_open_seq rc.
Proof. unfold live. rewrite elem_of_seqZ. lia. Qed.
Lemma map_seqZ_ext {A} (f g : Z -> A) a k : (forall s, a <= s < a + k -> f s = g s) -> map f (seqZ a k) = map g (seqZ a k).
Proof. intros H. apply map_ext_in. intros s Hs. apply H. apply list_elem_of_In, elem_of_seqZ in Hs. lia. Qed.
Lemma queue_empty rc : rc_open_seq rc <= rc_head_seq rc -> queue rc = [].
Proof. intros H. unfold queue, live. by rewrite seqZ_nil by lia. Qed.
Lemma queue_cons rc : rc_head_seq rc < rc_open_seq rc -> queue rc = entry_at rc (rc_head_seq rc) :: map (entry_at rc) (seqZ (rc_head_seq rc + 1) (rc_open_seq rc - rc_head_seq rc - 1)).
Proof. intros H. unfold queue, live. rewrite seqZ_cons by lia. done. Qed.
Lemma queue_len rc : rc_head_seq rc <= rc_open_seq rc -> zlen (queue rc) = rc_open_seq rc - rc_head_seq rc.
Proof. intros H. unfold queue, live, zlen. rewrite length_map, length_seqZ. lia. Qed.
Lemma inc64_small x : 0 <= x -> x + 1 < 2 ^ 64 -> inc64 x = x + 1.
Proof. intros. unfold inc64, u64. apply Z.mod_small. lia. Qed.

Section Refine.
Context {U : Type} (XXH3 : list Z -> Z) (cfg : lk_redis_cfg).
Abbreviation proto := (lk_proto U redis_conn redis_frame).
Abbreviation conn := (lk_conn redis_conn redis_frame).
Implicit Types (p : proto) (c : conn) (h : hconn) (e : entry) (r : redis_reply) (m : lk_msg).

Lemma front_spec n rc : rwf n rc -> unit_front rc = match queue rc with [] => None | e :: _ => Some (e_unit e) end.
Proof.
  intros W. unfold unit_front. destruct (Z.ltb_spec (rc_head_seq rc) (rc_open_seq rc)); [by rewrite queue_cons|]. by rewrite queue_empty by lia.
Qed.
(** Dropping everything. *)
Lemma drop_loop_spec k : forall rc, rc_open_seq rc - rc_head_seq rc = Z.of_nat k -> 0 <= rc_head_seq rc -> rc_open_seq rc < 2 ^ 64 ->
  drop_loop cfg k rc = (rc <| rc_session ::= fun ss => foldl (fun ss e => drop_labels cfg (e_unit e) ss) ss (queue rc) |> <| rc_head_seq := rc_open_seq rc |>, Z.of_nat k).
Proof.
  induction k as [|k IH]; intros rc Hk H0 Hn; cbn [drop_loop].
  - rewrite queue_empty by lia. f_equal. destruct rc. cbn in *. f_equal. lia.
  - destruct (Z.ltb_spec (rc_head_seq rc) (rc_open_seq rc)); [|lia]. set (rc1 := drop_unit cfg rc (ring_at rc (rc_head_seq rc))).
    assert (rc_head_seq rc1 = rc_head_seq rc + 1) as E1 by (subst rc1; unfold drop_unit; cbn; apply inc64_small; lia). assert (rc_open_seq rc1 = rc_open_seq rc) as E2 by done.
    rewrite IH by (rewrite ?E1, ?E2; lia). f_equal; [|lia]. rewrite (queue_cons rc) by done. cbn [foldl]. assert (queue rc1 = map (entry_at rc) (seqZ (rc_head_seq rc + 1) (rc_open_seq rc - rc_head_seq rc - 1))) as ->.
    { unfold queue, live. rewrite E1, E2. replace (rc_open_seq rc - (rc_head_seq rc + 1)) with (rc_open_seq rc - rc_head_seq rc - 1) by lia. done. }
    subst rc1. destruct rc. done.
Qed.
Lemma drop_all_spec n rc : rwf n rc -> n < 2 ^ 64 ->
  let '(rc', k) := units_drop_all cfg rc in h_drop cfg (abs rc) = (abs rc', k) /\ rwf n rc' /\ rc_sub rc' = rc_sub rc /\ rc_degraded rc' = rc_degraded rc.
Proof.
  intros [W1 W2 W3 W4 W5] Hn. unfold units_drop_all. rewrite drop_loop_spec by lia. split; [|split; [|done]].
  - unfold h_drop, abs. cbn. f_equal; [|unfold queue, live, zlen; rewrite length_map, length_seqZ; lia]. f_equal. symmetry. apply queue_empty. cbn. lia.
  - split; cbn; try done; change LK_REDIS_MAX_INFLIGHT with 256 in *; lia.
Qed.
(** A new batch. *)
Lemma freeze_spec d k : forall s rc, length (rc_ring rc) = 256%nat -> s + Z.of_nat k = rc_open_seq rc -> rc_head_seq rc <= s -> rc_open_seq rc - rc_head_seq rc <= 256 ->
  let rc' := freeze_from k d s rc in
  (exists ring, rc' = rc <| rc_ring := ring |> /\ length ring = 256%nat) /\
  forall t, rc_head_seq rc <= t < rc_open_seq rc -> ring_at rc' t = if s <=? t then ring_at rc t <| ru_depth := d |> else ring_at rc t.
Proof.
  induction k as [|k IH]; intros s rc Hl Hs Hh Hf; cbn [freeze_from].
  - split; [exists (rc_ring rc); by destruct rc|]. intros t Ht. destruct (Z.leb_spec s t); [lia|done].
  - destruct (Z.ltb_spec s (rc_open_seq rc)); [|lia]. set (rc1 := ring_upd rc s _). assert (length (rc_ring rc1) = 256%nat) as Hl1 by (subst rc1; unfold ring_upd; cbn; by rewrite length_alter).
    destruct (IH (s + 1) rc1 Hl1 ltac:(cbn; lia) ltac:(cbn; lia) ltac:(done)) as [(ring & E & Hr) Ht]. split; [exists ring; split; [|done]; rewrite E; subst rc1; by destruct rc|].
    intros t Hb. rewrite Ht by done. destruct (Z.eq_dec s t) as [->|Hne].
    + destruct (Z.leb_spec (t + 1) t); [lia|]. destruct (Z.leb_spec t t); [|lia]. subst rc1. by rewrite ring_at_upd_eq.
    + subst rc1. rewrite ring_at_upd_ne by lia. destruct (Z.leb_spec (s + 1) t), (Z.leb_spec s t); lia || done.
Qed.
Lemma batch_spec n rc : rwf n rc -> h_batch (abs rc) = abs (batch_new rc) /\ rwf n (batch_new rc).
Proof.
  intros [W1 W2 W3 W4 W5]. unfold batch_new. set (s := if _ <? _ then _ else _). set (dd := if _ <? _ then _ else _). change LK_REDIS_MAX_INFLIGHT with 256 in *.
  assert (rc_head_seq rc <= s <= rc_open_seq rc /\ (forall t, rc_head_seq rc <= t -> (s <=? t) = (rc_batch_seq0 rc <=? t))) as [Hs Hst].
  { subst s. destruct (Z.ltb_spec (rc_head_seq rc) (rc_batch_seq0 rc)); (split; [lia|]); intros t Ht; [done|]. destruct (Z.leb_spec (rc_head_seq rc) t), (Z.leb_spec (rc_batch_seq0 rc) t); lia || done. }
  destruct (freeze_spec dd (Z.to_nat (rc_open_seq rc - s)) s rc W1 ltac:(lia) ltac:(lia) W3) as [(ring & E & Hr) Ht]. rewrite E in *. split; [|split; cbn; try done; change LK_REDIS_MAX_INFLIGHT with 256; lia].
  set (rc' := rc <| rc_ring := ring |> <| rc_batch_seq0 := _ |> <| rc_batch_n := 0 |>). assert (queue rc' = map (freeze dd) (queue rc)) as Eq.
  { unfold queue. change (live rc') with (live rc). unfold live. rewrite map_map. apply map_seqZ_ext. intros t Hb. unfold entry_at, freeze. cbn [e_live]. change (ring_at rc' t) with (ring_at (rc <| rc_ring := ring |>) t).
    change (rc_batch_seq0 rc') with (rc_open_seq rc). change (rc_auth_seq rc') with (rc_auth_seq rc). rewrite Ht, Hst by lia. destruct (Z.leb_spec (rc_open_seq rc) t); [lia|]. by destruct (rc_batch_seq0 rc <=? t). }
  unfold abs at 2. rewrite Eq. done.
Qed.

(** ** Opening a unit *)
Lemma mark_last_snoc q e : mark_last (q ++ [e]) = q ++ [pipelined e].
Proof. induction q as [|e0 q IH]; [done|]. cbn [app mark_last]. rewrite IH. by destruct q. Qed.
Lemma queue_snoc rc : rc_head_seq rc < rc_open_seq rc ->
  queue rc = map (entry_at rc) (seqZ (rc_head_seq rc) (rc_open_seq rc - rc_head_seq rc - 1)) ++ [entry_at rc (rc_open_seq rc - 1)].
Proof.
  intros H. unfold queue, live. replace (rc_open_seq rc - rc_head_seq rc) with ((rc_open_seq rc - rc_head_seq rc - 1) + 1) by lia. rewrite seqZ_app by lia. rewrite map_app.
  replace (rc_open_seq rc - rc_head_seq rc - 1 + 1 - 1) with (rc_open_seq rc - rc_head_seq rc - 1) by lia. f_equal. replace (rc_head_seq rc + (rc_open_seq rc - rc_head_seq rc - 1)) with (rc_open_seq rc - 1) by lia. done.
Qed.
(** What an operation on the ring's newest slots leaves alone. *)
Definition same_but_ring rc rc' : Prop := exists ring, length ring = 256%nat /\ rc' = rc <| rc_ring := ring |>.
Lemma same_upd rc s g : length (rc_ring rc) = 256%nat -> same_but_ring rc (ring_upd rc s g).
Proof. intros Hl. exists (alter g (slot s) (rc_ring rc)). split; [by rewrite length_alter|done]. Qed.
Lemma same_trans rc rc1 rc2 : same_but_ring rc rc1 -> same_but_ring rc1 rc2 -> same_but_ring rc rc2.
Proof. intros (r1 & H1 & ->) (r2 & H2 & ->). by exists r2. Qed.
Lemma slot_entry_same rc rc' s : same_but_ring rc rc' -> ring_at rc' s = ring_at rc s -> entry_at rc' s = entry_at rc s.
Proof. intros (r & _ & ->) E. unfold entry_at. rewrite E. done. Qed.
Lemma open_spec n rc ts : rwf n rc -> n + 1 < 2 ^ 64 ->
  match unit_open rc ts with
  | None => LK_REDIS_MAX_INFLIGHT <= zlen (queue rc)
  | Some rc' => zlen (queue rc) < LK_REDIS_MAX_INFLIGHT /\ rwf (n + 1) rc' /\ same_but_ring (rc <| rc_open_seq := rc_open_seq rc + 1 |>) rc' /\
      queue rc' = mark_last (queue rc) ++ [Entry (opened ts (queue rc)) true false]
  end.
Proof.
  intros W Hn. pose proof W as [W1 W2 W3 W4 W5]. pose proof (queue_len rc ltac:(lia)) as Hq. unfold unit_open. change LK_REDIS_MAX_INFLIGHT with 256 in *. rewrite (u64_small (rc_open_seq rc - rc_head_seq rc)) by lia.
  destruct (Z.leb_spec 256 (rc_open_seq rc - rc_head_seq rc)) as [|Hlt]; [lia|]. split; [lia|]. set (s := rc_open_seq rc).
  set (rc1 := ring_upd rc s _ <| rc_open_seq ::= inc64 |>). set (mark := fun u : redis_unit => u <| ru_flags ::= fun w => set_flag w LK_QO_PIPELINED |>).
  assert (rc_open_seq rc1 = s + 1) as Eo by (subst rc1; cbn; apply inc64_small; lia). assert (rc_head_seq rc1 = rc_head_seq rc) as Eh by done. assert (length (rc_ring rc1) = 256%nat) as Hl1 by (subst rc1; unfold ring_upd; cbn; by rewrite length_alter).
  assert (same_but_ring (rc <| rc_open_seq := s + 1 |>) rc1) as S1.
  { exists (rc_ring rc1). split; [done|]. subst rc1. unfold ring_upd. rewrite <- Eo. destruct rc. done. }
  assert (ring_at rc1 s = fresh_unit ts) as R1 by (subst rc1; exact (ring_at_upd_eq rc s _ W1)).
  assert (forall t, rc_head_seq rc <= t < s -> ring_at rc1 t = ring_at rc t) as R2 by (intros t Ht; subst rc1; refine (ring_at_upd_ne rc s t _ _ _); lia).
  rewrite Eo, Eh. rewrite (u64_small (s + 1 - rc_head_seq rc)) by lia.
  assert (forall rc', same_but_ring rc1 rc' -> rwf (n + 1) rc' /\ same_but_ring (rc <| rc_open_seq := s + 1 |>) rc') as Hw.
  { intros rc' (ring & Hr & ->). split; [|eapply same_trans; [done|by exists ring]]. split; cbn [rc_ring rc_head_seq rc_open_seq rc_batch_seq0 upd]; rewrite ?Eo; try done; change LK_REDIS_MAX_INFLIGHT with 256; try lia; change (rc_batch_seq0 rc1) with (rc_batch_seq0 rc); change (rc_head_seq rc1) with (rc_head_seq rc); subst s; lia. }
  assert (forall rc', same_but_ring rc1 rc' -> forall t u, t < s + 1 -> rc_head_seq rc <= t -> ring_at rc' t = u -> ru_uflags u = ru_uflags (ring_at rc1 t) -> entry_at rc' t = Entry u (rc_batch_seq0 rc <=? t) ((t =? rc_auth_seq rc) && has_flag (ru_uflags (ring_at rc1 t)) REDIS_U_AUTH)) as He.
  { intros rc' (ring & Hr & ->) t u _ _ Er Eu. unfold entry_at. rewrite Er, Eu. done. }
  destruct (Z.ltb_spec 1 (s + 1 - rc_head_seq rc)) as [Hp|Hp].
  - set (rc2 := ring_upd rc1 s mark). set (rc3 := ring_upd rc2 (u64 (s + 1 - 2)) mark). assert (u64 (s + 1 - 2) = s - 1) as E64 by (rewrite u64_small by lia; lia).
    assert (same_but_ring rc1 rc2) as S2 by by apply same_upd. assert (length (rc_ring rc2) = 256%nat) as Hl2 by (subst rc2; unfold ring_upd; cbn [rc_ring upd]; by rewrite length_alter).
    assert (same_but_ring rc1 rc3) as S3 by (eapply same_trans; [exact S2|by apply same_upd]). destruct (Hw rc3 S3) as [H1 H2]. split; [exact H1|]. split; [exact H2|].
    assert (rc_open_seq rc3 = s + 1 /\ rc_head_seq rc3 = rc_head_seq rc) as [Eo3 Eh3] by (destruct S3 as (? & _ & ->); by rewrite <- Eo, <- Eh).
    rewrite (queue_snoc rc) by (subst s; lia). rewrite mark_last_snoc. rewrite (queue_snoc rc3) by (rewrite Eo3, Eh3; lia). rewrite Eo3, Eh3. replace (s + 1 - rc_head_seq rc - 1) with ((s - rc_head_seq rc - 1) + 1) by lia. rewrite seqZ_app, map_app by lia.
    replace (rc_head_seq rc + (s - rc_head_seq rc - 1)) with (s - 1) by lia. replace (s + 1 - 1) with s by lia. fold s. f_equal; [f_equal|].
    + apply map_seqZ_ext. intros t Ht. subst rc3 rc2. rewrite E64. assert (ring_at (ring_upd (ring_upd rc1 s mark) (s - 1) mark) t = ring_at rc t) as Er by (rewrite !ring_at_upd_ne by lia; apply R2; lia).
      rewrite E64 in S3. rewrite (He _ S3 t (ring_at rc t)); [|lia|lia|done|by rewrite R2 by lia]. unfold entry_at. by rewrite R2 by lia.
    + change (seqZ (s - 1) 1) with [s - 1]. cbn [map]. f_equal. rewrite (He rc3 S3 (s - 1) (mark (ring_at rc (s - 1)))); [rewrite R2 by lia; done|lia|lia| |by rewrite R2 by lia].
      subst rc3. rewrite E64, ring_at_upd_eq by done. subst rc2. rewrite ring_at_upd_ne by lia. by rewrite R2 by lia.
    + f_equal. unfold opened. destruct (map _ _ ++ _) eqn:Eq; [by destruct (map (entry_at rc) (seqZ (rc_head_seq rc) (s - rc_head_seq rc - 1)))|].
      rewrite (He rc3 S3 s (mark (fresh_unit ts))); [rewrite R1; cbn; rewrite andb_false_r; destruct (Z.leb_spec (rc_batch_seq0 rc) s); [done|lia]|lia|lia| |by rewrite R1].
      subst rc3. rewrite E64, ring_at_upd_ne by lia. subst rc2. rewrite ring_at_upd_eq by done. by rewrite R1.
  - assert (rc_head_seq rc = s) as Es by lia. assert (same_but_ring rc1 rc1) as S0 by (exists (rc_ring rc1); split; [done|by destruct rc1]). destruct (Hw rc1 S0) as [H1 H2]. split; [exact H1|]. split; [exact H2|].
    rewrite (queue_empty rc) by (fold s; lia). rewrite (queue_snoc rc1) by (rewrite Eo, Eh; lia). rewrite Eo, Eh, Es. replace (s + 1 - s - 1) with 0 by lia. rewrite seqZ_nil by lia. cbn [map app mark_last]. f_equal. replace (s + 1 - 1) with s by lia.
    rewrite (He rc1 S0 s (fresh_unit ts)); [|lia|lia|done|by rewrite R1]. rewrite R1. cbn. rewrite andb_false_r. destruct (Z.leb_spec (rc_batch_seq0 rc) s); [done|lia].
Qed.

Lemma flag_auth_or a b : has_flag (Z.lor a b) REDIS_U_AUTH = has_flag a REDIS_U_AUTH || has_flag b REDIS_U_AUTH.
Proof.
  unfold has_flag. rewrite Z.land_lor_distr_l. destruct (Z.eqb_spec (Z.land a REDIS_U_AUTH) 0) as [->|Ha]; [by rewrite Z.lor_0_l|]. cbn [negb orb].
  destruct (Z.eqb_spec (Z.lor (Z.land a REDIS_U_AUTH) (Z.land b REDIS_U_AUTH)) 0) as [E|]; [|done]. apply Z.lor_eq_0_iff in E as [E _]. done.
Qed.
Lemma uflags_auth cflags : has_flag (unit_uflags cflags) REDIS_U_AUTH = false.
Proof. unfold unit_uflags. by destruct (has_flag cflags LK_REDIS_C_SUBFAM), (has_flag cflags LK_REDIS_C_MULTI), (has_flag cflags LK_REDIS_C_EXEC), (has_flag cflags LK_REDIS_C_DISCARD). Qed.
Lemma fill_auth m v nelem id u : ru_uflags u = 0 -> has_flag (ru_uflags (unit_fill m v nelem id u)) REDIS_U_AUTH = bool_decide (is_Some (parked_name id v)).
Proof.
  intros E. unfold unit_fill, unit_candidate, parked_name. destruct (lk_redis_session id v) as [[[] db] user]; cbn [ru_uflags upd]; unfold set_flag; rewrite E, Z.lor_0_l; rewrite ?flag_auth_or, uflags_auth; done.
Qed.
Lemma queue_last_upd n rc g q e : rwf n rc -> rc_head_seq rc < rc_open_seq rc -> queue rc = q ++ [e] ->
  queue (ring_upd rc (rc_open_seq rc - 1) g) = q ++ [Entry (g (e_unit e)) (e_live e) ((rc_open_seq rc - 1 =? rc_auth_seq rc) && has_flag (ru_uflags (g (e_unit e))) REDIS_U_AUTH)] /\
  rwf n (ring_upd rc (rc_open_seq rc - 1) g).
Proof.
  intros [W1 W2 W3 W4 W5] Hl Eq. change LK_REDIS_MAX_INFLIGHT with 256 in *. pose proof (same_upd rc (rc_open_seq rc - 1) g W1) as Hs. split.
  - rewrite (queue_snoc rc) in Eq by done. apply app_inj_tail in Eq as [<- <-]. set (rc' := ring_upd rc _ g) in *. rewrite (queue_snoc rc') by done. change (rc_open_seq rc') with (rc_open_seq rc). change (rc_head_seq rc') with (rc_head_seq rc). f_equal.
    + apply map_seqZ_ext. intros t Ht. apply slot_entry_same; [done|]. subst rc'. apply ring_at_upd_ne; lia.
    + f_equal. unfold entry_at. subst rc'. rewrite ring_at_upd_eq by done. done.
  - destruct Hs as (ring & Hr & ->). by split.
Qed.
Lemma queue_park n rc user q e : rwf n rc -> rc_head_seq rc < rc_open_seq rc -> queue rc = q ++ [e] ->
  queue (auth_park rc (rc_open_seq rc - 1) user) = map (fun e => e <| e_own := false |>) q ++ [Entry (e_unit e) (e_live e) (has_flag (ru_uflags (e_unit e)) REDIS_U_AUTH)] /\ rwf n (auth_park rc (rc_open_seq rc - 1) user).
Proof.
  intros W Hl Eq. split; [|by destruct W]. rewrite (queue_snoc rc) in Eq by done. apply app_inj_tail in Eq as [<- <-]. set (rc' := auth_park rc _ user). rewrite (queue_snoc rc') by done.
  change (rc_open_seq rc') with (rc_open_seq rc). change (rc_head_seq rc') with (rc_head_seq rc). rewrite map_map. f_equal.
  - apply map_seqZ_ext. intros t Ht. unfold entry_at. change (rc_auth_seq rc') with (rc_open_seq rc - 1). destruct (Z.eqb_spec t (rc_open_seq rc - 1)); [lia|done].
  - f_equal. unfold entry_at. change (rc_auth_seq rc') with (rc_open_seq rc - 1). rewrite Z.eqb_refl. done.
Qed.
Lemma queue_keep rc rc' : rc_ring rc' = rc_ring rc -> rc_head_seq rc' = rc_head_seq rc -> rc_open_seq rc' = rc_open_seq rc -> rc_batch_seq0 rc' = rc_batch_seq0 rc -> rc_auth_seq rc' = rc_auth_seq rc -> queue rc' = queue rc.
Proof. intros E1 E2 E3 E4 E5. unfold queue, live. rewrite E2, E3. apply map_ext. intros t. unfold entry_at, ring_at. by rewrite E1, E4, E5. Qed.

(** ** Closing a unit *)
Lemma apply_own u own a ss : apply_labels cfg u (own && has_flag (ru_uflags u) REDIS_U_AUTH) a ss = apply_labels cfg u own a ss.
Proof. unfold apply_labels. destruct (has_flag (ru_uflags u) REDIS_U_AUTH); [by rewrite andb_true_r|done]. Qed.
Lemma close_spec n p c rc e rest r : rwf n rc -> n < 2 ^ 64 -> queue rc = e :: rest ->
  let '(p', rc') := close_front XXH3 cfg p c rc (e_unit e) r in h_finish XXH3 cfg p c (abs rc) e rest r = (p', abs rc') /\ rwf n rc'.
Proof.
  intros [W1 W2 W3 W4 W5] Hn Eq. assert (rc_head_seq rc < rc_open_seq rc) as Hl by (destruct (Z.lt_ge_cases (rc_head_seq rc) (rc_open_seq rc)); [done|by rewrite queue_empty in Eq]).
  pose proof (queue_cons rc Hl) as Eq'. rewrite Eq in Eq'. injection Eq' as Ee Er. unfold close_front, h_finish. set (seq := rc_head_seq rc).
  assert (unit_emit XXH3 p c rc (e_unit e) seq r = report p c (h_session (abs rc)) (unit_obs XXH3 (if e_live e then h_batch_n (abs rc) else ru_depth (e_unit e)) (h_txn_n (abs rc)) (e_unit e) r) (rr_redirect r)) as -> by (by rewrite Ee).
  set (p1 := report _ _ _ _ _). set (rc1 := session_apply cfg rc (e_unit e) seq (rr_err r)).
  set (ss := if negb _ || rr_err r then h_session (abs rc) else _). assert (rc1 = rc <| rc_session := ss |>) as E1.
  { subst rc1 ss. unfold session_apply. destruct (_ || _); [by destruct rc|]. change (h_auth (abs rc)) with (rc_auth_user rc). change (h_session (abs rc)) with (rc_session rc). rewrite Ee. unfold entry_at. cbn [e_unit e_own]. rewrite apply_own. done. }
  rewrite E1. unfold txn_apply. change (rc_txn_start_ns (rc <| rc_session := ss |>)) with (h_txn_start (abs rc)). change (rc_txn_n (rc <| rc_session := ss |>)) with (h_txn_n (abs rc)).
  destruct (txn_step p1 c (h_txn_start (abs rc)) (h_txn_n (abs rc)) (e_unit e) r) as [[p2 st] k]. set (rc2 := _ <| rc_head_seq ::= inc64 |>).
  assert (rc_head_seq rc2 = rc_head_seq rc + 1) as Eh by (subst rc2; cbn; apply inc64_small; lia). split.
  - f_equal. unfold abs at 2. assert (queue rc2 = rest) as ->; [|done]. rewrite Er. unfold queue, live. rewrite Eh. change (rc_open_seq rc2) with (rc_open_seq rc).
    replace (rc_open_seq rc - (rc_head_seq rc + 1)) with (rc_open_seq rc - rc_head_seq rc - 1) by lia. done.
  - split; try done; rewrite ?Eh; change (rc_open_seq rc2) with (rc_open_seq rc); lia.
Qed.
(** The steps of the machine, one by one. *)
Lemma keep_spec n rc rc' : rwf n rc -> rc_ring rc' = rc_ring rc -> rc_head_seq rc' = rc_head_seq rc -> rc_open_seq rc' = rc_open_seq rc -> rc_batch_seq0 rc' = rc_batch_seq0 rc -> rwf n rc'.
Proof. intros [W1 W2 W3 W4 W5] E1 E2 E3 E4. split; rewrite ?E1, ?E2, ?E3, ?E4; done. Qed.
Lemma unit_close_spec n p c rc m end_ns : rwf n rc -> n < 2 ^ 64 ->
  let '(p', rc') := unit_close XXH3 cfg p c rc m end_ns in h_close XXH3 cfg p c (abs rc) m end_ns = (p', abs rc') /\ rwf n rc'.
Proof.
  intros W Hn. unfold unit_close, h_close. rewrite (front_spec n rc W). change (h_queue (abs rc)) with (queue rc). destruct (queue rc) as [|e rest] eqn:Eq; [|by apply close_spec].
  change (h_owed (abs rc)) with (rc_owed rc). change (h_early (abs rc)) with (rc_early rc). destruct (negb _); [split; [done|by apply (keep_spec n rc)]|]. destruct (_ && _); (split; [done|]); [by apply (keep_spec n rc)|done].
Qed.
Lemma claim_spec n p c rc : rwf n rc -> n < 2 ^ 64 -> rc_early rc <> [] ->
  let '(p', rc') := early_claim XXH3 cfg p c rc in h_claim XXH3 cfg p c (abs rc) = (p', abs rc') /\ rwf n rc'.
Proof.
  intros W Hn He. pose proof W as [W1 W2 W3 W4 W5]. unfold early_claim, h_claim. change (h_early (abs rc)) with (rc_early rc). destruct (rc_early rc) as [|r rest]; [done|]. change (h_queue (abs rc)) with (queue rc).
  pose proof (queue_len rc ltac:(lia)) as Hq. destruct (Z.eqb_spec (u64 (rc_head_seq rc + 1)) (rc_open_seq rc)) as [E|E]; cbn [negb].
  - assert (rc_head_seq rc + 1 = rc_open_seq rc) as E1.
    { destruct (Z.eq_dec (rc_head_seq rc) (2 ^ 64 - 1)) as [E2|]; [exfalso; rewrite E2 in E; change (u64 (2 ^ 64 - 1 + 1)) with 0 in E; lia|]. rewrite u64_small in E by lia. done. }
    destruct (queue rc) as [|e [|e' q]] eqn:Eq; [change (zlen []) with 0 in Hq; lia| |rewrite !zlen_cons in Hq; pose proof (zlen_nonneg q); lia].
    set (rc1 := rc <| rc_early := rest |>). assert (queue rc1 = [e]) as Eq1 by (rewrite <- Eq; by apply queue_keep). assert (rwf n rc1) as W' by by apply (keep_spec n rc).
    pose proof (close_spec n p c rc1 e [] r W' Hn Eq1) as H. replace (ring_at rc1 (rc_head_seq rc1)) with (e_unit e); [exact H|].
    rewrite queue_cons in Eq1 by (change (rc_head_seq rc1) with (rc_head_seq rc); change (rc_open_seq rc1) with (rc_open_seq rc); lia). by injection Eq1 as <- _.
  - destruct (queue rc) as [|e [|e' q]] eqn:Eq; [|change (zlen [e]) with 1 in Hq; rewrite u64_small in E by lia; lia|].
    all: split; [unfold abs at 1; cbn; rewrite Eq; reflexivity || (f_equal; unfold abs; cbn; f_equal; symmetry; rewrite <- Eq; by apply queue_keep)|by apply (keep_spec n rc)].
Qed.

(** A refinement of a step that returns a connection. *)
Definition refines n (res : proto * conn * redis_conn) (spec : proto * conn * hconn) : Prop := spec = (res.1.1, res.1.2, abs res.2) /\ rwf n res.2.
Lemma ref_pair n c (res : proto * redis_conn) (spec : proto * hconn) : (let '(p', rc') := res in spec = (p', abs rc') /\ rwf n rc') ->
  refines n (let '(p, rc) := res in (p, c, rc)) (let '(p, h) := spec in (p, c, h)).
Proof. destruct res as [p' rc']. by intros [-> H]. Qed.
Lemma abs_keep rc rc' : queue rc' = queue rc -> abs rc' = abs rc' <| h_queue := queue rc |>.
Proof. intros E. unfold abs. cbn. by rewrite E. Qed.
Lemma command_spec n p c rc m v nelem id : rwf n rc -> n + 1 < 2 ^ 64 ->
  refines (n + 1) (command_open XXH3 cfg p c rc m v nelem id) (h_command XXH3 cfg p c (abs rc) m v nelem id).
Proof.
  intros W Hn. unfold command_open, h_command. set (rc0 := rc <| rc_batch_n ::= fun k => u32 (k + 1) |>). set (h0 := abs rc <| h_batch_n ::= fun k => u32 (k + 1) |>).
  assert (rwf n rc0) as W0 by by apply (keep_spec n rc). assert (queue rc0 = queue rc) as Eq0 by by apply queue_keep. change (h_queue h0) with (queue rc). rewrite <- Eq0.
  pose proof (open_spec n rc0 (m_ts_ns m) W0 Hn) as Ho. destruct (unit_open rc0 (m_ts_ns m)) as [rc1|].
  2: { destruct (Z.leb_spec LK_REDIS_MAX_INFLIGHT (zlen (queue rc0))); [|lia]. split; [unfold h0; f_equal; unfold abs; cbn; by rewrite <- (queue_keep rc (rc0 <| rc_owed ::= fun k => u32 (k + 1) |>))|].
       destruct W. split; cbn; try done; lia. }
  destruct Ho as (Hz & W1 & S1 & Eq1). destruct (Z.leb_spec LK_REDIS_MAX_INFLIGHT (zlen (queue rc0))); [lia|]. set (Q := mark_last (queue rc0)) in *.
  assert (rc_open_seq rc1 = rc_open_seq rc + 1) as Eo by (by destruct S1 as (? & _ & ->)).
  pose proof (rw_head _ _ W1) as Hh1. pose proof (rw_head _ _ W) as Hh. assert (rc_head_seq rc1 = rc_head_seq rc) as Eh by (by destruct S1 as (? & _ & ->)).
  assert (u64 (rc_open_seq rc1 - 1) = rc_open_seq rc1 - 1) as -> by (pose proof (rw_open _ _ W1); rewrite u64_small by lia; done).
  set (rc2 := rc1 <| rc_degraded := false |>). assert (rwf (n + 1) rc2) as W2 by by apply (keep_spec (n + 1) rc1). assert (queue rc2 = Q ++ [Entry (opened (m_ts_ns m) (queue rc0)) true false]) as Eq2 by (rewrite <- Eq1; by apply queue_keep).
  change (rc_open_seq rc1) with (rc_open_seq rc2). assert (rc_head_seq rc2 < rc_open_seq rc2) as Hl by (change (rc_open_seq rc2) with (rc_open_seq rc1); change (rc_head_seq rc2) with (rc_head_seq rc1); lia).
  destruct (queue_last_upd (n + 1) rc2 (unit_fill m v nelem id) Q _ W2 Hl Eq2) as [Eq3 W3]. set (rc3 := ring_upd rc2 (rc_open_seq rc2 - 1) (unit_fill m v nelem id)) in *. cbn [e_unit e_live] in Eq3.
  assert (ru_uflags (opened (m_ts_ns m) (queue rc0)) = 0) as Eu by (unfold opened; by destruct (queue rc0)). pose proof (fill_auth m v nelem id _ Eu) as Ea. set (u := unit_fill m v nelem id (opened (m_ts_ns m) (queue rc0))) in *.
  set (rc4 := match parked_name id v with Some user => auth_park rc3 (rc_open_seq rc2 - 1) user | None => rc3 end).
  set (h4 := h0 <| h_degraded := false |> <| h_queue := _ |> <| h_auth ::= _ |>).
  assert (h4 = abs rc4 /\ rwf (n + 1) rc4) as [Eh4 W4].
  { assert (forall rc', rc_session rc' = rc_session rc -> rc_batch_n rc' = u32 (rc_batch_n rc + 1) -> rc_owed rc' = rc_owed rc -> rc_early rc' = rc_early rc -> rc_txn_start_ns rc' = rc_txn_start_ns rc -> rc_txn_n rc' = rc_txn_n rc -> rc_sub rc' = rc_sub rc -> rc_degraded rc' = false ->
      abs rc' = HConn (rc_session rc) (rc_auth_user rc') (queue rc') (u32 (rc_batch_n rc + 1)) (rc_owed rc) (rc_early rc) (rc_txn_start_ns rc) (rc_txn_n rc) (rc_sub rc) false) as Habs by (intros rc' E1 E2 E3 E4 E5 E6 E7 E8; unfold abs; congruence).
    destruct S1 as (ring & Hr & S1). subst h4 rc4. destruct (parked_name id v) as [user|] eqn:Ep.
    - destruct (queue_park (n + 1) rc3 user Q _ W3 Hl Eq3) as [Eq4 W4]. change (rc_open_seq rc3) with (rc_open_seq rc2) in Eq4, W4. split; [|exact W4]. rewrite Habs by (subst rc3 rc2; rewrite S1; done). rewrite Eq4. cbn [e_unit e_live]. rewrite Ea.
      subst rc3 rc2. rewrite S1. done.
    - split; [|exact W3]. rewrite Habs by (subst rc3 rc2; rewrite S1; done). rewrite Eq3, Ea. rewrite andb_false_r. subst rc3 rc2. rewrite S1. done. }
  rewrite Eh4. change (h_early (abs rc4)) with (rc_early rc4). destruct (Z.eqb_spec (zlen (rc_early rc4)) 0) as [|Hne]; [done|].
  apply (ref_pair (n + 1) c (early_claim XXH3 cfg p c rc4) (h_claim XXH3 cfg p c (abs rc4))). apply claim_spec; [done|lia|]. intros E. by rewrite E in Hne.
Qed.

Lemma drop_close_spec n p rc : rwf n rc -> n < 2 ^ 64 -> let '(p', rc') := drop_close cfg p rc in h_drop_close cfg p (abs rc) = (p', abs rc') /\ rwf n rc'.
Proof. intros W Hn. unfold drop_close, h_drop_close. pose proof (drop_all_spec n rc W Hn) as H. destruct (units_drop_all cfg rc) as [rc' k]. destruct H as (-> & H & _). done. Qed.
Lemma expire_spec n p rc now : rwf n rc -> n < 2 ^ 64 -> let '(p', rc') := units_expire cfg p rc now in h_expire cfg p (abs rc) now = (p', abs rc') /\ rwf n rc'.
Proof.
  intros W Hn. unfold units_expire, h_expire. rewrite (front_spec n rc W). change (h_queue (abs rc)) with (queue rc). destruct (queue rc) as [|e q]; [done|]. destruct (_ && _); [by apply drop_close_spec|done].
Qed.
Lemma rwf_mono n n' rc : n <= n' -> rwf n rc -> rwf n' rc.
Proof. intros H []. split; try done. lia. Qed.
Lemma refines_mono n n' res spec : n <= n' -> refines n res spec -> refines n' res spec.
Proof. intros H [E W]. split; [done|by eapply rwf_mono]. Qed.
Lemma ignore_spec n p c rc cnt : rwf n rc -> n < 2 ^ 64 -> refines n (ignore_conn cfg p c rc cnt) (h_ignore cfg p c (abs rc) cnt).
Proof. intros W Hn. unfold ignore_conn, h_ignore. pose proof (drop_close_spec n p rc W Hn) as H. destruct (drop_close cfg p rc) as [p' rc']. destruct H as [-> H]. done. Qed.
Lemma abs_sub rc b : abs (rc <| rc_sub := b |>) = abs rc <| h_sub := b |>.
Proof. done. Qed.
Lemma frontend_spec n p c rc m b : rwf n rc -> n + 1 < 2 ^ 64 -> refines (n + 1) (redis_command XXH3 cfg p c rc m b) (h_frontend XXH3 cfg p c (abs rc) m b).
Proof.
  intros W Hn. unfold redis_command, h_frontend. set (rc1 := if b then batch_new rc else rc). assert ((if b then h_batch (abs rc) else abs rc) = abs rc1 /\ rwf n rc1) as [-> W1] by (subst rc1; destruct b; [by apply batch_spec|done]). clearbody rc1. clear rc W.
  destruct (redis_read_argv m (m_body m) LK_REDIS_ARGV_LABELS) as [v nelem]. destruct (nelem =? 0); [split; [done|apply (rwf_mono n); [lia|done]]|].
  set (id := lk_redis_cmd v). destruct (has_flag _ LK_REDIS_C_REPL); [by apply (refines_mono n); [lia|apply ignore_spec; [|lia]]|]. destruct (has_flag _ LK_REDIS_C_MONITOR); [by apply (refines_mono n); [lia|apply ignore_spec; [|lia]]|].
  set (rc2 := if has_flag _ LK_REDIS_C_RESET then _ else _). set (h2 := if has_flag _ LK_REDIS_C_RESET then _ else _). assert (h2 = abs rc2 /\ rwf n rc2) as [-> W2].
  { subst h2 rc2. destruct (has_flag _ LK_REDIS_C_RESET); [rewrite abs_sub; split; [done|by apply (keep_spec n rc1)]|]. destruct (has_flag _ LK_REDIS_C_SUBON); [rewrite abs_sub; split; [done|by apply (keep_spec n rc1)]|done]. }
  by apply command_spec.
Qed.
Lemma reply_spec n p c rc m end_ns : rwf n rc -> n < 2 ^ 64 ->
  let '(p', rc') := redis_reply_msg XXH3 cfg p c rc m end_ns in h_reply XXH3 cfg p c (abs rc) m end_ns = (p', abs rc') /\ rwf n rc'.
Proof.
  intros W Hn. unfold redis_reply_msg, h_reply. change (h_kind (abs rc) m) with (reply_kind rc m). destruct (reply_kind rc m); [by apply unit_close_spec| |done|done].
  rewrite (front_spec n rc W). rewrite <- abs_sub. assert (rwf n (rc <| rc_sub := true |>)) as W' by by apply (keep_spec n rc). assert (h_queue (abs (rc <| rc_sub := true |>)) = queue rc) as -> by by apply queue_keep.
  destruct (queue rc) as [|e q]; [done|]. destruct (has_flag _ _); [by apply unit_close_spec|done].
Qed.
Lemma msg_spec n p c rc d m : rwf n rc -> n + 1 < 2 ^ 64 ->
  let '(end_ns, batch_first) := capture_facts c d m in
  refines (n + 1) (match d with
                   | LK_DIR_RECV => let '(p, rc) := units_expire cfg p rc (m_ts_ns m) in redis_command XXH3 cfg p c rc m batch_first
                   | LK_DIR_SEND => let '(p, rc) := redis_reply_msg XXH3 cfg p c rc m end_ns in (p, c, rc)
                   end) (h_msg XXH3 cfg p c (abs rc) d m).
Proof.
  intros W Hn. unfold h_msg. destruct (capture_facts c d m) as [end_ns b]. destruct d.
  - pose proof (reply_spec n p c rc m end_ns W ltac:(lia)) as H. apply (refines_mono n); [lia|]. by apply ref_pair.
  - pose proof (expire_spec n p rc (m_ts_ns m) W ltac:(lia)) as H. destruct (units_expire cfg p rc (m_ts_ns m)) as [p1 rc1]. destruct H as [-> W1]. by apply frontend_spec.
Qed.
End Refine.

(** ** Runs under a recording consumer *)
(** What a handler reports, in order. *)
Inductive reported := RQuery (s : lk_session) (o : lk_query_obs) | RTxn (start stop status : Z).
Definition recorder : lk_query_sink (list reported) redis_conn redis_frame :=
  QSink (Some (fun l _ s o => l ++ [RQuery s o])) None (Some (fun l _ a b z => l ++ [RTxn a b z])).
(** A callback of the framer: a message with the framing state of its moment, or a
    resync. *)
Inductive call := CMsg (fs : option redis_frame) (d : lk_dir) (m : lk_msg) | CResync (d : lk_dir).

Section Run.
Context (XXH3 : list Z -> Z) (cfg : lk_redis_cfg).
Abbreviation proto := (lk_proto (list reported) redis_conn redis_frame).
Abbreviation conn := (lk_conn redis_conn redis_frame).
Implicit Types (p : proto) (c : conn) (h : hconn) (m : lk_msg) (k : call) (ks : list call) (n : Z).

Definition call1 p c k : proto * conn :=
  match k with
  | CMsg fs d m => redis_on_msg XXH3 cfg p (c <| c_frame_state := fs |>) d m
  | CResync d => redis_on_resync cfg p c d
  end.
Definition run p c ks : proto * conn := foldl (fun pc k => call1 pc.1 pc.2 k) (p, c) ks.

Definition tallied p d m : proto := pbump (pbump p (fun s => s <| ps_msgs ::= inc64 |>)) (count_type d (u8 (m_type m))).
(** The queue machine sees the framing state and nothing else of the connection. *)
Definition seen (fs : option redis_frame) : conn := conn0 0 <| c_frame_state := fs |>.
Definition h_call p h k : proto * hconn :=
  match k with
  | CMsg fs d m =>
      let p := tallied p d m in
      if m_type m =? LK_REDIS_MSG_NOTE then (framer_note p m, h) else let '(p, _, h) := h_msg XXH3 cfg p (seen fs) h d m in (p, h)
  | CResync d => h_resync cfg (pbump p (fun s => s <| ps_resyncs ::= inc64 |>)) h
  end.
Definition h_run p h ks : proto * hconn := foldl (fun ph k => h_call ph.1 ph.2 k) (p, h) ks.

(** ** The recorder does not look at the connection *)
Lemma report_seen p c c' ss o rd : p_out p = recorder -> report p c ss o rd = report p c' ss o rd /\ p_out (report p c ss o rd) = recorder.
Proof.
  intros H. unfold report. set (p1 := if rd =? 0 then _ else _). assert (p_out p1 = recorder) as H1 by (subst p1; destruct (rd =? 0), (has_flag _ _); exact H). unfold up_query. rewrite H1. done.
Qed.
Lemma txn_seen p c c' st n u r : p_out p = recorder -> txn_step p c st n u r = txn_step p c' st n u r /\ p_out (txn_step p c st n u r).1.1 = recorder.
Proof.
  intros H. unfold txn_step. destruct (has_flag _ REDIS_U_MULTI); [by destruct (_ && _)|]. destruct (_ && _); [done|]. destruct (negb _); [done|]. destruct (_ || _); [done|]. unfold up_txn. rewrite H. done.
Qed.
Definition same_seen {A} (x x' : proto * A) : Prop := x = x' /\ p_out x.1 = recorder.
Lemma finish_seen p c c' h e rest r : p_out p = recorder -> same_seen (h_finish XXH3 cfg p c h e rest r) (h_finish XXH3 cfg p c' h e rest r).
Proof.
  intros H. unfold h_finish. match goal with |- context [report p c ?s ?o ?rd] => destruct (report_seen p c c' s o rd H) as [E1 E2]; rewrite <- E1; set (p1 := report p c s o rd) in * end.
  match goal with |- context [txn_step p1 c ?a ?b ?u ?r] => destruct (txn_seen p1 c c' a b u r E2) as [E3 E4]; rewrite <- E3; destruct (txn_step p1 c a b u r) as [[p2 ?] ?] end. done.
Qed.
Lemma close_seen p c c' h m t : p_out p = recorder -> c_frame_state c' = c_frame_state c -> same_seen (h_close XXH3 cfg p c h m t) (h_close XXH3 cfg p c' h m t).
Proof.
  intros H E. unfold h_close, redis_dir_of. rewrite E. destruct (h_queue h); [|by apply finish_seen]. destruct (negb _); [done|]. destruct (_ && _); [done|]. split; [done|]. unfold h_orphan. by destruct (h_degraded h).
Qed.
Lemma reply_seen p c c' h m t : p_out p = recorder -> c_frame_state c' = c_frame_state c -> same_seen (h_reply XXH3 cfg p c h m t) (h_reply XXH3 cfg p c' h m t).
Proof.
  intros H E. unfold h_reply. destruct (h_kind h m); [by apply close_seen| |done|done]. destruct (h_queue _); [done|]. destruct (has_flag _ _); [by apply close_seen|done].
Qed.
Lemma claim_seen p c c' h : p_out p = recorder -> same_seen (h_claim XXH3 cfg p c h) (h_claim XXH3 cfg p c' h).
Proof.
  intros H. unfold h_claim. destruct (h_early h) as [|r rest]; [done|]. destruct (h_queue h) as [|e [|]]; [|by apply finish_seen|]; (split; [done|]; unfold h_orphan; by destruct (h_degraded _)).
Qed.
Definition triple_seen (x x' : proto * conn * hconn) : Prop := x.1.1 = x'.1.1 /\ x.2 = x'.2 /\ p_out x.1.1 = recorder.
Lemma msg_seen p c c' h d m : p_out p = recorder -> c_frame_state c' = c_frame_state c -> triple_seen (h_msg XXH3 cfg p c h d m) (h_msg XXH3 cfg p c' h d m).
Proof.
  intros H E. unfold h_msg, capture_facts, redis_dir_of. rewrite E. destruct (match _ with Some x => _ | None => _ end) as [t b]. destruct d.
  - destruct (reply_seen p c c' h m t H E) as [E1 E2]. rewrite <- E1. by destruct (h_reply XXH3 cfg p c h m t).
  - assert (forall p h, p_out p = recorder -> p_out (h_drop_close cfg p h).1 = recorder) as Hd by done.
    assert (p_out (h_expire cfg p h (m_ts_ns m)).1 = recorder) as H1 by (unfold h_expire; destruct (h_queue h); [done|]; by destruct (_ && _)). destruct (h_expire cfg p h (m_ts_ns m)) as [p1 h1]. cbn [fst] in H1.
    unfold h_frontend. set (h2 := if b then _ else _). destruct (redis_read_argv _ _ _) as [v nelem]. destruct (nelem =? 0); [done|]. destruct (has_flag _ LK_REDIS_C_REPL); [done|]. destruct (has_flag _ LK_REDIS_C_MONITOR); [done|].
    unfold h_command. destruct (_ <=? _); [done|]. destruct (_ =? 0); [done|]. match goal with |- context [h_claim XXH3 cfg p1 c ?h'] => destruct (claim_seen p1 c c' h' H1) as [E1 E2]; rewrite <- E1; by destruct (h_claim XXH3 cfg p1 c h') end.
Qed.

(** ** One call *)
Lemma call_spec n p c rc k : p_out p = recorder -> c_proto_state c = Some rc -> rwf n rc -> n + 1 < 2 ^ 64 ->
  exists rc', c_proto_state (call1 p c k).2 = Some rc' /\ h_call p (abs rc) k = ((call1 p c k).1, abs rc') /\ rwf (n + 1) rc' /\ p_out (call1 p c k).1 = recorder.
Proof.
  intros Hp Hc W Hn. destruct k as [fs d m|d]; cbn [call1 h_call].
  - unfold redis_on_msg, redis_conn_get. set (c0 := c <| c_frame_state := fs |>). assert (c_proto_state c0 = Some rc) as -> by done. fold (tallied p d m). assert (p_out (tallied p d m) = recorder) as Hp1 by done. set (p1 := tallied p d m) in *. clearbody p1.
    destruct (m_type m =? LK_REDIS_MSG_NOTE).
    { exists rc. split; [done|]. split; [done|]. split; [by apply (rwf_mono n); [lia|]|]. unfold framer_note. by destruct (LK_REDIS_NOTE_IS_PARSE_ERR _). }
    set (rc1 := rc <| rc_msgs ::= inc64 |>). assert (rwf n rc1) as W1 by by apply (keep_spec n rc). change (abs rc) with (abs rc1).
    pose proof (msg_spec XXH3 cfg n p1 c0 rc1 d m W1 Hn) as H. unfold capture_facts in H. destruct (match redis_dir_of c0 d with Some x => _ | None => _ end) as [t b].
    destruct (msg_seen p1 c0 (seen fs) (abs rc1) d m Hp1 ltac:(done)) as (S1 & S2 & S3). destruct (match d with LK_DIR_SEND => _ | LK_DIR_RECV => _ end) as [[p2 c2] rc2]. destruct H as [H W2]. cbn [fst snd] in H, W2. rewrite H in S1, S2, S3. cbn [fst snd] in S1, S2, S3.
    exists rc2. split; [done|]. split; [|done]. destruct (h_msg XXH3 cfg p1 (seen fs) (abs rc1) d m) as [[p3 c3] h3]. cbn [fst snd] in S1, S2. by subst.
  - unfold redis_on_resync, redis_conn_get. rewrite Hc. pose proof (drop_all_spec cfg n rc W ltac:(lia)) as H. unfold drop_resync, h_resync. destruct (units_drop_all cfg rc) as [rc1 j]. destruct H as (-> & W1 & _).
    exists (rc1 <| rc_degraded := true |>). split; [done|]. split; [done|]. split; [|done]. apply (rwf_mono n); [lia|]. by apply (keep_spec n rc1).
Qed.
Lemma run_spec ks : forall n p c rc, p_out p = recorder -> c_proto_state c = Some rc -> rwf n rc -> n + zlen ks < 2 ^ 64 ->
  exists rc', c_proto_state (run p c ks).2 = Some rc' /\ h_run p (abs rc) ks = ((run p c ks).1, abs rc') /\ rwf (n + zlen ks) rc' /\ p_out (run p c ks).1 = recorder.
Proof.
  induction ks as [|k ks IH]; intros n p c rc Hp Hc W Hn; [exists rc; change (zlen []) with 0; rewrite Z.add_0_r; done|]. rewrite zlen_cons in *. pose proof (zlen_nonneg ks).
  destruct (call_spec n p c rc k Hp Hc W ltac:(lia)) as (rc1 & H1 & H2 & H3 & H4). unfold run, h_run in *. cbn [foldl fst snd]. rewrite H2. cbn [fst snd]. destruct (call1 p c k) as [p1 c1]. cbn [fst snd] in *.
  replace (n + (zlen ks + 1)) with (n + 1 + zlen ks) by lia. by apply IH; [| | |lia].
Qed.
End Run.
