(* ===== verification/RedisReports.v ===== *)
(** What the queue machine reports, and with it the handler: pipelines, single exchanges,
    transactions, and the histories they follow. *)
From Stdlib Require Import Ascii String.
From stdpp Require Import base list list_numbers option.
From S2P Require Import Prelude Conn Reassembly Proto Decimal RedisFrame RedisResp NormRedisTab NormRedis RedisArgv RedisConn Redis RedisHandler.
#[local] Open Scope Z_scope.

(** ** Pipelines *)
Section Queues.
Implicit Types (m : lk_msg) (h : hconn) (rc : redis_conn) (fs : option redis_frame).

Lemma flag_or w a b : has_flag w (Z.lor a b) = has_flag w a || has_flag w b.
Proof.
  unfold has_flag. rewrite Z.land_lor_distr_r. destruct (Z.eqb_spec (Z.land w a) 0) as [->|Ha]; [by rewrite Z.lor_0_l|]. cbn [negb orb].
  destruct (Z.eqb_spec (Z.lor (Z.land w a) (Z.land w b)) 0) as [E|]; [|done]. apply Z.lor_eq_0_iff in E as [E _]. done.
Qed.
(** The two facts about the capture. *)
Definition opens_batch fs : bool := match fs with Some rf => rd_v_call (rf_recv rf) | None => false end.
Definition end_of fs m : Z := match fs with Some rf => if m_ts_ns m <? rd_last_ts (rf_send rf) then rd_last_ts (rf_send rf) else m_ts_ns m | None => m_ts_ns m end.
Definition argv_of m : argv := (redis_read_argv m (m_body m) LK_REDIS_ARGV_LABELS).1.
Definition nelem_of m : Z := (redis_read_argv m (m_body m) LK_REDIS_ARGV_LABELS).2.
Definition id_of m : Z := lk_redis_cmd (argv_of m).
(** Commands that take part in nothing but the queue. *)
Definition SPECIAL : Z := fold_right Z.lor 0 [LK_REDIS_C_REPL; LK_REDIS_C_MONITOR; LK_REDIS_C_RESET; LK_REDIS_C_SUBON; LK_REDIS_C_SUBFAM; LK_REDIS_C_MULTI; LK_REDIS_C_EXEC;
  LK_REDIS_C_DISCARD; LK_REDIS_C_SELECT; LK_REDIS_C_AUTH; LK_REDIS_C_HELLO].
Definition plain m : bool := negb (m_type m =? LK_REDIS_MSG_NOTE) && negb (nelem_of m =? 0) && negb (has_flag (lk_redis_cmd_flags (id_of m)) SPECIAL).
Definition plain_reply m : bool := negb (m_type m =? LK_REDIS_MSG_NOTE) && negb (m_type m =? REDIS_T_ATTR) && negb (m_type m =? REDIS_T_PUSH).

Section Props.
Context (XXH3 : list Z -> Z) (cfg : lk_redis_cfg).
Abbreviation proto := (lk_proto (list reported) redis_conn redis_frame).
Implicit Types (p : proto).

(** The unit of a plain command. *)
Definition plain_unit (pipe : bool) m : redis_unit :=
  RUnit (m_ts_ns m) (m_len m) (Z.lor (if pipe then LK_QO_PIPELINED else 0) (if unit_blocking m (id_of m) (lk_redis_cmd_flags (id_of m)) (argv_of m) then LK_QO_BLOCKING else 0))
    0 (id_of m) 0 (unit_argc (nelem_of m) (argv_of m)) 0.
Definition plain_entry (pipe : bool) m : entry := Entry (plain_unit pipe m) true false.
Lemma special_none fl : has_flag fl SPECIAL = false ->
  has_flag fl LK_REDIS_C_REPL = false /\ has_flag fl LK_REDIS_C_MONITOR = false /\ has_flag fl LK_REDIS_C_RESET = false /\ has_flag fl LK_REDIS_C_SUBON = false /\ has_flag fl LK_REDIS_C_SUBFAM = false /\
  has_flag fl LK_REDIS_C_MULTI = false /\ has_flag fl LK_REDIS_C_EXEC = false /\ has_flag fl LK_REDIS_C_DISCARD = false /\ has_flag fl LK_REDIS_C_SELECT = false /\ has_flag fl LK_REDIS_C_AUTH = false /\ has_flag fl LK_REDIS_C_HELLO = false.
Proof. intros H. unfold SPECIAL in H. cbn [fold_right] in H. rewrite !flag_or in H. repeat (apply orb_false_iff in H as [? H]). done. Qed.
Lemma fill_plain m pipe : plain m = true ->
  unit_fill m (argv_of m) (nelem_of m) (id_of m) (if pipe : bool then e_unit (pipelined (Entry (fresh_unit (m_ts_ns m)) true false)) else fresh_unit (m_ts_ns m)) = plain_unit pipe m /\ parked_name (id_of m) (argv_of m) = None.
Proof.
  intros H. apply andb_true_iff in H as [_ H]. apply negb_true_iff in H. destruct (special_none _ H) as (F1 & F2 & F3 & F4 & F5 & F6 & F7 & F8 & F9 & F10 & F11).
  assert (lk_redis_session (id_of m) (argv_of m) = (LK_REDIS_SESS_NONE, LK_REDIS_DB_UNKNOWN, None)) as Es by (unfold lk_redis_session; by rewrite F9, F3, F10, F11).
  unfold unit_fill, unit_candidate, parked_name. rewrite Es. split; [|done]. unfold plain_unit, unit_uflags. rewrite F5, F6, F7, F8. destruct pipe, (unit_blocking _ _ _ _); reflexivity.
Qed.
Lemma pipelined_plain pipe m : pipelined (plain_entry pipe m) = plain_entry true m.
Proof. unfold pipelined, plain_entry, plain_unit. cbn. f_equal. f_equal. unfold set_flag. destruct pipe, (unit_blocking _ _ _ _); reflexivity. Qed.
Lemma mark_last_plain pipe ms : (1 < length ms -> pipe = true)%nat -> mark_last (map (plain_entry pipe) ms) = map (plain_entry true) ms.
Proof.
  destruct ms as [|m ms] using rev_ind; [done|]. intros H. clear IHms. rewrite !map_app. cbn [map]. rewrite mark_last_snoc, pipelined_plain. f_equal.
  destruct ms; [done|]. rewrite length_app in H. cbn in H. rewrite H by lia. done.
Qed.

(** ** Commands *)
Record waiting h ms : Prop := Waiting {
  wt_queue : h_queue h = map (plain_entry (bool_decide (1 < length ms)%nat)) ms; wt_batch : h_batch_n h = zlen ms; wt_owed : h_owed h = 0; wt_early : h_early h = []; wt_txn : h_txn_start h = 0; wt_sub : h_sub h = false }.
Definition timely m0 m : Prop := m_ts_ns m - m_ts_ns m0 <= LK_REDIS_UNIT_TIMEOUT_NS.
(** What a step leaves of the reports. *)
Definition quiet p p' : Prop := p_up p' = p_up p /\ p_out p' = p_out p.
Lemma plain_command fs m p h ms : plain m = true -> waiting h ms -> (length ms < 256)%nat -> opens_batch fs = bool_decide (ms = []) -> (forall m0, head ms = Some m0 -> timely m0 m) ->
  exists p' h', h_call XXH3 cfg p h (CMsg fs LK_DIR_RECV m) = (p', h') /\ quiet p p' /\ waiting h' (ms ++ [m]) /\ h_session h' = h_session h /\ h_txn_n h' = h_txn_n h.
Proof.
  intros Hp [Q B O E T S] Hl Hb Ht. pose proof Hp as Hp'. apply andb_true_iff in Hp' as [Hp' Hf]. apply andb_true_iff in Hp' as [Hn Hne]. apply negb_true_iff in Hn, Hne, Hf. destruct (special_none _ Hf) as (F1 & F2 & F3 & F4 & _).
  cbn [h_call]. rewrite Hn. unfold h_msg, capture_facts. change (redis_dir_of (seen fs) LK_DIR_RECV) with ((fun rf => rf_recv rf) <$> fs). set (p1 := tallied p LK_DIR_RECV m). assert (quiet p p1) as Hq by done. clearbody p1.
  assert (exists t, (match (fun rf => rf_recv rf) <$> fs with Some x => (if m_ts_ns m <? rd_last_ts x then rd_last_ts x else m_ts_ns m, rd_v_call x) | None => (m_ts_ns m, false) end) = (t, opens_batch fs)) as [t ->] by (destruct fs; by eexists).
  assert (h_expire cfg p1 h (m_ts_ns m) = (p1, h)) as ->.
  { unfold h_expire. rewrite Q. destruct ms as [|m0 ms]; [done|]. cbn [map]. specialize (Ht m0 eq_refl). unfold timely in Ht. change (ru_ts_start_ns (e_unit (plain_entry _ m0))) with (m_ts_ns m0).
    destruct (Z.ltb_spec LK_REDIS_UNIT_TIMEOUT_NS (m_ts_ns m - m_ts_ns m0)); [lia|]. by rewrite andb_false_r. }
  unfold h_frontend. rewrite Hb. set (h1 := if bool_decide (ms = []) then h_batch h else h). assert (waiting h1 ms /\ h_session h1 = h_session h /\ h_txn_n h1 = h_txn_n h) as [[Q1 B1 O1 E1 T1 S1] [Hs1 Ht1]].
  { subst h1. destruct (bool_decide_reflect (ms = [])) as [->|]; [|done]. split; [|done]. split; try done. unfold h_batch. cbn. by rewrite Q. }
  rewrite (surjective_pairing (redis_read_argv _ _ _)). fold (argv_of m) (nelem_of m) (id_of m). rewrite Hne, F1, F2, F3, F4. unfold h_command. set (h2 := h1 <| h_batch_n ::= _ |>). change (h_queue h2) with (h_queue h1). rewrite Q1.
  destruct (Z.leb_spec LK_REDIS_MAX_INFLIGHT (zlen (map (plain_entry (bool_decide (1 < length ms)%nat)) ms))) as [Hx|_]; [unfold zlen in Hx; rewrite length_map in Hx; change LK_REDIS_MAX_INFLIGHT with 256 in Hx; lia|].
  set (pipe := bool_decide (ms <> [])). assert (opened (m_ts_ns m) (map (plain_entry (bool_decide (1 < length ms)%nat)) ms) = if pipe then e_unit (pipelined (Entry (fresh_unit (m_ts_ns m)) true false)) else fresh_unit (m_ts_ns m)) as -> by (by destruct ms).
  destruct (fill_plain m pipe Hp) as [-> ->]. change (h_early (h2 <| h_degraded := false |> <| h_queue := ?q |> <| h_auth ::= ?g |>)) with (h_early h1). cbn iota. rewrite mark_last_plain by (intros; by rewrite bool_decide_eq_true_2).
  rewrite E1. match goal with |- context [if _ then (p1, ?h) else _] => set (h3 := h) end. change (zlen (A:=redis_reply) []) with 0. cbn [Z.eqb]. exists p1, h3. split; [done|]. split; [done|]. split; [|done]. split; try done.
  - change (h_queue h3) with (map (plain_entry true) ms ++ [Entry (plain_unit pipe m) true false]). rewrite map_app, length_app. cbn [map length]. destruct ms as [|m0 ms]; [done|]. rewrite (bool_decide_eq_true_2 (1 < length (m0 :: ms) + 1)%nat) by (cbn; lia). done.
  - change (h_batch_n h3) with (u32 (h_batch_n h1 + 1)). rewrite B1, zlen_app. change (zlen [m]) with 1. unfold u32. apply Z.mod_small. unfold zlen. lia.
Qed.

(** ** Replies *)
Definition plain_obs (n txn : Z) m fs r : lk_query_obs := unit_obs XXH3 n txn (plain_unit (bool_decide (1 < n)) m) (reply_verdict r (end_of fs r)).
(** What is left to answer of a batch of [n]. *)
Record serving n h ms : Prop := Serving {
  sv_queue : h_queue h = map (plain_entry (bool_decide (1 < n))) ms; sv_batch : h_batch_n h = n; sv_owed : h_owed h = 0; sv_early : h_early h = []; sv_txn : h_txn_start h = 0; sv_sub : h_sub h = false }.
Lemma waiting_serving h ms : waiting h ms -> serving (zlen ms) h ms.
Proof. intros [Q B O E T S]. split; try done. rewrite Q. f_equal. f_equal. apply bool_decide_ext. unfold zlen. lia. Qed.
Lemma report_up p c ss o rd : p_out p = recorder -> p_up (report p c ss o rd) = p_up p ++ [RQuery ss o] /\ p_out (report p c ss o rd) = recorder.
Proof.
  intros H. destruct (report_seen p c c ss o rd H) as [_ H2]. split; [|done]. unfold report. set (p1 := if rd =? 0 then _ else _). assert (p_out p1 = recorder /\ p_up p1 = p_up p) as [H1 <-] by (subst p1; by destruct (rd =? 0), (has_flag _ _)).
  unfold up_query. rewrite H1. done.
Qed.
Lemma plain_answer fs r m ms n p h : p_out p = recorder -> plain_reply r = true -> serving n h (m :: ms) ->
  exists p' h', h_call XXH3 cfg p h (CMsg fs LK_DIR_SEND r) = (p', h') /\ p_up p' = p_up p ++ [RQuery (h_session h) (plain_obs n (h_txn_n h) m fs r)] /\ p_out p' = recorder /\
    serving n h' ms /\ h_session h' = h_session h /\ h_txn_n h' = h_txn_n h.
Proof.
  intros Hp Hr [Q B O E T S]. unfold plain_reply in Hr. apply andb_true_iff in Hr as [Hr Hpu]. apply andb_true_iff in Hr as [Hn Ha]. apply negb_true_iff in Hn, Ha, Hpu.
  cbn [h_call]. rewrite Hn. assert (p_out (tallied p LK_DIR_SEND r) = recorder /\ p_up (tallied p LK_DIR_SEND r) = p_up p) as [Hp1 <-] by done. set (p1 := tallied p LK_DIR_SEND r) in *. clearbody p1.
  unfold h_msg, capture_facts. change (redis_dir_of (seen fs) LK_DIR_SEND) with ((fun rf => rf_send rf) <$> fs).
  assert (exists b, (match (fun rf => rf_send rf) <$> fs with Some x => (if m_ts_ns r <? rd_last_ts x then rd_last_ts x else m_ts_ns r, rd_v_call x) | None => (m_ts_ns r, false) end) = (end_of fs r, b)) as [b ->] by (destruct fs; by eexists).
  unfold h_reply. assert (h_kind h r = REDIS_R_REPLY) as -> by (unfold h_kind; by rewrite Ha, Hpu, S, andb_false_r). unfold h_close. rewrite Q. cbn [map]. unfold h_finish. set (e := plain_entry _ m).
  change (e_live e) with true. cbn iota. rewrite B. change (unit_obs XXH3 n (h_txn_n h) (e_unit e) (reply_verdict r (end_of fs r))) with (plain_obs n (h_txn_n h) m fs r).
  set (rd := rr_redirect _). destruct (report_up p1 (seen fs) (h_session h) (plain_obs n (h_txn_n h) m fs r) rd Hp1) as [H1 H2]. set (p2 := report _ _ _ _ _) in *. clearbody p2.
  unfold txn_step. change (ru_uflags (e_unit e)) with 0. rewrite T. change (has_flag 0 _) with false. cbn [negb orb andb Z.eqb]. rewrite andb_false_r.
  match goal with |- context [(p2, ?x)] => exists p2, x end. split; [reflexivity|]. split; [done|]. split; [done|]. split; [by split|done].
Qed.

(** ** A pipeline *)
Abbreviation told := (option redis_frame * lk_msg)%type.
Definition cmd_call (x : told) : call := CMsg x.1 LK_DIR_RECV x.2.
Definition reply_call (x : told) : call := CMsg x.1 LK_DIR_SEND x.2.
Lemma commands_run (cs : list told) : forall p h ms, Forall (fun x => plain x.2 = true) cs -> waiting h ms -> (length ms + length cs <= 256)%nat ->
  (forall i x, cs !! i = Some x -> opens_batch x.1 = bool_decide (ms = [] /\ i = 0%nat)) -> (forall m0 x, head (ms ++ map snd cs) = Some m0 -> x ∈ cs -> timely m0 x.2) ->
  exists p' h', h_run XXH3 cfg p h (map cmd_call cs) = (p', h') /\ quiet p p' /\ waiting h' (ms ++ map snd cs) /\ h_session h' = h_session h /\ h_txn_n h' = h_txn_n h.
Proof.
  induction cs as [|[fs m] cs IH]; intros p h ms Hp W Hl Hb Ht; [exists p, h; rewrite app_nil_r; done|]. inversion_clear Hp as [|? ? Hm Hp']. cbn [length] in Hl.
  destruct (plain_command fs m p h ms Hm W ltac:(lia)) as (p1 & h1 & E1 & Q1 & W1 & S1 & N1).
  { etransitivity; [exact (Hb 0%nat (fs, m) eq_refl)|]. apply bool_decide_ext. naive_solver. }
  { intros m0 H0. apply (Ht m0 (fs, m)); [by destruct ms|left]. }
  destruct (IH p1 h1 (ms ++ [m]) Hp' W1) as (p2 & h2 & E2 & Q2 & W2 & S2 & N2); [rewrite length_app; cbn; lia| | |].
  - intros i x Hi. rewrite (Hb (S i) x Hi). apply bool_decide_ext. split; [by intros [_ ?]|]. intros [H _]. by destruct ms.
  - intros m0 x H0 Hx. apply (Ht m0 x); [|by right]. by rewrite <- app_assoc in H0.
  - exists p2, h2. unfold h_run in *. cbn [map foldl fst snd]. change (cmd_call (fs, m)) with (CMsg fs LK_DIR_RECV m). rewrite E1. split; [exact E2|]. rewrite <- app_assoc in W2. destruct Q1, Q2. repeat split; try congruence; apply W2.
Qed.
Lemma replies_run n (cs : list lk_msg) : forall (rs : list told) p h, p_out p = recorder -> Forall (fun x => plain_reply x.2 = true) rs -> serving n h cs -> length rs = length cs ->
  exists p' h', h_run XXH3 cfg p h (map reply_call rs) = (p', h') /\ p_up p' = p_up p ++ zip_with (fun m x => RQuery (h_session h) (plain_obs n (h_txn_n h) m x.1 x.2)) cs rs /\ p_out p' = recorder /\
    serving n h' [] /\ h_session h' = h_session h /\ h_txn_n h' = h_txn_n h.
Proof.
  induction cs as [|m cs IH]; intros rs p h Hp Hr W Hl; (destruct rs as [|[fs r] rs]; [|try done]); [exists p, h; cbn; by rewrite app_nil_r|done|]. inversion_clear Hr as [|? ? Hm Hr'].
  destruct (plain_answer fs r m cs n p h Hp Hm W) as (p1 & h1 & E1 & U1 & O1 & W1 & S1 & N1). destruct (IH rs p1 h1 O1 Hr' W1 ltac:(cbn in Hl; lia)) as (p2 & h2 & E2 & U2 & O2 & W2 & S2 & N2).
  exists p2, h2. unfold h_run in *. cbn [map foldl fst snd]. change (reply_call (fs, r)) with (CMsg fs LK_DIR_SEND r). rewrite E1. split; [exact E2|]. rewrite U2, U1, S1, N1, <- app_assoc. repeat split; try congruence; apply W2.
Qed.
End Props.
End Queues.

(** ** One command and its reply *)
Section Turns.

Implicit Types (m : lk_msg) (h : hconn) (fs : option redis_frame) (u : redis_unit) (r : redis_reply).

(** ** Commands by name *)
Definition verb_ok (w : string) (fl : Z) : bool :=
  named (lit w) cmd_names && negb (named (lit w) container_names) && forallb (fun i => negb (bool_decide (lk_redis_cmd_name i = lit w)) || (lk_redis_cmd_flags i =? fl)) (range 0 REDIS_NENT).
Lemma verb_flags w fl v rest : verb_ok w fl = true -> map to_upper (ra_s v) = lit w -> lk_redis_cmd_flags (lk_redis_cmd (v :: rest)) = fl.
Proof.
  intros H E. unfold verb_ok in H. apply andb_true_iff in H as [H H3]. apply andb_true_iff in H as [H1 H2]. apply negb_true_iff in H2. destruct (cmd_label (v :: rest)) as [Hi Hn].
  assert (code_label (map ra_s (v :: rest)) = lit w) as El by (cbn [map code_label]; rewrite E, H1, H2; by destruct (map ra_s rest)). rewrite El in Hn.
  pose proof (range_forall _ _ _ H3 _ Hi) as Hx. cbv beta in Hx. apply orb_true_iff in Hx as [Hx|Hx]; [|by apply Z.eqb_eq]. apply negb_true_iff, bool_decide_eq_false in Hx. destruct (Hx Hn).
Qed.
Definition verb_is (w : string) m : Prop := exists v rest, argv_of m = v :: rest /\ map to_upper (ra_s v) = lit w.
Lemma verb_is_flags w fl m : verb_ok w fl = true -> verb_is w m -> lk_redis_cmd_flags (id_of m) = fl.
Proof. intros H (v & rest & E & Ev). unfold id_of. rewrite E. by apply (verb_flags w). Qed.
(** The reader never returns more elements than the command has. *)
Definition counted m : bool := negb (m_type m =? LK_REDIS_MSG_NOTE) && negb (nelem_of m =? 0).
Definition queues m : bool := counted m && negb (has_flag (lk_redis_cmd_flags (id_of m)) (Z.lor LK_REDIS_C_REPL (Z.lor LK_REDIS_C_MONITOR LK_REDIS_C_SUBON))).
Lemma plain_queues m : plain m = true -> queues m = true.
Proof.
  unfold plain, queues, counted. intros H. apply andb_true_iff in H as [H Hf]. apply negb_true_iff in Hf. rewrite H. destruct (special_none _ Hf) as (F1 & F2 & _ & F4 & _). by rewrite !flag_or, F1, F2, F4.
Qed.

Section Exchange.
Context (XXH3 : list Z -> Z) (cfg : lk_redis_cfg).
Abbreviation proto := (lk_proto (list reported) redis_conn redis_frame).
Abbreviation told := (option redis_frame * lk_msg)%type.
Implicit Types (p : proto).

Record idle h : Prop := Idle { id_queue : h_queue h = []; id_owed : h_owed h = 0; id_early : h_early h = []; id_sub : h_sub h = false }.
(** The unit of a command that is alone in flight, and its reply. *)
Definition alone m : redis_unit := unit_fill m (argv_of m) (nelem_of m) (id_of m) (fresh_unit (m_ts_ns m)).
Definition parked m : option (option lk_redis_arg) := parked_name (id_of m) (argv_of m).
Definition verdict (x : told) : redis_reply := reply_verdict x.2 (end_of x.1 x.2).
Definition auth_after m h : list Z := match parked m with Some user => park_name user (h_auth h) | None => h_auth h end.
Definition labels_after m r h : lk_session :=
  if negb (has_flag (ru_uflags (alone m)) (Z.lor REDIS_U_SELECT (Z.lor REDIS_U_AUTH REDIS_U_RESET))) || rr_err r then h_session h
  else apply_labels cfg (alone m) (bool_decide (is_Some (parked m))) (auth_after m h) (h_session h).
(** [txn_step] with the events written out. *)
Definition txn_next (start n : Z) u r : list reported * Z * Z :=
  if has_flag (ru_uflags u) REDIS_U_MULTI then if negb (rr_err r) && (start =? 0) then ([], ru_ts_start_ns u, 0) else ([], start, n)
  else if has_flag (rr_flags r) LK_QO_QUEUED && negb (start =? 0) then ([], start, u32 (n + 1))
  else if negb (has_flag (ru_uflags u) (Z.lor REDIS_U_EXEC (Z.lor REDIS_U_DISCARD REDIS_U_RESET))) then ([], start, n)
  else if (start =? 0) || (rr_err r && negb (has_flag (ru_uflags u) REDIS_U_EXEC)) then ([], start, n)
  else ([RTxn start (rr_end_ns r) (if negb (has_flag (ru_uflags u) REDIS_U_EXEC) || rr_err r || rr_null r then ch "E" else ch "I")], 0, 0).
Lemma txn_step_next p c start n u r : p_out p = recorder ->
  exists p', txn_step p c start n u r = (p', (txn_next start n u r).1.2, (txn_next start n u r).2) /\ p_up p' = p_up p ++ (txn_next start n u r).1.1 /\ p_out p' = recorder.
Proof.
  intros Hp. assert (forall a b : Z, exists p', (p, a, b) = (p', a, b) /\ p_up p' = p_up p ++ [] /\ p_out p' = recorder) as Hk by (intros a b; exists p; by rewrite app_nil_r).
  unfold txn_step, txn_next. destruct (has_flag (ru_uflags u) REDIS_U_MULTI); [destruct (_ && _); apply Hk|]. destruct (has_flag (rr_flags r) LK_QO_QUEUED && _); [apply Hk|].
  destruct (negb (has_flag _ (Z.lor _ _))); [apply Hk|]. destruct ((start =? 0) || _); [apply Hk|].
  unfold up_txn. rewrite Hp. cbn [on_txn recorder]. eexists. split; [reflexivity|]. done.
Qed.

Lemma idle_command (x : told) p h : idle h -> opens_batch x.1 = true -> queues x.2 = true ->
  exists p1 h1, h_call XXH3 cfg p h (cmd_call x) = (p1, h1) /\ quiet p p1 /\ h_queue h1 = [Entry (alone x.2) true (bool_decide (is_Some (parked x.2)))] /\ h_batch_n h1 = 1 /\ h_owed h1 = 0 /\ h_early h1 = [] /\ h_sub h1 = false /\
    h_session h1 = h_session h /\ h_auth h1 = auth_after x.2 h /\ h_txn_start h1 = h_txn_start h /\ h_txn_n h1 = h_txn_n h.
Proof.
  destruct x as [fs m]. intros [Q O E S] Hb Hq. cbn [fst snd] in *. unfold queues in Hq. apply andb_true_iff in Hq as [Hq Hf]. unfold counted in Hq. apply andb_true_iff in Hq as [Hn Hne]. apply negb_true_iff in Hn, Hne, Hf. rewrite !flag_or in Hf. apply orb_false_iff in Hf as [F1 Hf]. apply orb_false_iff in Hf as [F2 F3].
  unfold cmd_call. cbn [h_call fst snd]. rewrite Hn. unfold h_msg, capture_facts. change (redis_dir_of (seen fs) LK_DIR_RECV) with ((fun rf => rf_recv rf) <$> fs). set (p1 := tallied p LK_DIR_RECV m). assert (quiet p p1) as Hp by done. clearbody p1.
  assert (exists t, (match (fun rf => rf_recv rf) <$> fs with Some x => (if m_ts_ns m <? rd_last_ts x then rd_last_ts x else m_ts_ns m, rd_v_call x) | None => (m_ts_ns m, false) end) = (t, opens_batch fs)) as [t ->] by (destruct fs; by eexists).
  unfold h_expire. rewrite Q. unfold h_frontend. rewrite Hb. set (h1 := h_batch h). assert (h_queue h1 = []) as Q1 by (subst h1; unfold h_batch; cbn; by rewrite Q).
  rewrite (surjective_pairing (redis_read_argv _ _ _)). fold (argv_of m) (nelem_of m) (id_of m). rewrite Hne, F1, F2, F3.
  set (h2 := if has_flag _ _ then _ else _). assert (h_queue h2 = [] /\ h_sub h2 = false /\ h_owed h2 = 0 /\ h_early h2 = [] /\ h_batch_n h2 = 0 /\ h_session h2 = h_session h /\ h_auth h2 = h_auth h /\ h_txn_start h2 = h_txn_start h /\ h_txn_n h2 = h_txn_n h) as (Q2 & S2 & O2 & E2 & B2 & Hs & Ha & Ht & Htn) by (subst h2; destruct (has_flag (lk_redis_cmd_flags _) LK_REDIS_C_RESET); exact (conj Q1 (conj S (conj O (conj E (conj eq_refl (conj eq_refl (conj eq_refl (conj eq_refl eq_refl)))))))) || exact (conj Q1 (conj eq_refl (conj O (conj E (conj eq_refl (conj eq_refl (conj eq_refl (conj eq_refl eq_refl))))))))).
  clearbody h2. clear h1 Q1. unfold h_command. set (h3 := h2 <| h_batch_n ::= _ |>). change (h_queue h3) with (h_queue h2). rewrite Q2. change (LK_REDIS_MAX_INFLIGHT <=? zlen (A:=entry) []) with false. cbn [opened mark_last map app]. fold (parked m) (alone m).
  assert ((if parked m then [] else []) = @nil entry) as -> by (by destruct (parked m)). cbn [app].
  change (h_early (h3 <| h_degraded := false |> <| h_queue := ?q |> <| h_auth ::= ?g |>)) with (h_early h2). rewrite E2. change (zlen (A:=redis_reply) [] =? 0) with true. cbn iota.
  match goal with |- context [(p1, ?x)] => exists p1, x end. split; [done|]. split; [done|]. split; [done|]. split; [by change (u32 (h_batch_n h2 + 1) = 1); rewrite B2|]. split; [done|]. split; [done|]. split; [done|]. split; [done|]. split; [|done].
  unfold auth_after. rewrite <- Ha. by destruct (parked m).
Qed.
Lemma exchange (x y : told) p h : p_out p = recorder -> idle h -> opens_batch x.1 = true -> queues x.2 = true -> plain_reply y.2 = true ->
  exists p' h', h_run XXH3 cfg p h [cmd_call x; reply_call y] = (p', h') /\ p_out p' = recorder /\ idle h' /\
    p_up p' = p_up p ++ RQuery (h_session h) (unit_obs XXH3 1 (h_txn_n h) (alone x.2) (verdict y)) :: (txn_next (h_txn_start h) (h_txn_n h) (alone x.2) (verdict y)).1.1 /\
    h_txn_start h' = (txn_next (h_txn_start h) (h_txn_n h) (alone x.2) (verdict y)).1.2 /\ h_txn_n h' = (txn_next (h_txn_start h) (h_txn_n h) (alone x.2) (verdict y)).2 /\ h_session h' = labels_after x.2 (verdict y) h.
Proof.
  intros Hp Hi Hb Hq Hr. destruct (idle_command x p h Hi Hb Hq) as (p1 & h1 & E1 & [U1 O1] & Q & B & Ow & Ea & S & Hs & Ha & Ht & Htn). unfold h_run. cbn [foldl fst snd]. rewrite E1. clear E1. rewrite Hp in O1. cbn [fst snd]. rewrite <- U1.
  destruct y as [fs r]. unfold reply_call. cbn [fst snd] in *. unfold plain_reply in Hr. apply andb_true_iff in Hr as [Hr Hpu]. apply andb_true_iff in Hr as [Hn Hat]. apply negb_true_iff in Hn, Hat, Hpu. cbn [h_call]. rewrite Hn.
  assert (p_out (tallied p1 LK_DIR_SEND r) = recorder /\ p_up (tallied p1 LK_DIR_SEND r) = p_up p1) as [Hp1 <-] by done. set (p2 := tallied p1 LK_DIR_SEND r) in *. clearbody p2.
  unfold h_msg, capture_facts. change (redis_dir_of (seen fs) LK_DIR_SEND) with ((fun rf => rf_send rf) <$> fs).
  assert (exists b, (match (fun rf => rf_send rf) <$> fs with Some x => (if m_ts_ns r <? rd_last_ts x then rd_last_ts x else m_ts_ns r, rd_v_call x) | None => (m_ts_ns r, false) end) = (end_of fs r, b)) as [b ->] by (destruct fs; by eexists).
  unfold h_reply. assert (h_kind h1 r = REDIS_R_REPLY) as -> by (unfold h_kind; by rewrite Hat, Hpu, S, andb_false_r). unfold h_close. rewrite Q. unfold h_finish. cbn [e_unit e_live e_own]. change (reply_verdict r (end_of fs r)) with (verdict (fs, r)).
  rewrite B, Hs, Ha, Ht, Htn. destruct (report_up p2 (seen fs) (h_session h) (unit_obs XXH3 1 (h_txn_n h) (alone x.2) (verdict (fs, r))) (rr_redirect (verdict (fs, r))) Hp1) as [H1 H2]. set (p3 := report _ _ _ _ _) in *. clearbody p3.
  destruct (txn_step_next p3 (seen fs) (h_txn_start h) (h_txn_n h) (alone x.2) (verdict (fs, r)) H2) as (p4 & -> & H3 & H4). match goal with |- context [(p4, ?x)] => exists p4, x end.
  split; [done|]. split; [done|]. split; [by split|]. split; [by rewrite H3, H1, <- app_assoc|]. split; [done|]. split; done.
Qed.
End Exchange.
End Turns.

(** ** Whole runs *)
Section Histories.

Implicit Types (m : lk_msg) (h : hconn) (ks : list call).

Section Main.
Context (XXH3 : list Z -> Z) (cfg : lk_redis_cfg).
Abbreviation proto := (lk_proto (list reported) redis_conn redis_frame).
Abbreviation conn := (lk_conn redis_conn redis_frame).
Abbreviation told := (option redis_frame * lk_msg)%type.
Abbreviation run := (run XXH3 cfg).
Abbreviation h_run := (h_run XXH3 cfg).
Implicit Types (p : proto) (c : conn).

(** ** The first callback *)
Definition synthetic c : bool := has_flag (c_flags c) LK_CONN_SYNTHETIC.
Definition attached p : proto := pbump (p <| p_oom ::= fun o => (alloc o).2 |>) (fun s => s <| ps_conns ::= inc64 |>).
Definition first_state c : redis_conn := redis_conn0 <| rc_degraded := synthetic c |> <| rc_session ::= session_init cfg (synthetic c) |>.
Definition first_conn c : conn := c <| c_proto_state := Some (first_state c) |>.
(** What the handler holds of a connection. *)
Definition held c : hconn := match c_proto_state c with Some rc => abs rc | None => h_init cfg (synthetic c) end.
Lemma attach p c k : c_proto_state c = None -> (alloc (p_oom p)).1 = true ->
  call1 XXH3 cfg p c k = call1 XXH3 cfg (attached p) (first_conn c) k.
Proof.
  intros Hc Ha. destruct k as [fs d m|d]; cbn [call1].
  - unfold redis_on_msg, redis_conn_get. change (c_proto_state (c <| c_frame_state := fs |>)) with (c_proto_state c). rewrite Hc. cbn [c_proto_state]. unfold attached.
    change (p <| p_oom ::= fun o => (alloc o).2 |>) with (p <| p_oom := (alloc (p_oom p)).2 |>). destruct (alloc (p_oom p)) as [ok oom]. cbn [fst snd] in *. subst ok. done.
  - unfold redis_on_resync, redis_conn_get. rewrite Hc. cbn [c_proto_state]. unfold attached.
    change (p <| p_oom ::= fun o => (alloc o).2 |>) with (p <| p_oom := (alloc (p_oom p)).2 |>). destruct (alloc (p_oom p)) as [ok oom]. cbn [fst snd] in *. subst ok. done.
Qed.
Lemma first_wf c : rwf 0 (first_state c) /\ abs (first_state c) = h_init cfg (synthetic c).
Proof. split; [|done]. split; done. Qed.
Lemma run_app ks ks' p c : run p c (ks ++ ks') = run (run p c ks).1 (run p c ks).2 ks'.
Proof. unfold RedisHandler.run. rewrite foldl_app. by destruct (foldl _ _ ks). Qed.
Lemma h_run_app ks ks' p h : h_run p h (ks ++ ks') = h_run (h_run p h ks).1 (h_run p h ks).2 ks'.
Proof. unfold RedisHandler.h_run. rewrite foldl_app. by destruct (foldl _ _ ks). Qed.

Section Fresh.
Context (oom : list bool) (c : conn) (Hc : c_proto_state c = None) (Ho : (alloc oom).1 = true).
Definition born : proto := lk_proto_redis_new recorder [] oom.
Lemma fresh_run k ks : zlen (k :: ks) < 2 ^ 64 ->
  exists rc, c_proto_state (run born c (k :: ks)).2 = Some rc /\ h_run (attached born) (h_init cfg (synthetic c)) (k :: ks) = ((run born c (k :: ks)).1, abs rc) /\ rwf (zlen (k :: ks)) rc.
Proof.
  intros Hl. destruct (first_wf c) as [W E]. destruct (run_spec XXH3 cfg (k :: ks) 0 (attached born) (first_conn c) (first_state c) eq_refl eq_refl W ltac:(lia)) as (rc & H1 & H2 & H3 & _).
  rewrite E in H2. assert (run born c (k :: ks) = run (attached born) (first_conn c) (k :: ks)) as -> by (unfold RedisHandler.run; cbn [foldl fst snd]; by rewrite attach). by exists rc.
Qed.
(** Any history, the empty one included. *)
Lemma history ks : zlen ks < 2 ^ 64 ->
  exists p, h_run (attached born) (h_init cfg (synthetic c)) ks = (p, held (run born c ks).2) /\ p_up p = p_up (run born c ks).1 /\ p_out p = recorder.
Proof.
  intros Hl. destruct ks as [|k ks]; [exists (attached born); unfold held; cbn [RedisHandler.run foldl snd]; by rewrite Hc|].
  destruct (fresh_run k ks Hl) as (rc & H1 & H2 & H3). exists (run born c (k :: ks)).1. unfold held at 1. rewrite H1. split; [done|]. split; [done|].
  destruct (run_spec XXH3 cfg (k :: ks) 0 (attached born) (first_conn c) (first_state c) eq_refl eq_refl (proj1 (first_wf c)) ltac:(lia)) as (_ & _ & _ & _ & H).
  revert H. unfold RedisHandler.run. cbn [foldl fst snd]. by rewrite <- attach.
Qed.
(** What the queue machine does after a history, the handler does. *)
Lemma continue ks ks' : zlen ks + zlen ks' < 2 ^ 64 -> exists p, p_up p = p_up (run born c ks).1 /\ p_out p = recorder /\
  forall p' h', h_run p (held (run born c ks).2) ks' = (p', h') -> p_up (run born c (ks ++ ks')).1 = p_up p' /\ held (run born c (ks ++ ks')).2 = h'.
Proof.
  intros Hl. pose proof (zlen_nonneg ks'). destruct (history ks ltac:(lia)) as (p & H1 & H2 & H3). exists p. split; [done|]. split; [done|]. intros p' h' E.
  destruct (history (ks ++ ks') ltac:(by rewrite zlen_app)) as (q & G1 & G2 & _). rewrite h_run_app, H1 in G1. cbn [fst snd] in G1. rewrite E in G1. injection G1 as <- <-. done.
Qed.
End Fresh.
End Main.
End Histories.

Implicit Types (m : lk_msg) (h : hconn) (ks : list call).

(** ** The two label commands *)
Lemma db_shown db o : 0 <= db <= LK_REDIS_MAX_DB -> parse_db (Arg o (show db)) = db /\ (db =? LK_REDIS_DB_UNKNOWN) = false.
Proof.
  intros H. assert (forallb (fun d => parse_db (Arg 0 (show d)) =? d) (range 0 1025) = true) as Hr by (vm_compute; reflexivity). change LK_REDIS_MAX_DB with 1024 in H. pose proof (range_forall _ _ _ Hr db ltac:(lia)) as Hx. cbv beta in Hx. apply Z.eqb_eq in Hx.
  split; [exact Hx|]. change LK_REDIS_DB_UNKNOWN with 65535. lia.
Qed.
Lemma nul_free_show n : 0 <= n -> Forall (fun b => b <> 0) (show n).
Proof. intros H. refine (Forall_impl _ _ (show_digits n H)). intros b [Hb _] ->. done. Qed.
Lemma nul_free_user s : lk_redis_user_valid s = true -> Forall (fun b => b <> 0) s /\ 0 < zlen s < LK_REDIS_USER_MAX.
Proof.
  unfold lk_redis_user_valid. destruct ((zlen s =? 0) || _) eqn:E; [done|]. apply orb_false_iff in E as [E1 E2]. intros H. pose proof (zlen_nonneg s). split; [|lia].
  apply Forall_forall. intros b Hb. pose proof (proj1 (forallb_forall _ _) H b Hb) as Hx. cbv beta in Hx. intros ->. done.
Qed.
(** The flags of the units. *)
Lemma alone_select m o db o' v : argv_of m = [Arg o v; Arg o' (show db)] -> map to_upper v = lit "SELECT" -> 0 <= db <= LK_REDIS_MAX_DB ->
  ru_uflags (alone m) = REDIS_U_SELECT /\ ru_db (alone m) = db /\ parked m = None /\ lk_redis_cmd_flags (id_of m) = LK_REDIS_C_SELECT.
Proof.
  intros E Ev Hd. assert (lk_redis_cmd_flags (id_of m) = LK_REDIS_C_SELECT) as Ef by (apply (verb_is_flags "SELECT"); [vm_compute; reflexivity|]; eexists _, _; split; [exact E|exact Ev]).
  assert (lk_redis_session (id_of m) (argv_of m) = (LK_REDIS_SESS_DB, db, None)) as Es by (unfold lk_redis_session; rewrite Ef, E; exact (f_equal (fun d => (LK_REDIS_SESS_DB, d, None)) (proj1 (db_shown db o' Hd)))).
  unfold alone, unit_fill, unit_candidate, parked, parked_name. rewrite Es, Ef. done.
Qed.
Lemma alone_auth m o o' v user pass : argv_of m = [Arg o v; Arg o' user; pass] -> map to_upper v = lit "AUTH" ->
  ru_uflags (alone m) = REDIS_U_AUTH /\ parked m = Some (Some (Arg o' user)) /\ lk_redis_cmd_flags (id_of m) = LK_REDIS_C_AUTH.
Proof.
  intros E Ev. assert (lk_redis_cmd_flags (id_of m) = LK_REDIS_C_AUTH) as Ef by (apply (verb_is_flags "AUTH"); [vm_compute; reflexivity|]; eexists _, _; split; [exact E|exact Ev]).
  assert (lk_redis_session (id_of m) (argv_of m) = (LK_REDIS_SESS_USER, LK_REDIS_DB_UNKNOWN, Some (Arg o' user))) as Es by (unfold lk_redis_session; by rewrite Ef, E).
  unfold alone, unit_fill, unit_candidate, parked, parked_name. rewrite Es, Ef. done.
Qed.
Lemma alone_flag w fl m : verb_ok w fl = true -> has_flag fl (Z.lor LK_REDIS_C_SELECT (Z.lor LK_REDIS_C_RESET (Z.lor LK_REDIS_C_AUTH LK_REDIS_C_HELLO))) = false -> verb_is w m -> ru_uflags (alone m) = unit_uflags fl /\ ru_ts_start_ns (alone m) = m_ts_ns m.
Proof.
  intros Hv Hf Hm. pose proof (verb_is_flags w fl m Hv Hm) as Ef. rewrite !flag_or in Hf. repeat (apply orb_false_iff in Hf as [? Hf]).
  assert (lk_redis_session (id_of m) (argv_of m) = (LK_REDIS_SESS_NONE, LK_REDIS_DB_UNKNOWN, None)) as Es by (unfold lk_redis_session; rewrite Ef; by repeat match goal with H : has_flag _ _ = false |- _ => rewrite H; clear H end).
  unfold alone, unit_fill, unit_candidate. rewrite Es, Ef. cbn. done.
Qed.
Lemma alone_plain m : plain m = true -> alone m = plain_unit false m.
Proof. intros H. exact (proj1 (fill_plain m false H)). Qed.

Section Reports.
Context (XXH3 : list Z -> Z) (cfg : lk_redis_cfg).
Abbreviation proto := (lk_proto (list reported) redis_conn redis_frame).
Abbreviation conn := (lk_conn redis_conn redis_frame).
Abbreviation told := (option redis_frame * lk_msg)%type.
Implicit Types (p : proto).

(** ** A pipeline *)
Definition resting h : Prop := idle h /\ h_txn_start h = 0.
Definition one_batch (cs : list told) : Prop := forall i x, cs !! i = Some x -> opens_batch x.1 = bool_decide (i = 0%nat) /\ forall y, head cs = Some y -> timely y.2 x.2.
Lemma first_waits (x : told) p h : resting h -> opens_batch x.1 = true -> plain x.2 = true ->
  exists p1 h1, h_call XXH3 cfg p h (cmd_call x) = (p1, h1) /\ quiet p p1 /\ waiting h1 [x.2] /\ h_session h1 = h_session h /\ h_txn_n h1 = h_txn_n h.
Proof.
  intros [Hi Ht] Hb Hp. destruct (idle_command XXH3 cfg x p h Hi Hb (plain_queues _ Hp)) as (p1 & h1 & E1 & Q1 & Q & B & Ow & Ea & S & Hs & Ha & Hts & Htn). exists p1, h1. split; [done|]. split; [done|]. split; [|done].
  split; try done; [|congruence]. rewrite Q. unfold parked. rewrite (proj2 (fill_plain x.2 false Hp)), (alone_plain _ Hp). done.
Qed.
Lemma pipeline_run (cs rs : list told) p h : p_out p = recorder -> resting h -> Forall (fun x => plain x.2 = true) cs -> one_batch cs -> (length cs <= 256)%nat -> Forall (fun y => plain_reply y.2 = true) rs -> length rs = length cs ->
  exists p' h', h_run XXH3 cfg p h (map cmd_call cs ++ map reply_call rs) = (p', h') /\ p_up p' = p_up p ++ zip_with (fun x y => RQuery (h_session h) (plain_obs XXH3 (zlen cs) 0 x.2 y.1 y.2)) cs rs /\ resting h' /\ h_session h' = h_session h.
Proof.
  intros Hp Hh Hc Hb Hl Hr Hlr. destruct cs as [|x cs]; [destruct rs; [|done]; exists p, h; cbn; by rewrite app_nil_r|]. inversion_clear Hc as [|? ? Hx Hc']. cbn [length] in Hl.
  destruct (Hb 0%nat x eq_refl) as [Hb0 _]. destruct (first_waits x p h Hh Hb0 Hx) as (p1 & h1 & E1 & [U1 O1] & W1 & S1 & N1).
  destruct (commands_run XXH3 cfg cs p1 h1 [x.2] Hc' W1 ltac:(cbn; lia)) as (p2 & h2 & E2 & [U2 O2] & W2 & S2 & N2).
  { intros i y Hy. rewrite (proj1 (Hb (S i) y Hy)). apply bool_decide_ext. naive_solver. }
  { intros m0 y Hm Hy. cbn in Hm. injection Hm as <-. apply list_elem_of_lookup in Hy as [i Hy]. by apply (proj2 (Hb (S i) y Hy) x). }
  apply waiting_serving in W2. destruct (replies_run XXH3 cfg _ _ rs p2 h2 ltac:(congruence) Hr W2 ltac:(cbn in *; rewrite length_map; lia)) as (p3 & h3 & E3 & U3 & O3 & W3 & S3 & N3).
  exists p3, h3. split; [|split; [|split; [|congruence]]].
  - rewrite (h_run_app XXH3 cfg). cbn [map]. unfold RedisHandler.h_run in *. cbn [foldl fst snd]. rewrite E1. cbn [fst snd]. rewrite E2. exact E3.
  - rewrite U3, U2, U1, S2, S1. f_equal. change ([x.2] ++ map snd cs) with (map snd (x :: cs)). replace (zlen (map snd (x :: cs))) with (zlen (x :: cs)) by (unfold zlen; by rewrite length_map). by rewrite zip_with_fmap_l.
  - destruct W3. split; [by split|done].
Qed.

(** ** A transaction *)
Abbreviation swap := (told * told)%type.
Implicit Types (e : swap).
Definition calls e : list call := [cmd_call e.1; reply_call e.2].
(** A command the server answers before the next one comes. *)
Definition turn e : bool := opens_batch e.1.1 && queues e.1.2 && plain_reply e.2.2.
Definition swap_obs (txn : Z) e : lk_query_obs := unit_obs XXH3 1 txn (alone e.1.2) (verdict e.2).
Definition is_queued e : Prop := turn e = true /\ plain e.1.2 = true /\ rr_flags (verdict e.2) = LK_QO_QUEUED.
Lemma turn_run e p h : p_out p = recorder -> idle h -> turn e = true ->
  exists p' h', h_run XXH3 cfg p h (calls e) = (p', h') /\ p_out p' = recorder /\ idle h' /\ p_up p' = p_up p ++ RQuery (h_session h) (swap_obs (h_txn_n h) e) :: (txn_next (h_txn_start h) (h_txn_n h) (alone e.1.2) (verdict e.2)).1.1 /\
    h_txn_start h' = (txn_next (h_txn_start h) (h_txn_n h) (alone e.1.2) (verdict e.2)).1.2 /\ h_txn_n h' = (txn_next (h_txn_start h) (h_txn_n h) (alone e.1.2) (verdict e.2)).2 /\ h_session h' = labels_after cfg e.1.2 (verdict e.2) h.
Proof. intros Hp Hi Ht. unfold turn in Ht. apply andb_true_iff in Ht as [Ht Hr]. apply andb_true_iff in Ht as [Hb Hq]. by apply exchange. Qed.
(** Without label flags the session stays. *)
Lemma labels_kept m r h : has_flag (ru_uflags (alone m)) (Z.lor REDIS_U_SELECT (Z.lor REDIS_U_AUTH REDIS_U_RESET)) = false -> labels_after cfg m r h = h_session h.
Proof. intros H. unfold labels_after. by rewrite H. Qed.
(** The count is EXEC's alone. *)
Lemma swap_obs_txn n e : has_flag (ru_uflags (alone e.1.2)) REDIS_U_EXEC = false -> swap_obs n e = swap_obs 0 e.
Proof. intros H. unfold swap_obs, unit_obs. by rewrite H. Qed.
Lemma queued_run es : forall p h t n, p_out p = recorder -> idle h -> h_txn_start h = t -> t <> 0 -> h_txn_n h = n -> 0 <= n -> n + zlen es < 2 ^ 32 -> Forall is_queued es ->
  exists p' h', h_run XXH3 cfg p h (concat (map calls es)) = (p', h') /\ p_out p' = recorder /\ idle h' /\ p_up p' = p_up p ++ map (fun e => RQuery (h_session h) (swap_obs 0 e)) es /\
    h_txn_start h' = t /\ h_txn_n h' = n + zlen es /\ h_session h' = h_session h.
Proof.
  induction es as [|e es IH]; intros p h t n Hp Hi Ht Ht0 Hn Hn0 Hl Hq; [exists p, h; change (zlen []) with 0; rewrite Z.add_0_r; cbn; by rewrite app_nil_r|]. inversion_clear Hq as [|? ? (Q1 & Q2 & Q3) Hq']. rewrite zlen_cons in *. pose proof (zlen_nonneg es).
  destruct (turn_run e p h Hp Hi Q1) as (p1 & h1 & E1 & O1 & I1 & U1 & T1 & N1 & S1). pose proof (alone_plain _ Q2) as Ea.
  assert (txn_next (h_txn_start h) (h_txn_n h) (alone e.1.2) (verdict e.2) = ([], t, n + 1)) as En.
  { unfold txn_next. rewrite Ea, Q3, Ht, Hn. change (has_flag (ru_uflags (plain_unit false e.1.2)) REDIS_U_MULTI) with false. change (has_flag LK_QO_QUEUED LK_QO_QUEUED) with true. destruct (Z.eqb_spec t 0); [done|]. cbn [negb andb]. unfold u32. rewrite Z.mod_small by lia. done. }
  rewrite En in *. cbn [fst snd] in *. rewrite labels_kept in S1 by (by rewrite Ea). rewrite swap_obs_txn in U1 by (by rewrite Ea).
  destruct (IH p1 h1 t (n + 1) O1 I1 T1 Ht0 N1 ltac:(lia) ltac:(lia) Hq') as (p2 & h2 & E2 & O2 & I2 & U2 & T2 & N2 & S2). exists p2, h2. split; [|split; [done|split; [done|split; [|split; [done|split; [lia|congruence]]]]]].
  - cbn [map concat]. rewrite (h_run_app XXH3 cfg), E1. exact E2.
  - rewrite U2, U1, S1, <- app_assoc. done.
Qed.
Definition txn_end (x : told * told) : Z := if rr_err (verdict x.2) || rr_null (verdict x.2) then ch "E" else ch "I".
Lemma txn_run multi es exec p h : p_out p = recorder -> resting h -> turn multi = true -> verb_is "MULTI" multi.1.2 -> rr_err (verdict multi.2) = false -> m_ts_ns multi.1.2 <> 0 -> Forall is_queued es -> zlen es < 2 ^ 32 ->
  turn exec = true -> verb_is "EXEC" exec.1.2 -> rr_flags (verdict exec.2) <> LK_QO_QUEUED ->
  exists p' h', h_run XXH3 cfg p h (calls multi ++ concat (map calls es) ++ calls exec) = (p', h') /\ resting h' /\ h_session h' = h_session h /\
    p_up p' = p_up p ++ RQuery (h_session h) (swap_obs 0 multi) :: map (fun e => RQuery (h_session h) (swap_obs 0 e)) es ++
      [RQuery (h_session h) (swap_obs (zlen es) exec); RTxn (m_ts_ns multi.1.2) (rr_end_ns (verdict exec.2)) (txn_end exec)].
Proof.
  intros Hp [Hi Ht] Hm Vm Em Tm Hq Hl Hx Vx Ex. pose proof (zlen_nonneg es).
  destruct (alone_flag "MULTI" LK_REDIS_C_MULTI multi.1.2 ltac:(vm_compute; reflexivity) eq_refl Vm) as [Fm Sm]. destruct (alone_flag "EXEC" LK_REDIS_C_EXEC exec.1.2 ltac:(vm_compute; reflexivity) eq_refl Vx) as [Fx _].
  destruct (turn_run multi p h Hp Hi Hm) as (p1 & h1 & E1 & O1 & I1 & U1 & T1 & N1 & S1). rewrite labels_kept in S1 by (by rewrite Fm). rewrite swap_obs_txn in U1 by (by rewrite Fm).
  assert (txn_next (h_txn_start h) (h_txn_n h) (alone multi.1.2) (verdict multi.2) = ([], m_ts_ns multi.1.2, 0)) as En by (unfold txn_next; by rewrite Fm, Em, Ht, Sm). rewrite En in *. cbn [fst snd] in *.
  destruct (queued_run es p1 h1 _ 0 O1 I1 T1 Tm N1 ltac:(lia) ltac:(lia) Hq) as (p2 & h2 & E2 & O2 & I2 & U2 & T2 & N2 & S2).
  destruct (turn_run exec p2 h2 O2 I2 Hx) as (p3 & h3 & E3 & O3 & I3 & U3 & T3 & N3 & S3). rewrite labels_kept in S3 by (by rewrite Fx).
  assert (txn_next (h_txn_start h2) (h_txn_n h2) (alone exec.1.2) (verdict exec.2) = ([RTxn (m_ts_ns multi.1.2) (rr_end_ns (verdict exec.2)) (txn_end exec)], 0, 0)) as En3.
  { unfold txn_next, txn_end. rewrite Fx, T2. change (has_flag (unit_uflags LK_REDIS_C_EXEC) REDIS_U_MULTI) with false. assert (has_flag (rr_flags (verdict exec.2)) LK_QO_QUEUED = false) as ->.
    { revert Ex. unfold verdict, reply_verdict. destruct (_ || _); [by destruct (lk_redis_err _) as [? rd], (rd =? 0)|]. destruct (_ =? REDIS_T_SIMPLE); [by case_bool_decide|]. destruct (_ =? REDIS_T_NULL); [done|]. by destruct (_ =? REDIS_T_ARRAY). }
    cbn [andb]. destruct (Z.eqb_spec (m_ts_ns multi.1.2) 0); [done|]. change (has_flag (unit_uflags LK_REDIS_C_EXEC) _) with true. cbn [negb orb]. by rewrite andb_false_r. }
  rewrite En3 in *. cbn [fst snd] in *. exists p3, h3. split; [|split; [by split|split; [congruence|]]].
  - rewrite (h_run_app XXH3 cfg), E1. cbn [fst snd]. rewrite (h_run_app XXH3 cfg), E2. exact E3.
  - rewrite U3, U2, U1, S2, S1, N2, Z.add_0_l, <- !app_assoc. done.
Qed.
End Reports.
