(* ===== verification/RedisHandlerClaims.v ===== *)
(** What the Redis handler promises, over whole runs from a new connection on. *)
From Stdlib Require Import Ascii String.
From stdpp Require Import base list list_numbers option.
From S2P Require Import Prelude Conn Proto Decimal Reassembly RedisFrame RedisResp RedisClaims NormRedisTab NormRedis RedisArgv RedisConn Redis RedisHandler RedisReports.
#[local] Open Scope Z_scope.

Section Claims.
Context (XXH3 : list Z -> Z) (cfg : lk_redis_cfg) (oom : list bool) (c : lk_conn redis_conn redis_frame) (Hc : c_proto_state c = None) (Ho : (alloc oom).1 = true).
Abbreviation told := (option redis_frame * lk_msg)%type.
Abbreviation after ks := (run XXH3 cfg (born oom) c ks).
(** The reports and the state after a history. *)
Abbreviation reports ks := (p_up (after ks).1).
Abbreviation state ks := (held cfg (after ks).2).

(** C4: The Redis handler is the queue machine.  From the first callback on a connection,
    on every sequence of messages and resyncs (fewer than [2^64]), the handler ends with
    the counters, the allocator and the reports of the machine, its ring holding exactly
    the machine's queue within its 256 slots. *)
Theorem redis_handler_refines k ks : zlen (k :: ks) < 2 ^ 64 ->
  exists rc, c_proto_state (after (k :: ks)).2 = Some rc /\ rwf (zlen (k :: ks)) rc /\
    h_run XXH3 cfg (attached (born oom)) (h_init cfg (synthetic c)) (k :: ks) = ((after (k :: ks)).1, abs rc).
Proof. intros H. destruct (fresh_run XXH3 cfg oom c Hc Ho k ks H) as (rc & H1 & H2 & H3). by exists rc. Qed.

(** C9: Pipelines are answered in order.  After any history that leaves the connection at
    rest, a batch of up to 256 ordinary commands followed by as many replies is reported
    as exactly one observation per command, the n-th command with the n-th reply: its own
    label, start, sizes, argument count, blocking flag and verdict, the batch's depth, and
    the session of the moment; and the connection is at rest again. *)
Theorem redis_pipeline_exact ks (cs rs : list told) : zlen ks + (zlen cs + zlen rs) < 2 ^ 64 -> resting (state ks) ->
  Forall (fun x => plain x.2 = true) cs -> one_batch cs -> (length cs <= 256)%nat -> Forall (fun y => plain_reply y.2 = true) rs -> length rs = length cs ->
  reports (ks ++ map cmd_call cs ++ map reply_call rs) = reports ks ++ zip_with (fun x y => RQuery (h_session (state ks)) (plain_obs XXH3 (zlen cs) 0 x.2 y.1 y.2)) cs rs /\
  resting (state (ks ++ map cmd_call cs ++ map reply_call rs)) /\ h_session (state (ks ++ map cmd_call cs ++ map reply_call rs)) = h_session (state ks).
Proof.
  intros Hl Hr H1 H2 H3 H4 H5. destruct (continue XXH3 cfg oom c Hc Ho ks (map cmd_call cs ++ map reply_call rs)) as (p & <- & Hp & Hk); [rewrite zlen_app, !zlen_map; exact Hl|].
  destruct (pipeline_run XXH3 cfg cs rs p _ Hp Hr H1 H2 H3 H4 H5) as (p' & h' & E & U & R & S). destruct (Hk p' h' E) as [-> ->]. done.
Qed.

(** Labels move when the server accepts.  A SELECT answered before the next command is
    reported under the session it was sent in; afterwards the database label is the number
    it named, in decimal, unless the reply was an error, and then it is what it was.  The
    user is untouched. *)
Theorem redis_select_exact ks (x y : told) o o' v db : zlen ks + 2 < 2 ^ 64 -> idle (state ks) -> turn (x, y) = true ->
  argv_of x.2 = [Arg o v; Arg o' (show db)] -> map to_upper v = lit "SELECT" -> 0 <= db <= LK_REDIS_MAX_DB -> has_flag (rr_flags (verdict y)) LK_QO_QUEUED = false ->
  reports (ks ++ calls (x, y)) = reports ks ++ [RQuery (h_session (state ks)) (swap_obs XXH3 0 (x, y))] /\
  c_str (s_database (h_session (state (ks ++ calls (x, y))))) = (if rr_err (verdict y) then c_str (s_database (h_session (state ks))) else show db) /\
  s_user (h_session (state (ks ++ calls (x, y)))) = s_user (h_session (state ks)).
Proof.
  intros Hl Hi Ht Ev Vv Hd Hq. destruct (continue XXH3 cfg oom c Hc Ho ks (calls (x, y)) Hl) as (p & <- & Hp & Hk). destruct (turn_run XXH3 cfg (x, y) p _ Hp Hi Ht) as (p' & h' & E & _ & _ & U & _ & _ & S). destruct (Hk p' h' E) as [-> ->].
  destruct (alone_select x.2 o db o' v Ev Vv Hd) as (F1 & F2 & F3 & _). cbn [fst snd] in *. rewrite swap_obs_txn in U by (cbn [fst snd]; by rewrite F1). rewrite U, S. split; [|].
  - do 2 f_equal. unfold txn_next. rewrite F1, Hq. done.
  - unfold labels_after, apply_labels, session_set_db. rewrite F1, F2, (proj2 (db_shown db 0 Hd)). change (has_flag REDIS_U_SELECT (Z.lor _ _)) with true. destruct (rr_err (verdict y)); [done|]. cbn [negb orb].
    change (has_flag REDIS_U_SELECT REDIS_U_RESET) with false. change (has_flag REDIS_U_SELECT REDIS_U_AUTH) with false. change (has_flag REDIS_U_SELECT REDIS_U_SELECT) with true. split; [|done]. cbn. rewrite c_str_put by (apply nul_free_show; lia). by apply ztake_all.
Qed.

(** The same for AUTH with a user name: an accepted one makes a valid name the user
    label, a refused one changes nothing.  The
    database is untouched. *)
Theorem redis_auth_exact ks (x y : told) o o' v user pass : zlen ks + 2 < 2 ^ 64 -> idle (state ks) -> turn (x, y) = true -> no_user cfg = false ->
  argv_of x.2 = [Arg o v; Arg o' user; pass] -> map to_upper v = lit "AUTH" -> lk_redis_user_valid user = true -> has_flag (rr_flags (verdict y)) LK_QO_QUEUED = false ->
  reports (ks ++ calls (x, y)) = reports ks ++ [RQuery (h_session (state ks)) (swap_obs XXH3 0 (x, y))] /\
  c_str (s_user (h_session (state (ks ++ calls (x, y))))) = (if rr_err (verdict y) then c_str (s_user (h_session (state ks))) else user) /\
  s_database (h_session (state (ks ++ calls (x, y)))) = s_database (h_session (state ks)).
Proof.
  intros Hl Hi Ht Hu Ev Vv Hv Hq. destruct (continue XXH3 cfg oom c Hc Ho ks (calls (x, y)) Hl) as (p & <- & Hp & Hk). destruct (turn_run XXH3 cfg (x, y) p _ Hp Hi Ht) as (p' & h' & E & _ & _ & U & _ & _ & S). destruct (Hk p' h' E) as [-> ->].
  destruct (alone_auth x.2 o o' v user pass Ev Vv) as (F1 & F2 & _). destruct (nul_free_user user Hv) as [Hz Hn]. cbn [fst snd] in *. rewrite swap_obs_txn in U by (cbn [fst snd]; by rewrite F1). rewrite U, S. split; [|].
  - do 2 f_equal. unfold txn_next. rewrite F1, Hq. done.
  - unfold labels_after, apply_labels, auth_after. rewrite F1, F2. change (has_flag REDIS_U_AUTH (Z.lor _ _)) with true. destruct (rr_err (verdict y)); [done|]. cbn [negb orb].
    change (has_flag REDIS_U_AUTH REDIS_U_RESET) with false. change (has_flag REDIS_U_AUTH REDIS_U_AUTH) with true. change (has_flag REDIS_U_AUTH REDIS_U_SELECT) with false. rewrite bool_decide_eq_true_2 by by eexists. unfold park_name. cbn [ra_s].
    destruct (Z.ltb_spec (zlen user) (LK_REDIS_USER_MAX - 1)) as [_|Hge]; [|replace (LK_REDIS_USER_MAX - 1) with (zlen user) by lia]; rewrite c_str_put, ztake_all by (done || lia); unfold session_set_user; rewrite Hu, Hv; (destruct (Z.eqb_spec (zlen user) 0); [lia|]); (split; [|done]); cbn;
      rewrite c_str_put by done; by apply ztake_all.
Qed.

(** C26: A transaction is reported once.  MULTI accepted, any number of commands answered
    QUEUED, EXEC: every command is reported in order, EXEC with the number of queued
    commands, and then one transaction from MULTI's request to EXEC's reply, aborted
    exactly when EXEC failed or returned null. *)
Theorem redis_txn_exact ks (multi exec : told * told) es : zlen ks + zlen (calls multi ++ concat (map calls es) ++ calls exec) < 2 ^ 64 -> resting (state ks) ->
  turn multi = true -> verb_is "MULTI" multi.1.2 -> rr_err (verdict multi.2) = false -> m_ts_ns multi.1.2 <> 0 -> Forall is_queued es -> zlen es < 2 ^ 32 ->
  turn exec = true -> verb_is "EXEC" exec.1.2 -> rr_flags (verdict exec.2) <> LK_QO_QUEUED ->
  reports (ks ++ calls multi ++ concat (map calls es) ++ calls exec) = reports ks ++ RQuery (h_session (state ks)) (swap_obs XXH3 0 multi) :: map (fun e => RQuery (h_session (state ks)) (swap_obs XXH3 0 e)) es ++
    [RQuery (h_session (state ks)) (swap_obs XXH3 (zlen es) exec); RTxn (m_ts_ns multi.1.2) (rr_end_ns (verdict exec.2)) (txn_end exec)] /\
  resting (state (ks ++ calls multi ++ concat (map calls es) ++ calls exec)).
Proof.
  intros Hl Hr H1 H2 H3 H4 H5 H6 H7 H8 H9. destruct (continue XXH3 cfg oom c Hc Ho ks _ Hl) as (p & <- & Hp & Hk).
  destruct (txn_run XXH3 cfg multi es exec p _ Hp Hr H1 H2 H3 H4 H5 H6 H7 H8 H9) as (p' & h' & E & R & _ & U). destruct (Hk p' h' E) as [-> ->]. done.
Qed.
End Claims.

(** ** Witnesses *)
Definition w_xxh (l : list Z) : Z := zlen l.
Definition w_cfg : lk_redis_cfg := RedisCfg false.
Definition w_conn : lk_conn redis_conn redis_frame := conn0 7.
Definition w_call : redis_frame := RFrame redis_dir0 (redis_dir0 <| rd_v_call := true |>).
Definition w_cmd (first : bool) (ts : Z) (ps : list string) : option redis_frame * lk_msg := (Some (if first then w_call else redis_frame0), emsg ts (command (map lit ps))).
Definition w_reply (ts : Z) (t : Z) (s : string) : option redis_frame * lk_msg := (Some redis_frame0, emsg ts (RLine t (lit s))).
Definition w_ok (ts : Z) := w_reply ts REDIS_T_SIMPLE "OK".
Definition w_get := [w_cmd true 100 ["GET"; "k"]%string; w_cmd false 110 ["INCR"; "n"]%string].
Definition w_got := [w_reply 120 REDIS_T_SIMPLE "v"; w_reply 130 REDIS_T_ERROR "WRONGTYPE no"].
Definition w_reports (ks : list call) : list reported := p_up (run w_xxh w_cfg (born []) w_conn ks).1.
Definition w_state (ks : list call) : hconn := held w_cfg (run w_xxh w_cfg (born []) w_conn ks).2.
Lemma w_resting : resting (w_state []).
Proof. split; [split|]; reflexivity. Qed.

Lemma redis_handler_refines_witness : exists rc, c_proto_state (run w_xxh w_cfg (born []) w_conn (map cmd_call w_get)).2 = Some rc /\ rwf 2 rc /\
  h_run w_xxh w_cfg (attached (born [])) (h_init w_cfg (synthetic w_conn)) (map cmd_call w_get) = ((run w_xxh w_cfg (born []) w_conn (map cmd_call w_get)).1, abs rc).
Proof. exact (redis_handler_refines w_xxh w_cfg [] w_conn eq_refl eq_refl (cmd_call (w_cmd true 100 ["GET"; "k"]%string)) [cmd_call (w_cmd false 110 ["INCR"; "n"]%string)] eq_refl). Defined.
Lemma redis_pipeline_exact_witness : length (w_reports (map cmd_call w_get ++ map reply_call w_got)) = 2%nat /\
  w_reports ([] ++ map cmd_call w_get ++ map reply_call w_got) = w_reports [] ++ zip_with (fun x y => RQuery (h_session (w_state [])) (plain_obs w_xxh 2 0 x.2 y.1 y.2)) w_get w_got.
Proof.
  split; [vm_compute; reflexivity|]. refine (proj1 (redis_pipeline_exact w_xxh w_cfg [] w_conn eq_refl eq_refl [] w_get w_got eq_refl w_resting _ _ _ _ eq_refl)).
  - repeat constructor; vm_compute; reflexivity.
  - intros [|[|i]] x Hx; [| |done]; injection Hx as <-; (split; [vm_compute; reflexivity|]); intros y Hy; injection Hy as <-; unfold timely; vm_compute; discriminate.
  - vm_compute. repeat constructor.
  - repeat constructor; vm_compute; reflexivity.
Defined.
Definition w_select := (w_cmd true 100 ["select"; "3"]%string, w_ok 120).
Lemma redis_select_exact_witness : c_str (s_database (h_session (w_state ([] ++ calls w_select)))) = lit "3".
Proof.
  refine (proj1 (proj2 (redis_select_exact w_xxh w_cfg [] w_conn eq_refl eq_refl [] w_select.1 w_select.2 8 20 (lit "select") 3 eq_refl (proj1 w_resting) _ _ _ _ _))); vm_compute; try reflexivity. split; discriminate.
Defined.
Definition w_auth := (w_cmd true 100 ["AUTH"; "alice"; "secret"]%string, w_ok 120).
Lemma redis_auth_exact_witness : c_str (s_user (h_session (w_state ([] ++ calls w_auth)))) = lit "alice".
Proof.
  refine (proj1 (proj2 (redis_auth_exact w_xxh w_cfg [] w_conn eq_refl eq_refl [] w_auth.1 w_auth.2 8 18 (lit "AUTH") (lit "alice") (Arg 29 (lit "secret")) eq_refl (proj1 w_resting) _ eq_refl _ _ _ _))); vm_compute; reflexivity.
Defined.
Definition w_multi := (w_cmd true 100 ["MULTI"]%string, w_ok 110).
Definition w_queued := (w_cmd true 120 ["INCR"; "n"]%string, w_reply 130 REDIS_T_SIMPLE "QUEUED").
Definition w_exec := (w_cmd true 140 ["EXEC"]%string, (Some redis_frame0, emsg 150 (RAgg REDIS_T_ARRAY [RLine REDIS_T_INT (lit "1")]))).
Lemma redis_txn_exact_witness : w_reports ([] ++ calls w_multi ++ concat (map calls [w_queued]) ++ calls w_exec) =
  w_reports [] ++ RQuery (h_session (w_state [])) (swap_obs w_xxh 0 w_multi) :: map (fun e => RQuery (h_session (w_state [])) (swap_obs w_xxh 0 e)) [w_queued] ++
    [RQuery (h_session (w_state [])) (swap_obs w_xxh 1 w_exec); RTxn 100 150 (ch "I")].
Proof.
  refine (proj1 (redis_txn_exact w_xxh w_cfg [] w_conn eq_refl eq_refl [] w_multi w_exec [w_queued] eq_refl w_resting _ _ _ _ _ eq_refl _ _ _)).
  - vm_compute; reflexivity.
  - eexists _, _; split; vm_compute; reflexivity.
  - vm_compute; reflexivity.
  - discriminate.
  - repeat constructor; vm_compute; reflexivity.
  - vm_compute; reflexivity.
  - eexists _, _; split; vm_compute; reflexivity.
  - vm_compute; discriminate.
Defined.
