(* ===== verification/Pbuf.v ===== *)
(** The protobuf writer of the OTLP exporter, [export/pbuf.c], and its wire
    format.

    [pb_buf] holds all [cap] bytes of the allocation (empty: NULL), of which the
    first [pb_len] are the document; what [realloc] leaves in the new bytes is
    [junk].  [pb_env] is the allocator: the outcome of the next [realloc] calls,
    [true] for NULL, success once exhausted.

    What the protobuf writer produces. *)
From stdpp Require Import base list.
From S2P Require Import Prelude Proto.
#[local] Open Scope Z_scope.

Section Pbuf.
Definition PB_WIRE_VARINT := 0.
Definition PB_WIRE_I64 := 1.
Definition PB_WIRE_LEN := 2.
Definition PB_MIN_CAP := 256.

Record pbuf := Pbuf { pb_buf : list Z; pb_len : Z; pb_oom : bool; pb_env : list bool }.
#[global] Instance pbuf_upd : Updatable pbuf := fun p => Pbuf (pb_buf p) (pb_len p) (pb_oom p) (pb_env p).
Definition pb_cap (p : pbuf) : Z := zlen (pb_buf p).
(** The document written so far. *)
Definition pb_bytes (p : pbuf) : list Z := ztake (pb_len p) (pb_buf p).

(** [memcpy(buf + off, data, n)] inside the allocation. *)
Definition write_at (buf : list Z) (off : Z) (data : list Z) : list Z :=
  ztake off buf ++ data ++ zdrop (off + zlen data) buf.

(** [do { ... } while (v)]: seven bits a byte; ten bytes are enough for 64 bits. *)
Fixpoint varint_bytes (fuel : nat) (v : Z) : list Z :=
  match fuel with
  | O => []
  | S fuel =>
      let b := Z.land v 127 in
      let v := Z.shiftr v 7 in
      if v =? 0 then [b] else Z.lor b 128 :: varint_bytes fuel v
  end.
Definition varint (v : Z) : list Z := varint_bytes 10 v.

(** [while (v >>= 7) n++] *)
Fixpoint varint_len_from (fuel : nat) (n v : Z) : Z :=
  match fuel with
  | O => n
  | S fuel => let v := Z.shiftr v 7 in if v =? 0 then n else varint_len_from fuel (n + 1) v
  end.
Definition varint_len (v : Z) : Z := varint_len_from 10 1 v.

(** [while (cap < need) cap *= 2]: doubling from 256 reaches 2^63 in 55 steps. *)
Fixpoint grow_cap (fuel : nat) (cap need : Z) : Z :=
  match fuel with
  | O => cap
  | S fuel => if cap <? need then grow_cap fuel (u64 (cap * 2)) need else cap
  end.

(** [for (i < 8) b[i] = v >> (8 * i)] *)
Definition fixed64_bytes (v : Z) : list Z := map (fun i => u8 (Z.shiftr v (8 * i))) (seqZ 0 8).

Definition zigzag (v : Z) : Z := Z.lxor (u32 (Z.shiftl (u32 v) 1)) (u32 (Z.shiftr v 31)).

Section Writer.
Variable junk : Z -> Z.
Implicit Types p : pbuf.

Definition pb_init (env : list bool) : pbuf := Pbuf [] 0 false env.
Definition pb_free p : pbuf := Pbuf [] 0 false (pb_env p).
Definition pb_reset p : pbuf := p <| pb_len := 0 |> <| pb_oom := false |>.

Definition pb_reserve p (n : Z) : bool * pbuf :=
  if pb_oom p then (false, p)
  else
    let need := u64 (pb_len p + n) in
    if need <=? pb_cap p then (true, p)
    else
      let cap := grow_cap 64 (if pb_cap p =? 0 then PB_MIN_CAP else pb_cap p) need in
      let '(ok, env) := alloc (pb_env p) in
      let p := p <| pb_env := env |> in
      if ok then (true, p <| pb_buf ::= fun b => b ++ map junk (seqZ (zlen b) (cap - zlen b)) |>)
      else (false, p <| pb_oom := true |>).

Definition pb_raw p (data : list Z) : pbuf :=
  let '(ok, p) := pb_reserve p (zlen data) in
  if negb ok then p
  else p <| pb_buf := write_at (pb_buf p) (pb_len p) data |> <| pb_len ::= fun l => u64 (l + zlen data) |>.

Definition pb_varint p (v : Z) : pbuf := pb_raw p (varint v).
Definition pb_tag p (field wire : Z) : pbuf := pb_varint p (Z.lor (u64 (Z.shiftl field 3)) wire).
Definition pb_field_varint p field (v : Z) : pbuf := pb_varint (pb_tag p field PB_WIRE_VARINT) v.
Definition pb_field_sint32 p field (v : Z) : pbuf := pb_varint (pb_tag p field PB_WIRE_VARINT) (zigzag v).
Definition pb_field_bool p field (v : bool) : pbuf := pb_varint (pb_tag p field PB_WIRE_VARINT) (if v then 1 else 0).
Definition pb_fixed64 p (v : Z) : pbuf := pb_raw p (fixed64_bytes v).
(** A double is its IEEE-754 bit pattern. *)
Definition pb_double p (bits : Z) : pbuf := pb_fixed64 p bits.
Definition pb_field_fixed64 p field (v : Z) : pbuf := pb_fixed64 (pb_tag p field PB_WIRE_I64) v.
Definition pb_field_double p field (bits : Z) : pbuf := pb_double (pb_tag p field PB_WIRE_I64) bits.
Definition pb_field_bytes p field (data : list Z) : pbuf :=
  pb_raw (pb_varint (pb_tag p field PB_WIRE_LEN) (zlen data)) data.
(** [s] up to its terminator. *)
Definition pb_field_string p field (s : list Z) : pbuf := pb_field_bytes p field (c_str s).

Definition pb_submsg_begin p field : Z * pbuf :=
  let p := pb_tag p field PB_WIRE_LEN in (pb_len p, p).

(** [do { buf[i++] = ...; } while (v)] *)
Fixpoint put_varint (fuel : nat) (buf : list Z) (i v : Z) : list Z :=
  match fuel with
  | O => buf
  | S fuel =>
      let b := Z.land v 127 in
      let v := Z.shiftr v 7 in
      if v =? 0 then write_at buf i [b] else put_varint fuel (write_at buf i [Z.lor b 128]) (i + 1) v
  end.

Definition pb_submsg_end p (start : Z) : pbuf :=
  let body := u64 (pb_len p - start) in
  let vlen := varint_len body in
  let '(ok, p) := pb_reserve p vlen in
  if negb ok then p
  else
    let moved := write_at (pb_buf p) (start + vlen) (ztake body (zdrop start (pb_buf p))) in
    p <| pb_buf := put_varint 10 moved start body |> <| pb_len ::= fun l => u64 (l + vlen) |>.
End Writer.

(** ** What a document says *)
Inductive pfield :=
  | FVarint (n v : Z) | FSint32 (n v : Z) | FBool (n : Z) (v : bool) | FFixed64 (n v : Z)
  | FBytes (n : Z) (data : list Z) | FMsg (n : Z) (fs : list pfield).

(** Emitting it with the writer. *)
Fixpoint emit_field (junk : Z -> Z) (f : pfield) (p : pbuf) : pbuf :=
  match f with
  | FVarint n v => pb_field_varint junk p n v
  | FSint32 n v => pb_field_sint32 junk p n v
  | FBool n v => pb_field_bool junk p n v
  | FFixed64 n v => pb_field_fixed64 junk p n v
  | FBytes n data => pb_field_bytes junk p n data
  | FMsg n fs =>
      let '(start, p) := pb_submsg_begin junk p n in
      pb_submsg_end junk (fold_left (fun p f => emit_field junk f p) fs p) start
  end.
Definition emit_fields junk (fs : list pfield) (p : pbuf) : pbuf := fold_left (fun p f => emit_field junk f p) fs p.

(** The proto3 encoding. *)
Definition tag (n wire : Z) : list Z := varint (n * 8 + wire).
Definition delimited (data : list Z) : list Z := varint (zlen data) ++ data.
Fixpoint enc_field (f : pfield) : list Z :=
  match f with
  | FVarint n v => tag n PB_WIRE_VARINT ++ varint v
  | FSint32 n v => tag n PB_WIRE_VARINT ++ varint (if v <? 0 then - 2 * v - 1 else 2 * v)
  | FBool n v => tag n PB_WIRE_VARINT ++ varint (if v then 1 else 0)
  | FFixed64 n v => tag n PB_WIRE_I64 ++ fixed64_bytes v
  | FBytes n data => tag n PB_WIRE_LEN ++ delimited data
  | FMsg n fs => tag n PB_WIRE_LEN ++ delimited (flat_map enc_field fs)
  end.
Definition enc_fields (fs : list pfield) : list Z := flat_map enc_field fs.

(** A proto3 reader: field number and wire value. *)
Inductive wire_val := WVarint (v : Z) | WI64 (v : Z) | WLen (data : list Z).

Fixpoint get_varint (l : list Z) : option (Z * list Z) :=
  match l with
  | [] => None
  | b :: l => if b <? 128 then Some (b, l)
              else match get_varint l with Some (v, l) => Some (b - 128 + 128 * v, l) | None => None end
  end.
Definition le_value (l : list Z) : Z := foldr (fun b v => b + 256 * v) 0 l.

Fixpoint parse (fuel : nat) (l : list Z) : option (list (Z * wire_val)) :=
  match fuel, l with
  | _, [] => Some []
  | O, _ => None
  | S fuel, _ =>
      '(t, l) ← get_varint l;
      if t mod 8 =? PB_WIRE_VARINT then
        '(v, l) ← get_varint l; rest ← parse fuel l; Some ((t / 8, WVarint v) :: rest)
      else if t mod 8 =? PB_WIRE_I64 then
        if zlen l <? 8 then None
        else rest ← parse fuel (zdrop 8 l); Some ((t / 8, WI64 (le_value (ztake 8 l))) :: rest)
      else if t mod 8 =? PB_WIRE_LEN then
        '(n, l) ← get_varint l;
        if zlen l <? n then None
        else rest ← parse fuel (zdrop n l); Some ((t / 8, WLen (ztake n l)) :: rest)
      else None
  end.

Definition wire_of (f : pfield) : Z * wire_val :=
  match f with
  | FVarint n v => (n, WVarint v)
  | FSint32 n v => (n, WVarint (if v <? 0 then - 2 * v - 1 else 2 * v))
  | FBool n v => (n, WVarint (if v then 1 else 0))
  | FFixed64 n v => (n, WI64 v)
  | FBytes n data => (n, WLen data)
  | FMsg n fs => (n, WLen (enc_fields fs))
  end.

(** Values in the ranges of their C types. *)
Definition field_num (n : Z) : Prop := 0 <= n < 2 ^ 32.
Fixpoint field_ok (f : pfield) : Prop :=
  match f with
  | FVarint n v | FFixed64 n v => field_num n /\ 0 <= v < 2 ^ 64
  | FSint32 n v => field_num n /\ - 2 ^ 31 <= v < 2 ^ 31
  | FBool n _ => field_num n
  | FBytes n data => field_num n /\ bytes_ok data
  | FMsg n fs => field_num n /\ foldr (fun f P => field_ok f /\ P) True fs
  end.
End Pbuf.

(** ** Varints and the buffer

    The protobuf writer: varints, the growing buffer, nested messages. *)
Section Facts.
Implicit Types (p : pbuf) (l data : list Z).

(** ** Varints *)
Lemma land_127 v : Z.land v 127 = v mod 128.
Proof. change 127 with (Z.ones 7). by rewrite Z.land_ones. Qed.
Lemma shiftr_7 v : Z.shiftr v 7 = v / 128.
Proof. by rewrite Z.shiftr_div_pow2. Qed.
Lemma lor_128 v : Z.lor (v mod 128) 128 = v mod 128 + 128.
Proof.
  rewrite <- Z.lxor_lor, <- Z.add_nocarry_lxor; [done|..].
  all: apply Z.bits_inj'; intros i Hi; rewrite Z.land_spec, Z.bits_0; change 128 with (2 ^ 7); destruct (Z.eqb_spec i 7) as [->|Hne];
    [rewrite Z.mod_pow2_bits_high by lia; done|rewrite (Z.pow2_bits_false 7) by done; apply andb_false_r].
Qed.

Lemma varint_cons f v : varint_bytes (S f) v = if v / 128 =? 0 then [v mod 128] else v mod 128 + 128 :: varint_bytes f (v / 128).
Proof. cbn [varint_bytes]. by rewrite land_127, shiftr_7, lor_128. Qed.

(** A varint is read back, and the reader stops right after it. *)
Lemma get_varint_bytes f : forall v l, 0 <= v < 128 ^ Z.of_nat f -> (0 < f)%nat -> get_varint (varint_bytes f v ++ l) = Some (v, l).
Proof.
  induction f as [|f IH]; intros v l Hv Hf; [lia|]. rewrite varint_cons. pose proof (Z.mod_pos_bound v 128 ltac:(lia)).
  pose proof (Z.div_mod v 128 ltac:(lia)). destruct (Z.eqb_spec (v / 128) 0) as [E|E]; cbn [app get_varint].
  - destruct (Z.ltb_spec (v mod 128) 128); [|lia]. do 2 f_equal. lia.
  - destruct (Z.ltb_spec (v mod 128 + 128) 128); [lia|]. rewrite IH.
    + do 2 f_equal. lia.
    + split; [apply Z.div_pos; lia|]. apply Z.div_lt_upper_bound; [lia|]. rewrite Nat2Z.inj_succ, Z.pow_succ_r in Hv by lia. lia.
    + destruct f; [|lia]. exfalso. apply E. apply Z.div_small. cbn in Hv. lia.
Qed.
Lemma get_varint_varint v l : 0 <= v < 2 ^ 64 -> get_varint (varint v ++ l) = Some (v, l).
Proof. intros. apply get_varint_bytes; lia. Qed.

Lemma varint_bytes_ok f : forall v, 0 <= v -> bytes_ok (varint_bytes f v).
Proof.
  induction f as [|f IH]; intros v Hv; [by constructor|]. rewrite varint_cons. pose proof (Z.mod_pos_bound v 128 ltac:(lia)).
  destruct (_ =? 0); (constructor; [lia|]); [by constructor|]. apply IH, Z.div_pos; lia.
Qed.

Lemma varint_len_bytes f : forall v n, 0 <= v < 128 ^ Z.of_nat f -> (0 < f)%nat -> varint_len_from f n v = n - 1 + zlen (varint_bytes f v).
Proof.
  induction f as [|f IH]; intros v n Hv Hf; [lia|]. rewrite varint_cons. cbn [varint_len_from]. rewrite shiftr_7.
  destruct (Z.eqb_spec (v / 128) 0) as [E|E]; rewrite zlen_cons; [change (zlen []) with 0; lia|]. rewrite IH; [lia| |].
  - split; [apply Z.div_pos; lia|]. apply Z.div_lt_upper_bound; [lia|]. rewrite Nat2Z.inj_succ, Z.pow_succ_r in Hv by lia. lia.
  - destruct f; [|lia]. exfalso. apply E. apply Z.div_small. cbn in Hv. lia.
Qed.
Lemma varint_len_ok v : 0 <= v < 2 ^ 64 -> varint_len v = zlen (varint v).
Proof. intros. unfold varint_len, varint. rewrite varint_len_bytes by lia. lia. Qed.

Lemma varint_bytes_len f : forall v, zlen (varint_bytes f v) <= Z.of_nat f.
Proof.
  induction f as [|f IH]; intros v; [done|]. rewrite varint_cons. destruct (_ =? 0); rewrite zlen_cons; [change (zlen []) with 0; lia|].
  specialize (IH (v / 128)). lia.
Qed.

(** ** The buffer *)
Lemma zlen_map_seqZ (g : Z -> Z) (m n : Z) : 0 <= n -> zlen (map g (seqZ m n)) = n.
Proof. intros. unfold zlen. rewrite length_map, length_seqZ. lia. Qed.

Lemma write_at_len buf off data : 0 <= off -> off + zlen data <= zlen buf -> zlen (write_at buf off data) = zlen buf.
Proof. intros. pose proof (zlen_nonneg data). unfold write_at. rewrite !zlen_app, zlen_ztake, zlen_zdrop by lia. lia. Qed.
Lemma write_at_prefix buf off data : 0 <= off -> off + zlen data <= zlen buf ->
  ztake (off + zlen data) (write_at buf off data) = ztake off buf ++ data.
Proof.
  intros. pose proof (zlen_nonneg data). unfold write_at. rewrite app_assoc.
  assert (zlen (ztake off buf ++ data) = off + zlen data) as E by (rewrite zlen_app, zlen_ztake; lia).
  rewrite <- E at 1. rewrite ztake_app_le by lia. by apply ztake_all.
Qed.

Lemma grow_cap_ok f : forall cap need, 1 <= cap <= 2 ^ 63 -> need <= 2 ^ 63 -> need <= cap * 2 ^ Z.of_nat f -> 
  need <= grow_cap f cap need /\ cap <= grow_cap f cap need.
Proof.
  induction f as [|f IH]; intros cap need Hc Hn Hf; cbn [grow_cap]; [lia|]. destruct (Z.ltb_spec cap need); [|lia].
  rewrite Nat2Z.inj_succ, Z.pow_succ_r in Hf by lia. rewrite u64_small by lia.
  destruct (Z.le_gt_cases (2 ^ 63) cap); [lia|]. destruct (Z.le_gt_cases (cap * 2) (2 ^ 63)).
  - destruct (IH (cap * 2) need); lia.
  - assert (grow_cap f (cap * 2) need = cap * 2) as ->; [|lia]. destruct f; [done|]. cbn [grow_cap]. destruct (Z.ltb_spec (cap * 2) need); lia.
Qed.

(** A live buffer whose document is [l]. *)
Definition holds p (l : list Z) : Prop :=
  pb_oom p = false /\ 0 <= pb_len p <= pb_cap p /\ pb_cap p < 2 ^ 64 /\ pb_bytes p = l.
(** ... or a poisoned one. *)
Definition okay p (l : list Z) : Prop := pb_oom p = true \/ holds p l.
(** How much may be written: far above what an address space holds. *)
Definition PB_MAX := 2 ^ 62.

Section Writer.
Variable junk : Z -> Z.

Lemma holds_len p l : holds p l -> pb_len p = zlen l.
Proof. intros (_ & H & _ & <-). unfold pb_bytes. rewrite zlen_ztake by lia. unfold pb_cap in H. lia. Qed.

Lemma grow_bound f : forall cap need, grow_cap f cap need <= Z.max cap (2 ^ 64 - 1).
Proof.
  induction f as [|f IH]; intros cap need; cbn [grow_cap]; [lia|]. destruct (Z.ltb_spec cap need); [|lia].
  pose proof (u64_range (cap * 2)). specialize (IH (u64 (cap * 2)) need). lia.
Qed.

Lemma pb_reserve_ok p l n : holds p l -> 0 <= n -> zlen l + n <= PB_MAX ->
  let '(ok, p') := pb_reserve junk p n in
  if ok then holds p' l /\ pb_len p' = pb_len p /\ pb_len p + n <= pb_cap p' else pb_oom p' = true.
Proof.
  intros Hp Hn Hm. pose proof (holds_len p l Hp) as El. pose proof Hp as (H1 & H3 & H4 & H5). unfold PB_MAX in Hm.
  pose proof (zlen_nonneg l). unfold pb_reserve. rewrite H1, (u64_small (pb_len p + n)) by lia.
  destruct (Z.leb_spec (pb_len p + n) (pb_cap p)); [done|]. destruct (alloc (pb_env p)) as [[] env]; [|done].
  set (c0 := if pb_cap p =? 0 then PB_MIN_CAP else pb_cap p).
  assert (1 <= c0 <= 2 ^ 62 /\ pb_cap p <= c0) as [Hc0 Hc1].
  { subst c0. unfold PB_MIN_CAP. destruct (Z.eqb_spec (pb_cap p) 0); lia. }
  destruct (grow_cap_ok 64 c0 (pb_len p + n)) as [Hg1 Hg2]; [lia|lia|nia|].
  pose proof (grow_bound 64 c0 (pb_len p + n)) as Hg3. set (cap := grow_cap 64 c0 _) in *. clearbody cap.
  assert (zlen (pb_buf p ++ map junk (seqZ (zlen (pb_buf p)) (cap - zlen (pb_buf p)))) = cap) as Ec.
  { rewrite zlen_app, zlen_map_seqZ; unfold pb_cap in *; lia. }
  split; [|split; [done|unfold pb_cap; cbn [pb_buf upd]; rewrite Ec; lia]].
  split; [done|]. unfold pb_cap, pb_bytes. cbn [pb_buf pb_len upd]. rewrite Ec. split; [lia|]. split; [lia|].
  rewrite ztake_app_le by (unfold pb_cap in *; lia). done.
Qed.

(** A poisoned buffer stays as it is. *)
Lemma reserve_oom p n : pb_oom p = true -> pb_reserve junk p n = (false, p).
Proof. intros E. unfold pb_reserve. by rewrite E. Qed.
Lemma raw_oom p data : pb_oom p = true -> pb_raw junk p data = p.
Proof. intros E. unfold pb_raw. by rewrite reserve_oom. Qed.

Lemma pb_raw_ok p l data : okay p l -> zlen l + zlen data <= PB_MAX -> okay (pb_raw junk p data) (l ++ data).
Proof.
  intros [Ho|Hp] Hm; [left; by rewrite raw_oom|]. unfold pb_raw. pose proof (pb_reserve_ok p l (zlen data) Hp (zlen_nonneg _) Hm) as Hr.
  destruct (pb_reserve junk p (zlen data)) as [[] p1]; cbn [negb]; [|by left]. destruct Hr as (H1 & El & Hc). right.
  pose proof (holds_len p1 l H1) as El1. destruct H1 as (O1 & O3 & O4 & O5). pose proof (zlen_nonneg data). unfold PB_MAX in Hm.
  split; [done|]. unfold pb_cap, pb_bytes in *. cbn [pb_buf pb_len upd].
  rewrite u64_small by lia. rewrite write_at_len by lia. split; [lia|]. split; [lia|]. rewrite write_at_prefix by lia. by rewrite O5.
Qed.

Lemma pb_varint_ok p l v : okay p l -> zlen l + 10 <= PB_MAX -> okay (pb_varint junk p v) (l ++ varint v).
Proof. intros Hp Hm. apply pb_raw_ok; [done|]. pose proof (varint_bytes_len 10 v). unfold varint. lia. Qed.

Lemma lor_tag n w : 0 <= n < 2 ^ 32 -> 0 <= w < 8 -> Z.lor (u64 (Z.shiftl n 3)) w = n * 8 + w.
Proof.
  intros Hn Hw. rewrite (u64_small (Z.shiftl n 3)) by (rewrite Z.shiftl_mul_pow2; lia). rewrite lor_shiftl_add by lia. lia.
Qed.
Lemma pb_tag_ok p l n w : okay p l -> zlen l + 10 <= PB_MAX -> field_num n -> 0 <= w < 8 -> okay (pb_tag junk p n w) (l ++ tag n w).
Proof. intros Hp Hm Hn Hw. unfold pb_tag, tag. rewrite lor_tag by done. by apply pb_varint_ok. Qed.

(** Closing a submessage: the length goes between what precedes the body and the
    body. *)
Lemma write_at_cons buf i (b : Z) data : 0 <= i -> i + 1 + zlen data <= zlen buf ->
  write_at (write_at buf i [b]) (i + 1) data = write_at buf i (b :: data).
Proof.
  intros Hi Hl. pose proof (zlen_nonneg data). unfold write_at. change (zlen [b]) with 1. rewrite zlen_cons.
  assert (ztake (i + 1) (ztake i buf ++ [b] ++ zdrop (i + 1) buf) = ztake i buf ++ [b]) as ->.
  { rewrite app_assoc. rewrite ztake_app_le by (rewrite zlen_app, zlen_ztake; change (zlen [b]) with 1; lia).
    apply ztake_all. rewrite zlen_app, zlen_ztake by lia. change (zlen [b]) with 1. lia. }
  assert (zdrop (i + 1 + zlen data) (ztake i buf ++ [b] ++ zdrop (i + 1) buf) = zdrop (i + (zlen data + 1)) buf) as ->.
  { assert (zlen (ztake i buf ++ [b]) = i + 1) as E by (rewrite zlen_app, zlen_ztake by lia; change (zlen [b]) with 1; lia).
    rewrite app_assoc, zdrop_app_ge by lia. rewrite E, zdrop_zdrop by lia. f_equal. lia. }
  by rewrite <- app_assoc.
Qed.

Lemma put_varint_write f : forall buf i v, 0 <= i -> i + zlen (varint_bytes f v) <= zlen buf ->
  (0 < f)%nat -> put_varint f buf i v = write_at buf i (varint_bytes f v) \/ 128 ^ Z.of_nat f <= v \/ v < 0.
Proof.
  induction f as [|f IH]; intros buf i v Hi Hl Hf; [lia|]. rewrite varint_cons in *. cbn [put_varint]. rewrite land_127, shiftr_7, lor_128.
  destruct (Z.eqb_spec (v / 128) 0) as [E|E]; [by left|]. rewrite zlen_cons in Hl. pose proof (zlen_nonneg (varint_bytes f (v / 128))).
  destruct (Z.lt_ge_cases v 0); [lia|]. destruct f as [|f].
  { right. left. cbn. destruct (Z.le_gt_cases 128 v); [lia|]. exfalso. apply E, Z.div_small. lia. }
  destruct (IH (write_at buf i [v mod 128 + 128]) (i + 1) (v / 128)) as [->|[Hb|Hb]].
  - lia.
  - rewrite write_at_len by (change (zlen [v mod 128 + 128]) with 1; lia). lia.
  - lia.
  - left. apply write_at_cons; lia.
  - right. left. rewrite Nat2Z.inj_succ, Z.pow_succ_r by lia. pose proof (Z.div_mod v 128 ltac:(lia)). pose proof (Z.mod_pos_bound v 128 ltac:(lia)). lia.
  - pose proof (Z.div_pos v 128). lia.
Qed.

Lemma shift_in buf s body vb tl : buf = ztake s buf ++ body ++ tl -> 0 <= s <= zlen buf -> zlen vb <= zlen tl ->
  ztake (s + zlen body + zlen vb) (write_at (write_at buf (s + zlen vb) body) s vb) = ztake s buf ++ vb ++ body.
Proof.
  intros E Hs Hv. pose proof (zlen_nonneg body). pose proof (zlen_nonneg vb). assert (zlen buf = s + zlen body + zlen tl) as El.
  { rewrite E at 1. rewrite !zlen_app, zlen_ztake by lia. lia. }
  set (buf1 := write_at buf (s + zlen vb) body).
  assert (ztake s buf1 = ztake s buf) as E1.
  { unfold buf1, write_at. rewrite ztake_app_le by (rewrite zlen_ztake; lia). unfold ztake. rewrite take_take. f_equal. lia. }
  assert (exists r, zdrop (s + zlen vb) buf1 = body ++ r) as [r E2].
  { eexists. unfold buf1, write_at. rewrite zdrop_app_ge by (rewrite zlen_ztake; lia). rewrite zlen_ztake by lia.
    rewrite zdrop_0 by lia. reflexivity. }
  unfold write_at. rewrite E1, E2. rewrite !app_assoc. rewrite ztake_app_le.
  - apply ztake_all. rewrite !zlen_app, zlen_ztake by lia. lia.
  - rewrite !zlen_app, zlen_ztake by lia. lia.
Qed.

Lemma pb_submsg_end_ok p l body : holds p (l ++ body) -> zlen l + zlen body + 10 <= PB_MAX ->
  okay (pb_submsg_end junk p (zlen l)) (l ++ delimited body).
Proof.
  intros Hp Hm. pose proof (holds_len _ _ Hp) as El. rewrite zlen_app in El. pose proof (zlen_nonneg l). pose proof (zlen_nonneg body).
  unfold pb_submsg_end. rewrite El. replace (zlen l + zlen body - zlen l) with (zlen body) by lia. rewrite (u64_small (zlen body)) by (unfold PB_MAX in *; lia).
  rewrite varint_len_ok by (unfold PB_MAX in *; lia). set (vb := varint (zlen body)).
  assert (zlen vb <= 10) by (pose proof (varint_bytes_len 10 (zlen body)); unfold vb, varint; lia). pose proof (zlen_nonneg vb).
  pose proof (pb_reserve_ok p (l ++ body) (zlen vb) Hp ltac:(lia) ltac:(rewrite zlen_app; lia)) as Hr.
  destruct (pb_reserve junk p (zlen vb)) as [[] p1]; cbn [negb]; [|by left]. destruct Hr as (Hh & El1 & Hc). right.
  pose proof (holds_len _ _ Hh) as El2. rewrite zlen_app in El2. destruct Hh as (O1 & O3 & O4 & O5). unfold pb_bytes, pb_cap in *.
  set (buf := pb_buf p1) in *. set (tl := zdrop (pb_len p1) buf).
  assert (buf = (l ++ body) ++ tl) as Eb by (rewrite <- O5; symmetry; apply ztake_zdrop).
  assert (zlen buf = zlen l + zlen body + zlen tl) as Ebl by (rewrite Eb at 1; rewrite !zlen_app; lia).
  assert (ztake (zlen l) buf = l) as Etl.
  { rewrite Eb, <- app_assoc, ztake_app_le by lia. by apply ztake_all. }
  assert (ztake (zlen body) (zdrop (zlen l) buf) = body) as ->.
  { rewrite Eb, <- app_assoc, zdrop_app_ge, Z.sub_diag, zdrop_0, ztake_app_le by lia. by apply ztake_all. }
  assert (zlen (write_at buf (zlen l + zlen vb) body) = zlen buf) as Ew by (apply write_at_len; lia).
  destruct (put_varint_write 10 (write_at buf (zlen l + zlen vb) body) (zlen l) (zlen body)) as [->|[Hx|Hx]];
    [lia|fold (varint (zlen body)); fold vb; lia|lia| |unfold PB_MAX in *; lia|lia].
  fold (varint (zlen body)). fold vb. unfold PB_MAX in *.
  split; [done|]. unfold pb_cap, pb_bytes. cbn [pb_buf pb_len upd]. rewrite write_at_len by lia. rewrite Ew, u64_small by lia.
  split; [lia|]. split; [done|]. rewrite El2, (shift_in buf (zlen l) body vb tl); [unfold delimited; by rewrite Etl| |lia|lia].
  by rewrite Etl, app_assoc.
Qed.
End Writer.
End Facts.

Implicit Types (p : pbuf) (l data : list Z) (f : pfield) (fs : list pfield).

Section pfield_induction.
Variable Q : pfield -> Prop.
Hypothesis Hvarint : forall n v, Q (FVarint n v).
Hypothesis Hsint : forall n v, Q (FSint32 n v).
Hypothesis Hbool : forall n v, Q (FBool n v).
Hypothesis Hfixed : forall n v, Q (FFixed64 n v).
Hypothesis Hbytes : forall n data, Q (FBytes n data).
Hypothesis Hmsg : forall n fs, Forall Q fs -> Q (FMsg n fs).
Fixpoint pfield_nested f : Q f :=
  match f with
  | FVarint n v => Hvarint n v
  | FSint32 n v => Hsint n v
  | FBool n v => Hbool n v
  | FFixed64 n v => Hfixed n v
  | FBytes n data => Hbytes n data
  | FMsg n fs => Hmsg n fs ((fix go fs : Forall Q fs :=
      match fs with [] => Forall_nil_2 Q | f :: fs => Forall_cons_2 Q f fs (pfield_nested f) (go fs) end) fs)
  end.
End pfield_induction.

Definition fields_ok fs : Prop := Forall field_ok fs.
Lemma field_ok_msg n fs : field_ok (FMsg n fs) <-> field_num n /\ fields_ok fs.
Proof.
  cbn. apply and_iff_compat_l. unfold fields_ok. induction fs as [|f fs IH]; cbn; [by split|]. rewrite Forall_cons, IH. done.
Qed.

(** ** Zigzag and fixed-width values *)
Lemma testbit_high x n i : 0 <= x < 2 ^ n -> 0 <= n <= i -> Z.testbit x i = false.
Proof. intros Hx Hi. rewrite <- (Z.mod_small x (2 ^ n)) by done. apply Z.mod_pow2_bits_high. lia. Qed.
Lemma lxor_ones x n : 0 <= n -> 0 <= x < 2 ^ n -> Z.lxor x (Z.ones n) = Z.ones n - x.
Proof.
  intros Hn Hx. rewrite Z.sub_nocarry_ldiff.
  - apply Z.bits_inj'. intros i Hi. rewrite Z.lxor_spec, Z.ldiff_spec. destruct (Z.lt_ge_cases i n).
    + rewrite Z.ones_spec_low by lia. by destruct (Z.testbit x i).
    + rewrite Z.ones_spec_high by lia. by rewrite (testbit_high x n i).
  - apply Z.bits_inj'. intros i Hi. rewrite Z.ldiff_spec, Z.bits_0. destruct (Z.lt_ge_cases i n).
    + rewrite Z.ones_spec_low by lia. apply andb_false_r.
    + by rewrite (testbit_high x n i).
Qed.

Lemma zigzag_ok v : - 2 ^ 31 <= v < 2 ^ 31 -> zigzag v = if v <? 0 then - 2 * v - 1 else 2 * v.
Proof.
  intros Hv. unfold zigzag. rewrite Z.shiftl_mul_pow2, Z.shiftr_div_pow2 by lia. change (2 ^ 1) with 2. destruct (Z.ltb_spec v 0).
  - assert (u32 v = v + 2 ^ 32) as -> by (unfold u32; symmetry; apply (Z.mod_unique_pos _ _ (-1)); lia).
    assert (u32 ((v + 2 ^ 32) * 2) = 2 * v + 2 ^ 32) as -> by (unfold u32; symmetry; apply (Z.mod_unique_pos _ _ 1); lia).
    assert (v / 2 ^ 31 = -1) as -> by (symmetry; apply (Z.div_unique_pos _ _ _ (v + 2 ^ 31)); lia).
    change (u32 (-1)) with (Z.ones 32). rewrite lxor_ones by lia. change (Z.ones 32) with (2 ^ 32 - 1). lia.
  - rewrite (u32_small v), (u32_small (v * 2)) by lia. rewrite Z.div_small by lia. change (u32 0) with 0. rewrite Z.lxor_0_r. lia.
Qed.

Fixpoint le_bytes (n : nat) (v : Z) : list Z := match n with O => [] | S n => v mod 256 :: le_bytes n (v / 256) end.
Lemma le_value_bytes n : forall v, 0 <= v < 256 ^ Z.of_nat n -> le_value (le_bytes n v) = v.
Proof.
  induction n as [|n IH]; intros v Hv; [cbn in *; lia|]. rewrite Nat2Z.inj_succ, Z.pow_succ_r in Hv by lia.
  cbn [le_bytes le_value foldr]. fold (le_value (le_bytes n (v / 256))). rewrite IH; [pose proof (Z.div_mod v 256); lia|].
  split; [apply Z.div_pos; lia|apply Z.div_lt_upper_bound; lia].
Qed.
Lemma fixed64_le v : fixed64_bytes v = le_bytes 8 v.
Proof.
  unfold fixed64_bytes. change (seqZ 0 8) with [0; 1; 2; 3; 4; 5; 6; 7]. cbn [map le_bytes]. unfold u8.
  rewrite !Z.shiftr_div_pow2 by lia. rewrite !Z.div_div by lia. repeat f_equal; try done. by rewrite Z.div_1_r.
Qed.
Lemma zlen_fixed64 v : zlen (fixed64_bytes v) = 8. Proof. done. Qed.

(** ** Emission *)
Section Emit.
Variable junk : Z -> Z.

Lemma varint_field_ok p l n w v : okay p l -> zlen l + 30 <= PB_MAX -> field_num n -> 0 <= w < 8 ->
  okay (pb_varint junk (pb_tag junk p n w) v) (l ++ tag n w ++ varint v).
Proof.
  intros Hp Hm Hn Hw. rewrite app_assoc. apply pb_varint_ok; [by apply pb_tag_ok; [|lia|..]|].
  pose proof (varint_bytes_len 10 (n * 8 + w)). rewrite zlen_app. unfold tag, varint. lia.
Qed.

Lemma tag_len n w : 1 <= zlen (tag n w) <= 10.
Proof.
  pose proof (varint_bytes_len 10 (n * 8 + w)). unfold tag, varint in *. split; [|lia]. rewrite varint_cons.
  destruct (_ =? 0); rewrite zlen_cons; [done|]. pose proof (zlen_nonneg (varint_bytes 9 ((n * 8 + w) / 128))). lia.
Qed.

Lemma emit_oom f : forall p, pb_oom p = true -> emit_field junk f p = p.
Proof.
  induction f as [n v|n v|n v|n v|n data|n fs IH] using pfield_nested; intros p Ho; cbn [emit_field];
    unfold pb_field_varint, pb_field_sint32, pb_field_bool, pb_field_fixed64, pb_field_bytes, pb_submsg_begin, pb_tag, pb_varint, pb_fixed64;
    rewrite ?(raw_oom junk p) by done; rewrite ?raw_oom by done; try done.
  assert (fold_left (fun p f => emit_field junk f p) fs p = p) as ->.
  { induction IH as [|f fs Hf _ IHl]; [done|]. cbn. by rewrite Hf. }
  unfold pb_submsg_end. by rewrite reserve_oom.
Qed.
Lemma emits_oom fs p : pb_oom p = true -> emit_fields junk fs p = p.
Proof. unfold emit_fields. induction fs as [|f fs IH]; intros Ho; [done|]. cbn. rewrite emit_oom by done. by apply IH. Qed.

Lemma emit_field_ok f : forall p l, okay p l -> field_ok f -> zlen l + zlen (enc_field f) + 30 <= PB_MAX ->
  okay (emit_field junk f p) (l ++ enc_field f).
Proof.
  induction f as [n v|n v|n v|n v|n data|n fs IH] using pfield_nested; intros p l Hp Hok Hm.
  - apply varint_field_ok; [done| |apply Hok|unfold PB_WIRE_VARINT; lia]. pose proof (zlen_nonneg (enc_field (FVarint n v))). lia.
  - cbn [emit_field enc_field]. unfold pb_field_sint32. destruct Hok as [Hn Hv]. rewrite zigzag_ok by done.
    apply varint_field_ok; [done| |done|unfold PB_WIRE_VARINT; lia]. pose proof (zlen_nonneg (enc_field (FSint32 n v))). lia.
  - apply varint_field_ok; [done| |apply Hok|unfold PB_WIRE_VARINT; lia]. pose proof (zlen_nonneg (enc_field (FBool n v))). lia.
  - cbn [emit_field enc_field] in *. unfold pb_field_fixed64, pb_fixed64. rewrite app_assoc. rewrite zlen_app in Hm. pose proof (tag_len n PB_WIRE_I64).
    rewrite zlen_fixed64 in Hm. apply pb_raw_ok; [apply pb_tag_ok; [done|lia|apply Hok|unfold PB_WIRE_I64; lia]|]. rewrite zlen_app, zlen_fixed64. lia.
  - cbn [emit_field enc_field] in *. unfold pb_field_bytes, delimited in *. rewrite !app_assoc. rewrite !zlen_app in Hm. pose proof (tag_len n PB_WIRE_LEN).
    pose proof (zlen_nonneg (varint (zlen data))). pose proof (zlen_nonneg data). apply pb_raw_ok; [|rewrite !zlen_app; lia]. apply pb_varint_ok; [|rewrite zlen_app; lia].
    apply pb_tag_ok; [done|lia|apply Hok|unfold PB_WIRE_LEN; lia].
  - apply field_ok_msg in Hok as [Hn Hfs]. cbn [emit_field enc_field] in *. fold (enc_fields fs) in *. unfold pb_submsg_begin, delimited in *.
    rewrite !zlen_app in Hm. pose proof (tag_len n PB_WIRE_LEN). pose proof (zlen_nonneg (varint (zlen (enc_fields fs)))). pose proof (zlen_nonneg (enc_fields fs)).
    set (p1 := pb_tag junk p n PB_WIRE_LEN). assert (okay p1 (l ++ tag n PB_WIRE_LEN)) as Hp1 by (apply pb_tag_ok; [done|lia|done|unfold PB_WIRE_LEN; lia]).
    fold (emit_fields junk fs p1). set (l1 := l ++ tag n PB_WIRE_LEN) in *.
    assert (okay (emit_fields junk fs p1) (l1 ++ enc_fields fs)) as Hp2.
    { assert (zlen l1 + zlen (enc_fields fs) + 30 <= PB_MAX) as Hm1 by (unfold l1; rewrite zlen_app; lia). clearbody l1 p1. clear - IH Hfs Hp1 Hm1.
      revert p1 l1 Hp1 Hm1. induction IH as [|f fs Hf _ IHl]; intros p1 l1 Hp1 Hm1; [by rewrite app_nil_r|].
      inversion Hfs as [|? ? Hfa Hfb]; subst. cbn [enc_fields flat_map] in *. fold (enc_fields fs) in *. rewrite zlen_app in Hm1.
      pose proof (zlen_nonneg (enc_fields fs)). cbn [emit_fields fold_left]. rewrite app_assoc. apply IHl; [done| |rewrite zlen_app; lia].
      apply Hf; [done|done|lia]. }
    destruct Hp1 as [Ho|Hp1].
    + left. rewrite emits_oom by done. unfold pb_submsg_end. by rewrite reserve_oom.
    + rewrite (holds_len _ _ Hp1). rewrite app_assoc. fold l1. destruct Hp2 as [Ho|Hp2].
      * left. unfold pb_submsg_end. by rewrite reserve_oom.
      * apply pb_submsg_end_ok; [done|]. unfold l1. rewrite zlen_app. lia.
Qed.

Lemma emit_fields_ok fs : forall p l, okay p l -> fields_ok fs -> zlen l + zlen (enc_fields fs) + 30 <= PB_MAX ->
  okay (emit_fields junk fs p) (l ++ enc_fields fs).
Proof.
  induction fs as [|f fs IH]; intros p l Hp Hok Hm; [by rewrite app_nil_r|]. inversion Hok as [|? ? Hf Hfs]; subst.
  cbn [enc_fields flat_map] in *. fold (enc_fields fs) in *. rewrite zlen_app in Hm. pose proof (zlen_nonneg (enc_fields fs)).
  cbn [emit_fields fold_left]. rewrite app_assoc. apply IH; [|done|rewrite zlen_app; lia]. apply emit_field_ok; [done|done|lia].
Qed.

(** While allocations succeed the buffer is never poisoned. *)
Definition healthy p : Prop := pb_oom p = false /\ pb_env p = [].
Lemma reserve_healthy p n : healthy p -> healthy (pb_reserve junk p n).2 /\ (pb_reserve junk p n).1 = true.
Proof. intros [H1 H2]. unfold pb_reserve. rewrite H1, H2. cbn [alloc]. by destruct (_ <=? _). Qed.
Lemma raw_healthy p data : healthy p -> healthy (pb_raw junk p data).
Proof.
  intros H. unfold pb_raw. destruct (reserve_healthy p (zlen data) H) as [H1 H2].
  destruct (pb_reserve junk p (zlen data)) as [ok p1]. cbn in *. by rewrite H2.
Qed.
Lemma emit_healthy f : forall p, healthy p -> healthy (emit_field junk f p).
Proof.
  induction f as [n v|n v|n v|n v|n data|n fs IH] using pfield_nested; intros p Hp; cbn [emit_field]; try (repeat apply raw_healthy; done).
  unfold pb_submsg_begin. set (p1 := pb_tag junk p n PB_WIRE_LEN). assert (healthy p1) as Hp1 by by apply raw_healthy.
  generalize (pb_len p1) as start. intros start. assert (healthy (fold_left (fun p f => emit_field junk f p) fs p1)) as Hp2.
  { clearbody p1. revert p1 Hp1. induction IH as [|f fs Hf _ IHl]; intros p1 Hp1; [done|]. cbn. by apply IHl, Hf. }
  unfold pb_submsg_end. set (p2 := fold_left _ _ _) in *. clearbody p2. set (vlen := varint_len _).
  destruct (reserve_healthy p2 vlen Hp2) as [H1 H2]. destruct (pb_reserve junk p2 vlen) as [ok p3]. cbn in H1, H2. by rewrite H2.
Qed.
Lemma emits_healthy fs : forall p, healthy p -> healthy (emit_fields junk fs p).
Proof. induction fs as [|f fs IH]; intros p Hp; [done|]. cbn. by apply IH, emit_healthy. Qed.
End Emit.

(** ** Reading back *)
Lemma get_tag n w r : field_num n -> 0 <= w < 8 -> get_varint (tag n w ++ r) = Some (n * 8 + w, r).
Proof. intros Hn Hw. unfold field_num in Hn. apply get_varint_varint. lia. Qed.
Lemma tag_split n w : 0 <= w < 8 -> (n * 8 + w) mod 8 = w /\ (n * 8 + w) / 8 = n.
Proof. intros. zify_mod. lia. Qed.

(** Read a field's tag and select the branch of its wire type. *)
Ltac read_tag n w :=
  rewrite <- app_assoc, get_tag by done; cbn [mbind option_bind]; destruct (tag_split n w) as [-> ->]; [done|];
  change (PB_WIRE_LEN =? PB_WIRE_VARINT) with false; change (PB_WIRE_LEN =? PB_WIRE_I64) with false;
  change (PB_WIRE_I64 =? PB_WIRE_VARINT) with false; rewrite Z.eqb_refl; cbv iota.

Lemma parse_step fuel f r : field_ok f -> zlen (enc_field f) < 2 ^ 64 ->
  parse (S fuel) (enc_field f ++ r) = rest ← parse fuel r; Some (wire_of f :: rest).
Proof.
  intros Hok Hl. assert (exists b t, enc_field f ++ r = b :: t) as (b & t & Eb).
  { pose proof (tag_len 0 0). destruct f as [n v|n v|n v|n v|n data|n fs]; cbn [enc_field];
      (match goal with |- context [tag ?n ?w] => pose proof (tag_len n w) as Ht; destruct (tag n w) as [|b t] end; [change (zlen []) with 0 in Ht; lia|by eexists _, _]). }
  assert (parse (S fuel) (enc_field f ++ r) = ('(t, l) ← get_varint (enc_field f ++ r);
      if t mod 8 =? PB_WIRE_VARINT then
        '(v, l) ← get_varint l; rest ← parse fuel l; Some ((t / 8, WVarint v) :: rest)
      else if t mod 8 =? PB_WIRE_I64 then
        if zlen l <? 8 then None
        else rest ← parse fuel (zdrop 8 l); Some ((t / 8, WI64 (le_value (ztake 8 l))) :: rest)
      else if t mod 8 =? PB_WIRE_LEN then
        '(n, l) ← get_varint l;
        if zlen l <? n then None
        else rest ← parse fuel (zdrop n l); Some ((t / 8, WLen (ztake n l)) :: rest)
      else None)) as -> by by rewrite Eb.
  assert (forall n d l, field_num n -> zlen d < 2 ^ 64 -> l = delimited d ++ r ->
    ('(k, l) ← get_varint l; if zlen l <? k then None else rest ← parse fuel (zdrop k l); Some ((n, WLen (ztake k l)) :: rest)) =
    (rest ← parse fuel r; Some ((n, WLen d) :: rest))) as Hd.
  { intros n d l Hn Hz ->. pose proof (zlen_nonneg d). unfold delimited. rewrite <- app_assoc, get_varint_varint by lia. cbn [mbind option_bind].
    destruct (Z.ltb_spec (zlen (d ++ r)) (zlen d)) as [Hx|_]; [rewrite zlen_app in Hx; pose proof (zlen_nonneg r); lia|].
    rewrite ztake_app_le, ztake_all, zdrop_app_ge, Z.sub_diag, zdrop_0 by lia. done. }
  destruct f as [n v|n v|n v|n v|n data|n fs]; [| | | | |apply field_ok_msg in Hok as [Hn Hfs]]; cbn [enc_field wire_of] in *.
  - destruct Hok as [Hn Hv]. read_tag n PB_WIRE_VARINT.
    rewrite get_varint_varint by done. done.
  - destruct Hok as [Hn Hv]. read_tag n PB_WIRE_VARINT.
    rewrite get_varint_varint by (destruct (Z.ltb_spec v 0); lia). done.
  - read_tag n PB_WIRE_VARINT.
    rewrite get_varint_varint by (destruct v; lia). done.
  - destruct Hok as [Hn Hv]. read_tag n PB_WIRE_I64.
    destruct (Z.ltb_spec (zlen (fixed64_bytes v ++ r)) 8) as [Hx|_]; [rewrite zlen_app, zlen_fixed64 in Hx; pose proof (zlen_nonneg r); lia|].
    rewrite ztake_app_le, ztake_all, zdrop_app_ge, zlen_fixed64, zdrop_0 by (rewrite ?zlen_fixed64; lia).
    rewrite fixed64_le, le_value_bytes by lia. done.
  - destruct Hok as [Hn Hb]. read_tag n PB_WIRE_LEN.
    apply Hd; [done| |done]. unfold delimited in Hl. rewrite !zlen_app in Hl. pose proof (zlen_nonneg (tag n PB_WIRE_LEN)). pose proof (zlen_nonneg (varint (zlen data))). lia.
  - read_tag n PB_WIRE_LEN.
    apply Hd; [done| |done]. unfold delimited in Hl. rewrite !zlen_app in Hl. pose proof (zlen_nonneg (tag n PB_WIRE_LEN)). fold (enc_fields fs) in *. pose proof (zlen_nonneg (varint (zlen (enc_fields fs)))). lia.
Qed.

Lemma parse_fields fs : forall fuel, fields_ok fs -> zlen (enc_fields fs) < 2 ^ 64 -> (length fs <= fuel)%nat ->
  parse fuel (enc_fields fs) = Some (map wire_of fs).
Proof.
  induction fs as [|f fs IH]; intros fuel Hok Hl Hf; [by destruct fuel|]. inversion Hok as [|? ? Hf1 Hf2]; subst.
  destruct fuel as [|fuel]; [cbn in Hf; lia|]. cbn [enc_fields flat_map] in *. fold (enc_fields fs) in *. rewrite zlen_app in Hl.
  pose proof (zlen_nonneg (enc_fields fs)). pose proof (zlen_nonneg (enc_field f)). rewrite parse_step by (done || lia).
  rewrite IH; [done|done|lia|cbn in Hf; lia].
Qed.

Lemma enc_fields_length fs : (length fs <= length (enc_fields fs))%nat.
Proof.
  induction fs as [|f fs IH]; [done|]. cbn [enc_fields flat_map]. fold (enc_fields fs). rewrite length_app.
  assert (1 <= length (enc_field f))%nat; [|cbn; lia].
  destruct f as [n v|n v|n v|n v|n data|n gs]; cbn [enc_field]; rewrite length_app;
    match goal with |- context [tag ?n ?w] => pose proof (tag_len n w) as Ht end; unfold zlen in Ht; lia.
Qed.

Lemma init_okay env : okay (pb_init env) [].
Proof. right. split; [done|]. split; [done|]. split; [done|done]. Qed.

(** C35: The writer emits proto3.  Writing any nested document with the field
    calls and begin/end of submessages, in any nesting, leaves exactly its
    length-delimited proto3 encoding in the buffer, and a proto3 reader recovers
    every field number and value of it (each submessage's bytes being the
    encoding of its own fields). *)
Theorem pb_document_roundtrip junk fs :
  fields_ok fs -> zlen (enc_fields fs) + 30 <= PB_MAX ->
  let p := emit_fields junk fs (pb_init []) in
  pb_oom p = false /\ pb_bytes p = enc_fields fs /\ parse (length (pb_bytes p)) (pb_bytes p) = Some (map wire_of fs).
Proof.
  intros Hok Hm p. destruct (emits_healthy junk fs (pb_init [])) as [Ho _]; [done|]. fold p in Ho.
  destruct (emit_fields_ok junk fs (pb_init []) [] (init_okay [])) as [Ho'|(_ & _ & _ & Hb)]; [done|done|fold p in Ho'; congruence|].
  fold p in Hb. cbn [app] in Hb. split; [done|]. split; [done|]. rewrite Hb. apply parse_fields; [done|unfold PB_MAX in Hm; lia|apply enc_fields_length].
Qed.

(** No silent truncation.  Whichever allocations fail while a document is
    appended to a live buffer, the writer ends either with the whole encoding
    appended or with the sticky out-of-memory flag, after which every further
    field leaves the buffer exactly as it is. *)
Theorem pb_oom_sticky junk p l fs gs :
  holds p l -> fields_ok fs -> zlen l + zlen (enc_fields fs) + 30 <= PB_MAX ->
  let p' := emit_fields junk fs p in
  pb_oom p' = false /\ pb_bytes p' = l ++ enc_fields fs \/
  pb_oom p' = true /\ emit_fields junk gs p' = p'.
Proof.
  intros Hp Hok Hm p'. destruct (emit_fields_ok junk fs p l (or_intror Hp) Hok Hm) as [Ho|(Ho & _ & _ & Hb)]; [right|left; done].
  split; [done|]. by apply emits_oom.
Qed.

(** ** Witnesses *)
Definition w_doc : list pfield := [FVarint 1 300; FMsg 2 [FBytes 1 [104; 105]; FSint32 3 (-2); FMsg 4 []]; FFixed64 5 (2 ^ 63); FBool 6 true].
Lemma w_doc_ok : fields_ok w_doc.
Proof. repeat (constructor; [cbn; unfold field_num; repeat split; try lia; repeat (constructor; try lia)|]). constructor. Qed.
Lemma pb_document_roundtrip_witness :
  pb_oom (emit_fields (fun i => i) w_doc (pb_init [])) = false /\
  pb_bytes (emit_fields (fun i => i) w_doc (pb_init [])) = enc_fields w_doc /\
  parse (length (pb_bytes (emit_fields (fun i => i) w_doc (pb_init [])))) (pb_bytes (emit_fields (fun i => i) w_doc (pb_init []))) = Some (map wire_of w_doc).
Proof. apply (pb_document_roundtrip (fun i => i) w_doc); [exact w_doc_ok|vm_compute; discriminate]. Defined.

Lemma pb_oom_sticky_witness :
  pb_oom (emit_fields (fun i => 0) w_doc (pb_init [true])) = false /\ pb_bytes (emit_fields (fun i => 0) w_doc (pb_init [true])) = [] ++ enc_fields w_doc \/
  pb_oom (emit_fields (fun i => 0) w_doc (pb_init [true])) = true /\
    emit_fields (fun i => 0) [FBool 1 true] (emit_fields (fun i => 0) w_doc (pb_init [true])) = emit_fields (fun i => 0) w_doc (pb_init [true]).
Proof.
  apply (pb_oom_sticky (fun i => 0) (pb_init [true]) [] w_doc [FBool 1 true]); [|exact w_doc_ok|vm_compute; discriminate].
  repeat split; concrete.
Defined.
